(* ===== verification/_CoqProject ===== *)
-Q . S2P
Prelude.v
Links.v
Queue.v
SList.v
DList.v
CStrings.v
Tokens.v
IpAddr.v
Hash.v
NameTable.v
AtomTable.v
NsComp.v
NsMgr.v
NsRegistry.v
Checksum.v
Packet.v
PacketMem.v
PacketThms.v
PacketCut.v
PacketRefine.v
PacketSum.v
PacketFaults.v
Base64.v
ObjArray.v
Timer.v
TimerLive.v
PlatTimer.v
Asn1.v
DerLength.v
DerHeader.v
DerTag.v
DerAttrs.v
DerInt.v
DerIntThms.v
DerOid.v
DerOidThms.v
XmlText.v
XmlNode.v
XmlParse.v
XmlRead.v
XmlSafe.v
XmlType.v
XmlValue.v
AliasTree.v
AliasMgr.v
AliasThms.v
AliasFile.v
SlapVar.v
SlapConv.v
SlapCast.v
VarValid.v
VarEntity.v
VarRecord.v
ObjRecord.v
ObjCtl.v
ParamSet.v
ParamShape.v
ParamStage.v
ParamThms.v
ParamAtomic.v
ParamFaults.v
