(* ===== verification/Prelude.v ===== *)
(** * CcspCommonLibrary: a verification development

    CcspCommonLibrary is the base of the RDK-B components: the platform
    library "ansc" (intrusive lists, strings, token chains, hash and atom
    tables, checksums, packets, encodings, timers, the XML parser), the arrays of
    "cosa", the basic values of ASN.1 and their encoding in DER, the part of the CCSP message bus that
    every component shares: the namespace manager of the Component Registrar
    and the alias manager, and the data model library "Dslh", through which a
    component offers its parameters, with the values of SLAP it is made of.
    This development models the core of
    these parts from the C sources under source/ and proves what they promise
    to each other.

    ** How the parts interact

    The namespace manager keeps one object per registered component and an
    atom table from namespaces to their component; a component object keeps
    its namespaces in a queue.  The atom table hashes names and numbers into
    buckets, which are singly linked lists.  The token chains are queues of
    tokens cut out of strings by the scanners of the string library; the
    manager cuts a namespace into tokens to normalize it.

    The alias manager translates the names of parameters between an external
    and the internal vocabulary.  It loads the pairs of names from a mapper
    file through the XML parser and cuts names into tokens to insert them into
    two trees, one per direction.  The blocks of a packet are in a queue,
    and its sums use the checksum routines.  The timer scheduler is a task
    beside the code that starts and stops timers; the two share the queue of
    the scheduler under a lock.  Object identifiers are kept in arrays, which
    the code sorts and searches.

    A value of ASN.1 is an object with a list of attributes, which wrap its
    encoding in tags of their own.  Its methods write and read the headers of
    the attributes with the routines they share, and then their own contents.

    The data model library has a tree of records of objects and of parameters.
    A request to set parameters finds the record of each by cutting its name
    into tokens, tests the value against the declaration of the parameter with
    the recognizers of the string library and the converter of SLAP, and keeps
    it in the record; then the controller of each object hands the values to
    its backend, a table of functions, and all backends commit or roll back.

    ** Which file models which part

    - [Prelude]: outcomes of C code ([Done] or a named fault), integers at
      their width, buffers and C strings, allocations that may fail, counted
      loops, and the lemmas, hints and tactics the other files share.
    - [Links]: the store of list cells; a cell has the fields of the structures
      of cosa/include/ansc_common_structures.h, and an access to a cell outside
      the store is a fault.  List segments and the two scanning loops.
    - [Queue], [SList], [DList]: ansc_queue.c, ansc_slist.c, ansc_dlist.c and
      the macros of ansc_common_structures.h and ansc_wrapper_api.h, as code on
      that store, every operation.
    - [CStrings], [IpAddr]: ansc_string.c.  A string is the list of its bytes
      without the terminator, a pointer into it a suffix of it.
    - [Tokens]: ansc_token.c.  A chain is the list its queue represents.
    - [Hash]: ansc_hash.c.
    - [AtomTable]: AnscAtomTable/ansc_ato_*.c; [NameTable] is the interface
      through which other components use it, a type class of operations with
      their laws on an abstract table.
    - [NsComp]: ccsp_ns_comp_base.c and ccsp_ns_comp_operation.c.
    - [NsMgr]: ccsp_ns_mgr_base.c and ccsp_ns_mgr_operation.c, over any table
      that satisfies [NameTable]; [NsRegistry] instantiates it with the atom
      table and runs concrete histories.
    - [Checksum]: ansc_checksum.c and ansc_swap.c.
    - [Packet]: ansc_packet.c and the macros of ansc_buffer_descriptor.h and
      ansc_packet_descriptor.h on a store of descriptors and buffers.
      [PacketMem] has the invariant of the store and what releasing and breaking
      a block do to it, [PacketThms] and [PacketCut] what each operation does
      to the bytes of packets, [PacketRefine] the programs that call the
      operations, [PacketSum] the sums over a packet, [PacketFaults] what fails.
    - [Base64]: ansc_base64.c.
    - [ObjArray]: cosa/utilities/AnscObjectArray, the arrays of numbers,
      pointers and bytes.
    - [Timer]: AnscTimerScheduler, timer descriptors and schedulers with their
      steps, and the runs of the system of tasks and owners of timers;
      [TimerLive] has its theorems; [PlatTimer] is the older scheduler of
      ansc_timer.c.
    - [Asn1]: asn.1/components/common/ansc_asn1.c.
    - [DerLength]: the lengths, headers, blocks and texts of
      asn.1/components/asn1_basic/ansc_asn1_utils.c and
      ansc_asn1_taginfo_interface.c, with what a writer of bytes is; [DerHeader]
      has the theorems on them.  [DerTag]: ansc_asn1_attr_interface.c, the tag
      of an attribute.  [DerAttrs]: the lists of attributes in
      ansc_asn1_export_utils.c and the base class, and the class [Asn1Object]
      of the methods that the base class calls.  [DerInt], [DerIntThms]:
      ansc_asn1_integer.c; [DerOid], [DerOidThms]: ansc_asn1_oid.c.
    - [XmlText]: the text routines of ansc_xml_dom_parser_util.c.
    - [XmlNode]: the nodes of a document, ansc_xml_dom_node_base.c,
      ansc_xml_dom_node_management.c and ansc_xml_dom_node_operation.c, and
      the routines that write them; [XmlValue]: the values of attributes and
      texts, ansc_xml_dom_node_read.c and ansc_xml_dom_node_write.c.
    - [XmlParse]: finding and reading a node, in ansc_xml_dom_parser_util.c and
      in the copy of it in ansc_xml_dom_node_operation.c, and the parser object
      ansc_xml_dom_parser_*.c; [XmlRead] reads what [XmlNode] writes, [XmlSafe]
      reads any bytes, [XmlType] has the shape of what is read.
    - [AliasTree], [AliasMgr], [AliasThms]: CCSP_AliasMgr, the insertion of
      aliases, looking up and translating, and what follows for loaded files.
      The nodes of a mapper file are the class [XmlDom]; [AliasFile] makes the
      nodes of [XmlNode] an instance of it and loads a file from its bytes.
    - [SlapVar]: the variable of SLAP, slap_definitions.h, with its comparison
      and its copy; [SlapConv]: slap_vco_stringto.c and slap_vco_tostring.c;
      [SlapCast]: the other conversions, slap_vco_conversion.c and its arrays.
    - [VarValid]: dslh_varro_utility.c, the checks of texts by content type.
    - [VarEntity]: the declarations of parameters, dslh_wmpdo_utilities.c and
      dslh_vareo_tokens.c; [VarRecord]: the test of a value, what a record
      keeps of it and how it is read, dslh_varro_access.c.
    - [ObjRecord], [ObjCtl]: the records of objects and their controllers,
      dslh_objro_*.c and dslh_objco_access.c.  A backend is a record of
      optional functions on a state that is a parameter.
    - [ParamSet]: the database, its write lock, the sessions of requests and
      the two calls that set and that commit, dslh_wmpdo_mpaif.c.  [ParamShape]
      has the class [TwoPhase] of what a request needs of the backends,
      [ParamStage] and [ParamThms] what each phase of a request does,
      [ParamAtomic] the theorems on whole requests with a small backend,
      [ParamFaults] requests that are no transactions.

    Definitions have the names of the C functions; a loop of a function is a
    definition of its own, named after it or after what it does.  A function
    that the code calls through a pointer in its object is called directly.

    ** What the theorems show

    - Refinement.  Any sequence of operations on a queue, a singly or a doubly
      linked list, without an insertion at index 0 of the last, completes on a
      store that represents a list, acts on the list as its specification says,
      and changes no cell outside its footprint
      ([queue_trace_refines], [slist_trace_refines], [dlist_trace_refines]).
      The same for the atom table against two maps from keys to stacks of
      entries ([atom_table_refines]) and for the arrays against lists
      ([array_trace_refines]), and for the packets against their bytes: cutting,
      joining, copying and moving packets, whose blocks may share buffers, is
      cutting, joining, copying and moving texts ([packets_refine]).  Loading a mapper
      file with mappings that can be read and names that fit builds trees that
      stand for the maps its mappings add up to, unless its root is empty
      ([alias_load_refines]), and so does loading the bytes of a file through the XML parser
      ([alias_file_loads]).  A request to set parameters, from the test of its
      values to the commit of the backends, is a transaction on what the
      backends have committed: all of it or nothing, and nothing is left
      behind ([set_parameter_values_atomic]); so also when the commit is left
      to a later call ([commit_now_is_commit_later]) or refused there
      ([deferred_request_can_be_dropped]).
    - Invariants.  Every state of the namespace manager reached by registering,
      building and withdrawing is consistent: the table and the queues of the
      components agree and no handle dangles ([ns_mgr_invariant]).  In every
      state of the timers that tasks and owners reach by any interleaving of
      their steps, the queue of a scheduler has each of its started timers once
      and no other ([timer_invariant]).  The reference counts of buffer
      descriptors are exact, and nothing is left when every packet is released
      ([packets_leak_nothing]).
    - Types and termination.  Whatever bytes the XML parser is given, it ends
      ([xml_parser_ends]), and a document it yields has valid names within
      their buffers, terminated texts of the sizes it records and levels that
      count from 0 ([xml_parse_typed]).
    - Order and liveness.  Timers leave the queue in the order of the times at
      which they are due ([timer_fires_in_order]), and one that is due is fired
      within a number of wake-ups its place in the queue bounds
      ([timer_liveness]).
    - Functional behaviour on every branch: registration, withdrawal and
      discovery of namespaces, normalization of a namespace, the queues of a
      component, the tokenizers, address recognition, hashing, byte swapping,
      the translations of the alias manager, the order of object identifiers
      and of integers, sorting and searching an array of identifiers.  A
      parameter accepts the numbers between the limits of its declaration
      ([declared_range_enforced]); the masks and the URLs that the checks accept
      are stated exactly, with what is wrong about them.
    - Round trips: token chains, decimal and hexadecimal numbers, IPv6
      addresses, base64, the namespaces of a component, the names the alias
      manager translates, the dotted notation of object identifiers, escaped
      XML text and hexadecimal data, the values of attributes and texts,
      whole documents ([xml_round_trip]), the values that the converter of
      SLAP prints ([slap_round_trips]), and in DER values with their headers
      ([tlv_round_trip]), the tags of attributes ([class_number_round_trip],
      which says which class numbers are lost), integers behind their
      attributes ([integer_round_trip], [big_integer_round_trip]) and object
      identifiers, with what the decoder accepts of them ([oid_round_trip]).
    - Equivalence: the checksum routines with the sum modulo 65535, and the
      incremental update of a checksum with its recomputation; the packing number
      of a packet with that of its bytes ([packet_sums]); resolving
      references of XML in place with a function on texts; the insertion of
      the two timer schedulers.
    - Memory: releasing a table, a manager or a chain frees each object once;
      the IPv6 parser stays inside its buffers; encoding a document writes
      the number of bytes it announced and none outside its room
      ([AnscXmlDomNodeEncode_spec]).
    - Faults.  Where the code fails, a theorem states exactly when: the
      insertion at index 0 of a doubly linked list and of an array, tokens of
      more than 512 bytes, the over-read of the IPv6 parser, resizing an atom
      table, an unchecked allocation of an atom's name, a discovery that
      matches more than 64 components, a namespace whose normal form exceeds
      its buffer, the withdrawal of a foreign namespace, a timer of interval zero
      that starves the others, a platform timer that is registered while the
      last task leaves and never fires, a mapper file without lists, text whose
      escaped form overflows its buffer, an ampersand without a semicolon, on
      which resolving never ends, a field of sixteen digits in an object
      identifier, a node name of exactly 48 bytes, a text without a tag behind
      it, a node with 65536 children, a mapper file without a tag, a packet with
      a free function of its own ([AnscFreePdo_faults]), lengths and numbers in
      DER where an unsigned long has 64 bits ([long_values_are_lost],
      [numbers_are_lost]), identifiers that are encoded and not decoded
      ([oid_faults]), a mapping that fails,
      a MAC address shorter than seventeen characters, the port of a URL with
      more than five digits, a declaration "base64" without a length, a value
      that access control denies and that is committed later, and values that
      are lost while the request succeeds ([refused_values_take_effect],
      [accepted_values_are_lost]).

    ** Integers, bounds and fuel

    Integers are Z with the wrap-around of their C type written out; [Platform]
    has the width of unsigned long (32 or 64 bits), the signedness of char and
    the byte order, and a theorem holds for each choice unless a hypothesis
    fixes one.  Depths of lists are 16 bits wide and wrap.  Allocations take
    their outcome from a stream of booleans; an empty stream always succeeds.

    A loop without a structural argument has fuel, and running out of it is the
    fault [Diverge], so that a theorem "the call completes" includes the end of
    the loop.  The fuel is one more than the number of cells of the store for
    the scans of a list (a longer walk has met a cell twice), than the length
    of the string for the scanners, than the length of the queue for the loops
    that empty it, than the number of descriptors for the release of one (each
    call of itself has released one), than the number of bytes for the
    checksums; it is 4 for the folding of a 32-bit sum and one more than its width for
    that of a packet, 21 for the decimal digits of a 64-bit number, and two more
    than the number of items for the shift of an array, one more than the
    length of the text for resolving references, that number for the nesting of
    nodes and one more for the comments, attributes and children the XML parser
    finds in a block of bytes, each of which takes a byte ([xml_parser_ends]), the sixteen bytes of the buffer
    for the digits of a component of an identifier, 9 for the bytes and 11 for the digits of
    seven bits of a 64-bit number, one more than the length of the data for the
    octets of a tag and for the arcs of an identifier, and 2 for the call of the
    alias manager that calls itself once with the names exchanged.

    Tick counts wrap around.  The theorems on the order of timers are about the
    runs in which the clock and the times at which timers are due stay in one
    window of the length of that range ([in_window]); the counter may wrap
    around inside the window.  The theorems on packets are about programs of up to
    sixteen thousand calls, whose packets have fewer blocks than the 16-bit depth
    of a queue can count.

    ** Conventions and parameters

    [inet_addr] of the C library and [b64_decode] of the trower-base64 library
    are parameters, with their documented results as hypotheses where a theorem
    needs them; the class [SafeString] has what [sprintf_s] leaves when a text
    does not fit, with an instance for each of the two libraries.  Above the list files a queue or a bucket is the list its
    header represents, as the refinement theorems allow.  Objects whose handle
    is shared (atom descriptors, component objects) live in a store from which
    they are removed when they are freed.

    In the files of SLAP, of DER and of the data model library every allocation
    succeeds, and the functions that derived classes may hook into encoding and
    decoding a value of DER are not set.  The parameters there are, besides those two, what [strcat_s]
    leaves when a text does not fit, the functions of the backends, and the
    two calls of the persistent storage.  The theorems on requests assume of
    the backends that they stage values, commit and roll back ([two_phase]) and
    of the database that every object has such a backend and no parameter is
    persistent, watched or denied to the writer ([db_ok]); [ParamAtomic] has a
    database that is so.

    ** What is not modelled

    Traces and the dump routines are left out.  In [Timer] and [PlatTimer] a
    step is a critical section of the code, or the code between two, and the
    steps of tasks and owners interleave freely.  Elsewhere an
    operation runs alone, which the spin locks of the atom table and the lock of
    the database ensure there; the lists and the managers take no lock and leave
    this to their callers.
    Sockets, threads, files, OpenSSL, D-Bus marshalling, TLS, HTTP sessions and
    the web and command-line front ends are input and output or calls of
    libraries.  The classes of the other types of ASN.1 repeat the shape of
    integers and identifiers, and certificates are built of them; both are left out.  Of the arrays, that of
    strings and the release of the others are left out; of SLAP, the objects of
    remote containers, whose state is in other processes.  Of the data model
    library the registration and the removal of objects and of rows, the
    queries of names and attributes and the notifications are left out: they
    build or walk the trees that the modelled calls start from, and a backend
    that changes its tables while it is called is outside the model.  The header
    parser of HTTP, ten thousand lines with a record for each header, is left
    out too. *)

From Stdlib Require Export ZArith Lia.
From stdpp Require Export prelude gmap strings.

#[global] Open Scope Z_scope.

(** ** Outcomes of C code

    A C function either completes with a value or does something the C
    language gives no meaning to.  The second case is kept as a value that
    names the fault, so that a theorem "the call completes" is a statement
    about [Done]. *)

Inductive fault : Set :=
  | NullDeref       (* a NULL pointer is dereferenced *)
  | BadAccess       (* memory that is not (or no longer) allocated is accessed *)
  | OutOfBounds     (* an access past the end of an array or of a fixed buffer *)
  | DivByZero
  | Diverge.        (* the loop never ends *)

Inductive outcome (A : Type) : Type :=
  | Done (a : A)
  | Stuck (f : fault).
Arguments Done {A} a.
Arguments Stuck {A} f.

#[export] Instance outcome_ret : MRet outcome := fun A a => Done a.
#[export] Instance outcome_bind : MBind outcome := fun A B k m =>
  match m with Done a => k a | Stuck f => Stuck f end.
#[export] Instance outcome_fmap : FMap outcome := fun A B g m =>
  match m with Done a => Done (g a) | Stuck f => Stuck f end.

(** ** The state and outcome monad

    Code that works on a mutable store is written in [CM S]: it takes the
    store and yields a value and the store after the call, or a fault. *)

Definition CM (S A : Type) : Type := S -> outcome (A * S).

#[export] Instance CM_ret {S} : MRet (CM S) := fun A a s => Done (a, s).
#[export] Instance CM_bind {S} : MBind (CM S) := fun A B k m s =>
  match m s with Done (a, s') => k a s' | Stuck f => Stuck f end.

Definition cm_fault {S A} (f : fault) : CM S A := fun _ => Stuck f.

Lemma CM_bind_Done {S A B} (m : CM S A) (k : A -> CM S B) s a s' :
  m s = Done (a, s') -> (m ≫= k) s = k a s'.
Proof. intros H. unfold mbind, CM_bind. by rewrite H. Qed.

Lemma bind_if_true {S A B} (P : Prop) `{Decision P} (a b : CM S A) (k : A -> CM S B) s :
  P -> ((if decide P then a else b) ≫= k) s = (a ≫= k) s.
Proof. intros. by rewrite decide_True. Qed.

Lemma bind_if_false {S A B} (P : Prop) `{Decision P} (a b : CM S A) (k : A -> CM S B) s :
  ~ P -> ((if decide P then a else b) ≫= k) s = (b ≫= k) s.
Proof. intros. by rewrite decide_False. Qed.

Lemma bind_ret {S A B} (a : A) (k : A -> CM S B) s : (mret a ≫= k) s = k a s.
Proof. done. Qed.

Lemma outcome_bind_Done {A B} (m : outcome A) (k : A -> outcome B) b :
  m ≫= k = Done b <-> exists a, m = Done a /\ k a = Done b.
Proof.
  split.
  - destruct m as [a|f]; cbn; [eauto | discriminate].
  - by intros (a & -> & H).
Qed.

(** ** Machine integers *)

(** The C implementation the library is built for.  The sources are compiled
    for 32-bit and for 64-bit targets; [ULONG] is [unsigned long]
    (user_base.h), and plain [char] is signed on some of them only. *)
Class Platform := {
  ulong_bits : Z;
  ulong_bits_ok : ulong_bits = 32 \/ ulong_bits = 64;
  char_signed : bool;
  little_endian : bool
}.

Definition wrapU (w z : Z) : Z := z mod 2 ^ w.
Definition wrapS (w z : Z) : Z := (z + 2 ^ (w - 1)) mod 2 ^ w - 2 ^ (w - 1).

Definition UCHAR (z : Z) : Z := z mod 256.
Definition USHORT (z : Z) : Z := z mod 65536.
Definition ULONG `{Platform} (z : Z) : Z := wrapU ulong_bits z.
Definition LONG `{Platform} (z : Z) : Z := wrapS ulong_bits z.
Definition INT (z : Z) : Z := wrapS 32 z.

(** The value of a [char] whose byte is [b] when it is promoted. *)
Definition char_val `{Platform} (b : Z) : Z :=
  if char_signed then if 128 <=? b then b - 256 else b else b.

Lemma ulong_modulus_pos `{Platform} : 0 < 2 ^ ulong_bits.
Proof. by destruct ulong_bits_ok as [-> | ->]. Qed.

Lemma ulong_modulus_ge `{Platform} : 4294967296 <= 2 ^ ulong_bits.
Proof. by destruct ulong_bits_ok as [-> | ->]. Qed.

Lemma ULONG_small `{Platform} z : 0 <= z < 2 ^ ulong_bits -> ULONG z = z.
Proof. apply Z.mod_small. Qed.

Lemma ULONG_bound `{Platform} z : 0 <= ULONG z < 2 ^ ulong_bits.
Proof. apply Z.mod_pos_bound, ulong_modulus_pos. Qed.

Lemma ULONG_small32 `{Platform} z : 0 <= z < 4294967296 -> ULONG z = z.
Proof. intros. apply ULONG_small. pose proof ulong_modulus_ge. lia. Qed.

Lemma ULONG_add_l `{Platform} a b : ULONG (ULONG a + b) = ULONG (a + b).
Proof. apply Zplus_mod_idemp_l. Qed.

Lemma ULONG_add_r `{Platform} a b : ULONG (a + ULONG b) = ULONG (a + b).
Proof. apply Zplus_mod_idemp_r. Qed.

Lemma ULONG_sub_l `{Platform} a b : ULONG (ULONG a - b) = ULONG (a - b).
Proof. apply Zminus_mod_idemp_l. Qed.

Lemma ULONG_mul_l `{Platform} a b : ULONG (ULONG a * b) = ULONG (a * b).
Proof. apply Zmult_mod_idemp_l. Qed.

Lemma ULONG_mul_r `{Platform} a b : ULONG (a * ULONG b) = ULONG (a * b).
Proof. apply Zmult_mod_idemp_r. Qed.

Lemma ULONG_idem `{Platform} a : ULONG (ULONG a) = ULONG a.
Proof. apply Z.mod_mod. pose proof ulong_modulus_pos; lia. Qed.

(** A number that fits a long, and one that fits every long. *)
Lemma LONG_id `{Platform} z : - 2 ^ (ulong_bits - 1) <= z < 2 ^ (ulong_bits - 1) -> LONG z = z.
Proof.
  intros Hz. unfold LONG, wrapS. destruct ulong_bits_ok as [E|E]; rewrite E in *; rewrite Z.mod_small; cbn in *; lia.
Qed.
Lemma LONG_small `{Platform} z : 0 <= z < 2147483648 -> LONG z = z.
Proof. intros Hz. apply LONG_id. destruct ulong_bits_ok as [E|E]; rewrite E; cbn; lia. Qed.

Lemma INT_small z : - 2147483648 <= z < 2147483648 -> INT z = z.
Proof.
  intros Hz. unfold INT, wrapS. change (2 ^ (32 - 1)) with 2147483648. change (2 ^ 32) with 4294967296.
  rewrite Z.mod_small by lia. lia.
Qed.

Lemma USHORT_small z : 0 <= z < 65536 -> USHORT z = z.
Proof. apply Z.mod_small. Qed.

Lemma USHORT_bound z : 0 <= USHORT z < 65536.
Proof. by apply Z.mod_pos_bound. Qed.

Lemma USHORT_succ z : USHORT (USHORT z + 1) = USHORT (z + 1).
Proof. apply Zplus_mod_idemp_l. Qed.

Lemma USHORT_pred z : USHORT (USHORT z - 1) = USHORT (z - 1).
Proof. apply Zminus_mod_idemp_l. Qed.

Create HintDb cint.
#[export] Hint Rewrite @ULONG_add_l @ULONG_add_r @ULONG_mul_l @ULONG_mul_r
  @ULONG_idem USHORT_succ USHORT_pred : cint.
#[export] Hint Resolve ULONG_bound USHORT_bound ulong_modulus_pos : cint.

(** Two concrete platforms, for evaluating the definitions. *)
Definition ilp32 : Platform := {|
  ulong_bits := 32; ulong_bits_ok := or_introl eq_refl;
  char_signed := false; little_endian := true |}.

Definition lp64 : Platform := {|
  ulong_bits := 64; ulong_bits_ok := or_intror eq_refl;
  char_signed := true; little_endian := true |}.

(** ** C strings

    A C string is the list of its bytes, the terminating zero left out; a
    well-formed one has no zero byte and only bytes. *)

Abbreviation cstr := (list Z).

Definition is_byte (b : Z) : Prop := 0 <= b < 256.
Definition wf_cstr (s : cstr) : Prop := Forall (fun b => 0 < b < 256) s.

(** The bytes of a literal. *)
Fixpoint lit (s : string) : cstr :=
  match s with
  | EmptyString => []
  | String a r => Z.of_N (Ascii.N_of_ascii a) :: lit r
  end.

(** [*p]: the byte a string pointer points at, zero at the end. *)
Definition deref (s : cstr) : Z := default 0 (head s).

(** [strlen], an unsigned long. *)
Definition strlen (s : cstr) : Z := Z.of_nat (length s).

(** [strchr(s, c) != NULL]: the terminating zero belongs to the string. *)
Definition AnscCharInString (s : cstr) (c : Z) : bool :=
  bool_decide (c ∈ s) || (c =? 0).

(** [strcmp(s1, s2) == 0] and [strcasecmp(s1, s2) == 0]; [tolower] in the C
    locale. *)
Definition tolower (c : Z) : Z := if (65 <=? c) && (c <=? 90) then c + 32 else c.
Definition AnscEqualString1 (s1 s2 : option cstr) (bCaseSensitive : bool) : bool :=
  match s1, s2 with
  | None, None => true
  | Some a, Some b =>
      if bCaseSensitive then bool_decide (a = b)
      else bool_decide (tolower <$> a = tolower <$> b)
  | _, _ => false
  end.

(** ** Byte buffers

    A buffer is the list of its bytes; an access outside it is a fault. *)
Definition buf_get (b : list Z) (i : Z) : outcome Z :=
  if i <? 0 then Stuck OutOfBounds
  else match b !! Z.to_nat i with Some v => Done v | None => Stuck OutOfBounds end.

Definition buf_copy (b : list Z) (i : Z) (src : list Z) : outcome (list Z) :=
  if (0 <=? i) && (i + Z.of_nat (length src) <=? Z.of_nat (length b))
  then Done (take (Z.to_nat i) b ++ src ++ drop (Z.to_nat i + length src) b)
  else Stuck OutOfBounds.

Definition buf_put (b : list Z) (i v : Z) : outcome (list Z) := buf_copy b i [v].

(** The C string that starts at a buffer; None when it has no terminator. *)
Fixpoint buf_cstr (b : list Z) : option cstr :=
  match b with
  | [] => None
  | c :: r => if c =? 0 then Some [] else cons c <$> buf_cstr r
  end.

(** ** Counted loops: [for ( i = from; n rounds; i++ ) body] *)
Fixpoint for_from {S : Type} (i : Z) (n : nat) (body : Z -> S -> outcome S) (s : S) : outcome S :=
  match n with
  | O => Done s
  | Datatypes.S k => s' ← body i s; for_from (i + 1) k body s'
  end.

(** [AnscAllocateMemory] may return NULL.  The outcomes of the allocations a
    call makes are a stream that is read front to back; when the stream is
    empty the allocation succeeds. *)
Abbreviation alloc_stream := (list bool).
Definition next_alloc (a : alloc_stream) : bool * alloc_stream :=
  match a with [] => (true, []) | b :: r => (b, r) end.

(** The statuses that the modelled functions return (ansc_status.h). *)
Inductive ANSC_STATUS :=
  | ANSC_STATUS_SUCCESS | ANSC_STATUS_FAILURE | ANSC_STATUS_UNAPPLICABLE | ANSC_STATUS_RESOURCES
  | ANSC_STATUS_BAD_SIZE | ANSC_STATUS_BAD_OFFSET.

(** The length of a list as an integer. *)
Abbreviation Zlen l := (Z.of_nat (length l)).

(** ** Generic lemmas on lists *)

Section lists.
Context {A : Type}.
Implicit Types (x y : A) (xs ys : list A).

Lemma last_snoc' xs x : last (xs ++ [x]) = Some x.
Proof. apply last_snoc. Qed.

Lemma last_cons_ne x xs : xs ≠ [] -> last (x :: xs) = last xs.
Proof. by destruct xs. Qed.

Lemma last_None_nil xs : last xs = None -> xs = [].
Proof. apply last_None. Qed.

Lemma head_drop_lookup i xs : head (drop i xs) = xs !! i.
Proof. revert i. induction xs as [|x xs IH]; intros [|i]; cbn; auto. Qed.

Lemma delete_past i xs : xs !! i = None -> delete i xs = xs.
Proof.
    revert i. induction xs as [|x xs IH]; intros [|i] H; [done|done|done|].
    cbn in *. f_equal. by apply IH.
Qed.

Lemma NoDup_middle x xs ys :
    NoDup (xs ++ x :: ys) <-> x ∉ xs ++ ys /\ NoDup (xs ++ ys).
Proof. by rewrite <-Permutation_middle, NoDup_cons. Qed.

Lemma last_default_cons h x xs : default h (last (x :: xs)) = default x (last xs).
Proof. rewrite last_cons. by destruct (last xs). Qed.

(** The last element of a prefix, or the element in front of it. *)
Lemma last_default_elem h xs : default h (last xs) ∈ h :: xs.
Proof.
    destruct (last xs) eqn:E; cbn; [|apply list_elem_of_here].
    apply last_Some in E as [l' ->]. rewrite elem_of_cons, elem_of_app. right. right.
    apply list_elem_of_here.
Qed.

Lemma rev_lookup xs i : (i < length xs)%nat -> rev xs !! i = xs !! (length xs - S i)%nat.
Proof. intros. rewrite rev_alt. by apply reverse_lookup. Qed.

Lemma elem_of_rev x xs : x ∈ rev xs <-> x ∈ xs.
Proof. rewrite rev_alt. apply elem_of_reverse. Qed.

Lemma filter_all (P : A -> Prop) `{forall x, Decision (P x)} xs : (forall x, x ∈ xs -> P x) -> filter P xs = xs.
Proof.
    induction xs as [|x xs IH]; intros HP; [done|]. rewrite filter_cons_True by (apply HP; left).
    f_equal. apply IH. intros y Hy. apply HP. by right.
Qed.

Lemma filter_none (P : A -> Prop) `{forall x, Decision (P x)} xs : (forall x, x ∈ xs -> ~ P x) -> filter P xs = [].
Proof.
    induction xs as [|x xs IH]; intros HP; [done|]. rewrite filter_cons_False by (apply HP; left).
    apply IH. intros y Hy. apply HP. by right.
Qed.

Lemma omap_agree {B} (f g : A -> option B) xs : (forall x, x ∈ xs -> f x = g x) -> omap f xs = omap g xs.
Proof.
    induction xs as [|x xs IH]; intros Hfg; [done|]. cbn. rewrite Hfg by left.
    rewrite (IH (fun y Hy => Hfg y (list_elem_of_further _ _ _ Hy))). done.
Qed.

End lists.

(** How many elements of a list come before the first that satisfies [f]. *)
Fixpoint until {A} (f : A -> bool) (l : list A) : nat :=
  match l with [] => O | x :: l => if f x then O else S (until f l) end.

Lemma until_le {A} (f : A -> bool) l : (until f l <= length l)%nat.
Proof. induction l as [|x l IH]; cbn; [lia|]. destruct (f x); lia. Qed.

Lemma until_stop {A} (f : A -> bool) l x : l !! until f l = Some x -> f x = true.
Proof. induction l as [|y l IH]; cbn; [done|]. destruct (f y) eqn:E; [by intros [= <-]|done]. Qed.

Lemma until_before {A} (f : A -> bool) l : Forall (fun x => f x = false) (take (until f l) l).
Proof. induction l as [|y l IH]; cbn; [constructor|]. destruct (f y) eqn:E; [constructor|by constructor]. Qed.

Lemma until_app {A} (f : A -> bool) l1 x l2 :
  Forall (fun y => f y = false) l1 -> f x = true -> until f (l1 ++ x :: l2) = length l1.
Proof. intros Hl Hx. induction Hl as [|y l1 Hy Hl IH]; cbn; [by rewrite Hx|]. by rewrite Hy, IH. Qed.

(** ** Tactics of the development *)

(** Case analysis on the scrutinee of a match in the goal, keeping the
    equation. *)
Ltac case_goal :=
  match goal with
  | |- context [match ?x with _ => _ end] => destruct x eqn:?
  end.

(** Turn boolean comparisons of [Z] in hypotheses into propositions. *)
Ltac zbool :=
  repeat match goal with
  | H : (_ <? _) = true |- _ => apply Z.ltb_lt in H
  | H : (_ <? _) = false |- _ => apply Z.ltb_ge in H
  | H : (_ <=? _) = true |- _ => apply Z.leb_le in H
  | H : (_ <=? _) = false |- _ => apply Z.leb_gt in H
  | H : (_ =? _) = true |- _ => apply Z.eqb_eq in H
  | H : (_ =? _) = false |- _ => apply Z.eqb_neq in H
  | H : (_ && _)%bool = true |- _ => apply andb_prop in H as [? ?]
  | H : (_ || _)%bool = false |- _ => apply orb_false_elim in H as [? ?]
  end.

(** ** Lemmas on buffers *)

Lemma buf_get_lookup b i v : b !! i = Some v -> buf_get b (Z.of_nat i) = Done v.
Proof.
  intros H. unfold buf_get. rewrite Nat2Z.id, H. by destruct (Z.ltb_spec (Z.of_nat i) 0); [lia|].
Qed.

Lemma buf_get_Z b i v : 0 <= i -> b !! Z.to_nat i = Some v -> buf_get b i = Done v.
Proof. intros Hi H. rewrite <-(Z2Nat.id i) by done. by apply buf_get_lookup. Qed.

(** Overwriting the part of a buffer that starts after [pre]. *)
Lemma buf_copy_at pre old post src i :
  i = Z.of_nat (length pre) -> length old = length src ->
  buf_copy (pre ++ old ++ post) i src = Done (pre ++ src ++ post).
Proof.
  intros -> Hl. unfold buf_copy. rewrite !length_app.
  destruct (_ && _) eqn:E.
  - do 3 f_equal.
    + by rewrite Nat2Z.id, take_app_length.
    + f_equal. rewrite Nat2Z.id, drop_app, drop_ge by lia. cbn.
      rewrite drop_app, drop_ge by lia. cbn.
      replace (_ - _ - _)%nat with 0%nat by lia. done.
  - apply andb_false_iff in E as [E|E]; zbool; lia.
Qed.

Lemma buf_put_at pre o post v i :
  i = Z.of_nat (length pre) -> buf_put (pre ++ o :: post) i v = Done (pre ++ v :: post).
Proof. intros. by apply (buf_copy_at pre [o] post [v]). Qed.

Lemma buf_cstr_app s r : wf_cstr s -> buf_cstr (s ++ 0 :: r) = Some s.
Proof.
  unfold wf_cstr. induction 1 as [|c s Hc Hs IH]; cbn; [done|].
  destruct (Z.eqb_spec c 0); [lia|]. by rewrite IH.
Qed.

Lemma wf_cstr_app s t : wf_cstr (s ++ t) <-> wf_cstr s /\ wf_cstr t.
Proof. apply Forall_app. Qed.

Lemma AnscCharInString_nonzero s c : c ≠ 0 -> AnscCharInString s c = bool_decide (c ∈ s).
Proof.
  intros. unfold AnscCharInString. destruct (Z.eqb_spec c 0); [done|]. by rewrite orb_false_r.
Qed.

Lemma AnscCharInString_zero s : AnscCharInString s 0 = true.
Proof. apply orb_true_r. Qed.

(** The invariant rule of a counted loop, which also says that it completes. *)
Lemma for_from_inv {S : Type} (P : Z -> S -> Prop) body i n s :
  P i s ->
  (forall j s, i <= j < i + Z.of_nat n -> P j s ->
     exists s', body j s = Done s' /\ P (j + 1) s') ->
  exists s', for_from i n body s = Done s' /\ P (i + Z.of_nat n) s'.
Proof.
  revert i s. induction n as [|n IH]; intros i s H0 Hstep; cbn.
  - exists s. by rewrite Z.add_0_r.
  - destruct (Hstep i s) as (s1 & -> & H1); [lia|done|]. cbn.
    destruct (IH (i + 1) s1) as (s2 & -> & H2); [done| |].
    + intros j s' Hj. apply Hstep. lia.
    + exists s2. split; [done|]. replace (i + _) with (i + 1 + Z.of_nat n) by lia. done.
Qed.

Lemma for_from_add {S : Type} body i n k (s : S) :
  for_from i (n + k) body s = s' ← for_from i n body s; for_from (i + Z.of_nat n) k body s'.
Proof.
  revert i s. induction n as [|n IH]; intros i s; cbn [for_from Nat.add].
  - cbn. by rewrite Z.add_0_r.
  - destruct (body i s) as [s'|f]; cbn [mbind outcome_bind]; [|done].
    rewrite IH. by replace (i + 1 + Z.of_nat n) with (i + Z.of_nat (Datatypes.S n)) by lia.
Qed.

Lemma for_from_ext_range {S : Type} (f g : Z -> S -> outcome S) i n s :
  (forall j s, i <= j < i + Z.of_nat n -> f j s = g j s) -> for_from i n f s = for_from i n g s.
Proof.
  revert i s. induction n as [|n IH]; intros i s Hfg; cbn; [done|].
  rewrite Hfg by lia. destruct (g i s); cbn; [|done]. apply IH. intros. apply Hfg. lia.
Qed.

Lemma for_from_ext {S : Type} (f g : Z -> S -> outcome S) i n s :
  (forall j s, f j s = g j s) -> for_from i n f s = for_from i n g s.
Proof. intros Hfg. apply for_from_ext_range. auto. Qed.

(** Loops that fill a buffer by position. *)
Lemma for_fill (dst : list Z) (out : list Z) (body : Z -> list Z -> outcome (list Z)) :
  (length out <= length dst)%nat ->
  (forall j c rest, out !! j = Some c ->
     drop j dst = rest ->
     body (Z.of_nat j) (take j out ++ rest) = buf_put (take j out ++ rest) (Z.of_nat j) c) ->
  for_from 0 (length out) body dst = Done (out ++ drop (length out) dst).
Proof.
  intros Hl Hbody.
  destruct (for_from_inv (fun i b => b = take (Z.to_nat i) out ++ drop (Z.to_nat i) dst)
    body 0 (length out) dst) as (b & -> & ->).
  - by rewrite take_0, drop_0.
  - intros j b Hj ->. destruct (lookup_lt_is_Some_2 out (Z.to_nat j)) as [c Hc]; [lia|].
    pose proof (Hbody _ _ _ Hc eq_refl) as Hb. rewrite Z2Nat.id in Hb by lia. rewrite Hb.
    destruct (drop (Z.to_nat j) dst) as [|o r] eqn:Ed.
    { assert (Hd' : length (drop (Z.to_nat j) dst) = 0%nat) by by rewrite Ed.
      rewrite length_drop in Hd'. lia. }
    rewrite buf_put_at by (rewrite length_take; lia). eexists. split; [done|].
    replace (Z.to_nat (j + 1)) with (S (Z.to_nat j)) by lia.
    rewrite (take_S_r _ _ c) by done. rewrite <-app_assoc. cbn. do 2 f_equal.
    replace (S (Z.to_nat j)) with (Z.to_nat j + 1)%nat by lia.
    by rewrite <-drop_drop, Ed.
  - by rewrite Z.add_0_l, Nat2Z.id, take_ge.
Qed.

(** [dst[i] = f(src[i])], with two buffers and in place. *)
Lemma for_map (f : Z -> Z) src dst n :
  (n <= length src)%nat -> (n <= length dst)%nat ->
  for_from 0 n (fun i b => c ← buf_get src i; buf_put b i (f c)) dst =
    Done ((f <$> take n src) ++ drop n dst).
Proof.
  intros Hs Hd. assert (Hn : n = length (f <$> take n src))
    by (rewrite length_fmap, length_take; lia).
  rewrite Hn at 1. rewrite for_fill.
  - do 3 f_equal. lia.
  - lia.
  - intros j c rest Hc _. apply list_lookup_fmap_Some in Hc as (x & -> & Hx).
    apply lookup_take_Some in Hx as [Hx _]. by rewrite (buf_get_lookup _ _ _ Hx).
Qed.

Lemma for_map_inplace (f : Z -> Z) buf n :
  (n <= length buf)%nat ->
  for_from 0 n (fun i b => c ← buf_get b i; buf_put b i (f c)) buf =
    Done ((f <$> take n buf) ++ drop n buf).
Proof.
  intros Hd. assert (Hn : n = length (f <$> take n buf))
    by (rewrite length_fmap, length_take; lia).
  rewrite Hn at 1. rewrite for_fill.
  - do 3 f_equal. lia.
  - lia.
  - intros j c rest Hc <-. apply list_lookup_fmap_Some in Hc as (x & -> & Hx).
    apply lookup_take_Some in Hx as [Hx Hj].
    erewrite buf_get_lookup; [done|].
    rewrite lookup_app_r; rewrite length_take, length_fmap, length_take; [|lia].
    rewrite lookup_drop, <-Hx. f_equal. lia.
Qed.

(** Accesses inside a buffer succeed and keep its length and its bytes. *)
Definition is_buf (n : Z) (b : list Z) : Prop := Zlen b = n /\ Forall is_byte b.

Lemma buf_copy_ok n b i src :
  is_buf n b -> 0 <= i -> i + Zlen src <= n -> Forall is_byte src ->
  exists b', buf_copy b i src = Done b' /\ is_buf n b'.
Proof.
  intros [Hn Hb] Hi Hle Hs. unfold buf_copy.
  destruct (Z.leb_spec 0 i); [|lia]. destruct (Z.leb_spec (i + Zlen src) (Zlen b)); [|lia].
  eexists. split; [done|]. split.
  - rewrite !length_app, length_take, length_drop. lia.
  - rewrite !Forall_app. split_and!; [by apply Forall_take|done|by apply Forall_drop].
Qed.

Lemma buf_put_ok n b i v :
  is_buf n b -> 0 <= i < n -> is_byte v -> exists b', buf_put b i v = Done b' /\ is_buf n b'.
Proof.
  intros Hb Hi Hv. apply buf_copy_ok; [done|lia|cbn; lia|]. by apply Forall_singleton.
Qed.

Lemma buf_get_ok n b i : is_buf n b -> 0 <= i < n -> exists v, buf_get b i = Done v /\ is_byte v.
Proof.
  intros [Hn Hb] Hi. destruct (lookup_lt_is_Some_2 b (Z.to_nat i)) as [v Hv]; [lia|].
  exists v. split; [by apply buf_get_Z; [lia|]|]. by eapply Forall_lookup_1.
Qed.

(** Memory that holds a terminator holds a C string. *)
Lemma buf_cstr_is_Some b :
  Forall is_byte b -> 0 ∈ b -> exists s, buf_cstr b = Some s /\ wf_cstr s.
Proof.
  induction 1 as [|c b Hc Hb IH]; intros H0; [by apply not_elem_of_nil in H0|]. cbn.
  destruct (Z.eqb_spec c 0) as [->|Hnz]; [by exists []; split; [|constructor]|].
  apply elem_of_cons in H0 as [?|H0]; [done|]. destruct (IH H0) as (s & -> & Hs).
  exists (c :: s). split; [done|]. constructor; [unfold is_byte in Hc; lia|done].
Qed.

Lemma UCHAR_byte z : is_byte (UCHAR z).
Proof. by apply Z.mod_pos_bound. Qed.

(** A counted loop over the elements of a list is a left fold. *)
Lemma for_list {A S : Type} (body : Z -> S -> outcome S) (step : A -> S -> outcome S) (l : list A) (s : S) :
  (forall pre x post s', l = pre ++ x :: post -> body (Z.of_nat (length pre)) s' = step x s') ->
  for_from 0 (length l) body s = foldl (fun r x => s' ← r; step x s') (Done s) l.
Proof.
  intros Hbody.
  enough (Hgen : forall pre post s', l = pre ++ post ->
    for_from (Z.of_nat (length pre)) (length post) body s' =
      foldl (fun r x => s' ← r; step x s') (Done s') post) by by apply (Hgen []).
  intros pre post. revert pre. induction post as [|x post IH]; intros pre s' ->; cbn [for_from length foldl]; [done|].
  rewrite (Hbody pre x post s') by done. cbn [mbind outcome_bind].
  destruct (step x s') as [s1|f].
  - cbn [mbind outcome_bind]. replace (Z.of_nat (length pre) + 1) with (Z.of_nat (length (pre ++ [x])))
      by (rewrite length_app; cbn; lia).
    rewrite IH by by rewrite <-app_assoc. done.
  - cbn [mbind outcome_bind]. clear. induction post as [|y post IH]; [done|]. cbn. apply IH.
Qed.
