(* ===== verification/Links.v ===== *)
(** * The store of linked-list cells

    The intrusive lists of the platform library ([ansc_common_structures.h])
    thread through one store: a [SINGLE_LINK_ENTRY] is one cell with a [Next]
    field; a header ([SLIST_HEADER], [QUEUE_HEADER], [DLIST_HEADER]) begins
    with such a cell, so that [&QueueHead->Next] is the header's own address
    and the scanning loops start there.  This file has the store, the field
    accesses, the two loops every list operation is built from, and list
    segments with the lemmas the list files share. *)

From S2P Require Import Prelude.
Open Scope Z_scope.

Abbreviation loc := positive.
Abbreviation ptr := (option loc).

(** One map per field.  [m_next] also holds the [Next.Next] (or
    [Heads.Next]) of every header, [m_prev] the [Last] of the double entries
    and of [DLIST_HEADER.Heads], [m_last] the [Last.Next] of the queue
    headers, [m_depth] the [Depth] of all headers. *)
Record mem := Mem {
  m_next : gmap loc ptr;
  m_prev : gmap loc ptr;
  m_last : gmap loc ptr;
  m_depth : gmap loc Z
}.

Abbreviation LM := (CM mem).

Definition set_next (f : gmap loc ptr -> gmap loc ptr) (m : mem) : mem :=
  Mem (f (m_next m)) (m_prev m) (m_last m) (m_depth m).
Definition set_prev (f : gmap loc ptr -> gmap loc ptr) (m : mem) : mem :=
  Mem (m_next m) (f (m_prev m)) (m_last m) (m_depth m).
Definition set_last (f : gmap loc ptr -> gmap loc ptr) (m : mem) : mem :=
  Mem (m_next m) (m_prev m) (f (m_last m)) (m_depth m).
Definition set_depth (f : gmap loc Z -> gmap loc Z) (m : mem) : mem :=
  Mem (m_next m) (m_prev m) (m_last m) (f (m_depth m)).

(** Field reads and writes; the cell has to be allocated. *)
Definition rd_next (l : loc) : LM ptr := fun m =>
  match m_next m !! l with Some p => Done (p, m) | None => Stuck BadAccess end.
Definition wr_next (l : loc) (p : ptr) : LM unit := fun m =>
  match m_next m !! l with
  | Some _ => Done (tt, set_next (<[l := p]>) m) | None => Stuck BadAccess end.
Definition rd_prev (l : loc) : LM ptr := fun m =>
  match m_prev m !! l with Some p => Done (p, m) | None => Stuck BadAccess end.
Definition wr_prev (l : loc) (p : ptr) : LM unit := fun m =>
  match m_prev m !! l with
  | Some _ => Done (tt, set_prev (<[l := p]>) m) | None => Stuck BadAccess end.
Definition rd_last (l : loc) : LM ptr := fun m =>
  match m_last m !! l with Some p => Done (p, m) | None => Stuck BadAccess end.
Definition wr_last (l : loc) (p : ptr) : LM unit := fun m =>
  match m_last m !! l with
  | Some _ => Done (tt, set_last (<[l := p]>) m) | None => Stuck BadAccess end.
Definition rd_depth (l : loc) : LM Z := fun m =>
  match m_depth m !! l with Some d => Done (d, m) | None => Stuck BadAccess end.
Definition wr_depth (l : loc) (d : Z) : LM unit := fun m =>
  match m_depth m !! l with
  | Some _ => Done (tt, set_depth (<[l := d]>) m) | None => Stuck BadAccess end.

(** [p->Next] for a pointer that may be NULL. *)
Definition rd_next_p (p : ptr) : LM ptr :=
  match p with Some l => rd_next l | None => cm_fault NullDeref end.

(** [Depth++] and [Depth--] on a [USHORT]. *)
Definition incr_depth (h : loc) : LM unit :=
  d ← rd_depth h; wr_depth h (USHORT (d + 1)).
Definition decr_depth (h : loc) : LM unit :=
  d ← rd_depth h; wr_depth h (USHORT (d - 1)).

(** [for ( ...; NextEntry != NULL; NextEntry = NextEntry->Next )
       if ( NextEntry->Next == Entry ) break;]
    started at cell [c]: the cell whose [Next] is the target, or NULL when the
    loop runs off the end.  A list of [n] cells is left after [n] rounds, so
    a walk longer than the store has cells is in a cycle. *)
Fixpoint find_pred (fuel : nat) (c : loc) (target : ptr) : LM ptr :=
  match fuel with
  | O => cm_fault Diverge
  | S k =>
      n ← rd_next c;
      if decide (n = target) then mret (Some c)
      else match n with
           | None => mret None
           | Some c' => find_pred k c' target
           end
  end.

Definition scan_fuel (m : mem) : nat := S (size (m_next m)).

Definition find_pred_from (c : loc) (target : ptr) : LM ptr := fun m =>
  find_pred (scan_fuel m) c target m.

(** [for ( i = 0; i <= Index; i++ ) { NextEntry = NextEntry->Next; if ( !NextEntry ) return NULL; }] *)
Fixpoint nth_from (i : nat) (c : loc) : LM ptr :=
  n ← rd_next c;
  match n with
  | None => mret None
  | Some c' => match i with O => mret (Some c') | S k => nth_from k c' end
  end.

(** ** List segments *)

(** [lseg nx p xs e]: the cells [xs] are chained from pointer [p] to [e]. *)
Fixpoint lseg (nx : gmap loc ptr) (p : ptr) (xs : list loc) (e : ptr) : Prop :=
  match xs with
  | [] => p = e
  | x :: r => p = Some x /\ exists n, nx !! x = Some n /\ lseg nx n r e
  end.

Lemma lseg_app nx p xs ys e :
  lseg nx p (xs ++ ys) e <-> exists q, lseg nx p xs q /\ lseg nx q ys e.
Proof. revert p. induction xs as [|x xs IH]; intros p; naive_solver. Qed.

Lemma lseg_functional nx p xs e e' : lseg nx p xs e -> lseg nx p xs e' -> e = e'.
Proof. revert p. induction xs as [|x xs IH]; naive_solver. Qed.

(** A segment only looks at its own cells. *)
Lemma lseg_ext nx nx' p xs e :
  (forall l, l ∈ xs -> nx' !! l = nx !! l) -> lseg nx p xs e -> lseg nx' p xs e.
Proof.
  revert p. induction xs as [|x xs IH]; cbn; [done|].
  intros p Hx (-> & n & Hn & Hs). split; [done|]. exists n. split.
  - rewrite Hx; [done | by left].
  - apply IH; [|done]. intros l Hl. apply Hx. by right.
Qed.

Lemma lseg_insert_other nx p xs e l v :
  l ∉ xs -> lseg nx p xs e -> lseg (<[l := v]> nx) p xs e.
Proof.
  intros Hl. apply lseg_ext. intros l' Hl'.
  rewrite lookup_insert_ne; [done | naive_solver].
Qed.

Lemma lseg_head nx p xs : lseg nx p xs None -> p = head xs.
Proof. by destruct xs; cbn; naive_solver. Qed.

(** Redirecting the last cell of a segment. *)
Lemma lseg_snoc_redirect nx p xs x e e' :
  x ∉ xs -> lseg nx p (xs ++ [x]) e -> lseg (<[x := e']> nx) p (xs ++ [x]) e'.
Proof.
  intros Hx (q & H1 & -> & n & _ & _)%lseg_app. apply lseg_app.
  exists (Some x). split; [by apply lseg_insert_other|].
  cbn. split; [done|]. exists e'. split; [|done]. apply lookup_insert_eq.
Qed.

(** ** The chain hanging off a header cell

    [chain nx h xs e]: the header (or entry) at [h] starts the segment [xs].
    The header is not one of the entries and no entry is linked twice. *)
Definition chain (nx : gmap loc ptr) (h : loc) (xs : list loc) (e : ptr) : Prop :=
  NoDup (h :: xs) /\ exists p, nx !! h = Some p /\ lseg nx p xs e.

Lemma chain_NoDup nx h xs e : chain nx h xs e -> NoDup (h :: xs).
Proof. by intros [? _]. Qed.

Lemma chain_first nx h xs : chain nx h xs None -> nx !! h = Some (head xs).
Proof. intros (_ & p & Hp & Hs). by rewrite Hp, (lseg_head _ _ _ Hs). Qed.

Lemma lseg_unique nx p xs ys : lseg nx p xs None -> lseg nx p ys None -> xs = ys.
Proof.
  revert p ys. induction xs as [|x xs IH]; intros p [|y ys]; cbn; naive_solver.
Qed.

Lemma chain_unique nx h xs ys : chain nx h xs None -> chain nx h ys None -> xs = ys.
Proof.
  intros (_ & p & Hp & Hs) (_ & p' & Hp' & Hs'). rewrite Hp in Hp'. injection Hp' as <-.
  by eapply lseg_unique.
Qed.

(** The chain seen from the middle: the cell before and the rest. *)
Lemma chain_split nx h xs1 xs2 e :
  chain nx h (xs1 ++ xs2) e ->
  nx !! (default h (last xs1)) = Some (match xs2 with [] => e | x :: _ => Some x end)
  /\ exists q, lseg nx q xs2 e /\ nx !! (default h (last xs1)) = Some q.
Proof.
  intros (Hnd & p & Hp & (q & H1 & H2)%lseg_app).
  assert (Hq : nx !! (default h (last xs1)) = Some q).
  { destruct (last xs1) as [y|] eqn:Hl; cbn.
    - apply last_Some in Hl as [l' ->].
      apply lseg_app in H1 as (r & _ & -> & n & Hn & ->). by rewrite Hn.
    - apply last_None in Hl as ->. cbn in H1. by subst. }
  split; [|eauto]. rewrite Hq. destruct xs2; cbn in H2; [by subst|]. by destruct H2 as [-> _].
Qed.

(** Inserting the entry [x] after the prefix [xs1]: the cell before it points
    to [x] and [x] to the rest. *)
Lemma chain_insert nx h xs1 xs2 x :
  chain nx h (xs1 ++ xs2) None ->
  x ∉ h :: xs1 ++ xs2 ->
  chain (<[default h (last xs1) := Some x]> (<[x := head xs2]> nx)) h (xs1 ++ x :: xs2) None.
Proof.
  intros Hc Hx. pose proof (chain_NoDup _ _ _ _ Hc) as Hnd.
  destruct (chain_split _ _ _ _ _ Hc) as [_ (q & Hq & _)].
  destruct Hc as (_ & p & Hp & (q' & H1 & _)%lseg_app).
  assert (Hnd' : NoDup (h :: xs1 ++ x :: xs2))
    by (apply (NoDup_middle x (h :: xs1) xs2); done).
  assert (Hlast : default h (last xs1) ∉ x :: xs2).
  { apply (NoDup_app (h :: xs1)) in Hnd' as (_ & Hd & _). apply Hd, last_default_elem. }
  apply not_elem_of_cons in Hx as [Hxh [Hx1 Hx2]%not_elem_of_app].
  apply NoDup_cons in Hnd as [[Hh1 Hh2]%not_elem_of_app (Hn1 & H12 & Hn2)%NoDup_app].
  apply lseg_head in Hq as Hqh.
  assert (Htail : lseg (<[default h (last xs1) := Some x]> (<[x := head xs2]> nx))
                    (Some x) (x :: xs2) None).
  { apply lseg_insert_other; [done|]. cbn. split; [done|]. exists (head xs2).
    split; [apply lookup_insert_eq|]. apply lseg_insert_other; [done|]. by rewrite <- Hqh. }
  split; [done|].
  destruct (last xs1) as [y|] eqn:Hl; cbn in *.
  - exists p. apply last_Some in Hl as [l' ->].
    apply not_elem_of_app in Hh1 as [_ Hhy%not_elem_of_cons].
    rewrite lookup_insert_ne, lookup_insert_ne by naive_solver. split; [done|].
    apply lseg_app. exists (Some x). split; [|done].
    apply lseg_snoc_redirect with (e := q').
    + apply NoDup_app in Hn1 as (_ & Hd & _). intros Hy. apply (Hd _ Hy). by left.
    + by apply lseg_insert_other.
  - apply last_None in Hl as ->. exists (Some x). cbn. split; [apply lookup_insert_eq|done].
Qed.

(** Unlinking [x]: the cell before it points past it. *)
Lemma chain_remove nx h xs1 xs2 x :
  chain nx h (xs1 ++ x :: xs2) None ->
  nx !! x = Some (head xs2) /\
  chain (<[default h (last xs1) := head xs2]> nx) h (xs1 ++ xs2) None.
Proof.
  intros Hc. pose proof (chain_NoDup _ _ _ _ Hc) as Hnd.
  destruct (chain_split _ _ _ _ _ Hc) as [_ (q & Hq & _)].
  destruct Hc as (_ & p & Hp & (q' & H1 & _)%lseg_app).
  cbn in Hq. destruct Hq as (-> & n & Hn & Hs). pose proof (lseg_head _ _ _ Hs) as ->.
  split; [done|].
  pose proof (proj1 (NoDup_middle x (h :: xs1) xs2) Hnd) as [_ Hnd'].
  assert (Hlast : default h (last xs1) ∉ xs2).
  { apply (NoDup_app (h :: xs1)) in Hnd' as (_ & Hd & _). apply Hd, last_default_elem. }
  split; [done|].
  destruct (last xs1) as [y|] eqn:Hl; cbn in *.
  - exists p. apply last_Some in Hl as [l' ->].
    apply NoDup_cons in Hnd' as [[Hh _]%not_elem_of_app (Hn1 & _)%NoDup_app].
    apply not_elem_of_app in Hh as [_ Hhy%not_elem_of_cons].
    rewrite lookup_insert_ne by naive_solver. split; [done|].
    apply lseg_app. exists (head xs2). split; [|by apply lseg_insert_other].
    apply lseg_snoc_redirect with (e := q'); [|done].
    apply NoDup_app in Hn1 as (_ & Hd & _). intros Hy. apply (Hd _ Hy). by left.
  - apply last_None in Hl as ->. exists (head xs2). cbn. split; [apply lookup_insert_eq|].
    by apply lseg_insert_other.
Qed.

(** ** The loops on a chain *)

Lemma chain_size nx h xs e : chain nx h xs e -> (length xs < size nx)%nat.
Proof.
  intros (Hnd & p & Hp & Hs).
  assert (Hsub : forall l, l ∈ h :: xs -> is_Some (nx !! l)).
  { intros l [->|Hl]%elem_of_cons; [eauto|].
    clear Hp Hnd. revert p Hs. induction xs as [|x xs IH]; [by apply not_elem_of_nil in Hl|].
    intros p (_ & n & Hn & Hs). apply elem_of_cons in Hl as [->|Hl]; eauto. }
  assert (Hle : (list_to_set (h :: xs) : gset loc) ⊆ dom nx).
  { intros l Hl. apply elem_of_list_to_set in Hl. apply elem_of_dom. by apply Hsub. }
  apply subseteq_size in Hle. rewrite size_list_to_set, size_dom in Hle by done.
  cbn in Hle. lia.
Qed.

Definition pred_of (h : loc) (xs : list loc) (target : ptr) : ptr :=
  match target with
  | None => Some (default h (last xs))
  | Some t =>
      match list_find (eq t) xs with
      | None => None
      | Some (i, _) => Some (default h (last (take i xs)))
      end
  end.

Lemma pred_of_cons h x xs target :
  target ≠ Some x -> pred_of h (x :: xs) target = pred_of x xs target.
Proof.
  intros Hne. destruct target as [t|]; cbn -[last].
  - rewrite decide_False by naive_solver.
    destruct (list_find (eq t) xs) as [[i y]|]; cbn -[last]; [|done].
    by rewrite last_default_cons.
  - by rewrite last_default_cons.
Qed.

Lemma find_pred_chain fuel m h xs target :
  chain (m_next m) h xs None -> (length xs < fuel)%nat ->
  find_pred fuel h target m = Done (pred_of h xs target, m).
Proof.
  revert h xs. induction fuel as [|k IH]; intros h xs Hc Hk; [lia|].
  cbn. unfold mbind, CM_bind, rd_next.
  rewrite (chain_first _ _ _ Hc).
  destruct xs as [|x xs]; cbn.
  - case_decide as E; [by subst|]. destruct target; done.
  - case_decide as E.
    + subst. cbn. by rewrite decide_True.
    + rewrite (pred_of_cons _ _ _ _ (not_eq_sym E)). apply IH; [|cbn in Hk; lia].
      destruct Hc as (Hnd & p & Hp & -> & n & Hn & Hs).
      apply NoDup_cons in Hnd as [_ Hnd]. split; eauto.
Qed.

(** The fuel of the scan is enough on every well-formed chain. *)
Lemma find_pred_from_chain m h xs target :
  chain (m_next m) h xs None ->
  find_pred_from h target m = Done (pred_of h xs target, m).
Proof.
  intros Hc. unfold find_pred_from, scan_fuel. apply find_pred_chain; [done|].
  pose proof (chain_size _ _ _ _ Hc). lia.
Qed.

Lemma nth_from_chain m h xs i :
  chain (m_next m) h xs None -> nth_from i h m = Done (xs !! i, m).
Proof.
  revert h xs. induction i as [|i IH]; intros h xs Hc; cbn; unfold mbind, CM_bind, rd_next;
    rewrite (chain_first _ _ _ Hc); destruct xs as [|x xs]; cbn; try done.
  apply IH. destruct Hc as (Hnd & p & Hp & -> & n & Hn & Hs).
  apply NoDup_cons in Hnd as [_ Hnd]. split; eauto.
Qed.

Lemma pred_of_split h xs1 xs2 x :
  x ∉ xs1 -> pred_of h (xs1 ++ x :: xs2) (Some x) = Some (default h (last xs1)).
Proof.
  intros Hx. cbn.
  assert (Hf : list_find (eq x) (xs1 ++ x :: xs2) = Some (length xs1, x)).
  { apply list_find_Some. rewrite lookup_app_r, Nat.sub_diag by lia. split; [done|]. split; [done|].
    intros j y Hj ? ->%eq_sym. apply Hx. apply list_elem_of_lookup. exists j.
    rewrite lookup_app_l in Hj by done. naive_solver. }
  by rewrite Hf, take_app_length.
Qed.

Lemma pred_of_absent h xs x : x ∉ xs -> pred_of h xs (Some x) = None.
Proof.
  intros Hx. cbn. destruct (list_find (eq x) xs) as [[i y]|] eqn:E; [|done].
  apply list_find_Some in E as (E & -> & _). exfalso. apply Hx. by eapply list_elem_of_lookup_2.
Qed.

(** ** Removal and insertion on the represented list *)

Definition lremove (e : loc) (xs : list loc) : list loc := filter (.≠ e) xs.

Lemma lremove_absent e xs : e ∉ xs -> lremove e xs = xs.
Proof.
  intros He. unfold lremove. induction xs as [|x xs IH]; [done|].
  apply not_elem_of_cons in He as [? ?]. rewrite filter_cons_True by congruence.
  by rewrite IH.
Qed.

Lemma lremove_split e xs1 xs2 :
  NoDup (xs1 ++ e :: xs2) -> lremove e (xs1 ++ e :: xs2) = xs1 ++ xs2.
Proof.
  intros [[H1 H2]%not_elem_of_app _]%NoDup_middle. unfold lremove.
  rewrite filter_app, filter_cons_False by naive_solver.
  f_equal; by apply lremove_absent.
Qed.

(** [e] put in front of [t] (at the end when [t] is not there). *)
Fixpoint linsert_before (t e : loc) (xs : list loc) : list loc :=
  match xs with
  | [] => [e]
  | x :: r => if decide (x = t) then e :: x :: r else x :: linsert_before t e r
  end.

Lemma linsert_before_split t e xs1 xs2 :
  t ∉ xs1 -> linsert_before t e (xs1 ++ t :: xs2) = xs1 ++ e :: t :: xs2.
Proof.
  induction xs1 as [|x xs1 IH]; cbn; intros H.
  - by rewrite decide_True.
  - apply not_elem_of_cons in H as [? ?]. rewrite decide_False by congruence.
    by rewrite IH.
Qed.

(** [e] put behind [t]. *)
Fixpoint linsert_after (t e : loc) (xs : list loc) : list loc :=
  match xs with
  | [] => []
  | x :: r => if decide (x = t) then x :: e :: r else x :: linsert_after t e r
  end.

Lemma linsert_after_split t e xs1 xs2 :
  t ∉ xs1 -> linsert_after t e (xs1 ++ t :: xs2) = xs1 ++ t :: e :: xs2.
Proof.
  induction xs1 as [|x xs1 IH]; cbn; intros H.
  - by rewrite decide_True.
  - apply not_elem_of_cons in H as [? ?]. rewrite decide_False by congruence.
    by rewrite IH.
Qed.

(** A member of a list without duplicates splits it, in the middle. *)
Lemma NoDup_split_at (e : loc) xs :
  NoDup xs -> e ∈ xs -> exists xs1 xs2, xs = xs1 ++ e :: xs2 /\ e ∉ xs1 /\ e ∉ xs2.
Proof.
  intros Hnd (xs1 & xs2 & ->)%list_elem_of_split.
  apply NoDup_middle in Hnd as [[? ?]%not_elem_of_app _]. by exists xs1, xs2.
Qed.

(** ** The field accesses succeed on allocated cells *)

Lemma rd_next_Done m l p : m_next m !! l = Some p -> rd_next l m = Done (p, m).
Proof. unfold rd_next. by intros ->. Qed.
Lemma wr_next_Done m l p v :
  m_next m !! l = Some p -> wr_next l v m = Done (tt, set_next (<[l := v]>) m).
Proof. unfold wr_next. by intros ->. Qed.
Lemma rd_prev_Done m l p : m_prev m !! l = Some p -> rd_prev l m = Done (p, m).
Proof. unfold rd_prev. by intros ->. Qed.
Lemma wr_prev_Done m l p v :
  m_prev m !! l = Some p -> wr_prev l v m = Done (tt, set_prev (<[l := v]>) m).
Proof. unfold wr_prev. by intros ->. Qed.
Lemma rd_last_Done m l p : m_last m !! l = Some p -> rd_last l m = Done (p, m).
Proof. unfold rd_last. by intros ->. Qed.
Lemma wr_last_Done m l p v :
  m_last m !! l = Some p -> wr_last l v m = Done (tt, set_last (<[l := v]>) m).
Proof. unfold wr_last. by intros ->. Qed.
Lemma rd_depth_Done m l p : m_depth m !! l = Some p -> rd_depth l m = Done (p, m).
Proof. unfold rd_depth. by intros ->. Qed.
Lemma incr_depth_Done m l d :
  m_depth m !! l = Some d ->
  incr_depth l m = Done (tt, set_depth (<[l := USHORT (d + 1)]>) m).
Proof.
  intros H. unfold incr_depth, mbind, CM_bind. rewrite (rd_depth_Done _ _ _ H).
  unfold wr_depth. by rewrite H.
Qed.
Lemma decr_depth_Done m l d :
  m_depth m !! l = Some d ->
  decr_depth l m = Done (tt, set_depth (<[l := USHORT (d - 1)]>) m).
Proof.
  intros H. unfold decr_depth, mbind, CM_bind. rewrite (rd_depth_Done _ _ _ H).
  unfold wr_depth. by rewrite H.
Qed.

(** Run one step of a monadic computation: look the cell up, rewrite the
    access, reduce the bind. *)
Ltac lookup_solve :=
  cbn; repeat first
    [ rewrite lookup_insert_ne by (first [done | set_solver])
    | rewrite lookup_insert_eq ]; first [eassumption | reflexivity].

Ltac run_step :=
  unfold mbind at 1; unfold CM_bind at 1;
  first
    [ erewrite rd_next_Done by lookup_solve
    | erewrite wr_next_Done by lookup_solve
    | erewrite rd_prev_Done by lookup_solve
    | erewrite wr_prev_Done by lookup_solve
    | erewrite rd_last_Done by lookup_solve
    | erewrite wr_last_Done by lookup_solve
    | erewrite rd_depth_Done by lookup_solve
    | erewrite incr_depth_Done by lookup_solve
    | erewrite decr_depth_Done by lookup_solve ];
  cbv beta iota.

(** ** Footprints *)

(** Cells outside [S] keep their contents. *)
Definition frame (S : list loc) (m m' : mem) : Prop :=
  forall l, l ∉ S ->
    m_next m' !! l = m_next m !! l /\ m_prev m' !! l = m_prev m !! l /\
    m_last m' !! l = m_last m !! l /\ m_depth m' !! l = m_depth m !! l.

(** Allocated cells stay allocated. *)
Definition keeps_cells (m m' : mem) : Prop :=
  forall l, (is_Some (m_next m !! l) -> is_Some (m_next m' !! l)) /\
            (is_Some (m_prev m !! l) -> is_Some (m_prev m' !! l)).

Lemma frame_mono S S' m m' : (forall l, l ∈ S -> l ∈ S') -> frame S m m' -> frame S' m m'.
Proof. intros Hs Hf l Hl. apply Hf. naive_solver. Qed.

Lemma frame_trans S m1 m2 m3 : frame S m1 m2 -> frame S m2 m3 -> frame S m1 m3.
Proof.
  intros H1 H2 l Hl. destruct (H1 l Hl) as (A & B & C & D), (H2 l Hl) as (A' & B' & C' & D').
  by rewrite A', B', C', D'.
Qed.

#[export] Instance keeps_cells_preorder : PreOrder keeps_cells.
Proof. split; [by intros m l | intros m1 m2 m3 H1 H2 l; destruct (H1 l), (H2 l); auto]. Qed.

Ltac elem_split :=
  repeat match goal with
  | H : _ ∉ _ :: _ |- _ => apply not_elem_of_cons in H as [? ?]
  | H : _ ∉ _ ++ _ |- _ => apply not_elem_of_app in H as [? ?]
  end.

Ltac frame_solve :=
  let l := fresh "l" in let Hl := fresh "Hl" in
  let Hs := fresh "Hs" in
  intros l Hl; cbn -[last from_option]; pose proof Hl as Hs; unfold not in Hs; elem_split;
  rewrite ?lookup_insert_ne by
    first [congruence | intros ?; subst l; exfalso; apply Hs; assumption]; done.

Ltac keeps_solve :=
  let l := fresh "l" in
  intros l; split; intros ?; cbn; rewrite ?lookup_insert; repeat case_decide; eauto.

(** The depth after one more or one less entry. *)
Ltac depth_solve :=
  rewrite ?lookup_insert_eq, ?USHORT_succ, ?USHORT_pred, ?length_app; cbn [length];
  do 2 f_equal; lia.

Ltac list_step_solve :=
  split; [split_and!; cbn -[last from_option] | frame_solve | keeps_solve].


(** ** Representations of lists in the store

    [R m h xs]: the store [m] holds the list [xs] at the header [h].  The
    shared lemmas ask of a representation only that its cells are chained. *)

Class ListRep (R : mem -> loc -> list loc -> Prop) : Prop :=
  rep_chain : forall m h xs, R m h xs -> chain (m_next m) h xs None.

(** What an operation on such a list establishes: the list it leaves, and that
    it wrote only to the cells [S]. *)
Record list_step (R : mem -> loc -> list loc -> Prop)
    (m : mem) (h : loc) (S xs : list loc) (m' : mem) : Prop := {
  ls_rep : R m' h xs;
  ls_frame : frame S m m';
  ls_keeps : keeps_cells m m'
}.

Lemma elem_of_lremove l e xs : l ∈ lremove e xs <-> l ≠ e /\ l ∈ xs.
Proof. unfold lremove. by rewrite list_elem_of_filter. Qed.

Lemma elem_of_linsert_before l t e xs : l ∈ linsert_before t e xs -> l = e \/ l ∈ xs.
Proof.
  induction xs as [|x xs IH]; cbn; [set_solver|].
  case_decide; rewrite !elem_of_cons; [naive_solver|]. intros [->|?]; naive_solver.
Qed.

Lemma elem_of_linsert_after l t e xs : l ∈ linsert_after t e xs -> l = e \/ l ∈ xs.
Proof.
  induction xs as [|x xs IH]; cbn; [set_solver|].
  case_decide; rewrite !elem_of_cons; [naive_solver|]. intros [->|?]; naive_solver.
Qed.

Lemma elem_of_tail {A} (l : A) (xs : list A) : l ∈ tail xs -> l ∈ xs.
Proof. destruct xs; [done|by right]. Qed.

Lemma elem_of_delete {A} (l : A) (i : nat) (xs : list A) : l ∈ delete i xs -> l ∈ xs.
Proof.
  revert i. induction xs as [|x xs IH]; intros [|i]; cbn; rewrite ?elem_of_cons; [done|done|tauto|].
  intros [?|?%IH]; tauto.
Qed.


Lemma elem_of_removelast (l : loc) xs : l ∈ removelast xs -> l ∈ xs.
Proof.
  induction xs as [|x [|y xs] IH]; cbn; [done|by intros ?%not_elem_of_nil|].
  rewrite elem_of_cons. intros [->|?%IH]; [by left|by right].
Qed.

Section representation.
Context {R : mem -> loc -> list loc -> Prop} `{ListRep R}.
Implicit Types (m : mem) (h e : loc) (xs : list loc).

Lemma rep_NoDup m h xs : R m h xs -> NoDup (h :: xs).
Proof. intros Hr. by eapply chain_NoDup, rep_chain. Qed.

Lemma rep_split m h xs e :
  R m h xs -> e ∈ xs ->
  exists xs1 xs2, xs = xs1 ++ e :: xs2 /\ e ∉ xs1 /\ e ∉ xs2 /\ h ≠ e.
Proof.
  intros Hr He. pose proof (rep_NoDup _ _ _ Hr) as [Hqx Hnd]%NoDup_cons.
  destruct (NoDup_split_at e xs Hnd He) as (xs1 & xs2 & -> & ? & ?).
  exists xs1, xs2. split_and!; try done. set_solver.
Qed.

Lemma rep_nth m h xs i : R m h xs -> nth_from i h m = Done (xs !! i, m).
Proof. intros Hr. by eapply nth_from_chain, rep_chain. Qed.

Lemma rep_find_pred m h xs t : R m h xs -> find_pred_from h t m = Done (pred_of h xs t, m).
Proof. intros Hr. by eapply find_pred_from_chain, rep_chain. Qed.

(** An operation that only reads. *)
Lemma list_step_refl m h S xs : R m h xs -> list_step R m h S xs m.
Proof. intros Hr. split; [done|by intros l _|done]. Qed.

(** Sequencing two steps on the same list. *)
Lemma list_step_trans m1 m2 m3 h S S1 S2 xs1 xs2 :
  list_step R m1 h S1 xs1 m2 -> list_step R m2 h S2 xs2 m3 ->
  (forall l, l ∈ S1 -> l ∈ S) -> (forall l, l ∈ S2 -> l ∈ S) ->
  list_step R m1 h S xs2 m3.
Proof.
  intros [_ F1 K1] [Q2 F2 K2] H1 H2. split; [done| |by etransitivity].
  eapply frame_trans; eapply frame_mono; [|exact F1| |exact F2]; done.
Qed.

End representation.

(** ** Refinement of operation sequences

    A list type with its operations as data: [run] is the pointer code, [spec]
    its meaning on the list, [entry] the cells an operation links in, [pre]
    what the caller guarantees.  If every operation refines its meaning, so
    does every sequence. *)

(** What an operation returns. *)
Inductive opval : Type := VVoid | VBoolean (b : bool) | VEntry (p : ptr).

(** Run the operation by its lemma [L] and keep what it establishes. *)
Ltac close_op L :=
  destruct L as (? & ? & ?); [done..|]; eexists;
  split; [erewrite CM_bind_Done by eassumption; reflexivity | eassumption].

(** The cells that may be linked into the list at [h]: not the header, and
    allocated the way the kind of list needs ([cell_ok]). *)
Definition single_cell (m : mem) (e : loc) : Prop := is_Some (m_next m !! e).
Definition double_cell (m : mem) (e : loc) : Prop :=
  is_Some (m_next m !! e) /\ is_Some (m_prev m !! e).

Definition entry_cells (cell_ok : mem -> loc -> Prop) (m : mem) (h : loc) (es : list loc) : Prop :=
  forall e, e ∈ es -> e ≠ h /\ cell_ok m e.

Lemma single_cell_keeps m m' e : keeps_cells m m' -> single_cell m e -> single_cell m' e.
Proof. intros Hk. apply Hk. Qed.

Lemma double_cell_keeps m m' e : keeps_cells m m' -> double_cell m e -> double_cell m' e.
Proof. intros Hk [? ?]. split; by apply Hk. Qed.

Lemma entry_cells_fresh cell_ok m h e es xs :
  entry_cells cell_ok m h es -> e ∈ es -> e ∉ xs -> e ∉ h :: xs /\ cell_ok m e.
Proof. intros Hc He Hx. destruct (Hc e He). split; [by apply not_elem_of_cons|done]. Qed.

Section traces.
Context {Op Val : Type} (R : mem -> loc -> list loc -> Prop) (h : loc)
  (run : Op -> LM Val) (spec : Op -> list loc -> Val * list loc)
  (pre : Op -> list loc -> Prop) (entry : Op -> list loc) (cell_ok : mem -> loc -> Prop).

Fixpoint trace_run (ops : list Op) : LM (list Val) :=
  match ops with
  | [] => mret []
  | op :: r => v ← run op; vs ← trace_run r; mret (v :: vs)
  end.

Fixpoint trace_spec (ops : list Op) (xs : list loc) : list Val * list loc :=
  match ops with
  | [] => ([], xs)
  | op :: r =>
      let (v, xs1) := spec op xs in
      let (vs, xs2) := trace_spec r xs1 in (v :: vs, xs2)
  end.

Fixpoint trace_pre (ops : list Op) (xs : list loc) : Prop :=
  match ops with
  | [] => True
  | op :: r => pre op xs /\ trace_pre r (spec op xs).2
  end.

Definition trace_entries (ops : list Op) : list loc := concat (map entry ops).

Hypothesis cell_keeps : forall m m' e, keeps_cells m m' -> cell_ok m e -> cell_ok m' e.
Hypothesis step_refines : forall m op xs,
  R m h xs -> pre op xs -> entry_cells cell_ok m h (entry op) ->
  exists m', run op m = Done ((spec op xs).1, m') /\
    list_step R m h (h :: entry op ++ xs) (spec op xs).2 m'.
Hypothesis step_elems : forall op xs l, l ∈ (spec op xs).2 -> l ∈ entry op ++ xs.

Lemma trace_refines m ops xs :
  R m h xs -> trace_pre ops xs -> entry_cells cell_ok m h (trace_entries ops) ->
  exists m', trace_run ops m = Done ((trace_spec ops xs).1, m') /\
    R m' h (trace_spec ops xs).2 /\ frame (h :: trace_entries ops ++ xs) m m'.
Proof.
  unfold trace_entries. revert m xs.
  induction ops as [|op ops IH]; intros m xs Hq Hpre Hc; cbn [trace_run trace_spec trace_pre] in *.
  - exists m. split_and!; [done|done|by intros l _].
  - destruct Hpre as [Hpre Hpres]. cbn [map concat] in *.
    destruct (step_refines m op xs Hq Hpre) as (m1 & E1 & [Q1 F1 K1]).
    { intros e He. apply Hc, elem_of_app. by left. }
    pose proof (step_elems op xs) as Hel.
    destruct (spec op xs) as [v xs1] eqn:Es. cbn [fst snd] in *.
    destruct (IH m1 xs1 Q1 Hpres) as (m2 & E2 & Q2 & F2).
    { intros e He. destruct (Hc e) as [? ?]; [apply elem_of_app; by right|].
      split; [done|by eapply cell_keeps]. }
    exists m2. rewrite (CM_bind_Done _ _ _ _ _ E1), (CM_bind_Done _ _ _ _ _ E2).
    destruct (trace_spec ops xs1) as [vs xs2]. split_and!; [done|done|].
    eapply frame_trans; eapply frame_mono; [|exact F1| |exact F2]; intros l;
      rewrite !elem_of_cons, ?elem_of_app; [tauto|]. intros [?|[?|?%Hel]]; [tauto..|].
    rewrite elem_of_app in *. tauto.
Qed.

End traces.
