(* ===== verification/Queue.v ===== *)
(** * The FIFO queue ([ansc_queue.c], [AnscQueue*] of [ansc_common_structures.h])

    A [QUEUE_HEADER] keeps the first entry, the last entry and a 16-bit depth.
    The operations below are the pointer code; [is_queue] says that the store
    holds the list [xs] at a header, and every operation is shown to act on
    that list the way its specification in [qop_spec] says. *)

From S2P Require Import Prelude Links.
Open Scope Z_scope.

(** ** The operations *)

Definition AnscQueueInitializeHeader (QueueHead : loc) : LM unit :=
  _ ← wr_next QueueHead None;
  _ ← wr_depth QueueHead 0;
  wr_last QueueHead None.

Definition AnscQueuePushEntry (QueueHead Entry : loc) : LM unit :=
  LastEntry ← rd_last QueueHead;
  _ ← wr_next Entry None;
  _ ← match LastEntry with
      | None => wr_next QueueHead (Some Entry)
      | Some l => wr_next l (Some Entry)
      end;
  _ ← wr_last QueueHead (Some Entry);
  incr_depth QueueHead.

Definition AnscQueuePushEntryAtFront (QueueHead Entry : loc) : LM unit :=
  f ← rd_next QueueHead;
  _ ← wr_next Entry f;
  _ ← wr_next QueueHead (Some Entry);
  LastEntry ← rd_last QueueHead;
  _ ← match LastEntry with
      | None => wr_last QueueHead (Some Entry)
      | Some _ => mret tt
      end;
  incr_depth QueueHead.

Definition AnscQueuePopEntry (QueueHead : loc) : LM ptr :=
  FirstEntry ← rd_next QueueHead;
  match FirstEntry with
  | None => mret None
  | Some l =>
      n ← rd_next l;
      _ ← wr_next QueueHead n;
      _ ← decr_depth QueueHead;
      n' ← rd_next l;
      _ ← match n' with None => wr_last QueueHead None | Some _ => mret tt end;
      mret (Some l)
  end.

Definition AnscQueuePopEntryByLink (QueueHead : loc) (Entry : ptr) : LM bool :=
  NextEntry ← find_pred_from QueueHead Entry;
  bFound ← match NextEntry with
           | Some c =>
               n ← rd_next_p Entry;
               _ ← wr_next c n;
               _ ← decr_depth QueueHead;
               mret true
           | None => mret false
           end;
  lst ← rd_last QueueHead;
  _ ← (if decide (lst = Entry) then
         f ← rd_next QueueHead;
         match f with
         | None => wr_last QueueHead None
         | Some _ => wr_last QueueHead NextEntry
         end
       else mret tt);
  mret bFound.

Definition AnscQueueMoveEntryToStart (QueueHead Entry : loc) : LM unit :=
  _ ← AnscQueuePopEntryByLink QueueHead (Some Entry);
  AnscQueuePushEntryAtFront QueueHead Entry.

Definition AnscQueueMoveEntryToEnd (QueueHead Entry : loc) : LM unit :=
  _ ← AnscQueuePopEntryByLink QueueHead (Some Entry);
  AnscQueuePushEntry QueueHead Entry.

Definition AnscQueueSearchEntryByIndex (QueueHead : loc) (Index : Z) : LM ptr :=
  nth_from (Z.to_nat Index) QueueHead.

Definition AnscQueuePopEntryByIndex (QueueHead : loc) (Index : Z) : LM ptr :=
  NextEntry ← AnscQueueSearchEntryByIndex QueueHead Index;
  match NextEntry with
  | Some _ => _ ← AnscQueuePopEntryByLink QueueHead NextEntry; mret NextEntry
  | None => mret None
  end.

Definition AnscQueuePushEntryFixNumber (QueueHead Entry : loc) (Max : Z) : LM ptr :=
  _ ← AnscQueuePushEntry QueueHead Entry;
  d ← rd_depth QueueHead;
  if Max <? d then AnscQueuePopEntry QueueHead else mret None.

Definition AnscQueuePushEntryBefore (QueueHead Entry : loc) (beforeEntry : ptr) : LM bool :=
  f ← rd_next QueueHead;
  bFound ← match f with
           | None =>
               _ ← wr_next QueueHead (Some Entry);
               _ ← wr_last QueueHead (Some Entry);
               _ ← wr_next Entry None;
               _ ← incr_depth QueueHead;
               mret false
           | Some _ =>
               LastEntry ← find_pred_from QueueHead beforeEntry;
               match LastEntry with
               | Some c =>
                   _ ← wr_next c (Some Entry);
                   _ ← wr_next Entry beforeEntry;
                   _ ← incr_depth QueueHead;
                   mret true
               | None => mret false
               end
           end;
  _ ← match bFound, beforeEntry with
      | true, None => wr_last QueueHead (Some Entry)
      | _, _ => mret tt
      end;
  mret bFound.

Definition AnscQueuePushEntryAfter (QueueHead Entry : loc) (afterEntry : ptr) : LM unit :=
  match afterEntry with
  | None => AnscQueuePushEntryAtFront QueueHead Entry
  | Some a =>
      n ← rd_next a;
      _ ← wr_next Entry n;
      _ ← wr_next a (Some Entry);
      lst ← rd_last QueueHead;
      _ ← (if decide (lst = afterEntry) then wr_last QueueHead (Some Entry) else mret tt);
      incr_depth QueueHead
  end.

(** ** The represented list *)

Definition is_queue (m : mem) (q : loc) (xs : list loc) : Prop :=
  chain (m_next m) q xs None /\
  m_last m !! q = Some (last xs) /\
  m_depth m !! q = Some (USHORT (Zlen xs)).

#[export] Instance is_queue_rep : ListRep is_queue.
Proof. by intros m q xs (Hc & _). Qed.

Abbreviation queue_step := (list_step is_queue).

(** ** Each operation on the represented list *)

Section queue_ops.
Implicit Types (m : mem) (q e : loc) (xs : list loc).

Lemma is_queue_first m q xs : is_queue m q xs -> m_next m !! q = Some (head xs).
Proof. intros (Hc & _). by eapply chain_first. Qed.

Lemma AnscQueuePushEntry_spec m q xs e :
    is_queue m q xs -> e ∉ q :: xs -> is_Some (m_next m !! e) ->
    exists m', AnscQueuePushEntry q e m = Done (tt, m') /\
      queue_step m q (q :: e :: xs) (xs ++ [e]) m'.
Proof.
    intros (Hc & Hl & Hd) He [n Hn].
    rewrite <-(app_nil_r xs) in Hc.
    assert (He' : e ∉ q :: xs ++ []) by by rewrite app_nil_r.
    pose proof (chain_insert _ _ _ _ _ Hc He') as Hc'. cbn in Hc'.
    apply chain_split in Hc as [Hp _].
    apply not_elem_of_cons in He as [Heq Hex].
    unfold AnscQueuePushEntry. run_step. run_step.
    destruct (last xs) as [y|] eqn:Hy; cbn in Hp, Hc'.
    - apply last_Some in Hy as [xs' ->]. elem_split.
      run_step. run_step. cbn. erewrite incr_depth_Done by lookup_solve.
      eexists. split; [reflexivity|]. list_step_solve; [done| |depth_solve].
      by rewrite lookup_insert_eq, last_snoc.
    - run_step. run_step. erewrite incr_depth_Done by lookup_solve.
      eexists. split; [reflexivity|]. list_step_solve; [done| |depth_solve].
      by rewrite lookup_insert_eq, last_snoc.
Qed.

Lemma AnscQueuePushEntryAtFront_spec m q xs e :
    is_queue m q xs -> e ∉ q :: xs -> is_Some (m_next m !! e) ->
    exists m', AnscQueuePushEntryAtFront q e m = Done (tt, m') /\
      queue_step m q (q :: e :: xs) (e :: xs) m'.
Proof.
    intros (Hc & Hl & Hd) He [n Hn].
    pose proof (chain_insert _ _ [] xs _ Hc He) as Hc'. cbn in Hc'.
    apply chain_first in Hc as Hp.
    apply not_elem_of_cons in He as [Heq Hex].
    unfold AnscQueuePushEntryAtFront. run_step. run_step. run_step. run_step.
    destruct (last xs) as [y|] eqn:Hy.
    - unfold mbind, CM_bind, mret, CM_ret. erewrite incr_depth_Done by lookup_solve.
      eexists. split; [reflexivity|]. list_step_solve; [done| |depth_solve].
      by rewrite Hl, last_cons, Hy.
    - apply last_None in Hy as ->. run_step. erewrite incr_depth_Done by lookup_solve.
      eexists. split; [reflexivity|]. list_step_solve; [done| |depth_solve].
      by rewrite lookup_insert_eq.
Qed.

Lemma AnscQueuePopEntry_spec m q xs :
    is_queue m q xs ->
    exists m', AnscQueuePopEntry q m = Done (head xs, m') /\
      queue_step m q (q :: xs) (tail xs) m'.
Proof.
    intros (Hc & Hl & Hd). unfold AnscQueuePopEntry.
    pose proof (chain_first _ _ _ Hc) as Hp. run_step.
    destruct xs as [|x xs]; cbn [head].
    - eexists. split; [reflexivity|]. split; [done| |done]. by intros l _.
    - pose proof (chain_remove _ _ [] xs _ Hc) as [Hx Hc']. cbn in Hc'.
      pose proof (chain_NoDup _ _ _ _ Hc) as Hnd.
      assert (q ≠ x) by (apply NoDup_cons in Hnd as [? _]; set_solver).
      run_step. run_step. run_step. run_step.
      destruct xs as [|y xs]; cbn [head].
      + run_step. eexists. split; [reflexivity|].
        list_step_solve; [done| |depth_solve]. by rewrite lookup_insert_eq.
      + eexists. split; [reflexivity|].
        list_step_solve; [done| |depth_solve]. by rewrite Hl.
Qed.

Lemma AnscQueuePopEntryByLink_absent m q xs e :
    is_queue m q xs -> e ∉ xs -> AnscQueuePopEntryByLink q (Some e) m = Done (false, m).
Proof.
    intros (Hc & Hl & Hd) He. unfold AnscQueuePopEntryByLink.
    unfold mbind at 1, CM_bind at 1. rewrite (find_pred_from_chain _ _ _ _ Hc).
    rewrite pred_of_absent by done. unfold mbind at 1, CM_bind at 1. cbn. run_step.
    case_decide as E; [|done]. exfalso. apply He. by apply last_Some_elem_of.
Qed.

Lemma AnscQueuePopEntryByLink_found m q xs1 xs2 e :
    is_queue m q (xs1 ++ e :: xs2) ->
    exists m', AnscQueuePopEntryByLink q (Some e) m = Done (true, m') /\
      queue_step m q (q :: xs1 ++ e :: xs2) (xs1 ++ xs2) m'.
Proof.
    intros (Hc & Hl & Hd). pose proof (chain_NoDup _ _ _ _ Hc) as Hnd.
    apply NoDup_cons in Hnd as [Hqx Hnd]. elem_split.
    pose proof Hnd as [[He1 He2]%not_elem_of_app _]%NoDup_middle.
    pose proof (chain_remove _ _ _ _ _ Hc) as [Hx Hc'].
    destruct (chain_split _ _ _ _ _ Hc) as [Hp _].
    pose proof (last_default_elem q xs1) as Hd1.
    unfold AnscQueuePopEntryByLink.
    unfold mbind at 1, CM_bind at 1. rewrite (find_pred_from_chain _ _ _ _ Hc).
    rewrite pred_of_split by done. unfold mbind at 1, CM_bind at 1. cbn -[last].
    run_step. run_step. unfold mbind at 1, CM_bind at 1.
    erewrite decr_depth_Done by lookup_solve. cbn -[last]. run_step.
    assert (Hfr : default q (last xs1) ∈ q :: xs1 ++ e :: xs2)
      by (apply elem_of_cons; apply elem_of_cons in Hd1 as [?|?]; [by left | right; set_solver]).
    rewrite last_app_cons, last_cons. destruct (last xs2) as [z|] eqn:Hz.
    - assert (z ∈ xs2) by (by apply last_Some_elem_of).
      rewrite decide_False by (intros [=]; congruence).
      eexists. split; [reflexivity|]. list_step_solve; [done| |depth_solve].
      by rewrite Hl, !last_app, last_cons, Hz.
    - apply last_None in Hz as ->. rewrite decide_True by done.
      unfold mbind at 1, CM_bind at 1, mbind at 1, CM_bind at 1.
      rewrite (rd_next_Done _ _ (head xs1))
        by (cbn; apply chain_first in Hc'; by rewrite app_nil_r in Hc').
      destruct (last xs1) as [y|] eqn:Hy.
      + apply last_Some in Hy as [xs' ->].
        replace (head (xs' ++ [y])) with (Some (default y (head xs'))) by by destruct xs'.
        cbn -[last].
        erewrite wr_last_Done by lookup_solve.
        eexists. split; [reflexivity|]. list_step_solve; [done| |depth_solve].
        by rewrite lookup_insert_eq, app_nil_r, last_snoc.
      + apply last_None in Hy as ->. cbn. erewrite wr_last_Done by lookup_solve.
        eexists. split; [reflexivity|]. list_step_solve; [done| |depth_solve].
        by rewrite lookup_insert_eq.
Qed.

Lemma AnscQueuePopEntryByLink_spec m q xs e :
    is_queue m q xs ->
    exists m', AnscQueuePopEntryByLink q (Some e) m = Done (bool_decide (e ∈ xs), m') /\
      queue_step m q (q :: xs) (lremove e xs) m'.
Proof.
    intros Hq. case_bool_decide as He.
    - destruct (rep_split _ _ _ _ Hq He) as (xs1 & xs2 & -> & He1 & He2 & _).
      rewrite lremove_split by (apply rep_NoDup in Hq; by apply NoDup_cons in Hq as [_ ?]).
      by apply AnscQueuePopEntryByLink_found.
    - exists m. rewrite lremove_absent by done. split; [by eapply AnscQueuePopEntryByLink_absent|].
      split; [done|by intros l _|done].
Qed.

Lemma AnscQueueSearchEntryByIndex_spec m q xs i :
    is_queue m q xs -> AnscQueueSearchEntryByIndex q i m = Done (xs !! Z.to_nat i, m).
Proof. intros (Hc & _). by apply nth_from_chain. Qed.

Lemma move_side m q S xs e m' :
    is_queue m q xs -> queue_step m q S (lremove e xs) m' -> e ≠ q ->
    is_Some (m_next m !! e) ->
    is_queue m' q (lremove e xs) /\ e ∉ q :: lremove e xs /\ is_Some (m_next m' !! e).
Proof.
    intros Hq [Q F K] Hne Hs. split_and!; [done| |by apply K].
    rewrite not_elem_of_cons, elem_of_lremove. naive_solver.
Qed.

Lemma AnscQueueMoveEntryToStart_spec m q xs e :
    is_queue m q xs -> e ≠ q -> is_Some (m_next m !! e) ->
    exists m', AnscQueueMoveEntryToStart q e m = Done (tt, m') /\
      queue_step m q (q :: e :: xs) (e :: lremove e xs) m'.
Proof.
    intros Hq Hne Hs. destruct (AnscQueuePopEntryByLink_spec _ _ _ e Hq) as (m1 & E1 & S1).
    destruct (move_side _ _ _ _ _ _ Hq S1 Hne Hs) as (Q1 & He & Hs1).
    destruct (AnscQueuePushEntryAtFront_spec _ _ _ _ Q1 He Hs1) as (m2 & E2 & S2).
    exists m2. unfold AnscQueueMoveEntryToStart. rewrite (CM_bind_Done _ _ _ _ _ E1).
    split; [done|]. eapply list_step_trans; [exact S1|exact S2| |]; intros l;
      rewrite ?elem_of_cons, ?elem_of_lremove; naive_solver.
Qed.

Lemma AnscQueueMoveEntryToEnd_spec m q xs e :
    is_queue m q xs -> e ≠ q -> is_Some (m_next m !! e) ->
    exists m', AnscQueueMoveEntryToEnd q e m = Done (tt, m') /\
      queue_step m q (q :: e :: xs) (lremove e xs ++ [e]) m'.
Proof.
    intros Hq Hne Hs. destruct (AnscQueuePopEntryByLink_spec _ _ _ e Hq) as (m1 & E1 & S1).
    destruct (move_side _ _ _ _ _ _ Hq S1 Hne Hs) as (Q1 & He & Hs1).
    destruct (AnscQueuePushEntry_spec _ _ _ _ Q1 He Hs1) as (m2 & E2 & S2).
    exists m2. unfold AnscQueueMoveEntryToEnd. rewrite (CM_bind_Done _ _ _ _ _ E1).
    split; [done|]. eapply list_step_trans; [exact S1|exact S2| |]; intros l;
      rewrite ?elem_of_cons, ?elem_of_lremove; naive_solver.
Qed.

Lemma AnscQueuePopEntryByIndex_spec m q xs i :
    is_queue m q xs ->
    exists m', AnscQueuePopEntryByIndex q i m = Done (xs !! Z.to_nat i, m') /\
      queue_step m q (q :: xs) (delete (Z.to_nat i) xs) m'.
Proof.
    intros Hq. unfold AnscQueuePopEntryByIndex.
    rewrite (CM_bind_Done _ _ _ _ _ (AnscQueueSearchEntryByIndex_spec _ _ _ _ Hq)).
    destruct (xs !! Z.to_nat i) as [e|] eqn:He.
    - apply list_elem_of_split_length in He as (xs1 & xs2 & -> & Hi).
      destruct (AnscQueuePopEntryByLink_found _ _ _ _ _ Hq) as (m' & E & S').
      exists m'. rewrite (CM_bind_Done _ _ _ _ _ E). split; [done|].
      by rewrite Hi, delete_middle.
    - exists m. split; [done|]. rewrite delete_past by done.
      split; [done|by intros l _|done].
Qed.

Lemma AnscQueuePushEntryFixNumber_spec m q xs e Max :
    is_queue m q xs -> e ∉ q :: xs -> is_Some (m_next m !! e) ->
    let over := Max <? USHORT (Zlen xs + 1) in
    exists m', AnscQueuePushEntryFixNumber q e Max m =
                 Done (if over then head (xs ++ [e]) else None, m') /\
      queue_step m q (q :: e :: xs) (if over then tail (xs ++ [e]) else xs ++ [e]) m'.
Proof.
    intros Hq He Hs over. destruct (AnscQueuePushEntry_spec _ _ _ _ Hq He Hs) as (m1 & E1 & S1).
    pose proof (ls_rep _ _ _ _ _ _ S1) as Q1. pose proof Q1 as (_ & _ & Hd).
    rewrite length_app in Hd. cbn [length] in Hd.
    replace (Z.of_nat (length xs + 1)) with (Zlen xs + 1) in Hd by lia.
    unfold AnscQueuePushEntryFixNumber. rewrite (CM_bind_Done _ _ _ _ _ E1). run_step.
    fold over. destruct over; [|by exists m1].
    destruct (AnscQueuePopEntry_spec _ _ _ Q1) as (m2 & E2 & S2).
    exists m2. split; [done|]. eapply list_step_trans; [exact S1|exact S2| |]; intros l;
      rewrite ?elem_of_cons, ?elem_of_app; set_solver.
Qed.

(** [AnscQueuePushEntryBefore] on an empty queue inserts the entry and yet
      answers FALSE; with an unknown [beforeEntry] it inserts nothing. *)
Definition push_before (e : loc) (b : ptr) (xs : list loc) : bool * list loc :=
    match xs, b with
    | [], _ => (false, [e])
    | _, None => (true, xs ++ [e])
    | _, Some t => if bool_decide (t ∈ xs) then (true, linsert_before t e xs) else (false, xs)
    end.

Lemma push_before_found_step m q xs1 xs2 t e :
    is_queue m q (xs1 ++ t :: xs2) -> e ∉ q :: xs1 ++ t :: xs2 -> is_Some (m_next m !! e) ->
    exists m', AnscQueuePushEntryBefore q e (Some t) m = Done (true, m') /\
      queue_step m q (q :: e :: xs1 ++ t :: xs2) (xs1 ++ e :: t :: xs2) m'.
Proof.
    intros (Hc & Hl & Hd) He [n Hn].
    pose proof (chain_insert _ _ _ _ _ Hc He) as Hc'. cbn [head] in Hc'.
    pose proof (chain_NoDup _ _ _ _ Hc) as [_ [[Ht1 _]%not_elem_of_app _]%NoDup_middle]%NoDup_cons.
    destruct (chain_split _ _ _ _ _ Hc) as [Hp _].
    pose proof (last_default_elem q xs1) as Hd1.
    assert (Hfr : default q (last xs1) ∈ q :: e :: xs1 ++ t :: xs2)
      by (rewrite !elem_of_cons, elem_of_app; apply elem_of_cons in Hd1; tauto).
    assert (Hde : default q (last xs1) ≠ e).
    { intros E. apply He. rewrite <-E. rewrite elem_of_cons, elem_of_app.
      apply elem_of_cons in Hd1. tauto. }
    apply not_elem_of_cons in He as [Heq _].
    unfold AnscQueuePushEntryBefore.
    unfold mbind at 1, CM_bind at 1. rewrite (rd_next_Done _ _ _ (chain_first _ _ _ Hc)).
    replace (head (xs1 ++ t :: xs2)) with (Some (default t (head xs1))) by by destruct xs1.
    unfold mbind at 1, CM_bind at 1, mbind at 1, CM_bind at 1.
    rewrite (find_pred_from_chain _ _ _ _ Hc), pred_of_split by done.
    cbn beta iota. run_step. run_step. unfold mbind at 1, CM_bind at 1.
    erewrite incr_depth_Done by lookup_solve. cbn -[last from_option].
    eexists. split; [reflexivity|].
    rewrite insert_insert_ne in Hc' by congruence.
    list_step_solve; [done| |depth_solve].
    by rewrite Hl, !last_app_cons, (last_cons e), last_cons; destruct (last xs2).
Qed.

Lemma push_before_end_step m q x xs e :
    is_queue m q (x :: xs) -> e ∉ q :: x :: xs -> is_Some (m_next m !! e) ->
    exists m', AnscQueuePushEntryBefore q e None m = Done (true, m') /\
      queue_step m q (q :: e :: x :: xs) ((x :: xs) ++ [e]) m'.
Proof.
    intros (Hc & Hl & Hd) He [n Hn].
    assert (Hc0 : chain (m_next m) q ((x :: xs) ++ []) None) by by rewrite app_nil_r.
    assert (He0 : e ∉ q :: (x :: xs) ++ []) by by rewrite app_nil_r.
    pose proof (chain_insert _ _ _ _ _ Hc0 He0) as Hc'. cbn [head] in Hc'.
    destruct (chain_split _ _ _ _ _ Hc0) as [Hp _].
    pose proof (last_default_elem q (x :: xs)) as Hd1.
    assert (Hfr : default q (last (x :: xs)) ∈ q :: e :: x :: xs)
      by (rewrite !elem_of_cons in *; tauto).
    assert (Hde : default q (last (x :: xs)) ≠ e) by (intros E; apply He; by rewrite <-E).
    apply not_elem_of_cons in He as [Heq _].
    unfold AnscQueuePushEntryBefore. unfold mbind at 1, CM_bind at 1.
    rewrite (rd_next_Done _ _ _ (chain_first _ _ _ Hc)). cbn [head].
    unfold mbind at 1, CM_bind at 1, mbind at 1, CM_bind at 1.
    rewrite (find_pred_from_chain _ _ _ _ Hc). cbn [pred_of].
    cbn beta iota. run_step. run_step. unfold mbind at 1, CM_bind at 1.
    erewrite incr_depth_Done by lookup_solve. cbn -[last from_option].
    unfold mbind at 1, CM_bind at 1. erewrite wr_last_Done by lookup_solve.
    eexists. split; [reflexivity|]. rewrite insert_insert_ne in Hc' by congruence.
    list_step_solve; [done| |depth_solve].
    by rewrite lookup_insert_eq, app_comm_cons, last_snoc.
Qed.

Lemma AnscQueuePushEntryBefore_spec m q xs e b :
    is_queue m q xs -> e ∉ q :: xs -> is_Some (m_next m !! e) ->
    exists m', AnscQueuePushEntryBefore q e b m = Done ((push_before e b xs).1, m') /\
      queue_step m q (q :: e :: xs) (push_before e b xs).2 m'.
Proof.
    intros Hq He Hs. destruct xs as [|x xs].
    - destruct Hq as (Hc & Hl & Hd), Hs as [n Hn].
      pose proof (chain_insert _ _ [] [] _ Hc He) as Hc'. cbn in Hc'.
      pose proof (chain_first _ _ _ Hc) as Hp.
      apply not_elem_of_cons in He as [Heq _]. unfold AnscQueuePushEntryBefore.
      run_step. cbn [head]. unfold mbind at 1, CM_bind at 1. run_step. run_step. run_step.
      unfold mbind at 1, CM_bind at 1. erewrite incr_depth_Done by lookup_solve.
      eexists. split; [reflexivity|]. rewrite insert_insert_ne in Hc' by congruence.
      list_step_solve; [done| |depth_solve]. by rewrite lookup_insert_eq.
    - destruct b as [t|]; [|by apply push_before_end_step].
      change (push_before e (Some t) (x :: xs)) with
        (if bool_decide (t ∈ x :: xs) then (true, linsert_before t e (x :: xs))
         else (false, x :: xs)).
      case_bool_decide as Ht; cbn [fst snd].
      + destruct (rep_split _ _ _ _ Hq Ht) as (xs1 & xs2 & E & Ht1 & Ht2 & _).
        rewrite E in *. rewrite linsert_before_split by done.
        by apply push_before_found_step.
      + exists m. split; [|split; [done|by intros l _|done]].
        pose proof Hq as (Hc & _). unfold AnscQueuePushEntryBefore. unfold mbind at 1, CM_bind at 1.
        rewrite (rd_next_Done _ _ _ (chain_first _ _ _ Hc)). cbn [head].
        unfold mbind at 1, CM_bind at 1, mbind at 1, CM_bind at 1.
        by rewrite (find_pred_from_chain _ _ _ _ Hc), pred_of_absent by done.
Qed.

Lemma AnscQueuePushEntryAfter_spec m q xs e a :
    is_queue m q xs -> e ∉ q :: xs -> is_Some (m_next m !! e) ->
    (forall t, a = Some t -> t ∈ xs) ->
    exists m', AnscQueuePushEntryAfter q e a m = Done (tt, m') /\
      queue_step m q (q :: e :: xs) (match a with None => e :: xs | Some t => linsert_after t e xs end) m'.
Proof.
    intros Hq He Hs Ha. destruct a as [t|]; [|by apply AnscQueuePushEntryAtFront_spec].
    destruct (rep_split _ _ _ _ Hq (Ha t eq_refl)) as (xs1 & xs2 & -> & Ht1 & Ht2 & Hqt).
    rewrite linsert_after_split by done. destruct Hq as (Hc & Hl & Hd), Hs as [n Hn].
    assert (Hc0 : chain (m_next m) q ((xs1 ++ [t]) ++ xs2) None) by by rewrite <-app_assoc.
    assert (He0 : e ∉ q :: (xs1 ++ [t]) ++ xs2) by by rewrite <-app_assoc.
    pose proof (chain_insert _ _ _ _ _ Hc0 He0) as Hc'. rewrite last_snoc in Hc'. cbn [default] in Hc'.
    pose proof (chain_remove _ _ _ _ _ Hc) as [Hx _].
    pose proof He as He2. elem_split.
    unfold AnscQueuePushEntryAfter. run_step. run_step. run_step. run_step.
    rewrite <-app_assoc in Hc'. cbn [app] in Hc'.
    rewrite last_app_cons, last_cons. destruct (last xs2) as [z|] eqn:Hz.
    - assert (z ∈ xs2) by (by apply last_Some_elem_of).
      rewrite decide_False by (intros [=]; congruence).
      unfold mbind at 1, CM_bind at 1. cbn -[last incr_depth]. erewrite incr_depth_Done by lookup_solve.
      eexists. split; [reflexivity|]. list_step_solve; [done| |depth_solve].
      by rewrite Hl, !last_app_cons, !last_cons, Hz.
    - apply last_None in Hz as ->. rewrite decide_True by done. run_step.
      erewrite incr_depth_Done by lookup_solve.
      eexists. split; [reflexivity|]. list_step_solve; [done| |depth_solve].
      by rewrite lookup_insert_eq, last_app_cons.
Qed.
End queue_ops.

(** ** The queue as an abstract data type

    The operations as data, what they do in the store and what they mean on
    the represented list. *)

Inductive qop : Type :=
  | QPush (e : loc) | QPushAtFront (e : loc) | QPop
  | QPopByLink (e : loc) | QMoveToStart (e : loc) | QMoveToEnd (e : loc)
  | QSearch (i : Z) | QPopByIndex (i : Z) | QPushFix (e : loc) (max : Z)
  | QPushBefore (e : loc) (b : ptr) | QPushAfter (e : loc) (a : ptr).

Definition qop_run (q : loc) (op : qop) : LM opval :=
  match op with
  | QPush e => _ ← AnscQueuePushEntry q e; mret VVoid
  | QPushAtFront e => _ ← AnscQueuePushEntryAtFront q e; mret VVoid
  | QPop => p ← AnscQueuePopEntry q; mret (VEntry p)
  | QPopByLink e => b ← AnscQueuePopEntryByLink q (Some e); mret (VBoolean b)
  | QMoveToStart e => _ ← AnscQueueMoveEntryToStart q e; mret VVoid
  | QMoveToEnd e => _ ← AnscQueueMoveEntryToEnd q e; mret VVoid
  | QSearch i => p ← AnscQueueSearchEntryByIndex q i; mret (VEntry p)
  | QPopByIndex i => p ← AnscQueuePopEntryByIndex q i; mret (VEntry p)
  | QPushFix e max => p ← AnscQueuePushEntryFixNumber q e max; mret (VEntry p)
  | QPushBefore e b => r ← AnscQueuePushEntryBefore q e b; mret (VBoolean r)
  | QPushAfter e a => _ ← AnscQueuePushEntryAfter q e a; mret VVoid
  end.

Definition qop_spec (op : qop) (xs : list loc) : opval * list loc :=
  match op with
  | QPush e => (VVoid, xs ++ [e])
  | QPushAtFront e => (VVoid, e :: xs)
  | QPop => (VEntry (head xs), tail xs)
  | QPopByLink e => (VBoolean (bool_decide (e ∈ xs)), lremove e xs)
  | QMoveToStart e => (VVoid, e :: lremove e xs)
  | QMoveToEnd e => (VVoid, lremove e xs ++ [e])
  | QSearch i => (VEntry (xs !! Z.to_nat i), xs)
  | QPopByIndex i => (VEntry (xs !! Z.to_nat i), delete (Z.to_nat i) xs)
  | QPushFix e max =>
      if max <? USHORT (Zlen xs + 1)
      then (VEntry (head (xs ++ [e])), tail (xs ++ [e])) else (VEntry None, xs ++ [e])
  | QPushBefore e b => (VBoolean (push_before e b xs).1, (push_before e b xs).2)
  | QPushAfter e a =>
      (VVoid, match a with None => e :: xs | Some t => linsert_after t e xs end)
  end.

(** The entry an operation links in, and what the caller has to guarantee:
    it is a cell that is not in the queue; the entry to insert after is. *)
Definition qop_entry (op : qop) : list loc :=
  match op with
  | QPush e | QPushAtFront e | QPushFix e _ | QPushBefore e _ | QPushAfter e _
  | QMoveToStart e | QMoveToEnd e => [e]
  | _ => []
  end.

Definition qop_pre (op : qop) (xs : list loc) : Prop :=
  match op with
  | QPush e | QPushAtFront e | QPushFix e _ | QPushBefore e _ => e ∉ xs
  | QPushAfter e a => e ∉ xs /\ forall t, a = Some t -> t ∈ xs
  | _ => True
  end.

Lemma qop_refines m q op xs :
  is_queue m q xs -> qop_pre op xs -> entry_cells single_cell m q (qop_entry op) ->
  exists m', qop_run q op m = Done ((qop_spec op xs).1, m') /\
    queue_step m q (q :: qop_entry op ++ xs) (qop_spec op xs).2 m'.
Proof.
  intros Hq Hpre Hcells.
  assert (Hin : forall e, qop_entry op = [e] -> e ∉ xs -> e ∉ q :: xs /\ is_Some (m_next m !! e)).
  { intros e E He. destruct (Hcells e) as [? ?]; [rewrite E; by left|].
    split; [|done]. apply not_elem_of_cons. done. }
  assert (Hne : forall e, qop_entry op = [e] -> e ≠ q /\ is_Some (m_next m !! e)).
  { intros e E. apply Hcells. rewrite E. by left. }
  destruct op; cbn [qop_run qop_spec qop_entry app fst snd qop_pre] in *;
    try (destruct (Hin _ eq_refl ltac:(tauto)) as [? ?]); try (destruct (Hne _ eq_refl) as [? ?]).
  - close_op (AnscQueuePushEntry_spec m q xs e).
  - close_op (AnscQueuePushEntryAtFront_spec m q xs e).
  - close_op (AnscQueuePopEntry_spec m q xs).
  - close_op (AnscQueuePopEntryByLink_spec m q xs e).
  - close_op (AnscQueueMoveEntryToStart_spec m q xs e).
  - close_op (AnscQueueMoveEntryToEnd_spec m q xs e).
  - exists m. rewrite (CM_bind_Done _ _ _ _ _ (AnscQueueSearchEntryByIndex_spec _ _ _ _ Hq)).
    split; [done|]. split; [done|by intros l _|done].
  - close_op (AnscQueuePopEntryByIndex_spec m q xs i).
  - destruct (AnscQueuePushEntryFixNumber_spec m q xs e max) as (m' & E & Hs); [done..|].
    exists m'. rewrite (CM_bind_Done _ _ _ _ _ E). by destruct (max <? _).
  - close_op (AnscQueuePushEntryBefore_spec m q xs e b).
  - destruct Hpre as [_ Ha]. close_op (AnscQueuePushEntryAfter_spec m q xs e a).
Qed.

Lemma qop_spec_elem op xs l : l ∈ (qop_spec op xs).2 -> l ∈ qop_entry op ++ xs.
Proof.
  pose proof (not_elem_of_nil l) as Hnil.
  destruct op; cbn [qop_spec qop_entry snd app]; rewrite ?elem_of_app, ?elem_of_cons, ?elem_of_lremove;
    try tauto.
  - apply elem_of_tail.
  - apply elem_of_delete.
  - case_match; cbn [snd]; [intros Ht%elem_of_tail; revert Ht|];
      rewrite elem_of_app, elem_of_cons; tauto.
  - destruct xs as [|x xs], b as [t|]; unfold push_before; cbn -[bool_decide linsert_before];
      try case_bool_decide; cbn [snd];
      first [intros ?%elem_of_linsert_before; revert Hnil; set_solver
            |rewrite ?elem_of_cons, ?elem_of_app, ?elem_of_cons; tauto].
  - destruct a; [apply elem_of_linsert_after|]. by rewrite elem_of_cons.
Qed.

(** C22. Refinement: on a well-formed queue header, any sequence of the queue
    operations whose entries are allocated cells that are not yet queued runs
    to completion, returns exactly what the operations return on the list,
    leaves a well-formed queue that holds the resulting list (order, last
    entry and 16-bit depth included), and writes to no cell outside the
    header, the linked entries and the list it started with. *)
Theorem queue_trace_refines m q ops xs :
  is_queue m q xs -> trace_pre qop_spec qop_pre ops xs ->
  entry_cells single_cell m q (trace_entries qop_entry ops) ->
  exists m', trace_run (qop_run q) ops m = Done ((trace_spec qop_spec ops xs).1, m') /\
    is_queue m' q (trace_spec qop_spec ops xs).2 /\
    frame (q :: trace_entries qop_entry ops ++ xs) m m'.
Proof.
  eapply trace_refines; [apply single_cell_keeps| |apply qop_spec_elem]. intros. by apply qop_refines.
Qed.

(** A small store: a queue header at 1 and four free entries 2 to 5. *)
Definition queue_demo : mem :=
  Mem (list_to_map [(1, None); (2, None); (3, None); (4, None); (5, None)])%positive ∅
      {[1%positive := None]} {[1%positive := 0]}.

Definition queue_demo_ops : list qop :=
  [QPush 2; QPush 3; QPushAtFront 4; QMoveToEnd 4; QPushBefore 5 (Some 3); QPopByIndex 0;
   QSearch 2; QPopByLink 4; QPop]%positive.

Lemma queue_trace_refines_witness :
  exists m', trace_run (qop_run 1%positive) queue_demo_ops queue_demo =
    Done ([VVoid; VVoid; VVoid; VVoid; VBoolean true; VEntry (Some 2);
           VEntry (Some 4); VBoolean true; VEntry (Some 5)], m')%positive /\
    is_queue m' 1%positive [3%positive] /\
    frame (1 :: trace_entries qop_entry queue_demo_ops ++ [])%positive queue_demo m'.
Proof.
  apply (queue_trace_refines queue_demo 1%positive queue_demo_ops []).
  - split_and!; [|reflexivity|reflexivity]. split; [apply NoDup_singleton|].
    exists None. split; reflexivity.
  - cbn. split_and!; set_solver.
  - intros e He. cbn in He. repeat (apply elem_of_cons in He as [->|He]);
      [split; [done|by eexists]..|]. by apply not_elem_of_nil in He.
Defined.
