(* ===== verification/SList.v ===== *)
(** * The singly linked list ([ansc_slist.c], [AnscSList*] of [ansc_common_structures.h])

    An [SLIST_HEADER] keeps the first entry and a 16-bit depth; there is no
    pointer to the last entry.  The hash tables of the atom table are arrays
    of such headers. *)

From S2P Require Import Prelude Links.
Open Scope Z_scope.

(** ** The operations *)

Definition AnscSListInitializeHeader (ListHead : loc) : LM unit :=
  _ ← wr_next ListHead None;
  wr_depth ListHead 0.

Definition AnscSListPushEntry (ListHead Entry : loc) : LM unit :=
  f ← rd_next ListHead;
  _ ← wr_next Entry f;
  _ ← wr_next ListHead (Some Entry);
  incr_depth ListHead.

Definition AnscSListPopEntry (ListHead : loc) : LM ptr :=
  FirstEntry ← rd_next ListHead;
  match FirstEntry with
  | None => mret None
  | Some l =>
      n ← rd_next l;
      _ ← wr_next ListHead n;
      _ ← decr_depth ListHead;
      mret (Some l)
  end.

Definition AnscSListPopEntryByLink (ListHead : loc) (Entry : ptr) : LM bool :=
  NextEntry ← find_pred_from ListHead Entry;
  match NextEntry with
  | Some c =>
      n ← rd_next_p Entry;
      _ ← wr_next c n;
      _ ← decr_depth ListHead;
      mret true
  | None => mret false
  end.

Definition AnscSListReplaceEntry (ListHead NewEntry : loc) (OldEntry : ptr) : LM unit :=
  NextEntry ← find_pred_from ListHead OldEntry;
  match NextEntry with
  | Some c =>
      _ ← wr_next c (Some NewEntry);
      n ← rd_next_p OldEntry;
      wr_next NewEntry n
  | None => mret tt
  end.

(** [while ( NextEntry ) { LastEntry = NextEntry; NextEntry = LastEntry->Next; }] *)
Fixpoint last_walk (fuel : nat) (NextEntry LastEntry : ptr) : LM ptr :=
  match NextEntry with
  | None => mret LastEntry
  | Some l =>
      match fuel with
      | O => cm_fault Diverge
      | S k => n ← rd_next l; last_walk k n (Some l)
      end
  end.

Definition last_walk_from (NextEntry LastEntry : ptr) : LM ptr := fun m =>
  last_walk (scan_fuel m) NextEntry LastEntry m.

Definition AnscSListGetLastEntry (ListHead : loc) : LM ptr :=
  NextEntry ← rd_next ListHead;
  last_walk_from NextEntry NextEntry.

Definition AnscSListPushEntryAtBack (ListHead Entry : loc) : LM unit :=
  f ← rd_next ListHead;
  match f with
  | None => AnscSListPushEntry ListHead Entry
  | Some _ =>
      _ ← wr_next Entry None;
      l ← AnscSListGetLastEntry ListHead;
      _ ← match l with Some c => wr_next c (Some Entry) | None => cm_fault NullDeref end;
      incr_depth ListHead
  end.

Definition AnscSListPushEntryFixNumber (ListHead Entry : loc) (Max : Z) : LM ptr :=
  _ ← AnscSListPushEntry ListHead Entry;
  d ← rd_depth ListHead;
  if Max <? d then
    LastEntry ← AnscSListGetLastEntry ListHead;
    _ ← AnscSListPopEntryByLink ListHead LastEntry;
    mret LastEntry
  else mret None.

Definition AnscSListSearchEntryByIndex (ListHead : loc) (Index : Z) : LM ptr :=
  nth_from (Z.to_nat Index) ListHead.

(** [for ( i = 0; i < Index; i++ ) NextEntry = NextEntry->Next;] *)
Fixpoint next_walk (i : nat) (c : ptr) : LM ptr :=
  match i with
  | O => mret c
  | S k => n ← rd_next_p c; next_walk k n
  end.

Definition AnscSListPushEntryByIndex (ListHead Entry : loc) (Index : Z) : LM ptr :=
  d ← rd_depth ListHead;
  if d <=? Index then
    _ ← AnscSListPushEntryAtBack ListHead Entry;
    mret None
  else
    NextEntry ← next_walk (Z.to_nat Index) (Some ListHead);
    n ← rd_next_p NextEntry;
    _ ← wr_next Entry n;
    _ ← match NextEntry with Some c => wr_next c (Some Entry) | None => cm_fault NullDeref end;
    _ ← incr_depth ListHead;
    mret NextEntry.

(** ** The represented list *)

Definition is_slist (m : mem) (h : loc) (xs : list loc) : Prop :=
  chain (m_next m) h xs None /\ m_depth m !! h = Some (USHORT (Zlen xs)).

#[export] Instance is_slist_rep : ListRep is_slist.
Proof. by intros m h xs (Hc & _). Qed.

Abbreviation slist_step := (list_step is_slist).

Section slist_ops.
Implicit Types (m : mem) (h e : loc) (xs : list loc).

Lemma AnscSListInitializeHeader_spec m h p d :
  m_next m !! h = Some p -> m_depth m !! h = Some d ->
  exists m', AnscSListInitializeHeader h m = Done (tt, m') /\ slist_step m h [h] [] m'.
Proof.
  intros Hp Hd. unfold AnscSListInitializeHeader. run_step.
  unfold wr_depth. cbn. rewrite Hd. eexists. split; [reflexivity|].
  list_step_solve; [|by rewrite lookup_insert_eq].
  split; [apply NoDup_singleton|]. exists None. split; [apply lookup_insert_eq|done].
Qed.

(** Linking [e] in behind the cell that ends the prefix [xs1]: the three writes
    of every insertion. *)
Lemma link_step m h xs1 xs2 e :
  is_slist m h (xs1 ++ xs2) -> e ∉ h :: xs1 ++ xs2 -> is_Some (m_next m !! e) ->
  m_next m !! default h (last xs1) = Some (head xs2) /\
  default h (last xs1) ∈ h :: xs1 /\ default h (last xs1) ≠ e /\
  slist_step m h (h :: e :: xs1 ++ xs2) (xs1 ++ e :: xs2)
    (set_depth (<[h := USHORT (USHORT (Zlen (xs1 ++ xs2)) + 1)]>)
       (set_next (<[default h (last xs1) := Some e]>) (set_next (<[e := head xs2]>) m))).
Proof.
  intros (Hc & Hd) He [n Hn]. pose proof (chain_insert _ _ _ _ _ Hc He) as Hc'.
  destruct (chain_split _ _ _ _ _ Hc) as [Hp _].
  pose proof (last_default_elem h xs1) as Hd1.
  assert (Hfr : default h (last xs1) ∈ h :: e :: xs1 ++ xs2)
    by (rewrite !elem_of_cons, elem_of_app; apply elem_of_cons in Hd1; tauto).
  assert (Hde : default h (last xs1) ≠ e).
  { intros E. apply He. rewrite <-E, elem_of_cons, elem_of_app. apply elem_of_cons in Hd1. tauto. }
  split_and!; [by destruct xs2|done|done|]. list_step_solve; [done|depth_solve].
Qed.

Lemma AnscSListPushEntry_spec m h xs e :
  is_slist m h xs -> e ∉ h :: xs -> is_Some (m_next m !! e) ->
  exists m', AnscSListPushEntry h e m = Done (tt, m') /\ slist_step m h (h :: e :: xs) (e :: xs) m'.
Proof.
  intros Hr He [n Hn]. destruct (link_step m h [] xs e Hr He ltac:(eauto)) as (Hp & _ & Hne & Hs).
  destruct Hr as (Hc & Hd). cbn in Hp, Hne. unfold AnscSListPushEntry.
  run_step. run_step. run_step. erewrite incr_depth_Done by lookup_solve.
  eexists. split; [reflexivity|]. exact Hs.
Qed.

(** Unlinking the entry behind the prefix [xs1]. *)
Lemma unlink_step m h xs1 xs2 e :
  is_slist m h (xs1 ++ e :: xs2) ->
  m_next m !! default h (last xs1) = Some (Some e) /\ m_next m !! e = Some (head xs2) /\
  slist_step m h (h :: xs1 ++ e :: xs2) (xs1 ++ xs2)
    (set_depth (<[h := USHORT (USHORT (Zlen (xs1 ++ e :: xs2)) - 1)]>)
       (set_next (<[default h (last xs1) := head xs2]>) m)).
Proof.
  intros (Hc & Hd). pose proof (chain_remove _ _ _ _ _ Hc) as [Hx Hc'].
  destruct (chain_split _ _ _ _ _ Hc) as [Hp _].
  pose proof (last_default_elem h xs1) as Hd1.
  assert (Hfr : default h (last xs1) ∈ h :: xs1 ++ e :: xs2)
    by (rewrite !elem_of_cons, elem_of_app; apply elem_of_cons in Hd1; tauto).
  split_and!; [done|done|]. list_step_solve; [done|depth_solve].
Qed.

Lemma AnscSListPopEntry_spec m h xs :
  is_slist m h xs ->
  exists m', AnscSListPopEntry h m = Done (head xs, m') /\ slist_step m h (h :: xs) (tail xs) m'.
Proof.
  intros Hr. pose proof Hr as (Hc & Hd). unfold AnscSListPopEntry.
  pose proof (chain_first _ _ _ Hc) as Hp. run_step.
  destruct xs as [|x xs]; cbn [head].
  - exists m. split; [done|by apply list_step_refl].
  - destruct (unlink_step m h [] xs x Hr) as (_ & Hx & Hs).
    run_step. run_step. unfold mbind at 1, CM_bind at 1.
    erewrite decr_depth_Done by lookup_solve. eexists. split; [reflexivity|exact Hs].
Qed.

Lemma AnscSListPopEntryByLink_spec m h xs e :
  is_slist m h xs ->
  exists m', AnscSListPopEntryByLink h (Some e) m = Done (bool_decide (e ∈ xs), m') /\
    slist_step m h (h :: xs) (lremove e xs) m'.
Proof.
  intros Hr. unfold AnscSListPopEntryByLink. rewrite (CM_bind_Done _ _ _ _ _ (rep_find_pred _ _ _ _ Hr)).
  case_bool_decide as He.
  - destruct (rep_split _ _ _ _ Hr He) as (xs1 & xs2 & -> & He1 & He2 & _).
    rewrite lremove_split by (by apply rep_NoDup, NoDup_cons in Hr as [_ ?]).
    destruct (unlink_step _ _ _ _ _ Hr) as (Hp & Hx & Hs). destruct Hr as (Hc & Hd).
    rewrite pred_of_split by done. cbn -[last from_option]. run_step. run_step.
    unfold mbind at 1, CM_bind at 1. erewrite decr_depth_Done by lookup_solve.
    eexists. split; [reflexivity|exact Hs].
  - rewrite pred_of_absent, lremove_absent by done. exists m.
    split; [done|by apply list_step_refl].
Qed.

(** [AnscSListReplaceEntry] puts the new entry in the old one's place. *)
Definition lreplace (new old : loc) (xs : list loc) : list loc :=
  map (fun x => if decide (x = old) then new else x) xs.

Lemma lreplace_absent new old xs : old ∉ xs -> lreplace new old xs = xs.
Proof.
  induction xs as [|x xs IH]; [done|]. intros [? ?]%not_elem_of_cons. cbn.
  rewrite decide_False by congruence. f_equal. by apply IH.
Qed.

Lemma lreplace_split new old xs1 xs2 :
  old ∉ xs1 -> old ∉ xs2 -> lreplace new old (xs1 ++ old :: xs2) = xs1 ++ new :: xs2.
Proof.
  intros H1 H2. unfold lreplace. rewrite map_app. cbn. rewrite decide_True by done.
  f_equal; [by apply lreplace_absent|]. f_equal. by apply lreplace_absent.
Qed.

Lemma AnscSListReplaceEntry_spec m h xs new old :
  is_slist m h xs -> new ∉ h :: xs -> is_Some (m_next m !! new) ->
  exists m', AnscSListReplaceEntry h new (Some old) m = Done (tt, m') /\
    slist_step m h (h :: new :: xs) (lreplace new old xs) m'.
Proof.
  intros Hr Hnew [n Hn]. unfold AnscSListReplaceEntry.
  rewrite (CM_bind_Done _ _ _ _ _ (rep_find_pred _ _ _ _ Hr)).
  destruct (decide (old ∈ xs)) as [He|He].
  - destruct (rep_split _ _ _ _ Hr He) as (xs1 & xs2 & -> & He1 & He2 & Hh).
    rewrite pred_of_split, lreplace_split by done. destruct Hr as (Hc & Hd).
    pose proof (chain_remove _ _ _ _ _ Hc) as [Hx Hc1].
    assert (Hnew1 : new ∉ h :: xs1 ++ xs2) by set_solver.
    pose proof (chain_insert _ _ _ _ _ Hc1 Hnew1) as Hc2.
    destruct (chain_split _ _ _ _ _ Hc) as [Hp _].
    pose proof (last_default_elem h xs1) as Hd1.
    assert (Hfr : default h (last xs1) ∈ h :: new :: xs1 ++ old :: xs2)
      by (rewrite !elem_of_cons, elem_of_app; apply elem_of_cons in Hd1; tauto).
    assert (Hdn : default h (last xs1) ≠ new).
    { intros E. apply Hnew. rewrite <-E, elem_of_cons, elem_of_app. apply elem_of_cons in Hd1. tauto. }
    assert (Hdo : default h (last xs1) ≠ old).
    { intros E. rewrite E in Hd1. apply elem_of_cons in Hd1 as [?|?]; [by apply Hh|done]. }
    assert (new ≠ old) by set_solver. cbn -[last from_option]. run_step. run_step.
    erewrite wr_next_Done by lookup_solve. eexists. split; [reflexivity|].
    list_step_solve.
    + rewrite (insert_insert_ne _ new) in Hc2 by congruence. rewrite insert_insert_eq in Hc2.
      by rewrite (insert_insert_ne _ new) by congruence.
    + rewrite Hd, !length_app. done.
  - rewrite pred_of_absent, lreplace_absent by done. exists m. split; [done|].
    by apply list_step_refl.
Qed.

Lemma last_walk_lseg fuel m p xs l :
  lseg (m_next m) p xs None -> (length xs <= fuel)%nat ->
  last_walk fuel p l m = Done (match last xs with Some y => Some y | None => l end, m).
Proof.
  revert p l fuel. induction xs as [|x xs IH]; intros p l fuel Hs Hf; cbn in Hs.
  - subst. by destruct fuel.
  - destruct Hs as (-> & n & Hn & Hs). destruct fuel as [|fuel]; [cbn in Hf; lia|].
    cbn [last_walk]. rewrite (CM_bind_Done _ _ _ _ _ (rd_next_Done _ _ _ Hn)).
    rewrite (IH n _ fuel Hs) by (cbn in Hf; lia). rewrite last_cons. by destruct (last xs).
Qed.

Lemma AnscSListGetLastEntry_spec m h xs :
  is_slist m h xs -> AnscSListGetLastEntry h m = Done (last xs, m).
Proof.
  intros (Hc & Hd). pose proof (chain_size _ _ _ _ Hc) as Hsz.
  unfold AnscSListGetLastEntry. pose proof (chain_first _ _ _ Hc) as Hp. run_step.
  destruct Hc as (_ & p & Hp' & Hs). rewrite Hp in Hp'. injection Hp' as <-.
  unfold last_walk_from.
  rewrite (last_walk_lseg _ _ _ _ _ Hs) by (unfold scan_fuel; lia).
  destruct (last xs) eqn:E; [done|]. by apply last_None in E as ->.
Qed.

Lemma AnscSListPushEntryAtBack_spec m h xs e :
  is_slist m h xs -> e ∉ h :: xs -> is_Some (m_next m !! e) ->
  exists m', AnscSListPushEntryAtBack h e m = Done (tt, m') /\
    slist_step m h (h :: e :: xs) (xs ++ [e]) m'.
Proof.
  intros Hr He Hs. unfold AnscSListPushEntryAtBack. pose proof Hr as (Hc & Hd).
  rewrite (CM_bind_Done _ _ _ _ _ (rd_next_Done _ _ _ (chain_first _ _ _ Hc))).
  destruct xs as [|x xs]; cbn [head]; [by apply AnscSListPushEntry_spec|].
  assert (Hr0 : is_slist m h ((x :: xs) ++ [])) by by rewrite app_nil_r.
  assert (He0 : e ∉ h :: (x :: xs) ++ []) by by rewrite app_nil_r.
  destruct (link_step m h (x :: xs) [] e Hr0 He0 Hs) as (Hp & Hin & Hne & Hst).
  destruct Hs as [n Hn]. rewrite app_nil_r in *.
  assert (Hr1 : is_slist (set_next (<[e := None]>) m) h (x :: xs)).
  { destruct Hc as (Hnd & p & Hp' & Hs'). apply not_elem_of_cons in He as [? ?].
    split; [|done]. split; [done|]. exists p. cbn [m_next set_next].
    rewrite lookup_insert_ne by congruence. split; [done|]. by apply lseg_insert_other. }
  rewrite (CM_bind_Done _ _ _ _ _ (wr_next_Done _ _ _ _ Hn)).
  rewrite (CM_bind_Done _ _ _ _ _ (AnscSListGetLastEntry_spec _ _ _ Hr1)).
  destruct (last (x :: xs)) as [y|] eqn:Hy; [|by apply last_None in Hy].
  cbn in Hp, Hne. run_step. erewrite incr_depth_Done by lookup_solve.
  eexists. split; [reflexivity|exact Hst].
Qed.

Lemma AnscSListPushEntryFixNumber_spec m h xs e Max :
  is_slist m h xs -> e ∉ h :: xs -> is_Some (m_next m !! e) ->
  let over := Max <? USHORT (Zlen xs + 1) in
  exists m', AnscSListPushEntryFixNumber h e Max m =
               Done (if over then last (e :: xs) else None, m') /\
    slist_step m h (h :: e :: xs) (if over then removelast (e :: xs) else e :: xs) m'.
Proof.
  intros Hr He Hs over. destruct (AnscSListPushEntry_spec _ _ _ _ Hr He Hs) as (m1 & E1 & S1).
  pose proof (ls_rep _ _ _ _ _ _ S1) as R1. pose proof R1 as (_ & Hd).
  replace (Z.of_nat (length (e :: xs))) with (Zlen xs + 1) in Hd by (cbn [length]; lia).
  unfold AnscSListPushEntryFixNumber. rewrite (CM_bind_Done _ _ _ _ _ E1). run_step.
  fold over. destruct over; [|by exists m1].
  rewrite (CM_bind_Done _ _ _ _ _ (AnscSListGetLastEntry_spec _ _ _ R1)).
  destruct (last (e :: xs)) as [y|] eqn:Hy; [|by apply last_None in Hy].
  destruct (AnscSListPopEntryByLink_spec _ _ _ y R1) as (m2 & E2 & S2).
  exists m2. rewrite (CM_bind_Done _ _ _ _ _ E2). split; [done|].
  apply last_Some in Hy as [l' Hl']. rewrite Hl' in *. rewrite removelast_last.
  rewrite lremove_split, app_nil_r in S2 by (by apply rep_NoDup, NoDup_cons in R1 as [_ ?]).
  eapply list_step_trans; [exact S1|exact S2|done|]. rewrite <-Hl'. done.
Qed.

Lemma next_walk_chain m xs1 xs2 c :
  chain (m_next m) c (xs1 ++ xs2) None ->
  next_walk (length xs1) (Some c) m = Done (Some (default c (last xs1)), m).
Proof.
  revert c. induction xs1 as [|x xs1 IH]; intros c Hc; [done|].
  cbn [length next_walk]. unfold rd_next_p.
  rewrite (CM_bind_Done _ _ _ _ _ (rd_next_Done _ _ _ (chain_first _ _ _ Hc))). cbn [app head].
  rewrite IH; [by rewrite last_default_cons|].
  destruct Hc as (Hnd & p & Hp & -> & n & Hn & Hs). apply NoDup_cons in Hnd as [_ Hnd].
  split; [done|eauto].
Qed.

Lemma AnscSListPushEntryByIndex_spec m h xs e i :
  is_slist m h xs -> e ∉ h :: xs -> is_Some (m_next m !! e) -> 0 <= i -> Zlen xs < 65536 ->
  exists m', AnscSListPushEntryByIndex h e i m =
      Done (if Zlen xs <=? i then None else Some (default h (last (take (Z.to_nat i) xs))), m') /\
    slist_step m h (h :: e :: xs) (take (Z.to_nat i) xs ++ e :: drop (Z.to_nat i) xs) m'.
Proof.
  intros Hr He Hs Hi Hlen. pose proof Hr as (Hc & Hd). unfold AnscSListPushEntryByIndex.
  rewrite (CM_bind_Done _ _ _ _ _ (rd_depth_Done _ _ _ Hd)), USHORT_small by lia.
  destruct (Z.leb_spec (Zlen xs) i) as [Hge|Hlt].
  - destruct (AnscSListPushEntryAtBack_spec _ _ _ _ Hr He Hs) as (m' & E & S').
    exists m'. rewrite (CM_bind_Done _ _ _ _ _ E). split; [done|].
    by rewrite take_ge, drop_ge by lia.
  - set (xs1 := take (Z.to_nat i) xs). set (xs2 := drop (Z.to_nat i) xs).
    assert (Exs : xs = xs1 ++ xs2) by (symmetry; apply take_drop). rewrite Exs in *.
    destruct (link_step m h xs1 xs2 e Hr He Hs) as (Hp & Hin & Hne & Hst).
    destruct Hs as [n Hn].
    assert (Hlen1 : Z.to_nat i = length xs1).
    { unfold xs1. rewrite length_take, Exs. lia. }
    rewrite Hlen1, (CM_bind_Done _ _ _ _ _ (next_walk_chain _ _ _ _ Hc)). unfold rd_next_p.
    rewrite (CM_bind_Done _ _ _ _ _ (rd_next_Done _ _ _ Hp)).
    rewrite (CM_bind_Done _ _ _ _ _ (wr_next_Done _ _ _ _ Hn)).
    run_step. unfold mbind at 1, CM_bind at 1. erewrite incr_depth_Done by lookup_solve.
    eexists. split; [reflexivity|exact Hst].
Qed.

End slist_ops.

(** ** The list as an abstract data type *)

Inductive sop : Type :=
  | SPush (e : loc) | SPushAtBack (e : loc) | SPop | SPopByLink (e : loc)
  | SReplace (new old : loc) | SGetLast | SPushFix (e : loc) (max : Z)
  | SSearch (i : Z) | SPushByIndex (e : loc) (i : Z).

Definition sop_run (h : loc) (op : sop) : LM opval :=
  match op with
  | SPush e => _ ← AnscSListPushEntry h e; mret VVoid
  | SPushAtBack e => _ ← AnscSListPushEntryAtBack h e; mret VVoid
  | SPop => p ← AnscSListPopEntry h; mret (VEntry p)
  | SPopByLink e => b ← AnscSListPopEntryByLink h (Some e); mret (VBoolean b)
  | SReplace new old => _ ← AnscSListReplaceEntry h new (Some old); mret VVoid
  | SGetLast => p ← AnscSListGetLastEntry h; mret (VEntry p)
  | SPushFix e max => p ← AnscSListPushEntryFixNumber h e max; mret (VEntry p)
  | SSearch i => p ← AnscSListSearchEntryByIndex h i; mret (VEntry p)
  | SPushByIndex e i => p ← AnscSListPushEntryByIndex h e i; mret (VEntry p)
  end.

(** [AnscSListPushEntryByIndex] returns the cell in front of the new entry,
    the header's own cell for index 0, and NULL when it appends. *)
Definition sop_spec (h : loc) (op : sop) (xs : list loc) : opval * list loc :=
  match op with
  | SPush e => (VVoid, e :: xs)
  | SPushAtBack e => (VVoid, xs ++ [e])
  | SPop => (VEntry (head xs), tail xs)
  | SPopByLink e => (VBoolean (bool_decide (e ∈ xs)), lremove e xs)
  | SReplace new old => (VVoid, lreplace new old xs)
  | SGetLast => (VEntry (last xs), xs)
  | SPushFix e max =>
      if max <? USHORT (Zlen xs + 1)
      then (VEntry (last (e :: xs)), removelast (e :: xs)) else (VEntry None, e :: xs)
  | SSearch i => (VEntry (xs !! Z.to_nat i), xs)
  | SPushByIndex e i =>
      (VEntry (if Zlen xs <=? i then None else Some (default h (last (take (Z.to_nat i) xs)))),
       take (Z.to_nat i) xs ++ e :: drop (Z.to_nat i) xs)
  end.

Definition sop_entry (op : sop) : list loc :=
  match op with
  | SPush e | SPushAtBack e | SPushFix e _ | SPushByIndex e _ | SReplace e _ => [e]
  | _ => []
  end.

(** An index insertion compares the index with the 16-bit depth. *)
Definition sop_pre (op : sop) (xs : list loc) : Prop :=
  match op with
  | SPush e | SPushAtBack e | SPushFix e _ | SReplace e _ => e ∉ xs
  | SPushByIndex e i => e ∉ xs /\ 0 <= i /\ Zlen xs < 65536
  | _ => True
  end.

Lemma sop_refines m h op xs :
  is_slist m h xs -> sop_pre op xs -> entry_cells single_cell m h (sop_entry op) ->
  exists m', sop_run h op m = Done ((sop_spec h op xs).1, m') /\
    slist_step m h (h :: sop_entry op ++ xs) (sop_spec h op xs).2 m'.
Proof.
  intros Hr Hpre Hcells.
  destruct op; cbn [sop_run sop_spec sop_entry app fst snd sop_pre] in *;
    try (destruct (entry_cells_fresh single_cell m h _ _ xs Hcells ltac:(by left) ltac:(tauto)) as [? ?]).
  - close_op (AnscSListPushEntry_spec m h xs e).
  - close_op (AnscSListPushEntryAtBack_spec m h xs e).
  - close_op (AnscSListPopEntry_spec m h xs).
  - close_op (AnscSListPopEntryByLink_spec m h xs e).
  - close_op (AnscSListReplaceEntry_spec m h xs new old).
  - exists m. rewrite (CM_bind_Done _ _ _ _ _ (AnscSListGetLastEntry_spec _ _ _ Hr)).
    split; [done|by apply list_step_refl].
  - destruct (AnscSListPushEntryFixNumber_spec m h xs e max) as (m' & E & Hs); [done..|].
    exists m'. rewrite (CM_bind_Done _ _ _ _ _ E). by destruct (max <? _).
  - exists m. unfold AnscSListSearchEntryByIndex.
    rewrite (CM_bind_Done _ _ _ _ _ (rep_nth _ _ _ _ Hr)).
    split; [done|by apply list_step_refl].
  - destruct Hpre as (_ & ? & ?). close_op (AnscSListPushEntryByIndex_spec m h xs e i).
Qed.

Lemma elem_of_lreplace l new old xs : l ∈ lreplace new old xs -> l = new \/ l ∈ xs.
Proof.
  unfold lreplace. intros (x & -> & Hx)%list_elem_of_fmap. case_decide; auto.
Qed.

Lemma sop_spec_elem h op xs l : l ∈ (sop_spec h op xs).2 -> l ∈ sop_entry op ++ xs.
Proof.
  pose proof (not_elem_of_nil l) as Hnil.
  destruct op; cbn [sop_spec sop_entry snd app];
    rewrite ?elem_of_app, ?elem_of_cons, ?elem_of_lremove; try tauto.
  - apply elem_of_tail.
  - apply elem_of_lreplace.
  - case_match; cbn [snd]; [intros Ht%elem_of_removelast; revert Ht|]; by rewrite elem_of_cons.
  - rewrite <-(take_drop (Z.to_nat i) xs) at 3. rewrite elem_of_app. tauto.
Qed.

(** C24. Refinement: any sequence of the singly linked list operations on a
    well-formed header, linking allocated cells that are not in the list, and
    inserting by index while it has fewer than 65536 entries, completes, returns
    what the operations return on the list (the cell before the new entry for an
    insertion by index, the evicted last entry for a bounded push), leaves a
    well-formed list with the right 16-bit depth, and writes only to the header,
    the linked entries and the list's cells. *)
Theorem slist_trace_refines m h ops xs :
  is_slist m h xs -> trace_pre (sop_spec h) sop_pre ops xs ->
  entry_cells single_cell m h (trace_entries sop_entry ops) ->
  exists m', trace_run (sop_run h) ops m = Done ((trace_spec (sop_spec h) ops xs).1, m') /\
    is_slist m' h (trace_spec (sop_spec h) ops xs).2 /\
    frame (h :: trace_entries sop_entry ops ++ xs) m m'.
Proof.
  eapply trace_refines; [apply single_cell_keeps| |apply sop_spec_elem]. intros. by apply sop_refines.
Qed.

Definition slist_demo : mem :=
  Mem (list_to_map [(1, None); (2, None); (3, None); (4, None); (5, None)])%positive ∅ ∅
      {[1%positive := 0]}.

Definition slist_demo_ops : list sop :=
  [SPush 2; SPushAtBack 3; SPushByIndex 4 1; SReplace 5 2; SGetLast; SPushFix 2 3; SPopByLink 3;
   SSearch 1]%positive.

Lemma slist_trace_refines_witness :
  exists m', trace_run (sop_run 1%positive) slist_demo_ops slist_demo =
    Done ([VVoid; VVoid; VEntry (Some 2); VVoid; VEntry (Some 3); VEntry (Some 3);
           VBoolean false; VEntry (Some 5)]%positive, m') /\
    is_slist m' 1%positive [2; 5; 4]%positive /\
    frame (1 :: trace_entries sop_entry slist_demo_ops ++ [])%positive slist_demo m'.
Proof.
  apply (slist_trace_refines slist_demo 1%positive slist_demo_ops []).
  - split_and!; [|reflexivity]. split; [apply NoDup_singleton|]. exists None. split; reflexivity.
  - cbn. split_and!; try done; set_solver.
  - intros e He. cbn in He. repeat (apply elem_of_cons in He as [->|He]);
      [split; [done|by eexists]..|]. by apply not_elem_of_nil in He.
Defined.
