(* ===== verification/DList.v ===== *)
(** * The doubly linked list ([ansc_dlist.c], [AnscDList*] of [ansc_common_structures.h])

    [DLIST_HEADER.Heads] is a [DOUBLE_LINK_ENTRY]: its [Next] is the leftmost
    entry, its [Last] the rightmost one.  The list is well formed when the
    [Next] fields chain the entries from left to right and the [Last] fields
    chain the same entries from right to left. *)

From S2P Require Import Prelude Links.
Open Scope Z_scope.

(** ** The operations *)

Definition AnscDListInitializeHeader (ListHead : loc) : LM unit :=
  _ ← wr_next ListHead None;
  _ ← wr_prev ListHead None;
  wr_depth ListHead 0.

(** [while ( pEntry && (count < ulIndex) ) { pEntry = pEntry->Next; count++; }] *)
Fixpoint entry_walk (i : nat) (pEntry : ptr) : LM ptr :=
  match i, pEntry with
  | S k, Some l => n ← rd_next l; entry_walk k n
  | _, _ => mret pEntry
  end.

Definition AnscDListGetEntryByIndex (h : loc) (ulIndex : Z) : LM ptr :=
  pEntry ← rd_next h;
  entry_walk (Z.to_nat ulIndex) pEntry.

Definition AnscDListPushEntryLeft (h pEntry : loc) : LM unit :=
  pHeadEntry ← rd_next h;
  pTailEntry ← rd_prev h;
  _ ← match pHeadEntry with Some x => wr_prev x (Some pEntry) | None => mret tt end;
  _ ← wr_next pEntry pHeadEntry;
  _ ← wr_prev pEntry None;
  _ ← wr_next h (Some pEntry);
  _ ← match pTailEntry with None => wr_prev h (Some pEntry) | Some _ => mret tt end;
  incr_depth h.

Definition AnscDListPushEntryRight (h pEntry : loc) : LM unit :=
  pHeadEntry ← rd_next h;
  pTailEntry ← rd_prev h;
  _ ← match pTailEntry with Some x => wr_next x (Some pEntry) | None => mret tt end;
  _ ← wr_next pEntry None;
  _ ← wr_prev pEntry pTailEntry;
  _ ← wr_prev h (Some pEntry);
  _ ← match pHeadEntry with None => wr_next h (Some pEntry) | Some _ => mret tt end;
  incr_depth h.

(** For index 0 the code takes [pHeadEntry->Next] as the entry to the right,
    not [pHeadEntry]. *)
Definition AnscDListPushEntryAtIndex (h pEntry : loc) (ulIndex : Z) : LM unit :=
  pHeadEntry ← rd_next h;
  pTailEntry ← rd_prev h;
  d ← rd_depth h;
  if d <? ulIndex then mret tt
  else
    '(pLastEntry, pNextEntry) ←
      (if ulIndex =? 0 then
         n ← rd_next_p pHeadEntry; mret (None, n)
       else if ulIndex =? d then mret (pTailEntry, None)
       else
         l ← AnscDListGetEntryByIndex h (ulIndex - 1);
         n ← rd_next_p l; mret (l, n));
    _ ← wr_prev pEntry pLastEntry;
    _ ← wr_next pEntry pNextEntry;
    _ ← match pLastEntry with
        | Some x => wr_next x (Some pEntry) | None => wr_next h (Some pEntry) end;
    _ ← match pNextEntry with
        | Some x => wr_prev x (Some pEntry) | None => wr_prev h (Some pEntry) end;
    incr_depth h.

Definition AnscDListPopEntryLeft (h : loc) : LM ptr :=
  pHeadEntry ← rd_next h;
  match pHeadEntry with
  | None => mret None
  | Some x =>
      pNextEntry ← rd_next x;
      _ ← wr_next h pNextEntry;
      _ ← decr_depth h;
      _ ← match pNextEntry with Some y => wr_prev y None | None => wr_prev h None end;
      mret pHeadEntry
  end.

Definition AnscDListPopEntryRight (h : loc) : LM ptr :=
  pTailEntry ← rd_prev h;
  match pTailEntry with
  | None => mret None
  | Some x =>
      pLastEntry ← rd_prev x;
      _ ← wr_prev h pLastEntry;
      _ ← decr_depth h;
      _ ← match pLastEntry with Some y => wr_next y None | None => wr_next h None end;
      mret pTailEntry
  end.

Definition AnscDListPushEntryLeftFixNumber (h pEntry : loc) (Max : Z) : LM ptr :=
  _ ← AnscDListPushEntryLeft h pEntry;
  d ← rd_depth h;
  if Max <? d then AnscDListPopEntryRight h else mret None.

Definition AnscDListPopEntryByLink (h pEntry : loc) : LM bool :=
  pHeadEntry ← rd_next h;
  pTailEntry ← rd_prev h;
  pPrevEntry ← rd_prev pEntry;
  pNextEntry ← rd_next pEntry;
  _ ← (if decide (Some pEntry = pHeadEntry) then wr_next h pNextEntry else mret tt);
  _ ← (if decide (Some pEntry = pTailEntry) then wr_prev h pPrevEntry else mret tt);
  _ ← match pPrevEntry with Some p => wr_next p pNextEntry | None => mret tt end;
  _ ← match pNextEntry with Some n => wr_prev n pPrevEntry | None => mret tt end;
  _ ← decr_depth h;
  mret true.

Definition AnscDListPopEntryByIndex (h : loc) (ulIndex : Z) : LM ptr :=
  pEntry ← AnscDListGetEntryByIndex h ulIndex;
  match pEntry with
  | None => mret None
  | Some e => _ ← AnscDListPopEntryByLink h e; mret pEntry
  end.

(** ** The represented list *)

Definition is_dlist (m : mem) (h : loc) (xs : list loc) : Prop :=
  chain (m_next m) h xs None /\ chain (m_prev m) h (reverse xs) None /\
  m_depth m !! h = Some (USHORT (Zlen xs)).

#[export] Instance is_dlist_rep : ListRep is_dlist.
Proof. by intros m h xs (Hc & _). Qed.

Abbreviation dlist_step := (list_step is_dlist).

Section dlist_ops.
Implicit Types (m : mem) (h e : loc) (xs : list loc).

(** The store after [e] is linked in between [xs1] and [xs2]. *)
Definition dlinked m h xs1 xs2 e : mem :=
  Mem (<[default h (last xs1) := Some e]> (<[e := head xs2]> (m_next m)))
      (<[default h (head xs2) := Some e]> (<[e := last xs1]> (m_prev m)))
      (m_last m)
      (<[h := USHORT (USHORT (Zlen (xs1 ++ xs2)) + 1)]> (m_depth m)).

Lemma default_head_elem h xs : default h (head xs) ∈ h :: xs.
Proof. destruct xs; cbn; set_solver. Qed.

Lemma is_dlist_fields m h xs1 xs2 :
  is_dlist m h (xs1 ++ xs2) ->
  m_next m !! default h (last xs1) = Some (head xs2) /\
  m_prev m !! default h (head xs2) = Some (last xs1).
Proof.
  intros (Hc & Hp & _). split.
  - destruct (chain_split _ _ _ _ _ Hc) as [-> _]. by destruct xs2.
  - rewrite reverse_app in Hp. destruct (chain_split _ _ _ _ _ Hp) as [E _].
    rewrite last_reverse in E. rewrite E, <-head_reverse. by destruct (reverse xs1).
Qed.

Lemma dlink_step m h xs1 xs2 e :
  is_dlist m h (xs1 ++ xs2) -> e ∉ h :: xs1 ++ xs2 -> double_cell m e ->
  dlist_step m h (h :: e :: xs1 ++ xs2) (xs1 ++ e :: xs2) (dlinked m h xs1 xs2 e).
Proof.
  intros (Hc & Hp & Hd) He [[n Hn] [n' Hn']].
  pose proof (chain_insert _ _ _ _ _ Hc He) as Hc'.
  rewrite reverse_app in Hp.
  assert (He' : e ∉ h :: reverse xs2 ++ reverse xs1)
    by (by rewrite <-reverse_app, elem_of_cons, elem_of_reverse, <-elem_of_cons).
  pose proof (chain_insert _ _ _ _ _ Hp He') as Hp'.
  rewrite last_reverse, head_reverse in Hp'.
  pose proof (last_default_elem h xs1) as Hd1. pose proof (default_head_elem h xs2) as Hd2.
  apply elem_of_cons in Hd1, Hd2.
  assert (Hf1 : default h (last xs1) ∈ h :: e :: xs1 ++ xs2)
    by (rewrite !elem_of_cons, elem_of_app; tauto).
  assert (Hf2 : default h (head xs2) ∈ h :: e :: xs1 ++ xs2)
    by (rewrite !elem_of_cons, elem_of_app; tauto).
  unfold dlinked. list_step_solve; [done| |depth_solve].
  rewrite reverse_app, reverse_cons, <-app_assoc. exact Hp'.
Qed.

Lemma dlink_distinct h e xs1 xs2 :
  e ∉ h :: xs1 ++ xs2 -> default h (last xs1) ≠ e /\ default h (head xs2) ≠ e /\ h ≠ e.
Proof.
  intros He. pose proof (last_default_elem h xs1) as Hd1.
  pose proof (default_head_elem h xs2) as Hd2.
  rewrite elem_of_cons in Hd1, Hd2. rewrite elem_of_cons, elem_of_app in He.
  split_and!; intros E; apply He; rewrite <-E; tauto.
Qed.

(** The store after [e] is unlinked from between [xs1] and [xs2]. *)
Definition dunlinked m h xs1 xs2 e : mem :=
  Mem (<[default h (last xs1) := head xs2]> (m_next m))
      (<[default h (head xs2) := last xs1]> (m_prev m))
      (m_last m)
      (<[h := USHORT (USHORT (Zlen (xs1 ++ e :: xs2)) - 1)]> (m_depth m)).

Lemma dunlink_step m h xs1 xs2 e :
  is_dlist m h (xs1 ++ e :: xs2) ->
  m_next m !! e = Some (head xs2) /\ m_prev m !! e = Some (last xs1) /\
  dlist_step m h (h :: xs1 ++ e :: xs2) (xs1 ++ xs2) (dunlinked m h xs1 xs2 e).
Proof.
  intros (Hc & Hp & Hd). pose proof (chain_remove _ _ _ _ _ Hc) as [Hx Hc'].
  rewrite reverse_app, reverse_cons, <-app_assoc in Hp. cbn [app] in Hp.
  pose proof (chain_remove _ _ _ _ _ Hp) as [Hy Hp'].
  rewrite last_reverse, head_reverse in Hp'. rewrite head_reverse in Hy.
  pose proof (last_default_elem h xs1) as Hd1. pose proof (default_head_elem h xs2) as Hd2.
  apply elem_of_cons in Hd1, Hd2.
  assert (Hf1 : default h (last xs1) ∈ h :: xs1 ++ e :: xs2)
    by (rewrite elem_of_cons, elem_of_app, elem_of_cons; tauto).
  assert (Hf2 : default h (head xs2) ∈ h :: xs1 ++ e :: xs2)
    by (rewrite elem_of_cons, elem_of_app, elem_of_cons; tauto).
  split_and!; [done|done|]. unfold dunlinked. list_step_solve; [done| |depth_solve].
  rewrite reverse_app. exact Hp'.
Qed.

(** The store that the code builds is the one of the lemma, up to the order
    of writes to different cells. *)
Lemma dlist_step_eq m h S xs m1 m2 : dlist_step m h S xs m1 -> m2 = m1 -> dlist_step m h S xs m2.
Proof. by intros ? ->. Qed.

Ltac same_store Hs :=
  apply (dlist_step_eq _ _ _ _ _ _ Hs); unfold dlinked, dunlinked, set_next, set_prev, set_depth;
  unfold id in *; cbn -[last]; f_equal; first [done | by rewrite insert_insert_ne by congruence].

(** The last step of an unlinking. *)
Ltac finish_pop Hs :=
  unfold mbind at 1; unfold CM_bind at 1; erewrite decr_depth_Done by lookup_solve;
  eexists; (split; [reflexivity|]); same_store Hs.

Lemma AnscDListPushEntryLeft_spec m h xs e :
  is_dlist m h xs -> e ∉ h :: xs -> double_cell m e ->
  exists m', AnscDListPushEntryLeft h e m = Done (tt, m') /\
    dlist_step m h (h :: e :: xs) (e :: xs) m'.
Proof.
  intros Hr He Hcell. pose proof (dlink_step m h [] xs e Hr He Hcell) as Hs.
  destruct (is_dlist_fields m h [] xs Hr) as [Hf1 Hf2]. cbn in Hf1, Hf2.
  destruct (is_dlist_fields m h xs [] ltac:(by rewrite app_nil_r)) as [_ Hf4]. cbn in Hf4.
  destruct (dlink_distinct h e [] xs He) as (_ & Hne2 & Hne).
  destruct Hcell as [[n Hn] [n' Hn']], Hr as (_ & _ & Hd).
  unfold AnscDListPushEntryLeft. run_step. run_step.
  destruct xs as [|x xs]; cbn [head default] in *.
  - unfold mbind at 1, CM_bind at 1. cbn [mret CM_ret]. run_step. run_step. run_step. cbn [last].
    run_step. erewrite incr_depth_Done by lookup_solve. eexists. split; [reflexivity|exact Hs].
  - run_step. run_step. run_step. run_step.
    destruct (last (x :: xs)) as [y|] eqn:Hy; [|by apply last_None in Hy].
    unfold mbind at 1, CM_bind at 1. cbn -[incr_depth]. erewrite incr_depth_Done by lookup_solve.
    eexists. split; [reflexivity|]. same_store Hs.
Qed.

Lemma AnscDListPushEntryRight_spec m h xs e :
  is_dlist m h xs -> e ∉ h :: xs -> double_cell m e ->
  exists m', AnscDListPushEntryRight h e m = Done (tt, m') /\
    dlist_step m h (h :: e :: xs) (xs ++ [e]) m'.
Proof.
  intros Hr He Hcell.
  assert (Hr0 : is_dlist m h (xs ++ [])) by by rewrite app_nil_r.
  assert (He0 : e ∉ h :: xs ++ []) by by rewrite app_nil_r.
  pose proof (dlink_step m h xs [] e Hr0 He0 Hcell) as Hs.
  destruct (is_dlist_fields m h xs [] Hr0) as [Hf1 Hf4]. cbn [head default] in Hf1, Hf4.
  destruct (is_dlist_fields m h [] xs Hr) as [Hf2 _]. cbn [last default] in Hf2.
  destruct (dlink_distinct h e xs [] He0) as (Hne1 & _ & Hne).
  rewrite app_nil_r in Hs.
  destruct Hcell as [[n Hn] [n' Hn']], Hr as (_ & _ & Hd).
  unfold AnscDListPushEntryRight. run_step. run_step.
  destruct (last xs) as [y|] eqn:Hy; cbn [default] in *.
  - run_step. run_step. run_step. run_step.
    destruct xs as [|x xs]; [done|]. cbn [head].
    unfold mbind at 1, CM_bind at 1. cbn -[incr_depth last]. erewrite incr_depth_Done by lookup_solve.
    eexists. split; [reflexivity|]. unfold dlinked in Hs. rewrite Hy in Hs. cbn [default head] in Hs.
    rewrite app_nil_r in Hs. same_store Hs.
  - apply last_None in Hy as ->. cbn [head].
    unfold mbind at 1, CM_bind at 1. cbn [mret CM_ret]. run_step. run_step. run_step.
    run_step. erewrite incr_depth_Done by lookup_solve. eexists. split; [reflexivity|exact Hs].
Qed.

Lemma AnscDListPopEntryLeft_spec m h xs :
  is_dlist m h xs ->
  exists m', AnscDListPopEntryLeft h m = Done (head xs, m') /\ dlist_step m h (h :: xs) (tail xs) m'.
Proof.
  intros Hr. unfold AnscDListPopEntryLeft.
  destruct (is_dlist_fields m h [] xs Hr) as [Hf1 _]. cbn [last default] in Hf1. run_step.
  destruct xs as [|x xs]; cbn [head tail]; [exists m; split; [done|by apply list_step_refl]|].
  destruct (dunlink_step m h [] xs x Hr) as (Hn & Hp & Hs).
  destruct (is_dlist_fields m h [x] xs Hr) as [_ Hf2]. destruct Hr as (_ & _ & Hd).
  run_step. run_step. unfold mbind at 1, CM_bind at 1. erewrite decr_depth_Done by lookup_solve.
  destruct xs as [|y xs]; cbn [head default] in *; run_step; eexists; split; [reflexivity|exact Hs
    |reflexivity|exact Hs].
Qed.

Lemma AnscDListPopEntryRight_spec m h xs :
  is_dlist m h xs ->
  exists m', AnscDListPopEntryRight h m = Done (last xs, m') /\
    dlist_step m h (h :: xs) (removelast xs) m'.
Proof.
  intros Hr. unfold AnscDListPopEntryRight.
  destruct (is_dlist_fields m h xs [] ltac:(by rewrite app_nil_r)) as [_ Hf1].
  cbn [head default] in Hf1. run_step.
  destruct (last xs) as [x|] eqn:Hx.
  - apply last_Some in Hx as [xs' ->]. rewrite removelast_last.
    destruct (dunlink_step m h xs' [] x Hr) as (Hn & Hp & Hs).
    destruct (is_dlist_fields m h xs' [x] Hr) as [Hf2 _]. destruct Hr as (_ & _ & Hd).
    run_step. run_step. unfold mbind at 1, CM_bind at 1. erewrite decr_depth_Done by lookup_solve.
    rewrite app_nil_r in Hs. unfold dunlinked in Hs. cbn [head default] in Hs.
    destruct (last xs') as [y|] eqn:Hy; cbn [default] in *; run_step; eexists;
      (split; [reflexivity|exact Hs]).
  - apply last_None in Hx as ->. exists m. split; [done|by apply list_step_refl].
Qed.

Lemma AnscDListPushEntryLeftFixNumber_spec m h xs e Max :
  is_dlist m h xs -> e ∉ h :: xs -> double_cell m e ->
  let over := Max <? USHORT (Zlen xs + 1) in
  exists m', AnscDListPushEntryLeftFixNumber h e Max m =
               Done (if over then last (e :: xs) else None, m') /\
    dlist_step m h (h :: e :: xs) (if over then removelast (e :: xs) else e :: xs) m'.
Proof.
  intros Hr He Hc over. destruct (AnscDListPushEntryLeft_spec _ _ _ _ Hr He Hc) as (m1 & E1 & S1).
  pose proof (ls_rep _ _ _ _ _ _ S1) as R1. pose proof R1 as (_ & _ & Hd).
  replace (Z.of_nat (length (e :: xs))) with (Zlen xs + 1) in Hd by (cbn [length]; lia).
  unfold AnscDListPushEntryLeftFixNumber. rewrite (CM_bind_Done _ _ _ _ _ E1). run_step.
  fold over. destruct over; [|by exists m1].
  destruct (AnscDListPopEntryRight_spec _ _ _ R1) as (m2 & E2 & S2).
  exists m2. split; [done|]. by eapply list_step_trans; [exact S1|exact S2|..].
Qed.

Lemma entry_walk_lseg m i p xs :
  lseg (m_next m) p xs None -> entry_walk i p m = Done (xs !! i, m).
Proof.
  revert p xs. induction i as [|i IH]; intros p xs Hs.
  - rewrite (lseg_head _ _ _ Hs). by destruct xs.
  - destruct xs as [|x xs]; cbn in Hs; [by subst|]. destruct Hs as (-> & n & Hn & Hs).
    cbn [entry_walk]. rewrite (CM_bind_Done _ _ _ _ _ (rd_next_Done _ _ _ Hn)). by apply IH.
Qed.

Lemma AnscDListGetEntryByIndex_spec m h xs i :
  is_dlist m h xs -> AnscDListGetEntryByIndex h i m = Done (xs !! Z.to_nat i, m).
Proof.
  intros (( _ & p & Hp & Hs) & _). unfold AnscDListGetEntryByIndex.
  rewrite (CM_bind_Done _ _ _ _ _ (rd_next_Done _ _ _ Hp)). by apply entry_walk_lseg.
Qed.

Lemma AnscDListPopEntryByLink_spec m h xs1 xs2 e :
  is_dlist m h (xs1 ++ e :: xs2) ->
  exists m', AnscDListPopEntryByLink h e m = Done (true, m') /\
    dlist_step m h (h :: xs1 ++ e :: xs2) (xs1 ++ xs2) m'.
Proof.
  intros Hr. destruct (dunlink_step m h xs1 xs2 e Hr) as (Hn & Hp & Hs).
  pose proof (rep_NoDup _ _ _ Hr) as [Hh [[He1 He2]%not_elem_of_app _]%NoDup_middle]%NoDup_cons.
  destruct (is_dlist_fields m h xs1 (e :: xs2) Hr) as [Hf1 _]. cbn [head] in Hf1.
  pose proof Hr as Hr'. rewrite cons_middle, app_assoc in Hr'.
  destruct (is_dlist_fields m h (xs1 ++ [e]) xs2 Hr') as [_ Hf2]. rewrite last_snoc in Hf2.
  destruct (is_dlist_fields m h [] _ Hr) as [Hf3 _]. cbn [last default] in Hf3.
  destruct (is_dlist_fields m h (xs1 ++ e :: xs2) [] ltac:(by rewrite app_nil_r)) as [_ Hf4].
  cbn [head default] in Hf4. rewrite last_app_cons, last_cons in Hf4.
  destruct Hr as (_ & _ & Hd). elem_split.
  unfold AnscDListPopEntryByLink. run_step. run_step. run_step. run_step. unfold dunlinked in Hs.
  assert (Hhead : head (xs1 ++ e :: xs2) = Some (default e (head xs1))) by by destruct xs1.
  rewrite Hhead. clear Hhead Hf3 Hr'.
  destruct (last xs1) as [y|] eqn:Hy.
  - assert (Hx : default e (head xs1) ≠ e) by (destruct xs1; [done|set_solver]).
    assert (y ∈ xs1) by (by apply last_Some_elem_of). cbn [default] in Hf1, Hs.
    rewrite bind_if_false, bind_ret by congruence.
    destruct xs2 as [|z xs2]; cbn [last head default] in *.
    + rewrite bind_if_true by congruence. run_step. run_step. rewrite bind_ret. finish_pop Hs.
    + destruct (last (z :: xs2)) as [w|] eqn:Hw; [|by apply last_None in Hw].
      apply last_Some_elem_of in Hw.
      rewrite bind_if_false, bind_ret by congruence. run_step. run_step. finish_pop Hs.
  - apply last_None in Hy as ->. cbn [head default] in *.
    rewrite bind_if_true by congruence. run_step.
    destruct xs2 as [|z xs2]; cbn [last head default] in *.
    + rewrite bind_if_true by congruence. run_step. rewrite bind_ret. rewrite bind_ret. finish_pop Hs.
    + destruct (last (z :: xs2)) as [w|] eqn:Hw; [|by apply last_None in Hw].
      apply last_Some_elem_of in Hw.
      rewrite bind_if_false, bind_ret by congruence. rewrite bind_ret. run_step. finish_pop Hs.
Qed.

Lemma AnscDListPopEntryByIndex_spec m h xs i :
  is_dlist m h xs ->
  exists m', AnscDListPopEntryByIndex h i m = Done (xs !! Z.to_nat i, m') /\
    dlist_step m h (h :: xs) (delete (Z.to_nat i) xs) m'.
Proof.
  intros Hr. unfold AnscDListPopEntryByIndex.
  rewrite (CM_bind_Done _ _ _ _ _ (AnscDListGetEntryByIndex_spec _ _ _ _ Hr)).
  destruct (xs !! Z.to_nat i) as [e|] eqn:He.
  - apply list_elem_of_split_length in He as (xs1 & xs2 & -> & Hi).
    destruct (AnscDListPopEntryByLink_spec _ _ _ _ _ Hr) as (m' & E & Hs).
    exists m'. rewrite (CM_bind_Done _ _ _ _ _ E). split; [done|]. by rewrite Hi, delete_middle.
  - exists m. rewrite delete_past by done. split; [done|by apply list_step_refl].
Qed.

(** Index insertion away from the left end.  Past the end nothing is
    inserted. *)
Lemma AnscDListPushEntryAtIndex_spec m h xs e i :
  is_dlist m h xs -> e ∉ h :: xs -> double_cell m e -> 0 < i -> Zlen xs < 65536 ->
  exists m', AnscDListPushEntryAtIndex h e i m = Done (tt, m') /\
    dlist_step m h (h :: e :: xs)
      (if Zlen xs <? i then xs else take (Z.to_nat i) xs ++ e :: drop (Z.to_nat i) xs) m'.
Proof.
  intros Hr He Hcell Hi Hlen. unfold AnscDListPushEntryAtIndex.
  destruct (is_dlist_fields m h [] xs Hr) as [Hf3 _]. cbn [last default] in Hf3.
  destruct (is_dlist_fields m h xs [] ltac:(by rewrite app_nil_r)) as [_ Hf4].
  cbn [head default] in Hf4. pose proof Hr as (_ & _ & Hd).
  run_step. run_step. run_step. rewrite USHORT_small by lia.
  destruct (Z.ltb_spec (Zlen xs) i) as [Hgt|Hle].
  { exists m. split; [done|by apply list_step_refl]. }
  set (xs1 := take (Z.to_nat i) xs). set (xs2 := drop (Z.to_nat i) xs).
  assert (Exs : xs = xs1 ++ xs2) by (symmetry; apply take_drop).
  assert (Hl1 : length xs1 = Z.to_nat i) by (unfold xs1; rewrite length_take; lia).
  assert (Hne1 : xs1 ≠ []) by (intros E; rewrite E in Hl1; cbn in Hl1; lia).
  assert (Hlen2 : Zlen xs = i + Zlen xs2) by (rewrite Exs, length_app; lia).
  (* the two pointers the branches compute *)
  assert (Hbr : (if i =? 0 then n ← rd_next_p (head xs); mret (None, n)
                 else if i =? Zlen xs then mret (last xs, None)
                 else l ← AnscDListGetEntryByIndex h (i - 1); n ← rd_next_p l; mret (l, n)) m
                = Done ((last xs1, head xs2), m)).
  { rewrite (proj2 (Z.eqb_neq i 0)) by lia. destruct (Z.eqb_spec i (Zlen xs)) as [E|E].
    - destruct xs2 as [|z xs2']; [|cbn [length] in Hlen2; lia]. rewrite Exs, app_nil_r. done.
    - rewrite (CM_bind_Done _ _ _ _ _ (AnscDListGetEntryByIndex_spec _ _ _ _ Hr)).
      rewrite Exs in Hr. destruct (is_dlist_fields m h xs1 xs2 Hr) as [Hn _].
      destruct (last xs1) as [y|] eqn:Hy; [|by apply last_None in Hy].
      assert (Hx : xs !! Z.to_nat (i - 1) = Some y).
      { rewrite Exs, lookup_app_l by lia. rewrite last_lookup in Hy. rewrite <-Hy. f_equal. lia. }
      rewrite Hx. cbn [rd_next_p]. cbn [default] in Hn. unfold id in Hn.
      by rewrite (CM_bind_Done _ _ _ _ _ (rd_next_Done _ _ _ Hn)). }
  rewrite (CM_bind_Done _ _ _ _ _ Hbr). cbv beta iota zeta. clear Hbr.
  rewrite Exs in Hr, He |- *. pose proof (dlink_step m h xs1 xs2 e Hr He Hcell) as Hs.
  destruct (is_dlist_fields m h xs1 xs2 Hr) as [Hf1 Hf2].
  destruct (dlink_distinct h e xs1 xs2 He) as (? & ? & ?).
  destruct Hcell as [[n Hn] [n' Hn']]. rewrite Exs in Hd. unfold dlinked in Hs.
  run_step. run_step.
  destruct (last xs1) as [y|] eqn:Hy; [|by apply last_None in Hy]. cbn [default] in *. run_step.
  destruct xs2 as [|z xs2']; cbn [head default] in *; run_step;
    erewrite incr_depth_Done by lookup_solve; eexists;
    (split; [reflexivity|]); same_store Hs.
Qed.

(** Index 0 on a non-empty list: the new entry becomes the leftmost one, but
    its right neighbour is the second entry; the old first entry is no longer
    reachable from the left although the depth counts it. *)
Lemma push_at_index_0 m h x xs e :
  is_dlist m h (x :: xs) -> e ∉ h :: x :: xs -> double_cell m e ->
  exists m', AnscDListPushEntryAtIndex h e 0 m = Done (tt, m') /\
    chain (m_next m') h (e :: xs) None /\ m_depth m' !! h = Some (USHORT (Zlen xs + 2)).
Proof.
  intros Hr He Hcell. unfold AnscDListPushEntryAtIndex.
  destruct (is_dlist_fields m h [] (x :: xs) Hr) as [Hf1 _]. cbn [last default head] in Hf1.
  destruct (is_dlist_fields m h (x :: xs) [] ltac:(by rewrite app_nil_r)) as [_ Hf4].
  cbn [head default] in Hf4. pose proof Hr as (Hc & _ & Hd).
  destruct (is_dlist_fields m h [x] xs Hr) as [Hf5 Hf6]. cbn [last default] in Hf5.
  pose proof (chain_remove _ _ [] xs x Hc) as [_ Hc1]. cbn in Hc1.
  assert (He1 : e ∉ h :: xs) by (rewrite !elem_of_cons in *; tauto).
  pose proof (chain_insert _ _ [] xs e Hc1 He1) as Hc2. cbn in Hc2.
  destruct Hcell as [[n Hn] [n' Hn']].
  assert (default h (head xs) ≠ e)
    by (pose proof (default_head_elem h xs); intros E; rewrite E in *; done).
  pose proof (USHORT_bound (Zlen (x :: xs))).
  run_step. run_step. run_step. rewrite (proj2 (Z.ltb_ge _ _)) by lia. rewrite Z.eqb_refl.
  unfold id in Hf5. cbn [rd_next_p].
  assert (Hb : (n ← rd_next x; mret (@None loc, n)) m = Done ((None, head xs), m))
    by (by rewrite (CM_bind_Done _ _ _ _ _ (rd_next_Done _ _ _ Hf5))).
  rewrite (CM_bind_Done _ _ _ _ _ Hb). cbv beta iota zeta. assert (e ≠ h) by (apply not_elem_of_cons in He1; tauto).
  run_step. run_step. run_step.
  destruct xs as [|y xs]; cbn [head default] in *; run_step;
    erewrite incr_depth_Done by lookup_solve; eexists; (split; [reflexivity|]); (split; cbn;
      [| rewrite lookup_insert_eq, USHORT_succ; cbn [length]; do 2 f_equal; lia]);
    rewrite (insert_insert_ne _ e) in Hc2 by congruence; rewrite insert_insert_eq in Hc2;
    exact Hc2.
Qed.

Lemma push_at_index_0_empty m h e :
  is_dlist m h [] -> AnscDListPushEntryAtIndex h e 0 m = Stuck NullDeref.
Proof.
  intros Hr. unfold AnscDListPushEntryAtIndex.
  destruct (is_dlist_fields m h [] [] Hr) as [Hf1 Hf4]. cbn [last default head] in Hf1, Hf4.
  destruct Hr as (_ & _ & Hd). run_step. run_step. run_step. done.
Qed.

End dlist_ops.

(** ** The list as an abstract data type *)

Inductive dop : Type :=
  | DPushLeft (e : loc) | DPushRight (e : loc) | DPushAtIndex (e : loc) (i : Z)
  | DPopLeft | DPopRight | DPopByLink (e : loc) | DPopByIndex (i : Z)
  | DGetByIndex (i : Z) | DPushLeftFix (e : loc) (max : Z).

Definition dop_run (h : loc) (op : dop) : LM opval :=
  match op with
  | DPushLeft e => _ ← AnscDListPushEntryLeft h e; mret VVoid
  | DPushRight e => _ ← AnscDListPushEntryRight h e; mret VVoid
  | DPushAtIndex e i => _ ← AnscDListPushEntryAtIndex h e i; mret VVoid
  | DPopLeft => p ← AnscDListPopEntryLeft h; mret (VEntry p)
  | DPopRight => p ← AnscDListPopEntryRight h; mret (VEntry p)
  | DPopByLink e => b ← AnscDListPopEntryByLink h e; mret (VBoolean b)
  | DPopByIndex i => p ← AnscDListPopEntryByIndex h i; mret (VEntry p)
  | DGetByIndex i => p ← AnscDListGetEntryByIndex h i; mret (VEntry p)
  | DPushLeftFix e max => p ← AnscDListPushEntryLeftFixNumber h e max; mret (VEntry p)
  end.

Definition dop_spec (op : dop) (xs : list loc) : opval * list loc :=
  match op with
  | DPushLeft e => (VVoid, e :: xs)
  | DPushRight e => (VVoid, xs ++ [e])
  | DPushAtIndex e i =>
      (VVoid, if Zlen xs <? i then xs else take (Z.to_nat i) xs ++ e :: drop (Z.to_nat i) xs)
  | DPopLeft => (VEntry (head xs), tail xs)
  | DPopRight => (VEntry (last xs), removelast xs)
  | DPopByLink e => (VBoolean true, lremove e xs)
  | DPopByIndex i => (VEntry (xs !! Z.to_nat i), delete (Z.to_nat i) xs)
  | DGetByIndex i => (VEntry (xs !! Z.to_nat i), xs)
  | DPushLeftFix e max =>
      if max <? USHORT (Zlen xs + 1)
      then (VEntry (last (e :: xs)), removelast (e :: xs)) else (VEntry None, e :: xs)
  end.

Definition dop_entry (op : dop) : list loc :=
  match op with
  | DPushLeft e | DPushRight e | DPushAtIndex e _ | DPushLeftFix e _ => [e]
  | _ => []
  end.

(** [AnscDListPopEntryByLink] does not look for the entry: the caller has to
    know that it is in this list.  Index insertion is specified away from
    index 0. *)
Definition dop_pre (op : dop) (xs : list loc) : Prop :=
  match op with
  | DPushLeft e | DPushRight e | DPushLeftFix e _ => e ∉ xs
  | DPushAtIndex e i => e ∉ xs /\ 0 < i /\ Zlen xs < 65536
  | DPopByLink e => e ∈ xs
  | _ => True
  end.

Lemma dop_refines m h op xs :
  is_dlist m h xs -> dop_pre op xs -> entry_cells double_cell m h (dop_entry op) ->
  exists m', dop_run h op m = Done ((dop_spec op xs).1, m') /\
    dlist_step m h (h :: dop_entry op ++ xs) (dop_spec op xs).2 m'.
Proof.
  intros Hr Hpre Hcells.
  destruct op; cbn [dop_run dop_spec dop_entry app fst snd dop_pre] in *;
    try (destruct (entry_cells_fresh double_cell m h _ _ xs Hcells ltac:(by left) ltac:(tauto)) as [? ?]).
  - close_op (AnscDListPushEntryLeft_spec m h xs e).
  - close_op (AnscDListPushEntryRight_spec m h xs e).
  - destruct Hpre as (_ & ? & ?). close_op (AnscDListPushEntryAtIndex_spec m h xs e i).
  - close_op (AnscDListPopEntryLeft_spec m h xs).
  - close_op (AnscDListPopEntryRight_spec m h xs).
  - destruct (rep_split _ _ _ _ Hr Hpre) as (xs1 & xs2 & -> & ? & ? & _).
    rewrite lremove_split by (by apply rep_NoDup, NoDup_cons in Hr as [_ ?]).
    close_op (AnscDListPopEntryByLink_spec m h xs1 xs2 e).
  - close_op (AnscDListPopEntryByIndex_spec m h xs i).
  - exists m. rewrite (CM_bind_Done _ _ _ _ _ (AnscDListGetEntryByIndex_spec _ _ _ _ Hr)).
    split; [done|by apply list_step_refl].
  - destruct (AnscDListPushEntryLeftFixNumber_spec m h xs e max) as (m' & E & Hs); [done..|].
    exists m'. rewrite (CM_bind_Done _ _ _ _ _ E). by destruct (max <? _).
Qed.

Lemma dop_spec_elem op xs l : l ∈ (dop_spec op xs).2 -> l ∈ dop_entry op ++ xs.
Proof.
  pose proof (not_elem_of_nil l) as Hnil.
  destruct op; cbn [dop_spec dop_entry snd app];
    rewrite ?elem_of_app, ?elem_of_cons, ?elem_of_lremove; try tauto.
  - case_match; [tauto|]. rewrite elem_of_app, elem_of_cons.
    rewrite <-(take_drop (Z.to_nat i) xs) at 3. rewrite elem_of_app. tauto.
  - apply elem_of_tail.
  - apply elem_of_removelast.
  - apply elem_of_delete.
  - case_match; cbn [snd]; [intros Ht%elem_of_removelast; revert Ht|]; by rewrite elem_of_cons.
Qed.

(** Index insertion at 0 does not insert at the left end: on a non-empty
    list the old first entry drops out of the left-to-right chain (the new
    entry is followed by the second one) while the depth counts it, so the
    result is no well-formed list of either; on an empty list the call
    dereferences NULL. *)
Theorem push_at_index_0_loses_head m h xs e :
  is_dlist m h xs -> e ∉ h :: xs -> double_cell m e ->
  match xs with
  | [] => AnscDListPushEntryAtIndex h e 0 m = Stuck NullDeref
  | x :: r =>
      exists m', AnscDListPushEntryAtIndex h e 0 m = Done (tt, m') /\
        chain (m_next m') h (e :: r) None /\ m_depth m' !! h = Some (USHORT (Zlen r + 2)) /\
        forall ys, ~ is_dlist m' h ys
  end.
Proof.
  intros Hr He Hc. destruct xs as [|x xs]; [by apply push_at_index_0_empty|].
  destruct (push_at_index_0 m h x xs e Hr He Hc) as (m' & E & Hch & Hd).
  exists m'. split_and!; [done..|]. intros ys (Hc' & _ & Hd').
  rewrite <-(chain_unique _ _ _ _ Hch Hc'), Hd in Hd'. injection Hd' as Hd'.
  cbn [length] in Hd'. unfold USHORT in Hd'. Z.to_euclidean_division_equations. lia.
Qed.

(** C23. Refinement: any sequence of the doubly linked list operations on a
    well-formed header, linking allocated double entries that are not in the
    list and unlinking entries that are, and inserting by index at 1 or behind
    it while the list has fewer than 65536 entries, completes, returns what the
    operations return on the list, keeps the left to right and right to left
    chains of the same entries consistent with each other and with the 16-bit
    depth, and stays in its footprint.

    Insertion at index 0 is excluded because the code breaks there: after any
    such sequence, it dereferences NULL on the empty list, and on any other list
    it leaves a header that represents no list. *)
Theorem dlist_trace_refines m h ops xs :
  is_dlist m h xs -> trace_pre dop_spec dop_pre ops xs ->
  entry_cells double_cell m h (trace_entries dop_entry ops) ->
  exists m', trace_run (dop_run h) ops m = Done ((trace_spec dop_spec ops xs).1, m') /\
    is_dlist m' h (trace_spec dop_spec ops xs).2 /\
    frame (h :: trace_entries dop_entry ops ++ xs) m m' /\
    forall e, e ∉ h :: (trace_spec dop_spec ops xs).2 -> double_cell m' e ->
      match (trace_spec dop_spec ops xs).2 with
      | [] => AnscDListPushEntryAtIndex h e 0 m' = Stuck NullDeref
      | _ => exists m'', AnscDListPushEntryAtIndex h e 0 m' = Done (tt, m'') /\ forall ys, ~ is_dlist m'' h ys
      end.
Proof.
  intros Hr Hpre Hcells.
  assert (Hrun : exists m', trace_run (dop_run h) ops m = Done ((trace_spec dop_spec ops xs).1, m') /\
    is_dlist m' h (trace_spec dop_spec ops xs).2 /\ frame (h :: trace_entries dop_entry ops ++ xs) m m').
  { eapply trace_refines; [apply double_cell_keeps| |apply dop_spec_elem|done..].
    intros. by apply dop_refines. }
  destruct Hrun as (m' & E & Hr' & Hf). exists m'. split_and!; [done..|]. intros e He Hc.
  pose proof (push_at_index_0_loses_head m' h _ e Hr' He Hc) as H0.
  destruct (trace_spec dop_spec ops xs).2; [done|]. destruct H0 as (m'' & E0 & _ & _ & Hno). by exists m''.
Qed.

Definition dlist_demo : mem :=
  Mem (list_to_map [(1, None); (2, None); (3, None); (4, None); (5, None)])%positive
      (list_to_map [(1, None); (2, None); (3, None); (4, None); (5, None)])%positive ∅
      {[1%positive := 0]}.

Definition dlist_demo_ops : list dop :=
  [DPushRight 2; DPushLeft 3; DPushAtIndex 4 1; DPopByLink 4; DPushAtIndex 5 2; DPopByIndex 0;
   DGetByIndex 1; DPushLeftFix 4 2; DPopRight]%positive.

Lemma dlist_trace_refines_witness :
  exists m', trace_run (dop_run 1%positive) dlist_demo_ops dlist_demo =
    Done ([VVoid; VVoid; VVoid; VBoolean true; VVoid; VEntry (Some 3); VEntry (Some 5);
           VEntry (Some 5); VEntry (Some 2)]%positive, m') /\
    is_dlist m' 1%positive [4%positive] /\
    frame (1 :: trace_entries dop_entry dlist_demo_ops ++ [])%positive dlist_demo m'.
Proof.
  destruct (dlist_trace_refines dlist_demo 1%positive dlist_demo_ops []) as (m' & E & Hr & Hf & _); [..|by exists m'].
  - split_and!; [| |reflexivity]; (split; [apply NoDup_singleton|]; exists None; split; reflexivity).
  - cbn. split_and!; try done; set_solver.
  - intros e He. cbn in He. repeat (apply elem_of_cons in He as [->|He]);
      [split; [done|split; by eexists]..|]. by apply not_elem_of_nil in He.
Defined.

Lemma push_at_index_0_loses_head_witness :
  exists m', AnscDListPushEntryAtIndex 1%positive 3%positive 0
      (Mem (list_to_map [(1, Some 2); (2, None); (3, None)])%positive
           (list_to_map [(1, Some 2); (2, None); (3, None)])%positive ∅ {[1%positive := 1]})
    = Done (tt, m') /\
    chain (m_next m') 1%positive [3%positive] None /\
    m_depth m' !! 1%positive = Some 2 /\ forall ys, ~ is_dlist m' 1%positive ys.
Proof.
  apply (push_at_index_0_loses_head _ 1%positive [2%positive] 3%positive).
  - split_and!; [| |reflexivity];
      (split; [apply (bool_decide_unpack _); vm_compute; exact I|]);
      exists (Some 2%positive); (split; [reflexivity|]); (split; [reflexivity|]); exists None;
      split; reflexivity.
  - set_solver.
  - split; by eexists.
Defined.
