(* ===== verification/CStrings.v ===== *)
(** * Character strings ([ansc_string.c])

    The scanning, conversion and number routines.  A string argument is a
    [cstr]; a pointer into a string is a suffix of it; a destination is a
    buffer of bytes. *)

From S2P Require Import Prelude.
Open Scope Z_scope.

(** ** Scanning *)

(** [AnscSizeOfToken]: the bytes up to the first separator.  The terminator is
    found in every separator string, so the scan never leaves the string. *)
Fixpoint SizeOfToken_from (string separator : cstr) (range : nat) (count : Z) : Z :=
  match range with
  | O => count
  | S r =>
      if AnscCharInString separator (deref string) then count
      else SizeOfToken_from (tail string) separator r (count + 1)
  end.
Definition AnscSizeOfToken (string separator : cstr) (range : Z) : Z :=
  SizeOfToken_from string separator (Z.to_nat range) 0.

(** [AnscSizeOfToken2]: the bytes that belong to an alphabet.  The terminator
    belongs to every alphabet, so the scan is only stopped by [range]. *)
Fixpoint SizeOfToken2_from (string : list Z) (alphabet : cstr) (range : nat) (count : Z)
  {struct range} : outcome Z :=
  match range with
  | O => Done count
  | S r =>
      match string with
      | [] => Stuck OutOfBounds
      | c :: string' =>
          if AnscCharInString alphabet c then SizeOfToken2_from string' alphabet r (count + 1)
          else Done count
      end
  end.
Definition AnscSizeOfToken2 (string alphabet : cstr) (range : Z) : outcome Z :=
  SizeOfToken2_from (string ++ [0]) alphabet (Z.to_nat range) 0.

(** [AnscSizeOfToken3]: a token that starts with a double quote extends to the
    closing one. *)
Fixpoint quoted_from (string : list Z) (range : nat) (count : Z) {struct range} : outcome Z :=
  match range with
  | O => Done count
  | S r =>
      match string with
      | [] => Stuck OutOfBounds
      | c :: string' => if c =? 34 then Done (count + 1) else quoted_from string' r (count + 1)
      end
  end.
Definition AnscSizeOfToken3 (string separator : cstr) (range : Z) : outcome Z :=
  if negb (deref string =? 34) then Done (AnscSizeOfToken string separator range)
  else if (deref string =? 34) && (0 <? range)
  then quoted_from (tail string ++ [0]) (Z.to_nat (range - 1)) 1
  else Done (SizeOfToken_from string separator (Z.to_nat range) 0).

Fixpoint AnscMoveToNextToken (string separtor : cstr) : cstr :=
  match string with
  | [] => []
  | c :: string' =>
      if AnscCharInString separtor c && negb (c =? 0)
      then AnscMoveToNextToken string' separtor else string
  end.

Fixpoint AnscMoveToNextToken2 (string alphabet : cstr) : cstr :=
  match string with
  | [] => []
  | c :: string' =>
      if negb (AnscCharInString alphabet c) && negb (c =? 0)
      then AnscMoveToNextToken2 string' alphabet else string
  end.

(** [strstr], as the suffix it points at, and [strstr(s, n) == s]. *)
Definition is_prefix (needle s : cstr) : bool := bool_decide (take (length needle) s = needle).
Fixpoint strstr (s needle : cstr) : option cstr :=
  if is_prefix needle s then Some s
  else match s with [] => None | _ :: r => strstr r needle end.

(** [STRCPY_S_NOCLOBBER]: a field keeps its text when the source is NULL or
    does not fit. *)
Definition STRCPY_S_NOCLOBBER (dst : cstr) (dmax : Z) (src : option cstr) : cstr :=
  match src with
  | Some s => if strlen s <? dmax then s else dst
  | None => dst
  end.

(** ** Conversions *)

Definition AnscFromHexToString (hex string : list Z) (ulSize : Z) (bLowerCase : bool)
  : outcome (list Z) :=
  let c_delta := if bLowerCase then 97 else 65 in
  string ← for_from 0 (Z.to_nat ulSize) (fun i string =>
    h ← buf_get hex i;
    string ← buf_put string (i * 2) (Z.shiftr (Z.land h 240) 4);
    buf_put string (i * 2 + 1) (Z.land h 15)) string;
  for_from 0 (Z.to_nat (ulSize * 2)) (fun i string =>
    c ← buf_get string i;
    if c <=? 9 then buf_put string i (c + 48)
    else buf_put string i (c - 10 + c_delta)) string.

(** The loops count with an [int] up to [(int)ulSize]. *)
Definition AnscStringFromLToU (lstring ustring : list Z) (ulSize : Z) : outcome (list Z) :=
  for_from 0 (Z.to_nat (INT ulSize)) (fun i ustring =>
    c ← buf_get lstring i;
    buf_put ustring i (if (97 <=? c) && (c <=? 122) then c - 32 else c)) ustring.

Definition AnscStringFromUToL (ustring lstring : list Z) (ulSize : Z) : outcome (list Z) :=
  for_from 0 (Z.to_nat (INT ulSize)) (fun i lstring =>
    c ← buf_get ustring i;
    buf_put lstring i (if (65 <=? c) && (c <=? 90) then c + 32 else c)) lstring.

(** [AnscMacToLower]: the loop over [src] and the loop that pads [dest]. *)
Fixpoint MacToLower_copy (dest : list Z) (src : cstr) (n i : Z) : outcome (list Z * Z) :=
  match src with
  | [] => Done (dest, i)
  | c :: src' =>
      if i <? n then
        if negb (c =? 58) then
          dest ← buf_put dest i (tolower c); MacToLower_copy dest src' n (i + 1)
        else MacToLower_copy dest src' n i
      else Done (dest, i)
  end.
Definition AnscMacToLower (dest : option (list Z)) (src : option cstr) (n : Z)
  : outcome (option (list Z)) :=
  match dest, src with
  | Some dest, Some src =>
      r ← MacToLower_copy dest src (INT n) 0;
      let '(dest, i) := r in
      Some <$> for_from i (Z.to_nat (INT n - i)) (fun i dest => buf_put dest i 0) dest
  | _, _ => Done dest
  end.

Definition AnscCloneString (src_string : option cstr) (a : alloc_stream)
  : option cstr * alloc_stream :=
  match src_string with
  | None => (None, a)
  | Some s => let '(ok, a) := next_alloc a in (if ok then Some s else None, a)
  end.

(** ** Numbers *)

Section numbers.
Context `{Platform}.

(** [while ( remain_value2 > 0 )]: the digits, the last one first, in
    [reverse_str[32]]. *)
Fixpoint reverse_digits (fuel : nat) (remain_value2 : Z) (reverse_str : list Z) (char_count : Z)
  : outcome (list Z * Z) :=
  match fuel with
  | O => Stuck Diverge
  | S k =>
      if 0 <? remain_value2 then
        reverse_str ← buf_put reverse_str char_count (48 + remain_value2 mod 10);
        reverse_digits k (remain_value2 / 10) reverse_str (char_count + 1)
      else Done (reverse_str, char_count)
  end.

(** Writes no terminator. *)
Definition AnscGetUlongString (ulValue : Z) (ulong_str : list Z) : outcome (list Z) :=
  if ulValue =? 0 then buf_put ulong_str 0 48
  else
    r ← reverse_digits 21 ulValue (replicate 32 0) 0;
    let '(reverse_str, char_count) := r in
    for_from 0 (Z.to_nat char_count) (fun char_index ulong_str =>
      c ← buf_get reverse_str (char_count - 1 - char_index);
      buf_put ulong_str char_index c) ulong_str.

Definition AnscGetStringUlong (ulong_str : cstr) : outcome Z :=
  let str_len := strlen ulong_str in
  if 10 <? str_len then Done 0
  else
    r ← for_from 0 (Z.to_nat str_len) (fun char_index '(total_value, decimal_times) =>
      c ← buf_get ulong_str (str_len - char_index - 1);
      Done (ULONG (total_value + ULONG (char_val c - 48) * decimal_times),
            ULONG (decimal_times * 10))) (0, 1);
    Done (fst r).

(** A byte that is no hexadecimal digit leaves [char_value] as it was. *)
Definition hex_char_value (c char_value : Z) : Z :=
  if (48 <=? c) && (c <=? 57) then c - 48
  else if (97 <=? c) && (c <=? 102) then c - 97 + 10
  else if (65 <=? c) && (c <=? 70) then c - 65 + 10
  else char_value.

Definition AnscGetStringUlongHex (ulong_str_hex : cstr) : outcome Z :=
  let str_len := strlen ulong_str_hex in
  if 10 <? str_len then Done 0
  else
    r ← for_from 0 (Z.to_nat str_len) (fun char_index '(total_value, char_value, hex_times) =>
      c ← buf_get ulong_str_hex (str_len - char_index - 1);
      let char_value := hex_char_value c char_value in
      Done (ULONG (total_value + char_value * hex_times), char_value,
            ULONG (hex_times * 16))) (0, 0, 1);
    Done (fst (fst r)).

End numbers.

(** ** Positional numerals *)

Section numerals.
Variables (base : Z) (dig : Z -> Z).

(** The value of a numeral, most significant digit first. *)
Definition num_value (s : list Z) : Z := foldl (fun a c => a * base + dig c) 0 s.

Lemma foldl_num_value s a :
  foldl (fun a c => a * base + dig c) a s = a * base ^ Zlen s + num_value s.
Proof.
  unfold num_value. revert a. induction s as [|c s IH]; intros a; cbn [foldl length].
  - rewrite Z.pow_0_r. lia.
  - rewrite IH, (IH (0 * base + dig c)), Nat2Z.inj_succ, Z.pow_succ_r by lia. ring.
Qed.

Lemma num_value_cons c s : num_value (c :: s) = dig c * base ^ Zlen s + num_value s.
Proof. unfold num_value at 1. cbn [foldl]. rewrite Z.mul_0_l, Z.add_0_l. apply foldl_num_value. Qed.

Lemma num_value_snoc s c : num_value (s ++ [c]) = num_value s * base + dig c.
Proof. unfold num_value. by rewrite foldl_app. Qed.

Lemma num_value_bound s :
  0 < base -> Forall (fun c => 0 <= dig c < base) s -> 0 <= num_value s < base ^ Zlen s.
Proof.
  intros Hb. induction 1 as [|c s Hc Hs IH]; [by cbn|].
  rewrite num_value_cons, length_cons, Nat2Z.inj_succ, Z.pow_succ_r by lia. nia.
Qed.

(** A numeral without a leading zero is at least as large as its length says. *)
Lemma num_value_lower c s :
  1 < base -> Forall (fun c => 0 <= dig c < base) s -> 0 < dig c ->
  base ^ Zlen s <= num_value (c :: s).
Proof.
  intros Hb Hs Hc. rewrite num_value_cons.
  pose proof (num_value_bound s ltac:(lia) Hs).
  pose proof (Z.pow_pos_nonneg base (Zlen s)). nia.
Qed.

End numerals.

Abbreviation dec_value := (num_value 10 (fun c => c - 48)).
Definition is_digit (c : Z) : Prop := 48 <= c <= 57.

(** The canonical decimal numeral of [v]: digits, no leading zero, value [v]. *)
Definition decimal (v : Z) (s : list Z) : Prop :=
  Forall is_digit s /\ dec_value s = v /\
  exists c r, s = c :: r /\ (c = 48 -> r = []).

Lemma is_digit_dig s : Forall is_digit s -> Forall (fun c => 0 <= c - 48 < 10) s.
Proof. intros Hs. eapply Forall_impl; [done|]. unfold is_digit. cbn. lia. Qed.

(** How many digits a number has. *)
Lemma decimal_length v s :
  decimal v s -> 0 < v -> 10 ^ (Zlen s - 1) <= v < 10 ^ Zlen s.
Proof.
  intros (Hs & <- & c & r & -> & Hc) Hv. apply is_digit_dig in Hs as Hs'.
  inversion Hs' as [|? ? Hc' Hr']; subst. split.
  - rewrite length_cons. replace (_ - 1) with (Zlen r) by lia.
    apply num_value_lower; [lia|done|].
    destruct (decide (c = 48)) as [->|]; [|lia]. rewrite (Hc eq_refl) in Hv. by cbn in Hv.
  - by apply num_value_bound.
Qed.

(** [%u] and [%lu]: the digits of an unsigned number; [n] is their number at
    most. *)
Fixpoint fmt_u (n : nat) (v : Z) : cstr :=
  match n with
  | O => []
  | S k => if v <? 10 then [48 + v] else fmt_u k (v / 10) ++ [48 + v mod 10]
  end.

Lemma decimal_snoc v s c :
  0 < v -> decimal v s -> is_digit c -> decimal (v * 10 + (c - 48)) (s ++ [c]).
Proof.
  intros Hv (Hs & <- & x & r & -> & Hx) Hc. split_and!.
  - apply Forall_app; auto.
  - by rewrite num_value_snoc.
  - exists x, (r ++ [c]). split; [done|]. intros ->. rewrite (Hx eq_refl) in Hv. by cbn in Hv.
Qed.

Lemma decimal_unsnoc v s c :
  s ≠ [] -> decimal v (s ++ [c]) -> is_digit c /\ 0 < v / 10 /\ decimal (v / 10) s /\ c = 48 + v mod 10.
Proof.
  intros Hne (Hs & <- & x & r & E & Hx). apply Forall_app in Hs as [Hs Hc]. inversion Hc as [|? ? Hdc _]; subst.
  destruct s as [|y s]; [done|]. injection E as -> E. rewrite num_value_snoc.
  assert (Hx48 : x ≠ 48) by (intros ->; destruct (app_cons_not_nil s [] c); by rewrite E, Hx).
  assert (Hpos : 0 < dec_value (x :: s)).
  { apply is_digit_dig in Hs as Hs'. inversion Hs' as [|? ? H1 H2]; subst.
    pose proof (num_value_lower 10 (fun c => c - 48) x s ltac:(lia) H2 ltac:(lia)).
    pose proof (Z.pow_pos_nonneg 10 (Zlen s)). lia. }
  unfold is_digit in Hdc. set (t := dec_value (x :: s)) in *.
  assert (Hm : (t * 10 + (c - 48)) mod 10 = c - 48) by (rewrite Z.add_comm, Z.mod_add by lia; apply Z.mod_small; lia).
  rewrite Hm, Z.div_add_l, Z.div_small, Z.add_0_r by lia. split_and!; [done|done| |lia].
  split_and!; [done|done|]. exists x, s. split; [done|]. intros ->. done.
Qed.

Lemma fmt_u_of n s v : decimal v s -> 0 < v < 10 ^ Z.of_nat n -> fmt_u n v = s.
Proof.
  revert s v. induction n as [|k IH]; intros s v Hd Hb; [cbn in Hb; lia|].
  rewrite Nat2Z.inj_succ, Z.pow_succ_r in Hb by lia.
  destruct (last_Some s (default 0 (last s))) as [H _].
  destruct s as [|y s0] eqn:Es; [by destruct Hd as (_ & _ & ? & ? & ? & _)|].
  destruct H as [s' E]; [by destruct (last (y :: s0)) eqn:El; [|apply last_None in El]|].
  rewrite E in Hd |- *. set (c := default 0 _) in *. cbn [fmt_u]. destruct s' as [|y' s'].
  - destruct Hd as (Hc & <- & _). inversion Hc as [|? ? Hdc _]; subst. unfold is_digit in Hdc.
    cbn [app num_value]. unfold num_value. cbn. rewrite (proj2 (Z.ltb_lt _ _)) by lia. f_equal. lia.
  - apply decimal_unsnoc in Hd as (Hdc & Hpos & Hd & Hc); [|done].
    assert (10 <= v) by (pose proof (Z.div_small v 10); lia).
    rewrite (proj2 (Z.ltb_ge _ _)) by lia. rewrite (IH _ _ Hd), <-Hc; [done|].
    split; [done|]. apply Z.div_lt_upper_bound; lia.
Qed.

Lemma fmt_u_decimal n v : 0 < v < 10 ^ Z.of_nat n -> decimal v (fmt_u n v).
Proof.
  revert v. induction n as [|k IH]; intros v Hb; [cbn in Hb; lia|].
  rewrite Nat2Z.inj_succ, Z.pow_succ_r in Hb by lia. cbn [fmt_u]. destruct (Z.ltb_spec v 10).
  - split_and!; [constructor; [unfold is_digit; lia|constructor]|unfold num_value; cbn; lia|]. by eexists _, [].
  - pose proof (Z.div_mod v 10). pose proof (Z.mod_pos_bound v 10).
    assert (0 < v / 10) by (pose proof (Z.div_str_pos v 10); lia).
    assert (Hd : decimal (v / 10) (fmt_u k (v / 10))) by (apply IH; split; [lia|apply Z.div_lt_upper_bound; lia]).
    pose proof (decimal_snoc (v / 10) _ (48 + v mod 10) ltac:(lia) Hd ltac:(unfold is_digit; lia)) as Hd'.
    by replace (v / 10 * 10 + (48 + v mod 10 - 48)) with v in Hd' by lia.
Qed.

Section number_lemmas.
Context `{Platform}.

(** The digit loop appends the digits of [v], the last one first. *)
Lemma reverse_digits_spec fuel v ds rest :
  0 <= v < 10 ^ Z.of_nat fuel -> (fuel <= length rest)%nat ->
  exists ds' rest',
    reverse_digits (S fuel) v (ds ++ rest) (Zlen ds) = Done (ds ++ ds' ++ rest', Zlen ds + Zlen ds') /\
    length (ds' ++ rest') = length rest /\
    Forall is_digit ds' /\ dec_value (rev ds') = v /\
    (v = 0 -> ds' = []) /\ (0 < v -> exists c r, rev ds' = c :: r /\ c ≠ 48).
Proof.
  revert v ds rest. induction fuel as [|k IH]; intros v ds rest Hv Hr.
  - assert (v = 0) as -> by (cbn in Hv; lia).
    exists [], rest. cbn. rewrite Z.add_0_r. repeat split; try done; lia.
  - change (reverse_digits (S (S k)) v (ds ++ rest) (Zlen ds)) with
      (if 0 <? v then
        s ← buf_put (ds ++ rest) (Zlen ds) (48 + v mod 10);
        reverse_digits (S k) (v / 10) s (Zlen ds + 1)
       else Done (ds ++ rest, Zlen ds)).
    destruct (Z.ltb_spec 0 v) as [Hpos|Hz].
    + destruct rest as [|o rest]; [cbn in Hr; lia|].
      rewrite buf_put_at by done.
      pose proof (Z.mod_pos_bound v 10 ltac:(lia)).
      rewrite Nat2Z.inj_succ, Z.pow_succ_r in Hv by lia.
      assert (0 <= v / 10 < 10 ^ Z.of_nat k).
      { split; [apply Z.div_pos; lia|]. apply Z.div_lt_upper_bound; lia. }
      replace (ds ++ 48 + v mod 10 :: rest) with ((ds ++ [48 + v mod 10]) ++ rest)
        by by rewrite <-app_assoc.
      replace (Zlen ds + 1) with (Zlen (ds ++ [48 + v mod 10])) by (rewrite length_app; cbn; lia).
      destruct (IH (v / 10) (ds ++ [48 + v mod 10]) rest) as (ds' & rest' & E & Hl & Hd & Hval & Hnil & Hlead);
        [done|cbn in Hr; lia|].
      cbn [mbind outcome_bind]. rewrite E.
      exists (48 + v mod 10 :: ds'), rest'. rewrite <-app_assoc. cbn [app rev].
      split; [f_equal; f_equal; rewrite length_app; cbn; lia|].
      split; [by cbn; f_equal|]. split; [constructor; [unfold is_digit; lia|done]|].
      split; [rewrite num_value_snoc, Hval; pose proof (Z.div_mod v 10); lia|].
      split; [lia|]. intros _.
      destruct (decide (v / 10 = 0)) as [E0|E0].
      * rewrite (Hnil E0). cbn. eexists _, _. split; [done|].
        pose proof (Z.div_mod v 10). lia.
      * destruct Hlead as (c & r & -> & Hc); [lia|]. cbn. eauto.
    + assert (v = 0) as -> by lia. exists [], rest. cbn. rewrite Z.add_0_r. repeat split; try done; lia.
Qed.

(** Printing fills the front of the destination with the numeral. *)
Lemma AnscGetUlongString_spec v buf :
  0 <= v < 2 ^ ulong_bits -> (20 <= length buf)%nat ->
  exists s, AnscGetUlongString v buf = Done (s ++ drop (length s) buf) /\ decimal v s.
Proof.
  intros Hv Hb. unfold AnscGetUlongString.
  destruct (Z.eqb_spec v 0) as [->|Hnz].
  { destruct buf as [|o buf]; [cbn in Hb; lia|]. exists [48].
    rewrite (buf_put_at [] o buf) by done. cbn. rewrite drop_0. split; [done|].
    split; [by repeat constructor|]. split; [done|]. eauto. }
  destruct (reverse_digits_spec 20 v [] (replicate 32 0)) as
    (ds & rest & E & Hl & Hd & Hval & _ & Hlead).
  { destruct ulong_bits_ok as [E|E]; rewrite E in Hv; cbn in Hv |- *; lia. }
  { rewrite length_replicate. lia. }
  cbn [app length] in E. change (Z.of_nat 0) with 0 in E.
  change (S 20) with 21%nat in E. rewrite E. clear E. cbn [mbind outcome_bind].
  rewrite Z.add_0_l in *.
  assert (Hdec : decimal v (rev ds)).
  { split; [by apply Forall_rev|]. split; [done|].
    destruct Hlead as (c & r & -> & Hc); [lia|]. exists c, r. by split. }
  assert (Hlen : (length ds <= 20)%nat).
  { apply decimal_length in Hdec as [Hlo _]; [|lia]. rewrite length_rev in Hlo.
    destruct (decide (20 < length ds)%nat) as [Hgt|]; [|lia]. exfalso.
    assert (10 ^ 20 <= 10 ^ (Zlen ds - 1)) by (apply Z.pow_le_mono_r; lia).
    destruct ulong_bits_ok as [E|E]; rewrite E in Hv; cbn in Hv; lia. }
  exists (rev ds). split; [|done].
  replace (Z.to_nat (Zlen ds)) with (length (rev ds)) by (rewrite length_rev; lia).
  apply for_fill; [rewrite length_rev; lia|]. intros j c r Hc _.
  apply lookup_lt_Some in Hc as Hj. rewrite length_rev in Hj.
  assert (Ec : (ds ++ rest) !! Z.to_nat (Zlen ds - 1 - Z.of_nat j) = Some c).
  { rewrite lookup_app_l by lia. rewrite <-Hc, rev_lookup by lia. f_equal. lia. }
  by rewrite (buf_get_Z _ _ c) by (done || lia).
Qed.

(** Both parsers read a string from its end and keep a running power. *)
Lemma drop_step (s : list Z) (j : nat) :
  (j < length s)%nat ->
  exists c, s !! (length s - j - 1)%nat = Some c /\
    drop (length s - S j) s = c :: drop (length s - j) s.
Proof.
  intros Hj. destruct (lookup_lt_is_Some_2 s (length s - j - 1)) as [c Hc]; [lia|].
  exists c. split; [done|]. replace (length s - S j)%nat with (length s - j - 1)%nat by lia.
  rewrite (drop_S _ c) by done. do 2 f_equal. lia.
Qed.

Lemma horner_step base d t a p n :
  ULONG (ULONG (num_value base d t) + a * ULONG p) = ULONG n ->
  ULONG (ULONG (num_value base d t) + ULONG a * ULONG p) = ULONG n.
Proof. intros <-. rewrite <-!(ULONG_add_r _ (_ * _)). by rewrite ULONG_mul_l. Qed.

(** Parsing yields the value of the numeral modulo the width, whatever its
    characters are; more than ten characters yield zero. *)
Lemma AnscGetStringUlong_spec s :
  AnscGetStringUlong s =
    Done (if 10 <? strlen s then 0 else ULONG (num_value 10 (fun c => char_val c - 48) s)).
Proof.
  unfold AnscGetStringUlong. destruct (10 <? strlen s); [done|].
  unfold strlen. rewrite Nat2Z.id.
  edestruct (for_from_inv (fun i '(total, times) =>
    total = ULONG (num_value 10 (fun c => char_val c - 48) (drop (length s - Z.to_nat i) s)) /\
    times = ULONG (10 ^ i))
    (fun char_index '(total_value, decimal_times) =>
      c ← buf_get s (Zlen s - char_index - 1);
      Done (ULONG (total_value + ULONG (char_val c - 48) * decimal_times),
            ULONG (decimal_times * 10))) 0 (length s) (0, 1)) as ([tot tm] & E & Ht & _).
  - rewrite Nat.sub_0_r, drop_all. rewrite !ULONG_small32 by (cbn; lia). done.
  - intros j [tot tm] Hj [-> ->].
    destruct (drop_step s (Z.to_nat j)) as (c & Hc & Hd); [lia|].
    replace (length s - Z.to_nat j - 1)%nat with (Z.to_nat (Zlen s - j - 1)) in Hc by lia.
    rewrite (buf_get_Z _ _ c) by (done || lia). cbn [mbind outcome_bind]. eexists. split; [done|]. split.
    + apply horner_step. replace (Z.to_nat (j + 1)) with (S (Z.to_nat j)) by lia.
      rewrite Hd, num_value_cons, length_drop.
      replace (Z.of_nat (length s - (length s - Z.to_nat j))) with j by lia.
      rewrite <-(ULONG_add_r _ (_ * ULONG _)), ULONG_mul_r, ULONG_add_r, ULONG_add_l. f_equal. ring.
    + rewrite ULONG_mul_l. f_equal. rewrite Z.pow_add_r by lia. ring.
  - rewrite E. cbn [mbind outcome_bind fst]. rewrite Ht, Z.add_0_l, Nat2Z.id, Nat.sub_diag, drop_0. done.
Qed.

End number_lemmas.

(** ** Hexadecimal strings *)

(** The two half-bytes of a byte and the character of a half-byte. *)
Definition nibbles (b : Z) : list Z := [Z.shiftr (Z.land b 240) 4; Z.land b 15].
Definition hex_char (bLowerCase : bool) (d : Z) : Z :=
  if d <=? 9 then d + 48 else d - 10 + (if bLowerCase then 97 else 65).
Definition hex_string (bLowerCase : bool) (bytes : list Z) : cstr :=
  hex_char bLowerCase <$> flat_map nibbles bytes.

Lemma length_nibbles bytes : length (flat_map nibbles bytes) = (2 * length bytes)%nat.
Proof. induction bytes as [|b r IH]; cbn; [done|]. cbn in IH. lia. Qed.

Lemma nibbles_div b : is_byte b -> nibbles b = [b / 16; b mod 16].
Proof.
  unfold is_byte, nibbles. intros Hb.
  change 240 with (Z.shiftl (Z.ones 4) 4). change 15 with (Z.ones 4).
  rewrite Z.shiftr_land, Z.shiftr_shiftl_l, Z.sub_diag, Z.shiftl_0_r by lia.
  rewrite !Z.land_ones, Z.shiftr_div_pow2 by lia. change (2 ^ 4) with 16.
  rewrite (Z.mod_small (b / 16)); [done|].
  split; [apply Z.div_pos; lia | apply Z.div_lt_upper_bound; lia].
Qed.

Lemma AnscFromHexToString_spec hex string ulSize lower :
  0 <= ulSize -> (Z.to_nat ulSize <= length hex)%nat ->
  (2 * Z.to_nat ulSize <= length string)%nat ->
  AnscFromHexToString hex string ulSize lower =
    Done (hex_string lower (take (Z.to_nat ulSize) hex) ++ drop (2 * Z.to_nat ulSize) string).
Proof.
  intros H0 Hh Hs. unfold AnscFromHexToString. set (n := Z.to_nat ulSize) in *.
  edestruct (for_from_inv (fun i b =>
      b = flat_map nibbles (take (Z.to_nat i) hex) ++ drop (2 * Z.to_nat i) string)
    (fun i string =>
      h ← buf_get hex i;
      string ← buf_put string (i * 2) (Z.shiftr (Z.land h 240) 4);
      buf_put string (i * 2 + 1) (Z.land h 15)) 0 n string) as (b & E & ->).
  - by rewrite take_0, drop_0.
  - intros j b Hj ->. destruct (lookup_lt_is_Some_2 hex (Z.to_nat j)) as [c Hc]; [lia|].
    rewrite (buf_get_Z hex j c) by (done || lia). cbn [mbind outcome_bind].
    destruct (drop (2 * Z.to_nat j) string) as [|o1 [|o2 r]] eqn:Ed;
      try (assert (Hd' := f_equal length Ed); rewrite length_drop in Hd'; cbn in Hd'; lia).
    pose proof (length_nibbles (take (Z.to_nat j) hex)) as Hln. rewrite length_take in Hln.
    rewrite buf_put_at by lia. cbn [mbind outcome_bind].
    change (?f ++ ?a :: o2 :: r) with (f ++ [a] ++ o2 :: r). rewrite app_assoc.
    rewrite buf_put_at by (rewrite length_app; cbn [length]; lia).
    eexists. split; [done|]. replace (Z.to_nat (j + 1)) with (S (Z.to_nat j)) by lia.
    rewrite (take_S_r _ _ c), flat_map_app by done. cbn [flat_map nibbles app].
    replace (2 * S (Z.to_nat j))%nat with (2 * Z.to_nat j + 2)%nat by lia.
    by rewrite <-drop_drop, Ed, <-!app_assoc.
  - rewrite E. cbn [mbind outcome_bind]. rewrite Z.add_0_l, Nat2Z.id.
    pose proof (length_nibbles (take n hex)) as Hln. rewrite length_take, Nat.min_l in Hln by done.
    replace (Z.to_nat (ulSize * 2)) with (2 * n)%nat by lia.
    pose proof (for_map_inplace (hex_char lower)
      (flat_map nibbles (take n hex) ++ drop (2 * n) string) (2 * n)) as Hmap.
    rewrite length_app, Hln, take_app_length', drop_app_length' in Hmap by done.
    unfold hex_string. rewrite <-Hmap by lia. apply for_from_ext. intros j b.
    destruct (buf_get b j) as [c|]; cbn; [|done]. unfold hex_char. by destruct (c <=? 9).
Qed.

Definition hex_digit (c : Z) : Prop := 48 <= c <= 57 \/ 97 <= c <= 102 \/ 65 <= c <= 70.

Lemma hex_digit_value c v v' : hex_digit c -> hex_char_value c v = hex_char_value c v'.
Proof.
  unfold hex_digit, hex_char_value. intros. repeat case_match; zbool; try done.
  exfalso. rewrite ?andb_false_iff, ?Z.leb_gt in *. lia.
Qed.

Lemma hex_char_digit l d : 0 <= d < 16 -> hex_digit (hex_char l d) /\ hex_char_value (hex_char l d) 0 = d.
Proof.
  intros Hd. unfold hex_digit, hex_char_value, hex_char.
  destruct (Z.leb_spec d 9); destruct l; repeat case_match; zbool; try lia;
    rewrite ?andb_false_iff, ?Z.leb_gt in *; lia.
Qed.

Section hex_lemmas.
Context `{Platform}.

Lemma AnscGetStringUlongHex_spec s :
  Forall hex_digit s ->
  AnscGetStringUlongHex s =
    Done (if 10 <? strlen s then 0 else ULONG (num_value 16 (fun c => hex_char_value c 0) s)).
Proof.
  intros Hx. unfold AnscGetStringUlongHex. destruct (10 <? strlen s); [done|].
  unfold strlen. rewrite Nat2Z.id.
  edestruct (for_from_inv (fun i '(total, cv, times) =>
    total = ULONG (num_value 16 (fun c => hex_char_value c 0) (drop (length s - Z.to_nat i) s)) /\
    times = ULONG (16 ^ i))
    (fun char_index '(total_value, char_value, hex_times) =>
      c ← buf_get s (Zlen s - char_index - 1);
      Done (ULONG (total_value + hex_char_value c char_value * hex_times), hex_char_value c char_value,
            ULONG (hex_times * 16))) 0 (length s) (0, 0, 1)) as ([[tot cv] tm] & E & Ht & _).
  - rewrite Nat.sub_0_r, drop_all. rewrite !ULONG_small32 by (cbn; lia). done.
  - intros j [[tot cv] tm] Hj [-> ->].
    destruct (drop_step s (Z.to_nat j)) as (c & Hc & Hd); [lia|].
    replace (length s - Z.to_nat j - 1)%nat with (Z.to_nat (Zlen s - j - 1)) in Hc by lia.
    rewrite (buf_get_Z _ _ c) by (done || lia). cbn [mbind outcome_bind]. eexists. split; [done|]. split.
    + replace (Z.to_nat (j + 1)) with (S (Z.to_nat j)) by lia.
      rewrite Hd, num_value_cons, length_drop.
      replace (Z.of_nat (length s - (length s - Z.to_nat j))) with j by lia.
      rewrite (hex_digit_value c cv 0) by (eapply Forall_lookup_1; eauto).
      rewrite <-(ULONG_add_r _ (_ * ULONG _)), ULONG_mul_r, ULONG_add_r, ULONG_add_l. f_equal. ring.
    + rewrite ULONG_mul_l. f_equal. rewrite Z.pow_add_r by lia. ring.
  - cbn zeta. rewrite E. cbn [mbind outcome_bind fst]. rewrite Ht, Z.add_0_l, Nat2Z.id, Nat.sub_diag, drop_0. done.
Qed.

Lemma hex_string_value l bytes :
  Forall is_byte bytes ->
  Forall hex_digit (hex_string l bytes) /\
  num_value 16 (fun c => hex_char_value c 0) (hex_string l bytes) = num_value 256 (fun b => b) bytes.
Proof.
  unfold hex_string. induction 1 as [|b r Hb Hr [IH1 IH2]]; [done|].
  cbn [flat_map]. rewrite nibbles_div by done. cbn [app fmap list_fmap].
  assert (0 <= b / 16 < 16 /\ 0 <= b mod 16 < 16) as [Hq Hm].
  { split; [|apply Z.mod_pos_bound; lia]. unfold is_byte in Hb.
    split; [apply Z.div_pos; lia | apply Z.div_lt_upper_bound; lia]. }
  destruct (hex_char_digit l _ Hq) as [Hd1 Hv1], (hex_char_digit l _ Hm) as [Hd2 Hv2].
  split; [by rewrite !Forall_cons|].
  rewrite !num_value_cons, Hv1, Hv2. change (list_fmap ?f) with (fmap f) in *.
  rewrite IH2. cbn [length]. rewrite Nat2Z.inj_succ, Z.pow_succ_r by lia.
  rewrite length_fmap, length_nibbles. change 256 with (16 ^ 2).
  rewrite <-Z.pow_mul_r by lia. replace (2 * Z.of_nat (length r)) with (Z.of_nat (2 * length r)) by lia.
  pose proof (Z.div_mod b 16). nia.
Qed.

End hex_lemmas.

Lemma num_value_ext base d d' s :
  Forall (fun c => d c = d' c) s -> num_value base d s = num_value base d' s.
Proof.
  induction 1 as [|c s Hc Hs IH]; [done|]. by rewrite !num_value_cons, Hc, IH.
Qed.

Lemma char_val_ascii `{Platform} c : 0 <= c < 128 -> char_val c = c.
Proof. intros. unfold char_val. repeat case_match; zbool; lia. Qed.

(** Case conversion on a prefix of a buffer. *)
Lemma AnscStringFromLToU_spec src dst n :
  0 <= n < 2147483648 -> (Z.to_nat n <= length src)%nat -> (Z.to_nat n <= length dst)%nat ->
  AnscStringFromLToU src dst n =
    Done (((fun c => if (97 <=? c) && (c <=? 122) then c - 32 else c) <$> take (Z.to_nat n) src)
          ++ drop (Z.to_nat n) dst).
Proof.
  intros Hn Hs Hd. unfold AnscStringFromLToU, INT, wrapS.
  rewrite Z.mod_small by (cbn; lia). replace (_ - _) with n by (cbn; lia).
  by apply for_map.
Qed.

Lemma AnscStringFromUToL_spec src dst n :
  0 <= n < 2147483648 -> (Z.to_nat n <= length src)%nat -> (Z.to_nat n <= length dst)%nat ->
  AnscStringFromUToL src dst n =
    Done ((tolower <$> take (Z.to_nat n) src) ++ drop (Z.to_nat n) dst).
Proof.
  intros Hn Hs Hd. unfold AnscStringFromUToL, INT, wrapS.
  rewrite Z.mod_small by (cbn; lia). replace (_ - _) with n by (cbn; lia).
  by apply for_map.
Qed.

Lemma MacToLower_copy_spec src : forall done_ rest n,
  n = Zlen done_ + Zlen rest ->
  let out := take (length rest) (tolower <$> filter (.≠ 58) src) in
  MacToLower_copy (done_ ++ rest) src n (Zlen done_) =
    Done (done_ ++ out ++ drop (length out) rest, Zlen done_ + Zlen out).
Proof.
  induction src as [|c src IH]; intros pre rest n ->; cbn zeta; cbn [MacToLower_copy].
  - change (filter _ []) with (@nil Z). cbn. rewrite take_nil. cbn.
    by rewrite drop_0, Z.add_0_r.
  - destruct (Z.ltb_spec (Zlen pre) (Zlen pre + Zlen rest)) as [Hlt|Hge].
    2:{ destruct rest; [|cbn in Hge; lia]. cbn. by rewrite Z.add_0_r. }
    destruct rest as [|o rest]; [cbn in Hlt; lia|].
    destruct (Z.eqb_spec c 58) as [->|Hc]; cbn [negb].
    + rewrite IH by done. rewrite filter_cons_False by tauto. done.
    + rewrite buf_put_at by done. cbn [mbind outcome_bind].
      replace (pre ++ tolower c :: rest) with ((pre ++ [tolower c]) ++ rest)
        by by rewrite <-app_assoc.
      replace (Zlen pre + 1) with (Zlen (pre ++ [tolower c])) by (rewrite length_app; cbn; lia).
      rewrite IH by (rewrite length_app; cbn; lia).
      rewrite filter_cons_True by done. cbn. rewrite <-app_assoc. cbn.
      do 2 f_equal. rewrite length_app. cbn. lia.
Qed.

(** A canonical numeral of at most ten digits is read back. *)
Lemma AnscGetStringUlong_decimal `{Platform} v s :
  0 <= v < 2 ^ ulong_bits -> decimal v s ->
  AnscGetStringUlong s = Done (if v <? 10 ^ 10 then v else 0).
Proof.
  intros Hv Hd. rewrite AnscGetStringUlong_spec. f_equal.
  assert (Hval : num_value 10 (fun c => char_val c - 48) s = v).
  { destruct Hd as (Hs & <- & _). apply num_value_ext. eapply Forall_impl; [exact Hs|].
    unfold is_digit. intros c Hc. cbn. rewrite char_val_ascii; lia. }
  rewrite Hval, (ULONG_small v) by done. unfold strlen.
  destruct (decide (v = 0)) as [->|Hnz].
  { by case_match. }
  apply decimal_length in Hd as [Hlo Hhi]; [|lia].
  destruct (Z.ltb_spec 10 (Zlen s)), (Z.ltb_spec v (10 ^ 10)); try done; exfalso.
  - assert (10 ^ 10 <= 10 ^ (Zlen s - 1)) by (apply Z.pow_le_mono_r; lia). lia.
  - assert (10 ^ Zlen s <= 10 ^ 10) by (apply Z.pow_le_mono_r; lia). lia.
Qed.

(** ** Properties *)

(** Decimal printing and parsing: [AnscGetUlongString] writes the canonical
    decimal numeral of every [ULONG] into a destination of 20 bytes or more and
    leaves the rest of it alone, without overrunning its own 32-byte work
    buffer; [AnscGetStringUlong] reads that numeral back when it has at most
    ten digits and yields 0 for every longer one. *)
Theorem ulong_print_parse `{Platform} v buf
  (Hv : 0 <= v < 2 ^ ulong_bits) (Hbuf : (20 <= length buf)%nat) :
  exists s, AnscGetUlongString v buf = Done (s ++ drop (length s) buf) /\ decimal v s /\
    AnscGetStringUlong s = Done (if v <? 10 ^ 10 then v else 0).
Proof.
  destruct (AnscGetUlongString_spec v buf Hv Hbuf) as (s & E & Hd).
  exists s. do 2 (split; [done|]). by apply AnscGetStringUlong_decimal.
Qed.

Theorem ulong_print_parse_witness :
  let _ := lp64 in
  0 <= 18446744073709551615 < 2 ^ ulong_bits /\
  exists s, AnscGetUlongString 18446744073709551615 (replicate 32 7) =
      Done (s ++ drop (length s) (replicate 32 7)) /\
    decimal 18446744073709551615 s /\
    AnscGetStringUlong s = Done (if 18446744073709551615 <? 10 ^ 10 then 18446744073709551615 else 0).
Proof.
  cbn zeta. split; [by vm_compute|]. apply (@ulong_print_parse lp64); [by vm_compute|].
  cbn. lia.
Defined.

(** Hexadecimal printing and parsing: [AnscFromHexToString] fills the front
    of the destination with two characters per byte, in the requested case, and
    [AnscGetStringUlongHex] reads them back as the big-endian number the bytes
    stand for, modulo the width of [ULONG]; more than five bytes (ten
    characters) read as 0. *)
Theorem hex_print_parse `{Platform} bytes dst lower
  (Hbytes : Forall is_byte bytes) (Hdst : (2 * length bytes <= length dst)%nat) :
  AnscFromHexToString bytes dst (Zlen bytes) lower =
    Done (hex_string lower bytes ++ drop (2 * length bytes) dst) /\
  AnscGetStringUlongHex (hex_string lower bytes) =
    Done (if 5 <? Zlen bytes then 0 else ULONG (num_value 256 (fun b => b) bytes)).
Proof.
  split.
  - rewrite AnscFromHexToString_spec by lia. by rewrite Nat2Z.id, take_ge by lia.
  - destruct (hex_string_value lower bytes Hbytes) as [Hd Hv].
    rewrite AnscGetStringUlongHex_spec, Hv by done. f_equal.
    unfold strlen, hex_string. rewrite length_fmap, length_nibbles.
    destruct (Z.ltb_spec 10 (Z.of_nat (2 * length bytes))), (Z.ltb_spec 5 (Zlen bytes)); done || lia.
Qed.

Theorem hex_print_parse_witness :
  let _ := ilp32 in
  AnscFromHexToString [18; 171; 0] (replicate 8 0) (Zlen [18; 171; 0]) true =
    Done (hex_string true [18; 171; 0] ++ drop (2 * length [18; 171; 0]) (replicate 8 0)) /\
  AnscGetStringUlongHex (hex_string true [18; 171; 0]) =
    Done (if 5 <? Zlen [18; 171; 0] then 0 else ULONG (num_value 256 (fun b => b) [18; 171; 0])).
Proof.
  cbn zeta. apply (@hex_print_parse ilp32); [|cbn; lia].
  repeat constructor; lia.
Defined.

(** [AnscMacToLower]: into a destination of [n] bytes it writes the source
    without its colons and in lower case, cut at [n] bytes, and fills the rest
    with zeros; without a source or a destination nothing happens. *)
Theorem AnscMacToLower_spec dest src n
  (Hn : n = Zlen dest) (Hsmall : n < 2147483648) :
  let out := take (length dest) (tolower <$> filter (.≠ 58) src) in
  AnscMacToLower (Some dest) (Some src) n =
    Done (Some (out ++ replicate (length dest - length out) 0)) /\
  AnscMacToLower (Some dest) None n = Done (Some dest) /\
  AnscMacToLower None (Some src) n = Done None.
Proof.
  intros out. split; [|done]. subst n. unfold AnscMacToLower.
  replace (INT (Zlen dest)) with (Zlen dest).
  2:{ unfold INT, wrapS. rewrite Z.mod_small; cbn; lia. }
  pose proof (MacToLower_copy_spec src [] dest (Zlen dest) ltac:(done)) as E.
  cbn [app length] in E. change (Z.of_nat 0) with 0 in E. rewrite E. clear E. fold out.
  cbn [mbind outcome_bind]. rewrite Z.add_0_l.
  assert (Hout : (length out <= length dest)%nat) by (subst out; rewrite length_take; lia).
  destruct (for_from_inv (fun i b =>
     b = out ++ replicate (Z.to_nat i - length out) 0 ++ drop (Z.to_nat i) dest)
     (fun i dest => buf_put dest i 0) (Zlen out) (Z.to_nat (Zlen dest - Zlen out))
     (out ++ drop (length out) dest)) as (b & -> & ->).
  - by rewrite Nat2Z.id, Nat.sub_diag.
  - intros j b Hj ->. rewrite app_assoc.
    destruct (drop (Z.to_nat j) dest) as [|o r] eqn:Ed.
    { assert (Hd' := f_equal length Ed). rewrite length_drop in Hd'. cbn in Hd'. lia. }
    rewrite buf_put_at by (rewrite length_app, length_replicate; lia).
    eexists. split; [done|]. replace (Z.to_nat (j + 1)) with (Z.to_nat j + 1)%nat by lia.
    rewrite <-drop_drop, Ed. replace (Z.to_nat j + 1 - length out)%nat
      with ((Z.to_nat j - length out) + 1)%nat by lia.
    by rewrite replicate_add, <-!app_assoc.
  - cbn. replace (Z.to_nat (Zlen out + Z.of_nat (Z.to_nat (Zlen dest - Zlen out))))
      with (length dest) by lia.
    by rewrite drop_all, app_nil_r.
Qed.

Theorem AnscMacToLower_spec_witness :
  4 = Zlen [1; 2; 3; 4] /\
  let out := take 4 (tolower <$> filter (.≠ 58) [65; 58; 66]) in
  AnscMacToLower (Some [1; 2; 3; 4]) (Some [65; 58; 66]) 4 =
    Done (Some (out ++ replicate (4 - length out) 0)) /\
  AnscMacToLower (Some [1; 2; 3; 4]) None 4 = Done (Some [1; 2; 3; 4]) /\
  AnscMacToLower None (Some [65; 58; 66]) 4 = Done None.
Proof. split; [done|]. apply (AnscMacToLower_spec [1; 2; 3; 4]); [done|lia]. Defined.
