(* ===== verification/Tokens.v ===== *)
(** * Token chains ([ansc_token.c])

    A token chain is a queue of [ANSC_STRING_TOKEN]s.  The queue operations are
    those of [Queue], which act on the represented list; here a chain is that
    list, so that [AnscQueuePushEntry] appends and [AnscQueuePopEntry] takes
    the head.  A token keeps its name in the fixed buffer [Name]. *)

From S2P Require Import Prelude CStrings.
Open Scope Z_scope.

Definition ANSC_URI_PATH_SIZE : Z := 512.
Record ANSC_STRING_TOKEN := Token { Name : list Z }.
Abbreviation ANSC_TOKEN_CHAIN := (list ANSC_STRING_TOKEN).

Inductive ANSC_STATUS := ANSC_STATUS_SUCCESS | ANSC_STATUS_UNAPPLICABLE.

(** A token fresh from [AnscAllocateMemory] is zeroed; [AnscCopyMemory] copies
    [n] bytes of the string into its name. *)
Definition token_copy (string : cstr) (n : Z) : outcome ANSC_STRING_TOKEN :=
  Token <$> buf_copy (replicate (Z.to_nat ANSC_URI_PATH_SIZE) 0) 0 (take (Z.to_nat n) string).

(** [pToken->Name] read as a C string. *)
Definition token_name (t : ANSC_STRING_TOKEN) : outcome cstr :=
  match buf_cstr (Name t) with Some s => Done s | None => Stuck OutOfBounds end.

(** ** The allocating scanners *)

Section allocate.
(** The three [AnscTcAllocate] functions and [AnscSetTokenChain] have the same
    loop; they differ in how a token is measured and in what is done with it.
    [body] yields the chain with the token added, or NULL when the function
    gives up. *)
Variable size : cstr -> outcome Z.
Variable body : cstr -> Z -> ANSC_TOKEN_CHAIN -> alloc_stream ->
  outcome (option ANSC_TOKEN_CHAIN * alloc_stream).
Variable separator : cstr.

Fixpoint tc_loop (fuel : nat) (ulSizeOfStr : Z) (string : cstr) (ulTokenSize : Z)
    (chain : ANSC_TOKEN_CHAIN) (a : alloc_stream)
  : outcome (option ANSC_TOKEN_CHAIN * alloc_stream) :=
  match fuel with
  | O => Stuck Diverge
  | S k =>
      if negb (deref string =? 0) && negb (ulTokenSize =? 0)
         && (ulSizeOfStr - strlen string <? ulSizeOfStr) then
        r ← body string ulTokenSize chain a;
        match r with
        | (None, a) => Done (None, a)
        | (Some chain, a) =>
            let string := AnscMoveToNextToken (drop (Z.to_nat ulTokenSize) string) separator in
            ulTokenSize ← size string;
            tc_loop k ulSizeOfStr string ulTokenSize chain a
        end
      else Done (Some chain, a)
  end.

Definition tc_allocate (string : option cstr) (a : alloc_stream)
  : outcome (option ANSC_TOKEN_CHAIN * alloc_stream) :=
  match string with
  | None => Done (None, a)
  | Some string =>
      let ulSizeOfStr := strlen string in
      let '(ok, a) := next_alloc a in
      if negb ok then Done (None, a)
      else
        let string := AnscMoveToNextToken string separator in
        if deref string =? 0 then Done (Some [], a)
        else
          ulTokenSize ← size string;
          if ulTokenSize =? 0 then Done (Some [], a)
          else tc_loop (S (length string)) ulSizeOfStr string ulTokenSize [] a
  end.
End allocate.

Definition AnscTcAllocate (string : option cstr) (separator : cstr) (a : alloc_stream)
  : outcome (option ANSC_TOKEN_CHAIN * alloc_stream) :=
  tc_allocate (fun s => Done (AnscSizeOfToken s separator (strlen s)))
    (fun string ulTokenSize chain a =>
       let '(ok, a) := next_alloc a in
       if negb ok then Done (None, a)
       else if ANSC_URI_PATH_SIZE <=? ulTokenSize then Done (None, a)
       else pToken ← token_copy string ulTokenSize; Done (Some (chain ++ [pToken]), a))
    separator string a.

Definition AnscTcAllocate2 (string : option cstr) (separator alphabet : cstr) (a : alloc_stream)
  : outcome (option ANSC_TOKEN_CHAIN * alloc_stream) :=
  tc_allocate (fun s => Done (AnscSizeOfToken s separator (strlen s)))
    (fun string ulTokenSize chain a =>
       let bAlphabetOnly := forallb (AnscCharInString alphabet) (take (Z.to_nat ulTokenSize) string) in
       if bAlphabetOnly then
         let '(ok, a) := next_alloc a in
         if negb ok then Done (None, a)
         else pToken ← token_copy string ulTokenSize; Done (Some (chain ++ [pToken]), a)
       else Done (Some chain, a))
    separator string a.

Definition AnscTcAllocate3 (string : option cstr) (separator : cstr) (a : alloc_stream)
  : outcome (option ANSC_TOKEN_CHAIN * alloc_stream) :=
  tc_allocate (fun s => AnscSizeOfToken3 s separator (strlen s))
    (fun string ulTokenSize chain a =>
       let '(ok, a) := next_alloc a in
       if negb ok then Done (None, a)
       else
         pToken ← (if (deref string =? 34) && (2 <=? ulTokenSize)
                   then token_copy (tail string) (ulTokenSize - 2)
                   else token_copy string ulTokenSize);
         Done (Some (chain ++ [pToken]), a))
    separator string a.

(** ** Using and releasing a chain *)

Definition AnscTcPopToken (chain : ANSC_TOKEN_CHAIN) : option ANSC_STRING_TOKEN * ANSC_TOKEN_CHAIN :=
  (head chain, tail chain).

(** Pops and frees until the queue is empty; yields the freed tokens and the
    chain left. *)
Fixpoint DelTokenChain_loop (fuel : nat) (pToken : option ANSC_STRING_TOKEN)
    (chain : ANSC_TOKEN_CHAIN) (freed : list ANSC_STRING_TOKEN)
  : list ANSC_STRING_TOKEN * ANSC_TOKEN_CHAIN :=
  match fuel, pToken with
  | S k, Some t =>
      let '(next, chain) := AnscTcPopToken chain in
      DelTokenChain_loop k next chain (freed ++ [t])
  | _, _ => (freed, chain)
  end.
Definition AnscDelTokenChain (chain : ANSC_TOKEN_CHAIN) : list ANSC_STRING_TOKEN * ANSC_TOKEN_CHAIN :=
  let '(t, chain') := AnscTcPopToken chain in
  DelTokenChain_loop (S (length chain)) t chain' [].

(** Frees the tokens, then the chain itself. *)
Definition AnscTcFree (chain : ANSC_TOKEN_CHAIN) : list ANSC_STRING_TOKEN :=
  fst (AnscDelTokenChain chain).

Definition AnscTcGetLength `{Platform} (chain : ANSC_TOKEN_CHAIN) : outcome Z :=
  foldl (fun r t => ulStringLen ← r; s ← token_name t;
           Done (ULONG (ULONG (ulStringLen + strlen s) + 1))) (Done 0) chain.

Fixpoint GetTokenChain_from (chain : ANSC_TOKEN_CHAIN) (string : list Z) (separator : cstr) (ulIndex : Z)
  : outcome (list Z) :=
  match chain with
  | [] => Done string
  | pToken :: chain' =>
      s ← token_name pToken;
      string ← buf_copy string ulIndex (s ++ [0]);
      string ← buf_put string (ulIndex + strlen s) (deref separator);
      GetTokenChain_from chain' string separator (ulIndex + strlen s + 1)
  end.
Definition AnscGetTokenChain (chain : ANSC_TOKEN_CHAIN) (string : list Z) (separator : cstr)
  : outcome (list Z) :=
  GetTokenChain_from chain string separator 0.

(** Re-initializes the queue of the chain before it scans: tokens already
    chained are not freed.  Yields the status and the chain after the call. *)
Definition AnscSetTokenChain (pTokenChain : option ANSC_TOKEN_CHAIN) (string : option cstr)
    (separator : cstr) (a : alloc_stream)
  : outcome (ANSC_STATUS * option ANSC_TOKEN_CHAIN * alloc_stream) :=
  match string, pTokenChain with
  | None, _ => Done (ANSC_STATUS_UNAPPLICABLE, pTokenChain, a)
  | Some _, None => Done (ANSC_STATUS_UNAPPLICABLE, None, a)
  | Some string, Some _ =>
      let ulSizeOfStr := strlen string in
      let string := AnscMoveToNextToken string separator in
      let ulTokenSize := AnscSizeOfToken string separator (strlen string) in
      if ulTokenSize =? 0 then Done (ANSC_STATUS_UNAPPLICABLE, Some [], a)
      else
        r ← tc_loop (fun s => Done (AnscSizeOfToken s separator (strlen s)))
          (fun string ulTokenSize chain a =>
             let '(ok, a) := next_alloc a in
             if negb ok then Done (None, a)
             else pToken ← token_copy string ulTokenSize; Done (Some (chain ++ [pToken]), a))
          separator (S (length string)) ulSizeOfStr string ulTokenSize [] a;
        match r with
        | (None, a) => Done (ANSC_STATUS_UNAPPLICABLE, Some [], a)
        | (Some chain, a) => Done (ANSC_STATUS_SUCCESS, Some chain, a)
        end
  end.

(** ** Reference definitions *)

(** The maximal runs of non-separator bytes of a string. *)
Definition flush (cur : cstr) : list cstr := match cur with [] => [] | _ => [cur] end.
Fixpoint words_acc (separator cur s : cstr) : list cstr :=
  match s with
  | [] => flush cur
  | c :: r =>
      if bool_decide (c ∈ separator) then flush cur ++ words_acc separator [] r
      else words_acc separator (cur ++ [c]) r
  end.
Definition words (separator s : cstr) : list cstr := words_acc separator [] s.

(** The token that holds a name of fewer than 512 bytes. *)
Definition token_of (s : cstr) : ANSC_STRING_TOKEN :=
  Token (s ++ replicate (Z.to_nat ANSC_URI_PATH_SIZE - length s) 0).

(** The words of a string in which a token may be quoted: a quoted token runs
    to the next double quote and loses its quotes.  When the closing quote is
    missing the token runs to the end of the string and loses its last byte, a
    single trailing quote stays. *)
Inductive scan3 := Outside | InWord (cur : cstr) | InQuote (cur : cstr).
Fixpoint words3_acc (separator : cstr) (st : scan3) (s : cstr) : list cstr :=
  match s, st with
  | [], Outside => []
  | [], InWord cur => [cur]
  | [], InQuote [] => [[34]]
  | [], InQuote cur => [take (length cur - 1) cur]
  | c :: r, Outside =>
      if bool_decide (c ∈ separator) then words3_acc separator Outside r
      else if c =? 34 then words3_acc separator (InQuote []) r
      else words3_acc separator (InWord [c]) r
  | c :: r, InWord cur =>
      if bool_decide (c ∈ separator) then cur :: words3_acc separator Outside r
      else words3_acc separator (InWord (cur ++ [c])) r
  | c :: r, InQuote cur =>
      if c =? 34 then cur :: words3_acc separator Outside r
      else words3_acc separator (InQuote (cur ++ [c])) r
  end.
Definition words3 (separator s : cstr) : list cstr := words3_acc separator Outside s.

(** Allocating and filling a token for each word in turn.  [check] says whether
    words that do not fit are refused. *)
Fixpoint emit (check : bool) (ws : list cstr) (chain : ANSC_TOKEN_CHAIN) (a : alloc_stream)
  : outcome (option ANSC_TOKEN_CHAIN * alloc_stream) :=
  match ws with
  | [] => Done (Some chain, a)
  | w :: r =>
      let '(ok, a) := next_alloc a in
      if negb ok then Done (None, a)
      else if check && (ANSC_URI_PATH_SIZE <=? strlen w) then Done (None, a)
      else t ← token_copy w (strlen w); emit check r (chain ++ [t]) a
  end.

Lemma emit_app check ws1 ws2 chain a :
  emit check (ws1 ++ ws2) chain a =
    r ← emit check ws1 chain a;
    match r with (None, a) => Done (None, a) | (Some chain, a) => emit check ws2 chain a end.
Proof.
  revert chain a. induction ws1 as [|w ws1 IH]; intros chain a; [done|]. cbn [emit app].
  destruct (next_alloc a) as [[|] a1]; cbn [negb]; [|done].
  destruct (check && _); [done|].
  destruct (token_copy w (strlen w)) as [t|f]; cbn [mbind outcome_bind]; [apply IH|done].
Qed.

(** ** Scanning lemmas *)

Lemma deref_zero s : wf_cstr s -> (deref s =? 0) = bool_decide (s = []).
Proof.
  intros Hs. destruct Hs as [|c s Hc _]; [done|].
  rewrite bool_decide_false by done. apply Z.eqb_neq. cbn. lia.
Qed.

Lemma char_sep sep c : c ≠ 0 -> AnscCharInString sep c = true <-> c ∈ sep.
Proof. intros. rewrite AnscCharInString_nonzero by done. apply bool_decide_eq_true. Qed.

Lemma MoveToNext_spec s sep :
  wf_cstr s -> exists u, s = u ++ AnscMoveToNextToken s sep /\ Forall (.∈ sep) u /\
    (forall c, head (AnscMoveToNextToken s sep) = Some c -> c ∉ sep).
Proof.
  induction 1 as [|c s Hc Hs (u & E & Hu & Hh)]; cbn.
  - by exists [].
  - rewrite AnscCharInString_nonzero by lia. destruct (Z.eqb_spec c 0); [lia|]. cbn.
    rewrite andb_true_r. case_bool_decide as Hin.
    + exists (c :: u). cbn. rewrite <-E. repeat split; auto.
    + exists []. cbn. repeat split; auto. by intros ? [= ->].
Qed.

Lemma MoveToNext_id s sep :
  (forall c, head s = Some c -> c ∉ sep /\ c ≠ 0) -> AnscMoveToNextToken s sep = s.
Proof.
  destruct s as [|c s]; cbn; [done|]. intros H. destruct (H c eq_refl).
  rewrite AnscCharInString_nonzero by done. by rewrite bool_decide_false.
Qed.

Lemma SizeOfToken_from_app u r sep n k :
  wf_cstr u -> Forall (.∉ sep) u ->
  SizeOfToken_from (u ++ r) sep (length u + n) k = SizeOfToken_from r sep n (k + Zlen u).
Proof.
  intros Hwf Hu. revert k Hwf. induction Hu as [|c u Hc Hu IH]; intros k Hwf; cbn.
  - by rewrite Z.add_0_r.
  - inversion Hwf; subst. rewrite AnscCharInString_nonzero by lia.
    rewrite bool_decide_false by done. rewrite IH by done. f_equal. lia.
Qed.

(** The token at the front of a string is its longest separator-free prefix. *)
Lemma AnscSizeOfToken_spec s sep :
  wf_cstr s -> exists u r, s = u ++ r /\ Forall (.∉ sep) u /\
    (forall c, head r = Some c -> c ∈ sep) /\ AnscSizeOfToken s sep (strlen s) = Zlen u.
Proof.
  intros Hs.
  assert (exists u r, s = u ++ r /\ Forall (.∉ sep) u /\ (forall c, head r = Some c -> c ∈ sep))
    as (u & r & -> & Hu & Hr).
  { clear Hs. induction s as [|c s (u & r & -> & Hu & Hr)]; [by exists [], []|].
    destruct (decide (c ∈ sep)).
    - exists [], (c :: u ++ r). split_and!; [done|constructor|by intros ? [= ->]].
    - exists (c :: u), r. repeat split; auto. }
  exists u, r. repeat (split; [done|]). apply wf_cstr_app in Hs as [Hwu Hwr].
  unfold AnscSizeOfToken, strlen. rewrite Nat2Z.id, length_app, SizeOfToken_from_app by done.
  destruct r as [|c r]; cbn; [lia|].
  inversion Hwr; subst. rewrite AnscCharInString_nonzero by lia.
  rewrite bool_decide_true by (by apply Hr). lia.
Qed.

Lemma words_acc_app sep cur u r :
  Forall (.∉ sep) u -> words_acc sep cur (u ++ r) = words_acc sep (cur ++ u) r.
Proof.
  intros Hu. revert cur. induction Hu as [|c u Hc Hu IH]; intros cur; cbn.
  - by rewrite app_nil_r.
  - rewrite bool_decide_false by done. rewrite IH. by rewrite <-app_assoc.
Qed.

Lemma words_word sep u r :
  Forall (.∉ sep) u -> u ≠ [] -> (forall c, head r = Some c -> c ∈ sep) ->
  words sep (u ++ r) = u :: words sep r.
Proof.
  intros Hu Hne Hr. unfold words. rewrite words_acc_app by done. cbn.
  destruct r as [|c r]; cbn; [by destruct u|].
  rewrite bool_decide_true by by apply Hr. by destruct u.
Qed.

Lemma words_skip sep u r : Forall (.∈ sep) u -> words sep (u ++ r) = words sep r.
Proof.
  unfold words. induction 1 as [|c u Hc Hu IH]; cbn; [done|]. by rewrite bool_decide_true.
Qed.

Lemma words3_skip sep u r : Forall (.∈ sep) u -> words3 sep (u ++ r) = words3 sep r.
Proof.
  unfold words3. induction 1 as [|c u Hc Hu IH]; cbn; [done|]. by rewrite bool_decide_true.
Qed.

Lemma words3_word sep u r cur :
  Forall (.∉ sep) u -> (forall c, head r = Some c -> c ∈ sep) ->
  words3_acc sep (InWord cur) (u ++ r) = (cur ++ u) :: words3 sep r.
Proof.
  intros Hu Hr. revert cur. induction Hu as [|c u Hc Hu IH]; intros cur; cbn.
  - rewrite app_nil_r. destruct r as [|c r]; cbn; [done|].
    by rewrite bool_decide_true by by apply Hr.
  - rewrite bool_decide_false by done. rewrite IH. by rewrite <-app_assoc.
Qed.

Lemma words_nonempty sep s w : w ∈ words sep s -> w ≠ [] /\ Forall (.∉ sep) w.
Proof.
  unfold words. enough (Hgen : forall cur, Forall (.∉ sep) cur -> w ∈ words_acc sep cur s ->
    w ≠ [] /\ Forall (.∉ sep) w) by by apply Hgen.
  induction s as [|c s IH]; intros cur Hcur; cbn.
  - destruct cur as [|x cur]; cbn; [by intros ?%not_elem_of_nil|].
    intros Hw. apply list_elem_of_singleton in Hw as ->. by split.
  - case_bool_decide as Hc.
    + rewrite elem_of_app. intros [Hw|Hw]; [|by apply (IH [])].
      destruct cur as [|x cur]; cbn in Hw; [by apply not_elem_of_nil in Hw|].
      apply list_elem_of_singleton in Hw as ->. by split.
    + apply IH. by apply Forall_app_2; [|constructor].
Qed.

Lemma words_wf sep s w : wf_cstr s -> w ∈ words sep s -> wf_cstr w.
Proof.
  unfold words. intros Hs. enough (Hgen : forall cur, wf_cstr cur -> w ∈ words_acc sep cur s -> wf_cstr w).
  { apply Hgen. constructor. }
  induction Hs as [|c s Hc Hs IH]; intros cur Hcur; cbn.
  - destruct cur; [by intros ?%not_elem_of_nil|]. cbn. intros Hw.
    by apply list_elem_of_singleton in Hw as ->.
  - case_bool_decide.
    + rewrite elem_of_app. intros [Hw|Hw]; [|by apply (IH []); [constructor|]].
      destruct cur; cbn in Hw; [by apply not_elem_of_nil in Hw|].
      by apply list_elem_of_singleton in Hw as ->.
    + apply IH. apply wf_cstr_app. split; [done|]. apply Forall_singleton. lia.
Qed.

(** Words are not longer than the string. *)
Lemma words_length sep s w : w ∈ words sep s -> (length w <= length s)%nat.
Proof.
  unfold words. enough (Hgen : forall cur, w ∈ words_acc sep cur s -> (length w <= length cur + length s)%nat).
  { by apply Hgen. }
  induction s as [|c s IH]; intros cur; cbn.
  - destruct cur; [by intros ?%not_elem_of_nil|]. cbn. intros Hw.
    apply list_elem_of_singleton in Hw as ->. cbn. lia.
  - case_bool_decide.
    + rewrite elem_of_app. intros [Hw|Hw].
      * destruct cur; cbn in Hw; [by apply not_elem_of_nil in Hw|].
        apply list_elem_of_singleton in Hw as ->. cbn. lia.
      * apply IH in Hw. cbn in Hw. lia.
    + intros Hw. apply IH in Hw. rewrite length_app in Hw. cbn in Hw. lia.
Qed.

Lemma words_count sep s : (length (words sep s) <= length s)%nat.
Proof.
  unfold words. enough (Hgen : forall cur, (length (words_acc sep cur s) <= length cur + length s)%nat).
  { by apply Hgen. }
  induction s as [|c s IH]; intros cur; cbn.
  - destruct cur; cbn; lia.
  - case_bool_decide.
    + rewrite length_app. specialize (IH []). destruct cur; cbn in *; lia.
    + specialize (IH (cur ++ [c])). rewrite length_app in IH. cbn in IH. lia.
Qed.

(** ** The loop against a reference list of words *)

Section loop.
Context (size : cstr -> outcome Z)
  (body : cstr -> Z -> ANSC_TOKEN_CHAIN -> alloc_stream ->
          outcome (option ANSC_TOKEN_CHAIN * alloc_stream))
  (separator : cstr) (check : bool) (W : cstr -> list cstr).
Context (size_nil : size [] = Done 0) (W_nil : W [] = [])
  (W_skip : forall u r, Forall (.∈ separator) u -> W (u ++ r) = W r)
  (step : forall s, wf_cstr s -> s ≠ [] -> (forall c, head s = Some c -> c ∉ separator) ->
     exists n w, size s = Done n /\ 0 < n <= strlen s /\ W s = w ++ W (drop (Z.to_nat n) s) /\
       forall chain a, body s n chain a = emit check w chain a).

Lemma tc_loop_emit fuel total s n chain a :
    wf_cstr s -> (forall c, head s = Some c -> c ∉ separator) ->
    (length s < fuel)%nat -> strlen s <= total -> size s = Done n ->
    tc_loop size body separator fuel total s n chain a = emit check (W s) chain a.
Proof.
    revert s n chain a. induction fuel as [|k IH]; intros s n chain a Hs Hh Hf Ht Hn; [lia|].
    cbn [tc_loop]. rewrite deref_zero by done. case_bool_decide as E.
    { subst. by rewrite W_nil. }
    destruct (step s Hs E Hh) as (n' & w & Hn' & [Hpos Hle] & -> & Hb).
    rewrite Hn in Hn'. injection Hn' as <-.
    destruct (Z.eqb_spec n 0); [lia|].
    assert (0 < strlen s) by (unfold strlen in *; lia).
    destruct (Z.ltb_spec (total - strlen s) total); [|lia]. cbn [negb andb].
    rewrite Hb, emit_app. destruct (emit check w chain a) as [[[chain'|] a']|f]; cbn [mbind outcome_bind]; try done.
    set (d := drop (Z.to_nat n) s).
    assert (Hd : wf_cstr d) by (by apply Forall_drop).
    destruct (MoveToNext_spec d separator Hd) as (u & E' & Hu & Hh').
    assert (Hlen : (length (AnscMoveToNextToken d separator) <= length s - Z.to_nat n)%nat).
    { apply (f_equal length) in E'. rewrite length_app in E'. subst d.
      rewrite length_drop in E'. lia. }
    assert (Hwd : wf_cstr (AnscMoveToNextToken d separator)).
    { rewrite E' in Hd. by apply wf_cstr_app in Hd as [_ ?]. }
    assert (exists n', size (AnscMoveToNextToken d separator) = Done n') as [n' Hn'].
    { destruct (decide (AnscMoveToNextToken d separator = [])) as [->|Hne]; [eauto|].
      destruct (step _ Hwd Hne Hh') as (n' & ? & ? & _). eauto. }
    rewrite Hn'. cbn [mbind outcome_bind].
    rewrite IH; [|done|done| unfold strlen in *; lia | unfold strlen in *; lia|done].
    by rewrite <-(W_skip u _ Hu), <-E'.
Qed.

Lemma tc_allocate_emit s a :
    wf_cstr s ->
    tc_allocate size body separator (Some s) a =
      (let '(ok, a) := next_alloc a in
       if negb ok then Done (None, a) else emit check (W s) [] a).
Proof.
    intros Hs. unfold tc_allocate. destruct (next_alloc a) as [[|] a']; cbn [negb]; [|done].
    destruct (MoveToNext_spec s separator Hs) as (u & E & Hu & Hh).
    set (m := AnscMoveToNextToken s separator) in *.
    assert (Hm : wf_cstr m) by (rewrite E in Hs; by apply wf_cstr_app in Hs as [_ ?]).
    assert (HW : W s = W m) by by rewrite <-(W_skip u m Hu), <-E.
    rewrite deref_zero, HW by done. case_bool_decide as Em; [by rewrite Em, W_nil|].
    destruct (step m Hm Em Hh) as (n & w & Hn & [? ?] & _).
    rewrite Hn. cbn [mbind outcome_bind]. destruct (Z.eqb_spec n 0); [lia|].
    apply tc_loop_emit; try done; [lia|]. unfold strlen.
    apply (f_equal length) in E. rewrite length_app in E. lia.
Qed.
End loop.

(** ** Each scanner is the emission of its words *)

Lemma token_copy_prefix u r : token_copy (u ++ r) (Zlen u) = token_copy u (strlen u).
Proof. unfold token_copy, strlen. by rewrite Nat2Z.id, take_app_length, firstn_all. Qed.

(** The front token of a nonempty string that starts outside the separators. *)
Lemma front_token s sep :
  wf_cstr s -> s ≠ [] -> (forall c, head s = Some c -> c ∉ sep) ->
  exists u r, s = u ++ r /\ AnscSizeOfToken s sep (strlen s) = Zlen u /\
    0 < Zlen u <= strlen s /\ words sep s = u :: words sep r /\
    drop (Z.to_nat (Zlen u)) s = r /\ wf_cstr u /\ Forall (.∉ sep) u /\
    (forall c, head r = Some c -> c ∈ sep).
Proof.
  intros Hs Hne Hh. destruct (AnscSizeOfToken_spec s sep Hs) as (u & r & -> & Hu & Hr & Hn).
  assert (u ≠ []).
  { intros ->. cbn in Hh, Hne. destruct r as [|c r]; [done|]. by destruct (Hh c eq_refl (Hr c eq_refl)). }
  exists u, r. split_and!; try done.
  - destruct u; [done|cbn; lia].
  - unfold strlen. rewrite length_app. lia.
  - by apply words_word.
  - by rewrite Nat2Z.id, drop_app_length.
  - by apply wf_cstr_app in Hs as [? _].
Qed.

Lemma size_nil sep : AnscSizeOfToken [] sep (strlen []) = 0.
Proof. done. Qed.

Lemma AnscTcAllocate_emit s sep a :
  wf_cstr s ->
  AnscTcAllocate (Some s) sep a =
    (let '(ok, a) := next_alloc a in
     if negb ok then Done (None, a) else emit true (words sep s) [] a).
Proof.
  apply tc_allocate_emit; [done|done|by intros; apply words_skip|].
  clear. intros s Hs Hne Hh. destruct (front_token s sep Hs Hne Hh) as (u & r & -> & Hn & Hb & Hw & Hd & _).
  exists (Zlen u), [u]. rewrite Hn, Hd, Hw. do 3 (split; [done|]). intros chain a. cbn [emit].
  destruct (next_alloc a) as [[|] a']; cbn [negb]; [|done].
  rewrite token_copy_prefix. done.
Qed.

(** The words [AnscTcAllocate2] keeps: those over the alphabet. *)
Definition words2 (sep alphabet s : cstr) : list cstr :=
  filter (fun w => Forall (.∈ alphabet) w) (words sep s).

Lemma alphabet_only alphabet u :
  wf_cstr u -> forallb (AnscCharInString alphabet) u = bool_decide (Forall (.∈ alphabet) u).
Proof.
  induction 1 as [|c u Hc Hu IH]; [done|]. cbn [forallb]. rewrite IH, AnscCharInString_nonzero by lia.
  rewrite (bool_decide_ext (Forall _ (c :: u)) _ (Forall_cons _ _ _)).
  by rewrite bool_decide_and.
Qed.

Lemma AnscTcAllocate2_emit s sep alphabet a :
  wf_cstr s ->
  AnscTcAllocate2 (Some s) sep alphabet a =
    (let '(ok, a) := next_alloc a in
     if negb ok then Done (None, a) else emit false (words2 sep alphabet s) [] a).
Proof.
  apply tc_allocate_emit; [done|done|intros; unfold words2; by rewrite words_skip|].
  clear. intros s Hs Hne Hh.
  destruct (front_token s sep Hs Hne Hh) as (u & r & -> & Hn & Hb & Hw & Hd & Hwf & _).
  exists (Zlen u), (if bool_decide (Forall (.∈ alphabet) u) then [u] else []).
  rewrite Hn, Hd. unfold words2. rewrite Hw. split; [done|]. split; [done|]. split.
  { case_bool_decide; [by rewrite filter_cons_True | by rewrite filter_cons_False]. }
  intros chain a. rewrite Nat2Z.id, take_app_length, alphabet_only by done.
  case_bool_decide; [|done]. cbn [emit].
  destruct (next_alloc a) as [[|] a']; cbn [negb]; [|done].
  by rewrite token_copy_prefix.
Qed.

(** The scan for a closing quote. *)
Lemma quoted_from_closed u r n k :
  (34 ∉ u) -> quoted_from (u ++ 34 :: r) (length u + S n) k = Done (k + Zlen u + 1).
Proof.
  revert k. induction u as [|c u IH]; intros k Hu; cbn.
  - by rewrite Z.add_0_r.
  - apply not_elem_of_cons in Hu as [Hc Hu]. destruct (Z.eqb_spec c 34); [by subst|].
    rewrite IH by done. f_equal. lia.
Qed.

Lemma quoted_from_open u r k : (34 ∉ u) -> quoted_from (u ++ r) (length u) k = Done (k + Zlen u).
Proof.
  revert k. induction u as [|c u IH]; intros k Hu; cbn.
  - by rewrite Z.add_0_r.
  - apply not_elem_of_cons in Hu as [Hc Hu]. destruct (Z.eqb_spec c 34); [by subst|].
    rewrite IH by done. f_equal. lia.
Qed.

Lemma words3_quote_closed sep u r cur :
  34 ∉ u -> words3_acc sep (InQuote cur) (u ++ 34 :: r) = (cur ++ u) :: words3 sep r.
Proof.
  revert cur. induction u as [|c u IH]; intros cur Hu; cbn.
  - by rewrite app_nil_r.
  - apply not_elem_of_cons in Hu as [Hc Hu]. destruct (Z.eqb_spec c 34); [by subst|].
    rewrite IH by done. by rewrite <-app_assoc.
Qed.

Lemma words3_quote_open sep u cur :
  34 ∉ u -> words3_acc sep (InQuote cur) u = words3_acc sep (InQuote (cur ++ u)) [].
Proof.
  revert cur. induction u as [|c u IH]; intros cur Hu.
  - by rewrite app_nil_r.
  - apply not_elem_of_cons in Hu as [Hc Hu]. cbn [words3_acc].
    destruct (Z.eqb_spec c 34); [by subst|]. rewrite IH by done. by rewrite <-app_assoc.
Qed.

Lemma split_at_quote (s : cstr) : 34 ∉ s \/ exists u r, s = u ++ 34 :: r /\ 34 ∉ u.
Proof.
  destruct (decide (34 ∈ s)) as [H|]; [right|by left].
  apply list_elem_of_split_l in H as (u & r & -> & Hu). eauto.
Qed.

(** What the quoted scanner measures and copies at the front of a string. *)
Lemma front_token3 s sep :
  wf_cstr s -> s ≠ [] -> (forall c, head s = Some c -> c ∉ sep) ->
  exists n w, AnscSizeOfToken3 s sep (strlen s) = Done n /\ 0 < n <= strlen s /\
    words3 sep s = w :: words3 sep (drop (Z.to_nat n) s) /\
    (if (deref s =? 34) && (2 <=? n) then token_copy (tail s) (n - 2) else token_copy s n)
      = token_copy w (strlen w).
Proof.
  intros Hs Hne Hh. unfold AnscSizeOfToken3.
  destruct (front_token s sep Hs Hne Hh) as (u & r & E & Hn & Hb & _ & Hd & _ & Hu & Hr).
  destruct s as [|c s]; [done|]. change (deref (c :: s)) with c. cbn [tail].
  destruct (Z.eqb_spec c 34) as [->|Hc]; cbn [negb andb].
  2:{ rewrite Hn. exists (Zlen u), u. split_and!; [done|lia|lia| |by rewrite E, token_copy_prefix].
      rewrite Hd. destruct u as [|c' u]; [cbn in Hb; lia|]. injection E as <- ->.
      unfold words3. cbn [words3_acc app]. apply Forall_cons in Hu as [Hc' Hu].
      rewrite bool_decide_false by done. destruct (Z.eqb_spec c 34); [done|]. by apply words3_word. }
  assert (34 ∉ sep) by by apply Hh.
  assert (strlen (34 :: s) = Zlen s + 1) as Hlen by (unfold strlen; cbn; lia). rewrite Hlen.
  destruct (Z.ltb_spec 0 (Zlen s + 1)); [|lia].
  replace (Z.to_nat (Zlen s + 1 - 1)) with (length s) by lia.
  unfold words3. cbn [words3_acc]. rewrite bool_decide_false by done. cbn [Z.eqb Pos.eqb].
  destruct (split_at_quote s) as [Hq|(q & t & -> & Hq)].
  - rewrite quoted_from_open by done. rewrite words3_quote_open by done. cbn [app].
    exists (1 + Zlen s), (match s with [] => [34] | _ => take (length s - 1) s end).
    replace (Z.to_nat (1 + Zlen s)) with (S (length s)) by lia. cbn [drop]. rewrite drop_all.
    split_and!; [done|lia|lia| |].
    + by destruct s.
    + destruct s as [|d s]; [done|]. destruct (Z.leb_spec 2 (1 + Zlen (d :: s))); [|cbn in *; lia].
      unfold token_copy, strlen. do 2 f_equal. rewrite length_take.
      replace (Z.to_nat (1 + Zlen (d :: s) - 2)) with (length (d :: s) - 1)%nat by lia.
      rewrite take_take. f_equal. lia.
  - rewrite length_app, <-app_assoc. cbn [length app]. rewrite quoted_from_closed by done.
    rewrite words3_quote_closed by done. cbn [app]. exists (1 + Zlen q + 1), q.
    split_and!; [done|lia|lia| |].
    + f_equal. unfold words3. f_equal.
      replace (Z.to_nat (1 + Zlen q + 1)) with (S (length q + 1)) by lia. cbn [drop].
      by rewrite <-drop_drop, drop_app_length.
    + destruct (Z.leb_spec 2 (1 + Zlen q + 1)); [|lia].
      replace (1 + Zlen q + 1 - 2) with (Zlen q) by lia. apply token_copy_prefix.
Qed.

Lemma AnscTcAllocate3_emit s sep a :
  wf_cstr s ->
  AnscTcAllocate3 (Some s) sep a =
    (let '(ok, a) := next_alloc a in
     if negb ok then Done (None, a) else emit false (words3 sep s) [] a).
Proof.
  apply tc_allocate_emit; [done|done|by intros; apply words3_skip|].
  clear. intros s Hs Hne Hh. destruct (front_token3 s sep Hs Hne Hh) as (n & w & Hn & Hb & Hw & Hc).
  exists n, [w]. do 3 (split; [done|]). intros chain a. cbn [emit].
  destruct (next_alloc a) as [[|] a']; cbn [negb]; [|done]. by rewrite Hc.
Qed.

Lemma AnscSetTokenChain_emit chain s sep a :
  wf_cstr s ->
  AnscSetTokenChain (Some chain) (Some s) sep a =
    if bool_decide (words sep s = []) then Done (ANSC_STATUS_UNAPPLICABLE, Some [], a)
    else
      r ← emit false (words sep s) [] a;
      Done (match r with
            | (None, a) => (ANSC_STATUS_UNAPPLICABLE, Some [], a)
            | (Some chain, a) => (ANSC_STATUS_SUCCESS, Some chain, a)
            end).
Proof.
  intros Hs. unfold AnscSetTokenChain.
  destruct (MoveToNext_spec s sep Hs) as (u & E & Hu & Hh).
  set (m := AnscMoveToNextToken s sep) in *.
  assert (Hm : wf_cstr m) by (rewrite E in Hs; by apply wf_cstr_app in Hs as [_ ?]).
  assert (HW : words sep s = words sep m) by by rewrite <-(words_skip sep u m Hu), <-E.
  rewrite HW. destruct (decide (m = [])) as [->|Hne]; [done|].
  destruct (front_token m sep Hm Hne Hh) as (v & r & Em & Hn & Hb & Hw & _).
  rewrite Hn. destruct (Z.eqb_spec (Zlen v) 0); [lia|].
  rewrite (bool_decide_false (words sep m = [])) by by rewrite Hw.
  rewrite <-Hn, (tc_loop_emit _ _ _ false (words sep)).
  - by destruct (emit false (words sep m) [] a) as [[[?|] ?]|].
  - done.
  - done.
  - intros. by apply words_skip.
  - clear. intros s Hs Hne Hh. destruct (front_token s sep Hs Hne Hh) as (u & r & -> & Hn & Hb & Hw & Hd & _).
    exists (Zlen u), [u]. rewrite Hn, Hd, Hw. do 3 (split; [done|]). intros chain a. cbn [emit].
    destruct (next_alloc a) as [[|] a']; cbn [negb]; [|done]. by rewrite token_copy_prefix.
  - done.
  - done.
  - lia.
  - unfold strlen. apply (f_equal length) in E. rewrite length_app in E. lia.
  - done.
Qed.

(** ** What emission yields *)

Definition fits (w : cstr) : Prop := strlen w < ANSC_URI_PATH_SIZE.
#[export] Instance fits_dec w : Decision (fits w) := Z_lt_dec _ _.

Lemma fits_leb w : (ANSC_URI_PATH_SIZE <=? strlen w) = negb (bool_decide (fits w)).
Proof.
  unfold fits. destruct (Z.leb_spec ANSC_URI_PATH_SIZE (strlen w)).
  - by rewrite bool_decide_false by lia.
  - by rewrite bool_decide_true by lia.
Qed.

Lemma token_copy_fits w : fits w -> token_copy w (strlen w) = Done (token_of w).
Proof.
  unfold fits, token_copy, token_of, strlen, ANSC_URI_PATH_SIZE. intros Hw.
  rewrite Nat2Z.id, firstn_all. set (m := Z.to_nat 512).
  assert (m = (length w + (m - length w))%nat) as E by lia. rewrite E at 1.
  rewrite replicate_add.
  pose proof (buf_copy_at [] (replicate (length w) 0) (replicate (m - length w) 0) w 0) as Hc.
  cbn [app] in Hc. by rewrite Hc by (rewrite ?length_replicate; done).
Qed.

Lemma token_copy_overflow w : ANSC_URI_PATH_SIZE < strlen w -> token_copy w (strlen w) = Stuck OutOfBounds.
Proof.
  unfold token_copy, buf_copy, strlen. intros Hw. rewrite Nat2Z.id, firstn_all, length_replicate.
  destruct (Z.leb_spec (0 + Zlen w) (Z.of_nat (Z.to_nat ANSC_URI_PATH_SIZE))); [|done].
  unfold ANSC_URI_PATH_SIZE in *. lia.
Qed.

Lemma token_name_of w : wf_cstr w -> fits w -> token_name (token_of w) = Done w.
Proof.
  unfold fits, strlen, token_name, token_of. intros Hw Hf. cbn [Name].
  destruct (Z.to_nat ANSC_URI_PATH_SIZE - length w)%nat as [|k] eqn:E.
  - unfold ANSC_URI_PATH_SIZE in *. lia.
  - cbn [replicate]. by rewrite buf_cstr_app.
Qed.

(** The checked emission: all words must fit and all allocations succeed. *)
Lemma emit_checked ws chain a :
  exists a', emit true ws chain a =
    Done (if bool_decide (Forall fits ws) && forallb id (take (length ws) a)
          then Some (chain ++ (token_of <$> ws)) else None, a').
Proof.
  revert chain a. induction ws as [|w ws IH]; intros chain a; cbn [emit].
  - exists a. by rewrite app_nil_r.
  - rewrite (bool_decide_ext (Forall fits (w :: ws)) _ (Forall_cons _ _ _)), bool_decide_and.
    rewrite fits_leb. destruct a as [|ok a]; cbn [next_alloc negb andb].
    + destruct (bool_decide (fits w)) eqn:Hw; cbn [negb andb]; [|by eexists].
      apply bool_decide_eq_true in Hw. rewrite token_copy_fits by done. cbn [mbind outcome_bind].
      destruct (IH (chain ++ [token_of w]) []) as [a' ->]. exists a'.
      rewrite take_nil, <-app_assoc. done.
    + cbn [length take forallb id]. destruct ok; cbn [negb andb id].
      2:{ rewrite andb_false_r. by eexists. }
      destruct (bool_decide (fits w)) eqn:Hw; cbn [negb andb]; [|by eexists].
      apply bool_decide_eq_true in Hw. rewrite token_copy_fits by done. cbn [mbind outcome_bind].
      destruct (IH (chain ++ [token_of w]) a) as [a' ->]. exists a'. by rewrite <-app_assoc.
Qed.

Lemma emit_fits check ws chain :
  Forall fits ws -> emit check ws chain [] = Done (Some (chain ++ (token_of <$> ws)), []).
Proof.
  intros Hws. revert chain. induction Hws as [|w ws Hw Hws IH]; intros chain; cbn [emit].
  - by rewrite app_nil_r.
  - cbn [next_alloc negb]. rewrite fits_leb, bool_decide_true, andb_false_r by done.
    rewrite token_copy_fits by done. cbn [mbind outcome_bind].
    rewrite IH. by rewrite <-app_assoc.
Qed.

Lemma emit_overflow ws chain w rest :
  Forall fits ws -> ANSC_URI_PATH_SIZE < strlen w ->
  emit false (ws ++ w :: rest) chain [] = Stuck OutOfBounds.
Proof.
  intros Hws Hw. rewrite emit_app, emit_fits by done. cbn [mbind outcome_bind emit].
  cbn [next_alloc negb andb]. by rewrite token_copy_overflow.
Qed.

(** The text [AnscGetTokenChain] writes: each word followed by the first
    separator. *)
Definition joined (sep : cstr) (ws : list cstr) : cstr := mjoin ((fun w => w ++ [deref sep]) <$> ws).

Lemma joined_cons sep w ws : joined sep (w :: ws) = (w ++ [deref sep]) ++ joined sep ws.
Proof. done. Qed.

Lemma GetTokenChain_from_spec ws sep pre buf :
  Forall wf_cstr ws -> Forall fits ws -> (length (joined sep ws) <= length buf)%nat ->
  GetTokenChain_from (token_of <$> ws) (pre ++ buf) sep (Zlen pre) =
    Done (pre ++ joined sep ws ++ drop (length (joined sep ws)) buf).
Proof.
  intros Hwf Hf. revert pre buf. induction Hwf as [|w ws Hw Hwf IH]; intros pre buf Hl; cbn.
  - by rewrite drop_0.
  - apply Forall_cons in Hf as [Hfw Hf].
    change (joined sep (w :: ws)) with ((w ++ [deref sep]) ++ joined sep ws) in *.
    rewrite !length_app in Hl. cbn [length] in Hl.
    rewrite token_name_of by done. cbn [mbind outcome_bind].
    assert (Hsplit : buf = take (length w + 1) buf ++ drop (length w + 1) buf) by by rewrite take_drop.
    rewrite Hsplit at 1.
    rewrite (buf_copy_at pre (take (length w + 1) buf)) by
      (rewrite ?length_app, ?length_take; cbn [length]; lia).
    cbn [mbind outcome_bind]. rewrite <-app_assoc. cbn [app]. rewrite app_assoc.
    rewrite buf_put_at by (rewrite length_app; unfold strlen; lia). cbn [mbind outcome_bind].
    replace ((pre ++ w) ++ deref sep :: drop (length w + 1) buf)
      with ((pre ++ w ++ [deref sep]) ++ drop (length w + 1) buf) by by rewrite <-!app_assoc.
    replace (Zlen pre + strlen w + 1) with (Zlen (pre ++ w ++ [deref sep]))
      by (rewrite !length_app; unfold strlen; cbn [length]; lia).
    rewrite IH by (try done; rewrite length_drop; lia).
    fold (joined sep ws). rewrite drop_drop, <-!app_assoc. do 6 f_equal.
    rewrite !length_app. cbn [length]. by rewrite <-Nat.add_assoc.
Qed.

(** Splitting joined words gives the words back. *)
Lemma words_joined sep ws :
  sep ≠ [] -> Forall (fun w => w ≠ [] /\ Forall (.∉ sep) w) ws -> words sep (joined sep ws) = ws.
Proof.
  intros Hsep. assert (Hd : deref sep ∈ sep) by (destruct sep; [done|left]).
  induction 1 as [|w ws [Hne Hw] Hws IH]; [done|].
  change (joined sep (w :: ws)) with ((w ++ [deref sep]) ++ joined sep ws).
  rewrite <-app_assoc. cbn [app]. rewrite words_word; [|done|done|by intros ? [= <-]].
  f_equal. pose proof (words_skip sep [deref sep] (joined sep ws)) as Hskip. cbn [app] in Hskip.
  rewrite Hskip; [done|]. by constructor.
Qed.

Lemma AnscTcGetLength_spec `{Platform} ws :
  Forall wf_cstr ws -> Forall fits ws ->
  AnscTcGetLength (token_of <$> ws) = Done (ULONG (foldr (fun w n => strlen w + 1 + n) 0 ws)).
Proof.
  intros Hwf Hf. unfold AnscTcGetLength.
  enough (Hgen : forall k, foldl (fun r t => ulStringLen ← r; s ← token_name t;
           Done (ULONG (ULONG (ulStringLen + strlen s) + 1))) (Done (ULONG k)) (token_of <$> ws) =
     Done (ULONG (k + foldr (fun w n => strlen w + 1 + n) 0 ws))).
  { specialize (Hgen 0). by rewrite (ULONG_small32 0) in Hgen by lia. }
  induction Hwf as [|w ws Hw Hwf IH]; intros k; cbn; [by rewrite Z.add_0_r|].
  apply Forall_cons in Hf as [Hfw Hf]. rewrite token_name_of by done. cbn [mbind outcome_bind].
  rewrite ULONG_add_l, <-Z.add_assoc, ULONG_add_l, IH by done. do 2 f_equal. lia.
Qed.

Lemma DelTokenChain_loop_spec fuel chain freed t :
  (length chain < fuel)%nat ->
  DelTokenChain_loop (S fuel) (Some t) chain freed = (freed ++ t :: chain, []).
Proof.
  revert chain freed t. induction fuel as [|k IH]; intros chain freed t Hl; [lia|].
  change (DelTokenChain_loop (S (S k)) (Some t) chain freed) with
    (DelTokenChain_loop (S k) (head chain) (tail chain) (freed ++ [t])).
  destruct chain as [|t' chain]; cbn [head tail]; [by cbn|].
  rewrite IH by (cbn in Hl; lia). by rewrite <-app_assoc.
Qed.

(** ** Properties *)

(** [AnscTcAllocate] splits: whatever the outcomes of its allocations, it
    completes, and its result is the chain of the maximal separator-free words
    of the string, in order, each in a zeroed name buffer, when the chain and
    all tokens could be allocated and no word has 512 bytes or more; otherwise
    it is NULL. *)
Theorem AnscTcAllocate_words s sep a (Hs : wf_cstr s) :
  exists a', AnscTcAllocate (Some s) sep a =
    Done (if bool_decide (Forall fits (words sep s)) && forallb id (take (S (length (words sep s))) a)
          then Some (token_of <$> words sep s) else None, a').
Proof.
  rewrite AnscTcAllocate_emit by done. destruct a as [|[|] a]; cbn [next_alloc negb take forallb id andb].
  - destruct (emit_checked (words sep s) [] []) as [a' ->]. exists a'. by rewrite take_nil.
  - destruct (emit_checked (words sep s) [] a) as [a' ->]. by exists a'.
  - rewrite andb_false_r. by eexists.
Qed.

Theorem AnscTcAllocate_words_witness :
  wf_cstr (lit "Device..WiFi.") /\
  exists a', AnscTcAllocate (Some (lit "Device..WiFi.")) (lit ".") [true; true; true] =
    Done (if bool_decide (Forall fits (words (lit ".") (lit "Device..WiFi.")))
             && forallb id (take (S (length (words (lit ".") (lit "Device..WiFi.")))) [true; true; true])
          then Some (token_of <$> words (lit ".") (lit "Device..WiFi.")) else None, a').
Proof.
  assert (H : wf_cstr (lit "Device..WiFi.")) by (repeat constructor; lia).
  split; [exact H|]. apply (AnscTcAllocate_words (lit "Device..WiFi.") (lit ".")). exact H.
Defined.

(** Joining and splitting: [AnscGetTokenChain] writes each name followed by
    the first separator into a destination that has [AnscTcGetLength] bytes,
    and leaves the rest alone; when that rest is zero the written string, given
    back to [AnscTcAllocate], yields the same chain, provided the names are
    nonempty, without separators and short enough. *)
Theorem token_chain_round_trip `{Platform} sep ws rest
  (Hsep : sep ≠ []) (Hsepwf : wf_cstr sep)
  (Hws : Forall (fun w => w ≠ [] /\ wf_cstr w /\ Forall (.∉ sep) w /\ fits w) ws)
  (Hlen : Zlen (joined sep ws) < 2 ^ ulong_bits) :
  let chain := token_of <$> ws in
  AnscTcGetLength chain = Done (Zlen (joined sep ws)) /\
  forall old, length old = length (joined sep ws) ->
    AnscGetTokenChain chain (old ++ 0 :: rest) sep = Done (joined sep ws ++ 0 :: rest) /\
    buf_cstr (joined sep ws ++ 0 :: rest) = Some (joined sep ws) /\
    AnscTcAllocate (Some (joined sep ws)) sep [] = Done (Some chain, []).
Proof.
  intros chain.
  assert (Forall wf_cstr ws /\ Forall fits ws /\ Forall (fun w => w ≠ [] /\ Forall (.∉ sep) w) ws)
    as (Hwf & Hf & Hne).
  { split_and!; (eapply Forall_impl; [exact Hws|]); cbn; tauto. }
  assert (Hj : wf_cstr (joined sep ws)).
  { unfold joined. apply Forall_join. apply Forall_fmap. eapply Forall_impl; [exact Hwf|].
    intros w Hw. cbn. apply Forall_app_2; [done|]. constructor; [|constructor].
    destruct sep as [|c sep]; [done|]. by inversion Hsepwf. }
  split.
  { unfold chain. rewrite AnscTcGetLength_spec by done. f_equal.
    assert (Hsum : foldr (fun w n => strlen w + 1 + n) 0 ws = Zlen (joined sep ws)).
    { clear. induction ws as [|w ws IH]; [done|]. cbn [foldr].
      rewrite IH, joined_cons, !length_app. unfold strlen. cbn [length]. lia. }
    rewrite Hsum. apply ULONG_small. lia. }
  intros old Hold. split_and!.
  - unfold AnscGetTokenChain, chain.
    pose proof (GetTokenChain_from_spec ws sep [] (old ++ 0 :: rest) Hwf Hf) as E.
    cbn [app length] in E. change (Z.of_nat 0) with 0 in E. rewrite E.
    + by rewrite <-Hold, drop_app_length.
    + rewrite length_app. lia.
  - by apply buf_cstr_app.
  - rewrite AnscTcAllocate_emit by done. cbn [next_alloc negb].
    rewrite words_joined by done.
    by apply emit_fits.
Qed.

Theorem token_chain_round_trip_witness :
  let _ := ilp32 in
  let ws := [lit "Device"; lit "WiFi"] in
  AnscTcGetLength (token_of <$> ws) = Done (Zlen (joined (lit ".") ws)) /\
  forall old, length old = length (joined (lit ".") ws) ->
    AnscGetTokenChain (token_of <$> ws) (old ++ 0 :: []) (lit ".") = Done (joined (lit ".") ws ++ 0 :: []) /\
    buf_cstr (joined (lit ".") ws ++ 0 :: []) = Some (joined (lit ".") ws) /\
    AnscTcAllocate (Some (joined (lit ".") ws)) (lit ".") [] = Done (Some (token_of <$> ws), []).
Proof.
  cbn zeta. apply (@token_chain_round_trip ilp32); [done| |  | by vm_compute].
  - repeat constructor; lia.
  - repeat constructor; try lia; try done;
      intros H; repeat (apply elem_of_cons in H as [H|H]; [discriminate|]);
      by apply not_elem_of_nil in H.
Defined.

(** [AnscTcAllocate3], which keeps quoted text together, yields the words of
    the quoting scanner: a token that opens with a double quote runs to the next
    one, separators included, and loses its quotes; but when the closing quote
    is missing its last byte is lost with the opening quote. *)
Theorem AnscTcAllocate3_words s sep
  (Hs : wf_cstr s) (Hfit : Forall fits (words3 sep s)) :
  AnscTcAllocate3 (Some s) sep [] = Done (Some (token_of <$> words3 sep s), []).
Proof.
  rewrite AnscTcAllocate3_emit by done. cbn [next_alloc negb]. by rewrite emit_fits.
Qed.

Theorem AnscTcAllocate3_words_witness :
  let s := [32; 34; 97; 32; 98; 34; 32; 99; 32; 34; 100; 101; 102] in
  words3 [32] s = [[97; 32; 98]; [99]; [100; 101]] /\
  AnscTcAllocate3 (Some s) [32] [] = Done (Some (token_of <$> words3 [32] s), []).
Proof.
  cbn zeta. split; [reflexivity|]. apply AnscTcAllocate3_words.
  - repeat constructor; lia.
  - repeat constructor; by vm_compute.
Defined.

(** The other scanners do not check the length of a token: the first word of
    more than 512 bytes makes [AnscTcAllocate2], [AnscTcAllocate3] and
    [AnscSetTokenChain] write past the name buffer of the token, where
    [AnscTcAllocate] returns NULL. *)
Theorem unchecked_token_overflow s sep alphabet ws w rest
  (Hs : wf_cstr s) (Hw : words sep s = ws ++ w :: rest)
  (Hfit : Forall fits ws) (Hlong : ANSC_URI_PATH_SIZE < strlen w)
  (Halpha : Forall (.∈ alphabet) w) (Hquote : words3 sep s = words sep s) chain :
  AnscTcAllocate (Some s) sep [] = Done (None, []) /\
  AnscTcAllocate2 (Some s) sep alphabet [] = Stuck OutOfBounds /\
  AnscTcAllocate3 (Some s) sep [] = Stuck OutOfBounds /\
  AnscSetTokenChain (Some chain) (Some s) sep [] = Stuck OutOfBounds.
Proof.
  rewrite AnscTcAllocate_emit, AnscTcAllocate2_emit, AnscTcAllocate3_emit, AnscSetTokenChain_emit by done.
  cbn [next_alloc negb]. rewrite Hquote. unfold words2. rewrite !Hw, filter_app, filter_cons_True by done.
  assert (Hfit2 : Forall fits (filter (fun w => Forall (.∈ alphabet) w) ws)).
  { apply Forall_forall. intros x [_ Hx]%list_elem_of_filter. by eapply Forall_forall in Hfit. }
  rewrite !emit_overflow by done.
  split_and!; [|done|done|].
  - rewrite emit_app.
    rewrite emit_fits by done. cbn [mbind outcome_bind emit next_alloc negb andb].
    rewrite fits_leb, bool_decide_false by (unfold fits; lia). done.
  - rewrite bool_decide_false by by destruct ws. done.
Qed.

Theorem unchecked_token_overflow_witness :
  let s := replicate 600 97 in
  AnscTcAllocate (Some s) [46] [] = Done (None, []) /\
  AnscTcAllocate2 (Some s) [46] [97] [] = Stuck OutOfBounds /\
  AnscTcAllocate3 (Some s) [46] [] = Stuck OutOfBounds /\
  AnscSetTokenChain (Some []) (Some s) [46] [] = Stuck OutOfBounds.
Proof.
  cbn zeta. apply (unchecked_token_overflow (replicate 600 97) [46] [97] [] (replicate 600 97) []).
  - apply Forall_replicate. lia.
  - by vm_compute.
  - constructor.
  - by vm_compute.
  - apply Forall_replicate. left.
  - by vm_compute.
Defined.

(** Releasing a chain frees every token exactly once, in chain order, and
    leaves the chain empty; popping takes the tokens from the front. *)
Theorem AnscDelTokenChain_spec chain :
  AnscDelTokenChain chain = (chain, []) /\ AnscTcFree chain = chain /\
  AnscTcPopToken chain = (head chain, tail chain).
Proof.
  assert (E : AnscDelTokenChain chain = (chain, [])).
  { unfold AnscDelTokenChain. destruct chain as [|t chain]; [done|]. cbn [AnscTcPopToken head tail].
    cbn [length]. by rewrite DelTokenChain_loop_spec by lia. }
  unfold AnscTcFree. by rewrite E.
Qed.
