(* ===== verification/IpAddr.v ===== *)
(** * Internet addresses as strings (the address part of [ansc_string.c])

    Recognizing dotted IPv4 addresses, parsing IPv6 addresses and printing
    them.  [inet_addr] of the C library converts a dotted address that was
    recognized; it is a parameter that yields the four bytes of the address. *)

From S2P Require Import Prelude CStrings Tokens.
Open Scope Z_scope.

(** ** IPv4 *)

Definition AnscIsDigit (c : Z) : bool := (48 <=? c) && (c <=? 57).

(** [atoi] of the C library: white space, a sign, then digits. *)
Fixpoint atoi_digits (s : cstr) (acc : Z) : Z :=
  match s with
  | c :: r => if AnscIsDigit c then atoi_digits r (acc * 10 + (c - 48)) else acc
  | [] => acc
  end.
Fixpoint atoi (s : cstr) : Z :=
  match s with
  | [] => 0
  | c :: r =>
      if (c =? 32) || ((9 <=? c) && (c <=? 13)) then atoi r
      else if c =? 45 then - atoi_digits r 0
      else if c =? 43 then atoi_digits r 0
      else atoi_digits s 0
  end.

(** [strtol]: a number that does not fit is clipped. *)
Definition atol `{Platform} (s : cstr) : Z :=
  Z.max (- 2 ^ (ulong_bits - 1)) (Z.min (2 ^ (ulong_bits - 1) - 1) (atoi s)).

(** [atoll]: a [long long] has 64 bits; a number that does not fit is clipped. *)
Definition atoll (s : cstr) : Z := Z.max (- 2 ^ 63) (Z.min (2 ^ 63 - 1) (atoi s)).

(** [while ( (pToken = AnscTcPopToken(pTokenChain)) )] *)
Fixpoint IsValidIpString_loop (chain : ANSC_TOKEN_CHAIN) : outcome bool :=
  match chain with
  | [] => Done true
  | pToken :: chain' =>
      s ← token_name pToken;
      if 3 <? strlen s then Done false
      else if negb (forallb AnscIsDigit s) then Done false
      else if 255 <? atoi s then Done false
      else IsValidIpString_loop chain'
  end.

Definition AnscIsValidIpString (ip_addr_string : option cstr) (a : alloc_stream) : outcome bool :=
  match ip_addr_string with
  | None => Done false
  | Some s =>
      if (strlen s =? 0) || (16 <=? strlen s) then Done false
      else
        r ← AnscTcAllocate (Some s) [46] a;
        match fst r with
        | None => Done false
        | Some chain =>
            if negb (USHORT (Zlen chain) =? 4) then Done false
            else IsValidIpString_loop chain
        end
  end.

(** ** IPv6 *)

Definition IPV6_ADDRESS_SIZE : Z := 16.
Definition IPV4_ADDRESS_SIZE : Z := 4.

(** [_ansc_strchr(xdigits, ch) - xdigits] *)
Definition xdigit (ch : Z) : option Z :=
  if (48 <=? ch) && (ch <=? 57) then Some (ch - 48)
  else if (97 <=? ch) && (ch <=? 102) then Some (ch - 87)
  else None.

Record ip6_state := Ip6 {
  curtok : list Z;
  saw_xdigit : bool;
  val : Z;
  tp : Z;
  tmp : list Z;
  colonp : option Z
}.

Section ip6.
Variable inet_addr : cstr -> list Z.

(** The scanning loop.  [src] is the memory from the scanning pointer on.  None
    stands for [return FALSE] inside the loop. *)
Fixpoint ip6_loop (src : list Z) (st : ip6_state) (a : alloc_stream) : outcome (option ip6_state) :=
  match src with
  | [] => Stuck OutOfBounds
  | c :: src =>
      let ch := tolower c in
      if ch =? 0 then Done (Some st)
      else
        match xdigit ch with
        | Some d =>
            let v := Z.lor (Z.shiftl (val st) 4) d in
            if 65535 <? v then Done None
            else ip6_loop src (Ip6 (curtok st) true v (tp st) (tmp st) (colonp st)) a
        | None =>
            if ch =? 58 then
              if negb (saw_xdigit st) then
                match colonp st with
                | Some _ => Done None
                | None => ip6_loop src (Ip6 src false (val st) (tp st) (tmp st) (Some (tp st))) a
                end
              else
                n ← buf_get src 0;
                if n =? 0 then Done None
                else if IPV6_ADDRESS_SIZE <? tp st + 2 then Done None
                else
                  t ← buf_put (tmp st) (tp st) (Z.land (UCHAR (Z.shiftr (val st) 8)) 255);
                  t ← buf_put t (tp st + 1) (Z.land (UCHAR (val st)) 255);
                  ip6_loop src (Ip6 src false 0 (tp st + 2) t (colonp st)) a
            else if (ch =? 46) && (tp st + IPV4_ADDRESS_SIZE <=? IPV6_ADDRESS_SIZE) then
              match buf_cstr (curtok st) with
              | None => Stuck OutOfBounds
              | Some s =>
                  ok ← AnscIsValidIpString (Some s) a;
                  if (ok : bool) then
                    t ← buf_copy (tmp st) (tp st) (inet_addr s);
                    Done (Some (Ip6 (curtok st) false (val st) (tp st + IPV4_ADDRESS_SIZE) t (colonp st)))
                  else Done None
              end
            else Done None
        end
  end.

(** After the loop: the last group, then the shift that opens the gap of a
    double colon. *)
Definition ip6_finish (st : ip6_state) : outcome (option (list Z)) :=
  r ← (if saw_xdigit st then
         if IPV6_ADDRESS_SIZE <? tp st + 2 then Done None
         else
           t ← buf_put (tmp st) (tp st) (Z.land (UCHAR (Z.shiftr (val st) 8)) 255);
           t ← buf_put t (tp st + 1) (Z.land (UCHAR (val st)) 255);
           Done (Some (tp st + 2, t))
       else Done (Some (tp st, tmp st)));
  match r with
  | None => Done None
  | Some (tp, tmp) =>
      r ← match colonp st with
          | None => Done (Some (tp, tmp))
          | Some colonp =>
              let n := tp - colonp in
              if tp =? IPV6_ADDRESS_SIZE then Done None
              else
                t ← for_from 1 (Z.to_nat n) (fun i t =>
                  b ← buf_get t (colonp + (n - i));
                  t ← buf_put t (IPV6_ADDRESS_SIZE - i) b;
                  buf_put t (colonp + (n - i)) 0) tmp;
                Done (Some (IPV6_ADDRESS_SIZE, t))
          end;
      match r with
      | None => Done None
      | Some (tp, tmp) => if negb (tp =? IPV6_ADDRESS_SIZE) then Done None else Done (Some tmp)
      end
  end.

(** The sixteen bytes of the address, or None for FALSE. *)
Definition AnscParseIp6Address (ip6_addr : cstr) (a : alloc_stream) : outcome (option (list Z)) :=
  if bool_decide (ip6_addr = [58; 58]) then Done (Some (replicate 16 0))
  else if (deref ip6_addr =? 58) && negb (deref (tail ip6_addr) =? 58) then Done None
  else
    let tmp := replicate 16 0 in
    let start := fun src =>
      r ← ip6_loop src (Ip6 src false 0 0 tmp None) a;
      match r with None => Done None | Some st => ip6_finish st end in
    if bool_decide (take 2 ip6_addr = [58; 58]) then
      (* memcpy_s of the string, without its terminator, behind a '0' *)
      if 127 <? strlen ip6_addr then Done None
      else
        tmpIp6 ← buf_copy (48 :: replicate 127 0) 1 ip6_addr;
        start tmpIp6
    else start (ip6_addr ++ [0]).

Definition AnscIsValidIp6String (ip6_addr_string : cstr) (a : alloc_stream) : outcome bool :=
  r ← AnscParseIp6Address ip6_addr_string a;
  Done (match r with Some _ => true | None => false end).

End ip6.

(** [sprintf] of one byte with "%02X". *)
Definition fmt_02X (b : Z) : cstr := hex_char false <$> [b / 16; b mod 16].

Definition ip6_group (i hi lo : Z) : cstr :=
  (if i =? 0 then [] else [58]) ++
  (if (hi =? 0) && (lo =? 0) then [48]
   else if hi =? 0 then fmt_02X lo
   else fmt_02X hi ++ fmt_02X lo).

Fixpoint ip6_print (i : Z) (bytes : list Z) (var_string : cstr) : cstr :=
  match bytes with
  | hi :: lo :: rest => ip6_print (i + 2) rest (var_string ++ ip6_group i hi lo)
  | _ => var_string
  end.

Definition AnscIp6AddressToString (ipAddrArray : option (list Z)) (a : alloc_stream)
  : option cstr * alloc_stream :=
  match ipAddrArray with
  | None => AnscCloneString (Some [58; 58]) a
  | Some bytes =>
      let bNonZero := existsb (fun b => negb (b =? 0)) bytes in
      if negb bNonZero then AnscCloneString (Some [58; 58]) a
      else
        let '(ok, a) := next_alloc a in
        (if ok then Some (ip6_print 0 bytes []) else None, a)
  end.

(** ** Dotted addresses *)

(** An octet: one to three digits, at most 255. *)
Definition octet (w : cstr) : Prop :=
  strlen w <= 3 /\ Forall is_digit w /\ dec_value w <= 255.

Lemma AnscIsDigit_spec c : AnscIsDigit c = true <-> is_digit c.
Proof. unfold AnscIsDigit, is_digit. rewrite andb_true_iff, !Z.leb_le. done. Qed.

Lemma atoi_digits_spec s acc : Forall is_digit s -> atoi_digits s acc = foldl (fun a c => a * 10 + (c - 48)) acc s.
Proof.
  intros Hs. revert acc. induction Hs as [|c s Hc Hs IH]; intros acc; cbn; [done|].
  by rewrite (proj2 (AnscIsDigit_spec c)).
Qed.

Lemma atoi_digit_string s : Forall is_digit s -> atoi s = dec_value s.
Proof.
  intros Hs. destruct s as [|c s]; [done|]. cbn [atoi].
  assert (Hc' : is_digit c) by by inversion Hs. unfold is_digit in Hc'.
  destruct ((c =? 32) || _) eqn:Esp.
  { apply orb_true_iff in Esp as [?|?]; zbool; lia. }
  destruct (Z.eqb_spec c 45); [lia|]. destruct (Z.eqb_spec c 43); [lia|].
  by apply atoi_digits_spec.
Qed.

Lemma atoll_decimal v s : decimal v s -> 0 <= v < 2 ^ 63 -> atoll s = v.
Proof. intros (Hs & E & _) Hv. unfold atoll. rewrite atoi_digit_string, E by done. lia. Qed.

Lemma digit_string_spec w : forallb AnscIsDigit w = true <-> Forall is_digit w.
Proof.
  induction w as [|c w IH]; [by split|]. cbn [forallb].
  by rewrite andb_true_iff, IH, AnscIsDigit_spec, Forall_cons.
Qed.

Lemma IsValidIpString_loop_spec ws :
  Forall wf_cstr ws -> Forall fits ws ->
  exists b, IsValidIpString_loop (token_of <$> ws) = Done b /\ (b = true <-> Forall octet ws).
Proof.
  intros Hwf Hf. induction Hwf as [|w ws Hw Hwf IH]; [by exists true|].
  apply Forall_cons in Hf as [Hfw Hf]. cbn [IsValidIpString_loop fmap list_fmap].
  rewrite token_name_of by done. cbn [mbind outcome_bind].
  destruct (IH Hf) as (b & E & Hb). clear IH.
  assert (Hno : ~ octet w -> exists b0, Done false = Done b0 /\ (b0 = true <-> Forall octet (w :: ws))).
  { intros Ho. exists false. split; [done|]. split; [done|]. by intros [? _]%Forall_cons. }
  destruct (Z.ltb_spec 3 (strlen w)); [apply Hno; unfold octet; lia|].
  destruct (forallb AnscIsDigit w) eqn:Ed; cbn [negb].
  2:{ apply Hno. intros (_ & Hd & _). apply digit_string_spec in Hd. by rewrite Hd in Ed. }
  apply digit_string_spec in Ed as Hd.
  rewrite atoi_digit_string by done.
  destruct (Z.ltb_spec 255 (dec_value w)); [apply Hno; unfold octet; lia|].
  exists b. split; [done|]. rewrite Hb, Forall_cons. unfold octet. naive_solver.
Qed.

Lemma AnscIsValidIpString_char s a :
  wf_cstr s ->
  exists b, AnscIsValidIpString (Some s) a = Done b /\
    (b = true <-> 0 < strlen s < 16 /\ length (words [46] s) = 4%nat /\ Forall octet (words [46] s) /\
                  forallb id (take 5 a) = true).
Proof.
  intros Hs. unfold AnscIsValidIpString.
  destruct (Z.eqb_spec (strlen s) 0); [exists false; split; [done|]; split; [done|lia]|].
  destruct (Z.leb_spec 16 (strlen s)); [exists false; split; [done|]; split; [done|lia]|]. cbn [orb].
  assert (Hfit : Forall fits (words [46] s)).
  { apply Forall_forall. intros w Hw. apply words_length in Hw.
    unfold fits, strlen, ANSC_URI_PATH_SIZE in *. lia. }
  assert (Hwf : Forall wf_cstr (words [46] s)).
  { apply Forall_forall. intros w. by apply words_wf. }
  pose proof (words_count [46] s) as Hcount.
  rewrite AnscTcAllocate_emit by done.
  assert (exists a', (let '(ok, a) := next_alloc a in
     if negb ok then Done (None, a) else emit true (words [46] s) [] a) =
     Done (if forallb id (take (S (length (words [46] s))) a) then Some (token_of <$> words [46] s) else None, a'))
    as [a' ->].
  { destruct a as [|[|] a]; cbn [next_alloc negb take forallb id andb].
    - rewrite emit_fits by done. eexists. by rewrite ?take_nil.
    - destruct (emit_checked (words [46] s) [] a) as [a' ->]. rewrite bool_decide_true by done. by exists a'.
    - by eexists. }
  cbn [mbind outcome_bind fst].
  destruct (decide (length (words [46] s) = 4%nat)) as [E4|N4].
  - rewrite E4. destruct (forallb id (take 5 a)).
    2:{ exists false. split; [done|]. split; [done|]. by intros (_ & _ & _ & ?). }
    rewrite length_fmap, E4. cbn [negb Z.eqb Pos.eqb].
    change (USHORT (Z.of_nat 4) =? 4) with true. cbn [negb].
    destruct (IsValidIpString_loop_spec _ Hwf Hfit) as (b & -> & Hb).
    exists b. split; [done|]. rewrite Hb. unfold strlen in *. split; [|tauto]. intros. split_and!; done || lia.
  - exists false. split; [|split; [done|tauto]].
    destruct (forallb id _); [|done]. rewrite length_fmap.
    unfold strlen in *. rewrite USHORT_small by lia.
    destruct (Z.eqb_spec (Zlen (words [46] s)) 4); [lia|done].
Qed.

(** ** The parser stays inside its buffers *)

Section ip6_safe.
Context (inet_addr : cstr -> list Z).
Context (inet_addr_ok : forall s, is_buf 4 (inet_addr s)).

Definition mem_ok (src : list Z) : Prop := Forall is_byte src /\ 0 ∈ src.
Definition st_ok (st : ip6_state) : Prop :=
  mem_ok (curtok st) /\ 0 <= val st < 65536 /\ 0 <= tp st <= 16 /\ is_buf 16 (tmp st) /\
  match colonp st with Some c => 0 <= c <= tp st | None => True end.

Lemma xdigit_bound ch d : xdigit ch = Some d -> 0 <= d < 16.
Proof. unfold xdigit. intros. repeat case_match; simplify_eq; zbool; lia. Qed.

(** Appending a digit to the value of a group. *)
Lemma val_step v d : 0 <= v -> 0 <= d < 16 -> Z.lor (Z.shiftl v 4) d = v * 16 + d.
Proof.
    intros Hv Hd. rewrite Z.shiftl_mul_pow2 by lia. change (2 ^ 4) with 16.
    rewrite <-Z.add_lor_land.
    assert (Z.land (v * 16) d = 0) as ->; [|lia].
    apply Z.bits_inj_0. intros n. rewrite Z.land_spec. destruct (Z.neg_nonneg_cases n).
    { by rewrite Z.testbit_neg_r. }
    destruct (Z.ltb_spec n 4).
    - change 16 with (2 ^ 4). rewrite Z.mul_pow2_bits_low by lia. done.
    - rewrite (Z.bits_above_log2 d n), andb_false_r; [done|lia|].
      destruct (decide (d = 0)) as [->|]; [cbn; lia|].
      apply Z.log2_lt_pow2; [lia|]. assert (2 ^ 4 <= 2 ^ n) by (apply Z.pow_le_mono_r; lia). lia.
Qed.

Lemma put_group_ok t tp v :
    is_buf 16 t -> 0 <= tp -> tp + 2 <= 16 ->
    exists t1 t', buf_put t tp (Z.land (UCHAR (Z.shiftr v 8)) 255) = Done t1 /\
      buf_put t1 (tp + 1) (Z.land (UCHAR v) 255) = Done t' /\ is_buf 16 t'.
Proof.
    intros Ht H0 H2.
    assert (Hland : forall z, is_byte (Z.land (UCHAR z) 255)).
    { intros z. change 255 with (Z.ones 8). rewrite Z.land_ones by lia. by apply Z.mod_pos_bound. }
    destruct (buf_put_ok 16 t tp (Z.land (UCHAR (Z.shiftr v 8)) 255)) as (t1 & -> & Ht1); [done|lia|done|].
    destruct (buf_put_ok 16 t1 (tp + 1) (Z.land (UCHAR v) 255)) as (t' & E & Ht'); [done|lia|done|].
    eauto.
Qed.

Lemma ip6_loop_safe src st a :
    mem_ok src -> st_ok st ->
    exists r, ip6_loop inet_addr src st a = Done r /\ forall st', r = Some st' -> st_ok st'.
Proof.
    intros Hsrc. revert st. induction src as [|c src IH]; intros st Hst.
    { by destruct Hsrc as [_ ?%not_elem_of_nil]. }
    destruct Hsrc as [Hb H0]. apply Forall_cons in Hb as [Hc Hb]. cbn [ip6_loop].
    destruct (Z.eqb_spec (tolower c) 0) as [_|Hnz]; [by eexists; split; [done|]; intros ? [= <-]|].
    assert (Hsrc : mem_ok src).
    { split; [done|]. apply elem_of_cons in H0 as [<-|?]; [|done]. by destruct Hnz. }
    destruct Hst as (Hcur & Hval & Htp & Htmp & Hcol).
    destruct (xdigit (tolower c)) as [d|] eqn:Ed.
    { apply xdigit_bound in Ed. rewrite val_step by lia.
      destruct (Z.ltb_spec 65535 (val st * 16 + d)); [by eexists|].
      apply (IH Hsrc). unfold st_ok. cbn. split_and!; done || lia. }
    destruct (Z.eqb_spec (tolower c) 58).
    - destruct (saw_xdigit st); cbn [negb].
      + destruct src as [|n src']; [by destruct Hsrc as [_ ?%not_elem_of_nil]|].
        change (buf_get (n :: src') 0) with (Done n). cbn [mbind outcome_bind].
        destruct (n =? 0); [by eexists|].
        destruct (Z.ltb_spec IPV6_ADDRESS_SIZE (tp st + 2)) as [|Hle]; [by eexists|].
        destruct (put_group_ok (tmp st) (tp st) (val st)) as (t1 & t' & -> & E & Ht'); [done|lia|done|].
        cbn [mbind outcome_bind]. rewrite E. cbn [mbind outcome_bind].
        apply (IH Hsrc). unfold st_ok. cbn. unfold IPV6_ADDRESS_SIZE in Hle.
        split_and!; try done; try lia. destruct (colonp st); [lia|done].
      + destruct (colonp st); [by eexists|].
        apply (IH Hsrc). unfold st_ok. cbn. split_and!; done || lia.
    - destruct ((tolower c =? 46) && _) eqn:E; [|by eexists]. zbool.
      destruct (buf_cstr_is_Some (curtok st)) as (s & -> & Hs); [apply Hcur|apply Hcur|].
      destruct (AnscIsValidIpString_char s a Hs) as ([|] & -> & _); cbn [mbind outcome_bind]; [|by eexists].
      destruct (inet_addr_ok s) as [Hlen Hbytes]. unfold IPV6_ADDRESS_SIZE, IPV4_ADDRESS_SIZE in *.
      destruct (buf_copy_ok 16 (tmp st) (tp st) (inet_addr s)) as (t & -> & Ht); [done|lia|lia|done|].
      cbn [mbind outcome_bind]. eexists. split; [done|]. intros ? [= <-]. unfold st_ok. cbn.
      split_and!; try done; try lia. destruct (colonp st); [lia|done].
Qed.

Lemma ip6_finish_safe st :
    st_ok st -> exists r, ip6_finish st = Done r /\ forall t, r = Some t -> is_buf 16 t.
Proof.
    intros (_ & _ & Htp & Htmp & Hcol). unfold ip6_finish.
    assert (exists r, (if saw_xdigit st then
         if IPV6_ADDRESS_SIZE <? tp st + 2 then Done None
         else
           t ← buf_put (tmp st) (tp st) (Z.land (UCHAR (Z.shiftr (val st) 8)) 255);
           t ← buf_put t (tp st + 1) (Z.land (UCHAR (val st)) 255);
           Done (Some (tp st + 2, t))
       else Done (Some (tp st, tmp st))) = Done r /\
      forall p t, r = Some (p, t) -> tp st <= p <= 16 /\ is_buf 16 t) as (r & -> & Hr).
    { destruct (saw_xdigit st); [|by eexists; split; [done|]; intros ? ? [= <- <-]; split; [lia|]].
      destruct (Z.ltb_spec IPV6_ADDRESS_SIZE (tp st + 2)) as [|Hle]; [by eexists|].
      unfold IPV6_ADDRESS_SIZE in Hle.
      destruct (put_group_ok (tmp st) (tp st) (val st)) as (t1 & t' & -> & E & Ht'); [done|lia|lia|].
      cbn [mbind outcome_bind]. rewrite E. cbn [mbind outcome_bind].
      eexists. split; [done|]. intros ? ? [= <- <-]. split; [lia|done]. }
    cbn [mbind outcome_bind]. destruct r as [[p t]|]; [|by eexists].
    destruct (Hr p t eq_refl) as [Hp Ht].
    destruct (colonp st) as [c|]; cbn [mbind outcome_bind].
    2:{ destruct (p =? IPV6_ADDRESS_SIZE); cbn; eexists; split; try done. by intros ? [= <-]. }
    destruct (p =? IPV6_ADDRESS_SIZE); [by eexists|].
    destruct (for_from_inv (fun _ t => is_buf 16 t)
      (fun i t => b ← buf_get t (c + (p - c - i)); t ← buf_put t (IPV6_ADDRESS_SIZE - i) b;
         buf_put t (c + (p - c - i)) 0) 1 (Z.to_nat (p - c)) t) as (t' & -> & Ht'); [done| |].
    - intros j b Hj Hb. unfold IPV6_ADDRESS_SIZE.
      destruct (buf_get_ok 16 b (c + (p - c - j))) as (v & -> & Hv); [done|lia|]. cbn [mbind outcome_bind].
      destruct (buf_put_ok 16 b (16 - j) v) as (b1 & -> & Hb1); [done|lia|done|]. cbn [mbind outcome_bind].
      apply buf_put_ok; [done|lia|]. unfold is_byte. lia.
    - cbn. eexists. split; [done|]. by intros ? [= <-].
Qed.

Lemma ip6_start_safe src st a :
    mem_ok src -> st_ok st ->
    exists r, (r ← ip6_loop inet_addr src st a;
      match r with None => Done None | Some st => ip6_finish st end) = Done r /\
      forall t, r = Some t -> is_buf 16 t.
Proof.
    intros Hsrc Hst. destruct (ip6_loop_safe src st a Hsrc Hst) as ([st'|] & -> & Hr); cbn.
    - by apply ip6_finish_safe, Hr.
    - by eexists.
Qed.
End ip6_safe.

(** ** Printing and parsing back *)

Lemma hex_char_scan d :
  0 <= d < 16 -> tolower (hex_char false d) ≠ 0 /\ xdigit (tolower (hex_char false d)) = Some d.
Proof.
  intros Hd. unfold hex_char, tolower, xdigit.
  destruct (Z.leb_spec d 9); repeat case_match; zbool; split; try lia; f_equal; try lia;
    rewrite ?andb_false_iff, ?Z.leb_gt in *; lia.
Qed.

(** The text of a group without the leading colon. *)
Definition group_text (hi lo : Z) : cstr :=
  if (hi =? 0) && (lo =? 0) then [48]
  else if hi =? 0 then fmt_02X lo
  else fmt_02X hi ++ fmt_02X lo.

Definition groups (i : Z) : list Z -> cstr :=
  fix go (bytes : list Z) := match bytes with
  | hi :: lo :: rest => 58 :: group_text hi lo ++ go rest
  | _ => []
  end.

Lemma nibble_bound b : is_byte b -> 0 <= b / 16 < 16 /\ 0 <= b mod 16 < 16.
Proof.
  unfold is_byte. intros. split; [|apply Z.mod_pos_bound; lia].
  split; [apply Z.div_pos; lia | apply Z.div_lt_upper_bound; lia].
Qed.

Lemma group_text_head hi lo : is_byte hi -> is_byte lo ->
  exists c r, group_text hi lo = c :: r /\ 0 < c /\ c ≠ 58.
Proof.
  intros [Hh _]%nibble_bound [Hl _]%nibble_bound.
  assert (Hpos : forall d, 0 <= d < 16 -> 0 < hex_char false d /\ hex_char false d ≠ 58).
  { intros d Hd. unfold hex_char. destruct (Z.leb_spec d 9); lia. }
  unfold group_text, fmt_02X. destruct (_ && _); [by eexists _, _|].
  destruct (hi =? 0); cbn; eexists _, _; (split; [done|]); by apply Hpos.
Qed.

Lemma split_group hi lo : is_byte lo -> (hi * 256 + lo) / 256 = hi /\ (hi * 256 + lo) mod 256 = lo.
Proof.
  unfold is_byte. intros Hlo. split.
  - rewrite Z.div_add_l, Z.div_small by lia. lia.
  - by rewrite Z.add_comm, Z.mod_add, Z.mod_small by lia.
Qed.

Section ip6_round_trip.
Context (inet_addr : cstr -> list Z).

Lemma ip6_digit d src cur saw v tp tmp col a :
    0 <= d < 16 -> 0 <= v -> v * 16 + d <= 65535 ->
    ip6_loop inet_addr (hex_char false d :: src) (Ip6 cur saw v tp tmp col) a =
      ip6_loop inet_addr src (Ip6 cur true (v * 16 + d) tp tmp col) a.
Proof.
    intros Hd Hv Hle. destruct (hex_char_scan d Hd) as [Hnz Hx]. cbn [ip6_loop].
    rewrite Hx. destruct (Z.eqb_spec (tolower (hex_char false d)) 0); [done|].
    cbn [curtok saw_xdigit val IpAddr.tp IpAddr.tmp colonp]. rewrite val_step by done.
    by destruct (Z.ltb_spec 65535 (v * 16 + d)); [lia|].
Qed.

Lemma ip6_byte b src cur saw v tp tmp col a :
    is_byte b -> 0 <= v < 256 ->
    ip6_loop inet_addr (fmt_02X b ++ src) (Ip6 cur saw v tp tmp col) a =
      ip6_loop inet_addr src (Ip6 cur true (v * 256 + b) tp tmp col) a.
Proof.
    intros Hb Hv. destruct (nibble_bound b Hb). pose proof (Z.div_mod b 16).
    unfold fmt_02X. cbn [fmap list_fmap app].
    rewrite !ip6_digit by lia. do 2 f_equal. lia.
Qed.

Lemma ip6_group_text hi lo src cur tp tmp col a :
    is_byte hi -> is_byte lo ->
    ip6_loop inet_addr (group_text hi lo ++ src) (Ip6 cur false 0 tp tmp col) a =
      ip6_loop inet_addr src (Ip6 cur true (hi * 256 + lo) tp tmp col) a.
Proof.
    intros Hh Hl. unfold group_text.
    destruct (Z.eqb_spec hi 0) as [->|]; destruct (Z.eqb_spec lo 0) as [->|]; cbn [andb].
    - by apply (ip6_digit 0).
    - by rewrite ip6_byte.
    - rewrite <-app_assoc, ip6_byte, ip6_byte by (unfold is_byte in *; lia). done.
    - rewrite <-app_assoc, ip6_byte, ip6_byte by (unfold is_byte in *; lia). done.
Qed.

Lemma group_bytes v : 0 <= v < 65536 ->
    Z.land (UCHAR (Z.shiftr v 8)) 255 = v / 256 /\ Z.land (UCHAR v) 255 = v mod 256.
Proof.
    intros Hv. change 255 with (Z.ones 8). rewrite !Z.land_ones, Z.shiftr_div_pow2 by lia.
    change (2 ^ 8) with 256. unfold UCHAR. rewrite !Z.mod_mod by lia.
    split; [|done]. apply Z.mod_small. split; [apply Z.div_pos; lia | apply Z.div_lt_upper_bound; lia].
Qed.

(** Writing a pending group at [tp]. *)
Lemma put_group pre v n i :
    0 <= v < 65536 -> i = Zlen pre ->
    exists t1, buf_put (pre ++ replicate (S (S n)) 0) i (Z.land (UCHAR (Z.shiftr v 8)) 255) = Done t1 /\
      buf_put t1 (i + 1) (Z.land (UCHAR v) 255)
        = Done ((pre ++ [v / 256; v mod 256]) ++ replicate n 0).
Proof.
    intros Hv ->. destruct (group_bytes v Hv) as [-> ->]. cbn [replicate].
    rewrite buf_put_at by done. eexists. split; [done|].
    replace (pre ++ v / 256 :: 0 :: replicate n 0) with ((pre ++ [v / 256]) ++ 0 :: replicate n 0)
      by by rewrite <-app_assoc.
    rewrite buf_put_at by (rewrite length_app; cbn; lia). by rewrite <-!app_assoc.
Qed.

Lemma ip6_groups k : forall rest pre cur v i a,
    length rest = (2 * k)%nat -> Forall is_byte rest -> 0 <= v < 65536 ->
    (length pre + 2 + 2 * k = 16)%nat ->
    (r ← ip6_loop inet_addr (groups i rest ++ [0])
           (Ip6 cur true v (Zlen pre) (pre ++ replicate (2 + 2 * k) 0) None) a;
     match r with None => Done None | Some st => ip6_finish st end) =
    Done (Some (pre ++ [v / 256; v mod 256] ++ rest)).
Proof.
    induction k as [|k IH]; intros rest pre cur v i a Hl Hb Hv Hp.
    - destruct rest; [|done]. cbn [groups app ip6_loop].
      change (tolower 0 =? 0) with true. cbn [mbind outcome_bind].
      unfold ip6_finish. cbn [saw_xdigit tp tmp val colonp].
      destruct (Z.ltb_spec IPV6_ADDRESS_SIZE (Zlen pre + 2)) as [Hlt|_];
        [unfold IPV6_ADDRESS_SIZE in Hlt; lia|].
      change (2 + 2 * 0)%nat with 2%nat.
      destruct (put_group pre v 0 (Zlen pre) Hv eq_refl) as (t1 & -> & E2). cbn [mbind outcome_bind].
      rewrite E2. cbn [mbind outcome_bind].
      destruct (Z.eqb_spec (Zlen pre + 2) IPV6_ADDRESS_SIZE) as [_|Hne];
        [|unfold IPV6_ADDRESS_SIZE in Hne; lia].
      cbn. by rewrite !app_nil_r.
    - destruct rest as [|hi [|lo rest]]; [done|cbn in Hl; lia|].
      apply Forall_cons in Hb as [Hh Hb]. apply Forall_cons in Hb as [Hlo Hb].
      cbn [groups]. fold (groups i). cbn [app ip6_loop].
      change (tolower 58) with 58. change (xdigit 58) with (@None Z).
      cbn [Z.eqb Pos.eqb saw_xdigit negb tp tmp val colonp].
      destruct (group_text_head hi lo Hh Hlo) as (c & r & E & Hc & _).
      assert (Hget : buf_get ((group_text hi lo ++ groups i rest) ++ [0]) 0 = Done c) by by rewrite E.
      rewrite Hget. cbn [mbind outcome_bind]. destruct (Z.eqb_spec c 0); [lia|].
      destruct (Z.ltb_spec IPV6_ADDRESS_SIZE (Zlen pre + 2)) as [Hlt|_];
        [unfold IPV6_ADDRESS_SIZE in Hlt; lia|].
      replace (2 + 2 * S k)%nat with (S (S (2 + 2 * k))) by lia.
      destruct (put_group pre v (2 + 2 * k) (Zlen pre) Hv eq_refl) as (t1 & -> & E2). cbn [mbind outcome_bind].
      rewrite E2. cbn [mbind outcome_bind]. rewrite <-app_assoc, ip6_group_text by done.
      replace (Zlen pre + 2) with (Zlen (pre ++ [v / 256; v mod 256])) by (rewrite length_app; cbn; lia).
      unfold is_byte in Hh, Hlo.
      rewrite IH; [|cbn in Hl; lia|done|lia|rewrite length_app; cbn; lia].
      destruct (split_group hi lo Hlo) as [-> ->]. by rewrite <-app_assoc.
Qed.
End ip6_round_trip.

Lemma list_two_ind {A} (P : list A -> Prop) :
  P [] -> (forall x, P [x]) -> (forall x y l, P l -> P (x :: y :: l)) -> forall l, P l.
Proof.
  intros H0 H1 H2 l. enough (P l /\ forall x, P (x :: l)) as [? _] by done.
  induction l as [|y l [IH1 IH2]]; [by split|]. split; [apply IH2|]. intros x. by apply H2.
Qed.

Lemma ip6_print_groups bytes i acc :
  0 < i -> ip6_print i bytes acc = acc ++ groups i bytes.
Proof.
  intros Hi. revert i acc Hi. induction bytes as [|hi|hi lo rest IH] using list_two_ind; intros i acc Hi.
  - cbn. by rewrite app_nil_r.
  - cbn. by rewrite app_nil_r.
  - cbn [ip6_print]. rewrite IH by lia. cbn [groups].
    unfold ip6_group. destruct (Z.eqb_spec i 0); [lia|]. rewrite <-app_assoc. done.
Qed.

(** The printed text of a nonzero address. *)
Lemma ip6_print_text hi lo rest :
  ip6_print 0 (hi :: lo :: rest) [] = group_text hi lo ++ groups 2 rest.
Proof. cbn [ip6_print]. rewrite ip6_print_groups by lia. done. Qed.

Lemma group_text_length hi lo : (length (group_text hi lo) <= 4)%nat.
Proof. unfold group_text, fmt_02X. repeat case_match; cbn; lia. Qed.

Lemma groups_length i bytes : (length (groups i bytes) <= 5 * (length bytes / 2))%nat.
Proof.
  induction bytes as [|hi|hi lo rest IH] using list_two_ind; [done|cbn; lia|].
  cbn [groups]. fold (groups i). rewrite length_cons, length_app.
  pose proof (group_text_length hi lo). cbn [length].
  replace (S (S (length rest))) with (length rest + 1 * 2)%nat by lia.
  rewrite Nat.div_add by lia. lia.
Qed.

Lemma all_zero bytes :
  existsb (fun b => negb (b =? 0)) bytes = false -> bytes = replicate (length bytes) 0.
Proof.
  induction bytes as [|b bytes IH]; cbn; [done|]. intros [Hb Hr]%orb_false_elim.
  rewrite <-IH by done. apply negb_false_iff in Hb. zbool. by subst.
Qed.

(** ** Properties *)

(** [AnscIsValidIpString] accepts exactly the nonempty strings of at most 15
    characters whose dot-separated words are four octets (one to three digits,
    at most 255), provided its allocations succeed; stray dots are skipped by
    the tokenizer, so that for example ".1..2.3.4." is accepted. *)
Theorem AnscIsValidIpString_spec s a (Hs : wf_cstr s) :
  exists b, AnscIsValidIpString (Some s) a = Done b /\
    (b = true <-> 0 < strlen s < 16 /\ length (words [46] s) = 4%nat /\
       Forall octet (words [46] s) /\ forallb id (take 5 a) = true).
Proof. by apply AnscIsValidIpString_char. Qed.

Theorem AnscIsValidIpString_spec_witness :
  let s := lit ".1..2.3.4." in
  AnscIsValidIpString (Some s) [] = Done true /\
  exists b, AnscIsValidIpString (Some s) [] = Done b /\
    (b = true <-> 0 < strlen s < 16 /\ length (words [46] s) = 4%nat /\
       Forall octet (words [46] s) /\ forallb id (take 5 []) = true).
Proof.
  cbn zeta. split; [vm_compute; reflexivity|]. apply (AnscIsValidIpString_spec (lit ".1..2.3.4.")).
  repeat constructor; lia.
Defined.

(** Bounds of the IPv6 parser: for every string, except one that starts with
    a double colon and has exactly 127 characters, [AnscParseIp6Address]
    completes without leaving its buffers, and what it accepts is an array of
    sixteen bytes. *)
Theorem AnscParseIp6Address_safe inet_addr s a
  (Hinet : forall s, is_buf 4 (inet_addr s))
  (Hs : wf_cstr s) (H127 : take 2 s = [58; 58] -> strlen s ≠ 127) :
  exists r, AnscParseIp6Address inet_addr s a = Done r /\
    forall t, r = Some t -> is_buf 16 t.
Proof.
  unfold AnscParseIp6Address. assert (Hz : is_buf 16 (replicate 16 0)).
  { split; [done|]. apply Forall_replicate. unfold is_byte. lia. }
  case_bool_decide; [by eexists; split; [done|]; intros ? [= <-]|].
  destruct (_ && _); [by eexists|].
  assert (Hsb : Forall is_byte s) by (eapply Forall_impl; [exact Hs|]; unfold is_byte; cbn; lia).
  assert (Hstart : forall src, mem_ok src -> exists r,
    (r ← ip6_loop inet_addr src (Ip6 src false 0 0 (replicate 16 0) None) a;
     match r with None => Done None | Some st => ip6_finish st end) = Done r /\
    forall t, r = Some t -> is_buf 16 t).
  { intros src Hsrc. apply ip6_start_safe; [done|done|].
    unfold st_ok. cbn. split_and!; done || lia. }
  case_bool_decide as H2.
  - destruct (Z.ltb_spec 127 (strlen s)); [by eexists|].
    specialize (H127 H2). unfold strlen in *.
    assert (Hsplit : replicate 127 0 = replicate (length s) 0 ++ 0 :: replicate (126 - length s) 0).
    { change (0 :: replicate (126 - length s) 0) with (replicate (S (126 - length s)) 0).
      rewrite <-replicate_add. f_equal. lia. }
    pose proof (buf_copy_at [48] (replicate (length s) 0) (0 :: replicate (126 - length s) 0) s 1
      eq_refl (length_replicate _ _)) as Ecopy.
    rewrite Hsplit. cbn [app] in Ecopy. rewrite Ecopy. cbn [mbind outcome_bind].
    apply Hstart. split.
    + constructor; [by unfold is_byte|]. apply Forall_app. split; [done|].
      constructor; [by unfold is_byte|]. apply Forall_replicate. unfold is_byte. lia.
    + cbn. rewrite elem_of_cons, elem_of_app, elem_of_cons. tauto.
  - apply Hstart. split.
    + apply Forall_app. split; [done|]. by apply Forall_singleton.
    + rewrite elem_of_app, elem_of_cons. tauto.
Qed.

Theorem AnscParseIp6Address_safe_witness :
  let inet_addr := fun _ : cstr => [1; 2; 3; 4] in
  exists r, AnscParseIp6Address inet_addr (lit "fe80::1.2.3.4") [] = Done r /\
    forall t, r = Some t -> is_buf 16 t.
Proof.
  cbn zeta. apply AnscParseIp6Address_safe.
  - intros _. split; [done|]. repeat constructor; unfold is_byte; lia.
  - repeat constructor; lia.
  - cbn. discriminate.
Defined.

(** The missing terminator: a string of 127 characters that starts with a
    double colon and goes on with zeros fills the 128-byte copy completely, and
    the scan runs past its end. *)
Theorem AnscParseIp6Address_overread inet_addr :
  AnscParseIp6Address inet_addr ([58; 58] ++ replicate 125 48) [] = Stuck OutOfBounds.
Proof. by vm_compute. Qed.

(** The text of an address, read back. *)
Lemma ip6_text_read inet_addr bytes a (Hb : is_buf 16 bytes) :
  exists s, AnscIp6AddressToString (Some bytes) [] = (Some s, []) /\ strlen s <= 39 /\
    AnscParseIp6Address inet_addr s a = Done (Some bytes).
Proof.
  destruct Hb as [Hl Hb]. unfold AnscIp6AddressToString.
  destruct (existsb _ bytes) eqn:Enz; cbn [negb].
  2:{ apply all_zero in Enz. exists [58; 58]. split_and!; [done|done|].
      rewrite Enz. replace (length bytes) with 16%nat by lia. done. }
  destruct bytes as [|hi [|lo rest]]; [done..|]. cbn [next_alloc].
  apply Forall_cons in Hb as [Hh Hb]. apply Forall_cons in Hb as [Hlo Hb].
  rewrite ip6_print_text. eexists. split; [done|]. cbn [length] in Hl. split.
  - unfold strlen. rewrite length_app. pose proof (group_text_length hi lo).
    pose proof (groups_length 2 rest). replace (length rest) with 14%nat in * by lia.
    change (14 / 2)%nat with 7%nat in *. lia.
  - destruct (group_text_head hi lo Hh Hlo) as (c & r & E & Hc & H58).
    unfold AnscParseIp6Address. rewrite E. cbn [app].
    rewrite bool_decide_false by (intros [= ? _]; done).
    change (deref (c :: r ++ groups 2 rest)) with c.
    destruct (Z.eqb_spec c 58); [done|]. cbn [andb].
    rewrite bool_decide_false by (cbn; intros [= ? _]; done).
    cbv beta zeta. cbn [app].
    replace (c :: (r ++ groups 2 rest) ++ [0]) with (group_text hi lo ++ groups 2 rest ++ [0])
      by (rewrite E; cbn; by rewrite <-app_assoc).
    rewrite ip6_group_text by done.
    unfold is_byte in Hh, Hlo.
    pose proof (ip6_groups inet_addr 7 rest [] (group_text hi lo ++ groups 2 rest ++ [0])
      (hi * 256 + lo) 2 a) as Hg. cbn [app length] in Hg. change (Z.of_nat 0) with 0 in Hg.
    change (2 + 2 * 7)%nat with 16%nat in Hg. rewrite Hg; [|lia|done|lia|done].
    by destruct (split_group hi lo Hlo) as [-> ->].
Qed.

(** C38. Printing and parsing an IPv6 address: [AnscIp6AddressToString] prints
    every address in at most 39 characters, well inside its 128-byte buffer,
    and [AnscParseIp6Address] reads the text back as the same sixteen bytes. *)
Theorem ip6_print_parse inet_addr bytes a (Hb : is_buf 16 bytes) :
  exists s, AnscIp6AddressToString (Some bytes) [] = (Some s, []) /\ strlen s <= 39 /\
    AnscParseIp6Address inet_addr s a = Done (Some bytes).
Proof. by apply ip6_text_read. Qed.

Theorem ip6_print_parse_witness :
  let inet_addr := fun _ : cstr => [0; 0; 0; 0] in
  let bytes := [254; 128; 0; 0; 0; 0; 0; 0; 0; 5; 18; 0; 255; 171; 0; 1] in
  exists s, AnscIp6AddressToString (Some bytes) [] = (Some s, []) /\ strlen s <= 39 /\
    AnscParseIp6Address inet_addr s [] = Done (Some bytes).
Proof.
  cbn zeta. apply ip6_print_parse. split; [done|]. repeat constructor; unfold is_byte; lia.
Defined.
