(* ===== verification/Hash.v ===== *)
(** * Hash functions ([ansc_hash.c])

    The bucket index of an atom.  A table of size zero makes every one of them
    divide by zero. *)

From S2P Require Import Prelude CStrings.
Open Scope Z_scope.

(** [x % size] on unsigned numbers. *)
Definition umod (x size : Z) : outcome Z := if size =? 0 then Stuck DivByZero else Done (x mod size).

Section hash.
Context `{Platform}.

(** [address] is an array of at least four bytes. *)
Definition AnscHashAddress (address : list Z) (ulTableSize : Z) : outcome Z :=
  a0 ← buf_get address 0; a1 ← buf_get address 1;
  a2 ← buf_get address 2; a3 ← buf_get address 3;
  let h := if (a0 =? 0) || (a2 =? 0) then a0 + a2 else a0 * a2 + a0 + a2 in
  let h := h + (if (a1 =? 0) || (a3 =? 0) then a1 + a3 else a1 * a3 + a1 + a3) in
  umod h ulTableSize.

Definition AnscHashUlong (ulValue ulTableSize : Z) : outcome Z := umod ulValue ulTableSize.

Definition AnscHashString (string : option (list Z)) (ulStringSize ulTableSize : Z) : outcome Z :=
  match string with
  | None => Done 0
  | Some string =>
      ulHashTemp ← for_from 0 (Z.to_nat ulStringSize) (fun i ulHashTemp =>
        c ← buf_get string i;
        Done (ULONG (ulHashTemp + i * ULONG (char_val c)))) 0;
      umod ulHashTemp ulTableSize
  end.

(** The hash of the string in lower case. *)
Definition AnscHashString2 (string : list Z) (ulStringSize ulTableSize : Z) (a : alloc_stream)
  : outcome Z :=
  let '(ok, a) := next_alloc a in
  if negb ok then Done 0
  else
    lowc_string ← AnscStringFromUToL string (replicate (Z.to_nat (ULONG (ulStringSize * 2))) 0) ulStringSize;
    AnscHashString (Some lowc_string) ulStringSize ulTableSize.

Lemma umod_ok x size : 0 < size -> exists r, umod x size = Done r /\ 0 <= r < size.
Proof.
    intros Hs. unfold umod. destruct (Z.eqb_spec size 0); [lia|].
    exists (x mod size). split; [done|]. by apply Z.mod_pos_bound.
Qed.

(** Hashing a string of a nonempty table yields a bucket of the table. *)
Lemma AnscHashString_ok s size :
    0 < size -> exists r, AnscHashString (Some s) (Zlen s) size = Done r /\ 0 <= r < size.
Proof.
    intros Hs. unfold AnscHashString. rewrite Nat2Z.id.
    destruct (for_from_inv (fun _ _ => True) (fun i ulHashTemp =>
      c ← buf_get s i; Done (ULONG (ulHashTemp + i * ULONG (char_val c)))) 0 (length s) 0)
      as (h & -> & _); [done| |].
    - intros j h Hj _. destruct (lookup_lt_is_Some_2 s (Z.to_nat j)) as [c Hc]; [lia|].
      rewrite (buf_get_Z _ _ _ (proj1 Hj) Hc). by eexists.
    - by apply umod_ok.
Qed.

(** The reference: the sum of the characters weighted by their positions. *)
Fixpoint weighted (i : Z) (s : list Z) : Z :=
  match s with [] => 0 | c :: r => i * char_val c + weighted (i + 1) r end.

Lemma for_weighted s : forall pre acc,
    for_from (Zlen pre) (length s) (fun i ulHashTemp =>
      c ← buf_get (pre ++ s) i; Done (ULONG (ulHashTemp + i * ULONG (char_val c)))) (ULONG acc)
    = Done (ULONG (acc + weighted (Zlen pre) s)).
Proof.
    induction s as [|c s IH]; intros pre acc; cbn [length for_from weighted]; [by rewrite Z.add_0_r|].
    rewrite (buf_get_lookup _ _ c).
    2:{ by rewrite lookup_app_r, Nat.sub_diag by done. }
    cbn [mbind outcome_bind].
    replace (pre ++ c :: s) with ((pre ++ [c]) ++ s) by by rewrite <-app_assoc.
    replace (Zlen pre + 1) with (Zlen (pre ++ [c])) by (rewrite length_app; cbn; lia).
    replace (ULONG (ULONG acc + Zlen pre * ULONG (char_val c))) with (ULONG (acc + Zlen pre * char_val c)).
    2:{ by rewrite ULONG_add_l, <-(ULONG_add_r acc (_ * ULONG _)), ULONG_mul_r, ULONG_add_r. }
    rewrite IH. do 2 f_equal. lia.
Qed.
End hash.

(** [AnscHashString] of a table with at least one bucket is the sum of the
    characters weighted by their positions, in [ULONG] arithmetic and modulo
    the size of the table: always a bucket of the table. *)
Theorem AnscHashString_spec `{Platform} s size (Hsize : 0 < size) :
  AnscHashString (Some s) (Zlen s) size = Done (ULONG (weighted 0 s) mod size) /\
  0 <= ULONG (weighted 0 s) mod size < size.
Proof.
  split; [|by apply Z.mod_pos_bound]. unfold AnscHashString. rewrite Nat2Z.id.
  pose proof (for_weighted s [] 0) as E. cbn [app length] in E.
  change (Z.of_nat 0) with 0 in E.
  assert (E0 : ULONG 0 = 0) by (apply ULONG_small32; lia). rewrite E0, Z.add_0_l in E. rewrite E.
  cbn [mbind outcome_bind]. unfold umod. by destruct (Z.eqb_spec size 0); [lia|].
Qed.

Theorem AnscHashString_spec_witness :
  let _ := lp64 in
  AnscHashString (Some (lit "Device")) (Zlen (lit "Device")) 64
    = Done (ULONG (weighted 0 (lit "Device")) mod 64) /\
  0 <= ULONG (weighted 0 (lit "Device")) mod 64 < 64.
Proof. cbn zeta. apply (@AnscHashString_spec lp64). lia. Defined.
