(* ===== verification/NameTable.v ===== *)
(** * What a name table promises

    The virtual functions through which the other components use an atom
    table: the table keeps, for every name, the entries added under it, the
    most recent first.  A lookup sees the most recent entry, a deletion removes
    it.  [AtomTable] implements the interface; [NsMgr] is proved against it. *)

From S2P Require Import Prelude.
Open Scope Z_scope.

Class NameTable (T C : Type) := {
  nt_create : alloc_stream -> outcome (option T * alloc_stream);
  nt_add : T -> option cstr -> Z -> C -> alloc_stream -> outcome (T * alloc_stream);
  nt_get : T -> option cstr -> outcome (option (Z * C));
  nt_del : T -> option cstr -> outcome T;
  nt_remove : T -> outcome unit;

  (** A well-formed table, and its entries. *)
  nt_ok : T -> Prop;
  nt_stack : T -> cstr -> list (Z * C)
}.

Class NameTableLaws (T C : Type) `{NameTable T C} := {
  nt_create_spec :
    exists t, nt_create [] = Done (Some t, []) /\ nt_ok t /\ forall s, nt_stack t s = [];
  nt_add_spec t s id c :
    nt_ok t -> s ≠ [] ->
    exists t', nt_add t (Some s) id c [] = Done (t', []) /\ nt_ok t' /\
      forall s', nt_stack t' s' = if bool_decide (s' = s) then (id, c) :: nt_stack t s' else nt_stack t s';
  nt_get_spec t s :
    nt_ok t -> s ≠ [] -> nt_get t (Some s) = Done (head (nt_stack t s));
  nt_del_spec t s :
    nt_ok t -> s ≠ [] ->
    exists t', nt_del t (Some s) = Done t' /\ nt_ok t' /\
      forall s', nt_stack t' s' = if bool_decide (s' = s) then tail (nt_stack t s') else nt_stack t s';
  (** NULL and the empty string name nothing. *)
  nt_void t s id c :
    s = None \/ s = Some [] ->
    nt_get t s = Done None /\ nt_del t s = Done t /\ nt_add t s id c [] = Done (t, []);
  nt_stack_nil t : nt_ok t -> nt_stack t [] = [];
  nt_remove_spec t : nt_ok t -> nt_remove t = Done tt
}.
