(* ===== verification/AtomTable.v ===== *)
(** * Atom tables (AnscAtomTable)

    An [ANSC_ATOM_TABLE_OBJECT] has two hash tables of atom descriptors, one
    by name and one by number.  A bucket is a singly linked list; the list
    operations below are those [SList] implements, through their
    specification [sop_spec].  The descriptors live in a store, so that a
    handle to a freed descriptor can be told from a live one. *)

From S2P Require Import Prelude Links SList CStrings Hash NameTable.
Open Scope Z_scope.

Abbreviation buckets := (list (list loc)).

Section atom_table.
Context `{Platform} {C : Type}.

Record ANSC_ATOM_DESCRIPTOR := Atom {
  HashIndex : Z;
  AtomName : option cstr;
  AtomId : Z;
  hContext : C
}.


Record ANSC_ATOM_TABLE_OBJECT := Ato {
  AdoIntTableSize : Z;
  AdoIntTable : option buckets;
  AdoStrTableSize : Z;
  AdoStrTable : option buckets;
  atoms : gmap loc ANSC_ATOM_DESCRIPTOR
}.
Abbreviation ATO := ANSC_ATOM_TABLE_OBJECT.
Definition set_int (o : ATO) (t : option buckets) : ATO :=
  Ato (AdoIntTableSize o) t (AdoStrTableSize o) (AdoStrTable o) (atoms o).
Definition set_str (o : ATO) (t : option buckets) : ATO :=
  Ato (AdoIntTableSize o) (AdoIntTable o) (AdoStrTableSize o) t (atoms o).
Definition set_atoms (o : ATO) (m : gmap loc ANSC_ATOM_DESCRIPTOR) : ATO :=
  Ato (AdoIntTableSize o) (AdoIntTable o) (AdoStrTableSize o) (AdoStrTable o) m.

(** ** Buckets *)

(** [&Table[i]] *)
Definition get_bucket (t : option buckets) (i : Z) : outcome (list loc) :=
  match t with
  | None => Stuck NullDeref
  | Some t =>
      if i <? 0 then Stuck OutOfBounds
      else match t !! Z.to_nat i with Some b => Done b | None => Stuck OutOfBounds end
  end.
Definition put_bucket (t : option buckets) (i : Z) (b : list loc) : option buckets :=
  (fun t => <[Z.to_nat i := b]> t) <$> t.

(** The list operations on a bucket. *)
Definition AnscSListPushEntry' (b : list loc) (e : loc) : list loc := snd (sop_spec 1%positive (SPush e) b).
Definition AnscSListPopEntryByLink' (b : list loc) (e : loc) : list loc :=
  snd (sop_spec 1%positive (SPopByLink e) b).
Definition AnscSListQueryDepth' (b : list loc) : Z := USHORT (Zlen b).

(** The scan of a bucket for the first descriptor that passes a test. *)
Fixpoint find_atom (m : gmap loc ANSC_ATOM_DESCRIPTOR) (test : ANSC_ATOM_DESCRIPTOR -> outcome bool)
    (b : list loc) : outcome (option loc) :=
  match b with
  | [] => Done None
  | l :: b' =>
      match m !! l with
      | None => Stuck BadAccess
      | Some d => ok ← test d; if (ok : bool) then Done (Some l) else find_atom m test b'
      end
  end.

(** The loop that pops and frees every descriptor of a bucket. *)
Fixpoint drain (m : gmap loc ANSC_ATOM_DESCRIPTOR) (b : list loc)
  : outcome (gmap loc ANSC_ATOM_DESCRIPTOR) :=
  match b with
  | [] => Done m
  | l :: b' => match m !! l with None => Stuck BadAccess | Some _ => drain (delete l m) b' end
  end.
Definition drain_all (n : Z) (t : option buckets) (m : gmap loc ANSC_ATOM_DESCRIPTOR)
  : outcome (option buckets * gmap loc ANSC_ATOM_DESCRIPTOR) :=
  for_from 0 (Z.to_nat n) (fun i '(t, m) =>
    b ← get_bucket t i; m ← drain m b; Done (put_bucket t i [], m)) (t, m).

(** ** Atoms by name *)

Definition AnscAtoAddAtomByName (o : ATO) (name : option cstr) (id : Z) (ctx : C) (a : alloc_stream)
  : outcome (option loc * ATO * alloc_stream) :=
  match name with
  | None | Some [] => Done (None, o, a)
  | Some name =>
      ulHashIndex ← AnscHashString (Some name) (strlen name) (AdoStrTableSize o);
      let '(ok, a) := next_alloc a in
      if negb ok then Done (None, o, a)
      else
        let '(ok, a) := next_alloc a in
        let l := fresh (dom (atoms o)) in
        let d := Atom ulHashIndex (if ok then Some name else None) id ctx in
        b ← get_bucket (AdoStrTable o) ulHashIndex;
        let t := put_bucket (AdoStrTable o) ulHashIndex (AnscSListPushEntry' b l) in
        Done (Some l, set_str (set_atoms o (<[l := d]> (atoms o))) t, a)
  end.

(** [strcmp(pAtomDescriptor->AtomName, name) == 0] *)
Definition name_test (name : cstr) (d : ANSC_ATOM_DESCRIPTOR) : outcome bool :=
  match AtomName d with None => Stuck NullDeref | Some n => Done (bool_decide (n = name)) end.

Definition AnscAtoGetAtomByName (o : ATO) (name : option cstr) : outcome (option loc) :=
  match name with
  | None | Some [] => Done None
  | Some name =>
      ulHashIndex ← AnscHashString (Some name) (strlen name) (AdoStrTableSize o);
      b ← get_bucket (AdoStrTable o) ulHashIndex;
      find_atom (atoms o) (name_test name) b
  end.

Definition AnscAtoDelAtomByName (o : ATO) (name : option cstr) : outcome ATO :=
  r ← AnscAtoGetAtomByName o name;
  match r with
  | None => Done o
  | Some l =>
      match atoms o !! l with
      | None => Stuck BadAccess
      | Some d =>
          b ← get_bucket (AdoStrTable o) (HashIndex d);
          let t := put_bucket (AdoStrTable o) (HashIndex d) (AnscSListPopEntryByLink' b l) in
          Done (set_str (set_atoms o (delete l (atoms o))) t)
      end
  end.

Definition AnscAtoDelAllStrAtoms (o : ATO) : outcome ATO :=
  r ← drain_all (AdoStrTableSize o) (AdoStrTable o) (atoms o);
  let '(t, m) := r in Done (set_str (set_atoms o m) t).

(** ** Atoms by number *)

Definition AnscAtoAddAtomById (o : ATO) (id : Z) (name : option cstr) (ctx : C) (a : alloc_stream)
  : outcome (option loc * ATO * alloc_stream) :=
  ulHashIndex ← AnscHashUlong id (AdoIntTableSize o);
  let '(ok, a) := next_alloc a in
  if negb ok then Done (None, o, a)
  else
    let '(n, a) := match name with
                   | None => (None, a)
                   | Some s => let '(ok, a) := next_alloc a in (if ok then Some s else None, a)
                   end in
    let l := fresh (dom (atoms o)) in
    let d := Atom ulHashIndex n id ctx in
    b ← get_bucket (AdoIntTable o) ulHashIndex;
    let t := put_bucket (AdoIntTable o) ulHashIndex (AnscSListPushEntry' b l) in
    Done (Some l, set_int (set_atoms o (<[l := d]> (atoms o))) t, a).

Definition id_test (id : Z) (d : ANSC_ATOM_DESCRIPTOR) : outcome bool := Done (AtomId d =? id).

Definition AnscAtoGetAtomById (o : ATO) (id : Z) : outcome (option loc) :=
  ulHashIndex ← AnscHashUlong id (AdoIntTableSize o);
  b ← get_bucket (AdoIntTable o) ulHashIndex;
  find_atom (atoms o) (id_test id) b.

Definition AnscAtoDelAtomById (o : ATO) (id : Z) : outcome ATO :=
  r ← AnscAtoGetAtomById o id;
  match r with
  | None => Done o
  | Some l =>
      match atoms o !! l with
      | None => Stuck BadAccess
      | Some d =>
          b ← get_bucket (AdoIntTable o) (HashIndex d);
          let t := put_bucket (AdoIntTable o) (HashIndex d) (AnscSListPopEntryByLink' b l) in
          Done (set_int (set_atoms o (delete l (atoms o))) t)
      end
  end.

Definition AnscAtoDelAllIntAtoms (o : ATO) : outcome ATO :=
  r ← drain_all (AdoIntTableSize o) (AdoIntTable o) (atoms o);
  let '(t, m) := r in Done (set_int (set_atoms o m) t).

(** ** Tables, counts and enumeration *)

Inductive ato_status := ATO_SUCCESS | ATO_RESOURCES.

Definition AnscAtoAllocateIntTable (o : ATO) (a : alloc_stream) : outcome (ato_status * ATO * alloc_stream) :=
  o ← match AdoIntTable o with None => Done o | Some _ => AnscAtoDelAllIntAtoms o end;
  let '(ok, a) := next_alloc a in
  if negb ok then Done (ATO_RESOURCES, set_int o None, a)
  else Done (ATO_SUCCESS, set_int o (Some (replicate (Z.to_nat (AdoIntTableSize o)) [])), a).

Definition AnscAtoAllocateStrTable (o : ATO) (a : alloc_stream) : outcome (ato_status * ATO * alloc_stream) :=
  o ← match AdoStrTable o with None => Done o | Some _ => AnscAtoDelAllStrAtoms o end;
  let '(ok, a) := next_alloc a in
  if negb ok then Done (ATO_RESOURCES, set_str o None, a)
  else Done (ATO_SUCCESS, set_str o (Some (replicate (Z.to_nat (AdoStrTableSize o)) [])), a).

Definition AnscAtoGetIntTableSize (o : ATO) : Z := AdoIntTableSize o.
Definition AnscAtoGetStrTableSize (o : ATO) : Z := AdoStrTableSize o.
Definition AnscAtoSetIntTableSize (o : ATO) (ulSize : Z) (a : alloc_stream)
  : outcome (ato_status * ATO * alloc_stream) :=
  AnscAtoAllocateIntTable (Ato ulSize (AdoIntTable o) (AdoStrTableSize o) (AdoStrTable o) (atoms o)) a.
Definition AnscAtoSetStrTableSize (o : ATO) (ulSize : Z) (a : alloc_stream)
  : outcome (ato_status * ATO * alloc_stream) :=
  AnscAtoAllocateStrTable (Ato (AdoIntTableSize o) (AdoIntTable o) ulSize (AdoStrTable o) (atoms o)) a.

Definition count_all (n : Z) (t : option buckets) : outcome Z :=
  for_from 0 (Z.to_nat n) (fun i c => b ← get_bucket t i; Done (ULONG (c + AnscSListQueryDepth' b))) 0.
Definition AnscAtoGetIntAtomCount (o : ATO) : outcome Z := count_all (AdoIntTableSize o) (AdoIntTable o).
Definition AnscAtoGetStrAtomCount (o : ATO) : outcome Z := count_all (AdoStrTableSize o) (AdoStrTable o).
Definition AnscAtoGetAtomCount (o : ATO) : outcome Z := AnscAtoGetIntAtomCount o.
Definition AnscAtoGetAtomCount2 (o : ATO) : outcome Z := AnscAtoGetStrAtomCount o.

(** The loop over the buckets that skips [index] descriptors. *)
Fixpoint by_index (n : nat) (i : Z) (t : option buckets) (index ulSkipCount : Z) : outcome (option loc) :=
  match n with
  | O => Done None
  | S k =>
      b ← get_bucket t i;
      if AnscSListQueryDepth' b <=? ULONG (index - ulSkipCount)
      then by_index k (i + 1) t index (ULONG (ulSkipCount + AnscSListQueryDepth' b))
      else Done (b !! Z.to_nat (ULONG (index - ulSkipCount)))
  end.
Definition AnscAtoGetAtomByIndex (o : ATO) (index : Z) : outcome (option loc) :=
  by_index (Z.to_nat (AdoIntTableSize o)) 0 (AdoIntTable o) index 0.
Definition AnscAtoGetAtomByIndex2 (o : ATO) (index : Z) : outcome (option loc) :=
  by_index (Z.to_nat (AdoStrTableSize o)) 0 (AdoStrTable o) index 0.

(** ** Creation and removal *)

Definition ANSC_ATO_ADO_TABLE_SIZE : Z := 64.

(** The status of the two table allocations is not looked at. *)
Definition AnscAtoInitialize (a : alloc_stream) : outcome (ATO * alloc_stream) :=
  let o := Ato ANSC_ATO_ADO_TABLE_SIZE None ANSC_ATO_ADO_TABLE_SIZE None ∅ in
  r ← AnscAtoAllocateIntTable o a;
  let '(_, o, a) := r in
  r ← AnscAtoAllocateStrTable o a;
  let '(_, o, a) := r in
  Done (o, a).

Definition AnscAtoCreate (a : alloc_stream) : outcome (option ATO * alloc_stream) :=
  let '(ok, a) := next_alloc a in
  if negb ok then Done (None, a)
  else r ← AnscAtoInitialize a; let '(o, a) := r in Done (Some o, a).

Definition AnscAtoReset (o : ATO) : outcome ATO :=
  o ← AnscAtoDelAllStrAtoms o; AnscAtoDelAllIntAtoms o.

(** Yields the descriptors that are still allocated when the object is gone. *)
Definition AnscAtoRemove (o : ATO) : outcome (gmap loc ANSC_ATOM_DESCRIPTOR) :=
  atoms <$> AnscAtoReset o.

End atom_table.

Arguments ANSC_ATOM_DESCRIPTOR : clear implicits.
Arguments ANSC_ATOM_TABLE_OBJECT : clear implicits.

(** ** The buckets of one table *)

Definition locs (t : option buckets) : list loc := match t with Some bs => mjoin bs | None => [] end.

Lemma lremove_Permutation l b : NoDup b -> l ∈ b -> b ≡ₚ l :: lremove l b.
Proof.
  intros Hnd Hl. apply list_elem_of_split in Hl as (b1 & b2 & ->).
  rewrite lremove_split by done. by rewrite <-Permutation_middle.
Qed.

Lemma join_cons b (bs : buckets) : mjoin (b :: bs) = b ++ mjoin bs.
Proof. done. Qed.

Lemma join_lookup (bs : buckets) i b :
  bs !! i = Some b -> mjoin bs ≡ₚ b ++ mjoin (delete i bs).
Proof.
  intros Hb. rewrite <-(take_drop_middle bs i b Hb) at 1.
  rewrite delete_take_drop, !join_app. cbn. by rewrite !app_assoc, (Permutation_app_comm b).
Qed.

Lemma join_insert (bs : buckets) i b b' :
  bs !! i = Some b -> mjoin (<[i := b']> bs) ≡ₚ b' ++ mjoin (delete i bs).
Proof.
  intros Hb. rewrite insert_take_drop by by eapply lookup_lt_Some.
  rewrite delete_take_drop, !join_app. cbn. by rewrite !app_assoc, (Permutation_app_comm b').
Qed.

Section one_table.
Context {C : Type}.
Abbreviation desc := (ANSC_ATOM_DESCRIPTOR C).
Abbreviation store := (gmap loc desc).
Implicit Types (t : option buckets) (m : store) (b : list loc).

(** A table of [n] buckets: the descriptors are allocated, chained once, and
    each satisfies the predicate of its bucket. *)
Definition table_ok (n : Z) t m (P : Z -> desc -> Prop) : Prop :=
    0 < n /\ exists bs, t = Some bs /\ Zlen bs = n /\ NoDup (mjoin bs) /\
      forall i b l, bs !! i = Some b -> l ∈ b -> exists d, m !! l = Some d /\ P (Z.of_nat i) d.

Lemma locs_spec bs l : l ∈ locs (Some bs) <-> exists (i : nat) b, bs !! i = Some b /\ l ∈ b.
Proof.
    cbn. rewrite list_elem_of_join. split.
    - intros (b & Hl & (i & Hi)%list_elem_of_lookup). eauto.
    - intros (i & b & Hb & Hl). exists b. split; [done|]. by eapply list_elem_of_lookup_2.
Qed.

Lemma table_ok_frame n t m m' P :
    table_ok n t m P -> (forall l, l ∈ locs t -> m' !! l = m !! l) -> table_ok n t m' P.
Proof.
    intros (Hn & bs & -> & Hlen & Hnd & Hd) Hm. split; [done|]. exists bs. split_and!; try done.
    intros i b l Hb Hl. rewrite Hm by (apply locs_spec; eauto). eauto.
Qed.

Lemma table_ok_bucket n t m P i :
    table_ok n t m P -> 0 <= i < n ->
    exists b, get_bucket t i = Done b /\ NoDup b /\
      (forall l, l ∈ b -> l ∈ locs t /\ exists d, m !! l = Some d /\ P i d).
Proof.
    intros (Hn & bs & -> & Hlen & Hnd & Hd) Hi.
    destruct (lookup_lt_is_Some_2 bs (Z.to_nat i)) as [b Hb]; [lia|].
    exists b. unfold get_bucket. destruct (Z.ltb_spec i 0); [lia|]. rewrite Hb.
    split; [done|]. split.
    - rewrite (join_lookup _ _ _ Hb) in Hnd. by apply NoDup_app in Hnd as [? _].
    - intros l Hl. split; [apply locs_spec; eauto|].
      destruct (Hd _ _ _ Hb Hl) as (d & ? & HP). rewrite Z2Nat.id in HP by lia. eauto.
Qed.

(** Replacing a bucket by one that differs in one descriptor. *)
Lemma table_ok_put n t m m' P i b b' :
    table_ok n t m P -> 0 <= i < n -> get_bucket t i = Done b ->
    NoDup b' ->
    (forall l, l ∈ b' -> l ∈ b \/ l ∉ locs t) ->
    (forall l, l ∈ locs t -> l ∉ b \/ l ∈ b' -> m' !! l = m !! l) ->
    (forall l, l ∈ b' -> exists d, m' !! l = Some d /\ P i d) ->
    table_ok n (put_bucket t i b') m' P /\
    exists r, locs t ≡ₚ b ++ r /\ locs (put_bucket t i b') ≡ₚ b' ++ r.
Proof.
    intros (Hn & bs & -> & Hlen & Hnd & Hd) Hi Hget Hnd' Hsub Hm Hb'.
    unfold get_bucket in Hget. destruct (Z.ltb_spec i 0); [lia|].
    destruct (bs !! Z.to_nat i) as [b0|] eqn:Hb; [|done]. injection Hget as ->.
    assert (Hperm := join_lookup _ _ _ Hb). assert (Hperm' := join_insert _ _ _ b' Hb).
    split; [|exists (mjoin (delete (Z.to_nat i) bs)); cbn; by split].
    split; [done|]. exists (<[Z.to_nat i := b']> bs). cbn. rewrite length_insert.
    assert (Hrest : forall l, l ∈ mjoin (delete (Z.to_nat i) bs) -> l ∈ locs (Some bs) /\ l ∉ b).
    { intros l Hl. rewrite Hperm in Hnd. apply NoDup_app in Hnd as (_ & Hdis & _).
      split; [cbn; rewrite Hperm; by apply elem_of_app; right|]. intros ?. by eapply Hdis. }
    split_and!; try done.
    - rewrite Hperm'. apply NoDup_app. split_and!; [done| |].
      + intros l Hl Hr. destruct (Hrest l Hr) as [? ?]. by destruct (Hsub l Hl).
      + rewrite Hperm in Hnd. by apply NoDup_app in Hnd as (_ & _ & ?).
    - intros j bj l Hbj Hl. destruct (decide (j = Z.to_nat i)) as [->|Hne].
      + rewrite list_lookup_insert_eq in Hbj by (by eapply lookup_lt_Some). injection Hbj as <-.
        rewrite Z2Nat.id by lia. eauto.
      + rewrite list_lookup_insert_ne in Hbj by done.
        destruct (Hd _ _ _ Hbj Hl) as (d & Hmd & HP). exists d. split; [|done].
        rewrite Hm; [done|apply locs_spec; eauto|]. left.
        apply (Hrest l). apply list_elem_of_join. exists bj. split; [done|].
        destruct (decide (j < Z.to_nat i)%nat).
        * apply (list_elem_of_lookup_2 _ j). by rewrite list_lookup_delete_lt.
        * apply (list_elem_of_lookup_2 _ (j - 1)). rewrite list_lookup_delete_ge by lia.
          rewrite <-Hbj. f_equal. lia.
Qed.

Lemma table_ok_push n t m P i b l d :
    table_ok n t m P -> 0 <= i < n -> get_bucket t i = Done b -> l ∉ locs t -> P i d ->
    table_ok n (put_bucket t i (l :: b)) (<[l := d]> m) P /\
    locs (put_bucket t i (l :: b)) ≡ₚ l :: locs t.
Proof.
    intros Hok Hi Hget Hl HP.
    destruct (table_ok_bucket _ _ _ _ _ Hok Hi) as (b0 & E & Hnd & Hb).
    rewrite Hget in E. injection E as <-.
    destruct (table_ok_put n t m (<[l := d]> m) P i b (l :: b)) as (Hok' & r & Hr1 & Hr2); try done.
    - constructor; [|done]. by intros [? _]%Hb.
    - intros l' [->|?]%elem_of_cons; auto.
    - intros l' Hl' _. rewrite lookup_insert_ne; [done|]. by intros ->.
    - intros l' [->|Hl']%elem_of_cons; [exists d; by rewrite lookup_insert_eq|].
      destruct (Hb l' Hl') as [Hin Hd]. rewrite lookup_insert_ne; [done|]. by intros ->.
    - split; [done|]. by rewrite Hr2, Hr1.
Qed.

Lemma table_ok_remove n t m P i b l :
    table_ok n t m P -> 0 <= i < n -> get_bucket t i = Done b -> l ∈ b ->
    table_ok n (put_bucket t i (lremove l b)) (delete l m) P /\
    locs t ≡ₚ l :: locs (put_bucket t i (lremove l b)).
Proof.
    intros Hok Hi Hget Hl.
    destruct (table_ok_bucket _ _ _ _ _ Hok Hi) as (b0 & E & Hnd & Hb).
    rewrite Hget in E. injection E as <-.
    destruct (table_ok_put n t m (delete l m) P i b (lremove l b)) as (Hok' & r & Hr1 & Hr2); try done.
    - unfold lremove. by apply NoDup_filter.
    - intros l' [_ ?]%elem_of_lremove. by left.
    - intros l' _ Hor. rewrite lookup_delete_ne; [done|]. intros <-.
      destruct Hor as [?|[? _]%elem_of_lremove]; done.
    - intros l' [Hne Hl']%elem_of_lremove. rewrite lookup_delete_ne by done. by apply Hb.
    - split; [done|]. by rewrite Hr2, Hr1, (lremove_Permutation l b) at 1.
Qed.

(** Freeing everything. *)
Lemma drain_spec m b :
    NoDup b -> (forall l, l ∈ b -> is_Some (m !! l)) ->
    exists m', drain m b = Done m' /\ forall l, m' !! l = if decide (l ∈ b) then None else m !! l.
Proof.
    intros Hnd. revert m. induction Hnd as [|l b Hl Hnd IH]; intros m Hm; cbn [drain].
    - exists m. split; [done|]. intros l. by rewrite decide_False by apply not_elem_of_nil.
    - destruct (Hm l) as [d ->]; [left|]. destruct (IH (delete l m)) as (m' & E & Hm').
      { intros l' Hl'. rewrite lookup_delete_ne by by intros ->. apply Hm. by right. }
      exists m'. split; [done|]. intros l'. rewrite Hm'. clear Hm'.
      destruct (decide (l' = l)) as [->|Hne].
      + rewrite (decide_True (P := l ∈ l :: b)) by left. case_decide; [done|]. apply lookup_delete_eq.
      + rewrite lookup_delete_ne by done. destruct (decide (l' ∈ b)).
        * by rewrite decide_True by by right.
        * rewrite decide_False; [done|]. by intros [?|?]%elem_of_cons.
Qed.

Lemma drain_some_spec n bs m P k :
    table_ok n (Some bs) m P -> 0 <= k <= n ->
    exists m', drain_all k (Some bs) m = Done (Some (replicate (Z.to_nat k) [] ++ drop (Z.to_nat k) bs), m') /\
      forall l, m' !! l = if decide (l ∈ mjoin (take (Z.to_nat k) bs)) then None else m !! l.
Proof.
    intros (Hn & bs' & [= <-] & Hlen & Hnd & Hd) Hk. unfold drain_all.
    destruct (for_from_inv (fun i '(t, m') =>
        t = Some (replicate (Z.to_nat i) [] ++ drop (Z.to_nat i) bs) /\
        forall l, m' !! l = if decide (l ∈ mjoin (take (Z.to_nat i) bs)) then None else m !! l)
      (fun i '(t, m) => b ← get_bucket t i; m ← drain m b; Done (put_bucket t i [], m))
      0 (Z.to_nat k) (Some bs, m)) as ([t' m'] & E & -> & Hm').
    - rewrite drop_0. split; [done|]. intros l. by rewrite decide_False by apply not_elem_of_nil.
    - intros j [t' m1] Hj [-> Hm1].
      destruct (lookup_lt_is_Some_2 bs (Z.to_nat j)) as [b Hb]; [lia|].
      unfold get_bucket. destruct (Z.ltb_spec j 0); [lia|].
      rewrite lookup_app_r, length_replicate, Nat.sub_diag by (rewrite length_replicate; lia).
      rewrite lookup_drop, Nat.add_0_r, Hb. cbn [mbind outcome_bind].
      assert (Hsplit : mjoin bs = mjoin (take (Z.to_nat j) bs) ++ b ++ mjoin (drop (S (Z.to_nat j)) bs)).
      { rewrite <-(take_drop_middle bs (Z.to_nat j) b Hb) at 1. by rewrite join_app. }
      rewrite Hsplit in Hnd. apply NoDup_app in Hnd as (_ & Hdis & Hnd). apply NoDup_app in Hnd as (Hndb & _ & _).
      destruct (drain_spec m1 b Hndb) as (m2 & -> & Hm2).
      { intros l Hl. rewrite Hm1, decide_False.
        - destruct (Hd _ _ _ Hb Hl) as (d & -> & _). by eexists.
        - intros Hl'. apply (Hdis l Hl'). apply elem_of_app. by left. }
      cbn [mbind outcome_bind]. eexists (_, m2). split; [done|].
      replace (Z.to_nat (j + 1)) with (S (Z.to_nat j)) by lia. split.
      + unfold put_bucket. cbn [fmap option_fmap option_map]. f_equal. rewrite insert_app_r_alt, length_replicate, Nat.sub_diag
          by (rewrite length_replicate; lia).
        by rewrite (drop_S _ b), replicate_S_end, <-app_assoc by done.
      + intros l. rewrite Hm2, Hm1. rewrite (take_S_r _ _ b), join_app by done. cbn. rewrite app_nil_r.
        repeat case_decide; try done; rewrite elem_of_app in *; tauto.
    - rewrite Z.add_0_l, Nat2Z.id in *. eauto.
Qed.

Lemma drain_all_spec n t m P :
    table_ok n t m P ->
    exists m', drain_all n t m = Done (Some (replicate (Z.to_nat n) []), m') /\
      forall l, m' !! l = if decide (l ∈ locs t) then None else m !! l.
Proof.
    intros Hok. assert (Hok' := Hok). destruct Hok' as (Hn & bs & -> & Hlen & _).
    destruct (drain_some_spec n bs m P n Hok) as (m' & -> & Hm'); [lia|].
    exists m'. rewrite drop_ge, app_nil_r by lia. split; [done|]. by rewrite take_ge in Hm' by lia.
Qed.

(** ** The descriptors with a given key *)

(** The descriptor at [l] passes the test [q]. *)
Definition sel m (q : desc -> bool) (l : loc) : Prop :=
    match m !! l with Some d => q d = true | None => False end.
#[local] Instance sel_dec m q l : Decision (sel m q l).
Proof. unfold sel. destruct (m !! l); apply _. Defined.

Lemma filter_agree (P Q : loc -> Prop) `{forall l, Decision (P l)} `{forall l, Decision (Q l)} b :
    (forall l, l ∈ b -> P l <-> Q l) -> filter P b = filter Q b.
Proof.
    induction b as [|l b IH]; intros Hb; [done|].
    assert (Hl : P l <-> Q l) by (apply Hb; left).
    assert (Hr : filter P b = filter Q b) by (apply IH; intros l' Hl'; apply Hb; by right).
    destruct (decide (P l)).
    - rewrite !filter_cons_True by tauto. by rewrite Hr.
    - rewrite !filter_cons_False by tauto. done.
Qed.

Lemma filter_lremove (P : loc -> Prop) `{forall l, Decision (P l)} l b :
    filter P (lremove l b) = lremove l (filter P b).
Proof.
    unfold lremove. rewrite !list_filter_filter. apply filter_agree. tauto.
Qed.

Lemma lremove_head l b : NoDup (l :: b) -> lremove l (l :: b) = b.
Proof. intros Hnd. by apply (lremove_split l [] b). Qed.

(** Descriptors with one key are all in one bucket. *)
Lemma filter_bucket n t m P q h b :
    table_ok n t m P -> 0 <= h -> get_bucket t h = Done b ->
    (forall i d, 0 <= i -> P i d -> q d = true -> i = h) ->
    filter (sel m q) (locs t) = filter (sel m q) b.
Proof.
    intros (Hn & bs & -> & Hlen & Hnd & Hd) Hh Hget Hq. unfold get_bucket in Hget.
    destruct (Z.ltb_spec h 0); [lia|]. destruct (bs !! Z.to_nat h) as [b0|] eqn:Hb; [|done].
    injection Hget as ->. cbn [locs].
    rewrite <-(take_drop_middle bs (Z.to_nat h) b Hb), join_app, join_cons, !filter_app.
    assert (Hno : forall bs', (forall j b', bs' !! j = Some b' -> exists i, i ≠ Z.to_nat h /\ bs !! i = Some b') ->
      filter (sel m q) (mjoin bs') = []).
    { intros bs' Hbs'. apply filter_none. intros l (b' & Hl & (j & Hj)%list_elem_of_lookup)%list_elem_of_join Hsel.
      destruct (Hbs' j b' Hj) as (i & Hi & Hbi). destruct (Hd i b' l Hbi Hl) as (d & Hml & HP).
      unfold sel in Hsel. rewrite Hml in Hsel. apply Hi. rewrite <-(Hq (Z.of_nat i) d) by (done || lia). lia. }
    rewrite (Hno (take (Z.to_nat h) bs)), (Hno (drop (S (Z.to_nat h)) bs)).
    - by rewrite app_nil_r.
    - intros j b'. rewrite lookup_drop. exists (S (Z.to_nat h) + j)%nat. split; [lia|done].
    - intros j b' [Hj ?]%lookup_take_Some. exists j. split; [lia|done].
Qed.

Lemma find_atom_head m test q b :
    (forall l, l ∈ b -> exists d, m !! l = Some d /\ test d = Done (q d)) ->
    find_atom m test b = Done (head (filter (sel m q) b)).
Proof.
    induction b as [|l b IH]; intros Hb; cbn [find_atom]; [done|].
    destruct (Hb l) as (d & E & Ht); [left|]. rewrite E, Ht. cbn [mbind outcome_bind].
    destruct (q d) eqn:Eq.
    - rewrite filter_cons_True; [done|]. unfold sel. by rewrite E.
    - rewrite filter_cons_False; [|unfold sel; rewrite E; by rewrite Eq].
      apply IH. intros l' Hl'. apply Hb. by right.
Qed.

(** The effect of one insertion and one removal on the descriptors with a key:
    [q] is that key's test and [q'] the test of any key. *)
Lemma push_sel n t m P i b l d q :
    table_ok n t m P -> 0 <= i < n -> get_bucket t i = Done b -> l ∉ locs t ->
    P i d -> m !! l = None ->
    (forall h bh, 0 <= h < n -> get_bucket t h = Done bh -> (forall i d, 0 <= i -> P i d -> q d = true -> i = h) ->
    filter (sel (<[l := d]> m) q) (locs (put_bucket t i (l :: b))) =
      (if q d then [l] else []) ++ filter (sel m q) (locs t)).
Proof.
    intros Hok Hi Hget Hl HP Hml h bh Hh Hgh Hq.
    destruct (table_ok_push _ _ _ _ _ _ _ d Hok Hi Hget Hl HP) as [Hok' _].
    assert (Hag : forall b', l ∉ b' -> filter (sel (<[l := d]> m) q) b' = filter (sel m q) b').
    { intros b' Hb'. apply filter_agree. intros l' Hl'. unfold sel.
      rewrite lookup_insert_ne; [done|]. by intros ->. }
    destruct (table_ok_bucket _ _ _ _ _ Hok Hh) as (b1 & E & _ & Hb1). rewrite Hgh in E. injection E as <-.
    assert (Hlb : l ∉ bh) by by intros [? _]%Hb1.
    rewrite (filter_bucket _ _ _ _ q h bh Hok) by (done || lia).
    assert (exists bh', get_bucket (put_bucket t i (l :: b)) h = Done bh' /\
      filter (sel (<[l := d]> m) q) bh' = (if q d then [l] else []) ++ filter (sel m q) bh) as (bh' & Egh & Eq).
    { destruct Hok as (Hn & bs & -> & Hlen & _). unfold get_bucket, put_bucket in *. cbn.
      destruct (Z.ltb_spec h 0); [lia|]. destruct (decide (h = i)) as [->|Hne].
      - rewrite list_lookup_insert_eq by lia. eexists. split; [done|].
        destruct (Z.ltb_spec i 0); [lia|]. rewrite Hget in Hgh. injection Hgh as ->.
        destruct (q d) eqn:Eqd.
        + rewrite filter_cons_True by (unfold sel; by rewrite lookup_insert_eq). cbn. f_equal. by apply Hag.
        + rewrite filter_cons_False by (unfold sel; rewrite lookup_insert_eq; by rewrite Eqd). by apply Hag.
      - rewrite list_lookup_insert_ne by lia. exists bh. split; [done|].
        destruct (q d) eqn:Eqd; [|by apply Hag]. exfalso. apply Hne. symmetry. by eapply Hq; [lia|..]. }
    rewrite <-Eq. apply (filter_bucket _ _ _ _ q h bh' Hok'); done || lia.
Qed.

Lemma remove_sel n t m P i b l q :
    table_ok n t m P -> 0 <= i < n -> get_bucket t i = Done b -> l ∈ b ->
    filter (sel (delete l m) q) (locs (put_bucket t i (lremove l b))) =
      lremove l (filter (sel m q) (locs t)).
Proof.
    intros (Hn & bs & -> & Hlen & Hnd & Hd) Hi Hget Hl. unfold get_bucket, put_bucket in *.
    destruct (Z.ltb_spec i 0); [lia|]. destruct (bs !! Z.to_nat i) as [b0|] eqn:Hb; [|done].
    injection Hget as ->. cbn [fmap option_fmap option_map locs].
    assert (Hsplit : mjoin bs = mjoin (take (Z.to_nat i) bs) ++ b ++ mjoin (drop (S (Z.to_nat i)) bs)).
    { rewrite <-(take_drop_middle bs (Z.to_nat i) b Hb) at 1. by rewrite join_app. }
    assert (Hsplit' : mjoin (<[Z.to_nat i := lremove l b]> bs) = lremove l (mjoin bs)).
    { rewrite insert_take_drop, join_app by by eapply lookup_lt_Some. cbn. rewrite Hsplit in *.
      unfold lremove. rewrite !filter_app. f_equal; [|f_equal]; symmetry; apply lremove_absent; intros Hin;
        apply NoDup_app in Hnd as (_ & Hdis & Hnd); apply NoDup_app in Hnd as (_ & Hdis' & _).
      - apply (Hdis l Hin), elem_of_app. by left.
      - by apply (Hdis' l Hl). }
    rewrite Hsplit', <-filter_lremove. apply filter_agree. intros l' [Hne _]%elem_of_lremove.
    unfold sel. by rewrite lookup_delete_ne.
Qed.

End one_table.

(** ** The invariant of the object and its abstract contents *)

Section contents.
Context `{Platform} {C : Type}.
Abbreviation desc := (ANSC_ATOM_DESCRIPTOR C).
Abbreviation ATO := (ANSC_ATOM_TABLE_OBJECT C).
Implicit Types (o : ATO) (s : cstr) (l : loc).

Definition str_bucket (size i : Z) (d : desc) : Prop :=
    HashIndex d = i /\ exists s, AtomName d = Some s /\ s ≠ [] /\
      AnscHashString (Some s) (strlen s) size = Done i.
Definition int_bucket (size i : Z) (d : desc) : Prop :=
    HashIndex d = i /\ AtomId d mod size = i.

(** Both tables are well formed, they share no descriptor, and the allocated
    descriptors are exactly those chained in them. *)
Definition ato_ok o : Prop :=
    table_ok (AdoStrTableSize o) (AdoStrTable o) (atoms o) (str_bucket (AdoStrTableSize o)) /\
    table_ok (AdoIntTableSize o) (AdoIntTable o) (atoms o) (int_bucket (AdoIntTableSize o)) /\
    (forall l, l ∈ locs (AdoStrTable o) -> l ∈ locs (AdoIntTable o) -> False) /\
    (forall l, is_Some (atoms o !! l) <-> l ∈ locs (AdoStrTable o) \/ l ∈ locs (AdoIntTable o)).

Definition has_name s (d : desc) : bool := bool_decide (AtomName d = Some s).
Definition has_id (id : Z) (d : desc) : bool := AtomId d =? id.

(** The descriptors chained under a name and under a number, the most recent
    first. *)
#[local] Existing Instance sel_dec.
Definition str_locs o s : list loc := filter (sel (atoms o) (has_name s)) (locs (AdoStrTable o)).
Definition int_locs o (id : Z) : list loc := filter (sel (atoms o) (has_id id)) (locs (AdoIntTable o)).

Lemma hash_bucket o s :
    ato_ok o -> exists i b, AnscHashString (Some s) (strlen s) (AdoStrTableSize o) = Done i /\
      0 <= i < AdoStrTableSize o /\ get_bucket (AdoStrTable o) i = Done b /\
      NoDup b /\ (forall l, l ∈ b -> l ∈ locs (AdoStrTable o) /\
        exists d, atoms o !! l = Some d /\ str_bucket (AdoStrTableSize o) i d).
Proof.
    intros (Hs & _). destruct (AnscHashString_ok s (AdoStrTableSize o)) as (i & Ei & Hi); [apply Hs|].
    destruct (table_ok_bucket _ _ _ _ i Hs Hi) as (b & Eb & Hb). eauto 10.
Qed.

(** A name hashes to one bucket. *)
Lemma has_name_bucket size s i h d :
    AnscHashString (Some s) (strlen s) size = Done h ->
    str_bucket size i d -> has_name s d = true -> i = h.
Proof.
    intros Hh (_ & s' & E & _ & Hi) Hq. apply bool_decide_eq_true in Hq. simplify_eq. congruence.
Qed.

Lemma AnscAtoGetAtomByName_spec o s :
    ato_ok o -> s ≠ [] -> AnscAtoGetAtomByName o (Some s) = Done (head (str_locs o s)).
Proof.
    intros Hok Hs. destruct (hash_bucket o s Hok) as (i & b & Ei & Hi & Eb & _ & Hb).
    unfold AnscAtoGetAtomByName. destruct s as [|c s]; [done|]. rewrite Ei. cbn [mbind outcome_bind].
    rewrite Eb. cbn [mbind outcome_bind].
    rewrite (find_atom_head _ _ (has_name (c :: s))).
    - unfold str_locs. destruct Hok as (Hstr & _).
      rewrite (filter_bucket _ _ _ _ _ i b Hstr); [done|lia|done|].
      intros j d _ Hj Hq. by eapply has_name_bucket.
    - intros l Hl. destruct (Hb l Hl) as (_ & d & Ed & _ & n & En & _). exists d. split; [done|].
      unfold name_test, has_name. rewrite En. f_equal. apply bool_decide_ext. naive_solver.
Qed.

Lemma AnscAtoAddAtomByName_spec o s id ctx :
    ato_ok o -> s ≠ [] ->
    exists l h o', AnscAtoAddAtomByName o (Some s) id ctx [] = Done (Some l, o', []) /\ ato_ok o' /\
      atoms o !! l = None /\ atoms o' = <[l := Atom h (Some s) id ctx]> (atoms o) /\
      AdoIntTable o' = AdoIntTable o /\
      (forall s', str_locs o' s' = (if bool_decide (s' = s) then [l] else []) ++ str_locs o s') /\
      (forall id', int_locs o' id' = int_locs o id').
Proof.
    intros Hok Hs. destruct (hash_bucket o s Hok) as (i & b & Ei & Hi & Eb & _ & Hb).
    unfold AnscAtoAddAtomByName. destruct s as [|c s]; [done|]. rewrite Ei.
    set (name := c :: s) in *. cbn [mbind outcome_bind next_alloc negb]. rewrite Eb. cbn [mbind outcome_bind].
    set (l := fresh (dom (atoms o))). set (d := Atom i (Some name) id ctx).
    assert (Hl : atoms o !! l = None) by (apply not_elem_of_dom, is_fresh).
    destruct Hok as (Hstr & Hint & Hdis & Hdom).
    assert (Hls : l ∉ locs (AdoStrTable o)).
    { intros Hin. destruct (Hdom l) as [_ [x Hx]]; [by left|]. by rewrite Hl in Hx. }
    assert (Hli : l ∉ locs (AdoIntTable o)).
    { intros Hin. destruct (Hdom l) as [_ [x Hx]]; [by right|]. by rewrite Hl in Hx. }
    assert (HP : str_bucket (AdoStrTableSize o) i d) by (split; [done|]; by exists name).
    change (AnscSListPushEntry' b l) with (l :: b).
    destruct (table_ok_push _ _ _ _ i b l d Hstr Hi Eb Hls HP) as [Hstr' Hperm].
    eexists l, i, _. split; [done|]. cbn.
    split.
    { split_and!; cbn; [done| | |].
      - eapply table_ok_frame; [done|]. intros l' Hl'. rewrite lookup_insert_ne; [done|]. by intros <-.
      - intros l'. rewrite Hperm. intros [->|?]%elem_of_cons; [done|]. by apply Hdis.
      - intros l'. rewrite Hperm, elem_of_cons. destruct (decide (l' = l)) as [->|Hne].
        + rewrite lookup_insert_eq. split; [intros _; left; by left|]. by eexists.
        + rewrite lookup_insert_ne by done. rewrite Hdom. naive_solver. }
    split_and!; try done.
    - intros s'. unfold str_locs. cbn.
      destruct (AnscHashString_ok s' (AdoStrTableSize o)) as (h & Eh & Hh); [lia|].
      destruct (table_ok_bucket _ _ _ _ h Hstr Hh) as (bh & Ebh & _).
      rewrite (push_sel _ _ _ _ i b l d (has_name s') Hstr Hi Eb Hls HP Hl h bh Hh Ebh).
      + f_equal. unfold has_name. cbn.
        destruct (decide (s' = name)) as [->|Hne]; [by rewrite !bool_decide_true|].
        by rewrite !bool_decide_false by congruence.
      + intros j dj _ Hj Hq. by eapply has_name_bucket.
    - intros id'. unfold int_locs. cbn. apply filter_agree. intros l' Hl'. unfold sel.
      rewrite lookup_insert_ne; [done|]. by intros <-.
Qed.

Lemma str_locs_NoDup o s : ato_ok o -> NoDup (str_locs o s).
Proof.
    intros ((_ & bs & E & _ & Hnd & _) & _). apply NoDup_filter. by rewrite E.
Qed.

Lemma AnscAtoDelAtomByName_spec o s :
    ato_ok o -> s ≠ [] ->
    exists o', AnscAtoDelAtomByName o (Some s) = Done o' /\ ato_ok o' /\
      atoms o' = match head (str_locs o s) with Some l => delete l (atoms o) | None => atoms o end /\
      AdoIntTable o' = AdoIntTable o /\
      (forall s', str_locs o' s' = if bool_decide (s' = s) then tail (str_locs o s') else str_locs o s') /\
      (forall id', int_locs o' id' = int_locs o id').
Proof.
    intros Hok Hs. unfold AnscAtoDelAtomByName. rewrite AnscAtoGetAtomByName_spec by done.
    cbn [mbind outcome_bind]. destruct (head (str_locs o s)) as [l|] eqn:Eh.
    2:{ exists o. split_and!; try done. intros s'. case_bool_decide as E; [|done]. subst.
        by destruct (str_locs o s). }
    assert (Hl : l ∈ str_locs o s) by (destruct (str_locs o s); [done|]; injection Eh as ->; left).
    pose proof (str_locs_NoDup o s Hok) as Hndl.
    unfold str_locs in Hl. apply list_elem_of_filter in Hl as [Hsel Hlin].
    unfold sel in Hsel. destruct (atoms o !! l) as [d|] eqn:Ed; [|done].
    assert (Hok' := Hok). destruct Hok' as (Hstr & Hint & Hdis & Hdom).
    destruct (hash_bucket o s Hok) as (i & b & Ei & Hi & Eb & Hndb & Hb).
    assert (Hlb : l ∈ b).
    { assert (Hin : l ∈ str_locs o s) by (destruct (str_locs o s); [done|]; injection Eh as ->; left).
      unfold str_locs in Hin. rewrite (filter_bucket _ _ _ _ _ i b Hstr) in Hin; [|lia|done|].
      - by apply list_elem_of_filter in Hin as [_ ?].
      - intros j dj _ Hj Hq. by eapply has_name_bucket. }
    destruct (Hb l Hlb) as (_ & d' & Ed' & Hidx & _). rewrite Ed in Ed'. injection Ed' as <-.
    rewrite Hidx, Eb. cbn [mbind outcome_bind].
    change (AnscSListPopEntryByLink' b l) with (lremove l b).
    destruct (table_ok_remove _ _ _ _ i b l Hstr Hi Eb Hlb) as [Hstr' Hperm].
    eexists. split; [done|]. cbn.
    assert (Hli : l ∉ locs (AdoIntTable o)) by (intros ?; by eapply Hdis).
    assert (Hnl : l ∉ locs (put_bucket (AdoStrTable o) i (lremove l b))).
    { assert (Hnd : NoDup (locs (AdoStrTable o))) by by destruct Hstr as (_ & bs & -> & _ & Hnd & _).
      rewrite Hperm in Hnd. by apply NoDup_cons in Hnd as [? _]. }
    split.
    { split_and!; cbn; [done| | |].
      - eapply table_ok_frame; [done|]. intros l' Hl'. rewrite lookup_delete_ne; [done|]. by intros <-.
      - intros l' Hl'. apply Hdis. rewrite Hperm. by right.
      - intros l'. destruct (decide (l' = l)) as [->|Hne].
        + rewrite lookup_delete_eq. split; [by intros []|]. tauto.
        + rewrite lookup_delete_ne by done. rewrite Hdom, Hperm, elem_of_cons. naive_solver. }
    split_and!; try done.
    - intros s'. unfold str_locs. cbn.
      rewrite (remove_sel _ _ _ _ i b l (has_name s') Hstr Hi Eb Hlb).
      case_bool_decide as Es.
      + subst s'. unfold str_locs in Eh, Hndl.
        destruct (filter _ (locs (AdoStrTable o))) as [|l0 r]; [done|]. injection Eh as ->.
        by apply lremove_head.
      + apply lremove_absent. intros [Hsel' _]%list_elem_of_filter. unfold sel in Hsel'. rewrite Ed in Hsel'.
        apply bool_decide_eq_true in Hsel, Hsel'. congruence.
    - intros id'. unfold int_locs. cbn. apply filter_agree. intros l' Hl'. unfold sel.
      rewrite lookup_delete_ne; [done|]. by intros <-.
Qed.

End contents.

(** ** The names as an interface *)

Section name_table.
Context `{Platform} {C : Type}.
Abbreviation ATO := (ANSC_ATOM_TABLE_OBJECT C).
Implicit Types (o : ATO) (s : cstr).

(** What a list of handles shows of the store, when descriptors come and go. *)
Lemma view_insert {X} (f : ANSC_ATOM_DESCRIPTOR C -> X) (m : gmap loc (ANSC_ATOM_DESCRIPTOR C)) l d (xs : list loc) :
    m !! l = None -> (forall l', l' ∈ xs -> is_Some (m !! l')) ->
    omap (fun l' => f <$> <[l := d]> m !! l') xs = omap (fun l' => f <$> m !! l') xs.
Proof.
    intros Hl Hxs. apply omap_agree. intros l' Hl'. rewrite lookup_insert_ne; [done|].
    intros <-. destruct (Hxs l Hl') as [? Hx]. by rewrite Hl in Hx.
Qed.

Lemma view_delete {X} (f : ANSC_ATOM_DESCRIPTOR C -> X) (m : gmap loc (ANSC_ATOM_DESCRIPTOR C)) l (xs : list loc) :
    l ∉ xs -> omap (fun l' => f <$> delete l m !! l') xs = omap (fun l' => f <$> m !! l') xs.
Proof.
    intros Hl. apply omap_agree. intros l' Hl'. rewrite lookup_delete_ne; [done|]. by intros <-.
Qed.

Lemma view_tail {X} (f : ANSC_ATOM_DESCRIPTOR C -> X) (m : gmap loc (ANSC_ATOM_DESCRIPTOR C)) (xs : list loc) :
    (forall l', l' ∈ xs -> is_Some (m !! l')) ->
    omap (fun l' => f <$> m !! l') (tail xs) = tail (omap (fun l' => f <$> m !! l') xs).
Proof.
    destruct xs as [|l xs]; intros Hxs; [done|]. destruct (Hxs l) as [d Hd]; [left|].
    cbn. by rewrite Hd.
Qed.

Lemma view_head {X} (f : ANSC_ATOM_DESCRIPTOR C -> X) (m : gmap loc (ANSC_ATOM_DESCRIPTOR C)) (xs : list loc) :
    (forall l', l' ∈ xs -> is_Some (m !! l')) ->
    head (omap (fun l' => f <$> m !! l') xs) = l ← head xs; f <$> m !! l.
Proof.
    destruct xs as [|l xs]; intros Hxs; [done|]. destruct (Hxs l) as [d Hd]; [left|].
    cbn. by rewrite Hd.
Qed.

Lemma head_not_in_tail (l : loc) xs : NoDup xs -> head xs = Some l -> l ∉ tail xs.
Proof. destruct xs; [done|]. intros [? _]%NoDup_cons [= ->]. done. Qed.

(** The fields a caller reads through a descriptor handle. *)
Definition fields o (l : loc) : option (Z * C) := (fun d => (AtomId d, hContext d)) <$> atoms o !! l.
Definition names o s : list (Z * C) := omap (fields o) (str_locs o s).

Lemma str_locs_alloc o s l : ato_ok o -> l ∈ str_locs o s -> is_Some (atoms o !! l).
Proof.
    intros (_ & _ & _ & Hdom) [_ Hl]%list_elem_of_filter. apply Hdom. by left.
Qed.

Lemma str_locs_disjoint o s s' l :
    s' ≠ s -> head (str_locs o s) = Some l -> l ∈ str_locs o s' -> False.
Proof.
    intros Hne Hh Hl. assert (Hl2 : l ∈ str_locs o s) by (destruct (str_locs o s); [done|]; injection Hh as ->; left).
    apply list_elem_of_filter in Hl as [Hs1 _], Hl2 as [Hs2 _]. unfold sel in *.
    destruct (atoms o !! l); [|done]. apply bool_decide_eq_true in Hs1, Hs2. congruence.
Qed.

Lemma names_nil o : ato_ok o -> names o [] = [].
Proof.
    intros (Hstr & _). unfold names, str_locs. rewrite filter_none; [done|].
    destruct Hstr as (_ & bs & -> & _ & _ & Hd). intros l Hl Hsel.
    apply locs_spec in Hl as (i & b & Hb & Hl). destruct (Hd _ _ _ Hb Hl) as (d & Ed & _ & n & En & Hne & _).
    unfold sel in Hsel. rewrite Ed in Hsel. apply bool_decide_eq_true in Hsel. congruence.
Qed.

(** [pAtomTable->GetAtomByName] followed by reading the descriptor. *)
Definition ato_get o (name : option cstr) : outcome (option (Z * C)) :=
  r ← AnscAtoGetAtomByName o name;
  match r with
  | None => Done None
  | Some l => match fields o l with Some p => Done (Some p) | None => Stuck BadAccess end
  end.
Definition ato_add o (name : option cstr) (id : Z) (c : C) (a : alloc_stream) : outcome (ATO * alloc_stream) :=
  r ← AnscAtoAddAtomByName o name id c a; let '(_, o, a) := r in Done (o, a).

Lemma table_ok_empty n (m : gmap loc (ANSC_ATOM_DESCRIPTOR C)) P :
    0 < n -> table_ok n (Some (replicate (Z.to_nat n) [])) m P /\ locs (Some (replicate (Z.to_nat n) [])) = [].
Proof.
    intros Hn. assert (E : mjoin (replicate (Z.to_nat n) ([] : list loc)) = []).
    { generalize (Z.to_nat n). intros k. induction k as [|k IH]; [done|]. cbn. exact IH. }
    split; [|done]. split; [done|]. exists (replicate (Z.to_nat n) []).
    rewrite length_replicate, E. split_and!; [done|lia|constructor|].
    intros i b l Hb Hl. apply lookup_replicate in Hb as [-> _]. by apply not_elem_of_nil in Hl.
Qed.

Lemma AnscAtoCreate_spec :
    exists o, AnscAtoCreate (C := C) [] = Done (Some o, []) /\ ato_ok o /\ atoms o = ∅ /\
      locs (AdoStrTable o) = [] /\ locs (AdoIntTable o) = [].
Proof.
    eexists. split; [reflexivity|]. 
    destruct (table_ok_empty 64 ∅ (str_bucket (C := C) 64)) as [Hs Els]; [lia|].
    destruct (table_ok_empty 64 ∅ (int_bucket (C := C) 64)) as [Hi Eli]; [lia|].
    split_and!; [|done|exact Els|exact Eli]. split_and!; cbn; [exact Hs|exact Hi| |].
    - intros l Hl. change (l ∈ locs (Some (replicate (Z.to_nat 64) []))) in Hl. rewrite Els in Hl.
      by apply not_elem_of_nil in Hl.
    - intros l. change (is_Some ((∅ : gmap loc (ANSC_ATOM_DESCRIPTOR C)) !! l) <->
        l ∈ locs (Some (replicate (Z.to_nat 64) [])) \/ l ∈ locs (Some (replicate (Z.to_nat 64) []))).
      rewrite Els, lookup_empty. split; [by intros [? ?]|]. by intros [?%not_elem_of_nil|?%not_elem_of_nil].
Qed.

(** Deleting everything empties both tables and frees every descriptor. *)
Lemma AnscAtoReset_spec o :
    ato_ok o -> exists o', AnscAtoReset o = Done o' /\ ato_ok o' /\ atoms o' = ∅ /\
      locs (AdoStrTable o') = [] /\ locs (AdoIntTable o') = [].
Proof.
    intros (Hstr & Hint & Hdis & Hdom).
    destruct (drain_all_spec _ _ _ _ Hstr) as (m1 & E1 & Hm1).
    assert (Hint1 : table_ok (AdoIntTableSize o) (AdoIntTable o) m1 (int_bucket (AdoIntTableSize o))).
    { eapply table_ok_frame; [done|]. intros l Hl. rewrite Hm1, decide_False; [done|]. intros ?. by eapply Hdis. }
    destruct (drain_all_spec _ _ _ _ Hint1) as (m2 & E2 & Hm2).
    unfold AnscAtoReset, AnscAtoDelAllStrAtoms, AnscAtoDelAllIntAtoms. rewrite E1. cbn [mbind outcome_bind].
    cbn [AdoIntTableSize AdoIntTable atoms set_str set_atoms]. rewrite E2. cbn [mbind outcome_bind].
    eexists. split; [reflexivity|]. cbn.
    assert (Hempty : m2 = ∅).
    { apply map_eq. intros l. rewrite Hm2, Hm1, lookup_empty.
      repeat case_decide; try done. destruct (atoms o !! l) eqn:E; [|done].
      destruct (Hdom l) as [[?|?] _]; [by eexists|done|done]. }
    assert (0 < AdoStrTableSize o) by apply Hstr. assert (0 < AdoIntTableSize o) by apply Hint.
    destruct (table_ok_empty (AdoStrTableSize o) m2 (str_bucket (C := C) (AdoStrTableSize o))) as [Hs Els]; [done|].
    destruct (table_ok_empty (AdoIntTableSize o) m2 (int_bucket (C := C) (AdoIntTableSize o))) as [Hi Eli]; [done|].
    split_and!; [|done|exact Els|exact Eli]. split_and!; cbn; [exact Hs|exact Hi| |].
    - intros l Hl. change (l ∈ locs (Some (replicate (Z.to_nat (AdoStrTableSize o)) []))) in Hl.
      rewrite Els in Hl. by apply not_elem_of_nil in Hl.
    - intros l. change (is_Some (m2 !! l) <-> l ∈ locs (Some (replicate (Z.to_nat (AdoStrTableSize o)) [])) \/
        l ∈ locs (Some (replicate (Z.to_nat (AdoIntTableSize o)) []))).
      rewrite Els, Eli, Hempty, lookup_empty. split; [by intros [? ?]|].
      by intros [?%not_elem_of_nil|?%not_elem_of_nil].
Qed.

#[export] Instance atom_name_table : NameTable ATO C := {|
  nt_create := AnscAtoCreate;
  nt_add := ato_add;
  nt_get := ato_get;
  nt_del := AnscAtoDelAtomByName;
  nt_remove := fun o => _ ← AnscAtoRemove o; Done tt;
  nt_ok := ato_ok;
  nt_stack := names
|}.

Lemma names_empty o s : locs (AdoStrTable o) = [] -> names o s = [].
Proof. intros E. unfold names, str_locs. by rewrite E. Qed.

#[export] Instance atom_name_table_laws : NameTableLaws ATO C.
Proof.
    split; cbn [nt_create nt_add nt_get nt_del nt_remove nt_ok nt_stack atom_name_table].
    - destruct AnscAtoCreate_spec as (o & E & Hok & _ & Hl & _). exists o. split_and!; try done.
      intros s. by apply names_empty.
    - intros o s id c Hok Hs.
      destruct (AnscAtoAddAtomByName_spec o s id c Hok Hs) as (l & h & o' & E & Hok' & Hl & Ha & _ & Hn & _).
      exists o'. unfold ato_add. rewrite E. split_and!; try done. intros s'. unfold names, fields.
      rewrite Hn, Ha. pose proof (fun l' => str_locs_alloc o s' l' Hok) as Hal.
      case_bool_decide; cbn [app]; [|by apply view_insert].
      cbn [omap list_omap]. rewrite lookup_insert_eq. cbn. f_equal. by apply view_insert.
    - intros o s Hok Hs. unfold ato_get. rewrite AnscAtoGetAtomByName_spec by done. cbn [mbind outcome_bind].
      pose proof (fun l' => str_locs_alloc o s l' Hok) as Hal.
      unfold names. unfold fields at 2. rewrite view_head by done.
      destruct (str_locs o s) as [|l r]; [done|]. destruct (Hal l) as [d Hd]; [left|]. unfold fields. cbn.
      by rewrite Hd.
    - intros o s Hok Hs.
      destruct (AnscAtoDelAtomByName_spec o s Hok Hs) as (o' & E & Hok' & Ha & _ & Hn & _).
      exists o'. split_and!; try done. intros s'. unfold names, fields. rewrite Hn, Ha.
      pose proof (str_locs_NoDup o s Hok) as Hnd. pose proof (fun l' => str_locs_alloc o s' l' Hok) as Hal.
      destruct (head (str_locs o s)) as [l|] eqn:Eh.
      2:{ case_bool_decide; [subst|done]. by destruct (str_locs o s). }
      case_bool_decide as Es.
      + subst s'. rewrite view_delete by by apply head_not_in_tail. by apply view_tail.
      + apply view_delete. intros Hin. by eapply str_locs_disjoint.
    - intros o s id c [-> | ->]; done.
    - apply names_nil.
    - intros o Hok. unfold AnscAtoRemove. destruct (AnscAtoReset_spec o Hok) as (o' & -> & _). done.
Qed.

End name_table.

(** ** Atoms by number *)

Section by_number.
Context `{Platform} {C : Type}.
Abbreviation ATO := (ANSC_ATOM_TABLE_OBJECT C).
Implicit Types (o : ATO) (id : Z).
#[local] Existing Instance sel_dec.

Lemma AnscHashUlong_ok id size : 0 < size -> AnscHashUlong id size = Done (id mod size) /\ 0 <= id mod size < size.
Proof.
    intros Hs. unfold AnscHashUlong, umod. destruct (Z.eqb_spec size 0); [lia|].
    split; [done|]. by apply Z.mod_pos_bound.
Qed.

Lemma has_id_bucket size i id (d : ANSC_ATOM_DESCRIPTOR C) :
    int_bucket size i d -> has_id id d = true -> i = id mod size.
Proof. intros [_ <-] ->%Z.eqb_eq. done. Qed.

Lemma int_bucket_of o id :
    ato_ok o -> let i := id mod AdoIntTableSize o in
    exists b, 0 <= i < AdoIntTableSize o /\ get_bucket (AdoIntTable o) i = Done b /\ NoDup b /\
      (forall l, l ∈ b -> l ∈ locs (AdoIntTable o) /\
        exists d, atoms o !! l = Some d /\ int_bucket (AdoIntTableSize o) i d).
Proof.
    intros (_ & Hi & _) i. assert (Hb : 0 <= i < AdoIntTableSize o) by (apply Z.mod_pos_bound, Hi).
    destruct (table_ok_bucket _ _ _ _ i Hi Hb) as (b & Eb & Hnd & Hl). eauto 10.
Qed.

Lemma AnscAtoGetAtomById_spec o id : ato_ok o -> AnscAtoGetAtomById o id = Done (head (int_locs o id)).
Proof.
    intros Hok. destruct (int_bucket_of o id Hok) as (b & Hi & Eb & _ & Hb).
    unfold AnscAtoGetAtomById. destruct (AnscHashUlong_ok id (AdoIntTableSize o)) as [-> _]; [lia|].
    cbn [mbind outcome_bind]. rewrite Eb. cbn [mbind outcome_bind].
    rewrite (find_atom_head _ _ (has_id id)).
    - unfold int_locs. destruct Hok as (_ & Hint & _).
      rewrite (filter_bucket _ _ _ _ _ (id mod AdoIntTableSize o) b Hint); [done|lia|done|].
      intros j d _ Hj Hq. by eapply has_id_bucket.
    - intros l Hl. destruct (Hb l Hl) as (_ & d & Ed & _). by exists d.
Qed.

Lemma AnscAtoAddAtomById_spec o id name ctx :
    ato_ok o ->
    exists l o', AnscAtoAddAtomById o id name ctx [] = Done (Some l, o', []) /\ ato_ok o' /\
      atoms o !! l = None /\
      atoms o' = <[l := Atom (id mod AdoIntTableSize o) name id ctx]> (atoms o) /\
      (forall id', int_locs o' id' = (if bool_decide (id' = id) then [l] else []) ++ int_locs o id') /\
      (forall s, str_locs o' s = str_locs o s).
Proof.
    intros Hok. destruct (int_bucket_of o id Hok) as (b & Hi & Eb & _ & Hb).
    set (i := id mod AdoIntTableSize o) in *. unfold AnscAtoAddAtomById.
    destruct (AnscHashUlong_ok id (AdoIntTableSize o)) as [-> _]; [lia|]. fold i.
    cbn [mbind outcome_bind next_alloc negb].
    replace (match name with None => (None, []) | Some s => (Some s, []) end) with (name, [] : alloc_stream)
      by by destruct name.
    rewrite Eb. cbn [mbind outcome_bind].
    set (l := fresh (dom (atoms o))). set (d := Atom i name id ctx).
    assert (Hl : atoms o !! l = None) by (apply not_elem_of_dom, is_fresh).
    destruct Hok as (Hstr & Hint & Hdis & Hdom).
    assert (Hls : l ∉ locs (AdoStrTable o)).
    { intros Hin. destruct (Hdom l) as [_ [x Hx]]; [by left|]. by rewrite Hl in Hx. }
    assert (Hli : l ∉ locs (AdoIntTable o)).
    { intros Hin. destruct (Hdom l) as [_ [x Hx]]; [by right|]. by rewrite Hl in Hx. }
    assert (HP : int_bucket (AdoIntTableSize o) i d) by done.
    change (AnscSListPushEntry' b l) with (l :: b).
    destruct (table_ok_push _ _ _ _ i b l d Hint Hi Eb Hli HP) as [Hint' Hperm].
    eexists l, _. split; [done|]. cbn. split.
    { split_and!; cbn; [|done| |].
      - eapply table_ok_frame; [done|]. intros l' Hl'. rewrite lookup_insert_ne; [done|]. by intros <-.
      - intros l' Hs'. rewrite Hperm. intros [->|?]%elem_of_cons; [done|]. by eapply Hdis.
      - intros l'. rewrite Hperm, elem_of_cons. destruct (decide (l' = l)) as [->|Hne].
        + rewrite lookup_insert_eq. split; [intros _; right; by left|]. by eexists.
        + rewrite lookup_insert_ne by done. rewrite Hdom. naive_solver. }
    split_and!; try done.
    - intros id'. unfold int_locs. cbn.
      assert (Hh : 0 <= id' mod AdoIntTableSize o < AdoIntTableSize o) by (apply Z.mod_pos_bound; lia).
      destruct (table_ok_bucket _ _ _ _ _ Hint Hh) as (bh & Ebh & _).
      rewrite (push_sel _ _ _ _ i b l d (has_id id') Hint Hi Eb Hli HP Hl _ bh Hh Ebh).
      + f_equal. unfold has_id. cbn. destruct (Z.eqb_spec id id'), (bool_decide_reflect (id' = id)); congruence.
      + intros j dj _ Hj Hq. by eapply has_id_bucket.
    - intros s. unfold str_locs. cbn. apply filter_agree. intros l' Hl'. unfold sel.
      rewrite lookup_insert_ne; [done|]. by intros <-.
Qed.

Lemma int_locs_NoDup o id : ato_ok o -> NoDup (int_locs o id).
Proof. intros (_ & (_ & bs & E & _ & Hnd & _) & _). apply NoDup_filter. by rewrite E. Qed.

Lemma AnscAtoDelAtomById_spec o id :
    ato_ok o ->
    exists o', AnscAtoDelAtomById o id = Done o' /\ ato_ok o' /\
      atoms o' = match head (int_locs o id) with Some l => delete l (atoms o) | None => atoms o end /\
      (forall id', int_locs o' id' = if bool_decide (id' = id) then tail (int_locs o id') else int_locs o id') /\
      (forall s, str_locs o' s = str_locs o s).
Proof.
    intros Hok. unfold AnscAtoDelAtomById. rewrite AnscAtoGetAtomById_spec by done.
    cbn [mbind outcome_bind]. destruct (head (int_locs o id)) as [l|] eqn:Eh.
    2:{ exists o. split_and!; try done. intros s'. case_bool_decide as E; [|done]. subst.
        by destruct (int_locs o id). }
    assert (Hl : l ∈ int_locs o id) by (destruct (int_locs o id); [done|]; injection Eh as ->; left).
    pose proof (int_locs_NoDup o id Hok) as Hndl. assert (Hl' := Hl).
    apply list_elem_of_filter in Hl' as [Hsel Hlin].
    unfold sel in Hsel. destruct (atoms o !! l) as [d|] eqn:Ed; [|done].
    assert (Hok' := Hok). destruct Hok' as (Hstr & Hint & Hdis & Hdom).
    destruct (int_bucket_of o id Hok) as (b & Hi & Eb & Hndb & Hb).
    set (i := id mod AdoIntTableSize o) in *.
    assert (Hlb : l ∈ b).
    { unfold int_locs in Hl. rewrite (filter_bucket _ _ _ _ _ i b Hint) in Hl; [|lia|done|].
      - by apply list_elem_of_filter in Hl as [_ ?].
      - intros j dj _ Hj Hq. by eapply has_id_bucket. }
    destruct (Hb l Hlb) as (_ & d' & Ed' & Hidx & _). rewrite Ed in Ed'. injection Ed' as <-.
    rewrite Hidx, Eb. cbn [mbind outcome_bind].
    change (AnscSListPopEntryByLink' b l) with (lremove l b).
    destruct (table_ok_remove _ _ _ _ i b l Hint Hi Eb Hlb) as [Hint' Hperm].
    eexists. split; [done|]. cbn.
    assert (Hls : l ∉ locs (AdoStrTable o)) by (intros ?; by eapply Hdis).
    assert (Hnl : l ∉ locs (put_bucket (AdoIntTable o) i (lremove l b))).
    { assert (Hnd : NoDup (locs (AdoIntTable o))) by by destruct Hint as (_ & bs & -> & _ & Hnd & _).
      rewrite Hperm in Hnd. by apply NoDup_cons in Hnd as [? _]. }
    split.
    { split_and!; cbn; [|done| |].
      - eapply table_ok_frame; [done|]. intros l' Hin. rewrite lookup_delete_ne; [done|]. by intros <-.
      - intros l' Hs' Hi'. apply (Hdis l' Hs'). rewrite Hperm. by right.
      - intros l'. destruct (decide (l' = l)) as [->|Hne].
        + rewrite lookup_delete_eq. split; [by intros []|]. tauto.
        + rewrite lookup_delete_ne by done. rewrite Hdom, Hperm, elem_of_cons. naive_solver. }
    split_and!; try done.
    - intros id'. unfold int_locs. cbn. rewrite (remove_sel _ _ _ _ i b l (has_id id') Hint Hi Eb Hlb).
      case_bool_decide as Es.
      + subst id'. unfold int_locs in Eh, Hndl.
        destruct (filter _ (locs (AdoIntTable o))) as [|l0 r]; [done|]. injection Eh as ->.
        by apply lremove_head.
      + apply lremove_absent. intros [Hsel' _]%list_elem_of_filter. unfold sel in Hsel'. rewrite Ed in Hsel'.
        apply Z.eqb_eq in Hsel, Hsel'. congruence.
    - intros s. unfold str_locs. cbn. apply filter_agree. intros l' Hin. unfold sel.
      rewrite lookup_delete_ne; [done|]. by intros <-.
Qed.
End by_number.

(** ** Counting and enumerating *)

Section enumerate.
Context `{Platform}.

Lemma get_bucket_cons b bs i : 0 <= i -> get_bucket (Some (b :: bs)) (i + 1) = get_bucket (Some bs) i.
Proof.
    intros Hi. unfold get_bucket. destruct (Z.ltb_spec (i + 1) 0), (Z.ltb_spec i 0); try lia.
    by replace (Z.to_nat (i + 1)) with (S (Z.to_nat i)) by lia.
Qed.

Lemma get_bucket_at pre b bs : get_bucket (Some (pre ++ b :: bs)) (Zlen pre) = Done b.
Proof.
    unfold get_bucket. destruct (Z.ltb_spec (Zlen pre) 0); [lia|].
    by rewrite Nat2Z.id, lookup_app_r, Nat.sub_diag by lia.
Qed.

(** The chains of a table are shorter than a [USHORT] depth can count. *)
Definition depths_fit (bs : buckets) : Prop := Forall (fun b : list loc => Zlen b < 65536) bs.

Lemma depth_fits b : Zlen b < 65536 -> AnscSListQueryDepth' b = Zlen b.
Proof. intros. apply USHORT_small. lia. Qed.

Lemma count_all_spec bs :
    depths_fit bs -> Zlen (mjoin bs) < 2 ^ ulong_bits ->
    count_all (Zlen bs) (Some bs) = Done (Zlen (mjoin bs)).
Proof.
    intros Hf Hlt. unfold count_all. rewrite Nat2Z.id.
    enough (Hgen : forall pre c, bs = bs -> 0 <= c -> c + Zlen (mjoin bs) < 2 ^ ulong_bits ->
      for_from (Zlen pre) (length bs) (fun i c => b ← get_bucket (Some (pre ++ bs)) i;
         Done (ULONG (c + AnscSListQueryDepth' b))) c = Done (c + Zlen (mjoin bs))).
    { specialize (Hgen [] 0). apply Hgen; done || lia. }
    clear Hlt. induction Hf as [|b bs Hb Hf IH]; intros pre c _ Hc Hlt; cbn [length for_from].
    { cbn. by rewrite Z.add_0_r. }
    rewrite join_cons, length_app in Hlt |- *.
    rewrite get_bucket_at. cbn [mbind outcome_bind]. rewrite depth_fits by done.
    rewrite ULONG_small by lia.
    replace (pre ++ b :: bs) with ((pre ++ [b]) ++ bs) by by rewrite <-app_assoc.
    replace (Zlen pre + 1) with (Zlen (pre ++ [b])) by (rewrite length_app; cbn; lia).
    rewrite IH by (done || lia). f_equal. lia.
Qed.

Lemma by_index_spec bs : forall pre index skip,
    depths_fit bs -> 0 <= skip <= index -> index < 2 ^ ulong_bits ->
    by_index (length bs) (Zlen pre) (Some (pre ++ bs)) index skip =
      Done (mjoin bs !! Z.to_nat (index - skip)).
Proof.
    induction bs as [|b bs IH]; intros pre index skip Hf Hs Hi; cbn [length by_index]; [done|].
    apply Forall_cons in Hf as [Hb Hf]. rewrite get_bucket_at. cbn [mbind outcome_bind].
    rewrite depth_fits, (ULONG_small (index - skip)), join_cons by (done || lia).
    destruct (Z.leb_spec (Zlen b) (index - skip)).
    - rewrite ULONG_small by lia.
      replace (pre ++ b :: bs) with ((pre ++ [b]) ++ bs) by by rewrite <-app_assoc.
      replace (Zlen pre + 1) with (Zlen (pre ++ [b])) by (rewrite length_app; cbn; lia).
      rewrite IH by (done || lia). rewrite lookup_app_r by lia. do 2 f_equal. lia.
    - by rewrite lookup_app_l by lia.
Qed.
End enumerate.

(** ** An atom table as two families of stacks *)

Section refinement.
Context `{Platform} {C : Type}.
Abbreviation ATO := (ANSC_ATOM_TABLE_OBJECT C).
Abbreviation entry := (Z * option cstr * C)%type.

Inductive ato_op :=
  | OAddName (name : option cstr) (id : Z) (c : C) | OGetName (name : option cstr)
  | ODelName (name : option cstr)
  | OAddId (id : Z) (name : option cstr) (c : C) | OGetId (id : Z) | ODelId (id : Z)
  | OReset.

(** What a caller sees of the result: the fields of the descriptor. *)
Definition atom_entry (d : ANSC_ATOM_DESCRIPTOR C) : entry := (AtomId d, AtomName d, hContext d).
Definition ato_see (o : ATO) (r : option loc) : option entry :=
  l ← r; atom_entry <$> atoms o !! l.

Definition ato_run (op : ato_op) (o : ATO) : outcome (option entry * ATO) :=
  match op with
  | OAddName s id c => r ← AnscAtoAddAtomByName o s id c []; let '(l, o, _) := r in Done (ato_see o l, o)
  | OGetName s => l ← AnscAtoGetAtomByName o s; Done (ato_see o l, o)
  | ODelName s => o ← AnscAtoDelAtomByName o s; Done (None, o)
  | OAddId id s c => r ← AnscAtoAddAtomById o id s c []; let '(l, o, _) := r in Done (ato_see o l, o)
  | OGetId id => l ← AnscAtoGetAtomById o id; Done (ato_see o l, o)
  | ODelId id => o ← AnscAtoDelAtomById o id; Done (None, o)
  | OReset => o ← AnscAtoReset o; Done (None, o)
  end.
Fixpoint ato_run_all (ops : list ato_op) (o : ATO) : outcome (list (option entry) * ATO) :=
  match ops with
  | [] => Done ([], o)
  | op :: ops =>
      r ← ato_run op o; let '(v, o) := r in
      r ← ato_run_all ops o; let '(vs, o) := r in Done (v :: vs, o)
  end.

(** The specification: a stack of entries for every nonempty name and for every
    number. *)
Record ato_spec := Stacks { by_name : cstr -> list entry; by_id : Z -> list entry }.
Definition fset {K} `{EqDecision K} (f : K -> list entry) (k : K) (v : list entry) : K -> list entry :=
  fun k' => if bool_decide (k' = k) then v else f k'.
Definition ato_step (op : ato_op) (a : ato_spec) : option entry * ato_spec :=
  match op with
  | OAddName (Some (c0 :: s)) id c =>
      let e := (id, Some (c0 :: s), c) in
      (Some e, Stacks (fset (by_name a) (c0 :: s) (e :: by_name a (c0 :: s))) (by_id a))
  | OGetName (Some (c0 :: s)) => (head (by_name a (c0 :: s)), a)
  | ODelName (Some (c0 :: s)) =>
      (None, Stacks (fset (by_name a) (c0 :: s) (tail (by_name a (c0 :: s)))) (by_id a))
  | OAddName _ _ _ | OGetName _ | ODelName _ => (None, a)
  | OAddId id s c =>
      let e := (id, s, c) in
      (Some e, Stacks (by_name a) (fset (by_id a) id (e :: by_id a id)))
  | OGetId id => (head (by_id a id), a)
  | ODelId id => (None, Stacks (by_name a) (fset (by_id a) id (tail (by_id a id))))
  | OReset => (None, Stacks (fun _ => []) (fun _ => []))
  end.
Fixpoint ato_steps (ops : list ato_op) (a : ato_spec) : list (option entry) :=
  match ops with [] => [] | op :: ops => let '(v, a) := ato_step op a in v :: ato_steps ops a end.

(** The stacks an object represents. *)
Definition seen (o : ATO) (xs : list loc) : list entry := omap (fun l => atom_entry <$> atoms o !! l) xs.
Definition represents (o : ATO) (a : ato_spec) : Prop :=
  ato_ok o /\ (forall s, s ≠ [] -> seen o (str_locs o s) = by_name a s) /\
  forall id, seen o (int_locs o id) = by_id a id.

Lemma int_locs_alloc (o : ATO) id l : ato_ok o -> l ∈ int_locs o id -> is_Some (atoms o !! l).
Proof. intros (_ & _ & _ & Hdom) [_ Hl]%list_elem_of_filter. apply Hdom. by right. Qed.

Lemma int_locs_disjoint (o : ATO) id id' l :
    id' ≠ id -> head (int_locs o id) = Some l -> l ∈ int_locs o id' -> False.
Proof.
    intros Hne Hh Hl. assert (Hl2 : l ∈ int_locs o id) by (destruct (int_locs o id); [done|]; injection Hh as ->; left).
    apply list_elem_of_filter in Hl as [Hs1 _], Hl2 as [Hs2 _]. unfold sel in *.
    destruct (atoms o !! l); [|done]. apply Z.eqb_eq in Hs1, Hs2. congruence.
Qed.

Lemma cross_disjoint (o : ATO) s id l : ato_ok o -> l ∈ str_locs o s -> l ∈ int_locs o id -> False.
Proof.
    intros (_ & _ & Hdis & _) [_ ?]%list_elem_of_filter [_ ?]%list_elem_of_filter. by eapply Hdis.
Qed.

(** One insertion and one deletion, seen through the handles. *)
Lemma seen_push (o o' : ATO) l d (old new : list loc) (b : bool) :
    atoms o !! l = None -> atoms o' = <[l := d]> (atoms o) ->
    (forall l', l' ∈ old -> is_Some (atoms o !! l')) ->
    new = (if b then [l] else []) ++ old ->
    seen o' new = if b then atom_entry d :: seen o old else seen o old.
Proof.
    intros Hl Ha Hold ->. unfold seen. rewrite Ha. destruct b; cbn [app]; [|by apply view_insert].
    cbn [omap list_omap]. rewrite lookup_insert_eq. cbn. f_equal. by apply view_insert.
Qed.

Lemma seen_pop (o o' : ATO) (h : option loc) (old new : list loc) (b : bool) :
    atoms o' = match h with Some l => delete l (atoms o) | None => atoms o end ->
    (forall l', l' ∈ old -> is_Some (atoms o !! l')) -> NoDup old ->
    (if b then h = head old else forall l, h = Some l -> l ∉ old) ->
    new = (if b then tail old else old) ->
    seen o' new = if b then tail (seen o old) else seen o old.
Proof.
    intros Ha Hold Hnd Hh ->. unfold seen. rewrite Ha. destruct b.
    - subst h. destruct (head old) as [l|] eqn:E; [|by destruct old].
      rewrite view_delete by by apply head_not_in_tail. by apply view_tail.
    - destruct h as [l|]; [|done]. apply view_delete. by apply Hh.
Qed.

Lemma ato_run_refines op (o : ATO) a :
    represents o a -> exists o', ato_run op o = Done ((ato_step op a).1, o') /\ represents o' (ato_step op a).2.
Proof.
    intros (Hok & Hn & Hi).
    assert (Hal : forall s l, l ∈ str_locs o s -> is_Some (atoms o !! l)) by (intros; by eapply str_locs_alloc).
    assert (Hal' : forall id l, l ∈ int_locs o id -> is_Some (atoms o !! l)) by (intros; by eapply int_locs_alloc).
    assert (Hnd : forall s, NoDup (str_locs o s)) by (intros; by apply str_locs_NoDup).
    assert (Hnd' : forall id, NoDup (int_locs o id)) by (intros; by apply int_locs_NoDup).
    assert (Hin : forall xs (l : loc), head xs = Some l -> l ∈ xs) by (intros [|x xs] l [= ->]; left).
    destruct op as [[[|c0 s]|] id c|[[|c0 s]|]|[[|c0 s]|]|id s c|id|id|]; cbn [ato_run ato_step fst snd];
      try (by exists o; split; [|by split_and!]).
    - destruct (AnscAtoAddAtomByName_spec o (c0 :: s) id c Hok ltac:(done))
        as (l & h & o' & -> & Hok' & Hl & Ha & _ & Hs & Hd). cbn [mbind outcome_bind].
      exists o'. unfold ato_see. cbn. rewrite Ha, lookup_insert_eq. cbn. split; [done|]. split_and!; [done| |]; cbn.
      + intros s' Hs'. rewrite (seen_push o o' l _ (str_locs o s') _ (bool_decide (s' = c0 :: s)) Hl Ha (Hal _) (Hs s')).
        unfold fset. case_bool_decide; [subst|]; by rewrite Hn.
      + intros id'. by rewrite (seen_push o o' l _ (int_locs o id') _ false Hl Ha (Hal' _) (Hd id')).
    - rewrite AnscAtoGetAtomByName_spec by done. cbn. exists o. split; [|by split_and!].
      rewrite <-Hn by done. unfold seen. by rewrite (view_head atom_entry _ _ (Hal _)).
    - destruct (AnscAtoDelAtomByName_spec o (c0 :: s) Hok ltac:(done)) as (o' & -> & Hok' & Ha & _ & Hs & Hd).
      cbn. exists o'. split; [done|]. split_and!; [done| |]; cbn.
      + intros s' Hs'. rewrite (seen_pop o o' _ (str_locs o s') _ (bool_decide (s' = c0 :: s)) Ha (Hal _) (Hnd _)).
        * unfold fset. case_bool_decide; [subst|]; by rewrite Hn.
        * case_bool_decide; [by subst|]. intros l Hh Hl. by eapply (str_locs_disjoint o (c0 :: s) s').
        * by rewrite Hs.
      + intros id'. rewrite (seen_pop o o' _ (int_locs o id') _ false Ha (Hal' _) (Hnd' _)); [done| |by rewrite Hd].
        intros l Hh Hl. eapply (cross_disjoint o (c0 :: s) id' l); auto.
    - destruct (AnscAtoAddAtomById_spec o id s c Hok) as (l & o' & -> & Hok' & Hl & Ha & Hd & Hs). cbn [mbind outcome_bind].
      exists o'. unfold ato_see. cbn. rewrite Ha, lookup_insert_eq. cbn. split; [done|]. split_and!; [done| |]; cbn.
      + intros s' Hs'. rewrite (seen_push o o' l _ (str_locs o s') _ false Hl Ha (Hal _) (Hs s')). by apply Hn.
      + intros id'. rewrite (seen_push o o' l _ (int_locs o id') _ (bool_decide (id' = id)) Hl Ha (Hal' _) (Hd id')).
        unfold fset. case_bool_decide; [subst|]; by rewrite Hi.
    - rewrite AnscAtoGetAtomById_spec by done. cbn. exists o. split; [|by split_and!].
      rewrite <-Hi. unfold seen. by rewrite (view_head atom_entry _ _ (Hal' _)).
    - destruct (AnscAtoDelAtomById_spec o id Hok) as (o' & -> & Hok' & Ha & Hd & Hs).
      cbn. exists o'. split; [done|]. split_and!; [done| |]; cbn.
      + intros s' Hs'. rewrite (seen_pop o o' _ (str_locs o s') _ false Ha (Hal _) (Hnd _)); [by apply Hn| |by rewrite Hs].
        intros l Hh Hl. eapply (cross_disjoint o s' id l); auto.
      + intros id'. rewrite (seen_pop o o' _ (int_locs o id') _ (bool_decide (id' = id)) Ha (Hal' _) (Hnd' _)).
        * unfold fset. case_bool_decide; [subst|]; by rewrite Hi.
        * case_bool_decide; [by subst|]. intros l Hh Hl. by eapply (int_locs_disjoint o id id').
        * by rewrite Hd.
    - destruct (AnscAtoReset_spec o Hok) as (o' & -> & Hok' & _ & Hs & Hd). cbn. exists o'. split; [done|].
      split_and!; [done| |]; cbn; intros; unfold seen, str_locs, int_locs; by rewrite ?Hs, ?Hd.
Qed.

End refinement.
Arguments ato_op : clear implicits.
Arguments ato_spec : clear implicits.

(** ** Properties *)

(** C2. Refinement: from a newly created table, any sequence of insertions,
    lookups and deletions by name and by number and of resets completes, and
    yields what two families of stacks yield, one per nonempty name and one per
    number; NULL and the empty name are ignored.  The hash buckets, the shared
    descriptor store and the freeing of descriptors stay invisible and well
    formed: no freed descriptor is reachable and none is lost. *)
Theorem atom_table_refines `{Platform} (C : Type) (ops : list (ato_op C)) :
  exists o, AnscAtoCreate (C := C) [] = Done (Some o, []) /\
    exists o', ato_run_all ops o = Done (ato_steps ops (Stacks (fun _ => []) (fun _ => [])), o') /\ ato_ok o'.
Proof.
  destruct (AnscAtoCreate_spec (C := C)) as (o & E & Hok & _ & Hs & Hi). exists o. split; [done|].
  assert (Hrep : represents o (Stacks (fun _ => []) (fun _ => []))).
  { split_and!; [done| |]; cbn; intros; unfold seen, str_locs, int_locs; by rewrite ?Hs, ?Hi. }
  revert Hrep. generalize (Stacks (C := C) (fun _ => []) (fun _ => [])). clear. revert o.
  induction ops as [|op ops IH]; intros o a Hrep; cbn [ato_run_all ato_steps].
  - exists o. split; [done|apply Hrep].
  - destruct (ato_run_refines op o a Hrep) as (o1 & -> & Hrep1). cbn [mbind outcome_bind].
    destruct (ato_step op a) as [v a1]. cbn [fst snd] in *.
    destruct (IH o1 a1 Hrep1) as (o' & -> & Hok'). cbn. eauto.
Qed.

(** Enumeration: in a well-formed table whose chains a 16-bit depth can
    count, [AnscAtoGetAtomCount2] is the number of atoms kept by name and
    [AnscAtoGetAtomByIndex2] yields each of them under exactly one index below
    the count, and NULL from the count on; the same for the atoms kept by
    number. *)
Theorem atom_enumeration `{Platform} {C} (o : ANSC_ATOM_TABLE_OBJECT C) index
  (Hok : ato_ok o) (Hindex : 0 <= index < 2 ^ ulong_bits)
  (Hstr : forall bs, AdoStrTable o = Some bs -> depths_fit bs)
  (Hint : forall bs, AdoIntTable o = Some bs -> depths_fit bs)
  (Hn : Zlen (locs (AdoStrTable o)) < 2 ^ ulong_bits) (Hm : Zlen (locs (AdoIntTable o)) < 2 ^ ulong_bits) :
  AnscAtoGetAtomCount2 o = Done (Zlen (locs (AdoStrTable o))) /\
  AnscAtoGetAtomByIndex2 o index = Done (locs (AdoStrTable o) !! Z.to_nat index) /\
  NoDup (locs (AdoStrTable o)) /\
  AnscAtoGetAtomCount o = Done (Zlen (locs (AdoIntTable o))) /\
  AnscAtoGetAtomByIndex o index = Done (locs (AdoIntTable o) !! Z.to_nat index) /\
  NoDup (locs (AdoIntTable o)).
Proof.
  destruct Hok as ((Hs0 & bs & Es & Hsl & Hsn & _) & (Hi0 & bi & Ei & Hil & Hin & _) & _).
  unfold AnscAtoGetAtomCount2, AnscAtoGetStrAtomCount, AnscAtoGetAtomByIndex2,
    AnscAtoGetAtomCount, AnscAtoGetIntAtomCount, AnscAtoGetAtomByIndex.
  specialize (Hstr bs Es). specialize (Hint bi Ei).
  rewrite Es, Ei in *. rewrite <-Hsl, <-Hil. cbn [locs] in *.
  split_and!; [by apply count_all_spec| |done|by apply count_all_spec| |done];
    rewrite Nat2Z.id.
  - pose proof (by_index_spec bs [] index 0 Hstr (conj (Z.le_refl 0) (proj1 Hindex)) (proj2 Hindex)) as E. rewrite Z.sub_0_r in E. exact E.
  - pose proof (by_index_spec bi [] index 0 Hint (conj (Z.le_refl 0) (proj1 Hindex)) (proj2 Hindex)) as E. rewrite Z.sub_0_r in E. exact E.
Qed.

(** Removing a table frees every descriptor that was added to it. *)
Theorem AnscAtoRemove_frees_all `{Platform} {C} (o : ANSC_ATOM_TABLE_OBJECT C) (Hok : ato_ok o) :
  AnscAtoRemove o = Done ∅.
Proof. unfold AnscAtoRemove. destruct (AnscAtoReset_spec o Hok) as (o' & -> & _ & E & _). cbn. by rewrite E. Qed.

(** [AnscAtoSetStrTableSize] changes the size before it empties the old
    table.  Growing a table makes the emptying loop run past the end of the old
    bucket array; shrinking one leaves every atom of the buckets beyond the new
    size allocated but unreachable. *)
Theorem AnscAtoSetStrTableSize_broken `{Platform} {C} (o : ANSC_ATOM_TABLE_OBJECT C) bs n
  (Hok : ato_ok o) (Hbs : AdoStrTable o = Some bs) (Hn : 0 < n) :
  (AdoStrTableSize o < n -> AnscAtoSetStrTableSize o n [] = Stuck OutOfBounds) /\
  (n <= AdoStrTableSize o ->
     exists o', AnscAtoSetStrTableSize o n [] = Done (ATO_SUCCESS, o', []) /\
       forall l, l ∈ mjoin (drop (Z.to_nat n) bs) -> is_Some (atoms o' !! l) /\
         l ∉ locs (AdoStrTable o') /\ l ∉ locs (AdoIntTable o')).
Proof.
  destruct Hok as (Hstr & _ & Hdis & _). unfold AnscAtoSetStrTableSize, AnscAtoAllocateStrTable, AnscAtoDelAllStrAtoms.
  cbn [AdoStrTable AdoStrTableSize atoms]. rewrite Hbs in *.
  assert (0 < AdoStrTableSize o) by apply Hstr.
  assert (Hlen : Zlen bs = AdoStrTableSize o) by by destruct Hstr as (_ & ? & [= <-] & ? & _).
  split; intros Hcmp.
  - destruct (drain_all_spec _ _ _ _ Hstr) as (m' & E & _). unfold drain_all in *.
    replace (Z.to_nat n) with (Z.to_nat (AdoStrTableSize o) + S (Z.to_nat (n - AdoStrTableSize o - 1)))%nat by lia.
    rewrite for_from_add, E. cbn [mbind outcome_bind for_from]. unfold get_bucket.
    rewrite Z.add_0_l, Z2Nat.id by lia. destruct (Z.ltb_spec (AdoStrTableSize o) 0); [lia|].
    by rewrite lookup_ge_None_2 by (rewrite length_replicate; lia).
  - destruct (drain_some_spec _ _ _ _ n Hstr) as (m' & -> & Hm'); [lia|].
    eexists. split; [reflexivity|]. intros l Hl. cbn.
    assert (Hin : l ∈ locs (Some bs)).
    { cbn. rewrite <-(take_drop (Z.to_nat n) bs), join_app. apply elem_of_app. by right. }
    split_and!.
    + rewrite Hm', decide_False.
      * apply locs_spec in Hin as (i & b & Hb & Hlb). destruct Hstr as (_ & ? & [= <-] & _ & _ & Hd).
        destruct (Hd i b l Hb Hlb) as (d & -> & _). by eexists.
      * intros Hl'. destruct Hstr as (_ & ? & [= <-] & _ & Hnd & _).
        rewrite <-(take_drop (Z.to_nat n) bs), join_app in Hnd. apply NoDup_app in Hnd as (_ & Hnd & _).
        by apply (Hnd l).
    + change (l ∉ locs (Some (replicate (Z.to_nat n) []))).
      destruct (table_ok_empty (C := C) n ∅ (fun _ _ => True) Hn) as [_ ->]. apply not_elem_of_nil.
    + intros ?. by eapply Hdis.
Qed.

(** An atom whose name could not be allocated is chained all the same, and
    the next lookup of its name dereferences NULL. *)
Theorem AnscAtoAddAtomByName_unchecked_name `{Platform} {C} (o : ANSC_ATOM_TABLE_OBJECT C) s id c
  (Hok : ato_ok o) (Hs : s ≠ []) :
  exists l o', AnscAtoAddAtomByName o (Some s) id c [true; false] = Done (Some l, o', []) /\
    AnscAtoGetAtomByName o' (Some s) = Stuck NullDeref.
Proof.
  destruct (hash_bucket o s Hok) as (i & b & Ei & Hi & Eb & _).
  unfold AnscAtoAddAtomByName, AnscAtoGetAtomByName. destruct s as [|c0 s]; [done|].
  rewrite Ei. cbn [mbind outcome_bind next_alloc negb]. rewrite Eb. cbn [mbind outcome_bind].
  eexists _, _. split; [done|]. cbn [AdoStrTableSize AdoStrTable atoms set_str set_atoms].
  rewrite Ei. cbn [mbind outcome_bind]. unfold get_bucket, put_bucket in *. destruct (AdoStrTable o) as [bs|]; [|done]. cbn.
  destruct (Z.ltb_spec i 0); [lia|]. destruct (bs !! Z.to_nat i) eqn:E; [|done].
  rewrite list_lookup_insert_eq by (by eapply lookup_lt_Some). cbn [mbind outcome_bind].
  change (AnscSListPushEntry' b (fresh (dom (atoms o)))) with (fresh (dom (atoms o)) :: b).
  cbn [find_atom]. by rewrite lookup_insert_eq.
Qed.

(** ** A concrete table, for evaluating the definitions *)

Definition empty_table : ANSC_ATOM_TABLE_OBJECT Z :=
  Ato 64 (Some (replicate 64 [])) 64 (Some (replicate 64 [])) ∅.
Definition demo_table : ANSC_ATOM_TABLE_OBJECT Z :=
  match @AnscAtoAddAtomByName lp64 Z empty_table (Some (lit "Device")) 3 7 [] with
  | Done (_, o, _) => o
  | Stuck _ => empty_table
  end.

Lemma empty_table_ok : @ato_ok lp64 Z empty_table.
Proof. destruct (@AnscAtoCreate_spec lp64 Z) as (o & E & Hok & _). cbn in E. by injection E as <-. Qed.

Lemma demo_table_ok : @ato_ok lp64 Z demo_table.
Proof.
  unfold demo_table. destruct (@AnscAtoAddAtomByName_spec lp64 Z empty_table (lit "Device") 3 7
    empty_table_ok ltac:(done)) as (l & h & o' & -> & Hok & _). exact Hok.
Qed.

Lemma depths_fit_check (t : option buckets) :
  match t with Some bs => forallb (fun b => Zlen b <? 65536) bs | None => true end = true ->
  forall bs, t = Some bs -> depths_fit bs.
Proof.
  intros Ht bs ->.
  unfold depths_fit. apply Forall_forall. intros b Hb.
  apply list_elem_of_In in Hb.
  apply Z.ltb_lt. revert b Hb. by apply List.forallb_forall.
Qed.

Theorem atom_enumeration_witness :
  let _ := lp64 in
  AnscAtoGetAtomCount2 demo_table = Done (Zlen (locs (AdoStrTable demo_table))) /\
  AnscAtoGetAtomByIndex2 demo_table 0 = Done (locs (AdoStrTable demo_table) !! Z.to_nat 0) /\
  NoDup (locs (AdoStrTable demo_table)) /\
  AnscAtoGetAtomCount demo_table = Done (Zlen (locs (AdoIntTable demo_table))) /\
  AnscAtoGetAtomByIndex demo_table 0 = Done (locs (AdoIntTable demo_table) !! Z.to_nat 0) /\
  NoDup (locs (AdoIntTable demo_table)).
Proof.
  cbn zeta. apply (@atom_enumeration lp64 Z demo_table 0).
  - exact demo_table_ok.
  - by vm_compute.
  - apply depths_fit_check. by vm_compute.
  - apply depths_fit_check. by vm_compute.
  - by vm_compute.
  - by vm_compute.
Defined.

Theorem AnscAtoRemove_frees_all_witness :
  @ato_ok lp64 Z demo_table /\ atoms demo_table ≠ ∅ /\ AnscAtoRemove demo_table = Done ∅.
Proof.
  split; [exact demo_table_ok|]. split; [discriminate|].
  apply (@AnscAtoRemove_frees_all lp64 Z). exact demo_table_ok.
Defined.

Theorem AnscAtoSetStrTableSize_broken_witness :
  let bs := default [] (AdoStrTable demo_table) in
  (AdoStrTableSize demo_table < 128 -> AnscAtoSetStrTableSize demo_table 128 [] = Stuck OutOfBounds) /\
  (128 <= AdoStrTableSize demo_table ->
     exists o', AnscAtoSetStrTableSize demo_table 128 [] = Done (ATO_SUCCESS, o', []) /\
       forall l, l ∈ mjoin (drop (Z.to_nat 128) bs) -> is_Some (atoms o' !! l) /\
         l ∉ locs (AdoStrTable o') /\ l ∉ locs (AdoIntTable o')).
Proof.
  cbn zeta. apply (@AnscAtoSetStrTableSize_broken lp64 Z).
  - exact demo_table_ok.
  - by vm_compute.
  - lia.
Defined.

Theorem AnscAtoAddAtomByName_unchecked_name_witness :
  let _ := lp64 in
  exists l o', AnscAtoAddAtomByName demo_table (Some [65]) 1 2 [true; false] = Done (Some l, o', []) /\
    AnscAtoGetAtomByName o' (Some [65]) = Stuck NullDeref.
Proof.
  cbn zeta. apply (@AnscAtoAddAtomByName_unchecked_name lp64 Z); [exact demo_table_ok|done].
Defined.
