(* ===== verification/NsComp.v ===== *)
(** * Namespaces of one component ([ccsp_ns_comp_base.c], [ccsp_ns_comp_operation.c])

    A [CCSP_NAMESPACE_COMP_OBJECT] keeps the namespaces a component registered
    in a queue.  The queue is the list it represents ([Queue]); an entry is
    known by its position in it. *)

From S2P Require Import Prelude CStrings.
Open Scope Z_scope.

Inductive ccsp_status :=
  | CCSP_SUCCESS
  | CCSP_ERR_MEMORY_ALLOC_FAIL
  | CCSP_CR_ERR_NAMESPACE_OVERLAP
  | CCSP_CR_ERR_UNKNOWN_COMPONENT
  | CCSP_CR_ERR_NAMESPACE_MISMATCH
  | CCSP_CR_ERR_UNSUPPORTED_NAMESPACE
  | CCSP_CR_ERR_INVALID_PARAM.

Record CCSP_NAMESPACE := Namespace {
  pName : option cstr;
  bWritable : bool;
  uType : Z
}.

Record CCSP_NAMESPACE_COMP_OBJECT := NsComp {
  pCompName : cstr;
  pDbusPath : cstr;
  pPrefix : cstr;
  ParamspaceQueue : list CCSP_NAMESPACE
}.

(** [name_spaceType_t]: an element of the arrays the callers pass. *)
Record name_spaceType_t := SpaceType { name_space : option cstr; dataType : Z }.

Definition set_queue (c : CCSP_NAMESPACE_COMP_OBJECT) (q : list CCSP_NAMESPACE) : CCSP_NAMESPACE_COMP_OBJECT :=
  NsComp (pCompName c) (pDbusPath c) (pPrefix c) q.

(** [pArray[i]] *)
Definition array_get {A} (l : list A) (i : Z) : outcome A :=
  match l !! Z.to_nat i with Some x => Done x | None => Stuck OutOfBounds end.

Definition CcspNsMgrCloneString (pString : option cstr) (a : alloc_stream) : option cstr * alloc_stream :=
  match pString with
  | None => (None, a)
  | Some s => let '(ok, a) := next_alloc a in ((if ok then Some s else None), a)
  end.

Definition CcspCreateNamespaceComponent (a : alloc_stream)
  : option CCSP_NAMESPACE_COMP_OBJECT * alloc_stream :=
  let '(ok, a) := next_alloc a in ((if ok then Some (NsComp [] [] [] []) else None), a).

(** The loop that pops and frees the namespaces; yields what is left. *)
Fixpoint CleanAll_loop (fuel : nat) (entry : option CCSP_NAMESPACE) (q : list CCSP_NAMESPACE)
  : list CCSP_NAMESPACE :=
  match fuel, entry with
  | S k, Some _ => CleanAll_loop k (head q) (tail q)
  | _, _ => q
  end.
Definition CcspNsCompCleanAll (c : CCSP_NAMESPACE_COMP_OBJECT) : CCSP_NAMESPACE_COMP_OBJECT :=
  let q := ParamspaceQueue c in
  set_queue c (CleanAll_loop (S (length q)) (head q) (tail q)).

(** The scan of [CcspNsCompUnregisterNamespace]: [cur] is [pCcspName], the
    entry visited last. *)
Fixpoint unregister_scan (q : list CCSP_NAMESPACE) (name : cstr) (i : nat) (cur : option nat)
  : outcome (option nat) :=
  match q with
  | [] => Done cur
  | e :: q' =>
      match pName e with
      | None => Stuck NullDeref
      | Some n => if bool_decide (n = name) then Done (Some i) else unregister_scan q' name (S i) (Some i)
      end
  end.
Definition CcspNsCompUnregisterNamespace (c : CCSP_NAMESPACE_COMP_OBJECT) (pNamespace : cstr)
  : outcome (ccsp_status * CCSP_NAMESPACE_COMP_OBJECT) :=
  pCcspName ← unregister_scan (ParamspaceQueue c) pNamespace 0 None;
  match pCcspName with
  | None => Done (CCSP_SUCCESS, c)
  | Some i => Done (CCSP_SUCCESS, set_queue c (delete i (ParamspaceQueue c)))
  end.

Definition CcspNsCompGetNamespaceCount (c : CCSP_NAMESPACE_COMP_OBJECT) : Z :=
  USHORT (Zlen (ParamspaceQueue c)).

(** The array is allocated for the depth of the queue; the loop writes an
    element per entry. *)
Definition array_put {A} (l : list A) (i : Z) (x : A) : outcome (list A) :=
  if (0 <=? i) && (i <? Z.of_nat (length l)) then Done (<[Z.to_nat i := x]> l) else Stuck OutOfBounds.

Fixpoint string_array_loop (q : list CCSP_NAMESPACE) (arr : list (option cstr)) (i : Z) (a : alloc_stream)
  : outcome (list (option cstr) * alloc_stream) :=
  match q with
  | [] => Done (arr, a)
  | e :: q' =>
      let '(s, a) := CcspNsMgrCloneString (pName e) a in
      arr ← array_put arr i s;
      string_array_loop q' arr (i + 1) a
  end.
Definition CcspNsCompGetNamespaceStringArray (c : CCSP_NAMESPACE_COMP_OBJECT) (a : alloc_stream)
  : outcome (ccsp_status * option (list (option cstr) * Z) * alloc_stream) :=
  let uCount := CcspNsCompGetNamespaceCount c in
  if uCount =? 0 then Done (CCSP_SUCCESS, Some ([], 0), a)
  else
    let '(ok, a) := next_alloc a in
    if negb ok then Done (CCSP_ERR_MEMORY_ALLOC_FAIL, None, a)
    else
      r ← string_array_loop (ParamspaceQueue c) (replicate (Z.to_nat uCount) None) 0 a;
      let '(arr, a) := r in Done (CCSP_SUCCESS, Some (arr, uCount), a).

(** An element of the structure array: until its structure is allocated it
    points at a copy of the name. *)
Inductive ns_slot := SlotNull | SlotString (s : option cstr) | SlotStruct (s : option cstr) (type : Z).

Fixpoint struct_array_loop (q : list CCSP_NAMESPACE) (arr : list ns_slot) (i : Z) (a : alloc_stream)
  : outcome (list ns_slot * alloc_stream) :=
  match q with
  | [] => Done (arr, a)
  | e :: q' =>
      let '(s, a) := CcspNsMgrCloneString (pName e) a in
      arr ← array_put arr i (SlotString s);
      let '(ok, a) := next_alloc a in
      if ok then
        let '(s', a) := CcspNsMgrCloneString (pName e) a in
        arr ← array_put arr i (SlotStruct s' (uType e));
        struct_array_loop q' arr (i + 1) a
      else struct_array_loop q' arr i a
  end.
Definition CcspNsCompGetNamespaceStructArray (c : CCSP_NAMESPACE_COMP_OBJECT) (a : alloc_stream)
  : outcome (ccsp_status * option (list ns_slot * Z) * alloc_stream) :=
  let uCount := CcspNsCompGetNamespaceCount c in
  if uCount =? 0 then Done (CCSP_SUCCESS, Some ([], 0), a)
  else
    let '(ok, a) := next_alloc a in
    if negb ok then Done (CCSP_ERR_MEMORY_ALLOC_FAIL, None, a)
    else
      r ← struct_array_loop (ParamspaceQueue c) (replicate (Z.to_nat uCount) SlotNull) 0 a;
      let '(arr, a) := r in Done (CCSP_SUCCESS, Some (arr, uCount), a).

Definition CcspNsCompBuildFromNamespaceStringArray (c : CCSP_NAMESPACE_COMP_OBJECT)
    (ppNamespace : list (option cstr)) (ulSize : Z) (a : alloc_stream)
  : outcome (CCSP_NAMESPACE_COMP_OBJECT * alloc_stream) :=
  for_from 0 (Z.to_nat ulSize) (fun i '(c, a) =>
    let '(ok, a) := next_alloc a in
    if ok then
      s ← array_get ppNamespace i;
      let '(s, a) := CcspNsMgrCloneString s a in
      Done (set_queue c (ParamspaceQueue c ++ [Namespace s false 0]), a)
    else Done (c, a)) (c, a).

Definition CcspNsCompBuildFromNamespaceStructArray (c : CCSP_NAMESPACE_COMP_OBJECT)
    (ppSpaceType : list (option name_spaceType_t)) (ulSize : Z) (a : alloc_stream)
  : outcome (CCSP_NAMESPACE_COMP_OBJECT * alloc_stream) :=
  for_from 0 (Z.to_nat ulSize) (fun i '(c, a) =>
    let '(ok, a) := next_alloc a in
    if ok then
      p ← array_get ppSpaceType i;
      match p with
      | Some p =>
          let '(s, a) := CcspNsMgrCloneString (name_space p) a in
          Done (set_queue c (ParamspaceQueue c ++ [Namespace s false (dataType p)]), a)
      | None => Done (c, a)
      end
    else Done (c, a)) (c, a).

(** ["."] and [".{i}."] *)
Definition TR69_PARAM_NAME_SEPARATOR : cstr := [46].
Definition TR69_NAME_TABLE_END : cstr := [46; 123; 105; 125; 46].

(** The tests of [CcspNsCompIsObjectSupported] on one namespace. *)
Definition object_test (name pObjNamespace : cstr) (bNextLevel : bool) : bool :=
  if is_prefix pObjNamespace name then
    if bNextLevel then
      let pString := drop (length pObjNamespace) name in
      match strstr pString TR69_PARAM_NAME_SEPARATOR with
      | None => true
      | Some pString =>
          if is_prefix TR69_NAME_TABLE_END pString then true
          else
            match strstr (drop 1 pString) TR69_PARAM_NAME_SEPARATOR with
            | None => true
            | Some _ => false
            end
      end
    else true
  else false.
Fixpoint IsObjectSupported_loop (q : list CCSP_NAMESPACE) (pObjNamespace : cstr) (bNextLevel : bool)
  : outcome bool :=
  match q with
  | [] => Done false
  | e :: q' =>
      match pName e with
      | None => Stuck NullDeref
      | Some name =>
          if object_test name pObjNamespace bNextLevel then Done true
          else IsObjectSupported_loop q' pObjNamespace bNextLevel
      end
  end.
Definition CcspNsCompIsObjectSupported (c : CCSP_NAMESPACE_COMP_OBJECT) (pObjNamespace : cstr)
    (bNextLevel : bool) : outcome bool :=
  IsObjectSupported_loop (ParamspaceQueue c) pObjNamespace bNextLevel.

(** ** Lemmas on the operations *)

(** The names of a queue whose names were all allocated. *)
Definition named (q : list CCSP_NAMESPACE) : Prop := Forall (fun e => is_Some (pName e)) q.
Definition names_of (q : list CCSP_NAMESPACE) : list cstr := omap pName q.

Lemma named_cons e q : named (e :: q) <-> is_Some (pName e) /\ named q.
Proof. unfold named. by rewrite Forall_cons. Qed.

Lemma unregister_scan_found q1 e q2 name i cur :
  named q1 -> name ∉ names_of q1 -> pName e = Some name ->
  unregister_scan (q1 ++ e :: q2) name i cur = Done (Some (i + length q1)%nat).
Proof.
  revert i cur. induction q1 as [|e1 q1 IH]; intros i cur Hq Hn He; cbn [unregister_scan app length].
  - rewrite He, bool_decide_true by done. by rewrite Nat.add_0_r.
  - apply named_cons in Hq as [[n Hn1] Hq]. unfold names_of in Hn. cbn in Hn. rewrite Hn1 in *.
    apply not_elem_of_cons in Hn as [Hne Hn]. rewrite bool_decide_false by done.
    rewrite IH by done. do 2 f_equal. lia.
Qed.

Lemma unregister_scan_absent q name i cur :
  named q -> name ∉ names_of q ->
  unregister_scan q name i cur = Done (match q with [] => cur | _ => Some (i + length q - 1)%nat end).
Proof.
  revert i cur. induction q as [|e q IH]; intros i cur Hq Hn; cbn [unregister_scan]; [done|].
  apply named_cons in Hq as [[n Hn1] Hq]. unfold names_of in Hn. cbn in Hn. rewrite Hn1 in *.
  apply not_elem_of_cons in Hn as [Hne Hn]. rewrite bool_decide_false by done.
  rewrite IH by done. destruct q; cbn; do 2 f_equal; lia.
Qed.

Lemma split_name q name : named q -> name ∈ names_of q ->
  exists q1 e q2, q = q1 ++ e :: q2 /\ pName e = Some name /\ name ∉ names_of q1.
Proof.
  induction q as [|e q IH]; intros Hq Hn; [by apply not_elem_of_nil in Hn|].
  apply named_cons in Hq as [[n He] Hq]. unfold names_of in Hn. cbn in Hn. rewrite He in Hn.
  destruct (decide (n = name)) as [->|Hne].
  - exists [], e, q. split_and!; [done|done|apply not_elem_of_nil].
  - apply elem_of_cons in Hn as [?|Hn]; [done|]. destruct (IH Hq Hn) as (q1 & e' & q2 & -> & He' & Hn1).
    exists (e :: q1), e', q2. split_and!; [done|done|]. unfold names_of. cbn. rewrite He.
    by apply not_elem_of_cons.
Qed.

Lemma delete_middle_nth {A} (l1 : list A) x l2 : delete (length l1) (l1 ++ x :: l2) = l1 ++ l2.
Proof. induction l1 as [|y l1 IH]; [done|]. cbn [length app]. change (y :: delete (length l1) (l1 ++ x :: l2) = y :: l1 ++ l2). by rewrite IH. Qed.

(** The entries built from an array of structures. *)
Definition entry_of (p : name_spaceType_t) : CCSP_NAMESPACE := Namespace (name_space p) false (dataType p).
Definition entries_of (arr : list (option name_spaceType_t)) : list CCSP_NAMESPACE :=
  omap (fun p => entry_of <$> p) arr.

Lemma array_get_at {A} (pre : list A) x post : array_get (pre ++ x :: post) (Zlen pre) = Done x.
Proof. unfold array_get. by rewrite Nat2Z.id, lookup_app_r, Nat.sub_diag by lia. Qed.

Lemma clone_ok s : CcspNsMgrCloneString s [] = (s, []).
Proof. by destruct s. Qed.

Lemma BuildFromNamespaceStructArray_spec c arr :
  CcspNsCompBuildFromNamespaceStructArray c arr (Zlen arr) [] =
    Done (set_queue c (ParamspaceQueue c ++ entries_of arr), []).
Proof.
  unfold CcspNsCompBuildFromNamespaceStructArray. rewrite Nat2Z.id.
  rewrite (for_list _ (fun p '(c, a) =>
    let '(ok, a) := next_alloc a in
    if ok then
      match p with
      | Some p =>
          let '(s, a) := CcspNsMgrCloneString (name_space p) a in
          Done (set_queue c (ParamspaceQueue c ++ [Namespace s false (dataType p)]), a)
      | None => Done (c, a)
      end
    else Done (c, a))).
  - revert c. induction arr as [|p arr IH]; intros c; cbn [foldl].
    + cbn. rewrite app_nil_r. by destruct c.
    + cbn [mbind outcome_bind next_alloc]. destruct p as [p|].
      * rewrite clone_ok, IH. cbn. by rewrite <-app_assoc.
      * by rewrite IH.
  - intros pre p post [c' a] ->. destruct (next_alloc a) as [[|] a']; [|done].
    rewrite array_get_at. done.
Qed.

Lemma BuildFromNamespaceStringArray_spec c arr :
  CcspNsCompBuildFromNamespaceStringArray c arr (Zlen arr) [] =
    Done (set_queue c (ParamspaceQueue c ++ ((fun s => Namespace s false 0) <$> arr)), []).
Proof.
  unfold CcspNsCompBuildFromNamespaceStringArray. rewrite Nat2Z.id.
  rewrite (for_list _ (fun s '(c, a) =>
    let '(ok, a) := next_alloc a in
    if ok then
      let '(s, a) := CcspNsMgrCloneString s a in
      Done (set_queue c (ParamspaceQueue c ++ [Namespace s false 0]), a)
    else Done (c, a))).
  - revert c. induction arr as [|p arr IH]; intros c; cbn [foldl].
    + cbn. rewrite app_nil_r. by destruct c.
    + cbn [mbind outcome_bind next_alloc]. rewrite clone_ok, IH. cbn. by rewrite <-app_assoc.
  - intros pre p post [c' a] ->. destruct (next_alloc a) as [[|] a']; [|done].
    rewrite array_get_at. done.
Qed.

Lemma array_put_at {A} (pre : list A) x y post : array_put (pre ++ x :: post) (Zlen pre) y = Done (pre ++ y :: post).
Proof.
  unfold array_put. rewrite length_app. cbn [length].
  destruct (Z.leb_spec 0 (Zlen pre)), (Z.ltb_spec (Zlen pre) (Z.of_nat (length pre + S (length post)))); try lia.
  cbn [andb]. rewrite Nat2Z.id, insert_app_r_alt, Nat.sub_diag by lia. done.
Qed.

Lemma string_array_loop_spec q pre rest :
  length rest = length q ->
  string_array_loop q (pre ++ rest) (Zlen pre) [] = Done (pre ++ (pName <$> q), []).
Proof.
  revert pre rest. induction q as [|e q IH]; intros pre rest Hl; cbn [string_array_loop].
  - destruct rest; [|done]. done.
  - destruct rest as [|x rest]; [done|]. rewrite clone_ok, array_put_at. cbn [mbind outcome_bind].
    replace (pre ++ pName e :: rest) with ((pre ++ [pName e]) ++ rest) by by rewrite <-app_assoc.
    replace (Zlen pre + 1) with (Zlen (pre ++ [pName e])) by (rewrite length_app; cbn; lia).
    rewrite IH by (cbn in Hl; lia). by rewrite <-app_assoc.
Qed.

Lemma struct_array_loop_spec q pre rest :
  length rest = length q ->
  struct_array_loop q (pre ++ rest) (Zlen pre) [] =
    Done (pre ++ ((fun e => SlotStruct (pName e) (uType e)) <$> q), []).
Proof.
  revert pre rest. induction q as [|e q IH]; intros pre rest Hl; cbn [struct_array_loop].
  - destruct rest; [|done]. done.
  - destruct rest as [|x rest]; [done|]. rewrite clone_ok, array_put_at. cbn [mbind outcome_bind next_alloc].
    rewrite clone_ok, array_put_at. cbn [mbind outcome_bind].
    set (y := SlotStruct (pName e) (uType e)).
    replace (pre ++ y :: rest) with ((pre ++ [y]) ++ rest) by by rewrite <-app_assoc.
    replace (Zlen pre + 1) with (Zlen (pre ++ [y])) by (rewrite length_app; cbn; lia).
    rewrite IH by (cbn in Hl; lia). by rewrite <-app_assoc.
Qed.

(** The search for a dot. *)
Lemma strstr_dot s :
  (strstr s [46] = None /\ 46 ∉ s) \/ exists u v, strstr s [46] = Some (46 :: v) /\ s = u ++ 46 :: v /\ 46 ∉ u.
Proof.
  induction s as [|c s IH]; [by left; split; [|apply not_elem_of_nil]|].
  cbn [strstr]. destruct (decide (c = 46)) as [->|Hne].
  - right. exists [], s. split_and!; [done|done|apply not_elem_of_nil].
  - assert (is_prefix [46] (c :: s) = false) as -> by (apply bool_decide_eq_false; cbn; congruence).
    destruct IH as [[-> Hs]|(u & v & -> & -> & Hu)].
    + left. split; [done|]. by apply not_elem_of_cons.
    + right. exists (c :: u), v. split_and!; [done|done|]. by apply not_elem_of_cons.
Qed.

(** How the rest of a name looks when the next-level test accepts it: it has at
    most one dot, or a table marker follows its first segment. *)
Definition next_level (rest : cstr) : Prop :=
  46 ∉ rest \/ (exists u v, rest = u ++ 46 :: v /\ 46 ∉ u /\ 46 ∉ v) \/
  exists u v, rest = u ++ TR69_NAME_TABLE_END ++ v /\ 46 ∉ u.

Lemma first_dot_unique (u u' v v' : cstr) : 46 ∉ u -> 46 ∉ u' -> u ++ 46 :: v = u' ++ 46 :: v' -> u = u' /\ v = v'.
Proof.
  revert u'. induction u as [|c u IH]; intros [|c' u'] Hu Hu' E; cbn in E.
  - by injection E as ->.
  - injection E as <- _. exfalso. apply Hu'. left.
  - injection E as -> _. exfalso. apply Hu. left.
  - injection E as Ec Er. apply not_elem_of_cons in Hu as [_ Hu], Hu' as [_ Hu'].
    destruct (IH _ Hu Hu' Er) as [-> ->]. by subst.
Qed.

Lemma object_test_spec name obj bNext :
  object_test name obj bNext = true <->
    exists rest, name = obj ++ rest /\ (bNext = true -> next_level rest).
Proof.
  unfold object_test, is_prefix at 1. case_bool_decide as Hp.
  2:{ split; [done|]. intros (rest & -> & _). by rewrite take_app_length in Hp. }
  set (rest := drop (length obj) name).
  assert (Hname : name = obj ++ rest) by (rewrite <-Hp at 1; subst rest; by rewrite take_drop).
  assert (Huniq : forall r, name = obj ++ r -> r = rest) by (intros r Hr; rewrite Hname in Hr; by apply app_inv_head in Hr).
  clearbody rest. destruct bNext; [|split; [intros _; by exists rest|done]].
  assert (Hiff : (exists r, name = obj ++ r /\ (true = true -> next_level r)) <-> next_level rest).
  { split; [intros (r & Hr & Hn); rewrite <-(Huniq r Hr); by apply Hn | eauto]. }
  rewrite Hiff. clear Hiff Hname Huniq Hp. unfold TR69_PARAM_NAME_SEPARATOR, next_level.
  destruct (strstr_dot rest) as [[-> Hno]|(u & v & -> & -> & Hu)]; [split; [by left|done]|].
  unfold is_prefix. case_bool_decide as Ht.
  { split; [|done]. intros _. right; right. exists u, (drop 4 v).
    split; [|done]. f_equal. rewrite <-Ht at 1. cbn. f_equal. by rewrite take_drop. }
  change (drop 1 (46 :: v)) with v.
  destruct (strstr_dot v) as [[-> Hv]|(u' & v' & -> & -> & Hu')].
  - split; [|done]. intros _. right; left. by exists u, v.
  - split; [done|]. intros [Hno|[(u1 & v1 & E & Hu1 & Hv1)|(u1 & v1 & E & Hu1)]]; exfalso.
    + apply Hno. rewrite elem_of_app, elem_of_cons. tauto.
    + destruct (first_dot_unique _ _ _ _ Hu Hu1 E) as [_ <-]. apply Hv1. rewrite elem_of_app, elem_of_cons. tauto.
    + unfold TR69_NAME_TABLE_END in E. cbn in E. destruct (first_dot_unique _ _ _ _ Hu Hu1 E) as [_ Ev].
      apply Ht. rewrite Ev. done.
Qed.

Lemma IsObjectSupported_loop_spec q obj bNext :
  named q -> exists b, IsObjectSupported_loop q obj bNext = Done b /\
    (b = true <-> exists name, name ∈ names_of q /\ object_test name obj bNext = true).
Proof.
  induction q as [|e q IH]; intros Hq; cbn [IsObjectSupported_loop].
  - exists false. split; [done|]. split; [done|]. by intros (? & ?%not_elem_of_nil & _).
  - apply named_cons in Hq as [[n He] Hq]. destruct (IH Hq) as (b & E & Hb). clear IH.
    unfold names_of in *. cbn. rewrite He. destruct (object_test n obj bNext) eqn:Et.
    + exists true. split; [done|]. split; [|done]. intros _. exists n. split; [left|done].
    + rewrite E. exists b. split; [done|]. rewrite Hb. split.
      * intros (n' & ? & ?). exists n'. split; [by right|done].
      * intros (n' & [->|?]%elem_of_cons & ?); [congruence|eauto].
Qed.

(** A registered name loses its first entry. *)
Lemma Unregister_found c q1 e q2 name :
  named (ParamspaceQueue c) -> ParamspaceQueue c = q1 ++ e :: q2 -> pName e = Some name -> name ∉ names_of q1 ->
  CcspNsCompUnregisterNamespace c name = Done (CCSP_SUCCESS, set_queue c (q1 ++ q2)).
Proof.
  intros Hq E He Hn. unfold CcspNsCompUnregisterNamespace. rewrite E in *.
  assert (Hq1 : named q1) by by apply Forall_app in Hq as [? _].
  rewrite unregister_scan_found by done. cbn [mbind outcome_bind].
  by rewrite Nat.add_0_l, delete_middle_nth.
Qed.

(** ** Properties *)

(** [CcspNsCompUnregisterNamespace] on a component whose names were all
    allocated: a registered name loses its first entry; but a name that is not
    registered removes the entry the scan visited last, the last namespace of
    the component. *)
Theorem CcspNsCompUnregisterNamespace_spec c name (Hq : named (ParamspaceQueue c)) :
  (forall q1 e q2, ParamspaceQueue c = q1 ++ e :: q2 -> pName e = Some name -> name ∉ names_of q1 ->
     CcspNsCompUnregisterNamespace c name = Done (CCSP_SUCCESS, set_queue c (q1 ++ q2))) /\
  (name ∉ names_of (ParamspaceQueue c) ->
     CcspNsCompUnregisterNamespace c name =
       Done (CCSP_SUCCESS, set_queue c (removelast (ParamspaceQueue c)))).
Proof.
  split; [intros; by eapply Unregister_found|]. unfold CcspNsCompUnregisterNamespace.
  intros Hn. rewrite unregister_scan_absent by done. cbn [mbind outcome_bind].
  destruct (ParamspaceQueue c) as [|e q] eqn:E using rev_ind; [by destruct c; cbn in *; subst|].
  rewrite removelast_last. destruct (q ++ [e]) eqn:Eq; [by destruct q|]. rewrite <-Eq.
  do 3 f_equal. rewrite length_app. cbn. replace (length q + 1 - 1)%nat with (length q) by lia.
  rewrite delete_middle_nth. by rewrite app_nil_r.
Qed.

Theorem CcspNsCompUnregisterNamespace_spec_witness :
  let c := NsComp [] [] [] [Namespace (Some [65]) false 0; Namespace (Some [66]) false 1] in
  CcspNsCompUnregisterNamespace c [67] =
    Done (CCSP_SUCCESS, NsComp [] [] [] [Namespace (Some [65]) false 0]) /\
  (forall q1 e q2, ParamspaceQueue c = q1 ++ e :: q2 -> pName e = Some [67] -> [67] ∉ names_of q1 ->
     CcspNsCompUnregisterNamespace c [67] = Done (CCSP_SUCCESS, set_queue c (q1 ++ q2))) /\
  ([67] ∉ names_of (ParamspaceQueue c) ->
     CcspNsCompUnregisterNamespace c [67] =
       Done (CCSP_SUCCESS, set_queue c (removelast (ParamspaceQueue c)))).
Proof.
  cbn zeta. split; [by vm_compute|]. apply CcspNsCompUnregisterNamespace_spec.
  unfold named. cbn. rewrite !Forall_cons. split_and!; [by eexists|by eexists|constructor].
Defined.

(** Building and reading back: when the allocations succeed, building from
    an array of structures appends its elements, NULL elements left out, to the
    namespaces of the component, and the two readers return the names, and the
    names with their types, of all namespaces in order, as long as a 16-bit
    depth can count them. *)
Theorem build_and_read_namespaces c arr
  (Hlen : Zlen (ParamspaceQueue c ++ entries_of arr) < 65536) :
  exists c', CcspNsCompBuildFromNamespaceStructArray c arr (Zlen arr) [] = Done (c', []) /\
    let q := ParamspaceQueue c ++ entries_of arr in
    ParamspaceQueue c' = q /\ pCompName c' = pCompName c /\
    CcspNsCompGetNamespaceCount c' = Zlen q /\
    CcspNsCompGetNamespaceStringArray c' [] = Done (CCSP_SUCCESS, Some (pName <$> q, Zlen q), []) /\
    CcspNsCompGetNamespaceStructArray c' [] =
      Done (CCSP_SUCCESS, Some ((fun e => SlotStruct (pName e) (uType e)) <$> q, Zlen q), []).
Proof.
  rewrite BuildFromNamespaceStructArray_spec. eexists. split; [done|]. cbn zeta.
  set (q := ParamspaceQueue c ++ entries_of arr) in *. split; [done|]. split; [done|].
  unfold CcspNsCompGetNamespaceStringArray, CcspNsCompGetNamespaceStructArray, CcspNsCompGetNamespaceCount.
  cbn [ParamspaceQueue set_queue]. rewrite USHORT_small by lia. split; [done|].
  destruct (Z.eqb_spec (Zlen q) 0) as [E|_]; [destruct q; [done|cbn in E; lia]|].
  cbn [next_alloc negb]. rewrite Nat2Z.id.
  pose proof (string_array_loop_spec q [] (replicate (length q) None) (length_replicate _ _)) as E1.
  pose proof (struct_array_loop_spec q [] (replicate (length q) SlotNull) (length_replicate _ _)) as E2.
  cbn [app length] in E1, E2. change (Z.of_nat 0) with 0 in E1, E2. by rewrite E1, E2.
Qed.

Theorem build_and_read_namespaces_witness :
  let c := NsComp [65] [] [] [] in
  let arr := [Some (SpaceType (Some [66]) 2); None; Some (SpaceType (Some [67]) 3)] in
  exists c', CcspNsCompBuildFromNamespaceStructArray c arr (Zlen arr) [] = Done (c', []) /\
    let q := ParamspaceQueue c ++ entries_of arr in
    ParamspaceQueue c' = q /\ pCompName c' = pCompName c /\
    CcspNsCompGetNamespaceCount c' = Zlen q /\
    CcspNsCompGetNamespaceStringArray c' [] = Done (CCSP_SUCCESS, Some (pName <$> q, Zlen q), []) /\
    CcspNsCompGetNamespaceStructArray c' [] =
      Done (CCSP_SUCCESS, Some ((fun e => SlotStruct (pName e) (uType e)) <$> q, Zlen q), []).
Proof. cbn zeta. apply (build_and_read_namespaces (NsComp [65] [] [] [])). by vm_compute. Defined.

(** [CcspNsCompIsObjectSupported] says whether some namespace of the
    component lies below the object path; with the next-level flag, whether
    some namespace lies at most one dot below it or has a table marker right
    after its first segment below it. *)
Theorem CcspNsCompIsObjectSupported_spec c obj bNext (Hq : named (ParamspaceQueue c)) :
  exists b, CcspNsCompIsObjectSupported c obj bNext = Done b /\
    (b = true <-> exists rest, obj ++ rest ∈ names_of (ParamspaceQueue c) /\ (bNext = true -> next_level rest)).
Proof.
  destruct (IsObjectSupported_loop_spec (ParamspaceQueue c) obj bNext Hq) as (b & E & Hb).
  exists b. split; [done|]. rewrite Hb. split.
  - intros (name & Hin & (rest & -> & Hn)%object_test_spec). eauto.
  - intros (rest & Hin & Hn). exists (obj ++ rest). split; [done|]. apply object_test_spec. eauto.
Qed.

Theorem CcspNsCompIsObjectSupported_spec_witness :
  let c := NsComp [] [] [] [Namespace (Some (lit "Device.WiFi.Radio.{i}.Enable")) false 3] in
  let obj := lit "Device.WiFi." in
  exists b, CcspNsCompIsObjectSupported c obj true = Done b /\
    (b = true <-> exists rest, obj ++ rest ∈ names_of (ParamspaceQueue c) /\ (true = true -> next_level rest)).
Proof.
  cbn zeta. apply CcspNsCompIsObjectSupported_spec. apply Forall_singleton. by eexists.
Defined.
