(* ===== verification/NsMgr.v ===== *)
(** * The namespace manager ([ccsp_ns_mgr_base.c], [ccsp_ns_mgr_operation.c])

    The Component Registrar's record of which component owns which data-model
    namespace: a queue of component objects, and an atom table that maps a
    namespace to its type and to its component.  The table is used through the
    interface [NameTable]; component objects live in a store, so that a handle
    kept in the table can dangle. *)

From S2P Require Import Prelude Links CStrings Tokens NameTable NsComp.
Open Scope Z_scope.

Definition CCSP_MAXI_COMPONENT_NAME_LENGTH : Z := 256.
Definition CCSP_MAXI_DBUS_PATH_LENGTH : Z := 256.
Definition CCSP_MAXI_SUBSYSTEM_PREFIX : Z := 64.
Definition TR69_PARAM_TABLE_SYMBOL : cstr := [123; 105; 125].

Record CCSP_NAMESPACE_MGR_OBJECT (T : Type) := Mgr {
  pContainerName : cstr;
  uTotalNamespace : Z;
  ComponentQueue : list loc;
  comps : gmap loc CCSP_NAMESPACE_COMP_OBJECT;
  hAtomNamespace : option T;
  SubsysPrefix : option cstr
}.
Arguments Mgr {T}.
Arguments pContainerName {T}.
Arguments uTotalNamespace {T}.
Arguments ComponentQueue {T}.
Arguments comps {T}.
Arguments hAtomNamespace {T}.
Arguments SubsysPrefix {T}.

(** ** Normalizing a namespace name

    [CcspNsMgrChangeToRegNamespaceName] replaces every instance number by
    "{i}", in a buffer of 256 bytes. *)

Definition digit19 (c : Z) : bool := (49 <=? c) && (c <=? 57).

Fixpoint reg_loop (fuel : nat) (total : Z) (pString : cstr) (ulTokenSize : Z)
    (pBackName : list Z) (uCurPos : Z) (bChange : bool) : outcome (list Z * bool) :=
  match fuel with
  | O => Stuck Diverge
  | S k =>
      if negb (deref pString =? 0) && negb (ulTokenSize =? 0) && (total - strlen pString <? total) then
        r ← (if digit19 (deref pString) then
               b ← buf_copy pBackName uCurPos TR69_PARAM_TABLE_SYMBOL;
               Done (b, uCurPos + strlen TR69_PARAM_TABLE_SYMBOL, true)
             else
               b ← buf_copy pBackName uCurPos (take (Z.to_nat ulTokenSize) pString);
               Done (b, uCurPos + ulTokenSize, bChange));
        let '(pBackName, uCurPos, bChange) := r in
        let pString := drop (Z.to_nat ulTokenSize) pString in
        r ← (if negb (deref pString =? 0) then
               b ← buf_copy pBackName uCurPos TR69_PARAM_NAME_SEPARATOR;
               Done (b, uCurPos + strlen TR69_PARAM_NAME_SEPARATOR)
             else Done (pBackName, uCurPos));
        let '(pBackName, uCurPos) := r in
        let pString := AnscMoveToNextToken pString TR69_PARAM_NAME_SEPARATOR in
        reg_loop k total pString (AnscSizeOfToken pString TR69_PARAM_NAME_SEPARATOR (strlen pString))
          pBackName uCurPos bChange
      else Done (pBackName, bChange)
  end.

(** The new name, or NULL, and [*pbChange] when it is written. *)
Definition CcspNsMgrChangeToRegNamespaceName (pString : option cstr) (a : alloc_stream)
  : outcome (option cstr * option bool * alloc_stream) :=
  match pString with
  | None | Some [] => Done (None, None, a)
  | Some pTemp =>
      if (deref pTemp =? 46) || match strstr pTemp [46; 46] with Some _ => true | None => false end
      then Done (None, None, a)
      else if 255 <? strlen pTemp then Done (None, None, a)
      else
        let pString := AnscMoveToNextToken pTemp TR69_PARAM_NAME_SEPARATOR in
        let ulTokenSize := AnscSizeOfToken pString TR69_PARAM_NAME_SEPARATOR (strlen pString) in
        if (deref pString =? 0) || (ulTokenSize =? 0) then Done (None, None, a)
        else
          r ← reg_loop (S (length pString)) (strlen pTemp) pString ulTokenSize (replicate 256 0) 0 false;
          let '(pBackName, bChange) := r in
          if (bChange : bool) then
            match buf_cstr pBackName with
            | None => Stuck OutOfBounds
            | Some s => let '(s, a) := CcspNsMgrCloneString (Some s) a in Done (s, Some true, a)
            end
          else let '(s, a) := CcspNsMgrCloneString (Some pTemp) a in Done (s, Some false, a)
  end.

(** ** The operations *)

Section manager.
Context `{Platform} {T : Type} `{NameTable T loc}.
Abbreviation MGR := (CCSP_NAMESPACE_MGR_OBJECT T).
Implicit Types (m : MGR).

Definition set_total m n : MGR :=
  Mgr (pContainerName m) n (ComponentQueue m) (comps m) (hAtomNamespace m) (SubsysPrefix m).
Definition set_comps m q cs : MGR :=
  Mgr (pContainerName m) (uTotalNamespace m) q cs (hAtomNamespace m) (SubsysPrefix m).
Definition set_table m t : MGR :=
  Mgr (pContainerName m) (uTotalNamespace m) (ComponentQueue m) (comps m) t (SubsysPrefix m).

(** Reading a component through a handle, calling the atom table. *)
Definition get_comp m (l : loc) : outcome CCSP_NAMESPACE_COMP_OBJECT :=
  match comps m !! l with Some c => Done c | None => Stuck BadAccess end.
Definition get_table m : outcome T :=
  match hAtomNamespace m with Some t => Done t | None => Stuck NullDeref end.

Definition CcspCreateNamespaceMgr (name : option cstr) (a : alloc_stream) : outcome (option MGR * alloc_stream) :=
  let '(ok, a) := next_alloc a in
  if negb ok then Done (None, a)
  else
    r ← nt_create a; let '(t, a) := r in
    Done (Some (Mgr (STRCPY_S_NOCLOBBER [] CCSP_MAXI_COMPONENT_NAME_LENGTH name) 0 [] ∅ t None), a).

Definition CcspNsMgrGetCountOfRegNamespace m : Z := uTotalNamespace m.

(** NULL is the name of no component. *)
Fixpoint lookfor_loop m (q : list loc) (compName : option cstr) : outcome (option loc) :=
  match q with
  | [] => Done None
  | l :: q' =>
      c ← get_comp m l;
      if bool_decide (compName = Some (pCompName c)) then Done (Some l) else lookfor_loop m q' compName
  end.
Definition CcspNsMgrLookforComponent m (compName : option cstr) : outcome (option loc) :=
  lookfor_loop m (ComponentQueue m) compName.

(** The checks of [CcspNsMgrRegisterNamespaces]: Some status is a return. *)
Fixpoint register_checks m (compName : option cstr) (arr : list (option name_spaceType_t))
    (n : nat) (i : Z) : outcome (option ccsp_status) :=
  match n with
  | O => Done None
  | S k =>
      p ← array_get arr i;
      match p with
      | None => Done (Some CCSP_CR_ERR_INVALID_PARAM)
      | Some p =>
          match name_space p with
          | None => Done (Some CCSP_CR_ERR_INVALID_PARAM)
          | Some s =>
              if strlen s <? 4 then Done (Some CCSP_CR_ERR_INVALID_PARAM)
              else if (deref s =? 46) || match strstr s [46; 46] with Some _ => true | None => false end
              then Done (Some CCSP_CR_ERR_INVALID_PARAM)
              else if default 0 (last s) =? 46 then Done (Some CCSP_CR_ERR_INVALID_PARAM)
              else
                t ← get_table m;
                pAtomItem ← nt_get t (Some s);
                match pAtomItem with
                | Some (_, pNSComp) =>
                    c ← get_comp m pNSComp;
                    match compName with
                    | None => Stuck NullDeref
                    | Some n =>
                        if bool_decide (pCompName c ≠ n) then Done (Some CCSP_CR_ERR_NAMESPACE_OVERLAP)
                        else Done (Some CCSP_SUCCESS)
                    end
                | None => register_checks m compName arr k (i + 1)
                end
          end
      end
  end.

(** Adding an atom for every element of an array. *)
Definition add_atoms m (arr : list (option name_spaceType_t)) (n : Z) (pNSComp : loc) (a : alloc_stream)
  : outcome (MGR * alloc_stream) :=
  for_from 0 (Z.to_nat n) (fun i '(m, a) =>
    p ← array_get arr i;
    match p with
    | None => Done (m, a)
    | Some p =>
        t ← get_table m;
        r ← nt_add t (name_space p) (ULONG (dataType p)) pNSComp a;
        let '(t, a) := r in Done (set_table m (Some t), a)
    end) (m, a).

(** The component of a name, created and queued when there is none. *)
Definition find_or_create m (compName dbusPath prefix : option cstr) (a : alloc_stream)
  : outcome (option (loc * MGR) * alloc_stream) :=
  pNSComp ← CcspNsMgrLookforComponent m compName;
  match pNSComp with
  | Some l => Done (Some (l, m), a)
  | None =>
      let '(c, a) := CcspCreateNamespaceComponent a in
      match c with
      | None => Done (None, a)
      | Some c =>
          let c := NsComp (STRCPY_S_NOCLOBBER (pCompName c) CCSP_MAXI_COMPONENT_NAME_LENGTH compName)
                          (STRCPY_S_NOCLOBBER (pDbusPath c) CCSP_MAXI_DBUS_PATH_LENGTH dbusPath)
                          (STRCPY_S_NOCLOBBER (pPrefix c) CCSP_MAXI_SUBSYSTEM_PREFIX prefix)
                          (ParamspaceQueue c) in
          let l := fresh (dom (comps m)) in
          Done (Some (l, set_comps m (ComponentQueue m ++ [l]) (<[l := c]> (comps m))), a)
      end
  end.

(** [BuildFromNamespaceStructArray] on the component, then its atoms. *)
Definition fill_component m (l : loc) (arr : list (option name_spaceType_t)) (n : Z) (a : alloc_stream)
  : outcome (MGR * alloc_stream) :=
  c ← get_comp m l;
  r ← CcspNsCompBuildFromNamespaceStructArray c arr n a;
  let '(c, a) := r in
  add_atoms (set_comps m (ComponentQueue m) (<[l := c]> (comps m))) arr n l a.

(** The second half of both registration functions. *)
Definition register_component m (compName dbusPath prefix : option cstr)
    (arr : list (option name_spaceType_t)) (n : Z) (a : alloc_stream)
  : outcome (ccsp_status * MGR * alloc_stream) :=
  r ← find_or_create m compName dbusPath prefix a;
  match r with
  | (None, a) => Done (CCSP_ERR_MEMORY_ALLOC_FAIL, m, a)
  | (Some (l, m), a) =>
      r ← fill_component m l arr n a;
      let '(m, a) := r in
      Done (CCSP_SUCCESS, set_total m (ULONG (uTotalNamespace m + n)), a)
  end.

Definition CcspNsMgrRegisterNamespaces m (compName dbusPath prefix : option cstr)
    (ppSpaceType : list (option name_spaceType_t)) (ulSize : Z) (a : alloc_stream)
  : outcome (ccsp_status * MGR * alloc_stream) :=
  st ← register_checks m compName ppSpaceType (Z.to_nat ulSize) 0;
  match st with
  | Some st => Done (st, m, a)
  | None => register_component m compName dbusPath prefix ppSpaceType ulSize a
  end.

(** The elements that are not registered yet: [ppSpaceCopy]. *)
Fixpoint new_elements m (t : T) (arr : list (option name_spaceType_t)) (n : nat) (i : Z)
  : outcome (list (option name_spaceType_t)) :=
  match n with
  | O => Done []
  | S k =>
      p ← array_get arr i;
      match p with
      | None => Stuck NullDeref
      | Some s =>
          pAtomItem ← nt_get t (name_space s);
          r ← new_elements m t arr k (i + 1);
          Done (match pAtomItem with Some _ => r | None => Some s :: r end)
      end
  end.

Definition CcspNsMgrBuildNamespaces m (compName dbusPath prefix : option cstr)
    (ppSpaceType : list (option name_spaceType_t)) (ulSize : Z) (a : alloc_stream)
  : outcome (ccsp_status * MGR * alloc_stream) :=
  r ← match hAtomNamespace m with
      | Some t => Done (Some t, a)
      | None => nt_create a
      end;
  let '(t, a) := r in
  let m := set_table m t in
  match t with
  | None => Done (CCSP_ERR_MEMORY_ALLOC_FAIL, m, a)
  | Some t =>
      let '(ok, a) := next_alloc a in
      if negb ok then Done (CCSP_ERR_MEMORY_ALLOC_FAIL, m, a)
      else
        ppSpaceCopy ← new_elements m t ppSpaceType (Z.to_nat ulSize) 0;
        register_component m compName dbusPath prefix ppSpaceCopy (Zlen ppSpaceCopy) a
  end.

(** Freeing a component object empties its queue and gives its memory back. *)
Definition CcspFreeNamespaceComponent (cs : gmap loc CCSP_NAMESPACE_COMP_OBJECT) (hCcspNsComp : option loc)
  : outcome (gmap loc CCSP_NAMESPACE_COMP_OBJECT) :=
  match hCcspNsComp with
  | None => Done cs
  | Some l =>
      match cs !! l with
      | None => Stuck BadAccess
      | Some c => Done (delete l (<[l := CcspNsCompCleanAll c]> cs))
      end
  end.

(** The component the caller names is not checked for NULL. *)
Definition CcspNsMgrUnregisterNamespace m (compName pNamespace : option cstr)
  : outcome (ccsp_status * MGR) :=
  pNSComp ← CcspNsMgrLookforComponent m compName;
  match pNSComp with
  | None => Stuck NullDeref
  | Some l =>
      c ← get_comp m l;
      let depth := CcspNsCompGetNamespaceCount c in
      match pNamespace with
      | Some _ => if depth =? 0 then Done (CCSP_CR_ERR_NAMESPACE_MISMATCH, m) else
          t ← get_table m;
          pAtomItem ← nt_get t pNamespace;
          match pAtomItem with
          | None => Done (CCSP_CR_ERR_NAMESPACE_MISMATCH, m)
          | Some _ =>
              t ← nt_del t pNamespace;
              let m := set_total (set_table m (Some t)) (ULONG (uTotalNamespace m - 1)) in
              r ← CcspNsCompUnregisterNamespace c (default [] pNamespace);
              let '(st, c) := r in
              Done (st, set_comps m (ComponentQueue m) (<[l := c]> (comps m)))
          end
      | None =>
          if negb (depth =? 0) then Done (CCSP_CR_ERR_INVALID_PARAM, m)
          else
            t ← get_table m;
            pAtomItem ← nt_get t None;
            Done (CCSP_CR_ERR_NAMESPACE_MISMATCH, m)
      end
  end.

(** Deleting the atoms of all namespaces of a component. *)
Fixpoint del_atoms (t : T) (q : list CCSP_NAMESPACE) : outcome T :=
  match q with
  | [] => Done t
  | e :: q' => t ← nt_del t (pName e); del_atoms t q'
  end.

Definition CcspNsMgrUnregisterComponent m (compName : option cstr) : outcome (ccsp_status * MGR) :=
  pNSComp ← CcspNsMgrLookforComponent m compName;
  match pNSComp with
  | None => Done (CCSP_CR_ERR_UNKNOWN_COMPONENT, m)
  | Some l =>
      c ← get_comp m l;
      m ← match ParamspaceQueue c with
          | [] => Done m
          | q => t ← get_table m; t ← del_atoms t q; Done (set_table m (Some t))
          end;
      let m := set_total m (ULONG (uTotalNamespace m - CcspNsCompGetNamespaceCount c)) in
      cs ← CcspFreeNamespaceComponent (comps m) (Some l);
      Done (CCSP_SUCCESS, set_comps m (lremove l (ComponentQueue m)) cs)
  end.

(** [componentStruct_t]; [type] is the atom's type, or [ccsp_none]. *)
Record componentStruct_t := CompStruct {
  componentName : option cstr;
  dbusPath : option cstr;
  type : Z
}.
Definition ccsp_none : Z := 11.

(** Whether a component object is reported for an object path. *)
Definition prefix_match m (prefix : option cstr) (c : CCSP_NAMESPACE_COMP_OBJECT) : bool :=
  match prefix with
  | None | Some [] => bool_decide (pPrefix c = [])
  | Some p =>
      (bool_decide (pPrefix c = []) &&
         match SubsysPrefix m with None => true | Some q => bool_decide (p = q) end)
      || bool_decide (p = pPrefix c)
  end.

(** The scan that fills [hArray], an array of 64 handles. *)
Fixpoint collect m (q : list loc) (name : cstr) (prefix : option cstr) (bNextLevel : bool) (hArray : list loc)
  : outcome (list loc) :=
  match q with
  | [] => Done hArray
  | l :: q' =>
      c ← get_comp m l;
      ok ← CcspNsCompIsObjectSupported c name bNextLevel;
      if (ok : bool) && prefix_match m prefix c then
        if (length hArray <? 64)%nat then collect m q' name prefix bNextLevel (hArray ++ [l])
        else Stuck OutOfBounds
      else collect m q' name prefix bNextLevel hArray
  end.

(** The structures for the collected components; None when one of them could
    not be allocated. *)
Fixpoint comp_structs m (hArray : list loc) (a : alloc_stream)
  : outcome (option (list (option componentStruct_t)) * alloc_stream) :=
  match hArray with
  | [] => Done (Some [], a)
  | l :: r =>
      c ← get_comp m l;
      let '(ok, a) := next_alloc a in
      if negb ok then Done (None, a)
      else
        let '(n, a) := CcspNsMgrCloneString (Some (pCompName c)) a in
        let '(d, a) := CcspNsMgrCloneString (Some (pDbusPath c)) a in
        rest ← comp_structs m r a;
        let '(o, a) := rest in
        Done (match o with Some cs => Some (Some (CompStruct n d ccsp_none) :: cs) | None => None end, a)
  end.

(** The prefix test for a full parameter name; [strlen(NULL)] is a fault. *)
Definition leaf_prefix_refused m (prefix : option cstr) (c : CCSP_NAMESPACE_COMP_OBJECT) : outcome bool :=
  match prefix with
  | None | Some [] => Done (bool_decide (pPrefix c ≠ []))
  | Some p =>
      if bool_decide (pPrefix c ≠ []) && bool_decide (p ≠ pPrefix c) then Done true
      else match SubsysPrefix m with
           | None => Stuck NullDeref
           | Some q => Done (bool_decide (q = []))
           end
  end.

(** The status, and the component array with its size when it is written. *)
Definition CcspNsMgrDiscoverNamespace m (pNamespace prefix : option cstr) (bNextLevel : bool) (a : alloc_stream)
  : outcome (ccsp_status * option (list (option componentStruct_t) * Z) * alloc_stream) :=
  r ← CcspNsMgrChangeToRegNamespaceName pNamespace a;
  let '(pNewSpace, pbChange, a) := r in
  let bChange := default false pbChange in
  match pNewSpace, hAtomNamespace m with
  | Some pNewSpace, Some t =>
      if negb (default 0 (last pNewSpace) =? 46) then
        pAtomItem ← nt_get t (Some pNewSpace);
        pAtomItem ← match pAtomItem with
                    | None => if bChange then nt_get t pNamespace else Done None
                    | Some _ => Done pAtomItem
                    end;
        match pAtomItem with
        | None => Done (CCSP_CR_ERR_UNSUPPORTED_NAMESPACE, None, a)
        | Some (AtomId, pNSComp) =>
            c ← get_comp m pNSComp;
            refused ← leaf_prefix_refused m prefix c;
            if (refused : bool) then Done (CCSP_CR_ERR_UNSUPPORTED_NAMESPACE, None, a)
            else
              let '(ok, a) := next_alloc a in
              if negb ok then Done (CCSP_ERR_MEMORY_ALLOC_FAIL, None, a)
              else
                let '(ok, a) := next_alloc a in
                if negb ok then Done (CCSP_SUCCESS, Some ([None], 1), a)
                else
                  let '(n, a) := CcspNsMgrCloneString (Some (pCompName c)) a in
                  let '(d, a) := CcspNsMgrCloneString (Some (pDbusPath c)) a in
                  Done (CCSP_SUCCESS, Some ([Some (CompStruct n d AtomId)], 1), a)
        end
      else
        hArray ← collect m (ComponentQueue m) pNewSpace prefix bNextLevel [];
        hArray ← (if (length hArray =? 0)%nat && bChange
                  then collect m (ComponentQueue m) (default [] pNamespace) prefix bNextLevel []
                  else Done hArray);
        if (length hArray =? 0)%nat then Done (CCSP_CR_ERR_UNSUPPORTED_NAMESPACE, None, a)
        else
          let '(ok, a) := next_alloc a in
          if negb ok then Done (CCSP_ERR_MEMORY_ALLOC_FAIL, None, a)
          else
            r ← comp_structs m hArray a;
            match r with
            | (None, a) => Done (CCSP_ERR_MEMORY_ALLOC_FAIL, None, a)
            | (Some cs, a) => Done (CCSP_SUCCESS, Some (cs, Z.of_nat (length hArray)), a)
            end
  | _, _ => Done (CCSP_CR_ERR_INVALID_PARAM, None, a)
  end.

Definition CcspNsMgrCheckNamespaceDataType m (pNamespace : option cstr) (uDataType : Z)
  : outcome (ccsp_status * option bool) :=
  match pNamespace with
  | None => Done (CCSP_CR_ERR_UNSUPPORTED_NAMESPACE, None)
  | Some _ =>
      t ← get_table m;
      pAtomItem ← nt_get t pNamespace;
      match pAtomItem with
      | None => Done (CCSP_CR_ERR_UNSUPPORTED_NAMESPACE, None)
      | Some (AtomId, _) => Done (CCSP_SUCCESS, Some (AtomId =? uDataType))
      end
  end.

(** [registeredComponent_t] and the array of the registered components, one
    element per 16-bit depth of the queue. *)
Record registeredComponent_t := RegComp {
  rc_componentName : option cstr;
  rc_dbusPath : option cstr;
  rc_subsystem_prefix : option cstr
}.
Fixpoint registered_loop m (q : list loc) (arr : list (option registeredComponent_t)) (i : Z) (a : alloc_stream)
  : outcome (list (option registeredComponent_t) * alloc_stream) :=
  match q with
  | [] => Done (arr, a)
  | l :: q' =>
      c ← get_comp m l;
      let '(ok, a) := next_alloc a in
      if ok then
        let '(n, a) := CcspNsMgrCloneString (Some (pCompName c)) a in
        let '(d, a) := CcspNsMgrCloneString (Some (pDbusPath c)) a in
        let '(p, a) := CcspNsMgrCloneString (Some (pPrefix c)) a in
        arr ← array_put arr i (Some (RegComp n d p));
        registered_loop m q' arr (i + 1) a
      else registered_loop m q' arr i a
  end.
Definition CcspNsMgrGetRegisteredComponents m (a : alloc_stream)
  : outcome (ccsp_status * option (list (option registeredComponent_t) * Z) * alloc_stream) :=
  let uCount := USHORT (Zlen (ComponentQueue m)) in
  let '(ok, a) := next_alloc a in
  if negb ok then Done (CCSP_ERR_MEMORY_ALLOC_FAIL, None, a)
  else
    r ← registered_loop m (ComponentQueue m) (replicate (Z.to_nat uCount) None) 0 a;
    let '(arr, a) := r in Done (CCSP_SUCCESS, Some (arr, uCount), a).

Definition CcspNsMgrGetNamespaceByComponent m (compName : option cstr) (a : alloc_stream)
  : outcome (ccsp_status * option (list ns_slot * Z) * alloc_stream) :=
  pNSComp ← CcspNsMgrLookforComponent m compName;
  match pNSComp with
  | None => Done (CCSP_CR_ERR_UNKNOWN_COMPONENT, None, a)
  | Some l => c ← get_comp m l; CcspNsCompGetNamespaceStructArray c a
  end.

(** Frees every component and the table. *)
Fixpoint free_comps (q : list loc) (cs : gmap loc CCSP_NAMESPACE_COMP_OBJECT)
  : outcome (gmap loc CCSP_NAMESPACE_COMP_OBJECT) :=
  match q with
  | [] => Done cs
  | l :: q' => cs ← CcspFreeNamespaceComponent cs (Some l); free_comps q' cs
  end.
Definition CcspNsMgrCleanAll m : outcome MGR :=
  cs ← free_comps (ComponentQueue m) (comps m);
  _ ← match hAtomNamespace m with None => Done tt | Some t => nt_remove t end;
  Done (set_table (set_comps m [] cs) None).

Definition CcspFreeNamespaceMgr (hNamespaceMgr : option MGR) : outcome unit :=
  match hNamespaceMgr with
  | None => Done tt
  | Some m => _ ← CcspNsMgrCleanAll m; Done tt
  end.

End manager.

(** ** The normalized name, as a reference

    A machine that reads the name once: at the start of a segment a digit
    from 1 to 9 stands for an instance number. *)
Inductive seg_state := SegStart | SegCopy | SegSkip.
Fixpoint reg_name (st : seg_state) (s : cstr) : cstr :=
  match s with
  | [] => []
  | c :: r =>
      if c =? 46 then 46 :: reg_name SegStart r
      else
        match st with
        | SegStart => if digit19 c then TR69_PARAM_TABLE_SYMBOL ++ reg_name SegSkip r else c :: reg_name SegCopy r
        | SegCopy => c :: reg_name SegCopy r
        | SegSkip => reg_name SegSkip r
        end
  end.
(** Some segment starts with a digit from 1 to 9. *)
Definition has_instance (s : cstr) : bool :=
  existsb (fun w => digit19 (deref w)) (Tokens.words [46] s).

(** The names the normalization accepts. *)
Definition valid_name (s : cstr) : Prop :=
  wf_cstr s /\ s ≠ [] /\ deref s ≠ 46 /\ (forall u v, s ≠ u ++ 46 :: 46 :: v) /\ strlen s <= 255.

Lemma is_prefix_spec n s : is_prefix n s = true <-> exists v, s = n ++ v.
Proof.
  unfold is_prefix. rewrite bool_decide_eq_true. split.
  - intros E. exists (drop (length n) s). by rewrite <-E at 1; rewrite take_drop.
  - intros (v & ->). by rewrite take_app_length.
Qed.

Lemma strstr_None s n : strstr s n = None <-> forall u v, s ≠ u ++ n ++ v.
Proof.
  split.
  - intros E u. revert s E. induction u as [|c u IH]; intros s E v ->.
    + cbn in E. destruct (n ++ v) as [|x r] eqn:En; cbn [strstr] in E.
      * destruct (is_prefix n []) eqn:Ep; [done|]. apply not_true_iff_false in Ep. apply Ep, is_prefix_spec. by exists v.
      * destruct (is_prefix n (x :: r)) eqn:Ep; [done|]. apply not_true_iff_false in Ep. apply Ep, is_prefix_spec.
        by exists v.
    + cbn [strstr app] in E. destruct (is_prefix n (c :: u ++ n ++ v)); [done|]. by apply (IH _ E v).
  - induction s as [|c s IH]; intros Hs; cbn [strstr].
    + destruct (is_prefix n []) eqn:Ep; [|done]. apply is_prefix_spec in Ep as (v & E). by destruct (Hs [] v).
    + destruct (is_prefix n (c :: s)) eqn:Ep; [apply is_prefix_spec in Ep as (v & E); by destruct (Hs [] v)|].
      apply IH. intros u v ->. by destruct (Hs (c :: u) v).
Qed.

Lemma reg_name_seg st u r :
  st ≠ SegStart -> 46 ∉ u -> reg_name st (u ++ r) = (if st is SegCopy then u else []) ++ reg_name st r.
Proof.
  intros Hst Hu. induction u as [|c u IH]; [by destruct st|].
  apply not_elem_of_cons in Hu as [Hc Hu]. cbn. destruct (Z.eqb_spec c 46); [by subst|].
  destruct st; [done| |]; by rewrite (IH Hu).
Qed.

(** One segment at the front. *)
Lemma reg_name_word u r :
  46 ∉ u -> u ≠ [] -> (forall c, head r = Some c -> c = 46) ->
  reg_name SegStart (u ++ r) = (if digit19 (deref u) then TR69_PARAM_TABLE_SYMBOL else u) ++ reg_name SegStart r.
Proof.
  intros Hu Hne Hr. destruct u as [|c u]; [done|]. apply not_elem_of_cons in Hu as [Hc Hu].
  assert (Hst : forall st, reg_name st r = reg_name SegStart r).
  { intros st. destruct r as [|x r]; [done|]. by rewrite (Hr x eq_refl). }
  cbn. destruct (Z.eqb_spec c 46); [by subst|]. change (default 0 (Some c)) with c.
  destruct (digit19 c); rewrite reg_name_seg by done; by rewrite Hst.
Qed.

(** The work buffer after [out] was written to it. *)
Definition back_name (out : cstr) : list Z := out ++ replicate (256 - length out) 0.

Lemma back_name_append out w :
  (length out <= 256)%nat ->
  buf_copy (back_name out) (Zlen out) w =
    if (length out + length w <=? 256)%nat then Done (back_name (out ++ w)) else Stuck OutOfBounds.
Proof.
  intros Ho. unfold back_name. destruct (Nat.leb_spec (length out + length w) 256).
  - assert (replicate (256 - length out) 0 = replicate (length w) 0 ++ replicate (256 - length (out ++ w)) 0) as ->.
    { rewrite <-replicate_add. f_equal. rewrite length_app. lia. }
    rewrite buf_copy_at by (rewrite ?length_replicate; done). by rewrite <-app_assoc.
  - unfold buf_copy. rewrite length_app, length_replicate.
    destruct (Z.leb_spec (Zlen out + Zlen w) (Z.of_nat (length out + (256 - length out)))); [lia|].
    by rewrite andb_false_r.
Qed.

Lemma back_name_append' out w k :
  (length out <= 256)%nat -> k = Zlen out ->
  buf_copy (back_name out) k w =
    if (length out + length w <=? 256)%nat then Done (back_name (out ++ w)) else Stuck OutOfBounds.
Proof. intros ? ->. by apply back_name_append. Qed.

Lemma no_dots_suffix (u r : cstr) :
  (forall x y, u ++ r ≠ x ++ 46 :: 46 :: y) -> forall x y, r ≠ x ++ 46 :: 46 :: y.
Proof. intros H x y ->. apply (H (u ++ x) y). by rewrite <-app_assoc. Qed.

Lemma has_instance_word u r :
  46 ∉ u -> u ≠ [] -> (forall c, head r = Some c -> c = 46) ->
  has_instance (u ++ r) = digit19 (deref u) || has_instance r.
Proof.
  intros Hu Hne Hr. unfold has_instance. rewrite words_word; [done| |done|].
  - apply Forall_forall. intros x Hx ->%list_elem_of_singleton. done.
  - intros c Hc. apply list_elem_of_singleton. by apply Hr.
Qed.

Lemma has_instance_dot r : has_instance (46 :: r) = has_instance r.
Proof.
  unfold has_instance. pose proof (words_skip [46] [46] r) as E. cbn [app] in E. rewrite E; [done|].
  apply Forall_singleton. by left.
Qed.

Lemma reg_loop_spec fuel total : forall s out ch,
  wf_cstr s -> deref s ≠ 46 -> (forall u v, s ≠ u ++ 46 :: 46 :: v) ->
  (length s < fuel)%nat -> strlen s <= total -> (length out <= 256)%nat ->
  reg_loop fuel total s (AnscSizeOfToken s [46] (strlen s)) (back_name out) (Zlen out) ch =
    if (length (out ++ reg_name SegStart s) <=? 256)%nat
    then Done (back_name (out ++ reg_name SegStart s), ch || has_instance s) else Stuck OutOfBounds.
Proof.
  induction fuel as [|k IH]; intros s out ch Hs Hdot Hdd Hf Ht Ho; [lia|]. cbn [reg_loop].
  rewrite deref_zero by done. case_bool_decide as Es.
  { subst. cbn. rewrite app_nil_r, orb_false_r. by destruct (Nat.leb_spec (length out) 256); [|lia]. }
  assert (Hh : forall c, head s = Some c -> c ∉ [46]).
  { intros c Hc ->%list_elem_of_singleton. apply Hdot. unfold deref. by rewrite Hc. }
  destruct (front_token s [46] Hs Es Hh) as (u & r & E & Hn & Hb & _ & Hd & Hwu & Hu & Hr).
  rewrite Hn. destruct (Z.eqb_spec (Zlen u) 0); [lia|].
  assert (strlen s = Zlen u + strlen r) as Hlen by (unfold strlen; rewrite E, length_app; lia).
  destruct (Z.ltb_spec (total - strlen s) total); [|lia]. cbn [negb andb]. rewrite Hd.
  assert (Hne : u ≠ []) by (intros ->; cbn in *; lia).
  assert (Hu46 : 46 ∉ u). { intros Hin. eapply Forall_forall in Hu; [|exact Hin]. apply Hu. by left. }
  assert (Hr46 : forall c, head r = Some c -> c = 46) by (intros c ?%Hr; by apply list_elem_of_singleton).
  assert (Hdu : deref s = deref u) by (rewrite E; by destruct u).
  assert (Htake : take (Z.to_nat (Zlen u)) s = u) by (by rewrite Nat2Z.id, E, take_app_length).
  rewrite Hdu, Htake. set (w := if digit19 (deref u) then TR69_PARAM_TABLE_SYMBOL else u).
  assert (Hstep : (if digit19 (deref u) then
             b ← buf_copy (back_name out) (Zlen out) TR69_PARAM_TABLE_SYMBOL;
             Done (b, Zlen out + strlen TR69_PARAM_TABLE_SYMBOL, true)
           else b ← buf_copy (back_name out) (Zlen out) u; Done (b, Zlen out + Zlen u, ch)) =
     if (length out + length w <=? 256)%nat
     then Done (back_name (out ++ w), Zlen (out ++ w), ch || digit19 (deref u)) else Stuck OutOfBounds).
  { subst w. destruct (digit19 (deref u)); rewrite back_name_append by done;
      destruct (_ <=? 256)%nat; cbn [mbind outcome_bind]; try done;
      rewrite length_app, ?orb_true_r, ?orb_false_r; do 3 f_equal; unfold strlen; lia. }
  rewrite Hstep. clear Hstep. rewrite E, reg_name_word, has_instance_word by done. fold w.
  rewrite E in Hs, Hdd, Hf. apply wf_cstr_app in Hs as [_ Hwr]. pose proof (no_dots_suffix _ _ Hdd) as Hdr.
  rewrite length_app in Hf.
  destruct (Nat.leb_spec (length out + length w) 256) as [Hle|Hgt]; cbn [mbind outcome_bind].
  2:{ destruct (Nat.leb_spec (length (out ++ w ++ reg_name SegStart r)) 256) as [Hc|]; [|done].
      rewrite !length_app in Hc. lia. }
  assert (length u ≠ 0%nat) by (by destruct u).
  destruct r as [|c r].
  - change (negb (deref [] =? 0)) with false. cbn [mbind outcome_bind].
    change (AnscMoveToNextToken [] TR69_PARAM_NAME_SEPARATOR) with ([] : cstr).
    change (AnscSizeOfToken [] TR69_PARAM_NAME_SEPARATOR (strlen [])) with (AnscSizeOfToken [] [46] (strlen [])).
    rewrite IH; [|constructor|done|by intros [|? ?] ?|cbn in *; lia|unfold strlen in *; cbn in *; lia|rewrite length_app; lia].
    cbn [reg_name]. by rewrite !app_nil_r, !orb_false_r.
  - rewrite (Hr46 c eq_refl) in *. change (negb (deref (46 :: r) =? 0)) with true.
    rewrite back_name_append by (rewrite length_app; lia). cbn [length TR69_PARAM_NAME_SEPARATOR].
    change (reg_name SegStart (46 :: r)) with (46 :: reg_name SegStart r). rewrite has_instance_dot.
    destruct (Nat.leb_spec (length (out ++ w) + 1) 256) as [Hle2|Hgt2]; cbn [mbind outcome_bind].
    2:{ destruct (Nat.leb_spec (length (out ++ w ++ 46 :: reg_name SegStart r)) 256) as [Hc|]; [|done].
        rewrite !length_app in *. cbn in Hc. lia. }
    assert (Hdr0 : deref r ≠ 46).
    { intros E46. destruct r as [|c' r]; [done|]. change (c' = 46) in E46. subst c'. by apply (Hdr [] r). }
    inversion Hwr as [|? ? _ Hwr']; subst.
    assert (Hmove : AnscMoveToNextToken (46 :: r) TR69_PARAM_NAME_SEPARATOR = r).
    { change (AnscMoveToNextToken (46 :: r) TR69_PARAM_NAME_SEPARATOR) with (AnscMoveToNextToken r [46]).
      apply MoveToNext_id. intros c' Hc'. destruct r as [|c0 r]; [done|]. injection Hc' as ->.
      change (c' ≠ 46) in Hdr0. inversion Hwr'; subst. split; [|lia]. by intros ->%list_elem_of_singleton. }
    rewrite Hmove. change TR69_PARAM_NAME_SEPARATOR with ([46] : cstr).
    replace (Zlen (out ++ w) + strlen [46]) with (Zlen ((out ++ w) ++ [46]))
      by (rewrite !length_app; unfold strlen; cbn; lia).
    rewrite IH; [|done|done|exact (no_dots_suffix [46] r Hdr)|cbn in *; lia|unfold strlen in *; cbn in *; lia|
      rewrite length_app; cbn; lia].
    rewrite <-!app_assoc. cbn [app]. by rewrite orb_assoc.
Qed.

Lemma instance_cur s : forall cur, digit19 (deref cur) = true -> cur ≠ [] ->
  existsb (fun w => digit19 (deref w)) (words_acc [46] cur s) = true.
Proof.
  induction s as [|c s IH]; intros cur Hd Hne; cbn [words_acc].
  - destruct cur; [done|]. cbn [flush existsb]. by rewrite Hd.
  - case_bool_decide.
    + rewrite existsb_app. destruct cur as [|x cur]; [done|]. cbn [flush existsb]. by rewrite Hd.
    + apply IH; [by destruct cur|by destruct cur].
Qed.

Lemma reg_name_id s : has_instance s = false -> reg_name SegStart s = s.
Proof.
  unfold has_instance, words. enough (Hgen : forall cur, (cur ≠ [] -> digit19 (deref cur) = false) ->
    existsb (fun w => digit19 (deref w)) (words_acc [46] cur s) = false ->
    reg_name (match cur with [] => SegStart | _ => SegCopy end) s = s) by (apply (Hgen []); done).
  induction s as [|c s IH]; intros cur Hcur Hex; cbn [reg_name words_acc] in *; [done|].
  destruct (Z.eqb_spec c 46) as [->|Hc].
  - rewrite bool_decide_true, existsb_app in Hex by by left. apply orb_false_elim in Hex as [_ Hex].
    f_equal. by apply (IH []).
  - rewrite bool_decide_false in Hex by (by intros ->%list_elem_of_singleton).
    assert (Hd : digit19 (deref (cur ++ [c])) = false).
    { destruct (digit19 (deref (cur ++ [c]))) eqn:E; [|done].
      rewrite instance_cur in Hex; [done|done|by destruct cur]. }
    specialize (IH (cur ++ [c]) (fun _ => Hd) Hex).
    destruct cur as [|x cur]; cbn [app] in *; [|by f_equal].
    change (digit19 c = false) in Hd. rewrite Hd. by f_equal.
Qed.

Lemma reg_name_wf st s : wf_cstr s -> wf_cstr (reg_name st s).
Proof.
  intros Hs. revert st. induction Hs as [|c s Hc Hs IH]; intros st; cbn; [constructor|].
  destruct (c =? 46); [constructor; [lia|apply IH]|].
  assert (Hcons : forall st', wf_cstr (c :: reg_name st' s)) by (intros; constructor; [lia|apply IH]).
  destruct st; [|apply Hcons|apply IH].
  destruct (digit19 c); [|apply Hcons]. cbn. repeat (constructor; [lia|]). apply IH.
Qed.

Lemma buf_cstr_none s : wf_cstr s -> buf_cstr s = None.
Proof.
  induction 1 as [|c s Hc Hs IH]; cbn; [done|]. destruct (Z.eqb_spec c 0); [lia|]. by rewrite IH.
Qed.

Lemma valid_no_dd s : (forall u v, s ≠ u ++ 46 :: 46 :: v) -> strstr s [46; 46] = None.
Proof. intros Hd. by apply strstr_None. Qed.

Lemma ChangeToReg_valid s :
  valid_name s ->
  CcspNsMgrChangeToRegNamespaceName (Some s) [] =
    if has_instance s then
      if (length (reg_name SegStart s) <=? 255)%nat
      then Done (Some (reg_name SegStart s), Some true, []) else Stuck OutOfBounds
    else Done (Some s, Some false, []).
Proof.
  unfold CcspNsMgrChangeToRegNamespaceName. intros (Hs & Hne & Hdot & Hdd & Hlen). destruct s as [|c0 s0]; [done|]. set (s := c0 :: s0) in *.
  destruct (Z.eqb_spec (deref s) 46); [done|]. rewrite valid_no_dd by done. cbn [orb].
  destruct (Z.ltb_spec 255 (strlen s)); [lia|].
  assert (Hmove : AnscMoveToNextToken s TR69_PARAM_NAME_SEPARATOR = s).
  { apply MoveToNext_id. intros c [= <-]. split; [by intros ->%list_elem_of_singleton|].
    inversion Hs; subst. lia. }
  rewrite Hmove. rewrite deref_zero, bool_decide_false by done. cbn [orb].
  assert (Hh : forall c, head s = Some c -> c ∉ [46]) by (intros c [= <-]; by intros ->%list_elem_of_singleton).
  destruct (front_token s [46] Hs Hne Hh) as (u & r & _ & Hn & Hb & _).
  change TR69_PARAM_NAME_SEPARATOR with ([46] : cstr) in *. rewrite Hn.
  destruct (Z.eqb_spec (Zlen u) 0); [lia|]. rewrite <-Hn.
  pose proof (reg_loop_spec (S (length s)) (strlen s) s [] false Hs Hdot Hdd ltac:(lia) ltac:(lia)
    ltac:(cbn; lia)) as E. cbn [app length] in E. change (Z.of_nat 0) with 0 in E.
  change (replicate 256 0) with (back_name []). rewrite E. clear E. cbn [orb].
  destruct (has_instance s) eqn:Ei.
  + destruct (Nat.leb_spec (length (reg_name SegStart s)) 256); cbn [mbind outcome_bind].
    2:{ destruct (Nat.leb_spec (length (reg_name SegStart s)) 255); [lia|done]. }
    unfold back_name. destruct (Nat.leb_spec (length (reg_name SegStart s)) 255).
    * destruct (256 - length (reg_name SegStart s))%nat as [|k] eqn:Ek; [lia|]. cbn [replicate].
      by rewrite buf_cstr_app by by apply reg_name_wf.
    * replace (256 - length (reg_name SegStart s))%nat with 0%nat by lia. cbn [replicate].
      by rewrite app_nil_r, buf_cstr_none by by apply reg_name_wf.
  + rewrite reg_name_id by done. unfold strlen in *.
    destruct (Nat.leb_spec (length s) 256); [|lia]. done.
Qed.

(** [CcspNsMgrChangeToRegNamespaceName]: names that are NULL, empty, longer
    than 255 bytes, that start with a dot or contain two dots in a row are
    answered with NULL (the documentation of the function announces the empty
    string); a valid name without instance numbers comes back as it is; one
    with instance numbers comes back with each of them replaced by "{i}", as
    long as the result has at most 255 bytes; a longer result overruns the
    256-byte work buffer. *)
Theorem CcspNsMgrChangeToRegNamespaceName_spec s (Hs : wf_cstr s) :
  (valid_name s ->
     CcspNsMgrChangeToRegNamespaceName (Some s) [] =
       if has_instance s then
         if (length (reg_name SegStart s) <=? 255)%nat
         then Done (Some (reg_name SegStart s), Some true, []) else Stuck OutOfBounds
       else Done (Some s, Some false, [])) /\
  (s = [] \/ 255 < strlen s \/ deref s = 46 \/ (exists u v, s = u ++ 46 :: 46 :: v) ->
     CcspNsMgrChangeToRegNamespaceName (Some s) [] = Done (None, None, [])) /\
  CcspNsMgrChangeToRegNamespaceName None [] = Done (None, None, []).
Proof.
  split_and!; [apply ChangeToReg_valid| |done].
  unfold CcspNsMgrChangeToRegNamespaceName. intros Hbad. destruct s as [|c0 s0]; [done|]. set (s := c0 :: s0) in *.
    destruct (Z.eqb_spec (deref s) 46); [done|].
    destruct (strstr s [46; 46]) eqn:Ed; [done|]. cbn [orb].
    destruct (Z.ltb_spec 255 (strlen s)); [done|].
    destruct Hbad as [?|[?|[?|(u & v & E)]]]; [done|lia|done|].
    exfalso. rewrite strstr_None in Ed. exact (Ed u v E).
Qed.

Theorem CcspNsMgrChangeToRegNamespaceName_spec_witness :
  let s := lit "Device.WiFi.Radio.10.Enable" in
  reg_name SegStart s = lit "Device.WiFi.Radio.{i}.Enable" /\
  (valid_name s ->
     CcspNsMgrChangeToRegNamespaceName (Some s) [] =
       if has_instance s then
         if (length (reg_name SegStart s) <=? 255)%nat
         then Done (Some (reg_name SegStart s), Some true, []) else Stuck OutOfBounds
       else Done (Some s, Some false, [])) /\
  (s = [] \/ 255 < strlen s \/ deref s = 46 \/ (exists u v, s = u ++ 46 :: 46 :: v) ->
     CcspNsMgrChangeToRegNamespaceName (Some s) [] = Done (None, None, [])) /\
  CcspNsMgrChangeToRegNamespaceName None [] = Done (None, None, []).
Proof.
  cbn zeta. split; [reflexivity|]. apply CcspNsMgrChangeToRegNamespaceName_spec.
  repeat constructor; lia.
Defined.

(** ** The invariant of the manager *)

Section invariant.
Context `{Platform} {T : Type} `{NameTableLaws T loc}.
Abbreviation MGR := (CCSP_NAMESPACE_MGR_OBJECT T).
Abbreviation COMP := CCSP_NAMESPACE_COMP_OBJECT.
Implicit Types (m : MGR) (t : T) (s : cstr) (l : loc) (c : COMP) (cs : gmap loc COMP).

(** How often a component registered a name, and how many of the table's
    entries for the name lead to the component. *)
Definition count_name s (q : list CCSP_NAMESPACE) : nat := length (filter (fun e => pName e = Some s) q).
Definition count_atoms t s l : nat := length (filter (fun p => p.2 = l) (nt_stack t s)).

(** The names of a component are nonempty and a 16-bit depth counts them. *)
Definition comp_ok c : Prop :=
  Forall (fun e => exists s, pName e = Some s /\ s ≠ []) (ParamspaceQueue c) /\
  Zlen (ParamspaceQueue c) < 65536.

(** Table and components agree: an entry leads to a live component, all entries
    of a name lead to the same one, and they are as many as the times the
    component registered the name. *)
Definition owners_ok t cs : Prop :=
  (forall s p, p ∈ nt_stack t s -> is_Some (cs !! p.2)) /\
  (forall s p p', p ∈ nt_stack t s -> p' ∈ nt_stack t s -> p.2 = p'.2) /\
  (forall s l c, s ≠ [] -> cs !! l = Some c -> count_atoms t s l = count_name s (ParamspaceQueue c)).

Definition queue_size cs l : Z := match cs !! l with Some c => Zlen (ParamspaceQueue c) | None => 0 end.
Definition total_of cs (q : list loc) : Z := foldr (fun l n => queue_size cs l + n) 0 q.

Definition mgr_ok m : Prop := exists t,
  hAtomNamespace m = Some t /\ nt_ok t /\
  NoDup (ComponentQueue m) /\ (forall l, l ∈ ComponentQueue m <-> is_Some (comps m !! l)) /\
  (forall l c, comps m !! l = Some c -> comp_ok c) /\
  owners_ok t (comps m) /\
  uTotalNamespace m = ULONG (total_of (comps m) (ComponentQueue m)).

(** *** The parts *)

Lemma nt_get_any t s :
  nt_ok t -> nt_get t (Some s) = Done (head (nt_stack t s)).
Proof.
  intros Ht. destruct s as [|x s]; [|by apply nt_get_spec].
  rewrite nt_stack_nil by done. destruct (nt_void t (Some []) 0 1%positive) as (E & _); [by right|]. exact E.
Qed.

Lemma get_comp_Done m l c : comps m !! l = Some c -> get_comp m l = Done c.
Proof. intros E. unfold get_comp. by rewrite E. Qed.

(** The first component of the queue with a name. *)
Lemma lookfor_loop_spec m q n :
  (forall l, l ∈ q -> is_Some (comps m !! l)) ->
  exists r, lookfor_loop m q n = Done r /\
    match r with
    | Some l => l ∈ q /\ exists c, comps m !! l = Some c /\ n = Some (pCompName c)
    | None => forall l c, l ∈ q -> comps m !! l = Some c -> n ≠ Some (pCompName c)
    end.
Proof.
  induction q as [|l q IH]; intros Hq; cbn [lookfor_loop].
  - exists None. split; [done|]. by intros l c ?%not_elem_of_nil.
  - destruct (Hq l) as [c Hc]; [left|]. rewrite (get_comp_Done _ _ _ Hc). cbn [mbind outcome_bind].
    case_bool_decide as Hn.
    + exists (Some l). split; [done|]. split; [left|]. eauto.
    + destruct IH as (r & E & Hr); [intros l' Hl'; apply Hq; by right|]. exists r. split; [done|].
      destruct r as [l'|].
      * destruct Hr as [Hl' Hc']. split; [by right|done].
      * intros l' c' [->|Hl']%elem_of_cons Hc'; [congruence|eauto].
Qed.

Lemma mgr_lookfor m n : mgr_ok m ->
  exists r, CcspNsMgrLookforComponent m n = Done r /\
    match r with
    | Some l => l ∈ ComponentQueue m /\ exists c, comps m !! l = Some c /\ n = Some (pCompName c) /\ comp_ok c
    | None => True
    end.
Proof.
  intros (t & _ & _ & _ & Hq & Hc & _).
  destruct (lookfor_loop_spec m (ComponentQueue m) n) as (r & E & Hr); [intros l; apply Hq|].
  exists r. split; [done|]. destruct r as [l|]; [|done]. destruct Hr as [Hl (c & Ec & En)].
  split; [done|]. exists c. split_and!; [done|done|by eapply Hc].
Qed.

Lemma count_name_app s q q' : count_name s (q ++ q') = (count_name s q + count_name s q')%nat.
Proof. unfold count_name. by rewrite filter_app, length_app. Qed.

Lemma queue_size_insert cs l c l' :
  queue_size (<[l := c]> cs) l' = if decide (l = l') then Zlen (ParamspaceQueue c) else queue_size cs l'.
Proof.
  unfold queue_size. destruct (decide (l = l')) as [->|]; [by rewrite lookup_insert_eq|by rewrite lookup_insert_ne].
Qed.

Lemma total_of_cons cs l q : total_of cs (l :: q) = queue_size cs l + total_of cs q.
Proof. done. Qed.

Lemma total_of_ext cs cs' q : (forall l, l ∈ q -> queue_size cs l = queue_size cs' l) -> total_of cs q = total_of cs' q.
Proof.
  induction q as [|l q IH]; intros E; [done|]. rewrite !total_of_cons, (E l) by left.
  rewrite IH; [done|]. intros l' Hl'. apply E. by right.
Qed.

Lemma total_of_app cs q q' : total_of cs (q ++ q') = total_of cs q + total_of cs q'.
Proof. induction q as [|l q IH]; [done|]. cbn [app]. rewrite !total_of_cons, IH. lia. Qed.

Lemma total_of_insert_notin cs l c q : l ∉ q -> total_of (<[l := c]> cs) q = total_of cs q.
Proof.
  intros Hl. apply total_of_ext. intros l' Hl'. rewrite queue_size_insert, decide_False; [done|]. by intros ->.
Qed.

Lemma total_of_delete_notin cs l q : l ∉ q -> total_of (delete l cs) q = total_of cs q.
Proof.
  intros Hl. apply total_of_ext. intros l' Hl'. unfold queue_size. rewrite lookup_delete_ne; [done|]. by intros ->.
Qed.

(** Changing one queued component. *)
Lemma total_of_insert cs l c q :
  NoDup q -> l ∈ q ->
  total_of (<[l := c]> cs) q = total_of cs q - queue_size cs l + Zlen (ParamspaceQueue c).
Proof.
  intros Hnd Hl. apply list_elem_of_split in Hl as (q1 & q2 & ->).
  apply NoDup_middle in Hnd as [[Hq1 Hq2]%not_elem_of_app _]. rewrite !total_of_app, !total_of_cons.
  rewrite !total_of_insert_notin by done. rewrite queue_size_insert, decide_True by done. lia.
Qed.

Lemma total_of_lremove cs l q :
  NoDup q -> l ∈ q -> total_of (delete l cs) (lremove l q) = total_of cs q - queue_size cs l.
Proof.
  intros Hnd Hl. apply list_elem_of_split in Hl as (q1 & q2 & ->).
  rewrite lremove_split by done. apply NoDup_middle in Hnd as [[Hq1 Hq2]%not_elem_of_app _].
  rewrite !total_of_app, !total_of_cons. rewrite !total_of_delete_notin by done. lia.
Qed.

(** *** Adding atoms *)

(** The entries an array adds for a name, in the order of the array. *)
Definition entries_for s l (arr : list name_spaceType_t) : list (Z * loc) :=
  omap (fun p => if bool_decide (name_space p = Some s) then Some (ULONG (dataType p), l) else None) arr.

Definition named_space (p : name_spaceType_t) : Prop := exists s, name_space p = Some s /\ s ≠ [].

Lemma add_atoms_spec m t l arr :
  hAtomNamespace m = Some t -> nt_ok t -> Forall named_space arr ->
  exists t', add_atoms m (Some <$> arr) (Zlen arr) l [] = Done (set_table m (Some t'), []) /\ nt_ok t' /\
    forall s, nt_stack t' s = rev (entries_for s l arr) ++ nt_stack t s.
Proof.
  intros Ht Hok Harr. unfold add_atoms. rewrite Nat2Z.id.
  assert (Hlen : length arr = length (Some <$> arr)) by by rewrite length_fmap.
  rewrite Hlen, (for_list _ (fun p '(m, a) =>
    match p with
    | None => Done (m, a)
    | Some p =>
        t ← get_table m;
        r ← nt_add t (name_space p) (ULONG (dataType p)) l a;
        let '(t, a) := r in Done (set_table m (Some t), a)
    end)).
  2:{ intros pre p post [m' a] E. rewrite E, array_get_at. done. }
  clear Hlen. revert m t Ht Hok. induction Harr as [|p arr (s0 & Es0 & Hne) Harr IH]; intros m t Ht Hok.
  - exists t. cbn. split; [by destruct m; cbn in *; subst|]. by split.
  - cbn [fmap list_fmap foldl]. cbn [mbind outcome_bind]. unfold get_table. rewrite Ht. cbn [mbind outcome_bind].
    rewrite Es0. destruct (nt_add_spec t s0 (ULONG (dataType p)) l Hok Hne) as (t1 & -> & Hok1 & Hs1).
    cbn [mbind outcome_bind].
    destruct (IH (set_table m (Some t1)) t1 eq_refl Hok1) as (t' & E & Hok' & Hs').
    exists t'. unfold get_table in E. cbn [mbind outcome_bind] in E. change (list_fmap ?f) with (fmap f).
    rewrite E. split; [done|]. split; [done|]. intros s. rewrite Hs', Hs1.
    unfold entries_for. cbn. rewrite Es0. 
    destruct (decide (s = s0)) as [->|Hs].
    + rewrite !bool_decide_true by done. cbn. by rewrite <-app_assoc.
    + rewrite !bool_decide_false by congruence. done.
Qed.

Lemma count_entries s l arr :
  length (entries_for s l arr) = count_name s (entry_of <$> arr).
Proof.
  unfold entries_for, count_name. induction arr as [|p arr IH]; [done|].
  rewrite fmap_cons. cbn [omap list_omap]. case_bool_decide as E.
  - rewrite filter_cons_True by done. cbn [length]. by rewrite IH.
  - by rewrite filter_cons_False.
Qed.

Lemma entries_for_owner s l arr p : p ∈ entries_for s l arr -> p.2 = l.
Proof. intros (x & _ & E)%list_elem_of_omap. case_bool_decide; by simplify_eq. Qed.

Lemma entries_of_some arr : entries_of (Some <$> arr) = entry_of <$> arr.
Proof. unfold entries_of. induction arr as [|p arr IH]; [done|]. cbn. by rewrite IH. Qed.

Lemma count_atoms_prepend t t' s l l' arr :
  nt_stack t' s = rev (entries_for s l arr) ++ nt_stack t s ->
  count_atoms t' s l' = ((if decide (l' = l) then count_name s (entry_of <$> arr) else 0) + count_atoms t s l')%nat.
Proof.
  intros E. unfold count_atoms. rewrite E, filter_app, length_app. f_equal.
  rewrite <-(count_entries s l), <-(length_rev (entries_for s l arr)). assert (Hown : forall p, p ∈ rev (entries_for s l arr) -> p.2 = l).
  { intros p Hp. rewrite elem_of_rev in Hp. exact (entries_for_owner _ _ _ _ Hp). }
  destruct (decide (l' = l)) as [->|Hne]; [by rewrite filter_all by exact Hown|].
  rewrite filter_none; [done|]. intros p Hp. rewrite (Hown p Hp). congruence.
Qed.

Lemma entries_for_named s l arr :
  entries_for s l arr = [] \/ exists p, p ∈ arr /\ name_space p = Some s.
Proof.
  unfold entries_for. induction arr as [|p arr IH]; [by left|]. cbn. case_bool_decide as E.
  - right. exists p. split; [left|done].
  - destruct IH as [->|(p' & ? & ?)]; [by left|]. right. exists p'. split; [by right|done].
Qed.

Lemma owners_prepend t t' cs l c arr :
  owners_ok t cs -> cs !! l = Some c ->
  (forall p s, p ∈ arr -> name_space p = Some s -> nt_stack t s = []) ->
  (forall s, nt_stack t' s = rev (entries_for s l arr) ++ nt_stack t s) ->
  owners_ok t' (<[l := set_queue c (ParamspaceQueue c ++ (entry_of <$> arr))]> cs).
Proof.
  intros (Hlive & Hsame & Hcnt) Hc Hfresh Hst.
  assert (Hcase : forall s, nt_stack t' s = nt_stack t s \/ forall p, p ∈ nt_stack t' s -> p.2 = l).
  { intros s. rewrite Hst. destruct (entries_for_named s l arr) as [->|(p & Hp & Es)]; [by left|]. right.
    rewrite (Hfresh p s Hp Es), app_nil_r. intros x Hx. rewrite elem_of_rev in Hx.
    exact (entries_for_owner _ _ _ _ Hx). }
  split_and!.
  - intros s p Hp. rewrite lookup_insert_is_Some'. destruct (Hcase s) as [E|E]; [|left; symmetry; by apply (E p)].
    right. rewrite E in Hp. eauto.
  - intros s p p' Hp Hp'. destruct (Hcase s) as [E|E]; [rewrite E in Hp, Hp'; eauto|].
    by rewrite (E p), (E p').
  - intros s l' c' Hs Hl'. rewrite (count_atoms_prepend t t' s l l' arr) by done.
    destruct (decide (l' = l)) as [->|Hne].
    + rewrite lookup_insert_eq in Hl'. injection Hl' as <-. cbn [ParamspaceQueue set_queue].
      rewrite count_name_app, (Hcnt s l c) by done. lia.
    + rewrite lookup_insert_ne in Hl' by done. by apply Hcnt.
Qed.

Lemma comp_ok_append c arr :
  comp_ok c -> Forall named_space arr -> Zlen (ParamspaceQueue c) + Zlen arr < 65536 ->
  comp_ok (set_queue c (ParamspaceQueue c ++ (entry_of <$> arr))).
Proof.
  intros [Hn _] Harr Hlen. split; cbn [ParamspaceQueue set_queue]; [|rewrite length_app, length_fmap; lia].
  apply Forall_app. split; [done|]. apply Forall_fmap. eapply Forall_impl; [exact Harr|]. done.
Qed.

(** Filling a component with names that the table does not know. *)
Lemma fill_component_spec m t l c arr :
  hAtomNamespace m = Some t -> nt_ok t -> owners_ok t (comps m) -> comps m !! l = Some c ->
  Forall named_space arr -> (forall p s, p ∈ arr -> name_space p = Some s -> nt_stack t s = []) ->
  exists t', let c' := set_queue c (ParamspaceQueue c ++ (entry_of <$> arr)) in
    fill_component m l (Some <$> arr) (Zlen arr) [] =
      Done (set_table (set_comps m (ComponentQueue m) (<[l := c']> (comps m))) (Some t'), []) /\
    nt_ok t' /\ owners_ok t' (<[l := c']> (comps m)) /\
    forall s, nt_stack t' s = rev (entries_for s l arr) ++ nt_stack t s.
Proof.
  intros Ht Hok Hown Hc Harr Hfresh. unfold fill_component. rewrite (get_comp_Done _ _ _ Hc). cbn [mbind outcome_bind].
  pose proof (BuildFromNamespaceStructArray_spec c (Some <$> arr)) as E. rewrite length_fmap in E.
  rewrite E. cbn [mbind outcome_bind]. rewrite entries_of_some. clear E.
  set (c' := set_queue c (ParamspaceQueue c ++ (entry_of <$> arr))).
  destruct (add_atoms_spec (set_comps m (ComponentQueue m) (<[l := c']> (comps m))) t l arr Ht Hok Harr)
    as (t' & E & Hok' & Hst). exists t'. cbn zeta. rewrite E. split_and!; [done|done| |done].
  by eapply owners_prepend.
Qed.

(** The component an operation works on. *)
Lemma find_or_create_spec m n d p :
  mgr_ok m -> exists l c m', find_or_create m n d p [] = Done (Some (l, m'), []) /\
    mgr_ok m' /\ comps m' !! l = Some c /\ hAtomNamespace m' = hAtomNamespace m /\
    (forall s, n = Some s -> strlen s < 256 -> pCompName c = s) /\
    (CcspNsMgrLookforComponent m n = Done None -> pPrefix c = STRCPY_S_NOCLOBBER [] 64 p /\
       pDbusPath c = STRCPY_S_NOCLOBBER [] 256 d) /\
    (comps m !! l = Some c \/ ParamspaceQueue c = []) /\
    (forall l' c', comps m !! l' = Some c' -> comps m' !! l' = Some c') /\
    uTotalNamespace m' = uTotalNamespace m /\ SubsysPrefix m' = SubsysPrefix m.
Proof.
  intros Hm. unfold find_or_create. destruct (mgr_lookfor m n Hm) as (r & -> & Hr). cbn [mbind outcome_bind].
  destruct r as [l|].
  - destruct Hr as (Hl & c & Hc & En & _). exists l, c, m. split_and!; try done; [|by left].
    intros s Es _. congruence.
  - clear Hr. cbn [CcspCreateNamespaceComponent next_alloc].
    destruct Hm as (t & Ht & Hok & Hnd & Hq & Hcomp & (Hlive & Hsame & Hcnt) & Htot).
    set (l := fresh (dom (comps m))). set (c := NsComp _ _ _ _).
    assert (Hl : comps m !! l = None) by (apply not_elem_of_dom, is_fresh).
    assert (Hlq : l ∉ ComponentQueue m) by (rewrite Hq, Hl; by intros [? ?]).
    exists l, c. eexists. split; [done|]. split_and!; try done; cbn [comps set_comps].
    + exists t. unfold set_comps. cbn [hAtomNamespace comps ComponentQueue uTotalNamespace]. split_and!; try done.
      * apply NoDup_app. split_and!; [done| |apply NoDup_singleton].
        intros x Hx ->%list_elem_of_singleton. done.
      * intros l'. rewrite elem_of_app, list_elem_of_singleton, lookup_insert_is_Some', Hq. naive_solver.
      * intros l' c' Hl'. destruct (decide (l = l')) as [<-|Hne];
          [rewrite lookup_insert_eq in Hl'; injection Hl' as <-|rewrite lookup_insert_ne in Hl' by done; eauto].
        split; [constructor|done].
      * split_and!; [|done|].
        { intros s p' Hp'. apply lookup_insert_is_Some'. right. eauto. }
        intros s l' c' Hs Hl'. destruct (decide (l = l')) as [<-|Hne];
          [rewrite lookup_insert_eq in Hl'; injection Hl' as <-|rewrite lookup_insert_ne in Hl' by done; eauto].
        cbn [ParamspaceQueue]. unfold count_atoms. change (count_name s (ParamspaceQueue c)) with 0%nat.
        rewrite filter_none; [done|]. intros p' Hp' E'. destruct (Hlive s p' Hp'). congruence.
      * rewrite total_of_app, total_of_cons, total_of_insert_notin by done. cbn [total_of foldr].
        rewrite queue_size_insert, decide_True by done. cbn [ParamspaceQueue length]. by rewrite !Z.add_0_r.
    + by rewrite lookup_insert_eq.
    + intros s -> Hs. cbn. destruct (Z.ltb_spec (strlen s) CCSP_MAXI_COMPONENT_NAME_LENGTH); [done|].
      unfold CCSP_MAXI_COMPONENT_NAME_LENGTH in *. lia.
    + by right.
    + intros l' c' Hl'. rewrite lookup_insert_ne; [done|congruence].
Qed.

(** No component can outgrow its 16-bit depth when it receives [n] names. *)
Definition room m (n : Z) : Prop :=
  n < 65536 /\ forall l c, comps m !! l = Some c -> Zlen (ParamspaceQueue c) + n < 65536.

(** Registering names the table does not know. *)
Lemma register_component_spec m t n d p arr :
  mgr_ok m -> hAtomNamespace m = Some t -> Forall named_space arr -> room m (Zlen arr) ->
  (forall q s, q ∈ arr -> name_space q = Some s -> nt_stack t s = []) ->
  exists l c m' t', register_component m n d p (Some <$> arr) (Zlen arr) [] = Done (CCSP_SUCCESS, m', []) /\
    mgr_ok m' /\ hAtomNamespace m' = Some t' /\ comps m' !! l = Some c /\
    (forall s, n = Some s -> strlen s < 256 -> pCompName c = s) /\
    (CcspNsMgrLookforComponent m n = Done None -> pPrefix c = STRCPY_S_NOCLOBBER [] 64 p /\
       pDbusPath c = STRCPY_S_NOCLOBBER [] 256 d) /\
    (forall s, nt_stack t' s = rev (entries_for s l arr) ++ nt_stack t s) /\
    uTotalNamespace m' = ULONG (uTotalNamespace m + Zlen arr) /\ SubsysPrefix m' = SubsysPrefix m.
Proof.
  intros Hm Ht Harr [Hr1 Hr2] Hfresh. unfold register_component.
  destruct (find_or_create_spec m n d p Hm) as (l & c & m1 & -> & Hm1 & Hc & Ht1 & Hname & Hpath & Hold & Hkeep & Htot1 & Hsub).
  cbn [mbind outcome_bind]. rewrite Ht in Ht1.
  destruct Hm1 as (t1 & E & Hok & Hnd & Hq & Hcomp & Hown & Htot). rewrite Ht1 in E. injection E as <-.
  assert (Hlen : Zlen (ParamspaceQueue c) + Zlen arr < 65536).
  { destruct Hold as [Hl | ->]; [by eapply Hr2|cbn; lia]. }
  destruct (fill_component_spec m1 t l c arr Ht1 Hok Hown Hc Harr Hfresh) as (t' & E & Hok' & Hown' & Hst).
  rewrite E. cbn [mbind outcome_bind]. clear E.
  set (c' := set_queue c (ParamspaceQueue c ++ (entry_of <$> arr))) in *.
  assert (Hlq : l ∈ ComponentQueue m1) by (apply Hq; by eexists).
  exists l, c'. do 2 eexists. split; [done|]. split_and!;
    [|done|by apply lookup_insert_eq|exact Hname|exact Hpath|done|by cbn; rewrite Htot1|done].
  exists t'. cbn -[total_of]. split_and!; [done|done|done| | |done|].
  - intros l'. rewrite Hq, lookup_insert_is_Some'. split; [by right|].
    intros [<-|?]; [by eexists|done].
  - intros l' c2 Hl'. destruct (decide (l = l')) as [<-|Hne];
      [rewrite lookup_insert_eq in Hl'; injection Hl' as <-|rewrite lookup_insert_ne in Hl' by done; eauto].
    apply comp_ok_append; eauto.
  - rewrite total_of_insert, Htot by done. rewrite ULONG_add_l. f_equal. unfold queue_size. rewrite Hc.
    cbn [c' ParamspaceQueue set_queue]. rewrite length_app, length_fmap. lia.
Qed.

(** *** The checks of a registration *)

(** A parameter name: four bytes or more, no dot at either end, no two dots in
    a row. *)
Definition acceptable s : Prop :=
  4 <= strlen s /\ deref s ≠ 46 /\ (forall u v, s ≠ u ++ 46 :: 46 :: v) /\ last s ≠ Some 46.
#[global] Instance acceptable_dec s : Decision (acceptable s).
Proof.
  refine (cast_if (decide (4 <= strlen s /\ deref s ≠ 46 /\ strstr s [46; 46] = None /\ last s ≠ Some 46)));
    unfold acceptable in *; rewrite strstr_None in *; cbn [app] in *; done.
Defined.

(** An element that is free to be registered. *)
Definition free_element t (q : option name_spaceType_t) : Prop :=
  exists p s, q = Some p /\ name_space p = Some s /\ acceptable s /\ nt_stack t s = [].

(** What the checks do with one named element. *)
Lemma register_checks_element m t n arr k i p s :
  hAtomNamespace m = Some t -> nt_ok t -> array_get arr i = Done (Some p) -> name_space p = Some s ->
  register_checks m n arr (S k) i =
    if decide (acceptable s) then
      match head (nt_stack t s) with
      | Some (_, l) =>
          c ← get_comp m l;
          match n with
          | None => Stuck NullDeref
          | Some n => if bool_decide (pCompName c ≠ n) then Done (Some CCSP_CR_ERR_NAMESPACE_OVERLAP)
                      else Done (Some CCSP_SUCCESS)
          end
      | None => register_checks m n arr k (i + 1)
      end
    else Done (Some CCSP_CR_ERR_INVALID_PARAM).
Proof.
  intros Ht Hok Hi Hs. cbn [register_checks]. rewrite Hi. cbn [mbind outcome_bind]. rewrite Hs.
  unfold get_table. rewrite Ht. cbn [mbind outcome_bind]. rewrite nt_get_any by done. cbn [mbind outcome_bind].
  destruct (Z.ltb_spec (strlen s) 4) as [?|H4]; [rewrite decide_False; [done|]; intros (? & _); lia|].
  destruct (Z.eqb_spec (deref s) 46) as [?|H46]; [cbn; rewrite decide_False; [done|]; by intros (_ & ? & _)|].
  destruct (strstr s [46; 46]) eqn:Edd; cbn [orb].
  { rewrite decide_False; [done|]. intros (_ & _ & Hdd & _). apply valid_no_dd in Hdd. congruence. }
  assert (Hlast : (default 0 (last s) =? 46) = bool_decide (last s = Some 46)).
  { destruct (last s) as [x|]; [|done]. cbn. destruct (Z.eqb_spec x 46) as [->|]; case_bool_decide; congruence. }
  rewrite Hlast. case_bool_decide as Hl; [rewrite decide_False; [done|]; intros (_ & _ & _ & ?); done|].
  rewrite decide_True; [done|]. split_and!; [done|done| |done]. exact (proj1 (strstr_None s [46; 46]) Edd).
Qed.

Lemma register_checks_free m t n pre post :
  hAtomNamespace m = Some t -> nt_ok t -> Forall (free_element t) pre ->
  register_checks m n (pre ++ post) (length (pre ++ post)) 0 =
    register_checks m n (pre ++ post) (length post) (Zlen pre).
Proof.
  intros Ht Hok Hpre. enough (Hgen : forall dn, register_checks m n (dn ++ pre ++ post) (length (pre ++ post)) (Zlen dn) =
    register_checks m n (dn ++ pre ++ post) (length post) (Zlen (dn ++ pre))) by exact (Hgen []).
  induction Hpre as [|q pre Hq Hpre IH]; intros dn; [by rewrite app_nil_r|].
  destruct Hq as (p & s & -> & Hs & Hacc & Hfree). cbn [length app].
  rewrite (register_checks_element m t n _ _ _ p s) by (try done; apply array_get_at).
  rewrite decide_True by done. rewrite Hfree. cbn [head].
  specialize (IH (dn ++ [Some p])). rewrite <-!app_assoc in IH. cbn [app] in IH. rewrite <-IH.
  f_equal. rewrite length_app. cbn. lia.
Qed.

Lemma register_checks_pass m t n arr :
  hAtomNamespace m = Some t -> nt_ok t -> Forall (free_element t) arr ->
  register_checks m n arr (length arr) 0 = Done None.
Proof.
  intros Ht Hok Harr. pose proof (register_checks_free m t n arr [] Ht Hok Harr) as E.
  by rewrite app_nil_r in E.
Qed.

Lemma acceptable_named p s : name_space p = Some s -> acceptable s -> named_space p.
Proof. intros Hp (H4 & _). exists s. split; [done|]. intros ->. by apply H4. Qed.

Lemma free_elements t arr :
  Forall (free_element t) arr ->
  exists arr', arr = Some <$> arr' /\ Forall named_space arr' /\
    forall q s, q ∈ arr' -> name_space q = Some s -> nt_stack t s = [].
Proof.
  induction 1 as [|q arr (p & s & -> & Hs & Hacc & Hfree) _ (arr' & -> & Hn & Hf)].
  - exists []. split_and!; [done|constructor|]. by intros q s ?%not_elem_of_nil.
  - exists (p :: arr'). split_and!; [done| |].
    + constructor; [by eapply acceptable_named|done].
    + intros q s' [->|Hq]%elem_of_cons Hs'; [congruence|eauto].
Qed.

(** The elements [CcspNsMgrBuildNamespaces] keeps. *)
Definition unknown_name t (p : name_spaceType_t) : bool :=
  match name_space p with Some s => match nt_stack t s with [] => true | _ => false end | None => true end.

Lemma new_elements_spec m t arr :
  nt_ok t -> Forall named_space arr ->
  new_elements m t (Some <$> arr) (length arr) 0 = Done (Some <$> List.filter (unknown_name t) arr).
Proof.
  intros Hok Harr. enough (Hgen : forall pre, new_elements m t (pre ++ (Some <$> arr)) (length arr) (Zlen pre) =
    Done (Some <$> List.filter (unknown_name t) arr)) by exact (Hgen []).
  induction Harr as [|p arr (s & Hs & Hne) Harr IH]; intros pre; [done|].
  cbn [new_elements length]. rewrite fmap_cons, array_get_at. cbn [mbind outcome_bind].
  rewrite Hs, nt_get_spec by done. cbn [mbind outcome_bind].
  specialize (IH (pre ++ [Some p])). rewrite <-app_assoc in IH. cbn [app] in IH.
  replace (Zlen (pre ++ [Some p])) with (Zlen pre + 1) in IH by (rewrite length_app; cbn; lia).
  rewrite IH. cbn [mbind outcome_bind List.filter]. 
  assert (unknown_name t p = match nt_stack t s with [] => true | _ => false end) as ->
    by (unfold unknown_name; by rewrite Hs).
  by destruct (nt_stack t s).
Qed.

(** *** Removing atoms *)

Definition entry_named (e : CCSP_NAMESPACE) : Prop := exists s, pName e = Some s /\ s ≠ [].

Lemma del_atoms_spec t q :
  nt_ok t -> Forall entry_named q ->
  exists t', del_atoms t q = Done t' /\ nt_ok t' /\
    forall s, nt_stack t' s = drop (count_name s q) (nt_stack t s).
Proof.
  intros Hok Hq. revert t Hok. induction Hq as [|e q (s0 & Hs0 & Hne) Hq IH]; intros t Hok.
  - exists t. split_and!; [done|done|]. intros s. by rewrite drop_0.
  - cbn [del_atoms]. rewrite Hs0. destruct (nt_del_spec t s0 Hok Hne) as (t1 & -> & Hok1 & Hst1).
    cbn [mbind outcome_bind]. destruct (IH t1 Hok1) as (t' & -> & Hok' & Hst'). exists t'.
    split_and!; [done|done|]. intros s. rewrite Hst', Hst1. unfold count_name.
    case_bool_decide as Es.
    + subst s. rewrite filter_cons_True by done. cbn [length]. destruct (nt_stack t s0); cbn [tail]; [by rewrite !drop_nil|done].
    + rewrite filter_cons_False by congruence. done.
Qed.

(** The entries of a name that a component owns are as many as its own
    entries, and so all or none of them. *)
Lemma owners_all_or_none t cs l c s :
  nt_ok t -> owners_ok t cs -> cs !! l = Some c ->
  (count_name s (ParamspaceQueue c) = length (nt_stack t s) /\ forall p, p ∈ nt_stack t s -> p.2 = l) \/
  ((s ≠ [] -> count_name s (ParamspaceQueue c) = 0%nat) /\ forall p, p ∈ nt_stack t s -> p.2 ≠ l).
Proof.
  intros Hok (Hlive & Hsame & Hcnt) Hc. destruct (decide (s = [])) as [->|Hs].
  { right. rewrite nt_stack_nil by done. split; [done|]. by intros p ?%not_elem_of_nil. }
  rewrite <-(Hcnt s l c Hs Hc). unfold count_atoms. destruct (nt_stack t s) as [|p0 r] eqn:E.
  { right. split; [done|]. by intros p ?%not_elem_of_nil. }
  assert (Hown : forall p, p ∈ p0 :: r -> p.2 = p0.2) by (rewrite <-E; intros; apply (Hsame s); [done|rewrite E; left]).
  destruct (decide (p0.2 = l)) as [Hl|Hl].
  - left. assert (forall p, p ∈ p0 :: r -> p.2 = l) by (intros p Hp; rewrite <-Hl; by apply Hown).
    split; [by rewrite filter_all|done].
  - right. assert (forall p, p ∈ p0 :: r -> p.2 ≠ l) by (intros p Hp; by rewrite (Hown p Hp)).
    split; [by rewrite filter_none|done].
Qed.

Lemma count_name_nil c : comp_ok c -> count_name [] (ParamspaceQueue c) = 0%nat.
Proof.
  intros [Hn _]. unfold count_name. rewrite filter_none; [done|]. intros e He E.
  eapply Forall_forall in Hn as (s & Es & Hs); [|exact He]. congruence.
Qed.

Lemma owners_drop t t' cs l c :
  nt_ok t -> owners_ok t cs -> cs !! l = Some c -> comp_ok c ->
  (forall s, nt_stack t' s = drop (count_name s (ParamspaceQueue c)) (nt_stack t s)) ->
  owners_ok t' (delete l cs).
Proof.
  intros Hok Hown Hc Hcomp Hst. pose proof Hown as (Hlive & Hsame & Hcnt).
  assert (Hcase : forall s, (nt_stack t' s = [] /\ forall p, p ∈ nt_stack t s -> p.2 = l) \/
    (nt_stack t' s = nt_stack t s /\ forall p, p ∈ nt_stack t s -> p.2 ≠ l)).
  { intros s. rewrite Hst. destruct (owners_all_or_none t cs l c s Hok Hown Hc) as [[-> Hl]|[Hz Hl]].
    - left. split; [by apply drop_ge|done].
    - right. split; [|done]. destruct (decide (s = [])) as [->|Hs]; [by rewrite count_name_nil|by rewrite Hz]. }
  split_and!.
  - intros s p Hp. destruct (Hcase s) as [[E _]|[E Hl]]; rewrite E in Hp; [by apply not_elem_of_nil in Hp|].
    rewrite lookup_delete_ne by (intros ->; by apply (Hl p)). eauto.
  - intros s p p' Hp Hp'. destruct (Hcase s) as [[E _]|[E Hl]]; rewrite E in Hp, Hp'; [by apply not_elem_of_nil in Hp|eauto].
  - intros s l' c' Hs [Hne Hl']%lookup_delete_Some. rewrite <-(Hcnt s l' c' Hs Hl'). unfold count_atoms.
    destruct (Hcase s) as [[-> Hl]|[-> _]]; [|done]. rewrite (filter_none _ (nt_stack t s)); [done|].
    intros p Hp. rewrite (Hl p Hp). done.
Qed.

Lemma count_name_elem s q : count_name s q ≠ 0%nat -> s ∈ names_of q.
Proof.
  induction q as [|e q IH]; [done|]. unfold count_name, names_of in *. cbn [omap list_omap].
  destruct (decide (pName e = Some s)) as [E|E]; intros Hc; [rewrite E; left|].
  rewrite filter_cons_False in Hc by done. destruct (pName e); [right|]; by apply IH.
Qed.

Lemma count_name_elem' s q : s ∈ names_of q -> count_name s q ≠ 0%nat.
Proof.
  intros (e & He & Es)%list_elem_of_omap. apply list_elem_of_split in He as (q1 & q2 & ->).
  rewrite count_name_app. unfold count_name at 2. rewrite filter_cons_True by done. cbn [length]. lia.
Qed.

Lemma owners_tail t t' cs l c s0 q1 e q2 :
  owners_ok t cs -> cs !! l = Some c -> nt_stack t s0 ≠ [] -> (forall p, p ∈ nt_stack t s0 -> p.2 = l) ->
  ParamspaceQueue c = q1 ++ e :: q2 -> pName e = Some s0 ->
  (forall s, nt_stack t' s = if bool_decide (s = s0) then tail (nt_stack t s) else nt_stack t s) ->
  owners_ok t' (<[l := set_queue c (q1 ++ q2)]> cs).
Proof.
  intros (Hlive & Hsame & Hcnt) Hc Hne Hl Hq He Hst.
  assert (Hsub : forall s p, p ∈ nt_stack t' s -> p ∈ nt_stack t s).
  { intros s p. rewrite Hst. case_bool_decide; [|done]. destruct (nt_stack t s); [done|by right]. }
  split_and!.
  - intros s p Hp. apply lookup_insert_is_Some'. right. eauto.
  - intros s p p' Hp Hp'. eauto.
  - intros s l' c' Hs Hl'. unfold count_atoms. rewrite Hst.
    destruct (nt_stack t s0) as [|p0 r] eqn:E0; [done|]. pose proof (Hl p0 ltac:(left)) as Hp0.
    destruct (decide (l = l')) as [<-|Hll].
    + rewrite lookup_insert_eq in Hl'. injection Hl' as <-. cbn [ParamspaceQueue set_queue].
      specialize (Hcnt s l c Hs Hc). rewrite Hq, !count_name_app in *. unfold count_name in Hcnt at 2. unfold count_atoms in Hcnt.
      case_bool_decide as Es.
      * subst s. rewrite E0 in *. rewrite filter_cons_True in Hcnt by done. rewrite filter_cons_True in Hcnt by done.
        cbn [length tail] in *. unfold count_name in *. lia.
      * rewrite filter_cons_False in Hcnt by congruence. exact Hcnt.
    + rewrite lookup_insert_ne in Hl' by done. rewrite <-(Hcnt s l' c' Hs Hl'). unfold count_atoms.
      case_bool_decide as Es; [|done]. subst s. rewrite E0. rewrite filter_cons_False by congruence. done.
Qed.

Lemma comp_ok_named c : comp_ok c -> named (ParamspaceQueue c).
Proof. intros [Hn _]. eapply Forall_impl; [exact Hn|]. intros e (s & -> & _). by eexists. Qed.

Lemma free_component cs l c : cs !! l = Some c -> CcspFreeNamespaceComponent cs (Some l) = Done (delete l cs).
Proof. intros E. unfold CcspFreeNamespaceComponent. by rewrite E, delete_insert_eq. Qed.

(** *** The operations keep the invariant *)

Lemma create_ok name : exists m, CcspCreateNamespaceMgr name [] = Done (Some m, []) /\ mgr_ok m /\ comps m = ∅.
Proof.
  unfold CcspCreateNamespaceMgr. cbn [next_alloc negb]. destruct nt_create_spec as (t & -> & Hok & Hst).
  cbn [mbind outcome_bind]. eexists. split; [done|]. split; [|done]. exists t. cbn. split_and!; [done|done|constructor| | | |done].
  - intros l. rewrite lookup_empty. split; [by intros ?%not_elem_of_nil|by intros [? ?]].
  - intros l c. by rewrite lookup_empty.
  - split_and!; [intros s p|intros s p p'|intros s l c _; by rewrite lookup_empty];
      rewrite Hst; by intros ?%not_elem_of_nil.
Qed.

Lemma unregister_component_ok m n :
  mgr_ok m -> exists st m', CcspNsMgrUnregisterComponent m n = Done (st, m') /\ mgr_ok m' /\
    match st with
    | CCSP_SUCCESS => exists l c t t', comps m !! l = Some c /\ n = Some (pCompName c) /\ comps m' = delete l (comps m) /\
        hAtomNamespace m = Some t /\ hAtomNamespace m' = Some t' /\
        forall s, nt_stack t' s = drop (count_name s (ParamspaceQueue c)) (nt_stack t s)
    | _ => st = CCSP_CR_ERR_UNKNOWN_COMPONENT /\ m' = m
    end.
Proof.
  intros Hm. unfold CcspNsMgrUnregisterComponent. destruct (mgr_lookfor m n Hm) as (r & -> & Hr).
  cbn [mbind outcome_bind]. destruct r as [l|]; [|by exists CCSP_CR_ERR_UNKNOWN_COMPONENT, m].
  destruct Hr as (Hl & c & Hc & En & Hcomp). rewrite (get_comp_Done _ _ _ Hc). cbn [mbind outcome_bind].
  destruct Hm as (t & Ht & Hok & Hnd & Hq & Hall & Hown & Htot).
  destruct (del_atoms_spec t (ParamspaceQueue c) Hok (proj1 Hcomp)) as (t' & Ed & Hok' & Hst).
  assert (E : match ParamspaceQueue c with
      | [] => Done m
      | q => t ← get_table m; t ← del_atoms t q; Done (set_table m (Some t))
      end = Done (set_table m (Some t'))).
  { destruct (ParamspaceQueue c) as [|e q] eqn:Eq.
    - injection Ed as <-. destruct m. cbn in *. by subst.
    - unfold get_table. rewrite Ht. cbn [mbind outcome_bind]. by rewrite Ed. }
  rewrite E. cbn [mbind outcome_bind]. clear E. cbn [comps set_table set_total].
  rewrite (free_component _ _ _ Hc). cbn [mbind outcome_bind]. do 2 eexists. split; [done|]. split.
  2:{ by exists l, c, t, t'. }
  exists t'. cbn -[total_of lremove]. split_and!; [done|done| | | | |].
  - by apply NoDup_filter.
  - intros l'. rewrite elem_of_lremove, Hq. rewrite lookup_delete_is_Some. naive_solver.
  - intros l' c' [_ Hl']%lookup_delete_Some. eauto.
  - exact (owners_drop t t' (comps m) l c Hok Hown Hc Hcomp Hst).
  - rewrite total_of_lremove, Htot by done. unfold CcspNsCompGetNamespaceCount, queue_size. rewrite Hc.
    rewrite USHORT_small by (destruct Hcomp; lia). apply ULONG_sub_l.
Qed.

(** A component withdrawing one of its own names, or a name nobody has. *)
Definition own_name m (n : option cstr) s : Prop :=
  exists l t, CcspNsMgrLookforComponent m n = Done (Some l) /\ hAtomNamespace m = Some t /\
    s ≠ [] /\ forall p, p ∈ nt_stack t s -> p.2 = l.

Lemma unregister_namespace_ok m n s :
  mgr_ok m -> own_name m n s ->
  exists st m' t t', CcspNsMgrUnregisterNamespace m n (Some s) = Done (st, m') /\ mgr_ok m' /\
    hAtomNamespace m = Some t /\ hAtomNamespace m' = Some t' /\
    nt_stack t' s = tail (nt_stack t s) /\
    match nt_stack t s with
    | [] => st = CCSP_CR_ERR_NAMESPACE_MISMATCH /\ m' = m
    | _ => st = CCSP_SUCCESS
    end.
Proof.
  intros Hm (l & t & El & Ht & Hs & Hl). unfold CcspNsMgrUnregisterNamespace.
  destruct (mgr_lookfor m n Hm) as (r & E & Hr). rewrite El in E. injection E as <-. rewrite El.
  cbn [mbind outcome_bind]. destruct Hr as (Hlq & c & Hc & En & Hcomp).
  pose proof Hm as (t1 & E & Hok & Hnd & Hq & Hall & Hown & Htot). rewrite Ht in E. injection E as <-.
  rewrite (get_comp_Done _ _ _ Hc). cbn [mbind outcome_bind]. unfold get_table. rewrite Ht. cbn [mbind outcome_bind].
  rewrite nt_get_spec by done. cbn [mbind outcome_bind].
  destruct (nt_stack t s) as [|p0 r] eqn:E0.
  { exists CCSP_CR_ERR_NAMESPACE_MISMATCH, m, t, t. rewrite E0. split_and!; try done.
    cbn [head]. by destruct (_ =? 0). }
  assert (Hcount : count_name s (ParamspaceQueue c) ≠ 0%nat).
  { rewrite <-(proj2 (proj2 Hown) s l c Hs Hc). unfold count_atoms. rewrite E0.
    rewrite filter_cons_True by (apply Hl; left). done. }
  destruct (split_name _ _ (comp_ok_named c Hcomp) (count_name_elem _ _ Hcount)) as (q1 & e & q2 & Eq & He & Hn).
  assert (CcspNsCompGetNamespaceCount c =? 0 = false) as ->.
  { unfold CcspNsCompGetNamespaceCount. rewrite USHORT_small by (destruct Hcomp; lia).
    apply Z.eqb_neq. rewrite Eq, length_app. cbn. lia. }
  cbn [head]. destruct (nt_del_spec t s Hok Hs) as (t' & -> & Hok' & Hst). cbn [mbind outcome_bind]. change (default [] (Some s)) with s.
  rewrite (Unregister_found c q1 e q2 s (comp_ok_named c Hcomp) Eq He Hn). cbn [mbind outcome_bind].
  do 2 eexists. exists t, t'. split; [done|]. split_and!; [|done|done|by rewrite Hst, bool_decide_true, E0|by rewrite E0].
  exists t'. cbn -[total_of]. split_and!; [done|done|done| | | |].
  - intros l'. rewrite Hq, lookup_insert_is_Some'. split; [by right|]. intros [<-|?]; [by eexists|done].
  - intros l' c' Hl'. destruct (decide (l = l')) as [<-|Hne];
      [rewrite lookup_insert_eq in Hl'; injection Hl' as <-|rewrite lookup_insert_ne in Hl' by done; eauto].
    destruct Hcomp as [Hn1 Hlen]. rewrite Eq in Hn1, Hlen. apply Forall_app in Hn1 as [? [_ ?]%Forall_cons].
    split; cbn [ParamspaceQueue set_queue]; [by apply Forall_app|rewrite length_app in *; cbn in Hlen; lia].
  - eapply owners_tail; try done; rewrite E0; done.
  - rewrite total_of_insert, Htot by done. rewrite ULONG_sub_l. f_equal. unfold queue_size. rewrite Hc, Eq.
    cbn [ParamspaceQueue set_queue]. rewrite !length_app. cbn [length]. lia.
Qed.

(** The checks complete; they let an array through only when all its elements
    are free. *)
Lemma register_checks_total m t nm arr :
  mgr_ok m -> hAtomNamespace m = Some t ->
  exists r, register_checks m (Some nm) arr (length arr) 0 = Done r /\ (r = None -> Forall (free_element t) arr).
Proof.
  intros (t1 & Et & Hok & _ & _ & _ & (Hlive & _) & _) Ht. rewrite Ht in Et. injection Et as <-.
  enough (Hgen : forall pre, exists r, register_checks m (Some nm) (pre ++ arr) (length arr) (Zlen pre) = Done r /\
    (r = None -> Forall (free_element t) arr)) by exact (Hgen []).
  induction arr as [|q arr IH]; intros pre; [by exists None|]. cbn [length].
  destruct q as [p|]; [|cbn [register_checks]; rewrite array_get_at; by exists (Some CCSP_CR_ERR_INVALID_PARAM)].
  destruct (name_space p) as [s|] eqn:Es.
  2:{ cbn [register_checks]. rewrite array_get_at. cbn [mbind outcome_bind]. rewrite Es.
      by exists (Some CCSP_CR_ERR_INVALID_PARAM). }
  rewrite (register_checks_element m t _ _ _ _ p s) by (try done; apply array_get_at).
  destruct (decide (acceptable s)) as [Hacc|]; [|by exists (Some CCSP_CR_ERR_INVALID_PARAM)].
  destruct (nt_stack t s) as [|[id l] r] eqn:Est; cbn [head].
  - destruct (IH (pre ++ [Some p])) as (r & E & Hr). rewrite <-app_assoc in E. cbn [app] in E.
    replace (Zlen (pre ++ [Some p])) with (Zlen pre + 1) in E by (rewrite length_app; cbn; lia).
    rewrite E. exists r. split; [done|]. intros Hn. constructor; [by exists p, s|by apply Hr].
  - destruct (Hlive s (id, l)) as [c Hc]; [rewrite Est; left|]. cbn in Hc. rewrite (get_comp_Done _ _ _ Hc).
    cbn [mbind outcome_bind]. case_bool_decide; by eexists (Some _).
Qed.

Lemma register_ok m nm d p arr :
  mgr_ok m -> room m (Zlen arr) ->
  exists st m', CcspNsMgrRegisterNamespaces m (Some nm) d p arr (Zlen arr) [] = Done (st, m', []) /\ mgr_ok m'.
Proof.
  intros Hm Hroom. pose proof Hm as (t & Ht & _). unfold CcspNsMgrRegisterNamespaces. rewrite Nat2Z.id.
  destruct (register_checks_total m t nm arr Hm Ht) as (r & -> & Hr). cbn [mbind outcome_bind].
  destruct r as [st|]; [eauto|]. destruct (free_elements t arr (Hr eq_refl)) as (arr' & -> & Hn & Hf).
  rewrite length_fmap in *.
  destruct (register_component_spec m t (Some nm) d p arr' Hm Ht Hn Hroom Hf) as (l & c & m' & t' & E & Hm' & _).
  eauto.
Qed.

Lemma build_ok m n d p arr :
  mgr_ok m -> room m (Zlen arr) -> Forall named_space arr ->
  exists m' l c t t', CcspNsMgrBuildNamespaces m n d p (Some <$> arr) (Zlen arr) [] = Done (CCSP_SUCCESS, m', []) /\ mgr_ok m' /\
    hAtomNamespace m = Some t /\ hAtomNamespace m' = Some t' /\ comps m' !! l = Some c /\
    (forall s, n = Some s -> strlen s < 256 -> pCompName c = s) /\
    forall s, nt_stack t' s = rev (entries_for s l (List.filter (unknown_name t) arr)) ++ nt_stack t s.
Proof.
  intros Hm [Hr1 Hr2] Hn. pose proof Hm as (t & Ht & Hok & _). unfold CcspNsMgrBuildNamespaces. rewrite Ht.
  cbn [mbind outcome_bind]. cbn [next_alloc negb]. rewrite Nat2Z.id.
  assert (set_table m (Some t) = m) as -> by (destruct m; cbn in *; by subst).
  rewrite new_elements_spec by done. cbn [mbind outcome_bind]. set (arr' := List.filter (unknown_name t) arr).
  assert (Hsub : forall q, q ∈ arr' -> q ∈ arr /\ unknown_name t q = true).
  { intros q Hq. by apply list_elem_of_In, filter_In in Hq as [Hq%list_elem_of_In ?]. }
  assert (Hlen : Zlen arr' <= Zlen arr) by (subst arr'; pose proof (List.filter_length_le (unknown_name t) arr); lia).
  rewrite length_fmap.
  destruct (register_component_spec m t n d p arr' Hm Ht) as (l & c & m' & t' & E & Hm' & Ht' & Hc & Hnm & _ & Hst & _).
  - apply Forall_forall. intros q [Hq _]%Hsub. by eapply Forall_forall in Hn.
  - split; [lia|]. intros l c Hc. specialize (Hr2 l c Hc). lia.
  - intros q s [_ Hu]%Hsub Hs. unfold unknown_name in Hu. rewrite Hs in Hu. by destruct (nt_stack t s).
  - exists m', l, c, t, t'. done.
Qed.

(** *** Sequences of operations *)

Inductive ns_op :=
  | OpRegister (n d p : option cstr) (arr : list (option name_spaceType_t))
  | OpBuild (n d p : option cstr) (arr : list (option name_spaceType_t))
  | OpUnregisterNamespace (n : option cstr) (s : cstr)
  | OpUnregisterComponent (n : option cstr).

Definition run_op m (op : ns_op) : outcome (ccsp_status * MGR) :=
  match op with
  | OpRegister n d p arr => r ← CcspNsMgrRegisterNamespaces m n d p arr (Zlen arr) []; Done r.1
  | OpBuild n d p arr => r ← CcspNsMgrBuildNamespaces m n d p arr (Zlen arr) []; Done r.1
  | OpUnregisterNamespace n s => CcspNsMgrUnregisterNamespace m n (Some s)
  | OpUnregisterComponent n => CcspNsMgrUnregisterComponent m n
  end.

(** What the caller of an operation has to ensure: a registration gives a
    component name, a build gives named elements, no depth passes 16 bits, and
    a component withdraws only its own names. *)
Definition op_pre m (op : ns_op) : Prop :=
  match op with
  | OpRegister n _ _ arr => is_Some n /\ room m (Zlen arr)
  | OpBuild _ _ _ arr => room m (Zlen arr) /\ Forall (fun q => exists p, q = Some p /\ named_space p) arr
  | OpUnregisterNamespace n s => own_name m n s
  | OpUnregisterComponent _ => True
  end.

Inductive reachable : MGR -> Prop :=
  | reach_create name m : CcspCreateNamespaceMgr name [] = Done (Some m, []) -> reachable m
  | reach_op m op st m' : reachable m -> op_pre m op -> run_op m op = Done (st, m') -> reachable m'.

Lemma run_op_ok m op : mgr_ok m -> op_pre m op -> exists st m', run_op m op = Done (st, m') /\ mgr_ok m'.
Proof.
  intros Hm. destruct op as [n d p arr|n d p arr|n s|n]; cbn [op_pre run_op].
  - intros [[nm ->] Hroom]. destruct (register_ok m nm d p arr Hm Hroom) as (st & m' & -> & Hm'). by exists st, m'.
  - intros [Hroom Harr]. assert (exists arr', arr = Some <$> arr' /\ Forall named_space arr') as (arr' & -> & Hn).
    { induction Harr as [|q arr (p' & -> & Hp) _ IH]; [by exists []|].
      destruct IH as (arr' & -> & Hn); [|exists (p' :: arr'); split; [done|by constructor]].
      destruct Hroom as [Hr1 Hr2]. split; [cbn in Hr1; lia|]. intros l c Hc. specialize (Hr2 l c Hc). cbn in Hr2. lia. }
    rewrite length_fmap in *. destruct (build_ok m n d p arr' Hm Hroom Hn) as (m' & ? & ? & ? & ? & -> & Hm' & _).
    by exists CCSP_SUCCESS, m'.
  - intros Hown. destruct (unregister_namespace_ok m n s Hm Hown) as (st & m' & ? & ? & E & Hm' & _). eauto.
  - intros _. destruct (unregister_component_ok m n Hm) as (st & m' & E & Hm' & _). eauto.
Qed.

Lemma reachable_ok m : reachable m -> mgr_ok m.
Proof.
  induction 1 as [name m E|m op st m' _ IH Hpre E].
  - destruct (create_ok name) as (m' & E' & Hm' & _). congruence.
  - destruct (run_op_ok m op IH Hpre) as (st' & m2 & E' & Hm'). congruence.
Qed.

(** *** Discovery of a registered parameter *)

Lemma discover_leaf m t s id l r c b :
  hAtomNamespace m = Some t -> nt_ok t -> valid_name s ->
  (length (reg_name SegStart s) <= 255)%nat -> last (reg_name SegStart s) ≠ Some 46 ->
  nt_stack t (reg_name SegStart s) = (id, l) :: r -> comps m !! l = Some c -> pPrefix c = [] ->
  CcspNsMgrDiscoverNamespace m (Some s) None b [] =
    Done (CCSP_SUCCESS, Some ([Some (CompStruct (Some (pCompName c)) (Some (pDbusPath c)) id)], 1), []).
Proof.
  intros Ht Hok Hs Hlen Hlast Hst Hc Hp. unfold CcspNsMgrDiscoverNamespace. rewrite ChangeToReg_valid by done.
  assert (E : (if has_instance s then
      if (length (reg_name SegStart s) <=? 255)%nat
      then Done (Some (reg_name SegStart s), Some true, []) else Stuck OutOfBounds
    else Done (Some s, Some false, [])) =
    @Done (option cstr * option bool * alloc_stream) (Some (reg_name SegStart s), Some (has_instance s), [])).
  { destruct (has_instance s) eqn:Ei; [by rewrite (proj2 (Nat.leb_le _ _) Hlen)|by rewrite reg_name_id]. }
  rewrite E, Ht. cbn [mbind outcome_bind]. clear E.
  assert ((default 0 (last (reg_name SegStart s)) =? 46) = false) as ->.
  { destruct (last (reg_name SegStart s)) as [x|]; [|done]. cbn. apply Z.eqb_neq. congruence. }
  cbn [negb]. rewrite (nt_get_any t (reg_name SegStart s)), Hst by done. cbn [head mbind outcome_bind].
  rewrite (get_comp_Done _ _ _ Hc). cbn [mbind outcome_bind]. unfold leaf_prefix_refused. by rewrite Hp.
Qed.

Lemma entries_for_first s l arr q :
  q ∈ arr -> name_space q = Some s ->
  exists q' r, q' ∈ arr /\ name_space q' = Some s /\ rev (entries_for s l arr) = (ULONG (dataType q'), l) :: r.
Proof.
  intros Hq Hs. destruct (rev (entries_for s l arr)) as [|p r] eqn:E.
  - apply (f_equal (@length _)) in E. rewrite length_rev, count_entries in E. exfalso.
    unfold count_name in E. apply length_zero_iff_nil in E.
    by apply (filter_nil_not_elem_of _ _ (entry_of q)) in E; [apply E, list_elem_of_fmap_2|].
  - assert (Hp : p ∈ rev (entries_for s l arr)) by (rewrite E; left). rewrite elem_of_rev in Hp.
    apply list_elem_of_omap in Hp as (q' & Hq' & Ep). case_bool_decide; [|done]. injection Ep as <-.
    by exists q', r.
Qed.

(** *** Discovery of an object *)

(** The components reported for an object path. *)
Definition reported m (name : cstr) (prefix : option cstr) (b : bool) l : bool :=
  match comps m !! l with
  | Some c => match CcspNsCompIsObjectSupported c name b with Done ok => ok | Stuck _ => false end && prefix_match m prefix c
  | None => false
  end.

Lemma collect_spec m name prefix b q h :
  (forall l, l ∈ q -> exists c, comps m !! l = Some c /\ comp_ok c) -> (length h <= 64)%nat ->
  collect m q name prefix b h =
    let r := h ++ List.filter (reported m name prefix b) q in
    if (length r <=? 64)%nat then Done r else Stuck OutOfBounds.
Proof.
  revert h. induction q as [|l q IH]; intros h Hq Hh; cbn [collect List.filter].
  - cbn zeta. rewrite app_nil_r. by rewrite (proj2 (Nat.leb_le _ _) Hh).
  - destruct (Hq l) as (c & Hc & Hcomp); [left|]. rewrite (get_comp_Done _ _ _ Hc). cbn [mbind outcome_bind].
    destruct (IsObjectSupported_loop_spec (ParamspaceQueue c) name b (comp_ok_named c Hcomp)) as (ok & E & _).
    assert (reported m name prefix b l = ok && prefix_match m prefix c) as ->
      by (unfold reported, CcspNsCompIsObjectSupported; by rewrite Hc, E).
    unfold CcspNsCompIsObjectSupported. rewrite E. cbn [mbind outcome_bind].
    assert (Hq' : forall l', l' ∈ q -> exists c', comps m !! l' = Some c' /\ comp_ok c') by (intros l' ?; apply Hq; by right).
    destruct (ok && prefix_match m prefix c); [|by apply IH].
    destruct (Nat.ltb_spec (length h) 64).
    + rewrite IH; [|done|rewrite length_app; cbn; lia]. by rewrite <-app_assoc.
    + cbn zeta. rewrite (proj2 (Nat.leb_gt _ _)); [done|]. rewrite length_app. cbn. lia.
Qed.

Definition comp_struct_of m l : option componentStruct_t :=
  match comps m !! l with
  | Some c => Some (CompStruct (Some (pCompName c)) (Some (pDbusPath c)) ccsp_none)
  | None => None
  end.

Lemma comp_structs_spec m q :
  (forall l, l ∈ q -> is_Some (comps m !! l)) ->
  comp_structs m q [] = Done (Some (comp_struct_of m <$> q), []).
Proof.
  induction q as [|l q IH]; intros Hq; [done|]. cbn [comp_structs]. destruct (Hq l) as [c Hc]; [left|].
  rewrite (get_comp_Done _ _ _ Hc). cbn [mbind outcome_bind next_alloc negb CcspNsMgrCloneString].
  rewrite IH by (intros l' ?; apply Hq; by right). cbn. unfold comp_struct_of at 2. by rewrite Hc.
Qed.

(** ** Properties *)


(** [CcspNsMgrRegisterNamespaces] in a consistent state.  An array of free
    names is registered: the call succeeds, every name of the array leads to one
    component, other names are left as they were.  The first element that is not
    free decides otherwise, and nothing is registered: a NULL element, a missing
    or malformed name gives CCSP_CR_ERR_INVALID_PARAM, a name of another
    component gives CCSP_CR_ERR_NAMESPACE_OVERLAP, and a name the same component
    already has makes the call answer CCSP_SUCCESS, although the elements in
    front of and behind it are dropped. *)
Theorem CcspNsMgrRegisterNamespaces_spec m t nm d p arr
  (Hm : mgr_ok m) (Ht : hAtomNamespace m = Some t) (Hroom : room m (Zlen arr)) :
  let run := CcspNsMgrRegisterNamespaces m (Some nm) d p arr (Zlen arr) [] in
  (Forall (free_element t) arr ->
     exists m' t' l c, run = Done (CCSP_SUCCESS, m', []) /\ mgr_ok m' /\ hAtomNamespace m' = Some t' /\
       comps m' !! l = Some c /\ (strlen nm < 256 -> pCompName c = nm) /\
       (forall s, (exists q, Some q ∈ arr /\ name_space q = Some s) -> nt_stack t' s ≠ [] /\ forall e, e ∈ nt_stack t' s -> e.2 = l) /\
       (forall s, ~ (exists q, Some q ∈ arr /\ name_space q = Some s) -> nt_stack t' s = nt_stack t s)) /\
  (forall pre q post, arr = pre ++ q :: post -> Forall (free_element t) pre ->
     (match q with None => True | Some x => match name_space x with None => True | Some s => ~ acceptable s end end ->
        run = Done (CCSP_CR_ERR_INVALID_PARAM, m, [])) /\
     (forall x s id l r c, q = Some x -> name_space x = Some s -> acceptable s -> nt_stack t s = (id, l) :: r ->
        comps m !! l = Some c ->
        run = Done (if decide (pCompName c = nm) then CCSP_SUCCESS else CCSP_CR_ERR_NAMESPACE_OVERLAP, m, []))).
Proof.
  cbn zeta. pose proof Hm as (t1 & Et & Hok & _). rewrite Ht in Et. injection Et as <-.
  unfold CcspNsMgrRegisterNamespaces. rewrite Nat2Z.id. split.
  - intros Hfree. rewrite (register_checks_pass m t) by done. cbn [mbind outcome_bind].
    destruct (free_elements t arr Hfree) as (arr' & -> & Hn & Hf). rewrite length_fmap in *.
    destruct (register_component_spec m t (Some nm) d p arr' Hm Ht Hn Hroom Hf)
      as (l & c & m' & t' & E & Hm' & Ht' & Hc & Hnm & _ & Hst & _).
    exists m', t', l, c. split_and!; [done|done|done|done|by apply Hnm| |].
    + intros s (q & (q1 & [= <-] & Hq)%list_elem_of_fmap & Hs).
      destruct (entries_for_first s l arr' q Hq Hs) as (q' & r & _ & _ & Er).
      rewrite Hst, (Hf q s Hq Hs), app_nil_r. split; [by rewrite Er|]. intros e He. rewrite elem_of_rev in He.
      exact (entries_for_owner _ _ _ _ He).
    + intros s Hno. rewrite Hst. destruct (entries_for_named s l arr') as [->|(q & Hq & Hs)]; [done|].
      exfalso. apply Hno. exists q. split; [by apply list_elem_of_fmap_2|done].
  - intros pre q post -> Hpre. rewrite (register_checks_free m t) by done. cbn [length]. split.
    + destruct q as [x|]; [destruct (name_space x) as [s|] eqn:Es|]; intros Hbad.
      * rewrite (register_checks_element m t _ _ _ _ x s) by (try done; apply array_get_at). by rewrite decide_False.
      * cbn [register_checks]. rewrite array_get_at. cbn [mbind outcome_bind]. by rewrite Es.
      * cbn [register_checks]. by rewrite array_get_at.
    + intros x s id l r c -> Hs Hacc Hst Hc.
      rewrite (register_checks_element m t _ _ _ _ x s) by (try done; apply array_get_at).
      rewrite decide_True by done. rewrite Hst. cbn [head]. rewrite (get_comp_Done _ _ _ Hc). cbn [mbind outcome_bind].
      destruct (decide (pCompName c = nm)); [by rewrite bool_decide_false by tauto|by rewrite bool_decide_true].
Qed.

(** C27. Registration and discovery: when a component that is not yet known
    registers free names, a parameter whose name normalizes to one of them (its
    instance numbers replaced by "{i}") is discovered with the component's name,
    its bus path and the type of the name. *)
Theorem register_then_discover m t nm path arr
  (Hm : mgr_ok m) (Ht : hAtomNamespace m = Some t) (Hroom : room m (Zlen arr))
  (Hnew : CcspNsMgrLookforComponent m (Some nm) = Done None) (Hnm : strlen nm < 256) (Hpath : strlen path < 256)
  (Hfree : Forall (free_element t) arr) :
  exists m', CcspNsMgrRegisterNamespaces m (Some nm) (Some path) None arr (Zlen arr) [] = Done (CCSP_SUCCESS, m', []) /\
    forall s q b, valid_name s -> (length (reg_name SegStart s) <= 255)%nat ->
      Some q ∈ arr -> name_space q = Some (reg_name SegStart s) ->
      exists q', Some q' ∈ arr /\ name_space q' = name_space q /\
        CcspNsMgrDiscoverNamespace m' (Some s) None b [] =
          Done (CCSP_SUCCESS, Some ([Some (CompStruct (Some nm) (Some path) (ULONG (dataType q')))], 1), []).
Proof.
  pose proof Hm as (t1 & Et & Hok & _). rewrite Ht in Et. injection Et as <-.
  unfold CcspNsMgrRegisterNamespaces. rewrite Nat2Z.id.
  rewrite (register_checks_pass m t) by done. cbn [mbind outcome_bind].
  pose proof Hfree as Hacc. destruct (free_elements t arr Hfree) as (arr' & -> & Hn & Hf). rewrite length_fmap in *.
  destruct (register_component_spec m t (Some nm) (Some path) None arr' Hm Ht Hn Hroom Hf)
    as (l & c & m' & t' & E & Hm' & Ht' & Hc & Hname & Hnewc & Hst & _).
  exists m'. split; [done|]. intros s q b Hs Hlen (q1 & [= <-] & Hq)%list_elem_of_fmap Hqs.
  destruct (entries_for_first _ l arr' q Hq Hqs) as (q' & r & Hq' & Hq's & Er).
  exists q'. split; [by apply list_elem_of_fmap_2|]. split; [congruence|].
  pose proof Hm' as (t2 & Et & Hok' & _). rewrite Ht' in Et. injection Et as <-.
  destruct (Hnewc Hnew) as [Hpfx Hdp]. cbn in Hdp. rewrite (proj2 (Z.ltb_lt _ _) Hpath) in Hdp.
  rewrite <-(Hname nm eq_refl Hnm), <-Hdp.
  eapply (discover_leaf m' t'); [done|done|done|done| |by rewrite Hst, Er|done|done].
  assert (Hq2 : Some q ∈ Some <$> arr') by by apply list_elem_of_fmap_2.
  destruct (proj1 (Forall_forall _ _) Hacc _ Hq2) as (q2 & s2 & Eq2 & Hs2 & (_ & _ & _ & Hlast) & _). congruence.
Qed.

(** [CcspNsMgrUnregisterComponent] in a consistent state: an unknown name
    changes nothing and gives CCSP_CR_ERR_UNKNOWN_COMPONENT; a known component is
    removed, and then no entry of the table leads to it and the names of its
    queue are free again, while the entries of other components stay. *)
Theorem CcspNsMgrUnregisterComponent_spec m n (Hm : mgr_ok m) :
  exists st m', CcspNsMgrUnregisterComponent m n = Done (st, m') /\ mgr_ok m' /\
    match st with
    | CCSP_SUCCESS =>
        exists l c t t', comps m !! l = Some c /\ n = Some (pCompName c) /\ comps m' = delete l (comps m) /\
          hAtomNamespace m = Some t /\ hAtomNamespace m' = Some t' /\
          (forall s e, e ∈ nt_stack t' s -> e.2 ≠ l) /\
          (forall s, s ∈ names_of (ParamspaceQueue c) -> nt_stack t' s = []) /\
          (forall s, s ∉ names_of (ParamspaceQueue c) -> nt_stack t' s = nt_stack t s)
    | _ => st = CCSP_CR_ERR_UNKNOWN_COMPONENT /\ m' = m
    end.
Proof.
  destruct (unregister_component_ok m n Hm) as (st & m' & E & Hm' & Hst). exists st, m'. split; [done|].
  split; [done|]. destruct st; try done. destruct Hst as (l & c & t & t' & Hc & -> & Hdel & Ht & Ht' & Hst).
  destruct Hm' as (t1 & Et & _ & _ & _ & _ & (Hlive & _) & _). rewrite Ht' in Et. injection Et as <-.
  destruct Hm as (t1 & Et & Hok & _ & _ & Hall & Hown & _). rewrite Ht in Et. injection Et as <-.
  exists l, c, t, t'. split_and!; try done.
  - intros s e' He El. destruct (Hlive s e' He) as [c' Hc']. rewrite El in Hc'. by rewrite Hdel, lookup_delete_eq in Hc'.
  - intros s Hs%count_name_elem'. rewrite Hst. destruct (owners_all_or_none t _ l c s Hok Hown Hc) as [[-> _]|[Hz _]].
    + by apply drop_ge.
    + destruct (decide (s = [])) as [->|Hne]; [by rewrite count_name_nil in Hs by eauto|by rewrite Hz in Hs].
  - intros s Hs. rewrite Hst. destruct (decide (count_name s (ParamspaceQueue c) = 0%nat)) as [->|Hc0]; [by rewrite drop_0|].
    by apply count_name_elem in Hc0.
Qed.

(** [CcspNsMgrDiscoverNamespace] of an object path in a consistent state,
    for a path without instance numbers: the answer lists exactly the
    components that have a namespace below the path and match the subsystem
    prefix, in the order of the queue; without any the path is unsupported; with
    more than 64 the local array of 64 handles is overrun. *)
Theorem discover_object m s prefix b
  (Hm : mgr_ok m) (Hs : valid_name s) (Hi : has_instance s = false) (Hdot : last s = Some 46) :
  let found := List.filter (reported m s prefix b) (ComponentQueue m) in
  CcspNsMgrDiscoverNamespace m (Some s) prefix b [] =
    if (length found =? 0)%nat then Done (CCSP_CR_ERR_UNSUPPORTED_NAMESPACE, None, [])
    else if (length found <=? 64)%nat then Done (CCSP_SUCCESS, Some (comp_struct_of m <$> found, Zlen found), [])
    else Stuck OutOfBounds.
Proof.
  cbn zeta. destruct Hm as (t & Ht & _ & _ & Hq & Hall & _). unfold CcspNsMgrDiscoverNamespace.
  rewrite ChangeToReg_valid, Hi, Ht by done. cbn [mbind outcome_bind]. rewrite Hdot.
  change (negb (default 0 (Some 46) =? 46)) with false. cbn iota. change (default false (Some false)) with false.
  change (default [] (Some s)) with s. rewrite (collect_spec m s prefix b); [|intros l [c Hc]%Hq; eauto|cbn; lia]. cbn [app].
  set (found := List.filter _ _).
  destruct (Nat.eqb_spec (length found) 0) as [E|E].
  { rewrite E. cbn [Nat.leb mbind outcome_bind]. rewrite andb_false_r. cbn [mbind outcome_bind]. by rewrite E. }
  destruct (Nat.leb_spec (length found) 64); cbn [mbind outcome_bind]; [|done].
  rewrite (proj2 (Nat.eqb_neq _ _) E). cbn [andb mbind outcome_bind]. rewrite (proj2 (Nat.eqb_neq _ _) E).
  cbn [next_alloc negb]. rewrite comp_structs_spec; [done|].
  intros l Hl. apply Hq. by apply list_elem_of_In, filter_In in Hl as [Hl%list_elem_of_In _].
Qed.

(** [CcspNsMgrUnregisterNamespace] in a consistent state: a component that
    withdraws a name of its own succeeds and removes one entry of the name; a
    name nobody has is answered with CCSP_CR_ERR_NAMESPACE_MISMATCH and changes
    nothing.  But a component name that is not registered is looked up and
    dereferenced without a test, where the interface promises an error code. *)
Theorem CcspNsMgrUnregisterNamespace_spec m n s (Hm : mgr_ok m) :
  (own_name m n s -> exists st m' t t', CcspNsMgrUnregisterNamespace m n (Some s) = Done (st, m') /\ mgr_ok m' /\
     hAtomNamespace m = Some t /\ hAtomNamespace m' = Some t' /\ nt_stack t' s = tail (nt_stack t s) /\
     match nt_stack t s with
     | [] => st = CCSP_CR_ERR_NAMESPACE_MISMATCH /\ m' = m
     | _ => st = CCSP_SUCCESS
     end) /\
  (CcspNsMgrLookforComponent m n = Done None -> CcspNsMgrUnregisterNamespace m n (Some s) = Stuck NullDeref).
Proof.
  split; [by apply unregister_namespace_ok|]. intros E. unfold CcspNsMgrUnregisterNamespace. by rewrite E.
Qed.

Lemma free_comps_spec q cs :
  NoDup q -> (forall l, l ∈ q <-> is_Some (cs !! l)) -> free_comps q cs = Done ∅.
Proof.
  intros Hnd. revert cs. induction Hnd as [|l q Hl Hnd IH]; intros cs Hq; cbn [free_comps].
  - f_equal. apply map_eq. intros l. rewrite lookup_empty. destruct (cs !! l) eqn:E; [|done].
    exfalso. apply (not_elem_of_nil l), Hq. by eexists.
  - destruct (proj1 (Hq l)) as [c Hc]; [left|]. rewrite (free_component _ _ _ Hc). cbn [mbind outcome_bind].
    apply IH. intros l'. rewrite lookup_delete_is_Some, <-Hq, elem_of_cons. split; [|by intros [? [->|?]]].
    intros Hl'. split; [by intros ->|by right].
Qed.

(** [CcspNsMgrCleanAll] and [CcspFreeNamespaceMgr] in a consistent state:
    every component is freed exactly once, none is left, and the table is
    removed. *)
Theorem CcspNsMgrCleanAll_frees_all m (Hm : mgr_ok m) :
  CcspNsMgrCleanAll m =
    Done (Mgr (pContainerName m) (uTotalNamespace m) [] ∅ None (SubsysPrefix m)) /\
  CcspFreeNamespaceMgr (Some m) = Done tt.
Proof.
  enough (E : CcspNsMgrCleanAll m = Done (Mgr (pContainerName m) (uTotalNamespace m) [] ∅ None (SubsysPrefix m)))
    by (split; [done|]; unfold CcspFreeNamespaceMgr; by rewrite E).
  destruct Hm as (t & Ht & Hok & Hnd & Hq & _). unfold CcspNsMgrCleanAll.
  rewrite free_comps_spec by done. cbn [mbind outcome_bind]. rewrite Ht, nt_remove_spec by done. done.
Qed.

End invariant.
