(* ===== verification/NsRegistry.v ===== *)
(** * The namespace registry

    The manager ([NsMgr]) run on atom tables ([AtomTable]): the instance of the
    interface [NameTable] that the Component Registrar uses.  The concrete
    histories below show that the hypotheses of the theorems on the manager can
    hold, and what happens when a component withdraws a foreign name. *)

From S2P Require Import Prelude Links CStrings Tokens NameTable AtomTable NsComp NsMgr.
Open Scope Z_scope.

#[local] Existing Instance lp64.
Abbreviation ATOMS := (ANSC_ATOM_TABLE_OBJECT loc).
Abbreviation REGISTRY := (CCSP_NAMESPACE_MGR_OBJECT ATOMS).

(** The state after a call. *)
Definition void_registry : REGISTRY := Mgr [] 0 [] ∅ None None.
Definition created (r : outcome (option REGISTRY * alloc_stream)) : REGISTRY :=
  match r with Done (Some m, _) => m | _ => void_registry end.
Definition after (r : outcome (ccsp_status * REGISTRY)) : REGISTRY :=
  match r with Done (_, m) => m | Stuck _ => void_registry end.
Definition table_of (m : REGISTRY) : ATOMS :=
  match hAtomNamespace m with Some t => t | None => Ato 0 None 0 None ∅ end.

Definition param (s : string) (ty : Z) : option name_spaceType_t := Some (SpaceType (Some (lit s)) ty).
Definition name_X : string := "Device.A.{i}.X".
Definition name_Y : string := "Device.B.Y".
Definition register_A : ns_op := OpRegister (Some (lit "com.A")) (Some (lit "/com/A")) None [param name_X 3].
Definition register_B : ns_op := OpRegister (Some (lit "com.B")) (Some (lit "/com/B")) None [param name_Y 1].

Definition r0 : REGISTRY := created (CcspCreateNamespaceMgr (Some (lit "CR")) []).
Definition r1 : REGISTRY := after (run_op r0 register_A).
Definition r2 : REGISTRY := after (run_op r1 register_B).

Lemma r0_reachable : reachable r0.
Proof. apply (reach_create (Some (lit "CR"))). by vm_compute. Qed.

Lemma r0_room n : n < 65536 -> room r0 n.
Proof. intros Hn. split; [done|]. intros l c. change (comps r0) with (∅ : gmap loc CCSP_NAMESPACE_COMP_OBJECT). by rewrite lookup_empty. Qed.

Lemma r1_reachable : reachable r1.
Proof.
  apply (reach_op r0 register_A CCSP_SUCCESS); [apply r0_reachable| |by vm_compute].
  split; [by eexists|]. by apply r0_room.
Qed.

Lemma X_free : free_element (table_of r0) (param name_X 3).
Proof.
  exists (SpaceType (Some (lit name_X)) 3), (lit name_X). split_and!; [done|done| |by vm_compute].
  apply (bool_decide_unpack (acceptable (lit name_X))). by vm_compute.
Qed.

(** A component may withdraw the name of another component: the registry
    answers CCSP_SUCCESS, removes the other component's entry from the table and
    drops the last namespace of the caller instead.  When the caller is
    unregistered afterwards, the entry of the dropped namespace stays in the
    table and leads to freed memory, which the next discovery of the name
    reads. *)
Theorem foreign_unregister_dangles :
  exists m1 m2 m3 m4,
    run_op r0 register_A = Done (CCSP_SUCCESS, m1) /\
    run_op m1 register_B = Done (CCSP_SUCCESS, m2) /\
    run_op m2 (OpUnregisterNamespace (Some (lit "com.B")) (lit name_X)) = Done (CCSP_SUCCESS, m3) /\
    run_op m3 (OpUnregisterComponent (Some (lit "com.B"))) = Done (CCSP_SUCCESS, m4) /\
    CcspNsMgrDiscoverNamespace m4 (Some (lit name_Y)) None false [] = Stuck BadAccess.
Proof.
  exists r1, r2, (after (run_op r2 (OpUnregisterNamespace (Some (lit "com.B")) (lit name_X)))).
  eexists. split_and!; by vm_compute.
Qed.

(** ** The theorems of the manager at these states *)

Lemma X_all_free : Forall (free_element (table_of r0)) [param name_X 3].
Proof. apply Forall_singleton, X_free. Qed.


Theorem CcspNsMgrRegisterNamespaces_spec_witness :
  let arr := [param name_X 3] in let t := table_of r0 in let nm := lit "com.A" in
  let run := CcspNsMgrRegisterNamespaces r0 (Some nm) None None arr (Zlen arr) [] in
  (Forall (free_element t) arr ->
     exists m' t' l c, run = Done (CCSP_SUCCESS, m', []) /\ mgr_ok m' /\ hAtomNamespace m' = Some t' /\
       comps m' !! l = Some c /\ (strlen nm < 256 -> pCompName c = nm) /\
       (forall s, (exists q, Some q ∈ arr /\ name_space q = Some s) -> nt_stack t' s ≠ [] /\ forall e, e ∈ nt_stack t' s -> e.2 = l) /\
       (forall s, ~ (exists q, Some q ∈ arr /\ name_space q = Some s) -> nt_stack t' s = nt_stack t s)) /\
  (forall pre q post, arr = pre ++ q :: post -> Forall (free_element t) pre ->
     (match q with None => True | Some x => match name_space x with None => True | Some s => ~ acceptable s end end ->
        run = Done (CCSP_CR_ERR_INVALID_PARAM, r0, [])) /\
     (forall x s id l r c, q = Some x -> name_space x = Some s -> acceptable s -> nt_stack t s = (id, l) :: r ->
        comps r0 !! l = Some c ->
        run = Done (if decide (pCompName c = nm) then CCSP_SUCCESS else CCSP_CR_ERR_NAMESPACE_OVERLAP, r0, []))).
Proof.
  cbn zeta. apply CcspNsMgrRegisterNamespaces_spec; [apply reachable_ok, r0_reachable|by vm_compute|by apply r0_room].
Defined.

Theorem register_then_discover_witness :
  let arr := [param name_X 3] in let nm := lit "com.A" in let path := lit "/com/A" in
  exists m', CcspNsMgrRegisterNamespaces r0 (Some nm) (Some path) None arr (Zlen arr) [] = Done (CCSP_SUCCESS, m', []) /\
    forall s q b, valid_name s -> (length (reg_name SegStart s) <= 255)%nat ->
      Some q ∈ arr -> name_space q = Some (reg_name SegStart s) ->
      exists q', Some q' ∈ arr /\ name_space q' = name_space q /\
        CcspNsMgrDiscoverNamespace m' (Some s) None b [] =
          Done (CCSP_SUCCESS, Some ([Some (CompStruct (Some nm) (Some path) (ULONG (dataType q')))], 1), []).
Proof.
  cbn zeta. apply (register_then_discover r0 (table_of r0));
    [apply reachable_ok, r0_reachable|by vm_compute|by apply r0_room|by vm_compute|by vm_compute|by vm_compute|apply X_all_free].
Defined.

Theorem CcspNsMgrUnregisterComponent_spec_witness :
  exists st m', CcspNsMgrUnregisterComponent r1 (Some (lit "com.A")) = Done (st, m') /\ mgr_ok m' /\
    match st with
    | CCSP_SUCCESS =>
        exists l c t t', comps r1 !! l = Some c /\ Some (lit "com.A") = Some (pCompName c) /\ comps m' = delete l (comps r1) /\
          hAtomNamespace r1 = Some t /\ hAtomNamespace m' = Some t' /\
          (forall s e, e ∈ nt_stack t' s -> e.2 ≠ l) /\
          (forall s, s ∈ names_of (ParamspaceQueue c) -> nt_stack t' s = []) /\
          (forall s, s ∉ names_of (ParamspaceQueue c) -> nt_stack t' s = nt_stack t s)
    | _ => st = CCSP_CR_ERR_UNKNOWN_COMPONENT /\ m' = r1
    end.
Proof. apply CcspNsMgrUnregisterComponent_spec, reachable_ok, r1_reachable. Defined.

Theorem discover_object_witness :
  let s := lit "Device.A." in
  let found := List.filter (reported r1 s None true) (ComponentQueue r1) in
  length found = 1%nat /\
  CcspNsMgrDiscoverNamespace r1 (Some s) None true [] =
    if (length found =? 0)%nat then Done (CCSP_CR_ERR_UNSUPPORTED_NAMESPACE, None, [])
    else if (length found <=? 64)%nat then Done (CCSP_SUCCESS, Some (comp_struct_of r1 <$> found, Zlen found), [])
    else Stuck OutOfBounds.
Proof.
  cbn zeta. split; [by vm_compute|].
  apply discover_object; [apply reachable_ok, r1_reachable| |by vm_compute|by vm_compute].
  split_and!; [repeat constructor; lia|done|done| |by vm_compute].
  by apply (proj1 (strstr_None (lit "Device.A.") [46; 46])).
Defined.

Theorem CcspNsMgrUnregisterNamespace_spec_witness :
  let s := lit name_X in let n := Some (lit "com.C") in
  CcspNsMgrUnregisterNamespace r1 n (Some s) = Stuck NullDeref /\
  (own_name r1 n s -> exists st m' t t', CcspNsMgrUnregisterNamespace r1 n (Some s) = Done (st, m') /\ mgr_ok m' /\
     hAtomNamespace r1 = Some t /\ hAtomNamespace m' = Some t' /\ nt_stack t' s = tail (nt_stack t s) /\
     match nt_stack t s with
     | [] => st = CCSP_CR_ERR_NAMESPACE_MISMATCH /\ m' = r1
     | _ => st = CCSP_SUCCESS
     end) /\
  (CcspNsMgrLookforComponent r1 n = Done None -> CcspNsMgrUnregisterNamespace r1 n (Some s) = Stuck NullDeref).
Proof.
  cbn zeta. split; [by vm_compute|]. apply CcspNsMgrUnregisterNamespace_spec, reachable_ok, r1_reachable.
Defined.

Theorem CcspNsMgrCleanAll_frees_all_witness :
  CcspNsMgrCleanAll r1 =
    Done (Mgr (pContainerName r1) (uTotalNamespace r1) [] ∅ None (SubsysPrefix r1)) /\
  CcspFreeNamespaceMgr (Some r1) = Done tt.
Proof. apply CcspNsMgrCleanAll_frees_all, reachable_ok, r1_reachable. Defined.
