(* ===== verification/Checksum.v ===== *)
(** * Internet checksums and byte order ([ansc_checksum.c], [ansc_swap.c])

    The one's complement sums of packet headers, computed over memory in the
    byte order of the platform, and the incremental update of a checksum when
    part of the data is replaced.  The reference is the sum of the 16-bit words
    reduced modulo 65535. *)

From S2P Require Import Prelude.
Open Scope Z_scope.

Section checksum.
Context `{Platform}.

(** A 16-bit word in memory, and a last byte padded with a zero. *)
Definition word16 (a b : Z) : Z := if little_endian then a + 256 * b else 256 * a + b.
Definition padded (a : Z) : Z := word16 a 0.
Definition read_ushort (data : list Z) (i : Z) : outcome Z :=
  a ← buf_get data i; b ← buf_get data (i + 1); Done (word16 a b).

(** ** [AnscCalculateChecksum] and its siblings *)

(** [( checksum & 0xFFFF ) + ( checksum >> 16 )] *)
Definition fold16 (c : Z) : Z := ULONG (Z.land c 65535 + Z.shiftr c 16).

(** The loop over the words: the offset and the length that are left, and the
    sum. *)
Fixpoint sum_loop (fuel : nat) (data : list Z) (pos length checksum : Z) : outcome (Z * Z * Z) :=
  match fuel with
  | O => Stuck Diverge
  | S k =>
      if 1 <? length then
        w ← read_ushort data pos;
        let checksum := ULONG (checksum + w) in
        let checksum := if Z.land checksum 2147483648 =? 0 then checksum else fold16 checksum in
        sum_loop k data (pos + 2) (length - 2) checksum
      else Done (pos, length, checksum)
  end.
(** The words of a block and its padded last byte. *)
Definition sum_block (data : list Z) (length checksum : Z) : outcome Z :=
  r ← sum_loop (S (Z.to_nat length)) data 0 length checksum;
  let '(pos, length, checksum) := r in
  if length =? 0 then Done checksum
  else b ← buf_get data pos; Done (ULONG (checksum + padded b)).
(** [while ( checksum >> 16 )] *)
Fixpoint fold_loop (fuel : nat) (checksum : Z) : outcome Z :=
  match fuel with
  | O => Stuck Diverge
  | S k => if Z.shiftr checksum 16 =? 0 then Done checksum else fold_loop k (fold16 checksum)
  end.
Definition fold_fuel : nat := 4.

Definition AnscCalculateChecksum (data : list Z) (length : Z) : outcome Z :=
  c ← sum_block data length 0;
  c ← fold_loop fold_fuel c;
  Done (USHORT (Z.lnot (USHORT c))).

Definition AnscCalculateTransportChecksum (pseudoHeader : list Z) (headerLength : Z) (data : list Z) (length : Z)
  : outcome Z :=
  c ← sum_block data length 0;
  c ← sum_block pseudoHeader headerLength c;
  c ← fold_loop fold_fuel c;
  Done (USHORT (Z.lnot (USHORT c))).

Definition AnscGetPackingNumber (data : list Z) (length : Z) : outcome Z :=
  c ← sum_block data length 0;
  c ← fold_loop fold_fuel c;
  Done (USHORT c).

(** ** [AnscReplaceChecksum] *)

(** A pass over a block: [step] updates the sum with a word; a last single byte
    is added as it is, without padding. *)
Fixpoint replace_loop (step : Z -> Z -> Z) (fuel : nat) (data : list Z) (pos length newChecksum : Z) : outcome Z :=
  match fuel with
  | O => Stuck Diverge
  | S k =>
      if length =? 0 then Done newChecksum
      else if negb (length =? 1) then
        w ← read_ushort data pos;
        replace_loop step k data (pos + 2) (length - 2) (step newChecksum (Z.land w 65535))
      else
        b ← buf_get data pos;
        replace_loop step k data (pos + 1) (length - 1) (step newChecksum b)
  end.
(** One subtraction and one addition; [newChecksum] is a [LONG]. *)
Definition minus_word (c w : Z) : Z :=
  let c := c - w in if c <=? 0 then Z.land (c - 1) 65535 else c.
Definition plus_word (c w : Z) : Z :=
  let c := c + w in if Z.land c 65536 =? 0 then c else Z.land (c + 1) 65535.

Definition AnscReplaceChecksum (oldData : list Z) (oldLength : Z) (newData : list Z) (newLength oldChecksum : Z)
  : outcome Z :=
  let newChecksum := Z.land (Z.lnot oldChecksum) 65535 in
  newChecksum ← replace_loop minus_word (S (Z.to_nat oldLength)) oldData 0 oldLength newChecksum;
  newChecksum ← replace_loop plus_word (S (Z.to_nat newLength)) newData 0 newLength newChecksum;
  Done (USHORT (Z.land (Z.lnot newChecksum) 65535)).

(** ** Byte order ([ansc_swap.c]) *)

(** The copy is not tested for NULL before it is written. *)
Definition AnscSwapMemory (memory : list Z) (ulSize : Z) (a : alloc_stream) : outcome (list Z * alloc_stream) :=
  let '(ok, a) := next_alloc a in
  if negb ok && (0 <? ulSize) then Stuck NullDeref
  else
    temp ← for_from 0 (Z.to_nat ulSize) (fun i temp =>
      c ← buf_get memory (ulSize - 1 - i); buf_put temp i c) (replicate (Z.to_nat ulSize) 0);
    memory ← buf_copy memory 0 temp;
    Done (memory, a).

Definition AnscSwapUlong (ulValue : Z) : Z :=
  let byte3 := Z.shiftr (Z.land ulValue 4278190080) 24 in
  let byte2 := Z.shiftr (Z.land ulValue 16711680) 8 in
  let byte1 := ULONG (Z.shiftl (Z.land ulValue 65280) 8) in
  let byte0 := ULONG (Z.shiftl (Z.land ulValue 255) 24) in
  ULONG (byte3 + byte2 + byte1 + byte0).

Definition AnscSwapUshort (usValue : Z) : Z :=
  let byte1 := USHORT (Z.shiftr (Z.land usValue 65280) 8) in
  let byte0 := USHORT (Z.shiftl (Z.land usValue 255) 8) in
  USHORT (byte1 + byte0).

End checksum.

(** ** The reference *)

Section reference.
Context `{Platform}.

(** The 16-bit words of a block, the last one padded. *)
Fixpoint words16 (d : list Z) : list Z :=
  match d with
  | a :: b :: r => word16 a b :: words16 r
  | [a] => [padded a]
  | [] => []
  end.
Definition total (d : list Z) : Z := foldr Z.add 0 (words16 d).

(** The one's complement representative: zero for zero only. *)
Definition ones_sum (s : Z) : Z := if s =? 0 then 0 else 1 + (s - 1) mod 65535.

(** Induction two bytes at a time. *)
Lemma pairs_ind (P : list Z -> Prop) :
  P [] -> (forall a, P [a]) -> (forall a b r, P r -> P (a :: b :: r)) -> forall d, P d.
Proof.
  intros H0 H1 H2 d. enough (P d /\ forall a, P (a :: d)) by tauto.
  induction d as [|x d [IH1 IH2]]; [by split|]. split; [apply IH2|]. intros a. by apply H2.
Qed.

Lemma word16_bound a b : is_byte a -> is_byte b -> 0 <= word16 a b < 65536.
Proof. unfold is_byte, word16. destruct little_endian; lia. Qed.

Lemma total_cons2 a b r : total (a :: b :: r) = word16 a b + total r.
Proof. done. Qed.

Lemma total_nonneg d : Forall is_byte d -> 0 <= total d.
Proof.
  induction d as [|a|a b r IH] using pairs_ind; intros Hd; [done| |].
  - rewrite Forall_singleton in Hd. change (total [a]) with (word16 a 0 + 0).
    pose proof (word16_bound a 0 Hd ltac:(by split)). lia.
  - apply Forall_cons in Hd as [Ha [Hb Hr]%Forall_cons]. rewrite total_cons2.
    pose proof (word16_bound a b Ha Hb). pose proof (IH Hr). lia.
Qed.

Lemma total_app p d : Nat.Even (length p) -> total (p ++ d) = total p + total d.
Proof.
  induction p as [|a|a b r IH] using pairs_ind; intros Hp; [done| |].
  - destruct Hp as [k Hk]. cbn in Hk. lia.
  - cbn [app]. rewrite !total_cons2, IH; [lia|]. destruct Hp as [k Hk]. exists (k - 1)%nat. cbn in Hk. lia.
Qed.

(** Sums that agree as one's complement numbers. *)
Definition same_sum (c s : Z) : Prop := c mod 65535 = s mod 65535 /\ (c = 0 <-> s = 0).

Lemma ones_sum_same c s : 0 <= c < 65536 -> 0 <= s -> same_sum c s -> c = ones_sum s.
Proof.
  intros Hc Hs [Hm Hz]. unfold ones_sum. destruct (Z.eqb_spec s 0) as [->|Hne]; [tauto|].
  assert (c ≠ 0) by tauto. pose proof (Z.mod_pos_bound (s - 1) 65535 ltac:(lia)).
  assert (Hm1 : (c - 1) mod 65535 = (s - 1) mod 65535).
  { rewrite (Zminus_mod c), (Zminus_mod s), Hm. done. }
  rewrite <-Hm1, Z.mod_small by lia. lia.
Qed.

Lemma ones_sum_bound s : 0 <= s -> 0 <= ones_sum s < 65536 /\ same_sum (ones_sum s) s.
Proof.
  intros Hs. unfold ones_sum, same_sum. destruct (Z.eqb_spec s 0) as [->|]; [done|].
  pose proof (Z.mod_pos_bound (s - 1) 65535 ltac:(lia)). split; [lia|]. split; [|lia].
  rewrite Zplus_mod_idemp_r. f_equal. lia.
Qed.

(** ** Folding *)

Lemma fold16_spec c : 0 <= c < 4294967296 -> fold16 c = c - 65535 * (c / 65536).
Proof.
  intros Hc. unfold fold16. change 65535 with (Z.ones 16) at 1. rewrite Z.land_ones, Z.shiftr_div_pow2 by lia.
  change (2 ^ 16) with 65536. pose proof (Z.div_mod c 65536 ltac:(lia)).
  pose proof (Z.mod_pos_bound c 65536 ltac:(lia)). assert (0 <= c / 65536 < 65536) by lia.
  rewrite ULONG_small32 by lia. lia.
Qed.

Lemma fold16_same c s : 0 <= c < 4294967296 -> same_sum c s -> same_sum (fold16 c) s /\ 0 <= fold16 c <= 131070.
Proof.
  intros Hc [Hm Hz]. rewrite fold16_spec by done. pose proof (Z.div_mod c 65536 ltac:(lia)) as E.
  pose proof (Z.mod_pos_bound c 65536 ltac:(lia)). assert (0 <= c / 65536 < 65536) by lia.
  split; [|lia]. split.
  - rewrite <-Hm. replace (c - 65535 * (c / 65536)) with (c + (- (c / 65536)) * 65535) by lia. apply Z_mod_plus_full.
  - rewrite <-Hz. lia.
Qed.

Lemma fold_loop_end k c s : 0 <= c < 65536 -> 0 <= s -> same_sum c s -> fold_loop (S k) c = Done (ones_sum s).
Proof.
  intros Hc Hs Hsame. cbn [fold_loop]. rewrite Z.shiftr_div_pow2, Z.div_small by lia.
  by rewrite (ones_sum_same c s) at 1.
Qed.

Lemma fold_loop_step k c : 65536 <= c -> fold_loop (S k) c = fold_loop k (fold16 c).
Proof.
  intros Hc. cbn [fold_loop]. rewrite Z.shiftr_div_pow2 by lia. change (2 ^ 16) with 65536.
  destruct (Z.eqb_spec (c / 65536) 0) as [E|]; [apply Z.div_small_iff in E; lia|done].
Qed.

(** Two folds reduce any 32-bit sum. *)
Lemma fold_loop_spec c s :
  0 <= c < 4294967296 -> 0 <= s -> same_sum c s -> fold_loop fold_fuel c = Done (ones_sum s).
Proof.
  intros Hc Hs Hsame. unfold fold_fuel.
  destruct (decide (c < 65536)); [apply fold_loop_end; [lia|done|done]|].
  rewrite fold_loop_step by lia. destruct (fold16_same c s Hc Hsame) as [Hsame1 Hb1].
  destruct (decide (fold16 c < 65536)); [apply fold_loop_end; [lia|done|done]|].
  rewrite fold_loop_step by lia. assert (Hb2 : 0 <= fold16 c < 4294967296) by lia.
  destruct (fold16_same (fold16 c) s Hb2 Hsame1) as [Hsame2 _].
  assert (0 <= fold16 (fold16 c) < 65536).
  { rewrite (fold16_spec (fold16 c)) by lia. 
    assert (fold16 c / 65536 = 1) as -> by (symmetry; apply (Z.div_unique _ _ _ (fold16 c - 65536)); lia). lia. }
  by apply fold_loop_end.
Qed.

(** Testing the top bit of a number. *)
Lemma top_bit_zero n c : 0 <= n -> 0 <= c < 2 * 2 ^ n -> (Z.land c (2 ^ n) =? 0) = (c <? 2 ^ n).
Proof.
  intros Hn Hc. assert (0 < 2 ^ n) by lia.
  assert (E : Z.land c (2 ^ n) = if Z.testbit c n then 2 ^ n else 0).
  { apply Z.bits_inj'. intros i Hi. rewrite Z.land_spec, Z.pow2_bits_eqb by done.
    destruct (Z.eqb_spec n i) as [<-|Hne].
    - rewrite andb_true_r. destruct (Z.testbit c n) eqn:Eb; [by rewrite Z.pow2_bits_true|by rewrite Z.bits_0].
    - rewrite andb_false_r. destruct (Z.testbit c n); [by rewrite Z.pow2_bits_false|by rewrite Z.bits_0]. }
  rewrite E. pose proof (Z.testbit_spec' c n Hn) as Hb.
  destruct (Z.ltb_spec c (2 ^ n)).
  - rewrite Z.div_small in Hb by lia. by destruct (Z.testbit c n).
  - assert (c / 2 ^ n = 1) as Ed by (symmetry; apply (Z.div_unique _ _ _ (c - 2 ^ n)); lia).
    rewrite Ed in Hb. destruct (Z.testbit c n); [|done]. destruct (Z.eqb_spec (2 ^ n) 0); [lia|done].
Qed.

Lemma same_sum_add c s w : 0 <= c -> 0 <= s -> 0 <= w -> same_sum c s -> same_sum (c + w) (s + w).
Proof.
  intros Hc Hs Hw [Hm Hz]. split; [by rewrite Zplus_mod, Hm, <-Zplus_mod|]. lia.
Qed.

(** What an accumulator below a 32-bit bound satisfies while it sums. *)
Definition acc_ok (B c s : Z) : Prop := 0 <= c < B /\ 0 <= s /\ same_sum c s.

Lemma acc_word B c s w :
  2147483648 <= B <= 4294967296 - 65536 -> acc_ok B c s -> 0 <= w < 65536 ->
  let c := ULONG (c + w) in
  acc_ok B (if Z.land c 2147483648 =? 0 then c else fold16 c) (s + w).
Proof.
  intros HB (Hc & Hs & Hsame) Hw. cbn zeta. rewrite ULONG_small32 by lia.
  pose proof (same_sum_add c s w ltac:(lia) Hs ltac:(lia) Hsame) as Hadd.
  change (Z.land (c + w) 2147483648) with (Z.land (c + w) (2 ^ 31)). rewrite top_bit_zero by lia.
  change (2 ^ 31) with 2147483648. unfold acc_ok.
  destruct (Z.ltb_spec (c + w) 2147483648); [split_and!; [lia|lia|lia|exact Hadd]|].
  assert (Hr : 0 <= c + w < 4294967296) by lia.
  destruct (fold16_same (c + w) (s + w) Hr Hadd) as [Hf Hb]. split_and!; [lia|lia|lia|exact Hf].
Qed.

Lemma acc_pad B c s w :
  B <= 4294967296 - 65536 -> acc_ok B c s -> 0 <= w < 65536 -> acc_ok (B + 65536) (ULONG (c + w)) (s + w).
Proof.
  intros HB (Hc & Hs & Hsame) Hw. rewrite ULONG_small32 by lia. unfold acc_ok. split_and!; [lia|lia|lia|].
  apply same_sum_add; [lia|lia|lia|exact Hsame].
Qed.

(** ** Summing a block *)

Lemma read_ushort_at pre a b r : read_ushort (pre ++ a :: b :: r) (Zlen pre) = Done (word16 a b).
Proof.
  unfold read_ushort. rewrite (buf_get_lookup _ (length pre) a) by by rewrite lookup_app_r, Nat.sub_diag by lia.
  cbn [mbind outcome_bind]. replace (Zlen pre + 1) with (Z.of_nat (S (length pre))) by lia.
  rewrite (buf_get_lookup _ (S (length pre)) b); [done|]. rewrite lookup_app_r by lia.
  by replace (S (length pre) - length pre)%nat with 1%nat by lia.
Qed.

Lemma buf_get_at pre (a : Z) r : buf_get (pre ++ a :: r) (Zlen pre) = Done a.
Proof. apply buf_get_lookup. by rewrite lookup_app_r, Nat.sub_diag by lia. Qed.

(** The last byte of a block of odd length. *)
Definition odd_byte (d : list Z) : option Z := if Nat.odd (length d) then last d else None.

Lemma sum_loop_spec B d post : forall fuel pre c s,
  2147483648 <= B <= 4294967296 - 65536 -> Forall is_byte d -> acc_ok B c s -> (length d < fuel)%nat ->
  exists pos c', sum_loop fuel (pre ++ d ++ post) (Zlen pre) (Zlen d) c =
      Done (pos, match odd_byte d with None => 0 | Some _ => 1 end, c') /\
    match odd_byte d with
    | None => acc_ok B c' (s + total d)
    | Some b => buf_get (pre ++ d ++ post) pos = Done b /\ is_byte b /\ acc_ok B c' (s + total d - padded b)
    end.
Proof.
  induction d as [|a|a b r IH] using pairs_ind; intros fuel pre c s HB Hd Hacc Hf; (destruct fuel as [|k]; [cbn in Hf; lia|]).
  - do 2 eexists. split; [done|]. cbn. by rewrite Z.add_0_r.
  - do 2 eexists. split; [done|]. rewrite Forall_singleton in Hd. cbn [odd_byte length Nat.odd Nat.even negb last].
    split_and!; [apply buf_get_at|done|]. change (total [a]) with (padded a + 0).
    by replace (s + (padded a + 0) - padded a) with s by lia.
  - apply Forall_cons in Hd as [Ha [Hb Hr]%Forall_cons]. pose proof (word16_bound a b Ha Hb) as Hw.
    cbn [sum_loop]. destruct (Z.ltb_spec 1 (Zlen (a :: b :: r))); [|cbn in *; lia].
    change ((a :: b :: r) ++ post) with (a :: b :: r ++ post).
    rewrite read_ushort_at. cbn [mbind outcome_bind]. pose proof (acc_word B c s (word16 a b) HB Hacc Hw) as Hacc'.
    cbn zeta in Hacc'. set (c1 := if Z.land (ULONG (c + word16 a b)) 2147483648 =? 0 then _ else _) in *.
    assert (Hodd : odd_byte (a :: b :: r) = odd_byte r).
    { unfold odd_byte. change (Nat.odd (length (a :: b :: r))) with (Nat.odd (length r)).
      destruct r as [|x r]; [done|]. by rewrite (last_cons_ne a), (last_cons_ne b) by done. }
    replace (Zlen pre + 2) with (Zlen (pre ++ [a; b])) by (rewrite length_app; cbn; lia).
    replace (Zlen (a :: b :: r) - 2) with (Zlen r) by (cbn; lia).
    replace (pre ++ a :: b :: r ++ post) with ((pre ++ [a; b]) ++ r ++ post) by by rewrite <-app_assoc.
    destruct (IH k (pre ++ [a; b]) c1 _ HB Hr Hacc' ltac:(cbn in Hf; lia)) as (pos & c' & E & Hcase).
    rewrite Hodd, total_cons2. exists pos, c'. split; [done|].
    by replace (s + (word16 a b + total r)) with (s + word16 a b + total r) by lia.
Qed.

(** A block, and what is behind it in memory. *)
Lemma sum_block_in B d post c s :
  2147483648 <= B <= 4294967296 - 65536 -> Forall is_byte d -> acc_ok B c s ->
  exists c', sum_block (d ++ post) (Zlen d) c = Done c' /\ acc_ok (B + 65536) c' (s + total d).
Proof.
  intros HB Hd Hacc. unfold sum_block. rewrite Nat2Z.id.
  destruct (sum_loop_spec B d post (S (length d)) [] c s HB Hd Hacc ltac:(lia)) as (pos & c' & E & Hcase).
  cbn [app length] in E. change (Z.of_nat 0) with 0 in E. rewrite E. cbn [mbind outcome_bind].
  destruct (odd_byte d) as [b|].
  - destruct Hcase as (Hget & Hb & Hok). cbn in Hget. rewrite Hget. cbn [mbind outcome_bind]. eexists. split; [done|].
    replace (s + total d) with (s + total d - padded b + padded b) by lia.
    apply acc_pad; [lia|done|]. unfold padded. apply word16_bound; [done|by split].
  - exists c'. split; [done|]. destruct Hcase as (? & ? & ?). unfold acc_ok. split_and!; [lia|lia|lia|done].
Qed.
Lemma sum_block_spec B d c s :
  2147483648 <= B <= 4294967296 - 65536 -> Forall is_byte d -> acc_ok B c s ->
  exists c', sum_block d (Zlen d) c = Done c' /\ acc_ok (B + 65536) c' (s + total d).
Proof. intros HB Hd Hacc. pose proof (sum_block_in B d [] c s HB Hd Hacc) as Hs. by rewrite app_nil_r in Hs. Qed.

Lemma acc_zero : acc_ok 2147483648 0 0.
Proof. unfold acc_ok, same_sum. split_and!; [lia|lia|lia|done|done]. Qed.

Lemma complement c : 0 <= c < 65536 -> USHORT (Z.lnot (USHORT c)) = 65535 - c.
Proof.
  intros Hc. rewrite (USHORT_small c) by done. unfold USHORT, Z.lnot.
  replace (Z.pred (- c)) with (65535 - c + (-1) * 65536) by lia. rewrite Z_mod_plus_full. apply Z.mod_small. lia.
Qed.

(** The sum of a block is its one's complement sum. *)
Lemma packing_of_block d post : Forall is_byte d -> AnscGetPackingNumber (d ++ post) (Zlen d) = Done (ones_sum (total d)).
Proof.
  intros Hd. unfold AnscGetPackingNumber.
  destruct (sum_block_in 2147483648 d post 0 0 ltac:(lia) Hd acc_zero) as (c & -> & Hc & Hs & Hsame). cbn [mbind outcome_bind].
  rewrite Z.add_0_l in *. rewrite (fold_loop_spec c (total d)) by (try done; lia). cbn [mbind outcome_bind].
  by rewrite USHORT_small by by apply ones_sum_bound.
Qed.
(** The checksum of a block. *)
Lemma checksum_of_block d : Forall is_byte d -> AnscCalculateChecksum d (Zlen d) = Done (65535 - ones_sum (total d)).
Proof.
  intros Hd. unfold AnscCalculateChecksum.
  destruct (sum_block_spec 2147483648 d 0 0 ltac:(lia) Hd acc_zero) as (c & -> & Hc & Hs & Hsame). cbn [mbind outcome_bind].
  rewrite Z.add_0_l in *. rewrite (fold_loop_spec c (total d)) by (try done; lia). cbn [mbind outcome_bind].
  rewrite complement; [done|]. by apply ones_sum_bound.
Qed.

(** ** Replacing a block *)

Lemma land_ffff c : Z.land c 65535 = c mod 65536.
Proof. apply (Z.land_ones c 16). lia. Qed.

(** A step that works modulo 65535 and keeps a nonzero sum nonzero. *)
Definition step_ok (step : Z -> Z -> Z) (sign : Z) : Prop := forall c w,
  0 <= c < 65536 -> 0 <= w < 65536 ->
  0 <= step c w < 65536 /\ step c w mod 65535 = (c + sign * w) mod 65535 /\ (c ≠ 0 -> step c w ≠ 0).

Lemma minus_word_ok : step_ok minus_word (-1).
Proof.
  intros c w Hc Hw. unfold minus_word. destruct (Z.leb_spec (c - w) 0).
  - rewrite land_ffff. assert ((c - w - 1) mod 65536 = c - w + 65535) as ->
      by (symmetry; apply (Z.mod_unique _ _ (-1)); lia).
    split_and!; [lia|lia| |lia]. replace (c - w + 65535) with (c + -1 * w + 1 * 65535) by lia. apply Z_mod_plus_full.
  - split_and!; [lia|lia| |lia]. f_equal; lia.
Qed.

Lemma plus_word_ok : step_ok plus_word 1.
Proof.
  intros c w Hc Hw. unfold plus_word.
  change (Z.land (c + w) 65536) with (Z.land (c + w) (2 ^ 16)). rewrite top_bit_zero by lia. change (2 ^ 16) with 65536.
  destruct (Z.ltb_spec (c + w) 65536).
  - split_and!; [lia|lia| |lia]. f_equal; lia.
  - rewrite land_ffff. assert ((c + w + 1) mod 65536 = c + w - 65535) as ->
      by (symmetry; apply (Z.mod_unique _ _ 1); lia).
    split_and!; [lia|lia| |lia]. replace (c + w - 65535) with (c + 1 * w + (-1) * 65535) by lia. apply Z_mod_plus_full.
Qed.

(** A last byte that is added without padding counts as the padded word. *)
Definition tail_ok (d : list Z) : Prop := Nat.Even (length d) \/ little_endian = true.

Lemma replace_loop_spec step sign d : step_ok step sign -> forall fuel pre c,
  Forall is_byte d -> tail_ok d -> 0 <= c < 65536 -> (length d < fuel)%nat ->
  exists c', replace_loop step fuel (pre ++ d) (Zlen pre) (Zlen d) c = Done c' /\
    0 <= c' < 65536 /\ c' mod 65535 = (c + sign * total d) mod 65535 /\ (c ≠ 0 -> c' ≠ 0).
Proof.
  intros Hstep. induction d as [|a|a b r IH] using pairs_ind; intros fuel pre c Hd Ht Hc Hf;
    (destruct fuel as [|k]; [cbn in Hf; lia|]); cbn [replace_loop].
  - exists c. split; [done|]. change (total []) with 0. by rewrite Z.mul_0_r, Z.add_0_r.
  - rewrite Forall_singleton in Hd. change (Zlen [a] =? 0) with false. change (negb (Zlen [a] =? 1)) with false. cbn iota.
    rewrite buf_get_at. cbn [mbind outcome_bind]. destruct k as [|k]; [cbn in Hf; lia|].
    change (Zlen [a] - 1) with 0. cbn [replace_loop Z.eqb].
    assert (Ha : 0 <= a < 65536) by (unfold is_byte in Hd; lia).
    assert (total [a] = a) as ->.
    { destruct Ht as [[j Hj]|Hle]; [cbn in Hj; lia|]. change (total [a]) with (padded a + 0).
      unfold padded, word16. rewrite Hle. lia. }
    destruct (Hstep c a Hc Ha) as (? & ? & ?). eexists. done.
  - apply Forall_cons in Hd as [Ha [Hb Hr]%Forall_cons]. pose proof (word16_bound a b Ha Hb) as Hw.
    destruct (Z.eqb_spec (Zlen (a :: b :: r)) 0); [cbn in *; lia|].
    destruct (Z.eqb_spec (Zlen (a :: b :: r)) 1); [cbn in *; lia|]. cbn [negb].
    rewrite read_ushort_at. cbn [mbind outcome_bind]. rewrite land_ffff, Z.mod_small by done.
    destruct (Hstep c (word16 a b) Hc Hw) as (Hc1 & Hm1 & Hz1).
    replace (Zlen pre + 2) with (Zlen (pre ++ [a; b])) by (rewrite length_app; cbn; lia).
    replace (Zlen (a :: b :: r) - 2) with (Zlen r) by (cbn; lia).
    replace (pre ++ a :: b :: r) with ((pre ++ [a; b]) ++ r) by by rewrite <-app_assoc.
    assert (Ht' : tail_ok r). { destruct Ht as [[j Hj]|?]; [left; exists (j - 1)%nat; cbn in Hj; lia|by right]. }
    destruct (IH k (pre ++ [a; b]) _ Hr Ht' Hc1 ltac:(cbn in Hf; lia)) as (c' & -> & Hb' & Hm' & Hz').
    exists c'. split_and!; [done|lia|lia| |tauto]. rewrite Hm', total_cons2, Zplus_mod, Hm1, <-Zplus_mod. f_equal. lia.
Qed.

Lemma lnot_ffff c : 0 <= c < 65536 -> Z.land (Z.lnot c) 65535 = 65535 - c.
Proof.
  intros Hc. rewrite land_ffff. unfold Z.lnot. symmetry. apply (Z.mod_unique _ _ (-1)); lia.
Qed.

(** The update, for an old sum that is not zero. *)
Lemma AnscReplaceChecksum_mod old new s :
  Forall is_byte old -> Forall is_byte new -> tail_ok old -> tail_ok new -> 0 < s ->
  exists c, AnscReplaceChecksum old (Zlen old) new (Zlen new) (65535 - ones_sum s) = Done (65535 - c) /\
    0 < c < 65536 /\ c mod 65535 = (s - total old + total new) mod 65535.
Proof.
  intros Ho Hn Hto Htn Hs. unfold AnscReplaceChecksum. rewrite !Nat2Z.id.
  destruct (ones_sum_bound s ltac:(lia)) as [Hb [Hm Hz]]. rewrite lnot_ffff by lia.
  replace (65535 - (65535 - ones_sum s)) with (ones_sum s) by lia.
  destruct (replace_loop_spec _ _ old minus_word_ok (S (length old)) [] (ones_sum s) Ho Hto Hb ltac:(lia))
    as (c1 & E1 & Hb1 & Hm1 & Hz1). cbn [app length] in E1. change (Z.of_nat 0) with 0 in E1. rewrite E1.
  cbn [mbind outcome_bind].
  destruct (replace_loop_spec _ _ new plus_word_ok (S (length new)) [] c1 Hn Htn Hb1 ltac:(lia))
    as (c2 & E2 & Hb2 & Hm2 & Hz2). cbn [app length] in E2. change (Z.of_nat 0) with 0 in E2. rewrite E2.
  cbn [mbind outcome_bind]. rewrite lnot_ffff, USHORT_small by lia. exists c2. split_and!; [done|lia|lia|].
  rewrite Hm2, Zplus_mod, Hm1, <-Zplus_mod.
  replace (ones_sum s + -1 * total old + 1 * total new) with (ones_sum s + (total new - total old)) by lia.
  rewrite Zplus_mod, Hm, <-Zplus_mod. f_equal. lia.
Qed.

End reference.

(** ** Bytes of a number *)

Lemma land_byte v k : 0 <= k -> Z.land v (Z.shiftl 255 k) = (v / 2 ^ k) mod 256 * 2 ^ k.
Proof.
  intros Hk. rewrite <-(Z.shiftl_mul_pow2 _ k), <-(Z.shiftr_div_pow2 v k) by done.
  change 256 with (2 ^ 8). rewrite <-(Z.land_ones _ 8) by lia. change (Z.ones 8) with 255.
  apply Z.bits_inj'. intros i Hi. rewrite Z.land_spec. destruct (decide (i < k)) as [Hlt|Hge].
  - rewrite !Z.shiftl_spec_low by done. apply andb_false_r.
  - rewrite !Z.shiftl_spec, Z.land_spec, Z.shiftr_spec by lia. do 2 f_equal. lia.
Qed.

(** The four bytes of a 32-bit number with anything above them. *)
Definition ulong_of (hi b3 b2 b1 b0 : Z) : Z := (((hi * 256 + b3) * 256 + b2) * 256 + b1) * 256 + b0.

Lemma ulong_bytes hi b3 b2 b1 b0 (v := ulong_of hi b3 b2 b1 b0) :
  is_byte b3 -> is_byte b2 -> is_byte b1 -> is_byte b0 ->
  v / 2 ^ 0 mod 256 = b0 /\ v / 2 ^ 8 mod 256 = b1 /\ v / 2 ^ 16 mod 256 = b2 /\ v / 2 ^ 24 mod 256 = b3.
Proof.
  unfold is_byte, v, ulong_of. intros H3 H2 H1 H0.
  assert (Hstep : forall x b, 0 <= b < 256 -> (x * 256 + b) mod 256 = b /\ (x * 256 + b) / 256 = x).
  { intros x b Hb. rewrite Z.add_comm, Z_mod_plus_full, Z_div_plus_full by lia. split; [by apply Z.mod_small|].
    rewrite Z.div_small by done. lia. }
  change (2 ^ 0) with 1. change (2 ^ 8) with 256. change (2 ^ 16) with (256 * 256). change (2 ^ 24) with (256 * 256 * 256).
  rewrite <-!Z.div_div by lia. rewrite Z.div_1_r.
  split_and!; rewrite ?(fun x => proj2 (Hstep x b0 H0)), ?(fun x => proj2 (Hstep x b1 H1)), ?(fun x => proj2 (Hstep x b2 H2));
    by apply Hstep.
Qed.

(** ** Properties *)

(** The three summing routines compute the one's complement sum of the
    16-bit words of their blocks in the byte order of the platform, the last
    word of an odd block padded: the checksum is its complement, the packing
    number the sum itself, the transport checksum the complement for the
    pseudo header and the data together.  The accumulator never overflows 32
    bits and the folding loop ends. *)
Theorem checksums_spec `{Platform} header data (Hh : Forall is_byte header) (Hd : Forall is_byte data) :
  AnscCalculateChecksum data (Zlen data) = Done (65535 - ones_sum (total data)) /\
  AnscGetPackingNumber data (Zlen data) = Done (ones_sum (total data)) /\
  AnscCalculateTransportChecksum header (Zlen header) data (Zlen data) =
    Done (65535 - ones_sum (total data + total header)).
Proof.
  split; [by apply checksum_of_block|].
  destruct (sum_block_spec 2147483648 data 0 0 ltac:(lia) Hd acc_zero) as (c & E & Hc). rewrite Z.add_0_l in Hc.
  pose proof Hc as (Hb & Hs & Hsame). split.
  - pose proof (packing_of_block data [] Hd) as Ep. by rewrite app_nil_r in Ep.
  - unfold AnscCalculateTransportChecksum. rewrite E. cbn [mbind outcome_bind].
    destruct (sum_block_spec (2147483648 + 65536) header c (total data) ltac:(lia) Hh Hc) as (c' & -> & Hc' & Hs' & Hsame').
    cbn [mbind outcome_bind]. rewrite (fold_loop_spec c' (total data + total header)) by (try done; lia).
    cbn [mbind outcome_bind]. rewrite complement; [done|]. by apply ones_sum_bound.
Qed.

(** What the receiver checks: when the checksum of a block with a zero
    checksum field is stored in the field, in the byte order of the platform,
    the checksum of the block is zero. *)
Theorem checksum_verifies `{Platform} pre post
  (Hpre : Forall is_byte pre) (Hpost : Forall is_byte post) (Heven : Nat.Even (length pre)) :
  exists a b, is_byte a /\ is_byte b /\
    AnscCalculateChecksum (pre ++ [0; 0] ++ post) (Zlen (pre ++ [0; 0] ++ post)) = Done (word16 a b) /\
    AnscCalculateChecksum (pre ++ [a; b] ++ post) (Zlen (pre ++ [a; b] ++ post)) = Done 0.
Proof.
  assert (Htot : forall x y, total (pre ++ [x; y] ++ post) = total pre + word16 x y + total post).
  { intros x y. rewrite total_app by done. cbn [app]. rewrite total_cons2. lia. }
  assert (Hbytes : forall x y, is_byte x -> is_byte y -> Forall is_byte (pre ++ [x; y] ++ post)).
  { intros x y Hx Hy. apply Forall_app. split; [done|]. apply Forall_app. split; [|done].
    constructor; [done|]. constructor; [done|]. constructor. }
  set (s := total pre + total post). assert (Hs : 0 <= s) by (pose proof (total_nonneg pre Hpre); pose proof (total_nonneg post Hpost); lia).
  destruct (ones_sum_bound s Hs) as [Hb [Hm Hz]].
  set (ck := 65535 - ones_sum s).
  set (lo := ck mod 256). set (hi := ck / 256).
  assert (Hlo : 0 <= lo < 256) by (apply Z.mod_pos_bound; lia).
  assert (Hck : ck = 256 * hi + lo) by (apply Z.div_mod; lia). assert (Hhi : 0 <= hi < 256) by lia.
  assert (exists a b, is_byte a /\ is_byte b /\ word16 a b = ck) as (a & b & Ha & Hb' & Hw).
  { unfold word16. destruct little_endian; [exists lo, hi|exists hi, lo]; unfold is_byte; split_and!; lia. }
  exists a, b. split; [done|]. split; [done|].
  rewrite (checksum_of_block (pre ++ [0; 0] ++ post)), (checksum_of_block (pre ++ [a; b] ++ post))
    by (apply Hbytes; first [done | by split]).
  rewrite !Htot, Hw. change (word16 0 0) with (word16 0 0). assert (word16 0 0 = 0) as -> by (unfold word16; by destruct little_endian).
  replace (total pre + 0 + total post) with s by lia. split; [done|].
  replace (total pre + ck + total post) with (s + ck) by lia.
  assert (ones_sum (s + ck) = 65535) as ->; [|done].
  symmetry. apply ones_sum_same; [lia|lia|]. split; [|lia].
  unfold ck. rewrite Zplus_mod, <-Hm, <-Zplus_mod. by replace (ones_sum s + (65535 - ones_sum s)) with 65535 by lia.
Qed.

(** C36. [AnscReplaceChecksum] is equivalent to computing the checksum again: when
    a block inside data at an even offset is replaced, updating the old checksum
    gives the checksum of the new data, as long as neither the old nor the new
    data is all zero.  A block of odd length has to be the last one, and the
    platform little endian, since the update does not pad a last byte. *)
Theorem AnscReplaceChecksum_spec `{Platform} pre old new post
  (Hpre : Forall is_byte pre) (Hold : Forall is_byte old) (Hnew : Forall is_byte new) (Hpost : Forall is_byte post)
  (Heven : Nat.Even (length pre))
  (Htail : Nat.Even (length old) /\ Nat.Even (length new) \/ little_endian = true /\ post = [])
  (Hnz : total (pre ++ old ++ post) ≠ 0) (Hnz' : total (pre ++ new ++ post) ≠ 0) :
  (oldChecksum ← AnscCalculateChecksum (pre ++ old ++ post) (Zlen (pre ++ old ++ post));
   AnscReplaceChecksum old (Zlen old) new (Zlen new) oldChecksum) =
  AnscCalculateChecksum (pre ++ new ++ post) (Zlen (pre ++ new ++ post)).
Proof.
  assert (Hsum : forall d, Forall is_byte d -> d = old \/ d = new ->
    Forall is_byte (pre ++ d ++ post) /\ total (pre ++ d ++ post) = total pre + total d + total post /\ tail_ok d).
  { intros d Hd Heq. split; [by rewrite !Forall_app|]. rewrite total_app by done.
    destruct Htail as [[Ho Hn]|[Hle ->]].
    - assert (Nat.Even (length d)) by by destruct Heq; subst. rewrite total_app by done. split; [lia|by left].
    - rewrite app_nil_r. split; [cbn; lia|by right]. }
  destruct (Hsum old Hold (or_introl eq_refl)) as (Hbo & Hto & Hko), (Hsum new Hnew (or_intror eq_refl)) as (Hbn & Htn & Hkn).
  rewrite !checksum_of_block by done. cbn [mbind outcome_bind].
  pose proof (total_nonneg _ Hbo). pose proof (total_nonneg _ Hbn).
  assert (Hpos : 0 < total (pre ++ old ++ post)) by lia.
  destruct (AnscReplaceChecksum_mod old new _ Hold Hnew Hko Hkn Hpos) as (c & -> & Hc & Hm).
  do 2 f_equal. apply ones_sum_same; [lia|lia|]. split; [|lia]. rewrite Hm. f_equal. lia.
Qed.

(** Byte order: [AnscSwapUshort] exchanges the two bytes, [AnscSwapMemory]
    reverses a block, and [AnscSwapUlong] reverses the four low bytes of its
    argument; what a 64-bit [ULONG] holds above them is dropped. *)
Theorem byte_swap_spec `{Platform} hi b3 b2 b1 b0 memory
  (H3 : is_byte b3) (H2 : is_byte b2) (H1 : is_byte b1) (H0 : is_byte b0) :
  AnscSwapUshort (256 * b1 + b0) = 256 * b0 + b1 /\
  AnscSwapUlong (ulong_of hi b3 b2 b1 b0) = ulong_of 0 b0 b1 b2 b3 /\
  AnscSwapMemory memory (Zlen memory) [] = Done (rev memory, []).
Proof.
  split_and!.
  - unfold AnscSwapUshort. destruct (ulong_bytes 0 0 0 b1 b0) as (E0 & E1 & _); try done; try by split.
    replace (ulong_of 0 0 0 b1 b0) with (256 * b1 + b0) in * by (unfold ulong_of; lia).
    change 65280 with (Z.shiftl 255 8). change 255 with (Z.shiftl 255 0) at 2. rewrite !land_byte, E0, E1 by lia.
    rewrite Z.shiftr_div_pow2, Z.shiftl_mul_pow2, Z.div_mul by lia. unfold is_byte in *.
    change (2 ^ 8) with 256. change (2 ^ 0) with 1. rewrite (USHORT_small b1), (USHORT_small (b0 * 1 * 256)), USHORT_small by lia. lia.
  - unfold AnscSwapUlong. destruct (ulong_bytes hi b3 b2 b1 b0) as (E0 & E1 & E2 & E3); try done.
    change 4278190080 with (Z.shiftl 255 24). change 16711680 with (Z.shiftl 255 16).
    change 65280 with (Z.shiftl 255 8). change (Z.land ?v 255) with (Z.land v (Z.shiftl 255 0)).
    rewrite !land_byte, E0, E1, E2, E3 by lia. rewrite !Z.shiftr_div_pow2, !Z.shiftl_mul_pow2 by lia.
    change (2 ^ 24) with (2 ^ 16 * 256). change (2 ^ 16) with 65536. change (2 ^ 8) with 256. change (2 ^ 0) with 1.
    unfold is_byte in *. rewrite (Z.div_mul b3) by lia. replace (b2 * 65536) with (b2 * 256 * 256) by lia.
    rewrite (Z.div_mul (b2 * 256)) by lia.
    rewrite (ULONG_small32 (b1 * 256 * 256)), (ULONG_small32 (b0 * 1 * _)), ULONG_small32 by lia. unfold ulong_of. lia.
  - unfold AnscSwapMemory. cbn [next_alloc negb andb]. rewrite Nat2Z.id, <-(length_rev memory).
    rewrite (for_fill (replicate (length (rev memory)) 0) (rev memory)).
    + cbn [mbind outcome_bind]. rewrite drop_ge, app_nil_r by (rewrite length_replicate; lia).
      pose proof (buf_copy_at [] memory [] (rev memory) 0 eq_refl (eq_sym (length_rev memory))) as E.
      cbn [app] in E. rewrite !app_nil_r in E. by rewrite E.
    + by rewrite length_replicate.
    + intros j c rest Hj _. apply lookup_lt_Some in Hj as Hlt. rewrite length_rev in Hlt.
      rewrite rev_lookup in Hj by done. rewrite length_rev.
      erewrite buf_get_Z; [done|lia|]. by replace (Z.to_nat _) with (length memory - S j)%nat by lia.
Qed.

Theorem byte_swap_spec_witness :
  @AnscSwapUlong lp64 (ulong_of 7 1 2 3 4) = ulong_of 0 4 3 2 1 /\
  @AnscSwapUshort (256 * 3 + 4) = 256 * 4 + 3 /\
  @AnscSwapUlong lp64 (ulong_of 7 1 2 3 4) = ulong_of 0 4 3 2 1 /\
  AnscSwapMemory [1; 2; 3] (Zlen [1; 2; 3]) [] = Done (rev [1; 2; 3], []).
Proof.
  split; [by vm_compute|]. apply (@byte_swap_spec lp64 7 1 2 3 4 [1; 2; 3]); unfold is_byte; lia.
Defined.

Theorem checksums_spec_witness :
  let header := [1; 2; 3] in let data := [69; 0; 0; 115; 255] in
  @AnscCalculateChecksum ilp32 data (Zlen data) = Done (65535 - ones_sum (@total ilp32 data)) /\
  @AnscGetPackingNumber ilp32 data (Zlen data) = Done (ones_sum (@total ilp32 data)) /\
  @AnscCalculateTransportChecksum ilp32 header (Zlen header) data (Zlen data) =
    Done (65535 - ones_sum (@total ilp32 data + @total ilp32 header)).
Proof. cbn zeta. apply (@checksums_spec ilp32); repeat constructor; unfold is_byte; lia. Defined.

Theorem checksum_verifies_witness :
  let pre := [69; 0] in let post := [10; 20; 30] in
  exists a b, is_byte a /\ is_byte b /\
    @AnscCalculateChecksum lp64 (pre ++ [0; 0] ++ post) (Zlen (pre ++ [0; 0] ++ post)) = Done (@word16 lp64 a b) /\
    @AnscCalculateChecksum lp64 (pre ++ [a; b] ++ post) (Zlen (pre ++ [a; b] ++ post)) = Done 0.
Proof.
  cbn zeta. apply (@checksum_verifies lp64 [69; 0] [10; 20; 30]);
    [repeat constructor; unfold is_byte; lia|repeat constructor; unfold is_byte; lia|by exists 1%nat].
Defined.

Theorem AnscReplaceChecksum_spec_witness :
  let pre := [69; 0] in let old := [1; 2] in let new := [3; 4; 5; 6] in let post := [7] in
  (oldChecksum ← @AnscCalculateChecksum lp64 (pre ++ old ++ post) (Zlen (pre ++ old ++ post));
   @AnscReplaceChecksum lp64 old (Zlen old) new (Zlen new) oldChecksum) =
  @AnscCalculateChecksum lp64 (pre ++ new ++ post) (Zlen (pre ++ new ++ post)).
Proof.
  cbn zeta. apply (@AnscReplaceChecksum_spec lp64 [69; 0] [1; 2] [3; 4; 5; 6] [7]);
    try (repeat constructor; unfold is_byte; lia).
  - by exists 1%nat.
  - left. split; [by exists 1%nat|by exists 2%nat].
  - by vm_compute.
  - by vm_compute.
Defined.
