(* ===== verification/Packet.v ===== *)
(** * Packet descriptors ([ansc_packet.c])

    A packet is a queue of buffer descriptors, each of which describes a block
    of bytes in a buffer; descriptors made by breaking another share its buffer
    and keep it alive with a reference count.  This file has the code on a store
    of descriptors and buffers; handles passed to it are not NULL.  Traces
    ([_ANSC_TRACE_PACKET_]) and the locks of the pools are left out. *)

From S2P Require Import Prelude Links Checksum.
Open Scope Z_scope.

(** ** The store *)

(** A pointer to a byte: NULL, what [mmap] returns when it fails, or a place in
    a block of memory.  A pointer computed from one of the former two is taken
    for that one. *)
Inductive place := Null | MapFailed | At (k : positive) (i : Z).
#[export] Instance place_eq_dec : EqDecision place.
Proof. solve_decision. Defined.
Definition place_add (p : place) (n : Z) : place := match p with At k i => At k (i + n) | _ => p end.

(** What [pfnFreeMe] of a buffer points to. *)
Inductive PFN_BDO_FREE_ME := FreeSon | FreeOther (f : Z).
#[export] Instance PFN_BDO_FREE_ME_eq_dec : EqDecision PFN_BDO_FREE_ME.
Proof. solve_decision. Defined.

Record ANSC_BUFFER_DESCRIPTOR := Bdo {
  bOwner : bool;
  bUseMmap : bool;
  Buffer : place;
  BufferSize : Z;
  Offset : Z;
  BlockSize : Z;
  RefCount : Z;
  Reserved1 : Z;
  OsSpecific : list Z;
  bdo_hOwnerObject : option positive;
  bdo_pfnFreeMe : option PFN_BDO_FREE_ME
}.
Definition AnscBdoGetBlock (b : ANSC_BUFFER_DESCRIPTOR) : place := place_add (Buffer b) (Offset b).

(** The pads a copy of a packet takes over, and the two it does not. *)
Record pads := Pads { T2SpecificPad : list Z; Layer2InfoPad : list Z; Layer3InfoPad : list Z; Layer4InfoPad : list Z; ModelsInfoPad : list Z }.
Record ANSC_PACKET_DESCRIPTOR := Pdo {
  FinalStatus : Z;
  Flags : Z;
  bSyncOnly : bool;
  bStealthy : bool;
  bQueuable : bool;
  BdoQueue : list positive;
  CurHeaderBdo : option positive;
  CurHeaderBuffer : place;
  CurHeaderOffset : Z;
  OsSpecificPad : list Z;
  ErrorsInfoPad : list Z;
  InfoPads : pads;
  ErrorCode : Z;
  hPktPassport : option positive;
  hPktSnpuPass : option positive;
  pdo_hOwnerObject : option positive;
  pdo_pfnFreeMe : option Z
}.

Definition ANSC_BDO_OS_SPECIFIC_SIZE : Z := 16.
Definition ANSC_PDO_MAX_HEAD_ROOM : Z := 16.
Definition ANSC_PDO_MAX_TAIL_ROOM : Z := 16.
Definition ANSC_PDO_INFO_PAD_SIZE : Z := 80.
Definition ANSC_PDO_INFO_PAD_SIZE2 : Z := 164.

(** The statics of the file and their values ([user_packet.h]). *)
Definition g_bPdoPoolingEnabled : bool := true.
Definition g_bBdoPoolingEnabled : bool := true.
Definition g_ulMaxPdoPoolSize : Z := 0.
Definition g_ulMaxBdoPoolSize : Z := 0.
Definition g_ulInitPdoPoolSize : Z := g_ulMaxPdoPoolSize / 2.
Definition g_ulInitBdoPoolSize : Z := g_ulMaxBdoPoolSize / 2.
Record pools := Pools {
  g_bPdoPoolInitialized : bool;
  g_bBdoPoolInitialized : bool;
  g_qPdoPoolList : list positive;
  g_qBdoPoolList : list positive
}.

(** Everything the code works on; [w_next] names the next object that is
    allocated, [w_calls] has the calls of free functions of other components:
    the function, the owner and the descriptor. *)
Record world := World {
  w_next : positive;
  w_bdos : gmap positive ANSC_BUFFER_DESCRIPTOR;
  w_pdos : gmap positive ANSC_PACKET_DESCRIPTOR;
  w_bufs : gmap positive (list Z);
  w_pools : pools;
  w_calls : list (Z * option positive * positive);
  w_alloc : alloc_stream
}.
Definition set_bdos (f : gmap positive ANSC_BUFFER_DESCRIPTOR -> gmap positive ANSC_BUFFER_DESCRIPTOR) (w : world) : world :=
  World (w_next w) (f (w_bdos w)) (w_pdos w) (w_bufs w) (w_pools w) (w_calls w) (w_alloc w).
Definition set_pdos (f : gmap positive ANSC_PACKET_DESCRIPTOR -> gmap positive ANSC_PACKET_DESCRIPTOR) (w : world) : world :=
  World (w_next w) (w_bdos w) (f (w_pdos w)) (w_bufs w) (w_pools w) (w_calls w) (w_alloc w).
Definition set_bufs (f : gmap positive (list Z) -> gmap positive (list Z)) (w : world) : world :=
  World (w_next w) (w_bdos w) (w_pdos w) (f (w_bufs w)) (w_pools w) (w_calls w) (w_alloc w).
Definition set_pools (f : pools -> pools) (w : world) : world :=
  World (w_next w) (w_bdos w) (w_pdos w) (w_bufs w) (f (w_pools w)) (w_calls w) (w_alloc w).
Definition add_call (c : Z * option positive * positive) (w : world) : world :=
  World (w_next w) (w_bdos w) (w_pdos w) (w_bufs w) (w_pools w) (w_calls w ++ [c]) (w_alloc w).

Abbreviation KM := (CM world).
Definition modify (f : world -> world) : KM unit := fun w => Done (tt, f w).
Definition the_pools : KM pools := fun w => Done (w_pools w, w).
Definition allocates : KM bool := fun w =>
  let '(ok, a) := next_alloc (w_alloc w) in
  Done (ok, World (w_next w) (w_bdos w) (w_pdos w) (w_bufs w) (w_pools w) (w_calls w) a).
Definition new_id : KM positive := fun w =>
  Done (w_next w, World (Pos.succ (w_next w)) (w_bdos w) (w_pdos w) (w_bufs w) (w_pools w) (w_calls w) (w_alloc w)).

Definition lift_outcome {A} (x : outcome A) : KM A := fun w =>
  match x with Done a => Done (a, w) | Stuck f => Stuck f end.

(** Fields of a descriptor are accessed through the whole descriptor. *)
Definition get_bdo (b : positive) : KM ANSC_BUFFER_DESCRIPTOR := fun w =>
  match w_bdos w !! b with Some x => Done (x, w) | None => Stuck BadAccess end.
Definition put_bdo (b : positive) (x : ANSC_BUFFER_DESCRIPTOR) : KM unit := modify (set_bdos (insert b x)).
Definition get_pdo (p : positive) : KM ANSC_PACKET_DESCRIPTOR := fun w =>
  match w_pdos w !! p with Some x => Done (x, w) | None => Stuck BadAccess end.
Definition put_pdo (p : positive) (x : ANSC_PACKET_DESCRIPTOR) : KM unit := modify (set_pdos (insert p x)).
Definition free_bdo (b : positive) : KM unit := _ ← get_bdo b; modify (set_bdos (delete b)).
Definition free_pdo (p : positive) : KM unit := _ ← get_pdo p; modify (set_pdos (delete p)).

(** A block of [n] zeros, and its release through a pointer to its start. *)
Definition new_block (failed : place) (n : Z) : KM place :=
  ok ← allocates;
  if negb ok then mret failed
  else k ← new_id; _ ← modify (set_bufs (insert k (replicate (Z.to_nat n) 0))); mret (At k 0).
Definition free_block (p : place) : KM unit := fun w =>
  match p with
  | At k 0 => if decide (is_Some (w_bufs w !! k)) then Done (tt, set_bufs (delete k) w) else Stuck BadAccess
  | _ => Stuck BadAccess
  end.

(** The bytes from a pointer to the end of its block; [n] of them; and writing. *)
Definition memory_at (p : place) : KM (list Z) := fun w =>
  match p with
  | Null => Stuck NullDeref
  | MapFailed => Stuck BadAccess
  | At k i => match w_bufs w !! k with
              | None => Stuck BadAccess
              | Some m => if (i <? 0) || (Zlen m <? i) then Stuck OutOfBounds else Done (drop (Z.to_nat i) m, w)
              end
  end.
Definition read_bytes (p : place) (n : Z) : KM (list Z) :=
  if n =? 0 then mret []
  else m ← memory_at p; if Zlen m <? n then cm_fault OutOfBounds else mret (take (Z.to_nat n) m).
Definition write_bytes (p : place) (s : list Z) : KM unit :=
  if bool_decide (s = []) then mret tt
  else _ ← memory_at p;
    match p with
    | At k i => fun w =>
        match buf_copy (default [] (w_bufs w !! k)) i s with
        | Done m => Done (tt, set_bufs (insert k m) w)
        | Stuck f => Stuck f
        end
    | _ => mret tt
    end.
(** [AnscCopyMemory] *)
Definition copy_memory (dst src : place) (n : Z) : KM unit := s ← read_bytes src n; write_bytes dst s.

Section packets.
Context `{Platform}.

(** The bytes between two pointers into one block. *)
Definition place_sub (p q : place) : Z :=
  match p, q with At _ i, At _ j => ULONG (i - j) | _, _ => 0 end.

(** ** Buffer descriptors *)

Definition set_refcount (x : ANSC_BUFFER_DESCRIPTOR) (n : Z) : ANSC_BUFFER_DESCRIPTOR :=
  Bdo (bOwner x) (bUseMmap x) (Buffer x) (BufferSize x) (Offset x) (BlockSize x) n (Reserved1 x) (OsSpecific x)
    (bdo_hOwnerObject x) (bdo_pfnFreeMe x).
Definition set_block (x : ANSC_BUFFER_DESCRIPTOR) (offset size : Z) : ANSC_BUFFER_DESCRIPTOR :=
  Bdo (bOwner x) (bUseMmap x) (Buffer x) (BufferSize x) offset size (RefCount x) (Reserved1 x) (OsSpecific x)
    (bdo_hOwnerObject x) (bdo_pfnFreeMe x).
Definition set_buffer (x : ANSC_BUFFER_DESCRIPTOR) (owner mmap : bool) (p : place) (size offset block : Z) : ANSC_BUFFER_DESCRIPTOR :=
  Bdo owner mmap p size offset block (RefCount x) (Reserved1 x) (OsSpecific x) (bdo_hOwnerObject x) (bdo_pfnFreeMe x).

Definition AnscBdoShrinkLeft (b : positive) (size : Z) : KM unit :=
  x ← get_bdo b; put_bdo b (set_block x (Offset x) (ULONG (BlockSize x - size))).
Definition AnscBdoShrinkRight (b : positive) (size : Z) : KM unit :=
  x ← get_bdo b; put_bdo b (set_block x (ULONG (Offset x + size)) (ULONG (BlockSize x - size))).
Definition AnscBdoExpandLeft (b : positive) (size : Z) : KM unit :=
  x ← get_bdo b; put_bdo b (set_block x (ULONG (Offset x - size)) (ULONG (BlockSize x + size))).
Definition AnscBdoExpandRight (b : positive) (size : Z) : KM unit :=
  x ← get_bdo b; put_bdo b (set_block x (Offset x) (ULONG (BlockSize x + size))).
Definition AnscBdoIncRefCount (b : positive) (n : Z) : KM unit :=
  x ← get_bdo b; put_bdo b (set_refcount x (ULONG (RefCount x + n))).
Definition AnscBdoDecRefCount (b : positive) (n : Z) : KM unit :=
  x ← get_bdo b; put_bdo b (set_refcount x (ULONG (RefCount x - n))).
(** The byte is written before the block grows. *)
Definition AnscBdoAppendChar (b : positive) (c : Z) : KM unit :=
  x ← get_bdo b;
  _ ← write_bytes (place_add (AnscBdoGetBlock x) (BlockSize x)) [c];
  put_bdo b (set_block x (Offset x) (ULONG (BlockSize x + 1))).
Definition AnscBdoAppendData (b : positive) (data : list Z) : KM unit :=
  x ← get_bdo b;
  _ ← put_bdo b (set_block x (Offset x) (ULONG (BlockSize x + Zlen data)));
  write_bytes (place_add (AnscBdoGetBlock x) (BlockSize x)) data.

(** A buffer that was made elsewhere takes the place of the own one, which is
    given to [free] even when it was mapped. *)
Definition AnscBdoAttachBlock (b : positive) (owner : bool) (buffer : place) (size offset block : Z) : KM unit :=
  x ← get_bdo b;
  _ ← (if bOwner x && negb (bool_decide (Buffer x = Null)) then
         if bUseMmap x then cm_fault BadAccess else free_block (Buffer x)
       else mret tt);
  put_bdo b (set_buffer x owner (bUseMmap x) buffer size offset block).

Definition AnscBdoClean (b : positive) : KM unit :=
  x ← get_bdo b;
  put_bdo b (Bdo false (bUseMmap x) (Buffer x) (BufferSize x) (Offset x) (BlockSize x) 0 0 (OsSpecific x) (bdo_hOwnerObject x) None).

Definition push_bdo_pool (b : positive) : KM unit :=
  modify (set_pools (fun P => Pools (g_bPdoPoolInitialized P) (g_bBdoPoolInitialized P) (g_qPdoPoolList P) (b :: g_qBdoPoolList P))).
Definition pop_bdo_pool : KM (option positive) :=
  P ← the_pools;
  _ ← modify (set_pools (fun P => Pools (g_bPdoPoolInitialized P) (g_bBdoPoolInitialized P) (g_qPdoPoolList P) (tail (g_qBdoPoolList P))));
  mret (head (g_qBdoPoolList P)).

Definition AnscReleaseBdo (b : positive) : KM unit :=
  if negb g_bBdoPoolingEnabled then free_bdo b
  else
    P ← the_pools;
    if g_ulMaxBdoPoolSize <=? USHORT (Zlen (g_qBdoPoolList P)) then free_bdo b
    else _ ← AnscBdoClean b; push_bdo_pool b.

Definition AnscAllocateBdo2 (ulBufferSize ulBlockOffset ulBlockSize : Z) : KM (option positive) :=
  ok ← allocates;
  if negb ok then mret None
  else
    b ← new_id;
    let x := Bdo false false Null ulBufferSize ulBlockOffset ulBlockSize 0 0
      (replicate (Z.to_nat ANSC_BDO_OS_SPECIFIC_SIZE) 0) None None in
    _ ← put_bdo b x;
    if 0 <? ulBufferSize then
      p ← new_block Null (ULONG (ulBufferSize + 16));
      _ ← put_bdo b (set_buffer x true (bUseMmap x) p ulBufferSize ulBlockOffset ulBlockSize);
      if decide (p = Null) then _ ← free_bdo b; mret None else mret (Some b)
    else mret (Some b).

(** Descriptors for the pool, until an allocation fails. *)
Fixpoint fill_bdo_pool (n : nat) : KM unit :=
  match n with
  | O => mret tt
  | S n =>
      b ← AnscAllocateBdo2 0 0 0;
      match b with None => mret tt | Some b => _ ← AnscReleaseBdo b; fill_bdo_pool n end
  end.
Definition AnscAcquireBdo : KM (option positive) :=
  P ← the_pools;
  if g_bBdoPoolingEnabled then
    _ ← (if negb (g_bBdoPoolInitialized P) then
           _ ← modify (set_pools (fun P => Pools (g_bPdoPoolInitialized P) (g_bBdoPoolInitialized P) (g_qPdoPoolList P) []));
           _ ← fill_bdo_pool (Z.to_nat g_ulInitBdoPoolSize);
           modify (set_pools (fun P => Pools (g_bPdoPoolInitialized P) true (g_qPdoPoolList P) (g_qBdoPoolList P)))
         else mret tt);
    b ← pop_bdo_pool;
    match b with Some b => mret (Some b) | None => AnscAllocateBdo2 0 0 0 end
  else
    _ ← modify (set_pools (fun P => Pools (g_bPdoPoolInitialized P) true (g_qPdoPoolList P) (g_qBdoPoolList P)));
    AnscAllocateBdo2 0 0 0.

(** A descriptor with a buffer of its own, of zeros, when [ulBufferSize] is not
    zero; [failed] is what the allocator returns when it fails. *)
Definition allocate_bdo (mmap : bool) (failed : place) (ulBufferSize ulBlockOffset ulBlockSize : Z) : KM (option positive) :=
  b ← AnscAcquireBdo;
  match b with
  | None => mret None
  | Some b =>
      x ← get_bdo b;
      let x := set_buffer x (bOwner x) (bUseMmap x) (Buffer x) ulBufferSize ulBlockOffset ulBlockSize in
      _ ← put_bdo b x;
      if 0 <? ulBufferSize then
        p ← new_block failed (ULONG (ulBufferSize + 16));
        _ ← put_bdo b (set_buffer x true mmap p ulBufferSize ulBlockOffset ulBlockSize);
        if decide (p = Null) then _ ← AnscReleaseBdo b; mret None else mret (Some b)
      else mret (Some b)
  end.
Definition AnscAllocateBdo : Z -> Z -> Z -> KM (option positive) := allocate_bdo false Null.
Definition AnscAllocateBdoWithMmap : Z -> Z -> Z -> KM (option positive) := allocate_bdo true MapFailed.

Definition AnscCopyBdo (hBdo : positive) : KM (option positive) :=
  b ← AnscAllocateBdo 0 0 0;
  match b with
  | None => mret None
  | Some b =>
      x ← get_bdo hBdo;
      _ ← put_bdo b (Bdo false (bUseMmap x) (Buffer x) (BufferSize x) (Offset x) (BlockSize x) (RefCount x) (Reserved1 x)
                       (OsSpecific x) None None);
      mret (Some b)
  end.

(** [munmap] refuses the value of a failed [mmap]. *)
Definition free_buffer (x : ANSC_BUFFER_DESCRIPTOR) : KM unit :=
  if bUseMmap x && bool_decide (Buffer x = MapFailed) then mret tt else free_block (Buffer x).

(** A reference is given up; whether it was the last one. *)
Definition drop_reference (b : positive) : KM bool :=
  x ← get_bdo b;
  if 0 <? RefCount x then
    _ ← put_bdo b (set_refcount x (RefCount x - 1));
    mret (RefCount x - 1 <=? 0)
  else mret true.

(** [AnscFreeSonBdo], which calls [AnscFreeBdo] for the parent. *)
Definition free_son (free : positive -> KM ANSC_STATUS) (hParentBdo : option positive) (hSonBdo : positive) : KM ANSC_STATUS :=
  _ ← (if negb g_bBdoPoolingEnabled then free_bdo hSonBdo
       else
         P ← the_pools;
         if g_ulMaxBdoPoolSize <=? USHORT (Zlen (g_qBdoPoolList P)) then free_bdo hSonBdo
         else _ ← AnscBdoClean hSonBdo; push_bdo_pool hSonBdo);
  match hParentBdo with None => cm_fault NullDeref | Some b => free b end.

Fixpoint free_bdo_from (fuel : nat) (hBdo : positive) : KM ANSC_STATUS :=
  match fuel with
  | O => cm_fault Diverge
  | S fuel =>
      last ← drop_reference hBdo;
      if negb last then mret ANSC_STATUS_SUCCESS
      else
        x ← get_bdo hBdo;
        match bdo_pfnFreeMe x with
        | Some FreeSon => _ ← free_son (free_bdo_from fuel) (bdo_hOwnerObject x) hBdo; mret ANSC_STATUS_SUCCESS
        | Some (FreeOther f) => _ ← modify (add_call (f, bdo_hOwnerObject x, hBdo)); mret ANSC_STATUS_SUCCESS
        | None =>
            _ ← (if bOwner x && negb (bool_decide (Buffer x = Null)) then free_buffer x else mret tt);
            _ ← AnscReleaseBdo hBdo;
            mret ANSC_STATUS_SUCCESS
        end
  end.
(** Each call that calls itself has released a descriptor. *)
Definition free_fuel (w : world) : nat := S (size (w_bdos w)).
Definition AnscFreeBdo (hBdo : positive) : KM ANSC_STATUS := fun w => free_bdo_from (free_fuel w) hBdo w.
Definition AnscFreeSonBdo : option positive -> positive -> KM ANSC_STATUS := free_son AnscFreeBdo.

Definition AnscBdoCopyFrom (hBdo : positive) (pDstBuffer : place) (ulCopySize ulOffset : Z) : KM (ANSC_STATUS * Z) :=
  x ← get_bdo hBdo;
  if BlockSize x <=? ulOffset then mret (ANSC_STATUS_BAD_OFFSET, ulCopySize)
  else if ulCopySize =? 0 then mret (ANSC_STATUS_BAD_SIZE, ulCopySize)
  else
    let left := ULONG (BlockSize x - ulOffset) in
    let ulTbcSize := if left <? ulCopySize then left else ulCopySize in
    _ ← copy_memory pDstBuffer (place_add (AnscBdoGetBlock x) ulOffset) ulTbcSize;
    mret (ANSC_STATUS_SUCCESS, ulTbcSize).

(** Two descriptors [b1] and [b2] become the parts of [x] before and behind its
    first [size1] bytes, sons of [owner]. *)
Definition make_sons (x : ANSC_BUFFER_DESCRIPTOR) (owner b1 b2 : positive) (pBreakPoint : place) (size1 : Z) : KM unit :=
  let size2 := ULONG (BlockSize x - size1) in
  x1 ← get_bdo b1;
  _ ← put_bdo b1 (Bdo false (bUseMmap x1) (Buffer x) (ULONG (size1 + Offset x)) (Offset x) size1 0 (Reserved1 x) (OsSpecific x)
                    (Some owner) (Some FreeSon));
  x2 ← get_bdo b2;
  _ ← put_bdo b2 (Bdo false (bUseMmap x2) pBreakPoint size2 0 size2 0 (Reserved1 x) (OsSpecific x)
                    (Some owner) (Some FreeSon));
  AnscBdoIncRefCount owner 2.

(** The status and what is written to the two handles, if anything. *)
Definition AnscBdoBreakAt (hBdo : positive) (ulOffset : Z) : KM (ANSC_STATUS * option (option positive * option positive)) :=
  x ← get_bdo hBdo;
  if BlockSize x <=? ulOffset then mret (ANSC_STATUS_UNAPPLICABLE, None)
  else if ulOffset =? 0 then mret (ANSC_STATUS_SUCCESS, Some (Some hBdo, None))
  else
    h ← AnscAllocateBdo 0 0 0;
    t ← AnscAllocateBdo 0 0 0;
    match h, t with
    | Some h, Some t =>
        _ ← make_sons x hBdo h t (place_add (AnscBdoGetBlock x) ulOffset) ulOffset;
        mret (ANSC_STATUS_SUCCESS, Some (Some h, Some t))
    | _, _ => mret (ANSC_STATUS_RESOURCES, Some (None, None))
    end.

(** ** Packet descriptors *)

Definition set_queue (x : ANSC_PACKET_DESCRIPTOR) (q : list positive) : ANSC_PACKET_DESCRIPTOR :=
  Pdo (FinalStatus x) (Flags x) (bSyncOnly x) (bStealthy x) (bQueuable x) q (CurHeaderBdo x) (CurHeaderBuffer x) (CurHeaderOffset x)
    (OsSpecificPad x) (ErrorsInfoPad x) (InfoPads x) (ErrorCode x) (hPktPassport x) (hPktSnpuPass x) (pdo_hOwnerObject x) (pdo_pfnFreeMe x).
Definition the_queue (p : positive) : KM (list positive) := x ← get_pdo p; mret (BdoQueue x).
Definition change_queue (p : positive) (f : list positive -> list positive) : KM unit :=
  x ← get_pdo p; put_pdo p (set_queue x (f (BdoQueue x))).
Definition AnscPdoAttachBdoAtFront (p b : positive) : KM unit := change_queue p (cons b).
Definition AnscPdoAttachBdoAtBack (p b : positive) : KM unit := change_queue p (fun q => q ++ [b]).
Definition AnscPdoInsertBdoAfter (p b after : positive) : KM unit := change_queue p (linsert_after after b).
Definition AnscPdoInsertBdoBefore (p b before : positive) : KM unit := change_queue p (linsert_before before b).
Definition AnscPdoDetachBdo (p b : positive) : KM unit := change_queue p (lremove b).
Definition AnscPdoResetBdoQueue (p : positive) : KM unit := change_queue p (fun _ => []).
Definition AnscPdoDeleteBdo (p b : positive) : KM ANSC_STATUS := _ ← AnscPdoDetachBdo p b; AnscFreeBdo b.

Definition zero_pads : pads :=
  let z := replicate (Z.to_nat ANSC_PDO_INFO_PAD_SIZE) 0 in
  Pads z z z z (replicate (Z.to_nat ANSC_PDO_INFO_PAD_SIZE2) 0).
Definition zero_pdo : ANSC_PACKET_DESCRIPTOR :=
  let z := replicate (Z.to_nat ANSC_PDO_INFO_PAD_SIZE) 0 in
  Pdo 0 0 false false false [] None Null 0 z z zero_pads 0 None None None None.

(** [sizeof(ANSC_PACKET_DESCRIPTOR)] where every field is aligned to its size:
    fifteen words, one of them the flags, and the pads. *)
Definition PDO_SIZE : Z :=
  let word := ulong_bits / 8 in
  let n := 15 * word + 6 * ANSC_PDO_INFO_PAD_SIZE + ANSC_PDO_INFO_PAD_SIZE2 in
  (n + word - 1) / word * word.

Fixpoint free_bdos (q : list positive) : KM unit :=
  match q with
  | [] => mret tt
  | b :: q => _ ← AnscFreeBdo b; free_bdos q
  end.
Definition AnscPdoCleanBdoQueue (p : positive) : KM unit :=
  q ← the_queue p; _ ← free_bdos q; change_queue p (fun _ => []).

(** A quarter as many unsigned longs as the descriptor has bytes are zeroed. *)
Definition AnscPdoClean (p : positive) : KM unit :=
  _ ← AnscPdoCleanBdoQueue p;
  if PDO_SIZE <? PDO_SIZE / 4 * (ulong_bits / 8) then cm_fault OutOfBounds
  else put_pdo p zero_pdo.

Definition call_free_pdo (f : Z) (p : positive) : KM unit :=
  x ← get_pdo p; modify (add_call (f, pdo_hOwnerObject x, p)).
Definition AnscFreePdo2 (p : positive) : KM ANSC_STATUS :=
  _ ← AnscPdoCleanBdoQueue p;
  x ← get_pdo p;
  _ ← match pdo_pfnFreeMe x with Some f => call_free_pdo f p | None => free_pdo p end;
  mret ANSC_STATUS_SUCCESS.

Definition push_pdo_pool (p : positive) : KM unit :=
  modify (set_pools (fun P => Pools (g_bPdoPoolInitialized P) (g_bBdoPoolInitialized P) (p :: g_qPdoPoolList P) (g_qBdoPoolList P))).
Definition pop_pdo_pool : KM (option positive) :=
  P ← the_pools;
  _ ← modify (set_pools (fun P => Pools (g_bPdoPoolInitialized P) (g_bBdoPoolInitialized P) (tail (g_qPdoPoolList P)) (g_qBdoPoolList P)));
  mret (head (g_qPdoPoolList P)).

(** The function is called with the owner of the cleaned packet. *)
Definition AnscReleasePdo (p : positive) : KM ANSC_STATUS :=
  if negb g_bPdoPoolingEnabled then AnscFreePdo2 p
  else
    x ← get_pdo p;
    match pdo_pfnFreeMe x with
    | Some f => _ ← AnscPdoClean p; _ ← call_free_pdo f p; mret ANSC_STATUS_SUCCESS
    | None =>
        P ← the_pools;
        if g_ulMaxPdoPoolSize <=? USHORT (Zlen (g_qPdoPoolList P)) then
          _ ← AnscFreePdo2 p; mret ANSC_STATUS_SUCCESS
        else _ ← AnscPdoClean p; _ ← push_pdo_pool p; mret ANSC_STATUS_SUCCESS
    end.
Definition AnscFreePdo : positive -> KM ANSC_STATUS := AnscReleasePdo.

Definition AnscAllocatePdo2 : KM (option positive) :=
  ok ← allocates;
  if negb ok then mret None else p ← new_id; _ ← put_pdo p zero_pdo; mret (Some p).
Fixpoint fill_pdo_pool (n : nat) : KM unit :=
  match n with
  | O => mret tt
  | S n =>
      p ← AnscAllocatePdo2;
      match p with None => mret tt | Some p => _ ← AnscReleasePdo p; fill_pdo_pool n end
  end.
Definition AnscAcquirePdo : KM (option positive) :=
  if g_bPdoPoolingEnabled then
    P ← the_pools;
    _ ← (if negb (g_bPdoPoolInitialized P) then
           _ ← modify (set_pools (fun P => Pools (g_bPdoPoolInitialized P) (g_bBdoPoolInitialized P) [] (g_qBdoPoolList P)));
           _ ← fill_pdo_pool (Z.to_nat g_ulInitPdoPoolSize);
           modify (set_pools (fun P => Pools true (g_bBdoPoolInitialized P) (g_qPdoPoolList P) (g_qBdoPoolList P)))
         else mret tt);
    p ← pop_pdo_pool;
    match p with Some p => mret (Some p) | None => AnscAllocatePdo2 end
  else AnscAllocatePdo2.
Definition AnscAllocatePdo : KM (option positive) := AnscAcquirePdo.

(** ** Reading a packet *)

Fixpoint sum_sizes (q : list positive) (ulPacketSize : Z) : KM Z :=
  match q with
  | [] => mret ulPacketSize
  | b :: q => x ← get_bdo b; sum_sizes q (ULONG (ulPacketSize + BlockSize x))
  end.
Definition AnscPdoGetPacketSize (p : positive) : KM Z := q ← the_queue p; sum_sizes q 0.

(** The descriptor that has the byte at an offset, and the offset of its
    block. *)
Fixpoint find_bdo (q : list positive) (ulCurOffset ulOffset : Z) : KM (option (positive * Z)) :=
  match q with
  | [] => mret None
  | b :: q =>
      x ← get_bdo b;
      if ulOffset <? ULONG (ulCurOffset + BlockSize x) then mret (Some (b, ulCurOffset))
      else find_bdo q (ULONG (ulCurOffset + BlockSize x)) ulOffset
  end.
Definition AnscPdoGetBdoByOffset (p : positive) (ulOffset : Z) : KM (option positive) :=
  q ← the_queue p; r ← find_bdo q 0 ulOffset; mret (fst <$> r).
Definition AnscPdoGetBufferByOffset (p : positive) (ulOffset : Z) : KM place :=
  q ← the_queue p;
  r ← find_bdo q 0 ulOffset;
  match r with
  | None => mret Null
  | Some (b, ulCurOffset) => x ← get_bdo b; mret (place_add (AnscBdoGetBlock x) (ULONG (ulOffset - ulCurOffset)))
  end.

(** What the loops over a range of a packet have in common: where the range
    starts in a block, [None] in the blocks in front of it, for which the
    offset moves on.  [found] tells that the range has started. *)
Definition enter_block (found : bool) (ulPacketOffset ulOffset size : Z) : option Z :=
  if found then Some 0
  else if ULONG (ulPacketOffset + size) <=? ulOffset then None
  else Some (ULONG (ulOffset - ulPacketOffset)).

Fixpoint copy_loop (q : list positive) (found : bool) (ulPacketOffset ulOffset : Z) (pDstBuffer : place) (ulLeftSize ulCopiedSize : Z) : KM Z :=
  match q with
  | [] => mret ulCopiedSize
  | b :: q =>
      if ulLeftSize <=? 0 then mret ulCopiedSize
      else
        x ← get_bdo b;
        match enter_block found ulPacketOffset ulOffset (BlockSize x) with
        | None => copy_loop q false (ULONG (ulPacketOffset + BlockSize x)) ulOffset pDstBuffer ulLeftSize ulCopiedSize
        | Some ulBufferOffset =>
            let ulTbcSize := ULONG (BlockSize x - ulBufferOffset) in
            let ulTbcSize := if ulTbcSize <=? ulLeftSize then ulTbcSize else ulLeftSize in
            r ← AnscBdoCopyFrom b (place_add pDstBuffer ulCopiedSize) ulTbcSize ulBufferOffset;
            copy_loop q true ulPacketOffset ulOffset pDstBuffer (ulLeftSize - ulTbcSize) (ULONG (ulCopiedSize + r.2))
        end
  end.
(** The status and [*pulCopySize]. *)
Definition AnscPdoCopyFrom (p : positive) (pDstBuffer : place) (ulCopySize ulOffset : Z) : KM (ANSC_STATUS * Z) :=
  n ← AnscPdoGetPacketSize p;
  if n <? ulOffset then mret (ANSC_STATUS_BAD_OFFSET, ulCopySize)
  else if ulCopySize =? 0 then mret (ANSC_STATUS_BAD_SIZE, ulCopySize)
  else
    q ← the_queue p;
    k ← copy_loop q false 0 ulOffset pDstBuffer ulCopySize 0;
    mret (ANSC_STATUS_SUCCESS, k).

(** [AnscGetPackingNumber] of the bytes at a pointer. *)
Definition packing_number (p : place) (n : Z) : KM Z :=
  if n =? 0 then mret 0
  else m ← memory_at p; lift_outcome (AnscGetPackingNumber m n).
Definition byte_at (p : place) : KM Z :=
  m ← memory_at p; lift_outcome (buf_get m 0).

(** [odd] is the first byte of a word whose second one is in the next block. *)
Fixpoint packing_loop (q : list positive) (found : bool) (ulPacketOffset ulOffset : Z) (odd : option Z) (ulLeftSize ulPackingNumber : Z) : KM Z :=
  match q with
  | [] => mret ulPackingNumber
  | b :: q =>
      if ulLeftSize <=? 0 then mret ulPackingNumber
      else
        x ← get_bdo b;
        match enter_block found ulPacketOffset ulOffset (BlockSize x) with
        | None => packing_loop q false (ULONG (ulPacketOffset + BlockSize x)) ulOffset odd ulLeftSize ulPackingNumber
        | Some ulBufferOffset =>
            if found && (BlockSize x =? 0) then packing_loop q found ulPacketOffset ulOffset odd ulLeftSize ulPackingNumber
            else
              r ← match odd with
                  | None => mret (ulBufferOffset, ulLeftSize, ulPackingNumber)
                  | Some c =>
                      c2 ← byte_at (place_add (AnscBdoGetBlock x) ulBufferOffset);
                      mret (ulBufferOffset + 1, ULONG (ulLeftSize - 2), ULONG (ulPackingNumber + word16 c c2))
                  end;
              let '(ulBufferOffset, ulLeftSize, ulPackingNumber) := r in
              let ulTbcSize := ULONG (BlockSize x - ulBufferOffset) in
              let ulTbcSize := if ulTbcSize <=? ulLeftSize then ulTbcSize else ulLeftSize in
              let ulLeftSize := ulLeftSize - ulTbcSize in
              r ← (if (0 <? ulLeftSize) && negb (ulTbcSize mod 2 =? 0) then
                     c ← byte_at (place_add (AnscBdoGetBlock x) (ulBufferOffset + ulTbcSize - 1));
                     mret (Some c, ulTbcSize - 1, ulLeftSize + 1)
                   else mret (None, ulTbcSize, ulLeftSize));
              let '(odd, ulTbcSize, ulLeftSize) := r in
              c ← packing_number (place_add (AnscBdoGetBlock x) ulBufferOffset) ulTbcSize;
              packing_loop q true ulPacketOffset ulOffset odd ulLeftSize (ULONG (ulPackingNumber + c))
        end
  end.
Definition AnscPdoGetPackingNumber (p : positive) (ulOffset ulSize : Z) : KM Z :=
  n ← AnscPdoGetPacketSize p;
  if n <? ulOffset then mret 0
  else if ulSize =? 0 then mret 0
  else q ← the_queue p; packing_loop q false 0 ulOffset None ulSize 0.

(** Each block is summed by itself. *)
Fixpoint checksum_loop (q : list positive) (found : bool) (ulPacketOffset ulOffset ulLeftSize ulChecksum : Z) : KM Z :=
  match q with
  | [] => mret ulChecksum
  | b :: q =>
      if ulLeftSize <=? 0 then mret ulChecksum
      else
        x ← get_bdo b;
        match enter_block found ulPacketOffset ulOffset (BlockSize x) with
        | None => checksum_loop q false (ULONG (ulPacketOffset + BlockSize x)) ulOffset ulLeftSize ulChecksum
        | Some ulBufferOffset =>
            let ulTbcSize := ULONG (BlockSize x - ulBufferOffset) in
            let ulTbcSize := if ulTbcSize <=? ulLeftSize then ulTbcSize else ulLeftSize in
            c ← packing_number (place_add (AnscBdoGetBlock x) ulBufferOffset) ulTbcSize;
            checksum_loop q true ulPacketOffset ulOffset (ulLeftSize - ulTbcSize) (ULONG (ulChecksum + c))
        end
  end.
Definition AnscPdoCalChecksum (p : positive) (ulOffset ulSize : Z) : KM Z :=
  n ← AnscPdoGetPacketSize p;
  if n <? ulOffset then mret 0
  else if ulSize =? 0 then mret 0
  else
    q ← the_queue p;
    c ← checksum_loop q false 0 ulOffset ulSize 0;
    c ← lift_outcome (fold_loop (S (Z.to_nat ulong_bits)) c);
    mret (USHORT (Z.lnot (USHORT c))).

(** ** Cutting and joining packets *)

Definition pop_bdo (p : positive) : KM (option positive) :=
  q ← the_queue p; _ ← change_queue p tail; mret (head q).
(** The packet loses a descriptor with each round. *)
Fixpoint concatenate_loop (fuel : nat) (p1 p2 : positive) (e : option positive) : KM unit :=
  match e with
  | None => mret tt
  | Some b =>
      match fuel with
      | O => cm_fault Diverge
      | S fuel => e ← pop_bdo p2; _ ← AnscPdoAttachBdoAtBack p1 b; concatenate_loop fuel p1 p2 e
      end
  end.
Definition AnscPdoConcatenate (p1 p2 : positive) : KM ANSC_STATUS :=
  q ← the_queue p2;
  if USHORT (Zlen q) =? 0 then mret ANSC_STATUS_SUCCESS
  else e ← pop_bdo p2; _ ← concatenate_loop (length q) p1 p2 e; mret ANSC_STATUS_SUCCESS.

Fixpoint shrink_left_loop (p : positive) (q : list positive) (found : bool) (ulCurOffset ulLeftSize : Z) : KM unit :=
  match q with
  | [] => mret tt
  | b :: q =>
      if found then
        _ ← AnscPdoDetachBdo p b; _ ← AnscFreeBdo b; shrink_left_loop p q found ulCurOffset ulLeftSize
      else
        x ← get_bdo b;
        let ulEnd := ULONG (ulCurOffset + BlockSize x) in
        if ulEnd <? ulLeftSize then shrink_left_loop p q false ulEnd ulLeftSize
        else if ulEnd =? ulLeftSize then shrink_left_loop p q true ulCurOffset ulLeftSize
        else _ ← AnscBdoShrinkLeft b (ULONG (ulEnd - ulLeftSize)); shrink_left_loop p q true ulCurOffset ulLeftSize
  end.
(** [ulSize] bytes are cut off at the end of the packet. *)
Definition AnscPdoShrinkLeft (p : positive) (ulSize : Z) : KM ANSC_STATUS :=
  ulPacketSize ← AnscPdoGetPacketSize p;
  if ulPacketSize <=? ulSize then mret ANSC_STATUS_UNAPPLICABLE
  else q ← the_queue p; _ ← shrink_left_loop p q false 0 (ulPacketSize - ulSize); mret ANSC_STATUS_SUCCESS.

(** The descriptor the packet starts in, and the offset of its block. *)
Fixpoint shrink_right_loop (p : positive) (q : list positive) (ulCurOffset ulSize : Z) : KM (option (positive * Z)) :=
  match q with
  | [] => mret None
  | b :: q =>
      x ← get_bdo b;
      if ULONG (ulCurOffset + BlockSize x) <=? ulSize then
        _ ← AnscPdoDetachBdo p b; _ ← AnscFreeBdo b;
        shrink_right_loop p q (ULONG (ulCurOffset + BlockSize x)) ulSize
      else mret (Some (b, ulCurOffset))
  end.
(** [ulSize] bytes are cut off at the start of the packet. *)
Definition AnscPdoShrinkRight (p : positive) (ulSize : Z) : KM ANSC_STATUS :=
  q ← the_queue p;
  r ← shrink_right_loop p q 0 ulSize;
  match r with
  | None => mret ANSC_STATUS_BAD_SIZE
  | Some (b, ulCurOffset) => _ ← AnscBdoShrinkRight b (ULONG (ulSize - ulCurOffset)); mret ANSC_STATUS_SUCCESS
  end.

(** The descriptor [b] of a packet is replaced by two sons of [owner]. *)
Definition replace_by_sons (p b : positive) (x : ANSC_BUFFER_DESCRIPTOR) (owner : positive) (pBreakPoint : place) : KM ANSC_STATUS :=
  b1 ← AnscAllocateBdo 0 0 0;
  b2 ← AnscAllocateBdo 0 0 0;
  match b1, b2 with
  | Some b1, Some b2 =>
      _ ← make_sons x owner b1 b2 pBreakPoint (place_sub pBreakPoint (AnscBdoGetBlock x));
      _ ← AnscPdoInsertBdoAfter p b2 b;
      _ ← AnscPdoInsertBdoAfter p b1 b;
      _ ← AnscPdoDetachBdo p b;
      mret ANSC_STATUS_SUCCESS
  | _, _ => mret ANSC_STATUS_RESOURCES
  end.
Definition AnscPdoBreakAt (p : positive) (ulOffset : Z) : KM ANSC_STATUS :=
  pParentBdo ← AnscPdoGetBdoByOffset p ulOffset;
  pBreakPoint ← AnscPdoGetBufferByOffset p ulOffset;
  match pParentBdo with
  | None => mret ANSC_STATUS_UNAPPLICABLE
  | Some b =>
      x ← get_bdo b;
      if decide (pBreakPoint = AnscBdoGetBlock x) then mret ANSC_STATUS_SUCCESS
      else replace_by_sons p b x b pBreakPoint
  end.
Definition AnscPdoBreakAt2 (p : positive) (ulOffset : Z) : KM ANSC_STATUS :=
  pParentBdo ← AnscPdoGetBdoByOffset p ulOffset;
  pBreakPoint ← AnscPdoGetBufferByOffset p ulOffset;
  match pParentBdo with
  | None => mret ANSC_STATUS_UNAPPLICABLE
  | Some b =>
      x ← get_bdo b;
      if decide (pBreakPoint = AnscBdoGetBlock x) then mret ANSC_STATUS_SUCCESS
      else
        match bOwner x, bdo_hOwnerObject x, bdo_pfnFreeMe x with
        | false, Some pGranmaBdo, Some FreeSon =>
            st ← replace_by_sons p b x pGranmaBdo pBreakPoint;
            match st with
            | ANSC_STATUS_SUCCESS => _ ← AnscFreeBdo b; mret ANSC_STATUS_SUCCESS
            | st => mret st
            end
        | _, _, _ => AnscPdoBreakAt p ulOffset
        end
  end.

Fixpoint split_loop (p1 p2 : positive) (q : list positive) (found : bool) (ulCurOffset ulOffset : Z) : KM bool :=
  match q with
  | [] => mret true
  | b :: q =>
      if found then
        _ ← AnscPdoDetachBdo p1 b; _ ← AnscPdoAttachBdoAtBack p2 b; split_loop p1 p2 q found ulCurOffset ulOffset
      else
        x ← get_bdo b;
        let ulEnd := ULONG (ulCurOffset + BlockSize x) in
        if ulEnd <? ulOffset then split_loop p1 p2 q false ulEnd ulOffset
        else if ulEnd =? ulOffset then split_loop p1 p2 q true ulCurOffset ulOffset
        else mret false
  end.
(** The bytes from [ulOffset] on move to the second packet. *)
Definition AnscPdoSplitAt (p1 p2 : positive) (ulOffset : Z) : KM ANSC_STATUS :=
  ulPacketSize ← AnscPdoGetPacketSize p1;
  if ulPacketSize <=? ulOffset then mret ANSC_STATUS_UNAPPLICABLE
  else
    _ ← AnscPdoBreakAt p1 ulOffset;
    q ← the_queue p1;
    ok ← split_loop p1 p2 q false 0 ulOffset;
    if negb ok then mret ANSC_STATUS_UNAPPLICABLE
    else
      h ← AnscPdoGetBdoByOffset p2 0;
      buffer ← AnscPdoGetBufferByOffset p2 0;
      x1 ← get_pdo p1;
      x2 ← get_pdo p2;
      _ ← put_pdo p2 (Pdo (FinalStatus x1) (Flags x1) false (bStealthy x1) (bQueuable x2) (BdoQueue x2) h buffer 0
                        (OsSpecificPad x2) (ErrorsInfoPad x2) (InfoPads x2) (ErrorCode x1) None (hPktSnpuPass x2) None None);
      mret ANSC_STATUS_SUCCESS.

(** ** Copies *)

(** What a new packet takes from the one it is made of. *)
Definition inherit (dst src : ANSC_PACKET_DESCRIPTOR) (q : list positive) (h : option positive) (buffer : place) (offset : Z) : ANSC_PACKET_DESCRIPTOR :=
  Pdo (FinalStatus src) 0 false (bStealthy src) false q h buffer offset (OsSpecificPad dst) (ErrorsInfoPad dst) (InfoPads src)
    (ErrorCode src) None None None None.

Definition AnscCopyPdo (p : positive) : KM (option positive) :=
  d ← AnscAllocatePdo;
  ulPacketSize ← AnscPdoGetPacketSize p;
  match d with
  | None => mret None
  | Some d =>
      r ← (if 0 <? ulPacketSize then
             b ← AnscAllocateBdo (ULONG (ulPacketSize + ANSC_PDO_MAX_HEAD_ROOM + ANSC_PDO_MAX_TAIL_ROOM)) ANSC_PDO_MAX_HEAD_ROOM ulPacketSize;
             match b with
             | None => _ ← AnscFreePdo d; mret None
             | Some b => _ ← AnscPdoAttachBdoAtFront d b; mret (Some (Some b))
             end
           else mret (Some None));
      match r with
      | None => mret None
      | Some b =>
          x ← get_pdo p;
          h ← match b with Some _ => AnscPdoGetBdoByOffset d (CurHeaderOffset x) | None => mret None end;
          buffer ← match b with Some _ => AnscPdoGetBufferByOffset d (CurHeaderOffset x) | None => mret Null end;
          y ← get_pdo d;
          _ ← put_pdo d (inherit y x (BdoQueue y) h buffer (CurHeaderOffset x));
          _ ← match b with
              | Some b => z ← get_bdo b; _ ← AnscPdoCopyFrom p (AnscBdoGetBlock z) ulPacketSize 0; mret tt
              | None => mret tt
              end;
          mret (Some d)
      end
  end.

Definition AnscTransferPdo (p : positive) : KM (option positive) :=
  x ← get_pdo p;
  if bSyncOnly x then AnscCopyPdo p
  else
    d ← AnscAllocatePdo;
    match d with
    | None => mret None
    | Some d =>
        y ← get_pdo d;
        _ ← put_pdo d (inherit y x (BdoQueue x) (CurHeaderBdo x) (CurHeaderBuffer x) (CurHeaderOffset x));
        _ ← put_pdo p (Pdo (FinalStatus x) (Flags x) (bSyncOnly x) (bStealthy x) (bQueuable x) [] None Null 0
                         (OsSpecificPad x) (ErrorsInfoPad x) (InfoPads x) (ErrorCode x) (hPktPassport x) (hPktSnpuPass x)
                         (pdo_hOwnerObject x) (pdo_pfnFreeMe x));
        mret (Some d)
    end.

(** The same without the blocks. *)
Definition AnscClonePdo (p : positive) : KM (option positive) :=
  d ← AnscAllocatePdo;
  match d with
  | None => mret None
  | Some d =>
      x ← get_pdo p;
      y ← get_pdo d;
      _ ← put_pdo d (inherit y x [] None Null 0);
      mret (Some d)
  end.

(** ** The end of the component *)

Fixpoint free_pdos (q : list positive) : KM unit :=
  match q with [] => mret tt | p :: q => _ ← AnscFreePdo2 p; free_pdos q end.
Fixpoint free_bdo_memory (q : list positive) : KM unit :=
  match q with [] => mret tt | b :: q => _ ← free_bdo b; free_bdo_memory q end.
Definition AnscPacketCleanup : KM unit :=
  P ← the_pools;
  _ ← modify (set_pools (fun P => Pools false (g_bBdoPoolInitialized P) [] (g_qBdoPoolList P)));
  _ ← free_pdos (g_qPdoPoolList P);
  P ← the_pools;
  _ ← modify (set_pools (fun P => Pools (g_bPdoPoolInitialized P) false (g_qPdoPoolList P) []));
  free_bdo_memory (g_qBdoPoolList P).
End packets.
