(* ===== verification/PacketMem.v ===== *)
(** * The memory of packets

    The descriptors of a store in which every buffer has one owner, every
    reference count is the number of the descriptors that refer to it, and the
    descriptors without references are those a list names: the blocks of the
    packets and the detached ones.  Releasing one of them, breaking one, and
    making one keep this, and leave the bytes of the others alone. *)

From S2P Require Import Prelude Links Checksum Packet.
Open Scope Z_scope.

(** ** References *)

(** The descriptor whose buffer a descriptor shares. *)
Definition parent (x : ANSC_BUFFER_DESCRIPTOR) : option positive :=
  match bdo_pfnFreeMe x with Some FreeSon => bdo_hOwnerObject x | _ => None end.
Abbreviation bdo_map := (gmap positive ANSC_BUFFER_DESCRIPTOR).
Definition references (m : bdo_map) (b : positive) : Z :=
  Zlen (filter (fun cx => parent cx.2 = Some b) (map_to_list m)).

Lemma references_cons (m : bdo_map) b c x (l : list (positive * ANSC_BUFFER_DESCRIPTOR)) : map_to_list m ≡ₚ (c, x) :: l ->
  references m b = (if decide (parent x = Some b) then 1 else 0) + Zlen (filter (fun cx => parent cx.2 = Some b) l).
Proof.
  intros E. unfold references. rewrite E. case_decide as Hp.
  - rewrite filter_cons_True by done. cbn [length]. lia.
  - by rewrite filter_cons_False.
Qed.
Lemma references_delete (m : bdo_map) b c x : m !! c = Some x ->
  references (delete c m) b = references m b - (if decide (parent x = Some b) then 1 else 0).
Proof.
  intros Hc. rewrite (references_cons m b c x (map_to_list (delete c m))) by by rewrite map_to_list_delete.
  unfold references. lia.
Qed.
Lemma references_insert (m : bdo_map) b c x : m !! c = None ->
  references (<[c:=x]> m) b = references m b + (if decide (parent x = Some b) then 1 else 0).
Proof.
  intros Hc. rewrite (references_cons _ b c x (map_to_list m)) by by apply map_to_list_insert. unfold references. lia.
Qed.
Lemma references_update (m : bdo_map) b c x y : m !! c = Some x -> parent y = parent x -> references (<[c:=y]> m) b = references m b.
Proof.
  intros Hc Hp. rewrite <-insert_delete_eq, references_insert, (references_delete _ _ _ x) by (try done; apply lookup_delete_eq).
  rewrite Hp. lia.
Qed.
Lemma references_nonneg m b : 0 <= references m b.
Proof. unfold references. lia. Qed.
Lemma references_pos m b c x : m !! c = Some x -> parent x = Some b -> 1 <= references m b.
Proof.
  intros Hc Hp. pose proof (references_delete m b c x Hc) as E. rewrite decide_True in E by done.
  pose proof (references_nonneg (delete c m) b). lia.
Qed.
Lemma references_zero m b c x : references m b = 0 -> m !! c = Some x -> parent x ≠ Some b.
Proof. intros E Hc Hp. pose proof (references_pos m b c x Hc Hp). lia. Qed.
Lemma references_none (m : bdo_map) b : (forall c x, m !! c = Some x -> parent x ≠ Some b) -> references m b = 0.
Proof.
  intros Hn. unfold references. rewrite filter_none; [done|]. intros [c x] Hin%elem_of_map_to_list Hp. by eapply Hn.
Qed.

Section memory.
Context `{Platform}.

(** ** Well-formed stores *)

(** The block of a descriptor is inside its buffer. *)
Definition inside (bufs : gmap positive (list Z)) (x : ANSC_BUFFER_DESCRIPTOR) : Prop :=
  0 <= Offset x /\ 0 <= BlockSize x /\
  match Buffer x with
  | Null => BlockSize x = 0
  | MapFailed => False
  | At k i => 0 <= i /\ exists m, bufs !! k = Some m /\ i + Offset x + BlockSize x <= Zlen m
  end.

(** A son shares the buffer of an older descriptor; the others have a buffer of
    their own, or none. *)
Definition kind_ok (m : bdo_map) (b : positive) (x : ANSC_BUFFER_DESCRIPTOR) : Prop :=
  match parent x with
  | Some c => (c < b)%positive /\ bOwner x = false /\
      exists y k i j, m !! c = Some y /\ Buffer x = At k i /\ Buffer y = At k j
  | None => bdo_pfnFreeMe x = None /\ bUseMmap x = false /\
      if bOwner x then exists k, Buffer x = At k 0 else Buffer x = Null
  end.

Record bdo_ok (w : world) (b : positive) (x : ANSC_BUFFER_DESCRIPTOR) : Prop := {
  ok_next : (b < w_next w)%positive;
  ok_count : RefCount x = references (w_bdos w) b;
  ok_inside : inside (w_bufs w) x;
  ok_kind : kind_ok (w_bdos w) b x
}.

(** [L]: the descriptors that somebody holds. *)
Record wf (w : world) (L : list positive) : Prop := {
  wf_nodup : NoDup L;
  wf_leaves : forall b, b ∈ L <-> exists x, w_bdos w !! b = Some x /\ RefCount x = 0;
  wf_each : forall b x, w_bdos w !! b = Some x -> bdo_ok w b x;
  wf_roots : forall b1 b2 x1 x2 k, w_bdos w !! b1 = Some x1 -> w_bdos w !! b2 = Some x2 -> parent x1 = None -> parent x2 = None ->
    Buffer x1 = At k 0 -> Buffer x2 = At k 0 -> b1 = b2;
  wf_bufs : forall k m, w_bufs w !! k = Some m -> (k < w_next w)%positive /\ Zlen m < 2 ^ ulong_bits /\
    exists b x, w_bdos w !! b = Some x /\ parent x = None /\ Buffer x = At k 0
}.

Lemma wf_perm w L L' : L ≡ₚ L' -> wf w L -> wf w L'.
Proof.
  intros E [H1 H2 H3 H4 H5]. split; [by rewrite <-E| |done..]. intros b. rewrite <-E. apply H2.
Qed.

(** A place is used only by the owner of its buffer and what refers to it. *)
Lemma only_user w L b x k d y j : wf w L -> w_bdos w !! b = Some x -> parent x = None -> Buffer x = At k 0 -> RefCount x = 0 ->
  w_bdos w !! d = Some y -> Buffer y = At k j -> d = b.
Proof.
  intros Hw Hb Hp HB Hr. revert y j. induction d as [d IH] using (well_founded_induction (well_founded_ltof _ Pos.to_nat)). intros y j Hd HBy.
  pose proof (ok_kind _ _ _ (wf_each _ _ Hw d y Hd)) as Hk. unfold kind_ok in Hk. destruct (parent y) as [c|] eqn:Ep.
  - destruct Hk as (Hlt & _ & z & k' & i & j' & Hc & E1 & E2). rewrite HBy in E1. injection E1 as <- <-.
    assert (c = b) as -> by (eapply IH; [unfold ltof; lia|done|done]).
    exfalso. apply (references_zero (w_bdos w) b d y); [|done|done].
    by rewrite <-(ok_count _ _ _ (wf_each _ _ Hw b x Hb)).
  - destruct Hk as (_ & _ & Ho). destruct (bOwner y).
    + destruct Ho as [k' E]. rewrite HBy in E. injection E as -> ->. by eapply (wf_roots _ _ Hw).
    + by rewrite HBy in Ho.
Qed.

(** The bytes of a block. *)
Definition bytes_in (bufs : gmap positive (list Z)) (x : ANSC_BUFFER_DESCRIPTOR) : list Z :=
  match Buffer x with
  | At k i => take (Z.to_nat (BlockSize x)) (drop (Z.to_nat (i + Offset x)) (default [] (bufs !! k)))
  | _ => []
  end.
Definition bytes_of (w : world) (b : positive) : list Z :=
  match w_bdos w !! b with Some x => bytes_in (w_bufs w) x | None => [] end.
Definition content (w : world) (q : list positive) : list Z := q ≫= bytes_of w.

Lemma bytes_length bufs x : inside bufs x -> Zlen (bytes_in bufs x) = BlockSize x.
Proof.
  intros (Ho & Hb & Hi). unfold bytes_in. destruct (Buffer x) as [| |k i]; [done|done|].
  destruct Hi as (Hi & m & -> & Hm). cbn [default from_option id]. rewrite length_take, length_drop. lia.
Qed.
Lemma block_fits w L b x : wf w L -> w_bdos w !! b = Some x -> 0 <= BlockSize x < 2 ^ ulong_bits.
Proof.
  intros Hw Hb. pose proof ulong_modulus_pos. destruct (ok_inside _ _ _ (wf_each _ _ Hw b x Hb)) as (Ho & Hb0 & Hi).
  destruct (Buffer x) as [| |k i]; [lia|done|]. destruct Hi as (Hi & m & Hk & Hm). apply (wf_bufs _ _ Hw) in Hk as (_ & Hl & _). lia.
Qed.

(** ** Releasing a descriptor *)

Lemma kind_ok_mono (m m' : bdo_map) b x : kind_ok m b x ->
  (forall c z, parent x = Some c -> m !! c = Some z -> exists z', m' !! c = Some z' /\ Buffer z' = Buffer z) -> kind_ok m' b x.
Proof.
  unfold kind_ok. destruct (parent x) as [c|]; [|done]. intros (Hlt & Ho & z & k & i & j & Hc & E1 & E2) Hm.
  destruct (Hm c z eq_refl Hc) as (z' & Hc' & E). split_and!; [done..|]. exists z', k, i, j. by rewrite E.
Qed.
Lemma inside_mono (bufs bufs' : gmap positive (list Z)) x : inside bufs x -> (forall k i, Buffer x = At k i -> bufs' !! k = bufs !! k) -> inside bufs' x.
Proof. intros (Ho & Hb & Hi) Hm. split_and!; [done..|]. destruct (Buffer x) as [| |k i]; [done..|]. by rewrite (Hm k i). Qed.
Lemma bytes_mono (bufs bufs' : gmap positive (list Z)) x : (forall k i, Buffer x = At k i -> bufs' !! k = bufs !! k) -> bytes_in bufs' x = bytes_in bufs x.
Proof. intros Hm. unfold bytes_in. destruct (Buffer x) as [| |k i]; [done..|]. by rewrite (Hm k i). Qed.

(** What an operation leaves alone besides the descriptors of [L] and their
    bytes. *)
Definition kept (w w' : world) (L : list positive) : Prop :=
  w_next w' = w_next w /\ w_pdos w' = w_pdos w /\ w_pools w' = w_pools w /\ w_calls w' = w_calls w /\ w_alloc w' = w_alloc w /\
  forall c x, c ∈ L -> w_bdos w !! c = Some x -> w_bdos w' !! c = Some x /\ bytes_in (w_bufs w') x = bytes_in (w_bufs w) x.

Lemma kept_trans w1 w2 w3 L L' : (forall c, c ∈ L -> c ∈ L') -> kept w1 w2 L -> kept w2 w3 L' -> kept w1 w3 L.
Proof.
  intros Hs (A1 & A2 & A3 & A4 & A5 & A6) (B1 & B2 & B3 & B4 & B5 & B6). split_and!; try congruence.
  intros c x Hc Hx. destruct (A6 c x Hc Hx) as [Hx2 E2]. destruct (B6 c x (Hs c Hc) Hx2) as [Hx3 E3]. split; [done|congruence].
Qed.
Lemma kept_weaken w w' L L' : (forall c, c ∈ L -> c ∈ L') -> kept w w' L' -> kept w w' L.
Proof. intros Hs (A1 & A2 & A3 & A4 & A5 & A6). split_and!; auto. Qed.
Lemma kept_content w w' L q : wf w L -> kept w w' L -> (forall c, c ∈ q -> c ∈ L) -> content w' q = content w q.
Proof.
  intros Hw (_ & _ & _ & _ & _ & Hk). induction q as [|c q IH]; intros Hq; [done|]. cbn [content mbind list_bind].
  unfold content in IH. rewrite IH by (intros d Hd; apply Hq; by right). f_equal.
  destruct (proj1 (wf_leaves _ _ Hw c) (Hq c ltac:(left))) as (x & Hx & _).
  destruct (Hk c x (Hq c ltac:(left)) Hx) as [Hx' E]. unfold bytes_of. by rewrite Hx, Hx'.
Qed.

Lemma leaf_count w L b x : wf w L -> w_bdos w !! b = Some x -> RefCount x = 0 -> references (w_bdos w) b = 0.
Proof. intros Hw Hb Hr. rewrite <-(ok_count _ _ _ (wf_each _ _ Hw b x Hb)). done. Qed.
Lemma wf_leaf w L b : wf w (b :: L) -> b ∉ L /\ exists x, w_bdos w !! b = Some x /\ RefCount x = 0 /\ bdo_ok w b x /\ references (w_bdos w) b = 0.
Proof.
  intros Hw. split; [by apply NoDup_cons, (wf_nodup _ _ Hw)|].
  destruct (proj1 (wf_leaves _ _ Hw b) ltac:(left)) as (x & Hx & Hr). exists x. split_and!; [done..| |].
  - by apply (wf_each _ _ Hw).
  - by eapply leaf_count.
Qed.

(** A descriptor that owns its buffer, or has none. *)
Definition without_root (w : world) (b : positive) (x : ANSC_BUFFER_DESCRIPTOR) : world :=
  set_bdos (delete b) (match Buffer x with At k _ => set_bufs (delete k) w | _ => w end).
Lemma wf_delete_root w L b x : wf w (b :: L) -> w_bdos w !! b = Some x -> parent x = None ->
  wf (without_root w b x) L /\ kept w (without_root w b x) L.
Proof.
  intros Hw Hb Hp. destruct (wf_leaf _ _ _ Hw) as (Hnb & x' & Hb' & Hr & Hok & Hrefs).
  rewrite Hb in Hb'. injection Hb' as <-. pose proof (ok_kind _ _ _ Hok) as Hk. unfold kind_ok in Hk. rewrite Hp in Hk.
  destruct Hk as (_ & _ & Hown).
  assert (Hbufs : forall d y k i, w_bdos w !! d = Some y -> d ≠ b -> Buffer y = At k i -> w_bufs (without_root w b x) !! k = w_bufs w !! k).
  { intros d y k i Hd Hne HB. unfold without_root. destruct (bOwner x).
    - destruct Hown as [k' E]. rewrite E. cbn. apply lookup_delete_ne. intros ->. apply Hne. by eapply only_user.
    - by rewrite Hown. }
  assert (Hbdos : w_bdos (without_root w b x) = delete b (w_bdos w)) by (unfold without_root; by destruct (Buffer x)).
  assert (Hrest : w_next (without_root w b x) = w_next w) by (unfold without_root; by destruct (Buffer x)).
  split.
  - destruct Hw as [H1 H2 H3 H4 H5]. split.
    + by apply NoDup_cons in H1 as [_ ?].
    + intros d. rewrite Hbdos. split.
      * intros Hd. destruct (proj1 (H2 d) ltac:(by right)) as (y & Hy & Hry). exists y. split; [|done].
        rewrite lookup_delete_ne; [done|]. by intros ->.
      * intros (y & [Hne Hy]%lookup_delete_Some & Hry). assert (d ∈ b :: L) as [->|]%elem_of_cons by (apply H2; eauto); done.
    + intros d y. rewrite Hbdos. intros [Hne Hy]%lookup_delete_Some. destruct (H3 d y Hy) as [O1 O2 O3 O4].
      split; [by rewrite Hrest| | |].
      * rewrite Hbdos, (references_delete _ _ _ x) by done. rewrite decide_False by congruence. lia.
      * eapply inside_mono; [done|]. intros k i E. by eapply Hbufs.
      * eapply kind_ok_mono; [done|]. rewrite Hbdos. intros c z Hpc Hc. exists z. split; [|done].
        rewrite lookup_delete_ne; [done|]. intros <-. exact (references_zero _ _ _ _ Hrefs Hy Hpc).
    + intros b1 b2 x1 x2 k. rewrite Hbdos. intros [_ ?]%lookup_delete_Some [_ ?]%lookup_delete_Some. by eapply H4.
    + intros k m Hkm. assert (Hkm' : w_bufs w !! k = Some m /\ Buffer x ≠ At k 0).
      { unfold without_root in Hkm. destruct (bOwner x).
        - destruct Hown as [k' E]. rewrite E in Hkm. cbn in Hkm. apply lookup_delete_Some in Hkm as [? ?]. rewrite E. split; congruence.
        - rewrite Hown in Hkm. by rewrite Hown. }
      destruct Hkm' as [Hkm' HB]. destruct (H5 k m Hkm') as (Hn & Hl & d & y & Hd & Hpd & HBd).
      split_and!; [by rewrite Hrest|done|]. exists d, y. rewrite Hbdos, lookup_delete_ne by (intros <-; congruence). done.
  - split_and!; try (unfold without_root; by destruct (Buffer x)). intros c y Hc Hy.
    assert (Hne : c ≠ b) by (by intros ->). split; [by rewrite Hbdos, lookup_delete_ne|].
    apply bytes_mono. intros k i E. by eapply Hbufs.
Qed.

(** A son: its parent has a reference less, and is a leaf when that was the
    last one. *)
Definition without_son (w : world) (b c : positive) (z : ANSC_BUFFER_DESCRIPTOR) : world :=
  set_bdos (fun m => <[c:=set_refcount z (RefCount z - 1)]> (delete b m)) w.
Lemma wf_delete_son w L b x c : wf w (b :: L) -> w_bdos w !! b = Some x -> parent x = Some c ->
  exists z, w_bdos w !! c = Some z /\ 1 <= RefCount z /\ c ≠ b /\
    wf (without_son w b c z) (if decide (RefCount z = 1) then c :: L else L) /\ kept w (without_son w b c z) L.
Proof.
  intros Hw Hb Hp. destruct (wf_leaf _ _ _ Hw) as (Hnb & x' & Hb' & Hr & Hok & Hrefs).
  rewrite Hb in Hb'. injection Hb' as <-. pose proof (ok_kind _ _ _ Hok) as Hk. unfold kind_ok in Hk. rewrite Hp in Hk.
  destruct Hk as (Hlt & _ & z & k & i & j & Hc & _). exists z. assert (Hcb : c ≠ b) by lia.
  assert (Hrz : 1 <= RefCount z) by (rewrite (ok_count _ _ _ (wf_each _ _ Hw c z Hc)); exact (references_pos _ _ _ _ Hb Hp)).
  assert (HcL : c ∉ L).
  { intros Hin. destruct (proj1 (wf_leaves _ _ Hw c) ltac:(by right)) as (z' & Hz' & Hrz'). rewrite Hc in Hz'. injection Hz' as <-. lia. }
  set (z' := set_refcount z (RefCount z - 1)). set (m' := <[c:=z']> (delete b (w_bdos w))).
  assert (Hlk : forall d y, m' !! d = Some y -> exists y0, w_bdos w !! d = Some y0 /\ d ≠ b /\ Buffer y = Buffer y0 /\ inside (w_bufs w) y /\
    parent y = parent y0 /\ kind_ok (w_bdos w) d y /\ RefCount y = RefCount y0 - (if decide (d = c) then 1 else 0)).
  { intros d y Hd. unfold m' in Hd. apply lookup_insert_Some in Hd as [[<- <-]|[Hne [Hne' Hd]%lookup_delete_Some]].
    - exists z. destruct (wf_each _ _ Hw c z Hc) as [O1 O2 O3 O4]. split_and!; try done. rewrite decide_True by done. unfold z'. cbn [set_refcount RefCount]. lia.
    - exists y. destruct (wf_each _ _ Hw d y Hd) as [O1 O2 O3 O4]. split_and!; try done. rewrite decide_False by congruence. lia. }
  assert (Hlk2 : forall d y0, w_bdos w !! d = Some y0 -> d ≠ b -> exists y, m' !! d = Some y /\ Buffer y = Buffer y0 /\ parent y = parent y0 /\
    RefCount y = RefCount y0 - (if decide (d = c) then 1 else 0)).
  { intros d y0 Hd Hne. unfold m'. destruct (decide (d = c)) as [->|Hdc].
    - rewrite Hc in Hd. injection Hd as <-. exists z'. rewrite lookup_insert_eq. done.
    - exists y0. rewrite lookup_insert_ne, lookup_delete_ne by congruence. split_and!; [done..|lia]. }
  split_and!; [done..| |].
  - split.
    + pose proof (wf_nodup _ _ Hw) as [_ ?]%NoDup_cons. case_decide; [by constructor|done].
    + intros d. change (w_bdos (without_son w b c z)) with m'. split.
      * intros Hd. assert (d = c /\ RefCount z = 1 \/ d ∈ L) as [[-> E]|HdL] by (case_decide; [apply elem_of_cons in Hd|]; tauto).
        -- exists z'. unfold m'. rewrite lookup_insert_eq. split; [done|]. unfold z'. cbn [set_refcount RefCount]. lia.
        -- destruct (proj1 (wf_leaves _ _ Hw d) ltac:(by right)) as (y0 & Hy & Hry).
           destruct (Hlk2 d y0 Hy) as (y & Hy' & _ & _ & E); [by intros ->|]. exists y. split; [done|].
           rewrite decide_False in E by (by intros ->). lia.
      * intros (y & Hy & Hry). destruct (Hlk d y Hy) as (y0 & Hy0 & Hne & _ & _ & _ & _ & E). rewrite Hry in E.
        destruct (decide (d = c)) as [->|Hdc].
        -- rewrite Hc in Hy0. injection Hy0 as <-. rewrite decide_True by lia. left.
        -- assert (d ∈ b :: L) as [->|?]%elem_of_cons by (apply (wf_leaves _ _ Hw); exists y0; split; [done|lia]); [done|].
           case_decide; [by right|done].
    + intros d y. change (w_bdos (without_son w b c z)) with m'. intros Hy. destruct (Hlk d y Hy) as (y0 & Hy0 & Hne & _ & Hin & Hpar & Hkd & E).
      destruct (wf_each _ _ Hw d y0 Hy0) as [O1 O2 O3 O4]. split; [done| |done|].
      * change (w_bdos (without_son w b c z)) with m'. unfold m'. rewrite (references_update _ d c z z') by (try done; by rewrite lookup_delete_ne by congruence).
        rewrite (references_delete _ _ _ x), E, O2, Hp by done. do 2 case_decide; congruence.
      * change (w_bdos (without_son w b c z)) with m'. eapply kind_ok_mono; [done|]. intros c' z1 Hpc Hz1. destruct (Hlk2 c' z1 Hz1) as (z2 & Hz2 & E2 & _); [|by eauto].
        intros ->. refine (references_zero _ _ _ _ Hrefs Hy0 _). congruence.
    + intros b1 b2 x1 x2 k1. change (w_bdos (without_son w b c z)) with m'. intros (y1 & ? & _ & -> & _ & -> & _)%Hlk (y2 & ? & _ & -> & _ & -> & _)%Hlk.
      by apply (wf_roots _ _ Hw).
    + intros k1 m1 Hk1. destruct (wf_bufs _ _ Hw k1 m1 Hk1) as (Hn & Hl & d & y0 & Hd & Hpd & HBd). split_and!; [done..|].
      destruct (Hlk2 d y0 Hd) as (y & Hy & E1 & E2 & _); [intros ->; congruence|]. exists d, y. by rewrite E1, E2.
  - split_and!; [done..|]. intros d y Hd Hy. cbn. split; [|done]. rewrite lookup_insert_ne, lookup_delete_ne by congruence. done.
Qed.

Lemma get_bdo_Done w b x : w_bdos w !! b = Some x -> get_bdo b w = Done (x, w).
Proof. intros E. unfold get_bdo. by rewrite E. Qed.
Lemma get_pdo_Done w p x : w_pdos w !! p = Some x -> get_pdo p w = Done (x, w).
Proof. intros E. unfold get_pdo. by rewrite E. Qed.
Lemma free_bdo_Done w b x : w_bdos w !! b = Some x -> free_bdo b w = Done (tt, set_bdos (delete b) w).
Proof. intros E. unfold free_bdo. by rewrite (CM_bind_Done _ _ _ _ _ (get_bdo_Done _ _ _ E)). Qed.
Lemma CM_bind_eq {A B} (m : KM A) (k : A -> KM B) w r : m w = r ->
  (m ≫= k) w = match r with Done (a, w') => k a w' | Stuck f => Stuck f end.
Proof. by intros <-. Qed.

Lemma put_bdo_bind {A} b x (k : unit -> KM A) w : (put_bdo b x ≫= k) w = k tt (set_bdos (insert b x) w).
Proof. done. Qed.
Lemma put_pdo_bind {A} p x (k : unit -> KM A) w : (put_pdo p x ≫= k) w = k tt (set_pdos (insert p x) w).
Proof. done. Qed.

(** The pool takes nothing. *)
Lemma pool_full n : (g_ulMaxBdoPoolSize <=? USHORT n) = true.
Proof. apply Z.leb_le, USHORT_bound. Qed.
Lemma AnscReleaseBdo_free b w : AnscReleaseBdo b w = free_bdo b w.
Proof. unfold AnscReleaseBdo. cbn [g_bBdoPoolingEnabled negb]. unfold mbind, CM_bind at 1, the_pools. by rewrite pool_full. Qed.

(** The last reference is given up as if there were none. *)
Lemma free_last fuel b w x : w_bdos w !! b = Some x -> RefCount x = 1 ->
  free_bdo_from (S fuel) b w = free_bdo_from (S fuel) b (set_bdos (insert b (set_refcount x 0)) w).
Proof.
  intros Hb Hr. cbn [free_bdo_from]. unfold drop_reference.
  rewrite (CM_bind_eq _ _ w (Done (true, set_bdos (insert b (set_refcount x 0)) w))).
  - symmetry. rewrite (CM_bind_eq _ _ _ (Done (true, set_bdos (insert b (set_refcount x 0)) w))); [done|].
    by rewrite (CM_bind_Done _ _ _ _ _ (get_bdo_Done _ b (set_refcount x 0) (lookup_insert_eq _ _ _))).
  - rewrite (CM_bind_Done _ _ _ _ _ (get_bdo_Done _ _ _ Hb)). by rewrite Hr.
Qed.
Lemma free_more fuel b w x : w_bdos w !! b = Some x -> 1 < RefCount x ->
  free_bdo_from (S fuel) b w = Done (ANSC_STATUS_SUCCESS, set_bdos (insert b (set_refcount x (RefCount x - 1))) w).
Proof.
  intros Hb Hr. cbn [free_bdo_from]. unfold drop_reference.
  rewrite (CM_bind_eq _ _ w (Done (false, set_bdos (insert b (set_refcount x (RefCount x - 1))) w))); [done|].
  rewrite (CM_bind_Done _ _ _ _ _ (get_bdo_Done _ _ _ Hb)). rewrite (proj2 (Z.ltb_lt 0 _)) by lia.
  unfold mbind, CM_bind, put_bdo, modify, mret, CM_ret. by rewrite (proj2 (Z.leb_gt _ _)) by lia.
Qed.

(** Releasing a descriptor that somebody holds, and with it those that only it
    referred to. *)
Lemma free_leaf fuel : forall w L b, wf w (b :: L) -> (size (w_bdos w) < fuel)%nat ->
  exists w', free_bdo_from fuel b w = Done (ANSC_STATUS_SUCCESS, w') /\ wf w' L /\ kept w w' L.
Proof.
  induction fuel as [|fuel IH]; intros w L b Hw Hf; [lia|].
  destruct (wf_leaf _ _ _ Hw) as (Hnb & x & Hb & Hr & Hok & Hrefs). cbn [free_bdo_from].
  rewrite (CM_bind_eq _ _ w (Done (true, w))) by (unfold drop_reference; rewrite (CM_bind_Done _ _ _ _ _ (get_bdo_Done _ _ _ Hb)), Hr; done).
  cbn [negb]. rewrite (CM_bind_Done _ _ _ _ _ (get_bdo_Done _ _ _ Hb)).
  destruct (parent x) as [c|] eqn:Hp.
  - destruct (wf_delete_son _ _ _ _ _ Hw Hb Hp) as (z & Hc & Hrz & Hne & Hw2 & Hk2).
    assert (bdo_pfnFreeMe x = Some FreeSon /\ bdo_hOwnerObject x = Some c) as [-> ->].
    { revert Hp. unfold parent. by destruct (bdo_pfnFreeMe x) as [[]|]. }
    assert (Hc1 : w_bdos (set_bdos (delete b) w) !! c = Some z) by (cbn; by rewrite lookup_delete_ne).
    assert (Hsize : size (w_bdos w) = S (size (delete b (w_bdos w)))).
    { rewrite map_size_delete, Hb. assert (size (w_bdos w) ≠ 0%nat); [|lia]. intros E%map_size_empty_inv. by rewrite E in Hb. }
    assert (Hsize2 : size (w_bdos (without_son w b c z)) = size (delete b (w_bdos w))).
    { cbn. rewrite map_size_insert. cbn in Hc1. by rewrite Hc1. }
    assert (Hson : free_son (free_bdo_from fuel) (Some c) b w = free_bdo_from fuel c (set_bdos (delete b) w)).
    { unfold free_son. cbn [g_bBdoPoolingEnabled negb]. rewrite (CM_bind_eq _ _ w (Done (tt, set_bdos (delete b) w))); [done|].
      unfold mbind, CM_bind at 1, the_pools. rewrite pool_full. by eapply free_bdo_Done. }
    destruct fuel as [|fuel]; [lia|].
    destruct (decide (RefCount z = 1)) as [E|E].
    + destruct (IH (without_son w b c z) L c Hw2 ltac:(lia)) as (w' & E' & Hw' & Hk').
      exists w'. split_and!; [|done|by eapply kept_trans]. rewrite (CM_bind_eq _ _ w (Done (ANSC_STATUS_SUCCESS, w'))); [done|].
      rewrite Hson, (free_last _ _ _ z) by done. rewrite <-E'. f_equal. unfold without_son. by rewrite E.
    + exists (without_son w b c z). split_and!; [|done..]. rewrite (CM_bind_eq _ _ w (Done (ANSC_STATUS_SUCCESS, without_son w b c z))); [done|].
      by rewrite Hson, (free_more _ _ _ z) by (try done; lia).
  - destruct (wf_delete_root _ _ _ _ Hw Hb Hp) as [Hw2 Hk2]. pose proof (ok_kind _ _ _ Hok) as Hk. unfold kind_ok in Hk. rewrite Hp in Hk.
    destruct Hk as (Hpfn & Hmm & Hown). exists (without_root w b x). split_and!; [|done..]. rewrite Hpfn.
    rewrite (CM_bind_eq _ _ w (Done (tt, match Buffer x with At k _ => set_bufs (delete k) w | _ => w end))).
    + rewrite (CM_bind_eq _ _ _ (Done (tt, without_root w b x))); [done|]. rewrite AnscReleaseBdo_free. unfold without_root.
      destruct (Buffer x); by eapply free_bdo_Done.
    + destruct (bOwner x).
      * destruct Hown as [k HB]. pose proof (ok_inside _ _ _ Hok) as (_ & _ & Hi). rewrite HB in Hi |- *. destruct Hi as (_ & m & Hkm & _).
        rewrite bool_decide_false by done. cbn [andb negb]. unfold free_buffer. rewrite Hmm. cbn [andb]. rewrite HB. cbn. rewrite decide_True by eauto. done.
      * by rewrite Hown.
Qed.

Lemma AnscFreeBdo_spec w L b : wf w (b :: L) -> exists w', AnscFreeBdo b w = Done (ANSC_STATUS_SUCCESS, w') /\ wf w' L /\ kept w w' L.
Proof. intros Hw. apply free_leaf; [done|unfold free_fuel; lia]. Qed.
Lemma free_bdos_spec q : forall w L, wf w (q ++ L) -> exists w', free_bdos q w = Done (tt, w') /\ wf w' L /\ kept w w' L.
Proof.
  induction q as [|b q IH]; intros w L Hw; [exists w; split_and!; try done|].
  destruct (AnscFreeBdo_spec w (q ++ L) b Hw) as (w1 & E1 & Hw1 & Hk1). destruct (IH w1 L Hw1) as (w2 & E2 & Hw2 & Hk2).
  exists w2. cbn [free_bdos]. rewrite (CM_bind_Done _ _ _ _ _ E1). split_and!; [done..|].
  eapply kept_trans; [|eapply kept_weaken; [|exact Hk1]|exact Hk2]; [done|]. intros c Hc. apply elem_of_app. by right.
Qed.

(** ** Making descriptors *)

Definition fresh_bdo (size offset block : Z) : ANSC_BUFFER_DESCRIPTOR :=
  Bdo false false Null size offset block 0 0 (replicate (Z.to_nat ANSC_BDO_OS_SPECIFIC_SIZE) 0) None None.
Definition bdo_pool_open (P : pools) : pools := Pools (g_bPdoPoolInitialized P) true (g_qPdoPoolList P) [].
(** The world after a descriptor without a buffer, and after one with a buffer
    of its own, was made. *)
Definition with_bdo (w : world) (size offset block : Z) : world :=
  World (Pos.succ (w_next w)) (<[w_next w := fresh_bdo size offset block]> (w_bdos w)) (w_pdos w) (w_bufs w) (bdo_pool_open (w_pools w))
    (w_calls w) [].
Definition with_buffer (w : world) (size offset block : Z) : world :=
  World (Pos.succ (Pos.succ (w_next w)))
    (<[w_next w := set_buffer (fresh_bdo 0 0 0) true false (At (Pos.succ (w_next w)) 0) size offset block]> (w_bdos w))
    (w_pdos w) (<[Pos.succ (w_next w) := replicate (Z.to_nat (ULONG (size + 16))) 0]> (w_bufs w)) (bdo_pool_open (w_pools w)) (w_calls w) [].

Definition idle (w : world) : Prop := w_alloc w = [] /\ g_qPdoPoolList (w_pools w) = [] /\ g_qBdoPoolList (w_pools w) = [].

Lemma AnscAcquireBdo_fresh w : idle w -> AnscAcquireBdo w = Done (Some (w_next w), with_bdo w 0 0 0).
Proof.
  destruct w as [n bd pd bu [ip ib lp lb] cs a]. intros (Ha & Hp & Hb). cbn in Ha, Hp, Hb. subst. unfold AnscAcquireBdo.
  cbn [g_bBdoPoolingEnabled]. unfold mbind, CM_bind at 1, the_pools. cbn [w_pools g_bBdoPoolInitialized]. by destruct ib.
Qed.
Lemma AnscAllocateBdo_fresh w size offset block : idle w ->
  AnscAllocateBdo size offset block w =
  Done (Some (w_next w), if 0 <? size then with_buffer w size offset block else with_bdo w size offset block).
Proof.
  intros Hi. unfold AnscAllocateBdo, allocate_bdo. rewrite (CM_bind_Done _ _ _ _ _ (AnscAcquireBdo_fresh w Hi)).
  assert (E : w_bdos (with_bdo w 0 0 0) !! w_next w = Some (fresh_bdo 0 0 0)) by apply lookup_insert_eq.
  rewrite (CM_bind_Done _ _ _ _ _ (get_bdo_Done _ _ _ E)). unfold put_bdo, modify, mbind, CM_bind.
  destruct (0 <? size) eqn:Es; [unfold new_block, allocates, new_id, mbind, CM_bind|]; cbn.
  - unfold with_buffer, set_bdos. cbn. by rewrite !insert_insert_eq.
  - unfold with_bdo, set_bdos. cbn. by rewrite !insert_insert_eq.
Qed.

(** Two sons of a descriptor take its place among those that are held. *)
Definition with_sons (w : world) (x : ANSC_BUFFER_DESCRIPTOR) (owner : positive) (z : ANSC_BUFFER_DESCRIPTOR) (n : Z) : world :=
  let b1 := w_next w in
  let b2 := Pos.succ b1 in
  let son p size offset block := Bdo false false p size offset block 0 (Reserved1 x) (OsSpecific x) (Some owner) (Some FreeSon) in
  World (Pos.succ b2)
    (<[owner := set_refcount z (ULONG (RefCount z + 2))]>
      (<[b2 := son (place_add (AnscBdoGetBlock x) n) (ULONG (BlockSize x - n)) 0 (ULONG (BlockSize x - n))]>
        (<[b1 := son (Buffer x) (ULONG (n + Offset x)) (Offset x) n]> (w_bdos w))))
    (w_pdos w) (w_bufs w) (bdo_pool_open (bdo_pool_open (w_pools w))) (w_calls w) [].

Lemma make_sons_eq w x owner z n : idle w -> w_bdos w !! owner = Some z -> (owner < w_next w)%positive ->
  (_ ← AnscAllocateBdo 0 0 0; _ ← AnscAllocateBdo 0 0 0;
   make_sons x owner (w_next w) (Pos.succ (w_next w)) (place_add (AnscBdoGetBlock x) n) n) w = Done (tt, with_sons w x owner z n).
Proof.
  intros Hi Ho Hlt. rewrite (CM_bind_Done _ _ _ _ _ (AnscAllocateBdo_fresh w 0 0 0 Hi)). cbn [Z.ltb Z.compare].
  assert (Hi2 : idle (with_bdo w 0 0 0)) by (destruct Hi as (?&?&?); by split_and!).
  rewrite (CM_bind_Done _ _ _ _ _ (AnscAllocateBdo_fresh _ 0 0 0 Hi2)). cbn [Z.ltb Z.compare]. set (w2 := with_bdo (with_bdo w 0 0 0) 0 0 0).
  unfold make_sons. assert (H1 : w_bdos w2 !! w_next w = Some (fresh_bdo 0 0 0)).
  { cbn. rewrite lookup_insert_ne by lia. apply lookup_insert_eq. }
  rewrite (CM_bind_Done _ _ _ _ _ (get_bdo_Done _ _ _ H1)). rewrite put_bdo_bind.
  match goal with |- context [set_bdos ?f w2] => set (w3 := set_bdos f w2) end. assert (H2 : w_bdos w3 !! Pos.succ (w_next w) = Some (fresh_bdo 0 0 0)).
  { cbn. rewrite lookup_insert_ne by lia. apply lookup_insert_eq. }
  rewrite (CM_bind_Done _ _ _ _ _ (get_bdo_Done _ _ _ H2)). rewrite put_bdo_bind.
  match goal with |- context [set_bdos ?f w3] => set (w4 := set_bdos f w3) end. assert (H3 : w_bdos w4 !! owner = Some z).
  { cbn. by rewrite !lookup_insert_ne by lia. }
  unfold AnscBdoIncRefCount. rewrite (CM_bind_Done _ _ _ _ _ (get_bdo_Done _ _ _ H3)). unfold put_bdo, modify. do 2 f_equal.
  unfold with_sons, w4, w3, w2, set_bdos, with_bdo. cbn. f_equal. f_equal.
  apply map_eq. intros d. rewrite !lookup_insert. repeat case_decide; congruence.
Qed.

(** The members of a list whose blocks are untouched. *)
Definition same_blocks (w w' : world) (L : list positive) : Prop :=
  forall c, c ∈ L -> bytes_of w' c = bytes_of w c /\ is_Some (w_bdos w' !! c).

(** A new son of a descriptor, which is no leaf then. *)
Definition add_son (w : world) (y : ANSC_BUFFER_DESCRIPTOR) (owner : positive) (z : ANSC_BUFFER_DESCRIPTOR) : world :=
  World (Pos.succ (w_next w)) (<[owner := set_refcount z (RefCount z + 1)]> (<[w_next w := y]> (w_bdos w))) (w_pdos w) (w_bufs w)
    (w_pools w) (w_calls w) (w_alloc w).

Section son.
Variables (w : world) (L : list positive) (owner : positive) (z y : ANSC_BUFFER_DESCRIPTOR) (k : positive) (i j : Z).
Hypotheses (Hw : wf w L) (Ho : w_bdos w !! owner = Some z) (HBz : Buffer z = At k j) (HBy : Buffer y = At k i)
  (Hp : parent y = Some owner) (Hown : bOwner y = false) (Hr : RefCount y = 0) (Hin : inside (w_bufs w) y).
Let s := w_next w.
Let z' := set_refcount z (RefCount z + 1).
Let w' := add_son w y owner z.

Lemma son_fresh d x : w_bdos w !! d = Some x -> (d < s)%positive.
Proof. intros Hd. exact (ok_next _ _ _ (wf_each _ _ Hw d x Hd)). Qed.
Lemma son_lookup d x : w_bdos w' !! d = Some x <->
  d = s /\ x = y \/ d = owner /\ x = z' \/ d ≠ owner /\ w_bdos w !! d = Some x.
Proof.
  pose proof (son_fresh _ _ Ho) as Hlt. cbn. split.
  - intros [[<- <-]|[Hd [[<- <-]|[Hd2 Hx]]%lookup_insert_Some]]%lookup_insert_Some; auto.
  - intros [[-> ->]|[[-> ->]|[Hd Hx]]].
    + rewrite lookup_insert_ne by lia. apply lookup_insert_eq.
    + apply lookup_insert_eq.
    + pose proof (son_fresh _ _ Hx). rewrite !lookup_insert_ne by lia. done.
Qed.
Lemma son_new : w_bdos w !! s = None.
Proof. destruct (w_bdos w !! s) eqn:E; [|done]. apply son_fresh in E. lia. Qed.
Lemma son_references d : references (w_bdos w') d = references (w_bdos w) d + (if decide (owner = d) then 1 else 0).
Proof.
  pose proof (son_fresh _ _ Ho). cbn. rewrite (references_update _ d owner z) by (try done; by rewrite lookup_insert_ne by lia).
  rewrite references_insert by apply son_new. rewrite Hp. by repeat case_decide; congruence.
Qed.
Lemma son_kind d x : (d < s)%positive -> kind_ok (w_bdos w) d x -> kind_ok (w_bdos w') d x.
Proof.
  intros Hd Hk. eapply kind_ok_mono; [exact Hk|]. intros c zc Hpc Hc. destruct (decide (c = owner)) as [->|Hne].
  - exists z'. split; [apply son_lookup; auto|]. rewrite Ho in Hc. by injection Hc as <-.
  - exists zc. split; [|done]. apply son_lookup. auto.
Qed.
Lemma son_root d x : w_bdos w' !! d = Some x -> parent x = None -> exists x0, w_bdos w !! d = Some x0 /\ parent x0 = None /\ Buffer x0 = Buffer x.
Proof. intros [[-> ->]|[[-> ->]|[Hd Hx]]]%son_lookup Hpx; [congruence|by exists z|by exists x]. Qed.

Lemma wf_add_son : wf w' (s :: lremove owner L).
Proof.
  pose proof (son_fresh _ _ Ho) as Hlt. pose proof (wf_each _ _ Hw owner z Ho) as [Oo1 Oo2 Oo3 Oo4].
  pose proof (references_nonneg (w_bdos w) owner) as Href0. split.
  - constructor; [|apply NoDup_filter, (wf_nodup _ _ Hw)]. intros [_ Hd]%list_elem_of_filter.
    destruct (proj1 (wf_leaves _ _ Hw s) Hd) as (x & Hx & _). by rewrite son_new in Hx.
  - intros d. rewrite elem_of_cons. unfold lremove. rewrite list_elem_of_filter, (wf_leaves _ _ Hw d). setoid_rewrite son_lookup. split.
    + intros [->|(Hne & x & Hx & Hrx)]; [exists y; auto|exists x; auto].
    + intros (x & [[-> ->]|[[-> ->]|[Hd Hx]]] & Hrx); [by left|cbn in Hrx; lia|]. right. eauto.
  - intros d x [[-> ->]|[[-> ->]|[Hd Hx]]]%son_lookup.
    + split; [cbn; lia| |done|].
      * rewrite son_references, decide_False, Hr by lia. rewrite references_none; [done|].
        intros c yc Hc Hpc. pose proof (ok_kind _ _ _ (wf_each _ _ Hw c yc Hc)) as Hkc. unfold kind_ok in Hkc. rewrite Hpc in Hkc.
        destruct Hkc as [Hltc _]. apply son_fresh in Hc. lia.
      * unfold kind_ok. rewrite Hp. split_and!; [done..|]. exists z', k, i, j. split_and!; [apply son_lookup; auto|done..].
    + split; [cbn; lia| |done|by apply son_kind]. rewrite son_references, decide_True by done. cbn. lia.
    + pose proof (son_fresh _ _ Hx). destruct (wf_each _ _ Hw d x Hx) as [O1 O2 O3 O4].
      split; [cbn; lia| |done|by apply son_kind]. rewrite son_references, decide_False by congruence. lia.
  - intros d1 d2 x1 x2 k1 Hd1 Hd2 Hp1 Hp2 HB1 HB2.
    destruct (son_root d1 x1 Hd1 Hp1) as (u1 & ? & ? & E1), (son_root d2 x2 Hd2 Hp2) as (u2 & ? & ? & E2).
    eapply (wf_roots _ _ Hw d1 d2 u1 u2 k1); congruence.
  - intros k1 m1 Hk1. destruct (wf_bufs _ _ Hw k1 m1 Hk1) as (Hnk & Hl & d & x & Hd & Hpd & HBd). split_and!; [cbn; lia|done|].
    destruct (decide (d = owner)) as [->|Hne]; [|exists d, x; split_and!; [apply son_lookup; auto|done..]].
    exists owner, z'. rewrite Ho in Hd. injection Hd as <-. split_and!; [apply son_lookup; auto|done..].
Qed.
Lemma son_bytes d : d ≠ owner -> d ≠ s -> bytes_of w' d = bytes_of w d.
Proof. intros Hd Hs. unfold bytes_of. cbn. by rewrite !lookup_insert_ne. Qed.
End son.

Lemma wf_ext w w' L : (w_next w <= w_next w')%positive -> w_bdos w' = w_bdos w -> w_bufs w' = w_bufs w -> wf w L -> wf w' L.
Proof.
  intros E1 E2 E3 [H1 H2 H3 H4 H5]. split; rewrite ?E2, ?E3; try done.
  - intros b x Hb. destruct (H3 b x Hb) as [O1 O2 O3 O4]. split; rewrite ?E2, ?E3; [lia|done..].
  - intros k m Hk. destruct (H5 k m Hk) as (? & ? & ?). split_and!; [lia|done..].
Qed.

Lemma wf_with_sons w L x owner z n k i j : wf w L -> Buffer x = At k i -> inside (w_bufs w) x -> 0 <= n <= BlockSize x ->
  w_bdos w !! owner = Some z -> Buffer z = At k j -> RefCount z + 2 < 2 ^ ulong_bits ->
  let w' := with_sons w x owner z n in
  wf w' (w_next w :: Pos.succ (w_next w) :: lremove owner L) /\ same_blocks w w' (lremove owner L) /\
  bytes_of w' (w_next w) = take (Z.to_nat n) (bytes_in (w_bufs w) x) /\
  bytes_of w' (Pos.succ (w_next w)) = drop (Z.to_nat n) (bytes_in (w_bufs w) x).
Proof.
  intros Hw HB Hx Hn Ho HBz Hrz w'. pose proof Hx as (Hox & Hbx & Hix). rewrite HB in Hix. destruct Hix as (Hi0 & m & Hk & Hm).
  pose proof (wf_bufs _ _ Hw k m Hk) as (_ & Hlm & _).
  pose proof (son_fresh _ _ Hw _ _ Ho) as Hlt.
  pose proof (ok_count _ _ _ (wf_each _ _ Hw owner z Ho)) as Hcount. pose proof (references_nonneg (w_bdos w) owner) as Href0.
  set (s1 := Bdo false false (Buffer x) (ULONG (n + Offset x)) (Offset x) n 0 (Reserved1 x) (OsSpecific x) (Some owner) (Some FreeSon)).
  set (s2 := Bdo false false (place_add (AnscBdoGetBlock x) n) (ULONG (BlockSize x - n)) 0 (ULONG (BlockSize x - n)) 0 (Reserved1 x) (OsSpecific x)
    (Some owner) (Some FreeSon)).
  assert (E2 : ULONG (BlockSize x - n) = BlockSize x - n) by (apply ULONG_small; lia).
  assert (HB2 : Buffer s2 = At k (i + Offset x + n)) by (unfold s2, AnscBdoGetBlock; by rewrite HB).
  assert (Hin1 : inside (w_bufs w) s1).
  { split_and!; [done|cbn; lia|]. cbn [s1 Buffer]. rewrite HB. cbn [s1 Offset BlockSize]. split; [done|]. exists m. split; [done|lia]. }
  assert (Hin2 : inside (w_bufs w) s2).
  { unfold inside. rewrite HB2. cbn [s2 Offset BlockSize]. rewrite E2. split_and!; [lia..|]. exists m. split; [done|lia]. }
  set (w1 := add_son w s1 owner z). set (z1 := set_refcount z (RefCount z + 1)).
  assert (Hw1 : wf w1 (w_next w :: lremove owner L)) by by eapply (wf_add_son w L owner z s1 k i j).
  assert (Ho1 : w_bdos w1 !! owner = Some z1) by apply lookup_insert_eq.
  assert (Hw2 : wf (add_son w1 s2 owner z1) (w_next w1 :: lremove owner (w_next w :: lremove owner L))).
  { by eapply (wf_add_son w1 _ owner z1 s2 k _ j). }
  assert (Ew : wf w' (w_next w1 :: lremove owner (w_next w :: lremove owner L))).
  { eapply wf_ext; [..|exact Hw2]; [done| |done]. cbn. fold s1 s2.
    replace (set_refcount z (ULONG (RefCount z + 2))) with (set_refcount z1 (RefCount z1 + 1)) by (unfold z1, set_refcount; cbn; rewrite ULONG_small by lia; f_equal; lia).
    change (RefCount z1 + 1) with (RefCount z + 1 + 1). apply map_eq. intros d. rewrite !lookup_insert. change (w_next w1) with (Pos.succ (w_next w)); repeat case_decide; try congruence. }
  assert (Hlk : forall d, d ≠ owner -> w_bdos w' !! d = <[Pos.succ (w_next w):=s2]> (<[w_next w:=s1]> (w_bdos w)) !! d).
  { intros d Hd. cbn. fold s1 s2. by rewrite lookup_insert_ne. }
  split_and!.
  - assert (E : lremove owner (w_next w :: lremove owner L) = w_next w :: lremove owner L).
    { apply lremove_absent. intros [E|[? _]%list_elem_of_filter]%elem_of_cons; [lia|done]. }
    rewrite E in Ew. eapply wf_perm; [|exact Ew]. apply Permutation_swap.
  - intros c [Hne Hc]%list_elem_of_filter. destruct (proj1 (wf_leaves _ _ Hw c) Hc) as (y & Hy & _).
    pose proof (son_fresh _ _ Hw _ _ Hy). unfold bytes_of. rewrite Hlk, !lookup_insert_ne, Hy by lia. by split.
  - unfold bytes_of. rewrite Hlk, lookup_insert_ne, lookup_insert_eq by lia. unfold bytes_in. cbn [Buffer s1]. rewrite HB. cbn [s1 BlockSize Offset].
    rewrite take_take. f_equal. lia.
  - unfold bytes_of. rewrite Hlk, lookup_insert_eq by lia. unfold bytes_in. rewrite HB2, HB. cbn [s2 BlockSize Offset]. rewrite E2.
    change (w_bufs w') with (w_bufs w). rewrite Hk. cbn [default from_option id].
    replace (Z.to_nat (BlockSize x)) with (Z.to_nat n + Z.to_nat (BlockSize x - n))%nat by lia.
    rewrite <-take_drop_commute, drop_drop. do 2 f_equal. lia.
Qed.

Lemma wf_fresh w L d x : wf w L -> w_bdos w !! d = Some x -> (d < w_next w)%positive.
Proof. intros Hw Hd. exact (ok_next _ _ _ (wf_each _ _ Hw d x Hd)). Qed.

(** A new descriptor that nothing refers to. *)
Lemma wf_add w w' L y : wf w L -> (w_next w < w_next w')%positive -> w_bdos w' = <[w_next w := y]> (w_bdos w) ->
  (forall k m, w_bufs w !! k = Some m -> w_bufs w' !! k = Some m) ->
  (forall k m, w_bufs w' !! k = Some m -> w_bufs w !! k = Some m \/ Buffer y = At k 0 /\ (k < w_next w')%positive /\ Zlen m < 2 ^ ulong_bits) ->
  (forall k, Buffer y = At k 0 -> w_bufs w !! k = None) ->
  parent y = None -> RefCount y = 0 -> inside (w_bufs w') y -> kind_ok (w_bdos w') (w_next w) y ->
  wf w' (w_next w :: L) /\ same_blocks w w' L.
Proof.
  intros Hw Hlt Hb Hm1 Hm2 Hnew Hp Hr Hin Hk.
  assert (Hn : w_bdos w !! w_next w = None) by (destruct (w_bdos w !! w_next w) eqn:E; [apply (wf_fresh _ _ _ _ Hw) in E; lia|done]).
  assert (Hlk : forall d x, w_bdos w' !! d = Some x <-> d = w_next w /\ x = y \/ w_bdos w !! d = Some x).
  { intros d x. rewrite Hb, lookup_insert_Some. split; [naive_solver|]. intros [[-> ->]|Hx]; [by left|]. right. split; [|done]. intros <-. congruence. }
  assert (Hrefs : forall d, references (w_bdos w') d = references (w_bdos w) d).
  { intros d. rewrite Hb, references_insert, Hp by done. rewrite decide_False by done. lia. }
  assert (Hold : forall d x, w_bdos w !! d = Some x -> inside (w_bufs w') x /\ bytes_in (w_bufs w') x = bytes_in (w_bufs w) x).
  { intros d x Hd. pose proof (ok_inside _ _ _ (wf_each _ _ Hw d x Hd)) as Hx. pose proof Hx as (_ & _ & Hi). split; [|apply bytes_mono].
    - eapply inside_mono; [done|]. intros k i E. rewrite E in Hi. destruct Hi as (_ & m & Hkm & _). rewrite Hkm. by apply Hm1.
    - intros k i E. rewrite E in Hi. destruct Hi as (_ & m & Hkm & _). rewrite Hkm. by apply Hm1. }
  split; [split|].
  - constructor; [|apply (wf_nodup _ _ Hw)]. intros Hd%(wf_leaves _ _ Hw). destruct Hd as (x & Hx & _). congruence.
  - intros d. rewrite elem_of_cons, (wf_leaves _ _ Hw d). setoid_rewrite Hlk. split; [|naive_solver].
    intros [->|(x & Hx & Hrx)]; [exists y|exists x]; auto.
  - intros d x [[-> ->]|Hx]%Hlk.
    + split; [done| |done..]. rewrite Hrefs, references_none; [done|]. intros c yc Hc Hpc.
      pose proof (ok_kind _ _ _ (wf_each _ _ Hw c yc Hc)) as Hkc. unfold kind_ok in Hkc. rewrite Hpc in Hkc.
      apply (wf_fresh _ _ _ _ Hw) in Hc. lia.
    + destruct (wf_each _ _ Hw d x Hx) as [O1 O2 O3 O4]. split; [lia|by rewrite Hrefs|by eapply Hold|].
      eapply kind_ok_mono; [done|]. intros c z Hpc Hc. exists z. split; [|done]. apply Hlk. auto.
  - intros b1 b2 x1 x2 k [[-> ->]|H1]%Hlk [[-> ->]|H2]%Hlk Hp1 Hp2 HB1 HB2; [done| | |by eapply (wf_roots _ _ Hw)].
    + pose proof (ok_inside _ _ _ (wf_each _ _ Hw _ _ H2)) as (_ & _ & Hi). rewrite HB2 in Hi. destruct Hi as (_ & m & Hkm & _). rewrite Hnew in Hkm; done.
    + pose proof (ok_inside _ _ _ (wf_each _ _ Hw _ _ H1)) as (_ & _ & Hi). rewrite HB1 in Hi. destruct Hi as (_ & m & Hkm & _). rewrite Hnew in Hkm; done.
  - intros k m [Hkm|(HBk & Hlk' & Hl)]%Hm2.
    + destruct (wf_bufs _ _ Hw k m Hkm) as (Hnk & Hl & d & x & Hd & Hpd & HBd). split_and!; [lia|done|]. exists d, x. split; [apply Hlk; auto|done].
    + split_and!; [done..|]. exists (w_next w), y. split; [apply Hlk; auto|done].
  - intros d (x & Hx & _)%(wf_leaves _ _ Hw). unfold bytes_of. rewrite (proj2 (Hlk d x)), Hx by auto. split; [|done]. by eapply Hold.
Qed.

Lemma wf_with_bdo w L : wf w L -> wf (with_bdo w 0 0 0) (w_next w :: L) /\ same_blocks w (with_bdo w 0 0 0) L /\ bytes_of (with_bdo w 0 0 0) (w_next w) = [].
Proof.
  intros Hw. apply and_assoc. split.
  - eapply wf_add; try done; [cbn; lia|]. by left.
  - unfold bytes_of. cbn. by rewrite lookup_insert_eq.
Qed.
Lemma wf_with_buffer w L size offset block : wf w L -> 0 < size -> size + 16 < 2 ^ ulong_bits -> 0 <= offset -> 0 <= block -> offset + block <= size ->
  let w' := with_buffer w size offset block in
  wf w' (w_next w :: L) /\ same_blocks w w' L /\ bytes_of w' (w_next w) = replicate (Z.to_nat block) 0.
Proof.
  intros Hw Hs Hfit Ho Hb Hle w'. apply and_assoc.
  assert (Hnew : w_bufs w !! Pos.succ (w_next w) = None).
  { destruct (w_bufs w !! Pos.succ (w_next w)) as [m|] eqn:E; [|done]. apply (wf_bufs _ _ Hw) in E as [? _]. lia. }
  assert (Hz : ULONG (size + 16) = size + 16) by (apply ULONG_small; lia). split.
  - eapply wf_add; try done; [cbn; lia| | | | |].
    + intros k m Hk. cbn. rewrite lookup_insert_ne; [done|]. intros <-. congruence.
    + intros k m. cbn. intros [[<- <-]|[_ Hk]]%lookup_insert_Some; [|by left]. right. rewrite length_replicate, Hz. split_and!; [done|lia|lia].
    + cbn. intros k [= <-]. done.
    + split_and!; [done..|]. cbn. split; [done|]. eexists. rewrite lookup_insert_eq. split; [done|]. rewrite length_replicate, Hz. lia.
    + split_and!; [done..|]. by eexists.
  - unfold bytes_of. cbn. rewrite lookup_insert_eq. unfold bytes_in. cbn. rewrite lookup_insert_eq. cbn.
    rewrite drop_replicate, take_replicate, Hz. f_equal. lia.
Qed.

(** A descriptor whose block changes within its buffer. *)
Lemma wf_set_block w L b x offset size : wf w L -> w_bdos w !! b = Some x -> inside (w_bufs w) (set_block x offset size) ->
  let w' := set_bdos (insert b (set_block x offset size)) w in wf w' L /\ same_blocks w w' (lremove b L).
Proof.
  intros Hw Hb Hin w'. set (x' := set_block x offset size).
  assert (Hlk : forall d y, w_bdos w' !! d = Some y <-> d = b /\ y = x' \/ d ≠ b /\ w_bdos w !! d = Some y).
  { intros d y. cbn. rewrite lookup_insert_Some. naive_solver. }
  assert (Hrefs : forall d, references (w_bdos w') d = references (w_bdos w) d) by (intros d; by eapply references_update).
  assert (Hk : forall d y, kind_ok (w_bdos w) d y -> kind_ok (w_bdos w') d y).
  { intros d y Hk. eapply kind_ok_mono; [done|]. intros c z _ Hc. destruct (decide (c = b)) as [->|Hne].
    - exists x'. rewrite Hb in Hc. injection Hc as <-. split; [apply Hlk; auto|done].
    - exists z. split; [apply Hlk; auto|done]. }
  split; [split|].
  - apply (wf_nodup _ _ Hw).
  - intros d. rewrite (wf_leaves _ _ Hw d). setoid_rewrite Hlk. split.
    + intros (y & Hy & Hr). destruct (decide (d = b)) as [->|]; [|eauto]. rewrite Hb in Hy. injection Hy as <-. exists x'. auto.
    + intros (y & [[-> ->]|[Hd Hy]] & Hr); [by exists x|by exists y].
  - intros d y [[-> ->]|[Hd Hy]]%Hlk.
    + destruct (wf_each _ _ Hw b x Hb) as [O1 O2 O3 O4]. split; [done|by rewrite Hrefs|done|by apply Hk].
    + destruct (wf_each _ _ Hw d y Hy) as [O1 O2 O3 O4]. split; [done|by rewrite Hrefs|done|by apply Hk].
  - assert (Hroot : forall d y, w_bdos w' !! d = Some y -> exists y0, w_bdos w !! d = Some y0 /\ parent y0 = parent y /\ Buffer y0 = Buffer y).
    { intros d y [[-> ->]|[Hd Hy]]%Hlk; [by exists x|by exists y]. }
    intros b1 b2 x1 x2 k (u1 & ? & ? & ?)%Hroot (u2 & ? & ? & ?)%Hroot. intros. eapply (wf_roots _ _ Hw b1 b2 u1 u2 k); congruence.
  - intros k m Hkm. destruct (wf_bufs _ _ Hw k m Hkm) as (Hn & Hl & d & y & Hd & Hpd & HBd). split_and!; [done..|].
    destruct (decide (d = b)) as [->|]; [|exists d, y; split; [apply Hlk; auto|done]].
    rewrite Hb in Hd. injection Hd as <-. exists b, x'. split; [apply Hlk; auto|done].
  - intros d [Hne Hd]%list_elem_of_filter. destruct (proj1 (wf_leaves _ _ Hw d) Hd) as (y & Hy & _).
    assert (Hy' : w_bdos w' !! d = Some y) by (apply Hlk; auto). unfold bytes_of. rewrite Hy, Hy'. done.
Qed.
End memory.
