(* ===== verification/PacketThms.v ===== *)
(** * What the packets promise

    A packet is the bytes of its blocks one after the other: cutting, joining,
    copying and moving packets is cutting, joining, copying and moving these
    bytes; the memory stays well-formed, so that nothing is released twice or
    lost; and the sums over a packet. *)

From S2P Require Import Prelude Links Checksum Packet PacketMem.
Open Scope Z_scope.

Section packets.
Context `{Platform}.

(** ** Walking along a queue *)

Definition in_store (w : world) (q : list positive) : Prop :=
  Forall (fun b => exists x, w_bdos w !! b = Some x /\ inside (w_bufs w) x) q.
Lemma wf_in_store w L q : wf w L -> (forall b, b ∈ q -> b ∈ L) -> in_store w q.
Proof.
  intros Hw Hq. apply Forall_forall. intros b Hb%Hq. destruct (proj1 (wf_leaves _ _ Hw b) Hb) as (x & Hx & _). exists x.
  split; [done|]. exact (ok_inside _ _ _ (wf_each _ _ Hw b x Hx)).
Qed.
Lemma in_store_cons w b q : in_store w (b :: q) -> in_store w q /\ exists x, w_bdos w !! b = Some x /\ inside (w_bufs w) x /\
  BlockSize x = Zlen (bytes_of w b) /\ bytes_in (w_bufs w) x = bytes_of w b.
Proof.
  intros [(x & Hx & Hi) Hq]%Forall_cons. split; [done|]. exists x. unfold bytes_of. rewrite Hx. split_and!; [done..| |done].
  by rewrite bytes_length.
Qed.
Lemma content_cons w b q : content w (b :: q) = bytes_of w b ++ content w q.
Proof. done. Qed.
Lemma content_app w q1 q2 : content w (q1 ++ q2) = content w q1 ++ content w q2.
Proof. unfold content. apply bind_app. Qed.

Lemma sum_sizes_spec w q n : in_store w q -> sum_sizes q n w = Done (foldl (fun a b => ULONG (a + Zlen (bytes_of w b))) n q, w).
Proof.
  revert n. induction q as [|b q IH]; intros n Hq; [done|]. apply in_store_cons in Hq as (Hq & x & Hx & _ & Hs & _). cbn [sum_sizes foldl].
  rewrite (CM_bind_Done _ _ _ _ _ (get_bdo_Done _ _ _ Hx)), Hs. by apply IH.
Qed.
Lemma sum_sizes_fits w q n : in_store w q -> 0 <= n -> n + Zlen (content w q) < 2 ^ ulong_bits ->
  sum_sizes q n w = Done (n + Zlen (content w q), w).
Proof.
  intros Hq. rewrite sum_sizes_spec by done. revert n. induction q as [|b q IH]; intros n Hn Hf; cbn [foldl].
  - cbn. by rewrite Z.add_0_r.
  - apply in_store_cons in Hq as (Hq & _). rewrite content_cons, length_app in Hf |- *.
    rewrite ULONG_small, IH by (try done; lia). do 2 f_equal. lia.
Qed.
Lemma the_queue_Done w p x : w_pdos w !! p = Some x -> the_queue p w = Done (BdoQueue x, w).
Proof. intros E. unfold the_queue. by rewrite (CM_bind_Done _ _ _ _ _ (get_pdo_Done _ _ _ E)). Qed.
Lemma change_queue_Done w p x f : w_pdos w !! p = Some x -> change_queue p f w = Done (tt, set_pdos (insert p (set_queue x (f (BdoQueue x)))) w).
Proof. intros E. unfold change_queue. by rewrite (CM_bind_Done _ _ _ _ _ (get_pdo_Done _ _ _ E)). Qed.
Lemma packet_size w p x : w_pdos w !! p = Some x -> in_store w (BdoQueue x) -> Zlen (content w (BdoQueue x)) < 2 ^ ulong_bits ->
  AnscPdoGetPacketSize p w = Done (Zlen (content w (BdoQueue x)), w).
Proof.
  intros Hp Hq Hf. unfold AnscPdoGetPacketSize. rewrite (CM_bind_Done _ _ _ _ _ (the_queue_Done _ _ _ Hp)). by rewrite sum_sizes_fits.
Qed.

Lemma find_bdo_spec w q cur off : in_store w q -> 0 <= cur <= off -> cur + Zlen (content w q) < 2 ^ ulong_bits ->
  if off <? cur + Zlen (content w q) then
    exists q1 b q2, q = q1 ++ b :: q2 /\ find_bdo q cur off w = Done (Some (b, cur + Zlen (content w q1)), w) /\
      cur + Zlen (content w q1) <= off < cur + Zlen (content w q1) + Zlen (bytes_of w b)
  else find_bdo q cur off w = Done (None, w).
Proof.
  revert cur. induction q as [|b q IH]; intros cur Hq Hc Hf.
  - cbn. by rewrite (proj2 (Z.ltb_ge off _)) by lia.
  - apply in_store_cons in Hq as (Hq & x & Hx & _ & Hs & _). rewrite content_cons, length_app in Hf |- *. cbn [find_bdo].
    rewrite (CM_bind_Done _ _ _ _ _ (get_bdo_Done _ _ _ Hx)), Hs, ULONG_small by lia.
    destruct (Z.ltb_spec off (cur + Zlen (bytes_of w b))) as [Hlt|Hge].
    + rewrite (proj2 (Z.ltb_lt off _)) by lia. exists [], b, q. cbn [app content mbind list_bind length]. split_and!; [done| |lia|lia].
      unfold mret, CM_ret. do 4 f_equal. lia.
    + specialize (IH (cur + Zlen (bytes_of w b)) Hq ltac:(lia) ltac:(lia)).
      replace (cur + Z.of_nat (length (bytes_of w b) + length (content w q))) with (cur + Zlen (bytes_of w b) + Zlen (content w q)) by lia.
      destruct (off <? _); [|done]. destruct IH as (q1 & b' & q2 & -> & E & Hr). exists (b :: q1), b', q2.
      rewrite content_cons, length_app. split_and!; [done| |lia|lia]. rewrite E. do 4 f_equal. lia.
Qed.

(** ** Packets as texts *)

Definition leaves (P : gmap positive ANSC_PACKET_DESCRIPTOR) : list positive := map_to_list P ≫= fun px => BdoQueue px.2.
Lemma leaves_insert P p x : P !! p = None -> leaves (<[p:=x]> P) ≡ₚ BdoQueue x ++ leaves P.
Proof. intros Hp. unfold leaves. by rewrite map_to_list_insert. Qed.
Lemma leaves_lookup P p x : P !! p = Some x -> leaves P ≡ₚ BdoQueue x ++ leaves (delete p P).
Proof. intros Hp. unfold leaves. by rewrite <-(map_to_list_delete P p x Hp). Qed.
Lemma leaves_update P p x : leaves (<[p:=x]> P) ≡ₚ BdoQueue x ++ leaves (delete p P).
Proof. rewrite <-insert_delete_eq. apply leaves_insert, lookup_delete_eq. Qed.

(** The texts of the packets, and those of the descriptors that are in no
    packet. *)
Record texts := Texts { t_packets : gmap positive (list Z); t_blocks : gmap positive (list Z) }.
Definition keys (B : gmap positive (list Z)) : list positive := (map_to_list B).*1.
Lemma elem_of_keys B b : b ∈ keys B <-> exists s, B !! b = Some s.
Proof.
  unfold keys. rewrite list_elem_of_fmap. split.
  - intros ([b' s] & -> & Hin%elem_of_map_to_list). by exists s.
  - intros (s & Hs). exists (b, s). split; [done|]. by apply elem_of_map_to_list.
Qed.
Lemma keys_insert B b s : B !! b = None -> keys (<[b:=s]> B) ≡ₚ b :: keys B.
Proof. intros Hb. unfold keys. by rewrite map_to_list_insert. Qed.
Lemma keys_delete B b s : B !! b = Some s -> keys B ≡ₚ b :: keys (delete b B).
Proof. intros Hb. unfold keys. by rewrite <-(map_to_list_delete B b s Hb). Qed.

(** A packet without a free function of its own. *)
Definition plain (x : ANSC_PACKET_DESCRIPTOR) : Prop := bSyncOnly x = false /\ pdo_pfnFreeMe x = None.
Record models (w : world) (T : texts) : Prop := {
  m_wf : wf w (leaves (w_pdos w) ++ keys (t_blocks T));
  m_idle : idle w;
  m_packets : forall p, t_packets T !! p = (fun x => content w (BdoQueue x)) <$> w_pdos w !! p;
  m_blocks : forall b s, t_blocks T !! b = Some s -> bytes_of w b = s;
  m_each : forall p x, w_pdos w !! p = Some x -> (p < w_next w)%positive /\ plain x /\ Zlen (content w (BdoQueue x)) < 2 ^ ulong_bits
}.

(** What a packet of the new world is: one of the old world that was left
    alone, or another one. *)
Definition untouched (w w' : world) (T T' : texts) (p : positive) : Prop :=
  w_pdos w' !! p = w_pdos w !! p /\ t_packets T' !! p = t_packets T !! p /\
  forall x, w_pdos w !! p = Some x -> forall c, c ∈ BdoQueue x -> bytes_of w' c = bytes_of w c.
Definition touched (w' : world) (T' : texts) (p : positive) : Prop :=
  match w_pdos w' !! p with
  | None => t_packets T' !! p = None
  | Some x => t_packets T' !! p = Some (content w' (BdoQueue x)) /\ (p < w_next w')%positive /\ plain x /\
      Zlen (content w' (BdoQueue x)) < 2 ^ ulong_bits
  end.
Lemma content_ext w w' q : (forall c, c ∈ q -> bytes_of w' c = bytes_of w c) -> content w' q = content w q.
Proof.
  intros Hq. induction q as [|c q IH]; [done|]. rewrite !content_cons, Hq by left. f_equal. apply IH. intros d Hd. apply Hq. by right.
Qed.
Lemma models_intro w w' T T' : models w T -> idle w' -> (w_next w <= w_next w')%positive ->
  wf w' (leaves (w_pdos w') ++ keys (t_blocks T')) -> (forall p, untouched w w' T T' p \/ touched w' T' p) ->
  (forall b s, t_blocks T' !! b = Some s -> bytes_of w' b = s) -> models w' T'.
Proof.
  intros HM Hi Hn Hw Hp Hb. split; [done|done| |done|].
  - intros p. destruct (Hp p) as [(E1 & E2 & E3)|Ht].
    + rewrite E1, E2, (m_packets _ _ HM). destruct (w_pdos w !! p) as [x|] eqn:Ex; [|done]. cbn. f_equal. symmetry. apply content_ext. by apply E3.
    + unfold touched in Ht. destruct (w_pdos w' !! p) as [x|]; [by destruct Ht as [-> _]|done].
  - intros p x Hx. destruct (Hp p) as [(E1 & E2 & E3)|Ht].
    + rewrite E1 in Hx. destruct (m_each _ _ HM p x Hx) as (Hlt & Hpl & Hl). rewrite (content_ext w w') by by apply E3. split_and!; [lia|done..].
    + unfold touched in Ht. rewrite Hx in Ht. by destruct Ht as (_ & ? & ? & ?).
Qed.

Lemma models_lookup w T p s : models w T -> t_packets T !! p = Some s -> exists x, w_pdos w !! p = Some x /\ content w (BdoQueue x) = s /\
  (p < w_next w)%positive /\ plain x /\ Zlen s < 2 ^ ulong_bits /\
  wf w (BdoQueue x ++ leaves (delete p (w_pdos w)) ++ keys (t_blocks T)) /\ in_store w (BdoQueue x).
Proof.
  intros HM Hp. rewrite (m_packets _ _ HM) in Hp. destruct (w_pdos w !! p) as [x|] eqn:Ex; [|done]. cbn in Hp. injection Hp as <-.
  destruct (m_each _ _ HM p x Ex) as (Hlt & Hpl & Hl). exists x.
  assert (Hw : wf w (BdoQueue x ++ leaves (delete p (w_pdos w)) ++ keys (t_blocks T))).
  { eapply wf_perm; [|exact (m_wf _ _ HM)]. rewrite (leaves_lookup _ p x) by done. by rewrite <-app_assoc. }
  split_and!; [done..|]. eapply wf_in_store; [done|]. intros b Hb. apply elem_of_app. by left.
Qed.
Lemma leaves_elem P p x c : P !! p = Some x -> c ∈ BdoQueue x -> c ∈ leaves P.
Proof. intros Hp Hc. rewrite (leaves_lookup P p x Hp). apply elem_of_app. by left. Qed.

(** An operation that changes one packet, and perhaps the descriptors in no
    packet. *)
Lemma models_update w w' T p x x' B : models w T -> w_pdos w !! p = Some x -> idle w' -> (w_next w <= w_next w')%positive ->
  w_pdos w' = <[p:=x']> (w_pdos w) -> wf w' (BdoQueue x' ++ leaves (delete p (w_pdos w)) ++ keys B) -> plain x' ->
  (forall c, c ∈ leaves (delete p (w_pdos w)) -> bytes_of w' c = bytes_of w c) ->
  Zlen (content w' (BdoQueue x')) < 2 ^ ulong_bits -> (forall b s, B !! b = Some s -> bytes_of w' b = s) ->
  models w' (Texts (<[p:=content w' (BdoQueue x')]> (t_packets T)) B).
Proof.
  intros HM Hp Hi Hn Hpdos Hw Hpl Hl Hc Hb. eapply models_intro; [done..| | |done].
  - cbn. rewrite Hpdos. eapply wf_perm; [|done]. by rewrite leaves_update, <-app_assoc.
  - intros d. destruct (decide (d = p)) as [->|Hd].
    + right. unfold touched. rewrite Hpdos, lookup_insert_eq. cbn. rewrite lookup_insert_eq. destruct (m_each _ _ HM p x Hp) as (? & _). split_and!; [done|lia|apply Hpl..|done].
    + left. split_and!; [by rewrite Hpdos, lookup_insert_ne|cbn; by rewrite lookup_insert_ne|].
      intros y Hy c Hcy. apply Hl. eapply leaves_elem; [|done]. by rewrite lookup_delete_ne.
Qed.

(** The same when only the queue of the packet changes. *)
Lemma models_queue w w' T p x q : models w T -> w_pdos w !! p = Some x -> (idle w -> idle w') -> (w_next w <= w_next w')%positive ->
  w_pdos w' = <[p:=set_queue x q]> (w_pdos w) -> wf w' (q ++ leaves (delete p (w_pdos w)) ++ keys (t_blocks T)) ->
  (forall c, c ∈ leaves (delete p (w_pdos w)) ++ keys (t_blocks T) -> bytes_of w' c = bytes_of w c) -> Zlen (content w' q) < 2 ^ ulong_bits ->
  models w' (Texts (<[p:=content w' q]> (t_packets T)) (t_blocks T)).
Proof.
  intros HM Hp Hi Hn Hpd Hw Hb Hl. change q with (BdoQueue (set_queue x q)).
  eapply models_update; try done; [by apply Hi, (m_idle _ _ HM)|by destruct (m_each _ _ HM p x Hp) as (_ & ? & _)| |].
  - intros c Hc. apply Hb, elem_of_app. by left.
  - intros b t Hbt. rewrite <-(m_blocks _ _ HM b t Hbt). apply Hb, elem_of_app. right. apply elem_of_keys. eauto.
Qed.

(** ** Making packets and blocks *)

(** An operation makes at most four objects. *)
Definition grows (w w' : world) : Prop := (w_next w <= w_next w' <= w_next w + 4)%positive.
Lemma grows_same w w' : w_next w' = w_next w -> grows w w'.
Proof. unfold grows. lia. Qed.

Lemma AnscAllocatePdo_spec w T : models w T -> exists w',
  AnscAllocatePdo w = Done (Some (w_next w), w') /\ t_packets T !! w_next w = None /\
  models w' (Texts (<[w_next w := []]> (t_packets T)) (t_blocks T)) /\
  w_pdos w' = <[w_next w := zero_pdo]> (w_pdos w) /\ w_bdos w' = w_bdos w /\ w_bufs w' = w_bufs w /\ w_next w' = Pos.succ (w_next w).
Proof.
  intros HM. assert (Hnew : w_pdos w !! w_next w = None).
  { destruct (w_pdos w !! w_next w) as [x|] eqn:E; [|done]. destruct (m_each _ _ HM _ _ E) as (? & _). lia. }
  destruct (m_idle _ _ HM) as (Ha & Hp & Hb). set (P := Pools true (g_bBdoPoolInitialized (w_pools w)) [] []).
  set (w' := World (Pos.succ (w_next w)) (w_bdos w) (<[w_next w := zero_pdo]> (w_pdos w)) (w_bufs w) P (w_calls w) []).
  exists w'. split_and!; [| | |done..].
  - destruct w as [n bd pd bu [ip ib lp lb] cs a]. cbn in Ha, Hp, Hb. subst. unfold AnscAllocatePdo, AnscAcquirePdo.
    cbn [g_bPdoPoolingEnabled]. unfold mbind, CM_bind at 1, the_pools. cbn [w_pools g_bPdoPoolInitialized]. by destruct ip.
  - by rewrite (m_packets _ _ HM), Hnew.
  - eapply models_intro; [done|by split_and!|cbn; lia| | |].
    + cbn. eapply wf_perm; [|eapply wf_ext; [..|exact (m_wf _ _ HM)]; [cbn; lia|done..]]. by rewrite leaves_insert.
    + intros d. destruct (decide (d = w_next w)) as [->|Hd].
      * right. unfold touched. cbn. rewrite !lookup_insert_eq. split_and!; [done|lia|done..|]. cbn. apply ulong_modulus_pos.
      * left. split_and!; [cbn; by rewrite lookup_insert_ne..|done].
    + exact (m_blocks _ _ HM).
Qed.

Lemma blocks_fresh w T : models w T -> t_blocks T !! w_next w = None.
Proof.
  intros HM. destruct (t_blocks T !! w_next w) as [s|] eqn:E; [|done].
  assert (Hin : w_next w ∈ leaves (w_pdos w) ++ keys (t_blocks T)) by (apply elem_of_app; right; apply elem_of_keys; eauto).
  apply (wf_leaves _ _ (m_wf _ _ HM)) in Hin as (x & Hx & _). apply (wf_fresh _ _ _ _ (m_wf _ _ HM)) in Hx. lia.
Qed.
(** A new descriptor in no packet. *)
Lemma models_add_block w w' T b s : models w T -> idle w' -> (w_next w <= w_next w')%positive -> w_pdos w' = w_pdos w ->
  wf w' (b :: leaves (w_pdos w) ++ keys (t_blocks T)) -> same_blocks w w' (leaves (w_pdos w) ++ keys (t_blocks T)) -> bytes_of w' b = s ->
  t_blocks T !! b = None -> models w' (Texts (t_packets T) (<[b:=s]> (t_blocks T))).
Proof.
  intros HM Hi Hn Hp Hw Hsame Hs Hb. eapply models_intro; [done..| | |].
  - cbn. rewrite Hp. eapply wf_perm; [|done]. rewrite keys_insert by done. by rewrite <-Permutation_middle.
  - intros p. left. split_and!; [by rewrite Hp|done|]. intros x Hx c Hc. apply Hsame, elem_of_app. left. by eapply leaves_elem.
  - cbn. intros c t [[<- <-]|[_ Ht]]%lookup_insert_Some; [done|]. rewrite <-(m_blocks _ _ HM c t Ht). apply Hsame, elem_of_app. right.
    apply elem_of_keys. eauto.
Qed.
Definition size_ok (size offset block : Z) : Prop :=
  size = 0 /\ offset = 0 /\ block = 0 \/ 0 < size /\ size + 16 < 2 ^ ulong_bits /\ 0 <= offset /\ 0 <= block /\ offset + block <= size.
Lemma AnscAllocateBdo_spec w T size offset block : models w T -> size_ok size offset block -> exists w',
  AnscAllocateBdo size offset block w = Done (Some (w_next w), w') /\ t_blocks T !! w_next w = None /\
  models w' (Texts (t_packets T) (<[w_next w := replicate (Z.to_nat block) 0]> (t_blocks T))) /\
  w' = (if 0 <? size then with_buffer w size offset block else with_bdo w size offset block).
Proof.
  intros HM Hsz. rewrite AnscAllocateBdo_fresh by apply (m_idle _ _ HM). eexists. split; [done|]. split; [by apply blocks_fresh|].
  pose proof (m_idle _ _ HM) as (Ha & Hp & Hb). destruct Hsz as [(-> & -> & ->)|(Hs & Hfit & Ho & Hbl & Hle)].
  - cbn [Z.ltb Z.compare]. destruct (wf_with_bdo _ _ (m_wf _ _ HM)) as (Hw & Hsame & Hby). split; [|done].
    eapply models_add_block; try done; [cbn; lia|by apply blocks_fresh].
  - rewrite (proj2 (Z.ltb_lt 0 size)) by done. destruct (wf_with_buffer _ _ size offset block (m_wf _ _ HM)) as (Hw & Hsame & Hby); try done.
    split; [|done]. eapply models_add_block; try done; [cbn; lia|by apply blocks_fresh].
Qed.

(** A block in no packet goes to the back or to the front of one. *)
Lemma AnscPdoAttach_spec w T p s b t (back : bool) : models w T -> t_packets T !! p = Some s -> t_blocks T !! b = Some t ->
  Zlen s + Zlen t < 2 ^ ulong_bits -> exists w',
  (if back then AnscPdoAttachBdoAtBack else AnscPdoAttachBdoAtFront) p b w = Done (tt, w') /\
  models w' (Texts (<[p := if back then s ++ t else t ++ s]> (t_packets T)) (delete b (t_blocks T))) /\
  w_pdos w' = (if back then <[p:=set_queue (default zero_pdo (w_pdos w !! p)) (BdoQueue (default zero_pdo (w_pdos w !! p)) ++ [b])]> (w_pdos w)
               else <[p:=set_queue (default zero_pdo (w_pdos w !! p)) (b :: BdoQueue (default zero_pdo (w_pdos w !! p)))]> (w_pdos w)) /\
  w_bdos w' = w_bdos w /\ w_bufs w' = w_bufs w /\ w_next w' = w_next w.
Proof.
  intros HM Hp Hb Hf. destruct (models_lookup _ _ _ _ HM Hp) as (x & Hx & Hs & Hlt & Hpl & _ & Hw & _).
  pose proof (m_blocks _ _ HM b t Hb) as Ht. rewrite Hx. cbn [default from_option id].
  set (q := if back then BdoQueue x ++ [b] else b :: BdoQueue x). set (w' := set_pdos (insert p (set_queue x q)) w).
  assert (Hq : content w' q = if back then s ++ t else t ++ s).
  { change (content w' q) with (content w q). unfold q. destruct back; [rewrite content_app, Hs|by rewrite content_cons, Hs, Ht].
    f_equal. unfold content. cbn. by rewrite Ht, app_nil_r. }
  exists w'. split_and!; [|rewrite <-Hq|by destruct back|done..].
  - destruct back; by eapply change_queue_Done.
  - change (content w' q) with (content w' (BdoQueue (set_queue x q))). eapply models_update; try done.
    + apply (m_idle _ _ HM).
    + eapply wf_perm; [|eapply (wf_ext w); [cbn; lia|done|done|exact Hw]]. rewrite (keys_delete _ b t) by done. cbn [set_queue BdoQueue]. unfold q. destruct back; solve_Permutation.
    + cbn [set_queue BdoQueue]. rewrite Hq. destruct back; rewrite length_app; lia.
    + intros c u [_ Hu]%lookup_delete_Some. exact (m_blocks _ _ HM c u Hu).
Qed.

(** ** Reading and writing bytes *)

Lemma set_bufs_id w k m : w_bufs w !! k = Some m -> set_bufs (insert k m) w = w.
Proof. intros Hk. destruct w. unfold set_bufs. cbn in *. by rewrite insert_id. Qed.
Lemma memory_at_Done w k i m : w_bufs w !! k = Some m -> 0 <= i <= Zlen m -> memory_at (At k i) w = Done (drop (Z.to_nat i) m, w).
Proof. intros Hk Hi. unfold memory_at. rewrite Hk, (proj2 (Z.ltb_ge i 0)), (proj2 (Z.ltb_ge (Zlen m) i)) by lia. done. Qed.
Lemma read_bytes_Done w k i m n : w_bufs w !! k = Some m -> 0 <= i -> 0 <= n -> i + n <= Zlen m ->
  read_bytes (At k i) n w = Done (take (Z.to_nat n) (drop (Z.to_nat i) m), w).
Proof.
  intros Hk Hi Hn Hl. unfold read_bytes. destruct (Z.eqb_spec n 0) as [->|Hne]; [done|].
  rewrite (CM_bind_Done _ _ _ _ _ (memory_at_Done _ _ i _ Hk ltac:(lia))). rewrite (proj2 (Z.ltb_ge _ n)) by (rewrite length_drop; lia). done.
Qed.
Lemma write_bytes_Done w k i pre old post s : w_bufs w !! k = Some (pre ++ old ++ post) -> i = Zlen pre -> length old = length s ->
  write_bytes (At k i) s w = Done (tt, set_bufs (insert k (pre ++ s ++ post)) w).
Proof.
  intros Hk -> Hl. unfold write_bytes. case_bool_decide as E.
  - subst s. destruct old; [|done]. by rewrite set_bufs_id.
  - rewrite (CM_bind_Done _ _ _ _ _ (memory_at_Done _ _ (Zlen pre) _ Hk ltac:(rewrite !length_app; lia))). rewrite Hk. cbn [default from_option id].
    by rewrite buf_copy_at.
Qed.
Lemma read_block w x : inside (w_bufs w) x -> forall o n, 0 <= o -> 0 <= n -> o + n <= BlockSize x ->
  read_bytes (place_add (AnscBdoGetBlock x) o) n w = Done (take (Z.to_nat n) (drop (Z.to_nat o) (bytes_in (w_bufs w) x)), w).
Proof.
  intros (Ho & Hb & Hi) o n Ho' Hn Hl. unfold AnscBdoGetBlock, bytes_in. destruct (Buffer x) as [| |k i]; [|done|].
  - replace n with 0 by lia. done.
  - destruct Hi as (Hi & m & Hk & Hm). cbn [place_add]. rewrite Hk. cbn [default from_option id].
    rewrite (read_bytes_Done w k (i + Offset x + o) m n) by (try done; lia). do 2 f_equal.
    rewrite skipn_firstn_comm, take_take, drop_drop. f_equal; [lia|]. f_equal. lia.
Qed.

(** A buffer is overwritten. *)
Lemma wf_write w L k m m' : wf w L -> w_bufs w !! k = Some m -> length m' = length m -> wf (set_bufs (insert k m') w) L.
Proof.
  intros [H1 H2 H3 H4 H5] Hk Hl. split; [done|done| |done|].
  - intros b x Hb. destruct (H3 b x Hb) as [O1 O2 (Oo & Ob & Oi) O4]. split; [done|done| |done]. split_and!; [done..|].
    destruct (Buffer x) as [| |k' i]; [done..|]. destruct Oi as (Hi & m1 & Hk1 & Hm1). split; [done|]. cbn. destruct (decide (k' = k)) as [->|Hne].
    + exists m'. rewrite lookup_insert_eq. split; [done|]. rewrite Hk in Hk1. injection Hk1 as <-. lia.
    + exists m1. by rewrite lookup_insert_ne.
  - cbn. intros k1 m1 [[<- <-]|[Hne Hk1]]%lookup_insert_Some; [|by apply H5]. destruct (H5 k m Hk) as (? & ? & ?). by rewrite Hl.
Qed.
Lemma same_write w L k m b x : wf w L -> w_bdos w !! b = Some x -> parent x = None -> Buffer x = At k 0 -> RefCount x = 0 ->
  same_blocks w (set_bufs (insert k m) w) (lremove b L).
Proof.
  intros Hw Hb Hp HB Hr c [Hne Hc]%list_elem_of_filter. destruct (proj1 (wf_leaves _ _ Hw c) Hc) as (y & Hy & _). unfold bytes_of. cbn. rewrite Hy.
  split; [|done]. apply bytes_mono. intros k' i E. cbn. apply lookup_insert_ne. intros <-. apply Hne. by eapply only_user.
Qed.

(** Room behind the block of a descriptor that has its buffer for itself. *)
Definition room (w : world) (b : positive) (n : Z) : Prop :=
  exists x k m, w_bdos w !! b = Some x /\ parent x = None /\ Buffer x = At k 0 /\ w_bufs w !! k = Some m /\ Offset x + BlockSize x + n <= Zlen m.
Lemma AnscBdoAppendData_spec w T b t s : models w T -> t_blocks T !! b = Some t -> room w b (Zlen s) -> exists w',
  AnscBdoAppendData b s w = Done (tt, w') /\ models w' (Texts (t_packets T) (<[b:=t ++ s]> (t_blocks T))) /\ w_next w' = w_next w.
Proof.
  intros HM Ht (x & k & m & Hb & Hp & HB & Hk & Hroom). pose proof (m_wf _ _ HM) as Hw. pose proof (m_blocks _ _ HM b t Ht) as Hbt.
  assert (Hbin : b ∈ leaves (w_pdos w) ++ keys (t_blocks T)) by (apply elem_of_app; right; apply elem_of_keys; eauto).
  pose proof (ok_inside _ _ _ (wf_each _ _ Hw b x Hb)) as Hin. pose proof Hin as (Ho & Hbs & _).
  destruct (wf_bufs _ _ Hw k m Hk) as (_ & Hlm & _). assert (Es : ULONG (BlockSize x + Zlen s) = BlockSize x + Zlen s) by (apply ULONG_small; lia).
  unfold AnscBdoAppendData. rewrite (CM_bind_Done _ _ _ _ _ (get_bdo_Done _ _ _ Hb)), put_bdo_bind, Es.
  set (x' := set_block x (Offset x) (BlockSize x + Zlen s)). set (w1 := set_bdos (insert b x') w).
  assert (Hin' : inside (w_bufs w) x').
  { split_and!; [done|cbn; lia|]. cbn. rewrite HB. split; [lia|]. exists m. split; [done|cbn; lia]. }
  destruct (wf_set_block _ _ b x _ _ Hw Hb Hin') as [Hw1 Hs1]. fold x' w1 in Hw1, Hs1.
  set (i := Z.to_nat (Offset x + BlockSize x)). set (m' := take i m ++ s ++ drop (i + length s) m).
  assert (Hm : m = take i m ++ take (length s) (drop i m) ++ drop (i + length s) m) by by rewrite <-drop_drop, !take_drop.
  assert (Hl1 : length (take i m) = i) by (rewrite length_take; lia).
  assert (Hl2 : length (take (length s) (drop i m)) = length s) by (rewrite length_take, length_drop; lia).
  assert (Ewr : write_bytes (place_add (AnscBdoGetBlock x) (BlockSize x)) s w1 = Done (tt, set_bufs (insert k m') w1)).
  { unfold AnscBdoGetBlock. rewrite HB. cbn [place_add]. eapply write_bytes_Done; [|lia|done]. change (w_bufs w1) with (w_bufs w). by rewrite <-Hm. }
  exists (set_bufs (insert k m') w1). split; [exact Ewr|]. split; [|done].
  assert (Hlk : w_bdos w1 !! b = Some x') by apply lookup_insert_eq.
  assert (Hr : RefCount x' = 0).
  { destruct (proj1 (wf_leaves _ _ Hw b) Hbin) as (y & Hy & Hry). rewrite Hb in Hy. by injection Hy as <-. }
  pose proof (same_write w1 _ k m' b x' Hw1 Hlk Hp HB Hr) as Hs2.
  assert (Hsame : forall c, c ∈ leaves (w_pdos w) ++ keys (t_blocks T) -> c ≠ b -> bytes_of (set_bufs (insert k m') w1) c = bytes_of w c).
  { intros c Hc Hne. assert (Hc' : c ∈ lremove b (leaves (w_pdos w) ++ keys (t_blocks T))) by by apply list_elem_of_filter.
    destruct (Hs1 c Hc') as [E1 _], (Hs2 c Hc') as [E2 _]. congruence. }
  assert (Hnb : forall p y, w_pdos w !! p = Some y -> b ∉ BdoQueue y).
  { intros p y Hy Hin2. pose proof (wf_nodup _ _ Hw) as (_ & Hdis & _)%NoDup_app. apply (Hdis b); [by eapply leaves_elem|]. apply elem_of_keys. eauto. }
  eapply models_intro; [done|by apply (m_idle _ _ HM)|done| | |].
  - eapply wf_perm; [|eapply wf_write; [exact Hw1|done|]].
    + cbn. f_equiv. rewrite <-insert_delete_eq, keys_insert by apply lookup_delete_eq. by rewrite <-keys_delete.
    + unfold m'. rewrite Hm at 3. rewrite !length_app. lia.
  - intros p. left. split_and!; [done..|]. intros y Hy c Hc. apply Hsame; [apply elem_of_app; left; by eapply leaves_elem|]. intros ->. by eapply Hnb.
  - cbn. intros c u [[<- <-]|[Hne Hu]]%lookup_insert_Some.
    + unfold bytes_of. cbn. rewrite lookup_insert_eq. unfold bytes_in. cbn. rewrite HB, lookup_insert_eq. cbn [default from_option id].
      assert (Et : t = take (Z.to_nat (BlockSize x)) (drop (Z.to_nat (0 + Offset x)) m)).
      { rewrite <-Hbt. unfold bytes_of. rewrite Hb. unfold bytes_in. by rewrite HB, Hk. }
      assert (Etl : length t = Z.to_nat (BlockSize x)) by (rewrite Et, length_take, length_drop; lia).
      unfold m'. rewrite drop_app_le by lia. rewrite (assoc_L app), take_app_le by (rewrite length_app, length_drop; lia).
      rewrite take_ge by (rewrite length_app, length_drop; lia). f_equal. rewrite Et, skipn_firstn_comm. f_equal. lia.
    + rewrite <-(m_blocks _ _ HM c u Hu). apply Hsame; [apply elem_of_app; right; apply elem_of_keys; eauto|congruence].
Qed.

(** ** Shrinking *)

(** The bytes of [L] are left alone, and nothing else that matters changes. *)
Definition calm (w w' : world) (L : list positive) : Prop :=
  w_next w' = w_next w /\ (idle w -> idle w') /\ forall c, c ∈ L -> bytes_of w' c = bytes_of w c.
Lemma calm_refl w L : calm w w L.
Proof. by split_and!. Qed.
Lemma calm_trans w1 w2 w3 L L' : (forall c, c ∈ L -> c ∈ L') -> calm w1 w2 L -> calm w2 w3 L' -> calm w1 w3 L.
Proof.
  intros Hs (A1 & A2 & A3) (B1 & B2 & B3). split_and!; [congruence|auto|]. intros c Hc. by rewrite B3, A3 by auto.
Qed.
Lemma calm_weaken w w' L L' : (forall c, c ∈ L -> c ∈ L') -> calm w w' L' -> calm w w' L.
Proof. intros Hs (A1 & A2 & A3). split_and!; auto. Qed.
Lemma calm_content w w' L q : calm w w' L -> (forall c, c ∈ q -> c ∈ L) -> content w' q = content w q.
Proof. intros (_ & _ & Hb) Hq. apply content_ext. auto. Qed.
Lemma kept_calm w w' L L' : wf w L' -> (forall c, c ∈ L -> c ∈ L') -> kept w w' L -> calm w w' L.
Proof.
  intros Hw Hs (A1 & A2 & A3 & A4 & A5 & A6). split_and!; [by rewrite A1|unfold idle; by rewrite A3, A5|].
  intros c Hc. destruct (proj1 (wf_leaves _ _ Hw c) (Hs c Hc)) as (x & Hx & _). destruct (A6 c x Hc Hx) as [Hx' E]. unfold bytes_of. by rewrite Hx, Hx'.
Qed.
Lemma free_spec w L b : wf w (b :: L) -> exists w', AnscFreeBdo b w = Done (ANSC_STATUS_SUCCESS, w') /\ wf w' L /\ calm w w' L /\ w_pdos w' = w_pdos w.
Proof.
  intros Hw. destruct (AnscFreeBdo_spec _ _ _ Hw) as (w' & E & Hw' & Hk). exists w'. split_and!; [done..| |by apply Hk].
  eapply kept_calm; [done| |done]. by right.
Qed.

(** A descriptor of a packet is released. *)
Lemma delete_spec w p x q1 b q2 R : w_pdos w !! p = Some x -> BdoQueue x = q1 ++ b :: q2 -> wf w ((q1 ++ b :: q2) ++ R) -> exists w',
  AnscPdoDeleteBdo p b w = Done (ANSC_STATUS_SUCCESS, w') /\ wf w' ((q1 ++ q2) ++ R) /\ calm w w' ((q1 ++ q2) ++ R) /\
  w_pdos w' = <[p:=set_queue x (q1 ++ q2)]> (w_pdos w).
Proof.
  intros Hp Hq Hw. set (w1 := set_pdos (insert p (set_queue x (q1 ++ q2))) w).
  assert (Hnd : NoDup (q1 ++ b :: q2)) by by apply (wf_nodup _ _) in Hw as (? & _ & _)%NoDup_app.
  assert (E1 : AnscPdoDetachBdo p b w = Done (tt, w1)).
  { unfold AnscPdoDetachBdo. rewrite (change_queue_Done _ _ _ _ Hp), Hq, lremove_split by done. done. }
  destruct (free_spec w1 ((q1 ++ q2) ++ R) b) as (w' & E2 & Hw' & Hc & Hpd).
  { eapply wf_ext; [..|eapply wf_perm; [|exact Hw]]; [cbn; lia|done..|]. solve_Permutation. }
  exists w'. split_and!; [|done|exact Hc|done]. unfold AnscPdoDeleteBdo. by rewrite (CM_bind_Done _ _ _ _ _ E1).
Qed.
Lemma delete_bind {A} p b w w' (k : KM A) : AnscPdoDeleteBdo p b w = Done (ANSC_STATUS_SUCCESS, w') ->
  (_ ← AnscPdoDetachBdo p b; _ ← AnscFreeBdo b; k) w = k w'.
Proof.
  unfold AnscPdoDeleteBdo. unfold mbind, CM_bind. destruct (AnscPdoDetachBdo p b w) as [[[] w1]|]; [|done]. by intros ->.
Qed.
Lemma set_queue_twice x q1 q2 : set_queue (set_queue x q1) q2 = set_queue x q2.
Proof. done. Qed.
Lemma drop_all_spec p q : forall w x q1 R c l, w_pdos w !! p = Some x -> BdoQueue x = q1 ++ q -> wf w ((q1 ++ q) ++ R) -> exists w',
  shrink_left_loop p q true c l w = Done (tt, w') /\ wf w' (q1 ++ R) /\ calm w w' (q1 ++ R) /\ w_pdos w' = <[p:=set_queue x q1]> (w_pdos w).
Proof.
  induction q as [|b q IH]; intros w x q1 R c l Hp Hq Hw.
  - rewrite app_nil_r in *. exists w. split_and!; [done..|apply calm_refl|]. rewrite insert_id; [done|]. rewrite Hp, <-Hq. by destruct x.
  - destruct (delete_spec _ _ _ _ _ _ _ Hp Hq Hw) as (w1 & E1 & Hw1 & Hc1 & Hp1).
    destruct (IH w1 (set_queue x (q1 ++ q)) q1 R c l) as (w' & E2 & Hw' & Hc2 & Hp2); [rewrite Hp1; apply lookup_insert_eq|done|done|].
    exists w'. cbn [shrink_left_loop]. rewrite (delete_bind _ _ _ _ _ E1). split_and!; [done..| |].
    + eapply calm_trans; [|eapply calm_weaken; [|exact Hc1]|exact Hc2]; [done|]. intros d. rewrite !elem_of_app. tauto.
    + by rewrite Hp2, Hp1, insert_insert_eq.
Qed.

Lemma bytes_set_block_take bufs x n : inside bufs x -> 0 <= n <= BlockSize x ->
  inside bufs (set_block x (Offset x) n) /\ bytes_in bufs (set_block x (Offset x) n) = take (Z.to_nat n) (bytes_in bufs x).
Proof.
  intros (Ho & Hb & Hi) Hn. unfold inside, bytes_in. cbn. destruct (Buffer x) as [| |k i]; [rewrite take_nil; split_and!; done || lia|done|].
  destruct Hi as (Hi & m & Hk & Hm). rewrite Hk. cbn [default from_option id]. rewrite take_take. split.
  - split_and!; [done|lia|done|]. exists m. split; [done|lia].
  - f_equal. lia.
Qed.
Lemma bytes_set_block_drop bufs x n : inside bufs x -> 0 <= n <= BlockSize x ->
  inside bufs (set_block x (Offset x + n) (BlockSize x - n)) /\
  bytes_in bufs (set_block x (Offset x + n) (BlockSize x - n)) = drop (Z.to_nat n) (bytes_in bufs x).
Proof.
  intros (Ho & Hb & Hi) Hn. unfold inside, bytes_in. cbn. destruct (Buffer x) as [| |k i]; [rewrite drop_nil; split_and!; done || lia|done|].
  destruct Hi as (Hi & m & Hk & Hm). rewrite Hk. cbn [default from_option id]. split.
  - split_and!; [lia|lia|done|]. exists m. split; [done|lia].
  - rewrite skipn_firstn_comm, drop_drop. f_equal; [lia|]. f_equal. lia.
Qed.
(** The block of a held descriptor becomes a part of what it was. *)
Lemma set_block_spec w L b x offset size : wf w (b :: L) -> w_bdos w !! b = Some x -> inside (w_bufs w) (set_block x offset size) ->
  let w' := set_bdos (insert b (set_block x offset size)) w in
  wf w' (b :: L) /\ calm w w' L /\ bytes_of w' b = bytes_in (w_bufs w) (set_block x offset size).
Proof.
  intros Hw Hb Hi w'. destruct (wf_set_block _ _ _ _ _ _ Hw Hb Hi) as [Hw' Hs]. split; [done|]. split; [split; [cbn; lia|split; [done|]]|].
  - intros c Hc. apply Hs. apply list_elem_of_filter. split; [|by right]. intros ->. by destruct (wf_leaf _ _ _ Hw) as [? _].
  - unfold bytes_of. cbn. by rewrite lookup_insert_eq.
Qed.

(** The descriptors behind [b], whose text has become [t], are dropped. *)
Lemma shrink_finish w w1 p x q1 b q R c l : w_pdos w !! p = Some x -> BdoQueue x = q1 ++ b :: q -> forall t,
  wf w1 ((q1 ++ b :: q) ++ R) -> calm w w1 ((q1 ++ q) ++ R) -> w_pdos w1 = w_pdos w -> bytes_of w1 b = t ->
  content w q1 ++ t = take (Z.to_nat l) (content w (q1 ++ b :: q)) -> exists w' q',
  shrink_left_loop p q true c l w1 = Done (tt, w') /\ wf w' (q' ++ R) /\ calm w w' R /\
  w_pdos w' = <[p:=set_queue x q']> (w_pdos w) /\ content w' q' = take (Z.to_nat l) (content w (q1 ++ b :: q)).
Proof.
  intros Hp Hq t Hw1 Hc1 Hpd Hby Ey.
  destruct (drop_all_spec p q w1 x (q1 ++ [b]) R c l) as (w' & E & Hw' & Hc2 & Hp2);
    [by rewrite Hpd|by rewrite Hq, <-app_assoc|by rewrite <-!app_assoc in *|].
  assert (Hc : calm w w' (q1 ++ R)).
  { eapply calm_trans; [|eapply calm_weaken; [|exact Hc1]|exact Hc2]; intros d; rewrite !elem_of_app; tauto. }
  exists w', (q1 ++ [b]). split_and!; [done..| |by rewrite Hp2, Hpd|].
  - eapply calm_weaken; [|exact Hc]. intros d. rewrite elem_of_app. tauto.
  - rewrite content_app, (calm_content w w' _ q1 Hc), <-Ey by (intros d Hd; apply elem_of_app; auto). f_equal. rewrite <-Hby.
    destruct Hc2 as (_ & _ & Hc2). unfold content. cbn. rewrite app_nil_r. apply Hc2. rewrite !elem_of_app. left. right. by apply list_elem_of_singleton.
Qed.
Lemma shrink_left_loop_spec p q : forall w x q1 R l, w_pdos w !! p = Some x -> BdoQueue x = q1 ++ q -> wf w ((q1 ++ q) ++ R) ->
  Zlen (content w q1) < l <= Zlen (content w q1) + Zlen (content w q) -> Zlen (content w (q1 ++ q)) < 2 ^ ulong_bits -> exists w' q',
  shrink_left_loop p q false (Zlen (content w q1)) l w = Done (tt, w') /\ wf w' (q' ++ R) /\ calm w w' R /\
  w_pdos w' = <[p:=set_queue x q']> (w_pdos w) /\ content w' q' = take (Z.to_nat l) (content w (q1 ++ q)).
Proof.
  induction q as [|b q IH]; intros w x q1 R l Hp Hq Hw Hl Hf; [cbn in Hl; lia|].
  assert (Hin : in_store w (b :: q)) by (eapply wf_in_store; [done|]; intros d Hd; rewrite !elem_of_app; auto).
  apply in_store_cons in Hin as (Hin & y & Hy & Hiny & Hys & Hyb). rewrite content_app, content_cons, !length_app in Hf. rewrite content_cons, length_app in Hl.
  cbn [shrink_left_loop]. rewrite (CM_bind_Done _ _ _ _ _ (get_bdo_Done _ _ _ Hy)), Hys, ULONG_small by lia.
  assert (Ec : content w (q1 ++ [b]) = content w q1 ++ bytes_of w b) by (rewrite content_app; f_equal; apply app_nil_r).
  destruct (Z.ltb_spec (Zlen (content w q1) + Zlen (bytes_of w b)) l) as [Hlt|Hge].
  - assert (Hq' : BdoQueue x = (q1 ++ [b]) ++ q) by by rewrite Hq, <-app_assoc.
    rewrite <-Nat2Z.inj_add, <-length_app, <-Ec. replace (q1 ++ b :: q) with ((q1 ++ [b]) ++ q) in * by by rewrite <-app_assoc.
    apply IH; [done..|rewrite Ec, !length_app; lia|rewrite content_app, Ec, !length_app; lia].
  - destruct (Z.eqb_spec (Zlen (content w q1) + Zlen (bytes_of w b)) l) as [Heq|Hne].
    + apply (shrink_finish w w p x q1 b q R _ l Hp Hq (bytes_of w b)); [done|apply calm_refl|done..|]. rewrite content_app, content_cons, (assoc_L app), take_app_le by (rewrite length_app; lia).
      rewrite take_ge by (rewrite length_app; lia). done.
    + set (n := l - Zlen (content w q1)).
      assert (Eshr : AnscBdoShrinkLeft b (ULONG (Zlen (content w q1) + Zlen (bytes_of w b) - l)) w = Done (tt, set_bdos (insert b (set_block y (Offset y) n)) w)).
      { unfold AnscBdoShrinkLeft. rewrite (CM_bind_Done _ _ _ _ _ (get_bdo_Done _ _ _ Hy)), (ULONG_small (_ - l)) by lia.
        unfold put_bdo, modify. do 5 f_equal. rewrite Hys, ULONG_small by lia. unfold n. lia. }
      rewrite (CM_bind_Done _ _ _ _ _ Eshr). destruct (bytes_set_block_take _ y n Hiny ltac:(unfold n; lia)) as [Hi2 Hb2].
      destruct (set_block_spec w ((q1 ++ q) ++ R) b y (Offset y) n) as (Hw2 & Hc2 & Hbb); [eapply wf_perm; [|exact Hw]; solve_Permutation|done..|].
      eapply (shrink_finish w _ p x q1 b q R _ l Hp Hq (take (Z.to_nat n) (bytes_of w b))); [eapply wf_perm; [|exact Hw2]; solve_Permutation|done|done|by rewrite Hbb, Hb2, Hyb|].
      rewrite content_app, content_cons, take_app_ge by lia. f_equal. rewrite take_app_le by lia. f_equal. unfold n. lia.
Qed.
Lemma AnscPdoShrinkLeft_spec w T p s n : models w T -> t_packets T !! p = Some s -> 0 <= n -> exists w',
  AnscPdoShrinkLeft p n w = Done (if Zlen s <=? n then ANSC_STATUS_UNAPPLICABLE else ANSC_STATUS_SUCCESS, w') /\
  models w' (if Zlen s <=? n then T else Texts (<[p:=take (length s - Z.to_nat n) s]> (t_packets T)) (t_blocks T)) /\ w_next w' = w_next w.
Proof.
  intros HM Hp Hn. destruct (models_lookup _ _ _ _ HM Hp) as (x & Hx & Hs & Hlt & Hpl & Hl & Hw & Hin). unfold AnscPdoShrinkLeft.
  rewrite (CM_bind_Done _ _ _ _ _ (packet_size _ _ _ Hx Hin ltac:(by rewrite Hs))), Hs.
  destruct (Z.leb_spec (Zlen s) n) as [Hle|Hgt]; [by exists w|].
  rewrite (CM_bind_Done _ _ _ _ _ (the_queue_Done _ _ _ Hx)).
  destruct (shrink_left_loop_spec p (BdoQueue x) w x [] _ (Zlen s - n) Hx eq_refl Hw) as (w' & q' & E & Hw' & Hc & Hpd & Econt); [rewrite Hs; cbn; lia|cbn [app]; by rewrite Hs|].
  change (Zlen (content w [])) with 0 in E. rewrite (CM_bind_Done _ _ _ _ _ E). exists w'. split; [done|]. split; [|apply Hc].
  cbn [app] in Econt. rewrite Hs in Econt. replace (length s - Z.to_nat n)%nat with (Z.to_nat (Zlen s - n)) by lia. rewrite <-Econt.
  destruct Hc as (Hn1 & Hi1 & Hb1). eapply models_queue; try done; [by rewrite Hn1|]. rewrite Econt, length_take. lia.
Qed.

Lemma shrink_right_loop_spec p n q : forall w x R cur, w_pdos w !! p = Some x -> BdoQueue x = q -> wf w (q ++ R) -> 0 <= cur <= n ->
  cur + Zlen (content w q) < 2 ^ ulong_bits -> exists w' r q',
  shrink_right_loop p q cur n w = Done (r, w') /\ (exists u, q = u ++ q') /\ wf w' (q' ++ R) /\ calm w w' (q' ++ R) /\ w_pdos w' = <[p:=set_queue x q']> (w_pdos w) /\
  if n <? cur + Zlen (content w q) then
    exists b q2 cur' t, r = Some (b, cur') /\ q' = b :: q2 /\ cur' <= n < cur' + Zlen (bytes_of w' b) /\
      content w q = t ++ content w' q' /\ cur + Zlen t = cur'
  else r = None /\ q' = [].
Proof.
  induction q as [|b q IH]; intros w x R cur Hp Hq Hw Hc Hf.
  - exists w, None, []. cbn in *. rewrite (proj2 (Z.ltb_ge n _)) by lia. split_and!; try done; [by exists []|]. rewrite insert_id; [done|].
    rewrite Hp, <-Hq. by destruct x.
  - assert (Hin : in_store w (b :: q)) by (eapply wf_in_store; [done|]; intros d Hd; apply elem_of_app; auto).
    apply in_store_cons in Hin as (Hin & y & Hy & Hiny & Hys & Hyb). rewrite content_cons, length_app in Hf |- *.
    cbn [shrink_right_loop]. rewrite (CM_bind_Done _ _ _ _ _ (get_bdo_Done _ _ _ Hy)), Hys, ULONG_small by lia.
    destruct (Z.leb_spec (cur + Zlen (bytes_of w b)) n) as [Hle|Hgt].
    + destruct (delete_spec w p x [] b q R Hp Hq Hw) as (w1 & E1 & Hw1 & Hc1 & Hp1). cbn [app] in *.
      assert (Ec : content w1 q = content w q) by (apply (calm_content _ _ _ _ Hc1); intros d Hd; apply elem_of_app; auto).
      destruct (IH w1 (set_queue x q) R (cur + Zlen (bytes_of w b))) as (w' & r & q' & E2 & Hsuf & Hw' & Hc2 & Hp2 & Hr);
        [rewrite Hp1; apply lookup_insert_eq|done|done|lia|rewrite Ec; lia|].
      exists w', r, q'. rewrite (delete_bind _ _ _ _ _ E1). split_and!; [done| |done| | |].
      * destruct Hsuf as [u ->]. by exists (b :: u).
      * eapply calm_trans; [|eapply calm_weaken; [|exact Hc1]|exact Hc2]; [done|].
        destruct Hsuf as [u ->]. intros d. rewrite !elem_of_app. tauto.
      * by rewrite Hp2, Hp1, insert_insert_eq.
      * rewrite Ec in Hr. replace (cur + Z.of_nat (length (bytes_of w b) + length (content w q))) with (cur + Zlen (bytes_of w b) + Zlen (content w q)) by lia.
        destruct (n <? _); [|done]. destruct Hr as (b' & q2 & cur' & t & -> & -> & Hr1 & Hr2 & Hr3).
        exists b', q2, cur', (bytes_of w b ++ t). split_and!; [done|done|lia|lia| |rewrite length_app; lia]. by rewrite <-app_assoc, <-Hr2.
    + rewrite (proj2 (Z.ltb_lt n _)) by lia. exists w, (Some (b, cur)), (b :: q). split; [done|]. split; [by exists []|]. split; [done|]. split; [apply calm_refl|]. split.
      * rewrite insert_id; [done|]. rewrite Hp, <-Hq. by destruct x.
      * exists b, q, cur, []. split_and!; [done|done|lia|lia|done|cbn; lia].
Qed.
Lemma AnscPdoShrinkRight_spec w T p s n : models w T -> t_packets T !! p = Some s -> 0 <= n -> exists w',
  AnscPdoShrinkRight p n w = Done (if Zlen s <=? n then ANSC_STATUS_BAD_SIZE else ANSC_STATUS_SUCCESS, w') /\
  models w' (Texts (<[p:=drop (Z.to_nat n) s]> (t_packets T)) (t_blocks T)) /\ w_next w' = w_next w.
Proof.
  intros HM Hp Hn. destruct (models_lookup _ _ _ _ HM Hp) as (x & Hx & Hs & Hlt & Hpl & Hl & Hw & Hin). unfold AnscPdoShrinkRight.
  rewrite (CM_bind_Done _ _ _ _ _ (the_queue_Done _ _ _ Hx)).
  destruct (shrink_right_loop_spec p n (BdoQueue x) w x _ 0 Hx eq_refl Hw) as (w1 & r & q' & E & _ & Hw1 & Hc & Hpd & Hr); [lia|by rewrite Hs|].
  rewrite (CM_bind_Done _ _ _ _ _ E). rewrite Hs, Z.add_0_l in Hr.
  assert (Hfin : forall w2, wf w2 (q' ++ leaves (delete p (w_pdos w)) ++ keys (t_blocks T)) -> calm w1 w2 (leaves (delete p (w_pdos w)) ++ keys (t_blocks T)) ->
    w_pdos w2 = w_pdos w1 -> content w2 q' = drop (Z.to_nat n) s -> models w2 (Texts (<[p:=drop (Z.to_nat n) s]> (t_packets T)) (t_blocks T)) /\ w_next w2 = w_next w).
  { intros w2 Hw2 Hc2 Hp2 Econt. rewrite <-Econt.
    destruct (calm_trans w w1 w2 _ _ ltac:(done) (calm_weaken _ _ _ _ ltac:(intros c Hc'; apply elem_of_app; by right) Hc) Hc2) as (Hn2 & Hi2 & Hb2).
    split; [|done]. eapply models_queue; try done; [by rewrite Hn2|by rewrite Hp2|]. rewrite Econt, length_drop. lia. }
  destruct (Z.ltb_spec n (Zlen s)) as [Hlt2|Hge].
  - destruct Hr as (b & q2 & cur' & t & -> & -> & Hr1 & Hr2 & Hr3). rewrite (proj2 (Z.leb_gt _ n)) by lia. cbn [app] in Hw1.
    assert (Hin1 : in_store w1 (b :: q2)) by (eapply wf_in_store; [exact Hw1|]; intros d Hd; apply (elem_of_app (b :: q2)); auto).
    apply in_store_cons in Hin1 as (_ & y & Hy & Hiny & Hys & Hyb). rewrite Z.add_0_l in Hr3. set (k := n - cur').
    pose proof Hiny as (Hoy & _ & Hiy). pose proof (block_fits _ _ _ _ Hw1 Hy) as Hfit.
    assert (Hoff : Offset y + k < 2 ^ ulong_bits).
    { destruct (Buffer y) as [| |kk i]; [lia|done|]. destruct Hiy as (Hi & m & Hk & Hm). apply (wf_bufs _ _ Hw1) in Hk as (_ & Hlm & _). lia. }
    assert (Eshr : AnscBdoShrinkRight b (ULONG (n - cur')) w1 = Done (tt, set_bdos (insert b (set_block y (Offset y + k) (BlockSize y - k))) w1)).
    { unfold AnscBdoShrinkRight. rewrite (CM_bind_Done _ _ _ _ _ (get_bdo_Done _ _ _ Hy)). unfold k in *.
      rewrite !(ULONG_small) by (rewrite ?ULONG_small; lia). done. }
    rewrite (CM_bind_Done _ _ _ _ _ Eshr). eexists. split; [done|].
    destruct (bytes_set_block_drop _ y k Hiny ltac:(unfold k; lia)) as [Hi2 Hb2].
    destruct (set_block_spec w1 _ b y (Offset y + k) (BlockSize y - k) Hw1 Hy Hi2) as (Hw2 & Hc2 & Hbb).
    apply Hfin; [exact Hw2|eapply calm_weaken; [|exact Hc2]; intros c Hcc; apply elem_of_app; by right|done|].
    rewrite content_cons, Hbb, Hb2, Hyb. rewrite (calm_content _ _ _ q2 Hc2) by (intros d Hd; apply elem_of_app; by left).
    rewrite Hr2, content_cons, drop_app_ge by lia. rewrite drop_app_le by lia. do 2 f_equal. unfold k. lia.
  - destruct Hr as [-> ->]. rewrite (proj2 (Z.leb_le _ n)) by lia. exists w1. split; [done|].
    apply Hfin; [done|apply calm_refl|done|]. rewrite drop_ge by lia. done.
Qed.

(** ** Releasing *)

Lemma AnscFreeBdo_text w T b s : models w T -> t_blocks T !! b = Some s -> exists w',
  AnscFreeBdo b w = Done (ANSC_STATUS_SUCCESS, w') /\ models w' (Texts (t_packets T) (delete b (t_blocks T))) /\ w_next w' = w_next w.
Proof.
  intros HM Hb. destruct (free_spec w (leaves (w_pdos w) ++ keys (delete b (t_blocks T))) b) as (w' & E & Hw' & (Hn & Hi & Hby) & Hpd).
  { eapply wf_perm; [|exact (m_wf _ _ HM)]. rewrite (keys_delete _ b s) by done. solve_Permutation. }
  exists w'. split; [done|]. split; [|done]. eapply models_intro; [done|by apply Hi, (m_idle _ _ HM)|by rewrite Hn|by rewrite Hpd| |].
  - intros p. left. split_and!; [by rewrite Hpd|done|]. intros x Hx c Hc. apply Hby, elem_of_app. left. by eapply leaves_elem.
  - cbn. intros c t Hc. rewrite Hby; [by apply lookup_delete_Some in Hc as [_ Hc]; apply (m_blocks _ _ HM)|].
    apply elem_of_app. right. apply elem_of_keys. eauto.
Qed.
Lemma the_pools_bind {A} (k : pools -> KM A) w : (the_pools ≫= k) w = k (w_pools w) w.
Proof. done. Qed.
Lemma AnscFreePdo_spec w T p s : models w T -> t_packets T !! p = Some s -> exists w',
  AnscFreePdo p w = Done (ANSC_STATUS_SUCCESS, w') /\ models w' (Texts (delete p (t_packets T)) (t_blocks T)) /\ w_next w' = w_next w.
Proof.
  intros HM Hp. destruct (models_lookup _ _ _ _ HM Hp) as (x & Hx & Hs & Hlt & [Hpl1 Hpl2] & Hl & Hw & Hin).
  destruct (free_bdos_spec (BdoQueue x) w _ Hw) as (w1 & E1 & Hw1 & Hk1).
  assert (Hc1 : calm w w1 (leaves (delete p (w_pdos w)) ++ keys (t_blocks T))).
  { eapply kept_calm; [done| |done]. intros c Hc. apply elem_of_app. by right. }
  assert (Hp1 : w_pdos w1 = w_pdos w) by apply Hk1. destruct Hc1 as (Hn1 & Hi1 & Hb1).
  assert (E2 : AnscPdoCleanBdoQueue p w = Done (tt, set_pdos (insert p (set_queue x [])) w1)).
  { unfold AnscPdoCleanBdoQueue. rewrite (CM_bind_Done _ _ _ _ _ (the_queue_Done _ _ _ Hx)), (CM_bind_Done _ _ _ _ _ E1).
    by rewrite (change_queue_Done _ _ x) by by rewrite Hp1. }
  set (w2 := set_pdos (insert p (set_queue x [])) w1) in *. assert (Hx2 : w_pdos w2 !! p = Some (set_queue x [])) by apply lookup_insert_eq.
  assert (E3 : AnscFreePdo2 p w = Done (ANSC_STATUS_SUCCESS, set_pdos (delete p) w2)).
  { unfold AnscFreePdo2. rewrite (CM_bind_Done _ _ _ _ _ E2), (CM_bind_Done _ _ _ _ _ (get_pdo_Done _ _ _ Hx2)). cbn [set_queue pdo_pfnFreeMe]. rewrite Hpl2.
    unfold free_pdo. rewrite (CM_bind_Done _ _ _ tt (set_pdos (delete p) w2)); [done|]. by rewrite (CM_bind_Done _ _ _ _ _ (get_pdo_Done _ _ _ Hx2)). }
  exists (set_pdos (delete p) w2). split_and!; [| |done].
  - unfold AnscFreePdo, AnscReleasePdo. cbn [g_bPdoPoolingEnabled negb]. rewrite (CM_bind_Done _ _ _ _ _ (get_pdo_Done _ _ _ Hx)), Hpl2.
    rewrite the_pools_bind, (proj2 (Z.leb_le _ _)) by apply USHORT_bound. by rewrite (CM_bind_eq _ _ _ _ E3).
  - assert (Ep : delete p (<[p:=set_queue x []]> (w_pdos w1)) = delete p (w_pdos w)) by by rewrite delete_insert_eq, Hp1.
    eapply models_intro; [done|by apply Hi1, (m_idle _ _ HM)|by cbn; rewrite Hn1|cbn; rewrite Ep; eapply wf_ext; [..|exact Hw1]; done| |].
    + intros d. destruct (decide (d = p)) as [->|Hd].
      * right. unfold touched. cbn. by rewrite !lookup_delete_eq.
      * left. unfold untouched. cbn. rewrite Ep, !lookup_delete_ne by done. split_and!; [done..|]. intros y Hy c Hc. apply Hb1, elem_of_app. left.
        eapply leaves_elem; [|done]. by rewrite lookup_delete_ne.
    + intros b t Hb. rewrite <-(m_blocks _ _ HM b t Hb). apply Hb1, elem_of_app. right. apply elem_of_keys. eauto.
Qed.
End packets.
