(* ===== verification/PacketCut.v ===== *)
(** * Cutting, joining and copying packets

    Breaking a block in two leaves the bytes of its packet as they are, and the
    operations that move blocks move the bytes the offsets say. *)

From S2P Require Import Prelude Links Checksum Packet PacketMem PacketThms.
Open Scope Z_scope.

Section packets.
Context `{Platform}.

(** ** The number of descriptors *)

Lemma positives_bound (l : list positive) (n : positive) : NoDup l -> (forall x, x ∈ l -> (x < n)%positive) -> Zlen l < Z.pos n.
Proof.
  intros Hd Hl. assert (Hs : (length (Pos.to_nat <$> l) <= length (seq 1 (Pos.to_nat n - 1)))%nat).
  { apply submseteq_length, NoDup_submseteq; [by apply (NoDup_fmap_2 _)|]. intros y (x & -> & Hx)%list_elem_of_fmap. apply elem_of_seq. specialize (Hl x Hx). lia. }
  rewrite length_fmap, length_seq in Hs. lia.
Qed.
Lemma held_bound w L : wf w L -> Zlen L < Z.pos (w_next w).
Proof.
  intros Hw. apply positives_bound; [by apply (wf_nodup _ _ Hw)|]. intros b (x & Hx & _)%(wf_leaves _ _ Hw). by apply (wf_fresh _ _ _ _ Hw) in Hx.
Qed.
Lemma count_bound w L b x : wf w L -> w_bdos w !! b = Some x -> RefCount x < Z.pos (w_next w).
Proof.
  intros Hw Hb. rewrite (ok_count _ _ _ (wf_each _ _ Hw b x Hb)). unfold references.
  assert (Hs : Zlen (map_to_list (w_bdos w)).*1 < Z.pos (w_next w)).
  { apply positives_bound; [apply NoDup_fst_map_to_list|]. intros c ((c' & y) & -> & Hy%elem_of_map_to_list)%list_elem_of_fmap. by apply (wf_fresh _ _ _ _ Hw) in Hy. }
  rewrite length_fmap in Hs. pose proof (length_filter (fun cx : positive * ANSC_BUFFER_DESCRIPTOR => parent cx.2 = Some b) (map_to_list (w_bdos w))). lia.
Qed.

(** ** Breaking *)

Lemma make_sons_Done w x owner z n : idle w -> w_bdos w !! owner = Some z -> (owner < w_next w)%positive ->
  make_sons x owner (w_next w) (Pos.succ (w_next w)) (place_add (AnscBdoGetBlock x) n) n (with_bdo (with_bdo w 0 0 0) 0 0 0) =
  Done (tt, with_sons w x owner z n).
Proof.
  intros Hi Ho Hlt. assert (Hi2 : idle (with_bdo w 0 0 0)) by (destruct Hi as (?&?&?); by split_and!).
  rewrite <-(make_sons_eq w x owner z n Hi Ho Hlt).
  rewrite (CM_bind_Done _ _ _ _ _ (AnscAllocateBdo_fresh w 0 0 0 Hi)), (CM_bind_Done _ _ _ _ _ (AnscAllocateBdo_fresh _ 0 0 0 Hi2)). done.
Qed.
Lemma two_bdos {A} (k : option positive -> option positive -> KM A) w : idle w ->
  (b1 ← AnscAllocateBdo 0 0 0; b2 ← AnscAllocateBdo 0 0 0; k b1 b2) w =
  k (Some (w_next w)) (Some (Pos.succ (w_next w))) (with_bdo (with_bdo w 0 0 0) 0 0 0).
Proof.
  intros Hi. assert (Hi2 : idle (with_bdo w 0 0 0)) by (destruct Hi as (?&?&?); by split_and!).
  by rewrite (CM_bind_Done _ _ _ _ _ (AnscAllocateBdo_fresh w 0 0 0 Hi)), (CM_bind_Done _ _ _ _ _ (AnscAllocateBdo_fresh _ 0 0 0 Hi2)).
Qed.
Lemma set_queue_same w p x q q' : set_pdos (insert p (set_queue (set_queue x q) q')) (set_pdos (insert p (set_queue x q)) w) = set_pdos (insert p (set_queue x q')) w.
Proof. unfold set_pdos. cbn. by rewrite insert_insert_eq. Qed.
Lemma replace_in_queue (b c d : positive) q1 q2 : b ∉ q1 -> b ∉ q2 -> c ≠ b -> d ≠ b ->
  lremove b (linsert_after b c (linsert_after b d (q1 ++ b :: q2))) = q1 ++ c :: d :: q2.
Proof.
  intros H1 H2 Hc Hd. rewrite !linsert_after_split by done. unfold lremove. rewrite filter_app, filter_cons_False, !filter_cons_True by auto.
  change (lremove b q1 ++ c :: d :: lremove b q2 = q1 ++ c :: d :: q2). by rewrite !lremove_absent.
Qed.
Lemma place_sub_add x n k i : Buffer x = At k i -> 0 <= n < 2 ^ ulong_bits ->
  place_sub (place_add (AnscBdoGetBlock x) n) (AnscBdoGetBlock x) = n.
Proof. intros HB Hn. unfold AnscBdoGetBlock. rewrite HB. cbn. rewrite <-(ULONG_small n) at 2 by done. f_equal. lia. Qed.

(** The two sons take the place of the descriptor in the packet. *)
Lemma replace_by_sons_spec w p x q1 b q2 R y owner z n k i j : wf w ((q1 ++ b :: q2) ++ R) -> idle w -> w_pdos w !! p = Some x ->
  BdoQueue x = q1 ++ b :: q2 -> w_bdos w !! b = Some y -> Buffer y = At k i -> w_bdos w !! owner = Some z -> Buffer z = At k j ->
  0 <= n <= BlockSize y -> RefCount z + 2 < 2 ^ ulong_bits ->
  let w' := set_pdos (insert p (set_queue x (q1 ++ w_next w :: Pos.succ (w_next w) :: q2))) (with_sons w y owner z n) in
  replace_by_sons p b y owner (place_add (AnscBdoGetBlock y) n) w = Done (ANSC_STATUS_SUCCESS, w') /\
  wf w' (w_next w :: Pos.succ (w_next w) :: lremove owner ((q1 ++ b :: q2) ++ R)) /\
  (forall c, c ∈ (q1 ++ b :: q2) ++ R -> c ≠ owner -> bytes_of w' c = bytes_of w c) /\
  bytes_of w' (w_next w) ++ bytes_of w' (Pos.succ (w_next w)) = bytes_of w b /\ Zlen (bytes_of w' (w_next w)) = n.
Proof.
  intros Hw Hi Hp Hq Hb HB Ho HBz Hn Hr w'. pose proof (wf_fresh _ _ _ _ Hw Hb) as Hlb. pose proof (wf_fresh _ _ _ _ Hw Ho) as Hlo.
  pose proof (ok_inside _ _ _ (wf_each _ _ Hw b y Hb)) as Hin. pose proof (block_fits _ _ _ _ Hw Hb) as Hfit.
  destruct (wf_with_sons w _ y owner z n k i j Hw HB Hin Hn Ho HBz Hr) as (Hw' & Hs & E1 & E2).
  pose proof (wf_nodup _ _ Hw) as (Hnd & _ & _)%NoDup_app. apply NoDup_middle in Hnd as [Hnb%not_elem_of_app _].
  split; [|split_and!].
  - unfold replace_by_sons. rewrite two_bdos by done. rewrite (place_sub_add y n k i) by (done || lia).
    rewrite (CM_bind_Done _ _ _ _ _ (make_sons_Done _ _ _ _ _ Hi Ho Hlo)). set (w1 := with_sons w y owner z n).
    unfold AnscPdoInsertBdoAfter, AnscPdoDetachBdo. rewrite (CM_bind_Done _ _ _ _ _ (change_queue_Done w1 p x _ Hp)).
    rewrite (CM_bind_Done _ _ _ _ _ (change_queue_Done _ p _ _ (lookup_insert_eq _ _ _))), set_queue_same.
    rewrite (CM_bind_Done _ _ _ _ _ (change_queue_Done _ p _ _ (lookup_insert_eq _ _ _))), set_queue_same.
    cbn [set_queue BdoQueue]. rewrite Hq, replace_in_queue by (lia || tauto). done.
  - eapply wf_ext; [..|exact Hw']; done.
  - intros c Hc Hne. apply (Hs c). apply list_elem_of_filter. done.
  - transitivity (bytes_in (w_bufs w) y); [|unfold bytes_of; by rewrite Hb]. rewrite <-(take_drop (Z.to_nat n) (bytes_in _ y)). f_equal; [exact E1|exact E2].
  - replace (bytes_of w' (w_next w)) with (take (Z.to_nat n) (bytes_in (w_bufs w) y)) by (symmetry; exact E1).
    pose proof (bytes_length _ _ Hin). rewrite length_take. lia.
Qed.

(** The descriptor an offset is in, and the place there. *)
Lemma by_offset w p x off : w_pdos w !! p = Some x -> in_store w (BdoQueue x) -> 0 <= off -> Zlen (content w (BdoQueue x)) < 2 ^ ulong_bits ->
  if off <? Zlen (content w (BdoQueue x)) then
    exists q1 b q2 y k i, BdoQueue x = q1 ++ b :: q2 /\ w_bdos w !! b = Some y /\ Buffer y = At k i /\
      AnscPdoGetBdoByOffset p off w = Done (Some b, w) /\
      AnscPdoGetBufferByOffset p off w = Done (place_add (AnscBdoGetBlock y) (off - Zlen (content w q1)), w) /\
      0 <= off - Zlen (content w q1) < BlockSize y /\ bytes_of w b = bytes_in (w_bufs w) y /\ BlockSize y = Zlen (bytes_of w b)
  else AnscPdoGetBdoByOffset p off w = Done (None, w) /\ AnscPdoGetBufferByOffset p off w = Done (Null, w).
Proof.
  intros Hp Hq Ho Hf. pose proof (find_bdo_spec w (BdoQueue x) 0 off Hq ltac:(lia) ltac:(by rewrite Z.add_0_l)) as Hfind. rewrite Z.add_0_l in Hfind.
  unfold AnscPdoGetBdoByOffset, AnscPdoGetBufferByOffset. rewrite !(CM_bind_Done _ _ _ _ _ (the_queue_Done _ _ _ Hp)).
  destruct (Z.ltb_spec off (Zlen (content w (BdoQueue x)))) as [Hlt|_]; [|by rewrite !(CM_bind_Done _ _ _ _ _ Hfind)].
  destruct Hfind as (q1 & b & q2 & Eq & E & Hr). rewrite !Z.add_0_l in E, Hr. rewrite !(CM_bind_Done _ _ _ _ _ E).
  assert (Hin : in_store w (b :: q2)) by (rewrite Eq in Hq; by apply Forall_app in Hq as [_ ?]).
  apply in_store_cons in Hin as (_ & y & Hy & Hi & Hs & Hb). destruct (Buffer y) as [| |k i] eqn:HB.
  - destruct Hi as (_ & _ & Hi). rewrite HB in Hi. lia.
  - destruct Hi as (_ & _ & Hi). by rewrite HB in Hi.
  - exists q1, b, q2, y, k, i. rewrite (CM_bind_Done _ _ _ _ _ (get_bdo_Done _ _ _ Hy)), ULONG_small by lia.
    split_and!; [done..|lia|lia|done|done].
Qed.

(** A packet whose blocks meet at an offset. *)
Definition cut_at (w : world) (p : positive) (off : Z) : Prop :=
  exists x q1 q2, w_pdos w !! p = Some x /\ BdoQueue x = q1 ++ q2 /\ Zlen (content w q1) = off.
Definition break_status (off : Z) (s : list Z) : ANSC_STATUS := if Zlen s <=? off then ANSC_STATUS_UNAPPLICABLE else ANSC_STATUS_SUCCESS.

(** A descriptor [b] of a packet becomes two whose bytes are its bytes. *)
Lemma models_broken w w' T p x q1 b q2 c d : models w T -> w_pdos w !! p = Some x -> BdoQueue x = q1 ++ b :: q2 -> (idle w -> idle w') ->
  (w_next w <= w_next w')%positive -> w_pdos w' = <[p:=set_queue x (q1 ++ c :: d :: q2)]> (w_pdos w) ->
  wf w' ((q1 ++ c :: d :: q2) ++ leaves (delete p (w_pdos w)) ++ keys (t_blocks T)) ->
  (forall e, e ∈ (q1 ++ q2) ++ leaves (delete p (w_pdos w)) ++ keys (t_blocks T) -> bytes_of w' e = bytes_of w e) ->
  bytes_of w' c ++ bytes_of w' d = bytes_of w b -> models w' T /\ cut_at w' p (Zlen (content w q1) + Zlen (bytes_of w' c)).
Proof.
  intros HM Hp Hq Hi Hn Hpd Hw' Hb Ecd. assert (E1 : content w' q1 = content w q1).
  { apply content_ext. intros e He. apply Hb. rewrite !elem_of_app. auto. }
  assert (Ec : content w' (q1 ++ c :: d :: q2) = content w (BdoQueue x)).
  { rewrite Hq, !content_app, !content_cons, (assoc_L app (bytes_of w' c)), Ecd, E1. do 2 f_equal.
    apply content_ext. intros e He. apply Hb. rewrite !elem_of_app. auto. }
  split.
  - pose proof (m_packets _ _ HM p) as Et. rewrite Hp in Et. cbn in Et. destruct (m_each _ _ HM p x Hp) as (_ & _ & Hl).
    replace T with (Texts (<[p:=content w' (q1 ++ c :: d :: q2)]> (t_packets T)) (t_blocks T)).
    + eapply models_queue; try done; [|by rewrite Ec]. intros e He. apply Hb, elem_of_app. by right.
    + rewrite Ec, insert_id by done. by destruct T.
  - eexists _, (q1 ++ [c]), (d :: q2). rewrite Hpd, lookup_insert_eq. split_and!; [done|cbn; by rewrite <-app_assoc|].
    rewrite content_app, E1. cbn [content mbind list_bind]. rewrite app_nil_r, length_app. lia.
Qed.

(** The place is the start of a block. *)
Lemma at_start w p off x q1 b q2 : w_pdos w !! p = Some x -> BdoQueue x = q1 ++ b :: q2 -> off - Zlen (content w q1) = 0 -> cut_at w p off.
Proof. intros Hp Hq E. exists x, q1, (b :: q2). split_and!; [done..|lia]. Qed.
Lemma leaf_bdo w L b y : wf w L -> b ∈ L -> w_bdos w !! b = Some y -> RefCount y = 0.
Proof. intros Hw Hb Hy. destruct (proj1 (wf_leaves _ _ Hw b) Hb) as (y' & Hy' & Hr). congruence. Qed.
Lemma place_add_start x n k i : Buffer x = At k i -> place_add (AnscBdoGetBlock x) n = AnscBdoGetBlock x <-> n = 0.
Proof.
  intros HB. unfold AnscBdoGetBlock. rewrite HB. cbn. split; [intros [= E]; lia|intros ->]. by rewrite Z.add_0_r.
Qed.
Lemma AnscPdoBreakAt_spec w T p s off : models w T -> t_packets T !! p = Some s -> 0 <= off -> exists w',
  AnscPdoBreakAt p off w = Done (break_status off s, w') /\ models w' T /\ grows w w' /\ (off < Zlen s -> cut_at w' p off).
Proof.
  intros HM Hp Ho. destruct (models_lookup _ _ _ _ HM Hp) as (x & Hx & Hs & Hlt & Hpl & Hl & Hw & Hin).
  pose proof (by_offset w p x off Hx Hin Ho ltac:(by rewrite Hs)) as Hby. rewrite Hs in Hby. unfold AnscPdoBreakAt, break_status.
  destruct (Z.ltb_spec off (Zlen s)) as [Hlo|Hge].
  - rewrite (proj2 (Z.leb_gt _ _)) by lia. destruct Hby as (q1 & b & q2 & y & k & i & Hq & Hy & HB & E1 & E2 & Hn & Hbb & Hsz).
    rewrite (CM_bind_Done _ _ _ _ _ E1), (CM_bind_Done _ _ _ _ _ E2), (CM_bind_Done _ _ _ _ _ (get_bdo_Done _ _ _ Hy)).
    set (n := off - Zlen (content w q1)) in *. case_decide as Hd; rewrite (place_add_start y n k i HB) in Hd.
    + exists w. split_and!; [done|done|by apply grows_same|]. intros _. by eapply at_start.
    + rewrite Hq in Hw. pose proof ulong_modulus_ge.
      assert (Hr : RefCount y = 0) by (eapply leaf_bdo; [exact Hw|rewrite !elem_of_app; left; right; left|done]).
      destruct (replace_by_sons_spec w p x q1 b q2 _ y b y n k i i Hw (m_idle _ _ HM) Hx Hq Hy HB Hy HB ltac:(lia) ltac:(lia)) as (E3 & Hw' & Hby & Ecd & Ec).
      match type of E3 with _ = Done (_, ?w1) => set (w' := w1) in * end. exists w'. split; [exact E3|].
      assert (Hnb : lremove b ((q1 ++ b :: q2) ++ leaves (delete p (w_pdos w)) ++ keys (t_blocks T)) =
                    (q1 ++ q2) ++ leaves (delete p (w_pdos w)) ++ keys (t_blocks T)).
      { pose proof (wf_nodup _ _ Hw) as Hnd. rewrite <-app_assoc in Hnd |- *. cbn [app] in *. rewrite lremove_split by done. by rewrite <-app_assoc. }
      rewrite Hnb in Hw'. destruct (models_broken w w' T p x q1 b q2 (w_next w) (Pos.succ (w_next w))) as [HM' Hcut]; try done.
      * intros (? & ? & ?). by split_and!.
      * cbn; lia.
      * eapply wf_perm; [|exact Hw']. solve_Permutation.
      * intros e He. apply Hby.
        -- rewrite !elem_of_app, elem_of_cons in *. tauto.
        -- intros ->. rewrite <-Hnb in He. by apply elem_of_lremove in He as [? _].
      * split_and!; [done|unfold grows; cbn; lia|]. intros _. by replace off with (Zlen (content w q1) + Zlen (bytes_of w' (w_next w))) by (unfold n in Ec; lia).
  - rewrite (proj2 (Z.leb_le _ _)) by lia. destruct Hby as [E1 E2]. rewrite (CM_bind_Done _ _ _ _ _ E1), (CM_bind_Done _ _ _ _ _ E2).
    exists w. split_and!; [done|done|by apply grows_same|lia].
Qed.

(** The buffer that another descriptor's son has is broken for that one, and
    the son released. *)
Lemma AnscPdoBreakAt2_spec w T p s off : models w T -> t_packets T !! p = Some s -> 0 <= off -> Z.pos (w_next w) + 2 < 2 ^ ulong_bits -> exists w',
  AnscPdoBreakAt2 p off w = Done (break_status off s, w') /\ models w' T /\ grows w w' /\ (off < Zlen s -> cut_at w' p off).
Proof.
  intros HM Hp Ho Hfew. pose proof (AnscPdoBreakAt_spec w T p s off HM Hp Ho) as Hone.
  destruct (models_lookup _ _ _ _ HM Hp) as (x & Hx & Hs & Hlt & Hpl & Hl & Hw & Hin).
  pose proof (by_offset w p x off Hx Hin Ho ltac:(by rewrite Hs)) as Hby. rewrite Hs in Hby. unfold AnscPdoBreakAt2.
  destruct (Z.ltb_spec off (Zlen s)) as [Hlo|Hge].
  - destruct Hby as (q1 & b & q2 & y & k & i & Hq & Hy & HB & E1 & E2 & Hn & Hbb & Hsz).
    rewrite (CM_bind_Done _ _ _ _ _ E1), (CM_bind_Done _ _ _ _ _ E2), (CM_bind_Done _ _ _ _ _ (get_bdo_Done _ _ _ Hy)).
    set (n := off - Zlen (content w q1)) in *. case_decide as Hd; rewrite (place_add_start y n k i HB) in Hd.
    + exists w. unfold break_status. rewrite (proj2 (Z.leb_gt _ _)) by lia. split_and!; [done|done|by apply grows_same|]. intros _. by eapply at_start.
    + rewrite Hq in Hw. pose proof (ok_kind _ _ _ (wf_each _ _ Hw b y Hy)) as Hk. unfold kind_ok in Hk.
      destruct (bOwner y); [done|]. destruct (bdo_hOwnerObject y) as [g|] eqn:Eg; [|done]. destruct (bdo_pfnFreeMe y) as [[]|] eqn:Ef; try done.
      assert (Hpar : parent y = Some g) by (unfold parent; by rewrite Ef). rewrite Hpar in Hk. destruct Hk as (_ & _ & z & k' & i' & j & Hg & HB' & HBz).
      rewrite HB in HB'. injection HB' as <- <-. pose proof (count_bound _ _ _ _ Hw Hg) as Hcount.
      destruct (replace_by_sons_spec w p x q1 b q2 _ y g z n k i j Hw (m_idle _ _ HM) Hx Hq Hy HB Hg HBz ltac:(lia) ltac:(lia)) as (E3 & Hw1 & Hby & Ecd & Ec).
      match type of E3 with _ = Done (_, ?w0) => set (w1 := w0) in * end.
      assert (Hng : g ∉ (q1 ++ b :: q2) ++ leaves (delete p (w_pdos w)) ++ keys (t_blocks T)).
      { intros Hin2. pose proof (leaf_bdo _ _ _ _ Hw Hin2 Hg) as Hrz. apply (references_zero (w_bdos w) g b y); [|done|done].
        by rewrite <-(ok_count _ _ _ (wf_each _ _ Hw g z Hg)). }
      rewrite lremove_absent in Hw1 by done.
      destruct (free_spec w1 ((q1 ++ w_next w :: Pos.succ (w_next w) :: q2) ++ leaves (delete p (w_pdos w)) ++ keys (t_blocks T)) b)
        as (w' & E4 & Hw' & (Hn' & Hi' & Hby') & Hpd').
      { eapply wf_perm; [|exact Hw1]. solve_Permutation. }
      exists w'. unfold break_status. rewrite (proj2 (Z.leb_gt _ _)) by lia. rewrite (CM_bind_Done _ _ _ _ _ E3), (CM_bind_Done _ _ _ _ _ E4).
      assert (Hc : bytes_of w' (w_next w) = bytes_of w1 (w_next w)) by (apply Hby'; rewrite !elem_of_app, !elem_of_cons; auto).
      destruct (models_broken w w' T p x q1 b q2 (w_next w) (Pos.succ (w_next w))) as [HM' Hcut]; try done.
      * intros (? & ? & ?). apply Hi'. by split_and!.
      * rewrite Hn'. cbn; lia.
      * intros e He. rewrite Hby' by (rewrite !elem_of_app, !elem_of_cons in *; tauto). apply Hby.
        -- rewrite !elem_of_app, !elem_of_cons in *. tauto.
        -- intros ->. apply Hng. rewrite !elem_of_app, elem_of_cons in *. tauto.
      * rewrite Hc, Hby'; [done|]. rewrite !elem_of_app, !elem_of_cons. auto.
      * split_and!; [done|done|unfold grows; rewrite Hn'; cbn; lia|]. intros _. rewrite Hc, Ec in Hcut. unfold n in Hcut.
        by replace (Zlen (content w q1) + (off - Zlen (content w q1))) with off in Hcut by lia.
  - unfold break_status in *. rewrite (proj2 (Z.leb_le _ _)) in * by lia. destruct Hby as [E1 E2].
    rewrite (CM_bind_Done _ _ _ _ _ E1), (CM_bind_Done _ _ _ _ _ E2). exists w. split_and!; [done|done|by apply grows_same|lia].
Qed.

(** A block in no packet is broken into two such blocks. *)
Lemma AnscBdoBreakAt_spec w T b s off : models w T -> t_blocks T !! b = Some s -> 0 <= off ->
  let c := w_next w in let d := Pos.succ (w_next w) in exists w',
  AnscBdoBreakAt b off w = Done (if Zlen s <=? off then (ANSC_STATUS_UNAPPLICABLE, None)
    else (ANSC_STATUS_SUCCESS, Some (if off =? 0 then (Some b, None) else (Some c, Some d))), w') /\ grows w w' /\
  models w' (if (Zlen s <=? off) || (off =? 0) then T
    else Texts (t_packets T) (<[c:=take (Z.to_nat off) s]> (<[d:=drop (Z.to_nat off) s]> (delete b (t_blocks T))))).
Proof.
  intros HM Hb Ho c d. pose proof (m_wf _ _ HM) as Hw. pose proof (m_blocks _ _ HM b s Hb) as Hbs. pose proof ulong_modulus_ge.
  assert (Hbin : b ∈ leaves (w_pdos w) ++ keys (t_blocks T)) by (apply elem_of_app; right; apply elem_of_keys; eauto).
  destruct (proj1 (wf_leaves _ _ Hw b) Hbin) as (y & Hy & Hr). pose proof (ok_inside _ _ _ (wf_each _ _ Hw b y Hy)) as Hin.
  assert (Hby : bytes_in (w_bufs w) y = s) by (rewrite <-Hbs; unfold bytes_of; by rewrite Hy). pose proof (bytes_length _ _ Hin) as Hl. rewrite Hby in Hl.
  unfold AnscBdoBreakAt. rewrite (CM_bind_Done _ _ _ _ _ (get_bdo_Done _ _ _ Hy)), Hl.
  destruct (Z.leb_spec (BlockSize y) off) as [Hle|Hgt]; [exists w; split_and!; [done|by apply grows_same|done]|].
  destruct (Z.eqb_spec off 0) as [->|Hne]; [exists w; split_and!; [done|by apply grows_same|done]|]. cbn [orb].
  destruct (Buffer y) as [| |k i] eqn:HB; try (destruct Hin as (_ & _ & Hin); rewrite HB in Hin; lia || done).
  assert (Hw2 : wf w (b :: leaves (w_pdos w) ++ keys (delete b (t_blocks T)))).
  { eapply wf_perm; [|exact Hw]. rewrite (keys_delete _ b s) by done. solve_Permutation. }
  assert (Erem : lremove b (b :: leaves (w_pdos w) ++ keys (delete b (t_blocks T))) = leaves (w_pdos w) ++ keys (delete b (t_blocks T))).
  { apply (lremove_split b []), (wf_nodup _ _ Hw2). }
  destruct (wf_with_sons w _ y b y off k i i Hw2 HB Hin ltac:(lia) Hy HB ltac:(lia)) as (Hw' & Hs & E1 & E2). rewrite Erem in Hw', Hs.
  set (w' := with_sons w y b y off) in *.
  exists w'. rewrite two_bdos by apply HM. rewrite (CM_bind_Done _ _ _ _ _ (make_sons_Done _ _ _ _ off (m_idle _ _ HM) Hy (wf_fresh _ _ _ _ Hw Hy))).
  split; [done|]. split; [unfold grows; cbn; lia|].
  assert (Hc : t_blocks T !! c = None) by by apply blocks_fresh.
  assert (Hd : t_blocks T !! d = None).
  { destruct (t_blocks T !! d) as [u|] eqn:E; [|done]. assert (Hdin : d ∈ leaves (w_pdos w) ++ keys (t_blocks T)) by (apply elem_of_app; right; apply elem_of_keys; eauto).
    apply (wf_leaves _ _ Hw) in Hdin as (u' & Hu & _). apply (wf_fresh _ _ _ _ Hw) in Hu. lia. }
  assert (Hold : forall e, e ∈ leaves (w_pdos w) ++ keys (delete b (t_blocks T)) -> bytes_of w' e = bytes_of w e) by (intros e He; by apply Hs).
  eapply models_intro; [done| |cbn; lia| | |].
  - destruct (m_idle _ _ HM) as (? & ? & ?). by split_and!.
  - cbn. eapply wf_perm; [|exact Hw'].
    rewrite keys_insert by (rewrite lookup_insert_ne by lia; apply lookup_delete_None; auto).
    rewrite keys_insert by (apply lookup_delete_None; auto). solve_Permutation.
  - intros p. left. split_and!; [done..|]. intros x Hx e He. apply Hold, elem_of_app. left. by eapply leaves_elem.
  - cbn. intros e t [[<- <-]|[Hne1 [[<- <-]|[Hne2 Ht]]%lookup_insert_Some]]%lookup_insert_Some; [by rewrite <-Hby..|].
    rewrite Hold by (apply elem_of_app; right; apply elem_of_keys; eauto). apply lookup_delete_Some in Ht as [_ Ht]. by apply (m_blocks _ _ HM).
Qed.

(** ** Moving blocks to another packet *)

Lemma find_total w q off : in_store w q -> forall cur, exists r, find_bdo q cur off w = Done (r, w) /\ forall b c, r = Some (b, c) -> b ∈ q.
Proof.
  intros Hq. induction q as [|b q IH]; intros cur; [by exists None|]. apply in_store_cons in Hq as (Hq & y & Hy & _). cbn [find_bdo].
  rewrite (CM_bind_Done _ _ _ _ _ (get_bdo_Done _ _ _ Hy)). destruct (off <? _).
  - exists (Some (b, cur)). split; [done|]. intros ? ? [= <- <-]. left.
  - destruct (IH Hq (ULONG (cur + BlockSize y))) as (r & E & Hr). exists r. split; [done|]. intros ? ? Hb. right. by eapply Hr.
Qed.
Lemma by_offset_total w p x off : w_pdos w !! p = Some x -> in_store w (BdoQueue x) -> exists b pl,
  AnscPdoGetBdoByOffset p off w = Done (b, w) /\ AnscPdoGetBufferByOffset p off w = Done (pl, w).
Proof.
  intros Hp Hq. destruct (find_total w _ off Hq 0) as (r & E & Hr). unfold AnscPdoGetBdoByOffset, AnscPdoGetBufferByOffset.
  rewrite !(CM_bind_Done _ _ _ _ _ (the_queue_Done _ _ _ Hp)), !(CM_bind_Done _ _ _ _ _ E). destruct r as [[b c]|]; [|by eexists _, _].
  destruct (proj1 (Forall_forall _ _) Hq b ltac:(by eapply Hr)) as (y & Hy & _). rewrite (CM_bind_Done _ _ _ _ _ (get_bdo_Done _ _ _ Hy)). by eexists _, _.
Qed.

Definition with_queues (w : world) (p1 p2 : positive) (x1 x2 : ANSC_PACKET_DESCRIPTOR) : world := set_pdos (fun P => <[p1:=x1]> (<[p2:=x2]> P)) w.
Lemma with_queues_twice w p1 p2 x1 x2 y1 y2 : p1 ≠ p2 -> with_queues (with_queues w p1 p2 x1 x2) p1 p2 y1 y2 = with_queues w p1 p2 y1 y2.
Proof.
  intros Hne. unfold with_queues, set_pdos. cbn. f_equal. apply map_eq. intros p. rewrite !lookup_insert. repeat case_decide; congruence.
Qed.
Lemma with_queues_id w p1 p2 x1 x2 : w_pdos w !! p1 = Some x1 -> w_pdos w !! p2 = Some x2 -> with_queues w p1 p2 x1 x2 = w.
Proof. intros H1 H2. unfold with_queues, set_pdos. rewrite (insert_id _ p2), insert_id by done. by destruct w. Qed.

(** Blocks move between two packets. *)
Lemma models_two w T p1 p2 x1 x2 y1 y2 : models w T -> p1 ≠ p2 -> w_pdos w !! p1 = Some x1 -> w_pdos w !! p2 = Some x2 ->
  BdoQueue y1 ++ BdoQueue y2 ≡ₚ BdoQueue x1 ++ BdoQueue x2 -> plain y1 -> plain y2 ->
  Zlen (content w (BdoQueue y1)) < 2 ^ ulong_bits -> Zlen (content w (BdoQueue y2)) < 2 ^ ulong_bits ->
  models (with_queues w p1 p2 y1 y2)
    (Texts (<[p1:=content w (BdoQueue y1)]> (<[p2:=content w (BdoQueue y2)]> (t_packets T))) (t_blocks T)).
Proof.
  intros HM Hne H1 H2 Hperm P1 P2 L1 L2. destruct (m_each _ _ HM p1 x1 H1) as (N1 & _), (m_each _ _ HM p2 x2 H2) as (N2 & _).
  eapply models_intro; [done|apply (m_idle _ _ HM)|cbn; lia| | |exact (m_blocks _ _ HM)].
  - eapply wf_ext; [..|eapply wf_perm; [|exact (m_wf _ _ HM)]]; [cbn; lia|done..|]. cbn. f_equiv.
    rewrite (leaves_lookup (w_pdos w) p1 x1), leaves_update by done. rewrite delete_insert_ne by done. rewrite leaves_update.
    rewrite (leaves_lookup (delete p1 (w_pdos w)) p2 x2) by by rewrite lookup_delete_ne. rewrite !(assoc_L app). by rewrite Hperm.
  - intros p. unfold untouched, touched. cbn. destruct (decide (p = p1)) as [->|]; [|destruct (decide (p = p2)) as [->|]].
    + right. by rewrite !lookup_insert_eq.
    + right. by rewrite !(lookup_insert_ne _ p1), !lookup_insert_eq.
    + left. by rewrite !lookup_insert_ne.
Qed.

Lemma move_bind {A} w p1 p2 x1 x2 q1 b q2 (k : KM A) : p1 ≠ p2 -> w_pdos w !! p1 = Some x1 -> w_pdos w !! p2 = Some x2 ->
  BdoQueue x1 = q1 ++ b :: q2 -> NoDup (q1 ++ b :: q2) ->
  (_ ← AnscPdoDetachBdo p1 b; _ ← AnscPdoAttachBdoAtBack p2 b; k) w =
  k (with_queues w p1 p2 (set_queue x1 (q1 ++ q2)) (set_queue x2 (BdoQueue x2 ++ [b]))).
Proof.
  intros Hne H1 H2 Hq Hnd. unfold AnscPdoDetachBdo, AnscPdoAttachBdoAtBack.
  rewrite (CM_bind_Done _ _ _ _ _ (change_queue_Done _ _ _ _ H1)), Hq, lremove_split by done.
  erewrite CM_bind_Done; [|apply change_queue_Done; cbn; by rewrite lookup_insert_ne]. f_equal.
  unfold with_queues, set_pdos. cbn. f_equal. by apply insert_insert_ne.
Qed.
Lemma split_move q : forall w p1 p2 x1 x2 q1 c off, p1 ≠ p2 -> w_pdos w !! p1 = Some x1 -> w_pdos w !! p2 = Some x2 -> BdoQueue x1 = q1 ++ q -> NoDup (q1 ++ q) ->
  split_loop p1 p2 q true c off w = Done (true, with_queues w p1 p2 (set_queue x1 q1) (set_queue x2 (BdoQueue x2 ++ q))).
Proof.
  induction q as [|b q IH]; intros w p1 p2 x1 x2 q1 c off Hne H1 H2 Hq Hnd.
  - rewrite !app_nil_r in *. rewrite with_queues_id; [done|rewrite H1, <-Hq; by destruct x1|rewrite H2; by destruct x2].
  - cbn [split_loop]. rewrite (move_bind _ _ _ _ _ _ _ _ _ Hne H1 H2 Hq Hnd).
    rewrite (IH _ p1 p2 (set_queue x1 (q1 ++ q)) (set_queue x2 (BdoQueue x2 ++ [b])) q1); [|done| | |done|by apply NoDup_middle in Hnd as [_ ?]].
    + rewrite with_queues_twice by done. cbn [set_queue BdoQueue]. by rewrite <-app_assoc.
    + cbn. apply lookup_insert_eq.
    + cbn. by rewrite lookup_insert_ne, lookup_insert_eq.
Qed.
Lemma split_find p1 p2 off w q : forall cur, in_store w q -> 0 <= cur < off -> cur + Zlen (content w q) < 2 ^ ulong_bits ->
  (exists qa qb, q = qa ++ qb /\ cur + Zlen (content w qa) = off) -> exists qa qb c, q = qa ++ qb /\ cur + Zlen (content w qa) = off /\
  split_loop p1 p2 q false cur off w = split_loop p1 p2 qb true c off w.
Proof.
  induction q as [|b q IH]; intros cur Hq Hc Hf (qa & qb & E & Hl).
  - apply eq_sym, app_eq_nil in E as [-> ->]. cbn in Hl. lia.
  - destruct qa as [|b' qa]; [cbn in Hl; lia|]. injection E as <- ->. apply in_store_cons in Hq as (Hq & y & Hy & _ & Hs & _).
    rewrite content_cons, length_app in Hf, Hl. rewrite content_app, length_app in Hf. cbn [split_loop].
    rewrite (CM_bind_Done _ _ _ _ _ (get_bdo_Done _ _ _ Hy)), Hs, ULONG_small by lia.
    destruct (Z.ltb_spec (cur + Zlen (bytes_of w b)) off) as [Hlt|Hge].
    + destruct (IH (cur + Zlen (bytes_of w b))) as (qa' & qb' & c & E & Hl' & ->); [done|lia|rewrite content_app, length_app; lia|exists qa, qb; split; [done|lia]|].
      exists (b :: qa'), qb', c. split_and!; [by rewrite E|rewrite content_cons, length_app; lia|done].
    + exists [b], (qa ++ qb), cur. rewrite (proj2 (Z.eqb_eq _ off)) by lia. split_and!; [done| |done].
      rewrite content_cons, length_app. cbn. lia.
Qed.
Lemma AnscPdoSplitAt_spec w T p1 p2 s1 s2 off : models w T -> t_packets T !! p1 = Some s1 -> t_packets T !! p2 = Some s2 -> p1 ≠ p2 -> 0 < off ->
  Zlen s1 + Zlen s2 < 2 ^ ulong_bits -> exists w',
  AnscPdoSplitAt p1 p2 off w = Done (break_status off s1, w') /\ grows w w' /\
  models w' (if Zlen s1 <=? off then T
    else Texts (<[p1:=take (Z.to_nat off) s1]> (<[p2:=s2 ++ drop (Z.to_nat off) s1]> (t_packets T))) (t_blocks T)).
Proof.
  intros HM H1 H2 Hne Ho Hf. destruct (models_lookup _ _ _ _ HM H1) as (x0 & Hx0 & Hs0 & _ & _ & Hl0 & _ & Hin0). unfold AnscPdoSplitAt.
  rewrite (CM_bind_Done _ _ _ _ _ (packet_size _ _ _ Hx0 Hin0 ltac:(by rewrite Hs0))), Hs0. clear x0 Hx0 Hs0 Hin0.
  destruct (AnscPdoBreakAt_spec w T p1 s1 off HM H1 ltac:(lia)) as (w1 & E & HM1 & Hg & Hcut). unfold break_status in *.
  destruct (Z.leb_spec (Zlen s1) off) as [Hle|Hgt]; [exists w; split_and!; [done|by apply grows_same|done]|].
  rewrite (CM_bind_Done _ _ _ _ _ E). destruct (models_lookup _ _ _ _ HM1 H1) as (x1 & Hx1 & Hs1 & _ & P1 & _ & Hw1 & Hin1).
  destruct (models_lookup _ _ _ _ HM1 H2) as (x2 & Hx2 & Hs2 & _ & P2 & Hl2 & _ & Hin2).
  destruct (Hcut ltac:(lia)) as (x & qa0 & qb0 & Hx & Hq0 & Hl). rewrite Hx1 in Hx. injection Hx as <-.
  rewrite (CM_bind_Done _ _ _ _ _ (the_queue_Done _ _ _ Hx1)).
  destruct (split_find p1 p2 off w1 (BdoQueue x1) 0 Hin1) as (qa & qb & c & Hq & Hla & Efind); [lia|by rewrite Hs1|by exists qa0, qb0|].
  rewrite Z.add_0_l in Hla.
  assert (Hnd : NoDup (BdoQueue x1)) by by apply (wf_nodup _ _) in Hw1 as (? & _ & _)%NoDup_app. rewrite Hq in Hnd.
  rewrite (CM_bind_eq _ _ _ _ Efind), (split_move qb w1 p1 p2 x1 x2 qa c off Hne Hx1 Hx2 Hq Hnd). cbn [negb].
  assert (Ha : content w1 qa = take (Z.to_nat off) s1 /\ content w1 qb = drop (Z.to_nat off) s1).
  { rewrite <-Hs1, Hq, content_app. rewrite take_app_length', drop_app_length' by lia. done. }
  destruct Ha as [Ha Hb]. set (q2 := BdoQueue x2 ++ qb). assert (Hc2 : content w1 q2 = s2 ++ drop (Z.to_nat off) s1) by (unfold q2; by rewrite content_app, Hs2, Hb).
  set (w2 := with_queues w1 p1 p2 (set_queue x1 qa) (set_queue x2 q2)).
  assert (L1 : w_pdos w2 !! p1 = Some (set_queue x1 qa)) by apply lookup_insert_eq.
  assert (L2 : w_pdos w2 !! p2 = Some (set_queue x2 q2)) by (cbn; by rewrite lookup_insert_ne, lookup_insert_eq).
  destruct (by_offset_total w2 p2 (set_queue x2 q2) 0 L2) as (h & pl & Eh & Epl).
  { change (in_store w1 q2). unfold in_store, q2 in *. rewrite Hq in Hin1. apply Forall_app in Hin1 as [_ ?]. by apply Forall_app. }
  rewrite (CM_bind_Done _ _ _ _ _ Eh), (CM_bind_Done _ _ _ _ _ Epl), (CM_bind_Done _ _ _ _ _ (get_pdo_Done _ _ _ L1)),
    (CM_bind_Done _ _ _ _ _ (get_pdo_Done _ _ _ L2)), put_pdo_bind.
  match goal with |- context [insert p2 ?x] => set (y2 := x) end.
  exists (with_queues w1 p1 p2 (set_queue x1 qa) y2). split_and!; [|done|].
  - unfold mret, CM_ret. do 2 f_equal. unfold w2, with_queues, set_pdos. cbn. f_equal. apply map_eq. intros p. rewrite !lookup_insert.
    repeat case_decide; congruence.
  - rewrite <-Ha, <-Hc2. change q2 with (BdoQueue y2). change qa with (BdoQueue (set_queue x1 qa)) at 2.
    eapply models_two; try done; cbn [y2 set_queue BdoQueue].
    + rewrite Hq. unfold q2. solve_Permutation.
    + rewrite Ha, length_take. lia.
    + rewrite Hc2, length_app, length_drop. lia.
Qed.

Lemma pop_bdo_Done w p x : w_pdos w !! p = Some x -> pop_bdo p w = Done (head (BdoQueue x), set_pdos (insert p (set_queue x (tail (BdoQueue x)))) w).
Proof.
  intros Hp. unfold pop_bdo. by rewrite (CM_bind_Done _ _ _ _ _ (the_queue_Done _ _ _ Hp)), (CM_bind_Done _ _ _ _ _ (change_queue_Done _ _ _ _ Hp)).
Qed.
Lemma concatenate_spec q : forall w p1 p2 x1 x2 b, p1 ≠ p2 -> w_pdos w !! p1 = Some x1 -> w_pdos w !! p2 = Some x2 -> BdoQueue x2 = q ->
  concatenate_loop (S (length q)) p1 p2 (Some b) w = Done (tt, with_queues w p1 p2 (set_queue x1 (BdoQueue x1 ++ b :: q)) (set_queue x2 [])).
Proof.
  induction q as [|c q IH]; intros w p1 p2 x1 x2 b Hne H1 H2 Hq; cbn [length];
    (change (concatenate_loop (S ?n) p1 p2 (Some b)) with (e ← pop_bdo p2; _ ← AnscPdoAttachBdoAtBack p1 b; concatenate_loop n p1 p2 e);
     rewrite (CM_bind_Done _ _ _ _ _ (pop_bdo_Done _ _ _ H2)), Hq; cbn [head tail];
     erewrite CM_bind_Done; [|apply change_queue_Done; cbn; by rewrite lookup_insert_ne by auto]).
  - done.
  - erewrite IH; [|done|apply lookup_insert_eq|cbn; rewrite lookup_insert_ne by auto; apply lookup_insert_eq|done].
    do 2 f_equal. cbn [set_queue BdoQueue]. rewrite <-app_assoc. apply (with_queues_twice w p1 p2 (set_queue x1 (BdoQueue x1 ++ [b])) (set_queue x2 q)). done.
Qed.
Lemma AnscPdoConcatenate_spec w T p1 p2 s1 s2 : models w T -> t_packets T !! p1 = Some s1 -> t_packets T !! p2 = Some s2 -> p1 ≠ p2 ->
  Zlen s1 + Zlen s2 < 2 ^ ulong_bits -> Z.pos (w_next w) <= 65536 -> exists w',
  AnscPdoConcatenate p1 p2 w = Done (ANSC_STATUS_SUCCESS, w') /\ w_next w' = w_next w /\
  models w' (Texts (<[p1:=s1 ++ s2]> (<[p2:=[]]> (t_packets T))) (t_blocks T)).
Proof.
  intros HM H1 H2 Hne Hf Hfew. destruct (models_lookup _ _ _ _ HM H1) as (x1 & Hx1 & Hs1 & _ & P1 & _).
  destruct (models_lookup _ _ _ _ HM H2) as (x2 & Hx2 & Hs2 & _ & P2 & _ & Hw2 & _). unfold AnscPdoConcatenate.
  rewrite (CM_bind_Done _ _ _ _ _ (the_queue_Done _ _ _ Hx2)). pose proof (held_bound _ _ Hw2) as Hlen. rewrite length_app in Hlen.
  rewrite USHORT_small by lia. destruct (BdoQueue x2) as [|b q] eqn:Hq.
  - exists w. split_and!; [done..|]. cbn in Hs2. subst s2. rewrite app_nil_r, (insert_id _ p2), insert_id by done. by destruct T.
  - rewrite (proj2 (Z.eqb_neq _ 0)) by (cbn [length]; lia). rewrite (CM_bind_Done _ _ _ _ _ (pop_bdo_Done _ _ _ Hx2)), Hq. cbn [head tail].
    erewrite CM_bind_Done; [|apply (concatenate_spec q _ p1 p2 x1 (set_queue x2 q)); [done|cbn; by rewrite lookup_insert_ne|apply lookup_insert_eq|done]].
    exists (with_queues w p1 p2 (set_queue x1 (BdoQueue x1 ++ b :: q)) (set_queue x2 [])). split_and!; [|done|].
    + unfold mret, CM_ret. do 2 f_equal. unfold with_queues, set_pdos. cbn. f_equal. apply map_eq. intros p. rewrite !lookup_insert.
      repeat case_decide; done || congruence.
    + assert (Ec : content w (BdoQueue x1 ++ b :: q) = s1 ++ s2) by by rewrite content_app, Hs1, Hs2.
      pose proof (models_two w T p1 p2 x1 x2 (set_queue x1 (BdoQueue x1 ++ b :: q)) (set_queue x2 []) HM Hne Hx1 Hx2) as HM'.
      cbn [set_queue BdoQueue] in HM'. rewrite Ec in HM'. apply HM'; [by rewrite app_nil_r, Hq|done|done|rewrite length_app; lia|apply ulong_modulus_pos].
Qed.

(** Other fields than the queue change. *)
Lemma models_pdo w T p x x' : models w T -> w_pdos w !! p = Some x -> BdoQueue x' = BdoQueue x -> plain x' -> models (set_pdos (insert p x') w) T.
Proof.
  intros HM Hp Hq Hpl. pose proof (m_packets _ _ HM p) as Et. rewrite Hp in Et. cbn in Et. rewrite <-Hq in Et.
  destruct (models_lookup _ _ _ _ HM Et) as (x1 & Hx1 & Hs & _ & _ & Hl & Hw & _). rewrite Hp in Hx1. injection Hx1 as <-. rewrite <-Hq in Hw.
  replace T with (Texts (<[p:=content (set_pdos (insert p x') w) (BdoQueue x')]> (t_packets T)) (t_blocks T)).
  - eapply models_update; try done; [apply (m_idle _ _ HM)|eapply wf_ext; [..|exact Hw]; done|apply (m_blocks _ _ HM)].
  - rewrite insert_id by done. by destruct T.
Qed.
Lemma AnscClonePdo_spec w T p s : models w T -> t_packets T !! p = Some s -> let d := w_next w in exists w',
  AnscClonePdo p w = Done (Some d, w') /\ grows w w' /\ models w' (Texts (<[d:=[]]> (t_packets T)) (t_blocks T)).
Proof.
  intros HM Hp d. destruct (models_lookup _ _ _ _ HM Hp) as (x & Hx & _ & Hlt & _).
  destruct (AnscAllocatePdo_spec w T HM) as (w1 & E & Hnew & HM1 & Hpd & _ & _ & Hn). unfold AnscClonePdo. rewrite (CM_bind_Done _ _ _ _ _ E).
  assert (Hx1 : w_pdos w1 !! p = Some x) by (rewrite Hpd, lookup_insert_ne; [done|lia]).
  assert (Hd : w_pdos w1 !! d = Some zero_pdo) by (rewrite Hpd; apply lookup_insert_eq).
  rewrite (CM_bind_Done _ _ _ _ _ (get_pdo_Done _ _ _ Hx1)), (CM_bind_Done _ _ _ _ _ (get_pdo_Done _ _ _ Hd)), put_pdo_bind.
  eexists. split; [done|]. split; [unfold grows; cbn; lia|]. by eapply models_pdo.
Qed.
Lemma AnscTransferPdo_spec w T p s : models w T -> t_packets T !! p = Some s -> let d := w_next w in exists w',
  AnscTransferPdo p w = Done (Some d, w') /\ grows w w' /\ models w' (Texts (<[d:=s]> (<[p:=[]]> (t_packets T))) (t_blocks T)).
Proof.
  intros HM Hp d. destruct (models_lookup _ _ _ _ HM Hp) as (x & Hx & Hs & Hlt & [P1 P2] & Hl & _).
  destruct (AnscAllocatePdo_spec w T HM) as (w1 & E & Hnew & HM1 & Hpd & Hbd & Hbu & Hn). unfold AnscTransferPdo.
  rewrite (CM_bind_Done _ _ _ _ _ (get_pdo_Done _ _ _ Hx)), P1, (CM_bind_Done _ _ _ _ _ E). fold d in E, Hnew, HM1, Hpd, Hn |- *.
  assert (Hne : d ≠ p) by lia. assert (Hx1 : w_pdos w1 !! p = Some x) by by rewrite Hpd, lookup_insert_ne.
  assert (Hd : w_pdos w1 !! d = Some zero_pdo) by (rewrite Hpd; apply lookup_insert_eq).
  rewrite (CM_bind_Done _ _ _ _ _ (get_pdo_Done _ _ _ Hd)), !put_pdo_bind.
  match goal with |- context [insert p ?x] => set (y2 := x) end. match goal with |- context [insert d ?x] => set (y1 := x) end.
  exists (with_queues w1 d p y1 y2). split_and!; [|unfold grows; cbn; lia|].
  - unfold mret, CM_ret. do 2 f_equal. unfold with_queues, set_pdos. cbn. f_equal. by apply insert_insert_ne.
  - assert (Ec : content w1 (BdoQueue x) = s) by (rewrite <-Hs; unfold content; f_equal; unfold bytes_of; by rewrite Hbd, Hbu).
    pose proof (models_two w1 _ d p zero_pdo x y1 y2 HM1 Hne Hd Hx1) as HM'. cbn [y1 y2 inherit BdoQueue t_packets t_blocks] in HM'. rewrite Ec in HM'.
    replace (<[d:=s]> (<[p:=[]]> (t_packets T))) with (<[d:=s]> (<[p:=[]]> (<[d:=[]]> (t_packets T)))).
    + apply HM'; [by rewrite app_nil_r|done|done|lia|apply ulong_modulus_pos].
    + apply map_eq. intros e. rewrite !lookup_insert. repeat case_decide; congruence.
Qed.

(** ** Copying *)

Definition elsewhere (w : world) (kd : positive) (q : list positive) : Prop :=
  forall b x k i, b ∈ q -> w_bdos w !! b = Some x -> Buffer x = At k i -> k ≠ kd.
Lemma elsewhere_write w kd m q : elsewhere w kd q -> in_store w q ->
  in_store (set_bufs (insert kd m) w) q /\ elsewhere (set_bufs (insert kd m) w) kd q /\ content (set_bufs (insert kd m) w) q = content w q.
Proof.
  intros He Hq. assert (Hb : forall b x, b ∈ q -> w_bdos w !! b = Some x -> forall k i, Buffer x = At k i -> <[kd:=m]> (w_bufs w) !! k = w_bufs w !! k).
  { intros b x Hb Hx k i HB. apply lookup_insert_ne. intros ->. by eapply He. }
  split; [|split; [done|]].
  - apply Forall_forall. intros b Hbq. destruct (proj1 (Forall_forall _ _) Hq b Hbq) as (x & Hx & Hi). exists x. split; [done|].
    eapply inside_mono; [exact Hi|]. by eapply Hb.
  - apply content_ext. intros b Hbq. unfold bytes_of. cbn. destruct (w_bdos w !! b) as [x|] eqn:Hx; [|done]. apply bytes_mono. by eapply Hb.
Qed.
Lemma AnscBdoCopyFrom_spec w b x kd i o n pre old post : w_bdos w !! b = Some x -> inside (w_bufs w) x -> BlockSize x < 2 ^ ulong_bits ->
  w_bufs w !! kd = Some (pre ++ old ++ post) -> i = Zlen pre -> 0 <= o -> 0 <= n -> o + n <= BlockSize x -> Zlen old = n -> exists st,
  AnscBdoCopyFrom b (At kd i) n o w =
  Done ((st, n), set_bufs (insert kd (pre ++ take (Z.to_nat n) (drop (Z.to_nat o) (bytes_in (w_bufs w) x)) ++ post)) w).
Proof.
  intros Hb Hx Hf Hk Hi Ho Hn Hl Hold. unfold AnscBdoCopyFrom. rewrite (CM_bind_Done _ _ _ _ _ (get_bdo_Done _ _ _ Hb)).
  assert (Hzero : n = 0 -> set_bufs (insert kd (pre ++ take (Z.to_nat n) (drop (Z.to_nat o) (bytes_in (w_bufs w) x)) ++ post)) w = w).
  { intros ->. destruct old; [|cbn in Hold; lia]. apply set_bufs_id. done. }
  destruct (Z.leb_spec (BlockSize x) o) as [Hle|Hgt]; [eexists; by rewrite Hzero by lia|].
  destruct (Z.eqb_spec n 0) as [E|Hne]; [eexists; by rewrite Hzero by lia|].
  rewrite ULONG_small by lia. assert (E : (if BlockSize x - o <? n then BlockSize x - o else n) = n) by (destruct (Z.ltb_spec (BlockSize x - o) n); lia).
  rewrite E. eexists. unfold copy_memory.
  rewrite (CM_bind_Done _ _ _ tt (set_bufs (insert kd (pre ++ take (Z.to_nat n) (drop (Z.to_nat o) (bytes_in (w_bufs w) x)) ++ post)) w)); [done|].
  rewrite (CM_bind_Done _ _ _ _ _ (read_block w x Hx o n Ho Hn Hl)). eapply write_bytes_Done; [done|done|].
  pose proof (bytes_length _ _ Hx). rewrite length_take, length_drop. lia.
Qed.
Lemma set_bufs_twice w k m m' : set_bufs (insert k m') (set_bufs (insert k m) w) = set_bufs (insert k m') w.
Proof. unfold set_bufs. cbn. by rewrite insert_insert_eq. Qed.
Lemma enter_spec found cur off size : 0 <= size -> (found = false -> 0 <= cur <= off) -> cur + size < 2 ^ ulong_bits ->
  enter_block found cur off size = if found then Some 0 else if cur + size <=? off then None else Some (off - cur).
Proof.
  intros Hs Hc Hf. unfold enter_block. destruct found; [done|]. specialize (Hc eq_refl). rewrite (ULONG_small (cur + size)) by lia.
  destruct (Z.leb_spec (cur + size) off); [done|]. by rewrite ULONG_small by lia.
Qed.

(** The bytes of a queue a loop has not gone through: those from [off] on,
    [cur] of which are in the blocks before. *)
Definition rest (found : bool) (cur off : Z) (s : list Z) : list Z := if found then s else drop (Z.to_nat (off - cur)) s.
Lemma copy_loop_spec kd i0 off q : forall w pre old post (found : bool) cur left copied, in_store w q -> elsewhere w kd q ->
  w_bufs w !! kd = Some (pre ++ old ++ post) -> i0 + copied = Zlen pre -> 0 <= copied -> 0 <= left -> copied + left < 2 ^ ulong_bits ->
  0 <= cur -> (found = false -> cur <= off) -> cur + Zlen (content w q) < 2 ^ ulong_bits -> Zlen (content w q) < 2 ^ ulong_bits ->
  let data := take (Z.to_nat left) (rest found cur off (content w q)) in length old = length data ->
  copy_loop q found cur off (At kd i0) left copied w = Done (copied + Zlen data, set_bufs (insert kd (pre ++ data ++ post)) w).
Proof.
  induction q as [|b q IH]; intros w pre old post found cur left copied Hq He Hk Hi Hcp Hl Hcl Hcur Hoff Hf Hf2 data Hold.
  - assert (Ed : data = []) by (unfold data, rest; change (content w []) with (@nil Z); destruct found; rewrite ?drop_nil; apply take_nil). rewrite Ed in Hold |- *.
    destruct old; [|done]. rewrite set_bufs_id by done. cbn [copy_loop length]. by rewrite Z.add_0_r.
  - cbn [copy_loop]. destruct (Z.leb_spec left 0) as [Hl0|Hl0].
    { assert (Ed : data = []) by (unfold data; by replace (Z.to_nat left) with 0%nat by lia). rewrite Ed in Hold |- *.
      destruct old; [|done]. rewrite set_bufs_id by done. cbn [length]. by rewrite Z.add_0_r. }
    apply in_store_cons in Hq as (Hq & x & Hx & Hin & Hs & Hb). rewrite content_cons, length_app in Hf, Hf2.
    assert (He' : elsewhere w kd q) by (intros c y k i Hc; apply (He c y k i); by right).
    rewrite (CM_bind_Done _ _ _ _ _ (get_bdo_Done _ _ _ Hx)), enter_spec by (auto || lia).
    assert (Hskip : forall o, 0 <= o <= BlockSize x -> rest found cur off (content w (b :: q)) = drop (Z.to_nat o) (bytes_of w b) ++ content w q ->
      forall n, n = (if ULONG (BlockSize x - o) <=? left then ULONG (BlockSize x - o) else left) ->
      (r ← AnscBdoCopyFrom b (place_add (At kd i0) copied) n o;
       copy_loop q true cur off (At kd i0) (left - n) (ULONG (copied + r.2))) w = Done (copied + Zlen data, set_bufs (insert kd (pre ++ data ++ post)) w)).
    { intros o Ho Er n En. rewrite (ULONG_small (BlockSize x - o)) in En by lia.
      assert (Hn : 0 <= n <= left /\ o + n <= BlockSize x /\ (n = left \/ n = BlockSize x - o)) by (destruct (Z.leb_spec (BlockSize x - o) left); lia).
      set (d1 := take (Z.to_nat n) (drop (Z.to_nat o) (bytes_of w b))). set (d2 := take (Z.to_nat (left - n)) (content w q)).
      assert (Hd1 : Zlen d1 = n) by (unfold d1; rewrite length_take, length_drop; lia).
      assert (Ed : data = d1 ++ d2).
      { unfold data. rewrite Er. destruct Hn as (Hn1 & Hn2 & [->| ->]).
        - unfold d2. replace (left - left) with 0 by lia. cbn [Z.to_nat take]. rewrite app_nil_r. apply take_app_le. rewrite length_drop. lia.
        - rewrite take_app, length_drop. unfold d1, d2. rewrite (take_ge (drop _ _)), (take_ge (drop _ _)) by (rewrite length_drop; lia). do 2 f_equal. lia. }
      rewrite Ed, length_app in Hold. assert (Hsplit : old = take (length d1) old ++ drop (length d1) old) by by rewrite take_drop.
      set (o1 := take (length d1) old) in *. set (o2 := drop (length d1) old) in *.
      assert (Ho1 : length o1 = length d1) by (unfold o1; rewrite length_take; lia). assert (Ho2 : length o2 = length d2) by (unfold o2; rewrite length_drop; lia).
      destruct (AnscBdoCopyFrom_spec w b x kd (i0 + copied) o n pre o1 (o2 ++ post)) as (st & E); try done; try lia.
      { by rewrite Hk, Hsplit, <-app_assoc. }
      cbn [place_add]. rewrite (CM_bind_Done _ _ _ _ _ E), Hb. cbn [snd]. fold d1. rewrite (ULONG_small (copied + n)) by lia.
      destruct (elsewhere_write w kd (pre ++ d1 ++ o2 ++ post) q He' Hq) as (Hq' & He'' & Ec).
      rewrite (IH _ (pre ++ d1) o2 post); try done; try lia.
      - rewrite Ec. unfold rest. fold d2. rewrite set_bufs_twice, Ed, length_app, <-!app_assoc. do 2 f_equal. lia.
      - cbn. by rewrite lookup_insert_eq, <-!app_assoc.
      - rewrite length_app. lia.
      - rewrite Ec. lia.
      - rewrite Ec. lia.
      - by rewrite Ec. }
    unfold data, rest in *. destruct found.
    + apply (Hskip 0); [lia|done|done].
    + specialize (Hoff eq_refl). destruct (Z.leb_spec (cur + BlockSize x) off) as [Hle|Hgt].
      * assert (Er : drop (Z.to_nat (off - cur)) (content w (b :: q)) = drop (Z.to_nat (off - (cur + BlockSize x))) (content w q)).
        { rewrite content_cons, drop_app_ge by lia. f_equal. lia. }
        rewrite Er in Hold |- *. rewrite ULONG_small by lia. apply (IH w pre old post false); try done; lia.
      * apply (Hskip (off - cur)); [lia| |done]. rewrite content_cons, drop_app_le by lia. done.
Qed.

Lemma AnscPdoCopyFrom_spec w p x kd i n off pre old post : w_pdos w !! p = Some x -> in_store w (BdoQueue x) -> elsewhere w kd (BdoQueue x) ->
  Zlen (content w (BdoQueue x)) < 2 ^ ulong_bits -> w_bufs w !! kd = Some (pre ++ old ++ post) -> i = Zlen pre -> 0 <= n < 2 ^ ulong_bits -> 0 <= off ->
  let s := content w (BdoQueue x) in let data := take (Z.to_nat n) (drop (Z.to_nat off) s) in length old = length data ->
  AnscPdoCopyFrom p (At kd i) n off w =
  Done (if Zlen s <? off then (ANSC_STATUS_BAD_OFFSET, n) else if n =? 0 then (ANSC_STATUS_BAD_SIZE, n) else (ANSC_STATUS_SUCCESS, Zlen data),
        if (Zlen s <? off) || (n =? 0) then w else set_bufs (insert kd (pre ++ data ++ post)) w).
Proof.
  intros Hp Hq He Hf Hk Hi Hn Ho s data Hold. unfold AnscPdoCopyFrom. rewrite (CM_bind_Done _ _ _ _ _ (packet_size _ _ _ Hp Hq Hf)). fold s.
  destruct (Zlen s <? off); [done|]. destruct (Z.eqb_spec n 0); [done|]. rewrite (CM_bind_Done _ _ _ _ _ (the_queue_Done _ _ _ Hp)). cbn [orb].
  assert (Er : rest false 0 off s = drop (Z.to_nat off) s) by (unfold rest; by rewrite Z.sub_0_r).
  erewrite CM_bind_Done; [|apply (copy_loop_spec kd i off _ w pre old post false 0 n 0); try done; try (intros; lia); fold s; by rewrite Er].
  fold s. by rewrite Er.
Qed.

(** The only block of a packet is written. *)
Lemma models_write w T d b y x kd pre old post t u : models w T -> t_packets T !! d = Some u -> w_pdos w !! d = Some y -> BdoQueue y = [b] ->
  w_bdos w !! b = Some x -> parent x = None -> Buffer x = At kd 0 -> Offset x = Zlen pre -> BlockSize x = Zlen t -> length old = length t ->
  w_bufs w !! kd = Some (pre ++ old ++ post) -> models (set_bufs (insert kd (pre ++ t ++ post)) w) (Texts (<[d:=t]> (t_packets T)) (t_blocks T)).
Proof.
  intros HM Hd Hy Hq Hx Hp HB Ho Hs Hold Hk. destruct (models_lookup _ _ _ _ HM Hd) as (y' & Hy' & _ & _ & Hpl & _ & Hw & _).
  rewrite Hy in Hy'. injection Hy' as <-. rewrite Hq in Hw.
  assert (Hr : RefCount x = 0) by (eapply leaf_bdo; [exact Hw|left|done]).
  pose proof (same_write _ _ _ (pre ++ t ++ post) _ _ Hw Hx Hp HB Hr) as Hsame. set (w' := set_bufs (insert kd (pre ++ t ++ post)) w) in *.
  pose proof (wf_nodup _ _ Hw) as Hnd. apply (lremove_split b []) in Hnd. cbn [app] in Hnd, Hw, Hsame. rewrite Hnd in Hsame.
  assert (Ec : content w' (BdoQueue y) = t).
  { rewrite Hq. unfold content. cbn. rewrite app_nil_r. unfold bytes_of. cbn. rewrite Hx. unfold bytes_in. rewrite HB, Ho, Hs, lookup_insert_eq.
    cbn [default from_option id]. rewrite drop_app_length', take_app_length' by lia. done. }
  pose proof (block_fits _ _ _ _ Hw Hx) as Hfit. rewrite <-Ec. eapply models_update; [done|exact Hy|apply (m_idle _ _ HM)|cbn; lia|..|rewrite Ec; lia|].
  - cbn. by rewrite insert_id.
  - rewrite Hq. eapply wf_write; [exact Hw|exact Hk|]. rewrite !length_app. lia.
  - done.
  - intros c Hc. apply (Hsame c), elem_of_app. by left.
  - intros c v Hc. rewrite <-(m_blocks _ _ HM c v Hc). apply (Hsame c), elem_of_app. right. apply elem_of_keys. eauto.
Qed.
Lemma with_buffer_block w size offset block : let x := set_buffer (fresh_bdo 0 0 0) true false (At (Pos.succ (w_next w)) 0) size offset block in
  w_bdos (with_buffer w size offset block) !! w_next w = Some x /\ parent x = None /\
  w_bufs (with_buffer w size offset block) !! Pos.succ (w_next w) = Some (replicate (Z.to_nat (ULONG (size + 16))) 0).
Proof. split; [apply lookup_insert_eq|split; [done|apply lookup_insert_eq]]. Qed.
Lemma attach_front_pdos w w' d x b : w_pdos w !! d = Some x ->
  w_pdos w' = <[d:=set_queue (default zero_pdo (w_pdos w !! d)) (b :: BdoQueue (default zero_pdo (w_pdos w !! d)))]> (w_pdos w) ->
  w_pdos w' = <[d:=set_queue x (b :: BdoQueue x)]> (w_pdos w).
Proof. by intros ->. Qed.

(** The bytes of a packet are copied to the block of another one. *)
Lemma copy_into w T d p s x y b kd size : models w T -> t_packets T !! d = Some (replicate (Z.to_nat (Zlen s)) 0) -> t_packets T !! p = Some s ->
  w_pdos w !! p = Some x -> 0 < Zlen s -> w_pdos w !! d = Some y -> BdoQueue y = [b] ->
  w_bdos w !! b = Some (set_buffer (fresh_bdo 0 0 0) true false (At kd 0) size ANSC_PDO_MAX_HEAD_ROOM (Zlen s)) ->
  w_bufs w !! kd = Some (replicate (Z.to_nat (ULONG (Zlen s + 32 + 16))) 0) -> Zlen s + 48 < 2 ^ ulong_bits ->
  (forall c, c ∈ BdoQueue x -> c ≠ b) -> exists w',
  (z ← get_bdo b; _ ← AnscPdoCopyFrom p (AnscBdoGetBlock z) (Zlen s) 0; mret tt) w = Done (tt, w') /\
  models w' (Texts (<[d:=s]> (t_packets T)) (t_blocks T)) /\ w_next w' = w_next w.
Proof.
  intros HM Hd Hp Hx Hpos Hy Hqy Hb Hk Hf Hne. set (pre := replicate 16 0). set (old := replicate (Z.to_nat (Zlen s)) 0). set (post := replicate 32 0).
  assert (Hk4 : w_bufs w !! kd = Some (pre ++ old ++ post)).
  { rewrite Hk, ULONG_small by lia. f_equal. replace (Z.to_nat (Zlen s + 32 + 16)) with (16 + (Z.to_nat (Zlen s) + 32))%nat by lia. by rewrite !replicate_add. }
  destruct (models_lookup w _ p s HM Hp) as (x4 & Hx4 & Hs4 & _ & _ & _ & Hw4 & Hin4). rewrite Hx in Hx4. injection Hx4 as <-.
  assert (Hels : elsewhere w kd (BdoQueue x)).
  { intros c z k i Hc Hz HB ->. apply (Hne c Hc). by eapply (only_user w _ b _ kd c z i Hw4 Hb). }
  pose proof (AnscPdoCopyFrom_spec w p x kd 16 (Zlen s) 0 pre old post Hx Hin4 Hels ltac:(by rewrite Hs4; lia) Hk4 eq_refl ltac:(lia) ltac:(lia)) as Ecopy.
  cbn zeta in Ecopy. rewrite Hs4 in Ecopy. change (drop (Z.to_nat 0) s) with s in Ecopy. rewrite take_ge in Ecopy by lia.
  specialize (Ecopy ltac:(unfold old; rewrite length_replicate; lia)). rewrite (proj2 (Z.ltb_ge _ _)), (proj2 (Z.eqb_neq (Zlen s) 0)) in Ecopy by lia.
  exists (set_bufs (insert kd (pre ++ s ++ post)) w). split_and!; [|apply (models_write w T d b y _ kd pre old post s old HM Hd Hy Hqy Hb); [done..|unfold old; rewrite length_replicate; lia|done]|done].
  rewrite (CM_bind_Done _ _ _ _ _ (get_bdo_Done _ _ _ Hb)). by rewrite (CM_bind_Done _ _ _ _ _ Ecopy).
Qed.

(** The copy has one block of its own. *)
Lemma AnscCopyPdo_spec w T p s : models w T -> t_packets T !! p = Some s -> Zlen s + 48 < 2 ^ ulong_bits -> let d := w_next w in exists w',
  AnscCopyPdo p w = Done (Some d, w') /\ grows w w' /\ models w' (Texts (<[d:=s]> (t_packets T)) (t_blocks T)).
Proof.
  intros HM Hp Hf d. destruct (AnscAllocatePdo_spec w T HM) as (w1 & E & Hnew & HM1 & Hpd1 & _ & _ & Hn). fold d in E, Hnew, HM1, Hn, Hpd1.
  unfold AnscCopyPdo. rewrite (CM_bind_Done _ _ _ _ _ E).
  assert (Hpd : p ≠ d) by congruence. assert (Hp1 : (<[d:=[]]> (t_packets T)) !! p = Some s) by by rewrite lookup_insert_ne.
  destruct (models_lookup _ _ _ _ HM1 Hp1) as (x1 & Hx1 & Hs1 & _ & _ & Hl & Hw1 & Hq1).
  rewrite (CM_bind_Done _ _ _ _ _ (packet_size _ _ _ Hx1 Hq1 ltac:(by rewrite Hs1))), Hs1.
  assert (Hd1 : w_pdos w1 !! d = Some zero_pdo) by (rewrite Hpd1; apply lookup_insert_eq). destruct (Z.ltb_spec 0 (Zlen s)) as [Hpos|Hz].
  - rewrite ULONG_small by (unfold ANSC_PDO_MAX_HEAD_ROOM, ANSC_PDO_MAX_TAIL_ROOM; lia). set (size := Zlen s + ANSC_PDO_MAX_HEAD_ROOM + ANSC_PDO_MAX_TAIL_ROOM).
    assert (Hsz : size = Zlen s + 32) by (unfold size, ANSC_PDO_MAX_HEAD_ROOM, ANSC_PDO_MAX_TAIL_ROOM; lia).
    destruct (AnscAllocateBdo_spec w1 _ size ANSC_PDO_MAX_HEAD_ROOM (Zlen s) HM1) as (w2 & E2 & Hnewb & HM2 & Ew2).
    { right. unfold ANSC_PDO_MAX_HEAD_ROOM. lia. }
    rewrite (proj2 (Z.ltb_lt 0 size)) in Ew2 by lia. pose proof (with_buffer_block w1 size ANSC_PDO_MAX_HEAD_ROOM (Zlen s)) as (Hbx & Hpar & Hbuf).
    rewrite <-Ew2 in Hbx, Hbuf. set (b := w_next w1) in *. set (kd := Pos.succ b) in *.
    destruct (AnscPdoAttach_spec w2 _ d [] b _ false HM2 (lookup_insert_eq _ _ _) (lookup_insert_eq _ _ _)) as (w3 & E3 & HM3 & Hpd3 & Hbd3 & Hbu3 & Hn3).
    { rewrite length_replicate. cbn. lia. }
    cbn [t_packets t_blocks] in HM3. rewrite insert_insert_eq, delete_insert_id, app_nil_r in HM3 by exact Hnewb.
    assert (Hpd2 : w_pdos w2 = w_pdos w1) by by rewrite Ew2. apply (attach_front_pdos w2 w3 d zero_pdo) in Hpd3; [|by rewrite Hpd2].
    erewrite (CM_bind_Done _ _ w1 (Some (Some b)) w3) by (rewrite (CM_bind_Done _ _ _ _ _ E2); by rewrite (CM_bind_Done _ _ _ _ _ E3)).
    assert (Hx3 : w_pdos w3 !! p = Some x1) by (rewrite Hpd3, Hpd2, lookup_insert_ne; done).
    assert (Hd3 : w_pdos w3 !! d = Some (set_queue zero_pdo [b])) by (rewrite Hpd3; apply lookup_insert_eq).
    rewrite (CM_bind_Done _ _ _ _ _ (get_pdo_Done _ _ _ Hx3)).
    destruct (by_offset_total w3 d (set_queue zero_pdo [b]) (CurHeaderOffset x1) Hd3) as (h & pl & Eh & Epl).
    { destruct (models_lookup _ _ d _ HM3 (lookup_insert_eq _ _ _)) as (y & Hy & _ & _ & _ & _ & _ & Hin). rewrite Hd3 in Hy. by injection Hy as <-. }
    rewrite (CM_bind_Done _ _ _ _ _ Eh), (CM_bind_Done _ _ _ _ _ Epl), (CM_bind_Done _ _ _ _ _ (get_pdo_Done _ _ _ Hd3)), put_pdo_bind.
    match goal with |- context [insert d ?y] => set (y4 := y) end. set (w4 := set_pdos (insert d y4) w3).
    assert (HM4 : models w4 (Texts (<[d:=replicate (Z.to_nat (Zlen s)) 0]> (t_packets T)) (t_blocks T))) by by eapply models_pdo.
    assert (Hb4 : w_bdos w4 !! b = Some (set_buffer (fresh_bdo 0 0 0) true false (At kd 0) size ANSC_PDO_MAX_HEAD_ROOM (Zlen s))) by (rewrite <-Hbx; cbn; by rewrite Hbd3).
    assert (E4 : w_pdos w4 !! p = Some x1) by (cbn; by rewrite lookup_insert_ne).
    destruct (copy_into w4 _ d p s x1 y4 b kd size HM4 (lookup_insert_eq _ _ _)) as (w5 & E5 & HM5 & Hn5);
      [by cbn; rewrite lookup_insert_ne|done|lia|apply lookup_insert_eq|done|done| |lia| |].
    { cbn. by rewrite Hbu3, Hbuf, Hsz. }
    { intros c Hc. destruct (proj1 (wf_leaves _ _ Hw1 c) ltac:(apply elem_of_app; by left)) as (z1 & Hz1 & _). apply (wf_fresh _ _ _ _ Hw1) in Hz1. unfold b. lia. }
    exists w5. split_and!.
    + erewrite CM_bind_Done; [done|exact E5].
    + unfold grows. rewrite Hn5. cbn. rewrite Hn3, Ew2. cbn. lia.
    + cbn [t_packets t_blocks] in HM5. by rewrite insert_insert_eq in HM5.
  - assert (s = []) as -> by (destruct s; [done|cbn in Hz; lia]). rewrite (CM_bind_eq _ _ w1 (Done (Some None, w1))) by done.
    rewrite (CM_bind_Done _ _ _ _ _ (get_pdo_Done _ _ _ Hx1)). rewrite (CM_bind_Done _ _ w1 None w1), (CM_bind_Done _ _ w1 Null w1) by done.
    rewrite (CM_bind_Done _ _ _ _ _ (get_pdo_Done _ _ _ Hd1)), put_pdo_bind. eexists. split; [done|].
    split; [unfold grows; cbn; lia|]. by eapply models_pdo.
Qed.
End packets.
