(* ===== verification/PacketRefine.v ===== *)
(** * Programs that use packets

    A program makes packets and blocks and calls the operations on them; every
    run of it is a run on the texts of the packets: no call faults, each returns
    what the texts say, and the bytes of every packet are its text. *)

From S2P Require Import Prelude Links Checksum Packet PacketMem PacketThms PacketCut.
Open Scope Z_scope.

Inductive operation :=
  | NewPacket
  | NewBlock (size offset : Z) (data : list Z)
  | Attach (back : bool) (p b : positive)
  | BreakBlock (b : positive) (off : Z)
  | Break (again : bool) (p : positive) (off : Z)
  | Split (p1 p2 : positive) (off : Z)
  | Concatenate (p1 p2 : positive)
  | CutEnd (p : positive) (n : Z)
  | CutStart (p : positive) (n : Z)
  | Copy (p : positive)
  | Transfer (p : positive)
  | Clone (p : positive)
  | FreeBlock (b : positive)
  | FreePacket (p : positive)
  | Size (p : positive).
(** What a call returns: a status, a handle, a number, or what
    [AnscBdoBreakAt] returns. *)
Inductive result :=
  | Status (st : ANSC_STATUS)
  | Handle (h : option positive)
  | Number (n : Z)
  | Halves (st : ANSC_STATUS) (hs : option (option positive * option positive)).

Section runs.
Context `{Platform}.

Definition status (m : KM ANSC_STATUS) : KM result := st ← m; mret (Status st).
Definition handle (m : KM (option positive)) : KM result := h ← m; mret (Handle h).
(** A block is made empty, and its bytes are appended. *)
Definition exec (op : operation) : KM result :=
  match op with
  | NewPacket => handle AnscAllocatePdo
  | NewBlock size offset data =>
      b ← AnscAllocateBdo size offset 0;
      match b with None => mret (Handle None) | Some b => _ ← AnscBdoAppendData b data; mret (Handle (Some b)) end
  | Attach back p b => _ ← (if back then AnscPdoAttachBdoAtBack else AnscPdoAttachBdoAtFront) p b; mret (Status ANSC_STATUS_SUCCESS)
  | BreakBlock b off => r ← AnscBdoBreakAt b off; mret (Halves r.1 r.2)
  | Break again p off => status ((if again then AnscPdoBreakAt2 else AnscPdoBreakAt) p off)
  | Split p1 p2 off => status (AnscPdoSplitAt p1 p2 off)
  | Concatenate p1 p2 => status (AnscPdoConcatenate p1 p2)
  | CutEnd p n => status (AnscPdoShrinkLeft p n)
  | CutStart p n => status (AnscPdoShrinkRight p n)
  | Copy p => handle (AnscCopyPdo p)
  | Transfer p => handle (AnscTransferPdo p)
  | Clone p => handle (AnscClonePdo p)
  | FreeBlock b => status (AnscFreeBdo b)
  | FreePacket p => status (AnscFreePdo p)
  | Size p => n ← AnscPdoGetPacketSize p; mret (Number n)
  end.

(** ** The operations on texts *)

Definition text (T : texts) (p : positive) : list Z := default [] (t_packets T !! p).
Definition block (T : texts) (b : positive) : list Z := default [] (t_blocks T !! b).
Definition is_packet (T : texts) (p : positive) : Prop := is_Some (t_packets T !! p).
Definition is_block (T : texts) (b : positive) : Prop := is_Some (t_blocks T !! b).

(** When a program may call an operation: the handles are those of packets and
    of blocks in no packet, and the bytes fit. *)
Definition allowed (T : texts) (op : operation) : Prop :=
  match op with
  | NewPacket => True
  | NewBlock size offset data => 0 < size /\ size + 16 < 2 ^ ulong_bits /\ 0 <= offset /\ offset + Zlen data <= size
  | Attach _ p b => is_packet T p /\ is_block T b /\ Zlen (text T p) + Zlen (block T b) < 2 ^ ulong_bits
  | BreakBlock b off => is_block T b /\ 0 <= off
  | Break _ p off => is_packet T p /\ 0 <= off
  | Split p1 p2 off => is_packet T p1 /\ is_packet T p2 /\ p1 ≠ p2 /\ 0 < off /\ Zlen (text T p1) + Zlen (text T p2) < 2 ^ ulong_bits
  | Concatenate p1 p2 => is_packet T p1 /\ is_packet T p2 /\ p1 ≠ p2 /\ Zlen (text T p1) + Zlen (text T p2) < 2 ^ ulong_bits
  | CutEnd p n | CutStart p n => is_packet T p /\ 0 <= n
  | Copy p => is_packet T p /\ Zlen (text T p) + 48 < 2 ^ ulong_bits
  | Transfer p | Clone p | FreePacket p | Size p => is_packet T p
  | FreeBlock b => is_block T b
  end.

(** What it returns, [new] being the next handle. *)
Definition returns (T : texts) (new : positive) (op : operation) : result :=
  match op with
  | NewPacket | NewBlock _ _ _ | Copy _ | Transfer _ | Clone _ => Handle (Some new)
  | Attach _ _ _ | Concatenate _ _ | FreeBlock _ | FreePacket _ => Status ANSC_STATUS_SUCCESS
  | BreakBlock b off =>
      if Zlen (block T b) <=? off then Halves ANSC_STATUS_UNAPPLICABLE None
      else Halves ANSC_STATUS_SUCCESS (Some (if off =? 0 then (Some b, None) else (Some new, Some (Pos.succ new))))
  | Break _ p off | Split p _ off | CutEnd p off =>
      Status (if Zlen (text T p) <=? off then ANSC_STATUS_UNAPPLICABLE else ANSC_STATUS_SUCCESS)
  | CutStart p n => Status (if Zlen (text T p) <=? n then ANSC_STATUS_BAD_SIZE else ANSC_STATUS_SUCCESS)
  | Size p => Number (Zlen (text T p))
  end.

(** The texts afterwards.  A cut that is too long empties the packet when it is
    made at the start, and does nothing at the end. *)
Definition after (T : texts) (new : positive) (op : operation) : texts :=
  let packets := t_packets T in
  let blocks := t_blocks T in
  match op with
  | NewPacket | Clone _ => Texts (<[new:=[]]> packets) blocks
  | NewBlock _ _ data => Texts packets (<[new:=data]> blocks)
  | Attach back p b =>
      Texts (<[p:=if back then text T p ++ block T b else block T b ++ text T p]> packets) (delete b blocks)
  | BreakBlock b off =>
      if (Zlen (block T b) <=? off) || (off =? 0) then T
      else Texts packets (<[new:=take (Z.to_nat off) (block T b)]>
        (<[Pos.succ new:=drop (Z.to_nat off) (block T b)]> (delete b blocks)))
  | Break _ _ _ | Size _ => T
  | Split p1 p2 off =>
      if Zlen (text T p1) <=? off then T
      else Texts (<[p1:=take (Z.to_nat off) (text T p1)]> (<[p2:=text T p2 ++ drop (Z.to_nat off) (text T p1)]> packets)) blocks
  | Concatenate p1 p2 => Texts (<[p1:=text T p1 ++ text T p2]> (<[p2:=[]]> packets)) blocks
  | CutEnd p n => if Zlen (text T p) <=? n then T else Texts (<[p:=take (length (text T p) - Z.to_nat n) (text T p)]> packets) blocks
  | CutStart p n => Texts (<[p:=drop (Z.to_nat n) (text T p)]> packets) blocks
  | Copy p => Texts (<[new:=text T p]> packets) blocks
  | Transfer p => Texts (<[new:=text T p]> (<[p:=[]]> packets)) blocks
  | FreeBlock b => Texts packets (delete b blocks)
  | FreePacket p => Texts (delete p packets) blocks
  end.

(** ** Each call does on the memory what it does on the texts *)

Lemma status_Done m st w w' : m w = Done (st, w') -> status m w = Done (Status st, w').
Proof. intros E. unfold status. by rewrite (CM_bind_Done _ _ _ _ _ E). Qed.
Lemma handle_Done m h w w' : m w = Done (h, w') -> handle m w = Done (Handle h, w').
Proof. intros E. unfold handle. by rewrite (CM_bind_Done _ _ _ _ _ E). Qed.
Lemma new_block_spec w T size offset data : models w T -> allowed T (NewBlock size offset data) -> exists w',
  exec (NewBlock size offset data) w = Done (Handle (Some (w_next w)), w') /\ grows w w' /\
  models w' (Texts (t_packets T) (<[w_next w := data]> (t_blocks T))).
Proof.
  intros HM (Hs & Hf & Ho & Hl). destruct (AnscAllocateBdo_spec w T size offset 0 HM) as (w1 & E1 & Hnew & HM1 & Ew1); [right; lia|].
  rewrite (proj2 (Z.ltb_lt 0 size)) in Ew1 by done. destruct (with_buffer_block w size offset 0) as (Hb & Hp & Hk). rewrite <-Ew1 in Hb, Hk.
  destruct (AnscBdoAppendData_spec w1 _ (w_next w) [] data HM1) as (w2 & E2 & HM2 & Hn2).
  { apply lookup_insert_eq. }
  { eexists _, _, _. split_and!; [exact Hb|exact Hp|done|exact Hk|]. cbn. rewrite length_replicate, ULONG_small by lia. lia. }
  exists w2. cbn [exec]. rewrite (CM_bind_Done _ _ _ _ _ E1), (CM_bind_Done _ _ _ _ _ E2). cbn [t_packets t_blocks app] in HM2.
  rewrite insert_insert_eq in HM2. split_and!; [done|unfold grows; rewrite Hn2, Ew1; cbn; lia|done].
Qed.

Lemma exec_refines w T op : models w T -> allowed T op -> Z.pos (w_next w) + 2 <= 65536 -> exists w',
  exec op w = Done (returns T (w_next w) op, w') /\ grows w w' /\ models w' (after T (w_next w) op).
Proof.
  intros HM Hal Hfew. pose proof ulong_modulus_ge. destruct op; cbn [exec returns after]; try (apply new_block_spec; done); cbn [allowed] in Hal; unfold text, block, is_packet, is_block in *.
  all: try match type of Hal with is_Some _ => idtac | _ => destruct Hal as (Hal & Hcond) end.
  all: try (destruct Hal as [s Hs]; try rewrite Hs in Hcond; rewrite ?Hs; cbn [default from_option id] in * ).
  all: try match type of Hcond with is_Some _ /\ _ => destruct Hcond as ([s2 Hs2] & Hcond); try rewrite Hs2 in Hcond; rewrite ?Hs2; cbn [default from_option id] in * end.
  - destruct (AnscAllocatePdo_spec w T HM) as (w' & E & _ & HM' & _ & _ & _ & Hn). exists w'. split_and!; [by apply handle_Done|unfold grows; lia|done].
  - destruct (AnscPdoAttach_spec w T p s b s2 back HM Hs Hs2 Hcond) as (w' & E & HM' & _ & _ & _ & Hn). exists w'.
    rewrite (CM_bind_Done _ _ _ _ _ E). split_and!; [done|by apply grows_same|done].
  - destruct (AnscBdoBreakAt_spec w T b s off HM Hs Hcond) as (w' & E & Hg & HM'). exists w'. rewrite (CM_bind_Done _ _ _ _ _ E).
    split_and!; [by destruct (Zlen s <=? off)|done|done].
  - destruct again; [destruct (AnscPdoBreakAt2_spec w T p s off) as (w' & E & HM' & Hg & _)|destruct (AnscPdoBreakAt_spec w T p s off) as (w' & E & HM' & Hg & _)];
      try done; try lia; (exists w'; split_and!; [by apply status_Done|done|done]).
  - destruct Hcond as (Hne & Ho & Hl). destruct (AnscPdoSplitAt_spec w T p1 p2 s s2 off) as (w' & E & Hg & HM'); try done.
    exists w'. split_and!; [by apply status_Done|done|done].
  - destruct Hcond as (Hne & Hl). destruct (AnscPdoConcatenate_spec w T p1 p2 s s2) as (w' & E & Hn & HM'); try done; [lia|].
    exists w'. split_and!; [by apply status_Done|by apply grows_same|done].
  - destruct (AnscPdoShrinkLeft_spec w T p s n HM Hs Hcond) as (w' & E & HM' & Hn). exists w'. split_and!; [by apply status_Done|by apply grows_same|done].
  - destruct (AnscPdoShrinkRight_spec w T p s n HM Hs Hcond) as (w' & E & HM' & Hn). exists w'. split_and!; [by apply status_Done|by apply grows_same|done].
  - destruct (AnscCopyPdo_spec w T p s HM Hs Hcond) as (w' & E & Hg & HM'). exists w'. split_and!; [by apply handle_Done|done|done].
  - destruct (AnscTransferPdo_spec w T p s HM Hs) as (w' & E & Hg & HM'). exists w'. split_and!; [by apply handle_Done|done|done].
  - destruct (AnscClonePdo_spec w T p s HM Hs) as (w' & E & Hg & HM'). exists w'. split_and!; [by apply handle_Done|done|done].
  - destruct (AnscFreeBdo_text w T b s HM Hs) as (w' & E & HM' & Hn). exists w'. split_and!; [by apply status_Done|by apply grows_same|done].
  - destruct (AnscFreePdo_spec w T p s HM Hs) as (w' & E & HM' & Hn). exists w'. split_and!; [by apply status_Done|by apply grows_same|done].
  - destruct (models_lookup _ _ _ _ HM Hs) as (x & Hx & Hsx & _ & _ & Hl & _ & Hin). exists w.
    rewrite (CM_bind_Done _ _ _ _ _ (packet_size _ _ _ Hx Hin ltac:(by rewrite Hsx))), Hsx. split_and!; [done|by apply grows_same|done].
Qed.

(** ** Runs *)

Definition empty_world : world := World 1 ∅ ∅ ∅ (Pools false false [] []) [] [].
Definition no_texts : texts := Texts ∅ ∅.
Lemma models_empty : models empty_world no_texts.
Proof.
  split; [split|by split_and!|..]; try done.
  - constructor.
  - intros b. cbn. rewrite lookup_empty. split; [by intros ?%elem_of_nil|naive_solver].
Qed.

(** What a program that calls operations when they are allowed can reach in
    [n] calls, and the texts it has in mind then. *)
Inductive reaches : nat -> world -> texts -> Prop :=
  | reaches_start : reaches 0 empty_world no_texts
  | reaches_call n w T op r w' : reaches n w T -> allowed T op -> exec op w = Done (r, w') -> reaches (S n) w' (after T (w_next w) op).

Lemma reaches_models n w T : reaches n w T -> 4 * Z.of_nat n + 3 <= 65536 -> models w T /\ Z.pos (w_next w) <= 4 * Z.of_nat n + 1.
Proof.
  induction 1 as [|n w T op r w' Hr IH Hal E]; intros Hn; [split; [apply models_empty|done]|].
  destruct IH as [HM Hnext]; [lia|]. destruct (exec_refines w T op HM Hal ltac:(lia)) as (w2 & E2 & Hg & HM2). rewrite E in E2. injection E2 as -> ->.
  split; [done|]. unfold grows in Hg. lia.
Qed.

(** C3. Programs of up to sixteen thousand calls on packets refine programs on
    texts: in every reachable state each packet's bytes are its text, and every
    call that the texts allow goes through without a fault - no read or write
    outside a block, no use of a released descriptor - and returns what the
    texts say. *)
Theorem packets_refine n w T : reaches n w T -> 4 * Z.of_nat n + 3 <= 65536 ->
  (forall p s, t_packets T !! p = Some s <-> exists x, w_pdos w !! p = Some x /\ content w (BdoQueue x) = s) /\
  (forall op, allowed T op -> exists w', exec op w = Done (returns T (w_next w) op, w')).
Proof.
  intros Hr Hn. destruct (reaches_models _ _ _ Hr Hn) as [HM Hnext]. split.
  - intros p s. rewrite (m_packets _ _ HM). destruct (w_pdos w !! p) as [x|]; cbn; naive_solver.
  - intros op Hal. destruct (exec_refines w T op HM Hal ltac:(lia)) as (w' & E & _). eauto.
Qed.

Lemma elem_of_leaves P b : b ∈ leaves P <-> exists p y, P !! p = Some y /\ b ∈ BdoQueue y.
Proof.
  unfold leaves. rewrite list_elem_of_bind. split.
  - intros ([p y] & Hb & Hy%elem_of_map_to_list). by exists p, y.
  - intros (p & y & Hy & Hb). exists (p, y). split; [done|]. by apply elem_of_map_to_list.
Qed.
(** Without descriptors that somebody holds there are none: each reference comes
    from a younger descriptor. *)
Lemma wf_empty w : wf w [] -> w_bdos w = ∅ /\ w_bufs w = ∅.
Proof.
  intros Hw. assert (Hb : w_bdos w = ∅).
  { apply map_empty. intros b. destruct (w_bdos w !! b) as [x|] eqn:Hx; [exfalso|done].
    assert (Hbound : forall c y, w_bdos w !! c = Some y -> (c < w_next w)%positive) by (intros c y; apply (wf_fresh _ _ _ _ Hw)).
    remember (Pos.to_nat (w_next w) - Pos.to_nat b)%nat as n eqn:En. revert b x Hx En.
    induction n as [n IH] using lt_wf_ind. intros b x Hx ->.
    assert (Hc : exists c y, w_bdos w !! c = Some y /\ parent y = Some b).
    { pose proof (ok_count _ _ _ (wf_each _ _ Hw b x Hx)) as Hr. unfold references in Hr.
      destruct (filter (fun cx : positive * ANSC_BUFFER_DESCRIPTOR => parent cx.2 = Some b) (map_to_list (w_bdos w))) as [|[c y] l] eqn:El.
      - exfalso. eapply (not_elem_of_nil b), (wf_leaves _ _ Hw). exists x. done.
      - exists c, y. assert (Hin : (c, y) ∈ (c, y) :: l) by left. rewrite <-El in Hin.
        apply list_elem_of_filter in Hin as [Hp Hin%elem_of_map_to_list]. done. }
    destruct Hc as (c & y & Hy & Hp). pose proof (ok_kind _ _ _ (wf_each _ _ Hw c y Hy)) as Hk. unfold kind_ok in Hk. rewrite Hp in Hk. destruct Hk as [Hlt _].
    pose proof (Hbound c y Hy). eapply (IH (Pos.to_nat (w_next w) - Pos.to_nat c)%nat); [lia|exact Hy|done]. }
  split; [done|]. apply map_empty. intros k. destruct (w_bufs w !! k) as [m|] eqn:Hk; [|done].
  apply (wf_bufs _ _ Hw) in Hk as (_ & _ & b & x & Hx & _). by rewrite Hb, lookup_empty in Hx.
Qed.

(** C4. Nothing is lost or released twice: a descriptor is there exactly when
    a packet, the program or another descriptor that shares its buffer holds
    it, its reference count is the number of the latter, each buffer has one
    owner, and when every packet and block was released the memory is empty. *)
Theorem packets_leak_nothing n w T : reaches n w T -> 4 * Z.of_nat n + 3 <= 65536 ->
  (forall b x, w_bdos w !! b = Some x -> RefCount x = references (w_bdos w) b /\
     (RefCount x = 0 <-> (exists p y, w_pdos w !! p = Some y /\ b ∈ BdoQueue y) \/ is_block T b)) /\
  (t_packets T = ∅ -> t_blocks T = ∅ -> w_pdos w = ∅ /\ w_bdos w = ∅ /\ w_bufs w = ∅).
Proof.
  intros Hr Hn. destruct (reaches_models _ _ _ Hr Hn) as [HM _]. pose proof (m_wf _ _ HM) as Hw. split.
  - intros b x Hb. split; [by apply (wf_each _ _ Hw)|]. transitivity (b ∈ leaves (w_pdos w) ++ keys (t_blocks T)).
    + rewrite (wf_leaves _ _ Hw b). split; [eauto|]. intros (x' & Hx' & Hr'). congruence.
    + rewrite elem_of_app, elem_of_leaves, elem_of_keys. done.
  - intros Hp Hb. assert (Epd : w_pdos w = ∅).
    { apply map_empty. intros p. pose proof (m_packets _ _ HM p) as E. rewrite Hp, lookup_empty in E. by destruct (w_pdos w !! p). }
    rewrite Epd, Hb in Hw. cbn in Hw. apply wf_empty in Hw as [? ?]. done.
Qed.

(** ** Programs that are run *)

#[export] Instance is_packet_dec T p : Decision (is_packet T p).
Proof. unfold is_packet. apply _. Defined.
#[export] Instance is_block_dec T b : Decision (is_block T b).
Proof. unfold is_block. apply _. Defined.
#[export] Instance allowed_dec T op : Decision (allowed T op).
Proof. destruct op; cbn [allowed]; apply _. Defined.
Fixpoint run (ops : list operation) (w : world) (T : texts) : option (world * texts) :=
  match ops with
  | [] => Some (w, T)
  | op :: ops =>
      if decide (allowed T op) then
        match exec op w with Done (_, w') => run ops w' (after T (w_next w) op) | Stuck _ => None end
      else None
  end.
Lemma run_reaches ops : forall n w T w' T', reaches n w T -> run ops w T = Some (w', T') -> reaches (length ops + n) w' T'.
Proof.
  induction ops as [|op ops IH]; intros n w T w' T' Hr; cbn [run]; [by intros [= <- <-]|].
  case_decide as Hal; [|done]. destruct (exec op w) as [[r w1]|] eqn:E; [|done]. intros Hrun.
  replace (length (op :: ops) + n)%nat with (length ops + S n)%nat by (cbn; lia). eapply IH; [|exact Hrun]. by eapply reaches_call.
Qed.
Definition state_of (ops : list operation) : world * texts := default (empty_world, no_texts) (run ops empty_world no_texts).
Lemma run_state ops : is_Some (run ops empty_world no_texts) -> reaches (length ops) (state_of ops).1 (state_of ops).2.
Proof.
  intros [[w T] E]. unfold state_of. rewrite E. pose proof (run_reaches ops 0 _ _ _ _ reaches_start E) as Hr. by rewrite Nat.add_0_r in Hr.
Qed.
End runs.

(** A packet of two blocks is broken, split, cut, copied and joined; then
    everything is released. *)
Definition demo : list operation :=
  [NewPacket; NewBlock 16 2 [1; 2; 3; 4; 5]; Attach true 1 2; NewBlock 8 0 [6; 7; 8]; Attach true 1 4; Break false 1 2; Break true 1 4;
   NewPacket; Split 1 10 6; Copy 1; CutStart 1 1; CutEnd 1 2; Concatenate 10 1; Size 10].
Definition demo_end : list operation := [FreePacket 10; FreePacket 1; FreePacket 13].

Theorem packets_refine_witness :
  let w := (@state_of lp64 demo).1 in let T := (@state_of lp64 demo).2 in
  (@reaches lp64 14 w T /\ 4 * Z.of_nat 14 + 3 <= 65536 /\ t_packets T !! 10%positive = Some [7; 8; 2; 3; 4]) /\
  (forall p s, t_packets T !! p = Some s <-> exists x, w_pdos w !! p = Some x /\ content w (BdoQueue x) = s) /\
  (forall op, @allowed lp64 T op -> exists w', @exec lp64 op w = Done (returns T (w_next w) op, w')).
Proof.
  cbn zeta. assert (Hr : @reaches lp64 14 (@state_of lp64 demo).1 (@state_of lp64 demo).2) by (apply (run_state demo); vm_compute; eauto).
  split; [|apply (@packets_refine lp64 14); [exact Hr|lia]]. split_and!; [exact Hr|lia|by vm_compute].
Defined.
Theorem packets_leak_nothing_witness :
  let w := (@state_of lp64 (demo ++ demo_end)).1 in let T := (@state_of lp64 (demo ++ demo_end)).2 in
  (@reaches lp64 17 w T /\ 4 * Z.of_nat 17 + 3 <= 65536 /\ t_packets T = ∅ /\ t_blocks T = ∅ /\ map_to_list (w_bdos w) = []) /\
  (forall b x, w_bdos w !! b = Some x -> RefCount x = references (w_bdos w) b /\
     (RefCount x = 0 <-> (exists p y, w_pdos w !! p = Some y /\ b ∈ BdoQueue y) \/ is_block T b)) /\
  (t_packets T = ∅ -> t_blocks T = ∅ -> w_pdos w = ∅ /\ w_bdos w = ∅ /\ w_bufs w = ∅).
Proof.
  cbn zeta. assert (Hr : @reaches lp64 17 (@state_of lp64 (demo ++ demo_end)).1 (@state_of lp64 (demo ++ demo_end)).2).
  { apply (run_state (demo ++ demo_end)). vm_compute. eauto. }
  split; [|apply (@packets_leak_nothing lp64 17); [exact Hr|lia]]. split_and!; [exact Hr|lia|by vm_compute..].
Defined.
