(* ===== verification/PacketSum.v ===== *)
(** * The sums over a packet

    The packing number of a range of a packet is the one's complement sum of its
    bytes however they are spread over blocks; the checksum is that of the bytes
    when no block in the middle has an odd length. *)

From S2P Require Import Prelude Links Checksum Packet PacketMem PacketThms PacketCut PacketRefine.
Open Scope Z_scope.

Section sums.
Context `{Platform}.

(** ** Blocks *)

Lemma total_bound d : Forall is_byte d -> 0 <= total d.
Proof. apply total_nonneg. Qed.
Lemma same_sum_plus a b c d : 0 <= a -> 0 <= b -> 0 <= c -> 0 <= d -> same_sum a b -> same_sum c d -> same_sum (a + c) (b + d).
Proof.
  intros Ha Hb Hc Hd [E1 Z1] [E2 Z2]. split; [|lia]. by rewrite Zplus_mod, E1, E2, <-Zplus_mod.
Qed.
Lemma packing_number_spec w x o n : inside (w_bufs w) x -> 0 <= o -> 0 <= n -> o + n <= BlockSize x -> Forall is_byte (bytes_in (w_bufs w) x) ->
  packing_number (place_add (AnscBdoGetBlock x) o) n w =
  Done (ones_sum (total (take (Z.to_nat n) (drop (Z.to_nat o) (bytes_in (w_bufs w) x)))), w).
Proof.
  intros (Ho & Hb & Hi) Ho' Hn Hl Hby. unfold packing_number. destruct (Z.eqb_spec n 0) as [->|Hne]; [done|].
  unfold AnscBdoGetBlock, bytes_in in *. destruct (Buffer x) as [| |k i]; [lia|done|]. destruct Hi as (Hi & m & Hk & Hm). cbn [place_add].
  rewrite Hk in Hby |- *. cbn [default from_option id] in *.
  rewrite (CM_bind_Done _ _ _ _ _ (memory_at_Done w k (i + Offset x + o) m Hk ltac:(lia))).
  set (d := take (Z.to_nat n) (drop (Z.to_nat o) (take (Z.to_nat (BlockSize x)) (drop (Z.to_nat (i + Offset x)) m)))) in *.
  assert (Ed : drop (Z.to_nat (i + Offset x + o)) m = d ++ drop (Z.to_nat n) (drop (Z.to_nat (i + Offset x + o)) m)).
  { rewrite <-(take_drop (Z.to_nat n) (drop _ m)) at 1. f_equal. unfold d. rewrite skipn_firstn_comm, take_take, drop_drop. f_equal; [lia|]. f_equal. lia. }
  assert (El : Zlen d = n) by (unfold d; rewrite length_take, length_drop, length_take, length_drop; lia).
  rewrite Ed. pose proof (packing_of_block d (drop (Z.to_nat n) (drop (Z.to_nat (i + Offset x + o)) m)) ltac:(by apply Forall_take, Forall_drop)) as Ep.
  rewrite El in Ep. unfold lift_outcome. by rewrite Ep.
Qed.
Lemma byte_at_spec w x o c : inside (w_bufs w) x -> 0 <= o < BlockSize x -> bytes_in (w_bufs w) x !! Z.to_nat o = Some c ->
  byte_at (place_add (AnscBdoGetBlock x) o) w = Done (c, w).
Proof.
  intros (Ho & Hb & Hi) Ho' Hc. unfold byte_at, AnscBdoGetBlock, bytes_in in *. destruct (Buffer x) as [| |k i]; [done|done|].
  destruct Hi as (Hi & m & Hk & Hm). cbn [place_add]. rewrite Hk in Hc. cbn [default from_option id] in Hc.
  rewrite (CM_bind_Done _ _ _ _ _ (memory_at_Done w k (i + Offset x + o) m Hk ltac:(lia))). unfold lift_outcome.
  rewrite (buf_get_lookup _ 0 c); [done|]. rewrite lookup_drop. rewrite lookup_take_lt, lookup_drop in Hc by lia. rewrite <-Hc. f_equal. lia.
Qed.

(** ** The checksum *)

Lemma fold_loop_more k c v : forall j, fold_loop k c = Done v -> (k <= j)%nat -> fold_loop j c = Done v.
Proof.
  revert c. induction k as [|k IH]; intros c j E Hj; [done|]. destruct j as [|j]; [lia|]. cbn [fold_loop] in *.
  destruct (_ =? 0); [done|]. apply IH; [done|lia].
Qed.
Definition even_list (s : list Z) : Prop := Nat.Even (length s).
(** No block has an odd length, the last one apart. *)
Fixpoint even_blocks (w : world) (q : list positive) : Prop :=
  match q with
  | [] | [_] => True
  | b :: q => even_list (bytes_of w b) /\ even_blocks w q
  end.
Lemma even_blocks_cons w b q : even_blocks w (b :: q) -> even_blocks w q /\ (q = [] \/ even_list (bytes_of w b)).
Proof. destruct q as [|c q]; cbn; [auto|]. intros [? ?]. auto. Qed.

(** A range starts [o] bytes into a block, and takes [n] bytes of it. *)
Lemma range_head (s t : list Z) (o n left : Z) : 0 <= o <= Zlen s -> 0 <= left ->
  n = (if Zlen s - o <=? left then Zlen s - o else left) ->
  take (Z.to_nat left) (drop (Z.to_nat o) (s ++ t)) = take (Z.to_nat n) (drop (Z.to_nat o) s) ++ take (Z.to_nat (left - n)) t /\
  0 <= n <= left /\ o + n <= Zlen s /\ (n = left \/ n = Zlen s - o) /\ Zlen (take (Z.to_nat n) (drop (Z.to_nat o) s)) = n.
Proof.
  intros Ho Hl Hn. assert (Hn' : 0 <= n <= left /\ o + n <= Zlen s /\ (n = left \/ n = Zlen s - o)) by (destruct (Z.leb_spec (Zlen s - o) left); lia).
  split; [|split_and!; try lia; rewrite length_take, length_drop; lia]. rewrite drop_app_le by lia.
  destruct Hn' as (H1 & H2 & [->| ->]).
  - replace (left - left) with 0 by lia. cbn [Z.to_nat take]. rewrite app_nil_r. apply take_app_le. rewrite length_drop. lia.
  - rewrite take_app, length_drop. rewrite (take_ge (drop _ _)), (take_ge (drop _ _)) by (rewrite length_drop; lia). do 2 f_equal. lia.
Qed.

Lemma checksum_loop_spec off w q : forall (found : bool) cur left c s, in_store w q -> Forall is_byte (content w q) -> even_blocks w q ->
  0 <= cur -> (found = false -> cur <= off /\ (q = [] \/ (off - cur) mod 2 = 0)) -> cur + Zlen (content w q) < 2 ^ ulong_bits -> 0 <= left < 2 ^ ulong_bits ->
  0 <= c -> c + 65535 * Zlen q < 4294967296 -> 0 <= s -> same_sum c s -> exists c',
  checksum_loop q found cur off left c w = Done (c', w) /\ 0 <= c' <= c + 65535 * Zlen q /\
  same_sum c' (s + total (take (Z.to_nat left) (rest found cur off (content w q)))).
Proof.
  pose proof ulong_modulus_ge as Hu. induction q as [|b q IH]; intros found cur left c s Hq Hby Hev Hcur Hoff Hf Hl Hc Hcb Hs Hsame.
  - exists c. cbn [checksum_loop]. split_and!; [done|lia|cbn; lia|]. unfold rest. change (content w []) with (@nil Z).
    destruct found; rewrite ?drop_nil, take_nil; cbn; by rewrite Z.add_0_r.
  - cbn [checksum_loop]. destruct (Z.leb_spec left 0) as [Hl0|Hl0].
    { exists c. split_and!; [done|lia|lia|]. replace (Z.to_nat left) with 0%nat by lia. cbn. by rewrite Z.add_0_r. }
    apply in_store_cons in Hq as (Hq & x & Hx & Hin & Hsz & Hb). apply even_blocks_cons in Hev as [Hev Heven].
    rewrite content_cons in Hby, Hf |- *. apply Forall_app in Hby as [Hby1 Hby2]. rewrite length_app in Hf. cbn [length] in Hcb |- *.
    rewrite (CM_bind_Done _ _ _ _ _ (get_bdo_Done _ _ _ Hx)), enter_spec by (try lia; intros E; apply Hoff in E; lia).
    assert (Hstep : forall o n, 0 <= o <= BlockSize x -> o mod 2 = 0 -> rest found cur off (bytes_of w b ++ content w q) = drop (Z.to_nat o) (bytes_of w b ++ content w q) ->
      n = (if ULONG (BlockSize x - o) <=? left then ULONG (BlockSize x - o) else left) -> exists c',
      (d ← packing_number (place_add (AnscBdoGetBlock x) o) n; checksum_loop q true cur off (left - n) (ULONG (c + d))) w = Done (c', w) /\
      0 <= c' <= c + 65535 * Z.of_nat (S (length q)) /\
      same_sum c' (s + total (take (Z.to_nat left) (rest found cur off (bytes_of w b ++ content w q))))).
    { intros o n Ho Ho2 Er En. rewrite ULONG_small in En by lia. rewrite Hsz in En, Ho.
      destruct (range_head (bytes_of w b) (content w q) o n left Ho ltac:(lia) En) as (Ed & Hn1 & Hn2 & Hn3 & Hdl). rewrite Er, Ed.
      rewrite (CM_bind_Done _ _ _ _ _ (packing_number_spec w x o n Hin ltac:(lia) ltac:(lia) ltac:(lia) ltac:(by rewrite Hb))), Hb.
      set (d1 := take (Z.to_nat n) (drop (Z.to_nat o) (bytes_of w b))) in *.
      assert (Hd1 : Forall is_byte d1) by by apply Forall_take, Forall_drop.
      destruct (ones_sum_bound (total d1) (total_nonneg _ Hd1)) as [Hob Hos]. rewrite ULONG_small by lia.
      destruct (IH true cur (left - n) (c + ones_sum (total d1)) (s + total d1)) as (c' & E & Hc' & Hsc'); try done; try lia.
      { pose proof (total_nonneg _ Hd1). lia. }
      { apply same_sum_plus; (done || (pose proof (total_nonneg _ Hd1); lia)). }
      exists c'. split_and!; [done|lia|lia|]. cbn [rest] in Hsc'.
      replace (s + total (d1 ++ take (Z.to_nat (left - n)) (content w q))) with (s + total d1 + total (take (Z.to_nat (left - n)) (content w q))); [done|].
      destruct Hn3 as [->| ->].
      - replace (left - left) with 0 by lia. change (Z.to_nat 0) with 0%nat. rewrite firstn_O. rewrite app_nil_r. change (total []) with 0. lia.
      - destruct Heven as [->|Heven].
        + change (content w []) with (@nil Z). rewrite take_nil, app_nil_r. change (total []) with 0. lia.
        + rewrite total_app; [lia|]. destruct Heven as [m Hm]. exists (m - Z.to_nat (o / 2))%nat. apply Nat2Z.inj. rewrite Hdl.
          pose proof (Z.div_mod o 2 ltac:(lia)). rewrite Nat2Z.inj_mul, Nat2Z.inj_sub by lia. lia. }
    unfold rest in *. destruct found.
    + apply (Hstep 0); [lia|done|done|done].
    + destruct (Hoff eq_refl) as [Hoff1 [Hoff2|Hoff2]]; [done|]. destruct (Z.leb_spec (cur + BlockSize x) off) as [Hle|Hgt].
      * rewrite ULONG_small by lia. rewrite drop_app_ge by lia.
        destruct (IH false (cur + BlockSize x) left c s) as (c' & E & Hc' & Hsc'); try done; try lia.
        -- intros _. split; [lia|]. destruct Heven as [->|[m Hm]]; [by left|right].
           replace (off - (cur + BlockSize x)) with (off - cur + (- Z.of_nat m) * 2) by lia. by rewrite Z_mod_plus_full.
        -- exists c'. split_and!; [done|lia|lia|]. unfold rest in Hsc'. replace (Z.to_nat (off - cur) - length (bytes_of w b))%nat with (Z.to_nat (off - (cur + BlockSize x))) by lia. done.
      * apply (Hstep (off - cur)); [lia|done| |done]. done.
Qed.

(** ** The packing number *)

(** The rest of a round, from [o] bytes into the block. *)
Definition sum_rest (q : list positive) (cur off : Z) (x : ANSC_BUFFER_DESCRIPTOR) (r : Z * Z * Z) : KM Z :=
  let '(o, size, number) := r in
  let n := ULONG (BlockSize x - o) in
  let n := if n <=? size then n else size in
  let size := size - n in
  r ← (if (0 <? size) && negb (n mod 2 =? 0) then
         c ← byte_at (place_add (AnscBdoGetBlock x) (o + n - 1)); mret (Some c, n - 1, size + 1)
       else mret (None, n, size));
  let '(odd, n, size) := r in
  c ← packing_number (place_add (AnscBdoGetBlock x) o) n;
  packing_loop q true cur off odd size (ULONG (number + c)).

Definition carry (odd : option Z) : list Z := match odd with Some c => [c] | None => [] end.
(** What the loop promises of a queue: it adds the bytes of the range. *)
Definition sums_queue (w : world) (q : list positive) (found : bool) (cur off : Z) : Prop := forall (odd : option Z) left N s,
  let d := carry odd ++ take (Z.to_nat (left - Zlen (carry odd))) (rest found cur off (content w q)) in
  (forall c, odd = Some c -> found = true /\ is_byte c /\ 2 <= left) -> Zlen d = left -> left < 2 ^ ulong_bits ->
  0 <= N -> N + 131070 * Zlen q < 4294967296 -> 0 <= s -> same_sum N s -> exists N',
  packing_loop q found cur off odd left N w = Done (N', w) /\ 0 <= N' <= N + 131070 * Zlen q /\ same_sum N' (s + total d).

Lemma sum_rest_spec w q cur off x o left N s : sums_queue w q true cur off -> inside (w_bufs w) x ->
  Forall is_byte (bytes_in (w_bufs w) x) -> 0 <= o <= BlockSize x -> BlockSize x < 2 ^ ulong_bits -> 0 <= left < 2 ^ ulong_bits ->
  let d := take (Z.to_nat left) (drop (Z.to_nat o) (bytes_in (w_bufs w) x ++ content w q)) in Zlen d = left ->
  0 <= N -> N + 65535 + 131070 * Zlen q < 4294967296 -> 0 <= s -> same_sum N s -> exists N',
  sum_rest q cur off x (o, left, N) w = Done (N', w) /\ 0 <= N' <= N + 65535 + 131070 * Zlen q /\ same_sum N' (s + total d).
Proof.
  intros Hq Hin Hby Ho Hfit Hl d Hd HN HNb Hs Hsame. pose proof ulong_modulus_ge as Hu. pose proof (bytes_length _ _ Hin) as Hlen.
  set (t := bytes_in (w_bufs w) x) in *. unfold sum_rest. rewrite ULONG_small by lia.
  destruct (range_head t (content w q) o (if BlockSize x - o <=? left then BlockSize x - o else left) left ltac:(lia) ltac:(lia)) as (Ed & Hn1 & Hn2 & Hn3 & Hdl);
    [by rewrite Hlen|]. set (n := if BlockSize x - o <=? left then BlockSize x - o else left) in *.
  fold d in Ed. set (d1 := take (Z.to_nat n) (drop (Z.to_nat o) t)) in *. set (d2 := take (Z.to_nat (left - n)) (content w q)) in *.
  assert (Hd1 : Forall is_byte d1) by by apply Forall_take, Forall_drop.
  assert (Hd2 : Zlen d2 = left - n) by (rewrite Ed, length_app in Hd; lia).
  assert (Hcont : forall odd u l e, Forall is_byte u -> e = carry odd ++ take (Z.to_nat (l - Zlen (carry odd))) (content w q) ->
    (forall c, odd = Some c -> true = true /\ is_byte c /\ 2 <= l) -> Zlen e = l -> l < 2 ^ ulong_bits -> exists N',
    packing_loop q true cur off odd l (ULONG (N + ones_sum (total u))) w = Done (N', w) /\ 0 <= N' <= N + 65535 + 131070 * Zlen q /\
    same_sum N' (s + total u + total e)).
  { intros odd u l e Hu2 -> Hodd He Hl2. destruct (ones_sum_bound (total u) (total_nonneg _ Hu2)) as [Hob Hos]. rewrite ULONG_small by lia.
    pose proof (total_nonneg _ Hu2). destruct (Hq odd l (N + ones_sum (total u)) (s + total u)) as (N' & E & HN' & Hsame'); try done; try lia.
    { apply same_sum_plus; (done || lia). }
    exists N'. split_and!; [exact E|lia|lia|exact Hsame']. }
  destruct (Z.ltb_spec 0 (left - n)) as [Hmore|Hnone]; [destruct (Z.eqb_spec (n mod 2) 0) as [He|Hodd]|]; cbn [andb negb].
  - erewrite CM_bind_Done; [|reflexivity]. cbn beta iota.
    rewrite (CM_bind_Done _ _ _ _ _ (packing_number_spec w x o n Hin ltac:(lia) ltac:(lia) ltac:(lia) Hby)). fold t d1.
    rewrite Ed, total_app by (exists (Z.to_nat (n / 2)); pose proof (Z.div_mod n 2 ltac:(lia)); lia). rewrite Z.add_assoc. apply (Hcont None d1 (left - n)); try done; try lia.
    cbn [carry length app]. by rewrite Z.sub_0_r.
  - assert (1 <= n) by (destruct (Z.eq_dec n 0) as [E|]; [by rewrite E in Hodd|lia]).
    destruct (lookup_lt_is_Some_2 t (Z.to_nat (o + n - 1))) as [c Hc]; [lia|]. pose proof (Forall_lookup_1 _ _ _ _ Hby Hc) as Hcb.
    erewrite CM_bind_Done; [|erewrite CM_bind_Done; [reflexivity|apply (byte_at_spec w x (o + n - 1) c Hin); [lia|done]]]. cbn beta iota.
    rewrite (CM_bind_Done _ _ _ _ _ (packing_number_spec w x o (n - 1) Hin ltac:(lia) ltac:(lia) ltac:(lia) Hby)). fold t.
    assert (Ed1 : d1 = take (Z.to_nat (n - 1)) (drop (Z.to_nat o) t) ++ [c]).
    { unfold d1. replace (Z.to_nat n) with (S (Z.to_nat (n - 1))) by lia. apply take_S_r. rewrite lookup_drop, <-Hc. f_equal. lia. }
    rewrite Ed, Ed1, <-app_assoc. rewrite total_app.
    2: { exists (Z.to_nat (n / 2)). rewrite length_take, length_drop. pose proof (Z.div_mod n 2 ltac:(lia)). pose proof (Z.mod_pos_bound n 2 ltac:(lia)). lia. }
    rewrite Z.add_assoc. apply (Hcont (Some c)); try lia.
    + by apply Forall_take, Forall_drop.
    + replace (left - n + 1 - Zlen (carry (Some c))) with (left - n) by (cbn; lia). done.
    + intros ? [= <-]. split_and!; [done|done|lia].
    + cbn [app length]. lia.
  - erewrite CM_bind_Done; [|reflexivity]. cbn beta iota.
    rewrite (CM_bind_Done _ _ _ _ _ (packing_number_spec w x o n Hin ltac:(lia) ltac:(lia) ltac:(lia) Hby)). fold t d1.
    assert (d2 = []) as E2 by (apply nil_length_inv; lia). rewrite Ed, E2, app_nil_r. rewrite <-(Z.add_0_r (s + total d1)). change 0 with (total []).
    apply (Hcont None d1 (left - n)); try done; try lia; [|cbn; lia].
    cbn [carry length app]. by rewrite Z.sub_0_r, <-E2.
Qed.

Lemma packing_loop_cons q b found cur off odd l N w x : w_bdos w !! b = Some x -> 0 < l ->
  packing_loop (b :: q) found cur off odd l N w =
  match enter_block found cur off (BlockSize x) with
  | None => packing_loop q false (ULONG (cur + BlockSize x)) off odd l N w
  | Some o =>
      if found && (BlockSize x =? 0) then packing_loop q found cur off odd l N w
      else (r ← match odd with
                | None => mret (o, l, N)
                | Some c => c2 ← byte_at (place_add (AnscBdoGetBlock x) o); mret (o + 1, ULONG (l - 2), ULONG (N + word16 c c2))
                end; sum_rest q cur off x r) w
  end.
Proof.
  intros Hx Hl. cbn [packing_loop]. rewrite (proj2 (Z.leb_gt l 0)) by done. rewrite (CM_bind_Done _ _ _ _ _ (get_bdo_Done _ _ _ Hx)).
  destruct (enter_block _ _ _ _); [|done]. by destruct (found && _).
Qed.
Lemma packing_loop_spec off w q : forall found cur, in_store w q -> Forall is_byte (content w q) -> 0 <= cur -> (found = false -> cur <= off) ->
  cur + Zlen (content w q) < 2 ^ ulong_bits -> sums_queue w q found cur off.
Proof.
  induction q as [|b q IH]; intros found cur Hq Hby Hcur Hoff Hf odd l N s d Hodd Hd Hl HN HNb Hs Hsame.
  - assert (Ed : d = carry odd).
    { unfold d, rest. change (content w []) with (@nil Z). destruct found; by rewrite ?drop_nil, take_nil, app_nil_r. }
    destruct odd as [c|]; [destruct (Hodd c eq_refl) as (_ & _ & ?); rewrite Ed in Hd; cbn in Hd; lia|].
    exists N. cbn [packing_loop]. rewrite Ed. split_and!; [done|lia|lia|]. by rewrite Z.add_0_r.
  - apply in_store_cons in Hq as (Hq & x & Hx & Hin & Hsz & Hb). rewrite content_cons in Hby, Hf. apply Forall_app in Hby as [Hby1 Hby2].
    rewrite length_app in Hf. cbn [length] in HNb |- *. pose proof ulong_modulus_ge as Hu.
    destruct (Z.leb_spec l 0) as [Hl0|Hl0].
    { assert (E : d = []) by (apply nil_length_inv; lia). exists N. rewrite E. cbn [packing_loop]. rewrite (proj2 (Z.leb_le l 0)) by done.
      split_and!; [done|lia|lia|]. by rewrite Z.add_0_r. }
    rewrite (packing_loop_cons _ _ _ _ _ _ _ _ _ _ Hx Hl0), enter_spec by (try lia; intros E; apply Hoff in E; lia).
    assert (Hbytes : Forall is_byte (bytes_in (w_bufs w) x)) by by rewrite Hb.
    assert (Htrue : sums_queue w q true cur off) by (apply IH; try done; lia). unfold d in *. clear d. destruct found; cbn [andb rest] in *.
    + destruct (Z.eqb_spec (BlockSize x) 0) as [E0|Hne].
      * assert (Ec : content w (b :: q) = content w q) by (rewrite content_cons; by rewrite (nil_length_inv (bytes_of w b)) by lia).
        rewrite Ec in Hd |- *. destruct (Htrue odd l N s Hodd Hd Hl HN ltac:(lia) Hs Hsame) as (N' & E & HN' & Hs'). exists N'. split_and!; [done|lia|lia|done].
      * rewrite content_cons in Hd |- *. destruct odd as [c|].
        -- destruct (Hodd c eq_refl) as (_ & Hc & Hl2). destruct (bytes_of w b) as [|c2 t] eqn:Et; [cbn in Hsz; lia|].
           pose proof (Forall_inv Hby1) as Hc2. pose proof (word16_bound c c2 Hc Hc2) as Hw.
           erewrite CM_bind_Done; [|erewrite CM_bind_Done; [reflexivity|apply (byte_at_spec w x 0 c2 Hin); [lia|by rewrite Hb]]].
           rewrite (ULONG_small (l - 2)), ULONG_small by lia.
           assert (Ed : [c] ++ take (Z.to_nat (l - 1)) ((c2 :: t) ++ content w q) =
                        c :: c2 :: take (Z.to_nat (l - 2)) (drop (Z.to_nat 1) ((c2 :: t) ++ content w q))).
           { replace (Z.to_nat (l - 1)) with (S (Z.to_nat (l - 2))) by lia. done. }
           cbn [carry length] in Hd |- *. change (Z.of_nat 1) with 1 in Hd |- *. rewrite Ed in Hd |- *. rewrite total_cons2.
           destruct (sum_rest_spec w q cur off x 1 (l - 2) (N + word16 c c2) (s + word16 c c2) Htrue Hin Hbytes) as (N' & E & HN' & Hs'); try lia.
           { rewrite Hb. cbn [length] in Hd. lia. }
           { destruct Hsame. split; [by rewrite Zplus_mod, H0, <-Zplus_mod|lia]. }
           exists N'. rewrite Hb in Hs'. rewrite Z.add_assoc. split_and!; [exact E|lia|lia|exact Hs'].
        -- cbn [carry length app] in Hd |- *. rewrite Z.sub_0_r in Hd |- *.
           destruct (sum_rest_spec w q cur off x 0 l N s Htrue Hin Hbytes) as (N' & E & HN' & Hs'); try done; try lia; [by rewrite Hb|].
           exists N'. rewrite Hb in Hs'. split_and!; [exact E|lia|lia|exact Hs'].
    + destruct odd as [c|]; [by destruct (Hodd c eq_refl) as [? _]|]. specialize (Hoff eq_refl).
      cbn [carry length app] in Hd |- *. rewrite Z.sub_0_r in Hd |- *. rewrite content_cons in Hd |- *.
      destruct (Z.leb_spec (cur + BlockSize x) off) as [Hle|Hgt].
      * rewrite ULONG_small by lia. rewrite drop_app_ge in Hd |- * by lia.
        replace (Z.to_nat (off - cur) - length (bytes_of w b))%nat with (Z.to_nat (off - (cur + BlockSize x))) in Hd |- * by lia.
        assert (Hnext : sums_queue w q false (cur + BlockSize x) off) by (apply IH; try done; try lia; by intros _).
        destruct (Hnext None l N s) as (N' & E & HN' & Hs'); try done; try lia; [cbn [carry rest app length]; by rewrite Z.sub_0_r|].
        exists N'. cbn [carry rest app length] in Hs'. rewrite Z.sub_0_r in Hs'. split_and!; [exact E|lia|lia|exact Hs'].
      * destruct (sum_rest_spec w q cur off x (off - cur) l N s Htrue Hin Hbytes) as (N' & E & HN' & Hs'); try done; try lia; [by rewrite Hb|].
        exists N'. rewrite Hb in Hs'. split_and!; [exact E|lia|lia|exact Hs'].
Qed.

Lemma ones_sum_unique c s : 0 <= c -> 0 <= s -> same_sum c s -> ones_sum c = ones_sum s.
Proof.
  intros Hc Hs [E Z0]. unfold ones_sum. destruct (Z.eqb_spec c 0), (Z.eqb_spec s 0); try lia. f_equal.
  by rewrite Zminus_mod, E, <-Zminus_mod.
Qed.

(** C5. However the bytes of a packet are spread over its blocks, the packing
    number of a range is a number whose one's complement sum is that of the
    bytes of the range.  The checksum of a range at an even offset is that of
    its bytes when no block but the last has an odd length. *)
Theorem packet_sums n w T p s off size : reaches n w T -> 4 * Z.of_nat n + 3 <= 32768 -> t_packets T !! p = Some s -> Forall is_byte s ->
  0 <= off -> 0 < size -> off + size <= Zlen s -> let range := take (Z.to_nat size) (drop (Z.to_nat off) s) in
  (exists N, AnscPdoGetPackingNumber p off size w = Done (N, w) /\ 0 <= N < 4294967296 /\ ones_sum N = ones_sum (total range)) /\
  ((exists x, w_pdos w !! p = Some x /\ even_blocks w (BdoQueue x)) -> off mod 2 = 0 ->
   AnscPdoCalChecksum p off size w = Done (65535 - ones_sum (total range), w)).
Proof.
  intros Hr Hn Hp Hby Ho Hsz Hl range. destruct (reaches_models _ _ _ Hr ltac:(lia)) as [HM Hnext].
  destruct (models_lookup _ _ _ _ HM Hp) as (x & Hx & Hs & _ & _ & Hls & Hw & Hin). pose proof (held_bound _ _ Hw) as Hlen. rewrite length_app in Hlen.
  pose proof ulong_modulus_ge as Hu. assert (Hby' : Forall is_byte (content w (BdoQueue x))) by by rewrite Hs.
  assert (Hrange : Zlen range = size) by (unfold range; rewrite length_take, length_drop; lia).
  pose proof (total_nonneg range ltac:(by apply Forall_take, Forall_drop)) as Htot.
  assert (Erest : rest false 0 off s = drop (Z.to_nat off) s) by (unfold rest; by rewrite Z.sub_0_r). split.
  - unfold AnscPdoGetPackingNumber. rewrite (CM_bind_Done _ _ _ _ _ (packet_size _ _ _ Hx Hin ltac:(by rewrite Hs))), Hs.
    rewrite (proj2 (Z.ltb_ge _ _)), (proj2 (Z.eqb_neq _ _)) by lia. rewrite (CM_bind_Done _ _ _ _ _ (the_queue_Done _ _ _ Hx)).
    destruct (packing_loop_spec off w (BdoQueue x) false 0 Hin Hby' ltac:(lia) ltac:(lia) ltac:(by rewrite Hs, Z.add_0_l) None size 0 0) as (N & E & HN & Hsame);
      try done; try lia.
    { cbn [carry length app]. by rewrite Hs, Z.sub_0_r, Erest. }
    cbn [carry length app] in Hsame. rewrite Hs, Z.sub_0_r, Erest, Z.add_0_l in Hsame. exists N. split_and!; [done|lia|lia|].
    apply ones_sum_unique; [lia|done|exact Hsame].
  - intros (x' & Hx' & Hev) Heven. rewrite Hx in Hx'. injection Hx' as <-. unfold AnscPdoCalChecksum.
    rewrite (CM_bind_Done _ _ _ _ _ (packet_size _ _ _ Hx Hin ltac:(by rewrite Hs))), Hs.
    rewrite (proj2 (Z.ltb_ge _ _)), (proj2 (Z.eqb_neq _ _)) by lia. rewrite (CM_bind_Done _ _ _ _ _ (the_queue_Done _ _ _ Hx)).
    destruct (checksum_loop_spec off w (BdoQueue x) false 0 size 0 0) as (c & E & Hc & Hsame); try done; try lia.
    { intros _. split; [lia|]. right. by rewrite Z.sub_0_r. }
    { by rewrite Hs, Z.add_0_l. }
    rewrite Hs, Erest, Z.add_0_l in Hsame. rewrite (CM_bind_Done _ _ _ _ _ E). unfold lift_outcome.
    rewrite (CM_bind_Done _ _ w (ones_sum (total range)) w).
    + unfold mret, CM_ret. rewrite complement; [done|]. by apply ones_sum_bound.
    + rewrite (fold_loop_more fold_fuel c (ones_sum (total range))); [done| |unfold fold_fuel; destruct ulong_bits_ok as [-> | ->]; lia].
      apply fold_loop_spec; [lia|done|exact Hsame].
Qed.
End sums.

(** Eight bytes in blocks of 3, 2 and 3 bytes. *)
Definition odd_blocks : list operation :=
  [NewPacket; NewBlock 8 0 [69; 0; 7]; Attach true 1 2; NewBlock 8 0 [1; 200]; Attach true 1 4; NewBlock 8 0 [3; 250; 17]; Attach true 1 6].
(** The same in one block, and in blocks of 2 and 6 bytes. *)
Definition one_block : list operation := [NewPacket; NewBlock 8 0 [69; 0; 7; 1; 200; 3; 250; 17]; Attach true 1 2].
Definition two_blocks : list operation := one_block ++ [Break false 1 2].

Theorem packet_sums_witness :
  let w := (@state_of lp64 two_blocks).1 in let T := (@state_of lp64 two_blocks).2 in let s := [69; 0; 7; 1; 200; 3; 250; 17] in
  let range := take (Z.to_nat 5) (drop (Z.to_nat 2) s) in
  (@reaches lp64 4 w T /\ t_packets T !! 1%positive = Some s /\ exists x, w_pdos w !! 1%positive = Some x /\ even_blocks w (BdoQueue x)) /\
  (exists N, @AnscPdoGetPackingNumber lp64 1 2 5 w = Done (N, w) /\ 0 <= N < 4294967296 /\ ones_sum N = ones_sum (@total lp64 range)) /\
  ((exists x, w_pdos w !! 1%positive = Some x /\ even_blocks w (BdoQueue x)) -> 2 mod 2 = 0 ->
   @AnscPdoCalChecksum lp64 1 2 5 w = Done (65535 - ones_sum (@total lp64 range), w)).
Proof.
  cbn zeta. assert (Hr : @reaches lp64 4 (@state_of lp64 two_blocks).1 (@state_of lp64 two_blocks).2) by (apply (run_state two_blocks); vm_compute; eauto).
  split.
  - split_and!; [exact Hr|by vm_compute|]. eexists. split; [by vm_compute|]. vm_compute. split; [by exists 1%nat|done].
  - apply (@packet_sums lp64 4 (@state_of lp64 two_blocks).1 (@state_of lp64 two_blocks).2 1 [69; 0; 7; 1; 200; 3; 250; 17] 2 5);
      [exact Hr|lia|by vm_compute|repeat constructor; unfold is_byte; lia|lia|lia|cbn; lia].
Defined.

(** The checksum is not one of the bytes: it pads each block that has an odd
    length. *)
Lemma odd_blocks_change_checksum :
  let one := @state_of lp64 one_block in let odd := @state_of lp64 odd_blocks in
  text one.2 1 = text odd.2 1 /\
  (fst <$> @AnscPdoCalChecksum lp64 1 0 8 one.1) = Done 59633 /\ (fst <$> @AnscPdoCalChecksum lp64 1 0 8 odd.1) = Done 15773.
Proof. by vm_compute. Qed.
