(* ===== verification/PacketFaults.v ===== *)
(** * Where the packets go wrong

    What happens outside of the programs of [PacketRefine]: packets with a free
    function of their own, mappings that fail, copies of descriptors, and
    allocations that fail between two others. *)

From S2P Require Import Prelude Links Checksum Packet PacketMem PacketThms PacketCut PacketRefine.
Open Scope Z_scope.

Section faults.
Context `{Platform}.

(** A packet with a free function of its own, without blocks, cannot be
    released: where longs have 64 bits the cleaning writes behind the
    descriptor, as it counts a quarter of its bytes in longs; where they have 32
    the function is called, but the owner it is given was zeroed. *)
Theorem AnscFreePdo_faults w p x f : w_pdos w !! p = Some x -> BdoQueue x = [] -> pdo_pfnFreeMe x = Some f ->
  AnscFreePdo p w = if ulong_bits =? 64 then Stuck OutOfBounds
    else Done (ANSC_STATUS_SUCCESS, add_call (f, None, p) (set_pdos (insert p zero_pdo) w)).
Proof.
  intros Hp Hq Hf. unfold AnscFreePdo, AnscReleasePdo. cbn [g_bPdoPoolingEnabled negb].
  rewrite (CM_bind_Done _ _ _ _ _ (get_pdo_Done _ _ _ Hp)), Hf. set (w1 := set_pdos (insert p (set_queue x [])) w).
  assert (E1 : AnscPdoCleanBdoQueue p w = Done (tt, w1)).
  { unfold AnscPdoCleanBdoQueue. rewrite (CM_bind_Done _ _ _ _ _ (the_queue_Done _ _ _ Hp)), Hq. cbn [free_bdos].
    rewrite (CM_bind_Done _ _ w tt w) by done. by rewrite (change_queue_Done _ _ x) by done. }
  assert (Hclean : AnscPdoClean p w = if ulong_bits =? 64 then Stuck OutOfBounds else Done (tt, set_pdos (insert p zero_pdo) w)).
  { unfold AnscPdoClean. rewrite (CM_bind_Done _ _ _ _ _ E1). unfold PDO_SIZE. destruct ulong_bits_ok as [-> | ->]; [|done].
    replace (_ <? _) with false by by vm_compute. unfold put_pdo, modify, w1, set_pdos. cbn. by rewrite insert_insert_eq. }
  destruct (ulong_bits =? 64); rewrite (CM_bind_eq _ _ _ _ Hclean); [done|].
  unfold call_free_pdo. erewrite CM_bind_Done; [|erewrite CM_bind_Done; [reflexivity|apply get_pdo_Done, lookup_insert_eq]]. done.
Qed.

(** Allocations one by one. *)
Definition with_alloc (w : world) (a : alloc_stream) : world :=
  World (w_next w) (w_bdos w) (w_pdos w) (w_bufs w) (bdo_pool_open (w_pools w)) (w_calls w) a.
Definition with_fresh (w : world) (a : alloc_stream) : world :=
  World (Pos.succ (w_next w)) (<[w_next w := fresh_bdo 0 0 0]> (w_bdos w)) (w_pdos w) (w_bufs w) (bdo_pool_open (w_pools w)) (w_calls w) a.
Lemma acquire_ok w a : w_alloc w = true :: a -> g_qBdoPoolList (w_pools w) = [] -> AnscAcquireBdo w = Done (Some (w_next w), with_fresh w a).
Proof.
  destruct w as [nx bd pd bu [ip ib lp lb] cs al]. cbn. intros -> ->. unfold AnscAcquireBdo. cbn [g_bBdoPoolingEnabled]. rewrite the_pools_bind.
  cbn [w_pools g_bBdoPoolInitialized]. by destruct ib.
Qed.
Lemma allocate_ok w a : w_alloc w = true :: a -> g_qBdoPoolList (w_pools w) = [] -> AnscAllocateBdo 0 0 0 w = Done (Some (w_next w), with_fresh w a).
Proof.
  intros Ha Hp. unfold AnscAllocateBdo, allocate_bdo. rewrite (CM_bind_Done _ _ _ _ _ (acquire_ok w a Ha Hp)).
  erewrite CM_bind_Done; [|apply get_bdo_Done, lookup_insert_eq]. rewrite put_bdo_bind. cbn [Z.ltb Z.compare].
  unfold mret, CM_ret. do 2 f_equal. unfold with_fresh, set_bdos. cbn. by rewrite insert_insert_eq.
Qed.
Lemma allocate_fails w a : w_alloc w = false :: a -> g_qBdoPoolList (w_pools w) = [] -> AnscAllocateBdo 0 0 0 w = Done (None, with_alloc w a).
Proof.
  destruct w as [nx bd pd bu [ip ib lp lb] cs al]. cbn. intros -> ->. unfold AnscAllocateBdo, allocate_bdo, AnscAcquireBdo.
  cbn [g_bBdoPoolingEnabled]. by destruct ib.
Qed.
(** A failed mapping is not noticed: the descriptor that is returned has the
    error value for its buffer, and the first access to it faults. *)
Lemma AnscAllocateBdoWithMmap_failed w size n : g_qBdoPoolList (w_pools w) = [] -> w_alloc w = [true; false] -> 0 < size -> exists w' x,
  AnscAllocateBdoWithMmap size 0 n w = Done (Some (w_next w), w') /\ w_bdos w' !! w_next w = Some x /\ Buffer x = MapFailed /\ bOwner x = true /\
  forall c s, AnscBdoAppendData (w_next w) (c :: s) w' = Stuck BadAccess.
Proof.
  intros Hp Ha Hs. unfold AnscAllocateBdoWithMmap, allocate_bdo. rewrite (CM_bind_Done _ _ _ _ _ (acquire_ok w _ Ha Hp)).
  erewrite CM_bind_Done; [|apply get_bdo_Done, lookup_insert_eq]. rewrite put_bdo_bind, (proj2 (Z.ltb_lt 0 size)) by done.
  do 2 eexists. split; [reflexivity|]. cbn. split; [apply lookup_insert_eq|]. split_and!; [done|done|]. intros c s.
  unfold AnscBdoAppendData. erewrite CM_bind_Done; [|apply get_bdo_Done, lookup_insert_eq]. by rewrite put_bdo_bind.
Qed.

(** A copy of a descriptor that others refer to takes over their number: it is
    not released with its only handle, but stays in memory. *)
Lemma AnscCopyBdo_leaks w b x : idle w -> w_bdos w !! b = Some x -> (b < w_next w)%positive -> 1 < RefCount x -> exists w' y,
  (c ← AnscCopyBdo b; match c with Some c => AnscFreeBdo c | None => mret ANSC_STATUS_RESOURCES end) w = Done (ANSC_STATUS_SUCCESS, w') /\
  w_bdos w' !! w_next w = Some y /\ RefCount y = RefCount x - 1.
Proof.
  intros Hi Hx Hlt Hr. set (d := w_next w).
  set (y := Bdo false (bUseMmap x) (Buffer x) (BufferSize x) (Offset x) (BlockSize x) (RefCount x) (Reserved1 x) (OsSpecific x) None None).
  set (w2 := set_bdos (insert d y) (with_bdo w 0 0 0)).
  assert (E : AnscCopyBdo b w = Done (Some d, w2)).
  { unfold AnscCopyBdo. rewrite (CM_bind_Done _ _ _ _ _ (AnscAllocateBdo_fresh w 0 0 0 Hi)). cbn [Z.ltb Z.compare].
    erewrite CM_bind_Done; [|apply get_bdo_Done; cbn; rewrite lookup_insert_ne; [exact Hx|lia]]. done. }
  rewrite (CM_bind_Done _ _ _ _ _ E). unfold AnscFreeBdo, free_fuel.
  rewrite (free_more _ _ _ y) by (done || apply lookup_insert_eq). do 2 eexists. split; [done|]. split; [apply lookup_insert_eq|done].
Qed.

(** When the second of the two descriptors a break needs cannot be had, the
    first one is left behind. *)
Lemma AnscBdoBreakAt_leaks w b x off : g_qBdoPoolList (w_pools w) = [] -> w_alloc w = [true; false] -> w_bdos w !! b = Some x ->
  0 < off < BlockSize x -> exists w',
  AnscBdoBreakAt b off w = Done ((ANSC_STATUS_RESOURCES, Some (None, None)), w') /\ w_bdos w' !! w_next w = Some (fresh_bdo 0 0 0).
Proof.
  intros Hp Ha Hx Ho. unfold AnscBdoBreakAt. rewrite (CM_bind_Done _ _ _ _ _ (get_bdo_Done _ _ _ Hx)).
  rewrite (proj2 (Z.leb_gt _ _)), (proj2 (Z.eqb_neq off 0)) by lia. rewrite (CM_bind_Done _ _ _ _ _ (allocate_ok w _ Ha Hp)).
  erewrite CM_bind_Done; [|by apply allocate_fails]. eexists. split; [done|apply lookup_insert_eq].
Qed.
End faults.

Theorem AnscFreePdo_faults_witness :
  let x := Pdo 0 0 false false false [] None Null 0 [] [] zero_pads 0 None None (Some 9%positive) (Some 4) in
  let w := World 2 ∅ {[1%positive := x]} ∅ (Pools true true [] []) [] [] in
  (w_pdos w !! 1%positive = Some x /\ BdoQueue x = [] /\ pdo_pfnFreeMe x = Some 4) /\
  @AnscFreePdo ilp32 1 w = Done (ANSC_STATUS_SUCCESS, add_call (4, None, 1%positive) (set_pdos (insert 1%positive zero_pdo) w)).
Proof.
  cbn zeta. set (x := Pdo 0 0 false false false [] None Null 0 [] [] zero_pads 0 None None (Some 9%positive) (Some 4)). split; [done|].
  exact (@AnscFreePdo_faults ilp32 (World 2 ∅ {[1%positive := x]} ∅ (Pools true true [] []) [] []) 1 x 4 eq_refl eq_refl eq_refl).
Defined.
