(* ===== verification/Base64.v ===== *)
(** * Base64 ([ansc_base64.c])

    The encoder writes four characters per three bytes into an allocated
    buffer.  The decoder calls [b64_decode] of the trower-base64 library, which
    is a parameter here: it yields the bytes it decodes from a text. *)

From S2P Require Import Prelude.
Open Scope Z_scope.

Definition ANSC_BASE64_CODES : cstr := lit "ABCDEFGHIJKLMNOPQRSTUVWXYZabcdefghijklmnopqrstuvwxyz0123456789+/".
Definition ANSC_BASE64_ENCODE_OVERRUN_SIZE : Z := 3.

(** The four indices of a group; [p0], [p1] and [p2] are bytes. *)
Definition idx0 (p0 : Z) : Z := Z.land (Z.shiftr p0 2) 63.
Definition idx1 (p0 p1 : Z) : Z := Z.land (Z.shiftl p0 4) 48 + Z.land (Z.shiftr p1 4) 15.
Definition idx2 (p1 p2 : Z) : Z := Z.land (Z.shiftl p1 2) 60 + Z.land (Z.shiftr p2 6) 3.
Definition idx3 (p2 : Z) : Z := Z.land p2 63.

(** [buf[k] = pBase64Codes[i]] *)
Definition put_code (buf : list Z) (k i : Z) : outcome (list Z) :=
  c ← buf_get ANSC_BASE64_CODES i; buf_put buf k c.

(** [while (div > 0)]: a group per round; the offsets in the data and in the
    string move by three and four. *)
Fixpoint encode_groups (div : nat) (pBuf : list Z) (pData : Z) (pString : list Z) (buf : Z)
  : outcome (Z * list Z * Z) :=
  match div with
  | O => Done (pData, pString, buf)
  | S k =>
      p0 ← buf_get pBuf pData; p1 ← buf_get pBuf (pData + 1); p2 ← buf_get pBuf (pData + 2);
      s ← put_code pString buf (idx0 p0);
      s ← put_code s (buf + 1) (idx1 p0 p1);
      s ← put_code s (buf + 2) (idx2 p1 p2);
      s ← put_code s (buf + 3) (idx3 p2);
      encode_groups k pBuf (pData + 3) s (buf + 4)
  end.

Definition AnscBase64Encode (pBuf : list Z) (ulSize : Z) (a : alloc_stream)
  : outcome (option (list Z) * alloc_stream) :=
  let div := INT (ulSize / 3) in
  let rem := INT (ulSize mod 3) in
  let chars := INT (INT (INT (div * 4) + rem) + 1) in
  let '(ok, a) := next_alloc a in
  if negb ok then Done (None, a)
  else
    let pString := replicate (Z.to_nat (chars + ANSC_BASE64_ENCODE_OVERRUN_SIZE)) 0 in
    r ← encode_groups (Z.to_nat div) pBuf 0 pString 0;
    let '(pData, s, buf) := r in
    r ← (if rem =? 2 then
           p0 ← buf_get pBuf pData; p1 ← buf_get pBuf (pData + 1);
           s ← put_code s buf (idx0 p0);
           s ← put_code s (buf + 1) (idx1 p0 p1);
           s ← put_code s (buf + 2) (Z.land (Z.shiftl p1 2) 60);
           s ← buf_put s (buf + 3) 61;
           Done (s, buf + 4)
         else if rem =? 1 then
           p0 ← buf_get pBuf pData;
           s ← put_code s buf (idx0 p0);
           s ← put_code s (buf + 1) (Z.land (Z.shiftl p0 4) 48);
           s ← buf_put s (buf + 2) 61;
           s ← buf_put s (buf + 3) 61;
           Done (s, buf + 4)
         else Done (s, buf));
    let '(s, buf) := r in
    s ← buf_put s buf 0;
    Done (Some s, a).

Section decode.
(** [b64_decode(input, size, output)]: what it writes to the output; its return
    value is the number of bytes. *)
Variable b64_decode : list Z -> list Z.

Definition AnscBase64DecodeLine `{Platform} (pString : cstr) (pData : option (list Z)) (pulSize : option Z)
  : outcome (option (list Z * Z)) :=
  match pData, pulSize with
  | Some pData, Some size =>
      let out := b64_decode (take (Z.to_nat size) pString) in
      pData ← buf_copy pData 0 out;
      Done (Some (pData, ULONG (INT (Zlen out))))
  | _, _ => Done None
  end.

(** The buffer and the number of bytes in it. *)
Definition AnscBase64Decode `{Platform} (pEncode : cstr) (a : alloc_stream)
  : outcome (option (list Z * Z) * alloc_stream) :=
  let ulEncodedSize := strlen pEncode in
  let '(ok, a) := next_alloc a in
  let pDecode := if ok then Some (replicate (Z.to_nat ulEncodedSize) 0) else None in
  r ← AnscBase64DecodeLine pEncode pDecode (Some ulEncodedSize);
  Done (r, a).
End decode.

(** ** The reference: RFC 4648 *)

Definition b64_char (i : Z) : Z := default 0 (ANSC_BASE64_CODES !! Z.to_nat i).

Fixpoint b64 (d : list Z) : cstr :=
  match d with
  | a :: b :: c :: r =>
      b64_char (a / 4) :: b64_char (a mod 4 * 16 + b / 16) :: b64_char (b mod 16 * 4 + c / 64) :: b64_char (c mod 64) :: b64 r
  | [a; b] => [b64_char (a / 4); b64_char (a mod 4 * 16 + b / 16); b64_char (b mod 16 * 4); 61]
  | [a] => [b64_char (a / 4); b64_char (a mod 4 * 16); 61; 61]
  | [] => []
  end.

Definition b64_value (c : Z) : option Z :=
  (fun p => Z.of_nat p.1) <$> list_find (fun x => x = c) ANSC_BASE64_CODES.

(** Reading a text: only the last group is padded. *)
Fixpoint b64_read (s : cstr) : option (list Z) :=
  match s with
  | [] => Some []
  | c0 :: c1 :: c2 :: c3 :: r =>
      v0 ← b64_value c0; v1 ← b64_value c1;
      if decide (c3 = 61 /\ r = []) then
        if decide (c2 = 61) then Some [v0 * 4 + v1 / 16]
        else v2 ← b64_value c2; Some [v0 * 4 + v1 / 16; v1 mod 16 * 16 + v2 / 4]
      else
        v2 ← b64_value c2; v3 ← b64_value c3; d ← b64_read r;
        Some (v0 * 4 + v1 / 16 :: v1 mod 16 * 16 + v2 / 4 :: v2 mod 4 * 64 + v3 :: d)
  | _ => None
  end.

Example b64_Man : b64 (lit "Man") = lit "TWFu" /\ b64 (lit "Ma") = lit "TWE=" /\ b64 (lit "M") = lit "TQ==".
Proof. by vm_compute. Qed.
Example read_Man : b64_read (lit "TWFuTQ==") = Some (lit "ManM").
Proof. by vm_compute. Qed.
Example encode_Man : (fun r => match r with Done (Some s, _) => buf_cstr s | _ => None end)
  (AnscBase64Encode (lit "ManMa") 5 []) = Some (lit "TWFuTWE=").
Proof. by vm_compute. Qed.

(** ** Lemmas *)

(** Deciding a fact for every byte, or for every index. *)
Lemma check_below (f : Z -> bool) n :
  forallb (fun k => f (Z.of_nat k)) (seq 0 n) = true -> forall b, 0 <= b < Z.of_nat n -> f b = true.
Proof.
  intros Hf b Hb. rewrite forallb_forall in Hf. specialize (Hf (Z.to_nat b)). rewrite Z2Nat.id in Hf by lia.
  apply Hf, in_seq. lia.
Qed.

Lemma idx_spec p q r : is_byte p -> is_byte q -> is_byte r ->
  idx0 p = p / 4 /\ idx1 p q = p mod 4 * 16 + q / 16 /\ idx2 q r = q mod 16 * 4 + r / 64 /\ idx3 r = r mod 64 /\
  Z.land (Z.shiftl q 2) 60 = q mod 16 * 4 /\ Z.land (Z.shiftl p 4) 48 = p mod 4 * 16.
Proof.
  intros Hp Hq Hr. unfold idx0, idx1, idx2, idx3.
  assert (Hall : forall b, is_byte b ->
    (Z.land (Z.shiftr b 2) 63 =? b / 4) && (Z.land (Z.shiftl b 4) 48 =? b mod 4 * 16) &&
    (Z.land (Z.shiftr b 4) 15 =? b / 16) && (Z.land (Z.shiftl b 2) 60 =? b mod 16 * 4) &&
    (Z.land (Z.shiftr b 6) 3 =? b / 64) && (Z.land b 63 =? b mod 64) = true).
  { intros b Hb. apply (check_below (fun b => (Z.land (Z.shiftr b 2) 63 =? b / 4) && (Z.land (Z.shiftl b 4) 48 =? b mod 4 * 16) &&
    (Z.land (Z.shiftr b 4) 15 =? b / 16) && (Z.land (Z.shiftl b 2) 60 =? b mod 16 * 4) &&
    (Z.land (Z.shiftr b 6) 3 =? b / 64) && (Z.land b 63 =? b mod 64)) 256); [by vm_compute|exact Hb]. }
  pose proof (Hall p Hp) as Cp. pose proof (Hall q Hq) as Cq. pose proof (Hall r Hr) as Cr. clear Hall.
  zbool. split_and!; congruence.
Qed.

(** The indices are below 64. *)
Lemma idx_bounds p q : is_byte p -> is_byte q ->
  0 <= p / 4 < 64 /\ 0 <= p mod 4 * 16 < 64 /\ 0 <= p mod 4 * 16 + q / 16 < 64 /\ 0 <= p mod 16 * 4 < 64 /\
  0 <= p mod 16 * 4 + q / 64 < 64 /\ 0 <= p mod 64 < 64.
Proof.
  unfold is_byte. intros Hp Hq.
  pose proof (Z.mod_pos_bound p 4 ltac:(lia)). pose proof (Z.mod_pos_bound p 16 ltac:(lia)).
  pose proof (Z.mod_pos_bound p 64 ltac:(lia)).
  assert (0 <= q / 16 < 16) by (split; [apply Z.div_pos; lia|apply Z.div_lt_upper_bound; lia]).
  assert (0 <= q / 64 < 4) by (split; [apply Z.div_pos; lia|apply Z.div_lt_upper_bound; lia]).
  assert (0 <= p / 4 < 64) by (split; [apply Z.div_pos; lia|apply Z.div_lt_upper_bound; lia]).
  lia.
Qed.

(** The table and its inverse. *)
Definition code_ok (i : Z) : bool :=
  bool_decide (b64_value (b64_char i) = Some i) && negb (b64_char i =? 61) && (0 <? b64_char i) && (b64_char i <? 256).

Lemma b64_char_ok i : 0 <= i < 64 ->
  buf_get ANSC_BASE64_CODES i = Done (b64_char i) /\ b64_value (b64_char i) = Some i /\ b64_char i ≠ 61 /\
  0 < b64_char i < 256.
Proof.
  intros Hi. assert (Hc : code_ok i = true) by (apply (check_below code_ok 64); [by vm_compute|done]).
  unfold code_ok in Hc. zbool.
  split_and!; [|by eapply bool_decide_eq_true|by destruct (Z.eqb_spec (b64_char i) 61)|lia|lia].
  unfold b64_char. destruct (lookup_lt_is_Some_2 ANSC_BASE64_CODES (Z.to_nat i)) as [c Hl]; [cbn; lia|].
  rewrite Hl. by apply buf_get_Z; [lia|].
Qed.

(** Appending a character to what is written of a buffer. *)
Lemma put_snoc out o post v k : k = Zlen out -> buf_put (out ++ o :: post) k v = Done ((out ++ [v]) ++ post).
Proof. intros ->. rewrite <-app_assoc. by apply buf_put_at. Qed.

Lemma put_code_snoc out o post i k :
  0 <= i < 64 -> k = Zlen out -> put_code (out ++ o :: post) k i = Done ((out ++ [b64_char i]) ++ post).
Proof.
  intros Hi Hk. unfold put_code. rewrite (proj1 (b64_char_ok i Hi)). cbn [mbind outcome_bind]. by apply put_snoc.
Qed.

Lemma triples_ind (P : list Z -> Prop) :
  P [] -> (forall a, P [a]) -> (forall a b, P [a; b]) -> (forall a b c r, P r -> P (a :: b :: c :: r)) -> forall d, P d.
Proof.
  intros H0 H1 H2 H3 d. enough (P d /\ (forall a, P (a :: d)) /\ forall a b, P (a :: b :: d)) by tauto.
  induction d as [|x d (IH1 & IH2 & IH3)]; [done|]. split_and!; [apply IH2|intros; apply IH3|]. intros a b. by apply H3.
Qed.

(** Reading the byte at an offset behind a prefix. *)
Lemma get_at (pre l : list Z) j v k : l !! j = Some v -> k = Zlen pre + Z.of_nat j -> buf_get (pre ++ l) k = Done v.
Proof.
  intros Hl ->. rewrite <-Nat2Z.inj_add. apply buf_get_lookup. rewrite lookup_app_r by lia.
  by replace (length pre + j - length pre)%nat with j by lia.
Qed.

Ltac snoc_len := rewrite ?length_app; cbn [length]; lia.

(** The full groups of three bytes. *)
Lemma encode_groups_spec g : forall div pre t out rest,
  length g = (3 * div)%nat -> Forall is_byte g -> (4 * div <= length rest)%nat ->
  encode_groups div (pre ++ g ++ t) (Zlen pre) (out ++ rest) (Zlen out) =
    Done (Zlen (pre ++ g), (out ++ b64 g) ++ drop (4 * div) rest, Zlen (out ++ b64 g)).
Proof.
  induction g as [|a|a b|a b c r IH] using triples_ind; intros div pre t out rest Hg Hb Hr.
  - destruct div; [|cbn in Hg; lia]. cbn. by rewrite !app_nil_r, drop_0.
  - cbn in Hg; lia.
  - cbn in Hg; lia.
  - destruct div as [|div]; [cbn in Hg; lia|]. cbn [encode_groups].
    apply Forall_cons in Hb as [Ha [Hb [Hc Hr']%Forall_cons]%Forall_cons].
    destruct rest as [|o0 [|o1 [|o2 [|o3 rest]]]]; try (cbn in Hr; lia).
    rewrite (get_at pre _ 0 a (Zlen pre)), (get_at pre _ 1 b (Zlen pre + 1)), (get_at pre _ 2 c (Zlen pre + 2)) by (try done; lia).
    cbn [mbind outcome_bind].
    destruct (idx_spec a b c Ha Hb Hc) as (-> & -> & -> & -> & _).
    pose proof (idx_bounds a b Ha Hb). pose proof (idx_bounds b c Hb Hc). pose proof (idx_bounds c c Hc Hc).
    rewrite put_code_snoc by (try lia; snoc_len). cbn [mbind outcome_bind].
    rewrite put_code_snoc by (try lia; snoc_len). cbn [mbind outcome_bind].
    rewrite put_code_snoc by (try lia; snoc_len). cbn [mbind outcome_bind].
    rewrite put_code_snoc by (try lia; snoc_len). cbn [mbind outcome_bind].
    set (out' := (((out ++ _) ++ _) ++ _) ++ _).
    replace (Zlen pre + 3) with (Zlen (pre ++ [a; b; c])) by snoc_len.
    replace (Zlen out + 4) with (Zlen out') by (unfold out'; snoc_len).
    replace (pre ++ (a :: b :: c :: r) ++ t) with ((pre ++ [a; b; c]) ++ r ++ t) by by rewrite <-app_assoc.
    rewrite IH; [|cbn in Hg; lia|done|cbn in Hr; lia].
    assert (Ho : out' ++ b64 r = out ++ b64 (a :: b :: c :: r)) by (unfold out'; by rewrite <-!app_assoc).
    assert (Hp : (pre ++ [a; b; c]) ++ r = pre ++ a :: b :: c :: r) by by rewrite <-app_assoc.
    rewrite Ho, Hp. by replace (4 * S div)%nat with (4 + 4 * div)%nat by lia.
Qed.

Lemma b64_app g t k : length g = (3 * k)%nat -> b64 (g ++ t) = b64 g ++ b64 t.
Proof.
  revert k. induction g as [|a|a b|a b c r IH] using triples_ind; intros k Hg; [done|cbn in Hg; lia|cbn in Hg; lia|].
  destruct k as [|k]; [cbn in Hg; lia|]. cbn [app b64]. rewrite (IH k); [done|cbn in Hg; lia].
Qed.

Lemma b64_length d : strlen (b64 d) = 4 * ((Zlen d + 2) / 3).
Proof.
  unfold strlen. induction d as [|a|a b|a b c r IH] using triples_ind; [done|done|done|].
  cbn [b64 length]. rewrite !Nat2Z.inj_succ, IH.
  replace (Z.succ (Z.succ (Z.succ (Zlen r))) + 2) with (Zlen r + 2 + 1 * 3) by lia. rewrite Z_div_plus_full by lia. lia.
Qed.

Lemma b64_wf d : Forall is_byte d -> wf_cstr (b64 d).
Proof.
  assert (Hc : forall i, 0 <= i < 64 -> 0 < b64_char i < 256) by (intros i Hi; by apply b64_char_ok).
  induction d as [|a|a b|a b c r IH] using triples_ind; intros Hd; [constructor| | |].
  - rewrite Forall_singleton in Hd. pose proof (idx_bounds a a Hd Hd).
    repeat (constructor; [first [apply Hc; lia|lia]|]). constructor.
  - apply Forall_cons in Hd as [Ha [Hb _]%Forall_cons]. pose proof (idx_bounds a b Ha Hb). pose proof (idx_bounds b b Hb Hb).
    repeat (constructor; [first [apply Hc; lia|lia]|]). constructor.
  - apply Forall_cons in Hd as [Ha [Hb [Hc' Hr]%Forall_cons]%Forall_cons].
    pose proof (idx_bounds a b Ha Hb). pose proof (idx_bounds b c Hb Hc'). pose proof (idx_bounds c c Hc' Hc').
    do 4 (constructor; [apply Hc; lia|]). by apply IH.
Qed.

(** The bits of a group fall into place. *)
Lemma regroup x y k : 0 < k -> 0 <= y < k -> (x * k + y) / k = x /\ (x * k + y) mod k = y.
Proof.
  intros Hk Hy. rewrite Z.add_comm, Z_div_plus_full, Z_mod_plus_full, Z.div_small, Z.mod_small by lia. lia.
Qed.

Lemma b64_group_bytes a b c : is_byte a -> is_byte b -> is_byte c ->
  let v1 := a mod 4 * 16 + b / 16 in let v2 := b mod 16 * 4 + c / 64 in
  a / 4 * 4 + v1 / 16 = a /\ v1 mod 16 * 16 + v2 / 4 = b /\ v2 mod 4 * 64 + c mod 64 = c /\
  a / 4 * 4 + a mod 4 * 16 / 16 = a /\ v1 mod 16 * 16 + b mod 16 * 4 / 4 = b.
Proof.
  intros Ha Hb Hc. cbn zeta. unfold is_byte in *.
  assert (0 <= b / 16 < 16) by (split; [apply Z.div_pos; lia|apply Z.div_lt_upper_bound; lia]).
  assert (0 <= c / 64 < 4) by (split; [apply Z.div_pos; lia|apply Z.div_lt_upper_bound; lia]).
  destruct (regroup (a mod 4) (b / 16) 16) as [-> ->]; [lia|lia|].
  destruct (regroup (b mod 16) (c / 64) 4) as [-> ->]; [lia|lia|].
  rewrite !Z.div_mul by lia.
  pose proof (Z.div_mod a 4 ltac:(lia)). pose proof (Z.div_mod b 16 ltac:(lia)). pose proof (Z.div_mod c 64 ltac:(lia)).
  lia.
Qed.

Lemma b64_read_b64 d : Forall is_byte d -> b64_read (b64 d) = Some d.
Proof.
  induction d as [|a|a b|a b c r IH] using triples_ind; intros Hd; [done| | |].
  - rewrite Forall_singleton in Hd. pose proof (idx_bounds a a Hd Hd) as (B0 & B1 & _).
    cbn [b64 b64_read]. rewrite (proj1 (proj2 (b64_char_ok _ B0))), (proj1 (proj2 (b64_char_ok _ B1))). cbn [mbind option_bind].
    rewrite !decide_True by done. by destruct (b64_group_bytes a a a Hd Hd Hd) as (_ & _ & _ & -> & _).
  - apply Forall_cons in Hd as [Ha [Hb _]%Forall_cons]. pose proof (idx_bounds a b Ha Hb) as (B0 & _ & B1 & _).
    pose proof (idx_bounds b b Hb Hb) as (_ & _ & _ & B2 & _).
    cbn [b64 b64_read]. rewrite (proj1 (proj2 (b64_char_ok _ B0))), (proj1 (proj2 (b64_char_ok _ B1))). cbn [mbind option_bind].
    rewrite decide_True by done. rewrite decide_False by by apply b64_char_ok.
    rewrite (proj1 (proj2 (b64_char_ok _ B2))). cbn [mbind option_bind].
    by destruct (b64_group_bytes a b b Ha Hb Hb) as (-> & _ & _ & _ & ->).
  - apply Forall_cons in Hd as [Ha [Hb [Hc Hr]%Forall_cons]%Forall_cons].
    pose proof (idx_bounds a b Ha Hb) as (B0 & _ & B1 & _). pose proof (idx_bounds b c Hb Hc) as (_ & _ & _ & _ & B2 & _).
    pose proof (idx_bounds c c Hc Hc) as (_ & _ & _ & _ & _ & B3).
    cbn [b64 b64_read]. rewrite (proj1 (proj2 (b64_char_ok _ B0))), (proj1 (proj2 (b64_char_ok _ B1))). cbn [mbind option_bind].
    rewrite decide_False by (intros [E _]; by apply (b64_char_ok _ B3) in E).
    rewrite (proj1 (proj2 (b64_char_ok _ B2))), (proj1 (proj2 (b64_char_ok _ B3))), (IH Hr). cbn [mbind option_bind].
    by destruct (b64_group_bytes a b c Ha Hb Hc) as (-> & -> & -> & _).
Qed.

(** The encoder writes the text of RFC 4648 and a terminator into its buffer. *)
Lemma AnscBase64Encode_ok d : Forall is_byte d -> Zlen d < 1073741824 ->
  exists rest, AnscBase64Encode d (Zlen d) [] = Done (Some (b64 d ++ 0 :: rest), []).
Proof.
  intros Hd Hlen. unfold AnscBase64Encode. pose proof (Z.mod_pos_bound (Zlen d) 3 ltac:(lia)) as Hrem.
  pose proof (Z.div_mod (Zlen d) 3 ltac:(lia)) as Hdm. assert (Hdiv : 0 <= Zlen d / 3) by (apply Z.div_pos; lia).
  set (q := Zlen d / 3) in *. set (rem := Zlen d mod 3) in *.
  rewrite (INT_small q), (INT_small rem), (INT_small (q * 4)), (INT_small (q * 4 + rem)), (INT_small (q * 4 + rem + 1)) by lia.
  cbn [next_alloc negb]. unfold ANSC_BASE64_ENCODE_OVERRUN_SIZE.
  set (k := Z.to_nat q). set (N := Z.to_nat _). assert (HN : (N = 4 * k + Z.to_nat rem + 4)%nat) by lia.
  rewrite <-(take_drop (3 * k) d). set (g := take (3 * k) d). set (t := drop (3 * k) d).
  assert (Hg : length g = (3 * k)%nat) by (unfold g; rewrite length_take; lia).
  assert (Ht : length t = Z.to_nat rem) by (unfold t; rewrite length_drop; lia).
  assert (Hgb : Forall is_byte g) by by apply Forall_take. assert (Htb : Forall is_byte t) by by apply Forall_drop.
  pose proof (encode_groups_spec g k [] t [] (replicate N 0) Hg Hgb ltac:(rewrite length_replicate; lia)) as E.
  cbn [app length] in E. change (Z.of_nat 0) with 0 in E. rewrite E. clear E. cbn [mbind outcome_bind].
  rewrite (b64_app g t k Hg), drop_replicate. replace (N - 4 * k)%nat with (4 + Z.to_nat rem)%nat by lia.
  cbn [replicate Nat.add].
  assert (rem = 0 \/ rem = 1 \/ rem = 2) as [Er|[Er|Er]] by lia; rewrite Er in *; cbn [Z.eqb Pos.eqb].
  - destruct t; [|done]. cbn [mbind outcome_bind b64]. rewrite put_snoc by done. cbn [mbind outcome_bind].
    eexists. rewrite app_nil_r, <-app_assoc. done.
  - destruct t as [|a [|? ?]]; [done| |done]. rewrite Forall_singleton in Htb.
    pose proof (idx_bounds a a Htb Htb). destruct (idx_spec a a a Htb Htb Htb) as (E0 & _ & _ & _ & _ & E1).
    rewrite (get_at g _ 0 a) by (try done; lia). cbn [mbind outcome_bind]. rewrite E0, E1.
    do 2 (rewrite put_code_snoc by (try lia; snoc_len); cbn [mbind outcome_bind]).
    do 2 (rewrite put_snoc by (try lia; snoc_len); cbn [mbind outcome_bind]).
    change (replicate (Z.to_nat 1) 0) with [0]. rewrite put_snoc by (try lia; snoc_len). cbn [mbind outcome_bind b64].
    eexists. rewrite <-!app_assoc. done.
  - destruct t as [|a [|b [|? ?]]]; [done|done| |done]. apply Forall_cons in Htb as [Ha [Hb _]%Forall_cons].
    pose proof (idx_bounds a b Ha Hb). pose proof (idx_bounds b b Hb Hb).
    destruct (idx_spec a b b Ha Hb Hb) as (E0 & E1 & _ & _ & E2 & _).
    rewrite (get_at g _ 0 a (Zlen g)), (get_at g _ 1 b (Zlen g + 1)) by (try done; lia). cbn [mbind outcome_bind].
    rewrite E0, E1, E2.
    do 3 (rewrite put_code_snoc by (try lia; snoc_len); cbn [mbind outcome_bind]).
    rewrite put_snoc by (try lia; snoc_len). cbn [mbind outcome_bind].
    change (replicate (Z.to_nat 2) 0) with [0; 0]. rewrite put_snoc by (try lia; snoc_len). cbn [mbind outcome_bind b64].
    eexists. rewrite <-!app_assoc. done.
Qed.

(** ** Properties *)

(** C37. Base64: the encoder stays inside the buffer it allocates and writes, in
    four characters per three bytes, the RFC 4648 text of the data with a
    terminator; the text reads back to the data, and so [AnscBase64Decode] yields
    the data and its length for every [b64_decode] that reads RFC 4648 texts. *)
Theorem base64_round_trip `{Platform} (b64_decode : list Z -> list Z) d
  (Hdec : forall s e, b64_read s = Some e -> b64_decode s = e)
  (Hd : Forall is_byte d) (Hlen : Zlen d < 1073741824) :
  exists buf, AnscBase64Encode d (Zlen d) [] = Done (Some buf, []) /\
    buf_cstr buf = Some (b64 d) /\ strlen (b64 d) = 4 * ((Zlen d + 2) / 3) /\
    exists rest, AnscBase64Decode b64_decode (b64 d) [] = Done (Some (d ++ rest, Zlen d), []).
Proof.
  destruct (AnscBase64Encode_ok d Hd Hlen) as (rest & E). exists (b64 d ++ 0 :: rest).
  split_and!; [done|by apply buf_cstr_app, b64_wf|apply b64_length|].
  unfold AnscBase64Decode. cbn [next_alloc AnscBase64DecodeLine]. unfold strlen. rewrite Nat2Z.id, firstn_all.
  rewrite (Hdec _ d) by by apply b64_read_b64.
  assert (Hle : (length d <= length (b64 d))%nat).
  { pose proof (b64_length d) as Hl. unfold strlen in Hl.
    pose proof (Z.div_mod (Zlen d + 2) 3 ltac:(lia)). pose proof (Z.mod_pos_bound (Zlen d + 2) 3 ltac:(lia)). lia. }
  rewrite INT_small, ULONG_small32 by lia.
  replace (length (b64 d)) with (length d + (length (b64 d) - length d))%nat by lia. rewrite replicate_add.
  pose proof (buf_copy_at [] (replicate (length d) 0) (replicate (length (b64 d) - length d) 0) d 0 eq_refl
    (length_replicate _ _)) as Ec. cbn [app] in Ec. rewrite Ec. cbn. by eexists.
Qed.

Theorem base64_round_trip_witness :
  let dec := fun s => default [] (b64_read s) in let d := lit "Man in" in
  exists buf, AnscBase64Encode d (Zlen d) [] = Done (Some buf, []) /\
    buf_cstr buf = Some (b64 d) /\ strlen (b64 d) = 4 * ((Zlen d + 2) / 3) /\
    exists rest, @AnscBase64Decode dec lp64 (b64 d) [] = Done (Some (d ++ rest, Zlen d), []).
Proof.
  cbn zeta. apply (@base64_round_trip lp64); [by intros s e ->| |by vm_compute].
  repeat constructor; unfold is_byte; lia.
Defined.
