(* ===== verification/ObjArray.v ===== *)
(** * Growing arrays (cosa/utilities/AnscObjectArray)

    The arrays of numbers, pointers and bytes are three copies of one piece of
    code that differ in the type of an item and, for the bytes, in when the
    storage is enlarged; the code is modelled once, over a description of the
    item type.  A handle may be NULL; storage is the list of its items, all of
    them zero when it is allocated. *)

From S2P Require Import Prelude.
Open Scope Z_scope.

(** The differences between the copies. *)
Record item_type := ItemType {
  item_size : Z;           (* sizeof an item *)
  to_item : Z -> Z;        (* the conversion of the data to an item *)
  eager : bool             (* byte arrays: compare with >= and keep foreign buffers *)
}.
Definition uint_item : item_type := ItemType 4 (wrapU 32) false.
Definition byte_item : item_type := ItemType 1 UCHAR true.
Definition ptr_item `{Platform} : item_type := ItemType (ulong_bits / 8) (fun p => p) false.

Record ARRAY := Array {
  ulGrowth : Z;
  hStorage : option (list Z);
  ulMaxItemCount : Z;
  ulItemCount : Z;
  bForeignBuffer : bool
}.
Definition ANSC_OBJECT_ARRAY_DEFAULT_GROWTH : Z := 8.

Section arrays.
Context `{Platform} (K : item_type).
Implicit Types (h : option ARRAY) (o : ARRAY).

Definition set_items o st max n : ARRAY := Array (ulGrowth o) st max n (bForeignBuffer o).

(** An access to [pStorage[i]]. *)
Definition item_get o (i : Z) : outcome Z :=
  match hStorage o with None => Stuck NullDeref | Some st => buf_get st i end.
Definition item_put o (i v : Z) : outcome ARRAY :=
  match hStorage o with
  | None => Stuck NullDeref
  | Some st => st ← buf_put st i v; Done (set_items o (Some st) (ulMaxItemCount o) (ulItemCount o))
  end.

(** Storage of [n] items: the size in bytes wraps around. *)
Definition items_of_bytes (n : Z) : nat := Z.to_nat (ULONG (item_size K * n) / item_size K).

Definition AnscMemUtilRealloc (pMem : list Z) (ulSize ulNewSize : Z) (a : alloc_stream)
  : option (list Z) * alloc_stream :=
  if ULONG (item_size K * ulNewSize) =? 0 then (None, a)
  else
    let '(ok, a) := next_alloc a in
    let new := replicate (items_of_bytes ulNewSize) 0 in
    if negb ok then (None, a)
    else if ULONG (item_size K * ulSize) =? 0 then (Some new, a)
    else
      let n := Nat.min (items_of_bytes ulSize) (items_of_bytes ulNewSize) in
      (Some (take n pMem ++ drop n new), a).

(** New storage for [n] items. *)
Definition new_storage o (n : Z) (a : alloc_stream) : option (list Z) * alloc_stream :=
  match hStorage o with
  | None =>
      let '(ok, a) := next_alloc a in
      ((if ok then Some (replicate (items_of_bytes n) 0) else None), a)
  | Some st => AnscMemUtilRealloc st (ulMaxItemCount o) n a
  end.

Definition GetSize h : Z := match h with Some o => ulItemCount o | None => 0 end.

Definition SetGrowth h (ulGrowth : Z) : option ARRAY :=
  match h with
  | Some o => if ulGrowth =? ULONG (-1) then h
              else Some (Array ulGrowth (hStorage o) (ulMaxItemCount o) (ulItemCount o) (bForeignBuffer o))
  | None => None
  end.

Definition SetSize h (ulNewSize ulGrowBy : Z) (a : alloc_stream) : option ARRAY * alloc_stream :=
  match (if ulGrowBy =? ULONG (-1) then h else SetGrowth h ulGrowBy) with
  | None => (None, a)
  | Some o =>
      if ulMaxItemCount o =? ulNewSize then (Some o, a)
      else let '(pBuf, a) := new_storage o ulNewSize a in
           (Some (set_items o pBuf ulNewSize ulNewSize), a)
  end.

Definition RemoveAll h : option ARRAY :=
  match h with Some o => Some (set_items o (hStorage o) (ulMaxItemCount o) 0) | None => None end.

Definition GetAt h (ulIndex : Z) : outcome Z :=
  match h with
  | Some o => if (0 <? ulItemCount o) && (ulIndex <? ulItemCount o) then item_get o ulIndex else Done 0
  | None => Done 0
  end.

Definition SetAt h (ulIndex Data : Z) : outcome (option ARRAY) :=
  match h with
  | Some o =>
      if ulMaxItemCount o <=? ulIndex then Done h
      else o ← item_put o ulIndex (to_item K Data); Done (Some o)
  | None => Done None
  end.

Definition EnlargeStorage o (ulNewSize : Z) (a : alloc_stream) : outcome (ARRAY * alloc_stream) :=
  if eager K && bForeignBuffer o then Done (o, a)
  else if (if eager K then ulMaxItemCount o <=? ulNewSize else ulMaxItemCount o <? ulNewSize) then
    if ulGrowth o =? 0 then Stuck DivByZero
    else
      let ulNewMaxSize :=
        if negb (ulNewSize mod ulGrowth o =? 0) then ULONG (ULONG (ulNewSize / ulGrowth o + 1) * ulGrowth o)
        else ULONG (ulNewSize + ulGrowth o) in
      let '(pBuf, a) := new_storage o ulNewMaxSize a in
      match pBuf with
      | Some _ => Done (set_items o pBuf ulNewMaxSize (ulItemCount o), a)
      | None => Done (o, a)
      end
  else Done (o, a).

(** [for (i = ulItemCount - 1; i >= ulIndex; i --)], on an unsigned counter. *)
Fixpoint insert_shift (fuel : nat) o (i ulIndex ulCount : Z) : outcome ARRAY :=
  match fuel with
  | O => Stuck Diverge
  | S k =>
      if ulIndex <=? i then
        v ← item_get o i;
        o ← item_put o (ULONG (i + ulCount)) v;
        insert_shift k o (ULONG (i - 1)) ulIndex ulCount
      else Done o
  end.

(** Whether there is no room for [n] items. *)
Definition too_small o (n : Z) : bool :=
  if eager K then ulMaxItemCount o <=? n else ulMaxItemCount o <? n.

Definition InsertAt h (ulIndex Data ulCount : Z) (a : alloc_stream) : outcome (option ARRAY * alloc_stream) :=
  match h with
  | None => Done (h, a)
  | Some o =>
      if ulItemCount o <=? ulIndex then Done (h, a)
      else
        r ← (if too_small o (ULONG (ulCount + ulItemCount o))
             then EnlargeStorage o (ULONG (ulItemCount o + ulCount)) a else Done (o, a));
        let '(o, a) := r in
        if ulMaxItemCount o <? ULONG (ulCount + ulItemCount o) then Done (Some o, a)
        else
          let n := ulItemCount o in
          o ← insert_shift (S (S (Z.to_nat n))) o (ULONG (n - 1)) ulIndex ulCount;
          let o := set_items o (hStorage o) (ulMaxItemCount o) (ULONG (n + ulCount)) in
          o ← for_from 0 (Z.to_nat ulCount) (fun i o => item_put o (ULONG (i + ulIndex)) (to_item K Data)) o;
          Done (Some o, a)
  end.

(** One item is removed, whatever [ulCount] says. *)
Definition RemoveAt h (ulIndex ulCount : Z) : outcome (option ARRAY) :=
  match h with
  | None => Done h
  | Some o =>
      if ulItemCount o <=? ulIndex then Done h
      else
        o ← for_from ulIndex (Z.to_nat (ulItemCount o - ulIndex)) (fun i o =>
          v ← item_get o (ULONG (i + 1)); item_put o i v) o;
        Done (Some (set_items o (hStorage o) (ulMaxItemCount o) (ULONG (ulItemCount o - 1))))
  end.

(** The new item count, or 0xFFFFFFFF. *)
Definition Add h (Data : Z) (a : alloc_stream) : outcome (Z * option ARRAY * alloc_stream) :=
  match h with
  | None => Done (4294967295, None, a)
  | Some o =>
      r ← (if too_small o (ULONG (ulItemCount o + 1)) then EnlargeStorage o (ULONG (ulItemCount o + 1)) a else Done (o, a));
      let '(o, a) := r in
      if ULONG (ulItemCount o + 1) <=? ulMaxItemCount o then
        let n := ulItemCount o in
        o ← item_put o n (to_item K Data);
        Done (ULONG (n + 1), Some (set_items o (hStorage o) (ulMaxItemCount o) (ULONG (n + 1))), a)
      else Done (4294967295, Some o, a)
  end.

(** The first position of the sample among the next [n] items. *)
Fixpoint find_from o (n : nat) (i sample : Z) : outcome Z :=
  match n with
  | O => Done (-1)
  | S k => v ← item_get o i; if v =? sample then Done i else find_from o k (i + 1) sample
  end.
(** The handle is dereferenced before any test; [Count] is a LONG. *)
Definition Find h (Data : Z) : outcome Z :=
  match h with
  | None => Stuck NullDeref
  | Some o => find_from o (Z.to_nat (LONG (ulItemCount o))) 0 (to_item K Data)
  end.

Definition COCreate (a : alloc_stream) : option ARRAY * alloc_stream :=
  let '(ok, a) := next_alloc a in
  ((if ok then SetGrowth (Some (Array 0 None 0 0 false)) ANSC_OBJECT_ARRAY_DEFAULT_GROWTH else None), a).

End arrays.

(** ** The byte array: its buffer from outside *)

(** A foreign buffer is shared with the caller: the array then works on it. *)
Definition AnscByteArraySetBuffer `{Platform} (o : ARRAY) (pBuf : list Z) (ulSize : Z) (bForeign : bool) (a : alloc_stream)
  : outcome (bool * ARRAY * alloc_stream) :=
  if bForeign then
    Done (true, Array (ulGrowth o) (Some pBuf) ulSize ulSize true, a)
  else
    r ← (if ulMaxItemCount o <? ulSize then EnlargeStorage byte_item o ulSize a else Done (o, a));
    let '(o, a) := r in
    if ulMaxItemCount o <? ulSize then Done (false, o, a)
    else
      match hStorage o with
      | None => Stuck NullDeref
      | Some st =>
          st ← buf_copy st 0 (take (Z.to_nat ulSize) pBuf);
          Done (true, Array (ulGrowth o) (Some st) (ulMaxItemCount o) ulSize false, a)
      end.

(** The items from a position on, in place. *)
Definition AnscByteArrayGetBuffer (h : option ARRAY) (ulIndex : Z) : outcome (option (list Z)) :=
  match h with
  | Some o =>
      if (0 <? ulItemCount o) && (ulIndex <? ulItemCount o) then
        match hStorage o with None => Stuck NullDeref | Some st => Done (Some (drop (Z.to_nat ulIndex) st)) end
      else Done None
  | None => Done None
  end.

(** ** The three copies *)

Section copies.
Context `{Platform}.
Definition AnscUIntArrayCOCreate := COCreate.
Definition AnscUIntArrayGetSize := GetSize.
Definition AnscUIntArraySetSize := SetSize uint_item.
Definition AnscUIntArrayRemoveAll := RemoveAll.
Definition AnscUIntArrayGetAt := GetAt.
Definition AnscUIntArraySetAt := SetAt uint_item.
Definition AnscUIntArrayInsertAt := InsertAt uint_item.
Definition AnscUIntArrayRemoveAt := RemoveAt.
Definition AnscUIntArrayAdd := Add uint_item.
Definition AnscUIntArrayEnlargeStorage := EnlargeStorage uint_item.
Definition AnscUIntArrayFind := Find uint_item.

Definition AnscPtrArrayCOCreate := COCreate.
Definition AnscPtrArrayGetSize := GetSize.
Definition AnscPtrArraySetSize := SetSize ptr_item.
Definition AnscPtrArrayRemoveAll := RemoveAll.
Definition AnscPtrArrayGetAt := GetAt.
Definition AnscPtrArraySetAt := SetAt ptr_item.
Definition AnscPtrArrayInsertAt := InsertAt ptr_item.
Definition AnscPtrArrayRemoveAt := RemoveAt.
Definition AnscPtrArrayAdd := Add ptr_item.
Definition AnscPtrArrayEnlargeStorage := EnlargeStorage ptr_item.
Definition AnscPtrArrayFind := Find ptr_item.

Definition AnscByteArrayCOCreate := COCreate.
Definition AnscByteArrayGetSize := GetSize.
Definition AnscByteArraySetSize := SetSize byte_item.
Definition AnscByteArrayRemoveAll := RemoveAll.
Definition AnscByteArrayGetAt := GetAt.
Definition AnscByteArraySetAt := SetAt byte_item.
Definition AnscByteArrayInsertAt := InsertAt byte_item.
Definition AnscByteArrayRemoveAt := RemoveAt.
Definition AnscByteArrayAdd := Add byte_item.
Definition AnscByteArrayEnlargeStorage := EnlargeStorage byte_item.
Definition AnscByteArrayFind := Find byte_item.
End copies.

(** ** What an array holds *)

Section representation.
Context `{Platform} (K : item_type).
Implicit Types (o : ARRAY) (xs st : list Z).

Definition storage o : list Z := default [] (hStorage o).
Definition store o st : ARRAY := set_items o (Some st) (ulMaxItemCount o) (ulItemCount o).

Definition arr_rep o xs : Prop :=
  xs = take (length xs) (storage o) /\ ulItemCount o = Zlen xs /\ ulMaxItemCount o = Zlen (storage o) /\
  (length xs <= length (storage o))%nat /\ (hStorage o = None -> ulMaxItemCount o = 0) /\
  0 < ulGrowth o /\ bForeignBuffer o = false.


Lemma ULONG_neg1 : ULONG (0 - 1) = 2 ^ ulong_bits - 1.
Proof. unfold ULONG, wrapU. by destruct ulong_bits_ok as [-> | ->]. Qed.

Definition type_ok : Prop := 0 < item_size K <= 8.

(** There is room in 32 bits for [n] more items. *)
Definition size_ok o (n : Z) : Prop := 8 * (ulMaxItemCount o + ulItemCount o + n + ulGrowth o) < 4294967296.

Lemma items_of_bytes_small n :
  type_ok -> 0 <= n -> 8 * n < 4294967296 ->
  ULONG (item_size K * n) = item_size K * n /\ items_of_bytes K n = Z.to_nat n.
Proof.
  intros [Hp Hk] Hn Hb. assert (E : ULONG (item_size K * n) = item_size K * n) by (apply ULONG_small32; nia).
  split; [done|]. unfold items_of_bytes. rewrite E, Z.mul_comm, Z.div_mul by lia. done.
Qed.

Lemma new_storage_spec o xs n :
  type_ok -> arr_rep o xs -> 0 < n -> ulMaxItemCount o <= n -> 8 * n < 4294967296 ->
  new_storage K o n [] = (Some (storage o ++ replicate (Z.to_nat n - length (storage o)) 0), []).
Proof.
  intros HK (_ & _ & Hmax & _ & Hnull & _) Hn Hle Hb. unfold new_storage.
  destruct (items_of_bytes_small n HK ltac:(lia) Hb) as [E1 E2]. unfold storage in *.
  destruct (hStorage o) as [st|]; cbn [default] in *.
  2:{ cbn. rewrite E2. by rewrite Nat.sub_0_r. }
  unfold AnscMemUtilRealloc. cbn [next_alloc negb]. rewrite E1.
  destruct (Z.eqb_spec (item_size K * n) 0); [destruct HK; nia|]. change (default [] (Some st)) with st in *.
  destruct (items_of_bytes_small (ulMaxItemCount o) HK ltac:(lia) ltac:(lia)) as [E3 E4]. rewrite E2, E3, E4.
  destruct (Z.eqb_spec (item_size K * ulMaxItemCount o) 0) as [Ez|_].
  - assert (st = []) as -> by (destruct st; [done|]; rewrite Hmax in Ez; cbn in Ez; destruct HK; nia).
    by rewrite Nat.sub_0_r.
  - rewrite Hmax, Nat2Z.id, Nat.min_l by lia. by rewrite firstn_all, drop_replicate.
Qed.

(** Where the next multiple of the growth lies. *)
Lemma new_max_bound g n : 0 < g -> 0 <= n -> 8 * (n + g) < 4294967296 ->
  let m := if negb (n mod g =? 0) then ULONG (ULONG (n / g + 1) * g) else ULONG (n + g) in n < m <= n + g.
Proof.
  intros Hg Hn Hb. cbn zeta. pose proof (Z.div_mod n g ltac:(lia)). pose proof (Z.mod_pos_bound n g Hg).
  pose proof (Z.div_pos n g Hn Hg). destruct (Z.eqb_spec (n mod g) 0); cbn [negb].
  - rewrite ULONG_small32 by lia. lia.
  - rewrite ULONG_mul_l, ULONG_small32 by nia. nia.
Qed.

Lemma EnlargeStorage_spec o xs n :
  type_ok -> arr_rep o xs -> ulItemCount o <= n -> size_ok o (n - ulItemCount o) ->
  (if eager K then ulMaxItemCount o <=? n else ulMaxItemCount o <? n) = true ->
  exists o', EnlargeStorage K o n [] = Done (o', []) /\ arr_rep o' xs /\ n < ulMaxItemCount o' <= n + ulGrowth o /\ ulGrowth o' = ulGrowth o.
Proof.
  intros HK Hrep Hn Hsz Hlt. pose proof Hrep as (Hxs & Hcnt & Hmax & Hle & Hnull & Hg & Hf).
  unfold EnlargeStorage. rewrite Hf, andb_false_r, Hlt. destruct (Z.eqb_spec (ulGrowth o) 0); [lia|].
  assert (ulMaxItemCount o <= n) by (destruct (eager K); zbool; lia). unfold size_ok in Hsz.
  pose proof (new_max_bound (ulGrowth o) n Hg ltac:(lia) ltac:(lia)) as Hm. cbn zeta in Hm.
  set (m := if negb _ then _ else _) in *.
  rewrite (new_storage_spec o xs m) by (try done; lia). eexists. split; [done|].
  split; [|split; [cbn; lia|done]]. unfold arr_rep, storage in *. cbn [set_items hStorage ulItemCount ulMaxItemCount ulGrowth bForeignBuffer].
  change (default [] (Some ?s)) with s. set (st := default [] (hStorage o)) in *.
  rewrite length_app, length_replicate. split_and!; try done; try lia. rewrite take_app_le by lia. done.
Qed.

(** Room for one more item, or for several. *)
Lemma make_room o xs n :
  type_ok -> arr_rep o xs -> 0 <= n -> size_ok o n ->
  exists o', (if too_small K o (ulItemCount o + n) then EnlargeStorage K o (ulItemCount o + n) [] else Done (o, [])) = Done (o', []) /\
    arr_rep o' xs /\ ulItemCount o + n <= ulMaxItemCount o' <= Z.max (ulMaxItemCount o) (ulItemCount o + n + ulGrowth o) /\ ulGrowth o' = ulGrowth o.
Proof.
  intros HK Hrep Hn Hsz. unfold too_small. destruct (if eager K then _ else _) eqn:E.
  - destruct (EnlargeStorage_spec o xs (ulItemCount o + n) HK Hrep) as (o' & -> & Hrep' & Hm & Hg); [lia| |done|].
    + by replace (ulItemCount o + n - ulItemCount o) with n by lia.
    + exists o'. split_and!; [done|done|lia|lia|done].
  - exists o. assert (ulItemCount o + n <= ulMaxItemCount o) by (destruct (eager K); zbool; lia).
    split_and!; [done|done|lia|lia|done].
Qed.

(** Storage with a pointer, split at a position. *)
Lemma arr_rep_store o xs : arr_rep o xs -> xs ≠ [] \/ 0 < ulMaxItemCount o ->
  hStorage o = Some (storage o) /\ o = store o (storage o).
Proof.
  intros (Hxs & Hcnt & Hmax & Hle & Hnull & _) Hne. unfold store, set_items, storage in *.
  destruct o as [g hst mx n f]; cbn in *. destruct hst as [st|]; [done|]. exfalso.
  destruct Hne as [Hne|?]; [destruct xs; [done|cbn in *; lia]|]. specialize (Hnull eq_refl). lia.
Qed.

Lemma item_get_store o A v B i : i = Zlen A -> item_get (store o (A ++ v :: B)) i = Done v.
Proof. intros ->. cbn. apply buf_get_lookup. by rewrite lookup_app_r, Nat.sub_diag by lia. Qed.

Lemma item_get_past o st i : Zlen st <= i -> item_get (store o st) i = Stuck OutOfBounds.
Proof.
  intros Hi. cbn. unfold buf_get. destruct (Z.ltb_spec i 0); [done|]. by rewrite lookup_ge_None_2 by lia.
Qed.

Lemma item_put_store o A v w B i : i = Zlen A -> item_put (store o (A ++ v :: B)) i w = Done (store o (A ++ w :: B)).
Proof. intros Hi. unfold item_put. cbn. by rewrite buf_put_at. Qed.

(** *** The loops *)

(** Moving [B] up by the length of the gap behind it. *)
Lemma insert_shift_spec o n B : forall A G D fuel,
  (0 < length A)%nat -> length G = n -> (length B < fuel)%nat -> Zlen A + Zlen B + Z.of_nat n < 4294967296 ->
  exists G', length G' = n /\
    insert_shift fuel (store o (A ++ B ++ G ++ D)) (Zlen A + Zlen B - 1) (Zlen A) (Z.of_nat n) =
      Done (store o (A ++ G' ++ B ++ D)).
Proof.
  induction B as [|b B IH] using rev_ind; intros A G D fuel HA HG Hf Hb; (destruct fuel as [|k]; [cbn in Hf; lia|]); cbn [insert_shift].
  - exists G. split; [done|]. destruct (Z.leb_spec (Zlen A) (Zlen A + Zlen (@nil Z) - 1)); [cbn in *; lia|done].
  - rewrite length_app in *. cbn [length] in *.
    destruct (Z.leb_spec (Zlen A) (Zlen A + Z.of_nat (length B + 1) - 1)); [|lia].
    assert (Hsplit : exists G1 g, b :: G = G1 ++ [g] /\ length G1 = n).
    { destruct (exists_last (l := b :: G)) as (G1 & g & E); [done|]. exists G1, g. split; [done|].
      apply (f_equal (@length Z)) in E. rewrite length_app in E. cbn in E. lia. }
    destruct Hsplit as (G1 & g & Eg & HG1).
    assert (Est : A ++ (B ++ [b]) ++ G ++ D = (A ++ B) ++ b :: G ++ D) by by rewrite <-!app_assoc.
    rewrite Est, item_get_store by (rewrite length_app; lia). cbn [mbind outcome_bind].
    replace ((A ++ B) ++ b :: G ++ D) with ((A ++ B ++ G1) ++ g :: D).
    2:{ rewrite app_comm_cons, Eg, <-!app_assoc. done. }
    rewrite (ULONG_small32 (_ + Z.of_nat n)) by lia. rewrite item_put_store by (rewrite !length_app; lia). cbn [mbind outcome_bind].
    rewrite (ULONG_small32 (_ - 1)) by lia.
    replace (Zlen A + Z.of_nat (length B + 1) - 1 - 1) with (Zlen A + Zlen B - 1) by lia.
    replace ((A ++ B ++ G1) ++ b :: D) with (A ++ B ++ G1 ++ b :: D) by by rewrite <-!app_assoc.
    destruct (IH A G1 (b :: D) k HA HG1) as (G' & HG' & ->); [lia|lia|].
    exists G'. split; [done|]. by rewrite <-!app_assoc.
Qed.

Lemma fill_spec o v n : forall A G D,
  length G = n -> Zlen A + Z.of_nat n < 4294967296 ->
  for_from 0 n (fun i o => item_put o (ULONG (i + Zlen A)) v) (store o (A ++ G ++ D)) =
    Done (store o (A ++ replicate n v ++ D)).
Proof.
  intros A G D HG Hb.
  destruct (for_from_inv (fun i o' => o' = store o (A ++ replicate (Z.to_nat i) v ++ drop (Z.to_nat i) G ++ D))
    (fun i o => item_put o (ULONG (i + Zlen A)) v) 0 n (store o (A ++ G ++ D))) as (o' & -> & ->).
  - by rewrite drop_0.
  - intros j o' Hj ->. rewrite ULONG_small32 by lia.
    destruct (drop (Z.to_nat j) G) as [|g G'] eqn:Ed.
    { apply (f_equal (@length Z)) in Ed. rewrite length_drop in Ed. cbn in Ed. lia. }
    replace (A ++ replicate (Z.to_nat j) v ++ (g :: G') ++ D) with ((A ++ replicate (Z.to_nat j) v) ++ g :: G' ++ D)
      by by rewrite <-!app_assoc.
    rewrite item_put_store by (rewrite length_app, length_replicate; lia). eexists. split; [done|].
    replace (Z.to_nat (j + 1)) with (S (Z.to_nat j)) by lia.
    replace (drop (S (Z.to_nat j)) G) with G'.
    2:{ replace (S (Z.to_nat j)) with (Z.to_nat j + 1)%nat by lia. by rewrite <-drop_drop, Ed. }
    by rewrite replicate_S_end, <-!app_assoc.
  - by rewrite Z.add_0_l, Nat2Z.id, drop_ge by lia.
Qed.

Lemma remove_shift_spec o L : forall A x R,
  Zlen A + Zlen L + 1 < 4294967296 ->
  for_from (Zlen A) (length L) (fun i o => v ← item_get o (ULONG (i + 1)); item_put o i v) (store o (A ++ x :: L ++ R)) =
    Done (store o (A ++ L ++ default x (last L) :: R)).
Proof.
  induction L as [|l L IH]; intros A x R Hb; [done|]. cbn [for_from length app].
  cbn [length] in Hb. rewrite ULONG_small32 by lia.
  replace (A ++ x :: l :: L ++ R) with ((A ++ [x]) ++ l :: L ++ R) by by rewrite <-app_assoc.
  rewrite item_get_store by (rewrite length_app; cbn; lia). cbn [mbind outcome_bind].
  rewrite <-app_assoc. cbn [app]. rewrite item_put_store by done. cbn [mbind outcome_bind].
  replace (Zlen A + 1) with (Zlen (A ++ [l])) by (rewrite length_app; cbn; lia).
  replace (A ++ l :: l :: L ++ R) with ((A ++ [l]) ++ l :: L ++ R) by by rewrite <-app_assoc.
  rewrite IH by (rewrite length_app; cbn; lia). rewrite <-app_assoc, last_default_cons. done.
Qed.

(** An insertion at the front moves every item and goes on below position 0. *)
Lemma insert_shift_front o n B : forall G D fuel,
  length G = n -> (length B < fuel)%nat -> Zlen B + Z.of_nat n + Zlen D < 4294967295 ->
  insert_shift fuel (store o (B ++ G ++ D)) (ULONG (Zlen B - 1)) 0 (Z.of_nat n) = Stuck OutOfBounds.
Proof.
  induction B as [|b B IH] using rev_ind; intros G D fuel HG Hf Hb; (destruct fuel as [|k]; [cbn in Hf; lia|]); cbn [insert_shift].
  - cbn [length] in *. change (Z.of_nat 0) with 0 in *. pose proof (ULONG_bound (0 - 1)). destruct (Z.leb_spec 0 (ULONG (0 - 1))); [|lia].
    rewrite item_get_past; [done|]. cbn [app]. rewrite length_app, ULONG_neg1. pose proof ulong_modulus_ge. lia.
  - rewrite length_app in *. cbn [length] in *. rewrite (ULONG_small32 (Z.of_nat (length B + 1) - 1)) by lia.
    destruct (Z.leb_spec 0 (Z.of_nat (length B + 1) - 1)); [|lia].
    destruct (exists_last (l := b :: G)) as (G1 & g & Eg); [done|].
    assert (HG1 : length G1 = n) by (apply (f_equal (@length Z)) in Eg; rewrite length_app in Eg; cbn in Eg; lia).
    rewrite <-app_assoc. cbn [app]. rewrite item_get_store by lia. cbn [mbind outcome_bind].
    replace (B ++ b :: G ++ D) with ((B ++ G1) ++ g :: D) by (rewrite app_comm_cons, Eg, <-!app_assoc; done).
    rewrite (ULONG_small32 (_ + Z.of_nat n)) by lia. rewrite item_put_store by (rewrite length_app; lia). cbn [mbind outcome_bind].
    rewrite <-app_assoc. replace (Z.of_nat (length B + 1) - 1 - 1) with (Zlen B - 1) by lia. apply IH; cbn [length]; lia.
Qed.

(** A removal from full storage reads the item behind it. *)
Lemma remove_shift_full o L : forall A x,
  Zlen A + Zlen L + 1 < 4294967296 ->
  for_from (Zlen A) (S (length L)) (fun i o => v ← item_get o (ULONG (i + 1)); item_put o i v) (store o (A ++ x :: L)) =
    Stuck OutOfBounds.
Proof.
  induction L as [|l L IH]; intros A x Hb; cbn [length] in Hb.
  - cbn [for_from length]. rewrite ULONG_small32 by lia. rewrite item_get_past; [done|]. rewrite length_app. cbn [length]. lia.
  - pose proof (remove_shift_spec o [l] A x L) as E. cbn [length app] in E. change (default x (last [l])) with l in E. change (S (length (l :: L))) with (1 + S (length L))%nat.
    rewrite for_from_add, E by lia. cbn [mbind outcome_bind].
    replace (Zlen A + Z.of_nat 1) with (Zlen (A ++ [l])) by (rewrite length_app; cbn; lia).
    replace (A ++ l :: l :: L) with ((A ++ [l]) ++ l :: L) by by rewrite <-app_assoc.
    apply IH. rewrite length_app. cbn [length]. lia.
Qed.

(** *** The operations *)

Lemma arr_rep_split o xs : arr_rep o xs -> exists R, storage o = xs ++ R /\ ulMaxItemCount o = Zlen xs + Zlen R.
Proof.
  intros (Hxs & _ & Hmax & _). exists (drop (length xs) (storage o)). rewrite Hmax.
  split; [by rewrite Hxs at 1; rewrite take_drop|]. rewrite length_drop.
  pose proof (f_equal (@length Z) Hxs) as E. rewrite length_take in E. lia.
Qed.

(** The state after a change of the items inside the storage. *)
Lemma arr_rep_items o xs ys R :
  arr_rep o xs -> ulMaxItemCount o = Zlen ys + Zlen R ->
  arr_rep (set_items o (Some (ys ++ R)) (ulMaxItemCount o) (Zlen ys)) ys.
Proof.
  intros (_ & _ & _ & _ & _ & Hg & Hf) Hm. unfold arr_rep, storage. cbn. rewrite length_app.
  split_and!; try done; [by rewrite take_app_length|lia|lia].
Qed.

Lemma Add_spec o xs d :
  type_ok -> arr_rep o xs -> size_ok o 1 ->
  exists o', Add K (Some o) d [] = Done (Zlen xs + 1, Some o', []) /\ arr_rep o' (xs ++ [to_item K d]) /\ ulGrowth o' = ulGrowth o.
Proof.
  intros HK Hrep Hsz. unfold Add. pose proof Hrep as (_ & Hcnt & _ & _ & _ & Hg0 & _). unfold size_ok in Hsz.
  assert (Hm0 : 0 <= ulMaxItemCount o) by (destruct Hrep as (_ & _ & -> & _); lia).
  rewrite (ULONG_small32 (ulItemCount o + 1)) by lia.
  destruct (make_room o xs 1 HK Hrep ltac:(lia) Hsz) as (o' & -> & Hrep' & Hroom & Hg). cbn [mbind outcome_bind].
  pose proof Hrep' as (_ & Hcnt' & _). rewrite Hcnt', <-Hcnt, (ULONG_small32 (ulItemCount o + 1)) by lia.
  destruct (Z.leb_spec (ulItemCount o + 1) (ulMaxItemCount o')); [|lia].
  destruct (arr_rep_split o' xs Hrep') as (R & Est & Hm). destruct R as [|r R]; [cbn in Hm; lia|].
  destruct (arr_rep_store o' xs Hrep' ltac:(right; lia)) as [Eh Eo].
  rewrite Eo, Est, item_put_store by lia. cbn [mbind outcome_bind]. eexists. split; [by rewrite Hcnt|].
  split; [|done]. replace (xs ++ to_item K d :: R) with ((xs ++ [to_item K d]) ++ R) by by rewrite <-app_assoc.
  replace (Zlen xs + 1) with (Zlen (xs ++ [to_item K d])) by (rewrite length_app; cbn; lia).
  refine (arr_rep_items o' xs _ R Hrep' _). rewrite length_app. cbn [length] in *. lia.
Qed.

Lemma InsertAt_spec o xs i d n :
  type_ok -> arr_rep o xs -> (0 < i)%nat -> 0 <= n -> size_ok o n -> (i < length xs)%nat ->
  exists o', InsertAt K (Some o) (Z.of_nat i) d n [] = Done (Some o', []) /\
    arr_rep o' (take i xs ++ replicate (Z.to_nat n) (to_item K d) ++ drop i xs).
Proof.
  intros HK Hrep Hi Hn Hsz Hlt. unfold InsertAt. pose proof Hrep as (_ & Hcnt & _ & _ & _ & Hg0 & _).
  assert (Hm0 : 0 <= ulMaxItemCount o) by (destruct Hrep as (_ & _ & -> & _); lia).
  destruct (Z.leb_spec (ulItemCount o) (Z.of_nat i)); [lia|]. unfold size_ok in Hsz.
  rewrite (Z.add_comm n), (ULONG_small32 (ulItemCount o + n)) by lia.
  destruct (make_room o xs n HK Hrep Hn Hsz) as (o' & -> & Hrep' & Hroom & Hg). cbn [mbind outcome_bind].
  pose proof Hrep' as (_ & Hcnt' & _). rewrite Hcnt', <-Hcnt, (Z.add_comm n), (ULONG_small32 (ulItemCount o + n)) by lia.
  destruct (Z.ltb_spec (ulMaxItemCount o') (ulItemCount o + n)); [lia|].
  destruct (arr_rep_split o' xs Hrep') as (R & Est & Hm).
  destruct (arr_rep_store o' xs Hrep' ltac:(right; lia)) as [Eh Eo].
  rewrite (ULONG_small32 (ulItemCount o - 1)) by lia.
  rewrite Eo, Est. set (A := take i xs). set (B := drop i xs). set (G := take (Z.to_nat n) R). set (D := drop (Z.to_nat n) R).
  assert (HA : length A = i) by (unfold A; rewrite length_take; lia).
  assert (HB : length B = (length xs - i)%nat) by (unfold B; by rewrite length_drop).
  assert (HG : length G = Z.to_nat n) by (unfold G; rewrite length_take; lia).
  assert (HD : Zlen D = Zlen R - n) by (unfold D; rewrite length_drop; lia).
  replace (xs ++ R) with (A ++ B ++ G ++ D) by (unfold A, B, G, D; by rewrite take_drop, app_assoc, take_drop).
  destruct (insert_shift_spec o' (Z.to_nat n) B A G D (S (S (Z.to_nat (ulItemCount o))))) as (G' & HG' & E); [lia|lia|lia|lia|].
  rewrite Z2Nat.id in E by done. rewrite HA in E.
  replace (Z.of_nat i + Zlen B - 1) with (ulItemCount o - 1) in E by lia. rewrite E. cbn [mbind outcome_bind].
  change (set_items (store o' ?s) _ _ ?m) with (store (set_items o' (Some s) (ulMaxItemCount o') m) s).
  match goal with |- context [for_from 0 _ _ (store ?oo _)] =>
    pose proof (fill_spec oo (to_item K d) (Z.to_nat n) A G' (B ++ D) HG' ltac:(lia)) as F end.
  rewrite HA in F. rewrite F. clear F. cbn [mbind outcome_bind]. eexists. split; [done|].
  assert (Hlen : ulMaxItemCount o' = Zlen (A ++ replicate (Z.to_nat n) (to_item K d) ++ B) + Zlen D)
    by (rewrite !length_app, length_replicate; lia).
  pose proof (arr_rep_items o' xs _ D Hrep' Hlen) as Hfin. rewrite <-!app_assoc in Hfin.
  replace (Zlen (A ++ replicate (Z.to_nat n) (to_item K d) ++ B)) with (ulItemCount o + n) in Hfin
    by (rewrite !length_app, length_replicate; lia).
  exact Hfin.
Qed.

Lemma RemoveAt_spec o xs i n :
  arr_rep o xs -> size_ok o 0 -> (i < length xs)%nat -> Zlen xs < ulMaxItemCount o ->
  exists o', RemoveAt (Some o) (Z.of_nat i) n = Done (Some o') /\ arr_rep o' (delete i xs) /\
    ulMaxItemCount o' = ulMaxItemCount o /\ ulGrowth o' = ulGrowth o.
Proof.
  intros Hrep Hsz Hi Hroom. unfold RemoveAt, size_ok in *. pose proof Hrep as (_ & Hcnt & _ & _ & _ & Hg0 & _).
  destruct (Z.leb_spec (ulItemCount o) (Z.of_nat i)); [lia|].
  destruct (arr_rep_split o xs Hrep) as (R & Est & Hm). destruct R as [|y R]; [cbn in Hm; lia|].
  destruct (arr_rep_store o xs Hrep ltac:(right; lia)) as [Eh Eo].
  destruct (lookup_lt_is_Some_2 xs i Hi) as [x Hx]. apply list_elem_of_split_length in Hx as (A & B & Exs & HA).
  rewrite Exs in Est. rewrite <-app_assoc in Est. cbn [app] in Est.
  replace (B ++ y :: R) with ((B ++ [y]) ++ R) in Est by by rewrite <-app_assoc.
  pose proof (f_equal (@length Z) Exs) as Hlx. rewrite length_app in Hlx. cbn [length] in *.
  rewrite Eo, Est. cbn [ulItemCount store set_items].
  pose proof (remove_shift_spec o (B ++ [y]) A x R) as E. rewrite length_app in E. cbn [length] in E.
  replace (Z.to_nat (ulItemCount o - Z.of_nat i)) with (length B + 1)%nat by lia. rewrite HA.
  rewrite E by lia. cbn [mbind outcome_bind]. change (ulItemCount (store o ?s)) with (ulItemCount o).
  rewrite ULONG_small32 by lia. eexists. split; [done|].
  split; [|done]. assert (delete (length A) xs = A ++ B) as ->.
  { rewrite Exs. clear. induction A; [done|]. cbn. by f_equal. }
  assert (Hlen : ulMaxItemCount o = Zlen (A ++ B) + Zlen (y :: default x (last (B ++ [y])) :: R)) by (rewrite length_app; cbn [length]; lia).
  pose proof (arr_rep_items o xs _ _ Hrep Hlen) as Hfin.
  replace (Zlen (A ++ B)) with (ulItemCount o - 1) in Hfin by (rewrite length_app; lia).
  rewrite <-!app_assoc in *. exact Hfin.
Qed.

Lemma InsertAt_front_stuck o xs d n :
  type_ok -> arr_rep o xs -> 0 <= n -> size_ok o (n + 1) -> xs ≠ [] -> InsertAt K (Some o) 0 d n [] = Stuck OutOfBounds.
Proof.
  intros HK Hrep Hn Hsz Hne. unfold InsertAt. pose proof Hrep as (_ & Hcnt & Hmax & _ & _ & Hg0 & _).
  assert (0 < ulItemCount o) by (destruct xs; [done|cbn in *; lia]).
  destruct (Z.leb_spec (ulItemCount o) 0); [lia|]. unfold size_ok in Hsz.
  rewrite (Z.add_comm n), (ULONG_small32 (ulItemCount o + n)) by lia.
  destruct (make_room o xs n HK Hrep Hn) as (o' & -> & Hrep' & Hroom & Hg); [unfold size_ok; lia|]. cbn [mbind outcome_bind].
  pose proof Hrep' as (_ & Hcnt' & _). rewrite Hcnt', <-Hcnt, (Z.add_comm n), (ULONG_small32 (ulItemCount o + n)) by lia.
  destruct (Z.ltb_spec (ulMaxItemCount o') (ulItemCount o + n)); [lia|].
  destruct (arr_rep_split o' xs Hrep') as (R & Est & Hm). destruct (arr_rep_store o' xs Hrep' ltac:(by left)) as [_ ->].
  rewrite Est, <-(take_drop (Z.to_nat n) R).
  pose proof (insert_shift_front o' (Z.to_nat n) xs (take (Z.to_nat n) R) (drop (Z.to_nat n) R) (S (S (Z.to_nat (ulItemCount o))))) as E.
  rewrite Z2Nat.id, <-Hcnt in E by done. rewrite E; [done| |lia|]; rewrite ?length_take, ?length_drop; lia.
Qed.

Lemma RemoveAt_full_stuck o xs n m i :
  arr_rep o xs -> 0 <= n -> size_ok o m -> 0 <= m -> (i < length xs)%nat -> ulMaxItemCount o = Zlen xs ->
  RemoveAt (Some o) (Z.of_nat i) n = Stuck OutOfBounds.
Proof.
  intros Hrep Hn Hsz Hm0 Hi Hfull. unfold RemoveAt, size_ok in *. pose proof Hrep as (_ & Hcnt & _ & _ & _ & Hg & _).
  destruct (Z.leb_spec (ulItemCount o) (Z.of_nat i)); [lia|].
  destruct (arr_rep_split o xs Hrep) as (R & Est & Hm). assert (R = []) as -> by (destruct R; [done|cbn in *; lia]).
  rewrite app_nil_r in Est. destruct (lookup_lt_is_Some_2 xs i Hi) as [x Hx].
  apply list_elem_of_split_length in Hx as (A & B & Exs & HA).
  pose proof (f_equal (@length Z) Exs) as Hlx. rewrite length_app in Hlx. cbn [length] in Hlx.
  destruct (arr_rep_store o xs Hrep ltac:(right; lia)) as [_ Eo]. rewrite Eo, Est, Exs.
  change (ulItemCount (store o ?s)) with (ulItemCount o).
  replace (Z.to_nat (ulItemCount o - Z.of_nat i)) with (S (length B)) by lia. rewrite HA, remove_shift_full by lia. done.
Qed.

Lemma Add_growth0_stuck o xs d m :
  arr_rep o xs -> size_ok o m -> 0 <= m -> ulMaxItemCount o = Zlen xs -> Add K (SetGrowth (Some o) 0) d [] = Stuck DivByZero.
Proof.
  intros (_ & Hcnt & _ & _ & _ & Hg & Hf) Hsz Hm Hfull. unfold SetGrowth, size_ok in *.
  destruct (Z.eqb_spec 0 (ULONG (-1))) as [E|_].
  { change (-1) with (0 - 1) in E. rewrite ULONG_neg1 in E. pose proof ulong_modulus_ge. lia. }
  unfold Add, too_small, EnlargeStorage. cbn [ulItemCount ulMaxItemCount ulGrowth bForeignBuffer].
  rewrite ULONG_small32, Hf, andb_false_r by lia.
  assert ((if eager K then ulMaxItemCount o <=? ulItemCount o + 1 else ulMaxItemCount o <? ulItemCount o + 1) = true) as ->
    by (destruct (eager K); zbool; lia). done.
Qed.

Lemma GetAt_spec o xs i :
  arr_rep o xs -> 0 <= i -> GetAt (Some o) i = Done (default 0 (xs !! Z.to_nat i)).
Proof.
  intros Hrep Hi. unfold GetAt. pose proof Hrep as (_ & Hcnt & _). rewrite Hcnt.
  destruct (Z.ltb_spec 0 (Zlen xs)), (Z.ltb_spec i (Zlen xs)); cbn [andb];
    try (rewrite lookup_ge_None_2 by lia; done).
  destruct (lookup_lt_is_Some_2 xs (Z.to_nat i)) as [x Hx]; [lia|]. rewrite Hx.
  destruct (arr_rep_split o xs Hrep) as (R & Est & _).
  destruct (arr_rep_store o xs Hrep) as [Eh _]; [left; intros ->; cbn in *; lia|].
  unfold item_get. rewrite Eh, Est. apply buf_get_Z; [done|]. by apply lookup_app_l_Some.
Qed.

Lemma SetAt_spec o xs i d :
  arr_rep o xs -> 0 <= i ->
  exists o', SetAt K (Some o) i d = Done (Some o') /\ arr_rep o' (<[Z.to_nat i := to_item K d]> xs) /\
    ulMaxItemCount o' = ulMaxItemCount o /\ ulGrowth o' = ulGrowth o.
Proof.
  intros Hrep Hi. unfold SetAt. destruct (Z.leb_spec (ulMaxItemCount o) i) as [Hge|Hlt].
  - exists o. split; [done|]. split; [|done]. rewrite list_insert_ge; [done|].
    destruct (arr_rep_split o xs Hrep) as (R & _ & Hm). lia.
  - destruct (arr_rep_store o xs Hrep ltac:(right; lia)) as [Eh Eo].
    pose proof Hrep as (Hxs & Hcnt & Hmax & Hle & _ & Hg & Hf).
    destruct (lookup_lt_is_Some_2 (storage o) (Z.to_nat i)) as [x Hx]; [lia|].
    apply list_elem_of_split_length in Hx as (A & B & Est & HA).
    rewrite Eo, Est, item_put_store by lia. cbn [mbind outcome_bind]. eexists. split; [done|]. split; [|done].
    assert (Hins : A ++ to_item K d :: B = <[Z.to_nat i := to_item K d]> (storage o))
      by (rewrite Est, HA; by rewrite insert_app_r_alt, Nat.sub_diag by lia).
    unfold arr_rep. cbn [store set_items ulItemCount ulMaxItemCount ulGrowth bForeignBuffer].
    change (storage (store o ?s)) with s. rewrite Hins, !length_insert. split_and!; try done.
    rewrite take_insert, <-Hxs. case_decide; [done|]. by rewrite list_insert_ge by lia.
Qed.

(** The first position of an item. *)
Fixpoint index_of (v : Z) (i : Z) xs : Z :=
  match xs with [] => -1 | x :: r => if x =? v then i else index_of v (i + 1) r end.

Lemma find_from_spec o R v : forall xs A,
  find_from (store o (A ++ xs ++ R)) (length xs) (Zlen A) v = Done (index_of v (Zlen A) xs).
Proof.
  induction xs as [|x xs IH]; intros A; [done|]. cbn [find_from length app index_of].
  rewrite item_get_store by done. cbn [mbind outcome_bind]. destruct (x =? v); [done|].
  specialize (IH (A ++ [x])). rewrite <-!app_assoc in IH. cbn [app] in IH.
  by replace (Zlen (A ++ [x])) with (Zlen A + 1) in IH by (rewrite length_app; cbn; lia).
Qed.

Lemma Find_spec o xs d : arr_rep o xs -> size_ok o 0 -> Find K (Some o) d = Done (index_of (to_item K d) 0 xs).
Proof.
  intros Hrep Hsz. unfold Find, size_ok in *. pose proof Hrep as (_ & Hcnt & Hmax & _ & _ & Hg & _).
  rewrite LONG_small, Hcnt, Nat2Z.id by lia.
  destruct xs as [|x xs]; [done|]. destruct (arr_rep_split o _ Hrep) as (R & Est & _).
  destruct (arr_rep_store o _ Hrep) as [_ ->]; [by left|]. rewrite Est. apply (find_from_spec o R _ (x :: xs) []).
Qed.

Lemma RemoveAll_spec o xs : arr_rep o xs ->
  exists o', RemoveAll (Some o) = Some o' /\ arr_rep o' [] /\ ulMaxItemCount o' = ulMaxItemCount o /\ ulGrowth o' = ulGrowth o.
Proof.
  intros (_ & _ & Hmax & Hle & Hnull & Hg & Hf). eexists. split; [done|]. split; [|done].
  unfold arr_rep. cbn [set_items ulItemCount ulMaxItemCount ulGrowth bForeignBuffer hStorage].
  change (storage (set_items o (hStorage o) _ _)) with (storage o). split_and!; try done. cbn. lia.
Qed.

(** ** Sequences of operations *)

Inductive arr_op :=
  | AGetSize | AGetAt (i : Z) | ASetAt (i d : Z) | AAdd (d : Z) | AInsertAt (i d n : Z) | ARemoveAt (i : Z)
  | ARemoveAll | AFind (d : Z).

(** The answer (zero for an operation without one) and the array. *)
Definition arr_run (op : arr_op) o : outcome (Z * option ARRAY) :=
  match op with
  | AGetSize => Done (GetSize (Some o), Some o)
  | AGetAt i => v ← GetAt (Some o) i; Done (v, Some o)
  | ASetAt i d => o' ← SetAt K (Some o) i d; Done (0, o')
  | AAdd d => r ← Add K (Some o) d []; Done (r.1.1, r.1.2)
  | AInsertAt i d n => r ← InsertAt K (Some o) i d n []; Done (0, r.1)
  | ARemoveAt i => o' ← RemoveAt (Some o) i 1; Done (0, o')
  | ARemoveAll => Done (0, RemoveAll (Some o))
  | AFind d => v ← Find K (Some o) d; Done (v, Some o)
  end.

(** The same operations on a list. *)
Definition arr_spec (op : arr_op) xs : Z * list Z :=
  match op with
  | AGetSize => (Zlen xs, xs)
  | AGetAt i => (default 0 (xs !! Z.to_nat i), xs)
  | ASetAt i d => (0, <[Z.to_nat i := to_item K d]> xs)
  | AAdd d => (Zlen xs + 1, xs ++ [to_item K d])
  | AInsertAt i d n =>
      (0, if Zlen xs <=? i then xs
          else take (Z.to_nat i) xs ++ replicate (Z.to_nat n) (to_item K d) ++ drop (Z.to_nat i) xs)
  | ARemoveAt i => (0, delete (Z.to_nat i) xs)
  | ARemoveAll => (0, [])
  | AFind d => (index_of (to_item K d) 0 xs, xs)
  end.

(** When an operation is safe: no insertion at the front, no removal from an
    array whose storage is full, sizes of 32 bits. *)
Definition arr_safe (op : arr_op) o : Prop :=
  match op with
  | AGetAt i | ASetAt i _ => 0 <= i
  | AAdd _ => size_ok o 1
  | AFind _ => size_ok o 0
  | AInsertAt i _ n => 0 < i /\ 0 <= n /\ size_ok o n
  | ARemoveAt i => 0 <= i /\ size_ok o 0 /\ (i < ulItemCount o -> ulItemCount o < ulMaxItemCount o)
  | _ => True
  end.

Lemma arr_run_spec op o xs :
  type_ok -> arr_rep o xs -> arr_safe op o ->
  exists o', arr_run op o = Done ((arr_spec op xs).1, Some o') /\ arr_rep o' (arr_spec op xs).2.
Proof.
  intros HK Hrep Hsafe. pose proof Hrep as (_ & Hcnt & _). destruct op as [|i|i d|d|i d n|i| |d]; cbn [arr_run arr_spec arr_safe fst snd] in *.
  - exists o. by rewrite <-Hcnt.
  - rewrite (GetAt_spec o xs) by done. by exists o.
  - destruct (SetAt_spec o xs i d Hrep Hsafe) as (o' & -> & Hrep' & _). by exists o'.
  - destruct (Add_spec o xs d HK Hrep Hsafe) as (o' & -> & Hrep' & _). by exists o'.
  - destruct Hsafe as (Hi & Hn & Hsz). destruct (Z.leb_spec (Zlen xs) i).
    + exists o. unfold InsertAt. rewrite Hcnt. destruct (Z.leb_spec (Zlen xs) i); [done|lia].
    + destruct (InsertAt_spec o xs (Z.to_nat i) d n HK Hrep) as (o' & E & Hrep'); [lia|done|done|lia|].
      rewrite Z2Nat.id in E by lia. rewrite E. by exists o'.
  - destruct Hsafe as (Hi & Hsz & Hroom). destruct (Z.leb_spec (Zlen xs) i).
    + exists o. unfold RemoveAt. rewrite Hcnt. destruct (Z.leb_spec (Zlen xs) i); [|lia].
      split; [done|]. by rewrite delete_past by (apply lookup_ge_None; lia).
    + destruct (RemoveAt_spec o xs (Z.to_nat i) 1 Hrep Hsz) as (o' & E & Hrep' & _); [lia|lia|].
      rewrite Z2Nat.id in E by lia. rewrite E. by exists o'.
  - destruct (RemoveAll_spec o xs Hrep) as (o' & E & Hrep' & _). rewrite E. by exists o'.
  - rewrite (Find_spec o xs) by done. by exists o.
Qed.

Fixpoint arr_run_all (ops : list arr_op) o : outcome (list Z * ARRAY) :=
  match ops with
  | [] => Done ([], o)
  | op :: ops' =>
      r ← arr_run op o;
      match r with
      | (v, Some o) => s ← arr_run_all ops' o; Done (v :: s.1, s.2)
      | (_, None) => Stuck NullDeref
      end
  end.
Fixpoint arr_spec_all (ops : list arr_op) xs : list Z * list Z :=
  match ops with
  | [] => ([], xs)
  | op :: ops' => let '(v, xs) := arr_spec op xs in let '(vs, xs) := arr_spec_all ops' xs in (v :: vs, xs)
  end.
(** Every operation is safe in the state it meets. *)
Fixpoint arr_safe_all (ops : list arr_op) o : Prop :=
  match ops with
  | [] => True
  | op :: ops' => arr_safe op o /\ match arr_run op o with Done (_, Some o) => arr_safe_all ops' o | _ => True end
  end.

End representation.

Lemma type_ok_copies `{Platform} : type_ok uint_item /\ type_ok byte_item /\ type_ok ptr_item.
Proof. unfold type_ok. cbn. by destruct ulong_bits_ok as [-> | ->]. Qed.

Lemma created_rep `{Platform} : exists o, COCreate [] = (Some o, []) /\ arr_rep o [].
Proof.
  unfold COCreate, SetGrowth, ANSC_OBJECT_ARRAY_DEFAULT_GROWTH. cbn [next_alloc].
  destruct (Z.eqb_spec 8 (ULONG (-1))) as [E|_].
  - exfalso. unfold ULONG, wrapU in E. by destruct ulong_bits_ok as [Hb|Hb]; rewrite Hb in E.
  - eexists. split; [done|]. unfold arr_rep. cbn. split_and!; done || lia.
Qed.

(** ** Properties *)

(** C21. The arrays of numbers, pointers and bytes: from a new array, any sequence
    of operations that inserts only behind the first item, removes only while
    the storage has a spare item and stays within 32-bit sizes completes, and
    answers as the same operations on a list would; the array holds that list
    afterwards. *)
Theorem array_trace_refines `{Platform} (K : item_type) (ops : list arr_op) o
  (HK : K = uint_item \/ K = byte_item \/ K = ptr_item)
  (Hnew : COCreate [] = (Some o, [])) (Hsafe : arr_safe_all K ops o) :
  exists o', arr_run_all K ops o = Done ((arr_spec_all K ops []).1, o') /\ arr_rep o' (arr_spec_all K ops []).2.
Proof.
  assert (Hty : type_ok K) by (destruct type_ok_copies as (? & ? & ?); by destruct HK as [->|[->| ->]]).
  assert (Hrep : arr_rep o []) by (destruct created_rep as (o' & E & Hrep); congruence).
  clear Hnew. revert o Hsafe Hrep. generalize (@nil Z) as xs. induction ops as [|op ops IH]; intros xs o Hsafe Hrep.
  - by exists o.
  - cbn [arr_safe_all arr_run_all arr_spec_all] in *. destruct Hsafe as [Hop Hsafe].
    destruct (arr_run_spec K op o xs Hty Hrep Hop) as (o1 & E & Hrep1). rewrite E in *. cbn [mbind outcome_bind].
    destruct (arr_spec K op xs) as [v ys]. cbn [fst snd] in *.
    destruct (IH ys o1 Hsafe Hrep1) as (o' & -> & Hrep'). cbn [mbind outcome_bind].
    destruct (arr_spec_all K ops ys) as [vs zs]. by exists o'.
Qed.

(** Where the arrays fail.  Inserting at position 0 of an array with items
    never meets the end of its loop, whose counter is unsigned, and reads
    outside the storage; removing from an array whose storage is full reads the
    item behind it; after a growth of 0 the next enlargement divides by zero. *)
Theorem array_faults `{Platform} (K : item_type) o xs d n i
  (HK : type_ok K) (Hrep : arr_rep o xs) (Hn : 0 <= n) (Hsz : size_ok o (n + 1)) (Hne : xs ≠ []) :
  InsertAt K (Some o) 0 d n [] = Stuck OutOfBounds /\
  ((i < length xs)%nat -> ulMaxItemCount o = Zlen xs -> RemoveAt (Some o) (Z.of_nat i) n = Stuck OutOfBounds) /\
  (ulMaxItemCount o = Zlen xs -> Add K (SetGrowth (Some o) 0) d [] = Stuck DivByZero).
Proof.
  split_and!.
  - by apply (InsertAt_front_stuck K o xs).
  - intros. apply (RemoveAt_full_stuck o xs n (n + 1)); done || lia.
  - intros. apply (Add_growth0_stuck K o xs d (n + 1)); done || lia.
Qed.

(** ** Examples *)

(** A new array of numbers gets an item, a second one and one between them. *)
Definition sample_ops : list arr_op :=
  [AAdd 7; AAdd 4294967297; AInsertAt 1 9 2; AGetAt 2; AFind 1; ARemoveAt 0; AGetSize; ASetAt 0 5; AGetAt 0; ARemoveAll; AGetSize].
Definition new_array : ARRAY := Array 8 None 0 0 false.
Definition two_items : ARRAY := Array 8 (Some [3; 4]) 2 2 false.

Lemma array_trace_refines_witness :
  exists o', arr_run_all (H := lp64) uint_item sample_ops new_array = Done ([1; 2; 0; 9; 3; 0; 3; 0; 5; 0; 0], o') /\ arr_rep o' [].
Proof.
  apply (array_trace_refines (H := lp64) uint_item sample_ops new_array); [by left|reflexivity|].
  vm_compute. repeat split; intros; discriminate || congruence.
Defined.

Lemma array_faults_witness :
  InsertAt (H := lp64) uint_item (Some two_items) 0 9 1 [] = Stuck OutOfBounds /\
  RemoveAt (H := lp64) (Some two_items) (Z.of_nat 1) 1 = Stuck OutOfBounds /\
  Add (H := lp64) uint_item (SetGrowth (H := lp64) (Some two_items) 0) 9 [] = Stuck DivByZero.
Proof.
  destruct (array_faults (H := lp64) uint_item two_items [3; 4] 9 1 1) as (? & E1 & E2).
  - vm_compute. split; congruence.
  - vm_compute. repeat split; congruence || lia.
  - lia.
  - vm_compute. congruence.
  - discriminate.
  - split; [done|]. split; [apply E1; cbn; lia || reflexivity|apply E2; reflexivity].
Defined.
