(* ===== verification/Timer.v ===== *)
(** * The timer scheduler (AnscTimerScheduler)

    A timer descriptor ([ANSC_TIMER_DESCRIPTOR_OBJECT]) is started and stopped
    by its owner; a timer scheduler ([ANSC_TIMER_SCHEDULER_OBJECT]) keeps the
    started ones in a queue, and its task wakes up, fires the timers that are
    due and sleeps again.  Times are tick counts in milliseconds that wrap
    around with the width of [ULONG].

    A critical section of the code (between taking and releasing the lock of
    the queue) is one step here; the steps of the tasks and of the owners of
    timers interleave freely.  The queue is the list it represents ([Queue]). *)

From S2P Require Import Prelude Links.
From Stdlib Require Import Sorted.
Open Scope Z_scope.

Definition ANSC_TSO_DEF_SCHEDULING_UNIT : Z := 100.
Definition ANSC_TSO_MIN_SCHEDULING_UNIT : Z := 10.
Definition ANSC_TIMER_TYPE_PERIODIC : Z := 1.
Definition ANSC_TIMER_TYPE_SPORADIC : Z := 2.

(** ** Data *)

(** A container forwards the requests of its timers: to its scheduler, or else
    to the container it lies in. *)
Inductive ANSC_OBJECT_CONTAINER_OBJECT :=
  | Container (hTimerScheduler : option loc) (hParent : option ANSC_OBJECT_CONTAINER_OBJECT).

Record ANSC_TIMER_DESCRIPTOR_OBJECT := Tdo {
  hContainerContext : option ANSC_OBJECT_CONTAINER_OBJECT;
  hScheduler : option loc;
  hClient : option loc;
  StartTime : Z;
  Timestamp : Z;
  TimerType : Z;
  TimerMode : Z;
  Interval : Z;
  TimeToFire : Z;
  CallCounter : Z;
  bScheduled : bool
}.

Record ANSC_TIMER_SCHEDULER_OBJECT := Tso {
  SchedulingUnit : Z;
  hCurInvokedTdo : option loc;
  bStarted : bool;
  TdoQueue : list loc
}.

Abbreviation tdo := ANSC_TIMER_DESCRIPTOR_OBJECT.
Abbreviation tso := ANSC_TIMER_SCHEDULER_OBJECT.
Implicit Types (d : tdo) (o : tso) (t u s : loc) (q : list loc).

(** *** The fields of a descriptor ([ansc_tdo_states.c]) *)

Definition AnscTdoGetScheduler d := hScheduler d.
Definition AnscTdoGetClient d := hClient d.
Definition AnscTdoGetStartTime d := StartTime d.
Definition AnscTdoGetTimestamp d := Timestamp d.
Definition AnscTdoGetTimerType d := TimerType d.
Definition AnscTdoGetTimerMode d := TimerMode d.
Definition AnscTdoGetInterval d := Interval d.
Definition AnscTdoGetTimeToFire d := TimeToFire d.
Definition AnscTdoGetCallCounter d := CallCounter d.
Definition AnscTdoGetState d := bScheduled d.

Definition AnscTdoSetScheduler d x : tdo :=
  Tdo (hContainerContext d) x (hClient d) (StartTime d) (Timestamp d) (TimerType d) (TimerMode d) (Interval d) (TimeToFire d) (CallCounter d) (bScheduled d).
Definition AnscTdoSetClient d x : tdo :=
  Tdo (hContainerContext d) (hScheduler d) x (StartTime d) (Timestamp d) (TimerType d) (TimerMode d) (Interval d) (TimeToFire d) (CallCounter d) (bScheduled d).
Definition AnscTdoSetStartTime d x : tdo :=
  Tdo (hContainerContext d) (hScheduler d) (hClient d) x (Timestamp d) (TimerType d) (TimerMode d) (Interval d) (TimeToFire d) (CallCounter d) (bScheduled d).
Definition AnscTdoSetTimestamp d x : tdo :=
  Tdo (hContainerContext d) (hScheduler d) (hClient d) (StartTime d) x (TimerType d) (TimerMode d) (Interval d) (TimeToFire d) (CallCounter d) (bScheduled d).
Definition AnscTdoSetTimerType d x : tdo :=
  Tdo (hContainerContext d) (hScheduler d) (hClient d) (StartTime d) (Timestamp d) x (TimerMode d) (Interval d) (TimeToFire d) (CallCounter d) (bScheduled d).
Definition AnscTdoSetTimerMode d x : tdo :=
  Tdo (hContainerContext d) (hScheduler d) (hClient d) (StartTime d) (Timestamp d) (TimerType d) x (Interval d) (TimeToFire d) (CallCounter d) (bScheduled d).
Definition AnscTdoSetInterval d x : tdo :=
  Tdo (hContainerContext d) (hScheduler d) (hClient d) (StartTime d) (Timestamp d) (TimerType d) (TimerMode d) x (TimeToFire d) (CallCounter d) (bScheduled d).
Definition AnscTdoSetTimeToFire d x : tdo :=
  Tdo (hContainerContext d) (hScheduler d) (hClient d) (StartTime d) (Timestamp d) (TimerType d) (TimerMode d) (Interval d) x (CallCounter d) (bScheduled d).
Definition AnscTdoSetCallCounter d x : tdo :=
  Tdo (hContainerContext d) (hScheduler d) (hClient d) (StartTime d) (Timestamp d) (TimerType d) (TimerMode d) (Interval d) (TimeToFire d) x (bScheduled d).
Definition AnscTdoSetState d x : tdo :=
  Tdo (hContainerContext d) (hScheduler d) (hClient d) (StartTime d) (Timestamp d) (TimerType d) (TimerMode d) (Interval d) (TimeToFire d) (CallCounter d) x.

Definition set_unit o x : tso := Tso x (hCurInvokedTdo o) (bStarted o) (TdoQueue o).
Definition set_cur o x : tso := Tso (SchedulingUnit o) x (bStarted o) (TdoQueue o).
Definition set_started o x : tso := Tso (SchedulingUnit o) (hCurInvokedTdo o) x (TdoQueue o).
Definition set_tdo_queue o x : tso := Tso (SchedulingUnit o) (hCurInvokedTdo o) (bStarted o) x.

(** *** Creation: [now] is the tick count, [sec] the seconds *)

Definition AnscTsoInitialize : tso := Tso ANSC_TSO_DEF_SCHEDULING_UNIT None false [].

(** A descriptor outside any container gets a scheduler of its own, [own]. *)
Definition AnscTdoInitialize (hContainer : option ANSC_OBJECT_CONTAINER_OBJECT) (own : option loc) (now sec : Z) : tdo :=
  Tdo hContainer (match hContainer with None => own | Some _ => None end) None sec now ANSC_TIMER_TYPE_PERIODIC 0 10 now 0 false.

(** ** The tests on tick counts *)

(** [AnscTsoScheduleTask]: whether a timer fires at the tick [cur]. *)
Definition bFireTimer (ts ttf cur : Z) : bool :=
  if ts <? ttf then
    if (cur <? ts) && (cur <? ttf) then true
    else if (ts <=? cur) && (ttf <=? cur) then true
    else false
  else if ts =? ttf then true
  else if (cur <? ts) && (ttf <=? cur) then true
  else false.

(** [AnscTsoScheduleTimer]: whether a timer that fires at [x] stays behind one
    with these times. *)
Definition stays_behind (ts ttf x : Z) : bool :=
  if ts <=? ttf then
    if (x <? ts) && (x <? ttf) then true
    else if (ts <=? x) && (ttf <=? x) then true
    else false
  else if (x <? ts) && (ttf <=? x) then true
  else false.

(** ** The world: schedulers and descriptors by their handles *)

Record world := World { tsos : gmap loc tso; tdos : gmap loc tdo }.
Definition get_tso (w : world) s : outcome tso := match tsos w !! s with Some o => Done o | None => Stuck BadAccess end.
Definition get_tdo (w : world) t : outcome tdo := match tdos w !! t with Some d => Done d | None => Stuck BadAccess end.
Definition put_tso (w : world) s o : world := World (<[s := o]> (tsos w)) (tdos w).
Definition put_tdo (w : world) t d : world := World (tsos w) (<[t := d]> (tdos w)).

Section scheduler.
Context `{Platform}.
Implicit Types (w : world).

(** The queue entry in front of which a timer that fires at [ttf] belongs. *)
Fixpoint schedule_before w (ttf : Z) q : outcome (option loc) :=
  match q with
  | [] => Done None
  | c :: q' =>
      d ← get_tdo w c;
      if stays_behind (Timestamp d) (TimeToFire d) ttf then schedule_before w ttf q' else Done (Some c)
  end.

Definition AnscTsoScheduleTimer w s t : outcome world :=
  o ← get_tso w s;
  d ← get_tdo w t;
  q ← (if 0 <? Interval d then
         c ← schedule_before w (TimeToFire d) (TdoQueue o);
         Done (match c with
               | Some c => linsert_before c t (TdoQueue o)     (* AnscQueuePushEntryBefore *)
               | None => TdoQueue o ++ [t]                     (* AnscQueuePushEntry *)
               end)
       else Done (t :: TdoQueue o));                           (* AnscQueuePushEntryAtFront *)
  let ulTimeSlice := Interval d / 5 in
  let o := set_tdo_queue o q in
  let o := if ulTimeSlice <? SchedulingUnit o
           then set_unit o (if ulTimeSlice <? ANSC_TSO_MIN_SCHEDULING_UNIT then ANSC_TSO_MIN_SCHEDULING_UNIT else ulTimeSlice)
           else o in
  Done (put_tso w s o).

(** *** The tasks of a scheduler

    Where a task is in [AnscTsoScheduleTask]: before the test of [bStarted];
    in [AnscSleep] until some time; with a timer taken out of the queue and
    the lock released; in the callback of that timer; returned. *)
Inductive task_state := Top | Asleep (wake : Z) | Fired t | Calling t | Ended.

(** [AnscTsoStart]: the second result says whether a task is spawned. *)
Definition AnscTsoStart w s (spawned : bool) : outcome (ANSC_STATUS * bool * world) :=
  o ← get_tso w s;
  if bStarted o then Done (ANSC_STATUS_SUCCESS, false, w)
  else
    let w := put_tso w s (set_started o true) in
    Done (if spawned then ANSC_STATUS_SUCCESS else ANSC_STATUS_FAILURE, spawned, w).

Definition AnscTsoStop w s : outcome (ANSC_STATUS * world) :=
  o ← get_tso w s;
  if negb (bStarted o) then Done (ANSC_STATUS_SUCCESS, w)
  else Done (ANSC_STATUS_SUCCESS, put_tso w s (set_started o false)).

Definition AnscTsoReset w s : outcome (ANSC_STATUS * world) :=
  o ← get_tso w s;
  Done (ANSC_STATUS_SUCCESS, put_tso w s (set_cur (set_tdo_queue o []) None)).

(** The clock is read before the lock is taken: [tick] may be an earlier time. *)
Definition AnscTsoRegisterTimer w s t (tick sec : Z) (spawned : bool) : outcome (ANSC_STATUS * bool * world) :=
  r ← AnscTsoStart w s spawned;
  let '(_, task, w) := r in
  d ← get_tdo w t;
  if AnscTdoGetState d then Done (ANSC_STATUS_SUCCESS, task, w)
  else
    let d := AnscTdoSetStartTime d sec in
    let d := AnscTdoSetTimestamp d tick in
    let d := AnscTdoSetState d true in
    let d := AnscTdoSetScheduler d (Some s) in
    let d := AnscTdoSetTimeToFire d (ULONG (tick + Interval d)) in
    w ← AnscTsoScheduleTimer (put_tdo w t d) s t;
    Done (ANSC_STATUS_SUCCESS, task, w).

Definition AnscTsoCancelTimer w s t : outcome (ANSC_STATUS * world) :=
  o ← get_tso w s;
  d ← get_tdo w t;
  if negb (AnscTdoGetState d) then Done (ANSC_STATUS_SUCCESS, w)
  else if bool_decide (AnscTdoGetScheduler d ≠ Some s) then Done (ANSC_STATUS_SUCCESS, w)
  else
    let w := put_tso w s (set_tdo_queue o (lremove t (TdoQueue o))) in    (* AnscQueuePopEntryByLink *)
    Done (ANSC_STATUS_SUCCESS, put_tdo w t (AnscTdoSetState d false)).

(** *** Through the containers ([ansc_oco_timers.c]) *)

Fixpoint AnscOcoRegisterTimer (c : ANSC_OBJECT_CONTAINER_OBJECT) w t (tick sec : Z) (spawned : bool)
  : outcome (ANSC_STATUS * option (loc * bool) * world) :=
  match c with
  | Container (Some s) _ =>
      r ← AnscTsoRegisterTimer w s t tick sec spawned; let '(st, task, w) := r in Done (st, Some (s, task), w)
  | Container None (Some p) => AnscOcoRegisterTimer p w t tick sec spawned
  | Container None None => Done (ANSC_STATUS_UNAPPLICABLE, None, w)
  end.

Fixpoint AnscOcoCancelTimer (c : ANSC_OBJECT_CONTAINER_OBJECT) w t : outcome (ANSC_STATUS * world) :=
  match c with
  | Container (Some s) _ => AnscTsoCancelTimer w s t
  | Container None (Some p) => AnscOcoCancelTimer p w t
  | Container None None => Done (ANSC_STATUS_UNAPPLICABLE, w)
  end.

(** The second result is the scheduler that was asked, and whether it spawned a
    task. *)
Definition AnscTdoStart w t (tick sec : Z) (spawned : bool) : outcome (ANSC_STATUS * option (loc * bool) * world) :=
  d ← get_tdo w t;
  match hContainerContext d, hScheduler d with
  | Some c, _ => AnscOcoRegisterTimer c w t tick sec spawned
  | None, Some s =>
      r ← AnscTsoRegisterTimer w s t tick sec spawned; let '(st, task, w) := r in Done (st, Some (s, task), w)
  | None, None => Done (ANSC_STATUS_FAILURE, None, w)
  end.

Definition AnscTdoStop w t : outcome (ANSC_STATUS * world) :=
  d ← get_tdo w t;
  match hContainerContext d, hScheduler d with
  | Some c, _ => AnscOcoCancelTimer c w t
  | None, Some s => AnscTsoCancelTimer w s t
  | None, None => Done (ANSC_STATUS_FAILURE, w)
  end.

(** What [AnscTdoInvoke] does before it calls the client. *)
Definition AnscTdoInvoke w t : outcome world :=
  d ← get_tdo w t;
  Done (if 0 <? CallCounter d then put_tdo w t (AnscTdoSetCallCounter d (CallCounter d - 1)) else w).

(** One round of the inner loop of [AnscTsoScheduleTask], from taking the lock
    to releasing it: the timer taken out of the queue, or None when the loop
    is left. *)
Definition scan w s (pFreshTdo : option loc) (ulCurTickInMs : Z) : outcome (world * option loc) :=
  o ← get_tso w s;
  let o := set_cur o None in
  match head (TdoQueue o) with
  | None => Done (put_tso w s o, None)
  | Some t =>
      d ← get_tdo w t;
      if bool_decide (pFreshTdo = Some t) then Done (put_tso w s o, None)
      else if negb (bFireTimer (Timestamp d) (TimeToFire d) ulCurTickInMs) then
        Done (put_tso w s (set_unit o ANSC_TSO_DEF_SCHEDULING_UNIT), None)
      else
        let w := put_tso w s (set_tdo_queue o (lremove t (TdoQueue o))) in  (* AnscQueuePopEntryByLink *)
        w ← (if AnscTdoGetTimerType d =? ANSC_TIMER_TYPE_PERIODIC then
               let d := AnscTdoSetTimestamp d ulCurTickInMs in
               let d := AnscTdoSetState d true in
               let d := AnscTdoSetTimeToFire d (ULONG (ulCurTickInMs + Interval d)) in
               AnscTsoScheduleTimer (put_tdo w t d) s t
             else Done (put_tdo w t (AnscTdoSetState d false)));
        o ← get_tso w s;
        Done (put_tso w s (set_cur o (Some t)), Some t)
  end.

End scheduler.

(** ** The running system

    [now] is the time in milliseconds since some origin, of which a tick count
    is the low part; [tasks] are the tasks that were spawned, with their
    scheduler; [fired] records the timers that were taken out to be fired, the
    last one first. *)
Record sys := Sys { wd : world; now : Z; tasks : list (loc * task_state); fired : list loc }.

Inductive event :=
  | ETick (ms : Z)
  | ETask (i : nat)                            (* a step of the i-th task *)
  | EStart (t : loc) (read : Z) (spawned : bool)  (* AnscTdoStart; the clock was read at [read] *)
  | EStop (t : loc)                            (* AnscTdoStop *)
  | ESchedStart (s : loc) (spawned : bool)     (* AnscTsoStart *)
  | ESchedStop (s : loc)                       (* AnscTsoStop *)
  | ESetInterval (t : loc) (v : Z) | ESetTimerType (t : loc) (v : Z)
  | ESetTimerMode (t : loc) (v : Z) | ESetCallCounter (t : loc) (v : Z).

Section system.
Context `{Platform}.
Implicit Types (w : world) (x y : sys).

Definition tick x : Z := ULONG (now x).
Definition set_wd x w : sys := Sys w (now x) (tasks x) (fired x).
Definition set_task x (i : nat) (p : loc * task_state) : sys := Sys (wd x) (now x) (<[i := p]> (tasks x)) (fired x).
Definition spawn x (p : option (loc * bool)) : sys :=
  match p with
  | Some (s, true) => Sys (wd x) (now x) (tasks x ++ [(s, Top)]) (fired x)
  | _ => x
  end.

(** The outcome of a round of the inner loop for the task. *)
Definition after_scan x (i : nat) s (r : world * option loc) : sys :=
  match r with
  | (w, None) => set_task (set_wd x w) i (s, Top)
  | (w, Some t) => set_task (Sys w (now x) (tasks x) (t :: fired x)) i (s, Fired t)
  end.

(** [AnscTsoScheduleTask], cut into steps at the points where the lock is not
    held; a sleeping task waits at least the time it was given. *)
Definition AnscTsoScheduleTask x (i : nat) : outcome sys :=
  match tasks x !! i with
  | None | Some (_, Ended) => Done x
  | Some (s, Top) =>
      o ← get_tso (wd x) s;
      Done (set_task x i (s, if bStarted o then Asleep (now x + SchedulingUnit o) else Ended))
  | Some (s, Asleep wake) =>
      if wake <=? now x then r ← scan (wd x) s None (tick x); Done (after_scan x i s r) else Done x
  | Some (s, Fired t) => w ← AnscTdoInvoke (wd x) t; Done (set_task (set_wd x w) i (s, Calling t))
  | Some (s, Calling t) => r ← scan (wd x) s (Some t) (tick x); Done (after_scan x i s r)
  end.

(** A change of one field of a descriptor by its owner. *)
Definition set_field x t (f : tdo -> tdo) : outcome sys :=
  d ← get_tdo (wd x) t; Done (set_wd x (put_tdo (wd x) t (f d))).

Definition step x (e : event) : outcome sys :=
  match e with
  | ETick ms => Done (Sys (wd x) (now x + ms) (tasks x) (fired x))
  | ETask i => AnscTsoScheduleTask x i
  | EStart t read spawned =>
      r ← AnscTdoStart (wd x) t (ULONG read) (ULONG (now x / 1000)) spawned;
      let '(_, p, w) := r in Done (spawn (set_wd x w) p)
  | EStop t => r ← AnscTdoStop (wd x) t; Done (set_wd x r.2)
  | ESchedStart s spawned =>
      r ← AnscTsoStart (wd x) s spawned; let '(_, task, w) := r in Done (spawn (set_wd x w) (Some (s, task)))
  | ESchedStop s => r ← AnscTsoStop (wd x) s; Done (set_wd x r.2)
  | ESetInterval t v => set_field x t (fun d => AnscTdoSetInterval d v)
  | ESetTimerType t v => set_field x t (fun d => AnscTdoSetTimerType d v)
  | ESetTimerMode t v => set_field x t (fun d => AnscTdoSetTimerMode d v)
  | ESetCallCounter t v => set_field x t (fun d => AnscTdoSetCallCounter d v)
  end.

Fixpoint run (es : list event) x : outcome sys :=
  match es with [] => Done x | e :: es' => y ← step x e; run es' y end.

(** ** Times in a window

    A tick count stands for one time in the window of [2 ^ ulong_bits]
    milliseconds that starts at [base]; the wrap-around of the tick count may
    lie anywhere in it. *)
Section window.
Variable base : Z.

Definition real (v : Z) : Z := base + ULONG (v - base).
Definition deadline d : Z := real (TimeToFire d).

Lemma real_bound v : base <= real v < base + 2 ^ ulong_bits.
Proof. unfold real. pose proof (ULONG_bound (v - base)). lia. Qed.

Lemma real_ULONG v : base <= v < base + 2 ^ ulong_bits -> real (ULONG v) = v.
Proof. intros Hv. unfold real. rewrite ULONG_sub_l, ULONG_small by lia. lia. Qed.

(** The difference of two tick counts, from the difference in the window. *)
Lemma real_diff a b :
  0 <= a < 2 ^ ulong_bits -> 0 <= b < 2 ^ ulong_bits ->
  b = a + (real b - real a) \/ b = a + (real b - real a) + 2 ^ ulong_bits \/ b = a + (real b - real a) - 2 ^ ulong_bits.
Proof.
  intros Ha Hb. pose proof (real_bound a) as HA. pose proof (real_bound b) as HB.
  assert (Hc : (b - a) mod 2 ^ ulong_bits = (real b - real a) mod 2 ^ ulong_bits).
  { unfold real, ULONG, wrapU. rewrite Zminus_mod, (Zminus_mod (base + _)).
    rewrite !Zplus_mod_idemp_r, <-!Zminus_mod. f_equal. lia. }
  assert (HM : 0 < 2 ^ ulong_bits) by apply ulong_modulus_pos. set (M := 2 ^ ulong_bits) in *.
  pose proof (Z.div_mod (b - a) M ltac:(lia)) as D1. pose proof (Z.div_mod (real b - real a) M ltac:(lia)) as D2.
  rewrite Hc in D1. set (k1 := (b - a) / M) in *. set (k2 := (real b - real a) / M) in *.
  set (m := (real b - real a) mod M) in *.
  assert (Hk : -1 <= k1 - k2 <= 1) by nia.
  assert (k1 - k2 = 0 \/ k1 - k2 = 1 \/ k1 - k2 = -1) as [E|[E|E]] by lia; [left|right;left|right;right]; nia.
Qed.

(** Both tests compare times. *)
Lemma bFireTimer_real ts ttf cur :
  0 <= ts < 2 ^ ulong_bits -> 0 <= ttf < 2 ^ ulong_bits -> 0 <= cur < 2 ^ ulong_bits ->
  real ts <= real ttf -> real ts <= real cur -> bFireTimer ts ttf cur = (real ttf <=? real cur).
Proof.
  intros H1 H2 H3 Hle Hcur. pose proof (real_diff ts ttf H1 H2). pose proof (real_diff ts cur H1 H3).
  pose proof (real_bound ts). pose proof (real_bound ttf). pose proof (real_bound cur).
  unfold bFireTimer. destruct (Z.leb_spec (real ttf) (real cur));
    repeat (case_goal; zbool); try done; try lia;
    repeat match goal with H : (_ && _)%bool = false |- _ => apply andb_false_iff in H as [?|?]; zbool end; lia.
Qed.

Lemma stays_behind_real ts ttf v :
  0 <= ts < 2 ^ ulong_bits -> 0 <= ttf < 2 ^ ulong_bits -> 0 <= v < 2 ^ ulong_bits ->
  real ts <= real ttf -> ts = ttf \/ real ts <= real v -> stays_behind ts ttf v = (ts =? ttf) || (real ttf <=? real v).
Proof.
  intros H1 H2 H3 Hle Hx. pose proof (real_diff ts ttf H1 H2). pose proof (real_diff ts v H1 H3).
  pose proof (real_bound ts). pose proof (real_bound ttf). pose proof (real_bound v).
  unfold stays_behind. destruct (Z.eqb_spec ts ttf) as [->|Hne]; cbn [orb].
  - rewrite Z.leb_refl. destruct (Z.ltb_spec v ttf), (Z.leb_spec ttf v); cbn; done || lia.
  - destruct Hx as [?|Hx]; [lia|]. destruct (Z.leb_spec (real ttf) (real v));
    repeat (case_goal; zbool); try done; try lia;
    repeat match goal with H : (_ && _)%bool = false |- _ => apply andb_false_iff in H as [?|?]; zbool end; lia.
Qed.

(** ** The invariant *)

Implicit Types (ds : gmap loc tdo).

(** A timer with these times fires at once. *)
Definition zero d : Prop := Timestamp d = TimeToFire d.

(** [t] waits in the queue of [s]. *)
Definition armed ds s t : Prop := exists d, ds !! t = Some d /\ bScheduled d = true /\ hScheduler d = Some s.

Definition times ds t : option (Z * Z) := (fun d => (Timestamp d, TimeToFire d)) <$> ds !! t.
Definition fires_at ds t : Z := from_option (fun p => real p.2) 0 (times ds t).
Definition at_once ds t : Prop := from_option (fun p => p.1 = p.2) False (times ds t).

(** The timers that fire at once come first, the others in the order of their
    deadlines. *)
Definition queue_order ds q : Prop :=
  exists zs ss, q = zs ++ ss /\ Forall (at_once ds) zs /\ Forall (fun t => ~ at_once ds t) ss /\
    StronglySorted (fun t u => fires_at ds t <= fires_at ds u) ss.

Definition ulong (v : Z) : Prop := 0 <= v < 2 ^ ulong_bits.
Definition tdo_ok (n : Z) d : Prop :=
  ulong (Timestamp d) /\ ulong (TimeToFire d) /\ ulong (Interval d) /\
  (bScheduled d = true -> real (Timestamp d) <= n /\ real (Timestamp d) <= deadline d).
Definition unit_ok (v : Z) : Prop := ANSC_TSO_MIN_SCHEDULING_UNIT <= v <= ANSC_TSO_DEF_SCHEDULING_UNIT.
Definition tso_ok ds s o : Prop :=
  NoDup (TdoQueue o) /\ (forall t, t ∈ TdoQueue o <-> armed ds s t) /\ unit_ok (SchedulingUnit o) /\ queue_order ds (TdoQueue o).

Fixpoint container_ok w (c : ANSC_OBJECT_CONTAINER_OBJECT) : Prop :=
  match c with
  | Container (Some s) _ => is_Some (tsos w !! s)
  | Container None (Some p) => container_ok w p
  | Container None None => True
  end.

(** The handles a descriptor keeps lead to schedulers. *)
Definition refs_ok w d : Prop :=
  (forall s, hScheduler d = Some s -> is_Some (tsos w !! s)) /\ (forall c, hContainerContext d = Some c -> container_ok w c).

Record world_ok (n : Z) w : Prop := {
  ok_tdo : forall t d, tdos w !! t = Some d -> tdo_ok n d /\ refs_ok w d;
  ok_tso : forall s o, tsos w !! s = Some o -> tso_ok (tdos w) s o
}.

Definition task_ok w (p : loc * task_state) : Prop :=
  is_Some (tsos w !! p.1) /\ match p.2 with Fired t | Calling t => is_Some (tdos w !! t) | _ => True end.

Definition sys_ok x : Prop := base <= now x /\ world_ok (now x) (wd x) /\ Forall (task_ok (wd x)) (tasks x).

(** The time stays in the window, with the interval of every timer added. *)
Definition in_window x : Prop := forall t d, tdos (wd x) !! t = Some d -> now x + Interval d < base + 2 ^ ulong_bits.

(** What the events presuppose.  A start whose clock reading is older than a
    queued timer by more than its interval is left out: see [late_start_overtaken]. *)
Definition event_ok x (e : event) : Prop :=
  match e with
  | ETick ms => 0 <= ms
  | ETask _ => True
  | EStart t read _ =>
      exists d, tdos (wd x) !! t = Some d /\ base <= read <= now x /\
        forall u c, tdos (wd x) !! u = Some c -> bScheduled c = true -> real (Timestamp c) <= read + Interval d
  | EStop t | ESetTimerType t _ | ESetTimerMode t _ | ESetCallCounter t _ => is_Some (tdos (wd x) !! t)
  | ESchedStart s _ | ESchedStop s => is_Some (tsos (wd x) !! s)
  | ESetInterval t v => is_Some (tdos (wd x) !! t) /\ ulong v
  end.

(** *** Lemmas on the order of the queue *)

Lemma fires_at_Some ds t d : ds !! t = Some d -> fires_at ds t = deadline d.
Proof. intros E. unfold fires_at, times. by rewrite E. Qed.

Lemma at_once_Some ds t d : ds !! t = Some d -> at_once ds t <-> zero d.
Proof. intros E. unfold at_once, times. by rewrite E. Qed.

Lemma StronglySorted_ext {A} (P : A -> Prop) (R R' : A -> A -> Prop) (l : list A) :
  (forall a b, P a -> P b -> R a b -> R' a b) -> Forall P l -> StronglySorted R l -> StronglySorted R' l.
Proof.
  intros HR HP Hs. induction Hs as [|a l Hs IH Ha]; [constructor|]. apply Forall_cons in HP as [Pa Pl].
  constructor; [by apply IH|]. rewrite Forall_forall in *. intros b Hb. apply HR; auto.
Qed.

Lemma StronglySorted_app_iff {A} (R : A -> A -> Prop) (l k : list A) :
  StronglySorted R (l ++ k) <-> StronglySorted R l /\ StronglySorted R k /\ (forall a b, a ∈ l -> b ∈ k -> R a b).
Proof.
  induction l as [|c l IH]; cbn.
  - split; [intros; split_and!; [constructor|done|set_solver]|tauto].
  - split.
    + intros [Hs Hc]%StronglySorted_inv. apply IH in Hs as (Hl & Hk & Hlk). rewrite Forall_app in Hc. destruct Hc as [Hc1 Hc2].
      split_and!; [by constructor|done|]. intros a b [->|Ha]%elem_of_cons Hb; [|auto].
      rewrite Forall_forall in Hc2. auto.
    + intros (Hl & Hk & Hlk). apply StronglySorted_inv in Hl as [Hl Hc]. constructor.
      * apply IH. split_and!; [done|done|]. intros. apply Hlk; set_solver.
      * rewrite Forall_app. split; [done|]. rewrite Forall_forall. intros b Hb. apply Hlk; set_solver.
Qed.

Lemma queue_order_ext ds ds' q :
  (forall t, t ∈ q -> times ds' t = times ds t) -> queue_order ds q -> queue_order ds' q.
Proof.
  intros Ht (zs & ss & -> & Hz & Hn & Hs). exists zs, ss. split; [done|].
  assert (Hz' : Forall (fun t => times ds' t = times ds t) zs) by (apply Forall_forall; intros; apply Ht; set_solver).
  assert (Hs' : Forall (fun t => times ds' t = times ds t) ss) by (apply Forall_forall; intros; apply Ht; set_solver).
  split_and!.
  - rewrite Forall_forall in *. intros t Hin. unfold at_once. rewrite Hz' by done. by apply Hz.
  - rewrite Forall_forall in *. intros t Hin. unfold at_once. rewrite Hs' by done. by apply Hn.
  - eapply StronglySorted_ext; [|apply Hs'|exact Hs]. cbn. intros a b Ea Eb. unfold fires_at. by rewrite Ea, Eb.
Qed.

Lemma Forall_lremove (P : loc -> Prop) t q : Forall P q -> Forall P (lremove t q).
Proof. rewrite !Forall_forall. intros HP u [_ Hu]%elem_of_lremove. auto. Qed.

Lemma queue_order_remove ds q t : queue_order ds q -> queue_order ds (lremove t q).
Proof.
  intros (zs & ss & -> & Hz & Hn & Hs). exists (lremove t zs), (lremove t ss). unfold lremove. rewrite filter_app. split; [done|].
  split; [by apply Forall_lremove|]. split; [by apply Forall_lremove|]. clear Hn. induction Hs as [|a l Hs IH Ha]; [constructor|].
  rewrite filter_cons. case_decide; [|done]. constructor; [done|]. by apply Forall_lremove.
Qed.

(** In an ordered queue, what lies behind an entry that does not fire at once
    fires no earlier. *)
Lemma queue_order_behind ds a t b u :
  queue_order ds (a ++ t :: b) -> ~ at_once ds t -> u ∈ b -> fires_at ds t <= fires_at ds u.
Proof.
  intros (zs & ss & E & Hz & _ & Hs) Ht Hu. rewrite Forall_forall in Hz.
  apply app_eq_inv in E as [(k & -> & ->)|(k & -> & E)].
  - apply StronglySorted_app_iff in Hs as (_ & Hs & _). apply StronglySorted_inv in Hs as [_ Hs].
    rewrite Forall_forall in Hs. auto.
  - destruct k as [|c k]; cbn in E.
    + subst ss. apply StronglySorted_inv in Hs as [_ Hs]. rewrite Forall_forall in Hs. auto.
    + injection E as <- ->. destruct Ht. apply Hz. set_solver.
Qed.

Lemma queue_order_insert ds a b t :
  queue_order ds (a ++ b) -> ~ at_once ds t ->
  (forall c, c ∈ a -> at_once ds c \/ fires_at ds c <= fires_at ds t) ->
  (forall c, head b = Some c -> ~ at_once ds c /\ fires_at ds t < fires_at ds c) ->
  queue_order ds (a ++ t :: b).
Proof.
  intros (zs & ss & E & Hz & Hn & Hs) Ht Ha Hb.
  assert (exists k, a = zs ++ k /\ ss = k ++ b) as (k & -> & ->).
  { apply app_eq_inv in E as [(k & -> & ->)|(k & -> & ->)]; [by exists k|].
    destruct k as [|c k]; [exists []; by rewrite !app_nil_r|].
    destruct (Hb c eq_refl) as [Hc _]. rewrite Forall_app, Forall_cons in Hz. tauto. }
  exists zs, (k ++ t :: b). rewrite <-app_assoc. rewrite Forall_app in Hn. destruct Hn as [Hnk Hnb]. rewrite Forall_forall in Hnk.
  apply StronglySorted_app_iff in Hs as (Hk & Hb' & Hkb). split_and!; [done|done| |].
  { apply Forall_app. split; [by apply Forall_forall|]. by constructor. }
  apply StronglySorted_app_iff. split_and!; [done| |].
  - constructor; [done|]. apply Forall_forall. intros c Hc. destruct b as [|h b]; [set_solver|].
    destruct (Hb h eq_refl) as [_ Hh]. apply StronglySorted_inv in Hb' as [_ Hb']. rewrite Forall_forall in Hb'.
    apply elem_of_cons in Hc as [->|Hc]; [lia|]. specialize (Hb' c Hc). lia.
  - intros c u Hc [->|Hu]%elem_of_cons; [|by apply Hkb].
    destruct (Ha c) as [?|?]; [set_solver| |done]. by destruct (Hnk c Hc).
Qed.

(** The entries of a queue have sane times, and [v] is no earlier than the
    stamps of those that wait. *)
Definition entries_ok w v q : Prop :=
  forall c, c ∈ q -> exists d, tdos w !! c = Some d /\ ulong (Timestamp d) /\ ulong (TimeToFire d) /\
    real (Timestamp d) <= deadline d /\ (zero d \/ real (Timestamp d) <= real v).

Lemma schedule_before_spec w v q :
  ulong v -> entries_ok w v q ->
  exists a b, q = a ++ b /\ schedule_before w v q = Done (head b) /\
    (forall c, c ∈ a -> at_once (tdos w) c \/ fires_at (tdos w) c <= real v) /\
    (forall c, head b = Some c -> ~ at_once (tdos w) c /\ real v < fires_at (tdos w) c).
Proof.
  intros Hv. induction q as [|c q IH]; intros Hq.
  - exists [], []. split_and!; [done|done|set_solver|done].
  - destruct (Hq c ltac:(set_solver)) as (d & Ed & H1 & H2 & H3 & H4).
    pose proof (stays_behind_real (Timestamp d) (TimeToFire d) v H1 H2 Hv H3 H4) as Eb.
    cbn [schedule_before]. unfold get_tdo. rewrite Ed. cbn [mbind outcome_bind]. rewrite Eb.
    destruct ((Timestamp d =? TimeToFire d) || (real (TimeToFire d) <=? real v)) eqn:Ep.
    + destruct IH as (a & b & -> & E & Ha & Hb); [intros u Hu; apply Hq; set_solver|].
      exists (c :: a), b. split_and!; [done|done| |done]. intros u [->|Hu]%elem_of_cons; [|by apply Ha].
      rewrite (fires_at_Some _ _ _ Ed), (at_once_Some _ _ _ Ed). apply orb_true_iff in Ep as [Ep|Ep]; zbool; [by left|by right].
    + exists [], (c :: q). split_and!; [done|done|set_solver|]. intros u [= <-].
      rewrite (fires_at_Some _ _ _ Ed), (at_once_Some _ _ _ Ed). zbool. done.
Qed.

(** Where a new timer goes: in front when it fires at once, otherwise behind
    those that fire no later. *)
Lemma ScheduleTimer_spec w s t o d :
  tsos w !! s = Some o -> tdos w !! t = Some d -> NoDup (TdoQueue o) -> unit_ok (SchedulingUnit o) ->
  queue_order (tdos w) (TdoQueue o) -> ulong (TimeToFire d) -> 0 <= Interval d -> (Interval d = 0 <-> zero d) ->
  (0 < Interval d -> entries_ok w (TimeToFire d) (TdoQueue o)) ->
  exists a b v, TdoQueue o = a ++ b /\ unit_ok v /\ queue_order (tdos w) (a ++ t :: b) /\
    AnscTsoScheduleTimer w s t = Done (put_tso w s (set_tdo_queue (set_unit o v) (a ++ t :: b))) /\
    (~ zero d -> forall c, c ∈ TdoQueue o -> fires_at (tdos w) c <= deadline d -> c ∈ a) /\ (zero d -> a = []).
Proof.
  intros Eo Ed Hnd Hu Hord Httf HI Hz Hent. unfold AnscTsoScheduleTimer, get_tso, get_tdo. rewrite Eo, Ed. cbn [mbind outcome_bind].
  set (v := if Interval d / 5 <? SchedulingUnit o
            then if Interval d / 5 <? ANSC_TSO_MIN_SCHEDULING_UNIT then ANSC_TSO_MIN_SCHEDULING_UNIT else Interval d / 5
            else SchedulingUnit o).
  assert (Hv : unit_ok v).
  { subst v. unfold unit_ok, ANSC_TSO_MIN_SCHEDULING_UNIT, ANSC_TSO_DEF_SCHEDULING_UNIT in *. repeat case_goal; zbool; lia. }
  assert (Hend : forall qq, (let o' := set_tdo_queue o qq in if Interval d / 5 <? SchedulingUnit o'
      then set_unit o' (if Interval d / 5 <? ANSC_TSO_MIN_SCHEDULING_UNIT then ANSC_TSO_MIN_SCHEDULING_UNIT else Interval d / 5) else o')
      = set_tdo_queue (set_unit o v) qq).
  { intros qq. unfold v. cbn. destruct (Interval d / 5 <? SchedulingUnit o); [done|]. by destruct o. }
  destruct (Z.ltb_spec 0 (Interval d)) as [Hpos|Hneg].
  - destruct (schedule_before_spec w (TimeToFire d) (TdoQueue o) Httf (Hent Hpos)) as (a & b & Eq & -> & Ha & Hb).
    cbn [mbind outcome_bind]. exists a, b, v.
    assert (Hq : match head b with Some c => linsert_before c t (TdoQueue o) | None => TdoQueue o ++ [t] end = a ++ t :: b).
    { rewrite Eq. destruct b as [|c b]; cbn [head]; [by rewrite app_nil_r|]. apply linsert_before_split.
      rewrite Eq in Hnd. apply NoDup_app in Hnd as (_ & Hdis & _). intros Hin. apply (Hdis c Hin). set_solver. }
    assert (Hnz : ~ zero d) by (rewrite <-Hz; lia).
    split_and!; [done|done| | | |].
    + apply queue_order_insert; rewrite ?(at_once_Some _ _ _ Ed), ?(fires_at_Some _ _ _ Ed); [by rewrite <-Eq|done|done|done].
    + rewrite Hq. cbn zeta. by rewrite Hend.
    + intros _ c Hc Hle. rewrite Eq in Hc. apply elem_of_app in Hc as [?|Hc]; [done|exfalso].
      destruct b as [|h b]; [set_solver|]. destruct (Hb h eq_refl) as [Hh1 Hh2].
      apply elem_of_cons in Hc as [->|Hc]; [unfold deadline in Hle; lia|].
      rewrite Eq in Hord. pose proof (queue_order_behind _ a h b c Hord Hh1 Hc). unfold deadline in Hle. lia.
    + done.
  - assert (Hzd : zero d) by (apply Hz; lia). exists [], (TdoQueue o), v. cbn [mbind outcome_bind app].
    split_and!; [done|done| |cbn zeta; by rewrite Hend|done|done].
    destruct Hord as (zs & ss & -> & Hzs & Hn & Hs). exists (t :: zs), ss. split_and!; [done| |done|done].
    constructor; [|done]. by apply (at_once_Some _ _ _ Ed).
Qed.

(** *** Changes of a consistent world *)

Lemma refs_ok_mono w w' d :
  (forall s, is_Some (tsos w !! s) -> is_Some (tsos w' !! s)) -> refs_ok w d -> refs_ok w' d.
Proof.
  intros Hm [H1 H2]. split; [eauto|]. intros c Hc. specialize (H2 c Hc). clear H1 Hc.
  revert c H2. fix IH 1. intros [[s|] [p|]]; cbn; auto.
Qed.

Lemma put_tso_mono w s o s' : is_Some (tsos w !! s') -> is_Some (tsos (put_tso w s o) !! s').
Proof. cbn. destruct (decide (s = s')) as [->|]; [by rewrite lookup_insert_eq|by rewrite lookup_insert_ne]. Qed.

Lemma tso_ok_frame ds ds' s o :
  (forall u, u ∈ TdoQueue o -> times ds' u = times ds u) -> (forall u, armed ds' s u <-> armed ds s u) ->
  tso_ok ds s o -> tso_ok ds' s o.
Proof.
  intros Ht Ha (Hn & Hq & Hu & Ho). split_and!; [done| |done|by apply (queue_order_ext ds)].
  intros u. rewrite Ha. apply Hq.
Qed.

(** A change that leaves the queue alone. *)
Lemma world_ok_tso n w s o o' :
  world_ok n w -> tsos w !! s = Some o -> TdoQueue o' = TdoQueue o -> unit_ok (SchedulingUnit o') -> world_ok n (put_tso w s o').
Proof.
  intros [H1 H2] Eo Eq Hu. split.
  - intros t d E. destruct (H1 t d E) as [? Hr]. split; [done|]. eapply refs_ok_mono; [|exact Hr]. apply put_tso_mono.
  - cbn. intros s' o1. destruct (decide (s = s')) as [<-|Hne].
    + rewrite lookup_insert_eq. intros [= <-]. destruct (H2 s o Eo) as (? & ? & ? & ?). unfold tso_ok. by rewrite Eq.
    + rewrite lookup_insert_ne by done. apply H2.
Qed.

(** A change of a descriptor that leaves its place in a queue alone. *)
Lemma world_ok_field n w t d d' :
  world_ok n w -> tdos w !! t = Some d -> ulong (Interval d') ->
  Timestamp d' = Timestamp d -> TimeToFire d' = TimeToFire d -> bScheduled d' = bScheduled d ->
  hScheduler d' = hScheduler d -> hContainerContext d' = hContainerContext d ->
  world_ok n (put_tdo w t d').
Proof.
  intros [H1 H2] Ed Hi Ets Ettf Esch Eh Ec. split; cbn.
  - intros u c Eu. enough (tdo_ok n c /\ refs_ok w c) as [? Hr] by (split; [done|]; by apply (refs_ok_mono w)).
    destruct (decide (t = u)) as [<-|Hne]; [|rewrite lookup_insert_ne in Eu by done; by apply (H1 u)].
    rewrite lookup_insert_eq in Eu. injection Eu as <-. destruct (H1 t d Ed) as [(? & ? & ? & ?) Hr].
    unfold tdo_ok, deadline, refs_ok. rewrite Ets, Ettf, Esch, Eh, Ec. done.
  - intros s o Eo. eapply tso_ok_frame; [| |by apply H2].
    + intros u _. unfold times. destruct (decide (t = u)) as [<-|Hne].
      * rewrite lookup_insert_eq, Ed. cbn. by rewrite Ets, Ettf.
      * by rewrite lookup_insert_ne.
    + intros u. unfold armed. destruct (decide (t = u)) as [<-|Hne]; [|by rewrite lookup_insert_ne].
      rewrite lookup_insert_eq, Ed. split; intros (c & [= <-] & ? & ?); eexists; (split; [done|]); split; congruence.
Qed.

Lemma NoDup_lremove t q : NoDup q -> NoDup (lremove t q).
Proof. apply NoDup_filter. Qed.

Lemma disarm n w s t o d :
  world_ok n w -> tsos w !! s = Some o -> tdos w !! t = Some d -> bScheduled d = true -> hScheduler d = Some s ->
  world_ok n (put_tdo (put_tso w s (set_tdo_queue o (lremove t (TdoQueue o)))) t (AnscTdoSetState d false)).
Proof.
  intros [H1 H2] Eo Ed Hsch Hs. split; cbn.
  - intros u c E. assert (Hr : exists c', tdos w !! u = Some c' /\ hScheduler c = hScheduler c' /\ hContainerContext c = hContainerContext c' /\
      (tdo_ok n c' -> tdo_ok n c)).
    { destruct (decide (t = u)) as [<-|Hne]; [rewrite lookup_insert_eq in E|rewrite lookup_insert_ne in E by done; exists c; done].
      injection E as <-. exists d. unfold tdo_ok. cbn. split_and!; [done..|]. intros (? & ? & ? & ?). by split_and!. }
    destruct Hr as (c' & E' & Eh & Ec & Hok). destruct (H1 u c' E') as [Hc Hr]. split; [by apply Hok|].
    assert (Hr' : refs_ok (put_tso w s (set_tdo_queue o (lremove t (TdoQueue o)))) c') by (eapply refs_ok_mono; [|exact Hr]; apply put_tso_mono).
    apply (refs_ok_mono (put_tso w s (set_tdo_queue o (lremove t (TdoQueue o))))); [done|]. unfold refs_ok. by rewrite Eh, Ec.
  - intros s' o1 E. destruct (decide (s = s')) as [<-|Hne].
    + rewrite lookup_insert_eq in E. injection E as <-. destruct (H2 s o Eo) as (Hn & Hq & Hu & Ho). split_and!; cbn.
      * by apply NoDup_lremove.
      * intros u. rewrite elem_of_lremove, Hq. unfold armed. destruct (decide (t = u)) as [<-|Hne].
        -- rewrite lookup_insert_eq. split; [tauto|]. intros (c & [= <-] & ? & _). done.
        -- rewrite lookup_insert_ne by done. intuition congruence.
      * done.
      * apply (queue_order_ext (tdos w)); [|by apply queue_order_remove].
        intros u [Hu' _]%elem_of_lremove. unfold times. by rewrite lookup_insert_ne.
    + rewrite lookup_insert_ne in E by done. assert (Ht : t ∉ TdoQueue o1).
      { destruct (H2 s' o1 E) as (_ & Hq & _). rewrite Hq. intros (c & E' & _ & ?). congruence. }
      eapply tso_ok_frame; [| |by apply H2].
      * intros u Hu. unfold times. rewrite lookup_insert_ne; [done|]. by intros <-.
      * intros u. unfold armed. destruct (decide (t = u)) as [<-|?]; [|by rewrite lookup_insert_ne].
        rewrite lookup_insert_eq, Ed. split; intros (c & [= <-] & ? & ?); cbn in *; congruence.
Qed.

(** The times of a timer that is started at [r]. *)
Definition stamped r d : Prop := Timestamp d = ULONG r /\ TimeToFire d = ULONG (ULONG r + Interval d) /\ ulong (Interval d).

Lemma stamped_times n r d :
  stamped r d -> base <= r <= n -> r + Interval d < base + 2 ^ ulong_bits ->
  real (Timestamp d) = r /\ deadline d = r + Interval d /\ ulong (Timestamp d) /\ ulong (TimeToFire d) /\ (Interval d = 0 <-> zero d).
Proof.
  intros (E1 & E2 & HI) Hr Hw. unfold ulong, zero, deadline in *. rewrite E1, E2, ULONG_add_l.
  assert (Er : real (ULONG r) = r) by (apply real_ULONG; lia).
  assert (Ed : real (ULONG (r + Interval d)) = r + Interval d) by (apply real_ULONG; lia).
  split_and!; try done; try apply ULONG_bound.
  split; [intros ->; by rewrite Z.add_0_r|]. intros E. rewrite <-E in Ed. lia.
Qed.

Lemma arm n w s t o d d' r :
  world_ok n w -> tsos w !! s = Some o -> tdos w !! t = Some d -> bScheduled d = false ->
  stamped r d' -> base <= r <= n -> r + Interval d' < base + 2 ^ ulong_bits -> bScheduled d' = true -> hScheduler d' = Some s ->
  hContainerContext d' = hContainerContext d ->
  (forall u c, tdos w !! u = Some c -> bScheduled c = true -> real (Timestamp c) <= r + Interval d') ->
  exists a b v, TdoQueue o = a ++ b /\
    AnscTsoScheduleTimer (put_tdo w t d') s t = Done (put_tso (put_tdo w t d') s (set_tdo_queue (set_unit o v) (a ++ t :: b))) /\
    world_ok n (put_tso (put_tdo w t d') s (set_tdo_queue (set_unit o v) (a ++ t :: b))) /\
    (Interval d' ≠ 0 -> forall c, c ∈ TdoQueue o -> fires_at (tdos w) c <= r + Interval d' -> c ∈ a) /\ (Interval d' = 0 -> a = []).
Proof.
  intros [H1 H2] Eo Ed Hun Hst Hr Hwin Hsch Hs Hc Hstale.
  destruct (stamped_times n r d' Hst Hr Hwin) as (Ets & Edl & Hu1 & Hu2 & Hz). destruct Hst as (_ & _ & HI).
  destruct (H2 s o Eo) as (Hnd & Hq & Hu & Hord).
  assert (Ht : forall s' o', tsos w !! s' = Some o' -> t ∉ TdoQueue o').
  { intros s' o' E. destruct (H2 s' o' E) as (_ & Hq' & _). rewrite Hq'. intros (c & E' & ? & _). congruence. }
  assert (Htimes : forall u, u ≠ t -> times (<[t := d']> (tdos w)) u = times (tdos w) u) by (intros; unfold times; by rewrite lookup_insert_ne).
  assert (Hfires : forall u, u ≠ t -> fires_at (<[t := d']> (tdos w)) u = fires_at (tdos w) u) by (intros; unfold fires_at; by rewrite Htimes).
  assert (Hne : forall u, u ∈ TdoQueue o -> u ≠ t) by (intros u Hin ->; by apply (Ht s o Eo)).
  destruct (ScheduleTimer_spec (put_tdo w t d') s t o d') as (a & b & v & Eq & Hv & Hord' & E & Hpos & Hfront); try done.
  - cbn. by rewrite lookup_insert_eq.
  - cbn. apply (queue_order_ext (tdos w)); [auto|done].
  - destruct HI; lia.
  - intros _ c Hin. pose proof (proj1 (Hq c) Hin) as (cd & Ec & Hcs & _). exists cd. cbn. rewrite lookup_insert_ne by (symmetry; by apply Hne).
    destruct (H1 c cd Ec) as [(? & ? & ? & Hcd) _]. destruct (Hcd Hcs) as [_ ?]. split_and!; try done.
    right. change (real (TimeToFire d')) with (deadline d'). rewrite Edl. by apply (Hstale c).
  - exists a, b, v. split; [done|]. split; [done|]. split; [|split].
    + split; cbn.
      * intros u c Eu. assert (Hr' : tdo_ok n c /\ refs_ok w c).
        { destruct (decide (t = u)) as [<-|Hut]; [|rewrite lookup_insert_ne in Eu by done; by apply (H1 u)].
          rewrite lookup_insert_eq in Eu. injection Eu as <-. destruct (H1 t d Ed) as [_ [Hr1 Hr2]]. split.
          - split_and!; [done..|]. intros _. rewrite Ets, Edl. destruct HI. lia.
          - split; [|rewrite Hc; done]. rewrite Hs. intros s' [= <-]. by eexists. }
        destruct Hr' as [? Hrr]. split; [done|]. eapply refs_ok_mono; [|exact Hrr]. apply (put_tso_mono w).
      * intros s' o' E'. destruct (decide (s = s')) as [<-|Hss].
        -- rewrite lookup_insert_eq in E'. injection E' as <-. split_and!; cbn; [| |done|exact Hord'].
           ++ apply NoDup_middle. rewrite <-Eq. split; [by apply (Ht s o)|done].
           ++ intros u. unfold armed. destruct (decide (u = t)) as [->|Hut].
              ** rewrite lookup_insert_eq. split; [|set_solver]. intros _. by exists d'.
              ** rewrite lookup_insert_ne by done. rewrite elem_of_app, elem_of_cons. transitivity (u ∈ TdoQueue o); [|apply Hq].
                 rewrite Eq, elem_of_app. tauto.
        -- rewrite lookup_insert_ne in E' by done. eapply tso_ok_frame; [| |by apply H2].
           ++ intros u Hin. apply Htimes. intros ->. by apply (Ht s' o').
           ++ intros u. unfold armed. destruct (decide (u = t)) as [->|Hut]; [|by rewrite lookup_insert_ne].
              rewrite lookup_insert_eq, Ed. split; intros (c & [= <-] & ? & ?); congruence.
    + intros HI0 c Hin Hle. apply Hpos; [by rewrite <-Hz|done|]. cbn. rewrite Hfires by auto. by rewrite Edl.
    + intros HI0. apply Hfront. by apply Hz.
Qed.

(** *** What the operations do to the queues *)

Definition queue_of w s : option (list loc) := TdoQueue <$> tsos w !! s.

(** The handles stay valid. *)
Definition keeps w w' : Prop :=
  (forall s, is_Some (tsos w !! s) -> is_Some (tsos w' !! s)) /\ (forall t, is_Some (tdos w !! t) -> is_Some (tdos w' !! t)).

(** Nothing moves; [t] leaves the queue of [s]; [t] enters it, to fire at [v]. *)
Definition eff_same w w' : Prop :=
  keeps w w' /\ (forall s, queue_of w' s = queue_of w s) /\ (forall t, times (tdos w') t = times (tdos w) t).
Definition eff_leave s t w w' : Prop :=
  keeps w w' /\ (forall s', s' ≠ s -> queue_of w' s' = queue_of w s') /\ (forall u, times (tdos w') u = times (tdos w) u) /\
  exists q, queue_of w s = Some q /\ queue_of w' s = Some (lremove t q).
Definition eff_enter s t (v : Z) (late : bool) w w' : Prop :=
  keeps w w' /\ (forall s', s' ≠ s -> queue_of w' s' = queue_of w s') /\ (forall u, u ≠ t -> times (tdos w') u = times (tdos w) u) /\
  fires_at (tdos w') t = v /\
  exists a b, queue_of w s = Some (a ++ b) /\ queue_of w' s = Some (a ++ t :: b) /\
    if late then ~ at_once (tdos w') t /\ forall c, c ∈ a ++ b -> fires_at (tdos w) c <= v -> c ∈ a
    else at_once (tdos w') t /\ a = [].

Lemma keeps_put_tso w s o : keeps w (put_tso w s o).
Proof. split; [apply put_tso_mono|done]. Qed.

Lemma keeps_put_tdo w t d : keeps w (put_tdo w t d).
Proof.
  split; [done|]. cbn. intros u Hu. destruct (decide (t = u)) as [->|]; [by rewrite lookup_insert_eq|by rewrite lookup_insert_ne].
Qed.

Lemma keeps_trans w1 w2 w3 : keeps w1 w2 -> keeps w2 w3 -> keeps w1 w3.
Proof. intros [? ?] [? ?]. split; eauto. Qed.

Lemma keeps_task w w' p : keeps w w' -> task_ok w p -> task_ok w' p.
Proof. intros [H1 H2] [Ht Hp]. split; [auto|]. destruct p.2; auto. Qed.

Lemma queue_put_tso w s o s' : queue_of (put_tso w s o) s' = if decide (s' = s) then Some (TdoQueue o) else queue_of w s'.
Proof.
  unfold queue_of. cbn. case_decide as E; [subst; by rewrite lookup_insert_eq|by rewrite lookup_insert_ne by congruence].
Qed.

Lemma times_put_tdo w t d u : u ≠ t -> times (tdos (put_tdo w t d)) u = times (tdos w) u.
Proof. intros. unfold times. cbn. by rewrite lookup_insert_ne. Qed.

Lemma times_put_state w t d v u : tdos w !! t = Some d -> times (<[t := AnscTdoSetState d v]> (tdos w)) u = times (tdos w) u.
Proof.
  intros Ed. unfold times. destruct (decide (u = t)) as [->|]; [|by rewrite lookup_insert_ne]. by rewrite lookup_insert_eq, Ed.
Qed.

Lemma eff_same_tso w s o o' : tsos w !! s = Some o -> TdoQueue o' = TdoQueue o -> eff_same w (put_tso w s o').
Proof.
  intros Eo Eq. split; [apply keeps_put_tso|]. split; [|done]. intros s'. rewrite queue_put_tso. case_decide as E; [subst|done].
  unfold queue_of. rewrite Eo. cbn. by rewrite Eq.
Qed.

Lemma eff_same_tdo w t d d' :
  tdos w !! t = Some d -> Timestamp d' = Timestamp d -> TimeToFire d' = TimeToFire d -> eff_same w (put_tdo w t d').
Proof.
  intros Ed E1 E2. split; [apply keeps_put_tdo|]. split; [done|]. intros u. destruct (decide (u = t)) as [->|]; [|by apply times_put_tdo].
  unfold times. cbn. rewrite lookup_insert_eq, Ed. cbn. by rewrite E1, E2.
Qed.

Lemma eff_same_refl w : eff_same w w.
Proof. done. Qed.

Lemma Start_spec n w s sp :
  world_ok n w -> is_Some (tsos w !! s) ->
  exists st task w', AnscTsoStart w s sp = Done (st, task, w') /\ world_ok n w' /\ eff_same w w' /\ tdos w' = tdos w.
Proof.
  intros Hok [o Eo]. unfold AnscTsoStart, get_tso. rewrite Eo. cbn [mbind outcome_bind].
  destruct (bStarted o); [by eexists _, _, w|]. eexists _, _, _. split; [done|].
  split_and!; [|by eapply eff_same_tso|done]. eapply world_ok_tso; [done|done|done|]. by destruct (ok_tso _ _ Hok s o Eo) as (_ & _ & ? & _).
Qed.

Lemma Stop_spec n w s :
  world_ok n w -> is_Some (tsos w !! s) ->
  exists st w', AnscTsoStop w s = Done (st, w') /\ world_ok n w' /\ eff_same w w'.
Proof.
  intros Hok [o Eo]. unfold AnscTsoStop, get_tso. rewrite Eo. cbn [mbind outcome_bind].
  destruct (bStarted o); cbn [negb]; [|by eexists _, w]. eexists _, _. split; [done|].
  split; [|by eapply eff_same_tso]. eapply world_ok_tso; [done|done|done|]. by destruct (ok_tso _ _ Hok s o Eo) as (_ & _ & ? & _).
Qed.

(** [late]: the timer does not fire at once. *)
Lemma Register_spec n w s t d read sec sp :
  world_ok n w -> is_Some (tsos w !! s) -> tdos w !! t = Some d -> base <= read <= n -> read + Interval d < base + 2 ^ ulong_bits ->
  (forall u c, tdos w !! u = Some c -> bScheduled c = true -> real (Timestamp c) <= read + Interval d) ->
  exists st task w', AnscTsoRegisterTimer w s t (ULONG read) sec sp = Done (st, task, w') /\ world_ok n w' /\
    (eff_same w w' \/ bScheduled d = false /\ eff_enter s t (read + Interval d) (negb (Interval d =? 0)) w w').
Proof.
  intros Hok Hs Ed Hr Hwin Hstale. unfold AnscTsoRegisterTimer.
  destruct (Start_spec n w s sp Hok Hs) as (st & task & w1 & -> & Hok1 & (Hk & Hq & Ht) & Eds). cbn [mbind outcome_bind].
  unfold get_tdo at 1. rewrite Eds, Ed. cbn [mbind outcome_bind]. unfold AnscTdoGetState. destruct (bScheduled d) eqn:Hsch.
  - eexists _, _, w1. split; [done|]. split; [done|]. by left.
  - match goal with |- context [put_tdo w1 t ?dd] => set (d' := dd) end.
    destruct Hs as [o Eo]. assert (Hs1 : is_Some (tsos w1 !! s)) by (apply Hk; by eexists). destruct Hs1 as [o1 Eo1].
    destruct (ok_tdo _ _ Hok t d Ed) as [(_ & _ & HI & _) _].
    destruct (arm n w1 s t o1 d d' read) as (a & b & v & Eq & -> & Hok2 & Hpos & Hfront); try done; [by rewrite Eds|by rewrite Eds|].
    cbn [mbind outcome_bind]. eexists _, _, _. split; [done|]. split; [done|]. right. split; [done|].
    assert (Est : stamped read d') by done.
    destruct (stamped_times n read d' Est Hr Hwin) as (_ & Edl & _ & _ & Hz).
    assert (E' : <[t := d']> (tdos w1) !! t = Some d') by apply lookup_insert_eq.
    split_and!.
    + eapply keeps_trans; [exact Hk|]. eapply keeps_trans; [apply keeps_put_tdo|apply keeps_put_tso].
    + intros s' Hne. rewrite queue_put_tso, decide_False by done. apply Hq.
    + intros u Hne. rewrite <-(Ht u). by apply times_put_tdo.
    + cbn [tdos put_tso put_tdo]. rewrite (fires_at_Some _ _ _ E'). exact Edl.
    + exists a, b. rewrite queue_put_tso, decide_True by done. cbn [tdos put_tso put_tdo]. pose proof (at_once_Some _ _ _ E') as Hao.
      split; [rewrite <-Hq; unfold queue_of; rewrite Eo1; cbn; by rewrite Eq|]. split; [done|].
      change (Interval d) with (Interval d') in *. destruct (Z.eqb_spec (Interval d') 0) as [E0|E0]; cbn [negb].
      * split; [by apply Hao, Hz|by apply Hfront].
      * split; [by rewrite Hao, <-Hz|]. intros c Hc Hle. apply Hpos; [done|by rewrite Eq|]. by rewrite Eds.
Qed.

Lemma Cancel_spec n w s t :
  world_ok n w -> is_Some (tsos w !! s) -> is_Some (tdos w !! t) ->
  exists st w', AnscTsoCancelTimer w s t = Done (st, w') /\ world_ok n w' /\ (eff_same w w' \/ eff_leave s t w w').
Proof.
  intros Hok [o Eo] [d Ed]. unfold AnscTsoCancelTimer, get_tso, get_tdo, AnscTdoGetState, AnscTdoGetScheduler.
  rewrite Eo, Ed. cbn [mbind outcome_bind]. destruct (bScheduled d) eqn:Hsch; cbn [negb]; [|eexists _, w; split_and!; [done|done|by left]].
  case_bool_decide as Hs; [eexists _, w; split_and!; [done|done|by left]|].
  eexists _, _. split; [done|]. split; [by apply disarm|]. right. split_and!.
  - eapply keeps_trans; [apply keeps_put_tso|apply keeps_put_tdo].
  - intros s' Hne. change (queue_of (put_tdo ?w t _) s') with (queue_of w s'). by rewrite queue_put_tso, decide_False.
  - intros u. by apply (times_put_state w t d).
  - exists (TdoQueue o). unfold queue_of at 1. rewrite Eo. split; [done|].
    change (queue_of (put_tdo ?w t _) s) with (queue_of w s). by rewrite queue_put_tso, decide_True.
Qed.

(** A round of the inner loop.  It leaves the loop when the queue is empty, when
    the first entry is the timer fired last, or when it is not due; otherwise it
    fires the first entry, which is due, and a periodic timer enters again. *)
Lemma scan_spec n w s fresh q :
  world_ok n w -> queue_of w s = Some q -> base <= n ->
  (forall t d, tdos w !! t = Some d -> n + Interval d < base + 2 ^ ulong_bits) ->
  exists w' r, scan w s fresh (ULONG n) = Done (w', r) /\ world_ok n w' /\
    match r with
    | None => eff_same w w' /\
        (q = [] \/ (exists t q', q = t :: q' /\ (fresh = Some t \/ ~ at_once (tdos w) t /\ n < fires_at (tdos w) t)))
    | Some t => exists q' w1, q = t :: q' /\ fresh ≠ Some t /\ fires_at (tdos w) t <= n /\ is_Some (tdos w !! t) /\ eff_leave s t w w1 /\
        exists d, tdos w !! t = Some d /\
          if TimerType d =? ANSC_TIMER_TYPE_PERIODIC
          then exists w2, eff_enter s t (n + Interval d) (negb (Interval d =? 0)) w1 w2 /\ eff_same w2 w'
          else eff_same w1 w'
    end.
Proof.
  intros Hok Hqo Hbn Hwin. unfold queue_of in Hqo. destruct (tsos w !! s) as [o|] eqn:Eo; [|done]. injection Hqo as <-.
  destruct (ok_tso _ _ Hok s o Eo) as (Hnd & Hq & Hu & Hord). 
  assert (Eg : get_tso w s = Done o) by (unfold get_tso; by rewrite Eo). unfold scan. rewrite Eg. cbn [mbind outcome_bind TdoQueue set_cur].
  destruct (TdoQueue o) as [|t q] eqn:Eq; cbn [head].
  { eexists _, None. split; [done|]. split; [eapply world_ok_tso; try done; by rewrite Eq|]. split; [|by left].
    eapply eff_same_tso; [done|by rewrite Eq]. }
  destruct (proj1 (Hq t) ltac:(set_solver)) as (d & Ed & Hsch & Hs).
  destruct (ok_tdo _ _ Hok t d Ed) as [(Hts & Httf & HI & Hsc) _]. destruct (Hsc Hsch) as [Hts1 Hts2].
  assert (Egd : get_tdo w t = Done d) by (unfold get_tdo; by rewrite Ed). rewrite Egd. cbn [mbind outcome_bind].
  case_bool_decide as Hf.
  { eexists _, None. split; [done|]. split; [eapply world_ok_tso; try done; by rewrite Eq|]. split.
    - eapply eff_same_tso; [done|by rewrite Eq].
    - right. exists t, q. auto. }
  assert (Hn : n < base + 2 ^ ulong_bits) by (specialize (Hwin t d Ed); destruct HI; lia).
  assert (En : real (ULONG n) = n) by (apply real_ULONG; lia).
  rewrite (bFireTimer_real (Timestamp d) (TimeToFire d) (ULONG n)) by (try done; try apply ULONG_bound; by rewrite ?En).
  rewrite En. destruct (Z.leb_spec (real (TimeToFire d)) n) as [Hdue|Hnot]; cbn [negb].
  2:{ eexists _, None. split; [done|]. split; [eapply world_ok_tso; try done; by rewrite ?Eq|]. split.
      - eapply eff_same_tso; [done|by rewrite Eq].
      - right. exists t, q. split; [done|]. right. rewrite (at_once_Some _ _ _ Ed), (fires_at_Some _ _ _ Ed). split; [|done].
        unfold zero. intros E. rewrite E in Hts1. lia. }
  set (o1 := set_tdo_queue (set_cur o None) (lremove t (t :: q))).
  assert (Hok1 : world_ok n (put_tdo (put_tso w s o1) t (AnscTdoSetState d false))).
  { pose proof (disarm n w s t o d Hok Eo Ed Hsch Hs) as Hd. rewrite Eq in Hd.
    pose proof (world_ok_tso n _ s (set_tdo_queue o (lremove t (t :: q))) o1 Hd (lookup_insert_eq _ _ _) eq_refl Hu) as Hd'.
    unfold put_tso, put_tdo in *. cbn in Hd'. by rewrite insert_insert_eq in Hd'. }
  assert (Hleave : eff_leave s t w (put_tdo (put_tso w s o1) t (AnscTdoSetState d false))).
  { split_and!.
    - eapply keeps_trans; [apply keeps_put_tso|apply keeps_put_tdo].
    - intros s' Hne. change (queue_of (put_tdo ?w t _) s') with (queue_of w s'). by rewrite queue_put_tso, decide_False.
    - intros u. by apply (times_put_state w t d).
    - exists (t :: q). unfold queue_of at 1. rewrite Eo. cbn. rewrite Eq. split; [done|].
      change (queue_of (put_tdo ?w t _) s) with (queue_of w s). by rewrite queue_put_tso, decide_True. }
  set (w1 := put_tdo (put_tso w s o1) t (AnscTdoSetState d false)) in *.
  assert (Eo1 : tsos w1 !! s = Some o1) by (unfold w1; cbn; apply lookup_insert_eq).
  unfold AnscTdoGetTimerType. destruct (TimerType d =? ANSC_TIMER_TYPE_PERIODIC) eqn:Hper.
  - match goal with |- context [put_tdo (put_tso w s o1) t ?dd] => set (d' := dd) end.
    assert (E2 : put_tdo (put_tso w s o1) t d' = put_tdo w1 t d') by (unfold w1, put_tdo; cbn; by rewrite insert_insert_eq). rewrite E2.
    assert (Hst : stamped n d') by done.
    destruct (arm n w1 s t o1 (AnscTdoSetState d false) d' n) as (a & b & v & Eab & -> & Hok2 & Hpos & Hfront); try done.
    { unfold w1. cbn. apply lookup_insert_eq. }
    { exact (Hwin t d Ed). }
    { intros u c Eu Hc. unfold w1 in Eu. cbn in Eu. destruct (decide (t = u)) as [<-|Hne].
      - rewrite lookup_insert_eq in Eu. injection Eu as <-. done.
      - rewrite lookup_insert_ne in Eu by done. destruct (ok_tdo _ _ Hok u c Eu) as [(_ & _ & _ & Hc1) _].
        destruct (Hc1 Hc). change (Interval d') with (Interval d). destruct HI; lia. }
    cbn [mbind outcome_bind]. unfold get_tso. cbn [tsos put_tso]. rewrite lookup_insert_eq. cbn [mbind outcome_bind].
    set (w2 := put_tso (put_tdo w1 t d') s (set_tdo_queue (set_unit o1 v) (a ++ t :: b))) in *.
    assert (Eo2 : tsos w2 !! s = Some (set_tdo_queue (set_unit o1 v) (a ++ t :: b))) by (unfold w2; cbn; apply lookup_insert_eq).
    eexists _, (Some t). split; [done|]. split.
    { eapply world_ok_tso; [exact Hok2|exact Eo2|done|]. by destruct (ok_tso _ _ Hok2 s _ Eo2) as (_ & _ & ? & _). }
    exists q, w1. rewrite (fires_at_Some _ _ _ Ed). split_and!; [done|done|done|by eexists|done|].
    exists d. split; [done|]. rewrite Hper. exists w2. split; [|by eapply eff_same_tso].
    destruct (stamped_times n n d' Hst ltac:(lia) (Hwin t d Ed)) as (_ & Edl & _ & _ & Hz).
    assert (E' : <[t := d']> (tdos w1) !! t = Some d') by apply lookup_insert_eq. split_and!.
    + eapply keeps_trans; [apply keeps_put_tdo|apply keeps_put_tso].
    + intros s' Hne. unfold w2. by rewrite queue_put_tso, decide_False.
    + intros u Hne. exact (times_put_tdo w1 t _ u Hne).
    + unfold w2. cbn [tdos put_tso put_tdo]. rewrite (fires_at_Some _ _ _ E'). exact Edl.
    + exists a, b. unfold w2 at 1. rewrite queue_put_tso, decide_True by done. pose proof (at_once_Some _ _ _ E') as Hao.
      split; [unfold queue_of; rewrite Eo1; cbn; by rewrite <-Eab|]. split; [done|]. change (Interval d) with (Interval d').
      destruct (Z.eqb_spec (Interval d') 0) as [E0|E0]; cbn [negb].
      * split; [by apply Hao, Hz|by apply Hfront].
      * split; [unfold w2; by rewrite Hao, <-Hz|]. intros c Hc Hle. apply Hpos; [done|by rewrite Eab|done].
  - cbn [mbind outcome_bind]. fold w1. unfold get_tso. rewrite Eo1. cbn [mbind outcome_bind].
    eexists _, (Some t). split; [done|]. split; [by eapply world_ok_tso|].
    exists q, w1. rewrite (fires_at_Some _ _ _ Ed). split_and!; [done|done|done|by eexists|done|].
    exists d. split; [done|]. rewrite Hper. by eapply eff_same_tso.
Qed.

(** *** Steps *)

(** What a start or a stop may do. *)
Definition start_eff t d (read : Z) w w' : Prop :=
  eff_same w w' \/ bScheduled d = false /\ exists s, eff_enter s t (read + Interval d) (negb (Interval d =? 0)) w w'.
Definition stop_eff t w w' : Prop := eff_same w w' \/ exists s, eff_leave s t w w'.

Lemma TdoStart_spec n w t d read sec sp :
  world_ok n w -> tdos w !! t = Some d -> base <= read <= n -> read + Interval d < base + 2 ^ ulong_bits ->
  (forall u c, tdos w !! u = Some c -> bScheduled c = true -> real (Timestamp c) <= read + Interval d) ->
  exists st p w', AnscTdoStart w t (ULONG read) sec sp = Done (st, p, w') /\ world_ok n w' /\ start_eff t d read w w' /\
    match p with Some (s, true) => is_Some (tsos w !! s) | _ => True end.
Proof.
  intros Hok Ed Hr Hwin Hstale. unfold AnscTdoStart, get_tdo. rewrite Ed. cbn [mbind outcome_bind].
  destruct (ok_tdo _ _ Hok t d Ed) as [_ [Hr1 Hr2]].
  assert (Hreg : forall s, is_Some (tsos w !! s) -> exists st p w',
    (r ← AnscTsoRegisterTimer w s t (ULONG read) sec sp; let '(st, task, w) := r in Done (st, Some (s, task), w)) = Done (st, p, w') /\
    world_ok n w' /\ start_eff t d read w w' /\ match p with Some (s, true) => is_Some (tsos w !! s) | _ => True end).
  { intros s Hs. destruct (Register_spec n w s t d read sec sp) as (st & task & w' & -> & Hok' & Heff); try done.
    cbn [mbind outcome_bind]. eexists _, _, w'. split; [done|]. split; [done|]. split; [|by destruct task].
    destruct Heff as [?|[? ?]]; [by left|]. right. split; [done|]. by exists s. }
  destruct (hContainerContext d) as [c|].
  - specialize (Hr2 c eq_refl). clear Hr1. revert c Hr2. fix IH 1. intros [[s|] [p|]] Hc; cbn in *; auto.
    eexists _, None, w. split; [done|]. split; [done|]. split; [by left|done].
  - destruct (hScheduler d) as [s|]; [by apply Hreg, Hr1|].
    eexists _, None, w. split; [done|]. split; [done|]. split; [by left|done].
Qed.

Lemma TdoStop_spec n w t :
  world_ok n w -> is_Some (tdos w !! t) -> exists st w', AnscTdoStop w t = Done (st, w') /\ world_ok n w' /\ stop_eff t w w'.
Proof.
  intros Hok Ht. destruct Ht as [d Ed]. unfold AnscTdoStop, get_tdo. rewrite Ed. cbn [mbind outcome_bind].
  destruct (ok_tdo _ _ Hok t d Ed) as [_ [Hr1 Hr2]].
  assert (Hcan : forall s, is_Some (tsos w !! s) -> exists st w', AnscTsoCancelTimer w s t = Done (st, w') /\ world_ok n w' /\ stop_eff t w w').
  { intros s Hs. destruct (Cancel_spec n w s t) as (st & w' & -> & Hok' & Heff); try done.
    eexists _, w'. split; [done|]. split; [done|]. destruct Heff; [by left|right; by exists s]. }
  destruct (hContainerContext d) as [c|].
  - specialize (Hr2 c eq_refl). clear Hr1. revert c Hr2. fix IH 1. intros [[s|] [p|]] Hc; cbn in *; auto.
    eexists _, w. split; [done|]. split; [done|by left].
  - destruct (hScheduler d) as [s|]; [by apply Hcan, Hr1|]. eexists _, w. split; [done|]. split; [done|by left].
Qed.

(** What an event that is not a step of a task does. *)
Definition owner_eff x (e : event) y : Prop :=
  fired y = fired x /\ (forall j p, tasks x !! j = Some p -> tasks y !! j = Some p) /\ now x <= now y /\
  match e with
  | EStart t read _ => exists d, tdos (wd x) !! t = Some d /\ start_eff t d read (wd x) (wd y)
  | EStop t => stop_eff t (wd x) (wd y)
  | _ => eff_same (wd x) (wd y)
  end.

Lemma start_eff_keeps t d read w w' : start_eff t d read w w' -> keeps w w'.
Proof. intros [[? _]|(_ & s & ? & _)]; done. Qed.

Lemma stop_eff_keeps t w w' : stop_eff t w w' -> keeps w w'.
Proof. intros [[? _]|(s & ? & _)]; done. Qed.

Lemma Forall_task_keeps w w' ts : keeps w w' -> Forall (task_ok w) ts -> Forall (task_ok w') ts.
Proof. intros Hk. intros Hf. eapply Forall_impl; [exact Hf|]. intros p. by apply keeps_task. Qed.

Lemma spawn_ok x p :
  sys_ok x -> match p with Some (s, true) => is_Some (tsos (wd x) !! s) | _ => True end ->
  sys_ok (spawn x p) /\ wd (spawn x p) = wd x /\ now (spawn x p) = now x /\ fired (spawn x p) = fired x /\
  (forall j p', tasks x !! j = Some p' -> tasks (spawn x p) !! j = Some p').
Proof.
  intros (Hb & Hw & Ht) Hp. destruct p as [[s []]|]; [|done..]. split_and!; try done.
  - split_and!; [done|done|]. apply Forall_app. split; [done|]. by constructor.
  - cbn. intros j p' Hj. by apply lookup_app_l_Some.
Qed.

Lemma set_field_spec x t f :
  sys_ok x -> is_Some (tdos (wd x) !! t) ->
  (forall d, Timestamp (f d) = Timestamp d /\ TimeToFire (f d) = TimeToFire d /\ bScheduled (f d) = bScheduled d /\
     hScheduler (f d) = hScheduler d /\ hContainerContext (f d) = hContainerContext d /\ (ulong (Interval d) -> ulong (Interval (f d)))) ->
  exists y, set_field x t f = Done y /\ sys_ok y /\ fired y = fired x /\ tasks y = tasks x /\ now y = now x /\ eff_same (wd x) (wd y).
Proof.
  intros (Hb & Hw & Htk) [d Ed] Hf. unfold set_field, get_tdo. rewrite Ed. cbn [mbind outcome_bind]. eexists. split; [done|].
  destruct (Hf d) as (F1 & F2 & F3 & F4 & F5 & F6). destruct (ok_tdo _ _ Hw t d Ed) as [(_ & _ & HI & _) _].
  assert (Hs : eff_same (wd x) (put_tdo (wd x) t (f d))) by by eapply eff_same_tdo. split_and!; try done.
  split_and!; [done| |].
  - eapply world_ok_field; try done. by apply F6.
  - eapply Forall_task_keeps; [|exact Htk]. apply Hs.
Qed.

Lemma world_ok_later n m w : n <= m -> world_ok n w -> world_ok m w.
Proof.
  intros Hnm [H1 H2]. split; [|done]. intros t d Ed. destruct (H1 t d Ed) as [(? & ? & ? & Hs) ?]. split; [|done].
  split_and!; [done..|]. intros Hsch. destruct (Hs Hsch). lia.
Qed.

Lemma owner_step x e :
  sys_ok x -> in_window x -> event_ok x e -> (forall i, e ≠ ETask i) ->
  exists y, step x e = Done y /\ sys_ok y /\ owner_eff x e y.
Proof.
  intros Hok Hwin He Hnt. pose proof Hok as (Hb & Hw & Ht).
  destruct e as [ms|i|t read sp|t|s sp|s|t v|t v|t v|t v]; cbn [step event_ok] in *.
  - eexists. split; [done|]. split; [|split_and!; try done; cbn; lia]. split_and!; [cbn; lia| |done].
    apply (world_ok_later (now x)); [cbn; lia|done].
  - by destruct (Hnt i).
  - destruct He as (d & Ed & Hr & Hstale).
    destruct (TdoStart_spec (now x) (wd x) t d read (ULONG (now x / 1000)) sp) as (st & p & w' & -> & Hok' & Heff & Hp); try done.
    { specialize (Hwin t d Ed). lia. }
    pose proof (start_eff_keeps _ _ _ _ _ Heff) as Hk. cbn [mbind outcome_bind].
    destruct (spawn_ok (set_wd x w') p) as (Hy & E1 & E2 & E3 & E4).
    { split_and!; [done|done|]. by eapply Forall_task_keeps. }
    { destruct p as [[s []]|]; [|done..]. by apply Hk. }
    eexists. split; [done|]. split; [done|]. unfold owner_eff. rewrite E1, E2, E3. split_and!; [done|exact E4|done|]. by exists d.
  - destruct (TdoStop_spec (now x) (wd x) t) as (st & w' & -> & Hok' & Heff); try done. cbn [mbind outcome_bind snd].
    eexists. split; [done|]. split; [|split_and!; done]. split_and!; [done|done|]. eapply Forall_task_keeps; [|done]. by eapply stop_eff_keeps.
  - destruct (Start_spec (now x) (wd x) s sp) as (st & task & w' & -> & Hok' & Heff & _); try done. cbn [mbind outcome_bind].
    destruct (spawn_ok (set_wd x w') (Some (s, task))) as (Hy & E1 & E2 & E3 & E4).
    { split_and!; [done|done|]. eapply Forall_task_keeps; [|done]. apply Heff. }
    { destruct task; [|done]. by apply Heff. }
    eexists. split; [done|]. split; [done|]. unfold owner_eff. rewrite E1, E2, E3. split_and!; [done|exact E4|done|done].
  - destruct (Stop_spec (now x) (wd x) s) as (st & w' & -> & Hok' & Heff); try done. cbn [mbind outcome_bind snd].
    eexists. split; [done|]. split; [|split_and!; done]. split_and!; [done|done|]. eapply Forall_task_keeps; [|done]. apply Heff.
  - destruct He as [Hd Hv]. destruct (set_field_spec x t (fun d => AnscTdoSetInterval d v)) as (y & -> & Hy & E1 & E2 & E3 & Heff); try done.
    exists y. split; [done|]. split; [done|]. split_and!; [done|by rewrite E2|lia|done].
  - destruct (set_field_spec x t (fun d => AnscTdoSetTimerType d v)) as (y & -> & Hy & E1 & E2 & E3 & Heff); try done.
    exists y. split; [done|]. split; [done|]. split_and!; [done|by rewrite E2|lia|done].
  - destruct (set_field_spec x t (fun d => AnscTdoSetTimerMode d v)) as (y & -> & Hy & E1 & E2 & E3 & Heff); try done.
    exists y. split; [done|]. split; [done|]. split_and!; [done|by rewrite E2|lia|done].
  - destruct (set_field_spec x t (fun d => AnscTdoSetCallCounter d v)) as (y & -> & Hy & E1 & E2 & E3 & Heff); try done.
    exists y. split; [done|]. split; [done|]. split_and!; [done|by rewrite E2|lia|done].
Qed.

(** What a round of the inner loop does, seen from the task. *)
Definition scanned x (i : nat) s (fresh : option loc) y : Prop :=
  exists q, queue_of (wd x) s = Some q /\
    ((fired y = fired x /\ tasks y !! i = Some (s, Top) /\ eff_same (wd x) (wd y) /\
      (q = [] \/ exists t q', q = t :: q' /\ (fresh = Some t \/ ~ at_once (tdos (wd x)) t /\ now x < fires_at (tdos (wd x)) t))) \/
     (exists t q' w1, q = t :: q' /\ fresh ≠ Some t /\ fires_at (tdos (wd x)) t <= now x /\
      fired y = t :: fired x /\ tasks y !! i = Some (s, Fired t) /\ eff_leave s t (wd x) w1 /\
      exists d, tdos (wd x) !! t = Some d /\
        if TimerType d =? ANSC_TIMER_TYPE_PERIODIC
        then exists w2, eff_enter s t (now x + Interval d) (negb (Interval d =? 0)) w1 w2 /\ eff_same w2 (wd y)
        else eff_same w1 (wd y))).

Definition task_eff x (i : nat) y : Prop :=
  now y = now x /\ (forall j, j ≠ i -> tasks y !! j = tasks x !! j) /\
  match tasks x !! i with
  | None | Some (_, Ended) => y = x
  | Some (s, Top) => fired y = fired x /\ eff_same (wd x) (wd y) /\
      exists o, tsos (wd x) !! s = Some o /\ tasks y !! i = Some (s, if bStarted o then Asleep (now x + SchedulingUnit o) else Ended)
  | Some (s, Asleep wake) => if wake <=? now x then scanned x i s None y else y = x
  | Some (s, Fired t) => fired y = fired x /\ eff_same (wd x) (wd y) /\ tasks y !! i = Some (s, Calling t)
  | Some (s, Calling t) => scanned x i s (Some t) y
  end.

Lemma set_task_lookup x i p p' : tasks x !! i = Some p -> tasks (set_task x i p') !! i = Some p'.
Proof. intros E. cbn. apply list_lookup_insert_eq. by eapply lookup_lt_Some. Qed.

Lemma set_task_other x i j p : j ≠ i -> tasks (set_task x i p) !! j = tasks x !! j.
Proof. intros Hne. cbn. by apply list_lookup_insert_ne. Qed.

Lemma set_task_ok x i p : sys_ok x -> task_ok (wd x) p -> sys_ok (set_task x i p).
Proof. intros (? & ? & ?) Hp. split_and!; [done|done|]. by apply Forall_insert. Qed.

Lemma scan_step x i s p fresh :
  sys_ok x -> in_window x -> tasks x !! i = Some (s, p) ->
  exists y, (r ← scan (wd x) s fresh (tick x); Done (after_scan x i s r)) = Done y /\ sys_ok y /\ now y = now x /\
    (forall j, j ≠ i -> tasks y !! j = tasks x !! j) /\ scanned x i s fresh y.
Proof.
  intros (Hb & Hw & Htk) Hwin Ei. pose proof (Forall_lookup_1 _ _ _ _ Htk Ei) as [[o Eo] _]. cbn in Eo.
  destruct (scan_spec (now x) (wd x) s fresh (TdoQueue o) Hw) as (w' & r & E & Hok' & Heff); [unfold queue_of; by rewrite Eo|done|done|].
  unfold tick. rewrite E. cbn [mbind outcome_bind]. eexists. split; [done|]. destruct r as [t|]; cbn [after_scan].
  - destruct Heff as (q' & w1 & Eq & Hf & Hdue & Ht & Hlv & d & Ed & Hend).
    assert (Hk : keeps (wd x) w').
    { eapply keeps_trans; [apply Hlv|]. destruct (TimerType d =? _); [|apply Hend].
      destruct Hend as (w2 & He & Hs). eapply keeps_trans; [apply He|apply Hs]. }
    split_and!; [|done|intros; by rewrite set_task_other|].
    + apply set_task_ok; [split_and!; [done|done|by eapply Forall_task_keeps]|]. split; cbn; apply Hk; [by eexists|done].
    + exists (TdoQueue o). split; [unfold queue_of; by rewrite Eo|]. right. exists t, q', w1. split_and!; try done.
      * by eapply set_task_lookup.
      * by exists d.
  - destruct Heff as [Hs Hwhy]. split_and!; [|done|intros; by rewrite set_task_other|].
    + apply set_task_ok; [split_and!; [done|done|]|]. { eapply Forall_task_keeps; [apply Hs|done]. }
      split; cbn; [|done]. apply Hs. by eexists.
    + exists (TdoQueue o). split; [unfold queue_of; by rewrite Eo|]. left. split_and!; try done. by eapply set_task_lookup.
Qed.

Lemma task_step x i :
  sys_ok x -> in_window x -> exists y, step x (ETask i) = Done y /\ sys_ok y /\ task_eff x i y.
Proof.
  intros Hok Hwin. pose proof Hok as (Hb & Hw & Htk). cbn [step]. unfold AnscTsoScheduleTask, task_eff.
  destruct (tasks x !! i) as [[s p]|] eqn:Ei; [|by exists x].
  pose proof (Forall_lookup_1 _ _ _ _ Htk Ei) as Hp. destruct Hp as [[o Eo] Hp]. cbn in Eo, Hp.
  destruct p as [|wake|t|t|].
  - unfold get_tso. rewrite Eo. cbn [mbind outcome_bind]. eexists. split; [done|]. split_and!; try done.
    + apply set_task_ok; [done|]. split; [by eexists|]. cbn. by destruct (bStarted o).
    + intros. by apply set_task_other.
    + exists o. split; [done|]. by eapply set_task_lookup.
  - destruct (wake <=? now x); [|by exists x]. destruct (scan_step x i s _ None Hok Hwin Ei) as (y & -> & ? & ? & ? & ?). by exists y.
  - destruct Hp as [d Ed]. unfold AnscTdoInvoke, get_tdo. rewrite Ed. cbn [mbind outcome_bind].
    match goal with |- context [set_wd x ?ww] => set (w' := ww) end.
    assert (Hs : eff_same (wd x) w') by (unfold w'; case_goal; [by eapply eff_same_tdo|done]).
    assert (Hok' : world_ok (now x) w').
    { unfold w'. case_goal; [|done]. destruct (ok_tdo _ _ Hw t d Ed) as [(_ & _ & HI & _) _]. by eapply world_ok_field. }
    eexists. split; [done|]. split_and!; try done.
    + apply set_task_ok; [split_and!; [done|done|]|]. { eapply Forall_task_keeps; [apply Hs|done]. }
      split; cbn; apply Hs; by eexists.
    + intros. by rewrite set_task_other.
    + by eapply set_task_lookup.
  - destruct (scan_step x i s _ (Some t) Hok Hwin Ei) as (y & -> & ? & ? & ? & ?). by exists y.
  - by exists x.
Qed.

(** *** Reachable states *)

(** Nothing is started yet. *)
Definition initial x : Prop :=
  base <= now x /\ tasks x = [] /\ fired x = [] /\
  (forall t d, tdos (wd x) !! t = Some d ->
     bScheduled d = false /\ ulong (Timestamp d) /\ ulong (TimeToFire d) /\ ulong (Interval d) /\ refs_ok (wd x) d) /\
  (forall s o, tsos (wd x) !! s = Some o -> TdoQueue o = [] /\ unit_ok (SchedulingUnit o)).

Inductive reachable : sys -> Prop :=
  | reach_init x : initial x -> reachable x
  | reach_step x e y : reachable x -> in_window x -> event_ok x e -> step x e = Done y -> reachable y.

Lemma step_ok x e : sys_ok x -> in_window x -> event_ok x e -> exists y, step x e = Done y /\ sys_ok y.
Proof.
  intros Hok Hwin He. destruct e as [ms|i|t read sp|t|s sp|s|t v|t v|t v|t v];
    try (destruct (owner_step x _ Hok Hwin He) as (y & ? & ? & _); [done|by exists y]).
  destruct (task_step x i Hok Hwin) as (y & ? & ? & _). by exists y.
Qed.

Lemma reachable_sys_ok x : reachable x -> sys_ok x.
Proof.
  induction 1 as [x (Hb & Ht & _ & Hd & Hs)|x e y _ IH Hwin He Hst].
  - split_and!; [done| |by rewrite Ht]. split.
    + intros t d Ed. destruct (Hd t d Ed) as (E & ? & ? & ? & ?). split; [|done]. split_and!; try done. by rewrite E.
    + intros s o Eo. destruct (Hs s o Eo) as [E Hu]. unfold tso_ok. rewrite E. split_and!; [constructor| |done|].
      * intros t. split; [set_solver|]. intros (d & Ed & Hsch & _). destruct (Hd t d Ed). congruence.
      * exists [], []. split_and!; constructor.
  - destruct (step_ok x e IH Hwin He) as (y' & E & Hok). congruence.
Qed.

End window.
End system.
