(* ===== verification/TimerLive.v ===== *)
(** * What the timer scheduler guarantees

    Theorems on [Timer]: the invariant of the running system, the order in which
    timers fire, that a due timer is fired, and the situations in which the
    scheduler fails its timers. *)

From S2P Require Import Prelude Links Timer.
Open Scope Z_scope.

Section live.
Context `{Platform}.
Variable base : Z.
Implicit Types (t u s z : loc) (q a b : list loc) (w : world) (x y : sys).

Abbreviation fires_at := (fires_at base).
Abbreviation eff_enter := (eff_enter base).
Abbreviation reachable := (reachable base).
Abbreviation in_window := (in_window base).
Abbreviation event_ok := (event_ok base).
Abbreviation sys_ok := (sys_ok base).

(** ** A waiting timer *)

(** [z] waits behind [k] others in the queue of [s], to fire at [v]; nothing in
    the queue fires at once. *)
Definition waits w s z (v : Z) (k : nat) : Prop :=
  exists a b, queue_of w s = Some (a ++ z :: b) /\ length a = k /\ Forall (fun u => ~ at_once (tdos w) u) (a ++ z :: b) /\
    fires_at (tdos w) z = v.

Lemma at_once_times ds ds' t : times ds' t = times ds t -> at_once ds' t <-> at_once ds t.
Proof. intros E. unfold at_once. by rewrite E. Qed.

Lemma fires_at_times ds ds' t : times ds' t = times ds t -> fires_at ds' t = fires_at ds t.
Proof. intros E. unfold Timer.fires_at. by rewrite E. Qed.

Lemma waits_same w w' s z v k : eff_same w w' -> waits w s z v k -> waits w' s z v k.
Proof.
  intros (_ & Hq & Ht) (a & b & E & Hk & Hn & Hv). exists a, b. split_and!; [by rewrite Hq|done| |by rewrite (fires_at_times _ _ _ (Ht z))].
  eapply Forall_impl; [exact Hn|]. cbn. intros u. by rewrite (at_once_times _ _ _ (Ht u)).
Qed.

Lemma lremove_app t a b : lremove t (a ++ b) = lremove t a ++ lremove t b.
Proof. unfold lremove. by rewrite filter_app. Qed.

Lemma lremove_length t a : (length (lremove t a) <= length a)%nat.
Proof. unfold lremove. induction a as [|u a IH]; [done|]. rewrite filter_cons. case_decide; cbn; lia. Qed.

Lemma lremove_cons_ne t u a : u ≠ t -> lremove t (u :: a) = u :: lremove t a.
Proof. intros. unfold lremove. by rewrite filter_cons_True. Qed.

Lemma lremove_head_length t a : (length (lremove t (t :: a)) < S (length a))%nat.
Proof. unfold lremove. rewrite filter_cons_False by tauto. pose proof (lremove_length t a). unfold lremove in *. lia. Qed.

(** A departure of another timer brings [z] forward, if that was first. *)
Lemma waits_leave w w' s s' t z v k :
  eff_leave s' t w w' -> t ≠ z -> waits w s z v k ->
  exists k', waits w' s z v k' /\ (k' <= k)%nat /\ (s' = s -> head (default [] (queue_of w s)) = Some t -> (k' < k)%nat).
Proof.
  intros (_ & Ho & Ht & q & Eq & Eq') Hne (a & b & E & Hk & Hn & Hv).
  assert (Hn' : forall l, (forall u, u ∈ l -> u ∈ a ++ z :: b) -> Forall (fun u => ~ at_once (tdos w') u) l).
  { intros l Hl. rewrite Forall_forall in *. intros u Hu. rewrite (at_once_times (tdos w)) by done. auto. }
  destruct (decide (s' = s)) as [->|Hs].
  - rewrite E in Eq. injection Eq as <-. exists (length (lremove t a)). split_and!.
    + exists (lremove t a), (lremove t b). assert (El : lremove t (a ++ z :: b) = lremove t a ++ z :: lremove t b)
        by (rewrite lremove_app, lremove_cons_ne by congruence; done).
      rewrite Eq', El. split_and!; [done|done| |by rewrite (fires_at_times _ _ _ (Ht z))]. apply Hn'. rewrite <-El. intros u [_ ?]%elem_of_lremove. done.
    + rewrite <-Hk. apply lremove_length.
    + intros _. rewrite E. cbn [default from_option id]. destruct a as [|h a]; cbn [head app]; intros [= <-]; [done|]. rewrite <-Hk.
      apply lremove_head_length.
  - exists k. split_and!; [|done|done]. exists a, b. rewrite Ho by done. split_and!; [done|done|by apply Hn'|by rewrite (fires_at_times _ _ _ (Ht z))].
Qed.

(** A later timer enters behind [z]. *)
Lemma waits_enter w w' s s' t z v v' k :
  eff_enter s' t v' true w w' -> t ≠ z -> NoDup (default [] (queue_of w s)) -> t ∉ default [] (queue_of w s) -> v <= v' -> waits w s z v k -> waits w' s z v k.
Proof.
  intros (_ & Ho & Ht & Hf & c & e & Eq & Eq' & Hlate) Hne Hnd Hnt Hv (a & b & E & Hk & Hn & Hvz).
  rewrite E in Hnt, Hnd. cbn in Hnt, Hnd.
  assert (Hn' : forall u, u ∈ a ++ z :: b -> ~ at_once (tdos w') u).
  { rewrite Forall_forall in Hn. intros u Hu. rewrite (at_once_times (tdos w)) by (apply Ht; by intros ->). auto. }
  assert (Hvz' : fires_at (tdos w') z = v) by (rewrite (fires_at_times (tdos w)); [done|apply Ht; congruence]).
  destruct (decide (s' = s)) as [->|Hs].
  - destruct Hlate as [Hao Hlate]. rewrite E in Eq. injection Eq as Eq. assert (Hz : z ∈ c).
    { apply Hlate; [rewrite <-Eq; set_solver|]. by rewrite Hvz. }
    assert (exists r, c = a ++ z :: r /\ b = r ++ e) as (r & -> & ->).
    { apply app_eq_inv in Eq as [(r & -> & Er)|(r & -> & Er)].
      - exfalso. apply NoDup_app in Hnd as (_ & Hdis & _). apply (Hdis z); set_solver.
      - destruct r as [|h r]; cbn in Er.
        + exfalso. rewrite app_nil_r in Hz. apply NoDup_app in Hnd as (_ & Hdis & _). apply (Hdis z); set_solver.
        + injection Er as <- ->. by exists r. }
    exists a, (r ++ t :: e). rewrite Eq', <-app_assoc. split_and!; [done|done| |done].
    apply Forall_forall. intros u Hu. destruct (decide (u = t)) as [->|]; [done|]. apply Hn'. set_solver.
  - exists a, b. rewrite Ho by done. split_and!; [done|done|by apply Forall_forall|done].
Qed.

(** ** Progress *)

Definition positive x : Prop := forall t d, tdos (wd x) !! t = Some d -> 0 < Interval d.
Definition running x s : Prop := exists o, tsos (wd x) !! s = Some o /\ bStarted o = true.

Lemma queue_facts x s q :
  sys_ok x -> queue_of (wd x) s = Some q ->
  NoDup q /\ queue_order base (tdos (wd x)) q /\ (forall t, t ∈ q -> exists d, tdos (wd x) !! t = Some d /\ bScheduled d = true).
Proof.
  intros (_ & Hw & _) E. unfold queue_of in E. destruct (tsos (wd x) !! s) as [o|] eqn:Eo; [|done]. injection E as <-.
  destruct (ok_tso _ _ _ Hw s o Eo) as (? & Hq & _ & ?). split_and!; [done|done|]. intros t Ht. apply Hq in Ht as (d & ? & ? & _). by exists d.
Qed.

(** A round of a task fires [z], or leaves [z] no further back; a round for the
    queue of [z] that fires nothing met the timer it had fired last. *)
Lemma scanned_waits x j s' fresh y s z v k :
  sys_ok x -> positive x -> v <= now x -> waits (wd x) s z v k -> scanned base x j s' fresh y ->
  fired y = z :: fired x \/ exists k' p, waits (wd y) s z v k' /\ (k' <= k)%nat /\ tasks y !! j = Some (s', p) /\
    (p = Top /\ (s' = s -> exists t, fresh = Some t) /\ fired y = fired x \/
     exists t, p = Fired t /\ (s' = s -> (k' < k)%nat) /\ fired y = t :: fired x).
Proof.
  intros Hok Hpos Hv Hw (q & Eq & [(Ef & Ht & Hs & Hwhy)|(t & q' & w1 & -> & Hf & Hdue & Ef & Ht & Hlv & d & Ed & Hend)]).
  - right. exists k, Top. split_and!; [by eapply waits_same|done|done|]. left. split_and!; [done| |done]. intros ->.
    destruct Hw as (a & b & E & _ & Hn & Hz). rewrite E in Eq. injection Eq as <-.
    destruct Hwhy as [E0|(t & q' & E' & [->|[Hao Hlt]])]; [by destruct a|by exists t|]. exfalso.
    destruct (queue_facts x s _ Hok E) as (_ & Hord & _).
    assert (fires_at (tdos (wd x)) t <= fires_at (tdos (wd x)) z); [|lia]. destruct a as [|h a]; cbn in E'; injection E' as -> <-; [done|].
    apply (queue_order_behind base _ [] t (a ++ z :: b)); [done|done|set_solver].
  - destruct (decide (t = z)) as [->|Hne]; [by left|]. right.
    destruct (queue_facts x s' _ Hok Eq) as (Hnd & _ & _).
    destruct (waits_leave (wd x) w1 s s' t z v k Hlv Hne Hw) as (k' & Hw1 & Hk' & Hlt). rewrite Eq in Hlt || idtac.
    assert (Hw' : waits (wd y) s z v k').
    { destruct (TimerType d =? _); [|by eapply waits_same]. destruct Hend as (w2 & He & Hs). eapply waits_same; [exact Hs|].
      specialize (Hpos t d Ed). destruct (Z.eqb_spec (Interval d) 0) as [|_]; [lia|]. cbn [negb] in He.
      destruct (decide (s' = s)) as [->|Hss].
      - destruct Hlv as (_ & _ & _ & q0 & Eq0 & Eq1). rewrite Eq in Eq0. injection Eq0 as <-.
        eapply waits_enter; [exact He|done| | |lia|done]; rewrite Eq1; cbn [default from_option id].
        + by apply NoDup_lremove.
        + rewrite elem_of_lremove. tauto.
      - destruct Hw1 as (a & b & E & ? & Hn & ?). destruct He as (_ & Ho & Htm & _).
        assert (Hns : forall u, u ∈ a ++ z :: b -> u ≠ t).
        { intros u Hu ->. destruct Hlv as (_ & Hol & _). rewrite Hol in E by congruence.
          destruct Hok as (_ & [_ H2] & _). unfold queue_of in *.
          destruct (tsos (wd x) !! s) as [o|] eqn:Eo; [|done]. destruct (tsos (wd x) !! s') as [o'|] eqn:Eo'; [|done].
          injection E as E. injection Eq as Eq. destruct (H2 s o Eo) as (_ & Hq & _). destruct (H2 s' o' Eo') as (_ & Hq' & _).
          rewrite <-E in Hu. apply Hq in Hu as (d1 & E1 & _ & Hd1). destruct (proj1 (Hq' t)) as (d2 & E2 & _ & Hd2); [rewrite Eq; set_solver|]. congruence. }
        exists a, b. rewrite Ho by congruence. split_and!; [done|done| |].
        + rewrite Forall_forall in *. intros u Hu. rewrite (at_once_times (tdos w1)) by (apply Htm; auto). auto.
        + rewrite (fires_at_times (tdos w1)); [done|]. apply Htm. apply Hns. set_solver. }
    exists k', (Fired t). split_and!; [done|done|done|]. right. exists t. split_and!; [done| |done].
    intros ->. apply Hlt; [done|]. by rewrite Eq.
Qed.

(** The steps the task still needs before [z] fires. *)
Definition rank (k : nat) (p : task_state) : nat :=
  (4 * k + match p with Asleep _ | Ended => 0 | Top => 1 | Calling _ => 2 | Fired _ => 3 end)%nat.

(** A step of the task that is not a wait. *)
Definition effective x (i : nat) (e : event) : bool :=
  match e with
  | ETask j => bool_decide (j = i) && match tasks x !! i with Some (_, Asleep wake) => wake <=? now x | _ => true end
  | _ => false
  end.

(** An event that leaves [z] to be fired: the scheduler runs, no timer has an
    empty interval, [z] is not stopped, and a timer that is started read the
    clock when [z] was due. *)
Definition fair x s z (v : Z) (e : event) : Prop :=
  in_window x /\ event_ok x e /\ positive x /\ running x s /\ e ≠ EStop z /\ (forall t r sp, e = EStart t r sp -> v <= r).

Lemma live_owner x e y i s z v k p :
  sys_ok x -> v <= now x -> waits (wd x) s z v k -> tasks x !! i = Some (s, p) -> fair x s z v e -> (forall j, e ≠ ETask j) ->
  step x e = Done y -> sys_ok y /\ v <= now y /\ fired y = fired x /\
  (exists k', waits (wd y) s z v k' /\ (k' <= k)%nat) /\ tasks y !! i = Some (s, p).
Proof.
  intros Hok Hv Hw Ei (Hwin & He & Hpos & Hrun & Hstop & Hst) Hnt Hy.
  destruct (owner_step base x e Hok Hwin He Hnt) as (y' & E & Hok' & Ef & Hts & Hnow & Heff). rewrite Hy in E. injection E as <-.
  split_and!; [done|lia|done| |by apply Hts].
  destruct e as [ms|j|t read sp|t|s' sp|s'|t n|t n|t n|t n]; try (exists k; split; [by eapply waits_same|done]).
  - exists k. split; [|done]. destruct Heff as (d & Ed & [Hs|(Hun & s' & Hen)]); [by eapply waits_same|].
    specialize (Hpos t d Ed). destruct (Z.eqb_spec (Interval d) 0) as [|_]; [lia|]. cbn [negb] in Hen.
    pose proof Hw as (a & b & Eq & _). destruct (queue_facts x s _ Hok Eq) as (Hnd & _ & Hin).
    assert (Hnq : forall u, u ∈ a ++ z :: b -> u ≠ t) by (intros u Hu ->; destruct (Hin t Hu) as (d' & ? & ?); congruence).
    eapply waits_enter; [exact Hen| | | | |exact Hw]; rewrite ?Eq; cbn [default from_option id].
    + symmetry. apply Hnq. set_solver.
    + done.
    + intros Hu. by apply (Hnq t Hu).
    + specialize (Hst t read sp eq_refl). lia.
  - destruct Heff as [Hs|(s' & Hlv)]; [exists k; split; [by eapply waits_same|done]|].
    destruct (waits_leave (wd x) (wd y) s s' t z v k Hlv) as (k' & Hw' & Hk' & _); [congruence|done|]. by exists k'.
Qed.

Lemma live_task x j y i s z v k p :
  sys_ok x -> v <= now x -> waits (wd x) s z v k -> tasks x !! i = Some (s, p) -> p ≠ Ended -> fair x s z v (ETask j) ->
  step x (ETask j) = Done y -> sys_ok y /\ v <= now y /\
  (fired y = z :: fired x \/
   exists k' p' l, waits (wd y) s z v k' /\ tasks y !! i = Some (s, p') /\ p' ≠ Ended /\ fired y = l ++ fired x /\
     (rank k' p' + (if effective x i (ETask j) then 1 else 0) <= rank k p)%nat).
Proof.
  intros Hok Hv Hw Ei Hp (Hwin & He & Hpos & (os & Eos & Hrun) & _) Hy.
  destruct (task_step base x j Hok Hwin) as (y' & E & Hok' & Hnow & Hoth & Heff). rewrite Hy in E. injection E as <-.
  split; [done|]. split; [lia|]. cbn [effective].
  destruct (decide (j = i)) as [->|Hji].
  - rewrite bool_decide_eq_true_2 by done. cbn [andb]. rewrite Ei in Heff |- *. destruct p as [|wake|t|t|]; [| | | |done].
    + destruct Heff as (Ef & Hs & o & Eo & Ep). rewrite Eos in Eo. injection Eo as <-. rewrite Hrun in Ep.
      right. eexists k, _, []. split_and!; [by eapply waits_same|exact Ep|done|done|cbn; lia].
    + destruct (wake <=? now x) eqn:Hwk; [|subst y; right; eexists k, _, []; split_and!; [done|done|done|done|lia]].
      destruct (scanned_waits x i s None y s z v k Hok Hpos Hv Hw Heff) as [?|(k' & p' & Hw' & Hk' & Ep & [(-> & Hf & Ef)|(t & -> & Hlt & Ef)])]; [by left| |].
      * destruct (Hf eq_refl) as [? [=]].
      * right. specialize (Hlt eq_refl). eexists k', _, [t]. split_and!; [done|exact Ep|done|done|cbn; lia].
    + destruct Heff as (Ef & Hs & Ep). right. eexists k, _, []. split_and!; [by eapply waits_same|exact Ep|done|done|cbn; lia].
    + destruct (scanned_waits x i s (Some t) y s z v k Hok Hpos Hv Hw Heff) as [?|(k' & p' & Hw' & Hk' & Ep & [(-> & Hf & Ef)|(u & -> & Hlt & Ef)])]; [by left| |].
      * right. eexists k', _, []. split_and!; [done|exact Ep|done|done|cbn; lia].
      * right. specialize (Hlt eq_refl). eexists k', _, [u]. split_and!; [done|exact Ep|done|done|cbn; lia].
  - rewrite bool_decide_eq_false_2 by done. cbn [andb]. assert (Ei' : tasks y !! i = Some (s, p)) by (by rewrite Hoth by congruence).
    assert (Hk : fired y = z :: fired x \/ exists k' l, waits (wd y) s z v k' /\ (k' <= k)%nat /\ fired y = l ++ fired x).
    { assert (Hsc : forall s' fresh, scanned base x j s' fresh y -> fired y = z :: fired x \/ exists k' l, waits (wd y) s z v k' /\ (k' <= k)%nat /\ fired y = l ++ fired x).
      { intros s' fresh Hs. destruct (scanned_waits x j s' fresh y s z v k Hok Hpos Hv Hw Hs) as [?|(k' & p' & Hw' & Hk' & _ & [(_ & _ & Ef)|(t & _ & _ & Ef)])];
          [by left|right; by exists k', []|right; by exists k', [t]]. }
      assert (Hsame : eff_same (wd x) (wd y) -> fired y = fired x -> exists k' l, waits (wd y) s z v k' /\ (k' <= k)%nat /\ fired y = l ++ fired x).
      { intros Hs Ef. exists k, []. split_and!; [by eapply waits_same|done|done]. }
      destruct (tasks x !! j) as [[s' [|wake|t|t|]]|]; [| | | | |].
      - destruct Heff as (Ef & Hs & _). right. by apply Hsame.
      - destruct (wake <=? now x); [by eapply Hsc|]. subst y. right. by apply Hsame.
      - destruct Heff as (Ef & Hs & _). right. by apply Hsame.
      - by eapply Hsc.
      - subst y. right. by apply Hsame.
      - subst y. right. by apply Hsame. }
    destruct Hk as [?|(k' & l & Hw' & Hk' & Ef)]; [by left|]. right. exists k', p, l. split_and!; [done|done|done|done|].
    unfold rank. lia.
Qed.

(** A run of fair events; the count is that of the effective steps of the task. *)
Inductive fair_run (i : nat) s z (v : Z) : sys -> list event -> nat -> sys -> Prop :=
  | run_nil x : fair_run i s z v x [] 0 x
  | run_cons x e y es n x' :
      fair x s z v e -> step x e = Done y -> fair_run i s z v y es n x' ->
      fair_run i s z v x (e :: es) ((if effective x i e then 1 else 0) + n) x'.

Lemma step_fired x e y : sys_ok x -> in_window x -> event_ok x e -> step x e = Done y -> sys_ok y /\ exists l, fired y = l ++ fired x.
Proof.
  intros Hok Hwin He Hy. assert (Hcase : (exists j, e = ETask j) \/ forall j, e ≠ ETask j) by (destruct e; [by right|left; by eexists|by right..]).
  destruct Hcase as [[j ->]|Hnt].
  - destruct (task_step base x j Hok Hwin) as (y' & E & Hok' & _ & _ & Heff). rewrite Hy in E. injection E as <-. split; [done|].
    assert (Hsc : forall s fresh, scanned base x j s fresh y -> exists l, fired y = l ++ fired x)
      by (intros s fresh (q & _ & [(Ef & _)|(t & q' & w1 & _ & _ & _ & Ef & _)]); [by exists []|by exists [t]]).
    destruct (tasks x !! j) as [[s [|wake|t|t|]]|]; [|destruct (wake <=? now x)|..]; try by eapply Hsc.
    all: try (subst y; by exists []). all: destruct Heff as [Ef _]; by exists [].
  - destruct (owner_step base x e Hok Hwin He Hnt) as (y' & E & Hok' & Ef & _). rewrite Hy in E. injection E as <-. split; [done|]. by exists [].
Qed.

Lemma fair_run_fired i s z v x es n x' : fair_run i s z v x es n x' -> sys_ok x -> exists l, fired x' = l ++ fired x.
Proof.
  induction 1 as [x|x e y es n x' (Hwin & He & _) Hst Hrun IH]; intros Hok; [by exists []|].
  destruct (step_fired x e y Hok Hwin He Hst) as [Hok' [l El]]. destruct (IH Hok') as [l' El']. exists (l' ++ l). by rewrite El', El, app_assoc.
Qed.

Lemma fair_run_progress i s z v x es n x' k p :
  fair_run i s z v x es n x' -> sys_ok x -> v <= now x -> waits (wd x) s z v k -> tasks x !! i = Some (s, p) -> p ≠ Ended ->
  (exists l, fired x' = l ++ fired x /\ (z ∈ l \/ (n <= rank k p)%nat)).
Proof.
  intros Hrun. revert k p. induction Hrun as [x|x e y es n x' Hfair Hst Hrun IH]; intros k p Hok Hv Hw Ei Hp.
  - exists []. split; [done|]. right. lia.
  - assert (Hcase : (exists j, e = ETask j) \/ forall j, e ≠ ETask j) by (destruct e; [by right|left; by eexists|by right..]).
    destruct Hcase as [[j ->]|Hnt].
    + destruct (live_task x j y i s z v k p Hok Hv Hw Ei Hp Hfair Hst) as (Hok' & Hv' & [Hz|(k' & p' & l & Hw' & Ei' & Hp' & Ef & Hr)]).
      * destruct (fair_run_fired _ _ _ _ _ _ _ _ Hrun Hok') as [l El]. exists (l ++ [z]). rewrite El, Hz, <-app_assoc. split; [done|]. left. set_solver.
      * destruct (IH k' p' Hok' Hv' Hw' Ei' Hp') as (l' & El & Hd). exists (l' ++ l). rewrite El, Ef, app_assoc. split; [done|].
        destruct Hd as [?|?]; [left; set_solver|right; lia].
    + destruct (live_owner x e y i s z v k p Hok Hv Hw Ei Hfair Hnt Hst) as (Hok' & Hv' & Ef & (k' & Hw' & Hk') & Ei').
      destruct (IH k' p Hok' Hv' Hw' Ei' Hp) as (l' & El & Hd). exists l'. rewrite El, Ef. split; [done|].
      destruct Hd as [?|?]; [by left|right]. unfold rank in *. destruct e; cbn [effective]; try lia. by destruct (Hnt i0).
Qed.

(** ** A timer with an empty interval *)

(** [z] is first, periodic and has no interval; the task serves it only. *)
Definition hogs x (i : nat) s z q : Prop :=
  (exists o, tsos (wd x) !! s = Some o /\ TdoQueue o = z :: q) /\
  (exists d, tdos (wd x) !! z = Some d /\ zero d /\ Interval d = 0 /\ TimerType d = ANSC_TIMER_TYPE_PERIODIC) /\
  exists p, tasks x !! i = Some (s, p) /\ match p with Fired t | Calling t => t = z | _ => True end.

Lemma bFireTimer_refl v c : bFireTimer v v c = true.
Proof. unfold bFireTimer. rewrite Z.ltb_irrefl, Z.eqb_refl. done. Qed.

Lemma hogs_scan x i s z q p fresh :
  hogs x i s z q -> z ∉ q -> tasks x !! i = Some (s, p) -> (fresh = None \/ fresh = Some z) ->
  exists y n, (r ← scan (wd x) s fresh (tick x); Done (after_scan x i s r)) = Done y /\ hogs y i s z q /\
    fired y = replicate n z ++ fired x.
Proof.
  intros ((o & Eo & Eq) & (d & Ed & Hz & HI & Hper) & _) Hnq Ei Hf. unfold scan, get_tso, get_tdo.
  rewrite Eo. cbn [mbind outcome_bind TdoQueue set_cur]. rewrite Eq. cbn [head]. rewrite Ed. cbn [mbind outcome_bind].
  case_bool_decide as Hb.
  - cbn [mbind outcome_bind]. eexists _, 0%nat. split; [done|]. split; [|done]. cbn [after_scan]. split_and!.
    + eexists. cbn. rewrite lookup_insert_eq. split; [done|]. done.
    + by exists d.
    + exists Top. split; [by eapply set_task_lookup|done].
  - destruct Hf as [->| ->]; [|done]. rewrite Hz, bFireTimer_refl. cbn [negb]. unfold AnscTdoGetTimerType. rewrite Hper. cbn [Z.eqb Pos.eqb ANSC_TIMER_TYPE_PERIODIC].
    assert (El : lremove z (z :: q) = q) by (unfold lremove; rewrite filter_cons_False by tauto; by apply lremove_absent). rewrite El.
    unfold AnscTsoScheduleTimer, get_tso, get_tdo. cbn [tsos tdos put_tso put_tdo]. rewrite !lookup_insert_eq. cbn [mbind outcome_bind Interval AnscTdoSetTimeToFire AnscTdoSetState AnscTdoSetTimestamp].
    rewrite HI. cbn [Z.ltb Z.compare mbind outcome_bind]. cbn [tsos put_tso]. rewrite lookup_insert_eq. cbn [mbind outcome_bind].
    eexists _, 1%nat. split; [done|]. cbn [after_scan]. split; [|done]. split_and!.
    + eexists. cbn. rewrite lookup_insert_eq. split; [done|]. cbn. by case_goal.
    + eexists. cbn. rewrite lookup_insert_eq. split; [done|]. split_and!; [|done|done]. unfold zero, tick. cbn.
      by rewrite Z.add_0_r, ULONG_idem.
    + exists (Fired z). split; [by eapply set_task_lookup|done].
Qed.

Lemma hogs_step x i s z q e :
  hogs x i s z q -> z ∉ q -> (e = ETask i \/ exists ms, e = ETick ms) ->
  exists y n, step x e = Done y /\ hogs y i s z q /\ fired y = replicate n z ++ fired x.
Proof.
  intros Hh Hnq [->|[ms ->]]; [|by exists (Sys (wd x) (now x + ms) (tasks x) (fired x)), 0%nat].
  pose proof Hh as (Ho & Hd & p & Ei & Hp). cbn [step]. unfold AnscTsoScheduleTask. rewrite Ei. destruct p as [|wake|t|t|].
  - destruct Ho as (o & Eo & Eq). unfold get_tso. rewrite Eo. cbn [mbind outcome_bind]. eexists _, 0%nat. split; [done|]. split; [|done].
    split_and!; [by exists o|done|]. eexists. split; [by eapply set_task_lookup|]. by destruct (bStarted o).
  - destruct (wake <=? now x); [|by exists x, 0%nat]. eapply hogs_scan; eauto.
  - subst t. destruct Hd as (d & Ed & Hz & HI & Hper). unfold AnscTdoInvoke, get_tdo. rewrite Ed. cbn [mbind outcome_bind].
    eexists _, 0%nat. split; [done|]. split; [|done]. split_and!.
    + destruct Ho as (o & Eo & Eq). exists o. cbn. by destruct (0 <? CallCounter d).
    + destruct (0 <? CallCounter d); cbn; [|by exists d]. eexists. rewrite lookup_insert_eq. done.
    + exists (Calling z). split; [by eapply set_task_lookup|done].
  - subst t. eapply hogs_scan; eauto.
  - by exists x, 0%nat.
Qed.

(** ** Properties *)


(** C17. A round of the scheduling loop, for a task that wakes up or returns from a
    callback.  Either it fires a timer of the queue that is due and, unless that
    fires at once, is the earliest of the queue; a periodic timer then waits
    again, for its interval from now on, another one leaves the queue.  Or it
    stops, and no timer in the queue is due, or the first one is the timer it has
    just fired. *)
Theorem timer_fires_in_order x (i : nat) s p fresh q (Hr : reachable x) (Hwin : in_window x)
  (Hi : tasks x !! i = Some (s, p)) (Hq : queue_of (wd x) s = Some q)
  (Hp : (exists wake, p = Asleep wake /\ wake <= now x /\ fresh = None) \/ exists t, p = Calling t /\ fresh = Some t) :
  exists y, step x (ETask i) = Done y /\
  ((exists t d, fired y = t :: fired x /\ fresh ≠ Some t /\ tdos (wd x) !! t = Some d /\ t ∈ q /\ fires_at (tdos (wd x)) t <= now x /\
      (zero d \/ forall u, u ∈ q -> fires_at (tdos (wd x)) t <= fires_at (tdos (wd x)) u) /\
      exists q', queue_of (wd y) s = Some q' /\
        if TimerType d =? ANSC_TIMER_TYPE_PERIODIC
        then t ∈ q' /\ fires_at (tdos (wd y)) t = now x + Interval d else t ∉ q') \/
   (fired y = fired x /\ ((forall u, u ∈ q -> now x < fires_at (tdos (wd x)) u) \/ exists t, head q = Some t /\ fresh = Some t))).
Proof.
  apply reachable_sys_ok in Hr. destruct (task_step base x i Hr Hwin) as (y & E & Hok' & _ & _ & Heff). rewrite Hi in Heff.
  assert (Hsc : scanned base x i s fresh y).
  { destruct Hp as [(wake & -> & Hwk & ->)|(t & -> & ->)]; [|done]. by rewrite (proj2 (Z.leb_le _ _) Hwk) in Heff. }
  exists y. split; [done|]. destruct (queue_facts x s q Hr Hq) as (_ & Hord & Hin).
  destruct Hsc as (q0 & Eq & Hcase). rewrite Hq in Eq. injection Eq as <-.
  destruct Hcase as [(Ef & _ & _ & Hwhy)|(t & q' & w1 & -> & Hf & Hdue & Ef & _ & Hlv & d & Ed & Hend)].
  - right. split; [done|]. destruct Hwhy as [->|(t & q' & -> & [->|[Hao Hlt]])]; [left; set_solver|right; by exists t|left].
    intros u [->|Hu]%elem_of_cons; [done|]. pose proof (queue_order_behind base _ [] t q' u Hord Hao Hu). lia.
  - left. exists t, d. split_and!; [done|done|done|set_solver|done| |].
    + destruct (decide (Timestamp d = TimeToFire d)) as [|Hnz]; [by left|right]. intros u [->|Hu]%elem_of_cons; [done|].
      apply (queue_order_behind base _ [] t q' u Hord); [|done]. by rewrite (at_once_Some _ _ _ Ed).
    + destruct Hlv as (_ & _ & _ & q1 & Eq1 & Eq2). rewrite Hq in Eq1. injection Eq1 as <-.
      destruct (TimerType d =? ANSC_TIMER_TYPE_PERIODIC).
      * destruct Hend as (w2 & (_ & _ & _ & Hfa & a & b & _ & Eq' & _) & (_ & Hs & Ht)). exists (a ++ t :: b). rewrite Hs. split; [done|].
        split; [set_solver|]. by rewrite (fires_at_times _ _ _ (Ht t)).
      * destruct Hend as (_ & Hs & _). exists (lremove t (t :: q')). rewrite Hs. split; [done|]. rewrite elem_of_lremove. tauto.
Qed.

(** C16. A due timer is fired.  Let [z] wait behind [k] others for a scheduler that
    runs, be due, and let no timer have an empty interval.  In any run in which
    [z] is not stopped and timers are started only with a later reading of the
    clock, whatever else happens, [z] has been fired once one task of the
    scheduler has made [4 k + 4] steps other than waiting in its sleep. *)
Theorem timer_liveness x es (n : nat) y (i : nat) s p z (v : Z) (k : nat) (Hr : reachable x)
  (Hi : tasks x !! i = Some (s, p)) (Hp : p ≠ Ended) (Hw : waits (wd x) s z v k) (Hv : v <= now x)
  (Hrun : fair_run i s z v x es n y) (Hn : (4 * k + 4 <= n)%nat) :
  exists l, fired y = l ++ fired x /\ z ∈ l.
Proof.
  apply reachable_sys_ok in Hr. destruct (fair_run_progress i s z v x es n y k p Hrun Hr Hv Hw Hi Hp) as (l & El & [?|Hle]).
  - by exists l.
  - exfalso. unfold rank in Hle. destruct p; lia.
Qed.

(** C25. A periodic timer with an empty interval starves the others: while only the
    task runs and time passes, each round fires that timer, puts it in front again
    and stops, and no other timer of the queue is ever fired. *)
Theorem zero_interval_starves x es (i : nat) s z q (Hh : hogs x i s z q) (Hnq : z ∉ q)
  (Hes : Forall (fun e => e = ETask i \/ exists ms, e = ETick ms) es) :
  exists y n, run es x = Done y /\ fired y = replicate n z ++ fired x /\ queue_of (wd y) s = Some (z :: q).
Proof.
  revert x Hh. induction Hes as [|e es He Hes IH]; intros x Hh.
  - exists x, 0%nat. split_and!; [done|done|]. destruct Hh as ((o & Eo & Eq) & _). unfold queue_of. rewrite Eo. cbn. by rewrite Eq.
  - destruct (hogs_step x i s z q e Hh Hnq He) as (x1 & n1 & E1 & Hh1 & Ef1). cbn [run]. rewrite E1. cbn [mbind outcome_bind].
    destruct (IH x1 Hh1) as (y & n & -> & Ef & Eq). exists y, (n + n1)%nat. split_and!; [done| |done].
    by rewrite Ef, Ef1, replicate_add, app_assoc.
Qed.

(** C39. Where the scheduler fails its timers.  A start whose clock reading is, by
    the time it gets the lock, more than its interval older than the stamp of a
    queued timer is queued behind that timer, although it is due earlier.  When
    the first timer is not due, the next sleep lasts 100 milliseconds, even if it
    is due sooner.  A scheduler that is stopped and started while its task sleeps
    has two tasks from then on.  A reset empties the queue but leaves the timers
    marked as scheduled: starting one again reports success and does nothing. *)
Theorem timer_faults w s o t d c dc (tick0 sec : Z) sp
  (Ho : tsos w !! s = Some o) (Ht : tdos w !! t = Some d) (Hc : tdos w !! c = Some dc) (Hne : c ≠ t) (Hst : bStarted o = true) :
  (TdoQueue o = [c] -> bScheduled d = false -> 0 < Interval d -> 0 <= tick0 -> tick0 + Interval d < Timestamp dc -> Timestamp dc <= TimeToFire dc ->
     TimeToFire dc < 2 ^ ulong_bits ->
     exists w', AnscTsoRegisterTimer w s t tick0 sec sp = Done (ANSC_STATUS_SUCCESS, false, w') /\ queue_of w' s = Some [c; t]) /\
  (forall x q, wd x = w -> tasks x = [(s, Top)] -> TdoQueue o = c :: q ->
     bFireTimer (Timestamp dc) (TimeToFire dc) (ULONG (now x + SchedulingUnit o)) = false ->
     exists y, run [ETask 0; ETick (SchedulingUnit o); ETask 0; ETask 0] x = Done y /\
       tasks y = [(s, Asleep (now y + ANSC_TSO_DEF_SCHEDULING_UNIT))] /\ fired y = fired x) /\
  (forall x wake, wd x = w -> tasks x = [(s, Asleep wake)] -> TdoQueue o = [] -> wake <= now x ->
     exists y, run [ESchedStop s; ESchedStart s true; ETask 1; ETask 0; ETask 0] x = Done y /\
       tasks y = [(s, Asleep (now x + SchedulingUnit o)); (s, Asleep (now x + SchedulingUnit o))]) /\
  (bScheduled d = true ->
     exists w', AnscTsoReset w s = Done (ANSC_STATUS_SUCCESS, w') /\ queue_of w' s = Some [] /\
       AnscTsoRegisterTimer w' s t tick0 sec sp = Done (ANSC_STATUS_SUCCESS, false, w')).
Proof.
  assert (Eo : get_tso w s = Done o) by (unfold get_tso; by rewrite Ho).
  assert (Et : get_tdo w t = Done d) by (unfold get_tdo; by rewrite Ht).
  split_and!.
  - intros Eq Hun HI H0 Hlt Hle Hb. unfold AnscTsoRegisterTimer, AnscTsoStart. rewrite Eo. cbn [mbind outcome_bind]. rewrite Hst. cbn [mbind outcome_bind].
    rewrite Et. cbn [mbind outcome_bind]. unfold AnscTdoGetState. rewrite Hun.
    unfold AnscTsoScheduleTimer. unfold get_tso, get_tdo. cbn [tsos tdos put_tdo]. rewrite Ho, lookup_insert_eq. cbn [mbind outcome_bind Interval TimeToFire AnscTdoSetTimeToFire AnscTdoSetScheduler AnscTdoSetState AnscTdoSetTimestamp AnscTdoSetStartTime].
    rewrite (proj2 (Z.ltb_lt 0 (Interval d)) HI), Eq. cbn [schedule_before]. unfold get_tdo. cbn [tdos put_tdo]. rewrite lookup_insert_ne, Hc by done.
    cbn [mbind outcome_bind]. rewrite ULONG_small by lia.
    assert (Hsb : stays_behind (Timestamp dc) (TimeToFire dc) (tick0 + Interval d) = true).
    { unfold stays_behind. rewrite (proj2 (Z.leb_le _ _) Hle). rewrite !(proj2 (Z.ltb_lt _ _)) by lia. done. }
    rewrite Hsb. cbn [mbind outcome_bind]. eexists. split; [done|]. rewrite queue_put_tso, decide_True by done. cbn. by case_goal.
  - intros [w0 n0 tk f0] q E1 E2 Eq Hfire. cbn in E1, E2. subst w0 tk. cbn [now] in *.
    cbn [run step]. unfold AnscTsoScheduleTask. cbn -[scan get_tso]. rewrite Eo. cbn -[scan get_tso]. rewrite Hst, Z.leb_refl.
    unfold scan. rewrite Eo. cbn [mbind outcome_bind TdoQueue set_cur]. rewrite Eq. cbn [head]. unfold get_tdo. rewrite Hc. cbn [mbind outcome_bind].
    rewrite bool_decide_eq_false_2 by done. unfold tick. cbn [now]. rewrite Hfire. cbn. unfold get_tso. cbn. rewrite lookup_insert_eq. cbn. rewrite Hst.
    eexists. split; [done|]. done.
  - intros [w0 n0 tk f0] wake E1 E2 Eq Hwk. cbn in E1, E2. subst w0 tk. cbn [now] in *. cbn [run step wd]. unfold AnscTsoStop. rewrite Eo. cbn [mbind outcome_bind]. rewrite Hst. cbn [negb mbind outcome_bind].
    unfold AnscTsoStart, get_tso. cbn. rewrite lookup_insert_eq. cbn. unfold AnscTsoScheduleTask. cbn. unfold get_tso. cbn.
    rewrite !lookup_insert_eq. cbn. rewrite (proj2 (Z.leb_le _ _) Hwk). unfold scan, get_tso. cbn. rewrite !lookup_insert_eq. cbn. rewrite Eq. cbn.
    rewrite !lookup_insert_eq. cbn. eexists. split; [done|]. done.
  - intros Hsch. unfold AnscTsoReset. rewrite Eo. cbn [mbind outcome_bind]. eexists. split; [done|]. split.
    + by rewrite queue_put_tso, decide_True.
    + unfold AnscTsoRegisterTimer, AnscTsoStart, get_tso, get_tdo. cbn. rewrite lookup_insert_eq. cbn. rewrite Hst. cbn. rewrite Ht. cbn.
      unfold AnscTdoGetState. by rewrite Hsch.
Qed.

End live.

(** ** Deciding the side conditions of a run *)

Section check.
Context `{Platform}.
Variable base : Z.
Implicit Types (x y : sys) (e : event).

Definition in_windowb x : bool :=
  bool_decide (map_Forall (fun _ d => now x + Interval d < base + 2 ^ ulong_bits) (tdos (wd x))).

Definition event_okb x e : bool :=
  match e with
  | ETick ms => 0 <=? ms
  | ETask _ => true
  | EStart t read _ =>
      match tdos (wd x) !! t with
      | Some d => (base <=? read) && (read <=? now x) &&
          bool_decide (map_Forall (fun _ c => bScheduled c = true -> real base (Timestamp c) <= read + Interval d) (tdos (wd x)))
      | None => false
      end
  | EStop t | ESetTimerType t _ | ESetTimerMode t _ | ESetCallCounter t _ => bool_decide (is_Some (tdos (wd x) !! t))
  | ESchedStart s _ | ESchedStop s => bool_decide (is_Some (tsos (wd x) !! s))
  | ESetInterval t v => bool_decide (is_Some (tdos (wd x) !! t)) && (0 <=? v) && (v <? 2 ^ ulong_bits)
  end.

Definition step_checked x e : option sys :=
  if in_windowb x && event_okb x e then match step x e with Done y => Some y | Stuck _ => None end else None.
Fixpoint run_checked es x : option sys :=
  match es with [] => Some x | e :: es' => y ← step_checked x e; run_checked es' y end.

Lemma in_windowb_ok x : in_windowb x = true -> in_window base x.
Proof. unfold in_windowb. intros Hb%bool_decide_eq_true t d Ed. exact (Hb t d Ed). Qed.

Lemma event_okb_ok x e : event_okb x e = true -> event_ok base x e.
Proof.
  destruct e; cbn; intros Hb; zbool; rewrite ?bool_decide_eq_true in *; try done.
  - destruct (tdos (wd x) !! t) as [d|]; [|done]. zbool. exists d. split; [done|]. split; [done|].
    intros u c Ec. match goal with Hm : bool_decide _ = true |- _ => apply bool_decide_eq_true in Hm; exact (Hm u c Ec) end.
Qed.

Lemma step_checked_ok x e y :
  step_checked x e = Some y -> in_window base x /\ event_ok base x e /\ step x e = Done y.
Proof.
  unfold step_checked. destruct (in_windowb x && event_okb x e) eqn:E; [|done]. zbool.
  destruct (step x e); [|done]. intros [= <-]. split_and!; [by apply in_windowb_ok|by apply event_okb_ok|done].
Qed.

Lemma run_checked_reachable es x y : reachable base x -> run_checked es x = Some y -> reachable base y.
Proof.
  revert x. induction es as [|e es IH]; intros x Hx; cbn; [by intros [= <-]|].
  destruct (step_checked x e) as [x1|] eqn:E; [|done]. cbn. apply step_checked_ok in E as (? & ? & ?).
  apply IH. by eapply reach_step.
Qed.

Definition fairb x (s z : loc) (v : Z) e : bool :=
  in_windowb x && event_okb x e && bool_decide (map_Forall (fun _ d => 0 < Interval d) (tdos (wd x))) &&
  match tsos (wd x) !! s with Some o => bStarted o | None => false end &&
  match e with EStop t => negb (bool_decide (t = z)) | EStart _ r _ => v <=? r | _ => true end.

(** A run of fair events, with the number of effective steps of the task. *)
Fixpoint fair_checked (i : nat) (s z : loc) (v : Z) es x : option (nat * sys) :=
  match es with
  | [] => Some (0%nat, x)
  | e :: es' =>
      if fairb x s z v e then
        match step x e with
        | Done y => r ← fair_checked i s z v es' y; Some (((if effective x i e then 1 else 0) + r.1)%nat, r.2)
        | Stuck _ => None
        end
      else None
  end.

Lemma fairb_ok x s z v e : fairb x s z v e = true -> fair base x s z v e.
Proof.
  unfold fairb. intros Hb. zbool. split_and!.
  - by apply in_windowb_ok.
  - by apply event_okb_ok.
  - intros t d Ed. match goal with Hm : bool_decide (map_Forall _ _) = true |- _ => apply bool_decide_eq_true in Hm; exact (Hm t d Ed) end.
  - unfold running. destruct (tsos (wd x) !! s) as [o|]; [|done]. by exists o.
  - intros ->. rewrite bool_decide_eq_true_2 in * by done. done.
  - intros t r sp ->. by zbool.
Qed.

Lemma fair_checked_run i s z v es x n y : fair_checked i s z v es x = Some (n, y) -> fair_run base i s z v x es n y.
Proof.
  revert x n. induction es as [|e es IH]; intros x n; cbn [fair_checked]; [intros [= <- <-]; constructor|].
  destruct (fairb x s z v e) eqn:Ef; [|done]. destruct (step x e) as [x1|] eqn:Es; [|done].
  destruct (fair_checked i s z v es x1) as [[n1 y1]|] eqn:E; [|done]. cbn. intros [= <- <-].
  econstructor; [by apply fairb_ok|exact Es|by apply IH].
Qed.
End check.

(** ** Examples

    A 32-bit platform, ten milliseconds before its tick counter wraps: a
    scheduler 1, a periodic timer 10 with an interval of 50 milliseconds and a
    sporadic timer 11 with one of 30. *)

#[local] Existing Instance ilp32.
Definition wrap : Z := 4294967296.
Definition demo_tdo (ty iv : Z) : tdo := Tdo None (Some 1%positive) None 0 0 ty 0 iv 0 0 false.
Definition demo_world : world :=
  World {[ 1%positive := AnscTsoInitialize ]}
    (<[10%positive := demo_tdo ANSC_TIMER_TYPE_PERIODIC 50]> {[ 11%positive := demo_tdo ANSC_TIMER_TYPE_SPORADIC 30 ]}).
Definition demo0 : sys := Sys demo_world (wrap - 10) [] [].

Lemma demo0_reachable : reachable (wrap - 10) demo0.
Proof.
  constructor. split_and!; [cbn; lia|done|done| |].
  - intros t d E. cbn in E. apply lookup_insert_Some in E as [[<- <-]|[_ E]]; [|apply lookup_singleton_Some in E as [<- <-]].
    all: repeat split; try (vm_compute; congruence); intros ? [= <-]; cbn; eexists; reflexivity.
  - intros s o E. cbn in E. apply lookup_singleton_Some in E as [<- <-]. split; [done|]. by vm_compute.
Qed.

(** Both timers are started; the task goes to sleep; 40 milliseconds pass. *)
Definition demo_events : list event :=
  [EStart 10%positive (wrap - 10) true; EStart 11%positive (wrap - 10) true; ETask 0; ETick 40].
Definition demo1 : sys := default demo0 (run_checked (wrap - 10) demo_events demo0).

Lemma demo1_reachable : reachable (wrap - 10) demo1.
Proof. apply (run_checked_reachable _ demo_events demo0); [apply demo0_reachable|by vm_compute]. Qed.

(** Timer 11 is due, timer 10 is not. *)
Example demo1_queue : queue_of (wd demo1) 1%positive = Some [11%positive; 10%positive] /\ tasks demo1 = [(1%positive, Asleep wrap)].
Proof. by vm_compute. Qed.


Lemma timer_fires_in_order_witness :
  exists y, step demo1 (ETask 0) = Done y /\ fired y = [11%positive] /\ fires_at (wrap - 10) (tdos (wd demo1)) 11%positive = wrap + 20.
Proof.
  destruct (timer_fires_in_order (wrap - 10) demo1 0 1%positive (Asleep wrap) None [11%positive; 10%positive] demo1_reachable)
    as (y & E & _); [apply in_windowb_ok; by vm_compute|by vm_compute|by vm_compute| |].
  - left. exists wrap. split; [done|]. split; [by vm_compute|done].
  - exists y. split; [exact E|]. vm_compute in E. injection E as <-. by vm_compute.
Defined.

Definition demo_run : list event := [ETask 0; ESetInterval 11%positive 70; ETask 0; EStart 11%positive (wrap + 30) true; ETask 0; ETask 0].
Definition demo2 : sys := snd (default (0%nat, demo0) (fair_checked (wrap - 10) 0 1%positive 11%positive (wrap + 20) demo_run demo1)).

Lemma timer_liveness_witness : exists l, fired demo2 = l ++ fired demo1 /\ 11%positive ∈ l.
Proof.
  apply (timer_liveness (wrap - 10) demo1 demo_run 4 demo2 0 1%positive (Asleep wrap) 11%positive (wrap + 20) 0 demo1_reachable).
  - by vm_compute.
  - discriminate.
  - exists [], [10%positive]. split_and!; [by vm_compute|done| |by vm_compute].
    repeat constructor; by vm_compute.
  - by vm_compute.
  - apply fair_checked_run. by vm_compute.
  - done.
Defined.

(** Timer 10 with an empty interval in front of timer 11. *)
Definition hog_world : world :=
  World {[ 1%positive := Tso 10 None true [10%positive; 11%positive] ]}
    (<[10%positive := Tdo None (Some 1%positive) None 0 5 ANSC_TIMER_TYPE_PERIODIC 0 0 5 0 true]>
       {[ 11%positive := Tdo None (Some 1%positive) None 0 5 ANSC_TIMER_TYPE_SPORADIC 0 30 35 0 true ]}).

Lemma zero_interval_starves_witness :
  exists y n, run [ETask 0; ETask 0; ETask 0; ETick 1000; ETask 0; ETask 0] (Sys hog_world 100 [(1%positive, Asleep 7)] []) = Done y /\
    fired y = replicate n 10%positive ++ [] /\ queue_of (wd y) 1%positive = Some [10%positive; 11%positive].
Proof.
  apply (zero_interval_starves (Sys hog_world 100 [(1%positive, Asleep 7)] []) _ 0 1%positive 10%positive [11%positive]).
  - split_and!; [by eexists|eexists; by split_and!|]. by exists (Asleep 7).
  - set_solver.
  - repeat (constructor; [first [by left | right; by eexists]|]). constructor.
Defined.

Definition late_world : world :=
  World {[ 1%positive := Tso 10 None true [11%positive] ]}
    (<[10%positive := demo_tdo ANSC_TIMER_TYPE_PERIODIC 5]>
       {[ 11%positive := Tdo None (Some 1%positive) None 0 500 ANSC_TIMER_TYPE_PERIODIC 0 300 800 0 true ]}).

Lemma timer_faults_witness :
  exists w', AnscTsoRegisterTimer late_world 1%positive 10%positive 490 0 true = Done (ANSC_STATUS_SUCCESS, false, w') /\
    queue_of w' 1%positive = Some [11%positive; 10%positive].
Proof.
  destruct (timer_faults late_world 1%positive (Tso 10 None true [11%positive]) 10%positive (demo_tdo ANSC_TIMER_TYPE_PERIODIC 5) 11%positive
    (Tdo None (Some 1%positive) None 0 500 ANSC_TIMER_TYPE_PERIODIC 0 300 800 0 true) 490 0 true) as [E _]; [reflexivity|reflexivity|reflexivity|discriminate|reflexivity|].
  apply E; by vm_compute.
Defined.
