(* ===== verification/PlatTimer.v ===== *)
(** * The platform timers ([ansc_timer.c])

    An older scheduler with global state, next to [Timer]: its task runs only
    while the queue is not empty, a registration creates a task when it counts
    none, and a descriptor is inserted by a slightly different test.  The steps
    of tasks and owners are cut where the lock of the queue is not held; the
    count of tasks is read and changed without that lock. *)

From S2P Require Import Prelude Links Timer.
Open Scope Z_scope.

Definition ANSC_DEF_SCHEDULING_UNIT : Z := 1000.
Definition ANSC_MIN_SCHEDULING_UNIT : Z := 10.

Record ANSC_TIMER_DESCRIPTOR := TimerDescriptor {
  dStartTime : Z;
  dTimestamp : Z;
  dTimerType : Z;
  dInterval : Z;
  dTimeToFire : Z;
  dScheduled : bool
}.
Abbreviation timer := ANSC_TIMER_DESCRIPTOR.

(** The global variables, and the descriptors by their handles. *)
Record globals := Globals {
  g_bSchedulerInitialized : bool;
  g_bScheduleTaskCount : Z;
  g_SchedulingUnit : Z;
  g_hCurInvokedTimer : option loc;
  g_TimerQueue : list loc;
  timers : gmap loc timer
}.
Implicit Types (g : globals) (d : timer) (t : loc).

Definition g_put_count g v := Globals (g_bSchedulerInitialized g) v (g_SchedulingUnit g) (g_hCurInvokedTimer g) (g_TimerQueue g) (timers g).
Definition g_put_unit g v := Globals (g_bSchedulerInitialized g) (g_bScheduleTaskCount g) v (g_hCurInvokedTimer g) (g_TimerQueue g) (timers g).
Definition g_put_cur g v := Globals (g_bSchedulerInitialized g) (g_bScheduleTaskCount g) (g_SchedulingUnit g) v (g_TimerQueue g) (timers g).
Definition g_put_queue g v := Globals (g_bSchedulerInitialized g) (g_bScheduleTaskCount g) (g_SchedulingUnit g) (g_hCurInvokedTimer g) v (timers g).
Definition g_put_timer g t d := Globals (g_bSchedulerInitialized g) (g_bScheduleTaskCount g) (g_SchedulingUnit g) (g_hCurInvokedTimer g) (g_TimerQueue g) (<[t := d]> (timers g)).
Definition get_timer g t : outcome timer := match timers g !! t with Some d => Done d | None => Stuck BadAccess end.

Definition set_times d (start ts ttf : Z) (b : bool) : timer := TimerDescriptor start ts (dTimerType d) (dInterval d) ttf b.

Definition AnscSchedulerInitialize g : globals :=
  Globals true (g_bScheduleTaskCount g) (g_SchedulingUnit g) (g_hCurInvokedTimer g) [] (timers g).

(** Whether the timer that fires at [x] stays behind one with these times. *)
Definition stays_behind_strict (ts ttf x : Z) : bool :=
  if ts <? ttf then
    if (x <? ts) && (x <? ttf) then true
    else if (ts <=? x) && (ttf <=? x) then true
    else false
  else if (x <? ts) && (ttf <=? x) then true
  else false.

Section platform_timers.
Context `{Platform}.

Fixpoint queue_before g (ttf : Z) (q : list loc) : outcome (option loc) :=
  match q with
  | [] => Done None
  | c :: q' =>
      d ← get_timer g c;
      if stays_behind_strict (dTimestamp d) (dTimeToFire d) ttf then queue_before g ttf q' else Done (Some c)
  end.

Definition AnscScheduleTimer g t : outcome globals :=
  d ← get_timer g t;
  c ← queue_before g (dTimeToFire d) (g_TimerQueue g);
  let q := match c with
           | Some c => linsert_before c t (g_TimerQueue g)
           | None => g_TimerQueue g ++ [t]
           end in
  let g := g_put_queue g q in
  let ulTimeSlice := dInterval d / 5 in
  Done (if ulTimeSlice <? g_SchedulingUnit g
        then g_put_unit g (if ulTimeSlice <? ANSC_MIN_SCHEDULING_UNIT then ANSC_MIN_SCHEDULING_UNIT else ulTimeSlice)
        else g).

(** [AnscRegisterTimer] up to the release of the lock; [true] when it goes on to
    the test of the task count. *)
Definition AnscRegisterTimer_enqueue g t (tick sec : Z) : outcome (bool * globals) :=
  let g := if g_bSchedulerInitialized g then g else AnscSchedulerInitialize g in
  d ← get_timer g t;
  if dScheduled d then Done (false, g)
  else
    g ← AnscScheduleTimer (g_put_timer g t (set_times d sec tick (ULONG (tick + dInterval d)) true)) t;
    Done (true, g).

(** The rest: whether a task is created. *)
Definition AnscRegisterTimer_task g : bool := g_bScheduleTaskCount g =? 0.

Definition AnscCancelTimer g t : outcome globals :=
  d ← get_timer g t;
  if negb (dScheduled d) then Done g
  else
    let g := g_put_queue g (lremove t (g_TimerQueue g)) in
    Done (g_put_timer g t (set_times d (dStartTime d) (dTimestamp d) (dTimeToFire d) false)).

(** *** The task

    Created but not yet running; before the test of the queue's depth; asleep;
    with a timer fired and the lock released; past the loop, before the count is
    decremented; returned. *)
Inductive schedule_task := Created | AtTest | Sleeping (wake : Z) | Invoking t | Leaving | Gone.

(** One round of the inner loop: the fired timer, or None when it is left. *)
Definition scan_queue g (pFreshTimer : option loc) (ulCurTickInMs : Z) : outcome (globals * option loc) :=
  let g := g_put_cur g None in
  match head (g_TimerQueue g) with
  | None => Done (g, None)
  | Some t =>
      d ← get_timer g t;
      if bool_decide (pFreshTimer = Some t) then Done (g, None)
      else if negb (bFireTimer (dTimestamp d) (dTimeToFire d) ulCurTickInMs) then Done (g, None)
      else
        let g := g_put_queue g (lremove t (g_TimerQueue g)) in
        g ← (if dTimerType d =? ANSC_TIMER_TYPE_PERIODIC then
               AnscScheduleTimer (g_put_timer g t (set_times d (dStartTime d) ulCurTickInMs (ULONG (ulCurTickInMs + dInterval d)) true)) t
             else Done (g_put_timer g t (set_times d (dStartTime d) (dTimestamp d) (dTimeToFire d) false)));
        Done (g_put_cur g (Some t), Some t)
  end.

(** A step of a task at a time; the fired timer, if any. *)
Definition AnscTimerScheduleTask g (p : schedule_task) (now : Z) : outcome (globals * schedule_task * option loc) :=
  let scanned (r : globals * option loc) := match r with (g, Some t) => (g, Invoking t, Some t) | (g, None) => (g, AtTest, None) end in
  match p with
  | Created => Done (g_put_count g (ULONG (g_bScheduleTaskCount g + 1)), AtTest, None)
  | AtTest => Done (g, if 0 <? Zlen (g_TimerQueue g) then Sleeping (now + g_SchedulingUnit g) else Leaving, None)
  | Sleeping wake => if wake <=? now then r ← scan_queue g None (ULONG now); Done (scanned r) else Done (g, p, None)
  | Invoking t => r ← scan_queue g (Some t) (ULONG now); Done (scanned r)
  | Leaving => Done (g_put_count g (ULONG (g_bScheduleTaskCount g - 1)), Gone, None)
  | Gone => Done (g, Gone, None)
  end.

(** *** Interleavings *)

Record plat := Plat { gl : globals; clock : Z; threads : list schedule_task; registering : nat; history : list loc }.

Inductive plat_event :=
  | PTick (ms : Z)
  | PTask (i : nat)
  | PEnqueue (t : loc)       (* AnscRegisterTimer, to the release of the lock *)
  | PCount                   (* one of the pending registrations reads the task count *)
  | PCancel (t : loc).

Definition plat_step (x : plat) (e : plat_event) : outcome plat :=
  match e with
  | PTick ms => Done (Plat (gl x) (clock x + ms) (threads x) (registering x) (history x))
  | PTask i =>
      match threads x !! i with
      | None => Done x
      | Some p =>
          r ← AnscTimerScheduleTask (gl x) p (clock x);
          let '(g, p, f) := r in
          Done (Plat g (clock x) (<[i := p]> (threads x)) (registering x) (match f with Some t => t :: history x | None => history x end))
      end
  | PEnqueue t =>
      r ← AnscRegisterTimer_enqueue (gl x) t (ULONG (clock x)) (ULONG (clock x / 1000));
      let '(more, g) := r in
      Done (Plat g (clock x) (threads x) (if more : bool then S (registering x) else registering x) (history x))
  | PCount =>
      match registering x with
      | O => Done x
      | S n => Done (Plat (gl x) (clock x) (if AnscRegisterTimer_task (gl x) then threads x ++ [Created] else threads x) n (history x))
      end
  | PCancel t => g ← AnscCancelTimer (gl x) t; Done (Plat g (clock x) (threads x) (registering x) (history x))
  end.

Fixpoint plat_run (es : list plat_event) (x : plat) : outcome plat :=
  match es with [] => Done x | e :: es' => y ← plat_step x e; plat_run es' y end.

(** ** Against the other scheduler *)

Lemma stays_behind_agree ts ttf x : ts ≠ ttf -> stays_behind_strict ts ttf x = stays_behind ts ttf x.
Proof. intros Hne. unfold stays_behind_strict, stays_behind. destruct (Z.ltb_spec ts ttf), (Z.leb_spec ts ttf); done || lia. Qed.

(** The same descriptors, seen by the other scheduler. *)
Definition as_tdo d : tdo := Tdo None None None (dStartTime d) (dTimestamp d) (dTimerType d) 0 (dInterval d) (dTimeToFire d) 0 (dScheduled d).
Definition as_world g s : world :=
  World {[ s := Tso (g_SchedulingUnit g) (g_hCurInvokedTimer g) true (g_TimerQueue g) ]} (as_tdo <$> timers g).

Lemma queue_before_agree g s v q :
  (forall c, c ∈ q -> exists d, timers g !! c = Some d /\ dTimestamp d ≠ dTimeToFire d) ->
  queue_before g v q = schedule_before (as_world g s) v q.
Proof.
  induction q as [|c q IH]; intros Hq; [done|]. cbn [queue_before schedule_before].
  destruct (Hq c ltac:(set_solver)) as (d & Ed & Hne). unfold get_timer, get_tdo. cbn [tdos as_world]. rewrite lookup_fmap, Ed.
  cbn [fmap option_fmap option_map mbind outcome_bind]. rewrite stays_behind_agree by done.
  change (Timestamp (as_tdo d)) with (dTimestamp d). change (TimeToFire (as_tdo d)) with (dTimeToFire d).
  destruct (stays_behind _ _ v); [|done]. apply IH. intros u Hu. apply Hq. set_solver.
Qed.

(** ** Properties *)

(** On a queue without timers that fire at once, a timer with an interval is
    put where the other scheduler puts it, and the scheduling unit changes in the
    same way. *)
Theorem platform_scheduler_agrees g s t d
  (Hd : timers g !! t = Some d) (HI : 0 < dInterval d)
  (Hq : forall c, c ∈ g_TimerQueue g -> exists dc, timers g !! c = Some dc /\ dTimestamp dc ≠ dTimeToFire dc) :
  match AnscScheduleTimer g t, AnscTsoScheduleTimer (as_world g s) s t with
  | Done g', Done w' => tsos w' !! s = Some (Tso (g_SchedulingUnit g') (g_hCurInvokedTimer g') true (g_TimerQueue g')) /\ timers g' = timers g
  | _, _ => False
  end.
Proof.
  unfold AnscScheduleTimer, AnscTsoScheduleTimer, get_timer, get_tso. rewrite Hd. cbn [tsos as_world]. rewrite lookup_singleton_eq.
  cbn [mbind outcome_bind]. assert (Et : get_tdo (as_world g s) t = Done (as_tdo d)) by (unfold get_tdo; cbn; by rewrite lookup_fmap, Hd).
  rewrite Et. cbn [mbind outcome_bind TimeToFire as_tdo Interval TdoQueue]. rewrite (proj2 (Z.ltb_lt _ _) HI), (queue_before_agree g s) by done.
  destruct (schedule_before (as_world g s) (dTimeToFire d) (g_TimerQueue g)) as [c|f] eqn:E.
  - cbn [mbind outcome_bind]. cbn [tsos put_tso]. rewrite lookup_insert_eq. cbn. unfold ANSC_MIN_SCHEDULING_UNIT, ANSC_TSO_MIN_SCHEDULING_UNIT.
    by destruct (dInterval d / 5 <? g_SchedulingUnit g).
  - exfalso. clear Et Hd. revert E. induction (g_TimerQueue g) as [|c q IH]; [done|]. cbn [schedule_before].
    destruct (Hq c ltac:(set_solver)) as (dc & Ec & _). unfold get_tdo. cbn [tdos as_world]. rewrite lookup_fmap, Ec. cbn.
    destruct (stays_behind _ _ _); [|done]. apply IH. intros u Hu. apply Hq. set_solver.
Qed.

(** The lost wake-up.  The queue is empty and the only task is past its last
    test of the queue.  A timer registered before that task has decremented the
    count creates no task: from then on the queue holds the timer, no task is
    left, and as long as no other timer is registered nothing is ever fired. *)
Theorem lost_wakeup x t d es
  (Hth : threads x = [Leaving]) (Hcnt : g_bScheduleTaskCount (gl x) = 1) (Hq : g_TimerQueue (gl x) = [])
  (Hini : g_bSchedulerInitialized (gl x) = true) (Hreg : registering x = 0%nat)
  (Ht : timers (gl x) !! t = Some d) (Hs : dScheduled d = false)
  (Hes : Forall (fun e => match e with PTick _ | PTask _ | PCount => True | _ => False end) es) :
  exists y, plat_run ([PEnqueue t; PCount; PTask 0] ++ es) x = Done y /\
    g_TimerQueue (gl y) = [t] /\ threads y = [Gone] /\ history y = history x.
Proof.
  destruct x as [g n th r h]. cbn [gl threads registering clock history] in *. subst th r.
  cbn [app plat_run plat_step gl clock threads registering history]. unfold AnscRegisterTimer_enqueue. rewrite Hini. unfold get_timer at 1. rewrite Ht. cbn [mbind outcome_bind]. rewrite Hs.
  unfold AnscScheduleTimer, get_timer. cbn [timers g_put_timer]. rewrite lookup_insert_eq. cbn [mbind outcome_bind g_TimerQueue g_put_timer]. rewrite Hq.
  cbn [queue_before mbind outcome_bind app].
  set (g1 := if _ <? _ then _ else _).
  assert (Hg1 : g_TimerQueue g1 = [t] /\ g_bScheduleTaskCount g1 = 1) by (unfold g1; by case_goal).
  destruct Hg1 as [Hq1 Hc1]. cbn [snd fst gl clock threads registering history]. unfold AnscRegisterTimer_task. rewrite Hc1. cbn [Z.eqb Pos.eqb gl clock threads registering history].
  cbn.
  match goal with |- context [plat_run es ?y0] => set (y1 := y0) end.
  assert (Hy : g_TimerQueue (gl y1) = [t] /\ threads y1 = [Gone] /\ history y1 = h /\ registering y1 = 0%nat) by (by unfold y1).
  clearbody y1. clear -Hes Hy. revert y1 Hy. induction Hes as [|e es He Hes IH]; intros y1 (E1 & E2 & E3 & E4); [by exists y1|].
  cbn [plat_run]. destruct e as [ms|i|u| |u]; [| |done| |done].
  - apply (IH (Plat (gl y1) (clock y1 + ms) (threads y1) (registering y1) (history y1))). done.
  - cbn [plat_step]. rewrite E2. destruct i as [|i]; cbn; [|apply IH; done]. apply IH. done.
  - cbn [plat_step]. rewrite E4. cbn. by apply IH.
Qed.

(** Two further faults.  A second registration before the first task has begun
    to run creates a second task.  A timer with an empty interval is overtaken: a
    timer that is registered later and due later is queued in front of it. *)
Theorem platform_timer_faults g t u d e (tick sec : Z)
  (Hini : g_bSchedulerInitialized g = true) (Hcnt : g_bScheduleTaskCount g = 0)
  (Ht : timers g !! t = Some d) (Hu : timers g !! u = Some e) (Htu : t ≠ u) (Hsd : dScheduled d = false) (Hse : dScheduled e = false) :
  (forall n, g_TimerQueue g = [] -> exists y, plat_run [PEnqueue t; PCount; PEnqueue u; PCount] (Plat g n [] 0 []) = Done y /\ threads y = [Created; Created]) /\
  (g_TimerQueue g = [] -> dInterval d = 0 -> 0 <= tick < 2 ^ ulong_bits ->
     exists g1 g2, AnscRegisterTimer_enqueue g t tick sec = Done (true, g1) /\ AnscRegisterTimer_enqueue g1 u tick sec = Done (true, g2) /\
       g_TimerQueue g2 = [u; t]).
Proof.
  assert (Henq : g_TimerQueue g = [] -> forall tk sc, exists g1, AnscRegisterTimer_enqueue g t tk sc = Done (true, g1) /\
    g_TimerQueue g1 = [t] /\ g_bScheduleTaskCount g1 = 0 /\ g_bSchedulerInitialized g1 = true /\
    timers g1 = <[t := set_times d sc tk (ULONG (tk + dInterval d)) true]> (timers g)).
  { intros Eq tk sc. unfold AnscRegisterTimer_enqueue. rewrite Hini. unfold get_timer at 1. rewrite Ht. cbn [mbind outcome_bind]. rewrite Hsd.
    unfold AnscScheduleTimer, get_timer. cbn [timers g_put_timer]. rewrite lookup_insert_eq. cbn [mbind outcome_bind g_TimerQueue g_put_timer].
    rewrite Eq. cbn [queue_before mbind outcome_bind app]. eexists. split; [done|]. by case_goal. }
  assert (Henq2 : forall g1 d1 tk sc, g_bSchedulerInitialized g1 = true -> g_TimerQueue g1 = [t] -> timers g1 !! t = Some d1 -> timers g1 !! u = Some e ->
    exists g2, AnscRegisterTimer_enqueue g1 u tk sc = Done (true, g2) /\ g_bScheduleTaskCount g2 = g_bScheduleTaskCount g1 /\
      g_TimerQueue g2 = if stays_behind_strict (dTimestamp d1) (dTimeToFire d1) (ULONG (tk + dInterval e)) then [t; u] else [u; t]).
  { intros g1 d1 tk sc Hi1 Hq1 Ht1 Hu1. unfold AnscRegisterTimer_enqueue. rewrite Hi1. unfold get_timer at 1. rewrite Hu1. cbn [mbind outcome_bind]. rewrite Hse.
    unfold AnscScheduleTimer. unfold get_timer at 1. cbn [timers g_put_timer]. rewrite lookup_insert_eq. cbn [mbind outcome_bind g_TimerQueue g_put_timer].
    rewrite Hq1. cbn [queue_before]. unfold get_timer. cbn [timers g_put_timer]. rewrite lookup_insert_ne, Ht1 by congruence. cbn [mbind outcome_bind dTimeToFire set_times].
    destruct (stays_behind_strict _ _ _); cbn [mbind outcome_bind queue_before linsert_before].
    - eexists. split; [done|]. by case_goal.
    - rewrite decide_True by done. eexists. split; [done|]. by case_goal. }
  split.
  - intros n Eq. destruct (Henq Eq (ULONG n) (ULONG (n / 1000))) as (g1 & E1 & Q1 & C1 & I1 & T1).
    destruct (Henq2 g1 (set_times d (ULONG (n / 1000)) (ULONG n) (ULONG (ULONG n + dInterval d)) true) (ULONG n) (ULONG (n / 1000)) I1 Q1) as (g2 & E2 & C2 & _).
    { by rewrite T1, lookup_insert_eq. } { by rewrite T1, lookup_insert_ne. }
    cbn [plat_run plat_step gl clock threads registering history]. rewrite E1. cbn [mbind outcome_bind gl clock threads registering history].
    unfold AnscRegisterTimer_task. rewrite C1. cbn [Z.eqb]. rewrite E2. cbn [mbind outcome_bind gl clock threads registering history]. rewrite C2, C1.
    eexists. split; [done|]. done.
  - intros Eq HI Htk. destruct (Henq Eq tick sec) as (g1 & E1 & Q1 & C1 & I1 & T1).
    destruct (Henq2 g1 (set_times d sec tick (ULONG (tick + dInterval d)) true) tick sec I1 Q1) as (g2 & E2 & C2 & Q2).
    { by rewrite T1, lookup_insert_eq. } { by rewrite T1, lookup_insert_ne. }
    exists g1, g2. split; [done|]. split; [done|]. rewrite Q2. cbn [dTimestamp dTimeToFire set_times]. rewrite HI, Z.add_0_r, (ULONG_small tick) by done.
    unfold stays_behind_strict. rewrite Z.ltb_irrefl. set (v := ULONG (tick + dInterval e)).
    destruct (Z.ltb_spec v tick), (Z.leb_spec tick v); cbn [andb]; done || lia.
Qed.

End platform_timers.

(** ** Examples *)

#[local] Existing Instance lp64.
Definition plat_timer (ty iv ts ttf : Z) (b : bool) : timer := TimerDescriptor 0 ts ty iv ttf b.
Definition plat_globals (n : Z) : globals :=
  Globals true n ANSC_DEF_SCHEDULING_UNIT None []
    (<[5%positive := plat_timer ANSC_TIMER_TYPE_SPORADIC 0 0 0 false]> {[ 6%positive := plat_timer ANSC_TIMER_TYPE_PERIODIC 700 0 0 false ]}).

Lemma platform_scheduler_agrees_witness :
  match AnscScheduleTimer (plat_globals 0) 6%positive, AnscTsoScheduleTimer (as_world (plat_globals 0) 1%positive) 1%positive 6%positive with
  | Done g', Done w' => tsos w' !! 1%positive = Some (Tso (g_SchedulingUnit g') (g_hCurInvokedTimer g') true (g_TimerQueue g')) /\
      timers g' = timers (plat_globals 0)
  | _, _ => False
  end.
Proof.
  apply (platform_scheduler_agrees (plat_globals 0) 1%positive 6%positive (plat_timer ANSC_TIMER_TYPE_PERIODIC 700 0 0 false)).
  - reflexivity.
  - cbn. lia.
  - cbn. intros c Hc. by apply elem_of_nil in Hc.
Defined.

Lemma lost_wakeup_witness :
  exists y, plat_run ([PEnqueue 6%positive; PCount; PTask 0] ++ [PTick 5000; PTask 0; PCount]) (Plat (plat_globals 1) 100 [Leaving] 0 []) = Done y /\
    g_TimerQueue (gl y) = [6%positive] /\ threads y = [Gone] /\ history y = [].
Proof.
  apply (lost_wakeup (Plat (plat_globals 1) 100 [Leaving] 0 []) 6%positive (plat_timer ANSC_TIMER_TYPE_PERIODIC 700 0 0 false)); try reflexivity.
  repeat constructor.
Defined.

Lemma platform_timer_faults_witness :
  exists y, plat_run [PEnqueue 5%positive; PCount; PEnqueue 6%positive; PCount] (Plat (plat_globals 0) 100 [] 0 []) = Done y /\ threads y = [Created; Created].
Proof.
  destruct (platform_timer_faults (plat_globals 0) 5%positive 6%positive (plat_timer ANSC_TIMER_TYPE_SPORADIC 0 0 0 false)
    (plat_timer ANSC_TIMER_TYPE_PERIODIC 700 0 0 false) 100 0) as [E _]; try reflexivity; [discriminate|].
  apply E. reflexivity.
Defined.
