(* ===== verification/Asn1.v ===== *)
(** * The basic values of ASN.1 ([ansc_asn1.c])

    Octet strings, object identifiers and integers: allocating, copying,
    comparing and releasing them, and the operations on arrays of object
    identifiers, which are searched and sorted by the comparison.  Comparison is
    shown to decide the lexicographic order, sorting to sort by it, and the
    dotted notation to be read back. *)

From S2P Require Import Prelude CStrings.
From Stdlib Require Import Sorted.
Open Scope Z_scope.

(** ** Data

    A value points to a block of memory; [None] is NULL. *)

Record ANSC_ASN1_OCTET_STRING := OctetString {
  os_ArraySize : Z; os_Length : Z; os_Octets : option (list Z) }.
Record ANSC_ASN1_OID := Oid {
  oid_ArraySize : Z; oid_Length : Z; oid_Identifiers : option (list Z) }.
Record ANSC_ASN1_INT := Asn1Int {
  bNegative : Z; int_ArraySize : Z; int_Length : Z; int_Octets : option (list Z) }.

(** [p[i]] and [p[i] = v]. *)
Definition item (p : option (list Z)) (i : Z) : outcome Z :=
  match p with None => Stuck NullDeref | Some b => buf_get b i end.
Definition set_item (p : option (list Z)) (i v : Z) : outcome (option (list Z)) :=
  match p with None => Stuck NullDeref | Some b => Some <$> buf_put b i v end.

(** [AnscCopyMemory] of [n] items to the front of [dst]. *)
Definition copy_items (dst : option (list Z)) (src : list Z) (n : Z) : outcome (option (list Z)) :=
  match dst with
  | None => Stuck NullDeref
  | Some b => if n <=? Zlen src then Some <$> buf_copy b 0 (take (Z.to_nat n) src) else Stuck OutOfBounds
  end.

(** The macro is [(a > b)? b : a]. *)
Definition AnscGetMin2 (a b : Z) : Z := if b <? a then b else a.

(** The loops that compare item by item up to [n] and return at the first
    difference; [None] when they run to their end. *)
Fixpoint compare_items (gt lt : Z) (p q : option (list Z)) (i : Z) (n : nat) : outcome (option Z) :=
  match n with
  | O => Done None
  | S n =>
      x ← item p i;
      y ← item q i;
      if x =? y then compare_items gt lt p q (i + 1) n
      else if y <? x then Done (Some gt) else Done (Some lt)
  end.
Definition compare_lengths (gt lt n m : Z) : Z := if n =? m then 0 else if m <? n then gt else lt.

Section asn1.
Context `{Platform}.
Implicit Types (a : alloc_stream).

Definition sizeof_ULONG : Z := ulong_bits / 8.

(** ** Octet strings

    [AnscAllocateMemory] clears the memory it yields. *)

Definition AnscAsn1AllocOctetString (pSrcString : option (list Z)) (ulStrLen : Z) a
  : outcome (option ANSC_ASN1_OCTET_STRING * alloc_stream) :=
  let ulNewArraySize := ulStrLen in
  let '(ok, a) := next_alloc a in
  if negb ok then Done (None, a)
  else
    let '(ok, a) := next_alloc a in
    if negb ok then Done (None, a)
    else
      let Octets := Some (replicate (Z.to_nat (ULONG (ulNewArraySize + 1))) 0) in
      Octets ← match pSrcString with
               | Some src => if 0 <? ulNewArraySize then copy_items Octets src ulNewArraySize else Done Octets
               | None => Done Octets
               end;
      Done (Some (OctetString ulNewArraySize ulStrLen Octets), a).

Definition AnscAsn1CloneOctetString (hSrcAsn1OctetString : option ANSC_ASN1_OCTET_STRING) a :=
  match hSrcAsn1OctetString with
  | Some src => AnscAsn1AllocOctetString (os_Octets src) (os_Length src) a
  | None => Done (None, a)
  end.

Definition AnscAsn1CompOctetStrings (s1 s2 : ANSC_ASN1_OCTET_STRING) : outcome Z :=
  let ulMinStrLength := AnscGetMin2 (os_Length s1) (os_Length s2) in
  r ← compare_items 1 (-1) (os_Octets s1) (os_Octets s2) 0 (Z.to_nat ulMinStrLength);
  Done (default (compare_lengths 1 (-1) (os_Length s1) (os_Length s2)) r).

Definition AnscAsn1CleanOctetString (tbc_octet_string : ANSC_ASN1_OCTET_STRING) : ANSC_ASN1_OCTET_STRING :=
  OctetString 0 0 None.

(** ** Object identifiers *)

Definition AnscAsn1AllocOid (pSrcSequence : option (list Z)) (ulSeqLen : Z) a
  : outcome (option ANSC_ASN1_OID * alloc_stream) :=
  let ulNewArraySize := ULONG (ulSeqLen * sizeof_ULONG) in
  let '(ok, a) := next_alloc a in
  if negb ok then Done (None, a)
  else
    let '(Identifiers, a) :=
      if 0 <? ulNewArraySize then
        let '(ok, a) := next_alloc a in
        (if ok then Some (replicate (Z.to_nat (ulNewArraySize / sizeof_ULONG)) 0) else None, a)
      else (None, a) in
    if bool_decide (Identifiers = None) && (0 <? ulNewArraySize) then Done (None, a)
    else
      Identifiers ← match pSrcSequence with
                    | Some src => if 0 <? ulNewArraySize
                                  then copy_items Identifiers src (ulNewArraySize / sizeof_ULONG)
                                  else Done Identifiers
                    | None => Done Identifiers
                    end;
      Done (Some (Oid ulNewArraySize ulSeqLen Identifiers), a).

(** The [while] loop: the characters up to a dot, sixteen at most, into
    [digitString]. *)
Fixpoint copy_digits (pSubOidString : cstr) (j : Z) (digitString : list Z) (n : nat)
  : outcome (list Z * cstr) :=
  match n with
  | O => Done (digitString, pSubOidString)
  | S n =>
      if (deref pSubOidString =? 46) || (deref pSubOidString =? 0) then Done (digitString, pSubOidString)
      else
        digitString ← buf_put digitString j (deref pSubOidString);
        copy_digits (tail pSubOidString) (j + 1) digitString n
  end.

(** The loop over the identifiers from [i] on, [n] of them left. *)
Fixpoint conv_identifiers (pSubOidString : cstr) (ids : option (list Z)) (count i : Z) (n : nat)
  : outcome (option (list Z)) :=
  match n with
  | O => Done ids
  | S n =>
      r ← copy_digits pSubOidString 0 (replicate 16 0) 16;
      let '(digitString, pSubOidString) := r in
      s ← match buf_cstr digitString with Some s => Done s | None => Stuck OutOfBounds end;
      v ← AnscGetStringUlong s;
      ids ← set_item ids i v;
      if deref pSubOidString =? 46 then conv_identifiers (tail pSubOidString) ids count (i + 1) n
      else if negb (i =? count - 1) then Done ids
      else conv_identifiers pSubOidString ids count (i + 1) n
  end.

Definition count_dots (s : cstr) : Z := Zlen (filter (fun c => c = 46) s).

Definition AnscAsn1ConvOid (pOidString : cstr) a : outcome (option ANSC_ASN1_OID * alloc_stream) :=
  let ulStringSize := strlen pOidString in
  if ulStringSize =? 0 then AnscAsn1AllocOid None 0 a
  else
    last ← buf_get pOidString (ulStringSize - 1);
    if (deref pOidString =? 46) || (last =? 46) then Done (None, a)
    else
      let ulIdentifierCount := ULONG (count_dots pOidString + 1) in
      r ← AnscAsn1AllocOid None ulIdentifierCount a;
      match r with
      | (None, a) => Done (None, a)
      | (Some oid, a) =>
          ids ← conv_identifiers pOidString (oid_Identifiers oid) ulIdentifierCount 0 (Z.to_nat ulIdentifierCount);
          Done (Some (Oid (oid_ArraySize oid) (oid_Length oid) ids), a)
      end.

Definition AnscAsn1CloneOid (hSrcAsn1Oid : option ANSC_ASN1_OID) a :=
  match hSrcAsn1Oid with
  | Some src => AnscAsn1AllocOid (oid_Identifiers src) (oid_Length src) a
  | None => Done (None, a)
  end.

(** The loop that runs to the first difference: is there none? *)
Fixpoint same_items (p q : option (list Z)) (i : Z) (n : nat) : outcome bool :=
  match n with
  | O => Done true
  | S n =>
      x ← item p i;
      y ← item q i;
      if negb (x =? y) then Done false else same_items p q (i + 1) n
  end.

Definition AnscAsn1ConcOids (o1 o2 : ANSC_ASN1_OID) : outcome bool :=
  let ulMinSeqLength := AnscGetMin2 (oid_Length o1) (oid_Length o2) in
  if oid_Length o1 <? oid_Length o2 then Done false
  else same_items (oid_Identifiers o1) (oid_Identifiers o2) 0 (Z.to_nat ulMinSeqLength).

Definition AnscAsn1CompOids (o1 o2 : ANSC_ASN1_OID) : outcome Z :=
  let ulMinSeqLength := AnscGetMin2 (oid_Length o1) (oid_Length o2) in
  r ← compare_items 1 (-1) (oid_Identifiers o1) (oid_Identifiers o2) 0 (Z.to_nat ulMinSeqLength);
  Done (default (compare_lengths 1 (-1) (oid_Length o1) (oid_Length o2)) r).

Definition AnscAsn1CombOids (o1 o2 : ANSC_ASN1_OID) a : outcome (option ANSC_ASN1_OID * alloc_stream) :=
  let ulNewSeqLength := ULONG (oid_Length o1 + oid_Length o2) in
  r ← AnscAsn1AllocOid None ulNewSeqLength a;
  match r with
  | (None, a) => Done (None, a)
  | (Some oN, a) =>
      ids ← for_from 0 (Z.to_nat (oid_Length o1)) (fun i ids =>
              x ← item (oid_Identifiers o1) i; set_item ids i x) (oid_Identifiers oN);
      ids ← for_from 0 (Z.to_nat (oid_Length o2)) (fun i ids =>
              x ← item (oid_Identifiers o2) i; set_item ids (ULONG (i + oid_Length o1)) x) ids;
      Done (Some (Oid (oid_ArraySize oN) (oid_Length oN) ids), a)
  end.

Definition AnscAsn1CleanOid (tbc_oid : ANSC_ASN1_OID) : ANSC_ASN1_OID := Oid 0 0 None.

(** ** Arrays of object identifiers

    An array holds pointers; 0 is NULL, the others are names of objects in the
    heap [st]. *)
Implicit Types (st : gmap Z ANSC_ASN1_OID).

Definition oid_at st (p : Z) : outcome ANSC_ASN1_OID :=
  if p =? 0 then Stuck NullDeref
  else match st !! p with Some o => Done o | None => Stuck BadAccess end.
Definition comp_at st (p q : Z) : outcome Z :=
  o1 ← oid_at st p; o2 ← oid_at st q; AnscAsn1CompOids o1 o2.

(** The loops that compare [p] with the elements of an array until [stop]
    holds of the result: where they stop, with the last result. *)
Fixpoint scan_array (stop : Z -> bool) st (p : Z) (arr : list Z) (i : Z) (n : nat) (last : Z)
  : outcome (Z * Z) :=
  match n with
  | O => Done (i, last)
  | S n =>
      q ← buf_get arr i;
      c ← comp_at st p q;
      if stop c then Done (i, c) else scan_array stop st p arr (i + 1) n c
  end.

Definition AnscAsn1FindOidInArray st (asn1_oid : Z) (asn1_oid_array : list Z) (array_size : Z) : outcome Z :=
  r ← scan_array (fun c => c =? 0) st asn1_oid asn1_oid_array 0 (Z.to_nat array_size) 0;
  let '(i, _) := r in
  Done (if array_size <=? i then -1 else INT i).

(** Yields the result and [*oid_index]. *)
Definition AnscAsn1MarkOidInArray st (asn1_oid : Z) (asn1_oid_array : list Z) (array_size : Z)
  : outcome (bool * Z) :=
  r ← scan_array (fun comp_result => comp_result <=? 0) st asn1_oid asn1_oid_array 0 (Z.to_nat array_size) 0;
  let '(i, comp_result) := r in
  let oid_matched := comp_result =? 0 in
  let oid_matched := if array_size <=? i then false else oid_matched in
  Done (oid_matched, i).

(** [for ( k = temp_size; k > j; k-- )], [n] rounds. *)
Fixpoint shift_array (temp_oid_array : list Z) (k : Z) (n : nat) : outcome (list Z) :=
  match n with
  | O => Done temp_oid_array
  | S n =>
      x ← buf_get temp_oid_array (k - 1);
      temp_oid_array ← buf_put temp_oid_array k x;
      shift_array temp_oid_array (k - 1) n
  end.

(** One round of the outer loop. *)
Definition sort_insert st (temp_oid : Z) '((temp_oid_array, temp_size) : list Z * Z) : outcome (list Z * Z) :=
  r ← scan_array (fun c => c <=? 0) st temp_oid temp_oid_array 0 (Z.to_nat temp_size) 0;
  let '(j, _) := r in
  if temp_size <=? j then
    temp_oid_array ← buf_put temp_oid_array temp_size temp_oid;
    Done (temp_oid_array, ULONG (temp_size + 1))
  else
    temp_oid_array ← shift_array temp_oid_array temp_size (Z.to_nat (temp_size - j));
    temp_oid_array ← buf_put temp_oid_array j temp_oid;
    Done (temp_oid_array, ULONG (temp_size + 1)).

(** Pointers have the size of [ULONG]. *)
Definition AnscAsn1SortOidArray st (asn1_oid_array : list Z) (array_size : Z) a
  : outcome (ANSC_STATUS * list Z * alloc_stream) :=
  let '(ok, a) := next_alloc a in
  if negb ok then Done (ANSC_STATUS_RESOURCES, asn1_oid_array, a)
  else
    let temp_oid_array := replicate (Z.to_nat (ULONG (sizeof_ULONG * array_size) / sizeof_ULONG)) 0 in
    r ← for_from 0 (Z.to_nat array_size) (fun i s =>
          temp_oid ← buf_get asn1_oid_array i; sort_insert st temp_oid s) (temp_oid_array, 0);
    let '(temp_oid_array, _) := r in
    asn1_oid_array ← for_from 0 (Z.to_nat array_size) (fun i arr =>
          x ← buf_get temp_oid_array i; buf_put arr i x) asn1_oid_array;
    Done (ANSC_STATUS_SUCCESS, asn1_oid_array, a).

(** The macro reads the object to clean it, then frees it. *)
Definition AnscAsn1FreeOid st (tbf_oid : Z) : outcome (gmap Z ANSC_ASN1_OID) :=
  if tbf_oid =? 0 then Done st
  else o ← oid_at st tbf_oid; Done (delete tbf_oid (<[tbf_oid := AnscAsn1CleanOid o]> st)).

Definition AnscAsn1FreeOidArray st (asn1_oid_array : list Z) (array_size : Z)
  : outcome (gmap Z ANSC_ASN1_OID * list Z) :=
  for_from 0 (Z.to_nat array_size) (fun i '(st, arr) =>
    p ← buf_get arr i;
    if negb (p =? 0) then
      st ← AnscAsn1FreeOid st p;
      arr ← buf_put arr i 0;
      Done (st, arr)
    else Done (st, arr)) (st, asn1_oid_array).

(** ** Integers *)

Definition AnscAsn1AllocInt (pSrcString : option (list Z)) (ulStrLen neg : Z) a
  : outcome (option ANSC_ASN1_INT * alloc_stream) :=
  let ulNewArraySize := ulStrLen in
  let '(ok, a) := next_alloc a in
  if negb ok then Done (None, a)
  else
    let '(Octets, a) :=
      if 0 <? ulNewArraySize then
        let '(ok, a) := next_alloc a in
        (if ok then Some (replicate (Z.to_nat ulNewArraySize) 0) else None, a)
      else (None, a) in
    if bool_decide (Octets = None) && (0 <? ulNewArraySize) then Done (None, a)
    else
      Octets ← match pSrcString with
               | Some src => if 0 <? ulNewArraySize then copy_items Octets src ulNewArraySize else Done Octets
               | None => Done Octets
               end;
      Done (Some (Asn1Int neg ulNewArraySize ulStrLen Octets), a).

Definition AnscAsn1CloneInt (hSrcAsn1Int : option ANSC_ASN1_INT) a :=
  match hSrcAsn1Int with
  | Some src => AnscAsn1AllocInt (int_Octets src) (int_Length src) (bNegative src) a
  | None => Done (None, a)
  end.

Definition AnscAsn1CompInts (i1 i2 : ANSC_ASN1_INT) : outcome Z :=
  let ulMinStrLength := AnscGetMin2 (int_Length i1) (int_Length i2) in
  if negb (bNegative i1 =? bNegative i2) then Done (if negb (bNegative i1 =? 0) then -1 else 1)
  else
    let gt := if negb (bNegative i1 =? 0) then -1 else 1 in
    let lt := if negb (bNegative i1 =? 0) then 1 else -1 in
    r ← compare_items gt lt (int_Octets i1) (int_Octets i2) 0 (Z.to_nat ulMinStrLength);
    Done (default (compare_lengths gt lt (int_Length i1) (int_Length i2)) r).

Definition AnscAsn1CleanInt (tbc_int : ANSC_ASN1_INT) : ANSC_ASN1_INT := Asn1Int 0 0 0 None.

End asn1.

(** ** What the objects stand for *)

(** The block starts with the items of a list. *)
Definition holds (p : option (list Z)) (l : list Z) : Prop :=
  match p with Some b => take (length l) b = l | None => l = [] end.
Definition oid_is `{Platform} (o : ANSC_ASN1_OID) (l : list Z) : Prop :=
  oid_Length o = Zlen l /\ holds (oid_Identifiers o) l /\ Zlen l * sizeof_ULONG < 2 ^ ulong_bits.
Definition octets_are `{Platform} (s : ANSC_ASN1_OCTET_STRING) (l : list Z) : Prop :=
  os_Length s = Zlen l /\ holds (os_Octets s) l /\ Zlen l + 1 < 2 ^ ulong_bits.
Definition int_is `{Platform} (v : ANSC_ASN1_INT) (neg : Z) (l : list Z) : Prop :=
  bNegative v = neg /\ int_Length v = Zlen l /\ holds (int_Octets v) l /\ Zlen l < 2 ^ ulong_bits.

(** The order of the comparisons: lexicographic, a prefix before its
    extensions. *)
Definition lex : list Z -> list Z -> comparison := list_compare Z.compare.
Definition sign (c : comparison) : Z := match c with Eq => 0 | Lt => -1 | Gt => 1 end.
Definition lex_le (l1 l2 : list Z) : Prop := lex l1 l2 ≠ Gt.

#[export] Instance lex_le_dec l1 l2 : Decision (lex_le l1 l2).
Proof. unfold lex_le. solve_decision. Defined.

Lemma lex_eq l1 l2 : lex l1 l2 = Eq <-> l1 = l2.
Proof. apply list_compare_refl. intros. apply Z.compare_eq_iff. Qed.

Lemma lex_refl l : lex l l = Eq.
Proof. by apply lex_eq. Qed.

Lemma lex_opp l1 l2 : lex l2 l1 = CompOpp (lex l1 l2).
Proof.
  apply list_compare_antisym; intros; [apply Z.compare_eq_iff|apply Z.compare_antisym].
Qed.

Lemma lex_trans l1 l2 l3 c : lex l1 l2 = c -> lex l2 l3 = c -> lex l1 l3 = c.
Proof.
  apply list_compare_trans; [intros; apply Z.compare_eq_iff| |intros; apply Z.compare_antisym].
  intros x y z [] Hx Hy; rewrite ?Z.compare_eq_iff, ?Z.compare_lt_iff, ?Z.compare_gt_iff in *; lia.
Qed.

#[export] Instance lex_le_total_order : TotalOrder lex_le.
Proof.
  unfold lex_le. split; [split; [split|]|].
  - intros l. by rewrite lex_refl.
  - intros l1 l2 l3 H1 H2 H3.
    destruct (lex l1 l2) eqn:E1; [by apply lex_eq in E1 as ->| |done].
    destruct (lex l2 l3) eqn:E2; [by apply lex_eq in E2 as ->; congruence| |done].
    pose proof (lex_trans _ _ _ _ E1 E2). congruence.
  - intros l1 l2 H1 H2. rewrite lex_opp in H2. apply lex_eq. by destruct (lex l1 l2).
  - intros l1 l2. unfold strict. rewrite (lex_opp l1 l2).
    destruct (lex l1 l2) eqn:E; cbn; [|left|right; right]; [|by split; [|auto]..].
    right. left. by apply lex_eq.
Qed.

(** ** The comparisons *)

Lemma item_at p pre x post :
  holds p (pre ++ x :: post) -> item p (Zlen pre) = Done x.
Proof.
  destruct p as [b|]; cbn; [|by destruct pre]. intros Hb.
  apply buf_get_lookup. rewrite <-(take_drop (length (pre ++ x :: post)) b), Hb.
  rewrite lookup_app_l by (rewrite length_app; cbn; lia). by rewrite lookup_app_r, Nat.sub_diag by lia.
Qed.

Lemma compare_lengths_shift gt lt k n m :
  compare_lengths gt lt (k + n) (k + m) = compare_lengths gt lt n m.
Proof.
  unfold compare_lengths.
  destruct (Z.eqb_spec (k + n) (k + m)), (Z.eqb_spec n m), (Z.ltb_spec (k + m) (k + n)), (Z.ltb_spec m n); done || lia.
Qed.

Lemma compare_items_spec gt lt p q pre1 pre2 l1 l2 :
  holds p (pre1 ++ l1) -> holds q (pre2 ++ l2) -> length pre1 = length pre2 ->
  (r ← compare_items gt lt p q (Zlen pre1) (length l1 `min` length l2);
   Done (default (compare_lengths gt lt (Zlen (pre1 ++ l1)) (Zlen (pre2 ++ l2))) r)) =
  Done (match lex l1 l2 with Eq => 0 | Lt => lt | Gt => gt end).
Proof.
  revert pre1 pre2 l2. induction l1 as [|x l1 IH]; intros pre1 pre2 l2 Hp Hq Hl.
  - cbn [length Nat.min compare_items mbind outcome_bind default]. rewrite !length_app, !Nat2Z.inj_add, Hl.
    rewrite compare_lengths_shift. by destruct l2.
  - destruct l2 as [|y l2].
    + cbn [length Nat.min compare_items mbind outcome_bind default]. rewrite !length_app, !Nat2Z.inj_add, Hl.
      by rewrite compare_lengths_shift.
    + cbn [length Nat.min compare_items]. rewrite (item_at p pre1 x l1) by done.
      rewrite Hl, (item_at q pre2 y l2) by done. rewrite <-Hl. cbn [mbind outcome_bind].
      unfold lex. cbn [list_compare]. fold lex.
      rewrite (Z.eqb_compare x y), (Z.ltb_compare y x), (Z.compare_antisym x y).
      destruct (x ?= y) eqn:E; cbn [CompOpp mbind outcome_bind default]; [|done..].
      specialize (IH (pre1 ++ [x]) (pre2 ++ [y]) l2).
      rewrite <-!app_assoc, !length_app in IH. cbn [app] in IH.
      rewrite <-IH by (done || cbn; lia). rewrite !length_app. cbn [length].
      by replace (Z.of_nat (length pre1 + 1)) with (Zlen pre1 + 1) by lia.
Qed.

Lemma compare_spec gt lt p q l1 l2 n :
  holds p l1 -> holds q l2 -> n = Z.to_nat (AnscGetMin2 (Zlen l1) (Zlen l2)) ->
  (r ← compare_items gt lt p q 0 n; Done (default (compare_lengths gt lt (Zlen l1) (Zlen l2)) r)) =
  Done (match lex l1 l2 with Eq => 0 | Lt => lt | Gt => gt end).
Proof.
  intros Hp Hq ->.
  replace (Z.to_nat _) with (length l1 `min` length l2)%nat
    by (unfold AnscGetMin2; destruct (Z.ltb_spec (Zlen l2) (Zlen l1)); lia).
  by apply (compare_items_spec gt lt p q [] []).
Qed.

Lemma AnscAsn1CompOids_spec `{Platform} o1 o2 l1 l2 :
  oid_is o1 l1 -> oid_is o2 l2 -> AnscAsn1CompOids o1 o2 = Done (sign (lex l1 l2)).
Proof.
  intros (En1 & H1 & _) (En2 & H2 & _). unfold AnscAsn1CompOids. rewrite En1, En2.
  by rewrite (compare_spec _ _ _ _ l1 l2).
Qed.

Lemma AnscAsn1CompOctetStrings_spec `{Platform} s1 s2 l1 l2 :
  octets_are s1 l1 -> octets_are s2 l2 -> AnscAsn1CompOctetStrings s1 s2 = Done (sign (lex l1 l2)).
Proof.
  intros (En1 & H1 & _) (En2 & H2 & _). unfold AnscAsn1CompOctetStrings. rewrite En1, En2.
  by rewrite (compare_spec _ _ _ _ l1 l2).
Qed.

Lemma AnscAsn1CompInts_spec `{Platform} i1 i2 n1 n2 l1 l2 :
  int_is i1 n1 l1 -> int_is i2 n2 l2 ->
  AnscAsn1CompInts i1 i2 =
    Done (if n1 =? n2 then (if n1 =? 0 then sign (lex l1 l2) else - sign (lex l1 l2))
          else if n1 =? 0 then 1 else -1).
Proof.
  intros (Hn1 & En1 & H1 & _) (Hn2 & En2 & H2 & _). unfold AnscAsn1CompInts.
  rewrite En1, En2, Hn1, Hn2.
  destruct (Z.eqb_spec n1 n2); cbn [negb]; [|by destruct (Z.eqb_spec n1 0)].
  destruct (Z.eqb_spec n1 0); cbn [negb]; rewrite (compare_spec _ _ _ _ l1 l2) by done; by destruct (lex l1 l2).
Qed.

Lemma same_items_spec p q pre l1 l2 :
  holds p (pre ++ l1) -> holds q (pre ++ l2) -> (length l2 <= length l1)%nat ->
  same_items p q (Zlen pre) (length l2) = Done (bool_decide (l2 `prefix_of` l1)).
Proof.
  revert pre l1. induction l2 as [|y l2 IH]; intros pre l1 Hp Hq Hl; cbn [length same_items].
  - by rewrite bool_decide_true by apply prefix_nil.
  - destruct l1 as [|x l1]; [cbn in Hl; lia|].
    rewrite (item_at p pre x l1), (item_at q pre y l2) by done. cbn [mbind outcome_bind].
    destruct (Z.eqb_spec x y) as [->|Hne]; cbn [negb].
    + replace (Zlen pre + 1) with (Zlen (pre ++ [y])) by (rewrite length_app; cbn; lia).
      rewrite IH with (l1 := l1) by (rewrite <-?app_assoc; cbn in *; done || lia).
      f_equal. apply bool_decide_ext. split; [by apply prefix_cons|by apply prefix_cons_inv_2].
    + rewrite bool_decide_false; [done|]. intros Hpre. by apply prefix_cons_inv_1 in Hpre.
Qed.

(** [AnscAsn1ConcOids]: does the second identifier start the first one? *)
Lemma AnscAsn1ConcOids_spec `{Platform} o1 o2 l1 l2 :
  oid_is o1 l1 -> oid_is o2 l2 -> AnscAsn1ConcOids o1 o2 = Done (bool_decide (l2 `prefix_of` l1)).
Proof.
  intros (En1 & H1 & _) (En2 & H2 & _). unfold AnscAsn1ConcOids. rewrite En1, En2.
  destruct (Z.ltb_spec (Zlen l1) (Zlen l2)).
  - rewrite bool_decide_false; [done|]. intros Hpre%prefix_length. lia.
  - unfold AnscGetMin2. destruct (Z.ltb_spec (Zlen l2) (Zlen l1)).
    + rewrite Nat2Z.id. apply (same_items_spec _ _ []); [done..|lia].
    + rewrite Nat2Z.id. replace (length l1) with (length l2) by lia. apply (same_items_spec _ _ []); [done..|lia].
Qed.

(** ** Allocation and copies *)

Section allocation.
Context `{Platform}.
Implicit Types (a : alloc_stream).

Lemma sizeof_ULONG_pos : 0 < sizeof_ULONG.
Proof. unfold sizeof_ULONG. by destruct ulong_bits_ok as [-> | ->]. Qed.

(** An allocation function yields NULL only when an allocation fails, and then
    among the first two. *)
Definition yields {A} (m : outcome (option A * alloc_stream)) a (P : A -> Prop) : Prop :=
  exists r a', m = Done (r, a') /\
    match r with Some x => P x | None => a !! 0%nat = Some false \/ a !! 1%nat = Some false end.

Definition fresh_items (src : option (list Z)) (n : Z) : list Z :=
  match src with Some s => take (Z.to_nat n) s | None => replicate (Z.to_nat n) 0 end.
Definition source_has (src : option (list Z)) (n : Z) : Prop :=
  match src with Some s => n <= Zlen s | None => True end.
Definition block (l : list Z) : option (list Z) := match l with [] => None | _ => Some l end.

Lemma copy_items_all n s :
  n <= Zlen s -> copy_items (Some (replicate (Z.to_nat n) 0)) s n = Done (Some (take (Z.to_nat n) s)).
Proof.
  intros Hn. unfold copy_items. destruct (Z.leb_spec n (Zlen s)); [|lia].
  pose proof (buf_copy_at [] (replicate (Z.to_nat n) 0) [] (take (Z.to_nat n) s) 0) as Hc.
  cbn [app] in Hc. rewrite !app_nil_r in Hc. by rewrite Hc by (rewrite ?length_replicate, ?length_take; cbn; lia).
Qed.

Lemma copy_items_front n s x :
  n <= Zlen s -> copy_items (Some (replicate (Z.to_nat n) 0 ++ x)) s n = Done (Some (take (Z.to_nat n) s ++ x)).
Proof.
  intros Hn. unfold copy_items. destruct (Z.leb_spec n (Zlen s)); [|lia].
  pose proof (buf_copy_at [] (replicate (Z.to_nat n) 0) x (take (Z.to_nat n) s) 0) as Hc.
  cbn [app] in Hc. by rewrite Hc by (rewrite ?length_replicate, ?length_take; cbn; lia).
Qed.

Lemma AnscAsn1AllocOid_spec src n a :
  0 <= n -> n * sizeof_ULONG < 2 ^ ulong_bits -> source_has src n ->
  yields (AnscAsn1AllocOid src n a) a (fun o => o = Oid (n * sizeof_ULONG) n (block (fresh_items src n))).
Proof.
  intros Hn Hfit Hs. pose proof sizeof_ULONG_pos. unfold yields, AnscAsn1AllocOid.
  rewrite ULONG_small by nia. rewrite Z.div_mul by lia.
  assert (Hz : (0 <? n * sizeof_ULONG) = (0 <? n))
    by (apply eq_true_iff_eq; rewrite !Z.ltb_lt; by apply Z.mul_pos_cancel_r).
  rewrite !Hz. unfold next_alloc.
  destruct a as [|[] a]; cbn [negb]; [|destruct (0 <? n) eqn:E0|by eexists _, _; split; [done|left]];
    [destruct (0 <? n) eqn:E0| |].
  2, 4: zbool; assert (n = 0) as -> by lia; cbn; destruct src; cbn; by eexists _, _.
  - cbn [bool_decide andb]. destruct src as [s|]; cbn [mbind outcome_bind].
    + rewrite copy_items_all by done. zbool. destruct s; [cbn in *; lia|]. eexists _, _. split; [done|].
      unfold block, fresh_items. by replace (Z.to_nat n) with (S (Z.to_nat n - 1)) by lia.
    + eexists _, _. split; [done|]. zbool. unfold block, fresh_items.
      by replace (Z.to_nat n) with (S (Z.to_nat n - 1)) by lia.
  - destruct a as [|[] a]; cbn [bool_decide andb]; [| |by eexists _, _; split; [done|right]].
    all: destruct src as [s|]; cbn [mbind outcome_bind]; [rewrite copy_items_all by done|];
      zbool; eexists _, _; (split; [done|]); unfold block, fresh_items;
      replace (Z.to_nat n) with (S (Z.to_nat n - 1)) by lia; [|done].
    all: by destruct s; [cbn in *; lia|].
Qed.

Lemma holds_block l : holds (block l) l.
Proof. destruct l as [|x l]; [done|]. cbn [block holds]. by rewrite take_ge. Qed.

Lemma holds_take p l : holds p l -> source_has p (Zlen l) /\ (p ≠ None -> fresh_items p (Zlen l) = l).
Proof.
  destruct p as [b|]; cbn; intros Hp; [|done]. rewrite Nat2Z.id. split; [|done].
  rewrite <-Hp, length_take. lia.
Qed.

Lemma yields_mono {A} (m : outcome (option A * alloc_stream)) a (P Q : A -> Prop) :
  (forall x, P x -> Q x) -> yields m a P -> yields m a Q.
Proof. intros HPQ (r & a' & E & Hr). exists r, a'. split; [done|]. destruct r; auto. Qed.

(** A copy stands for the same identifier and shares nothing with it. *)
Lemma AnscAsn1CloneOid_spec o l a :
  oid_is o l -> yields (AnscAsn1CloneOid (Some o) a) a (fun o' => oid_is o' l).
Proof.
  intros (En & Hh & Hfit). cbn. rewrite En. destruct (holds_take _ _ Hh) as [Hs Hf].
  eapply yields_mono; [|by apply AnscAsn1AllocOid_spec; [lia| |]].
  intros o' ->. split; [done|]. split; [|done]. cbn [oid_Identifiers].
  destruct (oid_Identifiers o) as [b|] eqn:Eb.
  - rewrite Hf by done. apply holds_block.
  - cbn in Hh. by subst l.
Qed.

(** Filling a block item by item. *)
Lemma fill_items p l pre old post (k : Z) :
  holds p l -> length old = length l -> k = Zlen pre ->
  for_from 0 (length l) (fun i ids => x ← item p i; set_item ids (i + k) x) (Some (pre ++ old ++ post)) =
    Done (Some (pre ++ l ++ post)).
Proof.
  intros Hp Hl ->.
  destruct (for_from_inv (fun i ids => ids = Some (pre ++ take (Z.to_nat i) l ++ drop (Z.to_nat i) old ++ post))
    (fun i ids => x ← item p i; set_item ids (i + Zlen pre) x) 0 (length l) (Some (pre ++ old ++ post))) as (ids & -> & ->).
  - by rewrite take_0, drop_0.
  - intros j ids Hj ->. destruct (lookup_lt_is_Some_2 l (Z.to_nat j)) as [x Hx]; [lia|].
    rewrite <-(take_drop_middle l _ _ Hx) in Hp. pose proof (item_at _ _ _ _ Hp) as Hi.
    rewrite length_take in Hi. replace (Z.of_nat (Z.to_nat j `min` length l)) with j in Hi by lia.
    rewrite Hi. cbn [mbind outcome_bind set_item].
    destruct (drop (Z.to_nat j) old) as [|o r] eqn:Ed.
    { assert (Hd' : length (drop (Z.to_nat j) old) = 0%nat) by by rewrite Ed. rewrite length_drop in Hd'. lia. }
    rewrite app_assoc. cbn [app]. rewrite buf_put_at by (rewrite length_app, length_take; lia).
    eexists. split; [done|]. replace (Z.to_nat (j + 1)) with (S (Z.to_nat j)) by lia.
    rewrite (take_S_r _ _ x) by done. rewrite <-!app_assoc. cbn. do 4 f_equal.
    replace (S (Z.to_nat j)) with (Z.to_nat j + 1)%nat by lia. by rewrite <-drop_drop, Ed.
  - rewrite Z.add_0_l, Nat2Z.id, take_ge, drop_ge by lia. done.
Qed.

(** [AnscAsn1CombOids] concatenates. *)
Lemma AnscAsn1CombOids_spec o1 o2 l1 l2 a :
  oid_is o1 l1 -> oid_is o2 l2 -> Zlen (l1 ++ l2) * sizeof_ULONG < 2 ^ ulong_bits ->
  yields (AnscAsn1CombOids o1 o2 a) a (fun o => oid_is o (l1 ++ l2)).
Proof.
  intros (En1 & H1 & _) (En2 & H2 & _) Hfit. pose proof sizeof_ULONG_pos.
  unfold AnscAsn1CombOids. rewrite En1, En2, !Nat2Z.id.
  rewrite <-Nat2Z.inj_add, <-length_app, ULONG_small by nia.
  destruct (AnscAsn1AllocOid_spec None (Zlen (l1 ++ l2)) a) as (r & a' & -> & Hr); [lia|done|done|].
  cbn [mbind outcome_bind]. destruct r as [oN|]; [subst oN|by eexists None, _].
  cbn [oid_Identifiers oid_ArraySize oid_Length fresh_items]. rewrite Nat2Z.id.
  destruct (decide (l1 ++ l2 = [])) as [E|Hne].
  { apply app_nil in E as [-> ->]. cbn. by eexists _, _. }
  assert (Hb : block (replicate (length (l1 ++ l2)) 0) =
    Some ([] ++ replicate (length l1) 0 ++ replicate (length l2) 0)).
  { destruct (l1 ++ l2) eqn:E; [done|]. cbn [block length replicate app]. rewrite <-replicate_add, <-length_app, E. done. }
  rewrite Hb.
  assert (HF1 : forall s, for_from 0 (length l1) (fun i ids => x ← item (oid_Identifiers o1) i; set_item ids i x) s =
    for_from 0 (length l1) (fun i ids => x ← item (oid_Identifiers o1) i; set_item ids (i + 0) x) s).
  { intros s. apply for_from_ext. intros j ids. by rewrite Z.add_0_r. }
  rewrite HF1, (fill_items _ l1) by (rewrite ?length_replicate; done). cbn [mbind outcome_bind app].
  rewrite <-(app_nil_r (replicate (length l2) 0)).
  destruct (decide (l2 = [])) as [->|Hne2].
  - cbn. eexists _, _. split; [done|]. split; [done|]. split; [|done]. cbn. by rewrite take_ge.
  - rewrite (for_from_ext_range _ (fun i ids => x ← item (oid_Identifiers o2) i; set_item ids (i + Zlen l1) x)).
    + rewrite (fill_items _ l2) by (rewrite ?length_replicate; done). cbn [mbind outcome_bind].
      eexists _, _. split; [done|]. split; [done|]. split; [|done]. cbn [holds oid_Identifiers].
      by rewrite app_nil_r, take_ge.
    + intros j ids Hj. rewrite length_app in Hfit. by rewrite ULONG_small by nia.
Qed.

End allocation.

(** ** Arrays *)

Section arrays.
Context `{Platform}.
Variable st : gmap Z ANSC_ASN1_OID.

(** The identifiers of the object a pointer names. *)
Definition ids_of (p : Z) : list Z :=
  match st !! p with Some o => take (Z.to_nat (oid_Length o)) (default [] (oid_Identifiers o)) | None => [] end.
Definition oid_ptr (p : Z) : Prop := p ≠ 0 /\ exists o, st !! p = Some o /\ oid_is o (ids_of p).

Lemma oid_ptr_intro p o l : p ≠ 0 -> st !! p = Some o -> oid_is o l -> oid_ptr p /\ ids_of p = l.
Proof.
  intros Hp Ho Hl. assert (E : ids_of p = l).
  { unfold ids_of. rewrite Ho. destruct Hl as (-> & Hh & _). rewrite Nat2Z.id.
    destruct (oid_Identifiers o); cbn in *; [done|]. by subst. }
  split; [|done]. split; [done|]. exists o. by rewrite E.
Qed.

Definition ptr_cmp (p q : Z) : Z := sign (lex (ids_of p) (ids_of q)).
Definition ptr_le (p q : Z) : Prop := lex_le (ids_of p) (ids_of q).

Lemma comp_at_spec p q : oid_ptr p -> oid_ptr q -> comp_at st p q = Done (ptr_cmp p q).
Proof.
  intros (Hp & o1 & E1 & H1) (Hq & o2 & E2 & H2). unfold comp_at, oid_at.
  destruct (Z.eqb_spec p 0), (Z.eqb_spec q 0); try done. rewrite E1, E2. cbn.
  by rewrite (AnscAsn1CompOids_spec _ _ _ _ H1 H2).
Qed.

Lemma scan_array_spec stop p pre l post last :
  oid_ptr p -> Forall oid_ptr l ->
  exists c, scan_array stop st p (pre ++ l ++ post) (Zlen pre) (length l) last =
      Done (Zlen pre + Z.of_nat (until (fun q => stop (ptr_cmp p q)) l), c) /\
    forall q, l !! until (fun q => stop (ptr_cmp p q)) l = Some q -> c = ptr_cmp p q.
Proof.
  intros Hp. revert pre last. induction l as [|q l IH]; intros pre last Hl; cbn [length scan_array until].
  - exists last. by rewrite Z.add_0_r.
  - inversion_clear Hl as [|? ? Hq Hl']. cbn [app].
    rewrite (buf_get_lookup _ (length pre) q) by by apply list_lookup_middle.
    cbn [mbind outcome_bind]. rewrite comp_at_spec by done. cbn [mbind outcome_bind].
    destruct (stop (ptr_cmp p q)).
    + exists (ptr_cmp p q). rewrite Z.add_0_r. split; [done|]. cbn. congruence.
    + destruct (IH (pre ++ [q]) (ptr_cmp p q) Hl') as (c & E & Hc).
      rewrite <-app_assoc, length_app in E. cbn [app length] in E.
      exists c. split; [|done]. replace (Zlen pre + 1) with (Z.of_nat (length pre + 1)) by lia.
      rewrite E. do 2 f_equal. lia.
Qed.

Lemma ptr_cmp_le p q : (ptr_cmp p q <=? 0) = bool_decide (ptr_le p q).
Proof.
  apply eq_true_iff_eq. rewrite bool_decide_eq_true, Z.leb_le. unfold ptr_cmp, ptr_le, lex_le.
  destruct (lex _ _); cbn; split; done || lia.
Qed.

Lemma ptr_cmp_zero p q : (ptr_cmp p q =? 0) = bool_decide (ids_of p = ids_of q).
Proof.
  unfold ptr_cmp. destruct (lex _ _) eqn:E; cbn.
  1: rewrite bool_decide_true; [done|by apply lex_eq].
  all: rewrite bool_decide_false; [done|]; intros E'%lex_eq; congruence.
Qed.

(** The place of a pointer in a sorted list, and the list with it there. *)
Definition place (p : Z) (l : list Z) : nat := until (fun q => bool_decide (ptr_le p q)) l.
Definition insert_sorted (l : list Z) (p : Z) : list Z := take (place p l) l ++ p :: drop (place p l) l.

Lemma insert_sorted_cons p q l :
  insert_sorted (q :: l) p = if bool_decide (ptr_le p q) then p :: q :: l else q :: insert_sorted l p.
Proof. unfold insert_sorted, place. cbn [until]. by destruct (bool_decide _). Qed.

Lemma insert_sorted_perm p l : insert_sorted l p ≡ₚ p :: l.
Proof. unfold insert_sorted. by rewrite <-Permutation_middle, take_drop. Qed.

Lemma insert_sorted_sorted p l : StronglySorted ptr_le l -> StronglySorted ptr_le (insert_sorted l p).
Proof.
  induction 1 as [|q l Hl IH Hq]; [by repeat constructor|]. rewrite insert_sorted_cons.
  case_bool_decide as Hpq.
  - constructor; [by constructor|]. constructor; [done|].
    eapply Forall_impl; [exact Hq|]. intros r Hr. unfold ptr_le in *. by etrans.
  - constructor; [done|]. rewrite insert_sorted_perm. constructor; [|done].
    unfold ptr_le, lex_le in *. rewrite lex_opp. destruct (lex (ids_of p) (ids_of q)); cbn; done || by destruct Hpq.
Qed.

(** An equal element goes in front of the ones that are there. *)
Lemma insert_sorted_equals (k : list Z) p l :
  StronglySorted ptr_le l ->
  filter (fun q => ids_of q = k) (insert_sorted l p) =
    if decide (ids_of p = k) then p :: filter (fun q => ids_of q = k) l else filter (fun q => ids_of q = k) l.
Proof.
  intros Hs. induction Hs as [|q l Hl IH Hq].
  - change (insert_sorted [] p) with [p]. by rewrite filter_cons.
  - rewrite insert_sorted_cons. case_bool_decide as Hpq.
    + destruct (decide (ids_of p = k)); [by rewrite filter_cons_True|by rewrite filter_cons_False].
    + rewrite !(filter_cons _ q), IH. destruct (decide (ids_of p = k)) as [Ep|], (decide (ids_of q = k)) as [Eq|]; try done.
      exfalso. apply Hpq. unfold ptr_le. by rewrite Ep, Eq.
Qed.

(** *** Sorting *)

Lemma shift_array_spec pre mid x post :
  exists z, shift_array (pre ++ mid ++ x :: post) (Zlen (pre ++ mid)) (length mid) = Done (pre ++ z :: mid ++ post).
Proof.
  revert x post. induction mid as [|y mid IH] using rev_ind; intros x post.
  - exists x. by rewrite app_nil_r.
  - replace (length (mid ++ [y])) with (S (length mid)) by (rewrite length_app; cbn; lia).
    cbn [shift_array]. rewrite !app_assoc, <-(app_assoc _ [y]). cbn [app].
    replace (Zlen ((pre ++ mid) ++ [y]) - 1) with (Zlen (pre ++ mid)) by (rewrite (length_app _ [y]); cbn; lia).
    rewrite (buf_get_lookup _ (length (pre ++ mid)) y) by by apply list_lookup_middle. cbn [mbind outcome_bind].
    pose proof (buf_put_at ((pre ++ mid) ++ [y]) x post y (Zlen ((pre ++ mid) ++ [y])) eq_refl) as Hp.
    rewrite <-!app_assoc in Hp. cbn [app] in Hp. rewrite <-!app_assoc. cbn [app]. rewrite Hp. cbn [mbind outcome_bind].
    destruct (IH y (y :: post)) as [z E]. exists z. by rewrite E.
Qed.

Lemma sort_insert_spec p l x post :
  oid_ptr p -> Forall oid_ptr l -> Zlen l + 1 < 2 ^ ulong_bits ->
  sort_insert st p (l ++ x :: post, Zlen l) = Done (insert_sorted l p ++ post, Zlen l + 1).
Proof.
  intros Hp Hl Hfit. unfold sort_insert. rewrite Nat2Z.id.
  destruct (scan_array_spec (fun c => c <=? 0) p [] l (x :: post) 0 Hp Hl) as (c & E & _).
  cbn [app length] in E. change (Z.of_nat 0) with 0 in E. rewrite E. clear E. cbn [mbind outcome_bind].
  rewrite Z.add_0_l. set (k := until _ l).
  assert (Hk : k = place p l).
  { unfold k, place. clear. induction l as [|q l IH]; cbn; [done|]. rewrite ptr_cmp_le. by destruct (bool_decide _); f_equal. }
  rewrite Hk. unfold insert_sorted. pose proof (until_le (fun q => bool_decide (ptr_le p q)) l) as Hle. fold (place p l) in Hle.
  rewrite ULONG_small by lia.
  destruct (Z.leb_spec (Zlen l) (Z.of_nat (place p l))).
  - replace (place p l) with (length l) by lia. rewrite firstn_all, drop_all.
    rewrite buf_put_at by done. cbn [mbind outcome_bind]. by rewrite <-app_assoc.
  - destruct (shift_array_spec (take (place p l) l) (drop (place p l) l) x post) as [z E].
    rewrite app_assoc, take_drop in E.
    replace (Z.to_nat (Zlen l - Z.of_nat (place p l))) with (length (drop (place p l) l)) by (rewrite length_drop; lia).
    rewrite E. cbn [mbind outcome_bind]. rewrite buf_put_at by (rewrite length_take; lia).
    cbn [mbind outcome_bind]. by rewrite <-app_assoc.
Qed.

Definition sorted_oids (arr : list Z) : list Z := foldl insert_sorted [] arr.

Lemma sorted_oids_snoc arr p : sorted_oids (arr ++ [p]) = insert_sorted (sorted_oids arr) p.
Proof. apply foldl_snoc. Qed.

Lemma sorted_oids_perm arr : sorted_oids arr ≡ₚ arr.
Proof.
  induction arr as [|p arr IH] using rev_ind; [done|].
  by rewrite sorted_oids_snoc, insert_sorted_perm, IH, Permutation_cons_append.
Qed.

Lemma sorted_oids_sorted arr : StronglySorted ptr_le (sorted_oids arr).
Proof.
  induction arr as [|p arr IH] using rev_ind; [constructor|].
  rewrite sorted_oids_snoc. by apply insert_sorted_sorted.
Qed.

Lemma sorted_oids_equals k arr :
  filter (fun q => ids_of q = k) (sorted_oids arr) = reverse (filter (fun q => ids_of q = k) arr).
Proof.
  induction arr as [|p arr IH] using rev_ind; [done|].
  rewrite sorted_oids_snoc, insert_sorted_equals, IH by apply sorted_oids_sorted.
  rewrite filter_app, reverse_app. destruct (decide (ids_of p = k)).
  - by rewrite (filter_cons_True _ p).
  - by rewrite (filter_cons_False _ p).
Qed.

Lemma AnscAsn1SortOidArray_run arr a :
  Forall oid_ptr arr -> sizeof_ULONG * Zlen arr < 2 ^ ulong_bits -> a !! 0%nat ≠ Some false ->
  AnscAsn1SortOidArray st arr (Zlen arr) a = Done (ANSC_STATUS_SUCCESS, sorted_oids arr, (next_alloc a).2).
Proof.
  intros Harr Hfit Ha. unfold AnscAsn1SortOidArray. pose proof sizeof_ULONG_pos.
  assert (Hn : next_alloc a = (true, (next_alloc a).2)) by (by destruct a as [|[] a]). rewrite Hn. clear Hn. cbn [negb snd].
  rewrite ULONG_small by nia. rewrite Z.mul_comm, Z.div_mul, Nat2Z.id by lia.
  destruct (for_from_inv (fun i s => s = (sorted_oids (take (Z.to_nat i) arr) ++ replicate (length arr - Z.to_nat i) 0, i))
    (fun i s => temp_oid ← buf_get arr i; sort_insert st temp_oid s) 0 (length arr)
    (replicate (length arr) 0, 0)) as (s & -> & ->).
  - by rewrite take_0, Nat.sub_0_r.
  - intros j s Hj ->. destruct (lookup_lt_is_Some_2 arr (Z.to_nat j)) as [p Hp]; [lia|].
    rewrite (buf_get_Z _ _ p) by (done || lia). cbn [mbind outcome_bind].
    replace (length arr - Z.to_nat j)%nat with (S (length arr - Z.to_nat (j + 1))) by lia. cbn [replicate].
    set (l := sorted_oids (take (Z.to_nat j) arr)).
    assert (Hl : Zlen l = j).
    { unfold l. rewrite (Permutation_length (sorted_oids_perm _)), length_take. lia. }
    replace (l ++ 0 :: _, j) with (l ++ 0 :: replicate (length arr - Z.to_nat (j + 1)) 0, Zlen l) by by rewrite Hl.
    rewrite sort_insert_spec.
    + eexists. split; [done|]. rewrite Hl. replace (Z.to_nat (j + 1)) with (S (Z.to_nat j)) by lia.
      by rewrite (take_S_r _ _ p), sorted_oids_snoc.
    + by eapply Forall_lookup_1.
    + unfold l. rewrite sorted_oids_perm. by apply Forall_take.
    + nia.
  - cbn [mbind outcome_bind]. rewrite Z.add_0_l, Nat2Z.id, Nat.sub_diag, firstn_all. cbn [replicate]. rewrite app_nil_r.
    pose proof (Permutation_length (sorted_oids_perm arr)) as Hl.
    rewrite (for_map (fun x => x)) by lia. rewrite take_ge by lia. rewrite list_fmap_id, drop_all. cbn [mbind outcome_bind].
    by rewrite app_nil_r.
Qed.

(** *** Searching *)

Lemma AnscAsn1FindOidInArray_spec p arr :
  oid_ptr p -> Forall oid_ptr arr -> Zlen arr <= 2 ^ 31 ->
  AnscAsn1FindOidInArray st p arr (Zlen arr) =
    Done (match list_find (fun q => ids_of q = ids_of p) arr with Some (i, _) => Z.of_nat i | None => -1 end).
Proof.
  intros Hp Harr Hn. unfold AnscAsn1FindOidInArray. rewrite Nat2Z.id.
  destruct (scan_array_spec (fun c => c =? 0) p [] arr [] 0 Hp Harr) as (c & E & _).
  cbn [app length] in E. rewrite app_nil_r in E. change (Z.of_nat 0) with 0 in E. rewrite E. clear E.
  cbn [mbind outcome_bind]. rewrite Z.add_0_l. set (k := until _ arr).
  assert (Hk : match list_find (fun q => ids_of q = ids_of p) arr with
               | Some (i, _) => k = i /\ (k < length arr)%nat | None => k = length arr end).
  { unfold k. clear. induction arr as [|q arr IH]; cbn; [done|]. rewrite ptr_cmp_zero.
    case_decide as E; [by rewrite bool_decide_true; [cbn; auto with lia|]|].
    rewrite bool_decide_false by congruence.
    destruct (list_find _ arr) as [[i r]|]; cbn; [|by f_equal]. destruct IH as [-> Hi]. split; [done|lia]. }
  destruct (list_find _ arr) as [[i r]|].
  - destruct Hk as [-> Hk]. destruct (Z.leb_spec (Zlen arr) (Z.of_nat i)); [lia|].
    unfold INT, wrapS. rewrite Z.mod_small by lia. f_equal. lia.
  - rewrite Hk. by rewrite (proj2 (Z.leb_le _ _)) by lia.
Qed.

Definition ptr_lt (q p : Z) : Prop := lex (ids_of q) (ids_of p) = Lt.
#[export] Instance ptr_lt_dec q p : Decision (ptr_lt q p).
Proof. unfold ptr_lt. solve_decision. Defined.
#[export] Instance ptr_le_dec q p : Decision (ptr_le q p).
Proof. unfold ptr_le. apply _. Defined.

Lemma ptr_le_not_lt p q : ptr_le p q <-> ~ ptr_lt q p.
Proof. unfold ptr_le, ptr_lt, lex_le. rewrite (lex_opp (ids_of p)). by destruct (lex _ _). Qed.

(** In a sorted array the scan stops behind the smaller elements. *)
Lemma place_sorted p l : StronglySorted ptr_le l -> place p l = length (filter (fun q => ptr_lt q p) l).
Proof.
  induction 1 as [|q l Hl IH Hq]; [done|]. unfold place. cbn [until]. fold (place p l).
  case_bool_decide as Hpq.
  - rewrite filter_none; [done|]. intros r Hr. apply ptr_le_not_lt.
    apply elem_of_cons in Hr as [->|Hr]; [done|]. rewrite Forall_forall in Hq. unfold ptr_le in *.
    etrans; [exact Hpq|by apply Hq].
  - rewrite filter_cons_True; [cbn; by f_equal|]. rewrite ptr_le_not_lt in Hpq. by destruct (decide (ptr_lt q p)).
Qed.

Lemma AnscAsn1MarkOidInArray_sorted p arr :
  oid_ptr p -> Forall oid_ptr arr -> StronglySorted ptr_le arr ->
  AnscAsn1MarkOidInArray st p arr (Zlen arr) =
    Done (bool_decide (ids_of p ∈ ids_of <$> arr), Zlen (filter (fun q => ptr_lt q p) arr)).
Proof.
  intros Hp Harr Hs. unfold AnscAsn1MarkOidInArray. rewrite Nat2Z.id.
  destruct (scan_array_spec (fun c => c <=? 0) p [] arr [] 0 Hp Harr) as (c & E & Hc).
  cbn [app length] in E. rewrite app_nil_r in E. change (Z.of_nat 0) with 0 in E. rewrite E. clear E.
  cbn [mbind outcome_bind]. rewrite Z.add_0_l, <-place_sorted by done.
  assert (Hk : until (fun q => ptr_cmp p q <=? 0) arr = place p arr).
  { unfold place. clear. induction arr as [|q l IH]; cbn; [done|]. rewrite ptr_cmp_le. by destruct (bool_decide _); f_equal. }
  rewrite Hk in *. do 2 f_equal.
  assert (Hin : ids_of p ∈ ids_of <$> arr <-> exists q, arr !! place p arr = Some q /\ ids_of q = ids_of p).
  { split; [|by intros (q & Hq & <-); apply list_elem_of_fmap_2, list_elem_of_lookup_2 with (place p arr)].
    clear - Hs. intros Hin. induction Hs as [|q l Hl IH Hq]; [by apply not_elem_of_nil in Hin|].
    unfold place. cbn [until]. fold (place p l). rewrite fmap_cons, elem_of_cons in Hin.
    case_bool_decide as Hpq; [|destruct Hin as [E|Hin]; [destruct Hpq; unfold ptr_le; rewrite E; reflexivity|by apply IH]].
    exists q. split; [done|]. destruct Hin as [->|Hin]; [done|].
    apply list_elem_of_fmap in Hin as (r & Er & Hr). rewrite Forall_forall in Hq. specialize (Hq r Hr).
    unfold ptr_le in *. rewrite Er in *. by apply (anti_symm lex_le). }
  destruct (Z.leb_spec (Zlen arr) (Z.of_nat (place p arr))) as [Hge|Hlt].
  - rewrite bool_decide_false; [done|]. rewrite Hin. intros (q & Hq%lookup_lt_Some & _). lia.
  - destruct (lookup_lt_is_Some_2 arr (place p arr)) as [q Hq]; [lia|]. rewrite (Hc q Hq), ptr_cmp_zero.
    apply bool_decide_ext. rewrite Hin. split; [by eauto|]. intros (q' & Hq' & <-). by simplify_eq.
Qed.

End arrays.

(** *** Release *)

Definition pointers (arr : list Z) : list Z := filter (fun p => p ≠ 0) arr.
Definition releasable `{Platform} (st : gmap Z ANSC_ASN1_OID) (arr : list Z) : Prop :=
  NoDup (pointers arr) /\ Forall (fun p => is_Some (st !! p)) (pointers arr).
#[export] Instance releasable_dec `{Platform} st arr : Decision (releasable st arr).
Proof. apply _. Defined.

Lemma releasable_cons `{Platform} st p arr o :
  p ≠ 0 -> st !! p = Some o -> releasable st (p :: arr) <-> releasable (delete p st) arr.
Proof.
  intros Hp Ho. unfold releasable, pointers. rewrite filter_cons_True by done. rewrite NoDup_cons, Forall_cons, !Forall_forall.
  split.
  - intros ((Hnin & Hnd) & _ & Hall). split; [done|]. intros q Hq. rewrite lookup_delete_ne; [by apply Hall|].
    by intros <-.
  - intros (Hnd & Hall). split_and!; [|done|by eauto|].
    + intros Hin. apply Hall in Hin. rewrite lookup_delete_eq in Hin. by destruct Hin.
    + intros q Hq. destruct (Hall q Hq) as [o' Hq']. apply lookup_delete_Some in Hq' as [_ ?]. by eauto.
Qed.

(** Releasing an array frees what it points to, each object once; an object it
    points to twice is freed twice. *)
Lemma AnscAsn1FreeOidArray_spec `{Platform} st arr :
  AnscAsn1FreeOidArray st arr (Zlen arr) =
    if decide (releasable st arr)
    then Done (foldl (fun st p => delete p st) st (pointers arr), replicate (length arr) 0)
    else Stuck BadAccess.
Proof.
  unfold AnscAsn1FreeOidArray. rewrite Nat2Z.id.
  set (body := fun i '(st, arr) => _).
  enough (Hgen : forall z, for_from (Zlen z) (length arr) body (st, z ++ arr) =
    if decide (releasable st arr)
    then Done (foldl (fun st p => delete p st) st (pointers arr), z ++ replicate (length arr) 0)
    else Stuck BadAccess) by by apply (Hgen []).
  revert st. induction arr as [|p arr IH]; intros st z; cbn [length for_from replicate].
  { rewrite decide_True by (split; by constructor). done. }
  replace (body (Zlen z) (st, z ++ p :: arr)) with
    (if decide (p = 0) then Done (st, z ++ 0 :: arr)
     else match st !! p with Some _ => Done (delete p st, z ++ 0 :: arr) | None => Stuck BadAccess end).
  2: { unfold body. rewrite (buf_get_lookup _ (length z) p) by by apply list_lookup_middle. cbn [mbind outcome_bind].
    unfold AnscAsn1FreeOid, oid_at. case_decide as Hp; destruct (Z.eqb_spec p 0); try done; cbn [negb]; [by subst|].
    destruct (st !! p); cbn [mbind outcome_bind]; [|done]. rewrite buf_put_at by done. cbn [mbind outcome_bind].
    by rewrite delete_insert_eq. }
  assert (Hstep : Zlen z + 1 = Zlen (z ++ [0])) by (rewrite length_app; cbn; lia). rewrite Hstep.
  replace (z ++ 0 :: arr) with ((z ++ [0]) ++ arr) by by rewrite <-app_assoc.
  replace (z ++ 0 :: replicate (length arr) 0) with ((z ++ [0]) ++ replicate (length arr) 0) by by rewrite <-app_assoc.
  unfold pointers. case_decide as Hp.
  - rewrite filter_cons_False by (by intros []). cbn [mbind outcome_bind]. rewrite IH.
    by rewrite (decide_ext _ (releasable st (p :: arr))) by (unfold releasable, pointers; by rewrite filter_cons_False by (by intros [])).
  - rewrite filter_cons_True by done. destruct (st !! p) as [o|] eqn:Ho; cbn [mbind outcome_bind foldl].
    + rewrite IH. by rewrite (decide_ext _ (releasable st (p :: arr))) by (symmetry; by eapply releasable_cons).
    + rewrite decide_False; [done|]. intros [_ Hall]. unfold pointers in Hall. rewrite filter_cons_True in Hall by done.
      apply Forall_cons in Hall as [[o Ho'] _]. congruence.
Qed.

(** ** The dotted notation *)

Fixpoint fields (s : cstr) : list cstr :=
  match s with
  | [] => [[]]
  | c :: s =>
      if c =? 46 then [] :: fields s
      else match fields s with f :: fs => (c :: f) :: fs | [] => [] end
  end.

Lemma fields_split s : exists f rest,
  s = f ++ rest /\ 46 ∉ f /\
  ((rest = [] /\ fields s = [f]) \/ exists s', rest = 46 :: s' /\ fields s = f :: fields s').
Proof.
  induction s as [|c s (f & rest & -> & Hf & Hs)]; cbn [fields].
  { exists [], []. split; [done|]. split; [apply not_elem_of_nil|by left]. }
  destruct (Z.eqb_spec c 46) as [->|Hc].
  { exists [], (46 :: f ++ rest). split; [done|]. split; [apply not_elem_of_nil|]. by eauto. }
  exists (c :: f), rest. split; [done|]. split; [by rewrite not_elem_of_cons|].
  destruct Hs as [(-> & ->)|(s' & -> & ->)]; [by left|by eauto].
Qed.

Lemma fields_app f s' : 46 ∉ f -> fields (f ++ 46 :: s') = f :: fields s'.
Proof.
  induction f as [|c f IH]; intros Hf; [done|]. apply not_elem_of_cons in Hf as [Hc Hf].
  cbn [app fields]. destruct (Z.eqb_spec c 46); [done|]. by rewrite IH.
Qed.

Lemma fields_single f : 46 ∉ f -> fields f = [f].
Proof.
  induction f as [|c f IH]; intros Hf; [done|]. apply not_elem_of_cons in Hf as [Hc Hf].
  cbn [fields]. destruct (Z.eqb_spec c 46); [done|]. by rewrite IH.
Qed.

Lemma fields_count s : Zlen (fields s) = count_dots s + 1.
Proof.
  unfold count_dots. induction s as [|c s IH]; [done|]. cbn [fields]. rewrite filter_cons.
  destruct (Z.eqb_spec c 46); [rewrite decide_True by done|rewrite decide_False by done]; [cbn; lia|].
  destruct (fields_split s) as (f & rest & _ & _ & Hs).
  destruct Hs as [(_ & E)|(s' & _ & E)]; rewrite E in *; cbn in *; lia.
Qed.

Section dotted.
Context `{Platform}.

(** What a component of the text is read as. *)
Definition number_of (f : cstr) : Z :=
  if 10 <? strlen f then 0 else ULONG (num_value 10 (fun c => char_val c - 48) f).
Definition fits_digits (f : cstr) : bool := strlen f <? 16.

Lemma copy_digits_short f rest pre old post n :
  46 ∉ f -> wf_cstr f -> (rest = [] \/ head rest = Some 46) ->
  length old = length f -> (length f <= n)%nat ->
  copy_digits (f ++ rest) (Zlen pre) (pre ++ old ++ post) n = Done (pre ++ f ++ post, rest).
Proof.
  intros Hf Hwf Hrest. revert pre old n. induction f as [|c f IH]; intros pre old n Hl Hn.
  - destruct old; [|done]. cbn [app]. destruct n; [done|]. cbn [copy_digits].
    destruct Hrest as [->|Hr]; [done|]. unfold deref. by rewrite Hr.
  - destruct old as [|o old]; [done|]. apply not_elem_of_cons in Hf as [Hc Hf]. inversion_clear Hwf.
    destruct n as [|n]; [cbn in Hn; lia|]. cbn [copy_digits app deref head default id].
    destruct (Z.eqb_spec c 46); [done|]. destruct (Z.eqb_spec c 0); [lia|]. cbn [orb tail].
    rewrite buf_put_at by done. cbn [mbind outcome_bind].
    specialize (IH Hf ltac:(done) (pre ++ [c]) old n ltac:(cbn in *; lia) ltac:(cbn in *; lia)).
    rewrite <-!app_assoc in IH. cbn [app] in IH.
    replace (Zlen pre + 1) with (Zlen (pre ++ [c])) by (rewrite length_app; cbn; lia).
    exact IH.
Qed.

(** Sixteen characters leave no room for a terminator. *)
Lemma copy_digits_long f rest pre old n :
  46 ∉ f -> wf_cstr f -> length old = n -> (n <= length f)%nat ->
  copy_digits (f ++ rest) (Zlen pre) (pre ++ old) n = Done (pre ++ take n f, drop n f ++ rest).
Proof.
  intros Hf Hwf. revert pre old f Hf Hwf. induction n as [|n IH]; intros pre old f Hf Hwf Hl Hn.
  - destruct old; [|done]. cbn. done.
  - destruct old as [|o old]; [done|]. destruct f as [|c f]; [cbn in Hn; lia|].
    apply not_elem_of_cons in Hf as [Hc Hf]. inversion_clear Hwf.
    cbn [copy_digits app deref head default id]. destruct (Z.eqb_spec c 46); [done|]. destruct (Z.eqb_spec c 0); [lia|].
    cbn [orb tail]. rewrite buf_put_at by done. cbn [mbind outcome_bind].
    specialize (IH (pre ++ [c]) old f Hf ltac:(done) ltac:(cbn in *; lia) ltac:(cbn in *; lia)).
    rewrite <-!app_assoc in IH. cbn [app] in IH.
    replace (Zlen pre + 1) with (Zlen (pre ++ [c])) by (rewrite length_app; cbn; lia). exact IH.
Qed.

Lemma buf_cstr_unterminated s : wf_cstr s -> buf_cstr s = None.
Proof. induction 1 as [|c s Hc Hs IH]; [done|]. cbn. destruct (Z.eqb_spec c 0); [lia|]. by rewrite IH. Qed.

(** One component: its value, or the over-read. *)
Lemma component_spec f rest :
  46 ∉ f -> wf_cstr f -> (rest = [] \/ head rest = Some 46) ->
  exists d r, copy_digits (f ++ rest) 0 (replicate 16 0) 16 = Done (d, r) /\
    if fits_digits f then r = rest /\ buf_cstr d = Some f else buf_cstr d = None.
Proof.
  intros Hf Hwf Hrest. unfold fits_digits, strlen. destruct (Z.ltb_spec (Zlen f) 16) as [Hlt|Hge].
  - exists (f ++ replicate (16 - length f) 0), rest. split.
    + pose proof (copy_digits_short f rest [] (replicate (length f) 0) (replicate (16 - length f) 0) 16 Hf Hwf Hrest) as E.
      cbn [app length] in E. rewrite <-replicate_add in E. change (Z.of_nat 0) with 0 in E.
      replace (length f + (16 - length f))%nat with 16%nat in E by lia. apply E; [apply length_replicate|lia].
    + split; [done|]. replace (16 - length f)%nat with (S (15 - length f)) by lia. by apply buf_cstr_app.
  - exists (take 16 f), (drop 16 f ++ rest). split.
    + apply (copy_digits_long f rest [] (replicate 16 0) 16); [done..|lia].
    + apply buf_cstr_unterminated. by apply Forall_take.
Qed.

Lemma conv_identifiers_spec s pre old count :
  wf_cstr s -> length old = length (fields s) -> count = Zlen (pre ++ old) ->
  conv_identifiers s (Some (pre ++ old)) count (Zlen pre) (length old) =
    if forallb fits_digits (fields s) then Done (Some (pre ++ (number_of <$> fields s))) else Stuck OutOfBounds.
Proof.
  revert s pre. induction old as [|o old IH]; intros s pre Hwf Hl Hcount.
  { exfalso. pose proof (fields_count s). unfold count_dots in *. cbn in Hl. lia. }
  destruct (fields_split s) as (f & rest & -> & Hf & Hs). apply wf_cstr_app in Hwf as [Hwf Hwr].
  destruct (component_spec f rest Hf Hwf) as (d & r & E & Hd).
  { destruct Hs as [(-> & _)|(s' & -> & _)]; auto. }
  cbn [length conv_identifiers]. rewrite E. cbn [mbind outcome_bind].
  assert (Hfs : exists fs, fields (f ++ rest) = f :: fs) by (destruct Hs as [(_ & ->)|(s' & _ & ->)]; eauto).
  destruct (fits_digits f) eqn:Hfit.
  2: { rewrite Hd. destruct Hfs as [fs ->]. cbn [forallb]. by rewrite Hfit. }
  destruct Hd as [-> ->]. cbn [mbind outcome_bind]. rewrite AnscGetStringUlong_spec. fold (number_of f).
  cbn [mbind outcome_bind set_item]. rewrite buf_put_at by done. cbn [fmap outcome_fmap mbind outcome_bind].
  replace (pre ++ number_of f :: old) with ((pre ++ [number_of f]) ++ old) by by rewrite <-app_assoc.
  replace (Zlen pre + 1) with (Zlen (pre ++ [number_of f])) by (rewrite length_app; cbn; lia).
  destruct Hs as [(-> & Hs)|(s' & -> & Hs)]; rewrite Hs in *; cbn [forallb fmap list_fmap]; rewrite Hfit; cbn [andb].
  - destruct old; [|done]. cbn [deref head default id Z.eqb]. subst count. rewrite !length_app. cbn [length].
    destruct (Z.eqb_spec (Zlen pre) (Z.of_nat (length pre + 1) - 1)); [|lia]. cbn. by rewrite app_nil_r.
  - cbn [deref head default id Z.eqb Pos.eqb tail]. rewrite IH.
    + destruct (forallb _ _); [by rewrite <-app_assoc|done].
    + by inversion_clear Hwr.
    + cbn in Hl. lia.
    + subst count. rewrite !length_app. cbn. lia.
Qed.

End dotted.

(** ** Integers *)

(** The number that the octets of an integer stand for. *)
Definition int_value (neg : Z) (octets : list Z) : Z :=
  (if neg =? 0 then 1 else -1) * num_value 256 (fun b => b) octets.

Lemma num_value_octets l : Forall is_byte l -> 0 <= num_value 256 (fun b => b) l < 256 ^ Zlen l.
Proof.
  induction 1 as [|x l Hx Hl IH]; [done|]. rewrite num_value_cons. unfold is_byte in Hx.
  cbn [length]. rewrite Nat2Z.inj_succ, Z.pow_succ_r by lia. nia.
Qed.

Lemma lex_octets l1 l2 :
  Forall is_byte l1 -> Forall is_byte l2 -> length l1 = length l2 ->
  lex l1 l2 = (num_value 256 (fun b => b) l1 ?= num_value 256 (fun b => b) l2).
Proof.
  intros H1. revert l2. induction H1 as [|x l1 Hx Hl1 IH]; intros l2 H2 Hl.
  { by destruct l2. }
  destruct H2 as [|y l2 Hy Hl2]; [done|]. injection Hl as Hl. rewrite !num_value_cons, Hl.
  pose proof (num_value_octets l1 Hl1) as B1. pose proof (num_value_octets l2 Hl2) as B2. rewrite Hl in B1.
  unfold lex. cbn [list_compare]. fold lex. symmetry.
  destruct (Z.compare_spec x y) as [->|Hlt|Hgt].
  - rewrite IH by done. destruct (Z.compare_spec (num_value 256 (fun b => b) l1) (num_value 256 (fun b => b) l2));
      [apply Z.compare_eq_iff|apply Z.compare_lt_iff|apply Z.compare_gt_iff]; lia.
  - apply Z.compare_lt_iff. nia.
  - apply Z.compare_gt_iff. nia.
Qed.

(** The components of a text, joined by dots. *)
Fixpoint dotted_text (ws : list cstr) : cstr :=
  match ws with [] => [] | [w] => w | w :: ws => w ++ 46 :: dotted_text ws end.

Lemma digits_no_dot w : Forall is_digit w -> 46 ∉ w.
Proof. intros Hw Hin. rewrite Forall_forall in Hw. apply Hw in Hin. unfold is_digit in Hin. lia. Qed.

Lemma fields_dotted ws : ws ≠ [] -> Forall (Forall is_digit) ws -> fields (dotted_text ws) = ws.
Proof.
  intros Hne Hws. induction Hws as [|w ws Hw Hws IH]; [done|]. cbn [dotted_text].
  destruct ws as [|w' ws]; [by apply fields_single, digits_no_dot|].
  rewrite fields_app by by apply digits_no_dot. by rewrite IH.
Qed.

Lemma dotted_text_wf ws : Forall (Forall is_digit) ws -> wf_cstr (dotted_text ws).
Proof.
  assert (Hd : forall w, Forall is_digit w -> wf_cstr w).
  { intros w Hw. eapply Forall_impl; [done|]. unfold is_digit. cbn. lia. }
  induction 1 as [|w ws Hw Hws IH]; [constructor|]. cbn [dotted_text].
  destruct ws as [|w' ws]; [by apply Hd|]. apply wf_cstr_app. split; [by apply Hd|]. by constructor.
Qed.

Lemma dotted_text_ends ws :
  ws ≠ [] -> Forall (Forall is_digit) ws -> Forall (fun w => w ≠ []) ws ->
  dotted_text ws ≠ [] /\ head (dotted_text ws) ≠ Some 46 /\ last (dotted_text ws) ≠ Some 46.
Proof.
  intros Hne Hws Hn. induction Hws as [|w ws Hw Hws IH]; [done|]. inversion_clear Hn as [|? ? Hw0 Hn'].
  pose proof (digits_no_dot w Hw) as Hdot. cbn [dotted_text].
  assert (Hh : forall r, head (w ++ r) ≠ Some 46).
  { destruct w; [done|]. cbn. intros r [= ->]. apply Hdot. left. }
  destruct ws as [|w' ws].
  - split; [done|]. split; [specialize (Hh []); by rewrite app_nil_r in Hh|].
    intros Hl%last_Some_elem_of. done.
  - destruct IH as (Hs & _ & Hl); [done..|]. split; [by destruct w|]. split; [apply Hh|].
    rewrite last_app, last_cons. destruct (last (dotted_text (w' :: ws))) eqn:E; [done|]. by apply last_None_nil in E.
Qed.

Section fields_of_text.
Context `{Platform}.
Variable s : cstr.
Hypothesis Hwf : wf_cstr s.
Hypothesis Hfit : (strlen s + 1) * sizeof_ULONG < 2 ^ ulong_bits.

Lemma fields_fit : Zlen (fields s) * sizeof_ULONG < 2 ^ ulong_bits.
Proof.
  pose proof sizeof_ULONG_pos. rewrite fields_count. unfold count_dots.
  pose proof (length_filter (fun c => c = 46) s). unfold strlen in Hfit. nia.
Qed.

Lemma fields_block : block (fresh_items None (Zlen (fields s))) = Some ([] ++ replicate (length (fields s)) 0).
Proof.
  cbn [fresh_items]. rewrite Nat2Z.id. pose proof (fields_count s). unfold count_dots in *.
  destruct (fields s); [cbn in *; lia|done].
Qed.

(** A text that has no dot at its ends. *)
Definition conv_fields (a : alloc_stream) : outcome (option ANSC_ASN1_OID * alloc_stream) :=
  r ← AnscAsn1AllocOid None (Zlen (fields s)) a;
  match r with
  | (None, a) => Done (None, a)
  | (Some oid, a) =>
      ids ← conv_identifiers s (oid_Identifiers oid) (Zlen (fields s)) 0 (length (fields s));
      Done (Some (Oid (oid_ArraySize oid) (oid_Length oid) ids), a)
  end.

Lemma AnscAsn1ConvOid_run a :
  s ≠ [] ->
  AnscAsn1ConvOid s a =
    if decide (head s = Some 46 \/ last s = Some 46) then Done (None, a) else conv_fields a.
Proof.
  intros Hne. unfold AnscAsn1ConvOid. destruct (Z.eqb_spec (strlen s) 0) as [E|_].
  { unfold strlen in E. destruct s; [done|]. cbn in E. lia. }
  destruct (last s) as [l|] eqn:El; [|by apply last_None_nil in El].
  rewrite last_lookup in El. unfold strlen.
  rewrite (buf_get_Z s _ l) by (destruct s; [done|]; cbn [length] in *; lia || (rewrite <-El; f_equal; lia)).
  cbn [mbind outcome_bind].
  assert (Hc : ULONG (count_dots s + 1) = Zlen (fields s)).
  { rewrite fields_count. apply ULONG_small. unfold count_dots. pose proof sizeof_ULONG_pos.
    pose proof (length_filter (fun c => c = 46) s). unfold strlen in Hfit. nia. }
  rewrite Hc, Nat2Z.id.
  assert (Hd : ((deref s =? 46) || (l =? 46))%bool = bool_decide (head s = Some 46 \/ Some l = Some 46)).
  { apply eq_true_iff_eq. rewrite bool_decide_eq_true, orb_true_iff, !Z.eqb_eq. unfold deref.
    destruct s as [|c s']; [done|]. cbn. naive_solver. }
  rewrite Hd. case_bool_decide; [by rewrite decide_True|by rewrite decide_False].
Qed.

Lemma conv_fields_identifiers :
  conv_identifiers s (Some ([] ++ replicate (length (fields s)) 0)) (Zlen (fields s)) 0 (length (fields s)) =
    if forallb fits_digits (fields s) then Done (Some (number_of <$> fields s)) else Stuck OutOfBounds.
Proof.
  pose proof (conv_identifiers_spec s [] (replicate (length (fields s)) 0) (Zlen (fields s)) Hwf) as E.
  rewrite length_replicate in E. apply E; [done|]. cbn. by rewrite length_replicate.
Qed.

Lemma conv_fields_ok a :
  forallb fits_digits (fields s) = true ->
  yields (conv_fields a) a (fun o => oid_is o (number_of <$> fields s)).
Proof.
  intros Hall. destruct (AnscAsn1AllocOid_spec None (Zlen (fields s)) a) as (r & a' & E & Hr); [lia|apply fields_fit|done|].
  unfold conv_fields. rewrite E. cbn [mbind outcome_bind]. destruct r as [o|]; [|by eexists None, _].
  subst o. cbn [oid_Identifiers oid_ArraySize oid_Length]. rewrite fields_block, conv_fields_identifiers, Hall.
  eexists _, _. split; [done|]. pose proof fields_fit.
  split_and!; cbn; rewrite length_fmap; [done|by rewrite take_ge by by rewrite length_fmap|done].
Qed.

Lemma conv_fields_overread : forallb fits_digits (fields s) = false -> conv_fields [] = Stuck OutOfBounds.
Proof.
  intros Hall. destruct (AnscAsn1AllocOid_spec None (Zlen (fields s)) []) as (r & a' & E & Hr); [lia|apply fields_fit|done|].
  unfold conv_fields. rewrite E. cbn [mbind outcome_bind]. destruct r as [o|]; [|by destruct Hr].
  subst o. cbn [oid_Identifiers]. by rewrite fields_block, conv_fields_identifiers, Hall.
Qed.

End fields_of_text.

(** ** Properties *)

(** C32. Searching a sorted array of object identifiers: [AnscAsn1SortOidArray]
    on an array of pointers to identifiers fails only when its work array
    cannot be allocated, and then leaves the array alone; otherwise the array
    holds the same pointers in the lexicographic order of their identifiers,
    those with equal identifiers in reversed order, and
    [AnscAsn1MarkOidInArray] on it tells for every identifier whether the array
    has it and yields the number of smaller elements, the index at which a
    pointer to it can be inserted with the array still sorted. *)
Theorem sort_then_search `{Platform} st arr a p
  (Harr : Forall (oid_ptr st) arr) (Hp : oid_ptr st p) (Hfit : sizeof_ULONG * Zlen arr < 2 ^ ulong_bits) :
  (a !! 0%nat = Some false /\
     exists a', AnscAsn1SortOidArray st arr (Zlen arr) a = Done (ANSC_STATUS_RESOURCES, arr, a')) \/
  exists arr' a', AnscAsn1SortOidArray st arr (Zlen arr) a = Done (ANSC_STATUS_SUCCESS, arr', a') /\
    arr' ≡ₚ arr /\ StronglySorted (ptr_le st) arr' /\
    (forall ids, filter (fun q => ids_of st q = ids) arr' = reverse (filter (fun q => ids_of st q = ids) arr)) /\
    let k := length (filter (fun q => ptr_lt st q p) arr) in
    AnscAsn1MarkOidInArray st p arr' (Zlen arr) = Done (bool_decide (ids_of st p ∈ ids_of st <$> arr), Z.of_nat k) /\
    StronglySorted (ptr_le st) (take k arr' ++ p :: drop k arr').
Proof.
  destruct (decide (a !! 0%nat = Some false)) as [Ha|Ha].
  { left. split; [done|]. destruct a as [|[] a]; try done. by eexists. }
  right. exists (sorted_oids st arr), (next_alloc a).2.
  split; [by apply AnscAsn1SortOidArray_run|]. pose proof (sorted_oids_perm st arr) as Hperm.
  pose proof (sorted_oids_sorted st arr) as Hs.
  split; [done|]. split; [done|]. split; [intros; apply sorted_oids_equals|]. cbn zeta.
  rewrite <-(Permutation_length Hperm).
  rewrite AnscAsn1MarkOidInArray_sorted by (done || by rewrite Hperm).
  assert (Hk : length (filter (fun q => ptr_lt st q p) (sorted_oids st arr)) =
    length (filter (fun q => ptr_lt st q p) arr)) by by rewrite Hperm.
  split.
  - rewrite Hk. do 2 f_equal. apply bool_decide_ext. by rewrite Hperm.
  - rewrite <-Hk, <-place_sorted by done. by apply insert_sorted_sorted.
Qed.

(** 1.3.6 and 1.3 and another 1.3, and 1.4 to search. *)
Definition example_pool : gmap Z ANSC_ASN1_OID :=
  let oid l := Oid (Zlen l * 8) (Zlen l) (Some l) in
  {[ 11 := oid [1; 3; 6]; 12 := oid [1; 3]; 13 := oid [1; 3]; 14 := oid [1; 4] ]}.

Lemma example_ptrs : let _ := lp64 in Forall (oid_ptr example_pool) [11; 12; 13; 14].
Proof.
  cbn zeta. repeat (apply Forall_cons; split); [..|by constructor].
  all: split; [done|]; eexists; (split; [vm_compute; reflexivity|]); by vm_compute.
Qed.

Theorem sort_then_search_witness :
  let _ := lp64 in
  exists arr' a', AnscAsn1SortOidArray example_pool [11; 12; 13] 3 [] = Done (ANSC_STATUS_SUCCESS, arr', a') /\
    arr' = [13; 12; 11] /\ AnscAsn1MarkOidInArray example_pool 14 arr' 3 = Done (false, 3).
Proof.
  cbn zeta. pose proof example_ptrs as Hptrs. cbn zeta in Hptrs.
  rewrite !Forall_cons in Hptrs. destruct Hptrs as (H11 & H12 & H13 & H14 & _).
  destruct (@sort_then_search lp64 example_pool [11; 12; 13] [] 14) as [[Hx _]|(arr' & a' & E & _ & _ & _ & Hm & _)].
  - rewrite !Forall_cons. by split_and!.
  - done.
  - by vm_compute.
  - done.
  - exists arr', a'. split; [exact E|]. vm_compute in E. injection E as <- <-. by split; [|vm_compute].
Defined.

(** The dotted notation: [AnscAsn1ConvOid] on a text yields the empty
    identifier for the empty text, NULL for a text that starts or ends with a
    dot, and otherwise one number per field between dots, each field of at
    most ten characters read as a decimal and each longer one as 0, unless an
    allocation fails; a field of sixteen characters or more fills the work
    buffer, which is then read past its end. *)
Theorem AnscAsn1ConvOid_spec `{Platform} s a
  (Hwf : wf_cstr s) (Hfit : (strlen s + 1) * sizeof_ULONG < 2 ^ ulong_bits) :
  if decide (s ≠ [] /\ (head s = Some 46 \/ last s = Some 46)) then AnscAsn1ConvOid s a = Done (None, a)
  else if decide (s = []) then yields (AnscAsn1ConvOid s a) a (fun o => oid_is o [])
  else if forallb fits_digits (fields s)
  then yields (AnscAsn1ConvOid s a) a (fun o => oid_is o (number_of <$> fields s))
  else AnscAsn1ConvOid s [] = Stuck OutOfBounds.
Proof.
  destruct (decide (s = [])) as [->|Hne].
  { rewrite decide_False by (by intros [? _]). unfold AnscAsn1ConvOid.
    eapply yields_mono; [|by apply AnscAsn1AllocOid_spec; [|apply ulong_modulus_pos|]].
    intros o ->. split_and!; [done..|]. apply ulong_modulus_pos. }
  rewrite !AnscAsn1ConvOid_run by done.
  destruct (decide (head s = Some 46 \/ last s = Some 46)) as [Hdot|Hdot].
  { by rewrite decide_True. }
  rewrite decide_False by tauto. destruct (forallb fits_digits (fields s)) eqn:Hall.
  - by apply conv_fields_ok.
  - by apply conv_fields_overread.
Qed.

Theorem AnscAsn1ConvOid_spec_witness :
  let _ := lp64 in
  (exists o a', AnscAsn1ConvOid (lit "1.3.6..4294967296") [] = Done (Some o, a') /\ oid_is o [1; 3; 6; 0; 4294967296]) /\
  AnscAsn1ConvOid (lit "1.3.6.") [] = Done (None, []) /\
  AnscAsn1ConvOid (lit "1.0000000000000003") [] = Stuck OutOfBounds.
Proof.
  cbn zeta.
  pose proof (@AnscAsn1ConvOid_spec lp64 (lit "1.3.6..4294967296") []) as H1.
  pose proof (@AnscAsn1ConvOid_spec lp64 (lit "1.3.6.") []) as H2.
  pose proof (@AnscAsn1ConvOid_spec lp64 (lit "1.0000000000000003") []) as H3.
  split; [|split].
  - destruct H1 as (r & a' & E & Hr); [by repeat constructor|by vm_compute|].
    destruct r as [o|]; [|by destruct Hr]. by exists o, a'.
  - apply H2; [by repeat constructor|by vm_compute].
  - apply H3; [by repeat constructor|by vm_compute].
Defined.

(** C33. Round trip of object identifiers: the decimal numerals of the
    components, joined by dots, are converted back to the identifier, except
    that a component of eleven to fifteen digits becomes 0.  A component of
    sixteen digits or more, which an unsigned long of 64 bits can have, fills
    the work buffer, and the conversion reads past its end, unless the
    allocation of the identifier fails and the result is NULL.  The size of the
    array in bytes fits an unsigned long. *)
Theorem oid_text_round_trip `{Platform} (l : list Z) (ws : list cstr) a
  (Hne : l ≠ []) (Hl : Forall (fun v => 0 <= v < 2 ^ ulong_bits) l) (Hws : Forall2 decimal l ws)
  (Hfit : (strlen (dotted_text ws) + 1) * sizeof_ULONG < 2 ^ ulong_bits) :
  if forallb (fun w => strlen w <? 16) ws
  then yields (AnscAsn1ConvOid (dotted_text ws) a) a
    (fun o => oid_is o ((fun v => if v <? 10 ^ 10 then v else 0) <$> l))
  else AnscAsn1ConvOid (dotted_text ws) [] = Stuck OutOfBounds.
Proof.
  assert (Hwf : Forall (Forall is_digit) ws).
  { clear - Hws. induction Hws as [|v w l ws Hd _ IH]; [constructor|]. constructor; [by destruct Hd as [? _]|done]. }
  assert (Hne' : Forall (fun w => w ≠ []) ws).
  { clear - Hws. induction Hws as [|v w l ws Hd _ IH]; [constructor|]. constructor; [|done]. by destruct Hd as (_ & _ & c & r & -> & _). }
  assert (Hws0 : ws ≠ []) by (by intros ->; inversion Hws; subst).
  destruct (dotted_text_ends ws) as (Hs & Hh & Hla); [done..|].
  rewrite !AnscAsn1ConvOid_run, !decide_False by (done || tauto || by apply dotted_text_wf).
  assert (Hn : (number_of <$> fields (dotted_text ws)) = (fun v => if v <? 10 ^ 10 then v else 0) <$> l).
  { rewrite fields_dotted by done. clear - Hws Hl. induction Hws as [|v w l ws Hd _ IH]; [done|].
    inversion_clear Hl. cbn [fmap list_fmap]. f_equal; [|by apply IH].
    pose proof (AnscGetStringUlong_decimal v w ltac:(done) Hd) as E. rewrite AnscGetStringUlong_spec in E. by injection E as <-. }
  rewrite <-Hn. change (forallb (fun w => strlen w <? 16) ws) with (forallb fits_digits ws).
  destruct (forallb fits_digits ws) eqn:Hall.
  - apply conv_fields_ok; [by apply dotted_text_wf|done|by rewrite fields_dotted].
  - apply conv_fields_overread; [by apply dotted_text_wf|done|by rewrite fields_dotted].
Qed.

Theorem oid_text_round_trip_witness :
  let _ := ilp32 in
  exists o a', AnscAsn1ConvOid (lit "1.3.6.1.4.1.4491") [] = Done (Some o, a') /\ oid_is o [1; 3; 6; 1; 4; 1; 4491].
Proof.
  cbn zeta.
  destruct (@oid_text_round_trip ilp32 [1; 3; 6; 1; 4; 1; 4491]
    [lit "1"; lit "3"; lit "6"; lit "1"; lit "4"; lit "1"; lit "4491"] []) as (r & a' & E & Hr).
  - done.
  - repeat (apply Forall_cons; split; [by vm_compute|]). by constructor.
  - repeat (apply Forall2_cons; split); [..|by constructor].
    all: (split; [by repeat constructor|]); (split; [done|]); by eexists _, _.
  - by vm_compute.
  - destruct r as [o|]; [|by destruct Hr]. by exists o, a'.
Defined.

(** The order of ASN.1 integers: on integers with the same number of
    octets [AnscAsn1CompInts] is the order of the numbers they stand for
    (a negative zero comes before a positive one); on non-negative integers of
    different lengths without leading zero octets the first octet decides, so
    that a longer and therefore greater integer that starts with a smaller
    octet is reported to be the smaller one. *)
Theorem AnscAsn1CompInts_order `{Platform} i1 i2 n1 n2 l1 l2
  (H1 : int_is i1 n1 l1) (H2 : int_is i2 n2 l2) (B1 : Forall is_byte l1) (B2 : Forall is_byte l2) :
  (length l1 = length l2 -> n1 = n2 ->
     AnscAsn1CompInts i1 i2 = Done (sign (int_value n1 l1 ?= int_value n2 l2))) /\
  (length l1 = length l2 -> n1 ≠ n2 -> (n1 = 0 \/ n2 = 0) -> int_value n1 l1 ≠ int_value n2 l2 ->
     AnscAsn1CompInts i1 i2 = Done (sign (int_value n1 l1 ?= int_value n2 l2))) /\
  (forall x r1 y r2, n1 = 0 -> n2 = 0 -> l1 = x :: r1 -> l2 = y :: r2 ->
     (length l1 < length l2)%nat -> 0 < y < x ->
     AnscAsn1CompInts i1 i2 = Done 1 /\ int_value n1 l1 < int_value n2 l2).
Proof.
  rewrite (AnscAsn1CompInts_spec _ _ _ _ _ _ H1 H2). unfold int_value.
  pose proof (num_value_octets l1 B1) as V1. pose proof (num_value_octets l2 B2) as V2.
  split; [|split].
  - intros Hl <-. rewrite Z.eqb_refl, (lex_octets l1 l2) by done. destruct (n1 =? 0); [by rewrite !Z.mul_1_l|].
    set (v1 := num_value _ _ l1). set (v2 := num_value _ _ l2).
    replace (-1 * v1) with (- v1) by lia. replace (-1 * v2) with (- v2) by lia.
    rewrite Z.compare_opp, (Z.compare_antisym v1 v2). by destruct (v1 ?= v2).
  - intros Hl Hn Hz Hv. destruct (Z.eqb_spec n1 n2); [done|].
    destruct (Z.eqb_spec n1 0), (Z.eqb_spec n2 0); try lia; f_equal; symmetry.
    + rewrite (proj2 (Z.compare_gt_iff _ _)); [done|lia].
    + rewrite (proj2 (Z.compare_lt_iff _ _)); [done|lia].
  - intros x r1 y r2 -> -> -> -> Hl Hxy. cbn [Z.eqb]. unfold lex. cbn [list_compare]. 
    rewrite (proj2 (Z.compare_gt_iff x y)) by lia. split; [done|]. rewrite !Z.mul_1_l.
    apply Forall_cons in B2 as [_ B2]. pose proof (num_value_octets r2 B2). rewrite (num_value_cons _ _ y).
    assert (256 ^ Zlen (x :: r1) <= 256 ^ Zlen r2) by (apply Z.pow_le_mono_r; cbn in *; lia). nia.
Qed.

Theorem AnscAsn1CompInts_order_witness :
  let _ := lp64 in
  let i1 := Asn1Int 0 1 1 (Some [2]) in let i2 := Asn1Int 0 2 2 (Some [1; 0]) in
  AnscAsn1CompInts i1 i2 = Done 1 /\ int_value 0 [2] < int_value 0 [1; 0].
Proof.
  cbn zeta.
  destruct (@AnscAsn1CompInts_order lp64 (Asn1Int 0 1 1 (Some [2])) (Asn1Int 0 2 2 (Some [1; 0])) 0 0 [2] [1; 0])
    as (_ & _ & Hlong).
  - by vm_compute.
  - by vm_compute.
  - by repeat constructor.
  - by repeat constructor.
  - by apply (Hlong 2 [] 1 [0]); [..|cbn; lia|lia].
Defined.

(** Object identifiers as paths: [AnscAsn1CompOids] decides the
    lexicographic order of the component sequences, [AnscAsn1ConcOids] whether
    the second identifier is a prefix of the first; [AnscAsn1CombOids] yields,
    unless an allocation fails, an identifier that stands for the concatenation,
    has its first argument as a prefix and comes behind it unless the second is
    empty; and a clone compares equal to the original. *)
Theorem oid_operations `{Platform} o1 o2 l1 l2 a
  (H1 : oid_is o1 l1) (H2 : oid_is o2 l2) (Hfit : Zlen (l1 ++ l2) * sizeof_ULONG < 2 ^ ulong_bits) :
  AnscAsn1CompOids o1 o2 = Done (sign (lex l1 l2)) /\
  AnscAsn1ConcOids o1 o2 = Done (bool_decide (l2 `prefix_of` l1)) /\
  yields (AnscAsn1CombOids o1 o2 a) a (fun o =>
    oid_is o (l1 ++ l2) /\ AnscAsn1ConcOids o o1 = Done true /\
    AnscAsn1CompOids o1 o = Done (if bool_decide (l2 = []) then 0 else -1)) /\
  yields (AnscAsn1CloneOid (Some o1) a) a (fun o => oid_is o l1 /\ AnscAsn1CompOids o o1 = Done 0).
Proof.
  split; [by apply AnscAsn1CompOids_spec|]. split; [by apply AnscAsn1ConcOids_spec|]. split.
  - eapply yields_mono; [|by apply AnscAsn1CombOids_spec]. intros o Ho. split; [done|].
    rewrite (AnscAsn1ConcOids_spec o o1 _ _ Ho H1), (AnscAsn1CompOids_spec o1 o _ _ H1 Ho).
    rewrite bool_decide_true by by apply prefix_app_r. split; [done|].
    assert (Hlex : lex (l1 ++ []) (l1 ++ l2) = lex [] l2).
    { apply list_compare_app. intros. apply Z.compare_eq_iff. }
    rewrite app_nil_r in Hlex. rewrite Hlex. by destruct l2.
  - eapply yields_mono; [|by apply AnscAsn1CloneOid_spec]. intros o Ho. split; [done|].
    by rewrite (AnscAsn1CompOids_spec o o1 l1 l1), lex_refl.
Qed.

Theorem oid_operations_witness :
  let _ := ilp32 in
  let o1 := Oid 8 2 (Some [1; 3]) in let o2 := Oid 8 2 (Some [6; 1]) in
  AnscAsn1CompOids o1 o2 = Done (-1) /\
  exists o a', AnscAsn1CombOids o1 o2 [] = Done (Some o, a') /\ oid_is o [1; 3; 6; 1].
Proof.
  cbn zeta.
  destruct (@oid_operations ilp32 (Oid 8 2 (Some [1; 3])) (Oid 8 2 (Some [6; 1])) [1; 3] [6; 1] [])
    as (Hc & _ & (r & a' & E & Hr) & _); [by vm_compute..|].
  split; [exact Hc|]. destruct r as [o|]; [|by destruct Hr]. exists o, a'. split; [exact E|apply Hr].
Defined.
