(* ===== verification/DerLength.v ===== *)
(** * Lengths and headers of DER ([asn1_basic/ansc_asn1_utils.c], [ansc_asn1_taginfo_interface.c])

    A value of ASN.1 is sent as a tag, a length and the contents.  The file has
    the routines that write and read lengths and headers.  A pointer that is
    written through is a buffer and a position in it, a pointer that is read
    through is the list of the bytes from there to the end of the memory.
    Lengths are shown to be read back where an unsigned long has 32 bits, and
    what is read where it has 64 is stated. *)

From S2P Require Import Prelude Checksum Asn1.
Open Scope Z_scope.

(** The statuses of ASN.1 (ansc_asn1_status.h). *)
Inductive asn1_status :=
  | ASN1_SUCCESS
  | ANSC_ASN1_BAD_PARAMETER
  | ANSC_ASN1_BAD_OID_VALUE
  | ANSC_ASN1_UNEXPECTED_TAG
  | ANSC_ASN1_INVALID_ENCODE_LENGTH
  | ANSC_ASN1_INFINITE_END_MISSED
  | ANSC_ASN1_UNACCEPTABLE_VALUE_SIZE
  | ANSC_ASN1_NO_ENOUGH_SIZE
  | ANSC_ASN1_INVALID_VALUE
  | ANSC_ASN1_NOT_READY_TO_ENCODE.
#[export] Instance asn1_status_dec : EqDecision asn1_status.
Proof. solve_decision. Defined.

(** The number of a status, [0xFFFF8000 + k], where it is used as one. *)
Definition asn1_code (s : asn1_status) : Z :=
  match s with
  | ASN1_SUCCESS => 0
  | ANSC_ASN1_BAD_PARAMETER => 4294934528 + 2
  | ANSC_ASN1_BAD_OID_VALUE => 4294934528 + 4
  | ANSC_ASN1_UNEXPECTED_TAG => 4294934528 + 14
  | ANSC_ASN1_INVALID_ENCODE_LENGTH => 4294934528 + 15
  | ANSC_ASN1_INFINITE_END_MISSED => 4294934528 + 16
  | ANSC_ASN1_UNACCEPTABLE_VALUE_SIZE => 4294934528 + 17
  | ANSC_ASN1_NO_ENOUGH_SIZE => 4294934528 + 19
  | ANSC_ASN1_INVALID_VALUE => 4294934528 + 20
  | ANSC_ASN1_NOT_READY_TO_ENCODE => 4294934528 + 21
  end.

(** The types (ansc_asn1_base_interface.h) that the predicates distinguish. *)
Definition ASN1_INTEGER_TYPE : Z := 2.
Definition ASN1_OID_TYPE : Z := 6.
Definition ASN1_SEQUENCE_TYPE : Z := 16.
Definition ASN1_SET_TYPE : Z := 17.
Definition ASN1_USER_DEFINED : Z := 254.
Definition ASN1_CHOICE_TYPE : Z := 255.

Definition IsObjectChoiceType (uType : Z) : bool := uType =? ASN1_CHOICE_TYPE.
Definition IsObjectStringType (uType : Z) : bool :=
  bool_decide (uType ∈ [3; 4; 12; 18; 19; 21; 22; 25; 26; 27; 28; 30; 29]).
Definition IsObjectPrimitiveType (uType : Z) : bool :=
  negb (uType =? ASN1_SEQUENCE_TYPE) && negb (uType =? ASN1_SET_TYPE) &&
  negb (uType =? ASN1_CHOICE_TYPE) && negb (uType =? ASN1_USER_DEFINED).
Definition IsObjectContextType (uType : Z) : bool :=
  (uType =? ASN1_SEQUENCE_TYPE) || (uType =? ASN1_SET_TYPE).
Definition IsObjectUserDefined (uType : Z) : bool := uType =? ASN1_USER_DEFINED.

(** [memcpy] of the first [n] bytes behind a pointer. *)
Definition read_bytes (p : list Z) (n : Z) : outcome (list Z) :=
  if (0 <=? n) && (n <=? Zlen p) then Done (take (Z.to_nat n) p) else Stuck OutOfBounds.

(** The [n] low bytes of a number, the highest first, and the number of bytes. *)
Fixpoint be_bytes (n : nat) (u : Z) : list Z :=
  match n with O => [] | S n => (u / 256 ^ Z.of_nat n) mod 256 :: be_bytes n u end.
Fixpoint be_value (l : list Z) : Z :=
  match l with [] => 0 | b :: r => b * 256 ^ Zlen r + be_value r end.

Record ANSC_TAGINFO_OBJECT := TagInfo {
  ulSizeOfTag : Z; ulSizeOfLength : Z; ulContentLength : Z;
  FirstOctetOfTag : Z; bIsInfinite : bool }.
Definition AnscTagInfoCreate : ANSC_TAGINFO_OBJECT := TagInfo 1 1 0 0 false.

Section der.
Context `{Platform}.

(** ** Writing lengths *)

(** The loop [while (u > 0xFF) { u = u / 256; counter++; }]. *)
Fixpoint count_bytes (fuel : nat) (u counter : Z) : outcome Z :=
  match fuel with
  | O => Stuck Diverge
  | S fuel => if 255 <? u then count_bytes fuel (u / 256) (counter + 1) else Done counter
  end.

(** For a length that is negative as a long, a status is returned as a size. *)
Definition GetSizeOfEncodedLength (ulLength : Z) : outcome Z :=
  if LONG ulLength <? 0 then Done (asn1_code ANSC_ASN1_NOT_READY_TO_ENCODE)
  else if ulLength <=? 127 then Done 1
  else counter ← count_bytes 9 ulLength 1; Done (1 + counter).

(** The bytes of an unsigned long in memory. *)
Definition ulong_mem (u : Z) : list Z :=
  let b := be_bytes (Z.to_nat sizeof_ULONG) u in if little_endian then rev b else b.
Definition AnscUlongFromHToN (u : Z) : Z := if little_endian then AnscSwapUlong u else u.

Fixpoint skip_zeros (pTmp : list Z) (fuel : nat) (i : Z) : outcome Z :=
  match fuel with
  | O => Stuck Diverge
  | S fuel =>
      c ← buf_get pTmp i;
      if (c =? 0) && (i <? sizeof_ULONG) then skip_zeros pTmp fuel (i + 1) else Done i
  end.

(** Writes to [m] from position [p] on; yields the number of bytes written. *)
Definition ASN1WriteUlong (m : list Z) (p length : Z) : outcome (list Z * Z) :=
  if length =? 0 then m ← buf_put m p 0; Done (m, 1)
  else
    let pTmp := ulong_mem (AnscUlongFromHToN length) ++ [0] in
    i ← skip_zeros pTmp (S (Z.to_nat sizeof_ULONG)) 0;
    let counter := sizeof_ULONG - i in
    m ← buf_copy m p (take (Z.to_nat counter) (drop (Z.to_nat i) pTmp));
    Done (m, counter).

Definition EncodeLength (m : list Z) (p ulLength : Z) : outcome (list Z * Z) :=
  if ulLength <=? 127 then m ← buf_put m p (UCHAR ulLength); Done (m, p + 1)
  else
    counter ← count_bytes 9 ulLength 1;
    m ← buf_put m p (Z.lor (UCHAR counter) 128);
    let p := p + 1 in
    '(m, _) ← ASN1WriteUlong m p ulLength;
    Done (m, p + counter).

(** [MaxLengthOctet] is 4. *)
Fixpoint pure_length_from (n : nat) (i TotalLength : Z) : outcome Z :=
  match n with
  | O => Done (-1)
  | S n =>
      encode ← GetSizeOfEncodedLength (ULONG (TotalLength - i));
      if encode =? i then Done (LONG (TotalLength - i)) else pure_length_from n (i + 1) TotalLength
  end.
Definition GetPureEncodedLength (TotalLength : Z) : outcome Z := pure_length_from 3 1 TotalLength.

(** ** Reading lengths *)

Definition big_endian_4 (b : list Z) : outcome Z :=
  b3 ← buf_get b 3; b2 ← buf_get b 2; b1 ← buf_get b 1; b0 ← buf_get b 0;
  Done (ULONG (b3 + b2 * 256 + b1 * 65536 + b0 * 16777216)).

Definition GetLengthFromBuffer (pBuffer : list Z) (ulLength : Z) : outcome Z :=
  if ulLength =? 0 then Done 0
  else
    let ulLength := if sizeof_ULONG <? ulLength then sizeof_ULONG else ulLength in
    d ← read_bytes pBuffer ulLength;
    pMyBuffer ← buf_copy (replicate (Z.to_nat sizeof_ULONG) 0) (sizeof_ULONG - ulLength) d;
    big_endian_4 pMyBuffer.

(** Only the first four bytes of [pMyBuffer] are set before the copy, and only
    they are read after it; zeros stand for the others. *)
Definition GetIntegerValueFromBuffer (pBuffer : list Z) (ulLength : Z) : outcome Z :=
  if ulLength =? 0 then Done 0
  else
    c ← buf_get pBuffer 0;
    if c <? 128 then v ← GetLengthFromBuffer pBuffer ulLength; Done (LONG v)
    else
      d ← read_bytes pBuffer ulLength;
      pMyBuffer ← buf_copy (replicate 4 255 ++ replicate (Z.to_nat sizeof_ULONG - 4) 0) (sizeof_ULONG - ulLength) d;
      uValue ← big_endian_4 pMyBuffer;
      Done (LONG (LONG (ULONG (4294967295 - uValue + 1)) * -1)).

(** The scan for two zero bytes; the byte behind the last one is read. *)
Fixpoint infinite_end_from (pBuffer : list Z) (uMaxLength : Z) (fuel : nat) (index : Z) : outcome (option Z) :=
  match fuel with
  | O => Stuck Diverge
  | S fuel =>
      if index <? uMaxLength then
        a ← buf_get pBuffer index;
        b ← buf_get pBuffer (index + 1);
        if (a =? 0) && (b =? 0) then Done (Some index)
        else infinite_end_from pBuffer uMaxLength fuel (if b =? 0 then index + 1 else index + 2)
      else Done None
  end.
Definition LookingForInfiniteEnd (pBuffer : list Z) (uMaxLength : Z) : outcome (option Z) :=
  if uMaxLength <? 2 then Done None
  else infinite_end_from pBuffer uMaxLength (S (Z.to_nat uMaxLength)) 0.

(** ** Headers *)

(** The loop [while (p[i] & 0x80) i++]. *)
Fixpoint tag_octets (p : list Z) (fuel : nat) (i : Z) : outcome Z :=
  match fuel with
  | O => Stuck Diverge
  | S fuel => c ← buf_get p i; if Z.land c 128 =? 0 then Done i else tag_octets p fuel (i + 1)
  end.

Definition AnscTagInfoParsingData (t : ANSC_TAGINFO_OBJECT) (pEncodingUnit : list Z) :
    outcome (asn1_status * ANSC_TAGINFO_OBJECT) :=
  c0 ← buf_get pEncodingUnit 0;
  if c0 =? 0 then Done (ANSC_ASN1_UNEXPECTED_TAG, t)
  else
    i ← (if Z.land c0 31 =? 31 then tag_octets pEncodingUnit (S (length pEncodingUnit)) 1 else Done 0);
    if 4 <=? i then Done (ANSC_ASN1_UNEXPECTED_TAG, t)
    else
      let ulStartOfLength := i + 1 in
      c ← buf_get pEncodingUnit ulStartOfLength;
      if negb (Z.land c 128 =? 0) then
        let t := if c =? 128 then TagInfo (i + 1) 1 (-1) c0 true
                 else TagInfo (i + 1) (ulSizeOfLength t) (ulContentLength t) c0 false in
        if sizeof_ULONG <? Z.land c 127 then Done (ANSC_ASN1_INVALID_ENCODE_LENGTH, t)
        else
          v ← GetLengthFromBuffer (drop (Z.to_nat (ulStartOfLength + 1)) pEncodingUnit) (Z.land c 127);
          Done (ASN1_SUCCESS, TagInfo (i + 1) (Z.land c 127 + 1) (LONG v) c0 (bIsInfinite t))
      else Done (ASN1_SUCCESS, TagInfo (i + 1) 1 c c0 false).

(** The position of the contents and their length.  A header that cannot be
    read leaves the tag information allocated. *)
Definition AnscGotoNextTag (pEncoding : list Z) (length : Z) : outcome (option (Z * Z)) :=
  '(st, t) ← AnscTagInfoParsingData AnscTagInfoCreate pEncoding;
  if bool_decide (st = ASN1_SUCCESS) then
    if negb (ulContentLength t =? 0) then
      let header := ulSizeOfTag t + ulSizeOfLength t in
      if bIsInfinite t then
        if length =? 0 then Done None else Done (Some (header, ULONG (length - header - 2)))
      else Done (Some (header, ULONG (ulContentLength t)))
    else Done None
  else Done None.

Definition AnscGetTLVLength (pEncoding : list Z) : outcome Z :=
  '(st, t) ← AnscTagInfoParsingData AnscTagInfoCreate pEncoding;
  if bool_decide (st = ASN1_SUCCESS) then
    if negb (bIsInfinite t) then Done (ULONG (ulSizeOfTag t + ulSizeOfLength t + ulContentLength t)) else Done 0
  else Done 0.

Definition AnscCheckAsn1Validity (pEncoding : list Z) (uLength : Z) : outcome bool :=
  uLengthWanted ← AnscGetTLVLength pEncoding;
  if uLengthWanted =? 0 then Done true else Done (uLengthWanted <=? uLength).

(** Fresh memory is cleared. *)
Definition ASN1CreateTLV (uTag length : Z) (pData : list Z) : outcome (list Z * Z) :=
  size ← GetSizeOfEncodedLength length;
  let newLength := ULONG (length + 1 + size) in
  let pNewBuffer := replicate (Z.to_nat (ULONG (newLength + 1))) 0 in
  pNewBuffer ← buf_put pNewBuffer 0 uTag;
  '(pNewBuffer, p) ← EncodeLength pNewBuffer 1 length;
  d ← read_bytes pData length;
  pNewBuffer ← buf_copy pNewBuffer p d;
  Done (pNewBuffer, newLength).

(** ** Texts *)

Definition GetVisibleStringFromBMPString (pUData : list Z) (length : Z) (pBuffer : list Z) (pNewLength : option Z) :
    outcome (bool * list Z * option Z) :=
  if (length =? 0) || negb (length mod 2 =? 0) then Done (false, pBuffer, pNewLength)
  else if (match pNewLength with Some n => n <? length / 2 | None => false end) then Done (false, pBuffer, pNewLength)
  else
    b ← for_from 0 (Z.to_nat (length / 2)) (fun i b => c ← buf_get pUData (i * 2 + 1); buf_put b i c) pBuffer;
    Done (true, b, (fun _ => length / 2) <$> pNewLength).

Definition GetBMPStringFromVisibleString (pData : list Z) (length : Z) (pBuffer : list Z) (pNewLength : option Z) :
    outcome (bool * list Z * option Z) :=
  if (length =? 0) || negb (length mod 2 =? 0) then Done (false, pBuffer, pNewLength)
  else if (match pNewLength with Some n => n <? ULONG (length * 2) | None => false end) then Done (false, pBuffer, pNewLength)
  else
    b ← for_from 0 (Z.to_nat length) (fun i b =>
          b ← buf_put b (i * 2) 0; c ← buf_get pData i; buf_put b (i * 2 + 1) c) pBuffer;
    Done (true, b, (fun _ => ULONG (length * 2)) <$> pNewLength).

Fixpoint readable_from (d : list Z) (n : nat) : outcome bool :=
  match n with
  | O => Done true
  | S n =>
      match d with
      | [] => Stuck OutOfBounds
      | c :: r => if c =? 0 then readable_from r n
                  else if (c <? 32) || (126 <? c) then Done false else readable_from r n
      end
  end.
Definition AnscIsReadableString (pEncoding : list Z) (length : Z) : outcome bool :=
  if length =? 0 then Done false
  else c ← buf_get pEncoding 0; if c =? 0 then Done false else readable_from pEncoding (Z.to_nat length).

End der.

(** ** Numbers and bytes *)

(** How many bytes a number has. *)
Definition nbytes (u : Z) : Z := Z.log2 u / 8 + 1.
Definition der_bytes (u : Z) : list Z := be_bytes (Z.to_nat (nbytes u)) u.

(** The length as DER has it. *)
Definition der_length (n : Z) : list Z :=
  if n <=? 127 then [n] else (128 + nbytes n) :: der_bytes n.
Definition der_tlv (tag : Z) (d : list Z) : list Z := tag :: der_length (Zlen d) ++ d.

Lemma length_be_bytes n u : length (be_bytes n u) = n.
Proof. induction n as [|n IH]; cbn; [done|]. by rewrite IH. Qed.

Lemma be_bytes_byte n u : Forall is_byte (be_bytes n u).
Proof. induction n as [|n IH]; cbn; constructor; [|done]. by apply Z.mod_pos_bound. Qed.

Lemma pow256_succ n : 256 ^ Z.of_nat (S n) = 256 * 256 ^ Z.of_nat n.
Proof. rewrite Nat2Z.inj_succ, Z.pow_succ_r by lia. done. Qed.
Lemma pow256_pos n : 0 < 256 ^ Z.of_nat n.
Proof. apply Z.pow_pos_nonneg; lia. Qed.

Lemma be_value_bytes n u : 0 <= u -> be_value (be_bytes n u) = u mod 256 ^ Z.of_nat n.
Proof.
  intros Hu. induction n as [|n IH]; [cbn; by rewrite Z.mod_1_r|].
  cbn [be_bytes be_value]. rewrite length_be_bytes, IH, pow256_succ.
  pose proof (pow256_pos n) as Hp. rewrite (Z.mul_comm 256), Z.rem_mul_r by lia. lia.
Qed.

Lemma be_value_bytes_small n u : 0 <= u < 256 ^ Z.of_nat n -> be_value (be_bytes n u) = u.
Proof. intros Hu. rewrite be_value_bytes by lia. by apply Z.mod_small. Qed.

(** Leading zeros. *)
Lemma be_bytes_zeros k n u : 0 <= u < 256 ^ Z.of_nat n -> be_bytes (k + n) u = replicate k 0 ++ be_bytes n u.
Proof.
  intros Hu. induction k as [|k IH]; [done|]. cbn [be_bytes Nat.add replicate app]. f_equal; [|exact IH].
  rewrite Z.div_small; [done|]. rewrite Nat2Z.inj_add, Z.pow_add_r by lia.
  pose proof (pow256_pos k). nia.
Qed.

Lemma be_value_zeros k l : be_value (replicate k 0 ++ l) = be_value l.
Proof. induction k as [|k IH]; [done|]. cbn. lia. Qed.

Lemma be_value_bound l : Forall is_byte l -> 0 <= be_value l < 256 ^ Zlen l.
Proof.
  unfold is_byte. induction 1 as [|b l Hb Hl IH]; [by cbn|]. cbn [be_value length]. rewrite pow256_succ.
  pose proof (pow256_pos (length l)). nia.
Qed.

Lemma nbytes_pos u : 1 <= nbytes u.
Proof. unfold nbytes. pose proof (Z.log2_nonneg u). assert (0 <= Z.log2 u / 8) by (apply Z.div_pos; lia). lia. Qed.

Lemma nbytes_spec u : 0 < u -> 256 ^ (nbytes u - 1) <= u < 256 ^ nbytes u.
Proof.
  intros Hu. pose proof (Z.log2_spec u Hu) as [Hl Hh]. pose proof (Z.log2_nonneg u) as H0.
  assert (Hq : 0 <= Z.log2 u / 8) by (apply Z.div_pos; lia).
  pose proof (Z.div_mod (Z.log2 u) 8 ltac:(lia)) as Hd. pose proof (Z.mod_pos_bound (Z.log2 u) 8 ltac:(lia)).
  unfold nbytes. change 256 with (2 ^ 8). rewrite <-!Z.pow_mul_r by lia. split.
  - eapply Z.le_trans; [|exact Hl]. apply Z.pow_le_mono_r; lia.
  - eapply Z.lt_le_trans; [exact Hh|]. apply Z.pow_le_mono_r; lia.
Qed.

Lemma nbytes_small u : 0 <= u <= 255 -> nbytes u = 1.
Proof.
  intros Hu. unfold nbytes. enough (Z.log2 u / 8 = 0) by lia. apply Z.div_small.
  split; [apply Z.log2_nonneg|]. destruct (Z.eq_dec u 0) as [->|]; [done|]. apply Z.log2_lt_pow2; cbn; lia.
Qed.

Lemma nbytes_shift u : 256 <= u -> nbytes u = nbytes (u / 256) + 1.
Proof.
  intros Hu. unfold nbytes. change 256 with (2 ^ 8). rewrite <-Z.shiftr_div_pow2, Z.log2_shiftr by lia.
  assert (8 <= Z.log2 u) by (apply Z.log2_le_pow2; cbn; lia). rewrite Z.max_r by lia.
  replace (Z.log2 u) with (Z.log2 u - 8 + 1 * 8) at 1 by lia. rewrite Z.div_add by lia. lia.
Qed.

Lemma nbytes_le u n : 0 <= u < 256 ^ n -> 1 <= n -> nbytes u <= n.
Proof.
  intros Hu Hn. destruct (Z.eq_dec u 0) as [->|]; [by change (nbytes 0) with 1|].
  destruct (nbytes_spec u) as [Hl _]; [lia|]. assert (nbytes u - 1 < n); [|lia].
  apply (Z.pow_lt_mono_r_iff 256); lia.
Qed.

Lemma der_bytes_head u : 0 < u -> exists b r, der_bytes u = b :: r /\ b ≠ 0 /\ is_byte b.
Proof.
  intros Hu. unfold der_bytes. pose proof (nbytes_pos u). destruct (nbytes_spec u Hu) as [Hl Hh].
  replace (Z.to_nat (nbytes u)) with (S (Z.to_nat (nbytes u - 1))) by lia. cbn. rewrite Z2Nat.id by lia.
  replace (nbytes u) with (nbytes u - 1 + 1) in Hh at 1 by lia. rewrite Z.pow_add_r in Hh by lia.
  assert (0 < 256 ^ (nbytes u - 1)) by (apply Z.pow_pos_nonneg; lia).
  assert (1 <= u / 256 ^ (nbytes u - 1) < 256).
  { split; [apply Z.div_le_lower_bound; lia|]. apply Z.div_lt_upper_bound; lia. }
  rewrite Z.mod_small by lia. eexists _, _. split_and!; [done|lia|unfold is_byte; lia].
Qed.

Lemma length_der_bytes u : Zlen (der_bytes u) = nbytes u.
Proof. unfold der_bytes. rewrite length_be_bytes. pose proof (nbytes_pos u). lia. Qed.

Lemma be_value_der_bytes u : 0 <= u -> be_value (der_bytes u) = u.
Proof.
  intros Hu. apply be_value_bytes_small. pose proof (nbytes_pos u). rewrite Z2Nat.id by lia.
  destruct (Z.eq_dec u 0) as [->|]; [done|]. pose proof (nbytes_spec u); lia.
Qed.

Lemma length_der_length n : Zlen (der_length n) = if n <=? 127 then 1 else 1 + nbytes n.
Proof. unfold der_length. case_match; [done|]. cbn [length]. rewrite Nat2Z.inj_succ, length_der_bytes. lia. Qed.

Lemma be_bytes_value l : Forall is_byte l -> be_bytes (length l) (be_value l) = l.
Proof.
  unfold is_byte. induction 1 as [|b l Hb Hl IH]; [done|]. cbn [be_bytes be_value length].
  pose proof (be_value_bound l Hl) as Hv. pose proof (pow256_pos (length l)) as Hp. f_equal.
  - rewrite Z.div_add_l, Z.div_small, Z.add_0_r by lia. by apply Z.mod_small.
  - etransitivity; [|exact IH]. clear IH Hl. generalize dependent (be_value l). intros v Hv.
    assert (Hgen : forall n, (n <= length l)%nat -> be_bytes n (b * 256 ^ Zlen l + v) = be_bytes n v); [|by apply Hgen; lia].
    induction n as [|n IH]; intros Hn; [done|]. cbn [be_bytes]. rewrite IH by lia. f_equal.
    pose proof (pow256_pos n). replace (b * 256 ^ Zlen l + v) with (v + b * 256 ^ (Zlen l - Z.of_nat n - 1) * 256 * 256 ^ Z.of_nat n).
    + by rewrite Z.div_add, Z.mod_add by lia.
    + rewrite <-!Z.mul_assoc. change 256 with (256 ^ 1) at 2. rewrite <-!Z.pow_add_r by lia.
      replace (Zlen l - Z.of_nat n - 1 + (1 + Z.of_nat n)) with (Zlen l) by lia. lia.
Qed.

(** ** What is written *)

Section written.
Context `{Platform}.

(** [ASN1WriteUlong] writes so many bytes more than the number has: it swaps
    the four low bytes of a number and writes all that an unsigned long has. *)
Definition ulong_pad : Z := if little_endian then sizeof_ULONG - 4 else 0.
Definition writable (u : Z) : Prop := 0 < u < 2 ^ ulong_bits /\ (little_endian = true -> u < 4294967296).

Lemma sizeof_cases : (sizeof_ULONG = 4 /\ ulong_bits = 32) \/ (sizeof_ULONG = 8 /\ ulong_bits = 64).
Proof. unfold sizeof_ULONG. destruct ulong_bits_ok as [-> | ->]; [by left|by right]. Qed.

Lemma ulong_modulus_bytes : 2 ^ ulong_bits = 256 ^ sizeof_ULONG.
Proof. by destruct sizeof_cases as [[-> ->] | [-> ->]]. Qed.

Lemma ulong_pad_cases : ulong_pad = 0 \/ (ulong_pad = 4 /\ sizeof_ULONG = 8 /\ little_endian = true).
Proof. unfold ulong_pad. destruct little_endian; [|by left]. destruct sizeof_cases as [[-> _] | [-> _]]; [by left|by right]. Qed.

Lemma swapped u : 0 <= u < 4294967296 -> AnscSwapUlong u = be_value (rev (be_bytes 4 u)).
Proof.
  intros Hu. pose proof (be_bytes_byte 4 u) as Hb. pose proof (be_value_bytes_small 4 u ltac:(cbn; lia)) as Hv.
  destruct (be_bytes 4 u) as [|b3 [|b2 [|b1 [|b0 [|]]]]] eqn:E; try discriminate. clear E.
  apply Forall_cons in Hb as [H3 Hb]. apply Forall_cons in Hb as [H2 Hb]. apply Forall_cons in Hb as [H1 Hb].
  apply Forall_cons in Hb as [H0 _].
  destruct (byte_swap_spec 0 b3 b2 b1 b0 [] H3 H2 H1 H0) as (_ & Hs & _).
  assert (Eu : u = ulong_of 0 b3 b2 b1 b0) by (rewrite <-Hv; unfold ulong_of; cbn; lia).
  rewrite Eu, Hs. unfold ulong_of. cbn. lia.
Qed.

Lemma network_bytes u : writable u ->
  exists z, ulong_mem (AnscUlongFromHToN u) = replicate z 0 ++ der_bytes u ++ replicate (Z.to_nat ulong_pad) 0 /\
    Z.of_nat z + nbytes u + ulong_pad = sizeof_ULONG.
Proof.
  intros [Hu Hle]. pose proof (nbytes_pos u) as Hn. unfold ulong_mem, AnscUlongFromHToN, ulong_pad in *.
  destruct little_endian.
  - specialize (Hle eq_refl). assert (nbytes u <= 4) by (apply nbytes_le; cbn; lia).
    exists (4 - Z.to_nat (nbytes u))%nat. destruct sizeof_cases as [[E _] | [E _]]; rewrite E; split; try lia;
    rewrite swapped by lia; pose proof (be_bytes_byte 4 u) as Hb;
    assert (Hr : Forall is_byte (rev (be_bytes 4 u))) by (rewrite rev_alt; by apply Forall_reverse);
    pose proof (be_value_bound _ Hr) as Hv; rewrite length_rev, length_be_bytes in Hv;
    pose proof (be_bytes_value _ Hr) as E4; rewrite length_rev, length_be_bytes in E4.
    + change (Z.to_nat 4) with 4%nat. change (Z.to_nat (4 - 4)) with 0%nat. cbn [replicate]. rewrite app_nil_r, E4, rev_involutive. unfold der_bytes. destruct (nbytes_spec u); [lia|].
      rewrite <-be_bytes_zeros by (rewrite Z2Nat.id by lia; lia). f_equal. lia.
    + change (Z.to_nat 8) with (4 + 4)%nat. rewrite be_bytes_zeros by done. rewrite E4, rev_app_distr, rev_involutive.
      change (Z.to_nat (8 - 4)) with 4%nat. rewrite app_assoc. f_equal. unfold der_bytes. destruct (nbytes_spec u); [lia|].
      rewrite <-be_bytes_zeros by (rewrite Z2Nat.id by lia; lia). f_equal. lia.
  - assert (nbytes u <= sizeof_ULONG).
    { apply nbytes_le; [rewrite <-ulong_modulus_bytes; lia|]. destruct sizeof_cases as [[-> _] | [-> _]]; lia. }
    exists (Z.to_nat sizeof_ULONG - Z.to_nat (nbytes u))%nat. split; [|lia]. cbn [replicate Z.to_nat]. rewrite app_nil_r.
    unfold der_bytes. destruct (nbytes_spec u); [lia|].
    rewrite <-be_bytes_zeros by (rewrite Z2Nat.id by lia; lia). f_equal. lia.
Qed.

Lemma skip_zeros_spec z b r fuel i pre :
  b ≠ 0 -> i = Zlen pre -> (Z.of_nat z + i < sizeof_ULONG) -> (z < fuel)%nat ->
  skip_zeros (pre ++ replicate z 0 ++ b :: r) fuel i = Done (i + Z.of_nat z).
Proof.
  intros Hb. revert fuel i pre. induction z as [|z IH]; intros fuel i pre Hi Hs Hf; (destruct fuel as [|fuel]; [lia|]); cbn [skip_zeros].
  - erewrite buf_get_Z; [|lia|]; cycle 1.
    { rewrite Hi, Nat2Z.id, lookup_app_r, Nat.sub_diag by lia. done. }
    cbn [mbind outcome_bind]. destruct (Z.eqb_spec b 0); [done|]. cbn [andb]. f_equal. lia.
  - erewrite buf_get_Z; [|lia|]; cycle 1.
    { rewrite Hi, Nat2Z.id, lookup_app_r, Nat.sub_diag by lia. done. }
    cbn [mbind outcome_bind replicate app]. destruct (Z.ltb_spec i sizeof_ULONG); [|lia]. cbn [Z.eqb andb].
    change (pre ++ 0 :: replicate z 0 ++ b :: r) with (pre ++ [0] ++ replicate z 0 ++ b :: r). rewrite app_assoc.
    rewrite (IH fuel (i + 1) (pre ++ [0])); [f_equal; lia|rewrite length_app; cbn; lia|lia|lia].
Qed.

(** Writing in the middle of a buffer. *)
Lemma ASN1WriteUlong_spec pre old post u p :
  writable u -> p = Zlen pre -> Zlen old = nbytes u + ulong_pad ->
  ASN1WriteUlong (pre ++ old ++ post) p u =
    Done (pre ++ der_bytes u ++ replicate (Z.to_nat ulong_pad) 0 ++ post, nbytes u + ulong_pad).
Proof.
  intros Hu Hp Ho. unfold ASN1WriteUlong. destruct (Z.eqb_spec u 0) as [->|_]; [unfold writable in Hu; lia|].
  destruct (network_bytes u Hu) as (z & -> & Hz). destruct Hu as [Hu _].
  destruct (der_bytes_head u) as (b & r & Eb & Hb & _); [lia|]. pose proof (nbytes_pos u).
  assert (0 <= ulong_pad) by (destruct ulong_pad_cases as [->|[-> _]]; lia).
  assert (Es : skip_zeros ((replicate z 0 ++ der_bytes u ++ replicate (Z.to_nat ulong_pad) 0) ++ [0])
    (S (Z.to_nat sizeof_ULONG)) 0 = Done (Z.of_nat z)).
  { rewrite Eb, <-!app_assoc. cbn [app]. apply (skip_zeros_spec z b _ _ 0 []); [done|done|lia|lia]. }
  rewrite Es. cbn [mbind outcome_bind]. rewrite <-app_assoc, drop_app, length_replicate, Nat2Z.id, Nat.sub_diag.
  rewrite (drop_ge (replicate z 0)) by (rewrite length_replicate; lia). cbn [app]. rewrite drop_0.
  replace (sizeof_ULONG - Z.of_nat z) with (nbytes u + ulong_pad) by lia.
  assert (Hlen : length (der_bytes u ++ replicate (Z.to_nat ulong_pad) 0) = Z.to_nat (nbytes u + ulong_pad)).
  { rewrite length_app, length_replicate. pose proof (length_der_bytes u). lia. }
  rewrite take_app_le, take_ge by lia. rewrite buf_copy_at by lia.
  cbn [mbind outcome_bind]. by rewrite <-app_assoc.
Qed.

Lemma count_bytes_spec fuel u c : 0 <= u < 256 ^ Z.of_nat fuel -> (0 < fuel)%nat ->
  count_bytes fuel u c = Done (c + nbytes u - 1).
Proof.
  revert u c. induction fuel as [|fuel IH]; intros u c Hu Hf; [lia|]. cbn [count_bytes].
  destruct (Z.ltb_spec 255 u).
  - rewrite pow256_succ in Hu. assert (0 <= u / 256 < 256 ^ Z.of_nat fuel).
    { split; [apply Z.div_pos; lia|]. apply Z.div_lt_upper_bound; lia. }
    rewrite IH; [|done|].
    + rewrite (nbytes_shift u) by lia. f_equal. lia.
    + destruct fuel; [|lia]. cbn in *. assert (1 <= u / 256) by (apply Z.div_le_lower_bound; lia). lia.
  - rewrite nbytes_small by lia. f_equal. lia.
Qed.

Lemma ulong_bound_9 u : 0 <= u < 2 ^ ulong_bits -> 0 <= u < 256 ^ Z.of_nat 9.
Proof. destruct sizeof_cases as [[_ E] | [_ E]]; rewrite E; cbn; lia. Qed.

Lemma GetSizeOfEncodedLength_spec n : 0 <= n < 2 ^ (ulong_bits - 1) -> GetSizeOfEncodedLength n = Done (Zlen (der_length n)).
Proof.
  intros Hn. unfold GetSizeOfEncodedLength. rewrite LONG_id by (destruct sizeof_cases as [[_ E] | [_ E]]; rewrite E in *; lia).
  destruct (Z.ltb_spec n 0); [lia|]. rewrite length_der_length. destruct (Z.leb_spec n 127); [done|].
  rewrite count_bytes_spec; [|apply ulong_bound_9|lia].
  - cbn [mbind outcome_bind]. f_equal. lia.
  - destruct sizeof_cases as [[_ E] | [_ E]]; rewrite E in *; cbn in *; lia.
Qed.

(** The bytes that [EncodeLength] writes behind the length. *)
Definition length_pad (n : Z) : Z := if n <=? 127 then 0 else ulong_pad.

Lemma EncodeLength_spec pre old post n p :
  0 <= n < 2 ^ ulong_bits -> (little_endian = true -> n < 4294967296) -> p = Zlen pre ->
  Zlen old = Zlen (der_length n) + length_pad n ->
  EncodeLength (pre ++ old ++ post) p n =
    Done (pre ++ der_length n ++ replicate (Z.to_nat (length_pad n)) 0 ++ post, p + Zlen (der_length n)).
Proof.
  intros Hn Hle Hp Ho. unfold EncodeLength, length_pad in *. rewrite length_der_length in *.
  unfold der_length. destruct (Z.leb_spec n 127).
  - destruct old as [|o [|? ?]]; [cbn in Ho; lia| |cbn in Ho; lia]. cbn [app].
    rewrite (buf_put_at pre o post _ p) by done. cbn [mbind outcome_bind]. unfold UCHAR. rewrite Z.mod_small by lia. done.
  - pose proof (nbytes_pos n). destruct old as [|o old]; [cbn in Ho; destruct ulong_pad_cases as [E|[E _]]; lia|].
    assert (nbytes n <= 8).
    { apply nbytes_le; [|lia]. destruct sizeof_cases as [[_ E] | [_ E]]; rewrite E in *; cbn in *; lia. }
    rewrite count_bytes_spec; [|by apply ulong_bound_9|lia]. cbn [mbind outcome_bind app].
    rewrite (buf_put_at pre o (old ++ post)) by done. cbn [mbind outcome_bind].
    replace (1 + nbytes n - 1) with (nbytes n) by lia. unfold UCHAR. rewrite Z.mod_small by lia.
    assert (Hlor : Z.lor (nbytes n) 128 = 128 + nbytes n).
    { assert (E8 : nbytes n = 1 \/ nbytes n = 2 \/ nbytes n = 3 \/ nbytes n = 4 \/
        nbytes n = 5 \/ nbytes n = 6 \/ nbytes n = 7 \/ nbytes n = 8) by lia.
      by destruct_or! E8; rewrite E8. }
    rewrite Hlor. change (pre ++ (128 + nbytes n) :: old ++ post) with (pre ++ [128 + nbytes n] ++ old ++ post).
    rewrite app_assoc, (ASN1WriteUlong_spec (pre ++ [128 + nbytes n]) old post n).
    + cbn [mbind outcome_bind]. do 2 f_equal; [|lia]. by rewrite <-!app_assoc.
    + split; [lia|done].
    + rewrite length_app. cbn. lia.
    + cbn [length] in Ho. lia.
Qed.

End written.

(** ** Writers

    A writer puts [out] at its position and moves behind it, wherever in a
    buffer it is, when [need] bytes are left there. *)

Definition writes (f : list Z -> Z -> outcome (list Z * Z)) (out : list Z) (need : Z) : Prop :=
  forall pre rest, need <= Zlen rest ->
    exists rest', f (pre ++ rest) (Zlen pre) = Done (pre ++ out ++ rest', Zlen (pre ++ out)) /\
      Zlen rest' = Zlen rest - Zlen out.

Lemma writes_ext f g out need : (forall m p, f m p = g m p) -> writes f out need -> writes g out need.
Proof. intros Hfg Hf pre rest Hr. rewrite <-Hfg. by apply Hf. Qed.

Lemma writes_more f out need need' : writes f out need -> need <= need' -> writes f out need'.
Proof. intros Hf Hn pre rest Hr. apply Hf. lia. Qed.

Lemma writes_nothing : writes (fun m p => Done (m, p)) [] 0.
Proof. intros pre rest Hr. exists rest. rewrite app_nil_r. cbn. split; [done|lia]. Qed.

Lemma writer_bind f g o1 o2 n1 n2 need :
  writes f o1 n1 -> writes g o2 n2 -> n1 <= need -> Zlen o1 + n2 <= need ->
  writes (fun m p => '(m, p) ← f m p; g m p) (o1 ++ o2) need.
Proof.
  intros Hf Hg H1 H2 pre rest Hr. destruct (Hf pre rest) as (r1 & -> & E1); [lia|]. cbn [mbind outcome_bind].
  rewrite app_assoc. destruct (Hg (pre ++ o1) r1) as (r2 & -> & E2); [lia|].
  exists r2. rewrite <-!app_assoc. split; [done|]. rewrite length_app. lia.
Qed.

Lemma writes_app f g o1 o2 :
  writes f o1 (Zlen o1) -> writes g o2 (Zlen o2) ->
  writes (fun m p => '(m, p) ← f m p; g m p) (o1 ++ o2) (Zlen (o1 ++ o2)).
Proof. intros Hf Hg. rewrite length_app. eapply writer_bind; [exact Hf|exact Hg|lia|lia]. Qed.

Lemma writer_copy d : writes (fun m p => m ← buf_copy m p d; Done (m, p + Zlen d)) d (Zlen d).
Proof.
  intros pre rest Hr. rewrite <-(take_drop (length d) rest). rewrite buf_copy_at by (rewrite ?length_take; lia).
  exists (drop (length d) rest). cbn [mbind outcome_bind]. rewrite take_drop, length_drop, length_app. split; [|lia].
  do 2 f_equal. lia.
Qed.

Lemma writes_put v : writes (fun m p => m ← buf_put m p v; Done (m, p + 1)) [v] 1.
Proof. apply (writer_copy [v]). Qed.

Lemma EncodeLength_writes `{Platform} n :
  0 <= n < 2 ^ ulong_bits -> (little_endian = true -> n < 4294967296) ->
  writes (fun m p => EncodeLength m p n) (der_length n) (Zlen (der_length n) + length_pad n).
Proof.
  intros Hn Hle pre rest Hr. assert (Hp : 0 <= length_pad n).
  { unfold length_pad. case_match; [lia|]. destruct ulong_pad_cases as [->|[-> _]]; lia. }
  set (k := (length (der_length n) + Z.to_nat (length_pad n))%nat).
  pose proof (EncodeLength_spec pre (take k rest) (drop k rest) n (Zlen pre) Hn Hle eq_refl) as E.
  rewrite take_drop in E. rewrite E by (rewrite length_take; lia).
  eexists. split; [f_equal; f_equal; rewrite length_app; lia|].
  rewrite length_app, length_replicate, length_drop. lia.
Qed.
