(* ===== verification/DerHeader.v ===== *)
(** * Headers of DER, read and written

    What the routines of [DerLength] read: lengths and headers are read back as
    they were written where an unsigned long has 32 bits, or where a length fits
    one byte; where it has 64 bits a longer length is read as zero. *)

From S2P Require Import Prelude Asn1 DerLength.
Open Scope Z_scope.

(** ** Tags *)

(** The bytes of a tag: one, or a first one with all of [TYPE_MASK] set and
    more, of which all but the last have the highest bit. *)
Inductive is_tag : list Z -> Prop :=
  | tag_low c : is_byte c -> c ≠ 0 -> Z.land c 31 ≠ 31 -> is_tag [c]
  | tag_high c mid l : is_byte c -> Z.land c 31 = 31 -> Forall (fun x => Z.land x 128 ≠ 0) mid -> Z.land l 128 = 0 ->
      is_tag (c :: mid ++ [l]).

Section header.
Context `{Platform}.

(** ** Lengths *)

(** What is read for a length that was written. *)
Definition length_read (n : Z) : Z := if (n <=? 127) || (ulong_bits =? 32) then n else 0.
Definition reads_back (n : Z) : Prop := 0 <= n < 2147483648 /\ (n <= 127 \/ ulong_bits = 32).

Lemma length_reads_back n : reads_back n -> length_read n = n.
Proof.
  intros [_ [?|E]]; unfold length_read; [|by rewrite E, orb_true_r]. by destruct (Z.leb_spec n 127); [|lia].
Qed.

Lemma big_endian_4_spec b0 b1 b2 b3 r : Forall is_byte [b0; b1; b2; b3] ->
  big_endian_4 (b0 :: b1 :: b2 :: b3 :: r) = Done (be_value [b0; b1; b2; b3]).
Proof.
  unfold is_byte. rewrite !Forall_cons. intros (? & ? & ? & ? & _). unfold big_endian_4.
  repeat match goal with |- context [buf_get ?l ?i] => let v := eval cbv in (buf_get l i) in change (buf_get l i) with v end.
  cbn [mbind outcome_bind]. rewrite ULONG_small32 by lia. cbn. f_equal. lia.
Qed.

Lemma first_four l : 4 <= Zlen l -> Forall is_byte l -> big_endian_4 l = Done (be_value (take 4 l)).
Proof.
  intros Hl Hb. destruct l as [|b0 [|b1 [|b2 [|b3 r]]]]; cbn [length] in Hl; try lia.
  apply (Forall_take _ 4) in Hb. cbn [take] in *. by apply big_endian_4_spec.
Qed.

Lemma read_bytes_app d r : read_bytes (d ++ r) (Zlen d) = Done d.
Proof.
  unfold read_bytes. destruct (Z.leb_spec 0 (Zlen d)); [|lia]. destruct (Z.leb_spec (Zlen d) (Zlen (d ++ r))).
  - cbn. by rewrite Nat2Z.id, take_app_length.
  - rewrite length_app in *. lia.
Qed.

Lemma read_bytes_all d : read_bytes d (Zlen d) = Done d.
Proof. rewrite <-(read_bytes_app d []). by rewrite app_nil_r. Qed.

Lemma copy_to_end (b d : list Z) n : Zlen b = n -> Zlen d <= n ->
  buf_copy b (n - Zlen d) d = Done (take (length b - length d) b ++ d).
Proof.
  intros <- Hd. rewrite <-(take_drop (length b - length d) b) at 1.
  rewrite <-(app_nil_r (drop _ b)). rewrite (buf_copy_at _ _ []).
  - by rewrite app_nil_r.
  - rewrite length_take. lia.
  - rewrite length_drop. lia.
Qed.

Lemma GetLengthFromBuffer_spec d r : Forall is_byte d -> 1 <= Zlen d <= sizeof_ULONG ->
  GetLengthFromBuffer (d ++ r) (Zlen d) =
    Done (be_value (take 4 (replicate (Z.to_nat sizeof_ULONG - length d) 0 ++ d))).
Proof.
  intros Hb Hd. unfold GetLengthFromBuffer. destruct (Z.eqb_spec (Zlen d) 0); [lia|].
  destruct (Z.ltb_spec sizeof_ULONG (Zlen d)); [lia|]. rewrite read_bytes_app. cbn [mbind outcome_bind].
  rewrite copy_to_end by (rewrite ?length_replicate; lia). cbn [mbind outcome_bind].
  rewrite length_replicate, take_replicate, Nat.min_l by lia. apply first_four.
  - rewrite length_app, length_replicate. destruct sizeof_cases as [[-> _] | [-> _]]; lia.
  - apply Forall_app. split; [|done]. by apply Forall_replicate.
Qed.

(** On 32 bits the four bytes are the number; on 64 they are the upper half. *)
Lemma GetLengthFromBuffer_32 d r : ulong_bits = 32 -> Forall is_byte d -> 1 <= Zlen d <= 4 ->
  GetLengthFromBuffer (d ++ r) (Zlen d) = Done (be_value d).
Proof.
  intros Hb Hd Hl. assert (Es : sizeof_ULONG = 4) by (unfold sizeof_ULONG; by rewrite Hb).
  rewrite GetLengthFromBuffer_spec by (done || lia). rewrite Es, take_ge.
  - by rewrite be_value_zeros.
  - rewrite length_app, length_replicate. lia.
Qed.
Lemma GetLengthFromBuffer_64 d r : ulong_bits = 64 -> Forall is_byte d -> 1 <= Zlen d <= 4 ->
  GetLengthFromBuffer (d ++ r) (Zlen d) = Done 0.
Proof.
  intros Hb Hd Hl. assert (Es : sizeof_ULONG = 8) by (unfold sizeof_ULONG; by rewrite Hb).
  rewrite GetLengthFromBuffer_spec by (done || lia). rewrite Es, take_app_le by (rewrite length_replicate; lia).
  rewrite take_replicate, Nat.min_l by lia. done.
Qed.

Lemma read_der_bytes n r : 128 <= n < 2147483648 ->
  GetLengthFromBuffer (der_bytes n ++ r) (nbytes n) = Done (length_read n).
Proof.
  intros Hn. rewrite <-length_der_bytes. pose proof (nbytes_pos n).
  assert (nbytes n <= 4) by (apply nbytes_le; cbn; lia). unfold length_read.
  destruct (Z.leb_spec n 127); [lia|]. cbn [orb].
  destruct ulong_bits_ok as [E|E]; rewrite E; cbn [Z.eqb Pos.eqb].
  - rewrite GetLengthFromBuffer_32, be_value_der_bytes; try done; try lia; [apply be_bytes_byte|rewrite length_der_bytes; lia].
  - rewrite GetLengthFromBuffer_64; try done; [apply be_bytes_byte|rewrite length_der_bytes; lia].
Qed.

(** ** Headers *)

Lemma land_128_low c : 0 <= c <= 127 -> Z.land c 128 = 0.
Proof.
  intros Hc. apply Z.bits_inj'. intros i Hi. rewrite Z.land_spec, Z.bits_0. change 128 with (2 ^ 7).
  rewrite Z.pow2_bits_eqb by lia. destruct (Z.eqb_spec 7 i) as [<-|]; [|by rewrite andb_false_r].
  rewrite andb_true_r. destruct (Z.eq_dec c 0) as [->|]; [done|].
  apply Z.bits_above_log2; [lia|]. apply Z.log2_lt_pow2; cbn; lia.
Qed.

Lemma tag_octets_spec c mid l r fuel i :
  Forall (fun x => Z.land x 128 ≠ 0) mid -> Z.land l 128 = 0 -> (length mid < fuel)%nat -> 0 <= i ->
  (forall k, (k <= length mid)%nat -> (c ++ mid ++ l :: r) !! (Z.to_nat i + k)%nat = (mid ++ [l]) !! k) ->
  tag_octets (c ++ mid ++ l :: r) fuel i = Done (i + Zlen mid).
Proof.
  intros Hm Hl. generalize (c ++ mid ++ l :: r). intros p. revert fuel i.
  induction Hm as [|x mid Hx Hm IH]; intros fuel i Hf Hi Hp; (destruct fuel as [|fuel]; [cbn in Hf; lia|]); cbn [tag_octets].
  - rewrite (buf_get_Z p i l); [|lia|]; cycle 1.
    { specialize (Hp 0%nat ltac:(lia)). by rewrite Nat.add_0_r in Hp. }
    cbn [mbind outcome_bind]. rewrite Hl. cbn. f_equal. lia.
  - rewrite (buf_get_Z p i x); [|lia|]; cycle 1.
    { specialize (Hp 0%nat ltac:(lia)). by rewrite Nat.add_0_r in Hp. }
    cbn [mbind outcome_bind]. destruct (Z.eqb_spec (Z.land x 128) 0); [done|].
    rewrite IH; [cbn [length]; f_equal; lia|cbn in Hf; lia|lia|].
    intros k Hk. specialize (Hp (S k) ltac:(cbn; lia)). cbn [app] in Hp. rewrite lookup_cons in Hp. rewrite <-Hp. f_equal. lia.
Qed.

(** A header is read as a tag and a length. *)
Lemma parse_header t g n r :
  is_tag g -> Zlen g <= 4 -> 0 <= n < 2147483648 ->
  AnscTagInfoParsingData t (g ++ der_length n ++ r) =
    Done (ASN1_SUCCESS, TagInfo (Zlen g) (Zlen (der_length n)) (length_read n) (default 0 (head g)) false).
Proof.
  intros Hg Hl Hn.
  assert (Htag : exists c g', g = c :: g' /\ (c =? 0) = false /\
    (if Z.land c 31 =? 31 then tag_octets (g ++ der_length n ++ r) (S (length (g ++ der_length n ++ r))) 1 else Done 0)
      = Done (Zlen g')).
  { destruct Hg as [c Hc Hz Hm | c mid l Hc Hm Hmid Hlast].
    - exists c, []. split_and!; [done|by apply Z.eqb_neq|]. by destruct (Z.eqb_spec (Z.land c 31) 31).
    - exists c, (mid ++ [l]). split_and!; [done| |].
      { apply Z.eqb_neq. intros ->. done. }
      rewrite Hm. cbn [Z.eqb Pos.eqb].
      replace ((c :: mid ++ [l]) ++ der_length n ++ r) with ([c] ++ mid ++ l :: der_length n ++ r)
        by (cbn; by rewrite <-app_assoc).
      rewrite (tag_octets_spec [c] mid l (der_length n ++ r)).
      + f_equal. rewrite length_app. cbn. lia.
      + done.
      + done.
      + rewrite !length_app. cbn. lia.
      + lia.
      + intros k Hk. change (Z.to_nat 1 + k)%nat with (S k). cbn [app]. rewrite lookup_cons.
        change (l :: der_length n ++ r) with ([l] ++ der_length n ++ r). rewrite app_assoc, lookup_app_l; [done|].
        rewrite length_app. cbn. lia. }
  destruct Htag as (c & g' & -> & Hc0 & Hi). unfold AnscTagInfoParsingData.
  change (buf_get ((c :: g') ++ der_length n ++ r) 0) with (Done c). cbn [mbind outcome_bind].
  rewrite Hc0, Hi. cbn [mbind outcome_bind]. cbn [length] in Hl.
  destruct (Z.leb_spec 4 (Zlen g')); [lia|]. cbn [head default length].
  assert (Hpos : Z.to_nat (Zlen g' + 1) = length (c :: g')) by (cbn; lia).
  assert (Hlen : forall x l, der_length n = x :: l -> buf_get ((c :: g') ++ der_length n ++ r) (Zlen g' + 1) = Done x).
  { intros x l E. apply buf_get_Z; [lia|]. rewrite Hpos, lookup_app_r, Nat.sub_diag, E by lia. done. }
  unfold der_length in *. destruct (Z.leb_spec n 127).
  - rewrite (Hlen n []) by done. cbn [mbind outcome_bind]. rewrite land_128_low by lia. cbn [Z.eqb negb].
    unfold length_read. destruct (Z.leb_spec n 127); [|lia]. cbn [orb]. do 3 f_equal; lia.
  - rewrite (Hlen (128 + nbytes n) (der_bytes n)) by done. cbn [mbind outcome_bind].
    pose proof (nbytes_pos n). assert (nbytes n <= 4) by (apply nbytes_le; cbn; lia).
    assert (Hbits : Z.land (128 + nbytes n) 128 = 128 /\ Z.land (128 + nbytes n) 127 = nbytes n /\ (128 + nbytes n =? 128) = false).
    { assert (E8 : nbytes n = 1 \/ nbytes n = 2 \/ nbytes n = 3 \/ nbytes n = 4) by lia. by destruct_or! E8; rewrite E8. }
    destruct Hbits as (-> & -> & ->). cbn [Z.eqb negb].
    assert (Hs : (sizeof_ULONG <? nbytes n) = false) by (apply Z.ltb_ge; destruct sizeof_cases as [[-> _] | [-> _]]; lia).
    rewrite Hs. rewrite drop_app_ge by (cbn; lia).
    replace (Z.to_nat (Zlen g' + 1 + 1) - length (c :: g'))%nat with 1%nat by (cbn; lia).
    change (drop 1 (((128 + nbytes n) :: der_bytes n) ++ r)) with (der_bytes n ++ r).
    rewrite read_der_bytes by lia. cbn [mbind outcome_bind bIsInfinite].
    rewrite LONG_small; cycle 1. { unfold length_read. destruct (_ || _); lia. }
    do 3 f_equal; cbn [length]; rewrite ?Nat2Z.inj_succ, ?length_der_bytes; lia.
Qed.

(** ** The length of a value in the length of its encoding *)

Lemma der_length_mono n k : 0 <= k -> 0 <= n -> Zlen (der_length n) <= Zlen (der_length (n + k)).
Proof.
  intros Hk Hn. rewrite !length_der_length. destruct (Z.leb_spec n 127), (Z.leb_spec (n + k) 127); try lia.
  - pose proof (nbytes_pos (n + k)). lia.
  - unfold nbytes. assert (Z.log2 n <= Z.log2 (n + k)) by (apply Z.log2_le_mono; lia).
    assert (Z.log2 n / 8 <= Z.log2 (n + k) / 8) by (apply Z.div_le_mono; lia). lia.
Qed.

Lemma pure_length_from_spec m i n :
  0 <= n < 2147483600 -> 1 <= i <= Zlen (der_length n) ->
  pure_length_from m i (n + Zlen (der_length n)) =
    Done (if Zlen (der_length n) <? i + Z.of_nat m then n else -1).
Proof.
  intros Hn. revert i. assert (Hlen : Zlen (der_length n) <= 5).
  { rewrite length_der_length. case_match; [lia|]. assert (nbytes n <= 4) by (apply nbytes_le; cbn; lia). lia. }
  induction m as [|m IH]; intros i Hi; cbn [pure_length_from].
  - destruct (Z.ltb_spec (Zlen (der_length n)) (i + Z.of_nat 0)); [lia|done].
  - set (k := Zlen (der_length n) - i) in *. replace (n + Zlen (der_length n) - i) with (n + k) by lia.
    rewrite ULONG_small32 by lia. assert (Hb : 2147483648 <= 2 ^ (ulong_bits - 1)).
    { destruct sizeof_cases as [[_ E] | [_ E]]; rewrite E; cbn; lia. }
    rewrite GetSizeOfEncodedLength_spec by lia. cbn [mbind outcome_bind]. rewrite LONG_small by lia.
    pose proof (der_length_mono n k ltac:(lia) ltac:(lia)).
    destruct (Z.eqb_spec (Zlen (der_length (n + k))) i) as [Ei|Ei].
    + assert (k = 0) by lia. destruct (Z.ltb_spec (Zlen (der_length n)) (i + Z.of_nat (S m))); [|lia]. f_equal. lia.
    + destruct (Z.eq_dec k 0) as [E0|E0]; [rewrite E0, Z.add_0_r in Ei; lia|].
      rewrite IH by lia. replace (i + 1 + Z.of_nat m) with (i + Z.of_nat (S m)) by lia. done.
Qed.

Lemma GetPureEncodedLength_spec n : 0 <= n < 65536 ->
  GetPureEncodedLength (n + Zlen (der_length n)) = Done n.
Proof.
  intros Hn. unfold GetPureEncodedLength. rewrite pure_length_from_spec.
  - rewrite length_der_length. destruct (Z.leb_spec n 127); [done|].
    assert (nbytes n <= 2) by (apply nbytes_le; cbn; lia). by destruct (Z.ltb_spec (1 + nbytes n) (1 + Z.of_nat 3)); [|lia].
  - lia.
  - rewrite length_der_length. pose proof (nbytes_pos n). case_match; lia.
Qed.

Lemma GetPureEncodedLength_long n : 65536 <= n < 2147483600 ->
  GetPureEncodedLength (n + Zlen (der_length n)) = Done (-1).
Proof.
  intros Hn. unfold GetPureEncodedLength. assert (3 <= nbytes n).
  { destruct (nbytes_spec n) as [_ Hh]; [lia|]. destruct (Z.le_gt_cases 3 (nbytes n)); [done|].
    assert (256 ^ nbytes n <= 256 ^ 2) by (apply Z.pow_le_mono_r; lia). lia. }
  rewrite pure_length_from_spec; rewrite ?length_der_length; destruct (Z.leb_spec n 127); try lia.
  by destruct (Z.ltb_spec (1 + nbytes n) (1 + Z.of_nat 3)); [lia|].
Qed.

(** ** Whole values *)

Lemma is_tag_pos g : is_tag g -> 1 <= Zlen g.
Proof. intros []; cbn; rewrite ?length_app; cbn; lia. Qed.

Lemma GetTLVLength_written g n r :
  is_tag g -> Zlen g <= 4 -> 0 <= n < 2147483648 ->
  AnscGetTLVLength (g ++ der_length n ++ r) = Done (Zlen g + Zlen (der_length n) + length_read n).
Proof.
  intros Hg Hl Hn. unfold AnscGetTLVLength. rewrite parse_header by done. cbn [mbind outcome_bind].
  rewrite bool_decide_true by done. cbn [bIsInfinite negb ulSizeOfTag ulSizeOfLength ulContentLength].
  rewrite ULONG_small32; [done|]. assert (Zlen (der_length n) <= 5).
  { rewrite length_der_length. case_match; [lia|]. assert (nbytes n <= 4) by (apply nbytes_le; cbn; lia). lia. }
  unfold length_read. destruct (_ || _); lia.
Qed.

Lemma GotoNextTag_written g n r l :
  is_tag g -> Zlen g <= 4 -> 0 <= n < 2147483648 ->
  AnscGotoNextTag (g ++ der_length n ++ r) l =
    Done (if length_read n =? 0 then None else Some (Zlen g + Zlen (der_length n), length_read n)).
Proof.
  intros Hg Hl Hn. unfold AnscGotoNextTag. rewrite parse_header by done. cbn [mbind outcome_bind].
  rewrite bool_decide_true by done. cbn [bIsInfinite negb ulSizeOfTag ulSizeOfLength ulContentLength].
  destruct (Z.eqb_spec (length_read n) 0) as [->|]; [done|]. cbn [negb]. rewrite ULONG_small32; [done|].
  unfold length_read. destruct (_ || _); lia.
Qed.

Lemma length_der_length_le n : 0 <= n < 2147483648 -> 1 <= Zlen (der_length n) <= 5.
Proof.
  intros Hn. rewrite length_der_length. pose proof (nbytes_pos n). case_match; [lia|].
  assert (nbytes n <= 4) by (apply nbytes_le; cbn; lia). lia.
Qed.

Lemma ASN1CreateTLV_spec tag d : Zlen d < 2147483600 ->
  ASN1CreateTLV tag (Zlen d) d = Done (der_tlv tag d ++ [0], Zlen (der_tlv tag d)).
Proof.
  intros Hd. unfold ASN1CreateTLV. pose proof (length_der_length_le (Zlen d) ltac:(lia)) as Hl.
  assert (Hb : 2147483648 <= 2 ^ (ulong_bits - 1)).
  { destruct sizeof_cases as [[_ E] | [_ E]]; rewrite E; cbn; lia. }
  rewrite GetSizeOfEncodedLength_spec by lia. cbn [mbind outcome_bind].
  rewrite (ULONG_small32 (Zlen d + 1 + _)), ULONG_small32 by lia.
  set (nl := Zlen (der_length (Zlen d))) in *.
  assert (Hp : 0 <= length_pad (Zlen d) <= Zlen d).
  { unfold length_pad. destruct (Z.leb_spec (Zlen d) 127); [lia|]. destruct ulong_pad_cases as [->|[-> _]]; lia. }
  replace (Z.to_nat (Zlen d + 1 + nl + 1)) with (1 + (Z.to_nat (nl + length_pad (Zlen d)) + Z.to_nat (Zlen d + 1 - length_pad (Zlen d))))%nat by lia.
  rewrite replicate_add. cbn [replicate app]. 
  rewrite ((fun rest => buf_put_at [] 0 rest tag 0 eq_refl : buf_put (0 :: rest) 0 tag = Done (tag :: rest))).
  cbn [mbind outcome_bind].
  change (tag :: ?l) with ([tag] ++ l). rewrite (replicate_add (Z.to_nat (nl + _))).
  rewrite (EncodeLength_spec [tag] _ _ (Zlen d)); cycle 1.
  { pose proof ulong_modulus_ge. lia. }
  { lia. }
  { done. }
  { rewrite length_replicate. lia. }
  cbn [mbind outcome_bind].
  rewrite read_bytes_all. cbn [mbind outcome_bind].
  assert (Er : replicate (Z.to_nat (length_pad (Zlen d))) 0 ++ replicate (Z.to_nat (Zlen d + 1 - length_pad (Zlen d))) 0 =
    replicate (length d) 0 ++ [0]).
  { rewrite <-replicate_add. replace (_ + _)%nat with (length d + 1)%nat by lia. by rewrite replicate_add. }
  rewrite Er, app_assoc, (buf_copy_at ([tag] ++ der_length (Zlen d)) (replicate (length d) 0)).
  - cbn [mbind outcome_bind]. unfold der_tlv. do 2 f_equal.
    + cbn [app]. f_equal. by rewrite <-app_assoc.
    + cbn [length]. rewrite length_app. fold nl. lia.
  - rewrite length_app. cbn. fold nl. lia.
  - apply length_replicate.
Qed.

(** A value that [ASN1CreateTLV] writes is read back, whatever follows it: its
    length is that of the encoding, its contents are found, and a block is
    accepted when it holds all of it. *)
Theorem tlv_round_trip tag d r
  (Htag : is_tag [tag]) (Hd : Zlen d < 2147483600) (Hback : reads_back (Zlen d)) (Hne : d ≠ []) :
  exists m off, ASN1CreateTLV tag (Zlen d) d = Done (m ++ [0], Zlen m) /\
    AnscGetTLVLength (m ++ r) = Done (Zlen m) /\
    (forall l, AnscGotoNextTag (m ++ r) l = Done (Some (off, Zlen d))) /\
    take (length d) (drop (Z.to_nat off) (m ++ r)) = d /\
    (forall u, AnscCheckAsn1Validity (m ++ r) u = Done (Zlen m <=? u)).
Proof.
  exists (der_tlv tag d), (1 + Zlen (der_length (Zlen d))). pose proof (length_reads_back _ Hback) as Hr.
  assert (Em : der_tlv tag d ++ r = [tag] ++ der_length (Zlen d) ++ d ++ r) by (unfold der_tlv; cbn; by rewrite <-app_assoc).
  assert (Hlen : Zlen (der_tlv tag d) = 1 + Zlen (der_length (Zlen d)) + Zlen d).
  { unfold der_tlv. cbn [length]. rewrite length_app. lia. }
  assert (Hn : 0 < Zlen d) by (destruct d; [done|cbn; lia]).
  assert (HT : AnscGetTLVLength (der_tlv tag d ++ r) = Done (Zlen (der_tlv tag d))).
  { rewrite Em, GetTLVLength_written, Hr, Hlen by (done || cbn; lia). done. }
  split_and!.
  - by apply ASN1CreateTLV_spec.
  - exact HT.
  - intros l. rewrite Em, GotoNextTag_written, Hr by (done || cbn; lia). destruct (Z.eqb_spec (Zlen d) 0); [lia|done].
  - rewrite Em, (app_assoc [tag]), drop_app_ge by (rewrite length_app; cbn; lia).
    replace (_ - _)%nat with 0%nat by (rewrite length_app; cbn; lia). by rewrite drop_0, take_app_length.
  - intros u. unfold AnscCheckAsn1Validity. rewrite HT. cbn [mbind outcome_bind].
    destruct (Z.eqb_spec (Zlen (der_tlv tag d)) 0); [|done]. pose proof (length_der_length_le (Zlen d) ltac:(lia)). lia.
Qed.

(** Where an unsigned long has 64 bits the length of a value of 128 bytes or
    more is read as zero: its length is that of its header, nothing is found in
    it, and a block that ends with the header is accepted. *)
Theorem long_values_are_lost tag d r
  (Htag : is_tag [tag]) (H64 : ulong_bits = 64) (Hd : 128 <= Zlen d < 2147483600) :
  let header := 1 + Zlen (der_length (Zlen d)) in
  ASN1CreateTLV tag (Zlen d) d = Done (der_tlv tag d ++ [0], Zlen (der_tlv tag d)) /\
  AnscGetTLVLength (der_tlv tag d ++ r) = Done header /\
  (forall l, AnscGotoNextTag (der_tlv tag d ++ r) l = Done None) /\
  AnscCheckAsn1Validity (der_tlv tag d ++ r) header = Done true.
Proof.
  assert (Hr : length_read (Zlen d) = 0).
  { unfold length_read. rewrite H64. destruct (Z.leb_spec (Zlen d) 127); [lia|done]. }
  assert (Em : der_tlv tag d ++ r = [tag] ++ der_length (Zlen d) ++ d ++ r) by (unfold der_tlv; cbn; by rewrite <-app_assoc).
  assert (HT : AnscGetTLVLength (der_tlv tag d ++ r) = Done (1 + Zlen (der_length (Zlen d)))).
  { rewrite Em, GetTLVLength_written, Hr by (done || cbn; lia). f_equal. cbn. lia. }
  pose proof (length_der_length_le (Zlen d) ltac:(lia)). split_and!.
  - apply ASN1CreateTLV_spec. lia.
  - exact HT.
  - intros l. by rewrite Em, GotoNextTag_written, Hr by (done || cbn; lia).
  - unfold AnscCheckAsn1Validity. rewrite HT. cbn [mbind outcome_bind].
    destruct (Z.eqb_spec (1 + Zlen (der_length (Zlen d))) 0); [lia|]. f_equal. apply Z.leb_le. lia.
Qed.

(** ** The end of a value of indefinite length *)

Definition two_zeros (p : list Z) (i : Z) : Prop := p !! Z.to_nat i = Some 0 /\ p !! Z.to_nat (i + 1) = Some 0.

Lemma infinite_end_from_spec p max fuel i :
  0 <= i -> max < Zlen p -> max < i + Z.of_nat fuel -> (0 < fuel)%nat -> (forall j, 0 <= j < i -> ~ two_zeros p j) ->
  exists o, infinite_end_from p max fuel i = Done o /\
    match o with
    | Some k => 0 <= k < max /\ two_zeros p k /\ forall j, 0 <= j < k -> ~ two_zeros p j
    | None => forall j, 0 <= j < max -> ~ two_zeros p j
    end.
Proof.
  revert i. induction fuel as [|fuel IH]; intros i Hi Hm Hf Hpos Hno; cbn [infinite_end_from]; [lia|].
  destruct (Z.ltb_spec i max) as [Hlt|Hge]; cycle 1.
  { exists None. split; [done|]. intros j Hj. apply Hno. lia. }
  destruct (lookup_lt_is_Some_2 p (Z.to_nat i)) as [a Ha]; [lia|].
  destruct (lookup_lt_is_Some_2 p (Z.to_nat (i + 1))) as [b Hb]; [lia|].
  rewrite (buf_get_Z p i a), (buf_get_Z p (i + 1) b) by (done || lia). cbn [mbind outcome_bind].
  assert (Htz : two_zeros p i <-> a = 0 /\ b = 0).
  { unfold two_zeros. rewrite Ha, Hb. naive_solver. }
  destruct (Z.eqb_spec b 0) as [->|Hnb].
  - destruct (Z.eqb_spec a 0) as [->|Hna]; cbn [andb].
    + exists (Some i). split; [done|]. split_and!; [lia|lia|by apply Htz|by apply Hno].
    + apply IH; [lia|done|lia|lia|]. intros j Hj. destruct (Z.eq_dec j i) as [->|]; [naive_solver|apply Hno; lia].
  - rewrite andb_false_r. apply IH; [lia|done|lia|lia|]. intros j Hj.
    destruct (Z.eq_dec j i) as [->|]; [naive_solver|]. destruct (Z.eq_dec j (i + 1)) as [->|]; [|apply Hno; lia].
    unfold two_zeros. rewrite Hb. naive_solver.
Qed.

(** The scan finds the first two zero bytes that follow each other, although
    it steps over a byte where it can. *)
Theorem LookingForInfiniteEnd_spec p max (Hmax : 2 <= max < Zlen p) :
  exists o, LookingForInfiniteEnd p max = Done o /\
    match o with
    | Some k => 0 <= k < max /\ two_zeros p k /\ forall j, 0 <= j < k -> ~ two_zeros p j
    | None => forall j, 0 <= j < max -> ~ two_zeros p j
    end.
Proof.
  unfold LookingForInfiniteEnd. destruct (Z.ltb_spec max 2); [lia|].
  apply infinite_end_from_spec; [lia|lia|lia|lia|]. intros j Hj. lia.
Qed.

End header.

Theorem tlv_round_trip_witness :
  @reads_back ilp32 (Zlen (replicate 200 7)) /\
  exists m off, @ASN1CreateTLV ilp32 4 (Zlen (replicate 200 7)) (replicate 200 7) = Done (m ++ [0], Zlen m) /\
    @AnscGetTLVLength ilp32 (m ++ [1; 2]) = Done (Zlen m) /\
    (forall l, @AnscGotoNextTag ilp32 (m ++ [1; 2]) l = Done (Some (off, Zlen (replicate 200 7)))) /\
    take (length (replicate 200 7)) (drop (Z.to_nat off) (m ++ [1; 2])) = replicate 200 7 /\
    (forall u, @AnscCheckAsn1Validity ilp32 (m ++ [1; 2]) u = Done (Zlen m <=? u)).
Proof.
  assert (Hb : @reads_back ilp32 (Zlen (replicate 200 7))) by (split; [cbn; lia|by right]). split; [exact Hb|].
  apply (@tlv_round_trip ilp32 4 (replicate 200 7) [1; 2]); [|cbn; lia|exact Hb|done].
  by apply tag_low.
Defined.

Theorem long_values_are_lost_witness :
  let d := replicate 128 7 in
  @AnscGetTLVLength lp64 (der_tlv 4 d ++ []) = Done (1 + Zlen (der_length (Zlen d))).
Proof. apply (@long_values_are_lost lp64 4 (replicate 128 7) []); [by apply tag_low|done|cbn; lia]. Defined.

Theorem LookingForInfiniteEnd_spec_witness :
  exists o, LookingForInfiniteEnd [1; 0; 2; 0; 0; 9] 5 = Done o /\
    match o with
    | Some k => 0 <= k < 5 /\ two_zeros [1; 0; 2; 0; 0; 9] k /\ forall j, 0 <= j < k -> ~ two_zeros [1; 0; 2; 0; 0; 9] j
    | None => forall j, 0 <= j < 5 -> ~ two_zeros [1; 0; 2; 0; 0; 9] j
    end.
Proof. apply (LookingForInfiniteEnd_spec [1; 0; 2; 0; 0; 9] 5). cbn. lia. Defined.

(** A value of indefinite length has the content length that is read from no
    byte: it is never entered.  A text of odd length is not made a BMP string. *)
Theorem header_faults `{Platform} r l b :
  AnscTagInfoParsingData AnscTagInfoCreate (48 :: 128 :: r) = Done (ASN1_SUCCESS, TagInfo 1 1 0 48 true) /\
  AnscGotoNextTag (48 :: 128 :: r) l = Done None /\
  GetBMPStringFromVisibleString [72; 105; 33] 3 b None = Done (false, b, None).
Proof.
  assert (E : AnscTagInfoParsingData AnscTagInfoCreate (48 :: 128 :: r) = Done (ASN1_SUCCESS, TagInfo 1 1 0 48 true)).
  { unfold AnscTagInfoParsingData.
    change (buf_get (48 :: 128 :: r) 0) with (Done 48). cbn [mbind outcome_bind].
    change (48 =? 0) with false. change (Z.land 48 31 =? 31) with false. cbn [mbind outcome_bind].
    change (4 <=? 0) with false. change (buf_get (48 :: 128 :: r) (0 + 1)) with (Done 128). cbn [mbind outcome_bind].
    change (negb (Z.land 128 128 =? 0)) with true. change (128 =? 128) with true. change (Z.land 128 127) with 0.
    destruct (Z.ltb_spec sizeof_ULONG 0); [destruct sizeof_cases as [[E _] | [E _]]; lia|].
    cbn [mbind outcome_bind GetLengthFromBuffer Z.eqb bIsInfinite]. by rewrite LONG_small. }
  split_and!; [done| |done]. unfold AnscGotoNextTag. by rewrite E.
Qed.
