(* ===== verification/DerTag.v ===== *)
(** * The tags of attributes ([ansc_asn1_attr_interface.c])

    An attribute gives a value a tag of its own.  A class number above 30 is
    written in digits of seven bits.  A number is read back unless one of the
    digits in its middle is zero, which the code does not write. *)

From S2P Require Import Prelude Asn1 DerLength DerHeader.
Open Scope Z_scope.

Inductive ASN_OBJECT_FORM_TYPE := EMPTY_FORM | UNIVERSAL_FORM | APPLICATION_FORM | CONTEXT_FORM | PRIVATE_FORM.
#[export] Instance form_dec : EqDecision ASN_OBJECT_FORM_TYPE.
Proof. solve_decision. Defined.

Record ANSC_ATTR_OBJECT := Attr {
  FormType : ASN_OBJECT_FORM_TYPE; ulClassNumber : Z; ulFixedLen : Z; ulMaxiLen : Z; bImplicit : bool }.
#[export] Instance attr_dec : EqDecision ANSC_ATTR_OBJECT.
Proof. solve_decision. Defined.

Definition AnscAsn1AttrCreate (Type_ : ASN_OBJECT_FORM_TYPE) (ulNumber : Z) (bImplicit_ : bool) : ANSC_ATTR_OBJECT :=
  Attr Type_ ulNumber 0 0 bImplicit_.
Definition AnscAsn1AttrClone (a : ANSC_ATTR_OBJECT) : ANSC_ATTR_OBJECT :=
  let n := AnscAsn1AttrCreate (FormType a) (ulClassNumber a) (bImplicit a) in
  Attr (FormType n) (ulClassNumber n) (ulFixedLen a) (ulMaxiLen a) (bImplicit n).

Definition AnscAsn1AttrEqualsTo (a b : option ANSC_ATTR_OBJECT) : bool :=
  match a, b with
  | None, None => true
  | Some a, Some b =>
      negb (negb (Bool.eqb (bImplicit a) (bImplicit b)) || negb (bool_decide (FormType a = FormType b)) ||
            negb (ulClassNumber a =? ulClassNumber b) || negb (ulFixedLen a =? ulFixedLen b) ||
            negb (ulMaxiLen a =? ulMaxiLen b))
  | _, _ => false
  end.

(** The destination after the copy. *)
Definition AnscAsn1AttrCopyValueFrom (dst src : ANSC_ATTR_OBJECT) : ANSC_ATTR_OBJECT :=
  Attr (FormType src) (ulClassNumber src) (ulFixedLen src) (ulMaxiLen src) (bImplicit src).

Definition AnscAsn1AttrGetSizeOfEncodedTag (a : ANSC_ATTR_OBJECT) : Z :=
  if bool_decide (FormType a = EMPTY_FORM) then 0
  else if ulClassNumber a <=? 30 then 1
  else if 128 * 128 * 128 <=? ulClassNumber a then 5
  else if 128 * 128 <=? ulClassNumber a then 4
  else if 128 <=? ulClassNumber a then 3
  else 2.

Definition form_bits (f : ASN_OBJECT_FORM_TYPE) : Z :=
  match f with APPLICATION_FORM => 64 | CONTEXT_FORM => 128 | PRIVATE_FORM => 192 | _ => 0 end.

(** One of the three steps that write a digit if the rest has it. *)
Definition put_digit (unit : Z) (s : list Z * Z * Z) : outcome (list Z * Z * Z) :=
  let '(m, p, uRestValue) := s in
  if unit <=? uRestValue
  then m ← buf_put m p (Z.lor (UCHAR (uRestValue / unit)) 128); Done (m, p + 1, uRestValue mod unit)
  else Done (m, p, uRestValue).

Definition AnscAsn1AttrEncodingData (a : ANSC_ATTR_OBJECT) (m : list Z) (p : Z) (bConstructed : bool) : outcome (list Z * Z) :=
  if bool_decide (FormType a = EMPTY_FORM) then Done (m, p)
  else
    let c := Z.lor 0 (form_bits (FormType a)) in
    let c := if bConstructed || negb (bImplicit a) then Z.lor c 32 else c in
    if ulClassNumber a <=? 30 then
      m ← buf_put m p (UCHAR (c + UCHAR (ulClassNumber a))); Done (m, p + 1)
    else
      m ← buf_put m p (UCHAR (c + 31));
      s ← put_digit (128 * 128 * 128) (m, p + 1, ulClassNumber a);
      s ← put_digit (128 * 128) s;
      '(m, p, uRestValue) ← put_digit 128 s;
      m ← buf_put m p (UCHAR uRestValue);
      Done (m, p + 1).

Section tag.
Context `{Platform}.

(** The loop that looks for the last octet of a class number. *)
Fixpoint class_octets (p : list Z) (fuel : nat) (counter : Z) : outcome Z :=
  match fuel with
  | O => Stuck Diverge
  | S fuel => c ← buf_get p counter; if 128 <=? c then class_octets p fuel (counter + 1) else Done counter
  end.
Fixpoint times_128 (times : nat) (uValue : Z) : Z :=
  match times with O => uValue | S n => times_128 n (ULONG (uValue * 128)) end.

Definition AnscAsn1AttrParsingData (pData : list Z) : outcome ANSC_ATTR_OBJECT :=
  c0 ← buf_get pData 0;
  let uChar := Z.land c0 192 in
  let formType :=
    if uChar =? 64 then APPLICATION_FORM else if uChar =? 128 then CONTEXT_FORM
    else if uChar =? 192 then PRIVATE_FORM else UNIVERSAL_FORM in
  let uChar := Z.land c0 31 in
  ulClass ← (if negb (uChar =? 31) then Done uChar
    else
      counter ← class_octets pData (S (length pData)) 1;
      for_from 0 (Z.to_nat counter) (fun i ulClass =>
        c ← buf_get pData (i + 1);
        Done (ULONG (ulClass + times_128 (Z.to_nat (counter - i - 1)) (Z.land c 127)))) 0);
  Done (AnscAsn1AttrCreate formType ulClass false).

End tag.

(** ** Digits of seven bits *)

(** The [n] low digits, all but the last with the highest bit. *)
Fixpoint digits7 (n : nat) (u : Z) : list Z :=
  match n with
  | O => []
  | S k => (u / 128 ^ Z.of_nat k) mod 128 + (if (k =? 0)%nat then 0 else 128) :: digits7 k u
  end.
Fixpoint value7 (l : list Z) : Z :=
  match l with [] => 0 | b :: r => Z.land b 127 * 128 ^ Zlen r + value7 r end.

(** How many digits a number has, zero having one. *)
Definition ndigits (u : Z) : Z := Z.log2 u / 7 + 1.
Definition base128 (u : Z) : list Z := digits7 (Z.to_nat (ndigits u)) u.

Lemma length_digits7 n u : length (digits7 n u) = n.
Proof. induction n as [|n IH]; cbn; [done|]. by rewrite IH. Qed.

Lemma pow128_succ n : 128 ^ Z.of_nat (S n) = 128 * 128 ^ Z.of_nat n.
Proof. rewrite Nat2Z.inj_succ, Z.pow_succ_r by lia. done. Qed.
Lemma pow128_pos n : 0 < 128 ^ Z.of_nat n.
Proof. apply Z.pow_pos_nonneg; lia. Qed.

Lemma digit_land d (k : bool) : 0 <= d < 128 -> Z.land (d + (if k then 0 else 128)) 127 = d.
Proof.
  intros Hd. change 127 with (Z.ones 7). rewrite Z.land_ones by lia. change (2 ^ 7) with 128.
  destruct k; [rewrite Z.add_0_r|replace (d + 128) with (d + 1 * 128) by lia; rewrite Z.mod_add by lia]; by apply Z.mod_small.
Qed.

Lemma value7_digits n u : 0 <= u -> value7 (digits7 n u) = u mod 128 ^ Z.of_nat n.
Proof.
  intros Hu. induction n as [|n IH]; [cbn; by rewrite Z.mod_1_r|].
  cbn [digits7 value7]. rewrite length_digits7, IH, digit_land by (apply Z.mod_pos_bound; lia).
  pose proof (pow128_pos n). rewrite pow128_succ, (Z.mul_comm 128), Z.rem_mul_r by lia. lia.
Qed.

Lemma ndigits_pos u : 1 <= ndigits u.
Proof. unfold ndigits. pose proof (Z.log2_nonneg u). assert (0 <= Z.log2 u / 7) by (apply Z.div_pos; lia). lia. Qed.

Lemma ndigits_spec u : 0 < u -> 128 ^ (ndigits u - 1) <= u < 128 ^ ndigits u.
Proof.
  intros Hu. pose proof (Z.log2_spec u Hu) as [Hl Hh]. pose proof (Z.log2_nonneg u) as H0.
  assert (Hq : 0 <= Z.log2 u / 7) by (apply Z.div_pos; lia).
  pose proof (Z.div_mod (Z.log2 u) 7 ltac:(lia)) as Hd. pose proof (Z.mod_pos_bound (Z.log2 u) 7 ltac:(lia)).
  unfold ndigits. change 128 with (2 ^ 7). rewrite <-!Z.pow_mul_r by lia. split.
  - eapply Z.le_trans; [|exact Hl]. apply Z.pow_le_mono_r; lia.
  - eapply Z.lt_le_trans; [exact Hh|]. apply Z.pow_le_mono_r; lia.
Qed.

Lemma ndigits_range u k : 128 ^ (k - 1) <= u < 128 ^ k -> 1 <= k -> ndigits u = k.
Proof.
  intros Hu Hk. assert (0 < 128 ^ (k - 1)) by (apply Z.pow_pos_nonneg; lia).
  pose proof (ndigits_spec u ltac:(lia)) as [Hl Hh]. pose proof (ndigits_pos u).
  assert (ndigits u - 1 < k) by (apply (Z.pow_lt_mono_r_iff 128); lia).
  assert (k - 1 < ndigits u) by (apply (Z.pow_lt_mono_r_iff 128); lia). lia.
Qed.

Lemma value7_base128 u : 0 <= u -> value7 (base128 u) = u.
Proof.
  intros Hu. unfold base128. rewrite value7_digits by done. pose proof (ndigits_pos u). rewrite Z2Nat.id by lia.
  apply Z.mod_small. destruct (Z.eq_dec u 0) as [->|]; [done|]. pose proof (ndigits_spec u). lia.
Qed.

Lemma length_base128 u : Zlen (base128 u) = ndigits u.
Proof. unfold base128. rewrite length_digits7. pose proof (ndigits_pos u). lia. Qed.

(** All digits but the last have the highest bit. *)
Lemma digits7_shape n u : exists mid, digits7 (S n) u = mid ++ [u mod 128] /\
  Forall (fun x => 128 <= x < 256) mid /\ length mid = n.
Proof.
  induction n as [|n (mid & E & Hm & Hl)].
  - exists []. split; [|by split]. cbn. by rewrite Z.div_1_r, Z.add_0_r.
  - exists ((u / 128 ^ Z.of_nat (S n)) mod 128 + 128 :: mid). split_and!; [|constructor; [|done]|cbn; lia].
    + change (digits7 (S (S n)) u) with ((u / 128 ^ Z.of_nat (S n)) mod 128 + 128 :: digits7 (S n) u). by rewrite E.
    + pose proof (Z.mod_pos_bound (u / 128 ^ Z.of_nat (S n)) 128). lia.
Qed.

Lemma high_bit x : 128 <= x < 256 -> Z.land x 128 ≠ 0.
Proof.
  intros Hx E. assert (Hb : Z.testbit (Z.land x 128) 7 = true); [|by rewrite E in Hb].
  rewrite Z.land_spec. change (Z.testbit 128 7) with true. rewrite andb_true_r.
  rewrite Z.testbit_true by lia. change (2 ^ 7) with 128.
  enough (x / 128 = 1) as -> by done. symmetry. apply (Z.div_unique x 128 1 (x - 128)); lia.
Qed.

(** ** Reading a tag *)

Section tag_read.
Context `{Platform}.

Lemma class_octets_tag p fuel i : Forall is_byte p -> class_octets p fuel i = tag_octets p fuel i.
Proof.
  intros Hp. revert i. induction fuel as [|fuel IH]; intros i; [done|]. cbn [class_octets tag_octets].
  destruct (buf_get p i) as [c|f] eqn:E; [|done]. cbn [mbind outcome_bind].
  assert (Hc : is_byte c).
  { unfold buf_get in E. destruct (i <? 0); [done|]. destruct (p !! Z.to_nat i) eqn:El; [|done].
    injection E as ->. by eapply Forall_lookup_1. }
  unfold is_byte in Hc. destruct (Z.leb_spec 128 c).
  - destruct (Z.eqb_spec (Z.land c 128) 0) as [E0|]; [by apply high_bit in E0; [|lia]|apply IH].
  - by rewrite land_128_low by lia.
Qed.

Lemma times_128_spec n u : 0 <= u < 128 -> times_128 n u = ULONG (u * 128 ^ Z.of_nat n).
Proof.
  intros Hu. assert (Hgen : forall v, times_128 n (ULONG v) = ULONG (v * 128 ^ Z.of_nat n)).
  { induction n as [|n IH]; intros v; cbn [times_128]; [by rewrite Z.mul_1_r|].
    rewrite ULONG_mul_l, IH, pow128_succ. f_equal. lia. }
  rewrite <-(ULONG_small32 u) at 1 by lia. apply Hgen.
Qed.

Lemma value7_drop ds i x : ds !! i = Some x ->
  value7 (drop i ds) = Z.land x 127 * 128 ^ (Zlen ds - Z.of_nat i - 1) + value7 (drop (S i) ds).
Proof.
  intros Hx. rewrite (drop_S ds x i) by done. cbn [value7]. rewrite length_drop. apply lookup_lt_Some in Hx.
  do 3 f_equal. lia.
Qed.

Lemma class_sum c ds r :
  for_from 0 (length ds) (fun i ulClass =>
    x ← buf_get (c :: ds ++ r) (i + 1);
    Done (ULONG (ulClass + times_128 (Z.to_nat (Zlen ds - i - 1)) (Z.land x 127)))) 0 = Done (ULONG (value7 ds)).
Proof.
  destruct (for_from_inv (fun i acc => acc = ULONG (value7 ds - value7 (drop (Z.to_nat i) ds)))
    (fun i ulClass => x ← buf_get (c :: ds ++ r) (i + 1);
      Done (ULONG (ulClass + times_128 (Z.to_nat (Zlen ds - i - 1)) (Z.land x 127)))) 0 (length ds) 0) as (acc & -> & ->).
  - rewrite drop_0, Z.sub_diag. by rewrite ULONG_small32.
  - intros j acc Hj ->. destruct (lookup_lt_is_Some_2 ds (Z.to_nat j)) as [x Hx]; [lia|].
    rewrite (buf_get_Z _ (j + 1) x); [|lia|]; cycle 1.
    { replace (Z.to_nat (j + 1)) with (S (Z.to_nat j)) by lia. rewrite lookup_cons, lookup_app_l by lia. done. }
    cbn [mbind outcome_bind]. eexists. split; [done|].
    assert (Hb : 0 <= Z.land x 127 < 128).
    { change 127 with (Z.ones 7). rewrite Z.land_ones by lia. by apply Z.mod_pos_bound. }
    rewrite times_128_spec, ULONG_add_r, ULONG_add_l, Z2Nat.id by (done || lia).
    rewrite (value7_drop ds _ x) by done. replace (Z.to_nat (j + 1)) with (S (Z.to_nat j)) by lia.
    rewrite Z2Nat.id by lia. f_equal. lia.
  - f_equal. f_equal. rewrite Z.add_0_l, Nat2Z.id, drop_all. cbn. lia.
Qed.

Definition form_of (c : Z) : ASN_OBJECT_FORM_TYPE :=
  let uChar := Z.land c 192 in
  if uChar =? 64 then APPLICATION_FORM else if uChar =? 128 then CONTEXT_FORM
  else if uChar =? 192 then PRIVATE_FORM else UNIVERSAL_FORM.

Lemma parse_low_tag c r : Z.land c 31 ≠ 31 ->
  AnscAsn1AttrParsingData (c :: r) = Done (AnscAsn1AttrCreate (form_of c) (Z.land c 31) false).
Proof.
  intros Hc. unfold AnscAsn1AttrParsingData. change (buf_get (c :: r) 0) with (Done c). cbn [mbind outcome_bind].
  apply Z.eqb_neq in Hc. by rewrite Hc.
Qed.

Lemma parse_high_tag c mid l r :
  is_byte c -> Z.land c 31 = 31 -> Forall (fun x => 128 <= x < 256) mid -> 0 <= l < 128 -> Forall is_byte r ->
  AnscAsn1AttrParsingData (c :: (mid ++ [l]) ++ r) =
    Done (AnscAsn1AttrCreate (form_of c) (ULONG (value7 (mid ++ [l]))) false).
Proof.
  intros Hc H31 Hm Hl Hr. unfold AnscAsn1AttrParsingData.
  change (buf_get (c :: (mid ++ [l]) ++ r) 0) with (Done c). cbn [mbind outcome_bind]. rewrite H31. cbn [Z.eqb Pos.eqb negb].
  assert (Hbytes : Forall is_byte (c :: (mid ++ [l]) ++ r)).
  { constructor; [done|]. rewrite !Forall_app, Forall_singleton. split_and!; [|unfold is_byte; lia|done].
    eapply Forall_impl; [exact Hm|]. unfold is_byte. cbn. lia. }
  rewrite class_octets_tag by done.
  assert (Et : tag_octets (c :: (mid ++ [l]) ++ r) (S (length (c :: (mid ++ [l]) ++ r))) 1 = Done (1 + Zlen mid)).
  { rewrite <-app_assoc. cbn [app]. apply (tag_octets_spec [c] mid l r).
    - eapply Forall_impl; [exact Hm|]. intros x Hx. by apply high_bit.
    - by apply land_128_low; lia.
    - cbn. rewrite length_app. cbn. lia.
    - lia.
    - intros k Hk. change (Z.to_nat 1 + k)%nat with (S k). cbn [app]. rewrite lookup_cons.
      change (l :: r) with ([l] ++ r). rewrite app_assoc, lookup_app_l; [done|]. rewrite length_app. cbn. lia. }
  rewrite Et. cbn [mbind outcome_bind].
  assert (El : Zlen (mid ++ [l]) = 1 + Zlen mid) by (rewrite length_app; cbn; lia). rewrite <-El, Nat2Z.id.
  by rewrite class_sum.
Qed.

End tag_read.

(** ** Writing a tag *)

Definition constructed_bit (a : ANSC_ATTR_OBJECT) (bConstructed : bool) : Z :=
  if bConstructed || negb (bImplicit a) then 32 else 0.
Definition digit_if (unit u : Z) : list Z := if unit <=? u then [u / unit + 128] else [].
Definition written_digits (n : Z) : list Z :=
  digit_if 2097152 n ++ digit_if 16384 (n mod 2097152) ++ digit_if 128 (n mod 16384) ++ [n mod 128].
Definition tag_written (a : ANSC_ATTR_OBJECT) (bConstructed : bool) : list Z :=
  let c := form_bits (FormType a) + constructed_bit a bConstructed in
  if ulClassNumber a <=? 30 then [c + ulClassNumber a] else (c + 31) :: written_digits (ulClassNumber a).

Lemma lor_128 d : 0 <= d < 128 -> Z.lor d 128 = d + 128.
Proof.
  intros Hd. rewrite Z.add_nocarry_lxor, Z.lxor_lor by (apply land_128_low; lia). done.
Qed.

(** A step that writes a digit, without the rest it leaves. *)
Definition digit_writer (unit u : Z) (m : list Z) (p : Z) : outcome (list Z * Z) :=
  if unit <=? u then m ← buf_put m p (Z.lor (UCHAR (u / unit)) 128); Done (m, p + 1) else Done (m, p).

Lemma put_digit_writer unit m p u : 0 <= u -> 0 < unit ->
  put_digit unit (m, p, u) = '(m, p) ← digit_writer unit u m p; Done (m, p, u mod unit).
Proof.
  intros Hu Hp. unfold put_digit, digit_writer. destruct (Z.leb_spec unit u).
  - destruct (buf_put _ _ _); done.
  - cbn. by rewrite Z.mod_small by lia.
Qed.

Lemma digit_writer_writes unit u : 0 <= u < 128 * unit -> 0 < unit ->
  writes (digit_writer unit u) (digit_if unit u) (Zlen (digit_if unit u)).
Proof.
  intros Hu Hp. unfold digit_writer, digit_if. destruct (Z.leb_spec unit u); [|apply writes_nothing].
  assert (0 <= u / unit < 128) by (split; [apply Z.div_pos; lia|apply Z.div_lt_upper_bound; lia]).
  unfold UCHAR. rewrite Z.mod_small, lor_128 by lia. apply writes_put.
Qed.

Lemma first_octet a bConstructed k : 0 <= k <= 31 ->
  UCHAR ((if bConstructed || negb (bImplicit a) then Z.lor (Z.lor 0 (form_bits (FormType a))) 32
          else Z.lor 0 (form_bits (FormType a))) + k) = form_bits (FormType a) + constructed_bit a bConstructed + k.
Proof.
  intros Hk. unfold constructed_bit, UCHAR. destruct (_ || _), (FormType a); cbn [form_bits];
    repeat match goal with |- context [Z.lor ?x ?y] => let v := eval cbv in (Z.lor x y) in change (Z.lor x y) with v end;
    rewrite Z.mod_small; lia.
Qed.

Lemma AttrEncodingData_writes a bConstructed :
  FormType a ≠ EMPTY_FORM -> 0 <= ulClassNumber a < 268435456 ->
  writes (fun m p => AnscAsn1AttrEncodingData a m p bConstructed) (tag_written a bConstructed)
    (Zlen (tag_written a bConstructed)).
Proof.
  intros Hf Hn. unfold tag_written. set (n := ulClassNumber a) in *. destruct (Z.leb_spec n 30) as [Hle|Hgt].
  - eapply writes_ext; [|apply writes_put]. intros m p. unfold AnscAsn1AttrEncodingData.
    rewrite bool_decide_false by done. fold n. destruct (Z.leb_spec n 30); [|lia].
    rewrite <-first_octet by lia. unfold UCHAR at 3. by rewrite (Z.mod_small n) by lia.
  - assert (H3 : 0 <= n mod 2097152 < 2097152) by (apply Z.mod_pos_bound; lia).
    assert (H2 : 0 <= n mod 16384 < 16384) by (apply Z.mod_pos_bound; lia).
    assert (H1 : 0 <= n mod 128 < 128) by (apply Z.mod_pos_bound; lia).
    set (c := form_bits (FormType a) + constructed_bit a bConstructed).
    change ((c + 31) :: written_digits n) with ([c + 31] ++ written_digits n). unfold written_digits.
    eapply (writes_ext (fun m p =>
      '(m, p) ← (m ← buf_put m p (c + 31); Done (m, p + 1));
      '(m, p) ← digit_writer 2097152 n m p;
      '(m, p) ← digit_writer 16384 (n mod 2097152) m p;
      '(m, p) ← digit_writer 128 (n mod 16384) m p;
      m ← buf_put m p (n mod 128); Done (m, p + 1))).
    + intros m p. unfold AnscAsn1AttrEncodingData. rewrite bool_decide_false by done. fold n.
      destruct (Z.leb_spec n 30); [lia|]. rewrite first_octet by lia. fold c.
      destruct (buf_put m p (c + 31)) as [m1|]; [|done]. cbn [mbind outcome_bind].
      change (128 * 128 * 128) with 2097152. change (128 * 128) with 16384.
      rewrite put_digit_writer by lia. destruct (digit_writer _ n _ _) as [[m2 p2]|]; [|done]. cbn [mbind outcome_bind].
      rewrite put_digit_writer by lia. destruct (digit_writer _ _ _ _) as [[m3 p3]|]; [|done]. cbn [mbind outcome_bind].
      rewrite put_digit_writer by (apply Z.mod_pos_bound || idtac; lia).
      replace ((n mod 2097152) mod 16384) with (n mod 16384)
        by (change 2097152 with (16384 * 128); by rewrite Z.rem_mul_r, Z.mul_comm, Z.mod_add, Z.mod_mod by lia).
      destruct (digit_writer _ _ _ _) as [[m4 p4]|]; [|done]. cbn [mbind outcome_bind].
      replace ((n mod 16384) mod 128) with (n mod 128)
        by (change 16384 with (128 * 128); by rewrite Z.rem_mul_r, Z.mul_comm, Z.mod_add, Z.mod_mod by lia).
      unfold UCHAR. by rewrite (Z.mod_small (n mod 128)) by lia.
    + pose proof (digit_writer_writes 2097152 n ltac:(lia) ltac:(lia)) as W3.
      pose proof (digit_writer_writes 16384 (n mod 2097152) ltac:(lia) ltac:(lia)) as W2.
      pose proof (digit_writer_writes 128 (n mod 16384) ltac:(lia) ltac:(lia)) as W1.
      apply writes_app; [apply writes_put|]. apply writes_app; [exact W3|]. apply writes_app; [exact W2|].
      apply writes_app; [exact W1|]. apply writes_put.
Qed.

(** The digit in the middle that is zero, and is not written. *)
Definition skips (n : Z) : Prop :=
  (2097152 <= n /\ (n / 16384) mod 128 = 0) \/ (16384 <= n /\ (n / 128) mod 128 = 0).

Lemma ndigits_cases n : 31 <= n < 268435456 ->
  ndigits n = if 2097152 <=? n then 4 else if 16384 <=? n then 3 else if 128 <=? n then 2 else 1.
Proof.
  intros Hn. repeat case_match; zbool; apply ndigits_range; cbn; lia.
Qed.

Lemma digit_of n u : 0 < u -> n mod (u * 128) / u = (n / u) mod 128.
Proof.
  intros Hu. pose proof (Z.mod_pos_bound n u Hu). rewrite Z.rem_mul_r, (Z.mul_comm u), Z.div_add by lia.
  by rewrite Z.div_small by done.
Qed.

Lemma digit_if_div unit u : 0 < unit -> digit_if unit u = if 1 <=? u / unit then [u / unit + 128] else [].
Proof.
  intros Hp. unfold digit_if. destruct (Z.leb_spec unit u), (Z.leb_spec 1 (u / unit)); try done; exfalso.
  - assert (1 <= u / unit) by (apply Z.div_le_lower_bound; lia). lia.
  - assert (u / unit < 1) by (apply Z.div_lt_upper_bound; lia). lia.
Qed.

(** The digits that are written, with the numbers of all digits. *)
Lemma written_cases n : 31 <= n < 268435456 -> exists d3 d2 d1 d0,
  n = d3 * 2097152 + d2 * 16384 + d1 * 128 + d0 /\ 0 <= d3 < 128 /\ 0 <= d2 < 128 /\ 0 <= d1 < 128 /\ 0 <= d0 < 128 /\
  written_digits n = (if 1 <=? d3 then [d3 + 128] else []) ++ (if 1 <=? d2 then [d2 + 128] else []) ++
    (if 1 <=? d1 then [d1 + 128] else []) ++ [d0] /\
  (skips n <-> (1 <= d3 /\ (d2 = 0 \/ d1 = 0)) \/ (1 <= d2 /\ d1 = 0)) /\
  base128 n = digits7 (if 1 <=? d3 then 4 else if 1 <=? d2 then 3 else if 1 <=? d1 then 2 else 1) n.
Proof.
  intros Hn. exists (n / 2097152), ((n / 16384) mod 128), ((n / 128) mod 128), (n mod 128).
  pose proof (digit_of n 16384 ltac:(lia)) as H3. change (16384 * 128) with 2097152 in H3.
  pose proof (digit_of n 128 ltac:(lia)) as H2. change (128 * 128) with 16384 in H2.
  assert (Q2 : n / 16384 = n / 128 / 128) by by rewrite Z.div_div.
  assert (Q3 : n / 2097152 = n / 16384 / 128) by by rewrite Z.div_div.
  pose proof (Z.div_mod n 128 ltac:(lia)). pose proof (Z.div_mod (n / 128) 128 ltac:(lia)) as D1. rewrite <-Q2 in D1.
  pose proof (Z.div_mod (n / 16384) 128 ltac:(lia)) as D2. rewrite <-Q3 in D2.
  pose proof (Z.mod_pos_bound (n / 16384) 128 ltac:(lia)). pose proof (Z.mod_pos_bound (n / 128) 128 ltac:(lia)).
  pose proof (Z.mod_pos_bound n 128 ltac:(lia)).
  split_and!; [lia|lia|lia|lia|lia|lia|lia|lia|lia| | |].
  - unfold written_digits. rewrite !digit_if_div by lia. by rewrite H3, H2.
  - unfold skips. lia.
  - unfold base128. rewrite ndigits_cases by done.
    repeat match goal with |- context [?a <=? ?b] => destruct (Z.leb_spec a b) end; try done; lia.
Qed.

Lemma value7_high d r : 0 <= d < 128 -> value7 ((d + 128) :: r) = d * 128 ^ Zlen r + value7 r.
Proof. intros Hd. cbn [value7]. by rewrite (digit_land d false Hd). Qed.
Lemma value7_last d : 0 <= d < 128 -> value7 [d] = d.
Proof. intros Hd. cbn [value7]. rewrite <-(Z.add_0_r d) at 1. rewrite (digit_land d true Hd). cbn. lia. Qed.

Lemma written_spec n : 31 <= n < 268435456 -> exists mid d0,
  written_digits n = mid ++ [d0] /\ Forall (fun x => 128 <= x < 256) mid /\ 0 <= d0 < 128 /\
  0 <= value7 (written_digits n) <= n /\
  (value7 (written_digits n) = n <-> ~ skips n) /\ (Zlen (written_digits n) = ndigits n <-> ~ skips n).
Proof.
  intros Hn. destruct (written_cases n Hn) as (d3 & d2 & d1 & d0 & En & H3 & H2 & H1 & H0 & Ew & Hs & Eb).
  assert (Ed : ndigits n = if 1 <=? d3 then 4 else if 1 <=? d2 then 3 else if 1 <=? d1 then 2 else 1).
  { rewrite <-length_base128, Eb, length_digits7. by repeat case_match. }
  exists ((if 1 <=? d3 then [d3 + 128] else []) ++ (if 1 <=? d2 then [d2 + 128] else []) ++
    (if 1 <=? d1 then [d1 + 128] else [])), d0.
  rewrite Ew, Ed, Hs. split_and!; [by rewrite <-!app_assoc| |lia|lia|..];
    (destruct (Z.leb_spec 1 d3), (Z.leb_spec 1 d2), (Z.leb_spec 1 d1));
    cbn [app]; rewrite ?value7_high, ?value7_last by lia; cbn [length]; try (repeat constructor; lia); lia.
Qed.

(** The first octet has the form, whether the value is constructed, and five
    bits of the number. *)
Lemma octet_bits f k (b : bool) : f ≠ EMPTY_FORM -> 0 <= k <= 31 ->
  let c := form_bits f + (if b then 32 else 0) + k in
  form_of c = f /\ Z.land c 31 = k /\ is_byte c.
Proof.
  intros Hf Hk.
  assert (Hall : forallb (fun k => forallb (fun f => forallb (fun b : bool =>
    let c := form_bits f + (if b then 32 else 0) + k in
    bool_decide (form_of c = f) && (Z.land c 31 =? k) && (0 <=? c) && (c <? 256)) [true; false])
    [UNIVERSAL_FORM; APPLICATION_FORM; CONTEXT_FORM; PRIVATE_FORM]) (seqZ 0 32) = true) by by vm_compute.
  rewrite forallb_forall in Hall. specialize (Hall k). rewrite forallb_forall in Hall.
  specialize (Hall (proj1 (list_elem_of_In _ _) (proj2 (elem_of_seqZ 0 32 k) ltac:(lia))) f).
  rewrite forallb_forall in Hall.
  specialize (Hall ltac:(destruct f; cbn; tauto) b ltac:(destruct b; cbn; tauto)).
  intros c. fold c in Hall. apply andb_prop in Hall as [Hall H256]. apply andb_prop in Hall as [Hall H0].
  apply andb_prop in Hall as [Hform H31]. apply bool_decide_eq_true in Hform. unfold is_byte. zbool. auto.
Qed.

Section tag_theorems.
Context `{Platform}.

Lemma size_of_tag a : FormType a ≠ EMPTY_FORM -> 0 <= ulClassNumber a < 268435456 ->
  AnscAsn1AttrGetSizeOfEncodedTag a = if ulClassNumber a <=? 30 then 1 else 1 + ndigits (ulClassNumber a).
Proof.
  intros Hf Hn. unfold AnscAsn1AttrGetSizeOfEncodedTag. rewrite bool_decide_false by done.
  destruct (Z.leb_spec (ulClassNumber a) 30); [done|]. rewrite ndigits_cases by lia.
  change (128 * 128 * 128) with 2097152. change (128 * 128) with 16384. by repeat case_match.
Qed.

(** The class number that is read. *)
Definition class_read (n : Z) : Z := if n <=? 30 then n else value7 (written_digits n).

Lemma class_read_spec n : 0 <= n < 268435456 -> class_read n <= n /\ (class_read n = n <-> ~ skips n).
Proof.
  intros Hn. unfold class_read. destruct (Z.leb_spec n 30); [unfold skips; lia|].
  destruct (written_spec n ltac:(lia)) as (mid & d0 & _ & _ & _ & Hv & Hk & _). split; [lia|done].
Qed.

Lemma tag_read_back a bConstructed r :
  FormType a ≠ EMPTY_FORM -> 0 <= ulClassNumber a < 268435456 -> Forall is_byte r ->
  AnscAsn1AttrParsingData (tag_written a bConstructed ++ r) =
    Done (AnscAsn1AttrCreate (FormType a) (class_read (ulClassNumber a)) false).
Proof.
  intros Hform Hn Hr. unfold tag_written, class_read, constructed_bit. set (b := bConstructed || negb (bImplicit a)).
  destruct (Z.leb_spec (ulClassNumber a) 30).
  - destruct (octet_bits (FormType a) (ulClassNumber a) b) as (E1 & E2 & _); [done|lia|].
    cbn [app]. rewrite parse_low_tag by lia. by rewrite E1, E2.
  - destruct (octet_bits (FormType a) 31 b) as (E1 & E2 & Hc); [done|lia|].
    destruct (written_spec (ulClassNumber a) ltac:(lia)) as (mid & d0 & Ew & Hm & Hd & Hv & _).
    cbn [app]. rewrite Ew at 1. rewrite parse_high_tag by done. by rewrite E1, <-Ew, ULONG_small32 by lia.
Qed.

Lemma tag_length_announced a bConstructed : FormType a ≠ EMPTY_FORM -> 0 <= ulClassNumber a < 268435456 ->
  (Zlen (tag_written a bConstructed) = AnscAsn1AttrGetSizeOfEncodedTag a <-> ~ skips (ulClassNumber a)).
Proof.
  intros Hform Hn. rewrite size_of_tag by done. unfold tag_written. destruct (Z.leb_spec (ulClassNumber a) 30).
  - unfold skips. cbn. lia.
  - destruct (written_spec (ulClassNumber a) ltac:(lia)) as (mid & d0 & _ & _ & _ & _ & _ & Hl).
    rewrite <-Hl. cbn [length]. lia.
Qed.

(** C20. A tag with a class number below 2^28, for which five octets are enough, is
    written in one piece and read back with its form.  The number is read back, and the size that is announced is the size that is written, if
    and only if no digit in the middle of the number is zero. *)
Theorem class_number_round_trip a bConstructed r
  (Hform : FormType a ≠ EMPTY_FORM) (Hn : 0 <= ulClassNumber a < 268435456) (Hr : Forall is_byte r) :
  let g := tag_written a bConstructed in
  writes (fun m p => AnscAsn1AttrEncodingData a m p bConstructed) g (Zlen g) /\
  exists k, AnscAsn1AttrParsingData (g ++ r) = Done (AnscAsn1AttrCreate (FormType a) k false) /\
    k <= ulClassNumber a /\
    (k = ulClassNumber a <-> ~ skips (ulClassNumber a)) /\
    (Zlen g = AnscAsn1AttrGetSizeOfEncodedTag a <-> ~ skips (ulClassNumber a)).
Proof.
  intros g. split; [by apply AttrEncodingData_writes|]. destruct (class_read_spec (ulClassNumber a) Hn) as [Hle Hk].
  exists (class_read (ulClassNumber a)). split_and!; [by apply tag_read_back|done|done|by apply tag_length_announced].
Qed.

End tag_theorems.

Theorem class_number_round_trip_witness :
  let a := AnscAsn1AttrCreate CONTEXT_FORM 16384 true in
  skips 16384 /\
  let g := tag_written a false in
  writes (fun m p => AnscAsn1AttrEncodingData a m p false) g (Zlen g) /\
  exists k, @AnscAsn1AttrParsingData lp64 (g ++ [4; 1]) = Done (AnscAsn1AttrCreate CONTEXT_FORM k false) /\
    k <= 16384 /\ (k = 16384 <-> ~ skips 16384) /\
    (Zlen g = AnscAsn1AttrGetSizeOfEncodedTag a <-> ~ skips 16384).
Proof.
  split; [by right|].
  apply (@class_number_round_trip lp64 (AnscAsn1AttrCreate CONTEXT_FORM 16384 true) false [4; 1]); [done|done|].
  unfold is_byte. repeat constructor; lia.
Defined.

(** Class 16384 of an implicit attribute is written in three octets, for which
    four are announced, and is read as class 128. *)
Theorem class_16384_is_read_as_128 `{Platform} :
  let a := AnscAsn1AttrCreate CONTEXT_FORM 16384 true in
  AnscAsn1AttrEncodingData a [0; 0; 0; 0] 0 false = Done ([159; 129; 0; 0], 3) /\
  AnscAsn1AttrGetSizeOfEncodedTag a = 4 /\
  AnscAsn1AttrParsingData [159; 129; 0; 0] = Done (AnscAsn1AttrCreate CONTEXT_FORM 128 false).
Proof.
  split_and!; [done|done|].
  by apply (tag_read_back (AnscAsn1AttrCreate CONTEXT_FORM 128 true) false [0]); [done|done|repeat constructor].
Qed.
