(* ===== verification/DerAttrs.v ===== *)
(** * Lists of attributes ([ansc_asn1_export_utils.c], [ansc_asn1_base_interface.c])

    The attributes of a value wrap its encoding, the first outermost; one that
    is implicit takes the place of the tag inside it.  What is written for any
    list, and the size that is announced, is stated by a function on bytes, and
    is shown to be read back. *)

From S2P Require Import Prelude Asn1 DerLength DerHeader DerTag.
Open Scope Z_scope.

(** ** The lists *)

Abbreviation attr_list := (list ANSC_ATTR_OBJECT).

Definition AttrListRemoveAllAttributes (l : attr_list) : attr_list := [].
Definition AttrListCopyAllAttributes (dst src : attr_list) : attr_list :=
  AttrListRemoveAllAttributes dst ++ (AnscAsn1AttrClone <$> src).
Fixpoint AttrListCompareAttributeList (l1 l2 : attr_list) : bool :=
  match l1, l2 with
  | [], [] => true
  | a :: l1, b :: l2 => AnscAsn1AttrEqualsTo (Some a) (Some b) && AttrListCompareAttributeList l1 l2
  | _, _ => false
  end.
Definition AnscAsn1AddAttribute (l : attr_list) (a : ANSC_ATTR_OBJECT) (bAppend : bool) : attr_list :=
  if bAppend then l ++ [a] else a :: l.

(** The first attribute that is not empty, or the last one. *)
Fixpoint tag_attribute (l : attr_list) (last : option ANSC_ATTR_OBJECT) : option ANSC_ATTR_OBJECT :=
  match l with
  | [] => last
  | a :: l => if bool_decide (FormType a ≠ EMPTY_FORM) then Some a else tag_attribute l (Some a)
  end.
Definition AnscAsn1GetTagValue (uType : Z) (l : attr_list) : ASN_OBJECT_FORM_TYPE * Z :=
  match tag_attribute l None with
  | Some a => (FormType a, ulClassNumber a)
  | None => (UNIVERSAL_FORM, uType)
  end.

(** The first octet of a value without attributes, and whether a value that is
    no choice is constructed. *)
Definition AnscAsn1GetFirstOctet (uType : Z) : Z :=
  if IsObjectPrimitiveType uType then Z.lor 0 (UCHAR (Z.land uType 31))
  else if IsObjectContextType uType then Z.lor 32 (UCHAR (Z.land uType 31))
  else 0.
Definition AnscAsn1IsConstructive (uType : Z) : bool :=
  if IsObjectContextType uType then true else if IsObjectPrimitiveType uType then false else true.

Section attrs.
Context `{Platform}.

(** ** Sizes *)

Definition with_header (length tagSize : Z) : outcome Z :=
  s ← GetSizeOfEncodedLength (ULONG length); Done (LONG (LONG (length + s) + tagSize)).

(** The loop from the last attribute to the first. *)
Fixpoint size_loop (l : attr_list) (length tagSize : Z) : outcome (Z * Z) :=
  match l with
  | [] => Done (length, tagSize)
  | a :: l =>
      if bool_decide (FormType a = EMPTY_FORM) then size_loop l length tagSize
      else
        length ← (if negb (bImplicit a) && (0 <? tagSize) then with_header length tagSize else Done length);
        size_loop l length (AnscAsn1AttrGetSizeOfEncodedTag a)
  end.
Definition AttrListGetSizeOfEncoded (l : attr_list) (uValueLength uTags : Z) : outcome Z :=
  '(length, tagSize) ← size_loop (rev l) (LONG uValueLength) uTags;
  if 0 <? tagSize then with_header length tagSize else Done length.

(** ** Encoding *)

Fixpoint encode_loop (l : attr_list) (bIsConstructive : bool) (m : list Z) (p : Z) (bTag : bool) (uleftSize : Z) :
    outcome (asn1_status * (list Z * Z * bool * Z)) :=
  match l with
  | [] => Done (ASN1_SUCCESS, (m, p, bTag, uleftSize))
  | a :: l =>
      if bool_decide (FormType a = EMPTY_FORM) then encode_loop l bIsConstructive m p bTag uleftSize
      else if negb bTag then encode_loop l bIsConstructive m p (negb (bImplicit a)) uleftSize
      else
        '(m, p) ← AnscAsn1AttrEncodingData a m p bIsConstructive;
        let uleftSize := ULONG (uleftSize - AnscAsn1AttrGetSizeOfEncodedTag a) in
        pureLength ← GetPureEncodedLength uleftSize;
        if pureLength <? 0 then Done (ANSC_ASN1_INVALID_ENCODE_LENGTH, (m, p, bTag, uleftSize))
        else
          let uleftSize := ULONG pureLength in
          '(m, p) ← EncodeLength m p uleftSize;
          encode_loop l bIsConstructive m p (negb (bImplicit a)) uleftSize
  end.
Definition AttrListEncodingData (l : attr_list) (m : list Z) (p uSizeOfEncoded : Z) (bIsConstructive : bool) :
    outcome (asn1_status * (list Z * Z * bool * Z)) :=
  encode_loop l bIsConstructive m p true uSizeOfEncoded.

(** ** Decoding

    Yields the rest of the data, whether the value has its own tag, the size
    of the contents of the last tag, and how many tags have no length. *)

Fixpoint decode_loop (l : attr_list) (t : ANSC_TAGINFO_OBJECT) (pEncodingUnit : list Z) (bTag : bool)
    (uleftSize uInfinite : Z) : outcome (asn1_status * (list Z * bool * Z * Z)) :=
  match l with
  | [] => Done (ASN1_SUCCESS, (pEncodingUnit, bTag, uleftSize, uInfinite))
  | a :: l =>
      let fail st := Done (st, (pEncodingUnit, bTag, uleftSize, uInfinite)) in
      if bool_decide (FormType a = EMPTY_FORM) then decode_loop l t pEncodingUnit bTag uleftSize uInfinite
      else if negb bTag then decode_loop l t pEncodingUnit (negb (bImplicit a)) uleftSize uInfinite
      else
        '(st, t) ← AnscTagInfoParsingData t pEncodingUnit;
        if negb (bool_decide (st = ASN1_SUCCESS)) then fail st
        else
          new ← AnscAsn1AttrParsingData pEncodingUnit;
          if negb (bool_decide (FormType new = FormType a)) || negb (ulClassNumber new =? ulClassNumber a)
          then fail ANSC_ASN1_UNEXPECTED_TAG
          else
            let header := ulSizeOfTag t + ulSizeOfLength t in
            let next := drop (Z.to_nat header) pEncodingUnit in
            if bIsInfinite t then decode_loop l t next (negb (bImplicit a)) 0 (uInfinite + 1)
            else if uleftSize =? 0 then decode_loop l t next (negb (bImplicit a)) (ULONG (ulContentLength t)) uInfinite
            else
              let uleftSize := ULONG (uleftSize - header) in
              if negb (uleftSize =? ULONG (ulContentLength t))
              then Done (ANSC_ASN1_INVALID_ENCODE_LENGTH, (next, bTag, uleftSize, uInfinite))
              else decode_loop l t next (negb (bImplicit a)) uleftSize uInfinite
  end.
Definition AttrListDecodingData (l : attr_list) (pEncodingUnit : list Z) : outcome (asn1_status * (list Z * bool * Z * Z)) :=
  decode_loop l AnscTagInfoCreate pEncodingUnit true 0 0.

(** ** Objects

    The methods an object of any type points to, and the function of the base
    class that calls them. *)

Class Asn1Object (A : Type) := {
  GetSizeOfEncoded : A -> outcome Z;
  EncodingData : A -> list Z -> Z -> outcome (asn1_status * (list Z * Z)) }.

Definition AnscAsn1GetEncodedData `{Asn1Object A} (o : A) : outcome (option (list Z * Z)) :=
  length ← GetSizeOfEncoded o;
  if length <=? 0 then Done None
  else
    '(st, (m, _)) ← EncodingData o (replicate (Z.to_nat (length + 16)) 0) 0;
    if negb (bool_decide (st = ASN1_SUCCESS)) then Done None else Done (Some (m, ULONG length)).

End attrs.

(** ** What a list of attributes writes *)

Section nest.
Variables (bConstr : bool) (first : Z) (v : list Z).

(** The encoding of the contents [v] behind a list of attributes; [bTag] says
    whether the tag of what follows is written. *)
Fixpoint nest (l : attr_list) (bTag : bool) : list Z :=
  match l with
  | [] => if bTag then der_tlv first v else v
  | a :: l =>
      if bool_decide (FormType a = EMPTY_FORM) then nest l bTag
      else
        let inner := nest l (negb (bImplicit a)) in
        if bTag then tag_written a bConstr ++ der_length (Zlen inner) ++ inner else inner
  end.

(** The headers in front of the value, and whether its own tag follows. *)
Fixpoint headers (l : attr_list) (bTag : bool) : list Z :=
  match l with
  | [] => []
  | a :: l =>
      if bool_decide (FormType a = EMPTY_FORM) then headers l bTag
      else if bTag then tag_written a bConstr ++ der_length (Zlen (nest l (negb (bImplicit a)))) ++ headers l (negb (bImplicit a))
      else headers l (negb (bImplicit a))
  end.
Fixpoint own_tag (l : attr_list) (bTag : bool) : bool :=
  match l with
  | [] => bTag
  | a :: l => if bool_decide (FormType a = EMPTY_FORM) then own_tag l bTag else own_tag l (negb (bImplicit a))
  end.

Definition core (bTag : bool) : list Z := if bTag then der_tlv first v else v.

Lemma nest_headers l bTag : nest l bTag = headers l bTag ++ core (own_tag l bTag).
Proof.
  revert bTag. induction l as [|a l IH]; intros bTag; [by destruct bTag|]. cbn [nest headers own_tag].
  case_bool_decide; [apply IH|]. destruct bTag; rewrite IH; [|done]. by rewrite <-!app_assoc.
Qed.

(** Attributes whose tags are written and read as they are. *)
Definition attr_ok (a : ANSC_ATTR_OBJECT) : Prop :=
  FormType a = EMPTY_FORM \/
  (0 <= ulClassNumber a < 2097152 /\ ~ skips (ulClassNumber a) /\ tag_written a bConstr ≠ [0]).

Lemma attr_ok_tag a : attr_ok a -> FormType a ≠ EMPTY_FORM ->
  is_tag (tag_written a bConstr) /\ Zlen (tag_written a bConstr) = AnscAsn1AttrGetSizeOfEncodedTag a /\
  1 <= Zlen (tag_written a bConstr) <= 4.
Proof.
  intros [?|(Hn & Hs & H0)] Hf; [done|]. revert H0. rewrite size_of_tag by (done || lia).
  unfold tag_written, constructed_bit. set (b := bConstr || negb (bImplicit a)).
  destruct (Z.leb_spec (ulClassNumber a) 30); intros H0.
  - destruct (octet_bits (FormType a) (ulClassNumber a) b) as (_ & E2 & Hc); [done|lia|].
    split; [|cbn; lia]. constructor; [done|congruence|lia].
  - destruct (octet_bits (FormType a) 31 b) as (_ & E2 & Hc); [done|lia|].
    destruct (written_spec (ulClassNumber a) ltac:(lia)) as (mid & d0 & Ew & Hm & Hd & _ & _ & Hl).
    split.
    + rewrite Ew. constructor; [done|done| |apply land_128_low; lia].
      eapply Forall_impl; [exact Hm|]. intros x Hx. by apply high_bit.
    + cbn [length]. rewrite Nat2Z.inj_succ, (proj2 Hl Hs), ndigits_cases by lia.
      destruct (Z.leb_spec 2097152 (ulClassNumber a)); [lia|]. repeat case_match; lia.
Qed.

End nest.

(** ** The code writes it, announces its size and reads it *)

Section nest_theorems.
Context `{Platform} (bConstr : bool) (first : Z) (v : list Z).
Notation nest := (nest bConstr first v).
Notation core := (core first v).
Notation headers := (headers bConstr first v).
Notation attr_ok := (attr_ok bConstr).

Lemma length_core b : Zlen (core b) = if b then 1 + Zlen (der_length (Zlen v)) + Zlen v else Zlen v.
Proof. destruct b; [|done]. unfold core, der_tlv. cbn [length]. rewrite length_app. lia. Qed.

Lemma length_nest_cons a l b : FormType a ≠ EMPTY_FORM ->
  Zlen (nest (a :: l) b) =
    (if b then Zlen (tag_written a bConstr) + Zlen (der_length (Zlen (nest l (negb (bImplicit a))))) else 0) +
    Zlen (nest l (negb (bImplicit a))).
Proof.
  intros Hf. cbn [DerAttrs.nest]. rewrite bool_decide_false by done. destruct b; [rewrite !length_app; lia|done].
Qed.

(** What is inside is never longer. *)
Lemma nest_grows l b : Zlen v <= Zlen (nest l b).
Proof.
  revert b. induction l as [|a l IH]; intros b.
  - cbn [DerAttrs.nest]. fold (core b). rewrite length_core. destruct b; lia.
  - destruct (decide (FormType a = EMPTY_FORM)) as [Ef|Hf].
    + cbn [DerAttrs.nest]. rewrite bool_decide_true by done. apply IH.
    + rewrite length_nest_cons by done. specialize (IH (negb (bImplicit a))). destruct b; lia.
Qed.

Lemma nest_step l a : FormType a ≠ EMPTY_FORM ->
  Zlen (nest l (negb (bImplicit a))) <= Zlen (nest (a :: l) true) /\
  Zlen (nest (a :: l) false) <= Zlen (nest (a :: l) true).
Proof. intros Hf. rewrite !length_nest_cons by done. lia. Qed.

(** ** The size *)

Lemma with_header_spec n k : 0 <= n -> 0 <= k -> n + k + 5 < 2147483648 ->
  with_header n k = Done (n + Zlen (der_length n) + k).
Proof.
  intros Hn Hk Hb. unfold with_header. rewrite ULONG_small32 by lia.
  pose proof (length_der_length_le n ltac:(lia)).
  assert (2147483648 <= 2 ^ (ulong_bits - 1)) by (destruct sizeof_cases as [[_ E] | [_ E]]; rewrite E; cbn; lia).
  rewrite GetSizeOfEncodedLength_spec by lia. cbn [mbind outcome_bind]. rewrite !LONG_small; [done|lia|].
  rewrite LONG_small; lia.
Qed.

(** The sizes after the loop has seen a suffix of the list. *)
Lemma size_loop_app l1 l2 n t : size_loop (l1 ++ l2) n t = '(n, t) ← size_loop l1 n t; size_loop l2 n t.
Proof.
  revert n t. induction l1 as [|a l1 IH]; intros n t; cbn [size_loop app]; [done|].
  case_bool_decide; [apply IH|]. destruct (_ && _); [|apply IH].
  destruct (with_header n t); [apply IH|done].
Qed.

Lemma nest_mono l : Zlen (nest l false) <= Zlen (nest l true).
Proof.
  induction l as [|a l IH].
  - change (Zlen (core false) <= Zlen (core true)). rewrite !length_core. lia.
  - destruct (decide (FormType a = EMPTY_FORM)).
    + cbn [DerAttrs.nest]. by rewrite !bool_decide_true by done.
    + rewrite !length_nest_cons by done. lia.
Qed.

(** The nestings fit a long. *)
Definition fits (l : attr_list) : Prop := Zlen (nest l false) + 64 < 2147483648.

Lemma fits_tail a l : fits (a :: l) -> fits l.
Proof.
  unfold fits. destruct (decide (FormType a = EMPTY_FORM)) as [|Hf].
  - cbn [DerAttrs.nest]. by rewrite !bool_decide_true by done.
  - rewrite length_nest_cons by done. pose proof (nest_mono l). destruct (bImplicit a); cbn [negb]; lia.
Qed.

Lemma size_loop_spec l : Forall attr_ok l -> fits l -> exists n t,
  size_loop (rev l) (Zlen v) 1 = Done (n, t) /\ 1 <= t <= 4 /\
  Zlen (nest l false) = n /\ Zlen (nest l true) = n + Zlen (der_length n) + t.
Proof.
  intros Hl. induction Hl as [|a l Ha Hl IH]; intros Hb.
  - exists (Zlen v), 1. cbn [rev size_loop]. split_and!; [done|lia|lia|done|].
    change (nest [] true) with (core true). rewrite length_core. lia.
  - cbn [rev]. destruct (IH (fits_tail a l Hb)) as (n & t & E & Ht & En & Ent).
    rewrite size_loop_app, E. cbn [mbind outcome_bind size_loop]. unfold fits in Hb.
    destruct (decide (FormType a = EMPTY_FORM)) as [Ef|Hf].
    + rewrite bool_decide_true by done. cbn [DerAttrs.nest]. rewrite !bool_decide_true by done. by exists n, t.
    + rewrite bool_decide_false by done. rewrite !length_nest_cons by done. rewrite length_nest_cons in Hb by done.
      destruct (attr_ok_tag _ a Ha Hf) as (_ & -> & Ht4). destruct (bImplicit a); cbn [negb andb] in *.
      * exists n, (AnscAsn1AttrGetSizeOfEncodedTag a). rewrite En. split_and!; [done|lia|lia|lia|lia].
      * destruct (Z.ltb_spec 0 t); [|lia]. pose proof (length_der_length_le n ltac:(lia)).
        rewrite with_header_spec by lia. exists (n + Zlen (der_length n) + t), (AnscAsn1AttrGetSizeOfEncodedTag a).
        rewrite Ent. split_and!; [done|lia|lia|lia|lia].
Qed.

Lemma AttrListGetSizeOfEncoded_spec l : Forall attr_ok l -> fits l ->
  AttrListGetSizeOfEncoded l (Zlen v) 1 = Done (Zlen (nest l true)).
Proof.
  intros Hl Hb. unfold AttrListGetSizeOfEncoded. destruct (size_loop_spec l Hl Hb) as (n & t & E & Ht & En & Ent).
  rewrite LONG_small; cycle 1. { pose proof (nest_grows l false). unfold fits in Hb. lia. }
  rewrite E. cbn [mbind outcome_bind]. destruct (Z.ltb_spec 0 t); [|lia].
  unfold fits in Hb. rewrite with_header_spec by lia. by rewrite Ent.
Qed.

(** ** Writing *)

Definition short (l : attr_list) (b : bool) : Prop := Zlen (nest l b) < 65536.

(** The room the headers need: behind the last length there may be a pad. *)
Lemma encode_loop_writes l b : Forall attr_ok l -> short l b -> forall pre rest, Zlen (nest l b) <= Zlen rest ->
  exists rest', encode_loop l bConstr (pre ++ rest) (Zlen pre) b (Zlen (nest l b)) =
    Done (ASN1_SUCCESS, (pre ++ headers l b ++ rest', Zlen (pre ++ headers l b), own_tag l b,
                         Zlen (core (own_tag l b)))) /\
    Zlen rest' = Zlen rest - Zlen (headers l b).
Proof.
  intros Hl. revert b. induction Hl as [|a l Ha Hl IH]; intros b Hb pre rest Hr.
  - exists rest. cbn [encode_loop DerAttrs.headers own_tag app]. rewrite app_nil_r.
    change (nest [] b) with (core b). split; [done|cbn; lia].
  - unfold short in *. cbn [encode_loop DerAttrs.headers own_tag].
    destruct (decide (FormType a = EMPTY_FORM)) as [Ef|Hf].
    { cbn [DerAttrs.nest] in *. rewrite !bool_decide_true in * by done. by apply IH. }
    rewrite !bool_decide_false by done. rewrite length_nest_cons in * by done. set (b' := negb (bImplicit a)) in *.
    destruct b; cbn [negb]; [|apply IH; lia].
    assert (Hk0 : 0 <= Zlen (nest l b')) by lia. set (k := Zlen (nest l b')) in *. destruct (attr_ok_tag _ a Ha Hf) as (_ & Ht & Ht4).
    destruct Ha as [?|(Hn & _)]; [done|]. pose proof (length_der_length_le k ltac:(lia)) as Hk5.
    destruct (AttrEncodingData_writes a bConstr Hf ltac:(lia) pre rest) as (r1 & -> & E1); [lia|]. cbn [mbind outcome_bind].
    rewrite <-Ht, ULONG_small32 by lia.
    replace (Zlen (tag_written a bConstr) + Zlen (der_length k) + k - Zlen (tag_written a bConstr)) with
      (k + Zlen (der_length k)) by lia.
    rewrite GetPureEncodedLength_spec by lia. cbn [mbind outcome_bind]. destruct (Z.ltb_spec k 0); [lia|].
    rewrite (ULONG_small32 k) by lia. rewrite app_assoc.
    assert (Hku : 0 <= k < 2 ^ ulong_bits) by (pose proof ulong_modulus_ge; lia).
    destruct (EncodeLength_writes k Hku ltac:(intros _; lia) (pre ++ tag_written a bConstr) r1)
      as (r2 & -> & E2).
    { unfold length_pad. destruct (Z.leb_spec k 127); [lia|]. destruct ulong_pad_cases as [->|[-> _]]; lia. }
    cbn [mbind outcome_bind]. rewrite app_assoc.
    destruct (IH b' ltac:(lia) ((pre ++ tag_written a bConstr) ++ der_length k) r2) as (r3 & E & E3); [lia|].
    fold k in E. rewrite E.
    exists r3. rewrite <-!app_assoc. split; [done|]. rewrite !length_app. lia.
Qed.

(** ** Reading *)

Definition all_read_back (l : attr_list) (b : bool) : Prop := ulong_bits = 32 \/ Zlen (nest l b) <= 127.

(** The tag and the number of an attribute are recognized. *)
Lemma attribute_recognized a r : attr_ok a -> FormType a ≠ EMPTY_FORM -> Forall is_byte r ->
  AnscAsn1AttrParsingData (tag_written a bConstr ++ r) = Done (AnscAsn1AttrCreate (FormType a) (ulClassNumber a) false).
Proof.
  intros Ha Hf Hr. destruct Ha as [?|(Hn & Hs & _)]; [done|].
  rewrite tag_read_back by (done || lia). by rewrite (proj2 (proj2 (class_read_spec (ulClassNumber a) ltac:(lia))) Hs).
Qed.

Lemma der_length_bytes n : 0 <= n < 2147483648 -> Forall is_byte (der_length n).
Proof.
  intros Hn. unfold der_length. destruct (Z.leb_spec n 127); [constructor; [unfold is_byte; lia|constructor]|].
  constructor; [|apply be_bytes_byte]. pose proof (nbytes_pos n).
  assert (nbytes n <= 4) by (apply nbytes_le; cbn; lia). unfold is_byte. lia.
Qed.

Lemma nest_bytes l b : is_byte first -> Forall is_byte v -> Forall attr_ok l -> fits l ->
  Forall is_byte (nest l b).
Proof.
  intros Hc Hv Hl. revert b. induction Hl as [|a l Ha Hl IH]; intros b Hb.
  - change (Forall is_byte (core b)). destruct b; [|done]. constructor; [done|]. apply Forall_app. split; [|done].
    apply der_length_bytes. pose proof (nest_grows [] false). unfold fits in Hb. lia.
  - pose proof (fits_tail _ _ Hb) as Hb'. cbn [DerAttrs.nest]. case_bool_decide as Hf; [by apply IH|].
    destruct b; [|by apply IH]. rewrite !Forall_app. split_and!; [| |by apply IH].
    + destruct Ha as [?|(Hn & Hs & _)]; [done|]. unfold tag_written, constructed_bit.
      destruct (Z.leb_spec (ulClassNumber a) 30).
      * constructor; [|constructor]. by apply octet_bits; [|lia].
      * constructor; [by apply octet_bits; [|lia]|].
        destruct (written_spec (ulClassNumber a) ltac:(lia)) as (mid & d0 & -> & Hm & Hd & _).
        rewrite Forall_app, Forall_singleton. split; [|unfold is_byte; lia].
        eapply Forall_impl; [exact Hm|]. unfold is_byte. cbn. lia.
    + apply der_length_bytes. unfold fits in Hb. rewrite length_nest_cons in Hb by done. lia.
Qed.

Lemma all_read_back_tail a l b : FormType a ≠ EMPTY_FORM -> all_read_back (a :: l) b -> all_read_back l (negb (bImplicit a)).
Proof. intros Hf [?|Hb]; [by left|right]. rewrite length_nest_cons in Hb by done. destruct b; lia. Qed.

(** The contents size is only left out when the tag of the value follows. *)
Lemma decode_loop_spec l b t left inf r :
  is_byte first -> Forall is_byte v -> v ≠ [] -> Forall is_byte r -> Forall attr_ok l -> fits l -> all_read_back l b ->
  (b = true /\ left = 0) \/ left = Zlen (nest l b) ->
  exists left', decode_loop l t (nest l b ++ r) b left inf =
      Done (ASN1_SUCCESS, (core (own_tag l b) ++ r, own_tag l b, left', inf)) /\
    (left' = Zlen (core (own_tag l b)) \/ own_tag l b = true).
Proof.
  intros Hc Hv Hne Hr Hl. revert b t left. induction Hl as [|a l Ha Hl IH]; intros b t left Hb Hback Hleft.
  { exists left. cbn [decode_loop own_tag]. change (nest [] b) with (core b) in *. split; [done|]. naive_solver. }
  pose proof (fits_tail _ _ Hb) as Hb'. cbn [decode_loop own_tag]. destruct (decide (FormType a = EMPTY_FORM)) as [Ef|Hf].
  { unfold all_read_back in *. cbn [DerAttrs.nest] in *. rewrite !bool_decide_true in * by done. by apply IH. }
  pose proof (all_read_back_tail _ _ _ Hf Hback) as Hback'.
  rewrite length_nest_cons in Hleft by done. unfold fits in Hb. rewrite length_nest_cons in Hb by done.
  cbn [DerAttrs.nest]. rewrite !bool_decide_false by done. set (b' := negb (bImplicit a)) in *.
  destruct b; cbn [negb]; [|apply IH; [done|done|right; naive_solver lia]].
  assert (Hk : 0 < Zlen (nest l b')).
  { pose proof (nest_grows l b'). destruct v; [done|]. cbn [length] in *. lia. }
  pose proof (nest_bytes l b' Hc Hv Hl Hb') as Hbytes.
  assert (Hrb : length_read (Zlen (nest l b')) = Zlen (nest l b')).
  { apply length_reads_back. split; [lia|]. unfold all_read_back in Hback'. tauto. }
  destruct (attr_ok_tag _ a Ha Hf) as (Htag & _ & Ht4).
  pose proof (length_der_length_le (Zlen (nest l b')) ltac:(lia)) as Hk5.
  rewrite <-!app_assoc. rewrite parse_header by (done || lia). cbn [mbind outcome_bind].
  rewrite bool_decide_true by done. cbn [negb].
  rewrite attribute_recognized; [|done|done|].
  2:{ rewrite !Forall_app. split_and!; [apply der_length_bytes; lia|done|done]. }
  cbn [mbind outcome_bind AnscAsn1AttrCreate FormType ulClassNumber]. rewrite bool_decide_true, Z.eqb_refl by done.
  cbn [negb orb bIsInfinite ulSizeOfTag ulSizeOfLength ulContentLength]. rewrite Hrb.
  assert (Hdrop : drop (Z.to_nat (Zlen (tag_written a bConstr) + Zlen (der_length (Zlen (nest l b')))))
      (tag_written a bConstr ++ der_length (Zlen (nest l b')) ++ nest l b' ++ r) = nest l b' ++ r).
  { rewrite app_assoc. apply drop_app_length'. rewrite length_app. lia. }
  rewrite Hdrop, (ULONG_small32 (Zlen (nest l b'))) by lia.
  destruct Hleft as [[_ ->] | ->].
  - cbn [Z.eqb]. apply IH; [done|done|by right].
  - match goal with |- context [?x =? 0] => destruct (Z.eqb_spec x 0) as [E0|_] end; [lia|].
    replace (Zlen (tag_written a bConstr) + Zlen (der_length (Zlen (nest l b'))) + Zlen (nest l b') -
      (Zlen (tag_written a bConstr) + Zlen (der_length (Zlen (nest l b'))))) with (Zlen (nest l b')) by lia.
    rewrite ULONG_small32, Z.eqb_refl by lia. cbn [negb]. apply IH; [done|done|by right].
Qed.

(** Whatever the attributes, what is written is what is announced, and it is
    read back up to the value. *)
Lemma attributes_round_trip l r :
  is_byte first -> Forall is_byte v -> v ≠ [] -> Forall is_byte r -> Forall attr_ok l -> fits l -> all_read_back l true ->
  exists left', AttrListDecodingData l (nest l true ++ r) =
      Done (ASN1_SUCCESS, (core (own_tag l true) ++ r, own_tag l true, left', 0)) /\
    (left' = Zlen (core (own_tag l true)) \/ own_tag l true = true).
Proof. intros. apply decode_loop_spec; auto. Qed.

End nest_theorems.

(** ** What an object promises *)

Section objects.
Context `{Platform} `{Asn1Object A}.

(** An object announces the size of its encoding and writes just that, where
    there is room for a pad behind the lengths. *)
Definition encodes_as (o : A) (out : list Z) : Prop :=
  GetSizeOfEncoded o = Done (Zlen out) /\ forall pre rest, Zlen out + 4 <= Zlen rest -> exists rest',
    EncodingData o (pre ++ rest) (Zlen pre) = Done (ASN1_SUCCESS, (pre ++ out ++ rest', Zlen (pre ++ out))) /\ Zlen rest' = Zlen rest - Zlen out.

Lemma GetEncodedData_spec o out : encodes_as o out -> 1 <= Zlen out < 65536 ->
  exists tail, AnscAsn1GetEncodedData o = Done (Some (out ++ tail, Zlen out)).
Proof.
  intros [Es Ew] Hl. unfold AnscAsn1GetEncodedData. rewrite Es. cbn [mbind outcome_bind].
  destruct (Z.leb_spec (Zlen out) 0); [lia|].
  destruct (Ew [] (replicate (Z.to_nat (Zlen out + 16)) 0)) as (tail & E & _); [rewrite length_replicate; lia|].
  cbn [app length] in E. change (Z.of_nat 0) with 0 in E. rewrite E. cbn [mbind outcome_bind].
  rewrite bool_decide_true, ULONG_small32 by (done || lia). by exists tail.
Qed.

(** A tag of its own in front of the contents that [f] writes. *)
Lemma core_writes first c f (b : bool) : writes f c (Zlen c) -> Zlen c < 65536 ->
  writes (fun m q => '(m, q) ← (if b then m ← buf_put m q first; EncodeLength m (q + 1) (Zlen c) else Done (m, q));
                     f m q) (core first c b) (Zlen (core first c b) + 4).
Proof.
  intros Hw Hc. destruct b; cbn [core].
  - unfold der_tlv. eapply (writes_ext (fun m q => '(m, q) ← (m ← buf_put m q first; Done (m, q + 1));
      '(m, q) ← EncodeLength m q (Zlen c); f m q)).
    { intros m q. destruct (buf_put m q first); done. }
    change (first :: ?l) with ([first] ++ l). assert (Hku : 0 <= Zlen c < 2 ^ ulong_bits) by (pose proof ulong_modulus_ge; lia).
    assert (Hp : length_pad (Zlen c) <= 4).
    { unfold length_pad. case_match; [lia|]. destruct ulong_pad_cases as [->|[-> _]]; lia. }
    eapply writer_bind; [apply writes_put| |cbn; lia|].
    + eapply (writer_bind _ _ _ _ _ _ (Zlen (der_length (Zlen c)) + Zlen c + 4));
        [apply (EncodeLength_writes _ Hku); intros _; lia|exact Hw|lia|lia].
    + rewrite !length_app. cbn. lia.
  - eapply writes_ext; [|eapply writes_more; [exact Hw|lia]]. done.
Qed.

End objects.
