(* ===== verification/DerInt.v ===== *)
(** * Integers of ASN.1 ([ansc_asn1_integer.c])

    An integer object has a number, or a buffer with the bytes of one that is
    too long.  It is encoded with the tags of its attributes and decoded again.
    The functions that derived classes may hook into the two are not set, as
    the object is initialized; an allocation succeeds. *)

From S2P Require Import Prelude Checksum Asn1 DerLength DerHeader DerTag DerAttrs.
Open Scope Z_scope.

(** [pValueBuffer]: NULL, a block, or the address of a block that was freed. *)
Inductive value_buffer := NoBuffer | Buffer (d : list Z) | Freed.

Record ANSC_ASN1_INTEGER := AsnInteger {
  int_attrs : list ANSC_ATTR_OBJECT; bOptional : bool; bCanBeOptional : bool;
  uLength : Z; lValue : Z; pValueBuffer : value_buffer; bIsDynamic : bool; bFirstZero : bool }.

Definition AnscAsn1IntegerCreate : ANSC_ASN1_INTEGER := AsnInteger [] false false 1 0 NoBuffer false false.

(** [if (p) AnscFreeMemory(p)] and [memcpy] of the first [n] bytes of a buffer. *)
Definition free_buffer (b : value_buffer) : outcome unit :=
  match b with Freed => Stuck BadAccess | _ => Done tt end.
Definition read_buffer (b : value_buffer) (n : Z) : outcome (list Z) :=
  match b with
  | NoBuffer => if n =? 0 then Done [] else Stuck NullDeref
  | Buffer d => read_bytes d n
  | Freed => Stuck BadAccess
  end.
(** [n] bytes of an array from [i] on. *)
Definition slice (d : list Z) (i n : Z) : outcome (list Z) :=
  if i <? 0 then Stuck OutOfBounds else read_bytes (drop (Z.to_nat i) d) n.

Section integer.
Context `{Platform}.

(** ** Objects *)

(** The attributes stay as they are, and so does the old buffer of the
    destination where the source has none. *)
Definition AnscAsn1IntegerCopyTo (my new : ANSC_ASN1_INTEGER) : outcome ANSC_ASN1_INTEGER :=
  b ← (match pValueBuffer my with
       | NoBuffer => Done (pValueBuffer new)
       | b => d ← read_buffer b (uLength my); Done (Buffer d)
       end);
  Done (AsnInteger (int_attrs new) (bOptional my) (bCanBeOptional my) (uLength my) (lValue my) b
    (bIsDynamic my) (bFirstZero my)).
Definition AnscAsn1IntegerClone (my : ANSC_ASN1_INTEGER) : outcome ANSC_ASN1_INTEGER :=
  AnscAsn1IntegerCopyTo my AnscAsn1IntegerCreate.

(** For two objects; that an object equals itself and not NULL is left out. *)
Definition AnscAsn1IntegerEqualsTo (my new : ANSC_ASN1_INTEGER) (bValueOnly : bool) : outcome bool :=
  if negb bValueOnly && negb (AttrListCompareAttributeList (int_attrs my) (int_attrs new)) then Done false
  else if negb (Bool.eqb (bOptional my) (bOptional new)) then Done false
  else if negb (bOptional my) then
    if negb (Bool.eqb (bIsDynamic my) (bIsDynamic new)) then Done false
    else if bIsDynamic my then
      if negb (uLength my =? uLength new) then Done false
      else
        a ← read_buffer (pValueBuffer my) (uLength my);
        b ← read_buffer (pValueBuffer new) (uLength my);
        Done (bool_decide (a = b))
    else Done (lValue my =? lValue new)
  else Done true.

(** ** Values *)

(** The loop [while (uTemp > 0) { uLast = uTemp; uTemp = uTemp / 256; ulSize++; }]. *)
Fixpoint ulong_size (fuel : nat) (uTemp uLast ulSize : Z) : outcome (Z * Z) :=
  match fuel with
  | O => Stuck Diverge
  | S fuel => if 0 <? uTemp then ulong_size fuel (uTemp / 256) uTemp (ulSize + 1) else Done (uLast, ulSize)
  end.

Definition AnscAsn1IntegerSetUlongValue (o : ANSC_ASN1_INTEGER) (uValue : Z) : outcome ANSC_ASN1_INTEGER :=
  _ ← free_buffer (pValueBuffer o);
  '(uLast, ulSize) ← (if uValue <=? 255 then Done (uValue, 1) else ulong_size 9 uValue uValue 0);
  let z := 128 <=? uLast in
  Done (AsnInteger (int_attrs o) false (bCanBeOptional o) (if z then ulSize + 1 else ulSize) (LONG uValue) NoBuffer false z).

(** The loop that drops the leading bytes of a negative number. *)
Fixpoint negative_size (fuel : nat) (pTmp : list Z) (ulSize i : Z) : outcome Z :=
  match fuel with
  | O => Stuck Diverge
  | S fuel =>
      if 1 <? ulSize then
        a ← buf_get pTmp i;
        if a =? 255 then
          b ← buf_get pTmp (i + 1);
          if 128 <=? b then negative_size fuel pTmp (ulSize - 1) (i + 1) else Done ulSize
        else Done ulSize
      else Done ulSize
  end.

Definition AnscAsn1IntegerSetIntegerValue (o : ANSC_ASN1_INTEGER) (l : Z) : outcome ANSC_ASN1_INTEGER :=
  _ ← free_buffer (pValueBuffer o);
  let o := AsnInteger (int_attrs o) (bOptional o) (bCanBeOptional o) (uLength o) l NoBuffer false (bFirstZero o) in
  if 0 <=? l then AnscAsn1IntegerSetUlongValue o (ULONG l)
  else
    ulSize ← negative_size 4 (ulong_mem (AnscUlongFromHToN (ULONG l)) ++ [0]) 4 0;
    Done (AsnInteger (int_attrs o) false (bCanBeOptional o) ulSize (lValue o) NoBuffer false false).

Definition AnscAsn1IntegerSetStringValue (o : ANSC_ASN1_INTEGER) (pData : list Z) (length : Z) : outcome ANSC_ASN1_INTEGER :=
  _ ← free_buffer (pValueBuffer o);
  len ← (if 64 <=? length then c ← buf_get pData 0; Done (if negb (c =? 0) then ULONG (length + 1) else length) else Done length);
  d ← read_bytes pData length;
  b ← buf_copy (replicate (Z.to_nat len) 0) (if length <? len then 1 else 0) d;
  v ← (if length <=? sizeof_ULONG then v ← GetLengthFromBuffer b len; Done (LONG v) else Done (lValue o));
  Done (AsnInteger (int_attrs o) false (bCanBeOptional o) len v (Buffer b) true (bFirstZero o)).

Definition AnscAsn1IntegerSetUnsignedStringValue (o : ANSC_ASN1_INTEGER) (pData : list Z) (length : Z) :
    outcome ANSC_ASN1_INTEGER :=
  _ ← free_buffer (pValueBuffer o);
  c ← buf_get pData 0;
  let len := if 128 <=? c then ULONG (length + 1) else length in
  d ← read_bytes pData length;
  b ← buf_copy (replicate (Z.to_nat len) 0) (len - length) d;
  Done (AsnInteger (int_attrs o) false (bCanBeOptional o) len (lValue o) (Buffer b) true (bFirstZero o)).

(** The loop [while (ulResult) { ulResult = ulResult / 256; counter++; }]. *)
Fixpoint count_256 (fuel : nat) (ulResult counter : Z) : outcome Z :=
  match fuel with
  | O => Stuck Diverge
  | S fuel => if ulResult =? 0 then Done counter else count_256 fuel (ulResult / 256) (counter + 1)
  end.

(** The caller's buffer, or NULL, for which one is allocated. *)
Definition AnscAsn1IntegerGetStringValue (o : ANSC_ASN1_INTEGER) (pData : option (list Z)) (length : Z) :
    outcome (asn1_status * list Z * Z) :=
  let '(d, length) := match pData with
    | Some d => (d, length)
    | None => (replicate (Z.to_nat (ULONG (uLength o + 8))) 0, uLength o) end in
  if bIsDynamic o then
    if length <? uLength o then Done (ANSC_ASN1_BAD_PARAMETER, d, length)
    else
      v ← read_buffer (pValueBuffer o) (uLength o);
      d ← buf_copy d 0 v;
      Done (ASN1_SUCCESS, d, uLength o)
  else
    let ulResult := ULONG (lValue o) in
    counter ← count_256 9 ulResult (if ulResult =? 0 then 1 else 0);
    '(d, _) ← ASN1WriteUlong d 0 ulResult;
    Done (ASN1_SUCCESS, d, counter).

(** ** Encoding *)

Definition AnscAsn1IntegerGetSizeOfEncoded (o : ANSC_ASN1_INTEGER) : outcome Z :=
  if bOptional o then Done 0 else AttrListGetSizeOfEncoded (int_attrs o) (uLength o) 1.

Definition write_integer (o : ANSC_ASN1_INTEGER) (m : list Z) (p : Z) : outcome (list Z * Z) :=
  let ulResult := ULONG (lValue o) in
  if bIsDynamic o then
    d ← read_buffer (pValueBuffer o) (uLength o);
    m ← buf_copy m p d; Done (m, p + uLength o)
  else if 0 <=? lValue o then
    '(m, p) ← (if bFirstZero o then m ← buf_put m p 0; Done (m, p + 1) else Done (m, p));
    if ulResult <=? 255 then m ← buf_put m p (UCHAR (Z.land ulResult 255)); Done (m, p + 1)
    else '(m, n) ← ASN1WriteUlong m p ulResult; Done (m, p + n)
  else
    let pTmp := ulong_mem (AnscUlongFromHToN ulResult) ++ [0] in
    if bFirstZero o then
      m ← buf_put m p 0;
      d ← slice pTmp (sizeof_ULONG - uLength o + 1) (uLength o);
      m ← buf_copy m (p + 1) d;
      Done (m, p + 1 + (uLength o - 1))
    else
      d ← slice pTmp (sizeof_ULONG - uLength o) (uLength o);
      m ← buf_copy m p d;
      Done (m, p + uLength o).

(** The data and the position behind it; the position is not moved when the
    call fails. *)
Definition AnscAsn1IntegerEncodingData (o : ANSC_ASN1_INTEGER) (m : list Z) (p : Z) : outcome (asn1_status * (list Z * Z)) :=
  if bOptional o then Done (ASN1_SUCCESS, (m, p))
  else
    size ← AnscAsn1IntegerGetSizeOfEncoded o;
    if size <? 0 then Done (ANSC_ASN1_NOT_READY_TO_ENCODE, (m, p))
    else
      '(st, (m, q, bTagIncluded, _)) ←
        AttrListEncodingData (int_attrs o) m p (ULONG size) (AnscAsn1IsConstructive ASN1_INTEGER_TYPE);
      if negb (bool_decide (st = ASN1_SUCCESS)) then Done (st, (m, p))
      else
        '(m, q) ← (if bTagIncluded : bool then
                     m ← buf_put m q (AnscAsn1GetFirstOctet ASN1_INTEGER_TYPE);
                     EncodeLength m (q + 1) (uLength o)
                   else Done (m, q));
        '(m, q) ← write_integer o m q;
        Done (ASN1_SUCCESS, (m, q)).

(** ** What is read of an object, and its end *)

Definition AnscAsn1IntegerGetIntegerValue (o : ANSC_ASN1_INTEGER) : Z := lValue o.
Definition AnscAsn1IntegerIsBigInteger (o : ANSC_ASN1_INTEGER) : bool := bIsDynamic o.
Definition AnscAsn1IntegerGetValueBuffer (o : ANSC_ASN1_INTEGER) : value_buffer := pValueBuffer o.
Definition AnscAsn1IntegerFree (o : ANSC_ASN1_INTEGER) : outcome unit := free_buffer (pValueBuffer o).

#[export] Instance integer_object : Asn1Object ANSC_ASN1_INTEGER :=
  {| GetSizeOfEncoded := AnscAsn1IntegerGetSizeOfEncoded; EncodingData := AnscAsn1IntegerEncodingData |}.

(** ** Decoding *)

(** The ends of the tags without a length. *)
Fixpoint skip_ends (n : nat) (p : list Z) : outcome (option (list Z)) :=
  match n with
  | O => Done (Some p)
  | S n =>
      a ← buf_get p 0;
      if negb (a =? 0) then Done None
      else b ← buf_get p 1; if negb (b =? 0) then Done None else skip_ends n (drop 2 p)
  end.

(** The number of the contents [d], which are read at [p], if they are short. *)
Definition integer_value (o : ANSC_ASN1_INTEGER) (d p : list Z) (n : Z) : outcome (Z * bool) :=
  if n <=? sizeof_ULONG + 1 then
    c ← buf_get p 0;
    if (n <=? sizeof_ULONG) || (c =? 0) then
      l ← GetIntegerValueFromBuffer d n;
      Done (l, (c =? 0) && (1 <? n))
    else Done (lValue o, bFirstZero o)
  else Done (lValue o, bFirstZero o).

(** The object after the call, and the rest of the data if it succeeds. *)
Definition AnscAsn1IntegerDecodingData (o : ANSC_ASN1_INTEGER) (enc : list Z) :
    outcome (asn1_status * ANSC_ASN1_INTEGER * list Z) :=
  '(st, (p, bTagIncluded, uLeftSize, uInfiniteTags)) ← AttrListDecodingData (int_attrs o) enc;
  if negb (bool_decide (st = ASN1_SUCCESS)) then Done (st, o, enc)
  else
    '(st, (p, uLeftSize, uInfiniteTags)) ←
      (if bTagIncluded : bool then
         '(st, t) ← AnscTagInfoParsingData AnscTagInfoCreate p;
         if negb (bool_decide (st = ASN1_SUCCESS)) then Done (st, (p, uLeftSize, uInfiniteTags))
         else if negb (FirstOctetOfTag t =? AnscAsn1GetFirstOctet ASN1_INTEGER_TYPE) || negb (ulSizeOfTag t =? 1)
         then Done (ANSC_ASN1_UNEXPECTED_TAG, (p, uLeftSize, uInfiniteTags))
         else if ulContentLength t =? 0 then Done (ANSC_ASN1_UNACCEPTABLE_VALUE_SIZE, (p, uLeftSize, uInfiniteTags))
         else
           let p := drop (Z.to_nat (1 + ulSizeOfLength t)) p in
           if bIsInfinite t then Done (ASN1_SUCCESS, (p, 0, uInfiniteTags + 1))
           else Done (ASN1_SUCCESS, (p, ULONG (ulContentLength t), uInfiniteTags))
       else Done (ASN1_SUCCESS, (p, uLeftSize, uInfiniteTags)));
    if negb (bool_decide (st = ASN1_SUCCESS)) then Done (st, o, enc)
    else
      _ ← free_buffer (pValueBuffer o);
      let gone := match pValueBuffer o with NoBuffer => NoBuffer | _ => Freed end in
      uValueLength ← (if uLeftSize =? 0 then LookingForInfiniteEnd p 4096 else Done (Some uLeftSize));
      match uValueLength with
      | None =>
          Done (ANSC_ASN1_INFINITE_END_MISSED,
            AsnInteger (int_attrs o) (bOptional o) (bCanBeOptional o) (uLength o) (lValue o) gone (bIsDynamic o) (bFirstZero o), enc)
      | Some uValueLength =>
          if 2000 <? uValueLength then
            Done (ANSC_ASN1_UNACCEPTABLE_VALUE_SIZE,
              AsnInteger (int_attrs o) (bOptional o) (bCanBeOptional o) 0 (lValue o) gone (bIsDynamic o) (bFirstZero o), enc)
          else
            d ← read_bytes p uValueLength;
            '(l, z) ← integer_value o d p uValueLength;
            let o := AsnInteger (int_attrs o) (bOptional o) (bCanBeOptional o) uValueLength l (Buffer d) true z in
            rest ← skip_ends (Z.to_nat uInfiniteTags) (drop (Z.to_nat uValueLength) p);
            match rest with
            | None => Done (ANSC_ASN1_INFINITE_END_MISSED, o, enc)
            | Some rest =>
                Done (ASN1_SUCCESS,
                  AsnInteger (int_attrs o) false (bCanBeOptional o) (uLength o) (lValue o) (pValueBuffer o) (bIsDynamic o) (bFirstZero o), rest)
            end
      end.

End integer.
