(* ===== verification/DerIntThms.v ===== *)
(** * Integers of ASN.1, encoded and decoded

    An integer that is set, encoded behind its attributes and decoded is the
    same integer where an unsigned long has 32 bits.  Where it has 64, the
    number of a decoded object is 0 or -1; the bytes of a short value are
    right. *)

From S2P Require Import Prelude Checksum Asn1 DerLength DerHeader DerTag DerAttrs DerInt.
Open Scope Z_scope.

(** ** Two's complement *)

(** The bytes of a signed number and what they stand for. *)
Definition int_size (v : Z) : Z := (Z.log2 (if v <? 0 then - v - 1 else v) + 1) / 8 + 1.
Definition der_int (v : Z) : list Z := be_bytes (Z.to_nat (int_size v)) (v mod 256 ^ int_size v).

(** The four sizes of a 32-bit number. *)
Lemma int_size_cases v : -2147483648 <= v < 2147483648 ->
  int_size v = if (-128 <=? v) && (v <? 128) then 1 else if (-32768 <=? v) && (v <? 32768) then 2
    else if (-8388608 <=? v) && (v <? 8388608) then 3 else 4.
Proof.
  intros Hv. unfold int_size. set (a := if v <? 0 then - v - 1 else v).
  assert (Ha : 0 <= a < 2147483648) by (subst a; destruct (Z.ltb_spec v 0); lia).
  assert (Hlog : forall k, 0 <= k -> (a < 2 ^ (8 * k + 7) <-> (Z.log2 a + 1) / 8 < k + 1)).
  { intros k Hk. destruct (Z.eq_dec a 0) as [->|Hnz].
    - change (Z.log2 0) with 0. assert (0 < 2 ^ (8 * k + 7)) by (apply Z.pow_pos_nonneg; lia).
      change ((0 + 1) / 8) with 0. lia.
    - rewrite (Z.log2_lt_pow2 a) by lia. split; intros.
      + apply Z.div_lt_upper_bound; lia.
      + assert ((Z.log2 a + 1) / 8 * 8 <= k * 8) by lia. pose proof (Z.div_mod (Z.log2 a + 1) 8 ltac:(lia)).
        pose proof (Z.mod_pos_bound (Z.log2 a + 1) 8 ltac:(lia)). lia. }
  pose proof (Hlog 0 ltac:(lia)) as H0. pose proof (Hlog 1 ltac:(lia)) as H1.
  pose proof (Hlog 2 ltac:(lia)) as H2. pose proof (Hlog 3 ltac:(lia)) as H3.
  change (2 ^ (8 * 0 + 7)) with 128 in H0. change (2 ^ (8 * 1 + 7)) with 32768 in H1.
  change (2 ^ (8 * 2 + 7)) with 8388608 in H2. change (2 ^ (8 * 3 + 7)) with 2147483648 in H3.
  assert (0 <= (Z.log2 a + 1) / 8) by (apply Z.div_pos; [pose proof (Z.log2_nonneg a); lia|lia]).
  clear Hlog. generalize dependent ((Z.log2 a + 1) / 8). intros q H0 H1 H2 H3 Hq.
  assert (Hr : forall k, 0 < k -> (a < k <-> -k <= v < k)).
  { intros k Hk. subst a. destruct (Z.ltb_spec v 0); lia. }
  rewrite Hr in H0, H1, H2, H3 by lia. clear Hr Ha. clearbody a. clear a.
  repeat match goal with |- context [?x <=? v] => destruct (Z.leb_spec x v) | |- context [v <? ?x] => destruct (Z.ltb_spec v x) end;
    cbn [andb]; lia.
Qed.

(** A number by its size: its bytes, whether the first of them is 128 or more,
    and that no shorter string of bytes stands for it. *)
Lemma int_size_range v : -2147483648 <= v < 2147483648 -> exists k,
  int_size v = k /\ 1 <= k <= 4 /\ - (128 * 256 ^ (k - 1)) <= v < 128 * 256 ^ (k - 1) /\
  (1 < k -> v < - (128 * 256 ^ (k - 2)) \/ 128 * 256 ^ (k - 2) <= v).
Proof.
  intros Hv. rewrite int_size_cases by done.
  destruct (Z.leb_spec (-128) v), (Z.ltb_spec v 128), (Z.leb_spec (-32768) v), (Z.ltb_spec v 32768),
    (Z.leb_spec (-8388608) v), (Z.ltb_spec v 8388608); cbn [andb]; try lia;
  (eexists; split; [reflexivity|]; cbn; lia).
Qed.

Section contents.
Context `{Platform}.

(** An object whose contents are the bytes [c]. *)
Definition carries (o : ANSC_ASN1_INTEGER) (c : list Z) : Prop :=
  uLength o = Zlen c /\ writes (fun m p => write_integer o m p) c (Zlen c).

Lemma read_buffer_all d n : n = Zlen d -> read_buffer (Buffer d) n = Done d.
Proof. intros ->. apply read_bytes_all. Qed.

Lemma dynamic_carries attrs opt can l z d :
  carries (AsnInteger attrs opt can (Zlen d) l (Buffer d) true z) d.
Proof.
  split; [done|]. eapply writes_ext; [|apply writer_copy]. intros m p. unfold write_integer.
  cbn [bIsDynamic pValueBuffer uLength]. by rewrite read_buffer_all.
Qed.

(** ** A number that is set *)

Hypothesis H32 : ulong_bits = 32.

Lemma sizeof_4 : sizeof_ULONG = 4.
Proof. unfold sizeof_ULONG. by rewrite H32. Qed.

Lemma ulong_pad_0 : ulong_pad = 0.
Proof. destruct ulong_pad_cases as [->|(_ & E & _)]; [done|]. rewrite sizeof_4 in E. lia. Qed.

(** The four bytes in network order. *)
Lemma network_4 u : 0 <= u < 4294967296 -> ulong_mem (AnscUlongFromHToN u) = be_bytes 4 u.
Proof.
  intros Hu. unfold ulong_mem, AnscUlongFromHToN. rewrite sizeof_4. change (Z.to_nat 4) with 4%nat.
  destruct little_endian; [|done]. rewrite swapped by done.
  assert (Hr : Forall is_byte (rev (be_bytes 4 u))) by (rewrite rev_alt; apply Forall_reverse, be_bytes_byte).
  pose proof (be_bytes_value _ Hr) as E. rewrite length_rev, length_be_bytes in E. by rewrite E, rev_involutive.
Qed.

Lemma ulong_size_spec fuel u last s : 0 < u < 256 ^ Z.of_nat fuel ->
  ulong_size (S fuel) u last s = Done (u / 256 ^ (nbytes u - 1), s + nbytes u).
Proof.
  revert u last s. induction fuel as [|fuel IH]; intros u last s Hu; [cbn in Hu; lia|].
  cbn [ulong_size]. destruct (Z.ltb_spec 0 u); [|lia]. destruct (Z.le_gt_cases 256 u).
  - change (if 0 <? u / 256 then ulong_size fuel (u / 256 / 256) (u / 256) (s + 1 + 1) else Done (u, s + 1))
      with (ulong_size (S fuel) (u / 256) u (s + 1)).
    rewrite pow256_succ in Hu. assert (1 <= u / 256) by (apply Z.div_le_lower_bound; lia).
    rewrite IH by (split; [lia|apply Z.div_lt_upper_bound; lia]).
    rewrite (nbytes_shift u) by lia. pose proof (nbytes_pos (u / 256)).
    replace (nbytes (u / 256) + 1 - 1) with (1 + (nbytes (u / 256) - 1)) by lia.
    rewrite Z.pow_add_r, Z.div_div by (try apply Z.pow_pos_nonneg; lia). do 2 f_equal. lia.
  - rewrite (Z.div_small u 256), nbytes_small by lia. cbn. by rewrite Z.div_1_r.
Qed.

(** A number that is not negative: its bytes, behind a zero if the first is
    128 or more. *)
Lemma der_int_pos v : 0 <= v < 2147483648 ->
  der_int v = (if 128 <=? v / 256 ^ (nbytes v - 1) then [0] else []) ++ der_bytes v /\
  Zlen (der_int v) = nbytes v + (if 128 <=? v / 256 ^ (nbytes v - 1) then 1 else 0).
Proof.
  intros Hv. unfold der_int, der_bytes. rewrite length_be_bytes, int_size_cases by lia.
  assert (Hn : nbytes v = if v <? 256 then 1 else if v <? 65536 then 2 else if v <? 16777216 then 3 else 4).
  { destruct (Z.eq_dec v 0) as [->|]; [done|]. pose proof (nbytes_spec v ltac:(lia)) as Hs. pose proof (nbytes_pos v).
    assert (nbytes v <= 4) by (apply nbytes_le; cbn; lia).
    assert (E : nbytes v = 1 \/ nbytes v = 2 \/ nbytes v = 3 \/ nbytes v = 4) by lia.
    destruct_or! E; rewrite E in *; cbn in Hs; repeat case_match; zbool; lia. }
  rewrite Hn. clear Hn.
  destruct (Z.leb_spec (-128) v), (Z.ltb_spec v 128), (Z.leb_spec (-32768) v), (Z.ltb_spec v 32768),
    (Z.leb_spec (-8388608) v), (Z.ltb_spec v 8388608), (Z.ltb_spec v 256), (Z.ltb_spec v 65536), (Z.ltb_spec v 16777216);
    cbn [andb]; try (exfalso; lia); change (256 ^ (1 - 1)) with 1; change (256 ^ (2 - 1)) with 256;
    change (256 ^ (3 - 1)) with 65536; change (256 ^ (4 - 1)) with 16777216;
    rewrite ?Z.div_1_r; match goal with |- context [128 <=? ?x] => destruct (Z.leb_spec 128 x) end;
    try (exfalso; Z.to_euclidean_division_equations; lia);
    rewrite ?Z.mod_small by (cbn; lia); (split; [|cbn; lia]); try done;
    match goal with |- be_bytes ?a _ = _ ++ be_bytes ?b _ => 
      change (be_bytes a v = replicate 1 0 ++ be_bytes b v) end;
    rewrite <-be_bytes_zeros by (rewrite Z2Nat.id by lia; lia); done.
Qed.

Lemma set_positive_carries o v : free_buffer (pValueBuffer o) = Done tt -> 0 <= v < 2147483648 ->
  exists o', AnscAsn1IntegerSetUlongValue o v = Done o' /\ carries o' (der_int v) /\
    lValue o' = v /\ int_attrs o' = int_attrs o /\ bOptional o' = false /\ bIsDynamic o' = false.
Proof.
  intros Hfree Hv. unfold AnscAsn1IntegerSetUlongValue. rewrite Hfree. cbn [mbind outcome_bind].
  destruct (der_int_pos v Hv) as [Ed El]. set (last := v / 256 ^ (nbytes v - 1)) in *.
  assert (Es : (if v <=? 255 then Done (v, 1) else ulong_size 9 v v 0) = Done (last, nbytes v)).
  { subst last. destruct (Z.leb_spec v 255).
    - rewrite nbytes_small by lia. change (256 ^ (1 - 1)) with 1. by rewrite Z.div_1_r.
    - rewrite ulong_size_spec by (cbn; lia). done. }
  rewrite Es. cbn [mbind outcome_bind]. eexists. split; [done|]. cbn [lValue int_attrs bOptional bIsDynamic].
  rewrite LONG_small by lia. split_and!; [|done..].
  split; [cbn [uLength]; rewrite El; destruct (128 <=? last); lia|].
  assert (Hw : writes (fun m p => if ULONG v <=? 255 then m ← buf_put m p (UCHAR (Z.land (ULONG v) 255)); Done (m, p + 1)
    else '(m, n) ← ASN1WriteUlong m p (ULONG v); Done (m, p + n)) (der_bytes v) (Zlen (der_bytes v))).
  { rewrite ULONG_small32 by lia. destruct (Z.leb_spec v 255).
    - assert (Eb : der_bytes v = [v]).
      { unfold der_bytes. rewrite nbytes_small by lia. change (be_bytes (Z.to_nat 1) v) with [(v / 1) mod 256].
        by rewrite Z.div_1_r, Z.mod_small by lia. }
      rewrite Eb. change 255 with (Z.ones 8). rewrite Z.land_ones, Z.mod_small by (cbn; lia).
      unfold UCHAR. rewrite Z.mod_small by lia. apply writes_put.
    - intros pre rest Hr. rewrite length_der_bytes in Hr.
      pose proof (ASN1WriteUlong_spec pre (take (Z.to_nat (nbytes v)) rest) (drop (Z.to_nat (nbytes v)) rest) v (Zlen pre)) as E.
      rewrite take_drop, ulong_pad_0 in E. pose proof (nbytes_pos v).
      rewrite E; [|split; [rewrite H32; lia|lia]|done|rewrite length_take; lia].
      cbn [mbind outcome_bind Z.to_nat replicate app]. exists (drop (Z.to_nat (nbytes v)) rest).
      rewrite length_app, length_drop, <-length_der_bytes. split; [do 2 f_equal; lia|].
      rewrite length_der_bytes. lia. }
  rewrite Ed. eapply writes_ext; cycle 1.
  - eapply (writes_app (fun m p => if 128 <=? last then m ← buf_put m p 0; Done (m, p + 1) else Done (m, p))); [|exact Hw].
    destruct (128 <=? last); [apply writes_put|apply writes_nothing].
  - intros m p. unfold write_integer. cbn [bIsDynamic lValue bFirstZero]. destruct (Z.leb_spec 0 v); [done|lia].
Qed.

(** ** A negative number *)

Lemma negative_size_spec b3 b2 b1 b0 :
  negative_size 4 [b3; b2; b1; b0; 0] 4 0 =
    Done (if (b3 =? 255) && (128 <=? b2) then
            if (b2 =? 255) && (128 <=? b1) then if (b1 =? 255) && (128 <=? b0) then 1 else 2 else 3
          else 4).
Proof.
  cbv -[Z.eqb Z.leb].
  destruct (b3 =? 255), (128 <=? b2), (b2 =? 255), (128 <=? b1), (b1 =? 255), (128 <=? b0); vm_compute; reflexivity.
Qed.

Lemma be_bytes_4 u : be_bytes 4 u = [u / 16777216 mod 256; u / 65536 mod 256; u / 256 mod 256; u mod 256].
Proof. cbn [be_bytes]. change (256 ^ Z.of_nat 0) with 1. by rewrite Z.div_1_r. Qed.

Lemma negative_bytes v : -2147483648 <= v < 0 ->
  negative_size 4 (be_bytes 4 (v + 4294967296) ++ [0]) 4 0 = Done (int_size v).
Proof.
  intros Hv. pose proof (be_value_bytes_small 4 (v + 4294967296) ltac:(cbn; lia)) as Ev.
  pose proof (be_bytes_byte 4 (v + 4294967296)) as Hb. rewrite be_bytes_4 in *.
  generalize dependent ((v + 4294967296) / 16777216 mod 256). generalize dependent ((v + 4294967296) / 65536 mod 256).
  generalize dependent ((v + 4294967296) / 256 mod 256). generalize dependent ((v + 4294967296) mod 256).
  intros b0 b1 b2 b3 Ev Hb. cbn in Ev. unfold is_byte in Hb. rewrite !Forall_cons in Hb. destruct Hb as (H3 & H2 & H1 & H0 & _).
  cbn [app]. rewrite negative_size_spec, int_size_cases by lia. f_equal.
  destruct (Z.leb_spec (-128) v), (Z.ltb_spec v 128), (Z.leb_spec (-32768) v), (Z.ltb_spec v 32768),
    (Z.leb_spec (-8388608) v), (Z.ltb_spec v 8388608); cbn [andb]; try lia;
  repeat match goal with |- context [?x =? ?y] => destruct (Z.eqb_spec x y) | |- context [?x <=? ?y] => destruct (Z.leb_spec x y) end;
    cbn [andb]; lia.
Qed.

Lemma drop_be_bytes j k u : drop j (be_bytes (j + k) u) = be_bytes k u.
Proof. induction j as [|j IH]; [done|]. cbn. done. Qed.

Lemma be_bytes_mod k m u : (k <= m)%nat -> be_bytes k (u mod 256 ^ Z.of_nat m) = be_bytes k u.
Proof.
  intros Hk. induction k as [|k IH]; [done|]. cbn [be_bytes]. rewrite IH by lia. f_equal.
  replace (Z.of_nat m) with (Z.of_nat k + 1 + (Z.of_nat m - Z.of_nat k - 1)) by lia.
  rewrite !Z.pow_add_r by lia. pose proof (pow256_pos k) as Hp.
  assert (0 < 256 ^ (Z.of_nat m - Z.of_nat k - 1)) by (apply Z.pow_pos_nonneg; lia).
  rewrite <-Z.mul_assoc, Z.rem_mul_r by lia. rewrite (Z.mul_comm (256 ^ Z.of_nat k)), Z.div_add by lia.
  rewrite Z.div_small, Z.add_0_l by (apply Z.mod_pos_bound; lia).
  change (256 ^ 1) with 256. rewrite Z.rem_mul_r by lia. rewrite (Z.mul_comm 256), Z.mod_add, Z.mod_mod by lia. done.
Qed.

(** The bytes of a number that fits [k] bytes, in four. *)
Lemma der_int_four v u : -2147483648 <= v < 2147483648 -> u = v mod 4294967296 ->
  der_int v = be_bytes (Z.to_nat (int_size v)) u.
Proof.
  intros Hv ->. unfold der_int. destruct (int_size_range v Hv) as (k & -> & Hk & _).
  rewrite <-(be_bytes_mod (Z.to_nat k) (Z.to_nat k) (v mod 4294967296)) by lia. rewrite Z2Nat.id by lia. f_equal.
  change 4294967296 with (256 ^ 4). replace 4 with (k + (4 - k)) by lia. rewrite Z.pow_add_r by lia.
  assert (0 < 256 ^ k) by (apply Z.pow_pos_nonneg; lia). assert (0 < 256 ^ (4 - k)) by (apply Z.pow_pos_nonneg; lia).
  rewrite Z.rem_mul_r by lia. by rewrite (Z.mul_comm (256 ^ k)), Z.mod_add, Z.mod_mod by lia.
Qed.

Lemma slice_be_bytes k u : 0 <= k <= 4 -> slice (be_bytes 4 u ++ [0]) (4 - k) k = Done (be_bytes (Z.to_nat k) u).
Proof.
  intros Hk. unfold slice. destruct (Z.ltb_spec (4 - k) 0); [lia|].
  rewrite drop_app_le by (rewrite length_be_bytes; lia).
  replace 4%nat with (Z.to_nat (4 - k) + Z.to_nat k)%nat by lia. rewrite drop_be_bytes.
  pose proof (read_bytes_app (be_bytes (Z.to_nat k) u) [0]) as E. by rewrite length_be_bytes, Z2Nat.id in E by lia.
Qed.

Lemma set_integer_carries o v : free_buffer (pValueBuffer o) = Done tt -> -2147483648 <= v < 2147483648 ->
  exists o', AnscAsn1IntegerSetIntegerValue o v = Done o' /\ carries o' (der_int v) /\
    lValue o' = v /\ int_attrs o' = int_attrs o /\ bOptional o' = false /\ bIsDynamic o' = false.
Proof.
  intros Hfree Hv. unfold AnscAsn1IntegerSetIntegerValue. rewrite Hfree. cbn [mbind outcome_bind].
  destruct (Z.leb_spec 0 v) as [Hpos|Hneg].
  - rewrite ULONG_small32 by lia.
    match goal with |- context [AnscAsn1IntegerSetUlongValue ?x _] => apply (set_positive_carries x) end; [done|lia].
  - assert (Eu : ULONG v = v + 4294967296).
    { unfold ULONG, wrapU. rewrite H32. change (2 ^ 32) with 4294967296.
      rewrite <-(Z.mod_add v 1 4294967296), Z.mod_small by lia. lia. }
    rewrite Eu, network_4, negative_bytes by lia. cbn [mbind outcome_bind]. eexists. split; [done|].
    cbn [lValue int_attrs bOptional bIsDynamic]. split_and!; [|done..].
    destruct (int_size_range v Hv) as (k & Ek & Hk & _).
    rewrite (der_int_four v (v + 4294967296)); [|done|]; cycle 1.
    { rewrite <-(Z.mod_add v 1 4294967296), Z.mod_small by lia. lia. }
    split; [cbn [uLength]; rewrite length_be_bytes; lia|].
    eapply writes_ext; [|apply writer_copy]. intros m p. unfold write_integer. cbn [bIsDynamic lValue bFirstZero uLength].
    destruct (Z.leb_spec 0 v); [lia|]. rewrite Eu, network_4, sizeof_4, Ek, slice_be_bytes by lia.
    cbn [mbind outcome_bind]. by rewrite length_be_bytes, Z2Nat.id by lia.
Qed.

End contents.

(** ** Objects, encoded and decoded *)

Section objects.
Context `{Platform}.

(** The encoding of the contents [c] behind attributes. *)
Definition integer_tlv (attrs : list ANSC_ATTR_OBJECT) (c : list Z) : list Z := nest false 2 c attrs true.

(** Attributes and contents that every length field and size has room for. *)
Definition encodable (attrs : list ANSC_ATTR_OBJECT) (c : list Z) : Prop :=
  Forall (attr_ok false) attrs /\ Zlen (integer_tlv attrs c) < 65536.

Lemma encodable_fits attrs c : encodable attrs c -> fits false 2 c attrs /\ Zlen c < 65536.
Proof.
  intros [_ Hs]. unfold fits, integer_tlv in *. pose proof (nest_mono false 2 c attrs).
  pose proof (nest_grows false 2 c attrs true). lia.
Qed.

Lemma GetSizeOfEncoded_spec o c : carries o c -> bOptional o = false -> encodable (int_attrs o) c ->
  AnscAsn1IntegerGetSizeOfEncoded o = Done (Zlen (integer_tlv (int_attrs o) c)).
Proof.
  intros [Eu _] Ho He. unfold AnscAsn1IntegerGetSizeOfEncoded. rewrite Ho, Eu.
  apply AttrListGetSizeOfEncoded_spec; [apply He|by apply encodable_fits].
Qed.

(** An object is written as its contents behind its attributes. *)
Lemma EncodingData_writes o c : carries o c -> bOptional o = false -> encodable (int_attrs o) c ->
  forall pre rest, Zlen (integer_tlv (int_attrs o) c) + 4 <= Zlen rest -> exists rest',
    AnscAsn1IntegerEncodingData o (pre ++ rest) (Zlen pre) =
      Done (ASN1_SUCCESS, (pre ++ integer_tlv (int_attrs o) c ++ rest', Zlen (pre ++ integer_tlv (int_attrs o) c))) /\
    Zlen rest' = Zlen rest - Zlen (integer_tlv (int_attrs o) c).
Proof.
  intros Hc Ho He pre rest Hr. unfold AnscAsn1IntegerEncodingData. rewrite Ho, (GetSizeOfEncoded_spec o c) by done.
  cbn [mbind outcome_bind]. destruct (Z.ltb_spec (Zlen (integer_tlv (int_attrs o) c)) 0); [lia|].
  destruct (encodable_fits _ _ He) as [Hf Hlc]. destruct He as [Hok Hlen]. unfold integer_tlv in *.
  rewrite ULONG_small32 by lia. change (AnscAsn1IsConstructive ASN1_INTEGER_TYPE) with false.
  unfold AttrListEncodingData.
  destruct (encode_loop_writes false 2 c (int_attrs o) true Hok Hlen pre rest ltac:(lia)) as (r1 & -> & E1).
  cbn [mbind outcome_bind]. rewrite bool_decide_true by done. cbn [negb].
  change (AnscAsn1GetFirstOctet ASN1_INTEGER_TYPE) with 2.
  rewrite (nest_headers false 2 c (int_attrs o) true) in *. set (hd := headers _ _ _ _ _) in *.
  set (b := own_tag (int_attrs o) true) in *. rewrite app_assoc.
  destruct (core_writes 2 c _ b (proj2 Hc) Hlc (pre ++ hd) r1) as (r2 & E2 & El2); [rewrite length_app in Hr; lia|].
  rewrite <-(proj1 Hc) in E2.
  exists r2. split; [|rewrite (length_app hd); lia].
  match type of E2 with ?x = _ => match goal with |- ?y = _ => assert (y = '(m, q) ← x; Done (ASN1_SUCCESS, (m, q))) as -> end end.
  { destruct b; [|done]. destruct (buf_put _ _ _); [|done]. cbn [mbind outcome_bind]. by destruct (EncodeLength _ _ _) as [[]|]. }
  rewrite E2. cbn [mbind outcome_bind]. by rewrite <-!app_assoc.
Qed.

Lemma integer_encodes o c : carries o c -> bOptional o = false -> encodable (int_attrs o) c ->
  encodes_as o (integer_tlv (int_attrs o) c).
Proof. intros Hc Ho He. split; [by apply GetSizeOfEncoded_spec|by apply EncodingData_writes]. Qed.

Lemma integer_encoded o c : carries o c -> bOptional o = false -> encodable (int_attrs o) c -> 1 <= Zlen c ->
  exists tail, AnscAsn1GetEncodedData o =
    Done (Some (integer_tlv (int_attrs o) c ++ tail, Zlen (integer_tlv (int_attrs o) c))).
Proof.
  intros Hc Ho He Hl. apply GetEncodedData_spec; [by apply integer_encodes|].
  pose proof (nest_grows false 2 c (int_attrs o) true). destruct He as [_ ?]. unfold integer_tlv in *. lia.
Qed.

(** What is decoded has the contents, whatever follows them. *)
Lemma DecodingData_spec o c r l z :
  free_buffer (pValueBuffer o) = Done tt -> encodable (int_attrs o) c -> Forall is_byte c -> Forall is_byte r ->
  1 <= Zlen c <= 2000 -> all_read_back false 2 c (int_attrs o) true ->
  integer_value o c (c ++ r) (Zlen c) = Done (l, z) ->
  AnscAsn1IntegerDecodingData o (integer_tlv (int_attrs o) c ++ r) =
    Done (ASN1_SUCCESS, AsnInteger (int_attrs o) false (bCanBeOptional o) (Zlen c) l (Buffer c) true z, r).
Proof.
  intros Hfree He Hbc Hbr Hc Hback Hv. destruct (encodable_fits _ _ He) as [Hf Hlc]. destruct He as [Hok Hlen].
  unfold AnscAsn1IntegerDecodingData, integer_tlv.
  destruct (attributes_round_trip false 2 c (int_attrs o) r) as (left & -> & Hleft); try done.
  { destruct c; [cbn in Hc; lia|done]. }
  cbn [mbind outcome_bind]. rewrite bool_decide_true by done. cbn [negb].
  set (b := own_tag (int_attrs o) true) in *.
  match goal with |- ('(_, _) ← ?x; _) = _ => assert (E : x = Done (ASN1_SUCCESS, (c ++ r, Zlen c, 0))) end.
  { destruct b eqn:Eb; cbn [core] in *.
    - unfold der_tlv. change ((2 :: ?l) ++ r) with ([2] ++ l ++ r). rewrite <-app_assoc.
      assert (Hk : length_read (Zlen c) = Zlen c).
      { apply length_reads_back. split; [lia|]. pose proof (nest_grows false 2 c (int_attrs o) true).
        destruct Hback; [by right|left; lia]. }
      rewrite parse_header; [|by apply tag_low|cbn; lia|lia]. cbn [mbind outcome_bind].
      rewrite bool_decide_true by done. cbn [negb FirstOctetOfTag ulSizeOfTag ulSizeOfLength ulContentLength bIsInfinite head default].
      change (AnscAsn1GetFirstOctet ASN1_INTEGER_TYPE) with 2. cbn [Z.eqb Pos.eqb negb orb length]. rewrite Hk.
      destruct (Z.eqb_spec (Zlen c) 0); [lia|]. rewrite ULONG_small32 by lia. do 4 f_equal.
      rewrite app_assoc. apply drop_app_length'. cbn. lia.
    - destruct Hleft as [->|]; [|done]. done. }
  rewrite E. cbn [mbind outcome_bind]. rewrite bool_decide_true by done. cbn [negb]. rewrite Hfree. cbn [mbind outcome_bind].
  destruct (Z.eqb_spec (Zlen c) 0); [lia|]. cbn [mbind outcome_bind]. destruct (Z.ltb_spec 2000 (Zlen c)); [lia|].
  rewrite read_bytes_app. cbn [mbind outcome_bind]. rewrite Hv. cbn [mbind outcome_bind].
  change (Z.to_nat 0) with 0%nat. cbn [skip_ends mbind outcome_bind int_attrs bOptional bCanBeOptional uLength lValue pValueBuffer bIsDynamic bFirstZero].
  by rewrite drop_app_length' by lia.
Qed.

End objects.

(** ** The number that is read *)

Section numbers.
Context `{Platform}.

Lemma der_int_bytes v : Forall is_byte (der_int v).
Proof. apply be_bytes_byte. Qed.

Lemma length_der_int v : Zlen (der_int v) = int_size v.
Proof.
  unfold der_int. rewrite length_be_bytes. unfold int_size.
  set (a := if v <? 0 then - v - 1 else v). pose proof (Z.log2_nonneg a).
  assert (0 <= (Z.log2 a + 1) / 8) by (apply Z.div_pos; lia). lia.
Qed.

(** The first byte tells the sign. *)
Lemma der_int_sign v : -2147483648 <= v < 2147483648 -> exists b r, der_int v = b :: r /\ (b < 128 <-> 0 <= v).
Proof.
  intros Hv. unfold der_int. destruct (int_size_range v Hv) as (k & -> & Hk & Hr & _).
  replace (Z.to_nat k) with (S (Z.to_nat (k - 1))) by lia. cbn [be_bytes]. eexists _, _. split; [done|].
  rewrite Z2Nat.id by lia. assert (E : k = 1 \/ k = 2 \/ k = 3 \/ k = 4) by lia.
  destruct_or! E; subst k; cbn in Hr |- *; Z.to_euclidean_division_equations; lia.
Qed.

Lemma be_bytes_ones j k u : 256 ^ Z.of_nat k * (256 ^ Z.of_nat j - 1) <= u < 256 ^ Z.of_nat k * 256 ^ Z.of_nat j ->
  be_bytes (j + k) u = replicate j 255 ++ be_bytes k u.
Proof.
  revert u. induction j as [|j IH]; intros u Hu; [done|]. cbn [be_bytes Nat.add replicate app].
  pose proof (pow256_pos j) as Hj. pose proof (pow256_pos k) as Hk. rewrite pow256_succ in Hu.
  assert (Eq : 256 ^ Z.of_nat (j + k) = 256 ^ Z.of_nat k * 256 ^ Z.of_nat j) by (rewrite Nat2Z.inj_add, Z.pow_add_r by lia; apply Z.mul_comm).
  assert (Ed : u / 256 ^ Z.of_nat (j + k) = 255).
  { symmetry. apply (Z.div_unique _ _ _ (u - 256 ^ Z.of_nat (j + k) * 255)); [|lia]. left. rewrite Eq. nia. }
  f_equal; [by rewrite Ed|].
  rewrite <-(be_bytes_mod (j + k) (j + k) u) by lia. rewrite <-(be_bytes_mod k (j + k) u) by lia.
  apply IH. rewrite Z.mod_eq, Ed, Eq by lia. nia.
Qed.

(** The four bytes that [GetIntegerValueFromBuffer] makes of a negative number. *)
Lemma negative_extended v : -2147483648 <= v < 0 ->
  be_value (replicate (4 - length (der_int v)) 255 ++ der_int v) = v + 4294967296.
Proof.
  intros Hv. pose proof (length_der_int v) as Hl. destruct (int_size_range v ltac:(lia)) as (k & Ek & Hk & Hr & _).
  rewrite (der_int_four v (v + 4294967296)); [|lia|]; cycle 1.
  { rewrite <-(Z.mod_add v 1 4294967296), Z.mod_small by lia. lia. }
  rewrite length_be_bytes, Ek, <-be_bytes_ones.
  - rewrite be_value_bytes_small; [done|]. replace (Z.of_nat (4 - Z.to_nat k + Z.to_nat k)) with 4 by lia. cbn. lia.
  - rewrite Z2Nat.id by lia. replace (Z.of_nat (4 - Z.to_nat k)) with (4 - k) by lia.
    assert (E : k = 1 \/ k = 2 \/ k = 3 \/ k = 4) by lia. clear Ek Hl. destruct_or! E; subst k; cbn in Hr |- *; lia.
Qed.

Lemma read_number v r : ulong_bits = 32 -> -2147483648 <= v < 2147483648 ->
  GetIntegerValueFromBuffer (der_int v ++ r) (Zlen (der_int v)) = Done v.
Proof.
  intros H32 Hv. pose proof (length_der_int v) as Hl. destruct (int_size_range v Hv) as (k & Ek & Hk & _).
  assert (Es : sizeof_ULONG = 4) by (unfold sizeof_ULONG; by rewrite H32).
  destruct (der_int_sign v Hv) as (b & d & Ed & Hsign). unfold GetIntegerValueFromBuffer.
  destruct (Z.eqb_spec (Zlen (der_int v)) 0); [lia|].
  assert (Eb : buf_get (der_int v ++ r) 0 = Done b) by (by rewrite Ed). rewrite Eb. cbn [mbind outcome_bind].
  destruct (Z.ltb_spec b 128) as [Hb|Hb].
  - rewrite GetLengthFromBuffer_32; [|done|apply der_int_bytes|lia]. cbn [mbind outcome_bind].
    assert (Ev : be_value (der_int v) = v).
    { destruct (der_int_pos v ltac:(lia)) as [-> _]. destruct (128 <=? _); cbn [app be_value];
        rewrite ?Z.mul_0_l, ?Z.add_0_l; apply be_value_der_bytes; lia. }
    rewrite Ev, LONG_small by lia. done.
  - rewrite read_bytes_app. cbn [mbind outcome_bind]. rewrite Es.
    change (Z.to_nat 4 - 4)%nat with 0%nat. cbn [replicate]. rewrite app_nil_r.
    rewrite copy_to_end by (cbn; lia). cbn [mbind outcome_bind].
    change (take ?n [255; 255; 255; 255]) with (take n (replicate 4 255)).
    change (length [255; 255; 255; 255]) with 4%nat.
    rewrite take_replicate, Nat.min_l by lia. rewrite first_four; cycle 1.
    { rewrite length_app, length_replicate. lia. }
    { apply Forall_app. split; [by apply Forall_replicate|apply der_int_bytes]. }
    rewrite take_ge by (rewrite length_app, length_replicate; lia). rewrite negative_extended by lia.
    cbn [mbind outcome_bind]. rewrite ULONG_small32 by lia. f_equal.
    replace (4294967295 - (v + 4294967296) + 1) with (- v) by lia.
    destruct (Z.eq_dec v (-2147483648)) as [->|].
    + unfold LONG. rewrite H32. done.
    + rewrite (LONG_small (- v)) by lia. rewrite LONG_id; [lia|]. rewrite H32. cbn. lia.
Qed.

(** C19. Where an unsigned long has 32 bits, an integer that is set, encoded
    behind attributes whose class numbers are written as they are ([attr_ok]),
    in less than 65536 bytes, and decoded is read as the number it was, in the
    least bytes two's complement has for it.
    Decoding makes it a big integer, which does not equal the one it was
    encoded from. *)
Theorem integer_round_trip o o' v r
  (H32 : ulong_bits = 32) (Hv : -2147483648 <= v < 2147483648)
  (Hfree : free_buffer (pValueBuffer o) = Done tt) (Hfree' : free_buffer (pValueBuffer o') = Done tt)
  (Hattrs : int_attrs o' = int_attrs o) (He : encodable (int_attrs o) (der_int v)) (Hr : Forall is_byte r) :
  exists o1 o2 m tail,
    AnscAsn1IntegerSetIntegerValue o v = Done o1 /\
    AnscAsn1GetEncodedData o1 = Done (Some (m ++ tail, Zlen m)) /\
    AnscAsn1IntegerDecodingData o' (m ++ r) = Done (ASN1_SUCCESS, o2, r) /\
    lValue o2 = v /\ pValueBuffer o2 = Buffer (der_int v) /\
    AnscAsn1IntegerEqualsTo o1 o2 true = Done false.
Proof.
  destruct (set_integer_carries H32 o v Hfree Hv) as (o1 & E1 & Hc & Hl & Ha & Hopt & Hdyn).
  pose proof (length_der_int v) as Hlen. destruct (int_size_range v Hv) as (k & Ek & Hk & _).
  rewrite <-Ha in He.
  destruct (integer_encoded o1 _ Hc Hopt He ltac:(lia)) as (tail & E2).
  assert (Es : sizeof_ULONG = 4) by (unfold sizeof_ULONG; by rewrite H32).
  destruct (der_int_sign v Hv) as (b & d & Ed & _).
  assert (Ei : integer_value o' (der_int v) (der_int v ++ r) (Zlen (der_int v)) = Done (v, (b =? 0) && (1 <? Zlen (der_int v)))).
  { unfold integer_value. rewrite Es. destruct (Z.leb_spec (Zlen (der_int v)) (4 + 1)); [|lia].
    assert (Eb : buf_get (der_int v ++ r) 0 = Done b) by (by rewrite Ed). rewrite Eb. cbn [mbind outcome_bind].
    destruct (Z.leb_spec (Zlen (der_int v)) 4); [|lia]. cbn [orb].
    rewrite <-(app_nil_r (der_int v)) at 1. rewrite read_number by done. done. }
  eexists o1, _, (integer_tlv (int_attrs o1) (der_int v)), tail. split_and!; [done|done| | | |].
  - rewrite Ha, <-Hattrs. eapply DecodingData_spec; try done; [|apply der_int_bytes|lia|by left].
    by rewrite Hattrs, <-Ha.
  - done.
  - done.
  - unfold AnscAsn1IntegerEqualsTo. cbn [negb andb bOptional bIsDynamic]. by rewrite Hopt, Hdyn.
Qed.

(** Reading a number completes where the copy fits the local buffer. *)
Lemma GetIntegerValueFromBuffer_total c : Forall is_byte c -> 1 <= Zlen c ->
  default 0 (head c) = 0 \/ Zlen c <= sizeof_ULONG -> exists l, GetIntegerValueFromBuffer c (Zlen c) = Done l.
Proof.
  intros Hb Hl Hs. assert (Hsz : 4 <= sizeof_ULONG) by (destruct sizeof_cases as [[-> _] | [-> _]]; lia).
  unfold GetIntegerValueFromBuffer. destruct (Z.eqb_spec (Zlen c) 0) as [|_]; [lia|].
  destruct c as [|b d] eqn:Ec; [cbn in Hl; lia|]. rewrite <-Ec in *.
  assert (Eb : buf_get c 0 = Done b) by by rewrite Ec. rewrite Eb. cbn [mbind outcome_bind].
  destruct (Z.ltb_spec b 128).
  - unfold GetLengthFromBuffer. destruct (Z.eqb_spec (Zlen c) 0) as [|_]; [lia|].
    set (n := if sizeof_ULONG <? Zlen c then sizeof_ULONG else Zlen c).
    assert (Hn : 0 <= n <= sizeof_ULONG /\ n <= Zlen c) by (subst n; destruct (Z.ltb_spec sizeof_ULONG (Zlen c)); lia).
    set (d' := take (Z.to_nat n) c). assert (En : n = Zlen d') by (subst d'; rewrite length_take; lia).
    assert (Er : read_bytes c n = Done d').
    { rewrite <-(take_drop (Z.to_nat n) c). fold d'. rewrite En at 2. apply read_bytes_app. }
    rewrite Er. cbn [mbind outcome_bind]. rewrite En, copy_to_end by (rewrite ?length_replicate; lia).
    cbn [mbind outcome_bind]. rewrite length_replicate, take_replicate, Nat.min_l by lia.
    rewrite first_four; [cbn [mbind outcome_bind]; by eexists| |].
    + rewrite length_app, length_replicate. lia.
    + apply Forall_app. split; [by apply Forall_replicate|by apply Forall_take].
  - destruct Hs as [E0|Hs]; [rewrite Ec in E0; cbn in E0; lia|]. rewrite read_bytes_all. cbn [mbind outcome_bind].
    rewrite copy_to_end by (rewrite ?length_app, ?length_replicate; cbn; lia). cbn [mbind outcome_bind].
    rewrite first_four; [cbn [mbind outcome_bind]; by eexists| |].
    + rewrite !length_app, length_take, !length_app, !length_replicate. lia.
    + apply Forall_app. split; [|done]. apply Forall_take, Forall_app. split; by apply Forall_replicate.
Qed.

(** The bytes of an integer of any length are read back on every platform, as
    long as its lengths are. *)
Theorem big_integer_round_trip o o' d r
  (Hfree : free_buffer (pValueBuffer o) = Done tt) (Hfree' : free_buffer (pValueBuffer o') = Done tt)
  (Hd : 1 <= Zlen d <= 1999) (Hb : Forall is_byte d) (Hr : Forall is_byte r) (Hattrs : int_attrs o' = int_attrs o) :
  let c := (if 128 <=? default 0 (head d) then [0] else []) ++ d in
  encodable (int_attrs o) c -> all_read_back false 2 c (int_attrs o) true ->
  exists o1 o2 m tail,
    AnscAsn1IntegerSetUnsignedStringValue o d (Zlen d) = Done o1 /\
    AnscAsn1GetEncodedData o1 = Done (Some (m ++ tail, Zlen m)) /\
    AnscAsn1IntegerDecodingData o' (m ++ r) = Done (ASN1_SUCCESS, o2, r) /\
    pValueBuffer o2 = Buffer c /\
    AnscAsn1IntegerEqualsTo o1 o2 true = Done true.
Proof.
  intros c He Hback.
  assert (Hhd : buf_get d 0 = Done (default 0 (head d))) by (destruct d; [cbn in Hd; lia|done]).
  set (b := default 0 (head d)) in *.
  assert (Elen : Zlen c = if 128 <=? b then Zlen d + 1 else Zlen d).
  { unfold c. destruct (128 <=? b); [cbn [app length]; lia|done]. }
  assert (Hle : Zlen d <= Zlen c <= Zlen d + 1) by (rewrite Elen; destruct (128 <=? b); lia).
  assert (Eset : AnscAsn1IntegerSetUnsignedStringValue o d (Zlen d) =
    Done (AsnInteger (int_attrs o) false (bCanBeOptional o) (Zlen c) (lValue o) (Buffer c) true (bFirstZero o))).
  { unfold AnscAsn1IntegerSetUnsignedStringValue. rewrite Hfree. cbn [mbind outcome_bind].
    rewrite Hhd. cbn [mbind outcome_bind]. rewrite read_bytes_all. cbn [mbind outcome_bind].
    assert (El : (if 128 <=? b then ULONG (Zlen d + 1) else Zlen d) = Zlen c).
    { rewrite Elen. destruct (128 <=? b); [|done]. apply ULONG_small32. lia. }
    rewrite El, Nat2Z.id, copy_to_end by (rewrite ?length_replicate; lia).
    cbn [mbind outcome_bind]. do 3 f_equal. rewrite length_replicate, take_replicate, Nat.min_l by lia.
    unfold c. destruct (128 <=? b); cbn [app length]; [|by rewrite Nat.sub_diag].
    by replace (S (length d) - length d)%nat with 1%nat by lia. }
  assert (Hbc : Forall is_byte c).
  { unfold c. destruct (128 <=? _); [|done]. constructor; [by vm_compute|done]. }
  clearbody c. rewrite Eset. set (o1 := AsnInteger _ _ _ _ _ _ _ _).
  assert (Hc : carries o1 c) by apply dynamic_carries.
  destruct (integer_encoded o1 c Hc eq_refl He ltac:(lia)) as (tail & E2).
  assert (Hv : exists l z, integer_value o' c (c ++ r) (Zlen c) = Done (l, z)).
  { unfold integer_value. destruct (Z.leb_spec (Zlen c) (sizeof_ULONG + 1)); [|by eexists _, _].
    destruct c as [|c0 c'] eqn:Ec; [cbn in Elen; destruct (128 <=? b); lia|].
    change (buf_get ((c0 :: c') ++ r) 0) with (Done c0). cbn [mbind outcome_bind].
    destruct (Z.leb_spec (Zlen (c0 :: c')) sizeof_ULONG); cbn [orb].
    - destruct (GetIntegerValueFromBuffer_total (c0 :: c')) as [l ->]; [done|cbn; lia|by right|]. cbn [mbind outcome_bind]. by eexists _, _.
    - destruct (Z.eqb_spec c0 0) as [->|]; [|by eexists _, _].
      destruct (GetIntegerValueFromBuffer_total (0 :: c')) as [l ->]; [done|cbn; lia|by left|]. cbn [mbind outcome_bind]. by eexists _, _. }
  destruct Hv as (l & z & Hv).
  eexists o1, _, (integer_tlv (int_attrs o1) c), tail. split_and!; [done|done| | |].
  - change (int_attrs o1) with (int_attrs o). rewrite <-Hattrs. eapply DecodingData_spec; try done; rewrite ?Hattrs; try done.
    rewrite Elen. destruct (128 <=? b); lia.
  - done.
  - unfold AnscAsn1IntegerEqualsTo. cbn [negb andb bOptional bIsDynamic Bool.eqb uLength pValueBuffer o1].
    rewrite Z.eqb_refl, read_buffer_all by done. cbn [negb mbind outcome_bind]. by rewrite bool_decide_true.
Qed.

End numbers.

(** ** What is lost *)

Section lost.
Context `{Platform}.

Lemma encodable_plain c : Zlen c <= 100 -> encodable [] c.
Proof.
  intros Hc. split; [constructor|]. unfold integer_tlv. change (nest false 2 c [] true) with (core 2 c true).
  rewrite length_core. pose proof (length_der_length_le (Zlen c) ltac:(lia)). lia.
Qed.

(** C40. Where an unsigned long has 64 bits, every integer of at most four bytes is
    decoded as the number 0 or -1, by its sign; its bytes are right. *)
Theorem numbers_are_lost c r
  (H64 : ulong_bits = 64) (Hc : 1 <= Zlen c <= 4) (Hb : Forall is_byte c) (Hr : Forall is_byte r) :
  exists o, AnscAsn1IntegerDecodingData AnscAsn1IntegerCreate (integer_tlv [] c ++ r) = Done (ASN1_SUCCESS, o, r) /\
    pValueBuffer o = Buffer c /\ lValue o = if default 0 (head c) <? 128 then 0 else -1.
Proof.
  assert (Es : sizeof_ULONG = 8) by (unfold sizeof_ULONG; by rewrite H64).
  destruct c as [|b d] eqn:Ec; [cbn in Hc; lia|]. rewrite <-Ec in *.
  assert (Eb : forall x, buf_get (c ++ x) 0 = Done b) by (intros x; by rewrite Ec).
  assert (Hn : GetIntegerValueFromBuffer c (Zlen c) = Done (if b <? 128 then 0 else -1)).
  { unfold GetIntegerValueFromBuffer. destruct (Z.eqb_spec (Zlen c) 0) as [|_]; [lia|].
    specialize (Eb []). rewrite app_nil_r in Eb. rewrite Eb. cbn [mbind outcome_bind].
    destruct (Z.ltb_spec b 128).
    - rewrite <-(app_nil_r c) at 1. rewrite GetLengthFromBuffer_64 by (done || lia). cbn [mbind outcome_bind]. by rewrite LONG_small.
    - rewrite read_bytes_all. cbn [mbind outcome_bind]. rewrite Es.
      rewrite copy_to_end by (reflexivity || lia). cbn [mbind outcome_bind].
      change (replicate 4 255 ++ replicate (Z.to_nat 8 - 4) 0) with (replicate 4 255 ++ replicate 4 0).
      rewrite take_app_ge by (cbn; lia). rewrite first_four; cycle 1.
      { rewrite !length_app, length_replicate. lia. }
      { rewrite !Forall_app. split_and!; [by apply Forall_replicate|apply Forall_take; by apply Forall_replicate|done]. }
      rewrite <-app_assoc, take_app_length'; [|done]. cbn [mbind outcome_bind].
      change (4294967295 - be_value (replicate 4 255) + 1) with 1.
      rewrite (ULONG_small32 1) by lia. rewrite (LONG_small 1) by lia. rewrite LONG_id; [done|]. rewrite H64. cbn. lia. }
  eexists. split.
  - apply (DecodingData_spec AnscAsn1IntegerCreate c r (if b <? 128 then 0 else -1) ((b =? 0) && (1 <? Zlen c))); try done.
    + apply encodable_plain. lia.
    + lia.
    + right. cbn [AnscAsn1IntegerCreate int_attrs]. change (nest false 2 c [] true) with (core 2 c true).
      rewrite length_core, length_der_length. destruct (Z.leb_spec (Zlen c) 127); lia.
    + unfold integer_value. rewrite Es. destruct (Z.leb_spec (Zlen c) (8 + 1)); [|lia]. rewrite Eb. cbn [mbind outcome_bind].
      destruct (Z.leb_spec (Zlen c) 8); [|lia]. cbn [orb]. by rewrite Hn.
  - by rewrite Ec.
Qed.

End lost.

(** Where it has 32 bits, an unsigned number of five bytes is read without its
    last byte, and a value that is too long leaves the object with a buffer
    that was freed: the next call on it frees the buffer again. *)
Theorem integer_faults :
  let o := AsnInteger [] false false 1 0 (Buffer [7]) true false in
  (exists o1 tail o2, @AnscAsn1IntegerSetUlongValue ilp32 AnscAsn1IntegerCreate 2147483648 = Done o1 /\
    @AnscAsn1GetEncodedData ilp32 _ (@integer_object ilp32) o1 = Done (Some ([2; 5; 0; 128; 0; 0; 0] ++ tail, 7)) /\
    @AnscAsn1IntegerDecodingData ilp32 AnscAsn1IntegerCreate [2; 5; 0; 128; 0; 0; 0] = Done (ASN1_SUCCESS, o2, []) /\
    lValue o2 = 8388608) /\
  (exists o1, @AnscAsn1IntegerDecodingData ilp32 o [2; 130; 7; 209] = Done (ANSC_ASN1_UNACCEPTABLE_VALUE_SIZE, o1, [2; 130; 7; 209]) /\
    pValueBuffer o1 = Freed /\
    @AnscAsn1IntegerSetIntegerValue ilp32 o1 1 = Stuck BadAccess).
Proof.
  split.
  - eexists _, _, _. split; [vm_compute; reflexivity|]. split; [vm_compute; reflexivity|].
    split; [vm_compute; reflexivity|reflexivity].
  - eexists. split; [vm_compute; reflexivity|]. split; reflexivity.
Qed.

Definition witness_attrs : list ANSC_ATTR_OBJECT :=
  [AnscAsn1AttrCreate CONTEXT_FORM 1 false; AnscAsn1AttrCreate EMPTY_FORM 0 false; AnscAsn1AttrCreate APPLICATION_FORM 200 true].
Definition witness_object : ANSC_ASN1_INTEGER := AsnInteger witness_attrs false false 1 0 NoBuffer false false.

Lemma witness_attrs_ok : Forall (attr_ok false) witness_attrs.
Proof.
  unfold witness_attrs. rewrite !Forall_cons. split_and!; [|by left| |by constructor];
    right; (split_and!; [cbn; lia|cbn; lia|unfold skips; cbn; lia|done]).
Qed.

Theorem integer_round_trip_witness :
  @encodable witness_attrs (der_int (-129)) /\
  exists o1 o2 m tail,
    @AnscAsn1IntegerSetIntegerValue ilp32 witness_object (-129) = Done o1 /\
    @AnscAsn1GetEncodedData ilp32 _ (@integer_object ilp32) o1 = Done (Some (m ++ tail, Zlen m)) /\
    @AnscAsn1IntegerDecodingData ilp32 witness_object (m ++ [5; 0]) = Done (ASN1_SUCCESS, o2, [5; 0]) /\
    lValue o2 = -129 /\ pValueBuffer o2 = Buffer (der_int (-129)) /\
    @AnscAsn1IntegerEqualsTo o1 o2 true = Done false.
Proof.
  assert (He : encodable witness_attrs (der_int (-129))) by (split; [apply witness_attrs_ok|by vm_compute]).
  split; [exact He|].
  apply (@integer_round_trip ilp32 witness_object witness_object (-129) [5; 0]); try done.
  unfold is_byte. repeat constructor; lia.
Defined.

Theorem big_integer_round_trip_witness :
  exists o1 o2 m tail,
    @AnscAsn1IntegerSetUnsignedStringValue lp64 witness_object [200; 1; 2; 3; 4; 5; 6; 7; 8] (Zlen [200; 1; 2; 3; 4; 5; 6; 7; 8]) = Done o1 /\
    @AnscAsn1GetEncodedData lp64 _ (@integer_object lp64) o1 = Done (Some (m ++ tail, Zlen m)) /\
    @AnscAsn1IntegerDecodingData lp64 witness_object (m ++ []) = Done (ASN1_SUCCESS, o2, []) /\
    pValueBuffer o2 = Buffer ((if 128 <=? default 0 (head [200; 1; 2; 3; 4; 5; 6; 7; 8]) then [0] else []) ++ [200; 1; 2; 3; 4; 5; 6; 7; 8]) /\
    @AnscAsn1IntegerEqualsTo o1 o2 true = Done true.
Proof.
  apply (@big_integer_round_trip lp64 witness_object witness_object [200; 1; 2; 3; 4; 5; 6; 7; 8] []); try done.
  - unfold is_byte. repeat constructor; lia.
  - split; [apply witness_attrs_ok|by vm_compute].
  - right. by vm_compute.
Defined.

Theorem numbers_are_lost_witness :
  exists o, @AnscAsn1IntegerDecodingData lp64 AnscAsn1IntegerCreate (integer_tlv [] [5] ++ [1]) = Done (ASN1_SUCCESS, o, [1]) /\
    pValueBuffer o = Buffer [5] /\ lValue o = if default 0 (head [5]) <? 128 then 0 else -1.
Proof.
  apply (@numbers_are_lost lp64 [5] [1]); [done|cbn; lia| |]; unfold is_byte; repeat constructor; lia.
Defined.
