(* ===== verification/DerOid.v ===== *)
(** * Object identifiers in DER ([ansc_asn1_oid.c])

    An object has the arcs of its identifier in an array of its own or, when
    there are more than it has room for, in a block.  Arcs are written in
    digits of seven bits, the first two as one number.  The functions that
    derived classes may hook into encoding and decoding are not set; an
    allocation succeeds. *)

From S2P Require Import Prelude CStrings IpAddr Asn1 DerLength DerHeader DerTag DerAttrs DerInt.
Open Scope Z_scope.

Definition MAXIMUM_OID_DEPTH : Z := 16.

(** [pAdvOID] is NULL, a block of arcs, or the address of one that was freed. *)
Record ANSC_ASN1_OIDEN := AsnOid {
  oid_attrs : list ANSC_ATTR_OBJECT; oid_bOptional : bool; oid_bCanBeOptional : bool;
  oid_uLength : Z; pOIDChain : list Z; pAdvOID : value_buffer }.

(** A fresh object: its memory is cleared. *)
Definition AnscAsn1OIDCreate : ANSC_ASN1_OIDEN :=
  AsnOid [] false false 0 (replicate (Z.to_nat MAXIMUM_OID_DEPTH) 0) NoBuffer.

(** [GetOIDBuffer()], what it points to and a write to it. *)
Definition AnscAsn1OIDGetOIDBuffer (o : ANSC_ASN1_OIDEN) : outcome (list Z) :=
  match pAdvOID o with NoBuffer => Done (pOIDChain o) | Buffer b => Done b | Freed => Stuck BadAccess end.
Definition set_OIDBuffer (o : ANSC_ASN1_OIDEN) (b : list Z) : ANSC_ASN1_OIDEN :=
  match pAdvOID o with
  | NoBuffer => AsnOid (oid_attrs o) (oid_bOptional o) (oid_bCanBeOptional o) (oid_uLength o) b NoBuffer
  | _ => AsnOid (oid_attrs o) (oid_bOptional o) (oid_bCanBeOptional o) (oid_uLength o) (pOIDChain o) (Buffer b)
  end.
Definition set_uLength (o : ANSC_ASN1_OIDEN) (n : Z) : ANSC_ASN1_OIDEN :=
  AsnOid (oid_attrs o) (oid_bOptional o) (oid_bCanBeOptional o) n (pOIDChain o) (pAdvOID o).
Definition set_pAdvOID (o : ANSC_ASN1_OIDEN) (b : value_buffer) : ANSC_ASN1_OIDEN :=
  AsnOid (oid_attrs o) (oid_bOptional o) (oid_bCanBeOptional o) (oid_uLength o) (pOIDChain o) b.

(** ** Objects *)

(** The attributes stay, and so does the block of the destination where the
    source has none. *)
Definition AnscAsn1OIDCopyTo (my new : ANSC_ASN1_OIDEN) : outcome ANSC_ASN1_OIDEN :=
  adv ← (match pAdvOID my with
         | NoBuffer => Done (pAdvOID new)
         | b => d ← read_buffer b (oid_uLength my); Done (Buffer d)
         end);
  Done (AsnOid (oid_attrs new) (oid_bOptional my) (oid_bCanBeOptional my) (oid_uLength my) (pOIDChain my) adv).
Definition AnscAsn1OIDClone (my : ANSC_ASN1_OIDEN) : outcome ANSC_ASN1_OIDEN := AnscAsn1OIDCopyTo my AnscAsn1OIDCreate.

Definition equal_items (a b : value_buffer) (n : Z) : outcome bool :=
  x ← read_buffer a n; y ← read_buffer b n; Done (bool_decide (x = y)).

(** For two objects; that an object equals itself and not NULL is left out. *)
Definition AnscAsn1OIDEqualsTo (my new : ANSC_ASN1_OIDEN) (bValueOnly : bool) : outcome bool :=
  if negb (Bool.eqb (oid_bOptional my) (oid_bOptional new)) then Done false
  else if negb bValueOnly && negb (AttrListCompareAttributeList (oid_attrs my) (oid_attrs new)) then Done false
  else if negb (oid_bOptional my) then
    if negb (oid_uLength my =? oid_uLength new) then Done false
    else match pAdvOID my, pAdvOID new with
         | NoBuffer, NoBuffer => equal_items (Buffer (pOIDChain my)) (Buffer (pOIDChain new)) (oid_uLength my)
         | NoBuffer, _ | _, NoBuffer => Done false
         | a, b => equal_items a b (oid_uLength my)
         end
  else Done true.

Section oid.
Context `{Platform}.

(** ** Arcs *)

(** The loop [while (ulResult) { ulResult = ulResult / 0x80; counter++; }]. *)
Fixpoint count_128 (fuel : nat) (ulResult counter : Z) : outcome Z :=
  match fuel with
  | O => Stuck Diverge
  | S fuel => if ulResult =? 0 then Done counter else count_128 fuel (ulResult / 128) (counter + 1)
  end.
Definition GetSizeOfEncodedASN1SubOID (ulResult : Z) : outcome Z :=
  if ulResult =? 0 then Done 1 else count_128 11 ulResult 0.

(** The loop that writes the digits from the last to the first. *)
Fixpoint sub_oid_digits (n : nat) (first : bool) (m : list Z) (p ulResult : Z) : outcome (list Z) :=
  match n with
  | O => Done m
  | S i =>
      let d := UCHAR (ulResult mod 128) in
      m ← buf_put m (p + Z.of_nat i) (if first then d else Z.lor d 128);
      sub_oid_digits i false m p (ulResult / 128)
  end.
Definition EncodeASN1SubOID (m : list Z) (p ulResult : Z) : outcome (list Z * Z) :=
  counter ← count_128 11 ulResult (if ulResult =? 0 then 1 else 0);
  m ← sub_oid_digits (Z.to_nat counter) true m p ulResult;
  Done (m, p + counter).

Definition GetULONGFromOID (p : list Z) (ulContentSize : Z) : outcome Z :=
  if sizeof_ULONG + 1 <? ulContentSize then Done 0
  else
    c0 ← (if ulContentSize =? sizeof_ULONG + 1 then buf_get p 0 else Done 0);
    if 143 <? c0 then Done 0
    else
      for_from 0 (Z.to_nat ulContentSize) (fun i tmp =>
        c ← buf_get p i;
        Done (ULONG (tmp + times_128 (Z.to_nat (ulContentSize - i - 1)) (Z.land c 127)))) 0.

(** ** Encoding *)

Fixpoint sub_oid_sizes (l : list Z) (ulSize : Z) : outcome Z :=
  match l with
  | [] => Done ulSize
  | a :: l => s ← GetSizeOfEncodedASN1SubOID a; sub_oid_sizes l (ULONG (ulSize + s))
  end.
(** One byte is counted for the first two arcs. *)
Definition AnscAsn1OIDGetSizeOfEncoded (o : ANSC_ASN1_OIDEN) : outcome Z :=
  if oid_bOptional o then Done 0
  else
    b ← AnscAsn1OIDGetOIDBuffer o;
    ulSize ← (if 0 <? oid_uLength o then d ← read_bytes b (oid_uLength o); sub_oid_sizes (drop 2 d) 1 else Done 0);
    AttrListGetSizeOfEncoded (oid_attrs o) ulSize 1.

Fixpoint encode_arcs (l : list Z) (m : list Z) (p : Z) : outcome (list Z * Z) :=
  match l with
  | [] => Done (m, p)
  | a :: l => '(m, p) ← EncodeASN1SubOID m p a; encode_arcs l m p
  end.
Definition write_oid (o : ANSC_ASN1_OIDEN) (m : list Z) (p : Z) : outcome (list Z * Z) :=
  b ← AnscAsn1OIDGetOIDBuffer o;
  if 0 <? oid_uLength o then
    a0 ← buf_get b 0;
    '(m, p) ← (if oid_uLength o =? 1 then EncodeASN1SubOID m p (ULONG (a0 * 40))
               else a1 ← buf_get b 1; EncodeASN1SubOID m p (ULONG (a0 * 40 + a1)));
    d ← read_bytes b (oid_uLength o);
    encode_arcs (drop 2 d) m p
  else Done (m, p).

Definition AnscAsn1OIDEncodingData (o : ANSC_ASN1_OIDEN) (m : list Z) (p : Z) : outcome (asn1_status * (list Z * Z)) :=
  if oid_bOptional o then Done (ASN1_SUCCESS, (m, p))
  else
    size ← AnscAsn1OIDGetSizeOfEncoded o;
    if size <? 0 then Done (ANSC_ASN1_NOT_READY_TO_ENCODE, (m, p))
    else
      '(st, (m, q, bTagIncluded, uLeftSize)) ←
        AttrListEncodingData (oid_attrs o) m p (ULONG size) (AnscAsn1IsConstructive ASN1_OID_TYPE);
      if negb (bool_decide (st = ASN1_SUCCESS)) then Done (st, (m, p))
      else
        '(st, (m, q)) ← (if bTagIncluded : bool then
            m ← buf_put m q (AnscAsn1GetFirstOctet ASN1_OID_TYPE);
            iEncodedLength ← GetPureEncodedLength (ULONG (uLeftSize - 1));
            if INT iEncodedLength <? 0 then Done (ANSC_ASN1_NOT_READY_TO_ENCODE, (m, q + 1))
            else r ← EncodeLength m (q + 1) (ULONG (INT iEncodedLength)); Done (ASN1_SUCCESS, r)
          else Done (ASN1_SUCCESS, (m, q)));
        if negb (bool_decide (st = ASN1_SUCCESS)) then Done (st, (m, p))
        else '(m, q) ← write_oid o m q; Done (ASN1_SUCCESS, (m, q)).

#[export] Instance oid_object : Asn1Object ANSC_ASN1_OIDEN :=
  {| GetSizeOfEncoded := AnscAsn1OIDGetSizeOfEncoded; EncodingData := AnscAsn1OIDEncodingData |}.

(** ** Decoding *)

(** The array gets a new block when the number of arcs is a multiple of its depth. *)
Definition grow (o : ANSC_ASN1_OIDEN) (counter : Z) : outcome ANSC_ASN1_OIDEN :=
  if negb (counter =? 0) && (counter mod MAXIMUM_OID_DEPTH =? 0) then
    old ← (match pAdvOID o with
           | NoBuffer => read_bytes (pOIDChain o) MAXIMUM_OID_DEPTH
           | b => read_buffer b counter
           end);
    b ← buf_copy (replicate (Z.to_nat (counter + MAXIMUM_OID_DEPTH)) 0) 0 old;
    Done (set_pAdvOID o (Buffer b))
  else Done o.

(** The number of octets of an arc: [while (p[n - 1] & 0x80) n++], from 1. *)
Definition sub_oid_octets (p : list Z) : outcome Z := n ← tag_octets p (S (length p)) 0; Done (n + 1).

(** The object, the number of arcs and the rest of the data. *)
Fixpoint decode_arcs (fuel : nat) (o : ANSC_ASN1_OIDEN) (p : list Z) (ulOctetsLeft counter : Z) :
    outcome (asn1_status * ANSC_ASN1_OIDEN * Z * list Z) :=
  match fuel with
  | O => Stuck Diverge
  | S fuel =>
      if ulOctetsLeft =? 0 then Done (ASN1_SUCCESS, o, counter, p)
      else
        n ← sub_oid_octets p;
        if sizeof_ULONG + 1 <? n then Done (ANSC_ASN1_INVALID_VALUE, o, counter, p)
        else
          c0 ← (if n =? sizeof_ULONG + 1 then buf_get p 0 else Done 0);
          if 143 <? c0 then Done (ANSC_ASN1_INVALID_VALUE, o, counter, p)
          else
            o ← grow o counter;
            v ← GetULONGFromOID p n;
            b ← AnscAsn1OIDGetOIDBuffer o;
            b ← buf_put b counter v;
            '(st, b, counter) ←
              (if counter =? 0 then
                 if 80 <=? v then
                   if 120 <=? v then Done (ANSC_ASN1_BAD_OID_VALUE, b, counter)
                   else b ← buf_put b 1 (v - 80); b ← buf_put b 0 2; Done (ASN1_SUCCESS, b, counter + 1)
                 else b ← buf_put b 1 (v mod 40); b ← buf_put b 0 (v / 40); Done (ASN1_SUCCESS, b, counter + 1)
               else Done (ASN1_SUCCESS, b, counter));
            let o := set_OIDBuffer o b in
            if negb (bool_decide (st = ASN1_SUCCESS)) then Done (st, o, counter, p)
            else
              let counter := counter + 1 in
              let p := drop (Z.to_nat n) p in
              if ulOctetsLeft <? n then Done (ANSC_ASN1_INVALID_ENCODE_LENGTH, o, counter, p)
              else decode_arcs fuel o p (ulOctetsLeft - n) counter
  end.

(** The object after the call, and the rest of the data if it succeeds.  The
    tag of the value is looked for where the data begins. *)
Definition AnscAsn1OIDDecodingData (o : ANSC_ASN1_OIDEN) (enc : list Z) : outcome (asn1_status * ANSC_ASN1_OIDEN * list Z) :=
  '(st, (p, bTagIncluded, uLeftSize, uInfiniteTags)) ← AttrListDecodingData (oid_attrs o) enc;
  if negb (bool_decide (st = ASN1_SUCCESS)) then Done (st, o, enc)
  else
    '(st, (p, uLeftSize)) ←
      (if bTagIncluded : bool then
         '(st, t) ← AnscTagInfoParsingData AnscTagInfoCreate enc;
         if negb (bool_decide (st = ASN1_SUCCESS)) then Done (st, (enc, uLeftSize))
         else if negb (FirstOctetOfTag t =? AnscAsn1GetFirstOctet ASN1_OID_TYPE) then Done (ANSC_ASN1_UNEXPECTED_TAG, (enc, uLeftSize))
         else if negb (ulSizeOfTag t =? 1) then Done (ANSC_ASN1_UNACCEPTABLE_VALUE_SIZE, (enc, uLeftSize))
         else if bIsInfinite t then Done (ANSC_ASN1_INVALID_ENCODE_LENGTH, (enc, uLeftSize))
         else Done (ASN1_SUCCESS, (drop (Z.to_nat (1 + ulSizeOfLength t)) enc, ULONG (ulContentLength t)))
       else Done (ASN1_SUCCESS, (p, uLeftSize)));
    if negb (bool_decide (st = ASN1_SUCCESS)) then Done (st, o, enc)
    else if 0 <? uInfiniteTags then Done (ANSC_ASN1_INVALID_ENCODE_LENGTH, o, enc)
    else if uLeftSize =? 0 then
      Done (ASN1_SUCCESS, AsnOid (oid_attrs o) false (oid_bCanBeOptional o) 0 (pOIDChain o) (pAdvOID o), p)
    else if 4000 <? uLeftSize then Done (ANSC_ASN1_UNACCEPTABLE_VALUE_SIZE, set_uLength o 0, enc)
    else
      '(st, o, counter, p) ← decode_arcs (S (Z.to_nat uLeftSize)) o p uLeftSize 0;
      if negb (bool_decide (st = ASN1_SUCCESS)) then Done (st, o, enc)
      else Done (ASN1_SUCCESS, AsnOid (oid_attrs o) false (oid_bCanBeOptional o) counter (pOIDChain o) (pAdvOID o), p).

(** ** Values *)

(** [pOIDArray] is NULL or an array with its size; the result of the copy to
    the caller's array, and the size. *)
Definition AnscAsn1OIDGetOIDValue (o : ANSC_ASN1_OIDEN) (pOIDArray : option (list Z)) (size : Z) :
    outcome (asn1_status * option (list Z) * Z) :=
  match pOIDArray with
  | None => Done (ASN1_SUCCESS, None, oid_uLength o)
  | Some a =>
      if size <? oid_uLength o then Done (ANSC_ASN1_NO_ENOUGH_SIZE, Some a, oid_uLength o)
      else
        b ← AnscAsn1OIDGetOIDBuffer o;
        d ← read_bytes b (oid_uLength o);
        a ← buf_copy a 0 d;
        Done (ASN1_SUCCESS, Some a, oid_uLength o)
  end.

(** A block that is freed stays in [pAdvOID] when no new one is needed. *)
Definition AnscAsn1OIDSetOIDValue (o : ANSC_ASN1_OIDEN) (pOIDArray : option (list Z)) (uSize : Z) :
    outcome (asn1_status * ANSC_ASN1_OIDEN) :=
  match pOIDArray with
  | None => Done (ASN1_SUCCESS, set_uLength o 0)
  | Some a =>
      if uSize =? 0 then Done (ASN1_SUCCESS, set_uLength o 0)
      else
        a0 ← buf_get a 0;
        if 2 <? a0 then Done (ANSC_ASN1_INVALID_VALUE, o)
        else
          _ ← free_buffer (pAdvOID o);
          let o := set_uLength (set_pAdvOID o (match pAdvOID o with NoBuffer => NoBuffer | _ => Freed end)) uSize in
          let o := if MAXIMUM_OID_DEPTH <? uSize then set_pAdvOID o (Buffer (replicate (Z.to_nat uSize) 0)) else o in
          d ← read_bytes a uSize;
          b ← AnscAsn1OIDGetOIDBuffer o;
          b ← buf_copy b 0 d;
          Done (ASN1_SUCCESS, set_OIDBuffer o b)
  end.

Definition AnscAsn1OIDFree (o : ANSC_ASN1_OIDEN) : outcome unit := free_buffer (pAdvOID o).

(** ** Texts *)

Definition is_digit_char (c : Z) : bool := (48 <=? c) && (c <=? 57).
(** The scan of the text; a space becomes a point in the caller's text. *)
Fixpoint oid_text_valid (s : cstr) (bIsPreviousAChar : bool) : bool * cstr :=
  match s with
  | [] => (true, [])
  | c :: r =>
      if bIsPreviousAChar then
        if negb (is_digit_char c) then (false, c :: r)
        else let '(ok, r) := oid_text_valid r false in (ok, c :: r)
      else if negb (is_digit_char c) then
        let c := if c =? 32 then 46 else c in
        if negb (c =? 46) || bool_decide (r = []) then (false, c :: r)
        else let '(ok, r) := oid_text_valid r true in (ok, c :: r)
      else let '(ok, r) := oid_text_valid r false in (ok, c :: r)
  end.
(** [AnscString2Int] is [atoi]. *)
Definition put_arc (pArray : option (list Z)) (counter : Z) (pValue : cstr) : outcome (option (list Z)) :=
  match pArray with None => Done None | Some a => Some <$> buf_put a counter (ULONG (INT (atoi pValue))) end.
(** The loop over the copy of the text; [pValue] is the arc it is in. *)
Fixpoint oid_text_arcs (pBack pValue : cstr) (pArray : option (list Z)) (counter : Z) : outcome (option (list Z) * Z) :=
  match pBack with
  | [] => a ← put_arc pArray counter pValue; Done (a, counter + 1)
  | c :: r =>
      if c =? 46 then a ← put_arc pArray counter pValue; oid_text_arcs r [] a (counter + 1)
      else oid_text_arcs r (pValue ++ [c]) pArray counter
  end.
Definition ParsingOIDStringValue (pInput : cstr) (pArray : option (list Z)) (length : Z) :
    outcome (bool * cstr * option (list Z) * Z) :=
  if strlen pInput <? 3 then Done (false, pInput, pArray, length)
  else
    let '(ok, text) := oid_text_valid pInput true in
    if ok then '(a, n) ← oid_text_arcs pInput [] pArray 0; Done (true, text, a, n)
    else Done (false, text, pArray, length).

(** The result, the caller's text and the object. *)
Definition AnscAsn1OIDSetStringOIDValue (o : ANSC_ASN1_OIDEN) (pOIDString : cstr) :
    outcome (asn1_status * cstr * ANSC_ASN1_OIDEN) :=
  '(ok, text, _, uSize) ← ParsingOIDStringValue pOIDString None MAXIMUM_OID_DEPTH;
  if negb ok then Done (ANSC_ASN1_INVALID_VALUE, text, o)
  else if uSize <? 1 then Done (ANSC_ASN1_INVALID_VALUE, text, o)
  else
    let adv := MAXIMUM_OID_DEPTH <? uSize in
    let o := if adv then set_pAdvOID o (Buffer (replicate (Z.to_nat uSize) 0)) else o in
    let a := if adv then replicate (Z.to_nat uSize) 0 else pOIDChain o in
    '(_, text, a, uSize) ← ParsingOIDStringValue text (Some a) uSize;
    let a := default [] a in
    let o := if adv then set_pAdvOID o (Buffer a)
             else AsnOid (oid_attrs o) (oid_bOptional o) (oid_bCanBeOptional o) (oid_uLength o) a (pAdvOID o) in
    a0 ← buf_get a 0;
    if 2 <? a0 then Done (ANSC_ASN1_INVALID_VALUE, text, o)
    else Done (ASN1_SUCCESS, text, set_uLength o uSize).

(** The digits of an arc are written to a buffer of sixteen bytes first. *)
Fixpoint export_arcs (l : list Z) (m : list Z) (index : Z) : outcome (list Z) :=
  match l with
  | [] => Done m
  | a :: l =>
      t ← AnscGetUlongString a (replicate 16 0);
      match buf_cstr t with
      | None => Stuck OutOfBounds
      | Some s =>
          m ← buf_copy m index s;
          let index := index + strlen s in
          m ← buf_put m index (if bool_decide (l ≠ []) then 46 else 0);
          export_arcs l m (index + 1)
      end
  end.
Definition ExportOIDValueToString (pArray : list Z) (ulength : Z) (pBuffer : list Z) : outcome (bool * list Z) :=
  if ulength =? 0 then Done (false, pBuffer)
  else d ← read_bytes pArray ulength; m ← export_arcs d pBuffer 0; Done (true, m).
Definition AnscAsn1OIDGetOIDStringValue (o : ANSC_ASN1_OIDEN) (pBuffer : list Z) : outcome (bool * list Z) :=
  b ← AnscAsn1OIDGetOIDBuffer o; ExportOIDValueToString b (oid_uLength o) pBuffer.
Definition AnscAsn1OIDGetStringOIDValue (o : ANSC_ASN1_OIDEN) (pStringValue : list Z) : outcome (bool * list Z) :=
  b ← AnscAsn1OIDGetOIDBuffer o; ExportOIDValueToString b (oid_uLength o) pStringValue.

(** The text of the object is written over the argument, and compared with an
    empty one. *)
Definition AnscAsn1OIDEqualToOIDString (o : ANSC_ASN1_OIDEN) (pOIDString : list Z) : outcome (bool * list Z) :=
  let pValue := [] in
  '(ok, m) ← AnscAsn1OIDGetStringOIDValue o pOIDString;
  if negb ok then Done (false, m)
  else match buf_cstr m with
       | None => Stuck OutOfBounds
       | Some s => Done (AnscEqualString1 (Some s) (Some pValue) false, m)
       end.

End oid.
