(* ===== verification/DerOidThms.v ===== *)
(** * Object identifiers, encoded and decoded

    An identifier that is set is encoded with all its arcs, in the array or in
    a block, and decoded with them if and only if its contents have at most 4000
    octets and no arc has more bits than the decoder accepts.  Its second arc is
    below 40, and its attributes leave its tag where the decoder looks for it;
    [oid_faults] has what happens elsewhere. *)

From S2P Require Import Prelude CStrings IpAddr Checksum Asn1 DerLength DerHeader DerTag DerAttrs DerInt DerOid.
Open Scope Z_scope.

(** ** Digits, from the last *)

Fixpoint high7 (n : nat) (u : Z) : list Z :=
  match n with O => [] | S n => high7 n (u / 128) ++ [u mod 128 + 128] end.

Lemma high7_head n u : high7 (S n) u = (u / 128 ^ Z.of_nat n) mod 128 + 128 :: high7 n u.
Proof.
  revert u. induction n as [|n IH]; intros u.
  - cbn. by rewrite Z.div_1_r.
  - change (high7 (S (S n)) u) with (high7 (S n) (u / 128) ++ [u mod 128 + 128]). rewrite IH.
    change (high7 (S n) u) with (high7 n (u / 128) ++ [u mod 128 + 128]).
    rewrite Z.div_div by (try apply pow128_pos; lia). by rewrite <-pow128_succ.
Qed.

Lemma digits7_last n u : digits7 (S n) u = high7 n (u / 128) ++ [u mod 128].
Proof.
  induction n as [|n IH]; [cbn; by rewrite Z.div_1_r, Z.add_0_r|].
  change (digits7 (S (S n)) u) with ((u / 128 ^ Z.of_nat (S n)) mod 128 + 128 :: digits7 (S n) u).
  rewrite IH, high7_head, Z.div_div by (try apply pow128_pos; lia). by rewrite <-pow128_succ.
Qed.

Lemma length_high7 n u : length (high7 n u) = n.
Proof. revert u. induction n as [|n IH]; intros u; cbn; [done|]. rewrite length_app, IH. cbn. lia. Qed.

(** ** Writing an arc *)

Lemma sub_oid_digits_spec n first u pre old post : length old = n -> 0 <= u ->
  sub_oid_digits n first (pre ++ old ++ post) (Zlen pre) u =
    Done (pre ++ (if first then digits7 n u else high7 n u) ++ post).
Proof.
  revert first u old post. induction n as [|n IH]; intros first u old post Ho Hu.
  { destruct old; [|done]. by destruct first. }
  cbn [sub_oid_digits].
  destruct old as [|x old' _] using rev_ind; [done|]. rewrite length_app in Ho. cbn in Ho.
  assert (Hm : 0 <= u mod 128 < 128) by (apply Z.mod_pos_bound; lia).
  assert (Hd : UCHAR (u mod 128) = u mod 128) by (unfold UCHAR; apply Z.mod_small; lia).
  rewrite Hd. set (d := if first then _ else _). rewrite <-!app_assoc. cbn [app].
  rewrite (app_assoc pre old'). rewrite buf_put_at by (rewrite length_app; lia). cbn [mbind outcome_bind].
  rewrite <-app_assoc, IH by (lia || apply Z.div_pos; lia).
  do 2 f_equal. destruct first; subst d.
  - rewrite digits7_last, <-app_assoc. done.
  - cbn [high7]. rewrite <-app_assoc, lor_128 by lia. done.
Qed.

Lemma count_128_spec fuel u c : 0 <= u < 128 ^ Z.of_nat fuel ->
  count_128 (S fuel) u c = Done (c + if u =? 0 then 0 else ndigits u).
Proof.
  revert u c. induction fuel as [|fuel IH]; intros u c Hu; cbn [count_128].
  { destruct (Z.eqb_spec u 0); [by rewrite Z.add_0_r|]. cbn in Hu. lia. }
  destruct (Z.eqb_spec u 0); [by rewrite Z.add_0_r|]. rewrite pow128_succ in Hu.
  change (if u / 128 =? 0 then Done (c + 1) else count_128 fuel (u / 128 / 128) (c + 1 + 1))
    with (count_128 (S fuel) (u / 128) (c + 1)).
  rewrite IH by (split; [apply Z.div_pos; lia|apply Z.div_lt_upper_bound; lia]). f_equal.
  destruct (Z.eqb_spec (u / 128) 0) as [E|E].
  - rewrite (ndigits_range u 1); [lia| |lia]. cbn. Z.to_euclidean_division_equations; lia.
  - assert (128 <= u) by (Z.to_euclidean_division_equations; lia).
    unfold ndigits. change 128 with (2 ^ 7). rewrite <-Z.shiftr_div_pow2, Z.log2_shiftr by lia.
    assert (7 <= Z.log2 u) by (apply Z.log2_le_pow2; cbn; lia). rewrite Z.max_r by lia.
    replace (Z.log2 u) with (Z.log2 u - 7 + 1 * 7) at 2 by lia. rewrite Z.div_add by lia. lia.
Qed.

Section arcs.
Context `{Platform}.

Definition is_ulong (u : Z) : Prop := 0 <= u < 2 ^ ulong_bits.

Lemma ulong_128 u : is_ulong u -> 0 <= u < 128 ^ Z.of_nat 10.
Proof. unfold is_ulong. destruct sizeof_cases as [[_ ->] | [_ ->]]; cbn; lia. Qed.

Lemma GetSizeOfEncodedASN1SubOID_spec u : is_ulong u -> GetSizeOfEncodedASN1SubOID u = Done (ndigits u).
Proof.
  intros Hu. unfold GetSizeOfEncodedASN1SubOID. destruct (Z.eqb_spec u 0) as [->|]; [done|].
  rewrite (count_128_spec 10) by (by apply ulong_128). by destruct (Z.eqb_spec u 0).
Qed.

Lemma EncodeASN1SubOID_writes u : is_ulong u ->
  writes (fun m p => EncodeASN1SubOID m p u) (base128 u) (Zlen (base128 u)).
Proof.
  intros Hu pre rest Hr. unfold EncodeASN1SubOID. rewrite (count_128_spec 10) by (by apply ulong_128).
  cbn [mbind outcome_bind]. replace ((if u =? 0 then 1 else 0) + (if u =? 0 then 0 else ndigits u)) with (ndigits u)
    by (destruct (Z.eqb_spec u 0) as [->|]; done).
  rewrite length_base128 in Hr. pose proof (ndigits_pos u).
  pose proof (sub_oid_digits_spec (Z.to_nat (ndigits u)) true u pre (take (Z.to_nat (ndigits u)) rest)
    (drop (Z.to_nat (ndigits u)) rest)) as E. rewrite take_drop in E.
  rewrite E by (rewrite ?length_take; unfold is_ulong in Hu; lia). cbn [mbind outcome_bind]. fold (base128 u).
  exists (drop (Z.to_nat (ndigits u)) rest). rewrite length_app, length_drop, Nat2Z.inj_add, length_base128.
  split; [done|lia].
Qed.

(** ** Reading an arc *)

(** What the decoder takes for an arc: all of an unsigned long of 32 bits, and
    60 bits of one of 64. *)
Definition arc_limit : Z := 16 * 128 ^ sizeof_ULONG.
Definition arc_ok (u : Z) : Prop := 0 <= u < arc_limit.

Lemma arc_ok_ulong u : arc_ok u -> is_ulong u.
Proof. unfold arc_ok, arc_limit, is_ulong. destruct sizeof_cases as [[-> ->] | [-> ->]]; cbn; lia. Qed.

Lemma base128_shape u : exists mid, base128 u = mid ++ [u mod 128] /\
  Forall (fun x => 128 <= x < 256) mid /\ Zlen mid = ndigits u - 1.
Proof.
  pose proof (ndigits_pos u). unfold base128. replace (Z.to_nat (ndigits u)) with (S (Z.to_nat (ndigits u - 1))) by lia.
  destruct (digits7_shape (Z.to_nat (ndigits u - 1)) u) as (mid & E & Hm & Hl). exists mid. split_and!; [done..|lia].
Qed.

Lemma base128_bytes u : Forall is_byte (base128 u).
Proof.
  destruct (base128_shape u) as (mid & -> & Hm & _). rewrite Forall_app, Forall_singleton. split.
  - eapply Forall_impl; [exact Hm|]. unfold is_byte. cbn. lia.
  - unfold is_byte. pose proof (Z.mod_pos_bound u 128). lia.
Qed.

Lemma sub_oid_octets_spec u r : sub_oid_octets (base128 u ++ r) = Done (ndigits u).
Proof.
  destruct (base128_shape u) as (mid & E & Hm & Hl). unfold sub_oid_octets. rewrite E, <-app_assoc. cbn [app].
  rewrite (tag_octets_spec [] mid (u mod 128) r); [cbn [mbind outcome_bind]; f_equal; lia| | | |lia|].
  - eapply Forall_impl; [exact Hm|]. intros x Hx. by apply high_bit.
  - apply land_128_low. pose proof (Z.mod_pos_bound u 128). lia.
  - rewrite length_app. cbn. lia.
  - intros k Hk. cbn [app]. change (Z.to_nat 0 + k)%nat with k. change (u mod 128 :: r) with ([u mod 128] ++ r).
    rewrite app_assoc, lookup_app_l; [done|]. rewrite length_app. cbn. lia.
Qed.

Lemma arc_octets u r : arc_ok u ->
  ndigits u <= sizeof_ULONG + 1 /\
  exists c, (if ndigits u =? sizeof_ULONG + 1 then buf_get (base128 u ++ r) 0 else Done 0) = Done c /\ c <= 143.
Proof.
  intros Hu. unfold arc_ok, arc_limit in Hu. assert (Hs : 0 <= sizeof_ULONG) by (destruct sizeof_cases as [[-> _] | [-> _]]; lia).
  assert (Hn : ndigits u <= sizeof_ULONG + 1).
  { destruct (Z.eq_dec u 0) as [->|]; [change (ndigits 0) with 1; lia|]. pose proof (ndigits_spec u ltac:(lia)) as [Hl _].
    enough (ndigits u - 1 < sizeof_ULONG + 1) by lia. apply (Z.pow_lt_mono_r_iff 128); [lia|lia|].
    rewrite Z.pow_add_r by lia. lia. }
  split; [done|]. destruct (Z.eqb_spec (ndigits u) (sizeof_ULONG + 1)) as [E|]; [|by exists 0].
  unfold base128. rewrite E. replace (Z.to_nat (sizeof_ULONG + 1)) with (S (Z.to_nat sizeof_ULONG)) by lia.
  cbn [digits7]. eexists. split; [done|]. rewrite Z2Nat.id by lia.
  assert (0 < 128 ^ sizeof_ULONG) by (apply Z.pow_pos_nonneg; lia).
  assert (u / 128 ^ sizeof_ULONG < 16) by (apply Z.div_lt_upper_bound; lia).
  assert (0 <= u / 128 ^ sizeof_ULONG) by (apply Z.div_pos; lia). rewrite Z.mod_small by lia. case_match; lia.
Qed.

Lemma GetULONGFromOID_spec u r : arc_ok u -> GetULONGFromOID (base128 u ++ r) (ndigits u) = Done u.
Proof.
  intros Hu. destruct (arc_octets u r Hu) as (Hn & c & Ec & Hc). unfold GetULONGFromOID.
  destruct (Z.ltb_spec (sizeof_ULONG + 1) (ndigits u)); [lia|]. rewrite Ec. cbn [mbind outcome_bind].
  destruct (Z.ltb_spec 143 c); [lia|]. pose proof (length_base128 u) as El.
  pose proof (class_sum 0 (base128 u) r) as E. rewrite value7_base128 in E by (unfold arc_ok in Hu; lia).
  rewrite El in E. replace (Z.to_nat (ndigits u)) with (length (base128 u)) by lia.
  rewrite ULONG_small in E by (by apply arc_ok_ulong). etransitivity; [|exact E].
  apply for_from_ext_range. intros j acc Hj. f_equal.
  destruct (lookup_lt_is_Some_2 (base128 u ++ r) (Z.to_nat j)) as [x Hx]; [rewrite length_app; lia|].
  rewrite (buf_get_Z _ j x), (buf_get_Z _ (j + 1) x); [done| | |lia|done].
  - lia.
  - replace (Z.to_nat (j + 1)) with (S (Z.to_nat j)) by lia. done.
Qed.

(** An arc that is refused has too many octets, or too large a first one. *)
Lemma large_arc_octets u r : is_ulong u -> ~ arc_ok u ->
  sizeof_ULONG + 1 < ndigits u \/
  (ndigits u = sizeof_ULONG + 1 /\ exists c, buf_get (base128 u ++ r) 0 = Done c /\ 143 < c).
Proof.
  intros Hu Hno. unfold is_ulong in Hu.
  assert (Hlim : arc_limit <= u) by (unfold arc_ok in Hno; lia). unfold arc_limit in Hlim.
  assert (Hs : 0 <= sizeof_ULONG) by (destruct sizeof_cases as [[-> _] | [-> _]]; lia).
  assert (Hp : 0 < 128 ^ sizeof_ULONG) by (apply Z.pow_pos_nonneg; lia).
  destruct (ndigits_spec u ltac:(lia)) as [_ Hh]. pose proof (ndigits_pos u).
  assert (Hn : sizeof_ULONG < ndigits u) by (apply (Z.pow_lt_mono_r_iff 128); lia).
  destruct (Z.eq_dec (ndigits u) (sizeof_ULONG + 1)) as [E|]; [right|left; lia]. split; [done|].
  rewrite E, Z.pow_add_r in Hh by lia. unfold base128. rewrite E.
  replace (Z.to_nat (sizeof_ULONG + 1)) with (S (Z.to_nat sizeof_ULONG)) by lia.
  cbn [digits7]. eexists. split; [done|]. rewrite Z2Nat.id by lia.
  assert (16 <= u / 128 ^ sizeof_ULONG) by (apply Z.div_le_lower_bound; lia).
  assert (u / 128 ^ sizeof_ULONG < 128) by (apply Z.div_lt_upper_bound; lia). rewrite Z.mod_small by lia.
  assert (Hpos : 4 <= sizeof_ULONG) by (destruct sizeof_cases as [[-> _] | [-> _]]; lia).
  destruct (Nat.eqb_spec (Z.to_nat sizeof_ULONG) 0); lia.
Qed.

#[export] Instance arc_ok_dec u : Decision (arc_ok u).
Proof. unfold arc_ok. apply _. Defined.

(** ** The contents *)

Definition oid_contents (l : list Z) : list Z :=
  match l with
  | a0 :: a1 :: t => base128 (a0 * 40 + a1) ++ concat (base128 <$> t)
  | _ => []
  end.

(** An identifier: its first two arcs share a number below 120. *)
Definition oid_ok (l : list Z) : Prop :=
  exists a0 a1 t, l = a0 :: a1 :: t /\ 0 <= a0 <= 2 /\ 0 <= a1 < 40 /\ Forall is_ulong t.
(** What the decoder accepts of it. *)
Definition oid_readable (l : list Z) : Prop := Zlen (oid_contents l) <= 4000 /\ Forall arc_ok (drop 2 l).

Lemma sub_oid_sizes_spec t n : Forall is_ulong t -> 0 <= n -> n + Zlen (concat (base128 <$> t)) < 2147483648 ->
  sub_oid_sizes t n = Done (n + Zlen (concat (base128 <$> t))).
Proof.
  intros Ht. revert n. induction Ht as [|u t Hu Ht IH]; intros n Hn Hb; cbn [sub_oid_sizes]; [cbn; f_equal; lia|].
  rewrite fmap_cons in *. cbn [concat] in *. rewrite length_app, Nat2Z.inj_add, length_base128 in *.
  rewrite GetSizeOfEncodedASN1SubOID_spec by done. cbn [mbind outcome_bind].
  pose proof (ndigits_pos u). rewrite ULONG_small32 by lia. rewrite IH by lia. f_equal. lia.
Qed.

Lemma encode_arcs_writes t : Forall is_ulong t ->
  writes (encode_arcs t) (concat (base128 <$> t)) (Zlen (concat (base128 <$> t))).
Proof.
  induction 1 as [|u t Hu Ht IH]; [apply writes_nothing|].
  change (concat (base128 <$> u :: t)) with (base128 u ++ concat (base128 <$> t)). cbn [encode_arcs].
  apply (writes_app (fun m p => EncodeASN1SubOID m p u) (encode_arcs t)); [|done].
  by apply EncodeASN1SubOID_writes.
Qed.

End arcs.

(** ** Objects, encoded *)

Section encoding.
Context `{Platform}.

Definition oid_tlv (attrs : attr_list) (l : list Z) : list Z := nest false 6 (oid_contents l) attrs true.

(** An object whose arcs are [l], with attributes and contents that the lengths
    have room for. *)
Definition oid_encodable (attrs : attr_list) (l : list Z) : Prop :=
  oid_ok l /\ Forall (attr_ok false) attrs /\ Zlen (oid_tlv attrs l) < 65536.
Definition has_arcs (o : ANSC_ASN1_OIDEN) (l : list Z) : Prop :=
  oid_bOptional o = false /\ oid_uLength o = Zlen l /\ exists x, AnscAsn1OIDGetOIDBuffer o = Done (l ++ x).

Lemma first_arcs a0 a1 : 0 <= a0 <= 2 -> 0 <= a1 < 40 -> ndigits (a0 * 40 + a1) = 1.
Proof.
  intros. destruct (Z.eq_dec (a0 * 40 + a1) 0) as [->|]; [done|]. apply ndigits_range; [|lia].
  change (128 ^ (1 - 1)) with 1. change (128 ^ 1) with 128. lia.
Qed.

Lemma oid_encodable_fits attrs l : oid_encodable attrs l ->
  fits false 6 (oid_contents l) attrs /\ 1 <= Zlen (oid_contents l) < 65536.
Proof.
  intros ((a0 & a1 & t & -> & H0 & H1 & Ht) & _ & Hs). unfold fits, oid_tlv in *.
  pose proof (nest_mono false 6 (oid_contents (a0 :: a1 :: t)) attrs).
  pose proof (nest_grows false 6 (oid_contents (a0 :: a1 :: t)) attrs true). split; [lia|]. split; [|lia].
  cbn [oid_contents]. rewrite length_app, Nat2Z.inj_add, length_base128, first_arcs by lia. lia.
Qed.

Lemma oid_size o l : has_arcs o l -> oid_encodable (oid_attrs o) l ->
  AnscAsn1OIDGetSizeOfEncoded o = Done (Zlen (oid_tlv (oid_attrs o) l)).
Proof.
  intros (Ho & Eu & x & Eb) He. destruct (oid_encodable_fits _ _ He) as [Hf Hl].
  destruct He as ((a0 & a1 & t & -> & H0 & H1 & Ht) & Ha & _).
  unfold AnscAsn1OIDGetSizeOfEncoded. rewrite Ho, Eb, Eu. cbn [mbind outcome_bind].
  destruct (Z.ltb_spec 0 (Zlen (a0 :: a1 :: t))); [|cbn in *; lia]. rewrite read_bytes_app. cbn [mbind outcome_bind].
  change (drop 2 (a0 :: a1 :: t)) with t. cbn [oid_contents] in Hl.
  rewrite length_app, Nat2Z.inj_add, length_base128, first_arcs in Hl by lia.
  rewrite sub_oid_sizes_spec by (done || lia). cbn [mbind outcome_bind].
  replace (1 + Zlen (concat (base128 <$> t))) with (Zlen (oid_contents (a0 :: a1 :: t))).
  2: { cbn [oid_contents]. by rewrite length_app, Nat2Z.inj_add, length_base128, first_arcs by lia. }
  by apply AttrListGetSizeOfEncoded_spec.
Qed.

Lemma write_oid_writes o l : oid_ok l -> has_arcs o l -> writes (write_oid o) (oid_contents l) (Zlen (oid_contents l)).
Proof.
  intros (a0 & a1 & t & -> & H0 & H1 & Ht) (_ & Eu & x & Eb).
  cbn [oid_contents]. eapply writes_ext; cycle 1.
  - apply (writes_app (fun m p => EncodeASN1SubOID m p (a0 * 40 + a1)) (encode_arcs t)).
    + apply EncodeASN1SubOID_writes. unfold is_ulong. pose proof ulong_modulus_ge. lia.
    + by apply encode_arcs_writes.
  - intros m p. unfold write_oid. rewrite Eb, Eu. cbn [mbind outcome_bind].
    destruct (Z.ltb_spec 0 (Zlen (a0 :: a1 :: t))); [|cbn in *; lia].
    destruct (Z.eqb_spec (Zlen (a0 :: a1 :: t)) 1); [cbn in *; lia|].
    rewrite read_bytes_app. change (buf_get ((a0 :: a1 :: t) ++ x) 0) with (Done a0).
    change (buf_get ((a0 :: a1 :: t) ++ x) 1) with (Done a1). cbn [mbind outcome_bind].
    rewrite ULONG_small32 by lia. done.
Qed.

Lemma oid_encodes o l : has_arcs o l -> oid_encodable (oid_attrs o) l -> encodes_as o (oid_tlv (oid_attrs o) l).
Proof.
  intros Ho He. split; [by apply oid_size|]. intros pre rest Hr. cbn [EncodingData oid_object].
  destruct (oid_encodable_fits _ _ He) as [Hf Hlc]. unfold AnscAsn1OIDEncodingData. rewrite (proj1 Ho), (oid_size o l Ho He).
  destruct He as (Hok & Ha & Hlen). cbn [mbind outcome_bind]. unfold oid_tlv in *. set (c := oid_contents l) in *.
  destruct (Z.ltb_spec (Zlen (nest false 6 c (oid_attrs o) true)) 0); [lia|]. rewrite ULONG_small32 by lia.
  change (AnscAsn1IsConstructive ASN1_OID_TYPE) with false. unfold AttrListEncodingData.
  destruct (encode_loop_writes false 6 c (oid_attrs o) true Ha Hlen pre rest ltac:(lia)) as (r1 & -> & E1).
  cbn [mbind outcome_bind]. rewrite bool_decide_true by done. cbn [negb].
  change (AnscAsn1GetFirstOctet ASN1_OID_TYPE) with 6.
  rewrite (nest_headers false 6 c (oid_attrs o) true) in *. set (hd := headers _ _ _ _ _) in *.
  set (b := own_tag (oid_attrs o) true) in *. rewrite app_assoc.
  destruct (core_writes 6 c _ b (write_oid_writes o l Hok Ho) ltac:(lia) (pre ++ hd) r1) as (r2 & E2 & El2);
    [rewrite length_app in Hr; lia|].
  exists r2. split; [|rewrite (length_app hd); lia].
  match type of E2 with ?x = _ => match goal with |- ?y = _ => assert (y = '(m, q) ← x; Done (ASN1_SUCCESS, (m, q))) as -> end end.
  { destruct b; [|done]. rewrite length_core. destruct (buf_put _ _ _); [|done]. cbn [mbind outcome_bind].
    pose proof (length_der_length_le (Zlen c) ltac:(lia)).
    replace (1 + Zlen (der_length (Zlen c)) + Zlen c - 1) with (Zlen c + Zlen (der_length (Zlen c))) by lia.
    rewrite ULONG_small32, GetPureEncodedLength_spec by lia. cbn [mbind outcome_bind].
    rewrite INT_small by lia. destruct (Z.ltb_spec (Zlen c) 0); [lia|]. rewrite ULONG_small32 by lia.
    by destruct (EncodeLength _ _ _) as [[]|]. }
  rewrite E2. cbn [mbind outcome_bind]. by rewrite <-!app_assoc.
Qed.

End encoding.

(** ** Objects, decoded *)

Section decoding.
Context `{Platform}.

(** While [o0] is decoded: the object has the arcs [l] so far, and its array or
    block has room up to the next multiple of sixteen. *)
Definition holds (o0 o : ANSC_ASN1_OIDEN) (l : list Z) : Prop :=
  oid_attrs o = oid_attrs o0 /\ oid_bCanBeOptional o = oid_bCanBeOptional o0 /\
  (pAdvOID o0 = NoBuffer -> Zlen l <= 16 -> pAdvOID o = NoBuffer) /\
  exists x, AnscAsn1OIDGetOIDBuffer o = Done (l ++ x) /\
    16 <= Zlen (l ++ x) /\ 16 * ((Zlen l + 15) / 16) <= Zlen (l ++ x) /\ (pAdvOID o = NoBuffer -> Zlen (l ++ x) = 16).

(** An object that can be decoded into: it has its array, or a block as large. *)
Definition decodable (o : ANSC_ASN1_OIDEN) : Prop := holds o o [].

Lemma new_decodable o : Zlen (pOIDChain o) = 16 -> pAdvOID o = NoBuffer -> decodable o.
Proof.
  intros Hc Ha. split_and!; [done|done|done|]. exists (pOIDChain o). unfold AnscAsn1OIDGetOIDBuffer. rewrite Ha. cbn [app].
  split_and!; [done|lia|change ((Zlen (@nil Z) + 15) / 16) with 0; lia|done].
Qed.

Lemma GetOIDBuffer_set o b : AnscAsn1OIDGetOIDBuffer (set_OIDBuffer o b) = Done b.
Proof. unfold set_OIDBuffer, AnscAsn1OIDGetOIDBuffer. by destruct (pAdvOID o). Qed.

Lemma set_OIDBuffer_fields o b :
  oid_attrs (set_OIDBuffer o b) = oid_attrs o /\ oid_bCanBeOptional (set_OIDBuffer o b) = oid_bCanBeOptional o /\
  (pAdvOID (set_OIDBuffer o b) = NoBuffer <-> pAdvOID o = NoBuffer).
Proof. unfold set_OIDBuffer. by destruct (pAdvOID o). Qed.

Lemma has_room (l x : list Z) : Zlen l < Zlen (l ++ x) -> exists y x', x = y :: x'.
Proof. rewrite length_app. destruct x as [|y x']; [cbn; lia|by eexists _, _]. Qed.

Lemma grow_spec o0 o l : holds o0 o l -> exists o' y x,
  grow o (Zlen l) = Done o' /\ oid_attrs o' = oid_attrs o0 /\ oid_bCanBeOptional o' = oid_bCanBeOptional o0 /\
  (pAdvOID o0 = NoBuffer -> Zlen l < 16 -> pAdvOID o' = NoBuffer) /\
  AnscAsn1OIDGetOIDBuffer o' = Done (l ++ y :: x) /\ 16 <= Zlen (l ++ y :: x) /\
  16 * ((Zlen l + 1 + 15) / 16) <= Zlen (l ++ y :: x) /\ (pAdvOID o' = NoBuffer -> Zlen (l ++ y :: x) = 16).
Proof.
  intros (Ea & Ec & Hadv & x & Eb & H16 & Hcap & Hno). unfold grow, MAXIMUM_OID_DEPTH.
  destruct (Z.eqb_spec (Zlen l) 0) as [E0|E0]; [|destruct (Z.eqb_spec (Zlen l mod 16) 0) as [Em|Em]]; cbn [negb andb].
  - destruct (has_room l x) as (y & x' & ->); [lia|]. exists o, y, x'. rewrite E0 in *. split_and!; try done.
    intros; apply Hadv; [done|lia].
  - assert (Eold : (match pAdvOID o with NoBuffer => read_bytes (pOIDChain o) 16 | b => read_buffer b (Zlen l) end) = Done l).
    { unfold AnscAsn1OIDGetOIDBuffer in Eb. destruct (pAdvOID o) eqn:E; [| |done].
      - injection Eb as Eb. rewrite Eb. specialize (Hno eq_refl).
        assert (Zlen l = 16) by (rewrite length_app in Hno; Z.to_euclidean_division_equations; lia).
        replace 16 with (Zlen l) by done. apply read_bytes_app.
      - injection Eb as ->. apply read_bytes_app. }
    rewrite Eold. cbn [mbind outcome_bind].
    pose proof (buf_copy_at [] (replicate (length l) 0) (replicate 16 0) l 0) as E.
    rewrite length_replicate in E. specialize (E ltac:(done) ltac:(done)). cbn [app] in E.
    rewrite <-replicate_add in E. replace (Z.to_nat (Zlen l + 16)) with (length l + 16)%nat by lia. rewrite E.
    cbn [mbind outcome_bind]. exists (set_pAdvOID o (Buffer (l ++ replicate 16 0))), 0, (replicate 15 0).
    unfold AnscAsn1OIDGetOIDBuffer, set_pAdvOID. cbn [oid_attrs oid_bCanBeOptional pAdvOID].
    change (0 :: replicate 15 0) with (replicate 16 0). rewrite length_app, length_replicate.
    split_and!; try done; [|lia|Z.to_euclidean_division_equations; lia]. intros _ ?. exfalso. Z.to_euclidean_division_equations; lia.
  - assert (Hc : 16 * ((Zlen l + 1 + 15) / 16) <= Zlen (l ++ x)).
    { etransitivity; [|exact Hcap]. clear -Em. Z.to_euclidean_division_equations; lia. }
    destruct (has_room l x) as (y & x' & ->); [clear -Em Hc; Z.to_euclidean_division_equations; lia|].
    exists o, y, x'. split_and!; try done. intros; apply Hadv; [done|lia].
Qed.

(** What a round of the loop reads before it stores the number. *)
Lemma decode_arcs_round fuel o u p left counter : arc_ok u -> 0 <= left ->
  decode_arcs (S fuel) o (base128 u ++ p) (ndigits u + left) counter =
    o ← grow o counter;
    b ← AnscAsn1OIDGetOIDBuffer o;
    b ← buf_put b counter u;
    '(st, b, counter) ←
      (if counter =? 0 then
         if 80 <=? u then
           if 120 <=? u then Done (ANSC_ASN1_BAD_OID_VALUE, b, counter)
           else b ← buf_put b 1 (u - 80); b ← buf_put b 0 2; Done (ASN1_SUCCESS, b, counter + 1)
         else b ← buf_put b 1 (u mod 40); b ← buf_put b 0 (u / 40); Done (ASN1_SUCCESS, b, counter + 1)
       else Done (ASN1_SUCCESS, b, counter));
    let o := set_OIDBuffer o b in
    if negb (bool_decide (st = ASN1_SUCCESS)) then Done (st, o, counter, base128 u ++ p)
    else decode_arcs fuel o p left (counter + 1).
Proof.
  intros Hu Hl. cbn [decode_arcs]. pose proof (ndigits_pos u) as Hp.
  destruct (Z.eqb_spec (ndigits u + left) 0); [lia|]. rewrite sub_oid_octets_spec. cbn [mbind outcome_bind].
  destruct (arc_octets u p Hu) as (Hn & c & -> & Hc). destruct (Z.ltb_spec (sizeof_ULONG + 1) (ndigits u)); [lia|].
  cbn [mbind outcome_bind]. destruct (Z.ltb_spec 143 c); [lia|].
  rewrite GetULONGFromOID_spec by done. cbn [mbind outcome_bind].
  rewrite drop_app_length' by (rewrite <-length_base128; lia).
  destruct (Z.ltb_spec (ndigits u + left) (ndigits u)); [lia|].
  replace (ndigits u + left - ndigits u) with left by lia. done.
Qed.

(** The first number gives two arcs. *)
Lemma decode_first fuel o0 a0 a1 p left : decodable o0 -> 0 <= a0 <= 2 -> 0 <= a1 < 40 -> 0 <= left -> exists o,
  decode_arcs (S fuel) o0 (base128 (a0 * 40 + a1) ++ p) (1 + left) 0 = decode_arcs fuel o p left 2 /\ holds o0 o [a0; a1].
Proof.
  intros (_ & _ & Hadv & x & Eb & H16 & _ & Hno) H0 H1 Hl. cbn [app] in *.
  assert (Hok : arc_ok (a0 * 40 + a1)).
  { unfold arc_ok, arc_limit. destruct sizeof_cases as [[-> _] | [-> _]]; cbn; lia. }
  rewrite <-(first_arcs a0 a1 H0 H1), decode_arcs_round by done. unfold grow. cbn [Z.eqb negb andb mbind outcome_bind].
  rewrite Eb. cbn [mbind outcome_bind]. destruct x as [|y0 [|y1 x]]; [cbn in H16; lia..|].
  assert (Hput : forall (z0 z1 v : Z), buf_put (z0 :: z1 :: x) 0 v = Done (v :: z1 :: x) /\ buf_put (z0 :: z1 :: x) 1 v = Done (z0 :: v :: x)).
  { intros z0 z1 v. split; [apply (buf_put_at [] z0 (z1 :: x)); done|apply (buf_put_at [z0] z1 x); done]. }
  rewrite (proj1 (Hput y0 y1 _)). cbn [mbind outcome_bind].
  cbn [Z.eqb].
  match goal with |- context [if 80 <=? ?z then ?A else ?B] =>
    assert (Es : (if 80 <=? z then A else B) = Done (ASN1_SUCCESS, a0 :: a1 :: x, 0 + 1)) end.
  { destruct (Z.leb_spec 80 (a0 * 40 + a1)).
    - destruct (Z.leb_spec 120 (a0 * 40 + a1)); [lia|]. rewrite (proj2 (Hput _ _ _)). cbn [mbind outcome_bind].
      rewrite (proj1 (Hput _ _ _)). cbn [mbind outcome_bind]. repeat f_equal; lia.
    - rewrite (proj2 (Hput _ _ _)). cbn [mbind outcome_bind]. rewrite (proj1 (Hput _ _ _)). cbn [mbind outcome_bind].
      rewrite Z.div_add_l, Z.div_small by lia. rewrite (Z.add_comm (a0 * 40)), Z.mod_add, Z.mod_small by lia. repeat f_equal; lia. }
  rewrite Es. cbn [mbind outcome_bind]. rewrite bool_decide_true by done. cbn [negb]. eexists. split; [reflexivity|].
  destruct (set_OIDBuffer_fields o0 (a0 :: a1 :: x)) as (Ea & Ec & En). split_and!; [done|done| |].
  - intros ? _. by apply En.
  - exists x. rewrite GetOIDBuffer_set. change ((Zlen [a0; a1] + 15) / 16) with 1. cbn [app length] in *.
    split_and!; [done|lia|lia|].
    intros E. apply Hno. by apply En.
Qed.

Lemma decode_next fuel o0 o l u p left : holds o0 o l -> 1 <= Zlen l -> arc_ok u -> 0 <= left -> exists o',
  decode_arcs (S fuel) o (base128 u ++ p) (ndigits u + left) (Zlen l) = decode_arcs fuel o' p left (Zlen (l ++ [u])) /\
  holds o0 o' (l ++ [u]).
Proof.
  intros Ho Hl Hu Hp. rewrite decode_arcs_round by done.
  destruct (grow_spec o0 o l Ho) as (o1 & y & x & -> & Ea & Ec & Hadv & Eb & H16 & Hcap & Hno).
  cbn [mbind outcome_bind]. rewrite Eb. cbn [mbind outcome_bind]. rewrite buf_put_at by done. cbn [mbind outcome_bind].
  destruct (Z.eqb_spec (Zlen l) 0); [lia|]. cbn [mbind outcome_bind]. rewrite bool_decide_true by done. cbn [negb].
  assert (El : Zlen (l ++ [u]) = Zlen l + 1) by (rewrite length_app; cbn; lia). rewrite El.
  eexists. split; [reflexivity|].
  destruct (set_OIDBuffer_fields o1 (l ++ u :: x)) as (Ea' & Ec' & En). split_and!; [congruence|congruence| |].
  - intros. apply En, Hadv; [done|lia].
  - exists x. rewrite GetOIDBuffer_set, <-app_assoc, El. cbn [app].
    assert (Ex : Zlen (l ++ u :: x) = Zlen (l ++ y :: x)) by (rewrite !length_app; done). rewrite Ex.
    split_and!; [done|done|done|]. intros E. apply Hno. by apply En.
Qed.

Lemma decode_rest o0 t r : Forall arc_ok t -> forall fuel o l, (length t < fuel)%nat -> holds o0 o l -> 1 <= Zlen l -> exists o',
  decode_arcs fuel o (concat (base128 <$> t) ++ r) (Zlen (concat (base128 <$> t))) (Zlen l) =
    Done (ASN1_SUCCESS, o', Zlen (l ++ t), r) /\ holds o0 o' (l ++ t).
Proof.
  induction 1 as [|u t Hu Ht IH]; intros fuel o l Hf Ho Hl; (destruct fuel as [|fuel]; [cbn in Hf; lia|]).
  - exists o. rewrite app_nil_r. done.
  - change (concat (base128 <$> u :: t)) with (base128 u ++ concat (base128 <$> t)).
    rewrite length_app, Nat2Z.inj_add, length_base128, <-app_assoc.
    destruct (decode_next fuel o0 o l u (concat (base128 <$> t) ++ r) (Zlen (concat (base128 <$> t))) Ho Hl Hu) as (o1 & -> & Ho1); [lia|].
    destruct (IH fuel o1 (l ++ [u])) as (o2 & E & Ho2); [cbn in Hf; lia|done|rewrite length_app; lia|].
    rewrite <-app_assoc in *. by exists o2.
Qed.

(** An arc that the decoder does not accept ends the loop. *)
Lemma decode_refused fuel o u p left counter : is_ulong u -> ~ arc_ok u -> 0 <= left ->
  decode_arcs (S fuel) o (base128 u ++ p) (ndigits u + left) counter = Done (ANSC_ASN1_INVALID_VALUE, o, counter, base128 u ++ p).
Proof.
  intros Hu Hno Hl. cbn [decode_arcs]. pose proof (ndigits_pos u).
  destruct (Z.eqb_spec (ndigits u + left) 0); [lia|]. rewrite sub_oid_octets_spec. cbn [mbind outcome_bind].
  destruct (large_arc_octets u p Hu Hno) as [Hn|(En & c & Ec & Hc)].
  - destruct (Z.ltb_spec (sizeof_ULONG + 1) (ndigits u)); [done|lia].
  - rewrite En, Z.ltb_irrefl, Z.eqb_refl, Ec. cbn [mbind outcome_bind]. destruct (Z.ltb_spec 143 c); [done|lia].
Qed.

Lemma decode_rest_refused o0 t r : Forall is_ulong t -> ~ Forall arc_ok t ->
  forall fuel o l, (length t < fuel)%nat -> holds o0 o l -> 1 <= Zlen l -> exists o' n p,
  decode_arcs fuel o (concat (base128 <$> t) ++ r) (Zlen (concat (base128 <$> t))) (Zlen l) =
    Done (ANSC_ASN1_INVALID_VALUE, o', n, p).
Proof.
  induction 1 as [|u t Hu Ht IH]; intros Hno fuel o l Hf Ho Hl; [destruct Hno; constructor|].
  destruct fuel as [|fuel]; [cbn in Hf; lia|].
  change (concat (base128 <$> u :: t)) with (base128 u ++ concat (base128 <$> t)).
  rewrite length_app, Nat2Z.inj_add, length_base128, <-app_assoc.
  destruct (decide (arc_ok u)) as [Hok|Hbad].
  - destruct (decode_next fuel o0 o l u (concat (base128 <$> t) ++ r) (Zlen (concat (base128 <$> t))) Ho Hl Hok) as (o1 & -> & Ho1); [lia|].
    apply (IH ltac:(intros ?; apply Hno; by constructor)); [cbn in Hf; lia|done|rewrite length_app; lia].
  - rewrite decode_refused by (done || lia). by eexists _, _, _.
Qed.

Lemma length_concat_base128 t : (length t <= length (concat (base128 <$> t)))%nat.
Proof.
  induction t as [|u t IH]; [done|]. change (concat (base128 <$> u :: t)) with (base128 u ++ concat (base128 <$> t)).
  rewrite length_app. pose proof (length_base128 u). pose proof (ndigits_pos u). cbn. lia.
Qed.

(** The whole contents: the first number, and then the other arcs. *)
Lemma decode_arcs_run o l r : decodable o -> oid_ok l -> exists o' fuel,
  decode_arcs (S (length (oid_contents l))) o (oid_contents l ++ r) (Zlen (oid_contents l)) 0 =
    decode_arcs fuel o' (concat (base128 <$> drop 2 l) ++ r) (Zlen (concat (base128 <$> drop 2 l))) (Zlen (take 2 l)) /\
  holds o o' (take 2 l) /\ (length (drop 2 l) < fuel)%nat /\ 1 <= Zlen (take 2 l).
Proof.
  intros Ho (a0 & a1 & t & -> & H0 & H1 & Ht). cbn [oid_contents]. rewrite length_app, <-app_assoc.
  pose proof (length_base128 (a0 * 40 + a1)) as E1. rewrite first_arcs in E1 by done.
  rewrite Nat2Z.inj_add, E1. pose proof (length_concat_base128 t) as Hn. set (n := length (concat (base128 <$> t))) in *.
  destruct (decode_first (length (base128 (a0 * 40 + a1)) + n) o a0 a1 (concat (base128 <$> t) ++ r) (Z.of_nat n) Ho H0 H1)
    as (o1 & E & Ho1); [lia|].
  exists o1, (length (base128 (a0 * 40 + a1)) + n)%nat.
  split_and!; [exact E|done|change (drop 2 (a0 :: a1 :: t)) with t; lia|done].
Qed.

Lemma decode_arcs_spec o l r : decodable o -> oid_ok l -> Forall arc_ok (drop 2 l) -> exists o',
  decode_arcs (S (length (oid_contents l))) o (oid_contents l ++ r) (Zlen (oid_contents l)) 0 =
    Done (ASN1_SUCCESS, o', Zlen l, r) /\ holds o o' l.
Proof.
  intros Ho Hok Harcs. destruct (decode_arcs_run o l r Ho Hok) as (o1 & fuel & -> & Ho1 & Hf & Hl).
  destruct (decode_rest o (drop 2 l) r Harcs fuel o1 (take 2 l) Hf Ho1 Hl) as (o2 & E & Ho2).
  rewrite take_drop in *. by exists o2.
Qed.

Lemma decode_arcs_refused o l r : decodable o -> oid_ok l -> ~ Forall arc_ok (drop 2 l) -> exists o' n p,
  decode_arcs (S (length (oid_contents l))) o (oid_contents l ++ r) (Zlen (oid_contents l)) 0 =
    Done (ANSC_ASN1_INVALID_VALUE, o', n, p).
Proof.
  intros Ho Hok Harcs. destruct (decode_arcs_run o l r Ho Hok) as (o1 & fuel & -> & Ho1 & Hf & Hl).
  destruct Hok as (a0 & a1 & t & -> & _ & _ & Ht). by apply (decode_rest_refused o).
Qed.

End decoding.

(** ** Round trip *)

Section round_trip.
Context `{Platform}.

(** The attributes an identifier is decoded with: none, or the innermost one
    takes the place of its tag. *)
Definition plain_or_implicit (attrs : attr_list) : Prop :=
  Forall (fun a => FormType a = EMPTY_FORM) attrs \/ own_tag attrs true = false.

Lemma empty_attrs bConstr first v attrs : Forall (fun a => FormType a = EMPTY_FORM) attrs ->
  nest bConstr first v attrs true = core first v true /\ own_tag attrs true = true.
Proof.
  induction 1 as [|a l Ha Hl [IH1 IH2]]; [done|]. cbn [nest own_tag]. by rewrite !bool_decide_true by done.
Qed.

Lemma oid_contents_bytes l : Forall is_byte (oid_contents l).
Proof.
  destruct l as [|a0 [|a1 t]]; try constructor. cbn [oid_contents]. apply Forall_app. split; [apply base128_bytes|].
  induction t as [|u t IH]; [constructor|]. change (concat (base128 <$> u :: t)) with (base128 u ++ concat (base128 <$> t)).
  apply Forall_app. split; [apply base128_bytes|done].
Qed.

(** What the decoder does behind the headers. *)
Lemma oid_DecodingData_run o l r :
  oid_encodable (oid_attrs o) l -> Forall is_byte r ->
  plain_or_implicit (oid_attrs o) -> all_read_back false 6 (oid_contents l) (oid_attrs o) true ->
  let enc := oid_tlv (oid_attrs o) l ++ r in
  AnscAsn1OIDDecodingData o enc =
    if 4000 <? Zlen (oid_contents l) then Done (ANSC_ASN1_UNACCEPTABLE_VALUE_SIZE, set_uLength o 0, enc)
    else
      '(st, o', counter, p) ←
        decode_arcs (S (length (oid_contents l))) o (oid_contents l ++ r) (Zlen (oid_contents l)) 0;
      if negb (bool_decide (st = ASN1_SUCCESS)) then Done (st, o', enc)
      else Done (ASN1_SUCCESS, AsnOid (oid_attrs o') false (oid_bCanBeOptional o') counter (pOIDChain o') (pAdvOID o'), p).
Proof.
  intros He Hr Hpi Hback enc. destruct (oid_encodable_fits _ _ He) as [Hf Hlc]. destruct He as (Hok & Ha & Hlen).
  unfold enc, AnscAsn1OIDDecodingData, oid_tlv in *. set (c := oid_contents l) in *.
  destruct (attributes_round_trip false 6 c (oid_attrs o) r) as (left & -> & Hleft); try done.
  { by apply oid_contents_bytes. }
  { intros E. rewrite E in Hlc. cbn in Hlc. lia. }
  cbn [mbind outcome_bind]. rewrite bool_decide_true by done. cbn [negb].
  match goal with |- context [mbind _ (if own_tag ?l true then ?A else ?B)] =>
    assert (E : (if own_tag l true then A else B) = Done (ASN1_SUCCESS, (c ++ r, Zlen c))) end.
  { destruct Hpi as [Hempty|Hown].
    - destruct (empty_attrs false 6 c _ Hempty) as [E1 E2]. rewrite E1, E2 in *. cbn [core] in *. unfold der_tlv in *.
      change ((6 :: ?l) ++ r) with ([6] ++ l ++ r). rewrite <-app_assoc.
      assert (Hk : length_read (Zlen c) = Zlen c).
      { apply length_reads_back. split; [lia|]. destruct Hback as [|Hb]; [by right|left]. rewrite E1 in Hb.
        cbn [core] in Hb. unfold der_tlv in Hb. cbn [length] in Hb. rewrite length_app in Hb. lia. }
      rewrite parse_header; [|by apply tag_low|cbn; lia|lia]. cbn [mbind outcome_bind].
      rewrite bool_decide_true by done. cbn [negb FirstOctetOfTag ulSizeOfTag ulSizeOfLength ulContentLength bIsInfinite head default].
      change (AnscAsn1GetFirstOctet ASN1_OID_TYPE) with 6. cbn [Z.eqb Pos.eqb negb length]. rewrite Hk.
      rewrite ULONG_small32 by lia. do 3 f_equal. rewrite app_assoc. apply drop_app_length'. cbn. lia.
    - rewrite Hown in *. cbn [core] in *. by destruct Hleft as [->|]. }
  rewrite E. cbn [mbind outcome_bind]. rewrite bool_decide_true by done. cbn [negb].
  change (0 <? 0) with false. cbn iota. destruct (Z.eqb_spec (Zlen c) 0); [lia|].
  by rewrite Nat2Z.id.
Qed.

Lemma oid_decoded o l r :
  decodable o -> oid_encodable (oid_attrs o) l -> Forall is_byte r ->
  plain_or_implicit (oid_attrs o) -> all_read_back false 6 (oid_contents l) (oid_attrs o) true ->
  exists st o' rest, AnscAsn1OIDDecodingData o (oid_tlv (oid_attrs o) l ++ r) = Done (st, o', rest) /\
    (st = ASN1_SUCCESS <-> oid_readable l) /\ (st = ASN1_SUCCESS -> rest = r /\ has_arcs o' l /\ holds o o' l).
Proof.
  intros Ho He Hr Hpi Hback. pose proof (oid_DecodingData_run o l r He Hr Hpi Hback) as E. cbv zeta in E. rewrite E.
  pose proof He as (Hok & _). unfold oid_readable. destruct (Z.ltb_spec 4000 (Zlen (oid_contents l))).
  - eexists _, _, _. split; [done|]. split; [|done]. split; [done|lia].
  - destruct (decide (Forall arc_ok (drop 2 l))) as [Harcs|Harcs].
    + destruct (decode_arcs_spec o l r Ho Hok Harcs) as (o' & -> & Hh). cbn [mbind outcome_bind].
      rewrite bool_decide_true by done. cbn [negb]. eexists _, _, _. split; [done|]. split; [by split|]. intros _.
      destruct Hh as (Ea & Ec & Hadv & x & Eb & Hx). split; [done|]. split.
      * split_and!; [done|done|]. by exists x.
      * split_and!; [done|done|done|]. by exists x.
    + destruct (decode_arcs_refused o l r Ho Hok Harcs) as (o' & n & p & ->). cbn [mbind outcome_bind].
      rewrite bool_decide_false by done. cbn [negb]. eexists _, _, _. split; [done|]. split; [|done]. split; [done|tauto].
Qed.

Lemma SetOIDValue_spec o l : oid_ok l -> Zlen (pOIDChain o) = 16 -> pAdvOID o = NoBuffer -> oid_bOptional o = false ->
  exists o', AnscAsn1OIDSetOIDValue o (Some l) (Zlen l) = Done (ASN1_SUCCESS, o') /\ has_arcs o' l /\
    oid_attrs o' = oid_attrs o /\ (pAdvOID o' = NoBuffer <-> Zlen l <= 16).
Proof.
  intros (a0 & a1 & t & El & H0 & _) Hc Hadv Ho. unfold AnscAsn1OIDSetOIDValue. rewrite Hadv.
  assert (Hl : 2 <= Zlen l) by (rewrite El; cbn [length]; lia).
  destruct (Z.eqb_spec (Zlen l) 0); [lia|].
  assert (E0 : buf_get l 0 = Done a0) by by rewrite El. rewrite E0. cbn [mbind outcome_bind].
  destruct (Z.ltb_spec 2 a0); [lia|]. cbn [free_buffer mbind outcome_bind]. rewrite read_bytes_all. cbn [mbind outcome_bind].
  unfold MAXIMUM_OID_DEPTH. destruct (Z.ltb_spec 16 (Zlen l)) as [Hlong|Hshort].
  - unfold AnscAsn1OIDGetOIDBuffer, set_pAdvOID, set_uLength. cbn [pAdvOID mbind outcome_bind]. rewrite Nat2Z.id.
    pose proof (buf_copy_at [] (replicate (length l) 0) [] l 0) as E. rewrite length_replicate, !app_nil_r in E.
    cbn [app] in E. rewrite E by done. cbn [mbind outcome_bind]. unfold set_OIDBuffer. cbn [pAdvOID]. eexists. split; [done|].
    cbn [oid_attrs pAdvOID]. split_and!; [|done|split; [done|lia]]. split_and!; [done|done|]. exists []. by rewrite app_nil_r.
  - unfold AnscAsn1OIDGetOIDBuffer, set_pAdvOID, set_uLength. cbn [pAdvOID pOIDChain mbind outcome_bind].
    pose proof (buf_copy_at [] (take (length l) (pOIDChain o)) (drop (length l) (pOIDChain o)) l 0) as E.
    rewrite length_take in E. cbn [app] in E. rewrite take_drop in E. rewrite E by (done || lia). cbn [mbind outcome_bind].
    unfold set_OIDBuffer. cbn [pAdvOID]. eexists. split; [done|].
    cbn [oid_attrs pAdvOID]. split_and!; [|done|done]. split_and!; [done|done|]. by eexists.
Qed.

Lemma GetOIDValue_spec o l : has_arcs o l ->
  AnscAsn1OIDGetOIDValue o (Some (replicate (length l) 0)) (Zlen l) = Done (ASN1_SUCCESS, Some l, Zlen l).
Proof.
  intros (_ & Eu & x & Eb). unfold AnscAsn1OIDGetOIDValue. rewrite Eu, Z.ltb_irrefl, Eb. cbn [mbind outcome_bind].
  rewrite read_bytes_app. cbn [mbind outcome_bind].
  pose proof (buf_copy_at [] (replicate (length l) 0) [] l 0) as E. rewrite length_replicate, !app_nil_r in E.
  cbn [app] in E. by rewrite E.
Qed.

(** The arcs of an identifier are compared, wherever both objects have them. *)
Lemma same_arcs_equal o1 o2 l : has_arcs o1 l -> has_arcs o2 l -> (pAdvOID o1 = NoBuffer <-> pAdvOID o2 = NoBuffer) ->
  AnscAsn1OIDEqualsTo o1 o2 true = Done true.
Proof.
  intros (Ho1 & Eu1 & x1 & Eb1) (Ho2 & Eu2 & x2 & Eb2) Hadv. unfold AnscAsn1OIDEqualsTo.
  rewrite Ho1, Ho2, Eu1, Eu2, Z.eqb_refl. cbn [Bool.eqb negb andb]. unfold AnscAsn1OIDGetOIDBuffer in *.
  assert (He : forall b1 b2, b1 = l ++ x1 -> b2 = l ++ x2 -> equal_items (Buffer b1) (Buffer b2) (Zlen l) = Done true).
  { intros b1 b2 -> ->. unfold equal_items, read_buffer. rewrite !read_bytes_app. cbn [mbind outcome_bind]. by rewrite bool_decide_true. }
  destruct (pAdvOID o1) as [|b1|], (pAdvOID o2) as [|b2|]; naive_solver.
Qed.

(** C18. An object identifier whose first arc is at most 2 and whose second is
    below 40, with any number of further arcs in an unsigned long, is set in an
    object, announced and encoded, whether its arcs fit the array of sixteen or
    not.  The encoding is decoded, into any object with room, if and only if
    the contents have at most 4000 octets and every further arc is below
    [arc_limit]: 2^32 where an unsigned long has 32 bits, 2^60 where it has 64.
    The decoded object then has all the arcs, and the two objects are equal if
    the second was new.

    The encoding is below 65536 bytes and the attributes are all empty or the
    innermost one is implicit, with class numbers that are written as they are
    ([attr_ok]); where an unsigned long has 64 bits no length is above 127.  The
    code fails outside of these bounds: [oid_faults], [long_values_are_lost]. *)
Theorem oid_round_trip o o' l r
  (Hchain : Zlen (pOIDChain o) = 16) (Hadv : pAdvOID o = NoBuffer) (Hopt : oid_bOptional o = false)
  (Ho' : decodable o') (Hattrs : oid_attrs o' = oid_attrs o)
  (He : oid_encodable (oid_attrs o) l) (Hr : Forall is_byte r)
  (Hpi : plain_or_implicit (oid_attrs o)) (Hback : all_read_back false 6 (oid_contents l) (oid_attrs o) true) :
  exists o1 m tail st o2 rest,
    AnscAsn1OIDSetOIDValue o (Some l) (Zlen l) = Done (ASN1_SUCCESS, o1) /\
    AnscAsn1GetEncodedData o1 = Done (Some (m ++ tail, Zlen m)) /\
    AnscAsn1OIDDecodingData o' (m ++ r) = Done (st, o2, rest) /\
    (st = ASN1_SUCCESS <-> Zlen (oid_contents l) <= 4000 /\ Forall arc_ok (drop 2 l)) /\
    (st = ASN1_SUCCESS ->
      rest = r /\
      AnscAsn1OIDGetOIDValue o2 (Some (replicate (length l) 0)) (Zlen l) = Done (ASN1_SUCCESS, Some l, Zlen l) /\
      (pAdvOID o' = NoBuffer -> AnscAsn1OIDEqualsTo o1 o2 true = Done true)).
Proof.
  pose proof He as (Hok & _ & Hlen).
  destruct (SetOIDValue_spec o l Hok Hchain Hadv Hopt) as (o1 & E1 & H1 & Ha1 & Hadv1). rewrite <-Ha1 in He, Hlen.
  destruct (GetEncodedData_spec o1 (oid_tlv (oid_attrs o1) l) (oid_encodes o1 l H1 He)) as (tail & E2).
  { pose proof (oid_encodable_fits _ _ He). pose proof (nest_grows false 6 (oid_contents l) (oid_attrs o1) true).
    unfold oid_tlv in *. lia. }
  rewrite Ha1, <-Hattrs in *.
  destruct (oid_decoded o' l r Ho' He Hr Hpi Hback) as (st & o2 & rest & E3 & Hst & Hdone).
  exists o1, (oid_tlv (oid_attrs o') l), tail, st, o2, rest. split_and!; [done|done|done|exact Hst|].
  intros Es. destruct (Hdone Es) as (-> & H2 & Hh). split_and!; [done|by apply GetOIDValue_spec|].
  intros Hnew. apply (same_arcs_equal o1 o2 l H1 H2). rewrite Hadv1.
  destruct Hh as (_ & _ & Hkeep & x & _ & _ & _ & Hno). split; [by apply Hkeep|]. intros E. specialize (Hno E).
  rewrite length_app in Hno. lia.
Qed.

End round_trip.

(** ** Faults *)

Definition new_oid (attrs : attr_list) : ANSC_ASN1_OIDEN :=
  AsnOid attrs false false 0 (replicate 16 0) NoBuffer.

(** The text 1 1 ... 1 of [S n] arcs. *)
Definition spaced_text (n : nat) : cstr := 49 :: concat (replicate n [32; 49]).

(** Identifiers that are set and not read back: one behind an explicit
    attribute, one that begins with 2.40, one with an arc of more than 60 bits;
    a short identifier set after a long one is written to the block that was
    freed; arcs with spaces between them are counted as one and then all
    written; and no object equals the text of its identifier. *)
Theorem oid_faults :
  let explicit := [AnscAsn1AttrCreate CONTEXT_FORM 0 false] in
  let set_and_decode attrs l p :=
    '(_, o) ← @AnscAsn1OIDSetOIDValue (new_oid attrs) (Some l) (Zlen l);
    e ← @AnscAsn1GetEncodedData p _ (@oid_object p) o;
    match e with
    | Some (m, n) => '(st, _, _) ← @AnscAsn1OIDDecodingData p (new_oid attrs) (take (Z.to_nat n) m); Done (Some st)
    | None => Done None
    end in
  set_and_decode explicit [1; 2; 840] ilp32 = Done (Some ANSC_ASN1_UNEXPECTED_TAG) /\
  set_and_decode [] [2; 40; 1] ilp32 = Done (Some ANSC_ASN1_BAD_OID_VALUE) /\
  set_and_decode [] [1; 3; 2 ^ 60] lp64 = Done (Some ANSC_ASN1_INVALID_VALUE) /\
  ('(_, o) ← AnscAsn1OIDSetOIDValue (new_oid []) (Some (replicate 17 1)) 17; AnscAsn1OIDSetOIDValue o (Some [1; 2; 3]) 3)
    = Stuck BadAccess /\
  @AnscAsn1OIDSetStringOIDValue ilp32 (new_oid []) (spaced_text 16) = Stuck OutOfBounds /\
  ('(_, o) ← AnscAsn1OIDSetOIDValue (new_oid []) (Some [1; 2; 3]) 3; AnscAsn1OIDEqualToOIDString o [49; 46; 50; 46; 51; 0])
    = Done (false, [49; 46; 50; 46; 51; 0]).
Proof. vm_compute. split_and!; reflexivity. Qed.

Definition witness_arcs : list Z := [2; 16; 840; 1; 113741; 4294967295] ++ replicate 12 7.
Definition implicit_attrs : attr_list := [AnscAsn1AttrCreate EMPTY_FORM 0 false; AnscAsn1AttrCreate CONTEXT_FORM 200 true].

Theorem oid_round_trip_witness :
  @oid_encodable ilp32 implicit_attrs witness_arcs /\
  exists o1 o2 m tail,
    AnscAsn1OIDSetOIDValue (new_oid implicit_attrs) (Some witness_arcs) (Zlen witness_arcs) = Done (ASN1_SUCCESS, o1) /\
    @AnscAsn1GetEncodedData ilp32 _ (@oid_object ilp32) o1 = Done (Some (m ++ tail, Zlen m)) /\
    @AnscAsn1OIDDecodingData ilp32 (new_oid implicit_attrs) (m ++ [5; 0]) = Done (ASN1_SUCCESS, o2, [5; 0]) /\
    AnscAsn1OIDGetOIDValue o2 (Some (replicate (length witness_arcs) 0)) (Zlen witness_arcs) =
      Done (ASN1_SUCCESS, Some witness_arcs, Zlen witness_arcs) /\
    (pAdvOID (new_oid implicit_attrs) = NoBuffer -> AnscAsn1OIDEqualsTo o1 o2 true = Done true).
Proof.
  assert (He : @oid_encodable ilp32 implicit_attrs witness_arcs).
  { split_and!.
    - exists 2, 16, ([840; 1; 113741; 4294967295] ++ replicate 12 7). split_and!; [done|lia|lia|lia|lia|].
      assert (E : 2 ^ @ulong_bits ilp32 = 4294967296) by done. unfold is_ulong. rewrite E, Forall_app.
      split; [repeat constructor; lia|apply Forall_replicate; lia].
    - unfold implicit_attrs. rewrite !Forall_cons. split_and!; [by left| |by constructor].
      right. split_and!; [cbn; lia|cbn; lia|unfold skips; cbn; lia|done].
    - by vm_compute. }
  split; [exact He|].
  destruct (@oid_round_trip ilp32 (new_oid implicit_attrs) (new_oid implicit_attrs) witness_arcs [5; 0])
    as (o1 & m & tail & st & o2 & rest & E1 & E2 & E3 & Hst & Hdone); try done.
  - by apply new_decodable.
  - unfold is_byte. repeat constructor; lia.
  - by right.
  - by left.
  - assert (Es : st = ASN1_SUCCESS).
    { apply Hst. split; [by vm_compute|]. assert (E : @arc_limit ilp32 = 4294967296) by done.
      unfold arc_ok, witness_arcs. rewrite E. change (drop 2 _) with ([840; 1; 113741; 4294967295] ++ replicate 12 7).
      rewrite Forall_app. split; [repeat constructor; lia|apply Forall_replicate; lia]. }
    destruct (Hdone Es) as (-> & E4 & E5). subst st. by exists o1, o2, m, tail.
Defined.
