(* ===== verification/XmlText.v ===== *)
(** * Text in XML ([AnscXmlDomParser/ansc_xml_dom_parser_util.c])

    The scanners of the parser, the writers of the encoder, and the conversions
    of text: escaping the characters that have a meaning in XML and resolving
    references to them, and hexadecimal data.  A block of memory is the list of
    its bytes, a pointer into it an index; NULL is [None]. *)

From S2P Require Import Prelude CStrings IpAddr.
Open Scope Z_scope.

Abbreviation mem := (list Z).

(** ** Characters *)

Definition AnscXmlIsUpperLetter (c : Z) : bool := (65 <=? c) && (c <=? 90).
Definition AnscXmlIsLowerLetter (c : Z) : bool := (97 <=? c) && (c <=? 122).
Definition AnscXmlIsLetter (c : Z) : bool := AnscXmlIsUpperLetter c || AnscXmlIsLowerLetter c.
Definition AnscXmlIsDigit (c : Z) : bool := (48 <=? c) && (c <=? 57).
Definition AnscXmlIsValidBinaryChar (c : Z) : bool :=
  AnscXmlIsDigit c || ((65 <=? c) && (c <=? 70)) || ((97 <=? c) && (c <=? 102)).
Definition AnscXmlCharInString (pString : cstr) (charToFind : Z) : bool := AnscCharInString pString charToFind.

Definition first_name_char (c : Z) : bool := AnscXmlIsLetter c || (c =? 95).
Definition name_char (c : Z) : bool :=
  AnscXmlIsLetter c || AnscXmlIsDigit c || (c =? 46) || (c =? 45) || (c =? 95) || (c =? 58).
Definition valid_name (s : cstr) : bool :=
  match s with [] => false | c :: r => first_name_char c && forallb name_char r end.
Definition AnscXmlIsValidAttributeName (pAttributeName : option cstr) : bool :=
  match pAttributeName with None => false | Some s => valid_name s end.
Definition AnscXmlIsValidNodeName (pNodeName : option cstr) : bool :=
  match pNodeName with None => false | Some s => valid_name s end.

(** ** Scanners *)

Definition SPECIAL_TOKEN : cstr := [32; 9; 13; 10].
Definition WANTED_TOKEN : cstr := lit " =".

(** The string at an address. *)
Definition string_at (m : mem) (p : Z) : outcome cstr :=
  if (0 <=? p) && (p <=? Zlen m) then
    match buf_cstr (drop (Z.to_nat p) m) with Some s => Done s | None => Stuck OutOfBounds end
  else Stuck OutOfBounds.

(** The loops that go forward, [n] rounds, until [stop] holds. *)
Fixpoint scan_forward (stop : Z -> bool) (m : mem) (p : Z) (n : nat) : outcome Z :=
  match n with
  | O => Done p
  | S n => c ← buf_get m p; if stop c then Done p else scan_forward stop m (p + 1) n
  end.

(** [length] is an [int]. *)
Definition AnscXmlGotoFirstCharExcept (m : mem) (pInputString length : Z) (pExceptString : cstr) : outcome (option Z) :=
  if INT length =? 0 then Done None
  else Some <$> scan_forward (fun c => negb (AnscXmlCharInString pExceptString c)) m pInputString (Z.to_nat (INT length)).

Definition AnscXmlGotoFirstWantedChar (m : mem) (pInputString length : Z) (pWantedChars : cstr) : outcome (option Z) :=
  if INT length =? 0 then Done None
  else Some <$> scan_forward (AnscXmlCharInString pWantedChars) m pInputString (Z.to_nat (INT length)).

(** Backwards from [p - 1], [n] rounds. *)
Fixpoint scan_backward (m : mem) (p : Z) (pExceptString : cstr) (n : nat) : outcome Z :=
  match n with
  | O => Done p
  | S n =>
      c ← buf_get m (p - 1);
      if negb (AnscXmlCharInString pExceptString c) then Done p else scan_backward m (p - 1) pExceptString n
  end.
Definition AnscXmlGetStringEndExcept (m : mem) (pInputString endPosition : Z) (pExceptString : cstr) : outcome Z :=
  let iNumberOfChars := INT endPosition in
  if 0 <? iNumberOfChars
  then scan_backward m (pInputString + iNumberOfChars) pExceptString (Z.to_nat iNumberOfChars)
  else Done pInputString.

(** The loop stops at the first difference. *)
Fixpoint starts_with (m : mem) (p : Z) (pStartWithChars : cstr) : outcome bool :=
  match pStartWithChars with
  | [] => Done true
  | c :: r => x ← buf_get m p; if negb (c =? x) then Done false else starts_with m (p + 1) r
  end.
Definition AnscXmlIsStringStartWith (m : mem) (pInputString length : Z) (pStartWithChars : cstr) : outcome bool :=
  let iInput := INT length in
  let iStart := INT (strlen pStartWithChars) in
  if (iInput =? 0) || (iInput <? iStart) || (iStart =? 0) then Done false
  else starts_with m pInputString pStartWithChars.

(** [strstr] *)
Fixpoint find_in (s pat : cstr) : option nat :=
  if bool_decide (pat `prefix_of` s) then Some O
  else match s with [] => None | _ :: r => S <$> find_in r pat end.
Definition AnscXmlFindString (m : mem) (pString : Z) (pSearchString : cstr) : outcome (option Z) :=
  s ← string_at m pString;
  Done ((fun k => pString + Z.of_nat k) <$> find_in s pSearchString).

Fixpoint AnscXmlFindCharacterInRange (m : mem) (pString charToFind : Z) (ulRange : nat) : outcome (option Z) :=
  match ulRange with
  | O => Done None
  | S n => c ← buf_get m pString;
           if c =? charToFind then Done (Some pString) else AnscXmlFindCharacterInRange m (pString + 1) charToFind n
  end.

Definition AnscXmlSizeOfToken (m : mem) (pString : Z) (charsToStop : cstr) (ulRange : Z) : outcome Z :=
  e ← scan_forward (AnscXmlCharInString charsToStop) m pString (Z.to_nat ulRange);
  Done (e - pString).

(** On the suffix of a string that a pointer into it names. *)
Fixpoint AnscXmlMoveToNextToken (pString charsToSkip : cstr) : cstr :=
  match pString with
  | [] => []
  | c :: r => if AnscXmlCharInString charsToSkip c then AnscXmlMoveToNextToken r charsToSkip else pString
  end.

(** Backwards from [p] on while [go] holds; in front of the block there is
    nothing to read. *)
Fixpoint scan_back (go : Z -> bool) (m : mem) (p : Z) (n : nat) : outcome Z :=
  match n with
  | O => Stuck OutOfBounds
  | S n => c ← buf_get m p; if go c then scan_back go m (p - 1) n else Done p
  end.
Definition AnscXmlMoveToPreviousToken (m : mem) (pString : Z) (charsToSkip : cstr) : outcome (Z * Z) :=
  q ← scan_back (AnscXmlCharInString charsToSkip) m pString (Z.to_nat (pString + 1));
  p ← scan_back (fun c => negb (AnscXmlCharInString charsToSkip c)) m q (Z.to_nat (q + 1));
  Done (p + 1, INT (q - p)).

Definition AnscXmlNumberOfCharsInString (pString : cstr) (charToFind : Z) : Z :=
  Zlen (filter (fun c => c = charToFind) pString).

(** ** Hexadecimal data *)

(** A digit; another character stands for itself. *)
Definition hex_value (tempChar : Z) : option Z :=
  if (48 <=? tempChar) && (tempChar <=? 57) then Some (tempChar - 48)
  else if (65 <=? tempChar) && (tempChar <=? 70) then Some (tempChar - 65 + 10)
  else if (97 <=? tempChar) && (tempChar <=? 102) then Some (tempChar - 97 + 10)
  else None.

Definition AnscXmlGetByte (m : mem) (pCharData : Z) : outcome Z :=
  c0 ← buf_get m pCharData;
  c1 ← buf_get m (pCharData + 1);
  Done (UCHAR (UCHAR (Z.shiftl (default c0 (hex_value c0)) 4) + default c1 (hex_value c1))).

(** The statuses [ANSC_STATUS_XML_..]; before them the general ones, of which
    [XML_NO_RESOURCES] is [ANSC_STATUS_RESOURCES]. *)
Inductive xml_status :=
  | XML_SUCCESS | XML_FAILURE | XML_CANT_FIND | XML_UNAPPLICABLE | XML_NO_RESOURCES
  | XML_RESOURCES | XML_INVALID_HANDLE | XML_INTERNAL_ERROR | XML_INVALID_LENGTH
  | XML_INVALID_ATTRIBUTE_VALUE | XML_INVALID_ATTRIBUTE_NAME | XML_INVALID_NODE_NAME | XML_ATTRIBUTE_NOT_EXIST
  | XML_INVALID_VERSION | XML_INVALID_COMMENT_END | XML_MISSED_END_TAG | XML_INVALID_TEXT_VALUE | XML_EMPTY_TEXT
  | XML_INVALID_STRING | XML_EQUAL_SIGN_MISSED | XML_STRING_SIGN_MISSED | XML_SPACE_NEEDED.

(** The loop over the characters, [n] of them left; [None] at one that is no
    digit. *)
Fixpoint to_binary (pCharData : mem) (i : Z) (n : nat) (pBinaryData : mem) : outcome (option mem) :=
  match n with
  | O => Done (Some pBinaryData)
  | S n =>
      tempChar ← buf_get pCharData i;
      match hex_value tempChar with
      | None => Done None
      | Some v =>
          old ← buf_get pBinaryData (i / 2);
          pBinaryData ← buf_put pBinaryData (i / 2)
            (UCHAR (old + (if negb (i mod 2 =? 0) then v else Z.shiftl v 4)));
          to_binary pCharData (i + 1) n pBinaryData
      end
  end.

(** Yields the status, the buffer and [*pulSize]. *)
Definition AnscXmlFromASCIIToBinary (pCharData : mem) (pulSize : Z) (a : alloc_stream)
  : outcome (xml_status * mem * Z * alloc_stream) :=
  let ulDataSize := pulSize / 2 in
  if negb (pulSize mod 2 =? 0) then Done (XML_INVALID_LENGTH, pCharData, pulSize, a)
  else
    let '(ok, a) := next_alloc a in
    if negb ok then Done (XML_NO_RESOURCES, pCharData, pulSize, a)
    else
      r ← to_binary pCharData 0 (Z.to_nat (ulDataSize * 2)) (replicate (Z.to_nat ulDataSize) 0);
      match r with
      | None => Done (XML_INVALID_ATTRIBUTE_VALUE, pCharData, pulSize, a)
      | Some pBinaryData =>
          pCharData ← buf_copy pCharData 0 pBinaryData;
          Done (XML_SUCCESS, pCharData, ulDataSize, a)
      end.

Definition AnscXmlFromBinaryToASCII `{Platform} (pBinaryData : mem) (pulSize : Z) (a : alloc_stream)
  : outcome (xml_status * mem * Z * alloc_stream) :=
  let ulDataSize := ULONG (pulSize * 2) in
  let '(ok, a) := next_alloc a in
  if negb ok then Done (XML_NO_RESOURCES, pBinaryData, pulSize, a)
  else
    pASCIIData ← for_from 0 (Z.to_nat (ulDataSize / 2)) (fun i d =>
      c ← buf_get pBinaryData i;
      d ← buf_put d (i * 2) (Z.shiftr (Z.land c 240) 4);
      buf_put d (i * 2 + 1) (Z.land c 15)) (replicate (Z.to_nat ulDataSize) 0);
    pASCIIData ← for_from 0 (Z.to_nat ulDataSize) (fun i d =>
      c ← buf_get d i;
      buf_put d i (if c <=? 9 then UCHAR (c + 48) else UCHAR (c - 10 + 65))) pASCIIData;
    pBinaryData ← buf_copy pBinaryData 0 pASCIIData;
    Done (XML_SUCCESS, pBinaryData, ulDataSize, a).

(** The removal of characters, in place: both pointers are the start of [m]. *)
Definition AnscXmlCombineTokens (m : mem) (ulInputSize : Z) (charsToSkip : cstr) : outcome (mem * Z) :=
  for_from 0 (Z.to_nat ulInputSize) (fun i '((m, counter) : mem * Z) =>
    c ← buf_get m i;
    if negb (AnscXmlCharInString charsToSkip c) then
      m ← buf_put m counter c; Done (m, counter + 1)
    else Done (m, counter)) (m, 0).

(** [AnscZeroMemory] *)
Definition zero_memory (m : mem) (p n : Z) : outcome mem := buf_copy m p (replicate (Z.to_nat n) 0).

Definition AnscXmlRemoveControlChars (pString : mem) (ulStringLen : Z) : outcome (bool * mem * Z) :=
  r ← for_from 0 (Z.to_nat ulStringLen) (fun i '((m, ulNewStringLen, bPosChanged) : mem * Z * bool) =>
    uChar ← buf_get m i;
    if (uChar =? 194) || (uChar =? 195) then Done (m, ulNewStringLen, true)
    else if bPosChanged then
      m ← buf_put m ulNewStringLen uChar; Done (m, ulNewStringLen + 1, bPosChanged)
    else Done (m, ulNewStringLen + 1, bPosChanged)) (pString, 0, false);
  let '(m, ulNewStringLen, bPosChanged) := r in
  m ← (if bPosChanged : bool then zero_memory m ulNewStringLen (ulStringLen - ulNewStringLen) else Done m);
  Done (bPosChanged, m, ulNewStringLen).

(** ** References to characters *)

Definition MAX_LEN_PREDEFINED_ENTITIES : Z := 10.
(** The five rows of the table; a code is padded to its ten bytes. *)
Definition Predefined_XML_Entities : list (Z * cstr) :=
  [(38, lit "&amp;"); (60, lit "&lt;"); (62, lit "&gt;"); (39, lit "&apos;"); (34, [38] ++ lit "quot;")].
Definition Predefined_XML_char_size : list Z := [5; 4; 4; 6; 6].
Definition Xml_Chars : cstr := [60; 62; 38; 39; 34].
Definition hexEncode : cstr := lit "&#x".
Definition decEncode : cstr := lit "&#".
Definition hexSize : Z := 3.
Definition decSize : Z := 2.

(** [memcmp(..) == 0]: up to the first difference. *)
Fixpoint equal_memory (a b : mem) (n : nat) {struct n} : outcome bool :=
  match n with
  | O => Done true
  | S n =>
      match a, b with
      | x :: a, y :: b => if x =? y then equal_memory a b n else Done false
      | _, _ => Stuck OutOfBounds
      end
  end.

(** The search for a semicolon from [p] on, [n] characters left. *)
Definition find_semicolon (m : mem) (p : Z) (ulStringLen : Z) : outcome Z :=
  scan_forward (fun c => c =? 59) m p (Z.to_nat (ulStringLen - p)).

(** The row of the table whose code stands at [p]. *)
Fixpoint match_entity (m : mem) (p : Z) (n : Z) (rows : list (Z * cstr)) : outcome (option Z) :=
  match rows with
  | [] => Done None
  | (uCharacter, Encode) :: rows =>
      same ← equal_memory (drop (Z.to_nat p) m)
        (Encode ++ replicate (Z.to_nat MAX_LEN_PREDEFINED_ENTITIES - length Encode) 0) (Z.to_nat n);
      if same : bool then Done (Some uCharacter) else match_entity m p n rows
  end.

(** The state of the loop: the string, [i], [ulNewStringLen], [bPosChanged]. *)
Record refs := Refs { r_mem : mem; r_i : Z; r_new : Z; r_changed : bool }.

(** The character at [i] is kept. *)
Definition keep_char (s : refs) (uChar : Z) : outcome refs :=
  m ← (if r_changed s then buf_put (r_mem s) (r_new s) uChar else Done (r_mem s));
  Done (Refs m (r_i s + 1) (r_new s + 1) (r_changed s)).
(** A reference that ends at [posSemicolon] is replaced. *)
Definition replace_ref (s : refs) (posSemicolon uChar : Z) : outcome refs :=
  m ← buf_put (r_mem s) (r_new s) uChar;
  Done (Refs m (posSemicolon + 1) (r_new s + 1) true).

Section references.
Context `{Platform}.

(** The digits of a decimal reference are tested when there are two or three
    of them. *)
Definition dec_valid (m : mem) (p : Z) (n : Z) : outcome bool :=
  if n =? 2 + decSize then
    c0 ← buf_get m p; c1 ← buf_get m (p + 1); Done (AnscXmlIsDigit c0 && AnscXmlIsDigit c1)
  else if n =? 3 + decSize then
    c0 ← buf_get m p; c1 ← buf_get m (p + 1); c2 ← buf_get m (p + 2);
    Done (AnscXmlIsDigit c0 && AnscXmlIsDigit c1 && AnscXmlIsDigit c2)
  else Done true.

(** One round of the loop. *)
Definition ref_step (ulStringLen : Z) (s : refs) : outcome refs :=
  let i := r_i s in
  uChar ← buf_get (r_mem s) i;
  if negb (uChar =? 38) then keep_char s uChar
  else
    hex ← AnscXmlFindString (r_mem s) i hexEncode;
    if bool_decide (hex = Some i) then
      posSemicolon ← find_semicolon (r_mem s) (i + hexSize) ulStringLen;
      if ulStringLen <=? posSemicolon then Done s
      else if negb (posSemicolon - i =? 2 + hexSize) then keep_char s uChar
      else
        c0 ← buf_get (r_mem s) (i + hexSize);
        c1 ← buf_get (r_mem s) (i + hexSize + 1);
        if negb (AnscXmlIsValidBinaryChar c0) || negb (AnscXmlIsValidBinaryChar c1) then keep_char s uChar
        else b ← AnscXmlGetByte (r_mem s) (i + hexSize); replace_ref s posSemicolon b
    else
      dec ← AnscXmlFindString (r_mem s) i decEncode;
      if bool_decide (dec = Some i) then
        posSemicolon ← find_semicolon (r_mem s) (i + decSize) ulStringLen;
        if ulStringLen <=? posSemicolon then Done s
        else
          bValid ← dec_valid (r_mem s) (i + decSize) (posSemicolon - i);
          if negb bValid then keep_char s uChar
          else t ← string_at (r_mem s) (i + decSize); replace_ref s posSemicolon (UCHAR (atol t))
      else
        posSemicolon ← find_semicolon (r_mem s) (i + 1) ulStringLen;
        if ulStringLen <=? posSemicolon then Done s
        else
          e ← match_entity (r_mem s) i (posSemicolon - i + 1) Predefined_XML_Entities;
          match e with
          | Some uCharacter => replace_ref s posSemicolon uCharacter
          | None => keep_char s uChar
          end.

Fixpoint ref_loop (fuel : nat) (ulStringLen : Z) (s : refs) : outcome refs :=
  match fuel with
  | O => Stuck Diverge
  | S k => if r_i s <? ulStringLen then s' ← ref_step ulStringLen s; ref_loop k ulStringLen s' else Done s
  end.

(** Yields the result, the string and [*pStringLen]. *)
Definition AnscXmlRemoveCharReference (pString : option mem) (pStringLen : option Z)
  : outcome (bool * option mem * option Z) :=
  match pString, pStringLen with
  | Some m, Some ulStringLen =>
      s ← ref_loop (S (Z.to_nat ulStringLen)) ulStringLen (Refs m 0 0 false);
      m ← (if r_changed s then zero_memory (r_mem s) (r_new s) (ulStringLen - r_new s) else Done (r_mem s));
      Done (r_changed s, Some m, Some (r_new s))
  | _, _ => Done (true, pString, pStringLen)
  end.

(** The index of a character in [Xml_Chars]; the terminator is a character of
    the string. *)
Definition find_special (c : Z) : option nat :=
  if c =? 0 then Some (length Xml_Chars)
  else fst <$> list_find (fun x => x = c) Xml_Chars.

(** What the first loop adds for a character. *)
Definition extra_size (c : Z) : outcome Z :=
  match find_special c with
  | None => Done 0
  | Some k => sz ← buf_get Predefined_XML_char_size (Z.of_nat k); Done (sz - 1)
  end.
Definition entity_of (c : Z) : option cstr :=
  snd <$> (snd <$> list_find (fun row => row.1 = c) Predefined_XML_Entities).

(** Yields the new string and [*pNewLength]. *)
Definition AnscXmlEscapeChars (pInputString : option mem) (length : Z) (a : alloc_stream)
  : outcome (option mem * Z * alloc_stream) :=
  match pInputString with
  | None => Done (None, 0, a)
  | Some src =>
      if length =? 0 then Done (None, 0, a)
      else
        charCount ← for_from 0 (Z.to_nat length) (fun i charCount =>
          c ← buf_get src i; k ← extra_size c; Done (ULONG (charCount + k))) 0;
        if charCount =? 0 then
          s ← string_at src 0;
          let '(ok, a) := next_alloc a in
          Done (if ok then Some (s ++ [0]) else None, length, a)
        else
          let '(ok, a) := next_alloc a in
          if negb ok then Done (None, 0, a)
          else
            r ← for_from 0 (Z.to_nat length) (fun i '((out, pos) : mem * Z) =>
              c ← buf_get src i;
              match entity_of c with
              | None => out ← buf_put out pos c; Done (out, pos + 1)
              | Some Encode => out ← buf_copy out pos (Encode ++ [0]); Done (out, pos + strlen Encode)
              end) (replicate (Z.to_nat (ULONG (length + charCount + 16))) 0, 0);
            let '(out, pos) := r in
            Done (Some out, pos, a)
  end.

End references.

(** ** Scanning *)

Lemma scan_forward_spec stop pre l post :
  scan_forward stop (pre ++ l ++ post) (Zlen pre) (length l) = Done (Zlen pre + Z.of_nat (until stop l)).
Proof.
  revert pre. induction l as [|c l IH]; intros pre; cbn [length scan_forward until app]; [by rewrite Z.add_0_r|].
  rewrite (buf_get_lookup _ (length pre) c) by by apply list_lookup_middle. cbn [mbind outcome_bind].
  destruct (stop c); [by rewrite Z.add_0_r|].
  specialize (IH (pre ++ [c])). rewrite <-app_assoc, length_app in IH. cbn [app length] in IH.
  replace (Zlen pre + 1) with (Z.of_nat (length pre + 1)) by lia. rewrite IH. f_equal. lia.
Qed.

Lemma starts_with_spec pre s post pat :
  wf_cstr pat -> wf_cstr s -> starts_with (pre ++ s ++ 0 :: post) (Zlen pre) pat = Done (bool_decide (pat `prefix_of` s)).
Proof.
  intros Hp. revert pre s. induction Hp as [|c pat Hc Hp IH]; intros pre s Hs; cbn [starts_with].
  { by rewrite bool_decide_true by apply prefix_nil. }
  destruct Hs as [|x s Hx Hs]; cbn [app].
  - rewrite (buf_get_lookup _ (length pre) 0) by by apply list_lookup_middle. cbn [mbind outcome_bind].
    destruct (Z.eqb_spec c 0); [lia|]. cbn [negb]. rewrite bool_decide_false; [done|]. intros [k Hk]. done.
  - rewrite (buf_get_lookup _ (length pre) x) by by apply list_lookup_middle. cbn [mbind outcome_bind].
    destruct (Z.eqb_spec c x) as [->|Hne]; cbn [negb].
    + replace (pre ++ x :: s ++ 0 :: post) with ((pre ++ [x]) ++ s ++ 0 :: post) by by rewrite <-app_assoc.
      replace (Zlen pre + 1) with (Zlen (pre ++ [x])) by (rewrite length_app; cbn; lia).
      rewrite IH by done. f_equal. apply bool_decide_ext. split; [by apply prefix_cons|by apply prefix_cons_inv_2].
    + rewrite bool_decide_false; [done|]. intros Hk. by apply prefix_cons_inv_1 in Hk.
Qed.

Lemma string_at_spec pre s post :
  wf_cstr s -> string_at (pre ++ s ++ 0 :: post) (Zlen pre) = Done s.
Proof.
  intros Hs. unfold string_at. rewrite (proj2 (Z.leb_le 0 (Zlen pre))) by lia.
  rewrite (proj2 (Z.leb_le (Zlen pre) _)) by (rewrite !length_app; cbn; lia). cbn [andb].
  by rewrite Nat2Z.id, drop_app_length, buf_cstr_app.
Qed.

Lemma find_in_0 s pat : find_in s pat = Some O <-> pat `prefix_of` s.
Proof.
  destruct s as [|c s]; cbn [find_in]; case_bool_decide; [done|done|done|].
  split; [|done]. by destruct (find_in s pat).
Qed.

(** The test [strstr(p, pat) == p]. *)
Lemma find_here pre s post pat :
  wf_cstr s ->
  exists r, AnscXmlFindString (pre ++ s ++ 0 :: post) (Zlen pre) pat = Done r /\
    bool_decide (r = Some (Zlen pre)) = bool_decide (pat `prefix_of` s).
Proof.
  intros Hs. unfold AnscXmlFindString. rewrite string_at_spec by done. cbn [mbind outcome_bind].
  eexists. split; [done|]. apply bool_decide_ext. rewrite <-find_in_0.
  destruct (find_in s pat) as [k|]; cbn; [|done]. split.
  - intros [= E]. f_equal. lia.
  - intros [= ->]. f_equal. lia.
Qed.

(** ** Resolving references

    What the loop computes, as a function of the text: [None] when it never
    ends. *)

Definition is_semicolon (c : Z) : bool := c =? 59.
Definition until_semicolon (s : cstr) : option (cstr * cstr) :=
  let k := until is_semicolon s in
  if (k <? length s)%nat then Some (take k s, drop (S k) s) else None.

Section unescape.
Context `{Platform}.

(** The character that [&name;] stands for. *)
Definition decode (name : cstr) : option Z :=
  if bool_decide (lit "#x" `prefix_of` name) then
    match name with
    | [_; _; a; b] =>
        match hex_value a, hex_value b with
        | Some x, Some y => Some (16 * x + y)
        | _, _ => None
        end
    | _ => None
    end
  else if bool_decide (lit "#" `prefix_of` name) then
    let d := tail name in
    if ((length d =? 2)%nat || (length d =? 3)%nat) && negb (forallb AnscXmlIsDigit d) then None
    else Some (UCHAR (atol d))
  else fst <$> (snd <$> list_find (fun row => row.2 = 38 :: name ++ [59]) Predefined_XML_Entities).

Fixpoint unescape_from (n : nat) (s : cstr) : option cstr :=
  match n, s with
  | S n, c :: r =>
      if c =? 38 then
        '(name, rest) ← until_semicolon r;
        match decode name with
        | Some b => cons b <$> unescape_from n rest
        | None => cons 38 <$> unescape_from n r
        end
      else cons c <$> unescape_from n r
  | _, _ => Some []
  end.
Definition unescape (s : cstr) : option cstr := unescape_from (length s) s.

Lemma until_semicolon_Some s name rest :
  until_semicolon s = Some (name, rest) -> s = name ++ 59 :: rest /\ 59 ∉ name.
Proof.
  unfold until_semicolon. destruct (Nat.ltb_spec (until is_semicolon s) (length s)) as [Hk|]; [|done].
  intros [= <- <-]. apply lookup_lt_is_Some_2 in Hk as [x Hx].
  pose proof (until_stop _ _ _ Hx) as Hs. apply Z.eqb_eq in Hs. subst x.
  split; [by rewrite take_drop_middle|]. intros Hin. pose proof (until_before is_semicolon s) as Hb.
  rewrite Forall_forall in Hb. by apply Hb in Hin.
Qed.

Lemma until_semicolon_app name rest : 59 ∉ name -> until_semicolon (name ++ 59 :: rest) = Some (name, rest).
Proof.
  intros Hn. unfold until_semicolon. rewrite until_app.
  - rewrite length_app. cbn [length]. destruct (Nat.ltb_spec (length name) (length name + S (length rest))); [|lia].
    rewrite take_app_length. do 2 f_equal. rewrite drop_app_ge by lia.
    by replace (S (length name) - length name)%nat with 1%nat by lia.
  - apply Forall_forall. intros c Hc. unfold is_semicolon. apply Z.eqb_neq. by intros ->.
  - done.
Qed.

Lemma unescape_from_fuel n s : (length s <= n)%nat -> unescape_from n s = unescape s.
Proof.
  unfold unescape. remember (length s) as k eqn:Hk.
  revert s n Hk. induction k as [k IH] using lt_wf_ind. intros s n -> Hn.
  destruct s as [|c r]; [by destruct n|]. destruct n as [|n]; [cbn in Hn; lia|]. cbn [length unescape_from] in *.
  destruct (c =? 38).
  - destruct (until_semicolon r) as [[name rest]|] eqn:E; [|done]. cbn.
    apply until_semicolon_Some in E as [-> _].
    assert (Hr : forall (x : cstr) (m : nat), (length x <= length (name ++ 59%Z :: rest))%nat -> (length x <= m)%nat ->
      unescape_from m x = unescape_from (length x) x) by (intros x m Hx Hm; apply (IH (length x)); [lia|done|done]).
    rewrite !length_app in *. cbn [length] in *.
    destruct (decode name).
    + by rewrite (Hr rest n), (Hr rest (length name + S (length rest))%nat) by (rewrite ?length_app; cbn; lia).
    + by rewrite (Hr (name ++ 59 :: rest) n), (Hr (name ++ 59 :: rest) (length name + S (length rest))%nat)
        by (rewrite ?length_app; cbn; lia).
  - by rewrite (IH (length r) ltac:(lia) r n eq_refl ltac:(lia)).
Qed.

Lemma unescape_nil : unescape [] = Some [].
Proof. done. Qed.

Lemma unescape_cons c r :
  unescape (c :: r) =
    if c =? 38 then
      '(name, rest) ← until_semicolon r;
      match decode name with Some b => cons b <$> unescape rest | None => cons 38 <$> unescape r end
    else cons c <$> unescape r.
Proof.
  unfold unescape at 1. cbn [length unescape_from]. rewrite !(unescape_from_fuel _ r) by lia.
  destruct (c =? 38); [|done].
  destruct (until_semicolon r) as [[name rest]|] eqn:E; [|done]. cbn.
  apply until_semicolon_Some in E as [-> _]. by rewrite (unescape_from_fuel _ rest) by (rewrite length_app; cbn; lia).
Qed.

End unescape.

(** ** The loop computes the function *)

Section ref_loop.
Context `{Platform}.

(** The string in place: what is done, the gap that replaced references have
    left, and the rest. *)
Definition at_state (out gap s post : mem) (chg : bool) : refs :=
  Refs (out ++ gap ++ s ++ 0 :: post) (Zlen out + Zlen gap) (Zlen out) chg.

Lemma emit out gap used rest b :
  gap ++ used ≠ [] ->
  buf_put (out ++ gap ++ used ++ rest) (Zlen out) b = Done ((out ++ [b]) ++ tail (gap ++ used) ++ rest).
Proof.
  intros Hne. rewrite (app_assoc gap). destruct (gap ++ used) as [|x t]; [done|]. cbn [app tail].
  rewrite buf_put_at by done. by rewrite <-app_assoc.
Qed.

Lemma tail_length (l : mem) : l ≠ [] -> Zlen (tail l) = Zlen l - 1.
Proof. destruct l; [done|]. cbn [tail length]. lia. Qed.

Lemma keep_char_spec out gap c r post chg :
  (chg = false -> gap = []) ->
  keep_char (at_state out gap (c :: r) post chg) c = Done (at_state (out ++ [c]) (tail (gap ++ [c])) r post chg).
Proof.
  intros Hg. unfold keep_char, at_state. cbn [r_changed r_mem r_new r_i].
  assert (Hne : gap ++ [c] ≠ []) by by destruct gap.
  pose proof (tail_length _ Hne) as Ht. rewrite (length_app gap) in Ht. cbn [length] in Ht.
  destruct chg.
  - pose proof (emit out gap [c] (r ++ 0 :: post) c Hne) as E. cbn [app] in E. cbn [app]. rewrite E. cbn [mbind outcome_bind].
    f_equal. f_equal; rewrite ?(length_app out); cbn [length]; lia.
  - rewrite Hg by done. cbn [mbind outcome_bind app tail length]. rewrite <-app_assoc.
    f_equal. f_equal; rewrite ?(length_app out); cbn [length]; lia.
Qed.

Lemma replace_ref_spec out gap name rest post chg b :
  replace_ref (at_state out gap (38 :: name ++ 59 :: rest) post chg) (Zlen out + Zlen gap + 1 + Zlen name) b =
    Done (at_state (out ++ [b]) (tail (gap ++ 38 :: name ++ [59])) rest post true).
Proof.
  unfold replace_ref, at_state. cbn [r_changed r_mem r_new r_i].
  assert (Hne : gap ++ 38 :: name ++ [59] ≠ []) by by destruct gap.
  pose proof (tail_length _ Hne) as Ht. rewrite (length_app gap) in Ht. cbn [length] in Ht. rewrite length_app in Ht. cbn [length] in Ht.
  pose proof (emit out gap (38 :: name ++ [59]) (rest ++ 0 :: post) b Hne) as E.
  replace (gap ++ (38 :: name ++ 59 :: rest) ++ 0 :: post) with (gap ++ (38 :: name ++ [59]) ++ rest ++ 0 :: post)
    by (cbn [app]; by rewrite <-!app_assoc).
  rewrite E. cbn [mbind outcome_bind]. f_equal. f_equal; rewrite ?(length_app out); cbn [length]; lia.
Qed.

(** *** Where the semicolon is *)

Lemma find_semicolon_spec pre a l post :
  59 ∉ a ->
  find_semicolon (pre ++ 38 :: (a ++ l) ++ post) (Zlen pre + 1 + Zlen a) (Zlen (pre ++ 38 :: a ++ l)) =
    Done (Zlen pre + 1 + Z.of_nat (until is_semicolon (a ++ l))).
Proof.
  intros Ha. unfold find_semicolon.
  assert (Hu : until is_semicolon (a ++ l) = (length a + until is_semicolon l)%nat).
  { clear - Ha. induction a as [|x a IH]; [done|]. apply not_elem_of_cons in Ha as [Hx Ha]. cbn [app until length].
    unfold is_semicolon at 1. destruct (Z.eqb_spec x 59); [done|]. cbn. by rewrite IH. }
  rewrite Hu. replace (Zlen pre + 1 + Zlen a) with (Zlen (pre ++ 38 :: a)) by (rewrite length_app; cbn; lia).
  replace (Z.to_nat (Zlen (pre ++ 38 :: a ++ l) - Zlen (pre ++ 38 :: a))) with (length l)
    by (rewrite !length_app; cbn; rewrite length_app; lia).
  replace (pre ++ 38 :: (a ++ l) ++ post) with ((pre ++ 38 :: a) ++ l ++ post) by (by rewrite <-!app_assoc; cbn; rewrite <-?app_assoc).
  rewrite (scan_forward_spec is_semicolon). f_equal. rewrite length_app. cbn [length]. lia.
Qed.

Lemma until_semicolon_pos r :
  match until_semicolon r with
  | Some (name, rest) => Z.of_nat (until is_semicolon r) = Zlen name
  | None => until is_semicolon r = length r
  end.
Proof.
  unfold until_semicolon. pose proof (until_le is_semicolon r).
  destruct (Nat.ltb_spec (until is_semicolon r) (length r)); [rewrite length_take|]; lia.
Qed.

(** *** The three kinds of reference *)

Lemma hex_value_range c v : hex_value c = Some v -> 0 <= v < 16.
Proof. unfold hex_value. intros Hv. repeat case_match; simplify_eq; zbool; lia. Qed.

Lemma hex_value_valid c : AnscXmlIsValidBinaryChar c = bool_decide (is_Some (hex_value c)).
Proof.
  unfold AnscXmlIsValidBinaryChar, AnscXmlIsDigit, hex_value.
  repeat case_match; cbn; by rewrite ?bool_decide_true, ?bool_decide_false by first [by eauto | by intros []].
Qed.

Lemma AnscXmlGetByte_spec m p a b x y :
  buf_get m p = Done a -> buf_get m (p + 1) = Done b -> hex_value a = Some x -> hex_value b = Some y ->
  AnscXmlGetByte m p = Done (16 * x + y).
Proof.
  intros Ha Hb Hx Hy. unfold AnscXmlGetByte. rewrite Ha, Hb. cbn [mbind outcome_bind]. rewrite Hx, Hy. cbn [default].
  pose proof (hex_value_range _ _ Hx). pose proof (hex_value_range _ _ Hy).
  unfold UCHAR, id. rewrite Z.shiftl_mul_pow2 by lia. rewrite (Z.mod_small (x * 2 ^ 4)) by lia. rewrite Z.mod_small by lia.
  f_equal. lia.
Qed.

Lemma atoi_digits_stop d r acc : atoi_digits (d ++ 59 :: r) acc = atoi_digits d acc.
Proof. revert acc. induction d as [|c d IH]; intros acc; cbn; [done|]. destruct (AnscIsDigit c); [apply IH|done]. Qed.

Lemma atoi_stop d r : atoi (d ++ 59 :: r) = atoi d.
Proof.
  induction d as [|c d IH]; [done|]. cbn [atoi app]. destruct (_ || _); [done|].
  destruct (c =? 45); [by rewrite atoi_digits_stop|]. destruct (c =? 43); [by rewrite atoi_digits_stop|].
  apply (atoi_digits_stop (c :: d)).
Qed.

(** A reading at an offset behind [pre]. *)
Lemma get_behind pre a x b k : k = Zlen pre + Zlen a -> buf_get (pre ++ a ++ x :: b) k = Done x.
Proof.
  intros ->. rewrite app_assoc. replace (Zlen pre + Zlen a) with (Zlen (pre ++ a)) by (rewrite length_app; lia).
  apply buf_get_lookup. by apply list_lookup_middle.
Qed.

Lemma equal_memory_spec w rest code k :
  wf_cstr w -> equal_memory (w ++ rest) (code ++ replicate (S k) 0) (length w) = Done (bool_decide (w `prefix_of` code)).
Proof.
  intros Hw. revert code. induction Hw as [|c w Hc Hw IH]; intros code; cbn [length app]; cbn [equal_memory].
  { by rewrite bool_decide_true by apply prefix_nil. }
  destruct code as [|x code]; cbn [app replicate].
  - destruct (Z.eqb_spec c 0); [lia|]. rewrite bool_decide_false; [done|]. by intros [t Ht].
  - destruct (Z.eqb_spec c x) as [->|Hne].
    + rewrite IH. f_equal. apply bool_decide_ext. split; [by apply prefix_cons|by apply prefix_cons_inv_2].
    + rewrite bool_decide_false; [done|]. intros Hk. by apply prefix_cons_inv_1 in Hk.
Qed.

(** A code of the table ends with its only semicolon. *)
Definition good_row (row : Z * cstr) : Prop :=
  exists w, row.2 = 38 :: w ++ [59] /\ 59 ∉ w /\ (length w <= 7)%nat.

Lemma rows_good : Forall good_row Predefined_XML_Entities.
Proof.
  repeat (apply Forall_cons; split); [..|constructor].
  1: exists (lit "amp"). 2: exists (lit "lt"). 3: exists (lit "gt"). 4: exists (lit "apos"). 5: exists (lit "quot").
  all: split; [done|]; split; [by apply (bool_decide_eq_true_1 _); vm_compute|cbn; lia].
Qed.

Lemma code_prefix name w : 59 ∉ name -> 59 ∉ w -> name ++ [59] `prefix_of` w ++ [59] <-> w = name.
Proof.
  intros Hn Hw. split; [|by intros ->]. revert w Hw. induction name as [|c name IH]; intros w Hw Hp.
  - destruct w as [|x w]; [done|]. apply prefix_cons_inv_1 in Hp. subst x. by destruct Hw; left.
  - apply not_elem_of_cons in Hn as [Hc Hn]. destruct w as [|x w].
    + by apply prefix_cons_inv_1 in Hp.
    + apply not_elem_of_cons in Hw as [Hx Hw]. pose proof (prefix_cons_inv_1 _ _ _ _ Hp). subst x.
      apply prefix_cons_inv_2 in Hp. f_equal. by apply IH.
Qed.

Lemma match_entity_spec m pre name rest rows :
  wf_cstr name -> 59 ∉ name -> m = pre ++ 38 :: name ++ 59 :: rest -> Forall good_row rows ->
  match_entity m (Zlen pre) (Zlen name + 2) rows =
    Done (fst <$> (snd <$> list_find (fun row => row.2 = 38 :: name ++ [59]) rows)).
Proof.
  intros Hw Hn -> Hrows. induction Hrows as [|[u code] rows (w & E & Hs & Hl) Hrows IH]; [done|].
  cbn [snd] in E. subst code. cbn [match_entity list_find]. rewrite Nat2Z.id, drop_app_length.
  assert (Hlen : Z.to_nat (Zlen name + 2) = length (38 :: name ++ [59])) by (cbn; rewrite length_app; cbn; lia).
  rewrite Hlen. replace (38 :: name ++ 59 :: rest) with ((38 :: name ++ [59]) ++ rest) at 1 by (cbn; by rewrite <-app_assoc).
  replace (Z.to_nat MAX_LEN_PREDEFINED_ENTITIES - length (38%Z :: w ++ [59%Z]))%nat with (S (7 - length w))
    by (unfold MAX_LEN_PREDEFINED_ENTITIES; cbn; rewrite length_app; cbn; lia).
  rewrite equal_memory_spec.
  2: { constructor; [lia|]. apply wf_cstr_app. split; [done|]. by repeat constructor. }
  cbn [mbind outcome_bind].
  assert (Heq : bool_decide (38 :: name ++ [59] `prefix_of` 38 :: w ++ [59]) = bool_decide (w = name)).
  { apply bool_decide_ext. rewrite <-code_prefix by done. split; [by apply prefix_cons_inv_2|by apply prefix_cons]. }
  rewrite Heq. destruct (decide (w = name)) as [->|Hwn]; [rewrite bool_decide_true by done|rewrite bool_decide_false by done].
  - by rewrite decide_True.
  - rewrite decide_False by (cbn; intros [= [? _]%app_inj_tail]; done). rewrite IH.
    by destruct (list_find _ rows) as [[i row]|].
Qed.

(** *** One round *)

Definition next_state (out gap : mem) (c : Z) (r post : mem) (chg : bool) : refs :=
  let keep := at_state (out ++ [c]) (tail (gap ++ [c])) r post chg in
  if c =? 38 then
    match until_semicolon r with
    | None => at_state out gap (c :: r) post chg
    | Some (name, rest) =>
        match decode name with
        | Some b => at_state (out ++ [b]) (tail (gap ++ 38 :: name ++ [59])) rest post true
        | None => keep
        end
    end
  else keep.

Section round.
Context (out gap r post : mem) (chg : bool).
Hypothesis Hgap : chg = false -> gap = [].
Hypothesis Hr : wf_cstr r.
Abbreviation here := (at_state out gap (38 :: r) post chg).
Abbreviation len := (Zlen (out ++ gap ++ 38 :: r)).
Abbreviation ipos := (Zlen out + Zlen gap).

Lemma here_mem : r_mem here = (out ++ gap) ++ 38 :: r ++ 0 :: post.
Proof. unfold at_state. cbn [r_mem]. by rewrite <-app_assoc. Qed.

Lemma ipos_pre : ipos = Zlen (out ++ gap).
Proof. rewrite length_app. lia. Qed.

Lemma find_encode pat k :
  pat = 38 :: k ->
  exists x, AnscXmlFindString (r_mem here) ipos pat = Done x /\ bool_decide (x = Some ipos) = bool_decide (k `prefix_of` r).
Proof.
  intros ->. rewrite here_mem, ipos_pre.
  destruct (find_here (out ++ gap) (38 :: r) post (38 :: k)) as (x & E & Hx); [by constructor; [lia|]|].
  exists x. split; [exact E|]. rewrite Hx. apply bool_decide_ext. split; [by apply prefix_cons_inv_2|by apply prefix_cons].
Qed.

(** The search for the semicolon behind a prefix [a] of the text. *)
Lemma find_end a l :
  r = a ++ l -> 59 ∉ a ->
  exists pos, find_semicolon (r_mem here) (ipos + 1 + Zlen a) len = Done pos /\
    match until_semicolon r with
    | Some (name, rest) => pos = ipos + 1 + Zlen name /\ (len <=? pos) = false
    | None => (len <=? pos) = true
    end.
Proof.
  intros E Ha. rewrite here_mem, ipos_pre. rewrite (app_assoc out gap (38 :: r)).
  pose proof (find_semicolon_spec (out ++ gap) a l (0 :: post) Ha) as Ef. rewrite <-E in Ef.
  eexists. split; [exact Ef|]. pose proof (until_semicolon_pos r) as Hp.
  destruct (until_semicolon r) as [[name rest]|] eqn:Es.
  - apply until_semicolon_Some in Es as [Er _]. split; [lia|]. apply Z.leb_gt.
    rewrite Hp, Er, (length_app (out ++ gap)). cbn [length]. rewrite (length_app name). cbn [length]. lia.
  - apply Z.leb_le. rewrite Hp, (length_app (out ++ gap)). cbn [length]. lia.
Qed.

Lemma get_in k x a b : r = a ++ x :: b -> k = ipos + 1 + Zlen a -> buf_get (r_mem here) k = Done x.
Proof.
  intros Er ->. rewrite here_mem, ipos_pre, Er, <-(app_assoc a). cbn [app].
  apply (get_behind (out ++ gap) (38 :: a)). cbn [length]. lia.
Qed.

Lemma get_amp : buf_get (r_mem here) ipos = Done 38.
Proof. by apply get_behind. Qed.

Lemma keep_here : keep_char here 38 = Done (at_state (out ++ [38]) (tail (gap ++ [38])) r post chg).
Proof. by apply keep_char_spec. Qed.

Lemma replace_here name rest b :
  r = name ++ 59 :: rest ->
  replace_ref here (ipos + 1 + Zlen name) b = Done (at_state (out ++ [b]) (tail (gap ++ 38 :: name ++ [59])) rest post true).
Proof. intros Er. rewrite Er. apply replace_ref_spec. Qed.

Lemma ref_step_hex :
  lit "#x" `prefix_of` r -> ref_step len here = Done (next_state out gap 38 r post chg).
Proof.
  intros Hx. pose proof Hx as [h Eh]. unfold ref_step. change (r_i here) with ipos.
  rewrite get_amp. cbn [mbind outcome_bind negb Z.eqb Pos.eqb].
  destruct (find_encode hexEncode (lit "#x")) as (x & -> & Hb); [done|]. cbn [mbind outcome_bind].
  rewrite Hb, bool_decide_true by done.
  destruct (find_end (lit "#x") h Eh) as (pos & Ep & Hpos); [by apply (bool_decide_eq_true_1 _); vm_compute|].
  replace (ipos + 1 + Zlen (lit "#x")) with (ipos + hexSize) in Ep by (unfold hexSize; cbn; lia).
  rewrite Ep. cbn [mbind outcome_bind]. unfold next_state. cbn [Z.eqb Pos.eqb].
  destruct (until_semicolon r) as [[name rest]|] eqn:Es; [|by rewrite Hpos].
  destruct Hpos as [-> ->]. apply until_semicolon_Some in Es as [Er Hn].
  assert (Hname : exists h', name = 35 :: 120 :: h').
  { rewrite Eh in Er. destruct name as [|n1 [|n2 name]]; [done|by injection Er|]. injection Er as <- <- _. by exists name. }
  destruct Hname as [h' ->]. unfold decode. rewrite bool_decide_true by by exists h'. 
  unfold hexSize. replace (ipos + 1 + Zlen (35 :: 120 :: h') - ipos) with (3 + Zlen h') by (cbn; lia).
  assert (Hc : forall k y a b, r = a ++ y :: b -> k = ipos + 1 + Zlen a -> buf_get (r_mem here) k = Done y)
    by (intros; by eapply get_in).
  destruct h' as [|a [|b [|c t]]]; cbn [length].
  1, 2: rewrite (proj2 (Z.eqb_neq _ _)) by lia; apply keep_here.
  2: rewrite (proj2 (Z.eqb_neq _ _)) by lia; apply keep_here.
  cbn [Z.eqb Pos.eqb Z.of_nat Pos.of_succ_nat Pos.succ Z.add Pos.add negb].
  rewrite (Hc (ipos + 3) a [35; 120] (b :: 59 :: rest)) by first [done | cbn; lia]. cbn [mbind outcome_bind].
  rewrite (Hc (ipos + 3 + 1) b [35; 120; a] (59 :: rest)) by first [done | cbn; lia]. cbn [mbind outcome_bind].
  rewrite !hex_value_valid.
  destruct (hex_value a) as [va|] eqn:Ea; [|by rewrite bool_decide_false by (by intros []); cbn; apply keep_here].
  destruct (hex_value b) as [vb|] eqn:Eb; [|by rewrite bool_decide_true, bool_decide_false by first [by eauto | by intros []]; cbn; apply keep_here].
  rewrite !bool_decide_true by eauto. cbn [negb orb].
  rewrite (AnscXmlGetByte_spec _ _ a b va vb); [|by apply (Hc _ a [35; 120] (b :: 59 :: rest)); [done|cbn; lia]|by apply (Hc _ b [35; 120; a] (59 :: rest)); [done|cbn; lia]|done|done].
  cbn [mbind outcome_bind]. change (negb (3 + Z.of_nat 2 =? 2 + 3)) with false. cbn iota.
  by apply (replace_here [35; 120; a; b] rest).
Qed.

Lemma ref_step_dec :
  ~ lit "#x" `prefix_of` r -> lit "#" `prefix_of` r -> ref_step len here = Done (next_state out gap 38 r post chg).
Proof.
  intros Hx Hd. pose proof Hd as [h Eh]. unfold ref_step. change (r_i here) with ipos.
  rewrite get_amp. cbn [mbind outcome_bind negb Z.eqb Pos.eqb].
  destruct (find_encode hexEncode (lit "#x")) as (x & -> & Hb); [done|]. cbn [mbind outcome_bind].
  rewrite Hb, bool_decide_false by done.
  destruct (find_encode decEncode (lit "#")) as (x' & -> & Hb'); [done|]. cbn [mbind outcome_bind].
  rewrite Hb', bool_decide_true by done.
  destruct (find_end (lit "#") h Eh) as (pos & Ep & Hpos); [by apply (bool_decide_eq_true_1 _); vm_compute|].
  replace (ipos + 1 + Zlen (lit "#")) with (ipos + decSize) in Ep by (unfold decSize; cbn; lia).
  rewrite Ep. cbn [mbind outcome_bind]. unfold next_state. cbn [Z.eqb Pos.eqb].
  destruct (until_semicolon r) as [[name rest]|] eqn:Es; [|by rewrite Hpos].
  destruct Hpos as [-> ->]. apply until_semicolon_Some in Es as [Er Hn].
  assert (Hname : exists d, name = 35 :: d).
  { rewrite Eh in Er. destruct name as [|n1 name]; [by injection Er|]. injection Er as <- _. by exists name. }
  destruct Hname as [d ->]. unfold decode. rewrite bool_decide_false; cycle 1.
  { intros [k Hk]. apply Hx. exists (k ++ 59 :: rest). by rewrite Er, Hk, <-app_assoc. }
  rewrite bool_decide_true by by exists d. cbn [tail].
  assert (Hv : dec_valid (r_mem here) (ipos + decSize) (ipos + 1 + Zlen (35 :: d) - ipos) =
    Done (negb (((length d =? 2)%nat || (length d =? 3)%nat) && negb (forallb AnscXmlIsDigit d)))).
  { unfold dec_valid, decSize. replace (ipos + 1 + Zlen (35 :: d) - ipos) with (2 + Zlen d) by (cbn; lia).
    assert (Hc : forall k y a b, r = a ++ y :: b -> k = ipos + 1 + Zlen a -> buf_get (r_mem here) k = Done y)
      by (intros; by eapply get_in).
    destruct d as [|d0 [|d1 [|d2 [|d3 t]]]]; cbn [length].
    - done.
    - done.
    - rewrite (Hc (ipos + 2) d0 [35] (d1 :: 59 :: rest)) by (done || (cbn; lia)). cbn [mbind outcome_bind].
      rewrite (Hc (ipos + 2 + 1) d1 [35; d0] (59 :: rest)) by first [done | cbn; lia].
      change (2 + Z.of_nat 2 =? 2 + 2) with true. cbn. by rewrite andb_true_r, negb_involutive.
    - rewrite (Hc (ipos + 2) d0 [35] (d1 :: d2 :: 59 :: rest)) by first [done | cbn; lia]. cbn [mbind outcome_bind].
      rewrite (Hc (ipos + 2 + 1) d1 [35; d0] (d2 :: 59 :: rest)) by first [done | cbn; lia]. cbn [mbind outcome_bind].
      rewrite (Hc (ipos + 2 + 2) d2 [35; d0; d1] (59 :: rest)) by first [done | cbn; lia].
      change (2 + Z.of_nat 3 =? 2 + 2) with false. change (2 + Z.of_nat 3 =? 3 + 2) with true. cbn.
      by rewrite andb_true_r, negb_involutive, andb_assoc.
    - rewrite (proj2 (Z.eqb_neq _ _)) by lia. rewrite (proj2 (Z.eqb_neq _ _)) by lia. done. }
  rewrite Hv. cbn [mbind outcome_bind]. rewrite negb_involutive.
  destruct (_ && _); [apply keep_here|].
  assert (Ht : string_at (r_mem here) (ipos + decSize) = Done (d ++ 59 :: rest)).
  { rewrite here_mem, Er. replace ((out ++ gap) ++ 38 :: ((35 :: d) ++ 59 :: rest) ++ 0 :: post) with
      (((out ++ gap) ++ [38; 35]) ++ (d ++ 59 :: rest) ++ 0 :: post) by (by rewrite <-!app_assoc).
    replace (ipos + decSize) with (Zlen ((out ++ gap) ++ [38; 35])) by (unfold decSize; rewrite !length_app; cbn; lia).
    apply string_at_spec. rewrite Er in Hr. by inversion_clear Hr. }
  rewrite Ht. cbn [mbind outcome_bind]. unfold atol. rewrite atoi_stop. by apply (replace_here (35 :: d) rest).
Qed.

Lemma ref_step_entity :
  ~ lit "#" `prefix_of` r -> ref_step len here = Done (next_state out gap 38 r post chg).
Proof.
  intros Hd. assert (Hx : ~ lit "#x" `prefix_of` r).
  { intros [k Hk]. apply Hd. exists (120 :: k). by rewrite Hk. }
  unfold ref_step. change (r_i here) with ipos. rewrite get_amp. cbn [mbind outcome_bind negb Z.eqb Pos.eqb].
  destruct (find_encode hexEncode (lit "#x")) as (x & -> & Hb); [done|]. cbn [mbind outcome_bind].
  rewrite Hb, bool_decide_false by done.
  destruct (find_encode decEncode (lit "#")) as (x' & -> & Hb'); [done|]. cbn [mbind outcome_bind].
  rewrite Hb', bool_decide_false by done.
  destruct (find_end [] r eq_refl) as (pos & Ep & Hpos); [apply not_elem_of_nil|].
  replace (ipos + 1 + Zlen []) with (ipos + 1) in Ep by (cbn; lia).
  rewrite Ep. cbn [mbind outcome_bind]. unfold next_state. cbn [Z.eqb Pos.eqb].
  destruct (until_semicolon r) as [[name rest]|] eqn:Es; [|by rewrite Hpos].
  destruct Hpos as [-> ->]. apply until_semicolon_Some in Es as [Er Hn]. unfold decode.
  rewrite !bool_decide_false; cycle 1.
  { intros [k Hk]. apply Hd. exists (k ++ 59 :: rest). by rewrite Er, Hk, <-app_assoc. }
  { intros [k Hk]. apply Hx. exists (k ++ 59 :: rest). by rewrite Er, Hk, <-app_assoc. }
  replace (ipos + 1 + Zlen name - ipos + 1) with (Zlen name + 2) by lia.
  rewrite Er in Hr. apply wf_cstr_app in Hr as [Hwn _].
  rewrite ipos_pre at 1. rewrite (match_entity_spec _ (out ++ gap) name (rest ++ 0 :: post));
    [|done|done|rewrite here_mem, Er; by rewrite <-!app_assoc|apply rows_good].
  cbn [mbind outcome_bind]. destruct (fst <$> _) as [b|]; [by apply replace_here|apply keep_here].
Qed.

End round.

Lemma ref_step_spec out gap c r post chg :
  (chg = false -> gap = []) -> wf_cstr r ->
  ref_step (Zlen (out ++ gap ++ c :: r)) (at_state out gap (c :: r) post chg) = Done (next_state out gap c r post chg).
Proof.
  intros Hg Hr. destruct (decide (c = 38)) as [->|Hc].
  - destruct (decide (lit "#x" `prefix_of` r)); [by apply ref_step_hex|].
    destruct (decide (lit "#" `prefix_of` r)); [by apply ref_step_dec|by apply ref_step_entity].
  - unfold ref_step. change (r_i _) with (Zlen out + Zlen gap).
    assert (Hget : buf_get (r_mem (at_state out gap (c :: r) post chg)) (Zlen out + Zlen gap) = Done c) by by apply get_behind.
    rewrite Hget. cbn [mbind outcome_bind].
    rewrite (proj2 (Z.eqb_neq c 38)) by done. cbn [negb]. rewrite keep_char_spec by done.
    unfold next_state. by rewrite (proj2 (Z.eqb_neq c 38)) by done.
Qed.

(** *** The whole loop *)

Lemma ref_loop_stuck n len s :
  ref_step len s = Done s -> r_i s < len -> ref_loop n len s = Stuck Diverge.
Proof.
  intros Hs Hi. induction n as [|n IH]; [done|]. cbn [ref_loop].
  rewrite (proj2 (Z.ltb_lt _ _)) by done. by rewrite Hs.
Qed.

Lemma ref_loop_spec n s : forall out gap post chg,
  (length s < n)%nat -> wf_cstr s -> (chg = false -> gap = []) ->
  match unescape s with
  | Some t => exists gap' chg', ref_loop n (Zlen (out ++ gap ++ s)) (at_state out gap s post chg) =
        Done (at_state (out ++ t) gap' [] post chg') /\
      Zlen ((out ++ t) ++ gap') = Zlen (out ++ gap ++ s) /\ (chg' = false -> chg = false /\ gap' = [] /\ t = s)
  | None => ref_loop n (Zlen (out ++ gap ++ s)) (at_state out gap s post chg) = Stuck Diverge
  end.
Proof.
  revert s. induction n as [|n IH]; intros s out gap post chg Hn Hs Hg; [lia|].
  destruct s as [|c r].
  { rewrite unescape_nil. exists gap, chg. cbn [ref_loop]. rewrite !app_nil_r. rewrite (proj2 (Z.ltb_ge _ _)).
    - split; [done|]. split; [done|]. auto.
    - unfold at_state. cbn [r_i]. rewrite length_app. lia. }
  inversion_clear Hs as [|? ? Hc Hr]. cbn [length] in Hn. rewrite unescape_cons.
  assert (Hi : r_i (at_state out gap (c :: r) post chg) < Zlen (out ++ gap ++ c :: r)).
  { unfold at_state. cbn [r_i]. rewrite !length_app. cbn [length]. lia. }
  assert (Hkeep : next_state out gap c r post chg = at_state (out ++ [c]) (tail (gap ++ [c])) r post chg ->
    match cons c <$> unescape r with
    | Some t => exists gap' chg', ref_loop (S n) (Zlen (out ++ gap ++ c :: r)) (at_state out gap (c :: r) post chg) =
          Done (at_state (out ++ t) gap' [] post chg') /\
        Zlen ((out ++ t) ++ gap') = Zlen (out ++ gap ++ c :: r) /\ (chg' = false -> chg = false /\ gap' = [] /\ t = c :: r)
    | None => ref_loop (S n) (Zlen (out ++ gap ++ c :: r)) (at_state out gap (c :: r) post chg) = Stuck Diverge
    end).
  { intros Hk. specialize (IH r (out ++ [c]) (tail (gap ++ [c])) post chg ltac:(lia) Hr).
    assert (Hl : Zlen ((out ++ [c]) ++ tail (gap ++ [c]) ++ r) = Zlen (out ++ gap ++ c :: r)).
    { pose proof (tail_length (gap ++ [c]) ltac:(by destruct gap)) as Ht. rewrite !length_app in *. cbn [length] in *. lia. }
    rewrite Hl in IH. cbn [ref_loop]. rewrite (proj2 (Z.ltb_lt _ _)) by done. rewrite ref_step_spec by done.
    cbn [mbind outcome_bind]. rewrite Hk.
    assert (Hg' : chg = false -> tail (gap ++ [c]) = []) by (intros ->; by rewrite Hg).
    specialize (IH Hg'). destruct (unescape r) as [t|]; cbn [fmap option_fmap option_map]; [|done].
    destruct IH as (gap' & chg' & E & Hlen & Hend). exists gap', chg'. rewrite <-(app_assoc out [c] t) in E, Hlen. cbn [app] in E, Hlen.
    split; [done|]. split; [done|]. intros ->. by destruct Hend as (-> & -> & ->). }
  unfold next_state in Hkeep. destruct (Z.eqb_spec c 38) as [->|]; [|by apply Hkeep].
  destruct (until_semicolon r) as [[name rest]|] eqn:Es; cbn [mbind option_bind].
  2: { apply ref_loop_stuck; [|done]. rewrite ref_step_spec by done. unfold next_state. by rewrite Es. }
  destruct (decode name) as [b|] eqn:Ed; [|by apply Hkeep]. clear Hkeep.
  pose proof Es as Er. apply until_semicolon_Some in Er as [Er _].
  assert (Hrest : wf_cstr rest) by (rewrite Er in Hr; apply wf_cstr_app in Hr as [_ Hr]; by inversion_clear Hr).
  specialize (IH rest (out ++ [b]) (tail (gap ++ 38 :: name ++ [59])) post true).
  assert (Hl : Zlen ((out ++ [b]) ++ tail (gap ++ 38 :: name ++ [59]) ++ rest) = Zlen (out ++ gap ++ 38 :: r)).
  { pose proof (tail_length (gap ++ 38 :: name ++ [59]) ltac:(by destruct gap)) as Ht.
    rewrite Er, !length_app in *. cbn [length] in *. rewrite !length_app in *. cbn [length] in *. lia. }
  rewrite Hl in IH. cbn [ref_loop]. rewrite (proj2 (Z.ltb_lt _ _)) by done. rewrite ref_step_spec by done.
  unfold next_state. rewrite Es, Ed. cbn [Z.eqb Pos.eqb mbind outcome_bind].
  assert (Hnr : (length rest < n)%nat) by (rewrite Er, length_app in Hn; cbn [length] in Hn; lia).
  specialize (IH Hnr Hrest ltac:(done)). destruct (unescape rest) as [t|]; cbn [fmap option_fmap option_map]; [|done].
  destruct IH as (gap' & chg' & E & Hlen & Hend). exists gap', chg'. rewrite <-(app_assoc out [b] t) in E, Hlen. cbn [app] in E, Hlen.
  split; [done|]. split; [done|]. intros ->. by destruct Hend.
Qed.

End ref_loop.

(** Resolving leaves the resolved text, zeros up to the old length, and what is
    behind the string. *)
Lemma RemoveCharReference_run `{Platform} s post :
  wf_cstr s ->
  match unescape s with
  | Some t => exists chg, AnscXmlRemoveCharReference (Some (s ++ 0 :: post)) (Some (Zlen s)) =
        Done (chg, Some (t ++ replicate (length s - length t) 0 ++ 0 :: post), Some (Zlen t)) /\
      (length t <= length s)%nat /\ (chg = false -> t = s)
  | None => AnscXmlRemoveCharReference (Some (s ++ 0 :: post)) (Some (Zlen s)) = Stuck Diverge
  end.
Proof.
  intros Hs. unfold AnscXmlRemoveCharReference. rewrite Nat2Z.id.
  pose proof (ref_loop_spec (S (length s)) s [] [] post false ltac:(lia) Hs ltac:(done)) as Hl.
  unfold at_state in Hl at 1 3. cbn [app length] in Hl. change (Z.of_nat 0 + Z.of_nat 0) with 0 in Hl. change (Z.of_nat 0) with 0 in Hl.
  destruct (unescape s) as [t|]; [|by rewrite Hl].
  destruct Hl as (gap & chg & E & Hlen & Hend). cbn [app] in E, Hlen. rewrite E. cbn [mbind outcome_bind].
  unfold at_state. cbn [r_changed r_mem r_new app]. rewrite length_app in Hlen. exists chg.
  destruct chg.
  - assert (Hz : zero_memory (t ++ gap ++ 0 :: post) (Zlen t) (Zlen s - Zlen t) =
      Done (t ++ replicate (length s - length t) 0 ++ 0 :: post)).
    { unfold zero_memory. rewrite buf_copy_at; [|done|rewrite length_replicate; lia]. do 4 f_equal. lia. }
    rewrite Hz. cbn [mbind outcome_bind]. split; [done|]. split; [lia|done].
  - destruct Hend as (_ & -> & ->); [done|]. cbn [mbind outcome_bind app]. rewrite Nat.sub_diag. cbn [replicate app].
    split; [done|]. split; [lia|done].
Qed.

(** A reference that is not ended. *)
Lemma unescape_bare `{Platform} s1 s2 :
  38 ∉ s1 -> 59 ∉ s2 -> unescape (s1 ++ 38 :: s2) = None.
Proof.
  intros H1 H2. induction s1 as [|c s1 IH]; cbn [app].
  - rewrite unescape_cons. cbn [Z.eqb Pos.eqb]. destruct (until_semicolon s2) as [[name rest]|] eqn:E; [|done].
    apply until_semicolon_Some in E as [-> _]. exfalso. apply H2. apply elem_of_app. right. left.
  - apply not_elem_of_cons in H1 as [Hc H1]. rewrite unescape_cons. destruct (Z.eqb_spec c 38); [done|].
    by rewrite IH.
Qed.

(** ** Escaping *)

Section escape.
Context `{Platform}.

Definition escape_char (c : Z) : cstr := default [c] (entity_of c).
Definition escape (s : cstr) : cstr := mjoin (escape_char <$> s).

(** What the first loop counts for a character, and what the second needs:
    the code of a character is copied with its terminator. *)
Definition counted (c : Z) : Z :=
  if c =? 60 then 4 else if c =? 62 then 3 else if c =? 38 then 3 else if c =? 39 then 5 else if c =? 34 then 5 else 0.
Definition count (s : cstr) : Z := foldr (fun c n => counted c + n) 0 s.
Fixpoint extent (s : cstr) : Z :=
  match s with
  | [] => 0
  | c :: s =>
      match entity_of c with
      | None => 1 + extent s
      | Some Encode => Z.max (Zlen Encode + 1) (Zlen Encode + extent s)
      end
  end.

Lemma extra_size_spec c : 0 < c < 256 -> extra_size c = Done (counted c).
Proof.
  intros Hc. unfold extra_size, find_special. rewrite (proj2 (Z.eqb_neq c 0)) by lia.
  unfold counted, Xml_Chars. cbn [list_find].
  destruct (Z.eqb_spec c 60) as [->|]; [by rewrite decide_True|rewrite decide_False by congruence].
  destruct (Z.eqb_spec c 62) as [->|]; [by rewrite decide_True|rewrite decide_False by congruence].
  destruct (Z.eqb_spec c 38) as [->|]; [by rewrite decide_True|rewrite decide_False by congruence].
  destruct (Z.eqb_spec c 39) as [->|]; [by rewrite decide_True|rewrite decide_False by congruence].
  destruct (Z.eqb_spec c 34) as [->|]; [by rewrite decide_True|rewrite decide_False by congruence].
  done.
Qed.

Lemma entity_of_cases c :
  (c = 38 /\ entity_of c = Some (lit "&amp;")) \/ (c = 60 /\ entity_of c = Some (lit "&lt;")) \/
  (c = 62 /\ entity_of c = Some (lit "&gt;")) \/ (c = 39 /\ entity_of c = Some (lit "&apos;")) \/
  (c = 34 /\ entity_of c = Some ([38] ++ lit "quot;")) \/
  (counted c = 0 /\ c ≠ 38 /\ entity_of c = None).
Proof.
  unfold entity_of, Predefined_XML_Entities, counted. cbn [list_find fst].
  destruct (decide (38 = c)) as [<-|]; [by left|]. destruct (decide (60 = c)) as [<-|]; [by right; left|].
  destruct (decide (62 = c)) as [<-|]; [by right; right; left|]. destruct (decide (39 = c)) as [<-|]; [by do 3 right; left|].
  destruct (decide (34 = c)) as [<-|]; [by do 4 right; left|]. do 5 right.
  rewrite !(proj2 (Z.eqb_neq c _)) by congruence. split; [done|]. split; [congruence|done].
Qed.

Lemma counted_range c : 0 <= counted c <= 5.
Proof. unfold counted. repeat case_match; lia. Qed.

Lemma count_range s : 0 <= count s <= 5 * Zlen s.
Proof. induction s as [|c s IH]; cbn [count foldr length]; [lia|]. pose proof (counted_range c). unfold count in IH. lia. Qed.

Lemma escape_cons c s : escape (c :: s) = escape_char c ++ escape s.
Proof. done. Qed.

(** Nothing to escape. *)
Lemma count_zero s : count s = 0 -> escape s = s.
Proof.
  induction s as [|c s IH]; [done|]. cbn [count foldr]. intros Hc.
  pose proof (counted_range c). pose proof (count_range s). unfold count in *.
  rewrite escape_cons, IH by lia. unfold escape_char.
  destruct (entity_of_cases c) as [[-> _]|[[-> _]|[[-> _]|[[-> _]|[[-> _]|(_ & _ & ->)]]]]]; try (cbn in *; lia). done.
Qed.

(** The text is resolved to what was escaped. *)
Lemma unescape_escape s : wf_cstr s -> unescape (escape s) = Some s.
Proof.
  induction 1 as [|c s Hc Hs IH]; [done|]. rewrite escape_cons. unfold escape_char.
  assert (Hent : forall w, 59 ∉ w -> decode w = Some c ->
    unescape ((38 :: w ++ [59]) ++ escape s) = Some (c :: s)).
  { intros w Hw Hd. cbn [app]. rewrite unescape_cons. cbn [Z.eqb Pos.eqb].
    rewrite <-app_assoc. cbn [app]. rewrite until_semicolon_app by done. cbn [mbind option_bind].
    by rewrite Hd, IH. }
  destruct (entity_of_cases c) as [[-> ->]|[[-> ->]|[[-> ->]|[[-> ->]|[[-> ->]|(_ & Hc' & ->)]]]]]; cbn [default].
  1: apply (Hent (lit "amp")). 3: apply (Hent (lit "lt")). 5: apply (Hent (lit "gt")).
  7: apply (Hent (lit "apos")). 9: apply (Hent (lit "quot")).
  11: { unfold id. cbn [app]. rewrite unescape_cons. by rewrite (proj2 (Z.eqb_neq c 38)), IH. }
  all: first [by apply (bool_decide_eq_true_1 _); vm_compute | done].
Qed.

Lemma escape_wf s : wf_cstr s -> wf_cstr (escape s).
Proof.
  induction 1 as [|c s Hc Hs IH]; [constructor|]. rewrite escape_cons. apply wf_cstr_app. split; [|done]. unfold escape_char.
  destruct (entity_of_cases c) as [[-> ->]|[[-> ->]|[[-> ->]|[[-> ->]|[[-> ->]|(_ & _ & ->)]]]]]; cbn [default]; unfold id.
  6: by constructor.
  all: by apply (bool_decide_eq_true_1 (Forall _ _)); vm_compute.
Qed.

Lemma extent_length s : Zlen (escape s) <= extent s <= Zlen (escape s) + 1.
Proof.
  induction s as [|c s IH]; [done|]. rewrite escape_cons, length_app. cbn [extent]. unfold escape_char.
  destruct (entity_of c); cbn [default]; unfold id; cbn [length]; lia.
Qed.

(** What the counting of the first loop misses. *)
Lemma escape_length s :
  Zlen (escape s) = Zlen s + count s + Zlen (filter (fun c => c = 38) s) - Zlen (filter (fun c => c = 60) s).
Proof.
  induction s as [|c s IH]; [done|]. rewrite escape_cons, length_app. cbn [count foldr length]. fold (count s).
  rewrite !filter_cons. unfold escape_char.
  destruct (entity_of_cases c) as [[-> ->]|[[-> ->]|[[-> ->]|[[-> ->]|[[-> ->]|(Hk & Hc & ->)]]]]];
    cbn [default]; unfold id.
  1: rewrite decide_True, decide_False by done; cbn in *; lia.
  1: rewrite decide_False, decide_True by done; cbn in *; lia.
  1-3: rewrite !decide_False by done; cbn in *; lia.
  rewrite Hk. rewrite decide_False by done. rewrite decide_False by (by intros ->). unfold id. cbn [length]. lia.
Qed.

Definition escape_body (src : mem) (i : Z) '((out, pos) : mem * Z) : outcome (mem * Z) :=
  c ← buf_get src i;
  match entity_of c with
  | None => out ← buf_put out pos c; Done (out, pos + 1)
  | Some Encode => out ← buf_copy out pos (Encode ++ [0]); Done (out, pos + strlen Encode)
  end.

Lemma buf_copy_past b i src : Zlen b < i + Zlen src -> buf_copy b i src = Stuck OutOfBounds.
Proof. intros Hi. unfold buf_copy. by rewrite (proj2 (Z.leb_gt (i + Zlen src) _)), andb_false_r by lia. Qed.

(** The second loop, from any point of the text on. *)
Lemma escape_loop pre s post (e : cstr) (k : nat) :
  for_from (Zlen pre) (length s) (escape_body (pre ++ s ++ post)) (e ++ replicate k 0, Zlen e) =
    if extent s <=? Z.of_nat k
    then Done (e ++ escape s ++ replicate (k - length (escape s)) 0, Zlen (e ++ escape s))
    else Stuck OutOfBounds.
Proof.
  revert pre e k. induction s as [|c s IH]; intros pre e k; cbn [length for_from extent].
  { rewrite (proj2 (Z.leb_le _ _)) by lia. cbn [escape fmap list_fmap mjoin list_join app length]. by rewrite Nat.sub_0_r, app_nil_r. }
  assert (Hget : buf_get (pre ++ (c :: s) ++ post) (Zlen pre) = Done c).
  { apply buf_get_lookup. by apply list_lookup_middle. }
  assert (Hstep : escape_body (pre ++ (c :: s) ++ post) (Zlen pre) (e ++ replicate k 0, Zlen e) =
    match entity_of c with
    | None => out ← buf_put (e ++ replicate k 0) (Zlen e) c; Done (out, Zlen e + 1)
    | Some Encode => out ← buf_copy (e ++ replicate k 0) (Zlen e) (Encode ++ [0]); Done (out, Zlen e + strlen Encode)
    end) by (unfold escape_body; by rewrite Hget).
  rewrite Hstep. clear Hstep Hget.
  replace (pre ++ (c :: s) ++ post) with ((pre ++ [c]) ++ s ++ post) by by rewrite <-app_assoc.
  replace (Zlen pre + 1) with (Zlen (pre ++ [c])) by (rewrite length_app; cbn; lia).
  rewrite escape_cons. unfold escape_char. destruct (entity_of c) as [Encode|] eqn:Ec; cbn [default]; unfold id.
  - destruct (Z.leb_spec (Zlen Encode + 1) (Z.of_nat k)) as [Hk|Hk].
    + assert (Hput : buf_copy (e ++ replicate k 0) (Zlen e) (Encode ++ [0]) =
        Done ((e ++ Encode) ++ replicate (k - length Encode) 0)).
      { replace k with (length (Encode ++ [0%Z]) + (k - length Encode - 1))%nat at 1 by (rewrite length_app; cbn; lia).
        rewrite replicate_add. rewrite buf_copy_at by (rewrite ?length_replicate; done).
        replace (k - length Encode)%nat with (S (k - length Encode - 1)) at 2 by lia. cbn [replicate]. by rewrite <-!app_assoc. }
      rewrite Hput. cbn [mbind outcome_bind]. unfold strlen.
      replace (Zlen e + Zlen Encode) with (Zlen (e ++ Encode)) by (rewrite length_app; lia).
      rewrite IH.
      destruct (Z.leb_spec (extent s) (Z.of_nat (k - length Encode))), (Z.leb_spec (Z.max (Zlen Encode + 1) (Zlen Encode + extent s)) (Z.of_nat k));
        try lia; [|done].
      rewrite <-!app_assoc, (length_app Encode). by replace (k - length Encode - length (escape s))%nat with (k - (length Encode + length (escape s)))%nat by lia.
    + rewrite buf_copy_past by (rewrite !length_app, length_replicate; cbn; lia). cbn [mbind outcome_bind].
      by rewrite (proj2 (Z.leb_gt _ _)) by lia.
  - destruct k as [|k].
    + rewrite app_nil_r. unfold buf_put. rewrite buf_copy_past by (cbn; lia). cbn [mbind outcome_bind].
      pose proof (extent_length s). by rewrite (proj2 (Z.leb_gt _ _)) by lia.
    + cbn [replicate]. rewrite buf_put_at by done. cbn [mbind outcome_bind].
      replace (e ++ c :: replicate k 0) with ((e ++ [c]) ++ replicate k 0) by by rewrite <-app_assoc.
      replace (Zlen e + 1) with (Zlen (e ++ [c])) by (rewrite length_app; cbn; lia).
      rewrite IH. destruct (Z.leb_spec (extent s) (Z.of_nat k)), (Z.leb_spec (1 + extent s) (Z.of_nat (S k))); try lia; [|done].
      by rewrite <-!app_assoc.
Qed.

Lemma count_loop pre s post n :
  wf_cstr s -> 0 <= n -> n + count s < 2 ^ ulong_bits ->
  for_from (Zlen pre) (length s) (fun i charCount =>
    c ← buf_get (pre ++ s ++ post) i; k ← extra_size c; Done (ULONG (charCount + k))) n = Done (n + count s).
Proof.
  intros Hs. revert pre n. induction Hs as [|c s Hc Hs IH]; intros pre n Hn Hfit; cbn [length for_from count foldr].
  { by rewrite Z.add_0_r. }
  cbn [count foldr] in Hfit. fold (count s) in *.
  assert (Hget : buf_get (pre ++ (c :: s) ++ post) (Zlen pre) = Done c).
  { apply buf_get_lookup. by apply list_lookup_middle. }
  rewrite Hget. cbn [mbind outcome_bind]. rewrite extra_size_spec by done. cbn [mbind outcome_bind].
  pose proof (counted_range c). pose proof (count_range s). rewrite ULONG_small by lia.
  replace (pre ++ (c :: s) ++ post) with ((pre ++ [c]) ++ s ++ post) by by rewrite <-app_assoc.
  replace (Zlen pre + 1) with (Zlen (pre ++ [c])) by (rewrite length_app; cbn; lia).
  rewrite IH by lia. f_equal. lia.
Qed.

(** Escaping a string: the copy when nothing is to be escaped, else the escaped
    text in a block of [length + count + 16] bytes, unless it is too small. *)
Lemma AnscXmlEscapeChars_run s post a :
  wf_cstr s -> s ≠ [] -> 6 * Zlen s + 16 < 2 ^ ulong_bits ->
  AnscXmlEscapeChars (Some (s ++ 0 :: post)) (Zlen s) a =
    if negb (next_alloc a).1 then Done (None, if count s =? 0 then Zlen s else 0, (next_alloc a).2)
    else if count s =? 0 then Done (Some (s ++ [0]), Zlen s, (next_alloc a).2)
    else if extent s <=? Zlen s + count s + 16
    then Done (Some (escape s ++ replicate (Z.to_nat (Zlen s + count s + 16 - Zlen (escape s))) 0), Zlen (escape s), (next_alloc a).2)
    else Stuck OutOfBounds.
Proof.
  intros Hs Hne Hfit. unfold AnscXmlEscapeChars. pose proof (count_range s) as Hc.
  rewrite (proj2 (Z.eqb_neq (Zlen s) 0)) by (destruct s; [done|cbn; lia]). rewrite Nat2Z.id.
  pose proof (count_loop [] s (0 :: post) 0 Hs ltac:(lia) ltac:(lia)) as Ecount. cbn [app length] in Ecount.
  change (Z.of_nat 0) with 0 in Ecount. rewrite Ecount. cbn [mbind outcome_bind]. rewrite Z.add_0_l.
  destruct (Z.eqb_spec (count s) 0) as [E0|E0].
  - pose proof (string_at_spec [] s post Hs) as Est. cbn [app length] in Est. change (Z.of_nat 0) with 0 in Est. rewrite Est.
    cbn [mbind outcome_bind]. destruct (next_alloc a) as [[] a']; done.
  - destruct (next_alloc a) as [[] a']; cbn [negb fst snd]; [|done]. rewrite ULONG_small by lia.
    pose proof (escape_loop [] s (0 :: post) [] (Z.to_nat (Zlen s + count s + 16))) as El.
    cbn [app length] in El. change (Z.of_nat 0) with 0 in El. unfold escape_body in El. rewrite El.
    rewrite (Z2Nat.id (Zlen s + count s + 16)) by lia.
    destruct (extent s <=? Zlen s + count s + 16); cbn [mbind outcome_bind]; [|done].
    by replace (Z.to_nat (Zlen s + count s + 16) - length (escape s))%nat
      with (Z.to_nat (Zlen s + count s + 16 - Zlen (escape s))) by lia.
Qed.

(** The block that is made, when the text has enough room. *)
Lemma EscapeChars_block s post a :
  wf_cstr s -> s ≠ [] -> 6 * Zlen s + 16 < 2 ^ ulong_bits ->
  Zlen (filter (fun c => c = 38) s) - Zlen (filter (fun c => c = 60) s) <= 15 -> (next_alloc a).1 = true ->
  exists post', AnscXmlEscapeChars (Some (s ++ 0 :: post)) (Zlen s) a = Done (Some (escape s ++ 0 :: post'), Zlen (escape s), (next_alloc a).2).
Proof.
  intros Hs Hne Hfit Hamp Ha. rewrite AnscXmlEscapeChars_run by done. rewrite Ha. cbn [negb].
  destruct (Z.eqb_spec (count s) 0) as [E0|E0]; [exists []; by rewrite count_zero|].
  pose proof (extent_length s). pose proof (escape_length s). rewrite (proj2 (Z.leb_le _ _)) by lia.
  exists (replicate (Z.to_nat (Zlen s + count s + 15 - Zlen (escape s))) 0).
  by replace (Z.to_nat (Zlen s + count s + 16 - Zlen (escape s))) with (S (Z.to_nat (Zlen s + count s + 15 - Zlen (escape s)))) by lia.
Qed.

End escape.

(** ** Hexadecimal data *)

Section hex.
Context `{Platform}.

Definition hex_digit_of (d : Z) : Z := if d <=? 9 then d + 48 else d + 55.
Definition to_hex (data : list Z) : cstr :=
  mjoin ((fun c => [hex_digit_of (c / 16); hex_digit_of (c mod 16)]) <$> data).

Lemma hex_value_digit d : 0 <= d < 16 -> hex_value (hex_digit_of d) = Some d.
Proof.
  intros Hd. unfold hex_value, hex_digit_of.
  destruct (Z.leb_spec d 9).
  - rewrite (proj2 (Z.leb_le _ _)), (proj2 (Z.leb_le _ _)) by lia. cbn. f_equal. lia.
  - rewrite (proj2 (Z.leb_le 48 _)), (proj2 (Z.leb_gt _ 57)) by lia. cbn.
    rewrite (proj2 (Z.leb_le 65 _)), (proj2 (Z.leb_le _ 70)) by lia. cbn. f_equal. lia.
Qed.

Lemma to_hex_cons c data : to_hex (c :: data) = hex_digit_of (c / 16) :: hex_digit_of (c mod 16) :: to_hex data.
Proof. done. Qed.

Lemma to_hex_length data : length (to_hex data) = (2 * length data)%nat.
Proof. induction data as [|c data IH]; [done|]. rewrite to_hex_cons. cbn [length]. lia. Qed.

(** The loop that reads the digits, two for a byte. *)
Lemma to_binary_tail data : forall pre post (done_ rest extra : list Z),
  Forall is_byte data ->
  length pre = (2 * length done_)%nat -> length rest = length data -> Forall (fun c => c = 0) rest ->
  to_binary (pre ++ to_hex data ++ post) (Zlen pre) (2 * length data) (done_ ++ rest ++ extra) = Done (Some (done_ ++ data ++ extra)).
Proof.
  induction data as [|c data IH]; intros pre post done_ rest extra Hdata Hpre Hrest Hz.
  { by destruct rest. }
  destruct rest as [|z rest]; [done|]. inversion_clear Hdata as [|? ? Hc Hd]. inversion_clear Hz as [|? ? -> Hz'].
  unfold is_byte in Hc. cbn [length]. replace (2 * S (length data))%nat with (S (S (2 * length data))) by lia.
  assert (H1 : 0 <= c / 16 < 16) by (split; [apply Z.div_pos; lia|apply Z.div_lt_upper_bound; lia]).
  assert (H2 : 0 <= c mod 16 < 16) by (apply Z.mod_pos_bound; lia).
  rewrite to_hex_cons. cbn [app to_binary].
  rewrite (buf_get_lookup _ (length pre) (hex_digit_of (c / 16))) by by apply list_lookup_middle.
  cbn [mbind outcome_bind]. rewrite hex_value_digit by done.
  assert (Hi : Zlen pre = 2 * Zlen done_) by lia.
  assert (Hdiv : Zlen pre / 2 = Zlen done_) by (rewrite Hi, Z.mul_comm; apply Z.div_mul; lia).
  assert (Hmod : Zlen pre mod 2 = 0) by (rewrite Hi, Z.mul_comm; apply Z.mod_mul; lia).
  rewrite Hdiv, Hmod. cbn [Z.eqb negb].
  rewrite (buf_get_lookup _ (length done_) 0) by by apply list_lookup_middle. cbn [mbind outcome_bind].
  rewrite buf_put_at by done. cbn [mbind outcome_bind to_binary].
  assert (Hget : buf_get (pre ++ hex_digit_of (c / 16) :: hex_digit_of (c mod 16) :: to_hex data ++ post) (Zlen pre + 1) =
    Done (hex_digit_of (c mod 16))) by (by apply (get_behind pre [hex_digit_of (c / 16)])).
  rewrite Hget. cbn [mbind outcome_bind]. rewrite hex_value_digit by done.
  assert (Hdiv' : (Zlen pre + 1) / 2 = Zlen done_) by (rewrite Hi; symmetry; apply (Z.div_unique_pos _ 2 _ 1); lia).
  assert (Hmod' : (Zlen pre + 1) mod 2 = 1) by (rewrite Hi; symmetry; apply (Z.mod_unique_pos _ 2 (Zlen done_)); lia).
  rewrite Hdiv', Hmod'. cbn [Z.eqb negb].
  rewrite (buf_get_lookup _ (length done_) (UCHAR (0 + Z.shiftl (c / 16) 4))) by by apply list_lookup_middle.
  cbn [mbind outcome_bind]. rewrite buf_put_at by done. cbn [mbind outcome_bind].
  assert (Hval : UCHAR (UCHAR (0 + Z.shiftl (c / 16) 4) + c mod 16) = c).
  { unfold UCHAR. rewrite Z.shiftl_mul_pow2 by lia. rewrite (Z.mod_small (0 + _)) by lia.
    pose proof (Z.div_mod c 16). rewrite Z.mod_small by lia. lia. }
  rewrite Hval.
  specialize (IH (pre ++ [hex_digit_of (c / 16); hex_digit_of (c mod 16)]) post (done_ ++ [c]) rest extra Hd).
  rewrite <-!app_assoc in IH. cbn [app] in IH.
  replace (Zlen pre + 1 + 1) with (Zlen (pre ++ [hex_digit_of (c / 16); hex_digit_of (c mod 16)])) by (rewrite length_app; cbn; lia).
  apply IH; [rewrite !length_app; cbn; lia|cbn in Hrest; lia|done].
Qed.

Definition nibbles (data : list Z) : list Z := mjoin ((fun c => [c / 16; c mod 16]) <$> data).

Lemma nibbles_snoc data c : nibbles (data ++ [c]) = nibbles data ++ [c / 16; c mod 16].
Proof. unfold nibbles. by rewrite fmap_app, join_app. Qed.

Lemma nibbles_length data : length (nibbles data) = (2 * length data)%nat.
Proof. induction data as [|c data IH] using rev_ind; [done|]. rewrite nibbles_snoc, !length_app, IH. cbn. lia. Qed.

Lemma to_hex_nibbles data : to_hex data = hex_digit_of <$> nibbles data.
Proof. induction data as [|c data IH]; [done|]. rewrite to_hex_cons, IH. done. Qed.

Lemma nibble_range data : Forall is_byte data -> Forall (fun d => 0 <= d < 16) (nibbles data).
Proof.
  induction 1 as [|c data Hc Hd IH]; [constructor|]. unfold is_byte in Hc.
  change (nibbles (c :: data)) with ([c / 16; c mod 16] ++ nibbles data).
  cbn [app]. constructor; [|constructor; [|done]].
  - split; [apply Z.div_pos; lia|apply Z.div_lt_upper_bound; lia].
  - apply Z.mod_pos_bound. lia.
Qed.

Lemma byte_nibbles c : is_byte c -> Z.shiftr (Z.land c 240) 4 = c / 16 /\ Z.land c 15 = c mod 16.
Proof.
  intros Hc. unfold is_byte in Hc. split.
  - rewrite Z.shiftr_land. change (Z.shiftr 240 4) with (Z.ones 4). rewrite Z.land_ones, Z.shiftr_div_pow2 by lia.
    change (2 ^ 4) with 16. apply Z.mod_small. split; [apply Z.div_pos; lia|apply Z.div_lt_upper_bound; lia].
  - change 15 with (Z.ones 4). by rewrite Z.land_ones by lia.
Qed.

Lemma nibble_loop data spare :
  Forall is_byte data ->
  for_from 0 (length data) (fun i d =>
    c ← buf_get (data ++ spare) i;
    d ← buf_put d (i * 2) (Z.shiftr (Z.land c 240) 4);
    buf_put d (i * 2 + 1) (Z.land c 15)) (replicate (2 * length data) 0) = Done (nibbles data).
Proof.
  intros Hd.
  destruct (for_from_inv (fun i d => d = nibbles (take (Z.to_nat i) data) ++ replicate (2 * (length data - Z.to_nat i)) 0)
    (fun i d => c ← buf_get (data ++ spare) i;
      d ← buf_put d (i * 2) (Z.shiftr (Z.land c 240) 4);
      buf_put d (i * 2 + 1) (Z.land c 15)) 0 (length data) (replicate (2 * length data) 0)) as (d & -> & ->).
  - by rewrite Nat.sub_0_r.
  - intros j d Hj ->. destruct (lookup_lt_is_Some_2 data (Z.to_nat j)) as [c Hc]; [lia|].
    rewrite (buf_get_Z _ _ c) by (lia || by rewrite lookup_app_l by lia). cbn [mbind outcome_bind].
    destruct (byte_nibbles c) as [-> ->]; [by eapply Forall_lookup_1|].
    replace (2 * (length data - Z.to_nat j))%nat with (S (S (2 * (length data - Z.to_nat (j + 1))))) by lia. cbn [replicate].
    assert (Hl : Zlen (nibbles (take (Z.to_nat j) data)) = j * 2) by (rewrite nibbles_length, length_take; lia).
    rewrite buf_put_at by lia. cbn [mbind outcome_bind].
    replace (nibbles (take (Z.to_nat j) data) ++ c / 16 :: 0 :: replicate (2 * (length data - Z.to_nat (j + 1))) 0) with
      ((nibbles (take (Z.to_nat j) data) ++ [c / 16]) ++ 0 :: replicate (2 * (length data - Z.to_nat (j + 1))) 0) by by rewrite <-app_assoc.
    rewrite buf_put_at by (rewrite length_app; cbn; lia). eexists. split; [done|].
    replace (Z.to_nat (j + 1)) with (S (Z.to_nat j)) by lia. rewrite (take_S_r _ _ c) by done.
    by rewrite nibbles_snoc, <-!app_assoc.
  - rewrite Z.add_0_l, Nat2Z.id, firstn_all, Nat.sub_diag. cbn. by rewrite app_nil_r.
Qed.

Lemma AnscXmlFromBinaryToASCII_run data spare a :
  Forall is_byte data -> 2 * Zlen data < 2 ^ ulong_bits -> (length data <= length spare)%nat -> (next_alloc a).1 = true ->
  AnscXmlFromBinaryToASCII (data ++ spare) (Zlen data) a =
    Done (XML_SUCCESS, to_hex data ++ drop (length data) spare, 2 * Zlen data, (next_alloc a).2).
Proof.
  intros Hd Hfit Hsp Ha. unfold AnscXmlFromBinaryToASCII. rewrite ULONG_small by lia.
  destruct (next_alloc a) as [ok a']. cbn [fst snd] in *. subst ok. cbn [negb].
  rewrite Z.div_mul, Nat2Z.id by lia. replace (Z.to_nat (Zlen data * 2)) with (2 * length data)%nat by lia.
  rewrite nibble_loop by done. cbn [mbind outcome_bind].
  pose proof (nibbles_length data) as Hl. rewrite (for_map_inplace (fun c => if c <=? 9 then UCHAR (c + 48) else UCHAR (c - 10 + 65))) by lia.
  rewrite take_ge, drop_ge, app_nil_r by lia. cbn [mbind outcome_bind].
  assert (Hhex : (fun c => if c <=? 9 then UCHAR (c + 48) else UCHAR (c - 10 + 65)) <$> nibbles data = to_hex data).
  { rewrite to_hex_nibbles. apply list_fmap_ext. intros i d Hi. unfold hex_digit_of, UCHAR.
    pose proof (Forall_lookup_1 _ _ _ _ (nibble_range _ Hd) Hi). cbn in *. destruct (d <=? 9); rewrite Z.mod_small by lia; lia. }
  rewrite Hhex. pose proof (to_hex_length data) as Hlh.
  pose proof (buf_copy_at [] (data ++ take (length data) spare) (drop (length data) spare) (to_hex data) 0 eq_refl) as Hc.
  cbn [app] in Hc. rewrite <-app_assoc, take_drop in Hc. rewrite Hc by (rewrite length_app, length_take; lia).
  cbn [mbind outcome_bind]. do 3 f_equal. lia.
Qed.

Lemma AnscXmlFromASCIIToBinary_run data post a :
  Forall is_byte data -> (next_alloc a).1 = true ->
  AnscXmlFromASCIIToBinary (to_hex data ++ post) (2 * Zlen data) a =
    Done (XML_SUCCESS, data ++ drop (length data) (to_hex data ++ post), Zlen data, (next_alloc a).2).
Proof.
  intros Hd Ha. unfold AnscXmlFromASCIIToBinary. rewrite Z.mul_comm, Z.mod_mul, Z.div_mul by lia. cbn [Z.eqb negb].
  destruct (next_alloc a) as [ok a']. cbn [fst snd] in *. subst ok. cbn [negb]. rewrite Nat2Z.id.
  replace (Z.to_nat (Zlen data * 2)) with (2 * length data)%nat by lia.
  pose proof (to_binary_tail data [] post [] (replicate (length data) 0) [] Hd) as E. cbn [app length] in E. rewrite !app_nil_r in E.
  change (Z.of_nat 0) with 0 in E. rewrite E; [|done|by rewrite length_replicate|by apply Forall_replicate].
  cbn [mbind outcome_bind]. pose proof (to_hex_length data).
  pose proof (buf_copy_at [] (take (length data) (to_hex data ++ post)) (drop (length data) (to_hex data ++ post)) data 0 eq_refl) as Hc.
  cbn [app] in Hc. rewrite take_drop in Hc. by rewrite Hc by (rewrite length_take, length_app; lia).
Qed.

End hex.

(** ** Properties *)

(** C34. Escaped text is resolved to the original: [AnscXmlEscapeChars] on a
    string in which the ampersands outnumber the less-than signs by at most 15
    yields a text that [AnscXmlRemoveCharReference] turns back, in place, into
    the string, terminated and with its length. *)
Theorem xml_text_round_trip `{Platform} s post a
  (Hs : wf_cstr s) (Hne : s ≠ []) (Hfit : 6 * Zlen s + 16 < 2 ^ ulong_bits)
  (Hamp : Zlen (filter (fun c => c = 38) s) - Zlen (filter (fun c => c = 60) s) <= 15) (Ha : (next_alloc a).1 = true) :
  exists out n a' chg out', AnscXmlEscapeChars (Some (s ++ 0 :: post)) (Zlen s) a = Done (Some out, n, a') /\
    string_at out 0 = Done (escape s) /\ n = Zlen (escape s) /\
    AnscXmlRemoveCharReference (Some out) (Some n) = Done (chg, Some out', Some (Zlen s)) /\ string_at out' 0 = Done s.
Proof.
  destruct (EscapeChars_block s post a Hs Hne Hfit Hamp Ha) as [post' ->].
  pose proof (RemoveCharReference_run (escape s) post' (escape_wf s Hs)) as Hr.
  rewrite unescape_escape in Hr by done. destruct Hr as (chg & E & _ & _).
  eexists _, _, _, chg, _. split; [done|]. split; [by apply (string_at_spec []), escape_wf|]. split; [done|]. split; [exact E|].
  destruct (length (escape s) - length s)%nat as [|k]; cbn [replicate app]; by apply (string_at_spec []).
Qed.

Theorem xml_text_round_trip_witness :
  let _ := lp64 in
  exists out n a' chg out', AnscXmlEscapeChars (Some (lit "if (a<b && b>c)" ++ [0])) 15 [] = Done (Some out, n, a') /\
    string_at out 0 = Done (lit "if (a&lt;b &amp;&amp; b&gt;c)") /\ n = 29 /\
    AnscXmlRemoveCharReference (Some out) (Some n) = Done (chg, Some out', Some 15) /\
    string_at out' 0 = Done (lit "if (a<b && b>c)").
Proof.
  cbn zeta. apply (@xml_text_round_trip lp64 (lit "if (a<b && b>c)") [] []); [|done|by vm_compute|by vm_compute|done].
  by apply (bool_decide_eq_true_1 (Forall _ _)); vm_compute.
Defined.

(** The buffer of [AnscXmlEscapeChars] is counted with a table in the
    wrong order, which takes an ampersand for shorter and a less-than sign for
    longer than its code: with at most 15 more ampersands than less-than signs
    escaping stays in the buffer, with 17 more it writes past its end. *)
Theorem AnscXmlEscapeChars_overflow `{Platform} s post a
  (Hs : wf_cstr s) (Hne : s ≠ []) (Hfit : 6 * Zlen s + 16 < 2 ^ ulong_bits) (Ha : (next_alloc a).1 = true) :
  let surplus := Zlen (filter (fun c => c = 38) s) - Zlen (filter (fun c => c = 60) s) in
  (surplus <= 15 -> exists out n a', AnscXmlEscapeChars (Some (s ++ 0 :: post)) (Zlen s) a = Done (Some out, n, a')) /\
  (17 <= surplus -> AnscXmlEscapeChars (Some (s ++ 0 :: post)) (Zlen s) a = Stuck OutOfBounds).
Proof.
  cbn zeta. rewrite AnscXmlEscapeChars_run by done. rewrite Ha. cbn [negb].
  pose proof (extent_length s) as He. pose proof (escape_length s) as Hl. split; intros Hn.
  - destruct (count s =? 0); [by eexists _, _, _|]. rewrite (proj2 (Z.leb_le _ _)) by lia. by eexists _, _, _.
  - destruct (Z.eqb_spec (count s) 0) as [E0|_].
    + rewrite (count_zero s E0) in Hl. lia.
    + by rewrite (proj2 (Z.leb_gt _ _)) by lia.
Qed.

Theorem AnscXmlEscapeChars_overflow_witness :
  let _ := ilp32 in
  (exists out n a', AnscXmlEscapeChars (Some (replicate 15 38 ++ [0])) 15 [] = Done (Some out, n, a')) /\
  AnscXmlEscapeChars (Some (replicate 17 38 ++ [0])) 17 [] = Stuck OutOfBounds.
Proof.
  cbn zeta. split.
  - apply (@AnscXmlEscapeChars_overflow ilp32 (replicate 15 38) [] []); [|done|by vm_compute|done|by vm_compute].
    by apply Forall_replicate.
  - apply (@AnscXmlEscapeChars_overflow ilp32 (replicate 17 38) [] []); [|done|by vm_compute|done|by vm_compute].
    by apply Forall_replicate.
Defined.

(** C35. [AnscXmlRemoveCharReference] computes, in place, the function
    [unescape] on the string: the resolved text, zeros up to the old length and
    nothing else changed; where [unescape] has no value the loop never ends, and
    that is so for every text with an ampersand behind which there is no
    semicolon. *)
Theorem AnscXmlRemoveCharReference_spec `{Platform} s post (Hs : wf_cstr s) :
  match unescape s with
  | Some t => exists chg, AnscXmlRemoveCharReference (Some (s ++ 0 :: post)) (Some (Zlen s)) =
        Done (chg, Some (t ++ replicate (length s - length t) 0 ++ 0 :: post), Some (Zlen t)) /\
      (length t <= length s)%nat /\ (chg = false -> t = s)
  | None => AnscXmlRemoveCharReference (Some (s ++ 0 :: post)) (Some (Zlen s)) = Stuck Diverge
  end /\
  (forall s1 s2, s = s1 ++ 38 :: s2 -> 38 ∉ s1 -> 59 ∉ s2 ->
     AnscXmlRemoveCharReference (Some (s ++ 0 :: post)) (Some (Zlen s)) = Stuck Diverge).
Proof.
  pose proof (RemoveCharReference_run s post Hs) as Hrun. split; [done|].
  intros s1 s2 -> H1 H2. by rewrite unescape_bare in Hrun.
Qed.

Theorem AnscXmlRemoveCharReference_spec_witness :
  let _ := lp64 in
  (exists chg, AnscXmlRemoveCharReference (Some (lit "a&#x41;&#066;&;c" ++ [0])) (Some 16) =
     Done (chg, Some (lit "aAB&;c" ++ replicate 10 0 ++ [0]), Some 6)) /\
  AnscXmlRemoveCharReference (Some (lit "AT&T" ++ [0])) (Some 4) = Stuck Diverge.
Proof.
  cbn zeta. split.
  - destruct (@AnscXmlRemoveCharReference_spec lp64 (lit "a&#x41;&#066;&;c") []) as [Hr _].
    { by apply (bool_decide_eq_true_1 (Forall _ _)); vm_compute. }
    destruct Hr as (chg & E & _). exists chg. exact E.
  - apply (@AnscXmlRemoveCharReference_spec lp64 (lit "AT&T") []) with (s1 := lit "AT") (s2 := lit "T").
    all: by apply (bool_decide_eq_true_1 _); vm_compute.
Defined.

(** Binary data: [AnscXmlFromBinaryToASCII] turns the bytes in the front of
    a buffer that is large enough into their digits, two for a byte, and
    [AnscXmlFromASCIIToBinary] turns these back into the bytes. *)
Theorem xml_binary_round_trip `{Platform} data spare a a1
  (Hd : Forall is_byte data) (Hfit : 2 * Zlen data < 2 ^ ulong_bits) (Hsp : (length data <= length spare)%nat)
  (Ha : (next_alloc a).1 = true) (Ha1 : (next_alloc a1).1 = true) :
  exists buf a' buf' a1', AnscXmlFromBinaryToASCII (data ++ spare) (Zlen data) a = Done (XML_SUCCESS, buf, 2 * Zlen data, a') /\
    take (2 * length data) buf = to_hex data /\
    AnscXmlFromASCIIToBinary buf (2 * Zlen data) a1 = Done (XML_SUCCESS, buf', Zlen data, a1') /\
    take (length data) buf' = data.
Proof.
  eexists _, _, _, _. split; [by apply AnscXmlFromBinaryToASCII_run|]. split.
  { by rewrite <-to_hex_length, take_app_length. }
  split; [by apply AnscXmlFromASCIIToBinary_run|]. by rewrite take_app_length.
Qed.

Theorem xml_binary_round_trip_witness :
  let _ := ilp32 in
  exists buf a' buf' a1', AnscXmlFromBinaryToASCII ([0; 175; 255] ++ replicate 3 0) 3 [] = Done (XML_SUCCESS, buf, 6, a') /\
    take 6 buf = lit "00AFFF" /\
    AnscXmlFromASCIIToBinary buf 6 [] = Done (XML_SUCCESS, buf', 3, a1') /\ take 3 buf' = [0; 175; 255].
Proof.
  cbn zeta. apply (@xml_binary_round_trip ilp32 [0; 175; 255] (replicate 3 0) [] []);
    [|by vm_compute|cbn; lia|done|done].
  by apply (bool_decide_eq_true_1 (Forall _ _)); vm_compute.
Defined.
