(* ===== verification/XmlNode.v ===== *)
(** * Nodes of XML documents ([AnscXmlDomParser/ansc_xml_dom_node_*.c])

    A node has a name, attributes, a text and children, which it owns, so that
    a document is its root as a value.  This file holds the operations on nodes
    and the encoding of a node as text; encoding is shown to write a reference
    text, of the size the code announces.  The pointer to the parent, the
    context handles and the cookie [AnscXmlDomNodeRemove] tests are left out. *)

From S2P Require Import Prelude CStrings IpAddr XmlText.
Open Scope Z_scope.

Definition ANSC_OBJECT_NAME_SIZE : Z := 48.
Definition MAXIMUM_NODE_NAME : Z := ANSC_OBJECT_NAME_SIZE.
Definition MAXIMUM_ATTRIBUTE_NAME : Z := 64.
Definition SPACES_PER_LEVEL : Z := 2.

(** The data is a block of memory that holds [DataSize] bytes and more. *)
Record ANSC_XML_ATTRIBUTE := XmlAttr {
  attr_Name : cstr; attr_DataSize : Z; attr_StringData : option mem }.
Abbreviation attribute := ANSC_XML_ATTRIBUTE.

Inductive ANSC_XML_DOM_NODE_OBJECT :=
  | XmlNode (Name : cstr) (Level : Z) (StringData : option mem) (DataSize : Z)
      (AttributesList : list attribute) (ChildNodeQueue : list ANSC_XML_DOM_NODE_OBJECT) (bIgnoreXMLHeader : bool).
Abbreviation node := ANSC_XML_DOM_NODE_OBJECT.

Definition Name (n : node) : cstr := let '(XmlNode x _ _ _ _ _ _) := n in x.
Definition Level (n : node) : Z := let '(XmlNode _ x _ _ _ _ _) := n in x.
Definition StringData (n : node) : option mem := let '(XmlNode _ _ x _ _ _ _) := n in x.
Definition DataSize (n : node) : Z := let '(XmlNode _ _ _ x _ _ _) := n in x.
Definition AttributesList (n : node) : list attribute := let '(XmlNode _ _ _ _ x _ _) := n in x.
Definition ChildNodeQueue (n : node) : list node := let '(XmlNode _ _ _ _ _ x _) := n in x.
Definition bIgnoreXMLHeader (n : node) : bool := let '(XmlNode _ _ _ _ _ _ x) := n in x.

Definition set_data (n : node) (d : option mem) (size : Z) : node :=
  let '(XmlNode nm l _ _ al cs h) := n in XmlNode nm l d size al cs h.
Definition set_attributes (n : node) (al : list attribute) : node :=
  let '(XmlNode nm l d sz _ cs h) := n in XmlNode nm l d sz al cs h.
Definition set_children (n : node) (cs : list node) : node :=
  let '(XmlNode nm l d sz al _ h) := n in XmlNode nm l d sz al cs h.
Definition set_name (n : node) (nm : cstr) : node :=
  let '(XmlNode _ l d sz al cs h) := n in XmlNode nm l d sz al cs h.
Definition set_level (n : node) (l : Z) : node :=
  let '(XmlNode nm _ d sz al cs h) := n in XmlNode nm l d sz al cs h.

(** Induction over a node and its descendants. *)
Section node_induction.
Variable P : node -> Prop.
Hypothesis Hnode : forall nm l d sz al cs h, Forall P cs -> P (XmlNode nm l d sz al cs h).
Fixpoint node_induction (n : node) : P n :=
  let '(XmlNode nm l d sz al cs h) := n in
  Hnode nm l d sz al cs h
    ((fix go (cs : list node) : Forall P cs :=
        match cs with [] => Forall_nil_2 _ | c :: cs => Forall_cons_2 _ _ _ (node_induction c) (go cs) end) cs).
End node_induction.

(** A queue tells whether it is empty by its depth, which is 16 bits wide. *)
Definition no_children (cs : list node) : bool := USHORT (Zlen cs) =? 0.

(** ** Nodes and their children *)

Definition AnscXmlDomNodeCreate (a : alloc_stream) : option node * alloc_stream :=
  let '(ok, a) := next_alloc a in (if ok then Some (XmlNode [] 0 None 0 [] [] false) else None, a).

Definition AnscXmlDomNodeGetName (n : node) : cstr := Name n.
Definition AnscXmlDomNodeSetName (n : node) (name : option cstr) : bool * node :=
  match name with
  | None => (false, n)
  | Some name => if ANSC_OBJECT_NAME_SIZE <=? strlen name then (false, n) else (true, set_name n name)
  end.

(** A child is named by its index. *)
Definition AnscXmlDomNodeGetHeadChild (n : node) : option nat :=
  if no_children (ChildNodeQueue n) then None
  else match ChildNodeQueue n with [] => None | _ => Some O end.
Definition AnscXmlDomNodeGetNextChild (n : node) (hThisChild : option nat) : option nat :=
  match hThisChild with
  | Some i => if (S i <? length (ChildNodeQueue n))%nat then Some (S i) else None
  | None => AnscXmlDomNodeGetHeadChild n
  end.
Definition AnscXmlDomNodeGetTailChild (n : node) : option nat :=
  if no_children (ChildNodeQueue n) then None
  else match ChildNodeQueue n with [] => None | cs => Some (length cs - 1)%nat end.

(** The loop over the children, from the first on. *)
Definition AnscXmlDomNodeGetChildByName (n : node) (name : cstr) : option nat :=
  match AnscXmlDomNodeGetHeadChild n with
  | None => None
  | Some _ => fst <$> list_find (fun c => AnscEqualString1 (Some (Name c)) (Some name) false = true) (ChildNodeQueue n)
  end.

Fixpoint AnscXmlDomNodeSetLevel `{Platform} (n : node) (ulLevel : Z) : node :=
  let '(XmlNode nm _ d sz al cs h) := n in
  XmlNode nm ulLevel d sz al
    (if no_children cs then cs
     else (fix go (cs : list node) : list node :=
             match cs with [] => [] | c :: cs => AnscXmlDomNodeSetLevel c (ULONG (ulLevel + 1)) :: go cs end) cs) h.

Definition AnscXmlDomNodeAddChild `{Platform} (n child : node) : node :=
  set_children n (ChildNodeQueue n ++ [AnscXmlDomNodeSetLevel child (ULONG (Level n + 1))]).

(** Yields the node and the index of the child. *)
Definition AnscXmlDomNodeAddChildByName `{Platform} (n : node) (name : cstr) (a : alloc_stream)
  : node * option nat * alloc_stream :=
  match AnscXmlDomNodeGetChildByName n name with
  | Some i => (n, Some i, a)
  | None =>
      let '(c, a) := AnscXmlDomNodeCreate a in
      match c with
      | None => (n, None, a)
      | Some c => (AnscXmlDomNodeAddChild n (AnscXmlDomNodeSetName c (Some name)).2, Some (length (ChildNodeQueue n)), a)
      end
  end.

(** Behind the child [i], or in front; the levels of the child stay. *)
Definition AnscXmlDomNodeInsertChild (n child : node) (hAfterChild : option nat) : node :=
  match hAfterChild with
  | Some i => set_children n (take (S i) (ChildNodeQueue n) ++ child :: drop (S i) (ChildNodeQueue n))
  | None => set_children n (child :: ChildNodeQueue n)
  end.

Definition AnscXmlDomNodeRemoveChild (n : node) : option node * node :=
  if no_children (ChildNodeQueue n) then (None, n)
  else match ChildNodeQueue n with [] => (None, n) | c :: cs => (Some c, set_children n cs) end.

Definition AnscXmlDomNodeGetAttr (n : node) (pAttrName : cstr) : option nat :=
  fst <$> list_find (fun x => attr_Name x = pAttrName) (AttributesList n).

Definition AnscXmlDomNodeGetFirstAttr (n : node) : option nat :=
  match AttributesList n with [] => None | _ => Some O end.
Definition AnscXmlDomNodeGetNextAttr (n : node) (hAttribute : option nat) : option nat :=
  match hAttribute with
  | Some i => if (S i <? length (AttributesList n))%nat then Some (S i) else None
  | None => None
  end.

Definition AnscXmlDomNodeEnumChild {S : Type} (n : node) (EnumProc : node -> S -> bool * S) (s : S) : bool * S :=
  (fix go (cs : list node) (s : S) : bool * S :=
     match cs with
     | [] => (true, s)
     | c :: cs => let '(more, s) := EnumProc c s in if more then go cs s else (false, s)
     end) (match AnscXmlDomNodeGetHeadChild n with None => [] | Some _ => ChildNodeQueue n end) s.

(** The blocks of memory that are released. *)
Inductive block := NodeBlock (name : cstr) | AttrBlock (x : attribute) | DataBlock (m : mem).
Definition data_block (d : option mem) : list block := match d with Some m => [DataBlock m] | None => [] end.
Definition attr_blocks (x : attribute) : list block := data_block (attr_StringData x) ++ [AttrBlock x].

(** [AnscXmlDomNodeReset] is the loop over the children, which takes the first
    one off the queue until that yields none. *)
Fixpoint AnscXmlDomNodeRemove (n : node) : list block :=
  let '(XmlNode nm _ d _ al cs _) := n in
  data_block d ++
  (fix AnscXmlDomNodeReset (cs : list node) : list block :=
     if no_children cs then []
     else match cs with [] => [] | c :: cs => AnscXmlDomNodeRemove c ++ AnscXmlDomNodeReset cs end) cs ++
  concat (attr_blocks <$> al) ++ [NodeBlock nm].

(** Yield the blocks that are released, and the node. *)
Definition AnscXmlDomNodeDelChild (n : node) (i : nat) : list block * node :=
  (match ChildNodeQueue n !! i with Some c => AnscXmlDomNodeRemove c | None => [] end,
   set_children n (delete i (ChildNodeQueue n))).
Definition AnscXmlDomNodeDelChildByName (n : node) (name : cstr) : list block * node :=
  match AnscXmlDomNodeGetChildByName n name with None => ([], n) | Some i => AnscXmlDomNodeDelChild n i end.

Section copy.
Context `{Platform}.

(** [AnscAllocateMemory(n + 1)] with the first [n] bytes of [d] copied to it. *)
Definition copy_data (d : option mem) (n : Z) : outcome mem :=
  b ← match d with
      | Some m => if Zlen m <? n then Stuck OutOfBounds else Done (take (Z.to_nat n) m)
      | None => Done (replicate (Z.to_nat n) 0)
      end;
  Done (b ++ [0]).

(** [None] when the structure of an attribute cannot be allocated; an attribute
    whose data cannot is left out. *)
Fixpoint copy_attributes (al : list attribute) (a : alloc_stream) : outcome (option (list attribute) * alloc_stream) :=
  match al with
  | [] => Done (Some [], a)
  | x :: al =>
      let '(ok, a) := next_alloc a in
      if negb ok then Done (None, a)
      else
        let '(ok, a) := next_alloc a in
        new ← (if ok : bool then
                 b ← copy_data (attr_StringData x) (attr_DataSize x);
                 Done [XmlAttr (attr_Name x) (attr_DataSize x) (Some b)]
               else Done []);
        r ← copy_attributes al a;
        let '(rest, a) := r in
        Done (option_map (app new) rest, a)
  end.

(** A child whose copy fails is left out. *)
Definition copy_children (copy : node -> alloc_stream -> outcome (option node * alloc_stream))
  : list node -> node -> alloc_stream -> outcome (node * alloc_stream) :=
  fix go cs pCopy a :=
    match cs with
    | [] => Done (pCopy, a)
    | c :: cs =>
        r ← copy c a;
        let '(hChild, a) := r in
        go cs (match hChild with Some h => AnscXmlDomNodeAddChild pCopy h | None => pCopy end) a
    end.

Fixpoint AnscXmlDomNodeCopy (n : node) (a : alloc_stream) : outcome (option node * alloc_stream) :=
  let '(XmlNode nm _ d sz al cs _) := n in
  let '(pCopy, a) := AnscXmlDomNodeCreate a in
  match pCopy with
  | None => Done (None, a)
  | Some pCopy =>
      let pCopy := (AnscXmlDomNodeSetName pCopy (Some nm)).2 in
      r ← copy_attributes al a;
      let '(attrs, a) := r in
      match attrs with
      | None => Done (None, a)
      | Some attrs =>
          let pCopy := set_attributes pCopy attrs in
          r ← match d with
              | Some m =>
                  if 0 <? sz then
                    let '(ok, a) := next_alloc a in
                    if ok : bool then b ← copy_data (Some m) sz; Done (set_data pCopy (Some b) sz, a)
                    else Done (set_data pCopy None 0, a)
                  else Done (pCopy, a)
              | None => Done (pCopy, a)
              end;
          let '(pCopy, a) := r in
          r ← (if no_children cs then Done (pCopy, a)
               else copy_children AnscXmlDomNodeCopy cs pCopy a);
          let '(pCopy, a) := r in
          Done (Some pCopy, a)
      end
  end.
End copy.

(** ** Encoding *)

Definition XML_HEADER : cstr :=
  lit "<?xml version=" ++ [34] ++ lit "1.0" ++ [34] ++ lit "  encoding=" ++ [34] ++ lit "UTF-8" ++ [34] ++ lit " ?>".
Definition XML_TAG_BEGIN : cstr := lit "<".
Definition XML_TAG_END : cstr := lit ">".
Definition XML_NODE_END : cstr := lit "/>".
Definition XML_SIMPLE_END : cstr := lit "/>".
Definition XML_END_NODE : cstr := lit "</".
Definition ITEM_EQUAL_MARK : cstr := lit "=".
Definition STRING_MARK_1 : cstr := [34].

(** The buffer, the place to write at and [*pulSize]. *)
Record writer := Writer { w_buf : mem; w_pos : Z; w_left : Z }.

(** Code that writes; [None] is the return of [ANSC_STATUS_RESOURCES]. *)
Definition WM (A : Type) : Type := writer -> outcome (option A * writer).
Instance WM_ret : MRet WM := fun A x w => Done (Some x, w).
Instance WM_bind : MBind WM := fun A B k m w =>
  match m w with
  | Done (Some x, w) => k x w
  | Done (None, w) => Done (None, w)
  | Stuck f => Stuck f
  end.
Definition no_resources {A} : WM A := fun w => Done (None, w).

(** [ulContent] bytes at an address; nothing is read when nothing is copied. *)
Definition AnscXmlNode2Buf (pContent : option mem) (ulContent : Z) : WM Z := fun w =>
  let ulCopySize := if w_left w <? ulContent then w_left w else ulContent in
  if negb (ulCopySize =? 0) then
    match pContent with
    | None => Stuck NullDeref
    | Some c =>
        if Zlen c <? ulCopySize then Stuck OutOfBounds
        else
          b ← buf_copy (w_buf w) (w_pos w) (take (Z.to_nat ulCopySize) c);
          Done (Some ulCopySize, Writer b (w_pos w + ulCopySize) (w_left w - ulCopySize))
    end
  else Done (Some ulCopySize, w).

(** [AnscXmlNode2Buf] and the test [ulCopied < ulContent]. *)
Definition write_all (pContent : option mem) (ulContent : Z) : WM unit :=
  ulCopied ← AnscXmlNode2Buf pContent ulContent;
  if ulCopied <? ulContent then no_resources else mret tt.
Definition write_string (s : cstr) : WM unit := write_all (Some s) (strlen s).

Fixpoint encode_spaces (n : nat) (total : Z) : WM Z :=
  match n with
  | O => mret total
  | S n =>
      ulCopied ← AnscXmlNode2Buf (Some [32]) 1;
      if ulCopied =? 0 then mret total else encode_spaces n (total + ulCopied)
  end.
Definition AnscXmlNodeEncodeSpaces (ulTimes : Z) : WM Z := encode_spaces (Z.to_nat ulTimes) 0.
Definition AnscXmlNodeEncodeLinefeed : WM Z := AnscXmlNode2Buf (Some [10]) 1.

(** The text of an attribute, up to its terminator. *)
Definition attr_text (x : attribute) : outcome cstr :=
  match attr_StringData x with None => Stuck NullDeref | Some d => string_at d 0 end.
Definition lift_w {A} (m : outcome A) : WM A := fun w => x ← m; Done (Some x, w).

(** Writes until a part does not fit; the place to write at moves over the
    parts that did. *)
Fixpoint write_parts (parts : list (outcome cstr)) : WM unit := fun w =>
  match parts with
  | [] => Done (Some tt, w)
  | m :: parts =>
      s ← m;
      match AnscXmlNode2Buf (Some s) (strlen s) w with
      | Done (k, w') =>
          if default 0 k <? strlen s then Done (Some tt, Writer (w_buf w') (w_pos w) (w_left w'))
          else write_parts parts w'
      | Stuck f => Stuck f
      end
  end.
Definition AnscXmlEncodeAttr2Buf (pAttribute : attribute) : WM unit :=
  write_parts [Done (attr_Name pAttribute); Done ITEM_EQUAL_MARK; Done STRING_MARK_1;
               attr_text pAttribute; Done STRING_MARK_1].

Definition AnscXmlGetAttr2BufSize (pAttribute : attribute) : outcome Z :=
  t ← attr_text pAttribute;
  Done (strlen (attr_Name pAttribute) + strlen ITEM_EQUAL_MARK + strlen STRING_MARK_1 + strlen t + strlen STRING_MARK_1).

Fixpoint attrs_size (al : list attribute) : outcome Z :=
  match al with
  | [] => Done 0
  | x :: al => k ← AnscXmlGetAttr2BufSize x; n ← attrs_size al; Done (1 + k + n)
  end.

Section encode.
Context `{Platform}.

Definition children_size (size : node -> outcome Z) : list node -> outcome Z :=
  fix go cs :=
    match cs with
    | [] => Done 0
    | c :: cs => k ← size c; n ← go cs; Done (k + n)
    end.

Fixpoint AnscXmlDomNodeGetEncodedSize (n : node) : outcome Z :=
  let '(XmlNode nm l d sz al cs h) := n in
  let start := (if (l =? 0) && negb h then strlen XML_HEADER + 1 else l * SPACES_PER_LEVEL)
    + strlen XML_TAG_BEGIN + strlen nm in
  attrs ← attrs_size al;
  if no_children cs then
    if sz =? 0 then Done (ULONG (start + attrs + 1 + strlen XML_SIMPLE_END + 1))
    else Done (ULONG (start + attrs + strlen XML_TAG_END + sz + strlen XML_END_NODE + strlen nm + strlen XML_TAG_END + 1))
  else
    let text := match d with Some _ => (l + 1) * SPACES_PER_LEVEL + sz + 1 | None => 0 end in
    kids ← children_size AnscXmlDomNodeGetEncodedSize cs;
    Done (ULONG (start + attrs + strlen XML_TAG_END + 1 + text + kids
      + l * SPACES_PER_LEVEL + strlen XML_END_NODE + strlen nm + strlen XML_TAG_END + 1)).

Fixpoint encode_attrs (al : list attribute) : WM unit :=
  match al with
  | [] => mret tt
  | x :: al =>
      k ← AnscXmlNodeEncodeSpaces 1;
      if k =? 0 then no_resources
      else _ ← AnscXmlEncodeAttr2Buf x; encode_attrs al
  end.

Definition encode_linefeed_all : WM unit :=
  k ← AnscXmlNodeEncodeLinefeed; if k =? 0 then no_resources else mret tt.

(** The end tag and a line feed. *)
Definition encode_end (nm : cstr) : WM unit :=
  _ ← write_string XML_END_NODE;
  _ ← write_string nm;
  _ ← write_string XML_TAG_END;
  encode_linefeed_all.

(** A child: its size is tested, and the place to write at moves by it. *)
Definition encode_child (size : outcome Z) (encode : WM unit) : WM unit := fun w =>
  ulSize ← size;
  if w_left w <? ulSize then Done (None, w)
  else
    match encode w with
    | Done (None, w') => Done (None, w')
    | Done (Some _, w') => Done (Some tt, Writer (w_buf w') (w_pos w + ulSize) (w_left w'))
    | Stuck f => Stuck f
    end.

Definition encode_children (encode : node -> WM unit) : list node -> WM unit :=
  fix go cs :=
    match cs with
    | [] => mret tt
    | c :: cs => fun w =>
        if w_left w =? 0 then Done (Some tt, w)
        else (_ ← encode_child (AnscXmlDomNodeGetEncodedSize c) (encode c); go cs) w
    end.

Fixpoint AnscXmlDomNodeEncode (n : node) : WM unit :=
  let '(XmlNode nm l d sz al cs h) := n in
  _ ← (if (l =? 0) && negb h
       then _ ← write_string XML_HEADER; _ ← AnscXmlNodeEncodeLinefeed; mret tt
       else _ ← AnscXmlNodeEncodeSpaces (ULONG (l * SPACES_PER_LEVEL)); mret tt);
  k ← AnscXmlNode2Buf (Some XML_TAG_BEGIN) (strlen XML_TAG_BEGIN);
  if k =? 0 then no_resources
  else
    _ ← write_string nm;
    _ ← encode_attrs al;
    if no_children cs then
      if sz =? 0 then
        k ← AnscXmlNodeEncodeSpaces 1;
        if k =? 0 then no_resources
        else _ ← write_string XML_SIMPLE_END; _ ← AnscXmlNodeEncodeLinefeed; mret tt
      else
        _ ← write_string XML_TAG_END;
        _ ← write_all d sz;
        encode_end nm
    else
      _ ← write_string XML_TAG_END;
      _ ← encode_linefeed_all;
      _ ← match d with
          | Some _ =>
              k ← AnscXmlNodeEncodeSpaces (ULONG ((l + 1) * SPACES_PER_LEVEL));
              if k =? 0 then no_resources
              else _ ← write_all d sz; encode_linefeed_all
          | None => mret tt
          end;
      _ ← encode_children AnscXmlDomNodeEncode cs;
      k ← AnscXmlNodeEncodeSpaces (ULONG (l * SPACES_PER_LEVEL));
      if negb (k =? ULONG (l * SPACES_PER_LEVEL)) then no_resources
      else encode_end nm.

End encode.

(** ** Documents

    What a node stands for: a name, the attributes with their values, a text and
    the children.  [build] makes the node at a level, [print] is its encoding. *)

Inductive tree := Tree (name : cstr) (attrs : list (cstr * cstr)) (text : cstr) (children : list tree).

(** [tree_ind] has no hypothesis for the children of a tree. *)
Section tree_induction.
Variable P : tree -> Prop.
Hypothesis Htree : forall nm al s ts, Forall P ts -> P (Tree nm al s ts).
Fixpoint tree_induction (t : tree) : P t :=
  let '(Tree nm al s ts) := t in
  Htree nm al s ts
    ((fix go (ts : list tree) : Forall P ts :=
        match ts with [] => Forall_nil_2 _ | t :: ts => Forall_cons_2 _ _ _ (tree_induction t) (go ts) end) ts).
End tree_induction.

Definition build_attr (x : cstr * cstr) : attribute := XmlAttr x.1 (Zlen x.2) (Some (x.2 ++ [0])).
Definition build_data (s : cstr) : option mem := match s with [] => None | _ => Some (s ++ [0]) end.
Fixpoint build (l : Z) (t : tree) : node :=
  let '(Tree nm al s ts) := t in
  XmlNode nm l (build_data s) (Zlen s) (build_attr <$> al) (map (build (l + 1)) ts) false.

Definition spaces (k : Z) : cstr := replicate (Z.to_nat k) 32.
Definition print_attr (x : cstr * cstr) : cstr :=
  [32] ++ x.1 ++ ITEM_EQUAL_MARK ++ STRING_MARK_1 ++ x.2 ++ STRING_MARK_1.
Definition print_end (nm : cstr) : cstr := XML_END_NODE ++ nm ++ XML_TAG_END ++ [10].
Fixpoint print (l : Z) (t : tree) : cstr :=
  let '(Tree nm al s ts) := t in
  (if l =? 0 then XML_HEADER ++ [10] else spaces (l * SPACES_PER_LEVEL)) ++
  XML_TAG_BEGIN ++ nm ++ flat_map print_attr al ++
  match ts, s with
  | [], [] => [32] ++ XML_SIMPLE_END ++ [10]
  | [], _ => XML_TAG_END ++ s ++ print_end nm
  | _, _ =>
      XML_TAG_END ++ [10] ++
      match s with [] => [] | _ => spaces ((l + 1) * SPACES_PER_LEVEL) ++ s ++ [10] end ++
      flat_map (print (l + 1)) ts ++ spaces (l * SPACES_PER_LEVEL) ++ print_end nm
  end.

(** The strings of a tree are strings, and a queue can count the children. *)
Fixpoint encodable (t : tree) : Prop :=
  let '(Tree nm al s ts) := t in
  Forall (fun x : cstr * cstr => wf_cstr x.2) al /\ Zlen ts < 65536 /\ foldr and True (map encodable ts).

(** ** Code that writes *)

Definition room (w : writer) : Prop := 0 <= w_pos w /\ 0 <= w_left w /\ w_pos w + w_left w <= Zlen (w_buf w).
Definition put (w : writer) (s : cstr) : writer :=
  Writer (take (Z.to_nat (w_pos w)) (w_buf w) ++ s ++ drop (Z.to_nat (w_pos w) + length s) (w_buf w))
    (w_pos w + Zlen s) (w_left w - Zlen s).

(** With room for [s], [m] writes [s] and yields [a]. *)
Definition writes {A} (m : WM A) (s : cstr) (a : A) : Prop :=
  forall w, room w -> Zlen s <= w_left w -> m w = Done (Some a, put w s).

Section writes.
Implicit Types (w : writer) (s t : cstr).

Lemma put_nil w : put w [] = w.
Proof.
  destruct w as [b p n]. unfold put. cbn. f_equal; [|lia..]. by rewrite Nat.add_0_r, take_drop.
Qed.

Lemma put_room w s : room w -> Zlen s <= w_left w -> room (put w s).
Proof.
  intros (? & ? & ?) ?. unfold room, put. cbn [w_buf w_pos w_left].
  rewrite !length_app, length_take, length_drop. lia.
Qed.

Lemma put_put w s t : room w -> Zlen s + Zlen t <= w_left w -> put (put w s) t = put w (s ++ t).
Proof.
  destruct w as [b p n]. intros (H1 & H2 & H3) Hl. cbn [w_buf w_pos w_left] in *. unfold put. cbn [w_buf w_pos w_left].
  rewrite length_app. f_equal; [|lia..].
  rewrite take_app, (take_ge (take _ b)) by (rewrite length_take; lia).
  rewrite length_take, <-!app_assoc. f_equal.
  replace (Z.to_nat (p + Zlen s) - Z.to_nat p `min` length b)%nat with (length s) by lia.
  rewrite take_app_length. do 2 f_equal.
  rewrite !drop_app, (drop_ge (take _ b)) by (rewrite length_take; lia).
  rewrite length_take, (drop_ge s) by lia. cbn [app]. rewrite drop_drop. f_equal. lia.
Qed.

Lemma writes_eq {A} (m : WM A) s t a : writes m s a -> s = t -> writes m t a.
Proof. by intros ? <-. Qed.

Lemma writes_ret {A} (a : A) : writes (mret a) [] a.
Proof. intros w _ _. by rewrite put_nil. Qed.

Lemma writes_bind {A B} (m : WM A) (k : A -> WM B) s t a b :
  writes m s a -> writes (k a) t b -> writes (m ≫= k) (s ++ t) b.
Proof.
  intros Hm Hk w Hw Hl. rewrite length_app in Hl. unfold mbind, WM_bind. rewrite Hm by (done || lia).
  rewrite Hk; [by rewrite put_put by (done || lia)|apply put_room; [done|lia]|]. unfold put. cbn. lia.
Qed.

Lemma writes_copy c n : 0 <= n <= Zlen c -> writes (AnscXmlNode2Buf (Some c) n) (take (Z.to_nat n) c) n.
Proof.
  intros Hn w (H1 & H2 & H3) Hl. rewrite length_take in Hl. unfold AnscXmlNode2Buf.
  rewrite (proj2 (Z.ltb_ge _ _)) by lia. destruct (Z.eqb_spec n 0) as [->|Hne]; cbn [negb].
  { by rewrite take_0, put_nil. }
  rewrite (proj2 (Z.ltb_ge _ _)) by lia. unfold buf_copy. rewrite length_take.
  rewrite (proj2 (Z.leb_le 0 _)) by lia. rewrite (proj2 (Z.leb_le _ _)) by lia. cbn [andb mbind outcome_bind].
  unfold put. rewrite length_take. do 3 f_equal; lia.
Qed.

(** Nothing but the room given is written. *)
Definition within w w' : Prop :=
  w_pos w <= w_pos w' /\ 0 <= w_left w' /\ w_pos w' + w_left w' <= w_pos w + w_left w /\
  length (w_buf w') = length (w_buf w) /\
  take (Z.to_nat (w_pos w)) (w_buf w') = take (Z.to_nat (w_pos w)) (w_buf w) /\
  drop (Z.to_nat (w_pos w + w_left w)) (w_buf w') = drop (Z.to_nat (w_pos w + w_left w)) (w_buf w).
Definition stays {A} (m : WM A) : Prop := forall w, room w -> exists r w', m w = Done (r, w') /\ within w w'.
(** [m] writes [s], or without the room for it fails or uses up the room. *)
Definition codes {A} (m : WM A) s (a : A) : Prop :=
  writes m s a /\
  forall w, room w -> w_left w < Zlen s -> exists r w', m w = Done (r, w') /\ within w w' /\ (r = None \/ w_left w' = 0).

Lemma within_refl w : room w -> within w w.
Proof. intros (? & ? & ?). repeat split; (done || lia). Qed.

Lemma within_room w w' : room w -> within w w' -> room w'.
Proof. intros (? & ? & ?) (? & ? & ? & ? & _). unfold room. lia. Qed.

Lemma within_trans w1 w2 w3 : room w1 -> within w1 w2 -> within w2 w3 -> within w1 w3.
Proof.
  intros (? & ? & ?) (? & ? & ? & E1 & E2 & E3) (? & ? & ? & F1 & F2 & F3). repeat split; [lia..|congruence| |].
  - rewrite <-E2. apply (f_equal (take (Z.to_nat (w_pos w1)))) in F2.
    by rewrite !take_take, !Nat.min_l in F2 by lia.
  - rewrite <-E3. apply (f_equal (drop (Z.to_nat (w_pos w1 + w_left w1) - Z.to_nat (w_pos w2 + w_left w2)))) in F3.
    rewrite !drop_drop in F3.
    by replace (Z.to_nat (w_pos w2 + w_left w2) + (Z.to_nat (w_pos w1 + w_left w1) - Z.to_nat (w_pos w2 + w_left w2)))%nat
      with (Z.to_nat (w_pos w1 + w_left w1)) in F3 by lia.
Qed.

Lemma within_put w s : room w -> Zlen s <= w_left w -> within w (put w s).
Proof.
  intros (H1 & H2 & H3) Hs. unfold put, within. cbn [w_pos w_left w_buf]. repeat split; [lia..| | |].
  - rewrite !length_app, length_take, length_drop. lia.
  - rewrite take_app, take_ge by (rewrite length_take; lia). rewrite length_take.
    replace (_ - _)%nat with O by lia. by rewrite take_0, app_nil_r.
  - rewrite !drop_app, (drop_ge (take _ _)) by (rewrite length_take; lia). rewrite length_take, (drop_ge s) by lia.
    cbn [app]. rewrite drop_drop. f_equal. lia.
Qed.

Lemma within_dry w w' : within w w' -> w_left w = 0 -> w_left w' = 0.
Proof. intros (? & ? & ? & _) ?. lia. Qed.

Lemma codes_stays {A} (m : WM A) s a : codes m s a -> stays m.
Proof.
  intros [Hw Hs] w Hr. destruct (Z.le_gt_cases (Zlen s) (w_left w)) as [Hl|Hl].
  - exists (Some a), (put w s). split; [by apply Hw|by apply within_put].
  - destruct (Hs w Hr Hl) as (r & w' & E & Hin & _). by exists r, w'.
Qed.

Lemma codes_eq {A} (m : WM A) s t a : codes m s a -> s = t -> codes m t a.
Proof. by intros ? <-. Qed.

Lemma codes_ret {A} (a : A) : codes (mret a) [] a.
Proof. split; [apply writes_ret|]. intros w (_ & ? & _). cbn. lia. Qed.

Lemma stays_fail {A} : stays (@no_resources A).
Proof. intros w Hw. eexists _, _. split; [done|by apply within_refl]. Qed.

Lemma codes_bind {A B} (m : WM A) (k : A -> WM B) s t a b :
  codes m s a -> codes (k a) t b -> (forall a', stays (k a')) -> codes (m ≫= k) (s ++ t) b.
Proof.
  intros [Hm Hms] [Hk Hks] Hst. split; [by eapply writes_bind|]. intros w Hw Hl. rewrite length_app in Hl.
  unfold mbind, WM_bind. destruct (Z.le_gt_cases (Zlen s) (w_left w)) as [Hs|Hs].
  - rewrite Hm by done. destruct (Hks (put w s)) as (r & w' & -> & Hin & Hr); [by apply put_room|unfold put; cbn; lia|].
    exists r, w'. split_and!; [done| |done]. eapply within_trans; [done|by apply within_put|done].
  - destruct (Hms w Hw Hs) as (r & w1 & -> & Hin & Hr). destruct r as [a'|]; [|by eexists _, _; split_and!; [|by apply Hin|left]].
    destruct Hr as [|Hr]; [done|]. destruct (Hst a' w1) as (r & w' & -> & Hin'); [by eapply within_room|].
    exists r, w'. split_and!; [done|by eapply within_trans|right]. by eapply within_dry.
Qed.

Lemma codes_copy c n : 0 <= n <= Zlen c -> codes (AnscXmlNode2Buf (Some c) n) (take (Z.to_nat n) c) n.
Proof.
  intros Hn. split; [by apply writes_copy|]. intros w Hw Hl. rewrite length_take in Hl.
  destruct (Z.eq_dec (w_left w) 0) as [E|E].
  - exists (Some 0), w. split_and!; [|by apply within_refl|by right]. unfold AnscXmlNode2Buf.
    by rewrite (proj2 (Z.ltb_lt _ _)), E by lia.
  - destruct Hw as (H1 & H2 & H3). pose proof (writes_copy c (w_left w) ltac:(lia) w) as Hc.
    exists (Some (w_left w)), (put w (take (Z.to_nat (w_left w)) c)).
    assert (Hlt : Zlen (take (Z.to_nat (w_left w)) c) = w_left w) by (rewrite length_take; lia).
    split_and!; [|by apply within_put; [|lia]|right; unfold put; cbn [w_left]; lia].
    rewrite <-Hc by (done || lia). unfold AnscXmlNode2Buf. by rewrite (proj2 (Z.ltb_lt _ _)), Z.ltb_irrefl by lia.
Qed.

Lemma stays_copy c n : 0 <= n <= Zlen c -> stays (AnscXmlNode2Buf (Some c) n).
Proof. intros. by eapply codes_stays, codes_copy. Qed.

(** The result of a copy is tested, and a failure ends the function. *)
Lemma codes_test {A B} (m : WM A) (test : A -> bool) (k : A -> WM B) s t a b :
  codes m s a -> test a = false -> codes (k a) t b -> (forall a', stays (k a')) ->
  codes (m ≫= fun a => if test a then no_resources else k a) (s ++ t) b.
Proof.
  intros Hm Ht Hk Hst. eapply codes_bind; [done|by rewrite Ht|]. intros a'. destruct (test a'); [apply stays_fail|apply Hst].
Qed.
Lemma codes_then {A B} (m : WM A) (test : A -> bool) (k : WM B) s t a b :
  codes m s a -> test a = false -> codes k t b -> codes (m ≫= fun a => if test a then no_resources else k) (s ++ t) b.
Proof. intros Hm Ht Hk. eapply codes_test; [done..|]. intros _. by eapply codes_stays. Qed.
Lemma codes_ignore {A B} (m : WM A) (k : WM B) s t a b : codes m s a -> codes k t b -> codes (m ≫= fun _ => k) (s ++ t) b.
Proof. intros Hm Hk. eapply codes_bind; [done|done|]. intros _. by eapply codes_stays. Qed.

Lemma codes_all c n : 0 <= n <= Zlen c -> codes (write_all (Some c) n) (take (Z.to_nat n) c) tt.
Proof.
  intros Hn. eapply codes_eq; [eapply codes_test; [by apply codes_copy|apply Z.ltb_irrefl|apply codes_ret|]|apply app_nil_r].
  intros _. eapply codes_stays, codes_ret.
Qed.

Lemma codes_text s : s ≠ [] -> codes (write_all (build_data s) (Zlen s)) s tt.
Proof.
  intros Hs. destruct s as [|c s]; [done|]. cbn [build_data]. eapply codes_eq; [apply codes_all; rewrite length_app; lia|].
  by rewrite Nat2Z.id, take_app_length.
Qed.

Lemma codes_string s : codes (write_string s) s tt.
Proof.
  eapply codes_eq; [apply codes_all; unfold strlen; lia|]. unfold strlen. by rewrite Nat2Z.id, take_ge by lia.
Qed.

Lemma codes_char c : codes (AnscXmlNode2Buf (Some [c]) 1) [c] 1.
Proof. apply codes_copy. cbn. lia. Qed.

Lemma codes_spaces n total : codes (encode_spaces n total) (replicate n 32) (total + Z.of_nat n).
Proof.
  revert total. induction n as [|n IH]; intros total; cbn [encode_spaces replicate].
  - rewrite Z.add_0_r. apply codes_ret.
  - eapply (codes_bind _ _ [32]); [apply codes_char| |].
    + cbn [Z.eqb]. rewrite Nat2Z.inj_succ, <-Z.add_1_l, Z.add_assoc. apply IH.
    + intros k. destruct (k =? 0); eapply codes_stays; [apply codes_ret|apply IH].
Qed.

Lemma codes_level k : 0 <= k -> codes (AnscXmlNodeEncodeSpaces k) (spaces k) k.
Proof.
  intros Hk. unfold AnscXmlNodeEncodeSpaces, spaces. pose proof (codes_spaces (Z.to_nat k) 0) as H.
  by replace (0 + Z.of_nat (Z.to_nat k)) with k in H by lia.
Qed.

Lemma codes_linefeed : codes encode_linefeed_all [10] tt.
Proof.
  eapply (codes_test _ (fun k => k =? 0) _ [10] []); [apply codes_char|done|apply codes_ret|].
  intros _. eapply codes_stays, codes_ret.
Qed.

Lemma codes_ignored_linefeed : codes (_ ← AnscXmlNodeEncodeLinefeed; mret tt) [10] tt.
Proof. eapply (codes_ignore _ _ [10] []); [apply codes_char|apply codes_ret]. Qed.

Lemma codes_parts parts ss : Forall2 (fun m s => m = Done s) parts ss -> codes (write_parts parts) (concat ss) tt.
Proof.
  induction 1 as [|m s parts ss -> _ IH]; cbn [concat]; [apply codes_ret|].
  pose proof (codes_copy s (Zlen s) ltac:(lia)) as Hc. rewrite Nat2Z.id, take_ge in Hc by lia.
  assert (Hcase : forall w, write_parts (Done s :: parts) w =
    match AnscXmlNode2Buf (Some s) (Zlen s) w with
    | Done (k, w') => if default 0 k <? Zlen s then Done (Some tt, Writer (w_buf w') (w_pos w) (w_left w')) else write_parts parts w'
    | Stuck f => Stuck f
    end) by done.
  split; intros w Hw Hl; rewrite length_app in Hl; rewrite Hcase.
  - rewrite (proj1 Hc) by (done || lia). cbn [default]. unfold id. rewrite Z.ltb_irrefl.
    rewrite (proj1 IH); [by rewrite put_put by (done || lia)|apply put_room; [done|lia]|]. unfold put. cbn. lia.
  - destruct (Z.le_gt_cases (Zlen s) (w_left w)) as [Hs|Hs].
    + rewrite (proj1 Hc) by done. cbn [default]. unfold id. rewrite Z.ltb_irrefl.
      destruct (proj2 IH (put w s)) as (r & w' & -> & Hin & Hr); [by apply put_room|unfold put; cbn; lia|].
      exists r, w'. split_and!; [done| |done]. eapply within_trans; [done|by apply within_put|done].
    + destruct (proj2 Hc w Hw Hs) as (r & w1 & E & Hin & Hr).
      assert (r = Some (w_left w)) as ->.
      { revert E. unfold AnscXmlNode2Buf. rewrite (proj2 (Z.ltb_lt _ _)) by done.
        destruct Hw as (? & ? & ?). destruct (negb _); [|by intros [= <- _]]. rewrite (proj2 (Z.ltb_ge _ _)) by lia.
        by destruct (buf_copy _ _ _); [intros [= <- _]|]. }
      rewrite E. cbn [default]. unfold id. rewrite (proj2 (Z.ltb_lt _ _)) by done.
      destruct Hr as [|Hr]; [done|]. destruct Hin as (? & ? & ? & ? & ? & ?).
      eexists _, _. split_and!; [done|unfold within; cbn [w_pos w_left w_buf]|by right]. repeat split; (done || lia).
Qed.
End writes.

Section encode_tree.
Context `{Platform}.
Implicit Types (t : tree) (ts : list tree) (al : list (cstr * cstr)).

Lemma encodable_children ts : foldr and True (map encodable ts) <-> Forall encodable ts.
Proof. rewrite Forall_fold_right. by induction ts as [|t ts IH]; cbn; [|rewrite IH]. Qed.

Lemma print_length_pos l t : 0 < Zlen (print l t).
Proof. destruct t as [nm al s ts]. cbn [print]. rewrite !length_app. cbn. lia. Qed.

Lemma no_children_map {A} (f : A -> node) (l : list A) : Zlen l < 65536 -> no_children (map f l) = bool_decide (l = []).
Proof.
  intros Hl. unfold no_children. rewrite length_map, USHORT_small by lia. destruct l; [done|]. cbn [length].
  rewrite bool_decide_false by done. apply Z.eqb_neq. lia.
Qed.

Lemma attr_text_build x : wf_cstr x.2 -> attr_text (build_attr x) = Done x.2.
Proof. intros Hx. apply (string_at_spec [] _ []), Hx. Qed.

Lemma attrs_size_build al : Forall (fun x => wf_cstr x.2) al -> attrs_size (build_attr <$> al) = Done (Zlen (flat_map print_attr al)).
Proof.
  induction 1 as [|x al Hx _ IH]; [done|]. cbn [fmap list_fmap attrs_size flat_map].
  unfold AnscXmlGetAttr2BufSize. rewrite attr_text_build by done. cbn [mbind outcome_bind].
  change (attrs_size _) with (attrs_size (build_attr <$> al)). rewrite IH. cbn [mbind outcome_bind]. unfold print_attr, strlen, build_attr. cbn [attr_Name]. rewrite !length_app.
  f_equal. cbn [length]. lia.
Qed.

Lemma children_size_build l ts :
  Forall (fun t => AnscXmlDomNodeGetEncodedSize (build l t) = Done (Zlen (print l t))) ts ->
  children_size AnscXmlDomNodeGetEncodedSize (map (build l) ts) = Done (Zlen (flat_map (print l) ts)).
Proof.
  induction 1 as [|t ts Ht _ IH]; [done|]. cbn [map children_size flat_map]. rewrite Ht. cbn [mbind outcome_bind].
  change (children_size _ _) with (children_size AnscXmlDomNodeGetEncodedSize (map (build l) ts)).
  rewrite IH. cbn [mbind outcome_bind]. f_equal. rewrite length_app. lia.
Qed.

Lemma flat_map_length_le {A} (f : A -> cstr) x l : x ∈ l -> Zlen (f x) <= Zlen (flat_map f l).
Proof. induction 1 as [x l|x y l _ IH]; cbn [flat_map]; rewrite length_app; lia. Qed.

(** The children of a tree that has them are part of its text. *)
Lemma print_children_le l nm al s ts : Zlen (flat_map (print (l + 1)) ts) <= Zlen (print l (Tree nm al s ts)).
Proof.
  destruct ts as [|t ts]; [cbn; lia|]. cbn [print]. rewrite !length_app. destruct s; cbn [length]; lia.
Qed.

Lemma spaces_length k : 0 <= k -> Zlen (spaces k) = k.
Proof. intros. unfold spaces. rewrite length_replicate. lia. Qed.

Lemma GetEncodedSize_build t : forall l, encodable t -> 0 <= l -> Zlen (print l t) < 2 ^ ulong_bits ->
  AnscXmlDomNodeGetEncodedSize (build l t) = Done (Zlen (print l t)).
Proof.
  induction t as [nm al s ts IH] using tree_induction. intros l (Ha & Hc & Hk) Hl Hn.
  apply encodable_children in Hk. pose proof (print_children_le l nm al s ts) as Hle.
  assert (Hkids : children_size AnscXmlDomNodeGetEncodedSize (map (build (l + 1)) ts) = Done (Zlen (flat_map (print (l + 1)) ts))).
  { apply children_size_build. rewrite Forall_forall in IH, Hk |- *. intros t Ht. apply IH; [done|by apply Hk|lia|].
    pose proof (flat_map_length_le (print (l + 1)) t ts Ht). lia. }
  cbn [build AnscXmlDomNodeGetEncodedSize]. rewrite attrs_size_build by done. cbn [mbind outcome_bind].
  rewrite no_children_map by done.
  assert (Hsp : Zlen (spaces (l * SPACES_PER_LEVEL)) = l * SPACES_PER_LEVEL) by (apply spaces_length; unfold SPACES_PER_LEVEL; lia).
  assert (Hsp1 : Zlen (spaces ((l + 1) * SPACES_PER_LEVEL)) = (l + 1) * SPACES_PER_LEVEL) by (apply spaces_length; unfold SPACES_PER_LEVEL; lia).
  set (al' := flat_map print_attr al) in *.
  set (start := if l =? 0 then XML_HEADER ++ [10] else spaces (l * SPACES_PER_LEVEL)).
  assert (Es : (if (l =? 0) && negb false then strlen XML_HEADER + 1 else l * SPACES_PER_LEVEL) = Zlen start).
  { unfold start. destruct (l =? 0); cbn [andb negb]; [by rewrite length_app|done]. }
  rewrite Es. cbn [print] in Hn |- *. fold al' start in Hn |- *.
  revert Hn. case_bool_decide as Ets; [subst ts; destruct s as [|c s]|destruct ts as [|t ts]; [done|]].
  - intros Hn. cbn [build_data length]. change (Z.of_nat 0 =? 0) with true. f_equal.
    rewrite ULONG_small; rewrite !length_app in *; unfold strlen; cbn [length] in *; lia.
  - intros Hn. rewrite (proj2 (Z.eqb_neq _ _)) by (cbn [length]; lia). f_equal.
    rewrite ULONG_small; unfold print_end in *; rewrite !length_app in *; unfold strlen; cbn [length] in *; lia.
  - intros Hn. rewrite Hkids. cbn [mbind outcome_bind]. f_equal.
    destruct s as [|c s]; cbn [build_data];
      rewrite ULONG_small; unfold print_end in *; rewrite ?length_app in *; unfold strlen; cbn [length] in *; lia.
Qed.

Lemma codes_attr x : wf_cstr x.2 -> codes (AnscXmlEncodeAttr2Buf (build_attr x)) (concat [x.1; ITEM_EQUAL_MARK; STRING_MARK_1; x.2; STRING_MARK_1]) tt.
Proof. intros Hx. apply codes_parts. repeat constructor. by apply attr_text_build. Qed.

Lemma codes_attrs al : Forall (fun x => wf_cstr x.2) al -> codes (encode_attrs (build_attr <$> al)) (flat_map print_attr al) tt.
Proof.
  induction 1 as [|x al Hx _ IH]; [apply codes_ret|]. cbn [fmap list_fmap encode_attrs flat_map].
  pose proof (codes_ignore _ _ _ _ _ _ (codes_attr x Hx) IH) as Hrest.
  eapply codes_eq; [eapply (codes_test _ (fun k => k =? 0) _ [32]); [by apply (codes_level 1)|done|apply Hrest|]|].
  - intros _. by eapply codes_stays.
  - unfold print_attr. cbn [concat]. by rewrite app_nil_r, !app_assoc.
Qed.

Lemma codes_end nm : codes (encode_end nm) (print_end nm) tt.
Proof.
  unfold encode_end, print_end. repeat (eapply codes_ignore; [apply codes_string|]). apply codes_linefeed.
Qed.

Lemma codes_child s (size : outcome Z) (encode : WM unit) :
  size = Done (Zlen s) -> codes encode s tt -> codes (encode_child size encode) s tt.
Proof.
  intros -> [He _]. split; intros w Hw Hl; unfold encode_child; cbn [mbind outcome_bind].
  - rewrite (proj2 (Z.ltb_ge _ _)) by lia. by rewrite He.
  - rewrite (proj2 (Z.ltb_lt _ _)) by lia. eexists _, _. split_and!; [done|by apply within_refl|by left].
Qed.

Lemma codes_children l ts :
  Forall (fun t => AnscXmlDomNodeGetEncodedSize (build l t) = Done (Zlen (print l t))) ts ->
  Forall (fun t => codes (AnscXmlDomNodeEncode (build l t)) (print l t) tt) ts ->
  codes (encode_children AnscXmlDomNodeEncode (map (build l) ts)) (flat_map (print l) ts) tt.
Proof.
  induction 1 as [|t ts Hs _ IH]; intros He; [apply codes_ret|]. inversion He as [|? ? Ht Hts]; subst.
  pose proof (print_length_pos l t). pose proof (length_app (print l t) (flat_map (print l) ts)).
  destruct (codes_ignore _ _ _ _ _ _ (codes_child _ _ _ Hs Ht) (IH Hts)) as [Hfull Hcut].
  cbn [map encode_children flat_map]. split; intros w Hw Hl.
  - rewrite (proj2 (Z.eqb_neq _ _)) by lia. by apply Hfull.
  - destruct (Z.eqb_spec (w_left w) 0); [|by apply Hcut]. eexists _, _. split_and!; [done|by apply within_refl|by right].
Qed.

(** The indentation of a node is part of its text. *)
Lemma print_indent l nm al s ts : 0 <= l ->
  l * SPACES_PER_LEVEL <= Zlen (print l (Tree nm al s ts)) /\
  (ts ≠ [] -> s ≠ [] -> (l + 1) * SPACES_PER_LEVEL <= Zlen (print l (Tree nm al s ts))).
Proof.
  intros Hl. assert (0 <= l * SPACES_PER_LEVEL) by (unfold SPACES_PER_LEVEL; lia). cbn [print]. split.
  - destruct (Z.eqb_spec l 0) as [->|]; [lia|]. cbv iota. rewrite (length_app (spaces _)), Nat2Z.inj_add, spaces_length by done. lia.
  - intros Ht Hs. destruct ts as [|t ts]; [done|]. destruct s as [|c s]; [done|]. cbv iota.
    rewrite !length_app, !Nat2Z.inj_add, (spaces_length ((l + 1) * SPACES_PER_LEVEL)) by (unfold SPACES_PER_LEVEL; lia). lia.
Qed.

Lemma Encode_build t : forall l, encodable t -> 0 <= l -> Zlen (print l t) < 2 ^ ulong_bits ->
  codes (AnscXmlDomNodeEncode (build l t)) (print l t) tt.
Proof.
  induction t as [nm al s ts IH] using tree_induction. intros l (Ha & Hc & Hk) Hl Hn.
  apply encodable_children in Hk. pose proof (print_children_le l nm al s ts) as Hle.
  assert (Hsub : forall t, t ∈ ts -> encodable t /\ Zlen (print (l + 1) t) < 2 ^ ulong_bits).
  { intros t Ht. rewrite Forall_forall in Hk. pose proof (flat_map_length_le (print (l + 1)) t ts Ht). split; [by apply Hk|lia]. }
  assert (Hkids : codes (encode_children AnscXmlDomNodeEncode (map (build (l + 1)) ts)) (flat_map (print (l + 1)) ts) tt).
  { rewrite Forall_forall in IH. apply codes_children; apply Forall_forall; intros t Ht; destruct (Hsub t Ht);
      [apply GetEncodedSize_build|apply IH]; (done || lia). }
  destruct (print_indent l nm al s ts Hl) as [Hind Hind1].
  assert (0 <= l * SPACES_PER_LEVEL) by (unfold SPACES_PER_LEVEL; lia).
  assert (0 < (l + 1) * SPACES_PER_LEVEL) by (unfold SPACES_PER_LEVEL; lia).
  cbn [build AnscXmlDomNodeEncode]. rewrite (ULONG_small (l * SPACES_PER_LEVEL)) by lia. cbn [print].
  eapply codes_ignore with (a := tt).
  { destruct (Z.eqb_spec l 0) as [->|Hne]; cbn [andb negb].
    - eapply codes_ignore; [apply codes_string|apply codes_ignored_linefeed].
    - eapply codes_eq; [|apply app_nil_r]. eapply codes_ignore; [by apply codes_level|apply codes_ret]. }
  apply (codes_then _ (fun k => k =? 0) _ XML_TAG_BEGIN _ 1); [apply codes_char|done|].
  eapply codes_ignore; [apply codes_string|]. eapply codes_ignore; [by apply codes_attrs|].
  rewrite no_children_map by done. case_bool_decide as Ets; [subst ts; destruct s as [|c s]|destruct ts as [|t ts]; [done|]].
  - cbn [build_data length]. change (Z.of_nat 0 =? 0) with true.
    apply (codes_then _ (fun k => k =? 0) _ [32] _ 1); [by apply (codes_level 1)|done|].
    eapply codes_ignore; [apply codes_string|apply codes_ignored_linefeed].
  - rewrite (proj2 (Z.eqb_neq _ _)) by (cbn [length]; lia). eapply codes_ignore; [apply codes_string|].
    eapply codes_ignore; [by apply codes_text|apply codes_end].
  - set (ts' := t :: ts) in *. eapply codes_ignore; [apply codes_string|]. eapply (codes_ignore _ _ [10]); [apply codes_linefeed|].
    eapply codes_ignore with (a := tt).
    { destruct s as [|c s]; cbn [build_data]; [apply codes_ret|].
      rewrite ULONG_small by (split; [lia|]; eapply Z.le_lt_trans; [by apply Hind1|done]).
      apply (codes_then _ (fun k => k =? 0) _ _ _ ((l + 1) * SPACES_PER_LEVEL)); [apply codes_level; lia|apply Z.eqb_neq; lia|].
      eapply codes_ignore; [by apply codes_text|apply codes_linefeed]. }
    eapply codes_ignore; [apply Hkids|].
    apply (codes_then _ (fun k => negb (k =? l * SPACES_PER_LEVEL)) _ _ _ (l * SPACES_PER_LEVEL));
      [by apply codes_level|by rewrite Z.eqb_refl|apply codes_end].
Qed.

(** C8. The encoding of a document: the announced size is the length of its text;
    in a buffer with that much room exactly the text is written, behind what is
    there; with less room the code fails or reports that no room is left, and
    no byte outside the room changes. *)
Theorem AnscXmlDomNodeEncode_spec t l w (Ht : encodable t) (Hl : 0 <= l) (Hn : Zlen (print l t) < 2 ^ ulong_bits) (Hw : room w) :
  AnscXmlDomNodeGetEncodedSize (build l t) = Done (Zlen (print l t)) /\
  if Zlen (print l t) <=? w_left w
  then AnscXmlDomNodeEncode (build l t) w = Done (Some tt, put w (print l t))
  else exists r w', AnscXmlDomNodeEncode (build l t) w = Done (r, w') /\ within w w' /\ (r = None \/ w_left w' = 0).
Proof.
  split; [by apply GetEncodedSize_build|]. destruct (Encode_build t l Ht Hl Hn) as [H1 H2].
  destruct (Z.leb_spec (Zlen (print l t)) (w_left w)); [by apply H1|by apply H2].
Qed.

(** ** Copies *)

Fixpoint height (t : tree) : Z :=
  let '(Tree _ _ _ ts) := t in 1 + foldr Z.max 0 (map height ts).

Lemma height_child t ts : t ∈ ts -> height t <= foldr Z.max 0 (map height ts).
Proof. induction 1 as [t ts|t u ts _ IH]; cbn [map foldr]; lia. Qed.

Lemma height_pos t : 0 < height t.
Proof. destruct t as [nm al s ts]. cbn [height]. induction ts as [|u ts IH]; cbn [map foldr]; lia. Qed.

Lemma SetLevel_build t : forall l l', encodable t -> 0 <= l' -> l' + height t <= 2 ^ ulong_bits ->
  AnscXmlDomNodeSetLevel (build l t) l' = build l' t.
Proof.
  induction t as [nm al s ts IH] using tree_induction. intros l l' (Ha & Hc & Hk) Hl Hh.
  apply encodable_children in Hk. cbn [build AnscXmlDomNodeSetLevel]. rewrite no_children_map by done.
  case_bool_decide as Ets; [by subst|]. cbn [height] in Hh. f_equal. clear Ets Hc Ha.
  assert (Hin : forall t, t ∈ ts -> t ∈ ts) by done. revert Hin. generalize ts at 1 3 4. intros us Hus.
  induction us as [|u us IHu]; [done|]. cbn [map]. f_equal; [|apply IHu; set_solver].
  assert (Hu : u ∈ ts) by set_solver. rewrite Forall_forall in IH, Hk.
  pose proof (height_child u ts Hu). pose proof (height_pos u). rewrite ULONG_small by lia.
  apply IH; [done|by apply Hk|lia|lia].
Qed.

Fixpoint short_names (t : tree) : Prop :=
  let '(Tree nm _ _ ts) := t in strlen nm < ANSC_OBJECT_NAME_SIZE /\ foldr and True (map short_names ts).

Lemma copy_data_text s : copy_data (Some (s ++ [0])) (Zlen s) = Done (s ++ [0]).
Proof.
  unfold copy_data. rewrite length_app, (proj2 (Z.ltb_ge _ _)) by lia. cbn [mbind outcome_bind].
  by rewrite Nat2Z.id, take_app_length.
Qed.

Lemma copy_attributes_build al : copy_attributes (build_attr <$> al) [] = Done (Some (build_attr <$> al), []).
Proof.
  induction al as [|x al IH]; [done|]. cbn [fmap list_fmap copy_attributes next_alloc negb].
  change (attr_StringData (build_attr x)) with (Some (x.2 ++ [0])). change (attr_DataSize (build_attr x)) with (Zlen x.2).
  rewrite copy_data_text. cbn [mbind outcome_bind].
  change (copy_attributes _ []) with (copy_attributes (build_attr <$> al) []). by rewrite IH.
Qed.

Lemma copy_children_build (copy : node -> alloc_stream -> outcome (option node * alloc_stream)) l ts : forall p,
  Forall (fun t => copy (build l t) [] = Done (Some (build 0 t), []) /\ encodable t /\ 1 + height t <= 2 ^ ulong_bits) ts ->
  Level p = 0 ->
  copy_children copy (map (build l) ts) p [] = Done (set_children p (ChildNodeQueue p ++ map (build 1) ts), []).
Proof.
  induction ts as [|t ts IH]; intros [nm lv d sz al cs h] Hts Hp; cbn [Level] in Hp; subst.
  - cbn. by rewrite app_nil_r.
  - apply Forall_cons in Hts as [(Ht & He & Hh) Hts]. cbn [map copy_children]. rewrite Ht. cbn [mbind outcome_bind].
    unfold AnscXmlDomNodeAddChild. cbn [set_children Level ChildNodeQueue]. pose proof (height_pos t).
    rewrite ULONG_small, SetLevel_build by (done || lia).
    etrans; [by apply IH|]. cbn [set_children ChildNodeQueue]. by rewrite <-app_assoc.
Qed.

(** A copy of a node is the document of the node, made anew at level 0: the
    names, the attributes, the text and the children are the same, and the
    levels of the descendants count from it. *)
Theorem AnscXmlDomNodeCopy_spec t : forall l (Ht : encodable t) (Hs : short_names t) (Hh : height t <= 2 ^ ulong_bits),
  AnscXmlDomNodeCopy (build l t) [] = Done (Some (build 0 t), []).
Proof.
  induction t as [nm al s ts IH] using tree_induction. intros l (Ha & Hc & Hk) (Hnm & Hns) Hh.
  apply encodable_children in Hk. cbn [height] in Hh.
  assert (Hkids : Forall (fun t => AnscXmlDomNodeCopy (build (l + 1) t) [] = Done (Some (build 0 t), []) /\
    encodable t /\ 1 + height t <= 2 ^ ulong_bits) ts).
  { rewrite Forall_forall in IH, Hk |- *. intros t Ht. pose proof (height_child t ts Ht).
    split_and!; [apply IH; [done|by apply Hk| |lia]|by apply Hk|lia].
    clear -Hns Ht. induction Ht; cbn in Hns; [apply Hns|apply IHHt, Hns]. }
  cbn [build AnscXmlDomNodeCopy AnscXmlDomNodeCreate next_alloc AnscXmlDomNodeSetName].
  rewrite (proj2 (Z.leb_gt _ _)) by done. cbn [snd set_name]. rewrite copy_attributes_build. cbn [mbind outcome_bind set_attributes].
  rewrite no_children_map by done.
  assert (Hdata : forall p : node,
    match build_data s with
    | Some m => if 0 <? Zlen s then b ← copy_data (Some m) (Zlen s); Done (set_data p (Some b) (Zlen s), [] : alloc_stream) else Done (p, [])
    | None => Done (p, [])
    end = Done (match s with [] => p | _ => set_data p (build_data s) (Zlen s) end, [])).
  { intros p. destruct s as [|c s]; [done|]. cbn [build_data]. rewrite (proj2 (Z.ltb_lt _ _)) by (cbn [length]; lia).
    by rewrite copy_data_text. }
  cbn [next_alloc] in Hdata |- *. rewrite Hdata. cbn [mbind outcome_bind].
  case_bool_decide as Ets; [subst ts; by destruct s|].
  rewrite copy_children_build; [|done|by destruct s]. cbn [mbind outcome_bind]. by destruct s.
Qed.
End encode_tree.

(** Removing a node with 65536 children leaves the children allocated: the
    depth of their queue has wrapped to 0, so that the loop finds no child. *)
Theorem AnscXmlDomNodeRemove_leaks nm l d sz al cs h (Hcs : Zlen cs = 65536) :
  AnscXmlDomNodeRemove (XmlNode nm l d sz al cs h) = data_block d ++ concat (attr_blocks <$> al) ++ [NodeBlock nm].
Proof. destruct cs as [|c cs]; [done|]. cbn [AnscXmlDomNodeRemove]. unfold no_children. by rewrite Hcs. Qed.

(** ** Examples *)

Definition demo_tree : tree :=
  Tree (lit "a") [(lit "k", lit "v w"); (lit "e", [])] (lit "hello")
    [Tree (lit "b") [] [] []; Tree (lit "c") [] (lit "x y") []; Tree (lit "d") [] [] [Tree (lit "e") [] [] []]].
Definition demo_writer (n : Z) : writer := Writer (replicate 400 7) 3 n.

Lemma demo_encodable : encodable demo_tree.
Proof. repeat split; (repeat constructor || (cbn; lia)). Qed.

Lemma demo_print_length : Zlen (print 0 demo_tree) = 115.
Proof. by vm_compute. Qed.

Lemma AnscXmlDomNodeEncode_spec_witness :
  @AnscXmlDomNodeEncode ilp32 (build 0 demo_tree) (demo_writer 115) = Done (Some tt, put (demo_writer 115) (print 0 demo_tree)) /\
  exists r w', @AnscXmlDomNodeEncode ilp32 (build 0 demo_tree) (demo_writer 100) = Done (r, w') /\
    within (demo_writer 100) w' /\ (r = None \/ w_left w' = 0).
Proof.
  assert (Hroom : forall n, 0 <= n <= 397 -> room (demo_writer n)) by (intros n ?; unfold room; cbn; lia).
  assert (Hn : Zlen (print 0 demo_tree) < 2 ^ @ulong_bits ilp32) by (rewrite demo_print_length; cbn; lia).
  split.
  - pose proof (@AnscXmlDomNodeEncode_spec ilp32 demo_tree 0 (demo_writer 115) demo_encodable ltac:(lia) Hn (Hroom 115 ltac:(lia))) as [_ H].
    by rewrite demo_print_length in H.
  - pose proof (@AnscXmlDomNodeEncode_spec ilp32 demo_tree 0 (demo_writer 100) demo_encodable ltac:(lia) Hn (Hroom 100 ltac:(lia))) as [_ H].
    by rewrite demo_print_length in H.
Defined.

Lemma AnscXmlDomNodeCopy_spec_witness :
  @AnscXmlDomNodeCopy ilp32 (build 3 demo_tree) [] = Done (Some (build 0 demo_tree), []).
Proof.
  apply (@AnscXmlDomNodeCopy_spec ilp32 demo_tree 3 demo_encodable); [|by vm_compute].
  repeat split; by vm_compute.
Defined.

Lemma AnscXmlDomNodeRemove_leaks_witness :
  AnscXmlDomNodeRemove (XmlNode [97] 0 None 0 [] (replicate (Z.to_nat 65536) (build 1 demo_tree)) false) = [NodeBlock [97]].
Proof. apply (AnscXmlDomNodeRemove_leaks [97] 0 None 0 []). rewrite length_replicate. by vm_compute. Defined.
