(* ===== verification/XmlParse.v ===== *)
(** * The parser of XML documents ([AnscXmlDomParser])

    [AnscXmlFindNode] finds the tag of a node, [AnscXmlFillContentOfNode] reads
    a node from its tag to its end, [AnscXmlDomNodeDecode] is a copy of the
    latter that counts bytes instead of moving a pointer, and the parser object
    keeps the root.  Reading what [XmlNode] prints gives the document back. *)

From S2P Require Import Prelude CStrings IpAddr XmlText XmlNode.
Open Scope Z_scope.

Definition XML_HEADER_BEGIN : cstr := lit "<?".
Definition XML_HEADER_END : cstr := lit "?>".
Definition XML_COMMENT_BEGIN : cstr := lit "<!--".
Definition XML_COMMENT_END : cstr := lit "-->".
Definition gWrong_String : list cstr := [lit "<>"; lit "--->"].

(** A pointer that is subtracted from or read through. *)
Definition not_null (p : option Z) : outcome Z :=
  match p with Some p => Done p | None => Stuck NullDeref end.

(** ** Parts of a function

    A part of the function goes on with a value or returns a status, with the
    value left in [*ppContent]; the state is the node and the allocations. *)

Inductive flow (A : Type) := Next (a : A) | Return (st : xml_status) (ppContent : option Z).
Arguments Next {A} a.
Arguments Return {A} st ppContent.
Definition PM (A : Type) : Type := node * alloc_stream -> outcome (flow A * (node * alloc_stream)).
#[export] Instance PM_ret : MRet PM := fun A x s => Done (Next x, s).
#[export] Instance PM_bind : MBind PM := fun A B k f s =>
  match f s with
  | Done (Next x, s) => k x s
  | Done (Return st p, s) => Done (Return st p, s)
  | Stuck e => Stuck e
  end.
Definition does {A} (x : outcome A) : PM A := fun s => a ← x; Done (Next a, s).
Definition returns {A} (st : xml_status) (p : option Z) : PM A := fun s => Done (Return st p, s).
Definition changes (f : node -> node) : PM unit := fun s => Done (Next tt, (f s.1, s.2)).
Definition this_node : PM node := fun s => Done (Next s.1, s).
Definition allocates : PM bool := fun s => let '(ok, a) := next_alloc s.2 in Done (Next ok, (s.1, a)).

Section parser.
Context `{Platform}.

(** The document; [pBackupContent] and [length] delimit what a function reads. *)
Variable m : mem.

Section range.
Variables pBackupContent length : Z.

(** [length - (p - pBackupContent)] *)
Definition left_at (p : Z) : Z := length - (p - pBackupContent).
Definition skip_special (p : Z) : outcome (option Z) := AnscXmlGotoFirstCharExcept m p (left_at p) SPECIAL_TOKEN.
Definition looking_at (p : Z) (s : cstr) : outcome bool := AnscXmlIsStringStartWith m p (left_at p) s.

(** The loops over headers and comments; a status with the place reached. *)
Fixpoint skip_marked (fuel : nat) (first last : cstr) (missing : xml_status) (p : option Z) : outcome (xml_status * option Z) :=
  match fuel with
  | O => Stuck Diverge
  | S fuel =>
      q ← not_null p;
      b ← looking_at q first;
      if negb b then Done (XML_SUCCESS, Some q)
      else
        e ← AnscXmlFindString m q last;
        match e with
        | None => Done (missing, None)
        | Some e => p ← skip_special (e + strlen last); skip_marked fuel first last missing p
        end
  end.

Definition skip_fuel : nat := S (S (List.length m)).
Definition skip_comments : option Z -> outcome (xml_status * option Z) :=
  skip_marked skip_fuel XML_COMMENT_BEGIN XML_COMMENT_END XML_INVALID_COMMENT_END.
Definition skip_headers : option Z -> outcome (xml_status * option Z) :=
  skip_marked skip_fuel XML_HEADER_BEGIN XML_HEADER_END XML_INVALID_VERSION.

(** [AnscXmlFindString(p, gWrong_String[i]) != NULL] for some [i] *)
Fixpoint any_wrong (p : Z) (words : list cstr) : outcome bool :=
  match words with
  | [] => Done false
  | s :: words => r ← AnscXmlFindString m p s; match r with Some _ => Done true | None => any_wrong p words end
  end.
End range.

(** The status and [*ppContent]. *)
Definition AnscXmlFindNode (ppContent : option Z) (length ulLayerLevel : Z) : outcome (xml_status * option Z) :=
  let fails st := Done (st, ppContent) in
  match ppContent with
  | None => fails XML_FAILURE
  | Some pBackContent =>
      length ← (if LONG length <=? 0 then s ← string_at m pBackContent; Done (strlen s) else Done (LONG length));
      pNameOfNodeStart ← AnscXmlGotoFirstCharExcept m pBackContent length SPECIAL_TOKEN;
      match pNameOfNodeStart with
      | None => fails XML_FAILURE
      | Some p =>
          if ulLayerLevel =? 0 then
            wrong ← any_wrong p gWrong_String;
            if wrong : bool then fails XML_INVALID_STRING
            else
              b ← looking_at pBackContent length p XML_TAG_BEGIN;
              if negb b then fails XML_INVALID_VERSION
              else
                r ← skip_headers pBackContent length (Some p);
                match r with
                | (XML_SUCCESS, p) =>
                    r ← skip_comments pBackContent length p;
                    match r with
                    | (XML_SUCCESS, p) => Done (XML_SUCCESS, p)
                    | (st, _) => fails st
                    end
                | (st, _) => fails st
                end
          else
            p ← skip_special pBackContent length p;
            r ← skip_comments pBackContent length p;
            match r with
            | (XML_SUCCESS, p) =>
                p ← not_null p;
                p ← AnscXmlFindString m p XML_TAG_BEGIN;
                match p with
                | None => fails XML_MISSED_END_TAG
                | Some p => Done (XML_SUCCESS, Some p)
                end
            | (st, _) => fails st
            end
      end
  end.

(** ** Reading a node *)

(** [AnscCopyMemory] of the bytes from [p] to [q] to a block of [size] zeros. *)
Definition copy_range (p q size : Z) : outcome mem :=
  if Zlen m <? p + ULONG (q - p) then Stuck OutOfBounds
  else buf_copy (replicate (Z.to_nat size) 0) 0 (take (Z.to_nat (ULONG (q - p))) (drop (Z.to_nat p) m)).

(** What differs between the two copies of the code: the status when no text
    follows, and what the last statement does with the pointer. *)
Variables (text_missing : xml_status) (finish : option Z -> outcome (option Z)).

Section node.
Variables pBackupContent length : Z.
Abbreviation left_at := (left_at pBackupContent length).
Abbreviation skip_special := (skip_special pBackupContent length).
Abbreviation looking_at := (looking_at pBackupContent length).
Definition fails {A} (st : xml_status) : PM A := returns st (Some pBackupContent).

(** The tag and its name: the ends of the name and of the tag. *)
Definition fill_name : PM (Z * Z) :=
  ok ← allocates;
  if negb ok then fails XML_NO_RESOURCES
  else
    pNodesOfNode ← does (skip_special (pBackupContent + strlen XML_TAG_BEGIN));
    match pNodesOfNode with
    | None => fails XML_MISSED_END_TAG
    | Some pNodesOfNode =>
        pEndOfNode ← does (AnscXmlFindString m pNodesOfNode XML_TAG_END);
        match pEndOfNode with
        | None => fails XML_MISSED_END_TAG
        | Some pEndOfNode =>
            pEndOfNodeName ← does (AnscXmlGotoFirstWantedChar m pNodesOfNode (left_at pNodesOfNode) SPECIAL_TOKEN);
            match pEndOfNodeName with
            | None => fails XML_MISSED_END_TAG
            | Some pEndOfNodeName =>
                pEndOfNodeName ← (if pEndOfNode <? pEndOfNodeName then
                                    c ← does (buf_get m (pEndOfNode - 1));
                                    mret (if negb (c =? deref XML_NODE_END) then pEndOfNode else pEndOfNode - 1)
                                  else mret pEndOfNodeName);
                if MAXIMUM_NODE_NAME <? pEndOfNodeName - pNodesOfNode then fails XML_INVALID_LENGTH
                else
                  b ← does (copy_range pNodesOfNode pEndOfNodeName MAXIMUM_NODE_NAME);
                  pNewNodeName ← does (string_at b 0);
                  if negb (AnscXmlIsValidNodeName (Some pNewNodeName)) then fails XML_INVALID_NODE_NAME
                  else
                    _ ← changes (fun n => set_name n pNewNodeName);
                    c ← (if pEndOfNodeName =? pEndOfNode - 1 then does (buf_get m pEndOfNodeName) else mret 0);
                    if (pEndOfNodeName =? pEndOfNode - 1) && (c =? deref XML_NODE_END)
                    then returns XML_SUCCESS (Some (pEndOfNode + 1))
                    else mret (pEndOfNodeName, pEndOfNode)
            end
        end
    end.

(** One attribute, from its name on: the place of the next one. *)
Definition fill_attribute (pEndOfNode pStartOfAttribute : Z) : PM (option Z) :=
  pEndOfAttribute ← does (AnscXmlGotoFirstWantedChar m pStartOfAttribute (left_at pStartOfAttribute) WANTED_TOKEN);
  match pEndOfAttribute with
  | None => fails XML_EQUAL_SIGN_MISSED
  | Some pEndOfAttribute =>
      if pEndOfNode <=? pEndOfAttribute then fails XML_EQUAL_SIGN_MISSED
      else if pEndOfAttribute =? pStartOfAttribute then fails XML_INVALID_ATTRIBUTE_NAME
      else if MAXIMUM_ATTRIBUTE_NAME <? pEndOfAttribute - pStartOfAttribute then fails XML_INVALID_LENGTH
      else
        b ← does (copy_range pStartOfAttribute pEndOfAttribute MAXIMUM_ATTRIBUTE_NAME);
        pNewAttributeName ← does (string_at b 0);
        if negb (AnscXmlIsValidAttributeName (Some pNewAttributeName)) then fails XML_INVALID_ATTRIBUTE_NAME
        else
          p ← does (skip_special pEndOfAttribute);
          b ← match p with None => mret false | Some p => does (looking_at p ITEM_EQUAL_MARK) end;
          if negb b then fails XML_EQUAL_SIGN_MISSED
          else
            p ← does (p ← not_null p; skip_special (p + 1));
            b ← match p with None => mret false | Some p => does (looking_at p STRING_MARK_1) end;
            if negb b then fails XML_STRING_SIGN_MISSED
            else
              pStartOfAttrValue ← does (p ← not_null p; Done (p + strlen STRING_MARK_1));
              e ← does (AnscXmlFindString m pStartOfAttrValue STRING_MARK_1);
              match e with
              | None => fails XML_STRING_SIGN_MISSED
              | Some pEndOfAttrValue =>
                  if pEndOfNode <=? pEndOfAttrValue then fails XML_STRING_SIGN_MISSED
                  else
                    ok ← allocates;
                    if negb ok then fails XML_RESOURCES
                    else
                      ok ← allocates;
                      if negb ok then fails XML_RESOURCES
                      else
                        let DataSize := ULONG (pEndOfAttrValue - pStartOfAttrValue) in
                        d ← does (copy_range pStartOfAttrValue pEndOfAttrValue (DataSize + 1));
                        _ ← changes (fun n => set_attributes n
                              (AttributesList n ++ [XmlAttr pNewAttributeName DataSize (Some d)]));
                        let pEndOfAttrValue := pEndOfAttrValue + strlen STRING_MARK_1 in
                        p ← does (skip_special pEndOfAttrValue);
                        if bool_decide (p = Some pEndOfAttrValue) then
                          b1 ← does (looking_at pEndOfAttrValue XML_TAG_END);
                          b2 ← (if b1 : bool then mret true else does (looking_at pEndOfAttrValue XML_NODE_END));
                          if negb b2 then fails XML_SPACE_NEEDED else mret p
                        else mret p
              end
  end.

Fixpoint attribute_loop (fuel : nat) (pEndOfNode : Z) (p : option Z) : PM (option Z) :=
  match p with
  | None => mret None
  | Some pStartOfAttribute =>
      b ← does (looking_at pStartOfAttribute XML_NODE_END);
      b ← (if b : bool then mret true else does (looking_at pStartOfAttribute XML_TAG_END));
      if b : bool then mret p
      else
        match fuel with
        | O => does (Stuck Diverge)
        | S fuel => p ← fill_attribute pEndOfNode pStartOfAttribute; attribute_loop fuel pEndOfNode p
        end
  end.

Definition fill_attributes (pEndOfNodeName pEndOfNode : Z) : PM unit :=
  if pEndOfNodeName <? pEndOfNode then
    p ← does (skip_special pEndOfNodeName);
    ok ← allocates;
    if negb ok then fails XML_NO_RESOURCES
    else
      p ← attribute_loop skip_fuel pEndOfNode p;
      match p with
      | None => fails XML_MISSED_END_TAG
      | Some p =>
          r ← does (AnscXmlFindString m p XML_NODE_END);
          if bool_decide (r = Some p) then returns XML_SUCCESS (Some (p + strlen XML_NODE_END)) else mret tt
      end
  else mret tt.

(** The text in front of the first child; the place of the first tag. *)
Definition fill_text (pEndOfNode : Z) : PM (option Z) :=
  let pEndOfNode := pEndOfNode + 1 in
  p ← does (skip_special pEndOfNode);
  match p with
  | None => fails text_missing
  | Some pStartOfText =>
      e ← does (e ← AnscXmlFindString m pStartOfText XML_TAG_BEGIN; not_null e);
      pEndOfText ← does (AnscXmlGetStringEndExcept m pStartOfText (ULONG (e - pStartOfText)) SPECIAL_TOKEN);
      _ ← (if pStartOfText <? pEndOfText then
             let DataSize := pEndOfText - pStartOfText in
             ok ← allocates;
             if negb ok then
               _ ← changes (fun n => set_data n None DataSize);
               fails XML_RESOURCES
             else
               d ← does (copy_range pStartOfText pEndOfText (DataSize + 1));
               changes (fun n => set_data n (Some d) DataSize)
           else mret tt);
      does (AnscXmlFindString m pEndOfText XML_TAG_BEGIN)
  end.

(** The children; [fill] reads a child whose tag is at a place, with so many
    bytes left, and returns the place behind it. *)
Variable fill : Z -> Z -> node * alloc_stream -> outcome (flow unit * (node * alloc_stream)).

Definition fill_child (pNodesOfNode : Z) : PM (option Z) := fun s =>
  let '(n, a) := s in
  let '(pNewNode, a) := AnscXmlDomNodeCreate a in
  match pNewNode with
  | None => fails XML_RESOURCES (n, a)
  | Some pNewNode =>
      match fill pNodesOfNode (left_at pNodesOfNode) (set_level pNewNode (ULONG (Level n + 1)), a) with
      | Done (Return XML_SUCCESS p, (c, a)) => Done (Next p, (set_children n (ChildNodeQueue n ++ [c]), a))
      | Done (Return st _, (_, a)) => fails st (n, a)
      | Done (Next _, (_, a)) => Stuck Diverge
      | Stuck f => Stuck f
      end
  end.

Fixpoint children_loop (fuel : nat) (p : option Z) : PM (option Z) :=
  match p with
  | None => mret None
  | Some pNodesOfNode =>
      b ← does (looking_at pNodesOfNode XML_END_NODE);
      if b : bool then mret p
      else
        match fuel with
        | O => does (Stuck Diverge)
        | S fuel =>
            n ← this_node;
            r ← does (AnscXmlFindNode p (left_at pNodesOfNode) (ULONG (Level n + 1)));
            match r with
            | (XML_SUCCESS, p) =>
                pNodesOfNode ← does (not_null p);
                b ← does (looking_at pNodesOfNode XML_END_NODE);
                if b : bool then mret p
                else
                  p ← fill_child pNodesOfNode;
                  p ← does (p ← not_null p; skip_special p);
                  children_loop fuel p
            | (st, _) => fails st
            end
        end
  end.

(** The end tag. *)
Definition fill_end (p : option Z) : PM unit :=
  match p with
  | None => fails XML_MISSED_END_TAG
  | Some p =>
      let p := p + strlen XML_END_NODE in
      n ← this_node;
      b ← does (looking_at p (Name n));
      if negb b then fails XML_MISSED_END_TAG
      else
        q ← does (skip_special (p + strlen (Name n)));
        c ← does (q ← not_null q; buf_get m q);
        if negb (c =? deref XML_TAG_END) then fails XML_MISSED_END_TAG
        else
          q ← does (q ← not_null q; skip_special (q + 1));
          q ← does (finish q);
          returns XML_SUCCESS q
  end.

Definition fill_node : PM unit :=
  ends ← fill_name;
  let '(pEndOfNodeName, pEndOfNode) := ends in
  _ ← fill_attributes pEndOfNodeName pEndOfNode;
  p ← fill_text pEndOfNode;
  p ← children_loop skip_fuel p;
  fill_end p.
End node.

(** The recursion; the fuel bounds the depth of the document. *)
Fixpoint fill_from (fuel : nat) (pContent length : Z) : PM unit :=
  match fuel with
  | O => does (Stuck Diverge)
  | S fuel => fill_node pContent (LONG length) (fill_from fuel)
  end.
End parser.

(** ** The two readers, and documents *)

Definition fill_fuel (m : mem) : nat := S (List.length m).

Section documents.
Context `{Platform}.

(** Yield the status, the pointer or the number of bytes left, and the node. *)
Definition AnscXmlFillContentOfNode (m : mem) (pContent length : Z) (pNode : node) (a : alloc_stream)
  : outcome (xml_status * option Z * node * alloc_stream) :=
  r ← fill_from m XML_RESOURCES Done (fill_fuel m) pContent length (pNode, a);
  match r with
  | (Return st p, (n, a)) => Done (st, p, n, a)
  | (Next _, _) => Stuck Diverge
  end.

Definition AnscXmlDomNodeDecode (pNode : node) (m : mem) (buffer pulSize : Z) (a : alloc_stream)
  : outcome (xml_status * Z * node * alloc_stream) :=
  r ← fill_from m XML_MISSED_END_TAG (fun q => Some <$> not_null q) (fill_fuel m) buffer pulSize (pNode, a);
  match r with
  | (Return XML_SUCCESS p, (n, a)) => q ← not_null p; Done (XML_SUCCESS, ULONG (pulSize - (q - buffer)), n, a)
  | (Return st _, (n, a)) => Done (st, pulSize, n, a)
  | (Next _, _) => Stuck Diverge
  end.

(** Yields the root and [*ppXMLString]. *)
Definition AnscXmlDomParseString (m : mem) (ppXMLString : option Z) (length : Z) (a : alloc_stream)
  : outcome (option node * option Z * alloc_stream) :=
  match ppXMLString with
  | None => Done (None, None, a)
  | Some pSave =>
      r ← AnscXmlFindNode m ppXMLString length 0;
      match r with
      | (XML_SUCCESS, p) =>
          length ← (if length =? 0 then s ← string_at m pSave; Done (strlen s) else Done length);
          let '(pRootNode, a) := AnscXmlDomNodeCreate a in
          match pRootNode with
          | None => Done (None, p, a)
          | Some pRootNode =>
              q ← not_null p;
              r ← AnscXmlFillContentOfNode m q (length - (q - pSave)) pRootNode a;
              match r with
              | (XML_SUCCESS, p, n, a) => Done (Some n, p, a)
              | (_, p, _, a) => Done (None, p, a)
              end
          end
      | (_, p) => Done (None, p, a)
      end
  end.

(** ** The parser object *)

Record ANSC_XML_DOM_PARSER_OBJECT := XmlParser { hRootNode : option node }.
Abbreviation parser := ANSC_XML_DOM_PARSER_OBJECT.

Definition AnscXmlDomParserCreate (a : alloc_stream) : option parser * alloc_stream :=
  let '(ok, a) := next_alloc a in (if ok then Some (XmlParser None) else None, a).
Definition AnscXmlDomParserReset (x : parser) : list block * parser :=
  match hRootNode x with None => ([], x) | Some n => (AnscXmlDomNodeRemove n, XmlParser None) end.
Definition AnscXmlDomParserRemove (x : parser) : list block := (AnscXmlDomParserReset x).1.
Definition AnscXmlDomParserGetRootNode (x : parser) : option node := hRootNode x.
Definition AnscXmlDomParserSetRootNode (x : parser) (name : option cstr) (a : alloc_stream) : xml_status * parser * alloc_stream :=
  match name with
  | None => (XML_FAILURE, x, a)
  | Some s =>
      if ANSC_OBJECT_NAME_SIZE <=? strlen s then (XML_FAILURE, x, a)
      else
        match hRootNode x with
        | Some n => (XML_SUCCESS, XmlParser (Some (AnscXmlDomNodeSetName n name).2), a)
        | None =>
            let '(n, a) := AnscXmlDomNodeCreate a in
            match n with
            | None => (XML_NO_RESOURCES, x, a)
            | Some n => (XML_SUCCESS, XmlParser (Some (AnscXmlDomNodeSetName n name).2), a)
            end
        end
  end.
Definition AnscXmlDomParserGetEncodedSize (x : parser) : outcome Z :=
  match hRootNode x with None => Done 0 | Some n => AnscXmlDomNodeGetEncodedSize n end.

(** Yields the status and the writer; a node that does not fit is
    [XML_NO_RESOURCES]. *)
Definition AnscXmlDomParserEncode (x : parser) (w : writer) : outcome (xml_status * writer) :=
  match hRootNode x with
  | None => Done (XML_UNAPPLICABLE, w)
  | Some n =>
      r ← AnscXmlDomNodeEncode n w;
      Done (match r.1 with Some _ => XML_SUCCESS | None => XML_NO_RESOURCES end, r.2)
  end.

(** Yields the status, the object and [*pulSize]. *)
Definition AnscXmlDomParserDecode (x : parser) (m : mem) (buffer pulSize : Z) (a : alloc_stream)
  : outcome (xml_status * parser * Z * alloc_stream) :=
  match hRootNode x with
  | Some n =>
      r ← AnscXmlDomNodeDecode n m buffer pulSize a;
      let '(st, pulSize, n, a) := r in Done (st, XmlParser (Some n), pulSize, a)
  | None =>
      r ← AnscXmlFindNode m (Some buffer) pulSize 0;
      match r with
      | (XML_SUCCESS, pBuf) =>
          let '(n, a) := AnscXmlDomNodeCreate a in
          match n with
          | None => Done (XML_NO_RESOURCES, x, pulSize, a)
          | Some n =>
              pBuf ← not_null pBuf;
              r ← AnscXmlDomNodeDecode n m pBuf pulSize a;
              let '(_, pulSize, n, a) := r in Done (XML_SUCCESS, XmlParser (Some n), pulSize, a)
          end
      | (st, _) => Done (st, x, pulSize, a)
      end
  end.
End documents.
