(* ===== verification/XmlRead.v ===== *)
(** * What the XML parser promises

    Reading the text of a document gives the document back, from the parser of a
    block of bytes and from the parser object. *)

From S2P Require Import Prelude CStrings IpAddr XmlText XmlNode XmlParse.
Open Scope Z_scope.

(** ** Characters of names *)

Definition special (c : Z) : bool := AnscXmlCharInString SPECIAL_TOKEN c.

Lemma special_spec c : special c = true <-> c = 32 \/ c = 9 \/ c = 13 \/ c = 10 \/ c = 0.
Proof.
  unfold special, AnscXmlCharInString, AnscCharInString, SPECIAL_TOKEN.
  rewrite orb_true_iff, bool_decide_eq_true, Z.eqb_eq, !elem_of_cons, elem_of_nil. lia.
Qed.
Lemma special_false c : special c = false <-> c ≠ 32 /\ c ≠ 9 /\ c ≠ 13 /\ c ≠ 10 /\ c ≠ 0.
Proof. rewrite <-not_true_iff_false, special_spec. lia. Qed.

Lemma name_char_spec c : name_char c = true ->
  48 <= c <= 57 \/ 65 <= c <= 90 \/ 97 <= c <= 122 \/ c = 45 \/ c = 46 \/ c = 95 \/ c = 58.
Proof.
  unfold name_char, AnscXmlIsLetter, AnscXmlIsUpperLetter, AnscXmlIsLowerLetter, AnscXmlIsDigit.
  rewrite !orb_true_iff, !andb_true_iff, !Z.leb_le, !Z.eqb_eq. lia.
Qed.

Lemma valid_name_spec s : valid_name s = true -> s ≠ [] /\ Forall (fun c => name_char c = true) s.
Proof.
  destruct s as [|c s]; [done|]. cbn [valid_name]. rewrite andb_true_iff. intros [Hc Hs]. split; [done|]. constructor.
  - revert Hc. unfold first_name_char, name_char. destruct (AnscXmlIsLetter c); [done|]. cbn [orb]. intros ->. by rewrite !orb_true_r.
  - apply Forall_forall. rewrite forallb_forall in Hs. intros x Hx%list_elem_of_In. by apply Hs.
Qed.

Lemma names_wf s : Forall (fun c => name_char c = true) s -> wf_cstr s.
Proof. intros Hs. eapply Forall_impl; [done|]. intros c Hc%name_char_spec. lia. Qed.

Lemma name_not c s : Forall (fun c => name_char c = true) s -> name_char c = false -> c ∉ s.
Proof. intros Hs Hc Hin. rewrite Forall_forall in Hs. by rewrite (Hs _ Hin) in Hc. Qed.

Lemma name_stop (stop : Z -> bool) s : Forall (fun c => name_char c = true) s ->
  (forall c, stop c = true -> name_char c = false) -> Forall (fun c => stop c = false) s.
Proof.
  intros Hs Hst. eapply Forall_impl; [done|]. intros c Hc. apply not_true_iff_false. intros Hno%Hst. cbn beta in Hc. congruence.
Qed.

Lemma special_no_name c : special c = true -> name_char c = false.
Proof. intros [->|[->|[->|[->| ->]]]]%special_spec; done. Qed.

(** ** Searching *)

Lemma find_in_char a c r : c ∉ a -> find_in (a ++ c :: r) [c] = Some (length a).
Proof.
  induction a as [|x a IH]; intros Hc; cbn [app find_in length].
  - rewrite bool_decide_true; [done|]. by exists r.
  - rewrite bool_decide_false by (intros [k [= <- _]]; set_solver). rewrite IH by set_solver. done.
Qed.

Lemma find_in_None_char a c : c ∉ a -> find_in a [c] = None.
Proof.
  induction a as [|x a IH]; intros Hc; cbn [find_in].
  - rewrite bool_decide_false; [done|]. by intros [k ?].
  - rewrite bool_decide_false by (intros [k [= <- _]]; set_solver). rewrite IH by set_solver. done.
Qed.

(** ** A place in a document

    At [p] the document goes on with [s], which ends at [stop] with a zero. *)
Definition doc_at (m : mem) (stop p : Z) (s : cstr) : Prop :=
  (exists pre post, m = pre ++ s ++ 0 :: post /\ p = Zlen pre) /\ wf_cstr s /\ p + Zlen s = stop /\ Zlen s < 2147483648.

Section doc_at.
Context `{Platform}.
Variables (m : mem) (stop b length_ : Z).
Hypothesis Hstop : b + length_ = stop.
Implicit Types (p : Z) (s r : cstr).

Lemma doc_app p s r : doc_at m stop p (s ++ r) -> doc_at m stop (p + Zlen s) r.
Proof.
  intros ((pre & post & -> & ->) & Hwf & Hst & Hmax). rewrite length_app in Hst, Hmax. apply Forall_app in Hwf as [_ Hwf].
  split_and!; [|done|lia|lia]. exists (pre ++ s), post. rewrite length_app, <-!app_assoc. split; [done|lia].
Qed.
Lemma doc_cons p c r : doc_at m stop p (c :: r) -> doc_at m stop (p + 1) r.
Proof. intros Hd. by apply (doc_app p [c] r). Qed.

Lemma doc_pos p s : doc_at m stop p s -> 0 <= p.
Proof. intros ((pre & post & _ & ->) & _). lia. Qed.

Lemma doc_left p s : doc_at m stop p s -> left_at b length_ p = Zlen s.
Proof. intros (_ & _ & Hp & _). unfold left_at. lia. Qed.

Lemma doc_string p s : doc_at m stop p s -> string_at m p = Done s.
Proof. intros ((pre & post & -> & ->) & Hwf & _). by apply string_at_spec. Qed.

Lemma doc_get p a c r : doc_at m stop p (a ++ c :: r) -> buf_get m (p + Zlen a) = Done c.
Proof. intros ((pre & post & -> & ->) & _). rewrite <-app_assoc. cbn [app]. by apply get_behind. Qed.

Lemma doc_find p s pat : doc_at m stop p s ->
  AnscXmlFindString m p pat = Done ((fun k => p + Z.of_nat k) <$> find_in s pat).
Proof. intros Hd. unfold AnscXmlFindString. by rewrite (doc_string p s Hd). Qed.

Lemma doc_find_char p a c r : doc_at m stop p (a ++ c :: r) -> c ∉ a -> AnscXmlFindString m p [c] = Done (Some (p + Zlen a)).
Proof. intros Hd Hc. rewrite (doc_find _ _ _ Hd), find_in_char by done. done. Qed.

Lemma doc_INT p s : doc_at m stop p s -> INT (left_at b length_ p) = Zlen s.
Proof. intros Hd. rewrite (doc_left p s Hd). destruct Hd as (_ & _ & _ & ?). apply INT_small. lia. Qed.

Lemma doc_scan (f : Z -> bool) p s : doc_at m stop p s -> s ≠ [] ->
  scan_forward f m p (Z.to_nat (Zlen s)) = Done (p + Z.of_nat (until f s)).
Proof. intros ((pre & post & -> & ->) & _) _. rewrite Nat2Z.id. apply scan_forward_spec. Qed.

Lemma doc_skip p ws c r : doc_at m stop p (ws ++ c :: r) -> Forall (fun x => special x = true) ws -> special c = false ->
  skip_special m b length_ p = Done (Some (p + Zlen ws)) /\ doc_at m stop (p + Zlen ws) (c :: r).
Proof.
  intros Hd Hws Hc. split; [|by apply doc_app]. unfold skip_special, AnscXmlGotoFirstCharExcept.
  rewrite (doc_INT _ _ Hd), (proj2 (Z.eqb_neq _ _)) by (rewrite length_app; cbn; lia).
  rewrite (doc_scan _ _ _ Hd) by by destruct ws. cbn [fmap outcome_fmap]. do 3 f_equal.
  rewrite (until_app _ ws c r); [done| |].
  - eapply Forall_impl; [done|]. intros x Hx. unfold special in Hx. by rewrite Hx.
  - unfold special in Hc. by rewrite Hc.
Qed.

Lemma doc_looking p s pat : doc_at m stop p s -> wf_cstr pat -> pat ≠ [] -> Zlen pat < 2147483648 ->
  looking_at m b length_ p pat = Done (bool_decide (pat `prefix_of` s)).
Proof.
  intros Hd Hp Hne Hl. unfold looking_at, AnscXmlIsStringStartWith. rewrite (doc_INT _ _ Hd).
  unfold strlen. rewrite (INT_small (Zlen pat)) by lia.
  assert (Zlen pat ≠ 0) by (destruct pat; [done|cbn; lia]). rewrite (proj2 (Z.eqb_neq (Zlen pat) 0)) by done.
  destruct (Z.ltb_spec (Zlen s) (Zlen pat)) as [Hlt|Hge].
  - rewrite bool_decide_false; [by rewrite orb_true_r|]. intros [k ->]. rewrite length_app in Hlt. lia.
  - rewrite (proj2 (Z.eqb_neq _ _)) by lia. cbn [orb]. destruct Hd as ((pre & post & -> & ->) & Hwf & _). by apply starts_with_spec.
Qed.

(** The test for a first character. *)
Lemma doc_looking_char p c r x : doc_at m stop p (c :: r) -> 0 < x < 256 -> looking_at m b length_ p [x] = Done (c =? x).
Proof.
  intros Hd Hx. rewrite (doc_looking _ _ _ Hd) by (repeat constructor || done || (cbn; lia)). f_equal.
  destruct (Z.eqb_spec c x) as [->|Hne]; [apply bool_decide_true; by exists r|apply bool_decide_false].
  intros [k [= E _]]. congruence.
Qed.

Lemma doc_wanted p W a c r : doc_at m stop p (a ++ c :: r) -> Forall (fun x => AnscXmlCharInString W x = false) a ->
  AnscXmlCharInString W c = true -> AnscXmlGotoFirstWantedChar m p (left_at b length_ p) W = Done (Some (p + Zlen a)).
Proof.
  intros Hd Ha Hc. unfold AnscXmlGotoFirstWantedChar.
  rewrite (doc_INT _ _ Hd), (proj2 (Z.eqb_neq _ _)) by (rewrite length_app; cbn; lia).
  rewrite (doc_scan _ _ _ Hd) by by destruct a. by rewrite (until_app _ a c r).
Qed.

(** In any case a place not before the end of what is no such character. *)
Lemma doc_wanted_behind p W a r : doc_at m stop p (a ++ r) -> a ≠ [] -> Forall (fun x => AnscXmlCharInString W x = false) a ->
  exists q, AnscXmlGotoFirstWantedChar m p (left_at b length_ p) W = Done (Some q) /\ p + Zlen a <= q.
Proof.
  intros Hd Hne Ha. unfold AnscXmlGotoFirstWantedChar.
  rewrite (doc_INT _ _ Hd), (proj2 (Z.eqb_neq _ _)) by (rewrite length_app; destruct a; [done|cbn; lia]).
  rewrite (doc_scan _ _ _ Hd) by by destruct a. eexists. split; [done|]. clear Hd.
  enough (length a <= until (AnscXmlCharInString W) (a ++ r))%nat by lia. clear Hne.
  induction Ha as [|x a Hx Ha IH]; cbn [app until length]; [lia|]. rewrite Hx. lia.
Qed.

Lemma doc_copy p a r size : doc_at m stop p (a ++ r) -> Zlen a <= size ->
  copy_range m p (p + Zlen a) size = Done (a ++ replicate (Z.to_nat (size - Zlen a)) 0).
Proof.
  intros Hd Hsz. assert (Hul : ULONG (p + Zlen a - p) = Zlen a).
  { destruct Hd as (_ & _ & _ & Hmax). rewrite length_app in Hmax. rewrite ULONG_small32 by lia. lia. }
  unfold copy_range. rewrite Hul. destruct Hd as ((pre & post & -> & ->) & _).
  rewrite (proj2 (Z.ltb_ge _ _)) by (rewrite !length_app; lia). rewrite !Nat2Z.id, drop_app_length.
  rewrite <-app_assoc, take_app_length. pose proof (buf_copy_at [] (replicate (length a) 0) (replicate (Z.to_nat (size - Zlen a)) 0) a 0 eq_refl) as E.
  rewrite <-replicate_add in E. replace (length a + Z.to_nat (size - Zlen a))%nat with (Z.to_nat size) in E by lia.
  apply E. by rewrite length_replicate.
Qed.

Lemma string_padded s n : wf_cstr s -> (0 < n)%nat -> string_at (s ++ replicate n 0) 0 = Done s.
Proof. intros Hs Hn. destruct n as [|n]; [lia|]. cbn [replicate]. by apply (string_at_spec [] s). Qed.
End doc_at.

(** ** Documents the parser reads back *)

Definition value_char (c : Z) : bool := (0 <? c) && (c <? 256) && negb (c =? 34) && negb (c =? 62).
Definition text_char (c : Z) : bool := (0 <? c) && (c <? 256) && negb (c =? 60).
Definition attr_ok (x : cstr * cstr) : bool :=
  valid_name x.1 && (strlen x.1 <? MAXIMUM_ATTRIBUTE_NAME) && forallb value_char x.2.
Definition text_ok (s : cstr) : bool :=
  forallb text_char s && match s with [] => true | c :: _ => negb (special c) && negb (special (List.last s 0)) end.
(** Names shorter than their buffers, values without quotes and tag ends, texts
    without tags and not surrounded by blanks. *)
Fixpoint well_formed (t : tree) : bool :=
  let '(Tree nm al s ts) := t in
  valid_name nm && (strlen nm <? MAXIMUM_NODE_NAME) && forallb attr_ok al && text_ok s &&
  (Zlen ts <? 65536) && forallb well_formed ts.

Record good_attr (x : cstr * cstr) : Prop := {
  ga_name : Forall (fun c => name_char c = true) x.1;
  ga_valid : valid_name x.1 = true;
  ga_short : Zlen x.1 < 64;
  ga_value : wf_cstr x.2;
  ga_quote : 34 ∉ x.2;
  ga_end : 62 ∉ x.2
}.

Lemma forallb_Forall {A} (f : A -> bool) l : forallb f l = true <-> Forall (fun x => f x = true) l.
Proof. rewrite forallb_forall, Forall_forall. by setoid_rewrite list_elem_of_In. Qed.

Lemma attr_ok_spec x : attr_ok x = true -> good_attr x.
Proof.
  unfold attr_ok. rewrite !andb_true_iff, forallb_Forall. intros [[Hn Hl] Hv]. zbool.
  destruct (valid_name_spec _ Hn) as [_ Hc].
  assert (Hvc : Forall (fun c => 0 < c < 256 /\ c ≠ 34 /\ c ≠ 62) x.2).
  { eapply Forall_impl; [done|]. intros c. unfold value_char. rewrite !andb_true_iff, !negb_true_iff. intros. zbool. lia. }
  rewrite Forall_forall in Hvc. split; [done|done|by unfold strlen, MAXIMUM_ATTRIBUTE_NAME in Hl| | |].
  - apply Forall_forall. intros c Hc'. by apply Hvc.
  - intros Hin. by apply Hvc in Hin as (_ & ? & _).
  - intros Hin. by apply Hvc in Hin as (_ & _ & ?).
Qed.

Record good_text (s : cstr) : Prop := {
  gt_wf : wf_cstr s;
  gt_tag : 60 ∉ s;
  gt_head : forall c r, s = c :: r -> special c = false;
  gt_last : forall a c, s = a ++ [c] -> special c = false
}.

Lemma text_ok_spec s : text_ok s = true -> good_text s.
Proof.
  unfold text_ok. rewrite andb_true_iff, forallb_Forall. intros [Hc Hends].
  assert (Hsc : Forall (fun c => 0 < c < 256 /\ c ≠ 60) s).
  { eapply Forall_impl; [done|]. intros c. unfold text_char. rewrite !andb_true_iff, !negb_true_iff. intros. zbool. lia. }
  rewrite Forall_forall in Hsc. split.
  - apply Forall_forall. intros c Hin. by apply Hsc.
  - intros Hin. by apply Hsc in Hin as [_ ?].
  - intros c r ->. apply andb_true_iff in Hends as [Hh _]. by apply negb_true_iff.
  - intros a c ->. assert (Hl : List.last (a ++ [c]) 0 = c) by apply last_last. rewrite Hl in Hends.
    destruct (a ++ [c]) as [|x l] eqn:E; [by destruct a|]. apply andb_true_iff in Hends as [_ Hh]. by apply negb_true_iff.
Qed.

Lemma well_formed_spec nm al s ts : well_formed (Tree nm al s ts) = true ->
  valid_name nm = true /\ Zlen nm < 48 /\ Forall good_attr al /\ good_text s /\ Zlen ts < 65536 /\
  Forall (fun t => well_formed t = true) ts.
Proof.
  cbn [well_formed]. rewrite !andb_true_iff, !forallb_Forall. intros (((((Hn & Hl) & Ha) & Hs) & Hc) & Hts). zbool.
  split_and!; [done|by unfold strlen, MAXIMUM_NODE_NAME, ANSC_OBJECT_NAME_SIZE in Hl| |by apply text_ok_spec|done|done].
  eapply Forall_impl; [done|]. intros x. apply attr_ok_spec.
Qed.

(** ** Steps of the reader *)

Lemma PM_step {A B} (f : PM A) (k : A -> PM B) s a s' : f s = Done (Next a, s') -> (f ≫= k) s = k a s'.
Proof. intros E. unfold mbind, PM_bind. by rewrite E. Qed.
Lemma PM_return {A B} (f : PM A) (k : A -> PM B) s st p s' :
  f s = Done (Return st p, s') -> (f ≫= k) s = Done (Return st p, s').
Proof. intros E. unfold mbind, PM_bind. by rewrite E. Qed.
Lemma PM_does {A B} (x : outcome A) a (k : A -> PM B) s : x = Done a -> (does x ≫= k) s = k a s.
Proof. intros ->. done. Qed.
Lemma PM_ret_step {A B} (a : A) (k : A -> PM B) s : (mret a ≫= k) s = k a s.
Proof. done. Qed.
Lemma PM_changes {B} (f : node -> node) (k : unit -> PM B) n a : (changes f ≫= k) (n, a) = k tt (f n, a).
Proof. done. Qed.
Lemma PM_allocates {B} (k : bool -> PM B) n : (allocates ≫= k) (n, []) = k true (n, []).
Proof. done. Qed.

Lemma find_in_app a c r : c ∉ a -> find_in (a ++ r) [c] = (fun k => (length a + k)%nat) <$> find_in r [c].
Proof.
  induction a as [|x a IH]; intros Hc; cbn [app].
  - by destruct (find_in r [c]).
  - cbn [find_in]. rewrite bool_decide_false by (intros [k [= <- _]]; set_solver). rewrite IH by set_solver.
    by destruct (find_in r [c]).
Qed.

Section fill.
Context `{Platform}.
Variables (m : mem) (stop b length_ : Z).
Hypothesis Hstop : b + length_ = stop.
Implicit Types (n : node) (p : Z) (s r : cstr).


(** A name that a blank or the end of the tag follows, up to its copy; the copy is
    read as a string. *)
Lemma fill_name_copied nm c r k n : doc_at m stop b (60 :: nm ++ c :: r) -> valid_name nm = true -> Zlen nm <= 48 ->
  c = 62 \/ c = 32 -> find_in (c :: r) [62] = Some k ->
  exists K, fill_name m b length_ (n, []) = (does (string_at (nm ++ replicate (Z.to_nat (48 - Zlen nm)) 0) 0) ≫= K) (n, []) /\
    K nm (n, []) = Done (Next (b + 1 + Zlen nm, b + 1 + Zlen nm + Z.of_nat k), (set_name n nm, [])).
Proof.
  intros Hd Hv Hl Hc Hk. destruct (valid_name_spec _ Hv) as [Hne Hnm]. pose proof (doc_cons _ _ _ _ _ Hd) as Hd1.
  assert (Hsp : Forall (fun x => special x = false) nm) by (apply name_stop; [done|apply special_no_name]).
  assert (H62 : 62 ∉ nm) by (by apply name_not).
  unfold fill_name. rewrite PM_allocates. cbn [negb].
  assert (Hskip : skip_special m b length_ (b + strlen XML_TAG_BEGIN) = Done (Some (b + 1))).
  { change (strlen XML_TAG_BEGIN) with 1. destruct nm as [|x nm]; [done|].
    destruct (doc_skip m stop b length_ Hstop (b + 1) [] x (nm ++ c :: r) Hd1) as [-> _]; [done|by inversion Hsp|].
    do 2 f_equal. cbn. lia. }
  rewrite (PM_does _ _ _ _ Hskip).
  assert (Hfind : AnscXmlFindString m (b + 1) XML_TAG_END = Done (Some (b + 1 + Zlen nm + Z.of_nat k))).
  { rewrite (doc_find _ _ _ _ _ Hd1). change XML_TAG_END with [62]. rewrite find_in_app, Hk by done. cbn. do 2 f_equal. lia. }
  rewrite (PM_does _ _ _ _ Hfind).
  assert (Hend : exists q, AnscXmlGotoFirstWantedChar m (b + 1) (left_at b length_ (b + 1)) SPECIAL_TOKEN = Done (Some q) /\
    (c = 62 /\ k = O /\ b + 1 + Zlen nm < q \/ c = 32 /\ (0 < k)%nat /\ q = b + 1 + Zlen nm)).
  { destruct Hc as [-> | ->].
    - destruct (doc_wanted_behind m stop b length_ Hstop (b + 1) SPECIAL_TOKEN (nm ++ [62]) r) as (q & E & Hq).
      + by rewrite <-app_assoc.
      + by destruct nm.
      + apply Forall_app; split; [done|by repeat constructor].
      + exists q. split; [done|]. left. rewrite length_app in Hq. cbn [length] in Hq. split_and!; [done| |lia].
        cbn [find_in] in Hk. rewrite bool_decide_true in Hk by by exists r. by injection Hk.
    - exists (b + 1 + Zlen nm). split; [by apply (doc_wanted m stop b length_ Hstop _ _ nm 32 r Hd1)|]. right.
      split_and!; [done| |done]. cbn [find_in] in Hk. rewrite bool_decide_false in Hk by (intros [? [=]]).
      destruct (find_in r [62]) as [j|]; [|done]. injection Hk as <-. lia. }
  destruct Hend as (q & Eq & Hq). rewrite (PM_does _ _ _ _ Eq).
  assert (Hclamp : forall (kk : Z -> PM (Z * Z)) st, ((if b + 1 + Zlen nm + Z.of_nat k <? q then
      c ← does (buf_get m (b + 1 + Zlen nm + Z.of_nat k - 1));
      mret (if negb (c =? deref XML_NODE_END) then b + 1 + Zlen nm + Z.of_nat k else b + 1 + Zlen nm + Z.of_nat k - 1)
    else mret q) ≫= kk) st = kk (b + 1 + Zlen nm) st).
  { intros kk st. destruct Hq as [(-> & -> & Hq)|(-> & Hk0 & ->)].
    - rewrite (proj2 (Z.ltb_lt _ _)) by lia. destruct (exists_last Hne) as (nm0 & z & E).
      assert (Hz : buf_get m (b + 1 + Zlen nm + Z.of_nat 0 - 1) = Done z).
      { replace (b + 1 + Zlen nm + Z.of_nat 0 - 1) with (b + Zlen (60 :: nm0)) by (rewrite E, length_app; cbn [length]; lia).
        apply (doc_get m stop b (60 :: nm0) z (62 :: r)). rewrite E, <-app_assoc in Hd. done. }
      assert (name_char z = true) by (rewrite E in Hnm; apply Forall_app in Hnm as [_ Hz']; by inversion Hz').
      rewrite Hz. change (deref XML_NODE_END) with 47. unfold mbind, PM_bind, does, mret, PM_ret. cbn [mbind outcome_bind].
      destruct (Z.eqb_spec z 47) as [->|]; [done|]. cbn [negb]. by rewrite Z.add_0_r.
    - rewrite (proj2 (Z.ltb_ge _ _)) by lia. done. }
  rewrite Hclamp. unfold MAXIMUM_NODE_NAME, ANSC_OBJECT_NAME_SIZE. rewrite (proj2 (Z.ltb_ge 48 _)) by lia.
  rewrite (PM_does _ _ _ _ (doc_copy m stop (b + 1) nm (c :: r) 48 Hd1 ltac:(lia))).
  eexists. split; [reflexivity|]. cbv beta.
  unfold AnscXmlIsValidNodeName. rewrite Hv. cbn [negb]. rewrite PM_changes.
  destruct (Z.eqb_spec (b + 1 + Zlen nm) (b + 1 + Zlen nm + Z.of_nat k - 1)) as [E|E]; [|done].
  destruct Hq as [(_ & -> & _)|(-> & _ & _)]; [lia|].
  rewrite (PM_does _ 32); [done|]. apply (doc_get m stop (b + 1) nm 32 r Hd1).
Qed.

Lemma fill_name_spec nm c r k n : doc_at m stop b (60 :: nm ++ c :: r) -> valid_name nm = true -> Zlen nm < 48 ->
  c = 62 \/ c = 32 -> find_in (c :: r) [62] = Some k ->
  fill_name m b length_ (n, []) = Done (Next (b + 1 + Zlen nm, b + 1 + Zlen nm + Z.of_nat k), (set_name n nm, [])).
Proof.
  intros Hd Hv Hl Hc Hk. destruct (fill_name_copied nm c r k n Hd Hv ltac:(lia) Hc Hk) as (K & -> & EK).
  by rewrite (PM_does _ nm) by (apply string_padded; [by apply names_wf, valid_name_spec|lia]).
Qed.

Lemma fill_attribute_spec x ws c r e p n : doc_at m stop p (x.1 ++ 61 :: 34 :: x.2 ++ 34 :: ws ++ c :: r) ->
  good_attr x -> Forall (fun y => special y = true) ws -> special c = false -> (ws = [] -> c = 62) ->
  p + Zlen x.1 + Zlen x.2 + 2 < e ->
  fill_attribute m b length_ e p (n, []) =
  Done (Next (Some (p + Zlen x.1 + Zlen x.2 + 3 + Zlen ws)), (set_attributes n (AttributesList n ++ [build_attr x]), [])).
Proof.
  intros Hd [Hname Hvalid Hshort Hval Hquote _] Hws Hc Hgap He. destruct (valid_name_spec _ Hvalid) as [Hne _].
  assert (0 < Zlen x.1) by (destruct x.1; [done|cbn; lia]).
  pose proof (doc_app _ _ _ _ _ Hd) as Hd1. pose proof (doc_cons _ _ _ _ _ Hd1) as Hd2.
  pose proof (doc_cons _ _ _ _ _ Hd2) as Hd3. pose proof (doc_app _ _ _ _ _ Hd3) as Hd4. pose proof (doc_cons _ _ _ _ _ Hd4) as Hd5.
  unfold fill_attribute.
  assert (Hw : AnscXmlGotoFirstWantedChar m p (left_at b length_ p) WANTED_TOKEN = Done (Some (p + Zlen x.1))).
  { eapply doc_wanted; [done|done| |done]. apply (name_stop _ _ Hname). intros y Hy.
    unfold AnscXmlCharInString, AnscCharInString in Hy. apply orb_true_iff in Hy as [Hy|Hy]; zbool; [|by subst].
    apply bool_decide_eq_true in Hy. change WANTED_TOKEN with [32; 61] in Hy.
    apply elem_of_cons in Hy as [->|[->|[]%elem_of_nil]%elem_of_cons]; done. }
  rewrite (PM_does _ _ _ _ Hw). rewrite (proj2 (Z.leb_gt e _)), (proj2 (Z.eqb_neq _ _)) by lia.
  unfold MAXIMUM_ATTRIBUTE_NAME. rewrite (proj2 (Z.ltb_ge 64 _)) by lia.
  rewrite (PM_does _ _ _ _ (doc_copy m stop p x.1 _ 64 Hd ltac:(lia))).
  rewrite (PM_does _ x.1) by (apply string_padded; [by apply names_wf|lia]).
  unfold AnscXmlIsValidAttributeName. rewrite Hvalid. cbn [negb].
  destruct (doc_skip m stop b length_ Hstop _ [] 61 _ Hd1) as [Hs1 _]; [done|done|]. rewrite (PM_does _ _ _ _ Hs1).
  cbn [length]. rewrite Z.add_0_r.
  rewrite (PM_does _ _ _ _ (doc_looking_char m stop b length_ Hstop _ _ _ 61 Hd1 ltac:(lia))). rewrite Z.eqb_refl. cbn [negb].
  destruct (doc_skip m stop b length_ Hstop _ [] 34 _ Hd2) as [Hs2 _]; [done|done|].
  rewrite (PM_does _ (Some (p + Zlen x.1 + 1))) by (cbn [not_null mbind outcome_bind]; rewrite Hs2; do 2 f_equal; cbn; lia).
  rewrite (PM_does _ _ _ _ (doc_looking_char m stop b length_ Hstop _ _ _ 34 Hd2 ltac:(lia))). rewrite Z.eqb_refl. cbn [negb].
  rewrite (PM_does _ (p + Zlen x.1 + 1 + 1)) by done.
  rewrite (PM_does _ _ _ _ (doc_find_char m stop _ x.2 34 _ Hd3 Hquote)).
  rewrite (proj2 (Z.leb_gt e _)) by lia. rewrite PM_allocates. cbn [negb].
  assert (Hul : ULONG (p + Zlen x.1 + 1 + 1 + Zlen x.2 - (p + Zlen x.1 + 1 + 1)) = Zlen x.2).
  { destruct Hd3 as (_ & _ & _ & Hmax). rewrite length_app in Hmax. rewrite ULONG_small32 by lia. lia. }
  rewrite Hul. cbv zeta. rewrite PM_allocates. cbn [negb]. rewrite (PM_does _ _ _ _ (doc_copy m stop _ x.2 _ (Zlen x.2 + 1) Hd3 ltac:(lia))).
  replace (Z.to_nat (Zlen x.2 + 1 - Zlen x.2)) with 1%nat by lia. rewrite PM_changes.
  change (strlen STRING_MARK_1) with 1.
  destruct (doc_skip m stop b length_ Hstop _ ws c r Hd5 Hws Hc) as [Hs3 _]. rewrite (PM_does _ _ _ _ Hs3).
  assert (Hp : p + Zlen x.1 + 1 + 1 + Zlen x.2 + 1 + Zlen ws = p + Zlen x.1 + Zlen x.2 + 3 + Zlen ws) by lia.
  case_bool_decide as Heq; [|by rewrite Hp].
  assert (ws = []) as -> by (destruct ws; [done|injection Heq; cbn; lia]). specialize (Hgap eq_refl) as ->.
  rewrite (PM_does _ _ _ _ (doc_looking_char m stop b length_ Hstop _ _ _ 62 Hd5 ltac:(lia))). rewrite Z.eqb_refl.
  by rewrite PM_ret_step, Hp.
Qed.

(** The attributes of a tag, and what follows them, without the first blank. *)
Definition after_blank (al : list (cstr * cstr)) (sp close : cstr) : cstr :=
  match al with
  | [] => close
  | x :: al => x.1 ++ 61 :: 34 :: x.2 ++ 34 :: flat_map print_attr al ++ sp ++ close
  end.

(** What may follow: ["/>"] behind a blank, or [">"]. *)
Definition closing (sp close : cstr) : Prop :=
  (sp = [32] /\ exists r, close = 47 :: 62 :: r) \/ (sp = [] /\ exists r, close = 62 :: r).

Lemma closing_head sp close : closing sp close -> exists c r, close = c :: r /\ special c = false /\
  Forall (fun y => special y = true) sp /\ (sp = [] -> c = 62).
Proof.
  intros [[-> [r ->]]|[-> [r ->]]]; eexists _, _; split_and!; try done; by repeat constructor.
Qed.

Lemma flat_map_print_attr x al sp close :
  flat_map print_attr (x :: al) ++ sp ++ close = 32 :: after_blank (x :: al) sp close.
Proof. cbn [flat_map after_blank]. unfold print_attr. rewrite <-!app_assoc. done. Qed.

Lemma at_closing sp close p : closing sp close -> doc_at m stop p close ->
  exists b1 b2, looking_at m b length_ p XML_NODE_END = Done b1 /\ looking_at m b length_ p XML_TAG_END = Done b2 /\ (b1 || b2 = true).
Proof.
  intros Hc Hd. eexists _, _. split_and!; [eapply doc_looking; (done || by repeat constructor)|eapply doc_looking; (done || by repeat constructor)|].
  apply orb_true_iff. rewrite !bool_decide_eq_true.
  destruct Hc as [(_ & r & ->)|(_ & r & ->)]; [left; by exists r|right; by exists r].
Qed.

Lemma attribute_loop_spec al sp close e : closing sp close -> Forall good_attr al -> stop - Zlen close <= e ->
  forall p n fuel, doc_at m stop p (after_blank al sp close) -> (length al <= fuel)%nat ->
  attribute_loop m b length_ fuel e (Some p) (n, []) =
  Done (Next (Some (stop - Zlen close)), (set_attributes n (AttributesList n ++ (build_attr <$> al)), [])).
Proof.
  intros Hcl Hal He. induction Hal as [|x al Hx Hal IH]; intros p n fuel Hd Hf.
  - cbn [after_blank] in Hd. destruct (at_closing _ _ _ Hcl Hd) as (b1 & b2 & E1 & E2 & Hb).
    destruct Hd as (_ & _ & Hp & _).
    replace (stop - Zlen close) with p by lia. destruct n as [nm l d sz a0 cs h].
    destruct fuel; cbn [attribute_loop]; rewrite (PM_does _ _ _ _ E1);
      (destruct b1; [rewrite PM_ret_step|rewrite (PM_does _ _ _ _ E2); cbn [orb] in Hb; rewrite Hb]); cbn; by rewrite app_nil_r.
  - destruct fuel as [|fuel]; [cbn in Hf; lia|]. cbn [length] in Hf. cbn [attribute_loop].
    assert (Hno : forall pat, wf_cstr pat -> (exists y pat', pat = y :: pat' /\ name_char y = false) -> Zlen pat < 2147483648 ->
      looking_at m b length_ p pat = Done false).
    { intros pat Hw (y & pat' & -> & Hy) Hl. rewrite (doc_looking m stop b length_ Hstop _ _ _ Hd) by done. f_equal.
      apply bool_decide_false. intros [k E]. cbn [after_blank] in E. destruct (valid_name_spec _ (ga_valid _ Hx)) as [Hne _].
      destruct Hx as [Hn _ _ _ _ _]. destruct (x.1) as [|z u]; [done|]. injection E as -> _. inversion Hn. congruence. }
    rewrite (PM_does _ _ _ _ (Hno XML_NODE_END ltac:(by repeat constructor) ltac:(by eexists _, _) ltac:(by cbn))).
    rewrite (PM_does _ _ _ _ (Hno XML_TAG_END ltac:(by repeat constructor) ltac:(by eexists _, _) ltac:(by cbn))).
    assert (Hrest : exists ws c r, flat_map print_attr al ++ sp ++ close = ws ++ c :: r /\ Forall (fun y => special y = true) ws /\
      special c = false /\ (ws = [] -> c = 62) /\ c :: r = after_blank al sp close).
    { destruct al as [|y al].
      - destruct (closing_head _ _ Hcl) as (c & r & -> & ? & ? & ?). exists sp, c, r. done.
      - rewrite flat_map_print_attr. assert (Hy : good_attr y) by by inversion Hal.
        destruct (valid_name_spec _ (ga_valid _ Hy)) as [Hne Hn]. destruct y as [[|c u] v]; [done|].
        eexists [32], c, _. split_and!; [done|by repeat constructor| |done|done].
        inversion Hn as [|? ? Hc]; subst. apply not_true_iff_false. intros Hs%special_no_name. congruence. }
    destruct Hrest as (ws & c & r & Er & Hws & Hc & Hgap & Ea).
    assert (Hlen : Zlen (flat_map print_attr al ++ sp ++ close) >= Zlen close) by (rewrite !length_app; lia).
    cbn [after_blank] in Hd. rewrite Er in Hd, Hlen. pose proof Hd as Hd'. destruct Hd' as (_ & _ & Hp & _).
    rewrite length_app in Hp. cbn [length] in Hp. rewrite length_app in Hp. cbn [length] in Hp.
    rewrite (PM_step _ _ _ _ _ (fill_attribute_spec x ws c r e p n Hd Hx Hws Hc Hgap ltac:(lia))).
    rewrite (IH (p + Zlen x.1 + Zlen x.2 + 3 + Zlen ws)); [|rewrite <-Ea|lia].
    + destruct n as [nm l d sz a0 cs h]. cbn [set_attributes AttributesList]. by rewrite <-app_assoc.
    + assert (Hd2 := doc_app _ _ _ _ _ Hd). apply doc_cons, doc_cons, doc_app, doc_cons, doc_app in Hd2.
      by replace (p + Zlen x.1 + Zlen x.2 + 3 + Zlen ws) with (p + Zlen x.1 + 1 + 1 + Zlen x.2 + 1 + Zlen ws) by lia.
Qed.

Lemma attrs_no_end al : Forall good_attr al -> 62 ∉ flat_map print_attr al.
Proof.
  induction 1 as [|x al Hx _ IH]; cbn [flat_map]; [by intros ?%elem_of_nil|]. destruct Hx as [Hn _ _ _ _ He].
  pose proof (name_not 62 _ Hn eq_refl) as Hn62. unfold print_attr. rewrite !elem_of_app.
  intros [Hin|Hin]; [|by apply IH]. revert Hin. change ITEM_EQUAL_MARK with [61]. change STRING_MARK_1 with [34].
  rewrite ?elem_of_app, !elem_of_cons, !elem_of_nil.
  intros Hin. repeat (destruct Hin as [Hin|Hin]; [by first [lia|done|destruct Hin]|]). by destruct Hin.
Qed.

Lemma doc_starts p s pat : doc_at m stop p s -> wf_cstr pat ->
  exists q, AnscXmlFindString m p pat = Done q /\ bool_decide (q = Some p) = bool_decide (pat `prefix_of` s).
Proof. intros ((pre & post & -> & ->) & Hwf & _) _. by apply find_here. Qed.

Lemma fill_attributes_spec al sp close k p n : closing sp close -> Forall good_attr al -> (length al <= length m)%nat ->
  doc_at m stop p (flat_map print_attr al ++ sp ++ close) -> find_in (flat_map print_attr al ++ sp ++ close) [62] = Some k ->
  fill_attributes m b length_ p (p + Z.of_nat k) (n, []) =
  Done (match sp with [] => Next tt | _ => Return XML_SUCCESS (Some (stop - Zlen close + 2)) end,
    (set_attributes n (AttributesList n ++ (build_attr <$> al)), [])).
Proof.
  intros Hcl Hal Hlen Hd Hk.
  assert (Hin : 62 ∉ flat_map print_attr al ++ sp).
  { rewrite elem_of_app. intros [Hin|Hin]; [by apply (attrs_no_end al Hal)|].
    destruct Hcl as [[-> _]|[-> _]]; [by apply list_elem_of_singleton in Hin|by apply elem_of_nil in Hin]. }
  rewrite app_assoc, find_in_app in Hk by done. destruct (find_in close [62]) as [j|] eqn:Ej; [|done]. injection Hk as <-.
  assert (Hblank : flat_map print_attr al ++ sp ++ close = 32 :: after_blank al sp close \/ (al = [] /\ sp = [])).
  { destruct al as [|x al]; [|left; apply flat_map_print_attr]. destruct Hcl as [[-> _]|[-> _]]; [by left|by right]. }
  unfold fill_attributes. destruct Hblank as [Eb|[-> ->]].
  - pose proof Hd as Hd'. rewrite Eb in Hd'. pose proof (doc_cons _ _ _ _ _ Hd') as Hd1.
    assert (Hp : p + Zlen (flat_map print_attr al ++ sp) + Zlen close = stop).
    { destruct Hd as (_ & _ & Hp & _). rewrite !length_app in Hp. rewrite length_app. lia. }
    assert (0 < Zlen (flat_map print_attr al ++ sp) + Z.of_nat j).
    { destruct Hcl as [[-> _]|[-> [r ->]]]; [rewrite length_app; cbn; lia|].
      destruct al as [|x al]; [|cbn; lia]. cbn [flat_map app after_blank] in Eb. by injection Eb as Eb. }
    rewrite (proj2 (Z.ltb_lt _ _)) by lia.
    assert (Hskip : skip_special m b length_ p = Done (Some (p + 1))).
    { assert (Hhead : exists c r, after_blank al sp close = c :: r /\ special c = false).
      { destruct al as [|x al]; [destruct (closing_head _ _ Hcl) as (c & r & -> & ? & _); by exists c, r|].
        assert (Hx : good_attr x) by by inversion Hal. destruct (valid_name_spec _ (ga_valid _ Hx)) as [Hne Hn].
        destruct x as [[|c u] v]; [done|]. eexists c, _. split; [done|]. inversion Hn as [|? ? Hc]; subst.
        apply not_true_iff_false. intros Hs%special_no_name. congruence. }
      destruct Hhead as (c & r & Ec & Hc). rewrite Ec in Hd'.
      destruct (doc_skip m stop b length_ Hstop p [32] c r Hd') as [E _]; [by repeat constructor|done|done]. }
    rewrite (PM_does _ _ _ _ Hskip), PM_allocates. cbn [negb].
    rewrite (PM_step _ _ _ _ _ (attribute_loop_spec al sp close (p + Z.of_nat (length (flat_map print_attr al ++ sp) + j)) Hcl Hal ltac:(lia) (p + 1) n (skip_fuel m) Hd1 ltac:(unfold skip_fuel; lia))).
    assert (Hdc : doc_at m stop (stop - Zlen close) close).
    { replace (stop - Zlen close) with (p + Zlen (flat_map print_attr al ++ sp)) by lia. apply (doc_app m stop p). by rewrite <-app_assoc. }
    destruct (doc_starts _ _ XML_NODE_END Hdc ltac:(by repeat constructor)) as (r & Er & Hr). rewrite (PM_does _ _ _ _ Er), Hr.
    destruct Hcl as [[-> [r' ->]]|[-> [r' ->]]].
    + rewrite bool_decide_true by by exists r'. done.
    + rewrite bool_decide_false by (intros [x [=]]). done.
  - destruct Hcl as [[Hsp _]|[_ [r ->]]]; [done|]. cbn [find_in] in Ej. rewrite bool_decide_true in Ej by by exists r.
    injection Ej as <-. cbn [flat_map app length]. rewrite Z.add_0_r, Z.ltb_irrefl.
    destruct n as [nm l d sz a0 cs h]. cbn. by rewrite app_nil_r.
Qed.

Lemma scan_backward_spec p a z ws : special z = false -> Forall (fun y => special y = true) ws ->
  forall r (k : nat), doc_at m stop p ((a ++ [z]) ++ ws ++ r) -> (length ws < k)%nat ->
  scan_backward m (p + Zlen (a ++ [z]) + Zlen ws) SPECIAL_TOKEN k = Done (p + Zlen (a ++ [z])).
Proof.
  intros Hz Hws. induction ws as [|w ws IH] using rev_ind; intros r k Hd Hk; (destruct k as [|k]; [lia|]); cbn [scan_backward].
  - cbn [length]. rewrite Z.add_0_r, <-app_assoc in *. assert (E : buf_get m (p + Zlen (a ++ [z]) - 1) = Done z).
    { replace (p + Zlen (a ++ [z]) - 1) with (p + Zlen a) by (rewrite length_app; cbn [length]; lia).
      by apply (doc_get m stop p a z r). }
    rewrite E. cbn [mbind outcome_bind]. unfold special in Hz. by rewrite Hz.
  - apply Forall_app in Hws as [Hws Hw]. assert (Hw1 : special w = true) by by inversion Hw.
    rewrite <-(app_assoc ws [w] r) in Hd. assert (E : buf_get m (p + Zlen (a ++ [z]) + Zlen (ws ++ [w]) - 1) = Done w).
    { replace (p + Zlen (a ++ [z]) + Zlen (ws ++ [w]) - 1) with (p + Zlen ((a ++ [z]) ++ ws)) by (rewrite !length_app; cbn [length]; lia).
      apply (doc_get m stop p ((a ++ [z]) ++ ws) w r). by rewrite <-app_assoc. }
    rewrite E. cbn [mbind outcome_bind]. unfold special in Hw1. rewrite Hw1. cbn [negb].
    rewrite <-(IH Hws ([w] ++ r) k Hd); [|rewrite length_app in Hk; cbn in Hk; lia].
    f_equal. rewrite !length_app. cbn [length]. lia.
Qed.

Lemma fill_text_spec missing ws1 s ws2 r e n :
  doc_at m stop (e + 1) (ws1 ++ s ++ ws2 ++ 60 :: r) -> good_text s -> (s = [] -> ws2 = []) ->
  Forall (fun y => special y = true) ws1 -> Forall (fun y => special y = true) ws2 ->
  fill_text m missing b length_ e (n, []) =
  Done (Next (Some (e + 1 + Zlen ws1 + Zlen s + Zlen ws2)),
    (match s with [] => n | _ => set_data n (build_data s) (Zlen s) end, [])).
Proof.
  intros Hd [Hwf Htag Hhead Hlast] Hs Hw1 Hw2. unfold fill_text.
  assert (Hfirst : exists c r', s ++ ws2 ++ 60 :: r = c :: r' /\ special c = false).
  { destruct s as [|c s]; [rewrite Hs by done; by eexists 60, r|]. eexists c, _. split; [done|by eapply Hhead]. }
  destruct Hfirst as (c & r' & Ec & Hc). pose proof Hd as Hd0. rewrite Ec in Hd0.
  destruct (doc_skip m stop b length_ Hstop _ ws1 c r' Hd0 Hw1 Hc) as [Hskip Hd1]. rewrite <-Ec in Hd1.
  rewrite (PM_does _ _ _ _ Hskip). set (p := e + 1 + Zlen ws1) in *.
  assert (Hno : 60 ∉ s ++ ws2).
  { rewrite elem_of_app. intros [Hin|Hin]; [done|]. rewrite Forall_forall in Hw2. by apply Hw2 in Hin. }
  assert (Hfind : AnscXmlFindString m p XML_TAG_BEGIN = Done (Some (p + Zlen (s ++ ws2)))).
  { apply (doc_find_char m stop p (s ++ ws2) 60 r); [by rewrite <-app_assoc|done]. }
  rewrite (PM_does _ (p + Zlen (s ++ ws2))) by by rewrite Hfind.
  assert (Hsmall : Zlen (s ++ ws2) < 2147483648).
  { destruct Hd1 as (_ & _ & _ & Hmax). rewrite app_assoc, length_app in Hmax. lia. }
  replace (p + Zlen (s ++ ws2) - p) with (Zlen (s ++ ws2)) by lia. rewrite ULONG_small32 by lia.
  assert (Hend : AnscXmlGetStringEndExcept m p (Zlen (s ++ ws2)) SPECIAL_TOKEN = Done (p + Zlen s)).
  { unfold AnscXmlGetStringEndExcept. rewrite INT_small by lia. destruct (decide (s = [])) as [->|Hne]; [|destruct (exists_last Hne) as (a & z & ->)].
    - rewrite Hs by done. cbn. by rewrite Z.add_0_r.
    - rewrite (proj2 (Z.ltb_lt _ _)) by (rewrite !length_app; cbn; lia). rewrite Nat2Z.id, length_app, Nat2Z.inj_add, Z.add_assoc.
      eapply scan_backward_spec; [by eapply Hlast|done|apply Hd1|]. rewrite !length_app. cbn. lia. }
  rewrite (PM_does _ _ _ _ Hend).
  assert (Hd2 : doc_at m stop (p + Zlen s) (ws2 ++ 60 :: r)) by by apply (doc_app m stop p s).
  assert (Hfind2 : AnscXmlFindString m (p + Zlen s) XML_TAG_BEGIN = Done (Some (p + Zlen s + Zlen ws2))).
  { apply (doc_find_char m stop (p + Zlen s) ws2 60 r); [done|]. intros Hin. apply Hno. rewrite elem_of_app. by right. }
  destruct s as [|x s].
  - cbn [length]. rewrite Z.add_0_r, Z.ltb_irrefl, PM_ret_step. cbn [length] in Hfind2. rewrite Z.add_0_r in Hfind2.
    unfold does. by rewrite Hfind2.
  - rewrite (proj2 (Z.ltb_lt _ _)) by (cbn [length]; lia).
    replace (p + Zlen (x :: s) - p) with (Zlen (x :: s)) by lia.
    assert (Hcopy := doc_copy m stop p (x :: s) (ws2 ++ 60 :: r) (Zlen (x :: s) + 1) Hd1 ltac:(lia)).
    replace (Z.to_nat (Zlen (x :: s) + 1 - Zlen (x :: s))) with 1%nat in Hcopy by lia.
    unfold mbind at 1, PM_bind at 1. rewrite PM_allocates. cbn [negb]. rewrite (PM_does _ _ _ _ Hcopy).
    unfold changes. cbn [fst snd]. unfold does. by rewrite Hfind2.
Qed.

Lemma doc_skip_all p ws : doc_at m stop p ws -> ws ≠ [] -> Forall (fun y => special y = true) ws ->
  skip_special m b length_ p = Done (Some (p + Zlen ws)).
Proof.
  intros Hd Hne Hws. unfold skip_special, AnscXmlGotoFirstCharExcept.
  rewrite (doc_INT m stop b length_ Hstop _ _ Hd), (proj2 (Z.eqb_neq _ _)) by (destruct ws; [done|cbn; lia]).
  rewrite (doc_scan m stop _ _ _ Hd Hne). cbn [fmap outcome_fmap]. do 4 f_equal. clear Hd Hne.
  induction Hws as [|x ws Hx _ IH]; [done|]. cbn [until length]. unfold special in Hx. rewrite Hx. cbn [negb]. by rewrite IH.
Qed.

(** What follows a document: nothing, or blanks and a tag. *)
Definition following (k : option (cstr * cstr)) : cstr :=
  match k with None => [] | Some (ws, r) => ws ++ 60 :: r end.
Definition blanks (k : option (cstr * cstr)) : Prop :=
  match k with None => True | Some (ws, _) => Forall (fun y => special y = true) ws end.
(** From [q] the reader gets to that tag, which is at [p] and the blanks. *)
Definition leads_to (q p : Z) (k : option (cstr * cstr)) : Prop :=
  match k with None => True | Some (ws, _) => skip_special m b length_ q = Done (Some (p + Zlen ws)) end.

Lemma fill_end_spec finish p nm n k : (forall q, finish (Some q) = Done (Some q)) ->
  doc_at m stop p (print_end nm ++ following k) -> blanks k -> Name n = nm -> valid_name nm = true -> Zlen nm < 48 ->
  exists q, fill_end m finish b length_ (Some p) (n, []) = Done (Return XML_SUCCESS (Some q), (n, [])) /\
    leads_to q (p + Zlen (print_end nm)) k.
Proof.
  intros Hfin Hd Hk Hn Hv Hl. destruct (valid_name_spec _ Hv) as [Hne Hnm].
  change (print_end nm ++ following k) with (60 :: 47 :: (nm ++ [62; 10]) ++ following k) in Hd. rewrite <-app_assoc in Hd.
  apply doc_cons, doc_cons in Hd. replace (p + 1 + 1) with (p + 2) in Hd by lia. pose proof (doc_app _ _ _ _ _ Hd) as Hd2.
  cbn [app] in Hd2. pose proof (doc_cons _ _ _ _ _ Hd2) as Hd3.
  assert (Elen : Zlen (print_end nm) = Zlen nm + 4) by (unfold print_end; rewrite !length_app; cbn; lia).
  unfold fill_end. change (strlen XML_END_NODE) with 2.
  unfold this_node at 1. unfold mbind at 1, PM_bind at 1. cbn [fst]. rewrite Hn.
  rewrite (PM_does _ true) by (rewrite (doc_looking m stop b length_ Hstop _ _ _ Hd);
    [f_equal; apply bool_decide_true; by eexists|by apply names_wf|done|lia]). cbn [negb].
  destruct (doc_skip m stop b length_ Hstop _ [] 62 _ Hd2) as [Hs _]; [done|done|]. cbn [length] in Hs. rewrite Z.add_0_r in Hs.
  unfold strlen. rewrite (PM_does _ _ _ _ Hs).
  assert (Hget : buf_get m (p + 2 + Zlen nm) = Done 62) by by apply (doc_get m stop (p + 2) nm 62 _ Hd).
  rewrite (PM_does _ 62) by done. change (62 =? deref XML_TAG_END) with true. cbn [negb].
  assert (Hq : exists q, skip_special m b length_ (p + 2 + Zlen nm + 1) = Done (Some q) /\ leads_to q (p + Zlen (print_end nm)) k).
  { destruct k as [[ws r]|]; cbn [following blanks] in Hd3, Hk.
    - destruct (doc_skip m stop b length_ Hstop _ (10 :: ws) 60 r Hd3) as [E Hd4]; [by constructor|done|]. eexists. split; [done|].
      cbn [leads_to]. destruct (doc_skip m stop b length_ Hstop _ [] 60 r Hd4) as [-> _]; [done|done|]. cbn [length]. do 2 f_equal. lia.
    - eexists. split; [|done]. apply doc_skip_all; [done|done|by repeat constructor]. }
  destruct Hq as (q & Eq & Hlead). exists q. split; [|done].
  rewrite (PM_does _ (Some q)) by done. by rewrite (PM_does _ (Some q)).
Qed.

(** At a tag that is not a comment the search for a node stays. *)
Lemma FindNode_here p c r l : doc_at m stop p (60 :: c :: r) -> c ≠ 33 -> l ≠ 0 ->
  AnscXmlFindNode m (Some p) (left_at b length_ p) l = Done (XML_SUCCESS, Some p).
Proof.
  intros Hd Hc Hl. unfold AnscXmlFindNode. rewrite (doc_left m stop b length_ Hstop _ _ Hd).
  pose proof Hd as (_ & _ & Hp & Hmax). set (len := Zlen (60 :: c :: r)) in *.
  assert (0 < len) by (unfold len; cbn [length]; lia).
  rewrite LONG_small, (proj2 (Z.leb_gt len 0)) by lia. cbn [mbind outcome_bind].
  assert (Hskip : skip_special m p len p = Done (Some p)).
  { destruct (doc_skip m stop p len ltac:(lia) p [] 60 _ Hd) as [-> _]; [done|done|]. cbn [length]. by rewrite Z.add_0_r. }
  pose proof Hskip as Hskip0. unfold skip_special, left_at in Hskip0. rewrite Z.sub_diag, Z.sub_0_r in Hskip0.
  rewrite Hskip0. cbn [mbind outcome_bind]. rewrite (proj2 (Z.eqb_neq l 0)) by done. rewrite Hskip. cbn [mbind outcome_bind].
  unfold skip_comments, skip_fuel. cbn [skip_marked not_null mbind outcome_bind].
  rewrite (doc_looking m stop p len ltac:(lia) _ _ _ Hd) by (done || by repeat constructor).
  rewrite bool_decide_false by (intros [x [= E _]]; done). cbn [mbind outcome_bind negb not_null].
  assert (E : AnscXmlFindString m p XML_TAG_BEGIN = Done (Some p)).
  { rewrite <-(Z.add_0_r p) at 2. by apply (doc_find_char m stop p [] 60 (c :: r) Hd), not_elem_of_nil. }
  by rewrite E.
Qed.

(** The tree without its indentation. *)
Definition body (l : Z) (t : tree) : cstr :=
  let '(Tree nm al s ts) := t in
  XML_TAG_BEGIN ++ nm ++ flat_map print_attr al ++
  match ts, s with
  | [], [] => [32] ++ XML_SIMPLE_END ++ [10]
  | [], _ => XML_TAG_END ++ s ++ print_end nm
  | _, _ =>
      XML_TAG_END ++ [10] ++
      match s with [] => [] | _ => spaces ((l + 1) * SPACES_PER_LEVEL) ++ s ++ [10] end ++
      flat_map (print (l + 1)) ts ++ spaces (l * SPACES_PER_LEVEL) ++ print_end nm
  end.

Lemma print_body l t : print l t = (if l =? 0 then XML_HEADER ++ [10] else spaces (l * SPACES_PER_LEVEL)) ++ body l t.
Proof. by destruct t. Qed.

Lemma spaces_special k : Forall (fun y => special y = true) (spaces k).
Proof. apply Forall_forall. intros x Hx. apply elem_of_replicate in Hx as [-> _]. done. Qed.

Lemma body_head l t : well_formed t = true -> exists c r, body l t = 60 :: c :: r /\ name_char c = true.
Proof.
  destruct t as [nm al s ts]. intros (Hv & _)%well_formed_spec. destruct (valid_name_spec _ Hv) as [Hne Hn].
  destruct nm as [|c nm]; [done|]. eexists c, _. split; [done|by inversion Hn].
Qed.

(** The children from the tag of the first one on, and the end tag. *)
Definition from_child (l : Z) (ts : list tree) (tail : cstr) : cstr :=
  match ts with
  | [] => tail
  | t :: ts => body (l + 1) t ++ flat_map (print (l + 1)) ts ++ spaces (l * SPACES_PER_LEVEL) ++ tail
  end.

Lemma next_child l ts tail : 0 <= l -> exists k,
  flat_map (print (l + 1)) ts ++ spaces (l * SPACES_PER_LEVEL) ++ tail = spaces k ++ from_child l ts tail.
Proof.
  intros Hl. destruct ts as [|t ts]; [by eexists|]. exists ((l + 1) * SPACES_PER_LEVEL). cbn [flat_map from_child].
  rewrite print_body, (proj2 (Z.eqb_neq (l + 1) 0)) by lia. by rewrite <-!app_assoc.
Qed.

Lemma from_child_head l ts r : Forall (fun t => well_formed t = true) ts -> exists r', from_child l ts (60 :: r) = 60 :: r'.
Proof.
  intros Hts. destruct Hts as [|t ts Ht _]; [by eexists|]. cbn [from_child].
  destruct (body_head (l + 1) t Ht) as (c & u & -> & _). by eexists.
Qed.

Lemma from_child_app l ts a c : from_child l ts a ++ c = from_child l ts (a ++ c).
Proof. destruct ts as [|t ts]; [done|]. cbn [from_child]. by rewrite <-!app_assoc. Qed.

Lemma from_child_suffix l ts a : exists X, from_child l ts a = X ++ a.
Proof. exists (from_child l ts []). by rewrite from_child_app. Qed.

Lemma from_child_length l ts a : a ≠ [] -> (length ts <= length (from_child l ts a))%nat.
Proof.
  intros Ha. destruct ts as [|t ts]; cbn [from_child length]; [lia|]. rewrite !length_app.
  assert (length ts <= length (flat_map (print (l + 1)) ts))%nat.
  { induction ts as [|u ts IH]; cbn [flat_map length]; [lia|]. rewrite length_app. pose proof (print_length_pos (l + 1) u). lia. }
  destruct a; [done|]. cbn [length]. lia.
Qed.

Lemma doc_suffix p X a : doc_at m stop p (X ++ a) -> doc_at m stop (stop - Zlen a) a.
Proof.
  intros Hd. pose proof (doc_app _ _ _ _ _ Hd) as Ha. destruct Hd as (_ & _ & Hp & _). rewrite length_app in Hp.
  by replace (stop - Zlen a) with (p + Zlen X) by lia.
Qed.

(** What reading a child at [p] does, whatever follows it. *)
Definition reads (fill : Z -> Z -> PM unit) (l : Z) (t : tree) : Prop :=
  forall p k, doc_at m stop p (body l t ++ following k) -> blanks k ->
  exists q, fill p (stop - p) (XmlNode [] l None 0 [] [] false, []) = Done (Return XML_SUCCESS (Some q), (build l t, [])) /\
    leads_to q (p + Zlen (body l t)) k.

Lemma fill_child_spec fill l t p k n : reads fill (l + 1) t -> Level n = l -> 0 <= l < 2147483647 ->
  doc_at m stop p (body (l + 1) t ++ following k) -> blanks k ->
  exists q, fill_child b length_ fill p (n, []) =
    Done (Next (Some q), (set_children n (ChildNodeQueue n ++ [build (l + 1) t]), [])) /\ leads_to q (p + Zlen (body (l + 1) t)) k.
Proof.
  intros Hr Hn Hl Hd Hk. destruct (Hr p k Hd Hk) as (q & E & Hlead). exists q. split; [|done].
  unfold fill_child. cbn [AnscXmlDomNodeCreate next_alloc set_level]. rewrite Hn, ULONG_small32 by lia.
  rewrite (doc_left m stop b length_ Hstop _ _ Hd). destruct Hd as (_ & _ & Hp & _).
  replace (Zlen (body (l + 1) t ++ following k)) with (stop - p) by lia. by rewrite E.
Qed.

Lemma children_loop_spec fill l tail ts : 0 <= l < 2147483647 ->
  Forall (fun t => well_formed t = true) ts -> Forall (reads fill (l + 1)) ts ->
  forall p n fuel, Level n = l -> doc_at m stop p (from_child l ts (60 :: 47 :: tail)) -> (length ts <= fuel)%nat ->
  children_loop m b length_ fill fuel (Some p) (n, []) =
  Done (Next (Some (stop - Zlen (60 :: 47 :: tail))), (set_children n (ChildNodeQueue n ++ map (build (l + 1)) ts), [])).
Proof.
  intros Hl Hwf. induction Hwf as [|t ts Ht Hwf IH]; intros Hrd p n fuel Hn Hd Hf.
  - cbn [from_child] in Hd. assert (Hlook : looking_at m b length_ p XML_END_NODE = Done true).
    { rewrite (doc_looking m stop b length_ Hstop _ _ _ Hd) by (done || by repeat constructor).
      by rewrite bool_decide_true by by eexists. }
    destruct Hd as (_ & _ & Hp & _). replace (stop - Zlen (60 :: 47 :: tail)) with p by lia.
    destruct n as [nm lv d sz a0 cs h].
    destruct fuel; cbn [children_loop]; rewrite (PM_does _ _ _ _ Hlook); cbn; by rewrite app_nil_r.
  - destruct fuel as [|fuel]; [cbn in Hf; lia|]. cbn [length] in Hf. apply Forall_cons in Hrd as [Hrt Hrd].
    cbn [from_child] in Hd. destruct (next_child l ts (60 :: 47 :: tail) ltac:(lia)) as [kk Ek]. rewrite Ek in Hd.
    destruct (from_child_head l ts (47 :: tail) Hwf) as [r' Er].
    destruct (body_head (l + 1) t Ht) as (c & u & Eb & Hc). assert (c ≠ 47 /\ c ≠ 33) as [Hc47 Hc33] by (apply name_char_spec in Hc; lia).
    assert (Hd' := Hd). rewrite Eb in Hd'. cbn [app] in Hd'.
    assert (Hlook : looking_at m b length_ p XML_END_NODE = Done false).
    { rewrite (doc_looking m stop b length_ Hstop _ _ _ Hd') by (done || by repeat constructor). f_equal.
      apply bool_decide_false. intros [x [= E _]]. done. }
    cbn [children_loop]. rewrite (PM_does _ _ _ _ Hlook).
    unfold this_node at 1. unfold mbind at 1, PM_bind at 1. cbn [fst]. rewrite Hn, ULONG_small32 by lia.
    rewrite (PM_does _ _ _ _ (FindNode_here p c _ (l + 1) Hd' Hc33 ltac:(lia))).
    rewrite (PM_does _ p) by done. rewrite (PM_does _ _ _ _ Hlook). rewrite Er in Hd.
    destruct (fill_child_spec fill l t p (Some (spaces kk, r')) n Hrt Hn Hl Hd (spaces_special kk)) as (q & Eq & Hlead).
    rewrite (PM_step _ _ _ _ _ Eq). cbn [leads_to] in Hlead. rewrite (PM_does _ (Some (p + Zlen (body (l + 1) t) + Zlen (spaces kk)))) by done.
    rewrite <-Er in Hd. apply doc_app, doc_app in Hd.
    rewrite (IH Hrd _ (set_children n (ChildNodeQueue n ++ [build (l + 1) t])) fuel ltac:(by destruct n) Hd ltac:(lia)). destruct n as [nm lv d sz a0 cs h].
    cbn [set_children ChildNodeQueue map]. by rewrite <-app_assoc.
Qed.

(** Where the tag ends. *)
Lemma tag_end al sp close : closing sp close -> Forall good_attr al -> exists c r k,
  flat_map print_attr al ++ sp ++ close = c :: r /\ (c = 62 \/ c = 32) /\ find_in (c :: r) [62] = Some k /\
  (sp = [] -> Z.of_nat k = Zlen (flat_map print_attr al)).
Proof.
  intros Hcl Hal.
  assert (Hk : exists k, find_in (flat_map print_attr al ++ sp ++ close) [62] = Some k /\ (sp = [] -> Z.of_nat k = Zlen (flat_map print_attr al))).
  { destruct Hcl as [[-> [r ->]]|[-> [r ->]]].
    - exists (length (flat_map print_attr al ++ [32; 47])). split; [|done].
      replace (flat_map print_attr al ++ [32] ++ 47 :: 62 :: r) with ((flat_map print_attr al ++ [32; 47]) ++ 62 :: r)
        by by rewrite <-app_assoc.
      apply find_in_char. rewrite elem_of_app. intros [Hin|Hin]; [by apply (attrs_no_end al Hal)|].
      apply elem_of_cons in Hin as [Hin|Hin]; [done|]. by apply list_elem_of_singleton in Hin.
    - exists (length (flat_map print_attr al)). split; [|done]. by apply find_in_char, attrs_no_end. }
  destruct Hk as (k & Hk & Hz).
  assert (Hc : exists c r, flat_map print_attr al ++ sp ++ close = c :: r /\ (c = 62 \/ c = 32)).
  { destruct al as [|x al]; [|rewrite flat_map_print_attr; eexists _, _; split; [done|by right]].
    destruct Hcl as [[-> [r ->]]|[-> [r ->]]]; eexists _, _; split; [done|by right|done|by left]. }
  destruct Hc as (c & r & E & Hc). exists c, r, k. by rewrite <-E.
Qed.

Lemma doc_length p s : doc_at m stop p s -> (length s < length m)%nat.
Proof. intros ((pre & post & -> & _) & _). rewrite !length_app. cbn [length]. lia. Qed.

Lemma flat_map_length {A} (f : A -> cstr) (l : list A) : (forall x, 0 < Zlen (f x)) -> (length l <= length (flat_map f l))%nat.
Proof. intros Hf. induction l as [|x l IH]; cbn [flat_map length]; [lia|]. rewrite length_app. specialize (Hf x). lia. Qed.

(** The tag of a node, with its attributes. *)
Lemma fill_tag nm al sp close n : closing sp close -> Forall good_attr al -> valid_name nm = true -> Zlen nm < 48 ->
  doc_at m stop b (60 :: nm ++ flat_map print_attr al ++ sp ++ close) -> exists p e,
  fill_name m b length_ (n, []) = Done (Next (p, e), (set_name n nm, [])) /\
  fill_attributes m b length_ p e (set_name n nm, []) =
    Done (match sp with [] => Next tt | _ => Return XML_SUCCESS (Some (stop - Zlen close + 2)) end,
      (set_attributes (set_name n nm) (AttributesList n ++ (build_attr <$> al)), [])) /\
  (sp = [] -> e = stop - Zlen close).
Proof.
  intros Hcl Hal Hv Hl Hd. destruct (tag_end al sp close Hcl Hal) as (c & r & k & E & Hc & Hk & Hz).
  pose proof Hd as Hd0. rewrite E in Hd0.
  pose proof (doc_cons _ _ _ _ _ Hd) as Hd1. apply doc_app in Hd1.
  exists (b + 1 + Zlen nm), (b + 1 + Zlen nm + Z.of_nat k). split_and!.
  - by eapply fill_name_spec.
  - assert (length al <= length m)%nat.
    { pose proof (doc_length _ _ Hd) as Hm. cbn [length] in Hm. rewrite !length_app in Hm.
      pose proof (flat_map_length print_attr al) as Hf. specialize (Hf ltac:(intros x; unfold print_attr; rewrite length_app; cbn [length]; lia)). lia. }
    rewrite (fill_attributes_spec al sp close k _ (set_name n nm) Hcl Hal) by (done || by rewrite E). by destruct n.
  - intros ->. rewrite Hz by done. destruct Hd as (_ & _ & Hp & _). cbn [length app] in Hp. rewrite !length_app in Hp. lia.
Qed.
End fill.

Lemma leads_to_any `{Platform} m stop b1 l1 b2 l2 q p k : b1 + l1 = stop -> b2 + l2 = stop ->
  leads_to m b1 l1 q p k -> leads_to m b2 l2 q p k.
Proof.
  intros H1 H2. destruct k as [[ws r]|]; [|done]. unfold leads_to, skip_special.
  by replace (left_at b2 l2 q) with (left_at b1 l1 q) by (unfold left_at; lia).
Qed.

Section read_tree.
Context `{Platform}.
Variables (m : mem) (stop : Z) (missing : xml_status) (finish : option Z -> outcome (option Z)).
Hypothesis Hfinish : forall q, finish (Some q) = Done (Some q).

Lemma well_formed_height_pos t : 0 < height t.
Proof. apply height_pos. Qed.

Lemma reads_tree t : forall l fuel b length_, b + length_ = stop -> well_formed t = true -> 0 <= l ->
  l + height t <= 2147483647 -> height t <= Z.of_nat fuel ->
  reads m stop b length_ (fill_from m missing finish fuel) l t.
Proof.
  induction t as [nm al s ts IH] using tree_induction. intros l fuel b length_ Hb Hwf Hl Hh Hf p k Hd Hk.
  destruct fuel as [|fuel]; [pose proof (height_pos (Tree nm al s ts)); lia|]. cbn [fill_from].
  pose proof Hd as (_ & _ & Hp & Hmax). rewrite LONG_small by lia.
  assert (Hstop : p + (stop - p) = stop) by lia.
  destruct (well_formed_spec _ _ _ _ Hwf) as (Hv & Hshort & Hal & Hs & Hc & Hts). cbn [height] in Hh, Hf.
  set (n0 := XmlNode [] l None 0 [] [] false). unfold fill_node.
  assert (Hcases : (ts = [] /\ s = []) \/ exists T, body l (Tree nm al s ts) = 60 :: nm ++ flat_map print_attr al ++ [] ++ 62 :: T /\
    exists ws1 ws2 kids, T = ws1 ++ s ++ ws2 ++ from_child l ts (print_end nm) /\ kids = ts /\ (s = [] -> ws2 = []) /\
      Forall (fun y => special y = true) ws1 /\ Forall (fun y => special y = true) ws2).
  { destruct ts as [|t ts]; [destruct s as [|c s]; [by left|right]|right].
    - eexists. split; [done|]. exists [], [], []. split_and!; (done || by constructor).
    - destruct (next_child l (t :: ts) (print_end nm) Hl) as [kk Ek]. eexists. split; [done|].
      destruct s as [|c s].
      + exists (10 :: spaces kk), [], (t :: ts). cbn [app]. split_and!; [by rewrite Ek|done|done|by constructor; [|apply spaces_special]|by constructor].
      + exists (10 :: spaces ((l + 1) * SPACES_PER_LEVEL)), (10 :: spaces kk), (t :: ts).
        split_and!; [|done|done|by constructor; [|apply spaces_special]..].
        rewrite Ek, <-!app_assoc. cbn [app]. by rewrite <-?app_assoc. }
  destruct Hcases as [[-> ->]|(T & Eb & ws1 & ws2 & kids & ET & -> & Hws2 & Hw1 & Hw2)].
  - assert (Hd1 : doc_at m stop p (60 :: nm ++ flat_map print_attr al ++ [32] ++ 47 :: 62 :: 10 :: following k)).
    { cbn [body] in Hd. rewrite <-!app_assoc in Hd. done. }
    destruct (fill_tag m stop p (stop - p) Hstop nm al [32] _ n0 ltac:(left; split; [done|by eexists]) Hal Hv Hshort Hd1)
      as (p1 & e & E1 & E2 & _).
    rewrite (PM_step _ _ _ _ _ E1). cbn beta iota zeta. rewrite (PM_return _ _ _ _ _ _ E2).
    set (A := 60 :: nm ++ flat_map print_attr al ++ [32; 47; 62]).
    assert (EA : body l (Tree nm al [] []) = A ++ [10]) by (unfold A; cbn [body app]; by rewrite <-!app_assoc).
    rewrite EA in Hd, Hp |- *. rewrite !length_app in Hp. cbn [length] in Hp.
    eexists. split; [done|]. destruct k as [[ws r]|]; [|done]. cbn [leads_to blanks following] in Hk, Hp, Hd |- *.
    rewrite <-app_assoc in Hd. apply doc_app in Hd.
    destruct (doc_skip m stop b length_ Hb _ (10 :: ws) 60 r Hd) as [Esk _]; [by constructor|done|].
    replace (stop - Zlen (47 :: 62 :: 10 :: ws ++ 60 :: r) + 2) with (p + Zlen A) by (cbn [length]; lia).
    rewrite Esk. do 2 f_equal. rewrite length_app. cbn [length]. lia.
  - set (n1 := set_attributes (set_name n0 nm) (AttributesList n0 ++ (build_attr <$> al))).
    pose proof Hd as Hd1. rewrite Eb in Hd1. cbn [app] in Hd1. rewrite <-!app_assoc in Hd1. cbn [app] in Hd1.
    destruct (fill_tag m stop p (stop - p) Hstop nm al [] _ n0 ltac:(right; split; [done|by eexists]) Hal Hv Hshort Hd1)
      as (p1 & e & E1 & E2 & He). specialize (He eq_refl).
    rewrite (PM_step _ _ _ _ _ E1). cbn beta iota zeta. rewrite (PM_step _ _ _ _ _ E2). fold n1.
    assert (Hde : doc_at m stop (e + 1) (T ++ following k)).
    { replace (e + 1) with (p + Zlen (60 :: nm ++ flat_map print_attr al ++ [62])).
      - apply (doc_app m stop p). cbn [app]. by rewrite <-!app_assoc.
      - destruct Hd1 as (_ & _ & Hp1 & _). rewrite He. cbn [length] in Hp1 |- *. rewrite !length_app in Hp1. cbn [length] in Hp1.
        rewrite !length_app. cbn [length]. rewrite length_app in Hp1. lia. }
    set (tail := nm ++ [62; 10] ++ following k).
    assert (Etail : print_end nm ++ following k = 60 :: 47 :: tail) by
      (change (print_end nm ++ following k) with (60 :: 47 :: (nm ++ [62; 10]) ++ following k); by rewrite <-app_assoc).
    assert (ETk : T ++ following k = ws1 ++ s ++ ws2 ++ from_child l ts (60 :: 47 :: tail)).
    { rewrite ET, <-Etail, <-!app_assoc. do 3 f_equal. apply from_child_app. }
    rewrite ETk in Hde. destruct (from_child_head l ts (47 :: tail) Hts) as [r' Er]. pose proof Hde as Hdt. rewrite Er in Hdt.
    rewrite (PM_step _ _ _ _ _ (fill_text_spec m stop p (stop - p) Hstop missing ws1 s ws2 r' e n1 Hdt Hs Hws2 Hw1 Hw2)).
    set (n2 := match s with [] => n1 | _ => set_data n1 (build_data s) (Zlen s) end).
    pose proof (doc_app _ _ _ _ _ (doc_app _ _ _ _ _ (doc_app _ _ _ _ _ Hde))) as Hdc.
    assert (Hlen : (length ts <= skip_fuel m)%nat).
    { pose proof (doc_length _ _ _ _ Hdc). pose proof (from_child_length l ts (60 :: 47 :: tail) ltac:(done)). unfold skip_fuel. lia. }
    assert (Hlevel : Level n2 = l) by by unfold n2; destruct s.
    assert (Hkids : Forall (reads m stop p (stop - p) (fill_from m missing finish fuel) (l + 1)) ts).
    { rewrite Forall_forall in IH, Hts |- *. intros t Ht. pose proof (height_child t ts Ht). pose proof (height_pos t).
      apply IH; (done || lia || by apply Hts). }
    assert (Hl' : 0 <= l < 2147483647) by (split; [done|]; pose proof (height_pos (Tree nm al s ts)) as Hpos; cbn [height] in Hpos; lia).
    rewrite (PM_step _ _ _ _ _ (children_loop_spec m stop p (stop - p) Hstop _ l tail ts Hl' Hts Hkids _ n2 _ Hlevel Hdc Hlen)).
    destruct (from_child_suffix l ts (60 :: 47 :: tail)) as [X EX]. rewrite EX in Hdc.
    apply doc_suffix in Hdc. rewrite <-Etail in Hdc |- *.
    destruct (fill_end_spec m stop p (stop - p) Hstop finish _ nm (set_children n2 (ChildNodeQueue n2 ++ map (build (l + 1)) ts)) k
      Hfinish Hdc Hk ltac:(by unfold n2; destruct s) Hv Hshort) as (q & Eq & Hlead).
    exists q. split.
    + rewrite Eq. by unfold n2; destruct s.
    + apply (leads_to_any m stop p (stop - p) _ _ _ _ _ Hstop Hb).
      replace (p + Zlen (body l (Tree nm al s ts))) with (stop - Zlen (print_end nm ++ following k) + Zlen (print_end nm)); [done|].
      rewrite length_app in Hp |- *. lia.
Qed.
End read_tree.

(** ** Documents as a whole *)

Lemma find_in_prefix s r pat k : find_in s pat = Some k -> (k + length pat <= length s)%nat -> find_in (s ++ r) pat = Some k.
Proof.
  revert k. induction s as [|c s IH]; intros k Hk Hl.
  - cbn [length] in Hl. assert (pat = []) as -> by (destruct pat; [done|cbn in Hl; lia]). cbn in Hk. destruct r; exact Hk.
  - cbn [find_in app] in Hk |- *. case_bool_decide as Hp.
    + rewrite bool_decide_true; [done|]. destruct Hp as [x E]. exists (x ++ r). by rewrite app_comm_cons, E, <-app_assoc.
    + destruct (find_in s pat) as [j|] eqn:Ej; [|done]. injection Hk as <-. cbn [length] in Hl.
      rewrite bool_decide_false; [by rewrite (IH j) by (done || lia)|].
      intros [x E]. apply Hp. exists (drop (length pat) (c :: s)).
      pose proof (f_equal (take (length pat)) E) as Et. rewrite take_app_length in Et.
      rewrite app_comm_cons, take_app_le in Et by (cbn [length]; lia). rewrite <-Et at 1. by rewrite take_drop.
Qed.

Lemma header_end r : find_in (XML_HEADER ++ r) XML_HEADER_END = Some 38%nat.
Proof. apply find_in_prefix; [by vm_compute|by vm_compute; lia]. Qed.

Lemma height_le_print t : forall l, height t <= Zlen (print l t).
Proof.
  induction t as [nm al s ts IH] using tree_induction. intros l. cbn [height].
  assert (Hk : foldr Z.max 0 (map height ts) <= Zlen (flat_map (print (l + 1)) ts)).
  { induction IH as [|t ts Ht _ IH]; cbn [map foldr flat_map]; [lia|]. rewrite length_app. specialize (Ht (l + 1)). lia. }
  destruct ts as [|t ts]; [pose proof (print_length_pos l (Tree nm al s [])); cbn [map foldr]; lia|].
  cbn [print]. rewrite !length_app. change (length XML_TAG_END) with 1%nat. destruct s; cbn [length]; lia.
Qed.

Section documents.
Context `{Platform}.

Lemma well_formed_encodable t : well_formed t = true -> encodable t.
Proof.
  induction t as [nm al s ts IH] using tree_induction. intros Hwf.
  destruct (well_formed_spec _ _ _ _ Hwf) as (_ & _ & Hal & _ & Hc & Hts). split_and!; [|done|].
  - eapply Forall_impl; [done|]. intros x Hx. apply ga_value, Hx.
  - apply encodable_children. rewrite Forall_forall in IH, Hts |- *. intros t Ht. by apply IH, Hts.
Qed.

(** The document behind the header and a line feed. *)
Lemma FindNode_root t post length_ : well_formed t = true -> Zlen (print 0 t) < 2147483648 -> wf_cstr (print 0 t) ->
  Forall (fun w => find_in (print 0 t) w = None) gWrong_String -> length_ = 0 \/ length_ = Zlen (print 0 t) ->
  AnscXmlFindNode (print 0 t ++ 0 :: post) (Some 0) length_ 0 = Done (XML_SUCCESS, Some (Zlen XML_HEADER + 1)).
Proof.
  intros Hwf Hmax Hch Hwrong Hlen. set (m := print 0 t ++ 0 :: post). set (stop := Zlen (print 0 t)) in *.
  assert (Hd : doc_at m stop 0 (print 0 t)) by (split_and!; [by exists [], post|done|unfold stop; lia|done]).
  pose proof (print_length_pos 0 t). fold stop in H0. unfold AnscXmlFindNode.
  assert (Hlen' : (if LONG length_ <=? 0 then s ← string_at m 0; Done (strlen s) else Done (LONG length_)) = Done stop).
  { destruct Hlen as [-> | ->].
    - rewrite LONG_small by lia. cbn [Z.leb Z.compare]. by rewrite (doc_string m stop 0 _ Hd).
    - rewrite LONG_small by lia. by rewrite (proj2 (Z.leb_gt _ _)) by lia. }
  rewrite Hlen'. cbn [mbind outcome_bind].
  assert (Hstop : 0 + stop = stop) by lia.
  assert (Ehd : print 0 t = 60 :: tail (print 0 t)) by by destruct t.
  pose proof Hd as Hd1. rewrite Ehd in Hd1.
  destruct (doc_skip m stop 0 stop Hstop 0 [] 60 _ Hd1) as [Hskip _]; [done|done|].
  unfold skip_special, left_at in Hskip. cbn [length] in Hskip. rewrite Z.sub_diag, Z.sub_0_r in Hskip.
  change (0 + Z.of_nat 0) with 0 in Hskip. rewrite Hskip. cbn [mbind outcome_bind]. change (0 =? 0) with true. cbv iota.
  assert (Hany : any_wrong m 0 gWrong_String = Done false).
  { clear -Hwrong Hd. induction Hwrong as [|w ws Hw _ IH]; [done|]. cbn [any_wrong]. by rewrite (doc_find m stop 0 _ w Hd), Hw. }
  rewrite Hany. cbn [mbind outcome_bind].
  change XML_TAG_BEGIN with [60]. rewrite (doc_looking_char m stop 0 stop Hstop 0 _ _ 60 Hd1) by lia. rewrite Z.eqb_refl. cbn [mbind outcome_bind negb].
  set (q := Zlen XML_HEADER + 1).
  assert (Eprint : print 0 t = XML_HEADER ++ [10] ++ body 0 t) by (rewrite print_body; change (0 =? 0) with true; cbv iota; by rewrite <-app_assoc).
  destruct (body_head 0 t Hwf) as (c & r & Eb & Hc). assert (c ≠ 63 /\ c ≠ 33) as [Hc63 Hc33] by (apply name_char_spec in Hc; lia).
  pose proof Hd as Hd2. rewrite Eprint in Hd2.
  assert (Hlook0 : looking_at m 0 stop 0 XML_HEADER_BEGIN = Done true).
  { rewrite (doc_looking m stop 0 stop Hstop 0 _ _ Hd2) by (done || by repeat constructor).
    rewrite bool_decide_true; [done|]. by eexists. }
  assert (Hfind : AnscXmlFindString m 0 XML_HEADER_END = Done (Some 38)) by by rewrite (doc_find m stop 0 _ _ Hd2), header_end.
  pose proof (doc_app _ _ _ _ _ Hd2) as Hd3. change (0 + Zlen XML_HEADER) with 40 in Hd3. rewrite Eb in Hd3.
  destruct (doc_skip m stop 0 stop Hstop 40 [10] 60 _ Hd3) as [Hskip2 Hd4]; [by repeat constructor|done|].
  change (40 + Zlen [10]) with q in Hskip2, Hd4.
  assert (Hno : forall y pat', y ≠ c -> wf_cstr (60 :: y :: pat') -> Zlen (60 :: y :: pat') < 2147483648 ->
    looking_at m 0 stop q (60 :: y :: pat') = Done false).
  { intros y pat' Hy Hw Hl. rewrite (doc_looking m stop 0 stop Hstop q _ _ Hd4) by done.
    f_equal. apply bool_decide_false. intros [x E]. injection E. congruence. }
  unfold skip_headers, skip_fuel. cbn [skip_marked not_null mbind outcome_bind]. rewrite Hlook0. cbn [mbind outcome_bind negb].
  rewrite Hfind. cbn [mbind outcome_bind]. change (38 + strlen XML_HEADER_END) with 40. rewrite Hskip2. cbn [mbind outcome_bind].
  destruct (S (length m)) as [|k] eqn:Ek; [done|]. cbn [skip_marked not_null mbind outcome_bind].
  change (looking_at m 0 stop q XML_HEADER_BEGIN) with (looking_at m 0 stop q [60; 63]). rewrite (Hno 63 []) by (done || by repeat constructor). cbn [mbind outcome_bind negb].
  unfold skip_comments, skip_fuel. rewrite Ek. cbn [skip_marked not_null mbind outcome_bind].
  change (looking_at m 0 stop q XML_COMMENT_BEGIN) with (looking_at m 0 stop q [60; 33; 45; 45]). rewrite (Hno 33 [45; 45]) by (done || by repeat constructor). done.
Qed.

(** The parts of a string. *)
Ltac wf_parts := repeat lazymatch goal with |- wf_cstr (_ ++ _) => apply wf_cstr_app; split end.

Lemma print_wf t : forall l, well_formed t = true -> wf_cstr (print l t).
Proof.
  induction t as [nm al s ts IH] using tree_induction. intros l Hwf.
  destruct (well_formed_spec _ _ _ _ Hwf) as (Hv & _ & Hal & Hs & _ & Hts).
  assert (Hnm : wf_cstr nm) by (apply names_wf, valid_name_spec, Hv). pose proof (gt_wf _ Hs) as Hsw.
  assert (Hsp : forall k, wf_cstr (spaces k)).
  { intros k. apply Forall_forall. intros x Hx. apply elem_of_replicate in Hx as [-> _]. lia. }
  assert (Hat : wf_cstr (flat_map print_attr al)).
  { clear -Hal. induction Hal as [|x al Hx _ IH]; [by constructor|]. cbn [flat_map]. destruct Hx as [Hn _ _ Hval _ _].
    unfold print_attr. wf_parts; first [done|by repeat constructor|by apply names_wf]. }
  assert (Hki : wf_cstr (flat_map (print (l + 1)) ts)).
  { clear -IH Hts. induction ts as [|t ts IHts]; [by constructor|]. apply Forall_cons in IH as [Ht IH]. apply Forall_cons in Hts as [Hwt Hts].
    cbn [flat_map]. apply wf_cstr_app. split; [by apply Ht|by apply IHts]. }
  assert (Hend : wf_cstr (print_end nm)) by (unfold print_end; wf_parts; first [done|by repeat constructor]).
  cbn [print]. destruct (l =? 0), ts as [|t ts], s as [|c s]; wf_parts; first [done|by repeat constructor].
Qed.

Lemma ParseString_print t post length_ : well_formed t = true -> Zlen (print 0 t) < 2147483647 ->
  Forall (fun w => find_in (print 0 t) w = None) gWrong_String -> length_ = 0 \/ length_ = Zlen (print 0 t) ->
  exists q, AnscXmlDomParseString (print 0 t ++ 0 :: post) (Some 0) length_ [] = Done (Some (build 0 t), Some q, []).
Proof.
  intros Hwf Hmax Hwrong Hlen. set (m := print 0 t ++ 0 :: post). set (stop := Zlen (print 0 t)) in *.
  assert (Hch : wf_cstr (print 0 t)) by by apply print_wf. pose proof (print_length_pos 0 t).
  assert (Hd : doc_at m stop 0 (print 0 t)) by (split_and!; [by exists [], post|done|unfold stop; lia|unfold stop in Hmax; lia]).
  pose proof (FindNode_root t post length_ Hwf ltac:(lia) Hch Hwrong Hlen) as Hroot. fold m in Hroot.
  unfold AnscXmlDomParseString. rewrite Hroot. cbn [mbind outcome_bind].
  assert (Hlen' : (if length_ =? 0 then s ← string_at m 0; Done (strlen s) else Done length_) = Done stop).
  { destruct Hlen as [-> | ->]; [by rewrite (doc_string m stop 0 _ Hd)|]. by rewrite (proj2 (Z.eqb_neq _ _)) by lia. }
  rewrite Hlen'. cbn [mbind outcome_bind AnscXmlDomNodeCreate next_alloc not_null]. rewrite Z.sub_0_r.
  set (p := Zlen XML_HEADER + 1).
  assert (Hp : doc_at m stop p (body 0 t ++ following None)).
  { cbn [following]. rewrite app_nil_r. change p with (0 + Zlen (XML_HEADER ++ [10])). apply (doc_app m stop 0).
    pose proof Hd as Hd0. by rewrite (print_body 0 t) in Hd0. }
  assert (Hh : height t <= stop) by apply height_le_print.
  assert (Hm : stop < Zlen m) by (unfold m; rewrite length_app; cbn [length]; lia).
  destruct (reads_tree m stop XML_RESOURCES Done ltac:(done) t 0 (fill_fuel m) 0 stop ltac:(lia) Hwf ltac:(lia) ltac:(lia)
    ltac:(unfold fill_fuel; lia) p None Hp I) as (q & E & _).
  unfold AnscXmlFillContentOfNode. exists q. by rewrite E.
Qed.

(** C7. What is encoded is read back.  Let the names of a document be shorter than
    their buffers, its values be free of quotes and tag ends, its texts of tags
    and surrounding blanks, and let the printed text not contain one of the two
    strings the parser refuses.  Encoding it into a fresh block of the announced
    size and one byte succeeds, and parsing the block, with the size or without
    one, yields the document. *)
Theorem xml_round_trip t length_ (Hwf : well_formed t = true) (Hmax : Zlen (print 0 t) < 2147483647)
  (Hwrong : Forall (fun w => find_in (print 0 t) w = None) gWrong_String) :
  exists size w, AnscXmlDomNodeGetEncodedSize (build 0 t) = Done size /\
    AnscXmlDomNodeEncode (build 0 t) (Writer (replicate (Z.to_nat (size + 1)) 0) 0 size) = Done (Some tt, w) /\
    (length_ = 0 \/ length_ = size ->
     exists q, AnscXmlDomParseString (w_buf w) (Some 0) length_ [] = Done (Some (build 0 t), Some q, [])).
Proof.
  pose proof (well_formed_encodable t Hwf) as He. pose proof ulong_modulus_ge.
  exists (Zlen (print 0 t)). eexists. split; [by apply GetEncodedSize_build; [done| |lia]|]. split.
  - apply (Encode_build t 0); [done|lia|lia| |cbn; lia]. unfold room. cbn [w_pos w_left w_buf]. rewrite length_replicate. lia.
  - intros Hlen. unfold put. cbn [w_buf w_pos]. rewrite drop_replicate.
    replace (Z.to_nat (Zlen (print 0 t) + 1) - (Z.to_nat 0 + length (print 0 t)))%nat with 1%nat by lia.
    by apply (ParseString_print t []).
Qed.

End documents.

Lemma xml_round_trip_witness :
  exists size w, @AnscXmlDomNodeGetEncodedSize lp64 (build 0 demo_tree) = Done size /\
    @AnscXmlDomNodeEncode lp64 (build 0 demo_tree) (Writer (replicate (Z.to_nat (size + 1)) 0) 0 size) = Done (Some tt, w) /\
    (0 = 0 \/ 0 = size -> exists q, @AnscXmlDomParseString lp64 (w_buf w) (Some 0) 0 [] = Done (Some (build 0 demo_tree), Some q, [])).
Proof.
  apply (@xml_round_trip lp64 demo_tree 0); [by vm_compute|by vm_compute|].
  repeat constructor; by vm_compute.
Defined.
