(* ===== verification/XmlSafe.v ===== *)
(** * Whatever the XML parser reads

    On any block of memory the parser ends, and what it does to the documents it
    does not expect: the inputs that make it read outside its buffers or through
    a null pointer. *)

From S2P Require Import Prelude CStrings IpAddr XmlText XmlNode XmlParse XmlRead.
Open Scope Z_scope.

(** [x] ends, with a value that has [Q] or with a fault. *)
Definition no_loop {A} (Q : A -> Prop) (x : outcome A) : Prop :=
  match x with Done a => Q a | Stuck Diverge => False | Stuck _ => True end.

Lemma no_loop_bind {A B} (Q : A -> Prop) (Q' : B -> Prop) (x : outcome A) (k : A -> outcome B) :
  no_loop Q x -> (forall a, Q a -> no_loop Q' (k a)) -> no_loop Q' (x ≫= k).
Proof. destruct x as [a|[]]; cbn; auto. Qed.
Lemma no_loop_impl {A} (Q Q' : A -> Prop) x : no_loop Q x -> (forall a, Q a -> Q' a) -> no_loop Q' x.
Proof. destruct x as [a|[]]; cbn; auto. Qed.
Lemma no_loop_fmap {A B} (f : A -> B) (Q : B -> Prop) (x : outcome A) : no_loop (fun a => Q (f a)) x -> no_loop Q (f <$> x).
Proof. by destruct x as [a|[]]. Qed.

(** A pointer not before [p]. *)
Definition from (p : Z) (r : option Z) : Prop := match r with Some q => p <= q | None => True end.

Lemma from_weaken p p' r : from p r -> p' <= p -> from p' r.
Proof. destruct r; cbn; lia. Qed.

(** ** The scanners *)

Section scanners.
Variable m : mem.
Implicit Types (p q : Z).

Lemma buf_get_no_loop p : no_loop (fun _ => 0 <= p < Zlen m) (buf_get m p).
Proof.
  unfold buf_get. destruct (Z.ltb_spec p 0); [done|]. destruct (m !! Z.to_nat p) eqn:E; [|done].
  apply lookup_lt_Some in E. cbn. lia.
Qed.

Lemma buf_copy_no_loop d i src : no_loop (fun _ => True) (buf_copy d i src).
Proof. unfold buf_copy. by destruct (_ && _). Qed.

Lemma scan_forward_no_loop f n : forall p, no_loop (fun q => p <= q) (scan_forward f m p n).
Proof.
  induction n as [|n IH]; intros p; cbn [scan_forward]; [cbn; lia|].
  eapply no_loop_bind; [apply buf_get_no_loop|]. intros c _. destruct (f c); [cbn; lia|].
  eapply no_loop_impl; [apply IH|]. cbn. lia.
Qed.

Lemma GotoFirst_no_loop p l s : no_loop (from p) (AnscXmlGotoFirstCharExcept m p l s).
Proof. unfold AnscXmlGotoFirstCharExcept. destruct (_ =? 0); [done|]. apply no_loop_fmap, scan_forward_no_loop. Qed.
Lemma GotoWanted_no_loop p l s : no_loop (from p) (AnscXmlGotoFirstWantedChar m p l s).
Proof. unfold AnscXmlGotoFirstWantedChar. destruct (_ =? 0); [done|]. apply no_loop_fmap, scan_forward_no_loop. Qed.

Lemma string_at_no_loop p : no_loop (fun _ => 0 <= p <= Zlen m) (string_at m p).
Proof.
  unfold string_at. destruct (Z.leb_spec 0 p), (Z.leb_spec p (Zlen m)); cbn; try done.
  destruct (buf_cstr _); [cbn; lia|done].
Qed.

Lemma FindString_no_loop p s : no_loop (fun r => 0 <= p <= Zlen m /\ from p r) (AnscXmlFindString m p s).
Proof.
  eapply no_loop_bind; [apply string_at_no_loop|]. intros t Hp. split; [done|].
  destruct (find_in t s); cbn; [lia|done].
Qed.

Lemma scan_backward_no_loop s n : forall p, no_loop (fun q => p - Z.of_nat n <= q) (scan_backward m p s n).
Proof.
  induction n as [|n IH]; intros p; cbn [scan_backward]; [cbn; lia|].
  eapply no_loop_bind; [apply buf_get_no_loop|]. intros c _. destruct (negb _); [cbn; lia|].
  eapply no_loop_impl; [apply IH|]. cbn. lia.
Qed.

Lemma GetStringEnd_no_loop p e s : no_loop (fun q => p <= q) (AnscXmlGetStringEndExcept m p e s).
Proof.
  unfold AnscXmlGetStringEndExcept. destruct (Z.ltb_spec 0 (INT e)); [|cbn; lia].
  eapply no_loop_impl; [apply scan_backward_no_loop|]. cbn. lia.
Qed.

Lemma starts_with_no_loop s : forall p, no_loop (fun r : bool => r = true -> s ≠ [] -> 0 <= p < Zlen m) (starts_with m p s).
Proof.
  induction s as [|c s IH]; intros p; cbn [starts_with]; [done|].
  eapply no_loop_bind; [apply buf_get_no_loop|]. intros x Hp. cbn beta in Hp. destruct (negb _); [done|].
  eapply no_loop_impl; [apply IH|]. done.
Qed.

Lemma looking_at_no_loop b l p s : no_loop (fun r : bool => r = true -> s ≠ [] -> 0 <= p < Zlen m) (looking_at m b l p s).
Proof. unfold looking_at, AnscXmlIsStringStartWith. destruct (_ || _ || _); [done|]. apply starts_with_no_loop. Qed.

Lemma copy_range_no_loop `{Platform} p q n : no_loop (fun _ => True) (copy_range m p q n).
Proof. unfold copy_range. destruct (_ <? _); [done|]. apply buf_copy_no_loop. Qed.

(** Rounds left for the places behind [p]. *)
Definition rounds (p : Z) (fuel : nat) : Prop := (Z.to_nat (Zlen m - p) < fuel)%nat.

Lemma rounds_start p : 0 <= p -> rounds p (skip_fuel m).
Proof. unfold rounds, skip_fuel. lia. Qed.
Lemma rounds_step p p' fuel : rounds p (S fuel) -> p < Zlen m -> p < p' -> rounds p' fuel.
Proof. unfold rounds. lia. Qed.
Lemma rounds_pos p fuel : rounds p fuel -> exists k, fuel = S k.
Proof. unfold rounds. destruct fuel; [lia|by eexists]. Qed.

Definition found (p : Z) (r : xml_status * option Z) : Prop :=
  r.1 = XML_SUCCESS -> exists q, r.2 = Some q /\ p <= q.

Section marked.
Context `{Platform}.
Variables b l : Z.

Lemma skip_marked_no_loop first last missing : first ≠ [] -> last ≠ [] -> missing ≠ XML_SUCCESS ->
  forall fuel p, rounds p fuel -> no_loop (found p) (skip_marked m b l fuel first last missing (Some p)).
Proof.
  intros Hf Hl Hm fuel. induction fuel as [|fuel IH]; intros p Hr; [unfold rounds in Hr; lia|].
  cbn [skip_marked not_null mbind outcome_bind]. eapply no_loop_bind; [apply looking_at_no_loop|].
  intros t Ht. destruct t; cbn [negb]; [|by intros _; eexists]. specialize (Ht eq_refl Hf).
  eapply no_loop_bind; [apply FindString_no_loop|]. intros [e|] [_ He]; [|by intros ?]. cbn in He.
  eapply no_loop_bind; [apply GotoFirst_no_loop|]. intros [q|] Hq.
  - assert (0 < strlen last) by (unfold strlen; destruct last; [done|cbn; lia]). cbn in Hq.
    eapply no_loop_impl; [apply IH; eapply rounds_step; [done|lia|lia]|].
    intros r Hfound Hs. destruct (Hfound Hs) as (q' & -> & ?). exists q'. split; [done|lia].
  - destruct (rounds_pos (p + 1) fuel) as [k ->]; [eapply rounds_step; [done|lia|lia]|]. done.
Qed.

End marked.

Lemma FindNode_no_loop `{Platform} p len lvl : 0 <= p -> no_loop (found p) (AnscXmlFindNode m (Some p) len lvl).
Proof.
  intros Hp. unfold AnscXmlFindNode. eapply (no_loop_bind (fun _ => True)).
  { destruct (_ <=? 0); [|done]. eapply no_loop_bind; [apply string_at_no_loop|done]. }
  intros n _. eapply no_loop_bind; [apply GotoFirst_no_loop|]. intros [s|] Hs; [|done]. cbn in Hs.
  assert (Hc : forall q, s <= q -> no_loop (found q) (skip_comments m p n (Some q))).
  { intros q Hq. apply skip_marked_no_loop; [done..|]. apply rounds_start. lia. }
  destruct (lvl =? 0).
  - eapply (no_loop_bind (fun _ => True)).
    { generalize gWrong_String. intros ws. induction ws as [|w ws IH]; [done|]. cbn [any_wrong].
      eapply no_loop_bind; [apply FindString_no_loop|]. by intros [] _. }
    intros [] _; [done|]. eapply no_loop_bind; [apply looking_at_no_loop|]. intros [] _; cbn [negb]; [|done].
    eapply no_loop_bind; [apply skip_marked_no_loop; [done..|]; apply rounds_start; lia|].
    intros [st q] Hq. unfold found in Hq. cbn [fst snd] in Hq. destruct st; try done.
    destruct (Hq eq_refl) as (q' & -> & Hq'). eapply no_loop_bind; [apply Hc; lia|].
    intros [st r] Hr. unfold found in Hr. cbn [fst snd] in Hr. destruct st; try done.
    destruct (Hr eq_refl) as (r' & -> & Hr'). intros _. exists r'. split; [done|lia].
  - eapply no_loop_bind; [apply GotoFirst_no_loop|]. intros [q|] Hq; [|by unfold skip_comments, skip_fuel].
    cbn in Hq. eapply no_loop_bind; [apply Hc; lia|].
    intros [st r] Hr. unfold found in Hr. cbn [fst snd] in Hr. destruct st; try done.
    destruct (Hr eq_refl) as (r' & -> & Hr'). cbn [not_null mbind outcome_bind].
    eapply no_loop_bind; [apply FindString_no_loop|]. intros [e|] [_ He]; [|done]. intros _. exists e. cbn in He. split; [done|lia].
Qed.
End scanners.

(** ** The parts of the parser *)

(** The part ends; going on it yields [Q], and when it is done with success the
    place behind the node has [R]. *)
Definition ends {A} (R : option Z -> Prop) (Q : A -> Prop) (f : PM A) : Prop :=
  forall s, no_loop (fun r => match r.1 with Next a => Q a | Return XML_SUCCESS p => R p | Return _ _ => True end) (f s).

Lemma ends_bind {A B} R (Q : A -> Prop) (Q' : B -> Prop) (f : PM A) (k : A -> PM B) :
  ends R Q f -> (forall a, Q a -> ends R Q' (k a)) -> ends R Q' (f ≫= k).
Proof.
  intros Hf Hk s. specialize (Hf s). unfold mbind, PM_bind. destruct (f s) as [[[a|st p] s']|e]; cbn in *; [by apply Hk|by destruct st|done].
Qed.
Lemma ends_ret {A} R (Q : A -> Prop) (a : A) : Q a -> ends R Q (mret a).
Proof. by intros ? s. Qed.
Lemma ends_does {A} R (Q : A -> Prop) (x : outcome A) : no_loop Q x -> ends R Q (does x).
Proof. intros Hx s. unfold does. eapply no_loop_bind; [apply Hx|]. by intros a Ha. Qed.
Lemma ends_fails {A} R (Q : A -> Prop) b st : st ≠ XML_SUCCESS -> ends R Q (fails b st).
Proof. intros Hst s. by destruct st. Qed.
Lemma ends_returns {A} (R : option Z -> Prop) (Q : A -> Prop) p : R p -> ends R Q (returns XML_SUCCESS p).
Proof. by intros ? s. Qed.
Lemma ends_changes R (Q : unit -> Prop) g : Q tt -> ends R Q (changes g).
Proof. by intros ? s. Qed.
Lemma ends_allocates R : ends R (fun _ => True) allocates.
Proof. intros s. unfold allocates. by destruct (next_alloc s.2). Qed.
Lemma ends_this_node R : ends R (fun _ => True) this_node.
Proof. by intros s. Qed.

(** Does a part, of which a lemma on the scanners says where it ends. *)
Ltac step lem := eapply ends_bind; [apply ends_does; lem|].
Ltac step_any := eapply (ends_bind _ (fun _ => True)).
Ltac stop := first [by apply ends_fails | by apply ends_ret].

Section parts.
Context `{Platform}.
Variable m : mem.

(** Where a node ends that is read at [b]. *)
Definition behind (b : Z) (p : option Z) : Prop := b < Zlen m /\ from (b + 1) p.

Section range.
Variables b l : Z.
Abbreviation R := (behind b).

Lemma copied_no_loop p q n : no_loop (fun _ => True) (copy_range m p q n ≫= fun d => string_at d 0).
Proof.
  eapply no_loop_bind; [apply copy_range_no_loop|]. intros d _. eapply no_loop_impl; [apply string_at_no_loop|done].
Qed.

Lemma fill_name_ends : 0 <= b ->
  ends R (fun r => b < Zlen m /\ b <= r.1 /\ b < r.2) (fill_name m b l).
Proof.
  intros Hb. unfold fill_name. eapply ends_bind; [apply ends_allocates|]. intros [] _; cbn [negb]; [|stop].
  step ltac:(apply GotoFirst_no_loop). intros [q|] Hq; [|stop]. change (strlen XML_TAG_BEGIN) with 1 in Hq. cbn in Hq.
  step ltac:(apply FindString_no_loop). intros [e|] [Hm He]; [|stop]. cbn in He.
  step ltac:(apply GotoWanted_no_loop). intros [w|] Hw; [|stop]. cbn in Hw.
  eapply (ends_bind _ (fun w => b <= w)).
  { destruct (e <? w); [|apply ends_ret; lia]. step ltac:(apply buf_get_no_loop). intros c _.
    apply ends_ret. destruct (negb _); lia. }
  clear w Hw. intros w Hw. destruct (MAXIMUM_NODE_NAME <? _); [stop|].
  step ltac:(apply copy_range_no_loop). intros d _. step ltac:(apply string_at_no_loop). intros nm _.
  destruct (negb _); [stop|]. step_any; [by apply ends_changes|]. intros _ _.
  step_any; [destruct (_ =? _); [apply ends_does; eapply no_loop_impl; [apply buf_get_no_loop|done]|stop]|]. intros c _.
  destruct (_ && _); [apply ends_returns; split; cbn; lia|apply ends_ret; cbn; lia].
Qed.

Lemma fill_attribute_ends e p : 0 <= p ->
  ends R (fun r => p < Zlen m /\ from (p + 1) r) (fill_attribute m b l e p).
Proof.
  intros Hp. unfold fill_attribute. step ltac:(apply GotoWanted_no_loop). intros [q|] Hq; [|stop]. cbn in Hq.
  destruct (e <=? q); [stop|]. destruct (Z.eqb_spec q p); [stop|]. destruct (MAXIMUM_ATTRIBUTE_NAME <? _); [stop|].
  step ltac:(apply copy_range_no_loop). intros d _. step ltac:(apply string_at_no_loop). intros nm _. destruct (negb _); [stop|].
  step ltac:(apply GotoFirst_no_loop). intros r Hr. clear d.
  step_any; [destruct r; [apply ends_does; eapply no_loop_impl; [apply looking_at_no_loop|done]|stop]|]. intros [] _; [|stop].
  destruct r as [r|]; [|by intros s]. cbn in Hr.
  step ltac:(cbn [not_null mbind outcome_bind]; apply GotoFirst_no_loop). intros v Hv.
  step_any; [destruct v; [apply ends_does; eapply no_loop_impl; [apply looking_at_no_loop|done]|stop]|]. intros [] _; [|stop].
  destruct v as [v|]; [|by intros s]. cbn in Hv. cbn [not_null mbind outcome_bind].
  step ltac:(instantiate (1 := fun z => z = v + 1); done). intros _ ->.
  step ltac:(apply FindString_no_loop). intros [z|] [Hm Hz]; [|stop]. cbn in Hz. destruct (e <=? z); [stop|].
  do 2 (eapply ends_bind; [apply ends_allocates|]; intros [] _; cbn [negb]; [|stop]).
  step ltac:(apply copy_range_no_loop). intros d _. step_any; [by apply ends_changes|]. intros _ _.
  change (strlen STRING_MARK_1) with 1. step ltac:(apply GotoFirst_no_loop). intros next Hnext.
  assert (Hfin : p < Zlen m /\ from (p + 1) next) by (split; [lia|eapply from_weaken; [done|lia]]).
  case_bool_decide; [|by apply ends_ret]. step ltac:(apply looking_at_no_loop). intros b1 _.
  step_any; [destruct b1; [stop|apply ends_does; eapply no_loop_impl; [apply looking_at_no_loop|done]]|].
  intros [] _; [by apply ends_ret|stop].
Qed.

Lemma attribute_loop_ends e fuel : forall p, (forall q, p = Some q -> b <= q /\ rounds m q fuel) -> 0 <= b ->
  ends R (from b) (attribute_loop m b l fuel e p).
Proof.
  induction fuel as [|fuel IH]; intros [p|] Hp Hb; cbn [attribute_loop]; try stop;
    destruct (Hp p eq_refl) as [Hbp Hr]; [unfold rounds in Hr; lia|].
  step ltac:(apply looking_at_no_loop). intros b1 _.
  step_any; [destruct b1; [stop|apply ends_does; eapply no_loop_impl; [apply looking_at_no_loop|done]]|].
  intros [] _; [by apply ends_ret|]. eapply ends_bind; [apply fill_attribute_ends; lia|]. intros q [Hpm Hq].
  apply IH; [|done]. intros z ->. cbn in Hq. split; [lia|]. eapply rounds_step; [exact Hr|done|lia].
Qed.

Lemma fill_attributes_ends w e : 0 <= b -> b < Zlen m -> b <= w -> ends R (fun _ => True) (fill_attributes m b l w e).
Proof.
  intros Hb Hm Hw. unfold fill_attributes. destruct (w <? e); [|stop]. step ltac:(apply GotoFirst_no_loop). intros p Hp.
  eapply ends_bind; [apply ends_allocates|]. intros [] _; cbn [negb]; [|stop].
  eapply ends_bind; [apply attribute_loop_ends; [|done]|].
  { intros q ->. cbn in Hp. split; [lia|]. apply rounds_start. lia. }
  intros [q|] Hq; [|stop]. cbn in Hq. step ltac:(apply FindString_no_loop). intros r _. case_bool_decide; [|stop].
  apply ends_returns. change (strlen XML_NODE_END) with 2. split; cbn; lia.
Qed.

Variable text_missing : xml_status.
Hypothesis missing_fails : text_missing ≠ XML_SUCCESS.

Lemma fill_text_ends e : b < e -> ends R (from (b + 1)) (fill_text m text_missing b l e).
Proof.
  intros He. unfold fill_text. step ltac:(apply GotoFirst_no_loop). intros [q|] Hq; [|stop]. cbn in Hq.
  eapply (ends_bind _ (fun _ => True)).
  { apply ends_does. eapply no_loop_bind; [apply FindString_no_loop|]. by intros [] _. }
  intros f _. step ltac:(apply GetStringEnd_no_loop). intros z Hz. cbn beta in Hz.
  step_any.
  { destruct (q <? z); [|stop]. eapply ends_bind; [apply ends_allocates|]. intros [] _; cbn [negb].
    - step ltac:(apply copy_range_no_loop). intros d _. by apply ends_changes.
    - step_any; [by apply ends_changes|]. intros _ _. stop. }
  intros _ _. apply ends_does. eapply no_loop_impl; [apply FindString_no_loop|].
  intros r [_ Hr]. eapply from_weaken; [done|lia].
Qed.

(** The reader of a child, which is behind the tag of the node. *)
Variable fill : Z -> Z -> PM unit.
Hypothesis fill_ends : forall p len, b < Zlen m -> b < p -> ends (behind p) (fun _ => False) (fill p len).

Lemma fill_child_ends p : b < Zlen m -> b < p -> ends R (fun r => p < Zlen m /\ from (p + 1) r) (fill_child b l fill p).
Proof.
  intros Hm Hp [n a]. unfold fill_child. destruct (AnscXmlDomNodeCreate a) as [[c|] a']; [|done].
  match goal with |- context [fill p ?len ?s] => pose proof (fill_ends p len Hm Hp s) as Hf; destruct (fill p len s) as [[[x|st q] [c' a'']]|f] end;
    cbn in Hf |- *; [done| |done].
  by destruct st.
Qed.

Lemma children_loop_ends fuel : forall p, (forall q, p = Some q -> b < q /\ rounds m q fuel) -> 0 <= b -> b < Zlen m ->
  ends R (from (b + 1)) (children_loop m b l fill fuel p).
Proof.
  induction fuel as [|fuel IH]; intros [p|] Hp Hb Hbm; cbn [children_loop]; try stop;
    destruct (Hp p eq_refl) as [Hbp Hr]; [unfold rounds in Hr; lia|].
  step ltac:(apply looking_at_no_loop). intros [] _; [apply ends_ret; cbn; lia|].
  eapply ends_bind; [apply ends_this_node|]. intros n _.
  step ltac:(apply FindNode_no_loop; lia). intros [st q] Hq. unfold found in Hq. cbn [fst snd] in Hq. destruct st; try stop.
  destruct (Hq eq_refl) as (q' & -> & Hq'). cbn [not_null].
  step ltac:(instantiate (1 := eq q'); done). intros _ <-.
  step ltac:(apply looking_at_no_loop). intros [] _; [apply ends_ret; cbn; lia|].
  eapply ends_bind; [apply fill_child_ends; [done|lia]|]. intros [z|] [Hm Hz]; [|by intros s]. cbn in Hz. cbn [not_null mbind outcome_bind].
  step ltac:(apply GotoFirst_no_loop). intros r Hr'. apply IH; [|done..]. intros y ->. cbn in Hr'. split; [lia|].
  eapply rounds_step; [exact Hr|lia|lia].
Qed.

Variable finish : option Z -> outcome (option Z).
Hypothesis finish_ends : forall c q, from c q -> no_loop (from c) (finish q).

Lemma fill_end_ends p : b < Zlen m -> from (b + 1) p -> ends R (fun _ => False) (fill_end m finish b l p).
Proof.
  intros Hm Hp. unfold fill_end. destruct p as [p|]; [|stop]. cbn in Hp. change (strlen XML_END_NODE) with 2.
  eapply ends_bind; [apply ends_this_node|]. intros n _. step ltac:(apply looking_at_no_loop). intros [] _; cbn [negb]; [|stop].
  step ltac:(apply GotoFirst_no_loop). intros q Hq.
  eapply (ends_bind _ (fun _ => True)).
  { apply ends_does. destruct q; [|done]. eapply no_loop_impl; [apply buf_get_no_loop|done]. }
  intros c _. destruct (negb _); [stop|]. destruct q as [q|]; [|by intros s]. cbn in Hq. cbn [not_null mbind outcome_bind].
  assert (0 <= strlen (Name n)) by (unfold strlen; lia).
  step ltac:(apply GotoFirst_no_loop). intros r Hr. step ltac:(by apply finish_ends). intros z Hz. apply ends_returns.
  split; [done|]. eapply from_weaken; [done|lia].
Qed.

Lemma fill_node_ends : 0 <= b -> ends R (fun _ => False) (fill_node m text_missing finish b l fill).
Proof.
  intros Hb. unfold fill_node. eapply ends_bind; [by apply fill_name_ends|]. intros [w e] (Hm & Hw & He). cbn [fst snd] in Hw, He.
  eapply ends_bind; [by apply fill_attributes_ends|]. intros _ _.
  eapply ends_bind; [by apply fill_text_ends|]. intros p Hp.
  eapply ends_bind; [apply children_loop_ends; [|done..]|].
  { intros q ->. cbn in Hp. split; [lia|]. apply rounds_start. lia. }
  intros q Hq. by apply fill_end_ends.
Qed.
End range.

(** ** The readers *)

Lemma fill_from_ends missing finish : missing ≠ XML_SUCCESS ->
  (forall c q, from c q -> no_loop (from c) (finish q)) ->
  forall fuel p len, 0 <= p -> rounds m p fuel -> ends (behind p) (fun _ => False) (fill_from m missing finish fuel p len).
Proof.
  intros Hmiss Hfin fuel. induction fuel as [|fuel IH]; intros p len Hp Hr; [unfold rounds in Hr; lia|]. cbn [fill_from].
  apply fill_node_ends; [done| |done|done]. intros q len' Hm Hq. apply IH; [lia|]. by eapply rounds_step.
Qed.

Lemma rounds_fill p : 0 <= p -> rounds m p (fill_fuel m).
Proof. unfold rounds, fill_fuel. lia. Qed.

Lemma FillContentOfNode_no_loop p len n a : 0 <= p ->
  no_loop (fun r => let '(st, q, _, _) := r in st = XML_SUCCESS -> behind p q) (AnscXmlFillContentOfNode m p len n a).
Proof.
  intros Hp. unfold AnscXmlFillContentOfNode.
  eapply no_loop_bind; [apply (fill_from_ends XML_RESOURCES Done); [done|by intros c q| |by apply rounds_fill]; done|].
  intros [[[]|st q] [n' a']]; cbn; [done|]. by destruct st.
Qed.

Lemma NodeDecode_no_loop p len n a : 0 <= p ->
  no_loop (fun _ => True) (AnscXmlDomNodeDecode n m p len a).
Proof.
  intros Hp. unfold AnscXmlDomNodeDecode.
  eapply no_loop_bind; [apply (fill_from_ends XML_MISSED_END_TAG (fun q => Some <$> not_null q)); [done| |done|by apply rounds_fill]|].
  { by intros c [q|] Hq. }
  intros [[[]|st q] [n' a']]; cbn; [done|]. destruct st; try done. by destruct q.
Qed.

Lemma ParseString_no_loop p len a : 0 <= p ->
  no_loop (fun r => let '(n, q, _) := r in n ≠ None -> behind p q) (AnscXmlDomParseString m (Some p) len a).
Proof.
  intros Hp. unfold AnscXmlDomParseString. eapply no_loop_bind; [by apply FindNode_no_loop|].
  intros [st q] Hq. unfold found in Hq. cbn [fst snd] in Hq. destruct st; try done. destruct (Hq eq_refl) as (q' & -> & Hq').
  eapply (no_loop_bind (fun _ => True)).
  { destruct (len =? 0); [|done]. eapply no_loop_bind; [apply string_at_no_loop|done]. }
  intros len' _. destruct (AnscXmlDomNodeCreate a) as [[n|] a']; [|by cbn]. cbn [not_null mbind outcome_bind].
  eapply no_loop_bind; [apply FillContentOfNode_no_loop; lia|]. intros [[[st r] n'] a''] Hr.
  destruct st; try done. intros _. destruct (Hr eq_refl) as [Hm Hfrom]. split; [lia|]. eapply from_weaken; [done|lia].
Qed.
End parts.

Section readers.
Context `{Platform}.

Lemma ParserDecode_no_loop x m p len a : 0 <= p -> no_loop (fun _ => True) (AnscXmlDomParserDecode x m p len a).
Proof.
  intros Hp. unfold AnscXmlDomParserDecode. destruct (hRootNode x) as [n|].
  - eapply no_loop_bind; [by apply NodeDecode_no_loop|]. by intros [[[st z] n'] a'] _.
  - eapply no_loop_bind; [by apply FindNode_no_loop|]. intros [st q] Hq. unfold found in Hq. cbn [fst snd] in Hq.
    destruct st; try done. destruct (Hq eq_refl) as (q' & -> & Hq'). destruct (AnscXmlDomNodeCreate a) as [[n|] a']; [|done].
    cbn [not_null mbind outcome_bind]. eapply no_loop_bind; [apply NodeDecode_no_loop; lia|]. by intros [[[st z] n'] a''] _.
Qed.

(** C10. Parsing ends, whatever the block of memory holds, for every length that is
    announced and every sequence of allocations: no loop and no recursion of
    the parser runs for ever.  A document that is read starts inside the block,
    and the pointer has moved behind its start. *)
Theorem xml_parser_ends m p len a x (Hp : 0 <= p) :
  AnscXmlDomParseString m (Some p) len a ≠ Stuck Diverge /\
  AnscXmlDomParserDecode x m p len a ≠ Stuck Diverge /\
  (forall n q a', AnscXmlDomParseString m (Some p) len a = Done (Some n, q, a') ->
   p < Zlen m /\ (forall z, q = Some z -> p < z)).
Proof.
  pose proof (ParseString_no_loop m p len a Hp) as Hs. pose proof (ParserDecode_no_loop x m p len a Hp) as Hd.
  split_and!; [by intros E; rewrite E in Hs|by intros E; rewrite E in Hd|].
  intros n q a' E. rewrite E in Hs. destruct (Hs ltac:(done)) as [Hm Hq]. split; [done|].
  intros z ->. cbn in Hq. lia.
Qed.

(** ** Documents the parser reads past *)

Lemma fill_from_step m missing finish fuel b l s : fill_from m missing finish (S fuel) b l s =
  fill_node m missing finish b (LONG l) (fill_from m missing finish fuel) s.
Proof. done. Qed.

Lemma PM_stuck {A B} (f : PM A) (k : A -> PM B) s e : f s = Stuck e -> (f ≫= k) s = Stuck e.
Proof. intros E. unfold mbind, PM_bind. by rewrite E. Qed.

(** C39. Two kinds of documents make the parser run into undefined behaviour.  A node
    name of exactly 48 bytes passes the length test and fills its buffer, which
    then has no terminator, and is read past its end.  A text behind the tag of
    a node with no tag after it sends the parser through a null pointer. *)
Theorem xml_parse_faults m b length_ nm s n (Hv : valid_name nm = true)
  (Hd : doc_at m (b + length_) b (60 :: nm ++ 62 :: s)) :
  (Zlen nm = 48 -> AnscXmlFillContentOfNode m b length_ n [] = Stuck OutOfBounds) /\
  (Zlen nm < 48 -> 60 ∉ s -> Exists (fun c => special c = false) s ->
   AnscXmlFillContentOfNode m b length_ n [] = Stuck NullDeref).
Proof.
  assert (Hlen : 0 <= length_ < 2147483648) by (destruct Hd as (_ & _ & Hz & Hmax); cbn [length] in Hz, Hmax; lia).
  unfold AnscXmlFillContentOfNode, fill_fuel. rewrite fill_from_step, LONG_small by done. unfold fill_node. split.
  - intros Hl. destruct (fill_name_copied m _ b length_ eq_refl nm 62 s O n Hd Hv) as (K & E & _);
      [lia|by left|cbn [find_in]; by rewrite bool_decide_true by by exists s|].
    rewrite (PM_stuck _ _ _ OutOfBounds); [done|]. rewrite E. apply PM_stuck. unfold does. rewrite Hl. rewrite app_nil_r.
    unfold string_at. rewrite Hl. cbn [Z.leb Z.compare andb]. change (drop (Z.to_nat 0) nm) with nm.
    assert (Hno : buf_cstr nm = None); [|by rewrite Hno].
    destruct (valid_name_spec _ Hv) as [_ Hn]. clear -Hn.
    induction Hn as [|c nm Hc _ IH]; [done|]. cbn [buf_cstr]. rewrite IH. destruct (Z.eqb_spec c 0) as [->|]; [done|]. done.
  - intros Hl Hs Hc.
    destruct (fill_tag m _ b length_ eq_refl nm [] [] (62 :: s) n) as (p & e & E1 & E2 & He); [right; eauto|by constructor|done|done|done|].
    rewrite (PM_step _ _ _ _ _ E1), (PM_step _ _ _ _ _ E2). specialize (He eq_refl).
    assert (Htext : exists ws c r, s = ws ++ c :: r /\ Forall (fun y => special y = true) ws /\ special c = false).
    { clear -Hc. induction s as [|x s IH]; [by inversion Hc|]. destruct (special x) eqn:Ex; [|by exists [], x, s].
      inversion Hc as [? ? Hx|? ? Hx]; subst; [congruence|]. destruct (IH Hx) as (ws & c & r & -> & Hws & Hc').
      exists (x :: ws), c, r. split_and!; [done|by constructor|done]. }
    destruct Htext as (ws & c & r & -> & Hws & Hsc).
    assert (Hd1 : doc_at m (b + length_) (e + 1) (ws ++ c :: r)).
    { replace (e + 1) with (b + Zlen (60 :: nm ++ [62])).
      - apply (doc_app m _ b). cbn [app]. by rewrite <-app_assoc.
      - destruct Hd as (_ & _ & Hz & _). rewrite He. repeat progress (rewrite ?length_app in Hz |- *; cbn [length] in Hz |- *). lia. }
    destruct (doc_skip m _ b length_ eq_refl _ ws c r Hd1 Hws Hsc) as [Hskip Hd2].
    assert (Hfind : AnscXmlFindString m (e + 1 + Zlen ws) XML_TAG_BEGIN = Done None).
    { rewrite (doc_find _ _ _ _ _ Hd2). change XML_TAG_BEGIN with [60]. rewrite find_in_None_char; [done|].
      intros Hin. apply Hs, elem_of_app. by right. }
    rewrite (PM_stuck _ _ _ NullDeref); [done|]. unfold fill_text. rewrite (PM_does _ _ _ _ Hskip).
    apply PM_stuck. unfold does. by rewrite Hfind.
Qed.
End readers.

(** ** Examples *)

Definition doc_block (s : cstr) : mem := s ++ [0; 0].

(** A child that ends where the announced length does. *)
Example child_without_end : @AnscXmlDomParseString lp64 (doc_block (XML_HEADER ++ lit "<a><b></b>")) (Some 0) 0 [] = Stuck NullDeref.
Proof. by vm_compute. Qed.

(** A tag of a child that no [">"] closes is not found. *)
Example child_without_tag_end : exists q, @AnscXmlDomParseString lp64 (doc_block (XML_HEADER ++ lit "<a><b </a>")) (Some 0) 0 [] = Done (None, q, []).
Proof. eexists. by vm_compute. Qed.

Lemma xml_parser_ends_witness :
  @AnscXmlDomParseString lp64 (doc_block (lit "<!-- <a> -->")) (Some 0) 0 [] ≠ Stuck Diverge /\
  @AnscXmlDomParserDecode lp64 (XmlParser None) (doc_block (lit "<<<<a/a/a>")) 2 5 [false] ≠ Stuck Diverge.
Proof.
  split; [apply (@xml_parser_ends lp64 _ 0 0 [] (XmlParser None))|apply (@xml_parser_ends lp64 _ 2 5 [false] (XmlParser None))]; done.
Defined.

Lemma xml_parse_faults_witness :
  @AnscXmlFillContentOfNode lp64 (doc_block (60 :: replicate 48 97 ++ lit ">t</a>")) 0 55 (XmlNode [] 0 None 0 [] [] false) [] = Stuck OutOfBounds /\
  @AnscXmlFillContentOfNode lp64 (doc_block (lit "<a> text ")) 0 9 (XmlNode [] 0 None 0 [] [] false) [] = Stuck NullDeref.
Proof.
  assert (Hd : forall nm s, wf_cstr (60 :: nm ++ 62 :: s) -> Zlen (60 :: nm ++ 62 :: s) < 2147483648 ->
    doc_at (doc_block (60 :: nm ++ 62 :: s)) (0 + Zlen (60 :: nm ++ 62 :: s)) 0 (60 :: nm ++ 62 :: s)).
  { intros nm s Hwf Hmax. split_and!; [by exists [], [0]|done|done|done]. }
  split.
  - apply (@xml_parse_faults lp64 _ 0 55 (replicate 48 97) (lit "t</a>")); [by vm_compute| |by vm_compute].
    apply (Hd (replicate 48 97) (lit "t</a>")); [by repeat constructor|done].
  - apply (@xml_parse_faults lp64 _ 0 9 [97] (lit " text ")); [by vm_compute| |by vm_compute| |].
    + apply (Hd [97] (lit " text ")); [by repeat constructor|done].
    + change (lit " text ") with [32; 116; 101; 120; 116; 32]. set_solver.
    + right. left. by vm_compute.
Defined.
