(* ===== verification/XmlType.v ===== *)
(** * What the XML parser yields

    A document that is read, from whatever block of bytes, is well typed: it
    stands for a tree whose names are valid and shorter than their buffers and
    whose values and texts are strings, with its levels counted from the root.
    What the encoder and the copy are proved to do on documents holds for it. *)

From S2P Require Import Prelude CStrings IpAddr XmlText XmlNode XmlParse XmlSafe.
Open Scope Z_scope.

Definition attr_typed (x : cstr * cstr) : Prop :=
  valid_name x.1 = true /\ strlen x.1 < MAXIMUM_ATTRIBUTE_NAME /\ wf_cstr x.2.
Definition name_typed (nm : cstr) : Prop := valid_name nm = true /\ strlen nm < MAXIMUM_NODE_NAME.
Fixpoint typed (t : tree) : Prop :=
  let '(Tree nm al s ts) := t in
  name_typed nm /\ Forall attr_typed al /\ wf_cstr s /\ foldr and True (map typed ts).
Fixpoint few_children (t : tree) : Prop :=
  let '(Tree _ _ _ ts) := t in Zlen ts < 65536 /\ foldr and True (map few_children ts).

Lemma typed_encodable t : typed t -> few_children t -> encodable t.
Proof.
  induction t as [nm al s ts IH] using tree_induction. intros (_ & Ha & _ & Hts) [Hc Hfs]. split_and!; [|done|].
  - eapply Forall_impl; [exact Ha|]. by intros x (_ & _ & ?).
  - clear Ha Hc. induction IH as [|t ts Ht _ IH]; [done|]. destruct Hts, Hfs. split; [by apply Ht|by apply IH].
Qed.

(** A node that is being read: its name, its level, and parts that are typed. *)
Definition reading (nm : cstr) (l : Z) (n : node) : Prop :=
  exists al s ts, n = build l (Tree nm al s ts) /\ Forall attr_typed al /\ wf_cstr s /\ foldr and True (map typed ts).
Definition named (l : Z) (n : node) : Prop := exists nm, name_typed nm /\ reading nm l n.

Lemma named_typed l n : named l n -> exists t, n = build l t /\ typed t.
Proof. intros (nm & Hnm & al & s & ts & -> & ?). by exists (Tree nm al s ts). Qed.

(** ** Strings in memory *)

Section strings.
Context `{Platform}.
Variable m : mem.
Hypothesis Hbytes : Forall is_byte m.
Hypothesis Hsmall : Zlen m < 2147483648.

Lemma buf_cstr_prefix b s : Forall is_byte b -> buf_cstr b = Some s -> wf_cstr s /\ exists r, b = s ++ 0 :: r.
Proof.
  intros Hb. revert s. induction Hb as [|c b Hc _ IH]; intros s; [done|]. cbn [buf_cstr]. destruct (Z.eqb_spec c 0) as [->|].
  - intros [= <-]. split; [constructor|by exists b].
  - destruct (buf_cstr b) as [s'|]; [|done]. intros [= <-]. destruct (IH s' eq_refl) as [Hs [r ->]].
    unfold is_byte in Hc. split; [constructor; [lia|done]|by exists r].
Qed.

Lemma buf_cstr_length b s : buf_cstr b = Some s -> (length s < length b)%nat.
Proof.
  revert s. induction b as [|c b IH]; intros s; [done|]. cbn [buf_cstr]. destruct (c =? 0); [intros [= <-]; cbn; lia|].
  destruct (buf_cstr b) as [s'|]; [|done]. intros [= <-]. specialize (IH s' eq_refl). cbn [length]. lia.
Qed.

Lemma find_in_length s pat k : find_in s pat = Some k -> (k <= length s)%nat.
Proof.
  revert k. induction s as [|c s IH]; intros k; cbn [find_in]; case_bool_decide; try (intros [= <-]; lia).
  destruct (find_in s pat) as [j|]; [|done]. intros [= <-]. specialize (IH j eq_refl). cbn [length]. lia.
Qed.

(** What lies between a place and a text found behind it is a string. *)
Lemma FindString_string p pat e : AnscXmlFindString m p pat = Done (Some e) ->
  0 <= p <= e /\ e <= Zlen m /\ forall q, p <= q <= e -> wf_cstr (take (Z.to_nat (q - p)) (drop (Z.to_nat p) m)).
Proof.
  unfold AnscXmlFindString, string_at. destruct (Z.leb_spec 0 p), (Z.leb_spec p (Zlen m)); cbn [andb]; try done.
  destruct (buf_cstr _) as [t|] eqn:E; [|done]. cbn [mbind outcome_bind]. destruct (find_in t pat) as [k|] eqn:Ek; [|done].
  intros [= <-]. apply find_in_length in Ek. apply buf_cstr_prefix in E as [Ht [r Er]]; [|by apply Forall_drop].
  apply (f_equal length) in Er as El. rewrite length_drop, length_app in El. split; [lia|]. split; [lia|].
  intros q Hq. rewrite Er, take_app_le by lia. by apply Forall_take.
Qed.

Lemma copy_range_bytes p q size d : 0 <= p <= q -> q - p < 2147483648 -> copy_range m p q size = Done d ->
  d = take (Z.to_nat (q - p)) (drop (Z.to_nat p) m) ++ replicate (Z.to_nat (size - (q - p))) 0.
Proof.
  intros Hp Hq. unfold copy_range. rewrite ULONG_small32 by lia. destruct (Z.ltb_spec (Zlen m) (p + (q - p))); [done|].
  unfold buf_copy. destruct (_ && _) eqn:E; [|done]. zbool. intros [= <-]. f_equal. cbn [Nat.add Z.to_nat].
  rewrite drop_replicate, length_take, length_drop. f_equal. lia.
Qed.

Lemma copied_name p q size d nm : copy_range m p q size = Done d -> string_at d 0 = Done nm -> strlen nm < size.
Proof.
  unfold copy_range. destruct (_ <? _); [done|]. unfold buf_copy. destruct (_ && _) eqn:E; [|done]. zbool.
  intros [= <-]. unfold string_at. destruct (_ && _); [|done]. destruct (buf_cstr _) as [s|] eqn:Es; [|done]. intros [= ->].
  apply buf_cstr_length in Es. cbn [Z.to_nat drop] in Es.
  rewrite drop_0, !length_app, length_drop, length_replicate in *. rewrite length_take in *. unfold strlen. cbn [length take] in *. lia.
Qed.

Lemma scan_backward_le s n : forall p, no_loop (fun q => q <= p) (scan_backward m p s n).
Proof.
  induction n as [|n IH]; intros p; cbn [scan_backward]; [cbn; lia|].
  eapply no_loop_bind; [apply buf_get_no_loop|]. intros c _. destruct (negb _); [cbn; lia|].
  eapply no_loop_impl; [apply IH|]. cbn. lia.
Qed.

Lemma GetStringEnd_le p k s z : 0 <= k < 2147483648 -> AnscXmlGetStringEndExcept m p k s = Done z -> p <= z <= p + k.
Proof.
  intros Hk E. pose proof (GetStringEnd_no_loop m p k s) as H1. rewrite E in H1. cbn in H1. split; [done|].
  revert E. unfold AnscXmlGetStringEndExcept. rewrite INT_small by lia. destruct (Z.ltb_spec 0 k); [|intros [= <-]; lia].
  intros E. pose proof (scan_backward_le s (Z.to_nat k) (p + k)) as H2. rewrite E in H2. exact H2.
Qed.
End strings.

(** ** The parts of the parser

    From a node with [I], going on yields [Q], and success leaves a node with
    [R]. *)
Definition triple {A} (I : node -> Prop) (f : PM A) (Q : A -> node -> Prop) (R : node -> Prop) : Prop :=
  forall n a, I n -> match f (n, a) with
    | Done (Next x, (n, _)) => Q x n
    | Done (Return XML_SUCCESS _, (n, _)) => R n
    | _ => True
    end.

Lemma triple_bind {A B} I (f : PM A) Q (k : A -> PM B) Q' R :
  triple I f Q R -> (forall x, triple (Q x) (k x) Q' R) -> triple I (f ≫= k) Q' R.
Proof.
  intros Hf Hk n a Hn. specialize (Hf n a Hn). unfold mbind, PM_bind.
  destruct (f (n, a)) as [[[x|st p] [n' a']]|e]; [by apply Hk|by destruct st|done].
Qed.
Lemma triple_ret {A} (I : node -> Prop) (Q : A -> node -> Prop) R x : (forall n, I n -> Q x n) -> triple I (mret x) Q R.
Proof. intros Hx n a Hn. by apply Hx. Qed.
Lemma triple_does {A} (I : node -> Prop) (x : outcome A) R : triple I (does x) (fun y n => I n /\ x = Done y) R.
Proof. intros n a Hn. unfold does. by destruct x. Qed.
Lemma triple_only {A} (I : node -> Prop) (x : outcome A) R : triple I (does x) (fun _ => I) R.
Proof. intros n a Hn. unfold does. by destruct x. Qed.
Lemma triple_fails {A} I (Q : A -> node -> Prop) R b st : st ≠ XML_SUCCESS -> triple I (fails b st) Q R.
Proof. intros Hst n a Hn. by destruct st. Qed.
Lemma triple_returns {A} (I : node -> Prop) (Q : A -> node -> Prop) (R : node -> Prop) p :
  (forall n, I n -> R n) -> triple I (returns XML_SUCCESS p) Q R.
Proof. intros HR n a Hn. by apply HR. Qed.
Lemma triple_changes (I Q : node -> Prop) g R : (forall n, I n -> Q (g n)) -> triple I (changes g) (fun _ => Q) R.
Proof. intros Hg n a Hn. by apply Hg. Qed.
Lemma triple_allocates I R : triple I allocates (fun _ => I) R.
Proof. intros n a Hn. unfold allocates. by destruct (next_alloc _). Qed.
Lemma triple_this_node I R : triple I this_node (fun _ => I) R.
Proof. by intros n a Hn. Qed.
Lemma triple_pure {A} (P : Prop) I (f : PM A) Q R : (P -> triple I f Q R) -> triple (fun n => I n /\ P) f Q R.
Proof. intros Hf n a [Hn HP]. by apply Hf. Qed.
Lemma triple_pre {A} (I I' : node -> Prop) (f : PM A) Q R : triple I f Q R -> (forall n, I' n -> I n) -> triple I' f Q R.
Proof. intros Hf HI n a Hn. by apply Hf, HI. Qed.

(** Does a part; what it yields is a fact. *)
Ltac run E := eapply triple_bind; [apply triple_does|]; intros; apply triple_pure; intros E.
Ltac quit := first [by apply triple_fails | by apply triple_ret | by apply triple_only].

Lemma reading_attr nm l n x v : reading nm l n -> attr_typed (x, v) ->
  reading nm l (set_attributes n (AttributesList n ++ [XmlAttr x (Zlen v) (Some (v ++ [0]))])).
Proof.
  intros (al & s & ts & -> & Ha & Hs & Hts) Hx. exists (al ++ [(x, v)]), s, ts. split_and!; [|by apply Forall_app_2; [|constructor]|done..].
  cbn. by rewrite fmap_app.
Qed.

Lemma reading_text nm l n s : reading nm l n -> wf_cstr s -> s ≠ [] -> reading nm l (set_data n (Some (s ++ [0])) (Zlen s)).
Proof.
  intros (al & s' & ts & -> & Ha & _ & Hts) Hs Hne. exists al, s, ts. split_and!; [|done..]. cbn. by destruct s.
Qed.

Lemma reading_child nm l n c : reading nm l n -> named (l + 1) c -> reading nm l (set_children n (ChildNodeQueue n ++ [c])).
Proof.
  intros (al & s & ts & -> & Ha & Hs & Hts) (t & -> & Ht)%named_typed. exists al, s, (ts ++ [t]). split_and!; [|done..|].
  - cbn. by rewrite map_app.
  - rewrite map_app. clear -Hts Ht. induction ts; [done|]. destruct Hts. split; auto.
Qed.

Lemma reading_new l : reading [] l (XmlNode [] l None 0 [] [] false).
Proof. exists [], [], []. split_and!; [done|by constructor|by constructor|done]. Qed.

Lemma reading_level nm l n : reading nm l n -> Level n = l.
Proof. by intros (al & s & ts & -> & _). Qed.

Section parts.
Context `{Platform}.
Variable m : mem.
Hypothesis Hbytes : Forall is_byte m.
Hypothesis Hsmall : Zlen m < 2147483648.

Section range.
Variables b len l : Z.

Lemma fill_name_typed : triple (reading [] l) (fill_name m b len) (fun _ => named l) (named l).
Proof.
  unfold fill_name. eapply triple_bind; [apply triple_allocates|]. intros [|]; cbn [negb]; [|quit].
  run E0. destruct x as [q|]; [|quit]. run E1. destruct x as [e|]; [|quit]. run E2. destruct x as [w|]; [|quit].
  eapply (triple_bind _ _ (fun _ => reading [] l)).
  { destruct (e <? w); [|quit]. run E3. quit. }
  intros w'. destruct (MAXIMUM_NODE_NAME <? _); [quit|]. run E4. run E5. destruct (AnscXmlIsValidNodeName _) eqn:Ev; cbn [negb]; [|quit].
  eapply (triple_bind _ _ (fun _ => named l)).
  { apply triple_changes. intros n (al & s & ts & -> & Hparts). exists x0. split; [|by exists al, s, ts].
    split; [exact Ev|]. by eapply copied_name. }
  intros _. eapply (triple_bind _ _ (fun _ => named l)).
  { destruct (_ =? _); quit. }
  intros c. destruct (_ && _); [by apply triple_returns|quit].
Qed.

Lemma fill_attribute_typed e p : triple (named l) (fill_attribute m b len e p) (fun _ => named l) (named l).
Proof.
  unfold fill_attribute. run E0. destruct x as [q|]; [|quit]. destruct (e <=? q); [quit|]. destruct (q =? p); [quit|].
  destruct (MAXIMUM_ATTRIBUTE_NAME <? _); [quit|]. run E1. run E2. destruct (AnscXmlIsValidAttributeName _) eqn:Ev; cbn [negb]; [|quit].
  run E3. eapply (triple_bind _ _ (fun _ => named l)). { destruct x1; quit. }
  intros [|]; cbn [negb]; [|quit]. run E5.
  eapply (triple_bind _ _ (fun _ => named l)). { destruct x2; quit. }
  intros [|]; cbn [negb]; [|quit]. run E7. run E8. destruct x4 as [z|]; [|quit]. destruct (e <=? z); [quit|].
  do 2 (eapply triple_bind; [apply triple_allocates|]; intros [|]; cbn [negb]; [|quit]). run E9.
  apply FindString_string in E8 as (Hz & Hzm & Hstr); [|done].
  rewrite ULONG_small32 in * by lia. apply copy_range_bytes in E9; [|lia|lia].
  specialize (Hstr z ltac:(lia)). set (v := take _ _) in *. assert (Hlen : Zlen v = z - x3) by (unfold v; rewrite length_take, length_drop; lia).
  replace (Z.to_nat (z - x3 + 1 - (z - x3))) with 1%nat in E9 by lia. subst x4.
  eapply (triple_bind _ _ (fun _ => named l)).
  { apply triple_changes. intros n (nm & Hnm & Hn). exists nm. split; [done|]. rewrite <-Hlen.
    apply reading_attr; [done|]. split_and!; [exact Ev| |done]. by eapply copied_name. }
  intros _. run E10. case_bool_decide; [|quit]. run E11.
  eapply (triple_bind _ _ (fun _ => named l)). { destruct x5; quit. }
  intros [|]; cbn [negb]; quit.
Qed.

Lemma attribute_loop_typed e fuel : forall p, triple (named l) (attribute_loop m b len fuel e p) (fun _ => named l) (named l).
Proof.
  induction fuel as [|fuel IH]; intros [p|]; cbn [attribute_loop]; try quit;
    (run E0; eapply (triple_bind _ _ (fun _ => named l)); [destruct x; quit|]; intros [|]; [quit|]).
  - apply triple_only.
  - eapply triple_bind; [apply fill_attribute_typed|done].
Qed.

Lemma fill_attributes_typed w e : triple (named l) (fill_attributes m b len w e) (fun _ => named l) (named l).
Proof.
  unfold fill_attributes. destruct (w <? e); [|quit]. run E0. eapply triple_bind; [apply triple_allocates|].
  intros [|]; cbn [negb]; [|quit]. eapply triple_bind; [apply attribute_loop_typed|]. intros [q|]; [|quit].
  run E1. case_bool_decide; [by apply triple_returns|quit].
Qed.

Lemma fill_text_typed missing e : missing ≠ XML_SUCCESS -> triple (named l) (fill_text m missing b len e) (fun _ => named l) (named l).
Proof.
  intros Hmiss. unfold fill_text. run E0. destruct x as [p|]; [|quit]. run E1. run E2.
  destruct (AnscXmlFindString m p XML_TAG_BEGIN) as [[y|]|] eqn:Ef; [|done|done]. injection E1 as ->.
  apply FindString_string in Ef as (Hx & Hxm & Hstr); [|done]. rewrite ULONG_small32 in E2 by lia. apply GetStringEnd_le in E2; [|lia].
  eapply (triple_bind _ _ (fun _ => named l)).
  { destruct (Z.ltb_spec p x0) as [Hlt|]; [|quit]. eapply triple_bind; [apply triple_allocates|]. intros [|]; cbn [negb].
    - run E3. apply copy_range_bytes in E3; [|lia|lia]. specialize (Hstr x0 ltac:(lia)). set (s := take _ _) in *.
      assert (Hlen : Zlen s = x0 - p) by (unfold s; rewrite length_take, length_drop; lia).
      replace (Z.to_nat (x0 - p + 1 - (x0 - p))) with 1%nat in E3 by lia. subst x1.
      apply triple_changes. intros n (nm & Hnm & Hn). exists nm. split; [done|]. rewrite <-Hlen. apply reading_text; [done|done|].
      intros Es. rewrite Es in Hlen. cbn in Hlen. lia.
    - eapply (triple_bind _ _ (fun _ _ => True)); [by apply triple_changes|]. intros _. quit. }
  intros _. apply triple_only.
Qed.

(** A reader of the children. *)
Variable fill : Z -> Z -> PM unit.
Hypothesis fill_typed : forall p k, triple (reading [] (l + 1)) (fill p k) (fun _ _ => False) (named (l + 1)).
Hypothesis Hlevel : 0 <= l /\ l + 1 < 2 ^ ulong_bits.

Lemma fill_child_typed p : triple (named l) (fill_child b len fill p) (fun _ => named l) (named l).
Proof.
  intros n a (nm & Hnm & Hn). unfold fill_child, AnscXmlDomNodeCreate. destruct (next_alloc a) as [[|] a']; [|done].
  rewrite (reading_level _ _ _ Hn), ULONG_small by lia. cbn [set_level].
  pose proof (reading_new (l + 1)) as Hc.
  match goal with |- context [fill p ?k ?s] => pose proof (fill_typed p k s.1 s.2 Hc) as Hf; cbn [fst snd] in Hf;
    destruct (fill p k s) as [[[x|st q] [c' a'']]|f] end; cbn beta iota in Hf |- *; [done| |done].
  destruct st; try done. exists nm. split; [done|]. by apply reading_child.
Qed.

Lemma children_loop_typed fuel : forall p, triple (named l) (children_loop m b len fill fuel p) (fun _ => named l) (named l).
Proof.
  induction fuel as [|fuel IH]; intros [p|]; cbn [children_loop]; try quit; (run E0; destruct x; [quit|]).
  - apply triple_only.
  - eapply triple_bind; [apply triple_this_node|]. intros n. run E1. destruct x as [[] q]; try quit.
    run E2. run E3. destruct x0; [quit|]. eapply triple_bind; [apply fill_child_typed|]. intros r. run E4. apply IH.
Qed.

Lemma fill_end_typed finish p : triple (named l) (fill_end m finish b len p) (fun _ _ => False) (named l).
Proof.
  unfold fill_end. destruct p as [p|]; [|quit]. eapply triple_bind; [apply triple_this_node|]. intros n.
  run E0. destruct x; cbn [negb]; [|quit]. run E1. run E2. destruct (negb _); [quit|]. run E3. run E4. by apply triple_returns.
Qed.

Lemma fill_node_typed missing finish : missing ≠ XML_SUCCESS ->
  triple (reading [] l) (fill_node m missing finish b len fill) (fun _ _ => False) (named l).
Proof.
  intros Hmiss. unfold fill_node. eapply triple_bind; [apply fill_name_typed|]. intros [w e].
  eapply triple_bind; [apply fill_attributes_typed|]. intros []. eapply triple_bind; [by apply fill_text_typed|]. intros p.
  eapply triple_bind; [apply children_loop_typed|]. intros q. apply fill_end_typed.
Qed.
End range.

(** The level of a node and the depth that is left add up. *)
Lemma fill_from_typed missing finish : missing ≠ XML_SUCCESS -> forall fuel p len l, 0 <= l -> l + Z.of_nat fuel <= Zlen m + 1 ->
  triple (reading [] l) (fill_from m missing finish fuel p len) (fun _ _ => False) (named l).
Proof.
  intros Hmiss fuel. induction fuel as [|fuel IH]; intros p len l Hl Hf; cbn [fill_from].
  { intros n a Hn. done. }
  pose proof ulong_modulus_ge. apply fill_node_typed; [|lia|done]. intros q k. apply IH; lia.
Qed.

(** C9. Every document that is parsed is well typed: from any block of bytes the
    parser yields, if a node at all, a node that stands for a tree.  Its names
    and the names of its attributes are valid and end in their buffers, its
    values and texts are terminated strings of the sizes it records, and the
    levels count from 0.  Such a document can be encoded and copied when no
    node has as many as 65536 children. *)
Theorem xml_parse_typed p len a n q a' (E : AnscXmlDomParseString m (Some p) len a = Done (Some n, q, a')) :
  exists t, n = build 0 t /\ typed t /\ (few_children t -> encodable t).
Proof.
  revert E. unfold AnscXmlDomParseString. destruct (AnscXmlFindNode _ _ _ _) as [[[] r]|]; try done. cbn [mbind outcome_bind].
  destruct (if len =? 0 then _ else _) as [len'|]; [|done]. cbn [mbind outcome_bind]. unfold AnscXmlDomNodeCreate.
  destruct (next_alloc a) as [[|] a1]; [|done]. destruct (not_null r) as [z|]; [|done]. cbn [mbind outcome_bind].
  pose proof (reading_new 0) as Hr.
  pose proof (fill_from_typed XML_RESOURCES Done ltac:(done) (fill_fuel m) z (len' - (z - p)) 0 ltac:(lia) ltac:(unfold fill_fuel; lia) _ a1 Hr) as Hf.
  unfold AnscXmlFillContentOfNode. destruct (fill_from _ _ _ _ _ _ _) as [[[x|st y] [n' a2]]|f]; cbn [mbind outcome_bind]; [done| |done].
  destruct st; try done. intros [= <- _ _]. destruct (named_typed _ _ Hf) as (t & -> & Ht). exists t. split_and!; [done..|].
  by apply typed_encodable.
Qed.
End parts.

Definition demo_bytes : mem := lit "<a k=" ++ [34] ++ lit "v" ++ [34] ++ lit "> <b/>text</a >" ++ [0; 0].

Lemma xml_parse_typed_witness :
  exists q t, @AnscXmlDomParseString lp64 demo_bytes (Some 0) 0 [] = Done (Some (build 0 t), q, []) /\ typed t.
Proof.
  assert (Hp : exists n q, @AnscXmlDomParseString lp64 demo_bytes (Some 0) 0 [] = Done (Some n, q, [])) by (eexists _, _; by vm_compute).
  destruct Hp as (n & q & E).
  destruct (@xml_parse_typed lp64 demo_bytes ltac:(by apply (bool_decide_eq_true_1 (Forall _ _)); vm_compute) ltac:(by vm_compute) 0 0 [] n q [] E) as (t & -> & Ht & _).
  exists q, t. split; [exact E|exact Ht].
Defined.
