(* ===== verification/XmlValue.v ===== *)
(** * Values of XML nodes ([ansc_xml_dom_node_read.c], [ansc_xml_dom_node_write.c])

    Strings, numbers, truth values and binary data, kept as the text of a node
    or of one of its attributes: what the writers store, and what the readers
    give back of it. *)

From S2P Require Import Prelude CStrings IpAddr XmlText XmlNode.
Open Scope Z_scope.

Definition STR_FALSE : cstr := lit "false".
Definition STR_TRUE : cstr := lit "true".

(** [strcasecmp(a, b) == 0] *)
Definition same_text (a b : cstr) : bool := AnscEqualString1 (Some a) (Some b) false.

(** A test of the bytes of a block, in order, until one fails; [ok] is given the
    index and the byte. *)
Fixpoint all_bytes (ok : Z -> Z -> bool) (d : mem) (i : Z) (n : nat) : outcome bool :=
  match n with
  | O => Done true
  | S n => c ← buf_get d i; if negb (ok i c) then Done false else all_bytes ok d (i + 1) n
  end.

Section values.
Context `{Platform}.

(** [AnscXmlLongToString]: the value is printed as an unsigned long. *)
Definition AnscXmlLongToString (value : Z) : cstr := fmt_u 20 (ULONG value).

(** ** Data of an attribute or a node *)

Definition data_text (d : option mem) : outcome cstr :=
  match d with None => Stuck NullDeref | Some d => string_at d 0 end.
Definition data_bytes (d : option mem) (size : Z) : outcome mem :=
  match d with
  | None => Stuck NullDeref
  | Some m => if Zlen m <? size then Stuck OutOfBounds else Done (take (Z.to_nat size) m)
  end.
Definition data_all (ok : Z -> Z -> bool) (d : option mem) (size : Z) : outcome bool :=
  match d with
  | None => if size <=? 0 then Done true else Stuck NullDeref
  | Some m => all_bytes ok m 0 (Z.to_nat size)
  end.
Definition digit_at (_ c : Z) : bool := AnscXmlIsDigit c.

(** Copies the data to the caller: the status, [sTarget] and [*pulSize]; a NULL
    pointer is [None]. *)
Definition give_string (size : Z) (d : option mem) (sTarget : option mem) (pulSize : option Z)
  : outcome (xml_status * option mem * option Z) :=
  match pulSize with
  | None => Done (XML_INVALID_LENGTH, sTarget, None)
  | Some n =>
      if size <=? 0 then
        t ← match sTarget with
            | Some t => if 0 <? n then Some <$> buf_put t 0 0 else Done sTarget
            | None => Done None
            end;
        Done (XML_SUCCESS, t, Some 0)
      else
        match sTarget with
        | None => Done (XML_INVALID_LENGTH, None, Some size)
        | Some t =>
            if n <? size then Done (XML_INVALID_LENGTH, sTarget, Some size)
            else
              s ← data_bytes d size;
              t ← buf_copy t 0 s;
              t ← (if size <? n then buf_put t size 0 else Done t);
              r ← AnscXmlRemoveCharReference (Some t) (Some size);
              let '(_, t, n) := r in Done (XML_SUCCESS, t, n)
        end
  end.

(** The number behind a pointer, which may be NULL. *)
Definition give_number (convert : Z -> Z) (d : option mem) (pTarget : option Z) : outcome (option Z) :=
  match pTarget with
  | None => Done None
  | Some _ => t ← data_text d; Done (Some (convert (atoll t)))
  end.

(** [None] when the text is none of the four. *)
Definition read_boolean (d : option mem) : outcome (option bool) :=
  t ← data_text d;
  Done (if same_text t STR_FALSE then Some false
        else if same_text t STR_TRUE then Some true
        else if same_text t (lit "0") then Some false
        else if same_text t (lit "1") then Some true
        else None).

(** The status, and [*pbTarget]. *)
Definition give_boolean (invalid : xml_status) (d : option mem) (pbTarget : option bool)
  : outcome (xml_status * option bool) :=
  v ← read_boolean d;
  match v with
  | None => Done (invalid, pbTarget)
  | Some b => match pbTarget with None => Stuck NullDeref | Some _ => Done (XML_SUCCESS, Some b) end
  end.

(** Tabs and line feeds are taken out of the data. *)
Definition combine_data (d : option mem) (size : Z) : outcome (option mem * Z) :=
  match d with
  | None => if size <=? 0 then Done (None, 0) else Stuck NullDeref
  | Some m => r ← AnscXmlCombineTokens m size [9; 10]; Done (Some r.1, r.2)
  end.
Definition hex_data (d : option mem) (size : Z) : outcome bool :=
  if negb (size mod 2 =? 0) then Done false
  else data_all (fun _ c => AnscXmlIsValidBinaryChar c) d size.

(** ** Reading attributes

    [hThisObject] and [name] are pointers. *)

Definition attr_named (n : node) (name : cstr) : option (nat * attribute) :=
  i ← AnscXmlDomNodeGetAttr n name; x ← AttributesList n !! i; Some (i, x).
Definition put_attr (n : node) (i : nat) (x : attribute) : node :=
  set_attributes n (<[i:=x]> (AttributesList n)).

Definition AnscXmlDomNodeGetAttrString (hThisObject : option node) (name : cstr) (sTarget : option mem) (pulSize : option Z)
  : outcome (xml_status * option mem * option Z) :=
  match hThisObject with
  | None => Done (XML_INVALID_HANDLE, sTarget, pulSize)
  | Some n =>
      match attr_named n name with
      | None => Done (XML_ATTRIBUTE_NOT_EXIST, sTarget, pulSize)
      | Some (_, x) => give_string (attr_DataSize x) (attr_StringData x) sTarget pulSize
      end
  end.

Definition AnscXmlDomNodeGetAttrUlong (hThisObject : option node) (name : cstr) (pulTarget : option Z)
  : outcome (xml_status * option Z) :=
  match hThisObject with
  | None => Done (XML_INVALID_HANDLE, pulTarget)
  | Some n =>
      match attr_named n name with
      | None => Done (XML_ATTRIBUTE_NOT_EXIST, pulTarget)
      | Some (_, x) =>
          ok ← data_all digit_at (attr_StringData x) (attr_DataSize x);
          if negb ok then Done (XML_INVALID_ATTRIBUTE_VALUE, pulTarget)
          else v ← give_number ULONG (attr_StringData x) pulTarget; Done (XML_SUCCESS, v)
      end
  end.

Definition AnscXmlDomNodeGetAttrBoolean (hThisObject : option node) (name : cstr) (pbTarget : option bool)
  : outcome (xml_status * option bool) :=
  match hThisObject with
  | None => Done (XML_INVALID_HANDLE, pbTarget)
  | Some n =>
      match attr_named n name with
      | None => Done (XML_ATTRIBUTE_NOT_EXIST, pbTarget)
      | Some (_, x) => give_boolean XML_INVALID_ATTRIBUTE_VALUE (attr_StringData x) pbTarget
      end
  end.

(** Yields the status, the node, [sTarget] and [*pulSize]. *)
Definition AnscXmlDomNodeGetAttrBinary (hThisObject : option node) (name : cstr) (sTarget : option mem) (pulSize : Z) (a : alloc_stream)
  : outcome (xml_status * option node * option mem * Z * alloc_stream) :=
  match hThisObject with
  | None => Done (XML_INVALID_HANDLE, None, sTarget, pulSize, a)
  | Some n =>
      match attr_named n name with
      | None => Done (XML_ATTRIBUTE_NOT_EXIST, Some n, sTarget, pulSize, a)
      | Some (i, x) =>
          if pulSize <? attr_DataSize x then Done (XML_INVALID_LENGTH, Some n, sTarget, attr_DataSize x, a)
          else
            r ← combine_data (attr_StringData x) (attr_DataSize x);
            let '(d, size) := r in
            let n := put_attr n i (XmlAttr (attr_Name x) size d) in
            ok ← hex_data d size;
            if negb ok then Done (XML_INVALID_ATTRIBUTE_VALUE, Some n, sTarget, pulSize, a)
            else
              r ← match sTarget with
                  | None => Done (None, a)
                  | Some t =>
                      r ← AnscXmlFromASCIIToBinary t pulSize a;
                      let '(_, t, _, a) := r in Done (Some t, a)
                  end;
              let '(sTarget, a) := r in
              Done (XML_SUCCESS, Some n, sTarget, size / 2, a)
      end
  end.

(** [0xFFFFFFFF] when there is no such attribute. *)
Definition NO_SIZE : Z := 4294967295.
Definition AnscXmlDomNodeGetAttrSize (n : node) (name : cstr) : Z :=
  match attr_named n name with None => NO_SIZE | Some (_, x) => attr_DataSize x end.

(** ** Reading the text of a node; its name is not used *)

Definition AnscXmlDomNodeGetDataString (hThisObject : option node) (sTarget : option mem) (pulSize : option Z)
  : outcome (xml_status * option mem * option Z) :=
  match hThisObject with
  | None => Done (XML_INVALID_HANDLE, sTarget, pulSize)
  | Some n => give_string (DataSize n) (StringData n) sTarget pulSize
  end.

Definition AnscXmlDomNodeGetDataUlong (hThisObject : option node) (pulTarget : option Z) : outcome (xml_status * option Z) :=
  match hThisObject with
  | None => Done (XML_INVALID_HANDLE, pulTarget)
  | Some n =>
      if DataSize n <=? 0 then Done (XML_EMPTY_TEXT, pulTarget)
      else
        ok ← data_all digit_at (StringData n) (DataSize n);
        if negb ok then Done (XML_INVALID_TEXT_VALUE, pulTarget)
        else v ← give_number ULONG (StringData n) pulTarget; Done (XML_SUCCESS, v)
  end.

Definition AnscXmlDomNodeGetDataLong (hThisObject : option node) (plTarget : option Z) : outcome (xml_status * option Z) :=
  match hThisObject with
  | None => Done (XML_INVALID_HANDLE, plTarget)
  | Some n =>
      if DataSize n <=? 0 then Done (XML_EMPTY_TEXT, plTarget)
      else
        ok ← data_all (fun i c => (i =? 0) && (c =? 45) || AnscXmlIsDigit c) (StringData n) (DataSize n);
        if negb ok then Done (XML_INVALID_TEXT_VALUE, plTarget)
        else
          v ← give_number LONG (StringData n) plTarget;
          c ← match StringData n with None => Stuck NullDeref | Some m => buf_get m 0 end;
          if negb (c =? 45) && match v with Some v => v <? 0 | None => false end
          then Done (XML_INVALID_TEXT_VALUE, v)
          else Done (XML_SUCCESS, v)
  end.

Definition AnscXmlDomNodeGetDataBoolean (hThisObject : option node) (pbTarget : option bool) : outcome (xml_status * option bool) :=
  match hThisObject with
  | None => Done (XML_INVALID_HANDLE, pbTarget)
  | Some n =>
      if DataSize n <=? 0 then Done (XML_EMPTY_TEXT, pbTarget)
      else give_boolean XML_INVALID_TEXT_VALUE (StringData n) pbTarget
  end.

Definition AnscXmlDomNodeGetDataBinary (hThisObject : option node) (sTarget : option mem) (pulSize : Z) (a : alloc_stream)
  : outcome (xml_status * option node * option mem * Z * alloc_stream) :=
  match hThisObject with
  | None => Done (XML_INVALID_HANDLE, None, sTarget, pulSize, a)
  | Some n =>
      if DataSize n <=? 0 then Done (XML_EMPTY_TEXT, Some n, sTarget, 0, a)
      else
        match sTarget with
        | None => Done (XML_INVALID_LENGTH, Some n, None, DataSize n, a)
        | Some t =>
            r ← combine_data (StringData n) (DataSize n);
            let '(d, size) := r in
            let n := set_data n d size in
            ok ← hex_data d size;
            if negb ok then Done (XML_INVALID_TEXT_VALUE, Some n, sTarget, pulSize, a)
            else
              s ← data_bytes d size;
              t ← buf_copy t 0 s;
              r ← AnscXmlFromASCIIToBinary t pulSize a;
              let '(_, t, _, a) := r in
              Done (XML_SUCCESS, Some n, Some t, size / 2, a)
        end
  end.

Definition AnscXmlDomNodeGetDataSize (n : node) : Z := DataSize n.

(** ** Items: an attribute, or else the text *)

Definition AnscXmlDomNodeGetItemString (hThisObject : option node) (name : cstr) (sTarget : option mem) (pulSize : option Z)
  : outcome (xml_status * option mem * option Z) :=
  r ← AnscXmlDomNodeGetAttrString hThisObject name sTarget pulSize;
  match r with
  | (XML_CANT_FIND, t, k) => AnscXmlDomNodeGetDataString hThisObject t k
  | r => Done r
  end.
Definition AnscXmlDomNodeGetItemUlong (hThisObject : option node) (name : cstr) (pulTarget : option Z) : outcome (xml_status * option Z) :=
  r ← AnscXmlDomNodeGetAttrUlong hThisObject name pulTarget;
  match r with
  | (XML_CANT_FIND, v) => AnscXmlDomNodeGetDataUlong hThisObject v
  | r => Done r
  end.
Definition AnscXmlDomNodeGetItemBoolean (hThisObject : option node) (name : cstr) (pbTarget : option bool) : outcome (xml_status * option bool) :=
  r ← AnscXmlDomNodeGetAttrBoolean hThisObject name pbTarget;
  match r with
  | (XML_CANT_FIND, v) => AnscXmlDomNodeGetDataBoolean hThisObject v
  | r => Done r
  end.
Definition AnscXmlDomNodeGetItemBinary (hThisObject : option node) (name : cstr) (sTarget : option mem) (pulSize : Z) (a : alloc_stream)
  : outcome (xml_status * option node * option mem * Z * alloc_stream) :=
  r ← AnscXmlDomNodeGetAttrBinary hThisObject name sTarget pulSize a;
  match r with
  | (XML_CANT_FIND, n, t, k, a) => AnscXmlDomNodeGetDataBinary n t k a
  | r => Done r
  end.
Definition AnscXmlDomNodeGetItemSize (n : node) (name : cstr) : Z :=
  let ulSize := AnscXmlDomNodeGetAttrSize n name in
  if ulSize =? NO_SIZE then AnscXmlDomNodeGetDataSize n else ulSize.

(** ** Writing attributes *)

(** [AnscCopyString] to the name of an attribute. *)
Definition copy_name (name : cstr) : outcome cstr :=
  if MAXIMUM_ATTRIBUTE_NAME <=? strlen name then Stuck OutOfBounds else Done name.

(** The attribute of a name, or a new one at the end of the list; the node, the
    place and the attribute. *)
Definition attr_slot (n : node) (name : cstr) (a : alloc_stream) : option (node * nat * attribute) * alloc_stream :=
  match attr_named n name with
  | Some (i, x) => (Some (n, i, x), a)
  | None =>
      let x := XmlAttr [] 0 None in
      let '(ok, a) := next_alloc a in
      (if ok then Some (set_attributes n (AttributesList n ++ [x]), length (AttributesList n), x) else None, a)
  end.

(** [n] bytes that start with [s]. *)
Definition new_data (s : cstr) (n : Z) (a : alloc_stream) : outcome (option mem * alloc_stream) :=
  let '(ok, a) := next_alloc a in
  if ok : bool then d ← buf_copy (replicate (Z.to_nat n) 0) 0 s; Done (Some d, a)
  else Done (None, a).

Section set_attr.
Variables (hThisObject : option node) (name : option cstr).

(** What the writers have in common: the handle, the name, its length when
    [too_long] is the status for that, the attribute. *)
Definition with_attr (too_long : option xml_status) (a : alloc_stream)
  (k : node -> nat -> attribute -> cstr -> alloc_stream -> outcome (xml_status * option node * alloc_stream))
  : outcome (xml_status * option node * alloc_stream) :=
  match hThisObject with
  | None => Done (XML_INVALID_HANDLE, None, a)
  | Some n =>
      match name with
      | None => Done (XML_INVALID_ATTRIBUTE_NAME, Some n, a)
      | Some nm =>
          if negb (AnscXmlIsValidAttributeName name) then Done (XML_INVALID_ATTRIBUTE_NAME, Some n, a)
          else if bool_decide (is_Some too_long) && (MAXIMUM_ATTRIBUTE_NAME <? strlen nm)
          then Done (default XML_SUCCESS too_long, Some n, a)
          else
            let '(slot, a) := attr_slot n nm a in
            match slot with
            | None => Done (XML_RESOURCES, Some n, a)
            | Some (n, i, x) => k n i x nm a
            end
      end
  end.

Definition AnscXmlDomNodeSetAttrString (sTarget : option mem) (ulSize : Z) (a : alloc_stream) :=
  with_attr None a (fun n i x nm a =>
    r ← AnscXmlEscapeChars sTarget ulSize a;
    let '(d, size, a) := r in
    nm ← copy_name nm;
    Done (XML_SUCCESS, Some (put_attr n i (XmlAttr nm size d)), a)).

Definition AnscXmlDomNodeSetAttrUlong (ulTarget : Z) (a : alloc_stream) :=
  with_attr (Some XML_INTERNAL_ERROR) a (fun n i x nm a =>
    let pValue := AnscXmlLongToString ulTarget in
    r ← new_data pValue (strlen pValue + 1) a;
    let '(d, a) := r in
    match d with
    | None => Done (XML_SUCCESS, Some (put_attr n i (XmlAttr (attr_Name x) 0 None)), a)
    | Some _ =>
        nm ← copy_name nm;
        Done (XML_SUCCESS, Some (put_attr n i (XmlAttr nm (strlen pValue) d)), a)
    end).

Definition AnscXmlDomNodeSetAttrBoolean (bTarget : bool) (a : alloc_stream) :=
  with_attr (Some XML_INTERNAL_ERROR) a (fun n i x nm a =>
    let s := if bTarget then STR_TRUE else STR_FALSE in
    r ← new_data s (strlen s + 1) a;
    let '(d, a) := r in
    nm ← copy_name nm;
    Done (XML_SUCCESS, Some (put_attr n i (XmlAttr nm (match d with Some _ => strlen s | None => 0 end) d)), a)).

(** The length that is passed to [AnscXmlFromBinaryToASCII] is 0. *)
Definition AnscXmlDomNodeSetAttrBinary (sTarget : option mem) (ulSize : Z) (a : alloc_stream) :=
  match hThisObject, sTarget with
  | Some _, Some src =>
      if ulSize =? 0 then Done (XML_INVALID_HANDLE, hThisObject, a)
      else
        with_attr (Some XML_INVALID_LENGTH) a (fun n i x nm a =>
          let '(ok, a) := next_alloc a in
          if negb ok then Done (XML_RESOURCES, Some (put_attr n i (XmlAttr (attr_Name x) (ULONG (ulSize * 2)) None)), a)
          else
            s ← data_bytes (Some src) ulSize;
            d ← buf_copy (replicate (Z.to_nat (ULONG (ulSize * 2 + 1))) 0) 0 s;
            r ← AnscXmlFromBinaryToASCII d 0 a;
            let '(_, d, _, a) := r in
            nm ← copy_name nm;
            Done (XML_SUCCESS, Some (put_attr n i (XmlAttr nm (ULONG (ulSize * 2)) (Some d))), a))
  | _, _ => Done (XML_INVALID_HANDLE, hThisObject, a)
  end.

(** ** Writing the text of a node; its name is not used *)

Definition AnscXmlDomNodeSetDataString (sTarget : option mem) (ulSize : Z) (a : alloc_stream) : outcome (xml_status * option node * alloc_stream) :=
  match hThisObject with
  | None => Done (XML_INVALID_HANDLE, None, a)
  | Some n =>
      r ← AnscXmlEscapeChars sTarget ulSize a;
      let '(d, size, a) := r in Done (XML_SUCCESS, Some (set_data n d size), a)
  end.

(** Sixteen bytes more than the text. *)
Definition set_text (n : node) (s : cstr) (a : alloc_stream) : outcome (xml_status * option node * alloc_stream) :=
  r ← new_data s (strlen s + 16) a;
  let '(d, a) := r in
  Done (XML_SUCCESS, Some (set_data n d (match d with Some _ => strlen s | None => 0 end)), a).

Definition AnscXmlDomNodeSetDataUlong (ulTarget : Z) (a : alloc_stream) : outcome (xml_status * option node * alloc_stream) :=
  match hThisObject with
  | None => Done (XML_INVALID_HANDLE, None, a)
  | Some n => set_text n (AnscXmlLongToString ulTarget) a
  end.

Definition AnscXmlDomNodeSetDataBoolean (bTarget : bool) (a : alloc_stream) : outcome (xml_status * option node * alloc_stream) :=
  match hThisObject with
  | None => Done (XML_INVALID_HANDLE, None, a)
  | Some n => set_text n (if bTarget then STR_TRUE else STR_FALSE) a
  end.

Definition AnscXmlDomNodeSetDataBinary (sTarget : option mem) (ulSize : Z) (a : alloc_stream) : outcome (xml_status * option node * alloc_stream) :=
  match hThisObject, sTarget with
  | Some n, Some src =>
      if ulSize =? 0 then Done (XML_INVALID_HANDLE, hThisObject, a)
      else
        let '(ok, a) := next_alloc a in
        if negb ok then Done (XML_RESOURCES, Some (set_data n None (ULONG (ulSize * 2))), a)
        else
          s ← data_bytes sTarget ulSize;
          d ← buf_copy (replicate (Z.to_nat (ULONG (ulSize * 2 + 16))) 0) 0 s;
          r ← AnscXmlFromBinaryToASCII d ulSize a;
          let '(_, d, _, a) := r in
          Done (XML_SUCCESS, Some (set_data n (Some d) (ULONG (ulSize * 2))), a)
  | _, _ => Done (XML_INVALID_HANDLE, hThisObject, a)
  end.
End set_attr.
End values.

(** ** Attributes by name *)

Lemma attr_named_find n nm : attr_named n nm = list_find (fun x => attr_Name x = nm) (AttributesList n).
Proof.
  unfold attr_named, AnscXmlDomNodeGetAttr. destruct (list_find _ _) as [[i x]|] eqn:E; [|done].
  cbn. apply list_find_Some in E as (-> & _). done.
Qed.

Lemma list_find_put (al : list attribute) nm i x y : list_find (fun x => attr_Name x = nm) al = Some (i, x) -> attr_Name y = nm ->
  list_find (fun x => attr_Name x = nm) (<[i:=y]> al) = Some (i, y) /\
  (forall nm', nm' ≠ nm -> snd <$> list_find (fun x => attr_Name x = nm') (<[i:=y]> al) = snd <$> list_find (fun x => attr_Name x = nm') al).
Proof.
  revert i. induction al as [|z al IH]; intros i Hf Hy; [done|]. cbn [list_find] in Hf. case_decide as Hz.
  - injection Hf as <- <-. split; [cbn; by rewrite decide_True|]. intros nm' Hn. cbn.
    by rewrite !decide_False by congruence.
  - destruct (list_find _ al) as [[j x']|] eqn:E; [|done]. injection Hf as <- <-. destruct (IH j eq_refl Hy) as [H1 H2].
    change (<[S j:=y]> (z :: al)) with (z :: <[j:=y]> al). cbn [list_find].
    split; [by rewrite decide_False, H1|]. intros nm' Hn. case_decide; [done|].
    assert (Hs : forall o : option (nat * attribute), snd <$> (prod_map S id <$> o) = snd <$> o) by by intros [[]|]. rewrite !Hs. by apply H2.
Qed.

Lemma list_find_new (al : list attribute) nm y : list_find (fun x => attr_Name x = nm) al = None -> attr_Name y = nm ->
  list_find (fun x => attr_Name x = nm) (al ++ [y]) = Some (length al, y) /\
  (forall nm', nm' ≠ nm -> list_find (fun x => attr_Name x = nm') (al ++ [y]) = list_find (fun x => attr_Name x = nm') al).
Proof.
  intros Hf Hy. induction al as [|z al IH]; cbn.
  - split; [by rewrite decide_True|]. intros nm' Hn. by rewrite decide_False by congruence.
  - cbn in Hf. case_decide; [done|]. destruct (list_find _ al) eqn:E; [done|]. destruct (IH eq_refl) as [-> H2].
    split; [done|]. intros nm' Hn. case_decide; [done|]. by rewrite H2.
Qed.

(** Only the attribute [nm] differs, which is [x] in the second node. *)
Definition sets_attr (n : node) (nm : cstr) (x : attribute) (n' : node) : Prop :=
  n' = set_attributes n (AttributesList n') /\ snd <$> attr_named n' nm = Some x /\
  forall nm', nm' ≠ nm -> snd <$> attr_named n' nm' = snd <$> attr_named n nm'.

Lemma sets_attr_named n nm x n' : sets_attr n nm x n' -> exists i, attr_named n' nm = Some (i, x).
Proof. intros (_ & E & _). destruct (attr_named n' nm) as [[i y]|]; [|done]. injection E as ->. by eexists. Qed.

Section values_lemmas.
Context `{Platform}.

Lemma with_attr_spec n nm too_long : valid_name nm = true -> strlen nm < MAXIMUM_ATTRIBUTE_NAME ->
  exists n1 i x, (forall k, with_attr (Some n) (Some nm) too_long [] k = k n1 i x nm []) /\
    forall y, attr_Name y = nm -> sets_attr n nm y (put_attr n1 i y).
Proof.
  intros Hv Hl. unfold with_attr, AnscXmlIsValidAttributeName. rewrite Hv, (proj2 (Z.ltb_ge _ _)), andb_false_r by lia.
  cbn [negb]. unfold attr_slot. rewrite attr_named_find. destruct (list_find _ _) as [[i x]|] eqn:E.
  - exists n, i, x. split; [done|]. intros y Hy. destruct (list_find_put _ _ _ _ y E Hy) as [H1 H2]. destruct n as [na l d sz al cs h].
    split; [done|]. split; [|intros nm' Hn]; rewrite !attr_named_find; cbn in *; [by rewrite H1|by apply H2].
  - eexists _, _, _. split; [done|]. intros y Hy. destruct (list_find_new _ _ y E Hy) as [H1 H2]. destruct n as [na l d sz al cs h].
    unfold put_attr. cbn in *. rewrite insert_app_r_alt, Nat.sub_diag by done. cbn [list_insert insert].
    split; [done|]. split; [|intros nm' Hn]; rewrite !attr_named_find; cbn in *; [by rewrite H1|by rewrite H2].
Qed.

Lemma copy_name_short nm : strlen nm < MAXIMUM_ATTRIBUTE_NAME -> copy_name nm = Done nm.
Proof. intros Hl. unfold copy_name. by rewrite (proj2 (Z.leb_gt _ _)). Qed.

(** ** Data *)

Lemma new_data_spec s k : 0 < k -> new_data s (strlen s + k) [] = Done (Some (s ++ replicate (Z.to_nat k) 0), []).
Proof.
  intros Hk. unfold new_data. cbn [next_alloc]. replace (Z.to_nat (strlen s + k)) with (length s + Z.to_nat k)%nat by (unfold strlen; lia).
  rewrite replicate_add. pose proof (buf_copy_at [] (replicate (length s) 0) (replicate (Z.to_nat k) 0) s 0 eq_refl) as Hc.
  cbn [app] in Hc. by rewrite Hc by by rewrite length_replicate.
Qed.

Lemma data_text_spec s k : wf_cstr s -> (0 < k)%nat -> data_text (Some (s ++ replicate k 0)) = Done s.
Proof. intros Hs Hk. destruct k as [|k]; [lia|]. cbn [replicate]. by apply (string_at_spec []). Qed.

Lemma all_bytes_spec ok pre s post : (forall i c, c ∈ s -> Zlen pre <= i -> ok i c = true) ->
  all_bytes ok (pre ++ s ++ post) (Zlen pre) (length s) = Done true.
Proof.
  revert pre. induction s as [|c s IH]; intros pre Hs; [done|]. cbn [length all_bytes].
  rewrite (buf_get_lookup _ (length pre) c) by by apply list_lookup_middle. cbn [mbind outcome_bind].
  rewrite Hs by (set_solver || lia). cbn [negb]. specialize (IH (pre ++ [c])). rewrite <-app_assoc, length_app in IH. cbn [app length] in IH.
  replace (Zlen pre + 1) with (Z.of_nat (length pre + 1)) by lia. apply IH. intros i y Hy Hi. apply Hs; [set_solver|lia].
Qed.

Lemma data_all_spec ok s post : (forall i c, c ∈ s -> 0 <= i -> ok i c = true) -> data_all ok (Some (s ++ post)) (strlen s) = Done true.
Proof. intros Hs. unfold data_all, strlen. rewrite Nat2Z.id. by apply (all_bytes_spec ok []). Qed.

Lemma data_bytes_spec s post : data_bytes (Some (s ++ post)) (Zlen s) = Done s.
Proof. unfold data_bytes. rewrite length_app, (proj2 (Z.ltb_ge _ _)), Nat2Z.id by lia. by rewrite take_app_length. Qed.

(** A string that was escaped is given back, in front of the buffer. *)
Lemma give_escaped s post t n : wf_cstr s -> s ≠ [] -> Zlen (escape s) < n <= Zlen t ->
  exists t', give_string (Zlen (escape s)) (Some (escape s ++ 0 :: post)) (Some t) (Some n) = Done (XML_SUCCESS, Some t', Some (Zlen s)) /\
    string_at t' 0 = Done s.
Proof.
  intros Hs Hne Hn. pose proof (escape_wf s Hs) as He. assert (Hpos : 0 < Zlen (escape s)).
  { destruct s as [|c s]; [done|]. rewrite escape_cons. unfold escape_char. destruct (entity_of_cases c) as [[-> E]|[[-> E]|[[-> E]|[[-> E]|[[-> E]|(_ & _ & E)]]]]]; rewrite E; cbn; lia. }
  unfold give_string. rewrite (proj2 (Z.leb_gt _ _)), (proj2 (Z.ltb_ge n _)), (proj2 (Z.ltb_lt _ n)) by lia.
  rewrite data_bytes_spec. cbn [mbind outcome_bind].
  set (e := escape s) in *.
  pose proof (buf_copy_at [] (take (length e) t) (drop (length e) t) e 0 eq_refl) as Hc. cbn [app] in Hc.
  rewrite take_drop in Hc. rewrite Hc by (rewrite length_take; lia). cbn [mbind outcome_bind].
  destruct (drop (length e) t) as [|o r] eqn:Ed; [apply (f_equal length) in Ed; rewrite length_drop in Ed; cbn in Ed; lia|].
  rewrite buf_put_at by done. cbn [mbind outcome_bind].
  pose proof (RemoveCharReference_run e r He) as Hr. unfold e in Hr at 1. rewrite unescape_escape in Hr by done.
  destruct Hr as (chg & -> & _). cbn [mbind outcome_bind]. eexists. split; [done|].
  destruct (length e - length s)%nat; by apply (string_at_spec []).
Qed.

(** ** Numbers *)

Lemma LongToString_spec v : 0 <= v < 2 ^ ulong_bits -> decimal v (AnscXmlLongToString v).
Proof.
  intros Hv. unfold AnscXmlLongToString. rewrite ULONG_small by done.
  destruct (Z.eq_dec v 0) as [->|]; [by vm_compute; split_and!; [repeat constructor|done|eexists _, _]|].
  apply fmt_u_decimal. destruct ulong_bits_ok as [E|E]; rewrite E in Hv; cbn in *; lia.
Qed.

Lemma decimal_wf v s : decimal v s -> wf_cstr s.
Proof. intros (Hs & _). eapply Forall_impl; [exact Hs|]. unfold is_digit. cbn. lia. Qed.

Lemma decimal_digits v s : decimal v s -> forall i c, c ∈ s -> 0 <= i -> digit_at i c = true.
Proof.
  intros (Hs & _) i c Hc _. rewrite Forall_forall in Hs. specialize (Hs c Hc). unfold is_digit in Hs.
  unfold digit_at, AnscXmlIsDigit. rewrite (proj2 (Z.leb_le _ _)), (proj2 (Z.leb_le _ _)) by lia. done.
Qed.

Lemma decimal_not_minus v s : decimal v s -> forall i c, c ∈ s -> 0 <= i -> (i =? 0) && (c =? 45) || AnscXmlIsDigit c = true.
Proof. intros Hd i c Hc Hi. pose proof (decimal_digits v s Hd i c Hc Hi) as E. unfold digit_at in E. by rewrite E, orb_true_r. Qed.

Lemma decimal_pos v s : decimal v s -> 0 < strlen s.
Proof. intros (_ & _ & c & r & -> & _). unfold strlen. cbn. lia. Qed.


Lemma same_text_refl s : same_text s s = true.
Proof. unfold same_text, AnscEqualString1. by apply bool_decide_eq_true. Qed.

Lemma read_boolean_spec (b : bool) k : (0 < k)%nat ->
  read_boolean (Some ((if b then STR_TRUE else STR_FALSE) ++ replicate k 0)) = Done (Some b).
Proof.
  intros Hk. unfold read_boolean. rewrite data_text_spec by (done || destruct b; repeat constructor; lia).
  by destruct b.
Qed.

(** Text that can be kept: what [AnscXmlEscapeChars] has room for. *)
Definition escapable (s : cstr) : Prop :=
  wf_cstr s /\ s ≠ [] /\ 6 * Zlen s + 16 < 2 ^ ulong_bits /\
  Zlen (filter (fun c => c = 38) s) - Zlen (filter (fun c => c = 60) s) <= 15.

Lemma escapable_block s post : escapable s ->
  exists post', AnscXmlEscapeChars (Some (s ++ 0 :: post)) (Zlen s) [] = Done (Some (escape s ++ 0 :: post'), Zlen (escape s), []).
Proof. intros (Hs & Hne & Hfit & Hamp). by apply EscapeChars_block. Qed.

(** An attribute gives back what was written to it, a string, a number or a
    truth value, for a valid name shorter than its buffer: writing succeeds, a
    new attribute is made or the old one replaced, and every other attribute
    and the rest of the node are as before.  A string needs a buffer with room
    for its escaped form and a byte. *)
Theorem xml_attribute_values n nm (Hv : valid_name nm = true) (Hl : strlen nm < MAXIMUM_ATTRIBUTE_NAME) :
  (forall s post, escapable s -> exists x n',
     AnscXmlDomNodeSetAttrString (Some n) (Some nm) (Some (s ++ 0 :: post)) (Zlen s) [] = Done (XML_SUCCESS, Some n', []) /\
     sets_attr n nm x n' /\
     forall t size, Zlen (escape s) < size <= Zlen t -> exists t',
       AnscXmlDomNodeGetAttrString (Some n') nm (Some t) (Some size) = Done (XML_SUCCESS, Some t', Some (Zlen s)) /\
       string_at t' 0 = Done s) /\
  (forall v, 0 <= v < 2 ^ ulong_bits -> exists x n',
     AnscXmlDomNodeSetAttrUlong (Some n) (Some nm) v [] = Done (XML_SUCCESS, Some n', []) /\ sets_attr n nm x n' /\
     forall old, v < 2 ^ 63 -> AnscXmlDomNodeGetAttrUlong (Some n') nm (Some old) = Done (XML_SUCCESS, Some v)) /\
  (forall b : bool, exists x n',
     AnscXmlDomNodeSetAttrBoolean (Some n) (Some nm) b [] = Done (XML_SUCCESS, Some n', []) /\ sets_attr n nm x n' /\
     forall old, AnscXmlDomNodeGetAttrBoolean (Some n') nm (Some old) = Done (XML_SUCCESS, Some b)).
Proof.
  split_and!.
  - intros s post Hs. destruct (escapable_block s post Hs) as [post' E]. destruct Hs as (Hs & Hne & _).
    destruct (with_attr_spec n nm None Hv Hl) as (n1 & i & x & Hk & Hput). unfold AnscXmlDomNodeSetAttrString.
    rewrite Hk, E. cbn [mbind outcome_bind]. rewrite copy_name_short by done. cbn [mbind outcome_bind].
    eexists _, _. split; [done|]. split; [by apply Hput|]. intros t size Hsize.
    destruct (sets_attr_named _ _ _ _ (Hput (XmlAttr nm (Zlen (escape s)) (Some (escape s ++ 0 :: post'))) eq_refl)) as [j Hj].
    unfold AnscXmlDomNodeGetAttrString. rewrite Hj. by apply give_escaped.
  - intros v Hvr. pose proof (LongToString_spec v Hvr) as Hd. set (d := AnscXmlLongToString v) in *.
    destruct (with_attr_spec n nm (Some XML_INTERNAL_ERROR) Hv Hl) as (n1 & i & x & Hk & Hput). unfold AnscXmlDomNodeSetAttrUlong.
    rewrite Hk. fold d. rewrite (new_data_spec d 1) by lia. cbn [mbind outcome_bind]. rewrite copy_name_short by done. cbn [mbind outcome_bind].
    eexists _, _. split; [done|]. split; [by apply Hput|]. intros old Hv63.
    destruct (sets_attr_named _ _ _ _ (Hput (XmlAttr nm (strlen d) (Some (d ++ replicate (Z.to_nat 1) 0))) eq_refl)) as [j Hj].
    unfold AnscXmlDomNodeGetAttrUlong. rewrite Hj. cbn [attr_DataSize attr_StringData].
    rewrite data_all_spec by by eapply decimal_digits. cbn [mbind outcome_bind negb give_number].
    rewrite data_text_spec by (by eapply decimal_wf || lia). cbn [mbind outcome_bind].
    by rewrite (atoll_decimal v), ULONG_small by (done || lia).
  - intros b. destruct (with_attr_spec n nm (Some XML_INTERNAL_ERROR) Hv Hl) as (n1 & i & x & Hk & Hput). unfold AnscXmlDomNodeSetAttrBoolean.
    rewrite Hk. set (d := if b then STR_TRUE else STR_FALSE). rewrite (new_data_spec d 1) by lia.
    cbn [mbind outcome_bind]. rewrite copy_name_short by done. cbn [mbind outcome_bind].
    eexists _, _. split; [done|]. split; [by apply Hput|]. intros old.
    destruct (sets_attr_named _ _ _ _ (Hput (XmlAttr nm (strlen d) (Some (d ++ replicate (Z.to_nat 1) 0))) eq_refl)) as [j Hj].
    unfold AnscXmlDomNodeGetAttrBoolean. rewrite Hj. cbn [attr_StringData]. unfold give_boolean. unfold d.
    by rewrite read_boolean_spec by lia.
Qed.

(** ** Binary data *)

Lemma buf_put_same m i c : buf_get m i = Done c -> buf_put m i c = Done m.
Proof.
  unfold buf_get. destruct (Z.ltb_spec i 0); [done|]. destruct (m !! Z.to_nat i) eqn:E; [|done]. intros [= ->].
  rewrite <-(take_drop_middle _ _ _ E) at 1.
  rewrite buf_put_at; [by rewrite take_drop_middle|]. apply lookup_lt_Some in E. rewrite length_take. lia.
Qed.

Lemma CombineTokens_none s post skip : (forall c, c ∈ s -> AnscXmlCharInString skip c = false) ->
  AnscXmlCombineTokens (s ++ post) (Zlen s) skip = Done (s ++ post, Zlen s).
Proof.
  intros Hs. unfold AnscXmlCombineTokens. rewrite Nat2Z.id.
  match goal with |- for_from 0 _ ?body _ = _ => destruct (for_from_inv (fun i r => r = (s ++ post, i)) body 0 (length s) (s ++ post, 0)) as (r & -> & ->); [done| |] end.
  - intros j r Hj ->. destruct (lookup_lt_is_Some_2 s (Z.to_nat j)) as [c Hc]; [lia|].
    assert (Hg : buf_get (s ++ post) j = Done c) by (apply buf_get_Z; [lia|by rewrite lookup_app_l by lia]).
    rewrite Hg. cbn [mbind outcome_bind]. rewrite Hs by by eapply list_elem_of_lookup_2. cbn [negb].
    rewrite (buf_put_same _ _ _ Hg). by eexists.
  - by rewrite Z.add_0_l.
Qed.

Lemma hex_digit_valid d : 0 <= d < 16 -> AnscXmlIsValidBinaryChar (hex_digit_of d) = true /\ AnscXmlCharInString [9; 10] (hex_digit_of d) = false.
Proof.
  intros Hd. assert (Hall : forallb (fun d => AnscXmlIsValidBinaryChar (hex_digit_of d) && negb (AnscXmlCharInString [9; 10] (hex_digit_of d))) (seqZ 0 16) = true) by by vm_compute.
  rewrite forallb_forall in Hall. specialize (Hall d). rewrite andb_true_iff, negb_true_iff in Hall. apply Hall.
  apply list_elem_of_In, elem_of_seqZ. lia.
Qed.

Lemma to_hex_chars data c : Forall is_byte data -> c ∈ to_hex data -> AnscXmlIsValidBinaryChar c = true /\ AnscXmlCharInString [9; 10] c = false.
Proof.
  intros Hd. rewrite to_hex_nibbles, list_elem_of_fmap. intros (d & -> & Hin). apply hex_digit_valid.
  pose proof (nibble_range data Hd) as Hn. rewrite Forall_forall in Hn. by apply Hn.
Qed.

Lemma hex_data_combined data post : Forall is_byte data ->
  combine_data (Some (to_hex data ++ post)) (2 * Zlen data) = Done (Some (to_hex data ++ post), 2 * Zlen data) /\
  hex_data (Some (to_hex data ++ post)) (2 * Zlen data) = Done true.
Proof.
  intros Hd. pose proof (to_hex_length data) as Hl. replace (2 * Zlen data) with (Zlen (to_hex data)) by lia. unfold combine_data, hex_data. split.
  - by rewrite CombineTokens_none by (intros c Hc; by apply (to_hex_chars data c)).
  - replace (Zlen (to_hex data) mod 2) with 0 by (rewrite Hl, Nat2Z.inj_mul, Z.mul_comm, Z.mod_mul; lia). cbn [Z.eqb negb].
    apply data_all_spec. intros i c Hc _. by apply (to_hex_chars data c).
Qed.

Lemma SetDataBinary_run n data : Forall is_byte data -> data ≠ [] -> 2 * Zlen data + 16 < 2 ^ ulong_bits ->
  AnscXmlDomNodeSetDataBinary (Some n) (Some data) (Zlen data) [] =
  Done (XML_SUCCESS, Some (set_data n (Some (to_hex data ++ replicate 16 0)) (2 * Zlen data)), []).
Proof.
  intros Hd Hne Hfit. assert (0 < Zlen data) by (destruct data; [done|cbn; lia]).
  unfold AnscXmlDomNodeSetDataBinary. rewrite (proj2 (Z.eqb_neq _ _)) by lia. cbn [next_alloc negb].
  rewrite !ULONG_small by lia. unfold data_bytes. rewrite Z.ltb_irrefl, Nat2Z.id, take_ge by done. cbn [mbind outcome_bind].
  replace (Z.to_nat (Zlen data * 2 + 16)) with (length data + (length data + 16))%nat by lia. rewrite replicate_add.
  pose proof (buf_copy_at [] (replicate (length data) 0) (replicate (length data + 16) 0) data 0 eq_refl) as Hc.
  cbn [app] in Hc. rewrite Hc by by rewrite length_replicate. cbn [mbind outcome_bind].
  rewrite AnscXmlFromBinaryToASCII_run by (done || lia || rewrite length_replicate; lia). cbn [mbind outcome_bind next_alloc snd].
  rewrite drop_replicate. replace (length data + 16 - length data)%nat with 16%nat by lia. by replace (Zlen data * 2) with (2 * Zlen data) by lia.
Qed.

(** The text of a node gives back what was written to it, a string, a number,
    a truth value or binary data, and nothing else of the node changes.  A
    number is given back when it fits a signed 64-bit integer, as a signed
    long when it fits that; binary data when [*pulSize] is exactly the number
    of its digits. *)
Theorem xml_text_values n :
  (forall s post, escapable s -> exists d k,
     AnscXmlDomNodeSetDataString (Some n) (Some (s ++ 0 :: post)) (Zlen s) [] = Done (XML_SUCCESS, Some (set_data n d k), []) /\
     forall t size, Zlen (escape s) < size <= Zlen t -> exists t',
       AnscXmlDomNodeGetDataString (Some (set_data n d k)) (Some t) (Some size) = Done (XML_SUCCESS, Some t', Some (Zlen s)) /\
       string_at t' 0 = Done s) /\
  (forall v, 0 <= v < 2 ^ ulong_bits -> exists d k,
     AnscXmlDomNodeSetDataUlong (Some n) v [] = Done (XML_SUCCESS, Some (set_data n d k), []) /\
     (forall old, v < 2 ^ 63 -> AnscXmlDomNodeGetDataUlong (Some (set_data n d k)) (Some old) = Done (XML_SUCCESS, Some v)) /\
     (forall old, v < 2 ^ (ulong_bits - 1) -> AnscXmlDomNodeGetDataLong (Some (set_data n d k)) (Some old) = Done (XML_SUCCESS, Some v))) /\
  (forall b : bool, exists d k,
     AnscXmlDomNodeSetDataBoolean (Some n) b [] = Done (XML_SUCCESS, Some (set_data n d k), []) /\
     forall old, AnscXmlDomNodeGetDataBoolean (Some (set_data n d k)) (Some old) = Done (XML_SUCCESS, Some b)) /\
  (forall data, Forall is_byte data -> data ≠ [] -> 2 * Zlen data + 16 < 2 ^ ulong_bits -> exists d,
     AnscXmlDomNodeSetDataBinary (Some n) (Some data) (Zlen data) [] = Done (XML_SUCCESS, Some (set_data n d (2 * Zlen data)), []) /\
     forall t, 2 * Zlen data <= Zlen t -> exists t',
       AnscXmlDomNodeGetDataBinary (Some (set_data n d (2 * Zlen data))) (Some t) (2 * Zlen data) [] =
         Done (XML_SUCCESS, Some (set_data n d (2 * Zlen data)), Some t', Zlen data, []) /\
       take (length data) t' = data).
Proof.
  assert (HD : forall d k, DataSize (set_data n d k) = k) by by destruct n.
  assert (HS : forall d k, StringData (set_data n d k) = d) by by destruct n.
  split_and!.
  - intros s post Hs. destruct (escapable_block s post Hs) as [post' E]. destruct Hs as (Hs & Hne & _).
    unfold AnscXmlDomNodeSetDataString. rewrite E. cbn [mbind outcome_bind]. eexists _, _. split; [done|].
    intros t size Hsize. unfold AnscXmlDomNodeGetDataString. rewrite HD, HS. by apply give_escaped.
  - intros v Hvr. pose proof (LongToString_spec v Hvr) as Hd. set (d := AnscXmlLongToString v) in *.
    unfold AnscXmlDomNodeSetDataUlong, set_text. fold d. rewrite (new_data_spec d 16) by lia. cbn [mbind outcome_bind].
    eexists _, _. split; [done|]. unfold AnscXmlDomNodeGetDataUlong, AnscXmlDomNodeGetDataLong.
    rewrite HD, HS, (proj2 (Z.leb_gt _ _)) by by eapply decimal_pos. unfold give_number. rewrite data_text_spec by (by eapply decimal_wf || lia).
    split; intros old Hmax.
    + rewrite data_all_spec by by eapply decimal_digits. cbn [mbind outcome_bind negb].
      by rewrite (atoll_decimal v), ULONG_small by (done || lia).
    + rewrite data_all_spec by by eapply decimal_not_minus. cbn [mbind outcome_bind negb].
      assert (v < 2 ^ 63) by (destruct ulong_bits_ok as [E|E]; rewrite E in Hmax; cbn in *; lia).
      rewrite (atoll_decimal v) by (done || lia). rewrite LONG_id by (destruct ulong_bits_ok as [E|E]; rewrite E in *; lia).
      destruct Hd as (Hdig & _ & c & r & Ed & _). rewrite Ed. rewrite (buf_get_lookup _ 0 c) by done. cbn [mbind outcome_bind].
      rewrite (proj2 (Z.ltb_ge v 0)), andb_false_r by lia. done.
  - intros b. unfold AnscXmlDomNodeSetDataBoolean, set_text. set (d := if b then STR_TRUE else STR_FALSE). rewrite (new_data_spec d 16) by lia.
    cbn [mbind outcome_bind]. eexists _, _. split; [done|]. intros old. unfold AnscXmlDomNodeGetDataBoolean.
    rewrite HD, HS. unfold give_boolean, d. rewrite read_boolean_spec by lia. by destruct b.
  - intros data Hd Hne Hfit. rewrite SetDataBinary_run by done. eexists. split; [done|]. intros t Ht.
    pose proof (to_hex_length data) as Hl. destruct (hex_data_combined data (replicate 16 0) Hd) as [E1 E2].
    unfold AnscXmlDomNodeGetDataBinary. rewrite HD, HS.
    rewrite (proj2 (Z.leb_gt _ _)) by (destruct data; [done|cbn; lia]). rewrite E1. cbn [mbind outcome_bind]. rewrite E2. cbn [mbind outcome_bind negb].
    assert (Hb : data_bytes (Some (to_hex data ++ replicate 16 0)) (2 * Zlen data) = Done (to_hex data)).
    { replace (2 * Zlen data) with (Zlen (to_hex data)) by lia. apply data_bytes_spec. }
    rewrite Hb. cbn [mbind outcome_bind].
    pose proof (buf_copy_at [] (take (length (to_hex data)) t) (drop (length (to_hex data)) t) (to_hex data) 0 eq_refl) as Hc. cbn [app] in Hc.
    rewrite take_drop in Hc. rewrite Hc by (rewrite length_take; lia). cbn [mbind outcome_bind].
    rewrite AnscXmlFromASCIIToBinary_run by done. cbn [mbind outcome_bind next_alloc snd].
    eexists. split; [|by apply take_app_length]. rewrite (Z.mul_comm 2), Z.div_mul by lia. by destruct n.
Qed.

(** ** Where values are lost *)

Lemma to_binary_split d n k : forall i b, to_binary d i (n + k) b =
  match to_binary d i n b with Done (Some b') => to_binary d (i + Z.of_nat n) k b' | r => r end.
Proof.
  induction n as [|n IH]; intros i b; [by rewrite Z.add_0_r|]. cbn [Nat.add to_binary].
  destruct (buf_get d i) as [c|]; [|done]. cbn [mbind outcome_bind]. destruct (hex_value c); [|done].
  destruct (buf_get b (i / 2)) as [o|]; [|done]. cbn [mbind outcome_bind]. destruct (buf_put b (i / 2) _) as [b'|]; [|done]. cbn [mbind outcome_bind].
  rewrite IH. by replace (i + 1 + Z.of_nat n) with (i + Z.of_nat (S n)) by lia.
Qed.

(** A zero behind the digits is no digit: nothing is converted. *)
Lemma FromASCIIToBinary_zero data post k a : Forall is_byte data -> (next_alloc a).1 = true -> 0 < k ->
  AnscXmlFromASCIIToBinary (to_hex data ++ 0 :: post) (2 * (Zlen data + k)) a =
  Done (XML_INVALID_ATTRIBUTE_VALUE, to_hex data ++ 0 :: post, 2 * (Zlen data + k), (next_alloc a).2).
Proof.
  intros Hd Ha Hk. unfold AnscXmlFromASCIIToBinary. rewrite Z.mul_comm, Z.mod_mul, Z.div_mul by lia. cbn [Z.eqb negb].
  destruct (next_alloc a) as [ok a']. cbn [fst snd] in *. subst ok. cbn [negb].
  replace (Z.to_nat ((Zlen data + k) * 2)) with (2 * length data + Z.to_nat (2 * k))%nat by lia. rewrite to_binary_split.
  pose proof (to_hex_length data) as Hl.
  assert (E : to_binary (to_hex data ++ 0 :: post) 0 (2 * length data) (replicate (Z.to_nat (Zlen data + k)) 0) =
    Done (Some (data ++ replicate (Z.to_nat k) 0))).
  { pose proof (to_binary_tail data [] (0 :: post) [] (replicate (length data) 0) (replicate (Z.to_nat k) 0) Hd) as E. cbn [app length] in E.
    change (Z.of_nat 0) with 0 in E. rewrite <-replicate_add in E. replace (length data + Z.to_nat k)%nat with (Z.to_nat (Zlen data + k)) in E by lia.
    rewrite E; [done|done|by rewrite length_replicate|by apply Forall_replicate]. }
  rewrite E. replace (Z.to_nat (2 * k)) with (S (Z.to_nat (2 * k - 1))) by lia. cbn [to_binary].
  replace (0 + Z.of_nat (2 * length data)) with (Z.of_nat (length (to_hex data))) by lia.
  rewrite (buf_get_lookup _ (length (to_hex data)) 0) by by apply list_lookup_middle. done.
Qed.

(** No reader of an attribute returns [ANSC_STATUS_CANT_FIND]. *)
Ltac any_status := repeat (cbn [mbind outcome_bind]; try done;
  lazymatch goal with |- match ?x with _ => _ end ≫= _ = _ => destruct x | |- (?x ≫= _) ≫= _ = _ => destruct x end).

Lemma ItemString_attr h nm t k : AnscXmlDomNodeGetItemString h nm t k = AnscXmlDomNodeGetAttrString h nm t k.
Proof.
  unfold AnscXmlDomNodeGetItemString, AnscXmlDomNodeGetAttrString, give_string. any_status.
Qed.
Lemma ItemUlong_attr h nm v : AnscXmlDomNodeGetItemUlong h nm v = AnscXmlDomNodeGetAttrUlong h nm v.
Proof. unfold AnscXmlDomNodeGetItemUlong, AnscXmlDomNodeGetAttrUlong, give_number. any_status. Qed.
Lemma ItemBoolean_attr h nm b : AnscXmlDomNodeGetItemBoolean h nm b = AnscXmlDomNodeGetAttrBoolean h nm b.
Proof. unfold AnscXmlDomNodeGetItemBoolean, AnscXmlDomNodeGetAttrBoolean, give_boolean, read_boolean. any_status. Qed.
Lemma ItemBinary_attr h nm t z a : AnscXmlDomNodeGetItemBinary h nm t z a = AnscXmlDomNodeGetAttrBinary h nm t z a.
Proof. unfold AnscXmlDomNodeGetItemBinary, AnscXmlDomNodeGetAttrBinary, combine_data. any_status. Qed.

(** Where the readers and writers do not do what they are named for.  An item
    is never taken from the text of the node: the status the fallback waits for
    is not the one a missing attribute has.  Reading a binary attribute does not
    copy it: a buffer of zeros stays one, with a report of success.  Writing one
    keeps the bytes as they are, not as digits.  Reading binary data with more
    room than the digits need reports success and leaves the digits.  A name of
    64 bytes passes the tests of the writers and is copied past its buffer. *)
Theorem xml_value_faults n nm data (Hv : valid_name nm = true) (Hd : Forall is_byte data) (Hne : data ≠ [])
  (Hfit : 2 * Zlen data + 16 < 2 ^ ulong_bits) :
  (forall h t k v b z a, AnscXmlDomNodeGetItemString h nm t k = AnscXmlDomNodeGetAttrString h nm t k /\
     AnscXmlDomNodeGetItemUlong h nm v = AnscXmlDomNodeGetAttrUlong h nm v /\
     AnscXmlDomNodeGetItemBoolean h nm b = AnscXmlDomNodeGetAttrBoolean h nm b /\
     AnscXmlDomNodeGetItemBinary h nm t z a = AnscXmlDomNodeGetAttrBinary h nm t z a) /\
  (forall post, snd <$> attr_named n nm = Some (XmlAttr nm (2 * Zlen data) (Some (to_hex data ++ post))) -> exists n',
     AnscXmlDomNodeGetAttrBinary (Some n) nm (Some (replicate (2 * length data) 0)) (2 * Zlen data) [] =
     Done (XML_SUCCESS, Some n', Some (replicate (2 * length data) 0), Zlen data, [])) /\
  (strlen nm < MAXIMUM_ATTRIBUTE_NAME -> exists n', AnscXmlDomNodeSetAttrBinary (Some n) (Some nm) (Some data) (Zlen data) [] = Done (XML_SUCCESS, Some n', []) /\
     sets_attr n nm (XmlAttr nm (2 * Zlen data) (Some (data ++ replicate (S (length data)) 0))) n') /\
  (forall post k, 0 < k -> StringData n = Some (to_hex data ++ post) -> DataSize n = 2 * Zlen data -> exists n' t',
     AnscXmlDomNodeGetDataBinary (Some n) (Some (replicate (2 * (length data + Z.to_nat k)) 0)) (2 * (Zlen data + k)) [] =
       Done (XML_SUCCESS, Some n', Some t', Zlen data, []) /\ take (2 * length data) t' = to_hex data) /\
  (strlen nm = MAXIMUM_ATTRIBUTE_NAME -> forall s post v b, escapable s ->
     AnscXmlDomNodeSetAttrString (Some n) (Some nm) (Some (s ++ 0 :: post)) (Zlen s) [] = Stuck OutOfBounds /\
     AnscXmlDomNodeSetAttrUlong (Some n) (Some nm) v [] = Stuck OutOfBounds /\
     AnscXmlDomNodeSetAttrBoolean (Some n) (Some nm) b [] = Stuck OutOfBounds).
Proof.
  pose proof (to_hex_length data) as Hl. assert (Hpos : 0 < Zlen data) by (destruct data; [done|cbn; lia]). split_and!.
  - intros h t k v b z a. split_and!; [apply ItemString_attr|apply ItemUlong_attr|apply ItemBoolean_attr|apply ItemBinary_attr].
  - intros post Hx. unfold AnscXmlDomNodeGetAttrBinary. destruct (attr_named n nm) as [[i x]|]; [|done]. injection Hx as ->.
    cbn [attr_DataSize attr_StringData attr_Name]. rewrite Z.ltb_irrefl. destruct (hex_data_combined data post Hd) as [E1 E2].
    rewrite E1. cbn [mbind outcome_bind]. rewrite E2. cbn [mbind outcome_bind negb].
    pose proof (FromASCIIToBinary_zero [] (replicate (2 * length data - 1) 0) (Zlen data) [] ltac:(constructor) eq_refl Hpos) as E.
    change (to_hex [] ++ 0 :: replicate (2 * length data - 1) 0) with (replicate (S (2 * length data - 1)) 0) in E.
    replace (S (2 * length data - 1)) with (2 * length data)%nat in E by lia. change (Zlen [] + Zlen data) with (Zlen data) in E.
    rewrite E. cbn [mbind outcome_bind next_alloc snd]. eexists. by rewrite (Z.mul_comm 2), Z.div_mul by lia.
  - intros Hs. destruct (with_attr_spec n nm (Some XML_INVALID_LENGTH) Hv Hs) as (n1 & i & x & Hk & Hput).
    unfold AnscXmlDomNodeSetAttrBinary. rewrite (proj2 (Z.eqb_neq _ _)) by lia. rewrite Hk. cbn [next_alloc negb].
    unfold data_bytes. rewrite Z.ltb_irrefl, Nat2Z.id, take_ge by done. cbn [mbind outcome_bind]. rewrite !ULONG_small by lia.
    replace (Z.to_nat (Zlen data * 2 + 1)) with (length data + S (length data))%nat by lia. rewrite replicate_add.
    pose proof (buf_copy_at [] (replicate (length data) 0) (replicate (S (length data)) 0) data 0 eq_refl) as Hc.
    cbn [app] in Hc. rewrite Hc by by rewrite length_replicate. cbn [mbind outcome_bind].
    pose proof (AnscXmlFromBinaryToASCII_run [] (data ++ replicate (S (length data)) 0) [] ltac:(constructor) ltac:(cbn; lia) ltac:(cbn; lia) eq_refl) as E.
    cbn [app length] in E. change (Z.of_nat 0) with 0 in E. rewrite E. cbn [mbind outcome_bind next_alloc snd]. rewrite copy_name_short by done. cbn [mbind outcome_bind].
    eexists. split; [done|]. replace (Zlen data * 2) with (2 * Zlen data) by lia. by apply Hput.
  - intros post k Hk ES ED. destruct (hex_data_combined data post Hd) as [E1 E2].
    unfold AnscXmlDomNodeGetDataBinary. rewrite ED, ES, (proj2 (Z.leb_gt _ _)) by lia. rewrite E1. cbn [mbind outcome_bind]. rewrite E2. cbn [mbind outcome_bind negb].
    assert (Hb : data_bytes (Some (to_hex data ++ post)) (2 * Zlen data) = Done (to_hex data)).
    { replace (2 * Zlen data) with (Zlen (to_hex data)) by lia. apply data_bytes_spec. }
    rewrite Hb. cbn [mbind outcome_bind].
    replace (2 * (length data + Z.to_nat k))%nat with (length (to_hex data) + S (2 * Z.to_nat k - 1))%nat by lia. rewrite replicate_add.
    pose proof (buf_copy_at [] (replicate (length (to_hex data)) 0) (replicate (S (2 * Z.to_nat k - 1)) 0) (to_hex data) 0 eq_refl) as Hc.
    cbn [app] in Hc. rewrite Hc by by rewrite length_replicate. cbn [mbind outcome_bind replicate].
    rewrite FromASCIIToBinary_zero by done. cbn [mbind outcome_bind next_alloc snd]. eexists _, _.
    split; [by rewrite (Z.mul_comm 2), Z.div_mul by lia|]. rewrite <-Hl. by apply take_app_length.
  - intros Hs s post v b Hesc. destruct (escapable_block s post Hesc) as [post' E].
    assert (Hcopy : copy_name nm = Stuck OutOfBounds) by (unfold copy_name; by rewrite (proj2 (Z.leb_le _ _)) by lia).
    assert (Hw : forall tl, exists n1 i x, forall k, with_attr (Some n) (Some nm) tl [] k = k n1 i x nm []).
    { intros tl. unfold with_attr, AnscXmlIsValidAttributeName. rewrite Hv, Hs, Z.ltb_irrefl, andb_false_r. cbn [negb].
      unfold attr_slot. destruct (attr_named n nm) as [[i x]|]; by eexists _, _, _. }
    unfold AnscXmlDomNodeSetAttrString, AnscXmlDomNodeSetAttrUlong, AnscXmlDomNodeSetAttrBoolean.
    destruct (Hw None) as (n1 & i1 & x1 & H1), (Hw (Some XML_INTERNAL_ERROR)) as (n2 & i2 & x2 & H2). rewrite H1, !H2.
    rewrite E, !new_data_spec by lia. cbn [mbind outcome_bind]. by rewrite !Hcopy.
Qed.
End values_lemmas.

(** ** Examples *)

Definition demo_node : node :=
  XmlNode (lit "n") 0 None 0 [XmlAttr (lit "k") 1 (Some (lit "7" ++ [0])); XmlAttr (lit "v") 4 (Some (lit "00FF" ++ [0]))] [] false.
Definition demo_text : cstr := lit "a<b & c".

Lemma demo_escapable `{Platform} : escapable demo_text.
Proof.
  split_and!; [by apply (bool_decide_eq_true_1 (Forall _ _)); vm_compute|done| |by vm_compute].
  change (6 * Zlen demo_text + 16) with 58. destruct ulong_bits_ok as [-> | ->]; by vm_compute.
Qed.

Lemma xml_attribute_values_witness :
  (exists x n', @AnscXmlDomNodeSetAttrUlong ilp32 (Some demo_node) (Some (lit "k")) 4294967295 [] = Done (XML_SUCCESS, Some n', []) /\
     sets_attr demo_node (lit "k") x n' /\
     @AnscXmlDomNodeGetAttrUlong ilp32 (Some n') (lit "k") (Some 5) = Done (XML_SUCCESS, Some 4294967295)) /\
  (exists x n' t', @AnscXmlDomNodeSetAttrString lp64 (Some demo_node) (Some (lit "new")) (Some (demo_text ++ [0])) 7 [] = Done (XML_SUCCESS, Some n', []) /\
     sets_attr demo_node (lit "new") x n' /\
     @AnscXmlDomNodeGetAttrString lp64 (Some n') (lit "new") (Some (replicate 20 1)) (Some 20) = Done (XML_SUCCESS, Some t', Some 7) /\
     string_at t' 0 = Done demo_text).
Proof.
  split.
  - destruct (@xml_attribute_values ilp32 demo_node (lit "k") eq_refl eq_refl) as (_ & Hu & _).
    destruct (Hu 4294967295) as (x & n' & E & Hset & Hget); [by split; vm_compute|].
    exists x, n'. split_and!; [exact E|exact Hset|by apply Hget].
  - destruct (@xml_attribute_values lp64 demo_node (lit "new") eq_refl eq_refl) as (Hs & _ & _).
    destruct (Hs demo_text [] demo_escapable) as (x & n' & E & Hset & Hget).
    destruct (Hget (replicate 20 1) 20) as (t' & E' & Ht); [by split; vm_compute|].
    exists x, n', t'. split_and!; [exact E|exact Hset|exact E'|exact Ht].
Defined.

Lemma xml_text_values_witness :
  (exists d k, @AnscXmlDomNodeSetDataUlong lp64 (Some demo_node) 1234567890123 [] = Done (XML_SUCCESS, Some (set_data demo_node d k), []) /\
     @AnscXmlDomNodeGetDataLong lp64 (Some (set_data demo_node d k)) (Some 0) = Done (XML_SUCCESS, Some 1234567890123)) /\
  (exists d t', @AnscXmlDomNodeSetDataBinary ilp32 (Some demo_node) (Some [222; 173; 190; 239]) 4 [] = Done (XML_SUCCESS, Some (set_data demo_node d 8), []) /\
     AnscXmlDomNodeGetDataBinary (Some (set_data demo_node d 8)) (Some (replicate 8 0)) 8 [] =
       Done (XML_SUCCESS, Some (set_data demo_node d 8), Some t', 4, []) /\ take 4 t' = [222; 173; 190; 239]).
Proof.
  split.
  - destruct (@xml_text_values lp64 demo_node) as (_ & Hu & _ & _).
    destruct (Hu 1234567890123) as (d & k & E & _ & Hl); [by split; vm_compute|].
    exists d, k. split; [exact E|by apply Hl].
  - destruct (@xml_text_values ilp32 demo_node) as (_ & _ & _ & Hb).
    destruct (Hb [222; 173; 190; 239]) as (d & E & Hget);
      [by apply (bool_decide_eq_true_1 (Forall _ _)); vm_compute|done|by vm_compute|].
    destruct (Hget (replicate 8 0)) as (t' & E' & Ht); [by vm_compute|]. exists d, t'. split_and!; [exact E|exact E'|exact Ht].
Defined.

Lemma xml_value_faults_witness :
  (exists n', AnscXmlDomNodeGetAttrBinary (Some demo_node) (lit "v") (Some (replicate 4 0)) 4 [] =
     Done (XML_SUCCESS, Some n', Some (replicate 4 0), 2, [])) /\
  (forall b, AnscXmlDomNodeSetAttrBoolean (Some demo_node) (Some (replicate 64 97)) b [] = Stuck OutOfBounds).
Proof.
  assert (Hd : Forall is_byte [0; 255]) by (by apply (bool_decide_eq_true_1 (Forall _ _)); vm_compute).
  split.
  - destruct (@xml_value_faults lp64 demo_node (lit "v") [0; 255] eq_refl Hd ltac:(done) ltac:(by vm_compute)) as (_ & Hg & _).
    apply (Hg [0]). by vm_compute.
  - intros b. destruct (@xml_value_faults lp64 demo_node (replicate 64 97) [0; 255] ltac:(by vm_compute) Hd ltac:(done) ltac:(by vm_compute)) as (_ & _ & _ & _ & Hl).
    by destruct (Hl ltac:(by vm_compute) demo_text [] 0 b demo_escapable) as (_ & _ & Hb).
Defined.

(** Numbers at the edges: what does not fit a signed 64-bit integer is clipped,
    and a long of 32 bits drops the upper half of what it reads. *)
Definition text_node (s : cstr) : node := XmlNode (lit "n") 0 (Some (s ++ [0])) (strlen s) [] [] false.
Example ulong_clipped : @AnscXmlDomNodeGetDataUlong lp64 (Some (text_node (lit "18446744073709551615"))) (Some 0) = Done (XML_SUCCESS, Some 9223372036854775807).
Proof. by vm_compute. Qed.
Example ulong_dropped : @AnscXmlDomNodeGetDataUlong ilp32 (Some (text_node (lit "4294967297"))) (Some 0) = Done (XML_SUCCESS, Some 1).
Proof. by vm_compute. Qed.
Example long_negative : @AnscXmlDomNodeGetDataLong ilp32 (Some (text_node (lit "-12"))) (Some 0) = Done (XML_SUCCESS, Some (-12)) /\
  @AnscXmlDomNodeGetDataLong ilp32 (Some (text_node (lit "2147483648"))) (Some 0) = Done (XML_INVALID_TEXT_VALUE, Some (-2147483648)).
Proof. split; by vm_compute. Qed.
Example text_unterminated : @AnscXmlDomNodeGetDataString lp64 (Some (text_node (lit "a&lt;b"))) (Some (replicate 6 1)) (Some 6) = Stuck OutOfBounds.
Proof. by vm_compute. Qed.
Example text_never_read : @AnscXmlDomNodeGetDataString lp64 (Some (text_node (lit "AT&T"))) (Some (replicate 6 1)) (Some 6) = Stuck Diverge.
Proof. by vm_compute. Qed.
