(* ===== verification/AliasTree.v ===== *)
(** * The trees of the alias manager ([CCSP_AliasMgr], building)

    An alias manager maps the external names of parameters to internal ones
    and back with two trees.  A node of a tree has the aliases of the name that
    is spelled by the path from the root to the node, one segment per node.
    This file holds the nodes, the lists of strings, and the insertion of an
    alias, and shows that insertion is an update of a finite map from paths. *)

From S2P Require Import Prelude CStrings Tokens.
Open Scope Z_scope.

Definition CCSP_Alias_Mgr_Name_Length : Z := 256.
Abbreviation dot := (lit ".").

(** A pointer to a node with all it leads to; [NoEntry] is NULL.  A node is
    reached by one pointer only, so that a tree is its value.  [Parent] is
    written and never used. *)
Inductive CCSP_ALIAS_MNGR_ALIAS_ENTRY :=
  | NoEntry
  | Entry (Name : option cstr) (Aliases StrictAliases : list (option cstr)) (PartialName : bool)
      (Child Sibling : CCSP_ALIAS_MNGR_ALIAS_ENTRY).
Abbreviation entry := CCSP_ALIAS_MNGR_ALIAS_ENTRY.

Implicit Types (t e : entry) (l : list (option cstr)) (a : alloc_stream).

Definition Child e : entry := match e with NoEntry => NoEntry | Entry _ _ _ _ c _ => c end.
Definition Sibling e : entry := match e with NoEntry => NoEntry | Entry _ _ _ _ _ s => s end.
Definition Aliases e : list (option cstr) := match e with NoEntry => [] | Entry _ al _ _ _ _ => al end.
Definition StrictAliases e : list (option cstr) := match e with NoEntry => [] | Entry _ _ st _ _ _ => st end.

(** A node is named by the way to it from the root. *)
Inductive move := ToChild | ToSibling.
Abbreviation pos := (list move).

Fixpoint at_ t (p : pos) : entry :=
  match p with
  | [] => t
  | ToChild :: p' => at_ (Child t) p'
  | ToSibling :: p' => at_ (Sibling t) p'
  end.
Fixpoint upd t (p : pos) (f : entry -> entry) {struct p} : entry :=
  match p, t with
  | [], _ => f t
  | _, NoEntry => NoEntry
  | ToChild :: p', Entry n al st pa c s => Entry n al st pa (upd c p' f) s
  | ToSibling :: p', Entry n al st pa c s => Entry n al st pa c (upd s p' f)
  end.

Definition set_Child (x : entry) e : entry :=
  match e with NoEntry => NoEntry | Entry n al st pa _ s => Entry n al st pa x s end.
Definition set_Sibling (x : entry) e : entry :=
  match e with NoEntry => NoEntry | Entry n al st pa c _ => Entry n al st pa c x end.
Definition set_PartialName (b : bool) e : entry :=
  match e with NoEntry => NoEntry | Entry n al st _ c s => Entry n al st b c s end.
Definition set_Aliases l e : entry :=
  match e with NoEntry => NoEntry | Entry n _ st pa c s => Entry n l st pa c s end.
Definition set_StrictAliases l e : entry :=
  match e with NoEntry => NoEntry | Entry n al _ pa c s => Entry n al l pa c s end.

(** ** Lists of strings

    [SLIST_HEADER]s of [CCSP_STRING_SINGLE_LINK_LIST_ENTRY], first entry first;
    a value may be NULL.  [Depth] has 16 bits. *)

Definition StringSListPushEntry l (value : option cstr) a : bool * list (option cstr) * alloc_stream :=
  let '(ok, a) := next_alloc a in
  if ok then (true, value :: l, a) else (false, l, a).

(** [strcmp] of a NULL value is a fault. *)
Fixpoint StringSListFind l (s : cstr) : outcome bool :=
  match l with
  | [] => Done false
  | None :: _ => Stuck NullDeref
  | Some v :: l' => if bool_decide (v = s) then Done true else StringSListFind l' s
  end.

Definition StringSListIsEmpty l : bool := USHORT (Zlen l) =? 0.

(** Yields the values it frees, then the list. *)
Fixpoint StringSListRemoveAll l : list cstr * list (option cstr) :=
  match l with
  | [] => ([], [])
  | v :: l' => let '(freed, l') := StringSListRemoveAll l' in (option_list v ++ freed, l')
  end.

(** ** Building a tree *)

(** [AnscCatString] to a buffer of [size] bytes. *)
Definition AnscCatString (size : Z) (dest src : cstr) : outcome cstr :=
  if strlen dest + strlen src <? size then Done (dest ++ src) else Stuck OutOfBounds.

(** A node from [AnscAllocateMemory] is zeroed. *)
Definition CcspAliasMgrEnsureTree t a : bool * entry * alloc_stream :=
  match t with
  | NoEntry =>
      let '(ok, a) := next_alloc a in
      if ok then (true, Entry None [] [] true NoEntry NoEntry, a) else (false, NoEntry, a)
  | Entry _ _ _ _ _ _ => (true, t, a)
  end.

(** The code that builds works on the tree and allocates. *)
Abbreviation TM := (CM (entry * alloc_stream)).
Definition allocating {A} (f : alloc_stream -> outcome (A * alloc_stream)) : TM A :=
  fun '(t, a) => match f a with Done (x, a) => Done (x, (t, a)) | Stuck f => Stuck f end.
Definition lift {A} (m : outcome A) : TM A :=
  fun s => match m with Done x => Done (x, s) | Stuck f => Stuck f end.
Definition the_tree : TM entry := fun '(t, a) => Done (t, (t, a)).
Definition update (p : pos) (f : entry -> entry) : TM unit := fun '(t, a) => Done (tt, (upd t p f, a)).

(** The scan of the siblings for a name: the child found and the sibling
    visited before the scan ended. *)
Fixpoint find_child (pChildNode : entry) (p : pos) (pNodeName : cstr) (pPrevSibling : option pos)
  : outcome (option pos * option pos) :=
  match pChildNode with
  | NoEntry => Done (None, pPrevSibling)
  | Entry None _ _ _ _ _ => Stuck NullDeref
  | Entry (Some n) _ _ _ _ s =>
      if bool_decide (pNodeName = n) then Done (Some p, pPrevSibling)
      else find_child s (p ++ [ToSibling]) pNodeName (Some p)
  end.

(** The [do] loop: a node for the token and for each that follows.  NULL when
    an allocation of a node fails. *)
Fixpoint make_nodes (pStringToken : ANSC_STRING_TOKEN) (pNsTokenChain : ANSC_TOKEN_CHAIN)
    (pNode : pos) (pPrevSibling : option pos) : TM (option pos) :=
  pNodeName ← lift (token_name pStringToken);
  ok ← allocating (fun a => Done (next_alloc a));
  if negb ok then mret None
  else
    name ← allocating (fun a => Done (AnscCloneString (Some pNodeName) a));
    let node := Entry name [] [] false NoEntry NoEntry in
    _ ← match pPrevSibling with
        | Some prev => update prev (set_Sibling node)
        | None => update pNode (set_Child node)
        end;
    let pChildNode := match pPrevSibling with Some prev => prev ++ [ToSibling] | None => pNode ++ [ToChild] end in
    match pNsTokenChain with
    | [] => mret (Some pChildNode)
    | next :: pNsTokenChain => make_nodes next pNsTokenChain pChildNode None
    end.

Section build.
(** [CcspAliasMgrAliasTreeAddItem], which calls and is called by the function
    below. *)
Variable AddItem : option cstr -> option cstr -> bool -> TM bool.

(** What the [while] loop does with a segment of the alias: None when the
    names do not fit and the loop is left, otherwise the buffers and
    [bAddAux]. *)
Definition partial_names (Name pNodeName : cstr) (alias : option ANSC_STRING_TOKEN)
    (pPartialName pPartialAlias : cstr) (bAddAux : bool) : TM (option (cstr * cstr * bool)) :=
  match alias with
  | None => mret (Some (pPartialName, pPartialAlias, bAddAux))
  | Some tok =>
      pAliasNodeName ← lift (token_name tok);
      if (CCSP_Alias_Mgr_Name_Length <? strlen pPartialName + 1 + strlen pNodeName)
         || (CCSP_Alias_Mgr_Name_Length <? strlen pPartialAlias + 1 + strlen pAliasNodeName)
      then mret None
      else
        let size := CCSP_Alias_Mgr_Name_Length + 1 in
        pPartialName ← lift (if 0 <? strlen pPartialName then AnscCatString size pPartialName dot else Done pPartialName);
        pPartialName ← lift (AnscCatString size pPartialName pNodeName);
        pPartialAlias ← lift (if 0 <? strlen pPartialAlias then AnscCatString size pPartialAlias dot else Done pPartialAlias);
        pPartialAlias ← lift (AnscCatString size pPartialAlias pAliasNodeName);
        let bAddAux := bAddAux || negb (bool_decide (pNodeName = pAliasNodeName)) in
        _ ← (if bAddAux && negb (bool_decide (pPartialName = Name))
             then AddItem (Some pPartialName) (Some pPartialAlias) true else mret true);
        mret (Some (pPartialName, pPartialAlias, bAddAux))
  end.

(** The [while] loop and what follows it; [pAliasTokenChain] is None when it is
    NULL. *)
Fixpoint find_make (Name : cstr) (pNsTokenChain : ANSC_TOKEN_CHAIN) (pAliasTokenChain : option ANSC_TOKEN_CHAIN)
    (pPartialName pPartialAlias : cstr) (bAddAux : bool) (pNode : pos) (pChildNode : option pos)
  : TM (option pos) :=
  t ← the_tree;
  match at_ t pNode, pNsTokenChain with
  | NoEntry, _ => mret pChildNode
  | _, [] => mret pChildNode
  | _, pStringToken :: pNsTokenChain =>
      pNodeName ← lift (token_name pStringToken);
      let alias := c ← pAliasTokenChain; head c in
      partial ← partial_names Name pNodeName alias pPartialName pPartialAlias bAddAux;
      match partial with
      | None => mret pChildNode
      | Some (pPartialName, pPartialAlias, bAddAux) =>
          t ← the_tree;
          r ← lift (find_child (Child (at_ t pNode)) (pNode ++ [ToChild]) pNodeName None);
          match r with
          | (Some pChildNode, _) =>
              find_make Name pNsTokenChain (tail <$> pAliasTokenChain) pPartialName pPartialAlias bAddAux
                pChildNode (Some pChildNode)
          | (None, pPrevSibling) => make_nodes pStringToken pNsTokenChain pNode pPrevSibling
          end
      end
  end.

Definition CcspAliasMgrFindMakeNode (Name : cstr) (Alias : cstr) (bStrict : bool) : TM (option pos) :=
  pNsTokenChain ← allocating (AnscTcAllocate (Some Name) dot);
  match pNsTokenChain with
  | None => mret None
  | Some pNsTokenChain =>
      if bStrict then find_make Name pNsTokenChain None [] [] false [] None
      else
        pAliasTokenChain ← allocating (AnscTcAllocate (Some Alias) dot);
        match pAliasTokenChain with
        | None => mret None
        | Some _ => find_make Name pNsTokenChain pAliasTokenChain [] [] false [] None
        end
  end.
End build.

Definition valid_name (Name : option cstr) : option cstr :=
  match Name with
  | None => None
  | Some n =>
      if (deref n =? 0) || (deref n =? 46) then None
      else match strstr n (lit "..") with Some _ => None | None => Some n end
  end.

(** Pushes a copy of [Alias] to a list of the node unless the list has it; the
    result of the push is ignored. *)
Definition push_alias (get : entry -> list (option cstr)) (set : list (option cstr) -> entry -> entry)
    (pChildNode : pos) (Alias : cstr) : TM unit :=
  t ← the_tree;
  found ← lift (StringSListFind (get (at_ t pChildNode)) Alias);
  if (found : bool) then mret tt
  else
    v ← allocating (fun a => Done (AnscCloneString (Some Alias) a));
    r ← allocating (fun a => Done (StringSListPushEntry (get (at_ t pChildNode)) v a));
    update pChildNode (set r.2).

(** What is done to the node of the name. *)
Definition add_alias (pChildNode : pos) (bPartialNs bStrict : bool) (Alias : cstr) : TM bool :=
  _ ← update pChildNode (set_PartialName bPartialNs);
  _ ← (if bStrict then push_alias StrictAliases set_StrictAliases pChildNode Alias
       else push_alias Aliases set_Aliases pChildNode Alias);
  mret true.

(** The two functions call each other; the inner call has [bStrict] set and
    calls no further, so that [fuel] 2 is enough. *)
Fixpoint CcspAliasMgrAliasTreeAddItem (fuel : nat) (Name Alias : option cstr) (bStrict : bool) : TM bool :=
  match fuel with
  | O => cm_fault Diverge
  | S k =>
      match valid_name Name, valid_name Alias with
      | Some Name, Some Alias =>
          let bPartialNs := bool_decide (last Name = Some 46) in
          pChildNode ← CcspAliasMgrFindMakeNode (CcspAliasMgrAliasTreeAddItem k) Name Alias bStrict;
          match pChildNode with
          | None => mret false
          | Some pChildNode => add_alias pChildNode bPartialNs bStrict Alias
          end
      | _, _ => mret false
      end
  end.

(** The strings freed with a tree, in order; siblings before children. *)
Fixpoint CcspAliasMgrFreeAliasTree t : list cstr :=
  match t with
  | NoEntry => []
  | Entry n al st _ c s =>
      option_list n ++ fst (StringSListRemoveAll al) ++ fst (StringSListRemoveAll st) ++
      CcspAliasMgrFreeAliasTree s ++ CcspAliasMgrFreeAliasTree c
  end.

(** ** The abstract tree: a finite map from paths

    A path is the list of the segments of a name. *)

Record attrs := Attrs { a_aliases : list cstr; a_strict : list cstr; a_partial : bool }.
Abbreviation amap := (gmap (list cstr) attrs).
Implicit Types (M : amap) (d q : list cstr).

(** The segments with dots between them. *)
Fixpoint join (ws : list cstr) : cstr :=
  match ws with [] => [] | [w] => w | w :: r => w ++ dot ++ join r end.

(** Every name on the way from [d] to [d ++ ws] gets a node without aliases
    unless it has one. *)
Fixpoint ensure M d (ws : list cstr) : amap :=
  match ws with
  | [] => M
  | n :: r =>
      let d := d ++ [n] in
      ensure (match M !! d with Some _ => M | None => <[d := Attrs [] [] false]> M end) d r
  end.

Definition add_new (x : cstr) (l : list cstr) : list cstr := if bool_decide (x ∈ l) then l else x :: l.
Definition add_to_attrs (strict partial : bool) (x : cstr) (A : attrs) : attrs :=
  if strict then Attrs (a_aliases A) (add_new x (a_strict A)) partial
  else Attrs (add_new x (a_aliases A)) (a_strict A) partial.
Definition add_strict M d (x : cstr) : amap := alter (add_to_attrs true false x) d (ensure M [] d).

(** Walks down the path below [d].  As soon as a segment of the name differs
    from that of the alias, the shorter name gets the shorter alias as a strict
    one.  This stops at the first name without a node. *)
Definition step_path (Name : cstr) M d (ad : list cstr) (differs : bool) (n : cstr) (arest : list cstr)
  : amap * list cstr * bool :=
  match arest with
  | [] => (M, ad, differs)
  | w :: _ =>
      let ad := ad ++ [w] in
      let differs := differs || negb (bool_decide (n = w)) in
      (if differs && negb (bool_decide (join (d ++ [n]) = Name)) then add_strict M (d ++ [n]) (join ad) else M, ad, differs)
  end.
Fixpoint make_path (Name : cstr) M d (ad : list cstr) (differs : bool) (rest : list cstr) (arest : list cstr) : amap :=
  match rest with
  | [] => M
  | n :: rest' =>
      let '(M, ad, differs) := step_path Name M d ad differs n arest in
      match M !! (d ++ [n]) with
      | Some _ => make_path Name M (d ++ [n]) ad differs rest' (tail arest)
      | None => ensure M d rest
      end
  end.

(** [CcspAliasMgrAliasTreeAddItem] for valid names. *)
Definition add_item M (Name Alias : cstr) (strict : bool) : amap :=
  let path := words dot Name in
  alter (add_to_attrs strict (bool_decide (last Name = Some 46)) Alias) path
    (make_path Name M [] [] false path (if strict then [] else words dot Alias)).

(** ** What a tree stands for *)

Definition attrs_of (al st : list (option cstr)) (pa : bool) : attrs := Attrs (omap id al) (omap id st) pa.

Fixpoint fview e q : option attrs :=
  match e, q with
  | NoEntry, _ | _, [] => None
  | Entry m al st pa c s, n :: q' =>
      if decide (m = Some n) then match q' with [] => Some (attrs_of al st pa) | _ => fview c q' end
      else fview s q
  end.

Fixpoint wf_forest e : Prop :=
  match e with
  | NoEntry => True
  | Entry m al st _ c s => is_Some m /\ Forall is_Some al /\ Forall is_Some st /\ wf_forest c /\ wf_forest s
  end.

Definition tree_of (F : entry) : entry := Entry None [] [] true F NoEntry.
Definition tree_rep t M : Prop := exists F, t = tree_of F /\ wf_forest F /\ forall q, fview F q = M !! q.

(** The way from a pointer to the node of a path, and an update there. *)
Fixpoint fpos e d : pos :=
  match e, d with
  | NoEntry, _ | _, [] => []
  | Entry m _ _ _ c s, n :: d' =>
      if decide (m = Some n) then match d' with [] => [] | _ => ToChild :: fpos c d' end
      else ToSibling :: fpos s d
  end.
Definition rpos F d : pos := match d with [] => [] | _ => ToChild :: fpos F d end.

Fixpoint fupd e d (f : entry -> entry) : entry :=
  match e, d with
  | NoEntry, _ => NoEntry
  | _, [] => e
  | Entry m al st pa c s, n :: d' =>
      if decide (m = Some n) then match d' with [] => f e | _ => Entry m al st pa (fupd c d' f) s end
      else Entry m al st pa c (fupd s d f)
  end.

Fixpoint append_sib e (x : entry) : entry :=
  match e with NoEntry => x | Entry m al st pa c s => Entry m al st pa c (append_sib s x) end.
Definition add_child (x : entry) e : entry := set_Child (append_sib (Child e) x) e.
Definition leaf (n : cstr) : entry := Entry (Some n) [] [] false NoEntry NoEntry.
Definition fadd F d (x : entry) : entry := match d with [] => append_sib F x | _ => fupd F d (add_child x) end.

(** A later forest: nodes keep their places. *)
Definition grows F F' : Prop := forall q, is_Some (fview F q) -> is_Some (fview F' q) /\ fpos F' q = fpos F q.

(** *** Places and paths *)

Lemma at_app t (p p' : pos) : at_ t (p ++ p') = at_ (at_ t p) p'.
Proof. revert t. induction p as [|[|] p IH]; intros t; cbn; auto. Qed.

Lemma upd_app t (p p' : pos) f : upd t (p ++ p') f = upd t p (fun e => upd e p' f).
Proof. revert t. induction p as [|[|] p IH]; intros t; cbn; [done| |]; destruct t; cbn; rewrite ?IH; done. Qed.

Lemma upd_ext t p f g : f (at_ t p) = g (at_ t p) -> upd t p f = upd t p g.
Proof.
  revert t. induction p as [|[|] p IH]; intros t E; cbn in *; [done| |]; destruct t; cbn in *; rewrite ?(IH _ E); done.
Qed.

Lemma at_upd t p f : f NoEntry = NoEntry -> at_ (upd t p f) p = f (at_ t p).
Proof.
  intros Hf. revert t. induction p as [|[|] p IH]; intros t; cbn; [done| |]; destruct t; cbn; rewrite ?IH; try done;
    clear IH; by induction p as [|[|] p IH]; cbn in *.
Qed.

Lemma fview_nil F : fview F [] = None.
Proof. by destruct F. Qed.

Lemma upd_upd t p f g : upd (upd t p f) p g = upd t p (fun e => g (f e)).
Proof. revert t. induction p as [|[|] p IH]; intros t; cbn; [done| |]; destruct t; cbn; rewrite ?IH; done. Qed.

Lemma upd_id t p : upd t p (fun e => e) = t.
Proof. revert t. induction p as [|[|] p IH]; intros t; cbn; [done| |]; destruct t; cbn; rewrite ?IH; done. Qed.

(** What is at the place of a path. *)
Lemma fview_at F d A :
  fview F d = Some A ->
  exists m al st pa c s, at_ F (fpos F d) = Entry m al st pa c s /\ A = attrs_of al st pa /\
    (wf_forest F -> Forall is_Some al /\ Forall is_Some st /\ wf_forest c) /\
    forall q, q ≠ [] -> fview F (d ++ q) = fview c q /\ fpos F (d ++ q) = fpos F d ++ ToChild :: fpos c q.
Proof.
  revert d. induction F as [|m al st pa c IHc s IHs]; intros [|n d]; cbn; try done.
  destruct (decide (m = Some n)) as [->|Hm].
  - destruct d as [|n' d]; cbn.
    + intros [= <-]. exists (Some n), al, st, pa, c, s. split_and!; [done|done|tauto|].
      intros [|x q] Hq; [done|]. by cbn.
    + intros H. destruct (IHc _ H) as (m' & al' & st' & pa' & c' & s' & Hat & HA & Hwf & Hq).
      exists m', al', st', pa', c', s'. split_and!; [done|done|tauto|].
      intros q Hne. specialize (Hq q Hne) as [Hv Hp]. cbn in Hv, Hp. rewrite Hv. split; [done|]. cbn. by rewrite Hp.
  - intros H. destruct (IHs _ H) as (m' & al' & st' & pa' & c' & s' & Hat & HA & Hwf & Hq).
    exists m', al', st', pa', c', s'. split_and!; [done|done|tauto|].
    intros q Hne. specialize (Hq q Hne) as [Hv Hp]. cbn in Hv, Hp. rewrite Hv. split; [done|]. cbn. by rewrite Hp.
Qed.

Lemma fview_head F n q : is_Some (fview F (n :: q)) -> is_Some (fview F [n]).
Proof. induction F as [|m al st pa c _ s IHs]; cbn; [by intros [? ?]|]. destruct (decide _); eauto. Qed.

Lemma upd_fpos F d f : is_Some (fview F d) -> upd F (fpos F d) f = fupd F d f.
Proof.
  revert d. induction F as [|m al st pa c IHc s IHs]; intros [|n d]; cbn; try by intros [? ?].
  destruct (decide (m = Some n)) as [->|Hm].
  - destruct d; cbn; [done|]. intros H. by rewrite IHc.
  - cbn. intros H. by rewrite IHs.
Qed.

(** *** Updates and what the forest stands for *)

Lemma append_leaf_view F n q :
  fview F [n] = None -> fview (append_sib F (leaf n)) q = if decide (q = [n]) then Some (Attrs [] [] false) else fview F q.
Proof.
  induction F as [|m al st pa c _ s IHs]; cbn; intros Hn.
  - destruct q as [|x q]; [by rewrite decide_False|]. cbn. destruct (decide (Some n = Some x)) as [[= ->]|Hx].
    + destruct q; [by rewrite decide_True|]. by rewrite decide_False by done.
    + rewrite decide_False by (intros [= -> ->]; done). done.
  - destruct q as [|x q]; [by rewrite decide_False|].
    destruct (decide (m = Some n)) as [->|Hm]; [done|]. destruct (decide (m = Some x)) as [->|Hx].
    + rewrite decide_False; [done|]. intros [= -> ->]. done.
    + by apply IHs.
Qed.

Lemma append_leaf_wf F n : wf_forest F -> wf_forest (append_sib F (leaf n)).
Proof. induction F; cbn; naive_solver. Qed.

Lemma append_leaf_grows F n : grows F (append_sib F (leaf n)).
Proof.
  intros q. revert q. induction F as [|m al st pa c _ s IHs]; intros [|x q]; cbn; try by intros [? ?].
  destruct (decide (m = Some x)); [done|]. intros [H1 H2]%IHs. by rewrite H2.
Qed.

(** An update of a node that keeps its name and its siblings. *)
Definition local (f : entry -> entry) : Prop :=
  forall m al st pa c s, exists al' st' pa' c', f (Entry m al st pa c s) = Entry m al' st' pa' c' s /\ grows c c'.

Lemma grows_refl F : grows F F.
Proof. done. Qed.
Lemma grows_trans F1 F2 F3 : grows F1 F2 -> grows F2 F3 -> grows F1 F3.
Proof. intros H1 H2 q Hq. destruct (H1 q Hq) as [Hq2 E]. destruct (H2 q Hq2) as [Hq3 E']. by rewrite E'. Qed.

Lemma grows_cons m al st pa c s al' st' pa' c' s' :
  grows c c' -> grows s s' -> grows (Entry m al st pa c s) (Entry m al' st' pa' c' s').
Proof.
  intros Hc Hs [|x q]; cbn; [by intros [? ?]|].
  destruct (decide (m = Some x)) as [->|Hx].
  - destruct q as [|y q]; [done|]. intros [H1 H2]%Hc. by rewrite H2.
  - intros [H1 H2]%Hs. by rewrite H2.
Qed.

Lemma fupd_grows F d f : local f -> grows F (fupd F d f).
Proof.
  intros Hf. revert d. induction F as [|m al st pa c IHc s IHs]; intros [|n d]; cbn; try apply grows_refl.
  destruct (decide (m = Some n)) as [->|Hm]; [|apply grows_cons; auto using grows_refl].
  destruct d as [|y d]; [|apply grows_cons; auto using grows_refl].
  destruct (Hf (Some n) al st pa c s) as (al' & st' & pa' & c' & -> & Hc). apply grows_cons; auto using grows_refl.
Qed.

(** An update that keeps the child as well. *)
Definition field_update (f : entry -> entry) (g : attrs -> attrs) : Prop :=
  forall m al st pa c s, exists al' st' pa', f (Entry m al st pa c s) = Entry m al' st' pa' c s /\
    (Forall is_Some al -> Forall is_Some st ->
     Forall is_Some al' /\ Forall is_Some st' /\ attrs_of al' st' pa' = g (attrs_of al st pa)).

Lemma field_update_local f g : field_update f g -> local f.
Proof. intros Hf m al st pa c s. destruct (Hf m al st pa c s) as (al' & st' & pa' & -> & _). eauto 10 using grows_refl. Qed.

Lemma fview_hit n al st pa c s q :
  fview (Entry (Some n) al st pa c s) (n :: q) = match q with [] => Some (attrs_of al st pa) | _ => fview c q end.
Proof. cbn. by rewrite decide_True. Qed.

Lemma fview_skip m n al st pa c s q : m ≠ Some n -> fview (Entry m al st pa c s) (n :: q) = fview s (n :: q).
Proof. intros. cbn. by rewrite decide_False. Qed.

Lemma fupd_hit n al st pa c s d f :
  fupd (Entry (Some n) al st pa c s) (n :: d) f =
    match d with [] => f (Entry (Some n) al st pa c s) | _ => Entry (Some n) al st pa (fupd c d f) s end.
Proof. cbn. by rewrite decide_True. Qed.

Lemma fupd_skip m n al st pa c s d f :
  m ≠ Some n -> fupd (Entry m al st pa c s) (n :: d) f = Entry m al st pa c (fupd s (n :: d) f).
Proof. intros. cbn. by rewrite decide_False. Qed.

Lemma fupd_field F d f g q :
  field_update f g -> wf_forest F ->
  wf_forest (fupd F d f) /\ fview (fupd F d f) q = if decide (q = d) then g <$> fview F d else fview F q.
Proof.
  intros Hf. revert d q. induction F as [|m al st pa c IHc s IHs]; intros [|n d] q Hwf.
  1-3: split; [done|]; destruct q; cbn; by case_decide.
  cbn in Hwf. destruct Hwf as (Hm & Hal & Hst & Hc & Hs).
  destruct (decide (m = Some n)) as [->|Hn].
  - rewrite fupd_hit, fview_hit. destruct d as [|y d].
    + destruct (Hf (Some n) al st pa c s) as (al' & st' & pa' & -> & Hg). destruct (Hg Hal Hst) as (Hal' & Hst' & E).
      split; [done|]. destruct q as [|x q]; [done|]. destruct (decide (x = n)) as [->|Hx].
      * rewrite !fview_hit. destruct q; [rewrite decide_True by done; cbn; by rewrite E|by rewrite decide_False].
      * rewrite !fview_skip by congruence. by rewrite decide_False by congruence.
    + split; [cbn; split_and!; try done; by apply IHc|].
      destruct q as [|x q]; [done|]. destruct (decide (x = n)) as [->|Hx].
      * rewrite !fview_hit. destruct q as [|z q]; [by rewrite decide_False|]. destruct (IHc (y :: d) (z :: q) Hc) as [_ ->].
        apply decide_ext. split; congruence.
      * rewrite !fview_skip by congruence. by rewrite decide_False by congruence.
  - rewrite fupd_skip by done. split; [cbn; split_and!; try done; by apply IHs|].
    destruct q as [|x q]; [done|]. destruct (decide (m = Some x)) as [->|Hx].
    + rewrite !fview_hit. by rewrite decide_False by congruence.
    + rewrite !fview_skip by done. by destruct (IHs (n :: d) (x :: q) Hs) as [_ ->].
Qed.

Lemma fupd_add_leaf F d n q :
  wf_forest F -> is_Some (fview F d) -> fview F (d ++ [n]) = None ->
  wf_forest (fupd F d (add_child (leaf n))) /\
  fview (fupd F d (add_child (leaf n))) q = if decide (q = d ++ [n]) then Some (Attrs [] [] false) else fview F q.
Proof.
  revert d q. induction F as [|m al st pa c IHc s IHs]; intros [|y d] q Hwf Hd Hn; try by destruct Hd.
  cbn in Hwf. destruct Hwf as (Hm & Hal & Hst & Hc & Hs).
  destruct (decide (m = Some y)) as [->|Hy].
  - rewrite fupd_hit. cbn [app] in *. rewrite fview_hit in Hd, Hn. destruct d as [|z d]; cbn [app] in *.
    + change (add_child (leaf n) (Entry (Some y) al st pa c s)) with (Entry (Some y) al st pa (append_sib c (leaf n)) s).
      split; [cbn; split_and!; try done; by apply append_leaf_wf|].
      destruct q as [|x q]; [done|]. destruct (decide (x = y)) as [->|Hx].
      * rewrite !fview_hit. destruct q as [|z q]; [by rewrite decide_False|].
        rewrite append_leaf_view by done. apply decide_ext. split; congruence.
      * rewrite !fview_skip by congruence. by rewrite decide_False by congruence.
    + split; [cbn; split_and!; try done; by apply (IHc (z :: d) [])|].
      destruct q as [|x q]; [done|]. destruct (decide (x = y)) as [->|Hx].
      * rewrite !fview_hit. destruct q as [|w q]; [by rewrite decide_False|].
        destruct (IHc (z :: d) (w :: q) Hc Hd Hn) as [_ ->]. apply decide_ext. cbn. split; congruence.
      * rewrite !fview_skip by congruence. by rewrite decide_False by congruence.
  - rewrite fupd_skip by done. cbn [app] in *. rewrite fview_skip in Hd, Hn by done.
    split; [cbn; split_and!; try done; by apply (IHs (y :: d) [])|].
    destruct q as [|x q]; [done|]. destruct (decide (m = Some x)) as [->|Hx].
    + rewrite !fview_hit. by rewrite decide_False by congruence.
    + rewrite !fview_skip by done. by destruct (IHs (y :: d) (x :: q) Hs Hd Hn) as [_ ->].
Qed.

Lemma add_leaf_local n : local (add_child (leaf n)).
Proof. intros m al st pa c s. eexists al, st, pa, _. split; [done|]. apply append_leaf_grows. Qed.

(** Whether a path leads to a node; the root is the node of the empty one. *)
Definition present F d : Prop := d = [] \/ is_Some (fview F d).

Lemma fadd_leaf F d n :
  wf_forest F -> present F d -> fview F (d ++ [n]) = None ->
  wf_forest (fadd F d (leaf n)) /\ grows F (fadd F d (leaf n)) /\
  forall q, fview (fadd F d (leaf n)) q = if decide (q = d ++ [n]) then Some (Attrs [] [] false) else fview F q.
Proof.
  intros Hwf Hd Hn. destruct d as [|y d]; cbn [fadd].
  - split_and!; [by apply append_leaf_wf|apply append_leaf_grows|]. intros q. by apply append_leaf_view.
  - destruct Hd as [|Hd]; [done|]. split_and!; [by apply (fupd_add_leaf _ _ _ [])|by apply fupd_grows, add_leaf_local|].
    intros q. by apply fupd_add_leaf.
Qed.

Lemma present_grows F F' d : grows F F' -> present F d -> present F' d /\ rpos F' d = rpos F d.
Proof.
  intros Hg [->|Hd]; [by split; [left|]|]. destruct (Hg d Hd) as [H E]. split; [by right|].
  unfold rpos. by rewrite E.
Qed.

(** The children of a node of the tree. *)
Lemma children_at F d :
  present F d -> exists m al st pa c s, at_ (tree_of F) (rpos F d) = Entry m al st pa c s /\
    (wf_forest F -> wf_forest c) /\
    forall q, q ≠ [] -> fview F (d ++ q) = fview c q /\ rpos F (d ++ q) = rpos F d ++ ToChild :: fpos c q.
Proof.
  intros [->|[A HA]].
  - exists None, [], [], true, F, NoEntry. split_and!; [done|done|]. by intros [|x q].
  - destruct (fview_at F d A HA) as (m & al & st & pa & c & s & Hat & _ & Hwf & Hq).
    destruct d as [|y d]; [by rewrite fview_nil in HA|].
    exists m, al, st, pa, c, s. split_and!; [done|naive_solver|].
    intros q Hne. destruct (Hq q Hne) as [Hv Hp]. split; [done|]. cbn [app] in *. unfold rpos. by rewrite Hp.
Qed.

(** *** Searching the children *)

Lemma find_child_found c (p : pos) n prev :
  wf_forest c -> is_Some (fview c [n]) -> exists prev', find_child c p n prev = Done (Some (p ++ fpos c [n]), prev').
Proof.
  revert p prev. induction c as [|m al st pa c' _ s IHs]; intros p prev Hwf [A HA]; [done|].
  cbn in Hwf. destruct Hwf as ([m' ->] & _ & _ & _ & Hs). cbn [find_child]. cbn in HA |- *.
  destruct (decide (Some m' = Some n)) as [[= ->]|Hm].
  - exists prev. rewrite bool_decide_true by done. by rewrite app_nil_r.
  - rewrite bool_decide_false by congruence.
    destruct (IHs (p ++ [ToSibling]) (Some p) Hs ltac:(eauto)) as [prev' ->]. exists prev'.
    by rewrite <-app_assoc.
Qed.

(** Where a new child goes when there is none of its name: behind the sibling
    the search visited last. *)
Definition attach (t : entry) (pNode : pos) (prev : option pos) (x : entry) : entry :=
  match prev with Some p => upd t p (set_Sibling x) | None => upd t pNode (set_Child x) end.

Lemma fpos_skip m n al st pa c s d :
  m ≠ Some n -> fpos (Entry m al st pa c s) (n :: d) = ToSibling :: fpos s (n :: d).
Proof. intros. cbn. by rewrite decide_False. Qed.

Lemma find_child_absent c n :
  wf_forest c -> fview c [n] = None ->
  forall p prev, exists prev', find_child c p n prev = Done (None, prev') /\
    match c with
    | NoEntry => prev' = prev
    | _ => exists r, prev' = Some (p ++ r) /\ forall x, upd c r (set_Sibling x) = append_sib c x /\
             r ++ [ToSibling] = fpos (append_sib c (leaf n)) [n]
    end.
Proof.
  intros Hwf Hn. induction c as [|m al st pa c' _ s IHs]; intros p prev; [by exists prev|].
  cbn in Hwf. destruct Hwf as ([m' ->] & _ & _ & _ & Hs).
  destruct (decide (m' = n)) as [->|Hm]; [by rewrite fview_hit in Hn|].
  rewrite fview_skip in Hn by congruence. cbn [find_child]. rewrite bool_decide_false by congruence.
  destruct (IHs Hs Hn (p ++ [ToSibling]) (Some p)) as (prev' & -> & Hp). exists prev'. split; [done|].
  destruct s as [|m2 al2 st2 pa2 c2 s2].
  - exists []. rewrite app_nil_r. split; [done|]. intros x. split; [done|]. cbn.
    rewrite decide_False by congruence. cbn. by rewrite decide_True.
  - destruct Hp as (r & -> & Hr). exists (ToSibling :: r). rewrite <-app_assoc. split; [done|]. intros x.
    destruct (Hr x) as [Hu Hl]. split; [cbn; f_equal; exact Hu|].
    cbn [app]. rewrite Hl. symmetry. apply fpos_skip. congruence.
Qed.

Lemma upd_rpos F d f :
  present F d -> upd (tree_of F) (rpos F d) f =
    match d with [] => f (tree_of F) | _ => tree_of (fupd F d f) end.
Proof.
  intros Hd. destruct d as [|y d]; [done|]. destruct Hd as [|Hd]; [done|]. cbn [rpos upd tree_of].
  by rewrite upd_fpos.
Qed.

Lemma upd_add_child F d x : present F d -> upd (tree_of F) (rpos F d) (add_child x) = tree_of (fadd F d x).
Proof. intros Hd. rewrite upd_rpos by done. by destruct d. Qed.

(** Attaching a leaf where the search ended is adding it below the path. *)
Lemma attach_leaf F d n :
  wf_forest F -> present F d -> fview F (d ++ [n]) = None ->
  let p := rpos F d in
  exists prev, find_child (Child (at_ (tree_of F) p)) (p ++ [ToChild]) n None = Done (None, prev) /\
    attach (tree_of F) p prev (leaf n) = tree_of (fadd F d (leaf n)) /\
    match prev with Some p' => p' ++ [ToSibling] | None => p ++ [ToChild] end = rpos (fadd F d (leaf n)) (d ++ [n]).
Proof.
  intros Hwf Hd Hn p. destruct (children_at F d Hd) as (m & al & st & pa & c & s & Hat & Hc & Hq).
  destruct (Hq [n]) as [Hv _]; [done|]. rewrite Hn in Hv. specialize (Hc Hwf).
  destruct (fadd_leaf F d n Hwf Hd Hn) as (_ & Hg & _). destruct (present_grows _ _ d Hg Hd) as [Hd' Hp].
  assert (Hpos : rpos (fadd F d (leaf n)) (d ++ [n]) = p ++ ToChild :: fpos (append_sib c (leaf n)) [n]).
  { destruct (children_at _ d Hd') as (m' & al' & st' & pa' & c' & s' & Hat' & _ & Hq').
    destruct (Hq' [n]) as [_ ->]; [done|]. rewrite Hp in Hat' |- *.
    rewrite <-upd_add_child, at_upd, Hat in Hat' by done. by injection Hat' as <- <- <- <- <- <-. }
  fold p in Hat. rewrite Hat. cbn [Child].
  destruct (find_child_absent c n Hc (eq_sym Hv) (p ++ [ToChild]) None) as (prev & -> & Hprev).
  exists prev. split; [done|]. rewrite Hpos, <-upd_add_child by done. fold p. destruct c as [|m2 al2 st2 pa2 c2 s2].
  - subst prev. cbn [attach]. split; [by apply upd_ext; rewrite Hat|]. cbn. by rewrite decide_True.
  - destruct Hprev as (r & -> & Hr). destruct (Hr (leaf n)) as [Hu Hl]. split.
    + cbn [attach]. rewrite <-app_assoc, upd_app. apply upd_ext. rewrite Hat. unfold add_child. cbn [app upd Child set_Child].
      by rewrite Hu.
    + by rewrite <-!app_assoc, <-Hl.
Qed.

(** ** The operations on a tree that stands for a map

    From here on allocations succeed: the stream is empty. *)

Definition frep F M : Prop := wf_forest F /\ forall q, fview F q = M !! q.

(** A segment a token can hold. *)
Definition segment (w : cstr) : Prop := wf_cstr w /\ fits w.

Lemma present_map F M d : frep F M -> present F d <-> d = [] \/ is_Some (M !! d).
Proof. intros [_ Hv]. unfold present. by rewrite Hv. Qed.

Lemma frep_leaf F M d n :
  frep F M -> present F d -> M !! (d ++ [n]) = None ->
  frep (fadd F d (leaf n)) (<[d ++ [n] := Attrs [] [] false]> M) /\ grows F (fadd F d (leaf n)).
Proof.
  intros [Hwf Hv] Hd Hn. rewrite <-Hv in Hn. destruct (fadd_leaf F d n Hwf Hd Hn) as (Hwf' & Hg & Hv').
  split; [|done]. split; [done|]. intros q. rewrite Hv'. case_decide as Hq.
  - subst. by rewrite lookup_insert_eq.
  - by rewrite lookup_insert_ne, Hv.
Qed.

Lemma attach_child t (p : pos) prev n :
  Child (at_ (attach t p prev (leaf n)) (match prev with Some p' => p' ++ [ToSibling] | None => p ++ [ToChild] end)) = NoEntry.
Proof.
  destruct prev as [p'|]; cbn [attach]; rewrite at_app, at_upd by done; cbn; by destruct (at_ _ _).
Qed.

Lemma make_nodes_step n rest (p : pos) prev t :
  segment n ->
  make_nodes (token_of n) (token_of <$> rest) p prev (t, []) =
    let p' := match prev with Some prev => prev ++ [ToSibling] | None => p ++ [ToChild] end in
    let t' := attach t p prev (leaf n) in
    match rest with
    | [] => Done (Some p', (t', []))
    | m :: rest => make_nodes (token_of m) (token_of <$> rest) p' None (t', [])
    end.
Proof.
  intros [Hwn Hfn]. destruct rest as [|m rest]; cbn [fmap list_fmap make_nodes];
    unfold lift, mbind, CM_bind, allocating; rewrite token_name_of by done; by destruct prev.
Qed.

Lemma make_nodes_spec F M d n rest prev :
  frep F M -> present F d -> M !! (d ++ [n]) = None -> Forall segment (n :: rest) ->
  find_child (Child (at_ (tree_of F) (rpos F d))) (rpos F d ++ [ToChild]) n None = Done (None, prev) ->
  exists F', make_nodes (token_of n) (token_of <$> rest) (rpos F d) prev (tree_of F, []) =
      Done (Some (rpos F' (d ++ n :: rest)), (tree_of F', [])) /\
    frep F' (ensure M d (n :: rest)) /\ grows F F' /\ present F' (d ++ n :: rest).
Proof.
  revert F M d n prev. induction rest as [|n2 rest IH]; intros F M d n prev Hrep Hd Hn [Hsn Hseg]%Forall_cons Hfind;
    (destruct (attach_leaf F d n) as (prev' & Hf & Hat & Hpos); [apply Hrep|done|by rewrite (proj2 Hrep)|]);
    rewrite Hfind in Hf; injection Hf as <-;
    destruct (frep_leaf F M d n Hrep Hd Hn) as [Hrep' Hg];
    set (F1 := fadd F d (leaf n)) in *;
    assert (Hpres : present F1 (d ++ [n])) by (right; rewrite (proj2 Hrep'), lookup_insert_eq; eauto);
    rewrite make_nodes_step by done; cbn zeta; rewrite Hat, Hpos; cbn [ensure]; rewrite Hn.
  - by exists F1.
  - assert (Hleaf : Child (at_ (tree_of F1) (rpos F1 (d ++ [n]))) = NoEntry).
    { rewrite <-Hpos, <-Hat. apply attach_child. }
    assert (Hn2 : <[d ++ [n] := Attrs [] [] false]> M !! ((d ++ [n]) ++ [n2]) = None).
    { rewrite <-(proj2 Hrep'). destruct (children_at F1 _ Hpres) as (m & al & st & pa & c & s & Hat1 & _ & Hq).
      destruct (Hq [n2]) as [-> _]; [done|]. rewrite Hat1 in Hleaf. cbn in Hleaf. by subst c. }
    destruct (IH F1 _ (d ++ [n]) n2 None Hrep' Hpres Hn2 Hseg) as (F' & E & HrepF & HgF & HpF); [by rewrite Hleaf|].
    exists F'. cbn [ensure] in HrepF. rewrite <-app_assoc in *. cbn [app] in *. split_and!; try done. by eapply grows_trans.
Qed.

(** *** Pushing an alias to a node *)

Definition push_value (x : cstr) l : list (option cstr) := if bool_decide (Some x ∈ l) then l else Some x :: l.
Definition push_node (strict b : bool) (x : cstr) e : entry :=
  match e with
  | NoEntry => NoEntry
  | Entry n al st _ c s => if strict then Entry n al (push_value x st) b c s else Entry n (push_value x al) st b c s
  end.

Lemma values_find l x : Forall is_Some l -> StringSListFind l x = Done (bool_decide (Some x ∈ l)).
Proof.
  induction 1 as [|v l [w ->] Hl IH]; cbn [StringSListFind]; [by rewrite bool_decide_false by apply not_elem_of_nil|].
  destruct (bool_decide_reflect (w = x)) as [->|Hw].
  - by rewrite bool_decide_true by left.
  - rewrite IH. f_equal. apply bool_decide_ext. rewrite elem_of_cons. naive_solver.
Qed.

Lemma push_value_attrs l x :
  Forall is_Some l -> Forall is_Some (push_value x l) /\ omap id (push_value x l) = add_new x (omap id l).
Proof.
  intros Hl. assert (Hin : Some x ∈ l <-> x ∈ omap id l).
  { rewrite list_elem_of_omap. split; [intros; by exists (Some x)|]. by intros ([y|] & Hy & [= <-]). }
  unfold push_value, add_new. rewrite (bool_decide_ext _ _ Hin). case_bool_decide; [done|].
  split; [by constructor|done].
Qed.

Lemma push_node_update strict b x : field_update (push_node strict b x) (add_to_attrs strict b x).
Proof.
  intros m al st pa c s. destruct strict; cbn; eexists _, _, _; (split; [done|]); intros Hal Hst;
    unfold attrs_of, add_to_attrs; cbn.
  - destruct (push_value_attrs st x Hst) as [? ->]. done.
  - destruct (push_value_attrs al x Hal) as [? ->]. done.
Qed.

Lemma add_alias_spec F d strict b x :
  wf_forest F -> d ≠ [] -> present F d ->
  add_alias (rpos F d) b strict x (tree_of F, []) = Done (true, (tree_of (fupd F d (push_node strict b x)), [])).
Proof.
  intros Hwf Hne Hd. destruct Hd as [|[A HA]]; [done|].
  assert (Hpres : present F d) by (right; eauto).
  destruct (fview_at F d A HA) as (m & al & st & pa & c & s & Hat & _ & Hl & _). destruct (Hl Hwf) as (Hal & Hst & _).
  assert (Hat' : at_ (tree_of F) (rpos F d) = Entry m al st pa c s) by by destruct d.
  assert (Hfin : forall f, upd (tree_of F) (rpos F d) f = tree_of (fupd F d f)).
  { intros f. rewrite upd_rpos by done. by destruct d. }
  assert (Hupd : forall g, g (set_PartialName b (at_ (tree_of F) (rpos F d))) = push_node strict b x (at_ (tree_of F) (rpos F d)) ->
    upd (upd (tree_of F) (rpos F d) (set_PartialName b)) (rpos F d) g = tree_of (fupd F d (push_node strict b x))).
  { intros g Hg. rewrite <-Hfin, upd_upd. by apply upd_ext. }
  unfold add_alias, update, mbind, CM_bind. set (t1 := upd _ _ (set_PartialName b)) in *.
  assert (Hat1 : at_ t1 (rpos F d) = Entry m al st b c s) by (unfold t1; by rewrite at_upd, Hat').
  destruct strict; unfold push_alias, the_tree, lift, allocating, mbind, CM_bind, mret, CM_ret; rewrite Hat1;
    cbn [StrictAliases Aliases]; rewrite values_find by done; case_bool_decide as Hin; cbn; do 3 f_equal.
  1, 3: rewrite <-(upd_id t1 (rpos F d)).
  all: apply Hupd; rewrite Hat'; cbn; unfold push_value.
  all: first [by rewrite bool_decide_true|by rewrite bool_decide_false].
Qed.

(** *** Names and their segments *)

(** A path as the tokens of a name yield it. *)
Definition good_seg (w : cstr) : Prop := w ≠ [] /\ wf_cstr w /\ 46 ∉ w.

Lemma join_words_cons w ws : ws ≠ [] -> join (w :: ws) = w ++ dot ++ join ws.
Proof. by destruct ws. Qed.

Lemma join_app d ws : d ≠ [] -> ws ≠ [] -> join (d ++ ws) = join d ++ dot ++ join ws.
Proof.
  intros Hd Hws. induction d as [|w d IH]; [done|]. cbn [app]. rewrite join_words_cons by by destruct d.
  destruct d as [|w' d]; [done|]. rewrite (join_words_cons w) by done. rewrite IH by done. by rewrite <-!app_assoc.
Qed.

Lemma join_length d ws : (length (join d) <= length (join (d ++ ws)))%nat.
Proof.
  destruct d as [|w d]; [cbn; lia|]. destruct ws as [|w' ws]; [by rewrite app_nil_r|].
  rewrite join_app by done. rewrite length_app. lia.
Qed.

Lemma join_segment d ws n : (length n <= length (join (d ++ n :: ws)))%nat.
Proof.
  assert (H : (length n <= length (join (n :: ws)))%nat) by apply (join_length [n]).
  destruct d as [|w d]; [done|]. rewrite join_app by done. rewrite !length_app. lia.
Qed.

Lemma join_snoc_length d n ws :
  d ≠ [] -> (length (join d) + 1 + length n <= length (join (d ++ n :: ws)))%nat.
Proof.
  intros Hd. pose proof (join_segment [] ws n). rewrite join_app by done. rewrite !length_app. cbn in *. lia.
Qed.

Lemma join_nonempty d : Forall good_seg d -> d ≠ [] -> join d ≠ [].
Proof. destruct 1 as [|w d [Hw _] _]; [done|]. intros _. destruct d; cbn; [done|]. by destruct w. Qed.

Lemma join_wf d : Forall good_seg d -> wf_cstr (join d).
Proof.
  induction 1 as [|w d (_ & Hw & _) Hd IH]; [constructor|]. destruct d as [|w' d]; [done|].
  rewrite join_words_cons by done. unfold wf_cstr in *. rewrite !Forall_app. split_and!; try done. by repeat constructor.
Qed.

Lemma words_join d : Forall good_seg d -> words dot (join d) = d.
Proof.
  assert (Hdot : forall w, 46 ∉ w -> Forall (.∉ dot) w).
  { intros w Hw. apply Forall_forall. intros x Hx Hin. cbn in Hin. apply list_elem_of_singleton in Hin as ->. done. }
  induction 1 as [|w d (Hne & Hw & Hd) Hds IH]; [done|]. destruct d as [|w' d].
  - cbn [join]. rewrite <-(app_nil_r w) at 1. rewrite words_word; [done|by apply Hdot|done|done].
  - rewrite join_words_cons by done. rewrite words_word; [|by apply Hdot|done|intros c Hc; cbn in Hc; injection Hc as <-; left].
    f_equal. etransitivity; [|exact IH]. by apply (words_skip dot dot); repeat constructor; apply list_elem_of_singleton.
Qed.

(** A name made of segments is accepted. *)
Lemma strstr_no_dots s : (forall u v, s ≠ u ++ lit ".." ++ v) -> strstr s (lit "..") = None.
Proof.
  induction s as [|c s IH]; intros Hs; cbn [strstr]; unfold is_prefix.
  - done.
  - case_bool_decide as Hp.
    + exfalso. apply (Hs [] (drop 2 (c :: s))). cbn [app]. rewrite <-Hp at 1. by rewrite take_drop.
    + apply IH. intros u v ->. by apply (Hs (c :: u) v).
Qed.

Lemma join_no_dots d : Forall good_seg d -> forall u v, join d ≠ u ++ lit ".." ++ v.
Proof.
  induction 1 as [|w d (Hne & Hw & Hd) Hds IH]; intros u v E; [by destruct u|].
  destruct d as [|w' d].
  - cbn in E. subst w. apply Hd. apply elem_of_app. right. left.
  - rewrite join_words_cons in E by done.
    apply app_eq_app in E as (k & [[-> E]|[-> E]]).
    + destruct k as [|x k]; [|apply Hd, elem_of_app; right; cbn in E; injection E as <- _; left].
      cbn in E. injection E as E. destruct (Forall_inv Hds) as (Hne' & _ & Hd').
      destruct w' as [|y w']; [done|]. apply Hd'. destruct d; cbn in E; injection E as <- _; left.
    + destruct k as [|x k]; cbn in E.
      * injection E as E. destruct (Forall_inv Hds) as (Hne' & _ & Hd').
        destruct w' as [|y w']; [done|]. apply Hd'. destruct d; cbn in E; injection E as -> _; left.
      * injection E as <- E. by apply (IH k v).
Qed.

Lemma join_valid d : Forall good_seg d -> d ≠ [] -> valid_name (Some (join d)) = Some (join d).
Proof.
  intros Hd Hne. unfold valid_name. rewrite (strstr_no_dots (join d)) by by apply join_no_dots.
  destruct Hd as [|w d (Hw & Hwf & Hdot) Hds]; [done|]. destruct w as [|x w]; [done|].
  assert (Hh : deref (join ((x :: w) :: d)) = x) by by destruct d. rewrite Hh.
  inversion Hwf; subst. destruct (Z.eqb_spec x 0); [lia|]. destruct (Z.eqb_spec x 46); [|done].
  subst. destruct Hdot. left.
Qed.

Lemma join_last d : Forall good_seg d -> bool_decide (last (join d) = Some 46) = false.
Proof.
  intros Hd. apply bool_decide_false. induction Hd as [|w d (Hw & Hwf & Hdot) Hds IH]; [done|].
  destruct d as [|w' d].
  - intros E. apply Hdot. cbn in E. by apply last_Some_elem_of.
  - rewrite join_words_cons by done. rewrite !last_app. pose proof (join_nonempty (w' :: d) Hds).
    destruct (last (join (w' :: d))) as [z|] eqn:E; [done|]. apply last_None in E. intros _. by apply H.
Qed.

(** *** The walk *)

Abbreviation tokens := (fmap (M := list) token_of).
Definition short (d : list cstr) : Prop := strlen (join d) < CCSP_Alias_Mgr_Name_Length.

Lemma good_fits w : good_seg w -> strlen w < CCSP_Alias_Mgr_Name_Length -> segment w.
Proof. intros (_ & Hw & _) Hl. split; [done|]. unfold fits, ANSC_URI_PATH_SIZE, CCSP_Alias_Mgr_Name_Length in *. lia. Qed.

Lemma good_segments d ws : Forall good_seg ws -> short (d ++ ws) -> Forall segment ws.
Proof.
  intros Hg Hs. apply Forall_forall. intros w Hw. apply list_elem_of_split in Hw as (l1 & l2 & ->).
  apply Forall_app in Hg as [_ Hg]. apply good_fits; [by inversion Hg|].
  unfold short, strlen in *. rewrite app_assoc in Hs. pose proof (join_segment (d ++ l1) l2 w). lia.
Qed.

(** A buffer that holds the joined path is extended by a segment. *)
Lemma extend_partial d n ws (pn : cstr) :
  pn = join d -> Forall good_seg d -> good_seg n -> short (d ++ n :: ws) ->
  (CCSP_Alias_Mgr_Name_Length <? strlen pn + 1 + strlen n) = false /\
  (x ← (if 0 <? strlen pn then AnscCatString (CCSP_Alias_Mgr_Name_Length + 1) pn dot else Done pn);
   AnscCatString (CCSP_Alias_Mgr_Name_Length + 1) x n) = Done (join (d ++ [n])).
Proof.
  unfold short, strlen. intros -> Hd Hn Hs. pose proof (join_segment d ws n).
  destruct d as [|w d].
  - cbn [join app length]. split; [apply Z.ltb_ge; lia|].
    unfold AnscCatString, strlen, mbind, outcome_bind. cbn [app length] in *.
    change (0 <? Z.of_nat 0) with false. cbn iota. rewrite (proj2 (Z.ltb_lt _ _)) by (cbn [length]; lia). done.
  - pose proof (join_snoc_length (w :: d) n ws ltac:(done)). pose proof (join_nonempty (w :: d) Hd ltac:(done)) as Hne.
    split; [apply Z.ltb_ge; lia|]. rewrite (proj2 (Z.ltb_lt 0 _)) by (destruct (join (w :: d)); [done|cbn; lia]).
    unfold AnscCatString, strlen. rewrite (proj2 (Z.ltb_lt _ _)) by (cbn [lit length]; lia).
    unfold mbind, outcome_bind. rewrite length_app, (proj2 (Z.ltb_lt _ _)) by (cbn [lit length]; lia).
    rewrite join_app by done. by rewrite <-app_assoc.
Qed.

Section walk.
Variable AddItem : option cstr -> option cstr -> bool -> TM bool.

(** What the walk needs of the inner call. *)
Definition adds_strict : Prop := forall F M d ad,
  frep F M -> Forall good_seg d -> d ≠ [] -> short d -> Forall good_seg ad -> ad ≠ [] -> short ad ->
  exists F', AddItem (Some (join d)) (Some (join ad)) true (tree_of F, []) = Done (true, (tree_of F', [])) /\
    frep F' (add_strict M d (join ad)) /\ grows F F'.

Lemma partial_names_spec Name F M d ad n rest arest (pn pa : cstr) (b : bool) :
  (arest ≠ [] -> adds_strict) ->
  frep F M -> Forall good_seg (d ++ n :: rest) -> short (d ++ n :: rest) ->
  Forall good_seg (ad ++ arest) -> (arest ≠ [] -> short (ad ++ arest) /\ pn = join d /\ pa = join ad) ->
  exists F' pn' pa', partial_names AddItem Name n (head (token_of <$> arest)) pn pa b (tree_of F, []) =
      Done (Some (pn', pa', (step_path Name M d ad b n arest).2), (tree_of F', [])) /\
    frep F' (step_path Name M d ad b n arest).1.1 /\ grows F F' /\
    (arest ≠ [] -> pn' = join (d ++ [n]) /\ pa' = join (ad ++ [default [] (head arest)])).
Proof.
  intros Hadd Hrep Hd Hs Had Hpn. destruct arest as [|w arest]; [by exists F, pn, pa|].
  destruct (Hpn ltac:(done)) as (Hsa & -> & ->). clear Hpn.
  assert (Hdn : Forall good_seg d /\ good_seg n) by (rewrite Forall_app, Forall_cons in Hd; tauto).
  assert (Hadw : Forall good_seg ad /\ good_seg w) by (rewrite Forall_app, Forall_cons in Had; tauto).
  destruct Hdn as [Hgd Hgn], Hadw as [Hga Hgw].
  destruct (extend_partial d n rest _ eq_refl Hgd Hgn Hs) as [Hlt1 Hcat1].
  destruct (extend_partial ad w arest _ eq_refl Hga Hgw Hsa) as [Hlt2 Hcat2].
  assert (Hsn : short (d ++ [n])).
  { unfold short, strlen in *. pose proof (join_length (d ++ [n]) rest). rewrite <-app_assoc in *. cbn [app] in *. lia. }
  assert (Hsw : short (ad ++ [w])).
  { unfold short, strlen in *. pose proof (join_length (ad ++ [w]) arest) as H. rewrite <-app_assoc in H. cbn [app] in H. lia. }
  assert (segment w) as [Hww Hfw].
  { apply good_fits; [done|]. unfold short, strlen in Hsw. pose proof (join_segment ad [] w). unfold strlen. lia. }
  cbn [fmap list_fmap head partial_names]. unfold lift, mbind, CM_bind. rewrite token_name_of by done.
  rewrite Hlt1, Hlt2. cbn [orb].
  destruct (if 0 <? strlen (join d) then _ else _) as [x1|] eqn:E1; cbn in Hcat1; [|done]. rewrite Hcat1.
  destruct (if 0 <? strlen (join ad) then _ else _) as [x2|] eqn:E2; cbn in Hcat2; [|done]. rewrite Hcat2.
  cbn [step_path fst snd head default]. destruct (_ && _) eqn:Eb.
  - destruct (Hadd ltac:(done) F M (d ++ [n]) (ad ++ [w])) as (F' & E & Hrep' & Hg); try done.
    { apply Forall_app; auto. } { by destruct d. } { apply Forall_app; auto. } { by destruct ad. }
    exists F', (join (d ++ [n])), (join (ad ++ [w])). rewrite E. done.
  - by exists F, (join (d ++ [n])), (join (ad ++ [w])).
Qed.
Lemma find_make_spec Name rest : forall F M d ad (b : bool) (ac : option (list cstr)) (pn pa : cstr) pc,
  (default [] ac ≠ [] -> adds_strict) ->
  frep F M -> present F d -> Forall good_seg (d ++ rest) -> short (d ++ rest) ->
  Forall good_seg (ad ++ default [] ac) ->
  (default [] ac ≠ [] -> short (ad ++ default [] ac) /\ pn = join d /\ pa = join ad) ->
  (rest = [] -> pc = Some (rpos F d)) ->
  exists F', find_make AddItem Name (tokens rest) (tokens <$> ac) pn pa b (rpos F d) pc (tree_of F, []) =
      Done (Some (rpos F' (d ++ rest)), (tree_of F', [])) /\
    frep F' (make_path Name M d ad b rest (default [] ac)) /\ grows F F' /\ present F' (d ++ rest).
Proof.
  induction rest as [|n rest IH]; intros F M d ad b ac pn pa pc Hadd Hrep Hd Hgood Hshort Hgada Hpn Hpc.
  - exists F. rewrite app_nil_r. cbn [find_make fmap list_fmap make_path]. unfold the_tree, mbind, CM_bind.
    rewrite Hpc by done. split_and!; try done. by destruct (at_ _ _).
  - destruct (children_at F d Hd) as (m & al & st & pa0 & c0 & s0 & Hat & _).
    assert (Hseg : Forall segment (n :: rest)) by (apply (good_segments d); [by apply Forall_app in Hgood as [_ ?]|done]).
    assert (Hsn : segment n) by by inversion Hseg.
    cbn [find_make fmap list_fmap make_path]. unfold the_tree, lift, mbind, CM_bind. rewrite Hat.
    rewrite token_name_of by apply Hsn.
    destruct (partial_names_spec Name F M d ad n rest (default [] ac) pn pa b) as (F1 & pn' & pa' & E & Hrep1 & Hg1 & Hpn'); try done.
    replace (option_bind _ _ _ (tokens <$> ac)) with (head (tokens (default [] ac))) by by destruct ac.
    rewrite E. destruct (step_path Name M d ad b n (default [] ac)) as [[M1 ad1] b1] eqn:Estep. cbn [fst snd] in *.
    destruct (present_grows _ _ d Hg1 Hd) as [Hd1 Hp1]. rewrite <-Hp1.
    destruct (children_at F1 d Hd1) as (m1 & al1 & st1 & pa1 & c1 & s1 & Hat1 & Hwc & Hq).
    specialize (Hwc (proj1 Hrep1)). destruct (Hq [n]) as [Hv Hpos]; [done|]. rewrite (proj2 Hrep1) in Hv.
    destruct (M1 !! (d ++ [n])) as [A|] eqn:EM.
    + rewrite Hat1. cbn [Child].
      destruct (find_child_found c1 (rpos F1 d ++ [ToChild]) n None Hwc) as [prev ->]; [rewrite <-Hv; eauto|].
      rewrite <-app_assoc. cbn [app]. rewrite <-Hpos.
      replace (tail <$> (tokens <$> ac)) with (tokens <$> (tail <$> ac)) by by destruct ac as [[|]|].
      assert (Htl : default [] (tail <$> ac) = tail (default [] ac)) by by destruct ac.
      assert (Hne : tail (default [] ac) ≠ [] -> default [] ac ≠ []) by by destruct (default [] ac).
      assert (Had1 : ad1 ++ tail (default [] ac) = ad ++ default [] ac).
      { destruct (default [] ac) as [|w arest]; cbn in Estep; injection Estep as _ <- _; [done|]. by rewrite <-app_assoc. }
      destruct (IH F1 M1 (d ++ [n]) ad1 b1 (tail <$> ac) pn' pa' (Some (rpos F1 (d ++ [n])))) as (F2 & E2 & Hrep2 & Hg2 & Hp2);
        rewrite ?Htl, ?Had1, <-?app_assoc; auto.
      { right. rewrite (proj2 Hrep1), EM. eauto. }
      { intros H%Hne. destruct (Hpn H) as (? & _ & _). destruct (Hpn' H) as [-> ->]. split_and!; [done|done|].
        f_equal. destruct (default [] ac); [done|]. cbn in Estep. by injection Estep as _ <- _. }
      exists F2. rewrite Htl in Hrep2. rewrite <-app_assoc in *. split_and!; try done. by eapply grows_trans.
    + destruct (attach_leaf F1 d n (proj1 Hrep1) Hd1) as (prev & Hf & _ & _); [by rewrite (proj2 Hrep1)|].
      cbn zeta in Hf. rewrite Hf.
      destruct (make_nodes_spec F1 M1 d n rest prev Hrep1 Hd1 EM Hseg Hf) as (F2 & -> & Hrep2 & Hg2 & Hp2).
      exists F2. split_and!; try done. by eapply grows_trans.
Qed.
End walk.

Lemma words_good s : wf_cstr s -> Forall good_seg (words dot s).
Proof.
  intros Hs. apply Forall_forall. intros w Hw. destruct (words_nonempty dot s w Hw) as [Hne Hd].
  split_and!; [done|by eapply words_wf|]. intros Hin. rewrite Forall_forall in Hd. apply (Hd _ Hin). left.
Qed.

Lemma join_words_length s : (length (join (words dot s)) <= length s)%nat.
Proof.
  assert (Hj : forall ws, ws ≠ [] -> (length (joined dot ws) = length (join ws) + 1)%nat).
  { induction ws as [|w ws IH]; intros Hne; [done|]. rewrite joined_cons. destruct ws as [|w' ws].
    - cbn. rewrite !length_app. cbn. lia.
    - rewrite join_words_cons, !length_app, IH by done. cbn [length lit]. lia. }
  assert (Hw : forall cur, (length (joined dot (words_acc dot cur s)) <= length cur + length s + 1)%nat).
  { induction s as [|c s IH]; intros cur; cbn [words_acc].
    - destruct cur; cbn; rewrite ?length_app; cbn; lia.
    - case_bool_decide.
      + specialize (IH []). destruct cur; cbn [flush app]; [cbn in *; lia|].
        rewrite joined_cons, !length_app. cbn in *. lia.
      + specialize (IH (cur ++ [c])). rewrite length_app in IH. cbn in *. lia. }
  specialize (Hw []). destruct (words dot s) as [|w ws] eqn:E; [cbn; lia|].
  fold (words dot s) in Hw. rewrite E, Hj in Hw by done. cbn [length] in Hw. lia.
Qed.

Lemma valid_name_words s : wf_cstr s -> valid_name (Some s) = Some s -> words dot s ≠ [].
Proof.
  intros Hs Hv. destruct Hs as [|c s Hc Hs]; [done|]. unfold valid_name in Hv. cbn [deref head default] in Hv.
  destruct (Z.eqb_spec c 46) as [->|Hc46]; [by rewrite orb_true_r in Hv|].
  assert (exists u r, s = u ++ r /\ Forall (.∉ dot) u /\ (forall x, head r = Some x -> x ∈ dot)) as (u & r & -> & Hu & Hr).
  { clear. induction s as [|c s (u & r & -> & Hu & Hr)]; [by exists [], []|].
    destruct (decide (c ∈ dot)); [by exists [], (c :: u ++ r); split_and!; [|constructor|intros ? [= <-]]|].
    exists (c :: u), r. repeat split; auto. }
  change (c :: u ++ r) with ((c :: u) ++ r). rewrite words_word; try done. constructor; [|done]. intros Hin. by apply list_elem_of_singleton in Hin.
Qed.

(** *** Adding an item *)

Lemma make_path_strict Name M d ad b ws : make_path Name M d ad b ws [] = ensure M d ws.
Proof.
  revert M d ad b. induction ws as [|n ws IH]; intros M d ad b; [done|]. cbn [make_path step_path ensure].
  by destruct (M !! (d ++ [n])) eqn:E.
Qed.

Lemma tokens_of s : wf_cstr s -> Forall fits (words dot s) -> AnscTcAllocate (Some s) dot [] = Done (Some (tokens (words dot s)), []).
Proof. intros Hs Hf. rewrite AnscTcAllocate_emit by done. cbn [next_alloc negb]. by rewrite emit_fits. Qed.

Lemma short_words s : strlen s < CCSP_Alias_Mgr_Name_Length -> short (words dot s).
Proof. unfold short, strlen. pose proof (join_words_length s). lia. Qed.

Lemma short_fits s : wf_cstr s -> strlen s < CCSP_Alias_Mgr_Name_Length -> Forall fits (words dot s).
Proof.
  intros Hs Hl. eapply Forall_impl; [apply (good_segments [])|by intros w [_ Hf]].
  - by apply words_good. - by apply short_words.
Qed.

Lemma alter_push F M d strict b x :
  frep F M -> d ≠ [] -> present F d ->
  frep (fupd F d (push_node strict b x)) (alter (add_to_attrs strict b x) d M) /\ grows F (fupd F d (push_node strict b x)).
Proof.
  intros [Hwf Hv] Hne Hd. split; [|apply fupd_grows; eapply field_update_local, push_node_update]. split.
  - by apply (fupd_field F d _ _ [] (push_node_update strict b x)).
  - intros q. destruct (fupd_field F d _ _ q (push_node_update strict b x) Hwf) as [_ ->].
    case_decide as Hq; [subst; by rewrite lookup_alter_eq, Hv|by rewrite lookup_alter_ne by done].
Qed.

(** A call that adds an item whose walk is as [find_make_spec] says. *)
Lemma AddItem_walk k F M Name Alias strict arest :
  wf_cstr Name -> wf_cstr Alias -> valid_name (Some Name) = Some Name -> valid_name (Some Alias) = Some Alias ->
  strlen Name < CCSP_Alias_Mgr_Name_Length -> strlen Alias < CCSP_Alias_Mgr_Name_Length ->
  arest = (if (strict : bool) then [] else words dot Alias) ->
  (arest ≠ [] -> adds_strict (CcspAliasMgrAliasTreeAddItem k)) -> frep F M ->
  exists F', CcspAliasMgrAliasTreeAddItem (S k) (Some Name) (Some Alias) strict (tree_of F, []) = Done (true, (tree_of F', [])) /\
    frep F' (add_item M Name Alias strict) /\ grows F F'.
Proof.
  intros Hn Ha Hvn Hva Hln Hla -> Hadd Hrep. set (d := words dot Name).
  pose proof (valid_name_words Name Hn Hvn) as Hne. fold d in Hne.
  destruct (find_make_spec (CcspAliasMgrAliasTreeAddItem k) Name d F M [] [] false
    (if strict then None else Some (words dot Alias)) [] [] None) as (F1 & E & Hrep1 & Hg1 & Hp1); try done.
  - by destruct strict.
  - by left.
  - by apply words_good.
  - by apply short_words.
  - destruct strict; [constructor|by apply words_good].
  - destruct strict; [done|]. intros _. split_and!; [by apply short_words|done|done].
  - destruct (alter_push F1 _ d strict (bool_decide (last Name = Some 46)) Alias Hrep1 Hne Hp1) as [Hrep2 Hg2].
    eexists. split; [|split; [|by eapply grows_trans]].
    + cbn [CcspAliasMgrAliasTreeAddItem]. rewrite Hvn, Hva. unfold CcspAliasMgrFindMakeNode, allocating, mbind, CM_bind.
      cbn [app rpos] in E. destruct strict; cbn [fmap option_fmap option_map] in E;
        rewrite !tokens_of by (try done; by apply short_fits); fold d; rewrite E;
        by apply add_alias_spec; [apply Hrep1|..].
    + unfold add_item. fold d. by destruct strict.
Qed.

Lemma AddItem_strict k : adds_strict (CcspAliasMgrAliasTreeAddItem (S k)).
Proof.
  intros F M d ad Hrep Hd Hdne Hds Had Hane Has.
  destruct (AddItem_walk k F M (join d) (join ad) true []) as (F' & E & Hrep' & Hg'); try done;
    try (by apply join_wf); try (by apply join_valid).
  exists F'. split_and!; [done| |done]. unfold add_item in Hrep'. cbn zeta in Hrep'.
  rewrite words_join, make_path_strict, join_last in Hrep' by done. exact Hrep'.
Qed.

Lemma AddItem_spec k F M Name Alias strict :
  wf_cstr Name -> wf_cstr Alias -> valid_name (Some Name) = Some Name -> valid_name (Some Alias) = Some Alias ->
  strlen Name < CCSP_Alias_Mgr_Name_Length -> strlen Alias < CCSP_Alias_Mgr_Name_Length -> frep F M ->
  exists F', CcspAliasMgrAliasTreeAddItem (S (S k)) (Some Name) (Some Alias) strict (tree_of F, []) =
      Done (true, (tree_of F', [])) /\ frep F' (add_item M Name Alias strict).
Proof.
  intros. destruct (AddItem_walk (S k) F M Name Alias strict (if strict then [] else words dot Alias))
    as (F' & E & Hrep' & _); try done; [intros _; apply AddItem_strict|]. by exists F'.
Qed.
