(* ===== verification/AliasMgr.v ===== *)
(** * The alias manager ([CCSP_AliasMgr], looking up and translating)

    Looking up a name in a tree of [AliasTree], translating a name with its
    aliases and instance numbers, and the manager with its two trees.  The
    nodes of the mapper file come from the XML parser; what the manager calls
    of it is the class [XmlDom].  What [sprintf_s] leaves when a text does not
    fit differs between the two implementations the code can be built with;
    it is the class [SafeString]. *)

From S2P Require Import Prelude CStrings Tokens IpAddr AliasTree.
Open Scope Z_scope.

(** The text [sprintf_s] writes to a buffer of [dmax] bytes. *)
Class SafeString := {
  sprintf_s_rest : Z -> cstr -> cstr;
  sprintf_s_rest_fits : forall dmax s, 0 < dmax -> strlen (sprintf_s_rest dmax s) < dmax
}.
Definition sprintf_s `{SafeString} (dmax : Z) (s : cstr) : cstr :=
  if strlen s <? dmax then s else sprintf_s_rest dmax s.

(** The replacement in safec_lib_common.h prints what fits; the library
    leaves an empty string. *)
Definition parseFormat_rest (dmax : Z) (s : cstr) : cstr := take (Z.to_nat (dmax - 1)) s.
#[export, refine] Instance parseFormat : SafeString := {| sprintf_s_rest := parseFormat_rest |}.
Proof. intros dmax s H. unfold parseFormat_rest, strlen. rewrite length_take. lia. Defined.
#[refine] Instance safeclib : SafeString := {| sprintf_s_rest := fun _ _ => [] |}.
Proof. intros. done. Defined.

Implicit Types (l q : list (option cstr)) (a : alloc_stream) (e : entry).

(** ** Instance identifiers *)

Section identifiers.
Context `{Platform}.

Definition CcspAliasMgrIsNameInsIdentifier (Name : cstr) : bool :=
  if deref Name =? 48 then false
  else
    let InsNumber := atol Name mod 2 ^ 32 in
    if InsNumber =? 0 then (deref Name =? 91) && bool_decide (last Name = Some 93)
    else bool_decide (fmt_u 10 InsNumber = Name).

(** ** Queues of strings *)

Definition QueueInit : list (option cstr) := [].
Definition QueuePush q (Value : option cstr) a : bool * list (option cstr) * alloc_stream :=
  let '(ok, a) := next_alloc a in
  if ok then (true, q ++ [Value], a) else (false, q, a).

(** [pLink] is the place of an entry; NULL starts at the front. *)
Definition QueueGetNext q (pLink : option nat) : option (option cstr * nat) :=
  let i := match pLink with None => O | Some i => S i end in
  (fun v => (v, i)) <$> q !! i.
Definition IsQueueEmpty q : bool := USHORT (Zlen q) =? 0.
Definition QueueRemoveAll q : list cstr * list (option cstr) := (omap id q, []).

(** ** Looking up a name *)

(** The child that matches a segment. *)
Fixpoint match_child (pChildNode : entry) (bInsId : bool) (name : cstr) : outcome entry :=
  match pChildNode with
  | NoEntry => Done NoEntry
  | Entry None _ _ _ _ _ => Stuck NullDeref
  | Entry (Some n) _ _ _ _ s =>
      if negb bInsId && bool_decide (name = n) then Done pChildNode
      else if bInsId && bool_decide (n = lit "{i}") then Done pChildNode
      else match_child s bInsId name
  end.

(** A copy of an instance identifier is queued; a failed copy is queued as
    NULL. *)
Definition push_id (name : cstr) q : CM alloc_stream (list (option cstr)) := fun a =>
  let '(ok, a) := next_alloc a in
  let '(_, q, a) := QueuePush q (if ok then Some name else None) a in
  Done (q, a).

(** The loop: the node with the aliases, the tokens left and the queue. *)
Fixpoint lookup_walk (pNsTokenChain : ANSC_TOKEN_CHAIN) (pNode : entry) q
  : CM alloc_stream (option entry * ANSC_TOKEN_CHAIN * list (option cstr)) :=
  match pNode, pNsTokenChain with
  | NoEntry, _ | _, [] => mret (None, pNsTokenChain, q)
  | _, pStringToken :: pNsTokenChain =>
      fun a =>
      name ← token_name pStringToken;
      let bInsId := CcspAliasMgrIsNameInsIdentifier name in
      r ← (if bInsId then push_id name q a else Done (q, a));
      let '(q, a) := r in
      pChildNode ← match_child (Child pNode) bInsId name;
      match pChildNode with
      | NoEntry => Done ((None, pNsTokenChain, q), a)
      | _ =>
          if negb (StringSListIsEmpty (Aliases pChildNode)) then Done ((Some pChildNode, pNsTokenChain, q), a)
          else
            len ← AnscTcGetLength pNsTokenChain;
            if (len =? 0) && negb (StringSListIsEmpty (StrictAliases pChildNode))
            then Done ((Some pChildNode, pNsTokenChain, q), a)
            else lookup_walk pNsTokenChain pChildNode q a
      end
  end.

(** The segments left, each behind a dot; None when they are too long. *)
Fixpoint append_remaining (pNsTokenChain : ANSC_TOKEN_CHAIN) (OutRemaining : cstr) (RemainingSize : Z)
  : outcome (option cstr) :=
  match pNsTokenChain with
  | [] => Done (Some OutRemaining)
  | pStringToken :: pNsTokenChain =>
      name ← token_name pStringToken;
      if strlen OutRemaining + strlen name <=? RemainingSize - 1 then
        OutRemaining ← AnscCatString (CCSP_Alias_Mgr_Name_Length + 1) OutRemaining dot;
        OutRemaining ← AnscCatString (CCSP_Alias_Mgr_Name_Length + 1) OutRemaining name;
        append_remaining pNsTokenChain OutRemaining RemainingSize
      else Done None
  end.

(** The node, the rest of the name and the instance identifiers. *)
Definition lookup_end (r : option entry * ANSC_TOKEN_CHAIN * list (option cstr)) (OutRemaining : cstr) (RemainingSize : Z)
  : outcome (option (entry * cstr) * list (option cstr)) :=
  match r with
  | (None, _, q) => Done (None, q)
  | (Some pAliasNode, pNsTokenChain, q) =>
      rest ← append_remaining pNsTokenChain OutRemaining RemainingSize;
      Done (match rest with Some x => Some (pAliasNode, x) | None => None end, q)
  end.
Definition CcspAliasMgrLookupAliasNode (pRoot : entry) (Name : cstr) q (OutRemaining : cstr) (RemainingSize : Z)
  : CM alloc_stream (option (entry * cstr) * list (option cstr)) := fun a =>
  r ← AnscTcAllocate (Some Name) dot a;
  match r with
  | (None, a) => Done ((None, q), a)
  | (Some pNsTokenChain, a) =>
      r ← lookup_walk pNsTokenChain pRoot q a;
      x ← lookup_end r.1 OutRemaining RemainingSize;
      Done (x, r.2)
  end.

(** ** Translating *)

Section translate.
Context `{SafeString}.

(** [Result] holds at most 256 bytes. *)
Definition print_to (Result text : cstr) : cstr :=
  Result ++ sprintf_s (CCSP_Alias_Mgr_Name_Length + 1 - strlen Result) text.

Fixpoint replace_ids (pNsTokenChain : ANSC_TOKEN_CHAIN) (Result : cstr) q (pLink : option nat)
  : outcome (bool * cstr) :=
  match pNsTokenChain with
  | [] => Done (true, Result)
  | pStringToken :: pNsTokenChain =>
      name ← token_name pStringToken;
      if negb (IsQueueEmpty q) && bool_decide (name = lit "{i}") then
        match QueueGetNext q pLink with
        | Some (Some InsId, pLink) => replace_ids pNsTokenChain (print_to Result (dot ++ InsId)) q (Some pLink)
        | _ => Done (false, Result)
        end
      else
        replace_ids pNsTokenChain
          (if strlen Result =? 0 then print_to Result name else print_to Result (dot ++ name)) q pLink
  end.
Definition CcspAliasMgrReplaceInstanceIds (Alias Result : cstr) q : CM alloc_stream (bool * cstr) :=
  fun a =>
  r ← AnscTcAllocate (Some Alias) dot a;
  match r with
  | (None, a) => Done ((false, Result), a)
  | (Some pNsTokenChain, a) => r ← replace_ids pNsTokenChain Result q None; Done (r, a)
  end.

(** The loop over the aliases of the node.  [pListResult] is NULL when a name
    is too long or an allocation fails. *)
Fixpoint find_loop (pAliasList : list (option cstr)) (remaining : cstr) (isPartialName : bool) q (result : bool)
    (pListResult : list (option cstr)) a : outcome (option (list (option cstr)) * alloc_stream) :=
  match pAliasList with
  | [] => Done (Some pListResult, a)
  | None :: pAliasList => find_loop pAliasList remaining isPartialName q result pListResult a
  | Some Value :: pAliasList =>
      if negb result then Stuck NullDeref
      else
        r ← CcspAliasMgrReplaceInstanceIds Value [] q a;
        let '((replaced, text), a) := r in
        if negb replaced then find_loop pAliasList remaining isPartialName q result pListResult a
        else if (0 <? strlen remaining) && (CCSP_Alias_Mgr_Name_Length <? strlen text + strlen remaining)
        then Done (None, a)
        else
          let size := CCSP_Alias_Mgr_Name_Length + 1 in
          text ← (if 0 <? strlen remaining then AnscCatString size text remaining else Done text);
          text ← (if isPartialName then AnscCatString size text dot else Done text);
          let '(entry_ok, a) := next_alloc a in
          let '(value_ok, a) := if entry_ok then next_alloc a else (false, a) in
          if negb value_ok then Done (None, a)
          else find_loop pAliasList remaining isPartialName q result (Some text :: pListResult) a
  end.

Definition CcspAliasMgrFindAliases (pRoot : entry) (Name : cstr) a
  : outcome (option (list (option cstr)) * alloc_stream) :=
  match last Name with
  | None => Stuck OutOfBounds
  | Some c =>
      let isPartialName := c =? 46 in
      r ← CcspAliasMgrLookupAliasNode pRoot Name QueueInit [] CCSP_Alias_Mgr_Name_Length a;
      match r with
      | ((None, _), a) => Done (None, a)
      | ((Some (pAliasNode, remaining), q), a) =>
          let pAliasList := if negb (StringSListIsEmpty (Aliases pAliasNode))
                            then Aliases pAliasNode else StrictAliases pAliasNode in
          if StringSListIsEmpty pAliasList then Done (None, a)
          else
            let '(result, a) := next_alloc a in
            let '(list_ok, a) := next_alloc a in
            if list_ok then find_loop pAliasList remaining isPartialName q result [] a else Done (None, a)
      end
  end.
End translate.
End identifiers.

(** ** The manager *)

Record CCSP_ALIAS_MNGR_OBJECT := AliasMgr { AliasExtTree : entry; AliasIntTree : entry }.
Abbreviation mgr := CCSP_ALIAS_MNGR_OBJECT.

Definition CcspAliasMgrInitialize a : option mgr * alloc_stream :=
  let '(ok, a) := next_alloc a in (if ok then Some (AliasMgr NoEntry NoEntry) else None, a).

(** The strings freed. *)
Definition CcspAliasMgrFree (hAliasMgr : option mgr) : list cstr :=
  match hAliasMgr with
  | None => []
  | Some pam => CcspAliasMgrFreeAliasTree (AliasExtTree pam) ++ CcspAliasMgrFreeAliasTree (AliasIntTree pam)
  end.

(** What the manager calls of the nodes of the XML parser.  [GetDataString] is
    given a buffer of zeros that has one byte more than the size, which is read
    as a string afterwards; [GetAttrBoolean] the value that is there when it
    leaves none. *)
Class XmlDom (node : Type) := {
  NodeName : node -> cstr;
  Children : node -> list node;
  GetChildByName : node -> cstr -> option node;
  GetDataString : node -> Z -> outcome cstr;
  GetAttrBoolean : node -> cstr -> bool -> outcome bool
}.

Section load.
Context {node : Type} `{XmlDom node}.

(** The text of a child is left empty when there is none. *)
Definition child_text (pPiNode : node) (name : cstr) : outcome cstr :=
  match GetChildByName pPiNode name with
  | None => Done []
  | Some pChildNode => GetDataString pChildNode CCSP_Alias_Mgr_Name_Length
  end.

Definition add_fuel : nat := 2.

Definition CcspAliasMgrLoadAliasInfo (hAliasMgr : option mgr) (pPiNode : option node) a
  : outcome (bool * option mgr * alloc_stream) :=
  match pPiNode, hAliasMgr with
  | Some pPiNode, Some pam =>
      internal ← child_text pPiNode (lit "Internal");
      external ← child_text pPiNode (lit "External");
      bStrict ← GetAttrBoolean pPiNode (lit "strict") false;
      let '(ok, ext, a) := CcspAliasMgrEnsureTree (AliasExtTree pam) a in
      if negb ok then Done (false, Some (AliasMgr ext (AliasIntTree pam)), a)
      else
        let '(ok, int, a) := CcspAliasMgrEnsureTree (AliasIntTree pam) a in
        if negb ok then Done (false, Some (AliasMgr ext int), a)
        else
          r ← CcspAliasMgrAliasTreeAddItem add_fuel (Some external) (Some internal) bStrict (ext, a);
          let '(bSucc, (ext, a)) := r in
          if bSucc && negb (bool_decide (internal = external)) then
            r ← CcspAliasMgrAliasTreeAddItem add_fuel (Some internal) (Some external) bStrict (int, a);
            let '(_, (int, a)) := r in
            Done (bSucc, Some (AliasMgr ext int), a)
          else Done (bSucc, Some (AliasMgr ext int), a)
  | _, _ => Done (false, hAliasMgr, a)
  end.

Fixpoint load_nodes (hAliasMgr : option mgr) (nodes : list node) a : outcome (option mgr * alloc_stream) :=
  match nodes with
  | [] => Done (hAliasMgr, a)
  | pListNode :: nodes =>
      r ← CcspAliasMgrLoadAliasInfo hAliasMgr (Some pListNode) a;
      let '(_, hAliasMgr, a) := r in
      load_nodes hAliasMgr nodes a
  end.
Fixpoint load_lists (hAliasMgr : option mgr) (nodes : list node) a : outcome (option mgr * alloc_stream) :=
  match nodes with
  | [] => Done (hAliasMgr, a)
  | pChildNode :: nodes =>
      r ← (if bool_decide (NodeName pChildNode = lit "AliasList")
           then load_nodes hAliasMgr (Children pChildNode) a else Done (hAliasMgr, a));
      let '(hAliasMgr, a) := r in
      load_lists hAliasMgr nodes a
  end.

(** The name of the first child is read before it is tested for NULL. *)
Definition CcspAliasMgrLoadFromXMLFile (hAliasMgr : option mgr) (pXMLHandle : option node) a
  : outcome (bool * option mgr * alloc_stream) :=
  match pXMLHandle with
  | None => Done (false, hAliasMgr, a)
  | Some pHandle =>
      match Children pHandle with
      | [] => Stuck NullDeref
      | nodes => r ← load_lists hAliasMgr nodes a; Done (true, r.1, r.2)
      end
  end.
End load.

Section names.
Context `{Platform, SafeString}.

Definition CcspAliasMgrGetInternalNames (hAliasMgr : option mgr) (ParamName : cstr)
  a : outcome (option (list (option cstr)) * alloc_stream) :=
  match hAliasMgr with
  | None => Stuck NullDeref
  | Some pam => CcspAliasMgrFindAliases (AliasExtTree pam) ParamName a
  end.

(** The name and the list left. *)
Definition CcspAliasMgrGetNextName (pNamesList : option (list (option cstr))) : option cstr * option (list (option cstr)) :=
  match pNamesList with
  | Some (Value :: l) => (Value, Some l)
  | _ => (None, pNamesList)
  end.

(** The strings freed; the header of the list is freed with them. *)
Definition CcspAliasMgrFreeNamesList (pNamesList : option (list (option cstr))) : outcome (list cstr) :=
  match pNamesList with None => Stuck NullDeref | Some l => Done (omap id l) end.

Definition first_name (pNamesList : option (list (option cstr))) : outcome (option cstr) :=
  match pNamesList with
  | None => Done None
  | Some _ =>
      let '(res, pNamesList) := CcspAliasMgrGetNextName pNamesList in
      _ ← CcspAliasMgrFreeNamesList pNamesList;
      Done res
  end.
Definition CcspAliasMgrGetFirstInternalName (hAliasMgr : option mgr) (ParamName : cstr) a
  : outcome (option cstr * alloc_stream) :=
  r ← CcspAliasMgrGetInternalNames hAliasMgr ParamName a;
  res ← first_name r.1;
  Done (res, r.2).
Definition CcspAliasMgrGetExternalName (hAliasMgr : option mgr) (ParamName : cstr) a
  : outcome (option cstr * alloc_stream) :=
  match hAliasMgr with
  | None => Stuck NullDeref
  | Some pam =>
      r ← CcspAliasMgrFindAliases (AliasIntTree pam) ParamName a;
      res ← first_name r.1;
      Done (res, r.2)
  end.
End names.

(** ** Instance identifiers *)

Section identifier.
Context `{Platform}.

(** The names that are instance identifiers: canonical decimal numerals that
    fit an unsigned int and a long, and bracketed names. *)
Definition instance_id (Name : cstr) : Prop :=
  (exists v, 1 <= v < 2 ^ 32 /\ v < 2 ^ (ulong_bits - 1) /\ decimal v Name) \/
  (exists s, Name = 91 :: s ++ [93]).

Lemma long_max : 2 ^ 31 <= 2 ^ (ulong_bits - 1).
Proof. destruct ulong_bits_ok as [-> | ->]; by vm_compute. Qed.

(** A segment is an instance identifier exactly when it is the canonical
    decimal numeral of a number from 1 that fits an unsigned int and a long,
    or is enclosed in brackets. *)
Theorem CcspAliasMgrIsNameInsIdentifier_spec Name : CcspAliasMgrIsNameInsIdentifier Name = true <-> instance_id Name.
Proof.
  pose proof long_max. unfold CcspAliasMgrIsNameInsIdentifier. split.
  - destruct (Z.eqb_spec (deref Name) 48) as [|H48]; [done|]. cbn zeta.
    pose proof (Z.mod_pos_bound (atol Name) (2 ^ 32) ltac:(lia)) as Hm. destruct (Z.eqb_spec (atol Name mod 2 ^ 32) 0) as [E|E].
    + intros [H1 H2%bool_decide_eq_true]%andb_prop. right. destruct Name as [|c s]; [done|].
      apply Z.eqb_eq in H1. cbn in H1. subst c. apply last_Some in H2 as [l El].
      destruct l as [|x l]; [by injection El|]. injection El as -> ->. by exists l.
    + intros E2%bool_decide_eq_true. left. set (v := atol Name mod 2 ^ 32) in *.
      assert (Hd : decimal v Name) by (rewrite <-E2; apply fmt_u_decimal; lia).
      exists v. split_and!; [lia|lia| |done].
      assert (Ha : atoi Name = v) by (destruct Hd as (Hd & <- & _); by apply atoi_digit_string).
      destruct (Z.lt_ge_cases v (2 ^ (ulong_bits - 1))) as [|Hge]; [done|]. exfalso.
      assert (Hl : atol Name = 2 ^ (ulong_bits - 1) - 1) by (unfold atol; lia).
      unfold v in Hge, Hm. rewrite Hl in Hge, Hm. destruct ulong_bits_ok as [Hb|Hb]; rewrite Hb in Hge, Hm; [|lia].
      by rewrite Z.mod_small in Hge.
  - intros [(v & Hv & Hl & Hd)|[s ->]].
    + assert (Ha : atoi Name = v) by (destruct Hd as (Hs & <- & _); by apply atoi_digit_string).
      assert (Hat : atol Name mod 2 ^ 32 = v) by (unfold atol; rewrite Ha; rewrite Z.mod_small; lia).
      rewrite Hat. destruct (Z.eqb_spec (deref Name) 48) as [H48|H48].
      * destruct Hd as (_ & <- & c & r & -> & Hc). cbn in H48. subst c. rewrite (Hc eq_refl) in Hv. unfold num_value in Hv. cbn in Hv. lia.
      * destruct (Z.eqb_spec v 0); [lia|]. apply bool_decide_eq_true. apply fmt_u_of; [done|lia].
    + assert (Hat : atol (91 :: s ++ [93]) mod 2 ^ 32 = 0).
      { assert (Ha : atoi (91 :: s ++ [93]) = 0) by reflexivity. unfold atol. rewrite Ha, Z.mod_small; lia. }
      rewrite Hat. change (bool_decide (last ((91 :: s) ++ [93]) = Some 93) = true). by rewrite last_snoc, bool_decide_true.
Qed.


End identifier.

(** ** What looking up and translating mean for a map *)

Section spec.
Context `{Platform}.
Implicit Types (M : amap) (d ns ids : list cstr) (A : attrs).

(** A segment as it is spelled in the tree. *)
Definition key (n : cstr) : cstr := if CcspAliasMgrIsNameInsIdentifier n then lit "{i}" else n.

(** The first name on the path with aliases, else the whole name if it has
    strict ones; with the instance identifiers met on the way, and the rest of
    the path. *)
Fixpoint map_lookup M d ids ns : option (attrs * list cstr * list cstr) :=
  match ns with
  | [] => None
  | n :: rest =>
      let d := d ++ [key n] in
      let ids := if CcspAliasMgrIsNameInsIdentifier n then ids ++ [n] else ids in
      A ← M !! d;
      if bool_decide (a_aliases A = []) then
        if bool_decide (rest = []) && negb (bool_decide (a_strict A = [])) then Some (A, ids, rest)
        else map_lookup M d ids rest
      else Some (A, ids, rest)
  end.

(** The segments of an alias with the identifiers put in; None when there are
    fewer identifiers than places.  A leading place yields a leading dot. *)
Fixpoint fill (replace : bool) (text : cstr) (ws ids : list cstr) : option cstr :=
  match ws with
  | [] => Some text
  | w :: ws =>
      if replace && bool_decide (w = lit "{i}") then
        match ids with [] => None | i :: ids => fill replace (text ++ dot ++ i) ws ids end
      else fill replace (match text with [] => w | _ => text ++ dot ++ w end) ws ids
  end.
Definition filled (ids : list cstr) (alias : cstr) : option cstr :=
  fill (negb (bool_decide (ids = []))) [] (words dot alias) ids.

(** The rest of a path, each segment behind a dot. *)
Definition rest_text (ns : list cstr) : cstr := mjoin ((fun w => dot ++ w) <$> ns).

(** The aliases that count: the strict ones only when there are no others. *)
Definition active A : list cstr := if bool_decide (a_aliases A = []) then a_strict A else a_aliases A.

(** All translations of a name, in the order in which the aliases were
    added. *)
Definition translate M (Name : cstr) : option (list cstr) :=
  match map_lookup M [] [] (words dot Name) with
  | None => None
  | Some (A, ids, rest) =>
      if CCSP_Alias_Mgr_Name_Length <? strlen (rest_text rest) then None
      else Some (rev (omap (fun v => (fun x => x ++ rest_text rest ++ if bool_decide (last Name = Some 46) then dot else []) <$> filled ids v)
                           (active A)))
  end.

(** No list is so long that its 16-bit depth wraps. *)
Definition depths_ok M : Prop :=
  forall d A, M !! d = Some A -> Zlen (a_aliases A) < 65536 /\ Zlen (a_strict A) < 65536.

(** *** The code looks up what the map says *)

Lemma list_is_empty (l : list cstr) : Zlen l < 65536 -> StringSListIsEmpty (Some <$> l) = bool_decide (l = []).
Proof.
  intros Hl. unfold StringSListIsEmpty. rewrite length_fmap, USHORT_small by lia. by destruct l.
Qed.

Lemma all_some l : Forall is_Some l -> l = Some <$> omap id l.
Proof. induction 1 as [|v l [w ->] _ IH]; [done|]. cbn. by f_equal. Qed.

Lemma match_child_spec (c : entry) (b : bool) (n : cstr) :
  let k := if b then lit "{i}" else n in
  wf_forest c -> exists e, match_child c b n = Done e /\
    match fview c [k] with
    | None => e = NoEntry
    | Some A => exists m pa c' s, e = Entry m (Some <$> a_aliases A) (Some <$> a_strict A) pa c' s /\ wf_forest c' /\
        forall r : list cstr, r ≠ [] -> fview c (k :: r) = fview c' r
    end.
Proof.
  intros k. induction c as [|m al st pa c' _ s IHs]; intros Hwf; [by exists NoEntry|].
  cbn in Hwf. destruct Hwf as ([m' ->] & Hal & Hst & Hc & Hs).
  assert (E : match_child (Entry (Some m') al st pa c' s) b n =
    if decide (Some m' = Some k) then Done (Entry (Some m') al st pa c' s) else match_child s b n).
  { cbn [match_child]. unfold k. destruct b; cbn [negb andb].
    - case_bool_decide; [rewrite decide_True by congruence|rewrite decide_False by congruence]; done.
    - case_bool_decide; [rewrite decide_True by congruence|rewrite decide_False by congruence]; done. }
  rewrite E. destruct (decide (Some m' = Some k)) as [[= ->]|Hk].
  - eexists. split; [done|]. rewrite fview_hit. exists (Some k), pa, c', s.
    cbn. rewrite <-!all_some by done. split_and!; [done|done|]. intros [|x q] Hq; [done|]. by rewrite decide_True.
  - destruct (IHs Hs) as (e & -> & He). exists e. split; [done|]. rewrite fview_skip by done.
    destruct (fview s [k]); [|done]. destruct He as (m & pa' & c2 & s2 & -> & Hc2 & Hq).
    exists m, pa', c2, s2. split_and!; [done|done|]. intros q Hne. rewrite fview_skip by done. by apply Hq.
Qed.

Lemma token_length ns :
  Forall segment ns -> Zlen (joined dot ns) < 2 ^ ulong_bits ->
  exists len, AnscTcGetLength (tokens ns) = Done len /\ (len =? 0) = bool_decide (ns = []).
Proof.
  intros Hs Hl. eexists. split.
  - apply AnscTcGetLength_spec; eapply Forall_impl; [done|by intros w [? _]|done|by intros w [_ ?]].
  - assert (Hsum : foldr (fun w n => strlen w + 1 + n) 0 ns = Zlen (joined dot ns)).
    { clear. induction ns as [|w ns IH]; [done|]. cbn [foldr]. rewrite IH, joined_cons, !length_app.
      unfold strlen. cbn [length deref lit head default]. lia. }
    rewrite Hsum, ULONG_small by lia. destruct ns as [|w ns]; [done|].
    rewrite bool_decide_false by done. apply Z.eqb_neq. rewrite joined_cons, !length_app. cbn. lia.
Qed.

Lemma lookup_walk_spec M ns : forall d ids e,
  depths_ok M -> e ≠ NoEntry -> wf_forest (Child e) -> (forall r : list cstr, r ≠ [] -> M !! (d ++ r) = fview (Child e) r) ->
  Forall segment ns -> Zlen (joined dot ns) < 2 ^ ulong_bits ->
  exists (res : option entry) ts q', lookup_walk (tokens ns) e (Some <$> ids) [] = Done ((res, ts, q'), []) /\
    match map_lookup M d ids ns with
    | None => res = None
    | Some (A, ids', rest) => exists m pa c s,
        res = Some (Entry m (Some <$> a_aliases A) (Some <$> a_strict A) pa c s) /\
        ts = tokens rest /\ q' = Some <$> ids' /\ Forall segment rest /\
        Zlen (a_aliases A) < 65536 /\ Zlen (a_strict A) < 65536 /\ active A ≠ []
    end.
Proof.
  induction ns as [|n ns IH]; intros d ids e Hdep He Hwf HM Hs Hl.
  - eexists _, _, _. by destruct e.
  - apply Forall_cons in Hs as [Hn Hs]. destruct e as [|m al st pa c s]; [done|]. cbn [Child] in Hwf, HM.
    assert (Hl' : Zlen (joined dot ns) < 2 ^ ulong_bits) by (rewrite joined_cons, !length_app in Hl; lia).
    cbn [fmap list_fmap lookup_walk map_lookup]. rewrite token_name_of by apply Hn.
    cbn [mbind outcome_bind]. set (b := CcspAliasMgrIsNameInsIdentifier n).
    assert (Hpush : (if b then push_id n (Some <$> ids) [] else Done (Some <$> ids, [])) =
      Done (Some <$> (if b then ids ++ [n] else ids), [] : alloc_stream)).
    { destruct b; [|done]. unfold push_id. cbn [next_alloc QueuePush]. by rewrite fmap_app. }
    rewrite Hpush. cbn [mbind outcome_bind]. set (ids1 := if b then ids ++ [n] else ids) in *.
    destruct (match_child_spec c b n Hwf) as (e & Em & He'). cbn [Child]. rewrite Em. clear Em.
    assert (Hk : (if b then lit "{i}" else n) = key n) by done. rewrite Hk in He'.
    rewrite HM by done. destruct (fview c [key n]) as [A|] eqn:EA.
    + destruct He' as (m' & pa' & c' & s' & -> & Hc' & Hq).
      assert (HMA : M !! (d ++ [key n]) = Some A) by (by rewrite HM).
      destruct (Hdep _ _ HMA) as [Hda Hds]. cbn [mbind outcome_bind option_bind Aliases StrictAliases].
      rewrite !list_is_empty by done.
      destruct (bool_decide_reflect (a_aliases A = [])) as [Ea|Ea]; cbn [negb].
      * destruct (token_length ns Hs Hl') as (len & -> & Elen). cbn. rewrite Elen.
        destruct (bool_decide (ns = []) && _) eqn:Eb.
        -- apply andb_prop in Eb as [->%bool_decide_eq_true Est%negb_true_iff%bool_decide_eq_false].
           eexists _, _, _. split; [done|]. exists m', pa', c', s'. split_and!; try done.
           unfold active. by rewrite bool_decide_true.
        -- apply (IH (d ++ [key n]) ids1); try done. intros r Hr. rewrite <-app_assoc, HM by by destruct r. by apply Hq.
      * eexists _, _, _. split; [done|]. exists m', pa', c', s'. split_and!; try done.
        unfold active. by rewrite bool_decide_false.
    + subst e. eexists _, _, _. by split.
Qed.

Lemma map_lookup_length M ns : forall d ids A ids' rest,
  map_lookup M d ids ns = Some (A, ids', rest) -> (length ids' <= length ids + length ns)%nat.
Proof.
  induction ns as [|n ns IH]; intros d ids A ids' rest; cbn [map_lookup]; [done|].
  set (ids1 := if CcspAliasMgrIsNameInsIdentifier n then _ else _).
  assert (H1 : (length ids1 <= S (length ids))%nat) by (unfold ids1; destruct (CcspAliasMgrIsNameInsIdentifier n);
    rewrite ?length_app; cbn; lia).
  destruct (M !! _) as [B|]; cbn; [|done]. repeat case_match; intros E; try (injection E as <- <- <-; lia).
  apply IH in E. lia.
Qed.

(** What is found is in the map. *)
Lemma map_lookup_in M ns : forall d ids A ids' rest,
  map_lookup M d ids ns = Some (A, ids', rest) -> exists d', M !! d' = Some A.
Proof.
  induction ns as [|n ns IH]; intros d ids A ids' rest; cbn [map_lookup]; [done|].
  destruct (M !! (d ++ [key n])) as [B|] eqn:EB; cbn; [|done].
  repeat case_match; intros E; try (injection E as <- <- <-; by exists (d ++ [key n]));
    by eapply IH.
Qed.

Lemma append_remaining_spec rest out :
  Forall segment rest -> strlen out <= CCSP_Alias_Mgr_Name_Length ->
  append_remaining (tokens rest) out CCSP_Alias_Mgr_Name_Length =
    Done (if CCSP_Alias_Mgr_Name_Length <? strlen (out ++ rest_text rest) then None else Some (out ++ rest_text rest)).
Proof.
  unfold CCSP_Alias_Mgr_Name_Length. intros Hs. revert out. induction Hs as [|w rest [Hw Hf] Hs IH]; intros out Ho.
  - cbn [fmap list_fmap append_remaining]. unfold rest_text. cbn [fmap list_fmap mjoin list_join]. rewrite app_nil_r.
    by rewrite (proj2 (Z.ltb_ge _ _)).
  - assert (Er : out ++ rest_text (w :: rest) = (out ++ dot ++ w) ++ rest_text rest).
    { unfold rest_text. cbn [fmap list_fmap mjoin list_join]. by rewrite <-!app_assoc. }
    cbn [fmap list_fmap append_remaining]. rewrite token_name_of by done. cbn [mbind outcome_bind]. rewrite Er.
    assert (El : strlen (out ++ dot ++ w) = strlen out + 1 + strlen w) by (unfold strlen; rewrite !length_app; cbn; lia).
    destruct (Z.leb_spec (strlen out + strlen w) (256 - 1)) as [Hle|Hgt].
    + unfold AnscCatString, CCSP_Alias_Mgr_Name_Length.
      rewrite (proj2 (Z.ltb_lt (strlen out + strlen dot) _)) by (unfold strlen in *; cbn [length lit]; lia).
      cbn [mbind outcome_bind].
      rewrite (proj2 (Z.ltb_lt (strlen (out ++ dot) + _) _)) by (unfold strlen in *; rewrite length_app; cbn [length lit]; lia).
      cbn [mbind outcome_bind]. rewrite <-app_assoc. apply IH. lia.
    + rewrite (proj2 (Z.ltb_lt _ _)); [done|]. unfold strlen in *. rewrite length_app. lia.
Qed.

Context `{SafeString}.

Lemma print_to_fits text x : strlen (text ++ x) <= CCSP_Alias_Mgr_Name_Length -> print_to text x = text ++ x.
Proof.
  unfold print_to, sprintf_s, strlen. rewrite length_app. intros Hl. by rewrite (proj2 (Z.ltb_lt _ _)) by lia.
Qed.

Lemma fill_prefix r text ws ids x : fill r text ws ids = Some x -> (length text <= length x)%nat.
Proof.
  revert text ids. induction ws as [|w ws IH]; intros text ids; cbn [fill]; [by intros [= ->]|].
  destruct (r && _).
  - destruct ids as [|i ids]; [done|]. intros E%IH. rewrite length_app in E. lia.
  - intros E%IH. destruct text; [cbn; lia|]. rewrite length_app in E. lia.
Qed.

Lemma replace_ids_spec all ws : forall T link text,
  Forall segment ws -> Zlen all < 65536 ->
  let ids := drop (match link with None => O | Some i => S i end) all in
  let r := fill (negb (bool_decide (all = []))) text ws ids in
  exists t, replace_ids (tokens ws) T (Some <$> all) link = Done (bool_decide (is_Some r), t) /\
    (T = text -> forall x, r = Some x -> strlen x <= CCSP_Alias_Mgr_Name_Length -> t = x).
Proof.
  induction ws as [|w ws IH]; intros T link text Hs Ha; cbn zeta.
  - exists T. split; [done|]. by intros -> x [= ->].
  - apply Forall_cons in Hs as [[Hw Hf] Hs]. cbn [fmap list_fmap replace_ids fill]. rewrite token_name_of by done.
    cbn [mbind outcome_bind]. unfold IsQueueEmpty. rewrite length_fmap, USHORT_small by lia.
    replace (Zlen all =? 0) with (bool_decide (all = [])) by by destruct all.
    destruct (_ && _) eqn:Eb.
    + unfold QueueGetNext. rewrite list_lookup_fmap. set (i := match link with None => O | Some i => S i end).
      destruct (all !! i) as [v|] eqn:Ev.
      * rewrite (drop_S _ v) by done. cbn [fmap option_fmap option_map].
        destruct (IH (print_to T (dot ++ v)) (Some i) (text ++ dot ++ v) Hs Ha) as (t & E & Ht). cbn zeta in *.
        exists t. split; [exact E|]. intros -> x Hx Hl. apply Ht; [|done|done].
        apply print_to_fits. apply fill_prefix in Hx. unfold strlen in *. lia.
      * rewrite drop_ge by by apply lookup_ge_None_1. cbn [fmap option_fmap option_map].
        exists T. split; [by rewrite bool_decide_false by by intros [? ?]|done].
    + set (T' := if strlen T =? 0 then print_to T w else print_to T (dot ++ w)).
      destruct (IH T' link (match text with [] => w | _ => text ++ dot ++ w end) Hs Ha) as (t & E & Ht). cbn zeta in *.
      exists t. split; [exact E|]. intros -> x Hx Hl. apply Ht; [|done|done]. unfold T'.
      apply fill_prefix in Hx. destruct text as [|c text].
      * change (strlen [] =? 0) with true. cbn iota. apply print_to_fits. cbn [app]. unfold strlen in *. lia.
      * rewrite (proj2 (Z.eqb_neq _ _)) by (unfold strlen; cbn; lia). apply print_to_fits. unfold strlen in *. lia.
Qed.

(** An alias the manager can have loaded. *)
Definition alias_ok (v : cstr) : Prop := wf_cstr v /\ strlen v < CCSP_Alias_Mgr_Name_Length.

Lemma ReplaceInstanceIds_spec ids v :
  alias_ok v -> Zlen ids < 65536 ->
  exists t, CcspAliasMgrReplaceInstanceIds v [] (Some <$> ids) [] = Done (bool_decide (is_Some (filled ids v)), t, []) /\
    forall x, filled ids v = Some x -> strlen x <= CCSP_Alias_Mgr_Name_Length -> t = x.
Proof.
  intros [Hw Hl] Hi. unfold CcspAliasMgrReplaceInstanceIds. pose proof (short_fits v Hw Hl) as Hf.
  rewrite tokens_of by done. cbn [mbind outcome_bind].
  destruct (replace_ids_spec ids (words dot v) [] None [] ) as (t & E & Ht); [|done|].
  - by apply (good_segments []); [apply words_good|apply short_words].
  - cbn zeta in *. rewrite drop_0 in *. exists t. rewrite E. split; [done|]. by apply Ht.
Qed.

Lemma find_loop_spec (l : list cstr) (rest : cstr) (part : bool) ids (acc : list (option cstr)) :
  Forall alias_ok l -> Zlen ids < 65536 ->
  (forall v x, v ∈ l -> filled ids v = Some x ->
     strlen (x ++ rest ++ if part then dot else []) <= CCSP_Alias_Mgr_Name_Length) ->
  find_loop (Some <$> l) rest part (Some <$> ids) true acc [] =
    Done (Some ((Some <$> rev (omap (fun v => (fun x => x ++ rest ++ if part then dot else []) <$> filled ids v) l)) ++ acc), []).
Proof.
  intros Hl Hi. revert acc. induction Hl as [|v l Hv Hl IH]; intros acc Hfit; [done|].
  cbn [fmap list_fmap find_loop negb omap list_omap].
  destruct (ReplaceInstanceIds_spec ids v Hv Hi) as (t & -> & Ht). cbn [mbind outcome_bind].
  destruct (filled ids v) as [x|] eqn:Ex.
  - specialize (Hfit v x ltac:(left) Ex) as Hx. unfold strlen in Hx. rewrite !length_app in Hx.
    rewrite (Ht x) by (try done; unfold strlen; lia). rewrite bool_decide_true by eauto. cbn [negb option_fmap option_map].
    unfold CCSP_Alias_Mgr_Name_Length in *. unfold strlen at 2 3.
    rewrite (proj2 (Z.ltb_ge 256 _)) by lia. rewrite andb_false_r.
    assert (E1 : (if 0 <? strlen rest then AnscCatString (256 + 1) x rest else Done x) = Done (x ++ rest)).
    { unfold AnscCatString, strlen. destruct rest as [|c rest]; [by rewrite app_nil_r|].
      rewrite (proj2 (Z.ltb_lt 0 _)) by (cbn; lia). by rewrite (proj2 (Z.ltb_lt _ _)) by lia. }
    rewrite E1. cbn [mbind outcome_bind].
    assert (E2 : (if part then AnscCatString (256 + 1) (x ++ rest) dot else Done (x ++ rest)) =
      Done (x ++ rest ++ if part then dot else [])).
    { destruct part; [|by rewrite app_nil_r]. unfold AnscCatString, strlen. rewrite length_app.
      cbn [length lit] in *. rewrite (proj2 (Z.ltb_lt _ _)) by lia. by rewrite <-app_assoc. }
    rewrite E2. cbn [mbind outcome_bind next_alloc negb]. rewrite IH by (intros v' x' Hv' Hx'; apply (Hfit v'); [by right|done]).
    cbn [fmap option_fmap option_map rev]. by rewrite fmap_app, <-app_assoc.
  - rewrite bool_decide_false by by intros [? ?]. cbn. apply IH. intros v' x' Hv' Hx'; apply (Hfit v'); [by right|done].
Qed.

End spec.

(** ** Loading *)

(** A tree that may not have been made yet. *)
Definition stands_for (t : entry) (M : amap) : Prop :=
  (t = NoEntry /\ M = ∅) \/ exists F, t = tree_of F /\ frep F M.

Definition aliases_ok (M : amap) : Prop :=
  forall d A v, M !! d = Some A -> v ∈ a_aliases A \/ v ∈ a_strict A -> alias_ok v.

(** One mapping. *)
Definition load_info (Ms : amap * amap) (external internal : cstr) (strict : bool) : amap * amap :=
  match valid_name (Some external), valid_name (Some internal) with
  | Some _, Some _ =>
      (add_item Ms.1 external internal strict,
       if bool_decide (internal = external) then Ms.2 else add_item Ms.2 internal external strict)
  | _, _ => Ms
  end.

Lemma ensure_mono (P : list cstr -> attrs -> Prop) (M : amap) d ws :
  (forall d A, M !! d = Some A -> P d A) -> (forall d, P d (Attrs [] [] false)) ->
  forall d' A, ensure M d ws !! d' = Some A -> P d' A.
Proof.
  intros HM Hn. revert M d HM. induction ws as [|n ws IH]; intros M d HM d' A; cbn [ensure]; [apply HM|].
  apply IH. intros d1 A1. destruct (M !! (d ++ [n])) eqn:E; [apply HM|].
  rewrite lookup_insert_Some. intros [[<- <-]|[_ H1]]; [apply Hn|by apply HM].
Qed.

Lemma ensure_aliases_ok M d ws : aliases_ok M -> aliases_ok (ensure M d ws).
Proof.
  intros HM. intros d' A v HA. revert v.
  eapply (ensure_mono (fun _ A => forall v, v ∈ a_aliases A \/ v ∈ a_strict A -> alias_ok v)); [|..|exact HA]; [eauto|].
  intros _ v [H|H]; by apply not_elem_of_nil in H.
Qed.

Lemma alter_aliases_ok strict b x d M : alias_ok x -> aliases_ok M -> aliases_ok (alter (add_to_attrs strict b x) d M).
Proof.
  intros Hx HM d' A v. rewrite lookup_alter_Some. intros [(<- & B & HB & ->)|[_ HA]]; [|by eauto].
  assert (Hadd : forall l : list cstr, v ∈ add_new x l -> v = x \/ v ∈ l).
  { intros l. unfold add_new. case_bool_decide; [by right|]. rewrite elem_of_cons. tauto. }
  unfold add_to_attrs. destruct strict; cbn; intros [Hv|Hv]; try (apply Hadd in Hv as [->|Hv]); eauto.
Qed.

Lemma short_alias ad : Forall good_seg ad -> short ad -> alias_ok (join ad).
Proof. intros Hg Hs. split; [by apply join_wf|done]. Qed.

Lemma make_path_aliases_ok Name rest : forall M d ad b arest,
  aliases_ok M -> Forall good_seg (ad ++ arest) -> short (ad ++ arest) -> aliases_ok (make_path Name M d ad b rest arest).
Proof.
  induction rest as [|n rest IH]; intros M d ad b arest HM Hg Hs; cbn [make_path]; [done|].
  destruct (step_path Name M d ad b n arest) as [[M1 ad1] b1] eqn:E.
  assert (H1 : aliases_ok M1 /\ ad1 ++ tail arest = ad ++ arest).
  { destruct arest as [|w arest]; cbn in E; injection E as <- <- _; [done|]. rewrite <-app_assoc. split; [|done].
    case_match; [|done]. unfold add_strict. apply alter_aliases_ok; [|by apply ensure_aliases_ok].
    assert (Hg' : Forall good_seg (ad ++ [w])) 
      by (apply Forall_app in Hg as [? [? _]%Forall_cons]; apply Forall_app; split; [done|by apply Forall_singleton]).
    apply short_alias; [done|]. unfold short, strlen in *. pose proof (join_length (ad ++ [w]) arest) as Hl.
    rewrite <-app_assoc in Hl. cbn [app] in Hl. lia. }
  destruct H1 as [HM1 Had]. destruct (M1 !! _); [|by apply ensure_aliases_ok].
  apply IH; [done|by rewrite Had|by rewrite Had].
Qed.

Lemma add_item_aliases_ok M Name Alias strict : alias_ok Alias -> aliases_ok M -> aliases_ok (add_item M Name Alias strict).
Proof.
  intros [Hw Hl] HM. apply alter_aliases_ok; [done|]. apply make_path_aliases_ok; [done|..]; destruct strict.
  - constructor. - by apply words_good. - by vm_compute. - by apply short_words.
Qed.

Lemma load_info_aliases_ok Ms ext int strict :
  alias_ok ext -> alias_ok int -> aliases_ok Ms.1 /\ aliases_ok Ms.2 ->
  aliases_ok (load_info Ms ext int strict).1 /\ aliases_ok (load_info Ms ext int strict).2.
Proof.
  intros He Hi [H1 H2]. unfold load_info. destruct (valid_name (Some ext)), (valid_name (Some int)); try done.
  split; [by apply add_item_aliases_ok|]. cbn [snd]. case_bool_decide; [done|by apply add_item_aliases_ok].
Qed.

Lemma valid_name_id x y : valid_name (Some x) = Some y -> y = x.
Proof. unfold valid_name. repeat case_match; try done. by intros [= ->]. Qed.

Lemma EnsureTree_spec t M : stands_for t M ->
  exists F, CcspAliasMgrEnsureTree t [] = (true, tree_of F, []) /\ frep F M.
Proof.
  intros [[-> ->]|(F & -> & HF)]; [|by exists F]. exists NoEntry. split; [done|]. by split.
Qed.

Section loading.
Context {node : Type} `{XmlDom node}.

Definition value_or {A} (d : A) (x : outcome A) : A := match x with Done a => a | Stuck _ => d end.
Definition node_external (n : node) : cstr := value_or [] (child_text n (lit "External")).
Definition node_internal (n : node) : cstr := value_or [] (child_text n (lit "Internal")).
Definition node_strict (n : node) : bool := value_or false (GetAttrBoolean n (lit "strict") false).
(** The parser reads the node without a fault, and its names are short. *)
Definition node_reads (n : node) : Prop :=
  child_text n (lit "External") = Done (node_external n) /\ child_text n (lit "Internal") = Done (node_internal n) /\
  GetAttrBoolean n (lit "strict") false = Done (node_strict n).
Definition node_ok (n : node) : Prop := node_reads n /\ alias_ok (node_external n) /\ alias_ok (node_internal n).
Definition load_node (Ms : amap * amap) (n : node) : amap * amap :=
  load_info Ms (node_external n) (node_internal n) (node_strict n).
Definition load_all (nodes : list node) : amap * amap := foldl load_node (∅, ∅) nodes.

(** The mappings of a file. *)
Definition mappings (root : node) : list node :=
  mjoin ((fun c => if bool_decide (NodeName c = lit "AliasList") then Children c else []) <$> Children root).

Definition mgr_for (pam : mgr) (Ms : amap * amap) : Prop :=
  stands_for (AliasExtTree pam) Ms.1 /\ stands_for (AliasIntTree pam) Ms.2.

Lemma AddItem_fails t x y strict :
  valid_name (Some x) = None \/ valid_name (Some y) = None ->
  CcspAliasMgrAliasTreeAddItem add_fuel (Some x) (Some y) strict (t, []) = Done (false, (t, [])).
Proof.
  intros Hv. unfold add_fuel. cbn [CcspAliasMgrAliasTreeAddItem].
  destruct (valid_name (Some x)), (valid_name (Some y)); try done; by destruct Hv.
Qed.

Lemma LoadAliasInfo_spec pam Ms n :
  mgr_for pam Ms -> node_ok n ->
  exists ok pam', CcspAliasMgrLoadAliasInfo (Some pam) (Some n) [] = Done (ok, Some pam', []) /\ mgr_for pam' (load_node Ms n).
Proof.
  intros [Hx Hi] [(Ee & Ein & Es) [[Hwx Hlx] [Hwi Hli]]]. cbn [CcspAliasMgrLoadAliasInfo]. rewrite Ein, Ee, Es. cbn [mbind outcome_bind].
  destruct (EnsureTree_spec _ _ Hx) as (Fx & Ex & HFx). rewrite Ex. cbn [negb].
  destruct (EnsureTree_spec _ _ Hi) as (Fi & Ei & HFi). rewrite Ei. cbn [negb].
  unfold load_node, load_info.
  destruct (valid_name (Some (node_external n))) as [x|] eqn:Evx.
  2: { rewrite AddItem_fails by by left. cbn. eexists _, _. split; [done|]. split; right; eauto. }
  destruct (valid_name (Some (node_internal n))) as [y|] eqn:Evi.
  2: { rewrite AddItem_fails by by right. cbn. eexists _, _. split; [done|]. split; right; eauto. }
  apply valid_name_id in Evx as Ex'. apply valid_name_id in Evi as Ei'. subst x y. unfold add_fuel.
  destruct (AddItem_spec 0 Fx Ms.1 (node_external n) (node_internal n) (node_strict n)) as (Fx' & -> & HFx'); try done.
  cbn [mbind outcome_bind andb]. case_bool_decide as Heq; cbn [negb].
  - eexists _, _. split; [done|]. split; right; eauto.
  - destruct (AddItem_spec 0 Fi Ms.2 (node_internal n) (node_external n) (node_strict n)) as (Fi' & -> & HFi'); try done.
    cbn [mbind outcome_bind]. eexists _, _. split; [done|]. split; right; eauto.
Qed.

Lemma load_nodes_spec nodes : forall pam Ms,
  mgr_for pam Ms -> Forall node_ok nodes ->
  exists pam', load_nodes (Some pam) nodes [] = Done (Some pam', []) /\ mgr_for pam' (foldl load_node Ms nodes).
Proof.
  induction nodes as [|n nodes IH]; intros pam Ms Hm Hok; [by exists pam|].
  apply Forall_cons in Hok as [Hn Hok]. destruct (LoadAliasInfo_spec pam Ms n Hm Hn) as (ok & pam' & E & Hm').
  cbn [load_nodes foldl]. rewrite E. cbn [mbind outcome_bind]. by apply IH.
Qed.

Lemma load_lists_nodes cs : forall am a,
  load_lists am cs a = load_nodes am (mjoin ((fun c => if bool_decide (NodeName c = lit "AliasList") then Children c else []) <$> cs)) a.
Proof.
  assert (Happ : forall (l1 l2 : list node) am a, load_nodes am (l1 ++ l2) a = (r ← load_nodes am l1 a; load_nodes r.1 l2 r.2)).
  { induction l1 as [|n l1 IH]; intros l2 am a; [done|]. cbn [app load_nodes].
    destruct (CcspAliasMgrLoadAliasInfo am (Some n) a) as [[[? ?] ?]|]; [|done]. cbn [mbind outcome_bind]. apply IH. }
  induction cs as [|c cs IH]; intros am a; [done|]. cbn [load_lists fmap list_fmap mjoin list_join]. rewrite Happ.
  case_bool_decide; cbn [load_nodes mbind outcome_bind]; [|apply IH].
  destruct (load_nodes am (Children c) a) as [[? ?]|]; [|done]. cbn. apply IH.
Qed.

Lemma load_all_aliases_ok nodes : Forall node_ok nodes -> aliases_ok (load_all nodes).1 /\ aliases_ok (load_all nodes).2.
Proof.
  unfold load_all. intros Hn. assert (H0 : aliases_ok ((∅, ∅) : amap * amap).1 /\ aliases_ok ((∅, ∅) : amap * amap).2).
  { assert (He : aliases_ok ∅) by (intros d A v HA; by rewrite lookup_empty in HA). by split. }
  revert H0. generalize ((∅, ∅) : amap * amap). induction Hn as [|n nodes (_ & Hx & Hi) Hn IH]; intros Ms HM; [done|].
  cbn [foldl]. apply IH. by apply load_info_aliases_ok.
Qed.
End loading.

(** ** Translating there and back *)

Section paths.
Context `{Platform}.
Implicit Types (M : amap) (d ns ids path rest : list cstr) (A : attrs).

Definition translations_fit M (Name : cstr) : Prop :=
  forall A ids rest v x, map_lookup M [] [] (words dot Name) = Some (A, ids, rest) -> v ∈ active A ->
    filled ids v = Some x ->
    strlen (x ++ rest_text rest ++ if bool_decide (last Name = Some 46) then dot else []) <= CCSP_Alias_Mgr_Name_Length.

(** The segments of a name with identifiers in the places. *)
Fixpoint inst path ids : list cstr :=
  match path with
  | [] => []
  | w :: path =>
      if bool_decide (w = lit "{i}") then
        match ids with [] => w :: inst path [] | i :: ids => i :: inst path ids end
      else w :: inst path ids
  end.
Definition places path : nat := length (filter (.= lit "{i}") path).

(** A path one can map: no segment but the places is an identifier, and the
    first one is not a place. *)
Definition regular path : Prop :=
  path ≠ [] /\ head path ≠ Some (lit "{i}") /\
  Forall (fun w => w ≠ lit "{i}" -> CcspAliasMgrIsNameInsIdentifier w = false) path.

(** The path has [alias] as its oldest alias, and no name above it has any. *)
Definition mapped M path (alias : cstr) : Prop :=
  (exists A, M !! path = Some A /\ last (a_aliases A) = Some alias) /\
  forall k, (0 < k < length path)%nat -> exists B, M !! take k path = Some B /\ a_aliases B = [] .

Lemma key_inst path ids :
  Forall (fun w => w ≠ lit "{i}" -> CcspAliasMgrIsNameInsIdentifier w = false) path ->
  Forall (fun i => CcspAliasMgrIsNameInsIdentifier i = true) ids -> places path = length ids ->
  key <$> inst path ids = path /\ filter (fun n => CcspAliasMgrIsNameInsIdentifier n = true) (inst path ids) = ids.
Proof.
  intros Hp. revert ids. induction Hp as [|w path Hw Hp IH]; intros ids Hi Hl; unfold places in *.
  - by destruct ids.
  - cbn [inst]. rewrite filter_cons in Hl. case_bool_decide as Hb.
    + rewrite decide_True in Hl by done. cbn [length] in Hl. destruct Hi as [|i ids Hi His]; [done|].
      destruct (IH ids His) as [IH1 IH2]; [by injection Hl|]. cbn [fmap list_fmap]. rewrite filter_cons, decide_True by done.
      rewrite IH1, IH2. unfold key. by rewrite Hi, Hb.
    + rewrite decide_False in Hl by done. destruct (IH ids Hi Hl) as [IH1 IH2]. cbn [fmap list_fmap].
      rewrite filter_cons, decide_False by (rewrite Hw; done). rewrite IH1, IH2. unfold key. by rewrite Hw.
Qed.

(** Looking up the name of a mapped path with identifiers. *)
Lemma map_lookup_mapped M ns rest : forall d ids A,
  ns ≠ [] -> M !! (d ++ (key <$> ns)) = Some A -> a_aliases A ≠ [] ->
  (forall k, (0 < k < length ns)%nat -> exists B, M !! (d ++ take k (key <$> ns)) = Some B /\ a_aliases B = []) ->
  map_lookup M d ids (ns ++ rest) = Some (A, ids ++ filter (fun n => CcspAliasMgrIsNameInsIdentifier n = true) ns, rest).
Proof.
  induction ns as [|n ns IH]; intros d ids A Hne HA Ha Hk; [done|]. cbn [app map_lookup].
  set (ids1 := if CcspAliasMgrIsNameInsIdentifier n then _ else _).
  assert (Hids : ids ++ filter (fun n => CcspAliasMgrIsNameInsIdentifier n = true) (n :: ns) =
    ids1 ++ filter (fun n => CcspAliasMgrIsNameInsIdentifier n = true) ns).
  { unfold ids1. rewrite filter_cons. destruct (CcspAliasMgrIsNameInsIdentifier n);
      [rewrite decide_True by done; by rewrite <-app_assoc|by rewrite decide_False]. }
  rewrite Hids. clearbody ids1. cbn [fmap list_fmap] in HA. destruct ns as [|n2 ns].
  - cbn [fmap list_fmap] in HA. rewrite HA. cbn. rewrite bool_decide_false by done. by rewrite app_nil_r.
  - destruct (Hk 1%nat) as (B & HB & Hb); [cbn; lia|]. cbn [fmap list_fmap take] in HB. rewrite HB.
    cbn [mbind option_bind]. rewrite bool_decide_true by done.
    rewrite bool_decide_false by done. cbn [andb]. apply IH; [done| |done|].
    + by rewrite <-app_assoc.
    + intros k Hlk. destruct (Hk (S k)) as (C & HC & Hc); [cbn in *; lia|]. exists C. by rewrite <-app_assoc.
Qed.

Lemma fill_inst r ws : forall text ids,
  (r = false -> places ws = 0%nat) -> places ws = length ids -> Forall (fun w => w ≠ []) ws ->
  (text = [] -> head ws ≠ Some (lit "{i}")) ->
  fill r text ws ids = Some (match text with [] => join (inst ws ids) | _ => text ++ rest_text (inst ws ids) end).
Proof.
  induction ws as [|w ws IH]; intros text ids Hr Hl Hw Ht; unfold places in *.
  - cbn. destruct text; [done|]. by rewrite app_nil_r.
  - apply Forall_cons in Hw as [Hw Hws]. cbn [fill inst]. rewrite filter_cons in Hl, Hr.
    assert (Hjoin : forall u v, u ≠ [] -> u ++ rest_text (inst ws v) = join (u :: inst ws v)).
    { intros u v _. generalize (inst ws v). clear. intros l. revert u. induction l as [|x l IHl]; intros u; [by rewrite app_nil_r|].
      rewrite join_words_cons by done. rewrite <-IHl. unfold rest_text. cbn [fmap list_fmap mjoin list_join]. by rewrite <-!app_assoc. }
    case_bool_decide as Hb.
    + rewrite decide_True in Hl, Hr by done. destruct r; [|by specialize (Hr eq_refl)]. cbn [andb].
      destruct ids as [|i ids]; [done|]. destruct text as [|c text]; [by destruct (Ht eq_refl); rewrite Hb|].
      rewrite IH; [|done|by injection Hl|done|done]. cbn [app]. unfold rest_text at 2.
      cbn [fmap list_fmap mjoin list_join]. f_equal. cbn [app]. f_equal. by rewrite <-!app_assoc.
    + rewrite decide_False in Hl, Hr by done. rewrite andb_false_r.
      rewrite IH; [|done|done|done|by destruct text]. destruct text as [|c text].
      * destruct w as [|x w]; [done|]. by rewrite Hjoin.
      * cbn [app]. unfold rest_text at 2. cbn [fmap list_fmap mjoin list_join]. do 2 f_equal. by rewrite <-!app_assoc.
Qed.

Lemma join_rest d rest : d ≠ [] -> join d ++ rest_text rest = join (d ++ rest).
Proof.
  intros Hd. revert d Hd. induction rest as [|w rest IH]; intros d Hd; [by rewrite !app_nil_r|].
  replace (d ++ w :: rest) with ((d ++ [w]) ++ rest) by by rewrite <-app_assoc.
  rewrite <-IH by by destruct d. rewrite join_app by done. unfold rest_text.
  cbn [fmap list_fmap mjoin list_join join]. by rewrite <-!app_assoc.
Qed.

(** The segments of a name that ends in a dot. *)
Lemma words_join_dot d (part : bool) :
  Forall good_seg d -> d ≠ [] -> words dot (join d ++ if part then dot else []) = d /\
    bool_decide (last (join d ++ if part then dot else []) = Some 46) = part.
Proof.
  intros Hd Hne. destruct part.
  - split; [|by apply bool_decide_true, last_snoc].
    assert (E : forall ws, ws ≠ [] -> join ws ++ dot = joined dot ws).
    { clear. induction ws as [|w ws IH]; intros Hne; [done|]. rewrite joined_cons. destruct ws as [|w' ws]; [by rewrite app_nil_r|].
      rewrite join_words_cons by done. rewrite <-IH by done. by rewrite <-!app_assoc. }
    rewrite E by done. apply words_joined; [done|]. eapply Forall_impl; [exact Hd|]. intros w (Hw & _ & Hdot).
    split; [done|]. apply Forall_forall. intros x Hx Hin. apply list_elem_of_singleton in Hin as ->. done.
  - rewrite app_nil_r. split; [by apply words_join|by apply join_last].
Qed.
End paths.

Section find.
Context `{Platform, SafeString}.

Lemma FindAliases_translate t M Name :
  stands_for t M -> aliases_ok M -> depths_ok M ->
  wf_cstr Name -> Name ≠ [] -> strlen Name < 65535 -> Forall fits (words dot Name) -> translations_fit M Name ->
  CcspAliasMgrFindAliases t Name [] = Done (fmap (M := list) Some <$> translate M Name, []).
Proof.
  intros Ht Ha Hd Hw Hne Hl Hf Hfit. unfold CcspAliasMgrFindAliases, translate.
  destruct (last Name) as [c|] eqn:El; [|by apply last_None in El].
  assert (Hpart : (c =? 46) = bool_decide (Some c = Some 46)).
  { destruct (Z.eqb_spec c 46) as [->|Hc]; [done|]. by rewrite bool_decide_false by congruence. }
  rewrite Hpart. unfold CcspAliasMgrLookupAliasNode. rewrite tokens_of by done. cbn [mbind outcome_bind].
  assert (Hseg : Forall segment (words dot Name)).
  { apply Forall_forall. intros w Hin. split; [by eapply words_wf|]. rewrite Forall_forall in Hf. by apply Hf. }
  assert (Hj : Zlen (joined dot (words dot Name)) < 2 ^ ulong_bits).
  { pose proof ulong_modulus_ge. assert (Hj : forall ws, (length (joined dot ws) <= length (join ws) + 1)%nat).
    { clear. induction ws as [|w ws IH]; [cbn; lia|]. rewrite joined_cons. destruct ws as [|w' ws].
      - cbn. rewrite !length_app. cbn. lia.
      - rewrite join_words_cons, !length_app by done. cbn [length lit deref head default] in *. lia. }
    specialize (Hj (words dot Name)). pose proof (join_words_length Name). unfold strlen in Hl. lia. }
  destruct Ht as [[-> ->]|(F & -> & [Hwf HF])].
  { assert (E : lookup_walk (tokens (words dot Name)) NoEntry QueueInit [] =
      Done ((None, tokens (words dot Name), QueueInit), [])) by (by destruct (words dot Name)).
    rewrite E. cbn [mbind outcome_bind fst snd lookup_end].
    destruct (words dot Name) as [|n ns]; [done|]. cbn [map_lookup]. by rewrite lookup_empty. }
  destruct (lookup_walk_spec M (words dot Name) [] [] (tree_of F)) as (res & ts & q' & E & Hres); try done.
  change (Some <$> []) with QueueInit in E. rewrite E. cbn [mbind outcome_bind fst snd].
  specialize (map_lookup_length M (words dot Name) [] []) as Hlen. unfold translations_fit in Hfit. rewrite El in Hfit.
  destruct (map_lookup M [] [] (words dot Name)) as [[[A ids] rest]|] eqn:EM; [|by subst res].
  destruct Hres as (m & pa & c' & s & -> & -> & -> & Hsr & Hda & Hds & Hact). cbn [lookup_end].
  rewrite append_remaining_spec by done. cbn [app mbind outcome_bind].
  destruct (Z.ltb_spec CCSP_Alias_Mgr_Name_Length (strlen (rest_text rest))) as [Hlong|Hshort]; [done|].
  cbn [Aliases StrictAliases]. rewrite (list_is_empty (a_aliases A)) by done.
  assert (Eact : (if negb (bool_decide (a_aliases A = [])) then Some <$> a_aliases A else Some <$> a_strict A) = Some <$> active A).
  { unfold active. destruct (decide (a_aliases A = [])); [by rewrite !bool_decide_true|by rewrite !bool_decide_false]. }
  rewrite Eact. rewrite list_is_empty by (unfold active; case_bool_decide; done).
  rewrite bool_decide_false by done. cbn [next_alloc].
  rewrite find_loop_spec; [by rewrite app_nil_r| | |].
  - apply Forall_forall. intros v Hv. unfold active in Hv.
    destruct (map_lookup_in M (words dot Name) [] [] A ids rest EM) as [d' HA].
    eapply Ha; [exact HA|]. destruct (bool_decide (a_aliases A = [])); auto.
  - specialize (Hlen _ _ _ eq_refl). cbn [length Nat.add] in Hlen.
    assert (Hc : (length (words dot Name) <= length Name)%nat) by apply words_count. unfold strlen in Hl. lia.
  - intros v x Hv Hx. by eapply Hfit.
Qed.

Lemma last_omap {A B} (f : A -> option B) (l : list A) x y : last l = Some x -> f x = Some y -> last (omap f l) = Some y.
Proof.
  intros [l' ->]%last_Some Hf. rewrite omap_app. cbn. rewrite Hf. apply last_snoc.
Qed.

(** The first translation of the name of a mapped path. *)
Lemma first_translation t M path alias ids rest (part : bool) :
  stands_for t M -> aliases_ok M -> depths_ok M ->
  Forall good_seg (inst path ids ++ rest) -> regular path -> Forall (fun i => CcspAliasMgrIsNameInsIdentifier i = true) ids ->
  places path = length ids -> mapped M path alias ->
  let apath := words dot alias in
  apath ≠ [] -> head apath ≠ Some (lit "{i}") -> places apath = length ids ->
  let Name := join (inst path ids ++ rest) ++ if part then dot else [] in
  strlen Name < 65535 -> Forall fits (inst path ids ++ rest) -> translations_fit M Name ->
  exists l a, CcspAliasMgrFindAliases t Name [] = Done (Some (Some (join (inst apath ids ++ rest) ++ if part then dot else []) :: l), a)
    /\ a = [].
Proof.
  intros Ht Ha Hd Hg (Hne & Hhead & Hreg) Hids Hpl ((A & HA & Hlast) & Hpre) apath Hane Hahead Hapl Name Hlen Hfits Hfit.
  destruct (key_inst path ids Hreg Hids Hpl) as [Hkey Hfilter].
  assert (Hine : inst path ids ≠ []) by (intros E; rewrite E in Hkey; by destruct path).
  assert (Hlp : length (inst path ids) = length path) by (by rewrite <-Hkey at 2; rewrite length_fmap).
  destruct (words_join_dot (inst path ids ++ rest) part Hg) as [Hwords Hpart]; [by destruct (inst path ids)|].
  fold Name in Hwords, Hpart.
  assert (Hnn : Name ≠ []).
  { unfold Name. pose proof (join_nonempty (inst path ids ++ rest) Hg). destruct (join _); [|done].
    destruct (inst path ids); [done|]. by destruct H1. }
  assert (HwfN : wf_cstr Name).
  { unfold Name, wf_cstr. apply Forall_app. split; [by apply join_wf|]. destruct part; repeat constructor. }
  assert (Hml : map_lookup M [] [] (words dot Name) = Some (A, ids, rest)).
  { rewrite Hwords. rewrite (map_lookup_mapped M (inst path ids) rest [] [] A); [by rewrite Hfilter|done|by rewrite Hkey| |].
    - intros E. by rewrite E in Hlast.
    - intros k Hk. rewrite Hkey. apply Hpre. by rewrite <-Hlp. }
  rewrite (FindAliases_translate t M Name) by (try done; by rewrite Hwords).
  unfold translate. rewrite Hml, Hpart.
  assert (Hfill : filled ids alias = Some (join (inst apath ids))).
  { unfold filled. apply (fill_inst _ apath []); [|done| |done].
    - intros Hi%negb_false_iff%bool_decide_eq_true. rewrite Hapl. by rewrite Hi.
    - apply Forall_forall. intros w Hw. by destruct (words_nonempty dot alias w Hw). }
  assert (Hact : active A = a_aliases A).
  { unfold active. rewrite bool_decide_false; [done|]. intros E. by rewrite E in Hlast. }
  assert (Hain : inst apath ids ≠ []) by (destruct apath as [|w p]; [done|]; cbn; repeat case_match; done).
  assert (Halias : alias ∈ active A) by (rewrite Hact; by apply last_Some_elem_of).
  assert (Hrest : CCSP_Alias_Mgr_Name_Length <? strlen (rest_text rest) = false).
  { apply Z.ltb_ge. pose proof (Hfit A ids rest alias _ Hml Halias Hfill) as Hx. unfold strlen in *. rewrite !length_app in Hx. lia. }
  rewrite Hrest. set (f := fun v => _ <$> filled ids v).
  assert (Hl : last (omap f (active A)) = Some (join (inst apath ids ++ rest) ++ if part then dot else [])).
  { apply (last_omap _ _ alias); [by rewrite Hact|]. unfold f. rewrite Hfill. cbn. f_equal.
    by rewrite app_assoc, join_rest. }
  apply last_Some in Hl as [l Hl]. rewrite Hl, rev_app_distr. cbn. eexists _, _. split; [done|done].
Qed.
End find.
