(* ===== verification/AliasThms.v ===== *)
(** * What the alias manager promises

    Loading a mapper file builds trees that stand for maps computed from its
    mappings; the names found are the translations by these maps; translating
    a name and its translation back gives the name; and where this fails.  A
    concrete tree of XML nodes runs the definitions. *)

From S2P Require Import Prelude CStrings Tokens IpAddr AliasTree AliasMgr.
Open Scope Z_scope.

(** ** Concrete mapper files *)

Inductive xml := Xml (name text : cstr) (attr : option bool) (children : list xml).
Definition xml_name (x : xml) : cstr := match x with Xml n _ _ _ => n end.
Definition xml_text (x : xml) : cstr := match x with Xml _ t _ _ => t end.
Definition xml_attr (x : xml) : option bool := match x with Xml _ _ a _ => a end.
Definition xml_children (x : xml) : list xml := match x with Xml _ _ _ c => c end.

#[export] Instance xml_dom : XmlDom xml := {|
  NodeName := xml_name;
  Children := xml_children;
  GetChildByName x name := head (filter (fun c => xml_name c = name) (xml_children x));
  GetDataString x size := Done (if strlen (xml_text x) <=? size then xml_text x else []);
  GetAttrBoolean x _ b := Done (default b (xml_attr x))
|}.

Definition mapping (external internal : string) (strict : bool) : xml :=
  Xml (lit "Alias") [] (Some strict)
    [Xml (lit "External") (lit external) None []; Xml (lit "Internal") (lit internal) None []].
Definition mapper_file (ms : list xml) : xml := Xml (lit "Mapper") [] None [Xml (lit "AliasList") [] None ms].

(** The manager after loading. *)
Definition loaded (ms : list xml) : option mgr :=
  match CcspAliasMgrLoadFromXMLFile (fst (CcspAliasMgrInitialize [])) (Some (mapper_file ms)) [] with
  | Done (_, am, _) => am
  | Stuck _ => None
  end.

Definition segment_okb (w : cstr) : bool := forallb (fun b => (0 <? b) && (b <? 256)) w.
Definition alias_okb (v : cstr) : bool := segment_okb v && (strlen v <? CCSP_Alias_Mgr_Name_Length).
Lemma wf_check w : segment_okb w = true -> wf_cstr w.
Proof. intros H%Is_true_true_2%forallb_True. eapply Forall_impl; [exact H|]. intros b Hb. apply Is_true_true_1, andb_prop in Hb as [? ?]. zbool. lia. Qed.
Lemma alias_check v : alias_okb v = true -> alias_ok v.
Proof. intros [H1 H2]%andb_prop. zbool. split; [by apply wf_check|done]. Qed.

Definition depths_okb (M : amap) : bool :=
  bool_decide (map_Forall (fun _ A => Zlen (a_aliases A) < 65536 /\ Zlen (a_strict A) < 65536) M).
Lemma depths_check M : depths_okb M = true -> depths_ok M.
Proof. intros H%bool_decide_eq_true. exact H. Qed.

Definition demo_ms : list xml :=
  [mapping "Device.WiFi.{i}.Name" "Device.X_RDK.{i}.Ssid" false; mapping "Device.WiFi.Count" "Device.X_RDK.Num" false].

(** ** Properties *)

(** C26. Loading a mapper file: from a new manager, when no allocation fails,
    and for every file whose mappings the parser reads without a fault and
    whose names have fewer than 256 bytes.  A file whose root has no child makes
    the load dereference NULL.  On every other file the load completes, and the
    two trees stand for the maps obtained by adding the mappings one after the
    other; all aliases stored are well-formed. *)
Theorem alias_load_refines {node : Type} `{XmlDom node} (root : node) (Hok : Forall node_ok (mappings root)) :
  let load := CcspAliasMgrLoadFromXMLFile (fst (CcspAliasMgrInitialize [])) (Some root) [] in
  (Children root = [] -> load = Stuck NullDeref) /\
  (Children root ≠ [] -> exists pam,
    load = Done (true, Some pam, []) /\
    mgr_for pam (load_all (mappings root)) /\
    aliases_ok (load_all (mappings root)).1 /\ aliases_ok (load_all (mappings root)).2).
Proof.
  cbv zeta. split; intros Hroot.
  { cbn [CcspAliasMgrLoadFromXMLFile]. by rewrite Hroot. }
  destruct (load_nodes_spec (mappings root) (AliasMgr NoEntry NoEntry) (∅, ∅)) as (pam & E & Hm); [by split; left|done|].
  exists pam. split_and!; [|done|by apply load_all_aliases_ok..].
  cbn [CcspAliasMgrLoadFromXMLFile CcspAliasMgrInitialize next_alloc fst].
  destruct (Children root) as [|c cs] eqn:Ec; [done|].
  rewrite load_lists_nodes. unfold mappings in E. rewrite Ec in E. rewrite E. done.
Qed.

(** The names found are the translations: for a manager whose external tree
    stands for [Mx], the internal names of a parameter are those of
    [translate] in the order in which the mappings were loaded, NULL when
    there are none, and the first internal name is the first of them. *)
Theorem CcspAliasMgrGetInternalNames_spec `{Platform, SafeString} pam Mx Mi Name
    (Hm : mgr_for pam (Mx, Mi)) (Ha : aliases_ok Mx) (Hd : depths_ok Mx)
    (Hw : wf_cstr Name) (Hne : Name ≠ []) (Hlen : strlen Name < 65535)
    (Hf : Forall fits (words dot Name)) (Hfit : translations_fit Mx Name) :
  CcspAliasMgrGetInternalNames (Some pam) Name [] = Done (fmap (M := list) Some <$> translate Mx Name, []) /\
  CcspAliasMgrGetFirstInternalName (Some pam) Name [] = Done (l ← translate Mx Name; head l, []).
Proof.
  destruct Hm as [Hx _].
  assert (E : CcspAliasMgrGetInternalNames (Some pam) Name [] = Done (fmap (M := list) Some <$> translate Mx Name, []))
    by by apply FindAliases_translate.
  split; [done|]. unfold CcspAliasMgrGetFirstInternalName. rewrite E. cbn [mbind outcome_bind fst].
  by destruct (translate Mx Name) as [[|x l]|].
Qed.

(** C25. There and back: when the external path is mapped to the internal name
    and the internal path to the external one, with as many places for
    instance identifiers, then every name that fills the places with
    identifiers, followed by any segments and possibly a dot, is translated to
    the internal name with the same identifiers and segments, and this name
    back to the first. *)
Theorem alias_round_trip `{Platform, SafeString} pam Mx Mi external internal ids rest (part : bool)
    (Hm : mgr_for pam (Mx, Mi)) (Hax : aliases_ok Mx) (Hai : aliases_ok Mi) (Hdx : depths_ok Mx) (Hdi : depths_ok Mi)
    (Hex : regular (words dot external)) (Hin : regular (words dot internal))
    (Hmx : mapped Mx (words dot external) internal) (Hmi : mapped Mi (words dot internal) external)
    (Hids : Forall (fun i => CcspAliasMgrIsNameInsIdentifier i = true) ids)
    (Hpx : places (words dot external) = length ids) (Hpi : places (words dot internal) = length ids)
    (Hgx : Forall good_seg (inst (words dot external) ids ++ rest))
    (Hgi : Forall good_seg (inst (words dot internal) ids ++ rest)) :
  let tail := if part then dot else [] in
  let x := join (inst (words dot external) ids ++ rest) ++ tail in
  let y := join (inst (words dot internal) ids ++ rest) ++ tail in
  strlen x <= CCSP_Alias_Mgr_Name_Length -> strlen y <= CCSP_Alias_Mgr_Name_Length ->
  translations_fit Mx x -> translations_fit Mi y ->
  CcspAliasMgrGetFirstInternalName (Some pam) x [] = Done (Some y, []) /\
  CcspAliasMgrGetExternalName (Some pam) y [] = Done (Some x, []).
Proof.
  intros tail x y Hlx Hly Hfx Hfy. unfold CCSP_Alias_Mgr_Name_Length in *. destruct Hm as [Htx Hti].
  assert (Hfits : forall ns, Forall good_seg ns -> strlen (join ns ++ tail) <= 256 -> Forall fits ns).
  { intros ns Hg Hl. apply Forall_forall. intros w Hw. apply list_elem_of_split in Hw as (l1 & l2 & ->).
    pose proof (join_segment l1 l2 w). unfold fits, ANSC_URI_PATH_SIZE, strlen in *. rewrite length_app in Hl. lia. }
  destruct (first_translation (AliasExtTree pam) Mx (words dot external) internal ids rest part)
    as (l1 & a1 & E1 & ->); try done; [apply Hin|apply Hin|fold tail x; lia|by apply Hfits|].
  destruct (first_translation (AliasIntTree pam) Mi (words dot internal) external ids rest part)
    as (l2 & a2 & E2 & ->); try done; [apply Hex|apply Hex|fold tail y; lia|by apply Hfits|].
  fold tail in E1, E2. fold x y in E1, E2. split.
  - unfold CcspAliasMgrGetFirstInternalName, CcspAliasMgrGetInternalNames. by rewrite E1.
  - unfold CcspAliasMgrGetExternalName. by rewrite E2.
Qed.


(** The order of the mappings matters: two files with the same two mappings
    in different order, and a parameter that one manager translates and the
    other does not.  The walk that adds the shorter names stops at the first
    name without a node, which is the case for the first mapping under a
    root. *)
Theorem alias_load_order :
  let m1 := mapping "Device.A" "Device.B" false in
  let m2 := mapping "Device.WiFi.{i}.Name" "Device.X_RDK.{i}.Ssid" false in
  let name := @CcspAliasMgrGetFirstInternalName lp64 parseFormat in
  name (loaded [m1; m2]) (lit "Device.WiFi.") [] = Done (Some (lit "Device.X_RDK."), []) /\
  name (loaded [m2; m1]) (lit "Device.WiFi.") [] = Done (None, []).
Proof. by vm_compute. Qed.

(** Faults: a file without any list, a manager or a list that is NULL, and
    an empty name make the calls leave the memory they may access; so does a
    translation of 256 bytes of a name that ends in a dot, which is one byte
    more than the buffer has; and a tree one of whose names could not be
    copied makes the search for a name behind it fail. *)
Theorem alias_faults {node : Type} `{XmlDom node} `{Platform, SafeString} (root : node) am Name v x ids rest l acc t e
    (Hroot : Children root = []) (Hv : alias_ok v) (Hvv : valid_name (Some v) = Some v) (Hids : Zlen ids < 65536)
    (Hx : filled ids v = Some x) (Hlen : strlen (x ++ rest) = CCSP_Alias_Mgr_Name_Length)
    (He : find_child e [ToChild] Name None = Stuck NullDeref) (Ht : t = tree_of e)
    (Hn : good_seg Name) (Hnl : strlen Name < CCSP_Alias_Mgr_Name_Length) :
  CcspAliasMgrLoadFromXMLFile am (Some root) [] = Stuck NullDeref /\
  CcspAliasMgrGetInternalNames None Name [] = Stuck NullDeref /\
  CcspAliasMgrFreeNamesList None = Stuck NullDeref /\
  CcspAliasMgrFindAliases t [] [] = Stuck OutOfBounds /\
  find_loop (Some v :: l) rest true (Some <$> ids) true acc [] = Stuck OutOfBounds /\
  CcspAliasMgrAliasTreeAddItem add_fuel (Some Name) (Some v) true (t, []) = Stuck NullDeref.
Proof.
  split_and!; [|done|done|done| |].
  - cbn [CcspAliasMgrLoadFromXMLFile]. by rewrite Hroot.
  - cbn [find_loop negb]. destruct (ReplaceInstanceIds_spec ids v Hv Hids) as (y & -> & Hy). cbn [mbind outcome_bind].
    unfold CCSP_Alias_Mgr_Name_Length, strlen in *. rewrite length_app in Hlen.
    rewrite (Hy x) by (try done; lia). rewrite Hx, bool_decide_true by eauto. cbn [negb].
    rewrite (proj2 (Z.ltb_ge 256 _)) by lia. rewrite andb_false_r.
    assert (E1 : (if 0 <? Zlen rest then AnscCatString (256 + 1) x rest else Done x) = Done (x ++ rest)).
    { unfold AnscCatString, strlen. destruct rest as [|c rest]; [by rewrite app_nil_r|].
      rewrite (proj2 (Z.ltb_lt 0 _)) by (cbn; lia). by rewrite (proj2 (Z.ltb_lt _ _)) by lia. }
    rewrite E1. cbn [mbind outcome_bind]. unfold AnscCatString, strlen. rewrite length_app.
    by rewrite (proj2 (Z.ltb_ge _ _)) by (cbn [length lit]; lia).
  - subst t. assert (Hg : Forall good_seg [Name]) by by apply Forall_singleton.
    assert (Hw : words dot Name = [Name]) by exact (words_join [Name] Hg).
    assert (Hvn : valid_name (Some Name) = Some Name) by by apply (join_valid [Name]).
    destruct (good_fits Name Hn Hnl) as [Hwn Hfn].
    unfold add_fuel. cbn [CcspAliasMgrAliasTreeAddItem]. rewrite Hvn, Hvv.
    unfold CcspAliasMgrFindMakeNode, allocating, mbind, CM_bind.
    rewrite tokens_of by (try done; rewrite Hw; by apply Forall_singleton). rewrite Hw.
    cbn [fmap list_fmap find_make]. unfold the_tree, lift, mbind, CM_bind. cbn [at_ tree_of Child].
    rewrite token_name_of by done. cbn [option_bind head partial_names]. unfold mret, CM_ret. cbn [at_ tree_of Child app].
    by rewrite He.
Qed.

(** ** Witnesses *)

Definition translations_fitb `{Platform} (M : amap) (Name : cstr) : bool :=
  match map_lookup M [] [] (words dot Name) with
  | None => true
  | Some (A, ids, rest) =>
      forallb (fun v => match filled ids v with
                        | None => true
                        | Some x => strlen (x ++ rest_text rest ++ if bool_decide (last Name = Some 46) then dot else [])
                                      <=? CCSP_Alias_Mgr_Name_Length
                        end) (active A)
  end.
Lemma translations_fit_check `{Platform} M Name : translations_fitb M Name = true -> translations_fit M Name.
Proof.
  unfold translations_fitb, translations_fit. intros Hb A ids rest v x E Hv Hx. rewrite E in Hb.
  apply Is_true_true_2, forallb_True in Hb. rewrite Forall_forall in Hb. specialize (Hb v Hv). cbn beta in Hb.
  rewrite Hx in Hb. apply Is_true_true_1 in Hb. by apply Z.leb_le.
Qed.

Lemma loaded_for ms :
  forallb (fun n => alias_okb (node_external n) && alias_okb (node_internal n)) ms = true ->
  Forall node_ok ms /\ exists pam, loaded ms = Some pam /\ mgr_for pam (load_all ms).
Proof.
  intros Hok. assert (Hn : Forall node_ok ms).
  { apply Is_true_true_2, forallb_True in Hok. eapply Forall_impl; [exact Hok|]. intros n Hn.
    apply Is_true_true_1, andb_prop in Hn as [? ?]. split; [|split; by apply alias_check].
    unfold node_reads, node_external, node_internal, child_text. by repeat destruct (GetChildByName _ _). }
  split; [done|]. destruct (load_nodes_spec ms (AliasMgr NoEntry NoEntry) (∅, ∅)) as (pam & E & Hm); [by split; left|done|].
  exists pam. split; [|done]. unfold loaded. cbn [CcspAliasMgrLoadFromXMLFile CcspAliasMgrInitialize next_alloc fst Children xml_dom
    xml_children mapper_file load_lists NodeName xml_name]. rewrite bool_decide_true by done. by rewrite E.
Qed.

Definition demo_mx : amap := (load_all demo_ms).1.
Definition demo_mi : amap := (load_all demo_ms).2.
Lemma demo_ok : Forall node_ok demo_ms.
Proof. apply loaded_for. by vm_compute. Qed.
Lemma demo_mgr : exists pam, loaded demo_ms = Some pam /\ mgr_for pam (demo_mx, demo_mi).
Proof.
  destruct (loaded_for demo_ms) as (_ & pam & E & Hm); [by vm_compute|]. exists pam. split; [done|].
  unfold demo_mx, demo_mi. by destruct (load_all demo_ms).
Qed.
Lemma demo_aliases : aliases_ok demo_mx /\ aliases_ok demo_mi.
Proof. apply load_all_aliases_ok, demo_ok. Qed.

Definition mapped_check (M : amap) (path : list cstr) (alias : cstr) : bool :=
  match M !! path with
  | Some A => bool_decide (last (a_aliases A) = Some alias)
  | None => false
  end &&
  forallb (fun k => match M !! take k path with Some B => bool_decide (a_aliases B = []) | None => false end)
    (seq 1 (length path - 1)).
Lemma mapped_ok M path alias : mapped_check M path alias = true -> mapped M path alias.
Proof.
  intros [H1 H2]%andb_prop. split.
  - destruct (M !! path) as [A|]; [|done]. apply bool_decide_eq_true in H1. by exists A.
  - intros k Hk. apply Is_true_true_2, forallb_True in H2. rewrite Forall_forall in H2.
    specialize (H2 k). cbn beta in H2. destruct (M !! take k path) as [B|].
    + exists B. split; [done|]. eapply bool_decide_eq_true_1, Is_true_true_1, H2. apply elem_of_seq. lia.
    + destruct H2. apply elem_of_seq. lia.
Qed.

Definition regularb `{Platform} (path : list cstr) : bool :=
  bool_decide (path ≠ []) && bool_decide (head path ≠ Some (lit "{i}")) &&
  forallb (fun w => bool_decide (w = lit "{i}") || negb (CcspAliasMgrIsNameInsIdentifier w)) path.
Lemma regular_check `{Platform} path : regularb path = true -> regular path.
Proof.
  intros [[H1 H2]%andb_prop H3]%andb_prop. split_and!; [exact (bool_decide_eq_true_1 _ H1)|exact (bool_decide_eq_true_1 _ H2)|].
  apply Is_true_true_2, forallb_True in H3. eapply Forall_impl; [exact H3|]. intros w Hw Hne.
  apply Is_true_true_1, orb_prop in Hw as [Hw|Hw]; [by apply bool_decide_eq_true in Hw|by apply negb_true_iff].
Qed.

Definition good_segb (w : cstr) : bool := bool_decide (w ≠ []) && segment_okb w && bool_decide (46 ∉ w).
Lemma good_segs_check ws : forallb good_segb ws = true -> Forall good_seg ws.
Proof.
  intros H%Is_true_true_2%forallb_True. eapply Forall_impl; [exact H|]. intros w Hw.
  apply Is_true_true_1, andb_prop in Hw as [[H1 H2]%andb_prop H3]. split_and!; [exact (bool_decide_eq_true_1 _ H1)|by apply wf_check|exact (bool_decide_eq_true_1 _ H3)].
Qed.

Lemma alias_load_refines_witness :
  exists pam,
    CcspAliasMgrLoadFromXMLFile (fst (CcspAliasMgrInitialize [])) (Some (mapper_file demo_ms)) [] = Done (true, Some pam, []) /\
    mgr_for pam (load_all (mappings (mapper_file demo_ms))) /\
    aliases_ok (load_all (mappings (mapper_file demo_ms))).1 /\ aliases_ok (load_all (mappings (mapper_file demo_ms))).2.
Proof. by apply (alias_load_refines (mapper_file demo_ms) demo_ok). Defined.

Lemma CcspAliasMgrGetInternalNames_spec_witness :
  let _ := lp64 in let _ := parseFormat in
  exists pam, loaded demo_ms = Some pam /\
    CcspAliasMgrGetInternalNames (Some pam) (lit "Device.WiFi.3.Name") [] = Done (Some [Some (lit "Device.X_RDK.3.Ssid")], []) /\
    CcspAliasMgrGetFirstInternalName (Some pam) (lit "Device.WiFi.3.Name") [] = Done (Some (lit "Device.X_RDK.3.Ssid"), []).
Proof.
  cbn zeta. destruct demo_mgr as (pam & E & Hm). exists pam. split; [done|].
  pose proof (@CcspAliasMgrGetInternalNames_spec lp64 parseFormat pam demo_mx demo_mi (lit "Device.WiFi.3.Name") Hm
    (proj1 demo_aliases)) as H.
  assert (Et : @translate lp64 demo_mx (lit "Device.WiFi.3.Name") = Some [lit "Device.X_RDK.3.Ssid"]) by by vm_compute.
  rewrite Et in H. assert (Hw : wf_cstr (lit "Device.WiFi.3.Name")) by by apply wf_check; vm_compute.
  apply H; [|done|done|done|apply short_fits; [done|by vm_compute]|].
  - apply depths_check. by vm_compute.
  - apply translations_fit_check. by vm_compute.
Defined.

Lemma alias_round_trip_witness :
  let _ := lp64 in let _ := parseFormat in
  exists pam, loaded demo_ms = Some pam /\
    CcspAliasMgrGetFirstInternalName (Some pam) (lit "Device.WiFi.3.Name.Extra.") [] = Done (Some (lit "Device.X_RDK.3.Ssid.Extra."), []) /\
    CcspAliasMgrGetExternalName (Some pam) (lit "Device.X_RDK.3.Ssid.Extra.") [] = Done (Some (lit "Device.WiFi.3.Name.Extra."), []).
Proof.
  cbn zeta. destruct demo_mgr as (pam & E & Hm). exists pam. split; [done|].
  assert (Hx : join (inst (words dot (lit "Device.WiFi.{i}.Name")) [lit "3"] ++ [lit "Extra"]) ++ dot =
    lit "Device.WiFi.3.Name.Extra.") by by vm_compute.
  assert (Hy : join (inst (words dot (lit "Device.X_RDK.{i}.Ssid")) [lit "3"] ++ [lit "Extra"]) ++ dot =
    lit "Device.X_RDK.3.Ssid.Extra.") by by vm_compute.
  rewrite <-Hx, <-Hy.
  apply (@alias_round_trip lp64 parseFormat pam demo_mx demo_mi (lit "Device.WiFi.{i}.Name") (lit "Device.X_RDK.{i}.Ssid")
    [lit "3"] [lit "Extra"] true Hm (proj1 demo_aliases) (proj2 demo_aliases)).
  1, 2: by apply depths_check; vm_compute.
  1, 2: by apply regular_check; vm_compute.
  1, 2: by apply mapped_ok; vm_compute.
  1: by apply Forall_singleton; vm_compute.
  1, 2: by vm_compute.
  1, 2: by apply good_segs_check; vm_compute.
  1, 2: by vm_compute.
  all: by apply translations_fit_check; vm_compute.
Defined.

Lemma alias_faults_witness :
  let e := Entry None [] [] false NoEntry NoEntry in
  let x := replicate 200 97 in
  @CcspAliasMgrLoadFromXMLFile xml xml_dom None (Some (Xml (lit "Mapper") [] None [])) [] = Stuck NullDeref /\
  @CcspAliasMgrGetInternalNames lp64 parseFormat None (lit "Device") [] = Stuck NullDeref /\
  CcspAliasMgrFreeNamesList None = Stuck NullDeref /\
  @CcspAliasMgrFindAliases lp64 parseFormat (tree_of e) [] [] = Stuck OutOfBounds /\
  @find_loop parseFormat [Some x] (46 :: replicate 55 98) true [] true [] [] = Stuck OutOfBounds /\
  CcspAliasMgrAliasTreeAddItem add_fuel (Some (lit "Device")) (Some x) true (tree_of e, []) = Stuck NullDeref.
Proof.
  cbn zeta.
  apply (@alias_faults xml xml_dom lp64 parseFormat (Xml (lit "Mapper") [] None []) None (lit "Device") (replicate 200 97)
    (replicate 200 97) [] (46 :: replicate 55 98) [] [] (tree_of (Entry None [] [] false NoEntry NoEntry)) (Entry None [] [] false NoEntry NoEntry));
    try (by vm_compute); [by apply alias_check; vm_compute|].
  split_and!; [done|by apply wf_check; vm_compute|]. by apply (bool_decide_eq_true_1 _).
Defined.
