(* ===== verification/AliasFile.v ===== *)
(** * Loading a mapper file ([CCSP_AliasMgr/ccsp_alias_mgr_helper.c])

    The nodes of the XML parser as the nodes the alias manager works with, and
    the way from the bytes of a file to the trees of the manager. *)

From S2P Require Import Prelude CStrings Tokens IpAddr XmlText XmlNode XmlParse XmlRead XmlValue AliasTree AliasMgr.
Open Scope Z_scope.

Section nodes.
Context `{Platform}.

Definition xml_children (n : node) : list node := if no_children (ChildNodeQueue n) then [] else ChildNodeQueue n.

#[export] Instance xml_nodes : XmlDom node := {|
  NodeName := AnscXmlDomNodeGetName;
  Children := xml_children;
  GetChildByName n name := i ← AnscXmlDomNodeGetChildByName n name; ChildNodeQueue n !! i;
  GetDataString n size :=
    r ← AnscXmlDomNodeGetDataString (Some n) (Some (replicate (Z.to_nat (size + 1)) 0)) (Some size);
    match r.1.2 with None => Stuck NullDeref | Some t => string_at t 0 end;
  GetAttrBoolean n name b :=
    r ← AnscXmlDomNodeGetAttrBoolean (Some n) name (Some b);
    Done (default b r.2)
|}.

Definition ALIAS_MANAGER_MAX_MAPPER_FILE_SIZE : Z := 500000.

(** A file that exists is its bytes, fewer than two gigabytes, all of which [read] delivers. *)
Definition CcspAliasMgrLoadMappingFile (hAliasMgr : option mgr) (mappingFile : option mem) (a : alloc_stream)
  : outcome (bool * option mgr * alloc_stream) :=
  match mappingFile with
  | None => Done (false, hAliasMgr, a)
  | Some content =>
      let contentSize := Zlen content in
      if ALIAS_MANAGER_MAX_MAPPER_FILE_SIZE <? contentSize then Done (false, hAliasMgr, a)
      else
        let '(ok, a) := next_alloc a in
        if negb ok then Done (false, hAliasMgr, a)
        else
          let pFileContent := content ++ [0] in
          r ← (if 0 <? contentSize then
                 pBack ← scan_forward (fun c => c =? 60) pFileContent 0 (S (length pFileContent));
                 r ← AnscXmlDomParseString pFileContent (Some pBack) contentSize a;
                 let '(pRootNode, _, a) := r in Done (pRootNode, a)
               else Done (None, a));
          let '(pRootNode, a) := r in
          match pRootNode with
          | None => Done (false, hAliasMgr, a)
          | Some _ => CcspAliasMgrLoadFromXMLFile hAliasMgr pRootNode a
          end
  end.

(** ** Documents with a list of mappings *)

(** A text the manager gets as it stands: no longer than its buffer, and without
    references. *)
Lemma unescape_plain s : 38 ∉ s -> unescape s = Some s.
Proof.
  induction s as [|c s IH]; intros Hs; [apply unescape_nil|]. apply not_elem_of_cons in Hs as [Hc Hs].
  rewrite unescape_cons, (proj2 (Z.eqb_neq c 38)) by done. by rewrite IH.
Qed.

Lemma DataString_plain n s : StringData n = build_data s -> DataSize n = Zlen s -> wf_cstr s -> 38 ∉ s -> Zlen s <= 256 ->
  GetDataString n CCSP_Alias_Mgr_Name_Length = Done s.
Proof.
  intros ES ED Hs Hamp Hl. cbn [GetDataString xml_nodes]. unfold AnscXmlDomNodeGetDataString. rewrite ES, ED. unfold CCSP_Alias_Mgr_Name_Length.
  destruct s as [|c s]; [done|]. set (s' := c :: s) in *. change (build_data s') with (Some (s' ++ [0])). unfold give_string.
  rewrite (proj2 (Z.leb_gt _ _)), (proj2 (Z.ltb_ge 256 _)) by (unfold s' in *; cbn in *; lia). rewrite data_bytes_spec. cbn [mbind outcome_bind].
  replace (Z.to_nat (256 + 1)) with (length s' + S (256 - length s'))%nat by lia. rewrite replicate_add.
  pose proof (buf_copy_at [] (replicate (length s') 0) (replicate (S (256 - length s')) 0) s' 0 eq_refl) as Hc. cbn [app] in Hc.
  rewrite Hc by by rewrite length_replicate. cbn [mbind outcome_bind replicate].
  assert (Hput : (if Zlen s' <? 256 then buf_put (s' ++ 0 :: replicate (256 - length s') 0) (Zlen s') 0
    else Done (s' ++ 0 :: replicate (256 - length s') 0)) = Done (s' ++ 0 :: replicate (256 - length s') 0)).
  { destruct (_ <? _); [|done]. by apply buf_put_at. }
  rewrite Hput. cbn [mbind outcome_bind].
  pose proof (RemoveCharReference_run s' (replicate (256 - length s') 0) Hs) as Hr. rewrite unescape_plain in Hr by done.
  destruct Hr as (chg & -> & _). cbn [mbind outcome_bind fst snd]. rewrite Nat.sub_diag. by apply (string_at_spec []).
Qed.

Definition mapping_tree (external internal : cstr) (strict : bool) : tree :=
  Tree (lit "Alias") [(lit "strict", if strict then STR_TRUE else STR_FALSE)] []
    [Tree (lit "External") [] external []; Tree (lit "Internal") [] internal []].
Definition mapping_node (l : Z) '((x, y, b) : cstr * cstr * bool) : node := build l (mapping_tree x y b).
Definition mapper_tree (ms : list (cstr * cstr * bool)) : tree :=
  Tree (lit "Mapper") [] [] [Tree (lit "AliasList") [] [] ((fun '(x, y, b) => mapping_tree x y b) <$> ms)].
Definition load_mapping (Ms : amap * amap) '((x, y, b) : cstr * cstr * bool) : amap * amap := load_info Ms x y b.

Definition path_okb (s : cstr) : bool := text_ok s && bool_decide (38 ∉ s) && (strlen s <? CCSP_Alias_Mgr_Name_Length).
Definition mapping_okb '((x, y, _) : cstr * cstr * bool) : bool := path_okb x && path_okb y.

Lemma path_ok_spec s : path_okb s = true -> text_ok s = true /\ wf_cstr s /\ 38 ∉ s /\ strlen s < 256.
Proof.
  unfold path_okb. rewrite !andb_true_iff, bool_decide_eq_true. intros [[Ht Ha] Hl]. zbool.
  split_and!; [done|by apply gt_wf, text_ok_spec|done|done].
Qed.

Lemma mapping_node_spec l x y b : mapping_okb (x, y, b) = true ->
  child_text (mapping_node l (x, y, b)) (lit "External") = Done x /\
  child_text (mapping_node l (x, y, b)) (lit "Internal") = Done y /\
  GetAttrBoolean (mapping_node l (x, y, b)) (lit "strict") false = Done b.
Proof.
  intros [Hx Hy]%andb_true_iff. apply path_ok_spec in Hx as (_ & Hx & Hxa & Hxl), Hy as (_ & Hy & Hya & Hyl). unfold strlen in *.
  split_and!; [| |by destruct b]; unfold child_text.
  - change (GetChildByName _ _) with (Some (build (l + 1) (Tree (lit "External") [] x []))). by apply DataString_plain; try lia.
  - change (GetChildByName _ _) with (Some (build (l + 1) (Tree (lit "Internal") [] y []))). by apply DataString_plain; try lia.
Qed.

Lemma mapping_node_ok l m : mapping_okb m = true -> node_ok (mapping_node l m) /\ forall Ms, load_node Ms (mapping_node l m) = load_mapping Ms m.
Proof.
  destruct m as [[x y] b]. intros Hm. destruct (mapping_node_spec l x y b Hm) as (E1 & E2 & E3).
  apply andb_true_iff in Hm as [Hx Hy]. apply path_ok_spec in Hx as (_ & Hx & _ & Hxl), Hy as (_ & Hy & _ & Hyl).
  unfold node_ok, node_reads, load_node, node_external, node_internal, node_strict. rewrite E1, E2, E3. cbn [value_or]. by repeat split.
Qed.

Lemma mappings_mapper ms : Zlen ms < 65536 -> mappings (build 0 (mapper_tree ms)) = mapping_node 2 <$> ms.
Proof.
  intros Hms. unfold mappings. change (Children (build 0 (mapper_tree ms))) with [build 1 (Tree (lit "AliasList") [] [] ((fun '(x, y, b) => mapping_tree x y b) <$> ms))].
  cbn [fmap list_fmap mjoin list_join]. rewrite bool_decide_true by done. rewrite app_nil_r. cbn [Children xml_nodes]. unfold xml_children.
  cbn [build ChildNodeQueue]. rewrite no_children_map by (rewrite length_fmap; lia).
  case_bool_decide as E; [by destruct ms|]. change (map (build (1 + 1))) with (fmap (M := list) (build (1 + 1))). rewrite <-list_fmap_compose.
  apply list_fmap_ext. by intros i [[x y] b] _.
Qed.

Lemma mapper_well_formed ms : Zlen ms < 65536 -> forallb mapping_okb ms = true -> well_formed (mapper_tree ms) = true.
Proof.
  intros Hms Hok. unfold mapper_tree. cbn [well_formed forallb].
  assert (Hl : (Zlen ((fun '(x, y, b) => mapping_tree x y b) <$> ms) <? 65536) = true) by (rewrite length_fmap; lia). rewrite Hl.
  assert (Hall : forallb well_formed ((fun '(x, y, b) => mapping_tree x y b) <$> ms) = true).
  { clear Hms Hl. induction ms as [|[[x y] b] ms IH]; [done|]. cbn [forallb] in Hok. apply andb_true_iff in Hok as [[Hx Hy]%andb_true_iff Hok].
    apply path_ok_spec in Hx as (Hx & _), Hy as (Hy & _). cbn [fmap list_fmap forallb]. apply andb_true_iff. split; [|by apply IH].
    cbn [mapping_tree well_formed forallb]. rewrite Hx, Hy. by destruct b. }
  by rewrite Hall.
Qed.

(** C11. From the bytes of a file to the trees: a file that holds the text of a
    list of mappings, each name a text without references and shorter than its
    buffer, is read, parsed and loaded without a fault, and the two trees of the
    manager stand for the maps obtained by adding the mappings one after the
    other. *)
Theorem alias_file_loads ms (Hms : Zlen ms < 65536) (Hok : forallb mapping_okb ms = true)
  (Hsize : Zlen (print 0 (mapper_tree ms)) <= ALIAS_MANAGER_MAX_MAPPER_FILE_SIZE)
  (Hwrong : Forall (fun w => find_in (print 0 (mapper_tree ms)) w = None) gWrong_String) :
  exists pam,
    CcspAliasMgrLoadMappingFile (fst (CcspAliasMgrInitialize [])) (Some (print 0 (mapper_tree ms))) [] = Done (true, Some pam, []) /\
    mgr_for pam (foldl load_mapping (∅, ∅) ms).
Proof.
  set (t := mapper_tree ms) in *. pose proof (print_length_pos 0 t) as Hpos. unfold ALIAS_MANAGER_MAX_MAPPER_FILE_SIZE in *.
  destruct (ParseString_print t [] (Zlen (print 0 t)) (mapper_well_formed ms Hms Hok) ltac:(lia) Hwrong (or_intror eq_refl)) as [q Hparse].
  assert (Hfirst : buf_get (print 0 t ++ [0]) 0 = Done 60) by done.
  assert (Hnodes : Forall node_ok (mappings (build 0 t)) /\ foldl load_node (∅, ∅) (mappings (build 0 t)) = foldl load_mapping (∅, ∅) ms).
  { unfold t. rewrite mappings_mapper by done. generalize ((∅, ∅) : amap * amap). clear -Hok. induction ms as [|m ms IH]; intros Ms; [done|].
    cbn [forallb] in Hok. apply andb_true_iff in Hok as [Hm Hok]. destruct (mapping_node_ok 2 m Hm) as [Hn Hl].
    cbn [fmap list_fmap foldl]. rewrite Hl. destruct (IH Hok (load_mapping Ms m)) as [H1 H2]. split; [by constructor|done]. }
  destruct Hnodes as [Hnodes Hfold].
  destruct (load_nodes_spec (mappings (build 0 t)) (AliasMgr NoEntry NoEntry) (∅, ∅)) as (pam & E & Hm); [by split; left|done|].
  exists pam. rewrite <-Hfold. split; [|done]. unfold CcspAliasMgrLoadMappingFile, ALIAS_MANAGER_MAX_MAPPER_FILE_SIZE.
  rewrite (proj2 (Z.ltb_ge 500000 _)), (proj2 (Z.ltb_lt 0 _)) by lia. cbn [next_alloc negb scan_forward]. rewrite Hfirst. cbn [mbind outcome_bind Z.eqb Pos.eqb].
  rewrite Hparse. cbn [mbind outcome_bind CcspAliasMgrLoadFromXMLFile].
  pose proof (load_lists_nodes (Children (build 0 t)) (fst (CcspAliasMgrInitialize [])) []) as El. fold (mappings (build 0 t)) in El.
  cbn [CcspAliasMgrInitialize next_alloc fst] in El |- *. rewrite E in El. change (Children (build 0 t)) with (xml_children (build 0 t)) in *.
  destruct (xml_children (build 0 t)) as [|c cs] eqn:Ec; [done|]. by rewrite El.
Qed.

(** A file without a less-than sign makes loading read past its bytes: the
    search for the sign ends neither at the length of the file nor at the
    terminator written behind it. *)
Theorem alias_file_overreads am content (Hne : content ≠ []) (Htag : 60 ∉ content)
  (Hsize : Zlen content <= ALIAS_MANAGER_MAX_MAPPER_FILE_SIZE) :
  CcspAliasMgrLoadMappingFile am (Some content) [] = Stuck OutOfBounds.
Proof.
  unfold CcspAliasMgrLoadMappingFile. assert (0 < Zlen content) by (destruct content; [done|cbn; lia]).
  rewrite (proj2 (Z.ltb_ge _ _)), (proj2 (Z.ltb_lt 0 _)) by lia. cbn [next_alloc negb].
  assert (Hscan : forall k pre r, 60 ∉ r -> (length r < k)%nat -> scan_forward (fun c => c =? 60) (pre ++ r) (Zlen pre) k = Stuck OutOfBounds).
  { induction k as [|k IH]; intros pre r Hr Hk; [lia|]. cbn [scan_forward]. destruct r as [|c r].
    - unfold buf_get. rewrite (proj2 (Z.ltb_ge _ 0)) by lia. by rewrite Nat2Z.id, lookup_ge_None_2 by (rewrite app_nil_r; lia).
    - apply not_elem_of_cons in Hr as [Hc Hr]. rewrite (buf_get_lookup _ (length pre) c) by by apply list_lookup_middle.
      cbn [mbind outcome_bind]. rewrite (proj2 (Z.eqb_neq c 60)) by done.
      replace (pre ++ c :: r) with ((pre ++ [c]) ++ r) by by rewrite <-app_assoc.
      replace (Zlen pre + 1) with (Zlen (pre ++ [c])) by (rewrite length_app; cbn; lia). apply IH; [done|cbn in Hk; lia]. }
  rewrite (Hscan _ [] (content ++ [0])); [done| |lia]. rewrite elem_of_app. intros [?|[=]%list_elem_of_singleton]; done.
Qed.
End nodes.

(** ** Concrete files *)

Definition demo_mappings : list (cstr * cstr * bool) :=
  [(lit "Device.A.{i}.B", lit "Device.C.{i}", true); (lit "Device.D", lit "Device.E", false)].
Definition demo_file : mem := print 0 (mapper_tree demo_mappings).

(** A byte order mark, which the search for the less-than sign is there to skip:
    the parser is moved behind the mark, and given a length that counts it. *)
Example byte_order_mark : @CcspAliasMgrLoadMappingFile lp64 None (Some ([239; 187; 191] ++ demo_file)) [] = Stuck OutOfBounds.
Proof. by vm_compute. Qed.
(** A file that is too big, one that is empty and one that is not there. *)
Example not_loaded am :
  @CcspAliasMgrLoadMappingFile lp64 am (Some []) [] = Done (false, am, []) /\
  @CcspAliasMgrLoadMappingFile lp64 am None [] = Done (false, am, []).
Proof. done. Qed.

Lemma alias_file_loads_witness :
  exists pam,
    @CcspAliasMgrLoadMappingFile lp64 (fst (CcspAliasMgrInitialize [])) (Some demo_file) [] = Done (true, Some pam, []) /\
    mgr_for pam (foldl load_mapping (∅, ∅) demo_mappings).
Proof.
  apply (@alias_file_loads lp64 demo_mappings); [done|by vm_compute|by vm_compute|].
  apply (bool_decide_eq_true_1 _). by vm_compute.
Defined.

Lemma alias_file_overreads_witness : @CcspAliasMgrLoadMappingFile lp64 None (Some (lit "hello")) [] = Stuck OutOfBounds.
Proof. apply (@alias_file_overreads lp64 None (lit "hello")); [done|by apply (bool_decide_eq_true_1 _)|by vm_compute]. Defined.
