(* ===== verification/SlapVar.v ===== *)
(** * Variables of SLAP ([slap_definitions.h], [SlapVarHelper/slap_vho_variable.c])

    A [SLAP_VARIABLE] carries one value of the data model: a tag, the syntax,
    and a union that the tag says how to read.  Here the union and its tag are
    one inductive type with the syntaxes that the data model uses; reading a
    member that does not fit the tag is what C makes of it.  An array is the
    list of its elements, since its size follows from their number. *)

From S2P Require Import Prelude CStrings.
Open Scope Z_scope.

(** The fields of [ANSC_UNIVERSAL_TIME] that the converter reads and writes. *)
Record ANSC_UNIVERSAL_TIME := UniversalTime {
  Year : Z; Month : Z; DayOfMonth : Z; Hour : Z; Minute : Z; Second : Z }.

#[export] Instance universal_time_eq_dec : EqDecision ANSC_UNIVERSAL_TIME.
Proof. solve_decision. Defined.

Inductive SLAP_CONTENT_TYPE :=
  | SLAP_CONTENT_TYPE_UNSPECIFIED | SLAP_CONTENT_TYPE_MAPPED
  | SLAP_CONTENT_TYPE_IP4_ADDR | SLAP_CONTENT_TYPE_IP4_ADDR_WILDCARD
  | SLAP_CONTENT_TYPE_MAC_ADDR | SLAP_CONTENT_TYPE_IP4_ADDR_LIST | SLAP_CONTENT_TYPE_MAC_ADDR_LIST
  | SLAP_CONTENT_TYPE_TCPUDP_PORT | SLAP_CONTENT_TYPE_CALENDAR_TIME | SLAP_CONTENT_TYPE_PASSWORD
  | SLAP_CONTENT_TYPE_MASKED | SLAP_CONTENT_TYPE_OID_LIST | SLAP_CONTENT_TYPE_ASCII_STRING
  | SLAP_CONTENT_TYPE_HEX_STRING | SLAP_CONTENT_TYPE_URL_STRING | SLAP_CONTENT_TYPE_SUBNET_MASK
  | SLAP_CONTENT_TYPE_IP6_ADDR | SLAP_CONTENT_TYPE_IP6_ADDR_LIST | SLAP_CONTENT_TYPE_IP4_ADDR_RANGE_LIST.

#[export] Instance content_type_eq_dec : EqDecision SLAP_CONTENT_TYPE.
Proof. solve_decision. Defined.

Inductive SLAP_VAR_SYNTAX :=
  | SLAP_VAR_SYNTAX_other | SLAP_VAR_SYNTAX_bool | SLAP_VAR_SYNTAX_int | SLAP_VAR_SYNTAX_string
  | SLAP_VAR_SYNTAX_ucharArray | SLAP_VAR_SYNTAX_uint32 | SLAP_VAR_SYNTAX_uint32Array
  | SLAP_VAR_SYNTAX_handle
  (* no variable of the data model has one of these, but a parameter can be declared with it *)
  | SLAP_VAR_SYNTAX_boolArray | SLAP_VAR_SYNTAX_charArray | SLAP_VAR_SYNTAX_intArray
  | SLAP_VAR_SYNTAX_stringArray | SLAP_VAR_SYNTAX_ptrArray | SLAP_VAR_SYNTAX_handleArray
  | SLAP_VAR_SYNTAX_objectArray | SLAP_VAR_SYNTAX_variable.

#[export] Instance syntax_eq_dec : EqDecision SLAP_VAR_SYNTAX.
Proof. solve_decision. Defined.

(** The tagged union; a pointer is an option. *)
Inductive SLAP_VARIANT :=
  | VarOther
  | VarBool (b : Z)
  | VarInt (i : Z)
  | VarString (s : option cstr)
  | VarUcharArray (a : option (list Z))
  | VarUcharText (s : cstr)  (* the tag of an array of bytes, but a text *)
  | VarUint32 (u : Z)
  | VarUint32Array (a : option (list Z))
  | VarHandle (t : option ANSC_UNIVERSAL_TIME).

#[export] Instance variant_eq_dec : EqDecision SLAP_VARIANT.
Proof. solve_decision. Defined.

Record SLAP_VARIABLE := SlapVariable {
  VarName : option cstr;
  ContentType : SLAP_CONTENT_TYPE;
  UsageType : Z;
  Variant : SLAP_VARIANT;
  ReqSenderID : Z }.

#[export] Instance variable_eq_dec : EqDecision SLAP_VARIABLE.
Proof. solve_decision. Defined.

Definition Syntax (v : SLAP_VARIABLE) : SLAP_VAR_SYNTAX :=
  match Variant v with
  | VarOther => SLAP_VAR_SYNTAX_other
  | VarBool _ => SLAP_VAR_SYNTAX_bool
  | VarInt _ => SLAP_VAR_SYNTAX_int
  | VarString _ => SLAP_VAR_SYNTAX_string
  | VarUcharArray _ | VarUcharText _ => SLAP_VAR_SYNTAX_ucharArray
  | VarUint32 _ => SLAP_VAR_SYNTAX_uint32
  | VarUint32Array _ => SLAP_VAR_SYNTAX_uint32Array
  | VarHandle _ => SLAP_VAR_SYNTAX_handle
  end.

(** [SlapInitVariable], which [SlapAllocVariable] runs on the new variable. *)
Definition SlapInitVariable : SLAP_VARIABLE :=
  SlapVariable None SLAP_CONTENT_TYPE_UNSPECIFIED 0 VarOther 0.

(** An assignment to the tag and the union. *)
Definition set_Variant (v : SLAP_VARIABLE) (x : SLAP_VARIANT) : SLAP_VARIABLE :=
  SlapVariable (VarName v) (ContentType v) (UsageType v) x (ReqSenderID v).

(** ** Reading the union

    [Variant.varString] as a pointer: NULL, a string, or a number that is no
    address of a string, in which case using it is a fault. *)
Definition as_pointer (u : Z) : option (outcome cstr) :=
  if u =? 0 then None else Some (Stuck BadAccess).
Definition varString (v : SLAP_VARIABLE) : option (outcome cstr) :=
  match Variant v with
  | VarString s => Done <$> s
  | VarUcharText s => Some (Done s)
  | VarBool u | VarInt u | VarUint32 u => as_pointer u
  | VarUcharArray None | VarUint32Array None | VarHandle None | VarOther => None
  | VarUcharArray (Some _) | VarUint32Array (Some _) | VarHandle (Some _) => Some (Stuck BadAccess)
  end.

(** [Variant.varUint32] and [Variant.varInt]: an [int] is the first four bytes
    of the union, whose other bytes are zero then. *)
Definition varUint32 `{Platform} (v : SLAP_VARIABLE) : outcome Z :=
  match Variant v with
  | VarBool u | VarUint32 u => Done u
  | VarInt i => Done (if little_endian || (ulong_bits =? 32) then wrapU 32 i else wrapU 32 i * 2 ^ 32)
  | VarOther | VarString None | VarUcharArray None | VarUint32Array None | VarHandle None => Done 0
  | _ => Stuck BadAccess
  end.
Definition varInt `{Platform} (v : SLAP_VARIABLE) : outcome Z :=
  match Variant v with
  | VarInt i => Done i
  | _ => u ← varUint32 v; Done (INT (if little_endian || (ulong_bits =? 32) then u else u / 2 ^ 32))
  end.

(** ** Comparing and copying *)

(** The loop over the elements of two arrays, up to the first difference. *)
Fixpoint same_elements (a1 a2 : list Z) : bool :=
  match a1, a2 with
  | [], _ | _, [] => true
  | x :: a1, y :: a2 => if x =? y then same_elements a1 a2 else false
  end.
Definition SlapVhoEqualVarArrays (array1 array2 : option (list Z)) : outcome bool :=
  match array1, array2 with
  | Some a1, Some a2 =>
      if negb (Zlen a1 =? Zlen a2) then Done false else Done (same_elements a1 a2)
  | _, _ => Stuck NullDeref
  end.

(** Handles are compared as pointers: two times are the same handle only when
    they are one object, which copies of variables share. *)
Definition SlapVhoEqualVariables (same_handle : bool) (var1 var2 : SLAP_VARIABLE) : outcome bool :=
  match Variant var1, Variant var2 with
  | VarBool b1, VarBool b2 => Done (b1 =? b2)
  | VarInt i1, VarInt i2 => Done (i1 =? i2)
  | VarString (Some s1), VarString (Some s2) => Done (bool_decide (s1 = s2))
  | VarString None, VarString None => Done true
  | VarUcharArray a1, VarUcharArray a2 => SlapVhoEqualVarArrays a1 a2
  | VarUint32 u1, VarUint32 u2 => Done (u1 =? u2)
  | VarUint32Array a1, VarUint32Array a2 => SlapVhoEqualVarArrays a1 a2
  | VarUcharText _, VarUcharArray (Some _) | VarUcharArray (Some _), VarUcharText _
  | VarUcharText _, VarUcharText _ => Stuck BadAccess
  | VarUcharText _, VarUcharArray None | VarUcharArray None, VarUcharText _ => Stuck NullDeref
  | VarHandle None, VarHandle None => Done true
  | VarHandle (Some _), VarHandle (Some _) => Done same_handle
  | _, _ => Done false
  end.

(** [SlapCloneVariable(src, dst)] into a variable fresh from
    [SlapAllocVariable]: everything but the sender of the request is copied. *)
Definition SlapVhoCloneVariable (src_var dst_var : SLAP_VARIABLE) : SLAP_VARIABLE :=
  SlapVariable (VarName src_var) (ContentType src_var) (UsageType src_var)
    (Variant src_var) (ReqSenderID dst_var).

(** A copy equals its source, whatever the source holds, except an array that
    is NULL or a text, where the comparison faults. *)
Definition null_array (v : SLAP_VARIANT) : Prop :=
  v = VarUcharArray None \/ v = VarUint32Array None \/ exists s, v = VarUcharText s.

Lemma same_elements_refl a : same_elements a a = true.
Proof. induction a as [|x a IH]; cbn; [done|]. by rewrite Z.eqb_refl. Qed.

Lemma same_elements_eq a1 a2 : length a1 = length a2 -> same_elements a1 a2 = true -> a1 = a2.
Proof.
  revert a2. induction a1 as [|x a1 IH]; intros [|y a2] Hl; [done..|]. cbn.
  destruct (Z.eqb_spec x y) as [->|]; [|done]. intros. f_equal. apply IH; [by injection Hl|done].
Qed.

Lemma SlapVhoEqualVarArrays_spec a1 a2 :
  SlapVhoEqualVarArrays (Some a1) (Some a2) = Done (bool_decide (a1 = a2)).
Proof.
  unfold SlapVhoEqualVarArrays. destruct (Z.eqb_spec (Zlen a1) (Zlen a2)) as [E|E]; cbn [negb].
  - f_equal. case_bool_decide as Heq.
    + subst. apply same_elements_refl.
    + destruct (same_elements a1 a2) eqn:Es; [|done]. destruct Heq. apply same_elements_eq; [lia|done].
  - rewrite bool_decide_false; [done|]. by intros ->.
Qed.

Lemma clone_equal v : ~ null_array (Variant v) -> Variant v ≠ VarOther ->
  SlapVhoEqualVariables true v (SlapVhoCloneVariable v SlapInitVariable) = Done true.
Proof.
  intros Hn Ho. unfold SlapVhoEqualVariables, SlapVhoCloneVariable. cbn [Variant].
  unfold null_array in Hn. destruct (Variant v) as [| | |[s|]|[a|]|s| |[a|]|[t|]];
    rewrite ?Z.eqb_refl, ?SlapVhoEqualVarArrays_spec, ?bool_decide_true; try done; naive_solver.
Qed.

(** Two variables of one syntax that compare equal hold the same value. *)
Lemma equal_same_value v1 v2 :
  SlapVhoEqualVariables false v1 v2 = Done true -> Variant v1 = Variant v2.
Proof.
  unfold SlapVhoEqualVariables. intros E.
  destruct (Variant v1) as [| | |[s|]|[a|]|s| |[a|]|[t|]], (Variant v2) as [| | |[s'|]|[a'|]|s'| |[a'|]|[t'|]];
    try done; rewrite ?SlapVhoEqualVarArrays_spec in E; injection E as E; try done;
    first [apply Z.eqb_eq in E | apply bool_decide_eq_true in E]; by subst.
Qed.
