(* ===== verification/SlapConv.v ===== *)
(** * The variable converter of SLAP ([SlapVarConverter/slap_vco_stringto.c, slap_vco_tostring.c])

    Values of the data model as strings: booleans, numbers, octet strings,
    IPv4, IPv6 and MAC addresses and their lists, object identifiers, times.
    Allocations succeed.  [inet_addr] of the C library yields the four bytes of
    an address, as in [IpAddr]; [b64_decode] is as in [Base64]. *)

From S2P Require Import Prelude CStrings Tokens IpAddr Base64 Asn1 SlapVar.
Open Scope Z_scope.

Section convert.
Context `{Platform}.
Variable inet_addr : cstr -> list Z.
Variable b64_decode : list Z -> list Z.
(** What [strcat_s] of the string library does when a text does not fit. *)
Variable strcat_s_rest : cstr -> cstr -> outcome cstr.

(** [p[i]] on a string: its terminator can be read, what is behind cannot. *)
Definition char_at (s : cstr) (i : Z) : outcome Z := buf_get (s ++ [0]) i.

Definition same_word (s : cstr) (w : string) : bool := AnscEqualString1 (Some s) (Some (lit w)) false.

(** ** From strings *)

Definition SlapVcoStringToBool (var_bool : cstr) : Z :=
  if same_word var_bool "yes" || same_word var_bool "true" || same_word var_bool "1" then 4294967295 else 0.

Definition SlapVcoStringToInt (var_int : cstr) : Z := INT (atoll var_int).

(** [temp_char[3]] with two characters of a string and a terminator. *)
Definition hex_pair (c0 c1 : Z) : outcome Z :=
  match buf_cstr [c0; c1; 0] with Some t => AnscGetStringUlongHex t | None => Stuck OutOfBounds end.
Definition hex_pair_at (s : cstr) (i : Z) : outcome Z :=
  c0 ← char_at s i; c1 ← char_at s (i + 1); hex_pair c0 c1.

(** [n] bytes, the one at [i] read from the characters at [i * step]. *)
Fixpoint read_hex_bytes (s : cstr) (step i : Z) (n : nat) : outcome (list Z) :=
  match n with
  | O => Done []
  | S n => v ← hex_pair_at s (i * step); r ← read_hex_bytes s step (i + 1) n; Done (UCHAR v :: r)
  end.

Definition SlapVcoStringToUcharArray (var_uchar_array : cstr) : outcome (list Z) :=
  read_hex_bytes var_uchar_array 2 0 (Z.to_nat (strlen var_uchar_array / 2)).

Definition SlapVcoStringToUcharArray2 (var_uchar_array : cstr) : list Z := var_uchar_array.

(** The count that [AnscBase64Decode] leaves is the size of the array; the
    buffer holds at least that many bytes. *)
Definition SlapVcoBase64StringToUcharArray (var_uchar_array : option cstr) : outcome (option (list Z)) :=
  match var_uchar_array with
  | None => Done None
  | Some s =>
      r ← AnscBase64Decode b64_decode s [];
      match fst r with
      | Some (result, count) =>
          if count <=? Zlen result then Done (Some (take (Z.to_nat count) result)) else Stuck OutOfBounds
      | None => Done (Some (replicate (Z.to_nat (strlen s)) 0))
      end
  end.

Definition SlapVcoStringToUint32 (var_uint32 : option cstr) : Z :=
  match var_uint32 with None => 0 | Some s => ULONG (atoll s) end.

(** Four bytes in memory as an [in_addr_t], and back. *)
Definition addr_value (b : list Z) : Z :=
  num_value 256 (fun x => x) (if little_endian then reverse b else b).
Definition addr_bytes (v : Z) : list Z :=
  let b := (fun k => (v / 2 ^ (8 * k)) mod 256) <$> [0; 1; 2; 3] in
  if little_endian then b else reverse b.

Definition SlapVcoStringToIp4Addr (ip4_addr : option cstr) : Z :=
  match ip4_addr with None => 0 | Some s => addr_value (inet_addr s) end.

(** [while ( pAddrStringToken = AnscTcUnlinkToken(pAddrListTokenChain) )] over
    the tokens of a list that is separated by commas and semicolons. *)
Fixpoint each_token {A} (f : cstr -> outcome A) (chain : ANSC_TOKEN_CHAIN) : outcome (list A) :=
  match chain with
  | [] => Done []
  | t :: chain => s ← token_name t; x ← f s; r ← each_token f chain; Done (x :: r)
  end.
Definition list_tokens (s : option cstr) : outcome (option ANSC_TOKEN_CHAIN) :=
  match s with
  | None => Done None
  | Some _ => r ← AnscTcAllocate s (lit ",;") []; Done (fst r)
  end.

Definition SlapVcoStringToIp4AddrList (ip4_addr_list : option cstr) : outcome (option (list Z)) :=
  chain ← list_tokens ip4_addr_list;
  match chain with
  | None => Done None
  | Some chain => Some <$> each_token (fun s => Done (addr_value (inet_addr s))) chain
  end.

Definition SlapVcoStringToIp6Addr (ip6_addr : cstr) : outcome (option (list Z)) :=
  AnscParseIp6Address inet_addr ip6_addr [].

(** An address that is not recognized leaves the sixteen bytes as allocated. *)
Definition SlapVcoStringToIp6AddrList (ip6_addr_list : option cstr) : outcome (option (list Z)) :=
  chain ← list_tokens ip6_addr_list;
  match chain with
  | None => Done None
  | Some chain =>
      l ← each_token (fun s => r ← AnscParseIp6Address inet_addr s []; Done (default (replicate 16 0) r)) chain;
      Done (Some (List.concat l))
  end.

Definition SlapVcoStringToMacAddr (mac_addr : option cstr) : outcome (list Z) :=
  match mac_addr with None => Stuck NullDeref | Some s => read_hex_bytes s 3 0 6 end.

(** The name of a token is a buffer of [ANSC_URI_PATH_SIZE] bytes, so the
    characters behind a short name are zeros. *)
Definition mac_of_token (t : ANSC_STRING_TOKEN) : outcome (list Z) :=
  mapM (fun i => c0 ← buf_get (Name t) (i * 3); c1 ← buf_get (Name t) (i * 3 + 1); v ← hex_pair c0 c1; Done (UCHAR v))
    [0; 1; 2; 3; 4; 5].
Definition SlapVcoStringToMacAddrList (mac_addr_list : option cstr) : outcome (option (list Z)) :=
  chain ← list_tokens mac_addr_list;
  match chain with
  | None => Done None
  | Some chain => l ← mapM mac_of_token chain; Done (Some (List.concat l))
  end.

Definition SlapVcoStringToOidList (oid_list : cstr) : outcome (option (list Z)) :=
  r ← AnscAsn1ConvOid oid_list [];
  match fst r with
  | None => Done None
  | Some o => Done (Some (default [] (oid_Identifiers o)))
  end.

(** A field of a time: [n] characters from [i] in a cleared [temp_char[5]]. *)
Fixpoint chars_at (s : cstr) (i : Z) (n : nat) : outcome cstr :=
  match n with O => Done [] | S n => c ← char_at s i; r ← chars_at s (i + 1) n; Done (c :: r) end.
Definition time_field (s : cstr) (i : Z) (n : nat) : outcome Z :=
  cs ← chars_at s i n;
  match buf_cstr (cs ++ [0]) with
  | Some t => v ← AnscGetStringUlong t; Done (USHORT v)
  | None => Stuck OutOfBounds
  end.
Definition SlapVcoStringToCalendarTime (calendar_time : option cstr) : outcome ANSC_UNIVERSAL_TIME :=
  match calendar_time with
  | None => Stuck NullDeref
  | Some s =>
      y ← time_field s 0 4; mo ← time_field s 5 2; d ← time_field s 8 2;
      h ← time_field s 11 2; mi ← time_field s 14 2; se ← time_field s 17 2;
      Done (UniversalTime y mo d h mi se)
  end.

Definition SlapVcoHexStringToDecimal (hex_string : option cstr) : outcome Z :=
  match hex_string with None => Done 0 | Some s => AnscGetStringUlongHex s end.

(** ** To strings *)

Definition SlapVcoBoolToString (var_bool : Z) : cstr := if var_bool =? 0 then lit "false" else lit "true".

(** [_ansc_itoa] with radix 10. *)
Definition SlapVcoIntToString (var_int : Z) : cstr :=
  if var_int <? 0 then 45 :: fmt_u 10 (- var_int) else fmt_u 10 var_int.

Definition SlapVcoUint32ToString (var_uint32 : Z) : cstr := fmt_u 10 (wrapU 32 var_uint32).

Definition SlapVcoUcharArrayToString (var_uchar_array : option (list Z)) : option cstr :=
  match var_uchar_array with
  | None | Some [] => None
  | Some a => Some (a ≫= fmt_02X)
  end.

Definition SlapVcoUcharArrayToBase64String (var_uchar_array : option (list Z)) : outcome (option cstr) :=
  match var_uchar_array with
  | None | Some [] => Done None
  | Some a =>
      r ← AnscBase64Encode a (Zlen a) [];
      match fst r with
      | None => Done None
      | Some b => match buf_cstr b with Some s => Done (Some s) | None => Stuck OutOfBounds end
      end
  end.

(** The copy is terminated by the byte behind it in zeroed memory; a zero byte
    in the array ends the string early. *)
Definition SlapVcoUcharArrayToString2 (var_uchar_array : option (list Z)) : option cstr :=
  match var_uchar_array with
  | None | Some [] => None
  | Some a => buf_cstr (a ++ [0])
  end.

(** [AnscGetIpAddrString]: the numbers are printed one behind the other into a
    cleared buffer, whose zeros end each of them. *)
Fixpoint print_dots (dots : list Z) (tmp_string : list Z) : outcome (list Z) :=
  match dots with
  | [] => buf_put tmp_string 0 0
  | d :: dots =>
      t ← AnscGetUlongString d tmp_string;
      n ← match buf_cstr t with Some s => Done (length s) | None => Stuck OutOfBounds end;
      match dots with
      | [] => r ← print_dots dots (drop n t); Done (take n t ++ r)
      | _ => r ← buf_put (drop n t) 0 46; r' ← print_dots dots (tail r); Done (take n t ++ 46 :: r')
      end
  end.
Definition AnscGetIpAddrString (v : Z) (addr_string : list Z) : outcome (list Z) :=
  print_dots (addr_bytes (wrapU 32 v)) addr_string.
Definition SlapVcoIp4AddrToString (ip4_addr : Z) : outcome cstr :=
  b ← AnscGetIpAddrString ip4_addr (replicate 32 0);
  match buf_cstr b with Some s => Done s | None => Stuck OutOfBounds end.

Definition SlapVcoIp4AddrToString2 (ip4_addr : Z) : outcome cstr :=
  if ip4_addr =? 0 then Done [] else SlapVcoIp4AddrToString ip4_addr.

(** Text appended to the string in a buffer of [room] bytes. *)
Definition put_text (room : Z) (s t : cstr) : outcome cstr :=
  if strlen s + strlen t <? room then Done (s ++ t) else Stuck OutOfBounds.

Definition dotted (b : list Z) : cstr :=
  match b with
  | [a; b; c; d] => fmt_u 3 a ++ 46 :: fmt_u 3 b ++ 46 :: fmt_u 3 c ++ 46 :: fmt_u 3 d
  | _ => []
  end.
Fixpoint print_ip4s (room : Z) (l : list Z) (s : cstr) : outcome cstr :=
  match l with
  | [] => Done s
  | [v] => put_text room s (dotted (addr_bytes (wrapU 32 v)))
  | v :: l => s ← put_text room s (dotted (addr_bytes (wrapU 32 v)) ++ [44]); print_ip4s room l s
  end.
Definition SlapVcoIp4AddrListToString (ip4_addr_list : option (list Z)) : outcome (option cstr) :=
  match ip4_addr_list with
  | None => Done None
  | Some l => Some <$> print_ip4s (32 * Zlen l + 1) l []
  end.

Definition SlapVcoIp6AddrToString (ip6_addr : option (list Z)) : option cstr :=
  match ip6_addr with
  | None => Some (lit "::")
  | Some a => fst (AnscIp6AddressToString (Some a) [])
  end.

(** The loop runs over all bytes of the array, and prints the address whose
    sixteen bytes start at each of them. *)
Definition sixteen_at (a : list Z) (i : Z) : outcome (list Z) :=
  if i + 16 <=? Zlen a then Done (take 16 (drop (Z.to_nat i) a)) else Stuck OutOfBounds.
Definition SlapVcoIp6AddrListToString (ip6_addr_list : option (list Z)) : outcome (option cstr) :=
  match ip6_addr_list with
  | None => Done None
  | Some a =>
      let room := Zlen a * 4 + 1 in
      Some <$> for_from 0 (length a) (fun i (s : cstr) =>
        s ← (if (i mod 16 =? 0) && negb (i =? 0) then put_text room s (lit ", ") else Done s);
        b ← sixteen_at a i;
        match fst (AnscIp6AddressToString (Some b) []) with
        | Some t => if strlen s + strlen t <? room then Done (s ++ t) else strcat_s_rest s t
        | None => Done s
        end) []
  end.

Definition mac_text (b : list Z) : cstr :=
  let at_ i := default 0 (b !! i) in
  fmt_02X (at_ 0%nat) ++ 58 :: fmt_02X (at_ 1%nat) ++ 58 :: fmt_02X (at_ 2%nat) ++ 58 ::
  fmt_02X (at_ 3%nat) ++ 58 :: fmt_02X (at_ 4%nat) ++ 58 :: fmt_02X (at_ 5%nat).
Definition SlapVcoMacAddrToString (mac_addr : list Z) : cstr := mac_text mac_addr.

(** [!a[0] && !a[1] && ...]: stops at the first byte that is not zero. *)
Fixpoint all_zero_upto (b : list Z) (i : Z) (n : nat) : outcome bool :=
  match n with
  | O => Done true
  | S n => c ← buf_get b i; if c =? 0 then all_zero_upto b (i + 1) n else Done false
  end.
Definition SlapVcoMacAddrToString2 (mac_addr : list Z) : outcome cstr :=
  z ← all_zero_upto mac_addr 0 6;
  Done (if (z : bool) then [] else mac_text mac_addr).

Definition print_macs (sep inner : cstr) (a : list Z) : outcome cstr :=
  let room := Zlen a * 24 / 6 + 1 in
  for_from 0 (length a) (fun i (s : cstr) =>
    s ← (if negb (i =? 0) && (i mod 6 =? 0) then put_text room s sep
         else if i =? 0 then Done s else put_text room s inner);
    b ← buf_get a i;
    put_text room s (fmt_02X b)) [].
Definition SlapVcoMacAddrListToString (mac_addr_list : option (list Z)) : outcome (option cstr) :=
  match mac_addr_list with None => Done None | Some a => Some <$> print_macs (lit ", ") [] a end.

(** "%d." for each identifier, then the last dot is cut off. *)
Definition SlapVcoOidListToString (oid_list : option (list Z)) : outcome (option cstr) :=
  match oid_list with
  | None => Done None
  | Some [] => Done (Some [])
  | Some l =>
      let room := Zlen l * 16 + 1 in
      s ← foldl (fun (r : outcome cstr) v => s ← r; put_text room s (SlapVcoIntToString (INT v) ++ [46])) (Done []) l;
      Done (Some (take (length s - 1) s))
  end.

(** "%04d" and "%02d" of an unsigned short. *)
Definition fmt_d (width : nat) (v : Z) : cstr :=
  let t := fmt_u 5 v in replicate (width - length t) 48 ++ t.
Definition SlapVcoCalendarTimeToString (t : ANSC_UNIVERSAL_TIME) : cstr :=
  fmt_d 4 (Year t) ++ 45 :: fmt_d 2 (Month t) ++ 45 :: fmt_d 2 (DayOfMonth t) ++ 84 ::
  fmt_d 2 (Hour t) ++ 58 :: fmt_d 2 (Minute t) ++ 58 :: fmt_d 2 (Second t) ++ [90].

(** "%X" of an unsigned int. *)
Fixpoint fmt_X (n : nat) (v : Z) : cstr :=
  match n with
  | O => []
  | S k => if v <? 16 then [hex_char false v] else fmt_X k (v / 16) ++ [hex_char false (v mod 16)]
  end.
Definition SlapVcoUint32ToHexString (var_uint32 : Z) : cstr := fmt_X 8 (wrapU 32 var_uint32).

End convert.

(** ** Lemmas *)

Section lemmas.
Context `{Platform}.

Lemma fmt_02X_hex b : is_byte b ->
  exists c0 c1, fmt_02X b = [c0; c1] /\ hex_digit c0 /\ hex_digit c1 /\
    hex_char_value c0 0 = b / 16 /\ hex_char_value c1 0 = b mod 16.
Proof.
  intros Hb. destruct (nibble_bound b Hb) as [H1 H2].
  destruct (hex_char_digit false _ H1), (hex_char_digit false _ H2). by eexists _, _.
Qed.

Lemma hex_digit_byte c : hex_digit c -> 0 < c < 256.
Proof. unfold hex_digit. lia. Qed.

Lemma hex_pair_digits c0 c1 : hex_digit c0 -> hex_digit c1 ->
  hex_pair c0 c1 = Done (hex_char_value c0 0 * 16 + hex_char_value c1 0).
Proof.
  intros H0 H1. unfold hex_pair.
  change [c0; c1; 0] with ([c0; c1] ++ 0 :: []). rewrite buf_cstr_app by (repeat constructor; by apply hex_digit_byte).
  rewrite AnscGetStringUlongHex_spec by (by apply Forall_cons; split; [|apply Forall_singleton]). f_equal.
  change (10 <? strlen [c0; c1]) with false. cbv iota.
  unfold num_value. cbn [foldl]. rewrite Z.mul_0_l, Z.add_0_l. apply ULONG_small32.
  assert (Hv : forall c, hex_digit c -> 0 <= hex_char_value c 0 < 16).
  { unfold hex_digit, hex_char_value. intros c Hc. repeat case_match; zbool; lia. }
  pose proof (Hv _ H0). pose proof (Hv _ H1). lia.
Qed.

Lemma hex_pair_02X b c0 c1 : is_byte b -> fmt_02X b = [c0; c1] -> hex_pair c0 c1 = Done b.
Proof.
  intros Hb E. destruct (fmt_02X_hex b Hb) as (d0 & d1 & E' & H0 & H1 & V0 & V1).
  rewrite E in E'. injection E' as -> ->. rewrite hex_pair_digits, V0, V1 by done. f_equal.
  pose proof (Z.div_mod b 16). lia.
Qed.

Lemma UCHAR_small b : is_byte b -> UCHAR b = b.
Proof. apply Z.mod_small. Qed.

Lemma char_at_app pre c post i : i = Zlen pre -> char_at (pre ++ c :: post) i = Done c.
Proof.
  intros ->. unfold char_at. rewrite <-app_assoc. apply buf_get_lookup. cbn.
  by rewrite lookup_app_r, Nat.sub_diag by done.
Qed.

Lemma read_bytes_hex a : Forall is_byte a -> forall pre i, Zlen pre = i * 2 ->
  read_hex_bytes (pre ++ (a ≫= fmt_02X)) 2 i (length a) = Done a.
Proof.
  induction 1 as [|b a Hb Ha IH]; intros pre i Hi; cbn [read_hex_bytes length]; [done|].
  destruct (fmt_02X_hex b Hb) as (c0 & c1 & E & _). cbn [mbind list_bind]. rewrite E. cbn [app].
  change (list_bind _ _ _ a) with (a ≫= fmt_02X). unfold hex_pair_at.
  rewrite (char_at_app pre c0 _ (i * 2)) by lia. cbn [mbind outcome_bind].
  change (pre ++ c0 :: c1 :: ?r) with (pre ++ [c0] ++ c1 :: r). rewrite app_assoc.
  rewrite char_at_app by (rewrite length_app; cbn; lia). cbn [mbind outcome_bind].
  rewrite (hex_pair_02X b) by done. cbn [mbind outcome_bind].
  replace ((pre ++ [c0]) ++ c1 :: (a ≫= fmt_02X)) with ((pre ++ [c0; c1]) ++ (a ≫= fmt_02X))
    by (by rewrite <-!app_assoc).
  rewrite IH by (rewrite length_app; cbn; lia). cbn. by rewrite UCHAR_small.
Qed.

Lemma length_02X a : length (a ≫= fmt_02X) = (2 * length a)%nat.
Proof. induction a as [|b a IH]; [done|]. cbn in *. lia. Qed.

(** A string that ends before the last digit of a MAC address is read past its
    end; any other one is read. *)
Lemma char_at_in s i : 0 <= i <= strlen s -> exists c, char_at s i = Done c.
Proof.
  intros Hi. unfold char_at, strlen in *. destruct (lookup_lt_is_Some_2 (s ++ [0]) (Z.to_nat i)) as [c Hc].
  - rewrite length_app. cbn. lia.
  - exists c. apply buf_get_Z; [lia|done].
Qed.
Lemma char_at_out s i : strlen s < i -> char_at s i = Stuck OutOfBounds.
Proof.
  intros Hi. unfold char_at, strlen, buf_get in *. destruct (Z.ltb_spec i 0); [lia|].
  rewrite lookup_ge_None_2; [done|]. rewrite length_app. cbn. lia.
Qed.

Lemma hex_pair_total c0 c1 : exists v, hex_pair c0 c1 = Done v.
Proof.
  unfold hex_pair. cbn [buf_cstr]. destruct (c0 =? 0); [|destruct (c1 =? 0)]; cbn [fmap option_fmap option_map Z.eqb];
    eexists; unfold AnscGetStringUlongHex; cbn; reflexivity.
Qed.

Lemma read_mac_long s n : 16 <= strlen s -> (n <= 6)%nat -> forall i, 0 <= i -> i + Z.of_nat n <= 6 ->
  exists r, read_hex_bytes s 3 i n = Done r /\ length r = n.
Proof.
  intros Hs. induction n as [|n IH]; intros Hn i H0 Hi; cbn [read_hex_bytes]; [by exists []|].
  unfold hex_pair_at. destruct (char_at_in s (i * 3)) as [c0 ->]; [lia|].
  destruct (char_at_in s (i * 3 + 1)) as [c1 ->]; [lia|]. cbn [mbind outcome_bind].
  destruct (hex_pair_total c0 c1) as [v ->]. cbn [mbind outcome_bind].
  destruct (IH ltac:(lia) (i + 1)) as (r & -> & Hl); [lia..|]. cbn. eexists. split; [done|]. cbn. lia.
Qed.

Lemma read_mac_short s n : strlen s < 16 -> forall i, 0 <= i -> i + Z.of_nat n = 6 -> (0 < n)%nat ->
  read_hex_bytes s 3 i n = Stuck OutOfBounds.
Proof.
  intros Hs. induction n as [|n IH]; intros i H0 Hi Hn; [lia|]. cbn [read_hex_bytes]. unfold hex_pair_at.
  destruct (decide (i * 3 <= strlen s)); [|by rewrite (char_at_out s (i * 3)) by lia].
  destruct (char_at_in s (i * 3)) as [c0 ->]; [lia|]. cbn [mbind outcome_bind].
  destruct (decide (i * 3 + 1 <= strlen s)); [|by rewrite (char_at_out s (i * 3 + 1)) by lia].
  destruct (char_at_in s (i * 3 + 1)) as [c1 ->]; [lia|]. cbn [mbind outcome_bind].
  destruct (hex_pair_total c0 c1) as [v ->]. cbn [mbind outcome_bind].
  rewrite IH by lia. done.
Qed.

(** *** Decimal fields *)

#[export] Instance is_digit_dec c : Decision (is_digit c).
Proof. unfold is_digit. solve_decision. Defined.

Lemma fmt_u_zero n : fmt_u (S n) 0 = [48].
Proof. done. Qed.

Lemma fmt_u_dec n v : 0 <= v < 10 ^ Z.of_nat (S n) -> decimal v (fmt_u (S n) v).
Proof.
  intros Hv. destruct (decide (v = 0)) as [->|]; [|apply fmt_u_decimal; split; [lia|apply Hv]].
  split_and!; [repeat constructor; unfold is_digit; lia|done|]. by exists 48, [].
Qed.

Lemma decimal_zero s : decimal 0 s -> s = [48].
Proof.
  intros (Hs & Hv & c & r & -> & Hc). apply is_digit_dig in Hs. inversion Hs as [|? ? H1 H2]; subst. cbn beta in H1.
  destruct (decide (c = 48)) as [->|Hne]; [by rewrite Hc|].
  pose proof (num_value_lower 10 (fun c => c - 48) c r ltac:(lia) H2 ltac:(lia)) as Hlow.
  pose proof (Z.pow_pos_nonneg 10 (Zlen r)). lia.
Qed.

Lemma decimal_fmt_u n v s : decimal v s -> 0 <= v < 10 ^ Z.of_nat (S n) -> s = fmt_u (S n) v.
Proof.
  intros Hd Hv. destruct (decide (v = 0)) as [->|]; [by apply decimal_zero|].
  symmetry. apply fmt_u_of; [done|split; [lia|apply Hv]].
Qed.

(** *** IPv4 addresses *)

Lemma addr_bytes_buf v : is_buf 4 (addr_bytes v).
Proof.
  unfold addr_bytes, is_buf. cbn [fmap list_fmap]. destruct little_endian; (split; [done|]);
    rewrite ?Forall_reverse; repeat constructor; by apply Z.mod_pos_bound.
Qed.

Lemma addr_value_bytes v : 0 <= v < 2 ^ 32 -> addr_value (addr_bytes v) = v.
Proof.
  intros Hv. unfold addr_value, addr_bytes. cbn [fmap list_fmap].
  set (b := fun k => (v / 2 ^ (8 * k)) mod 256).
  assert (E : num_value 256 (fun x => x) [b 3; b 2; b 1; b 0] = v).
  { unfold b, num_value. cbn [foldl]. change (2 ^ (8 * 0)) with 1. change (2 ^ (8 * 1)) with 256.
    change (2 ^ (8 * 2)) with 65536. change (2 ^ (8 * 3)) with 16777216. change (2 ^ 32) with 4294967296 in Hv.
    rewrite Z.div_1_r. Z.div_mod_to_equations. lia. }
  by destruct little_endian; cbn.
Qed.

Fixpoint ip_text (dots : list Z) : cstr :=
  match dots with [] => [] | [d] => fmt_u 3 d | d :: dots => fmt_u 3 d ++ 46 :: ip_text dots end.

Lemma ip_text_cons d e dots : ip_text (d :: e :: dots) = fmt_u 3 d ++ 46 :: ip_text (e :: dots).
Proof. done. Qed.

Lemma dotted_text b : Zlen b = 4 -> dotted b = ip_text b.
Proof. destruct b as [|? [|? [|? [|? [|? ?]]]]]; cbn [length]; done || lia. Qed.

Lemma fmt_u_byte d : is_byte d -> (1 <= length (fmt_u 3 d) <= 3)%nat /\ wf_cstr (fmt_u 3 d).
Proof.
  unfold is_byte. intros Hd. cbn [fmt_u]. repeat case_match; zbool; cbn; split; try lia;
    repeat constructor; Z.div_mod_to_equations; lia.
Qed.

Lemma print_dot d n : is_byte d -> (20 <= n)%nat ->
  AnscGetUlongString d (replicate n 0) = Done (fmt_u 3 d ++ replicate (n - length (fmt_u 3 d)) 0) /\
  buf_cstr (fmt_u 3 d ++ replicate (n - length (fmt_u 3 d)) 0) = Some (fmt_u 3 d).
Proof.
  intros Hd Hn. pose proof (fmt_u_byte d Hd) as [Hl Hw].
  destruct (AnscGetUlongString_spec d (replicate n 0)) as (s & E & Hs).
  { pose proof ulong_modulus_ge. unfold is_byte in Hd. lia. } { by rewrite length_replicate. }
  apply (decimal_fmt_u 2) in Hs; [|unfold is_byte in Hd; cbn; lia]. subst s.
  rewrite drop_replicate in E. split; [done|].
  replace (n - length (fmt_u 3 d))%nat with (S (n - length (fmt_u 3 d) - 1)) by lia.
  by apply buf_cstr_app.
Qed.

Lemma buf_put_head o r v : buf_put (o :: r) 0 v = Done (v :: r).
Proof. by apply (buf_put_at [] o r v 0). Qed.

Lemma print_dots_text dots n : dots ≠ [] -> Forall is_byte dots -> (16 + 4 * length dots <= n)%nat ->
  (length (ip_text dots) < n)%nat /\
  print_dots dots (replicate n 0) = Done (ip_text dots ++ replicate (n - length (ip_text dots)) 0).
Proof.
  intros Hne Hd. revert n. induction Hd as [|d dots Hd Hds IH]; intros n Hn; [done|]. clear Hne.
  cbn [length] in Hn. destruct (print_dot d n Hd ltac:(lia)) as [E1 E2].
  pose proof (fmt_u_byte d Hd) as [Hl Hw]. set (t := fmt_u 3 d) in *. cbn [print_dots]. rewrite E1. cbn [mbind outcome_bind].
  rewrite E2. cbn [mbind outcome_bind]. rewrite drop_app_length, take_app_length. destruct dots as [|e dots].
  - cbn [ip_text length] in *. fold t. split; [lia|].
    replace (n - length t)%nat with (S (n - length t - 1)) at 1 by lia.
    cbn [print_dots replicate]. rewrite buf_put_head. cbn [app mbind outcome_bind].
    change (0 :: replicate (n - length t - 1) 0) with (replicate (S (n - length t - 1)) 0).
    do 3 f_equal. lia.
  - destruct (IH ltac:(done) (n - length t - 1)%nat ltac:(cbn [length] in *; lia)) as [Hle Er].
    rewrite ip_text_cons. fold t. rewrite length_app. cbn [length] in *. split; [lia|].
    replace (n - length t)%nat with (S (n - length t - 1)) at 1 by lia. cbn [replicate].
    rewrite buf_put_head. cbn [app mbind outcome_bind tail].
    rewrite Er. cbn [mbind outcome_bind]. rewrite <-app_assoc. cbn [app].
    by replace (n - (length t + S (length (ip_text (e :: dots)))))%nat
      with (n - length t - 1 - length (ip_text (e :: dots)))%nat by lia.
Qed.

Lemma ip_text_wf dots : Forall is_byte dots -> wf_cstr (ip_text dots).
Proof.
  induction 1 as [|d dots Hd Hds IH]; [constructor|]. destruct (fmt_u_byte d Hd) as [_ Hw].
  destruct dots as [|e dots]; [done|]. rewrite ip_text_cons. apply wf_cstr_app. split; [done|].
  constructor; [lia|done].
Qed.

Lemma SlapVcoIp4AddrToString_spec v : 0 <= v < 2 ^ 32 ->
  SlapVcoIp4AddrToString v = Done (dotted (addr_bytes v)).
Proof.
  intros Hv. unfold SlapVcoIp4AddrToString, AnscGetIpAddrString. unfold wrapU. rewrite Z.mod_small by done.
  destruct (addr_bytes_buf v) as [Hl Hb]. rewrite (dotted_text _ Hl).
  destruct (print_dots_text (addr_bytes v) 32) as [Hlt ->];
    [by intros E; rewrite E in Hl|done|lia|]. cbn [mbind outcome_bind].
  replace (32 - length (ip_text (addr_bytes v)))%nat with (S (31 - length (ip_text (addr_bytes v)))) by lia.
  cbn [replicate]. by rewrite buf_cstr_app by by apply ip_text_wf.
Qed.

(** *** Times *)

Definition fits_in_digits (n : nat) (v : Z) : Prop := 0 <= v < 10 ^ Z.of_nat n.

Lemma num_value_pad k s : num_value 10 (fun c => char_val c - 48) (replicate k 48 ++ s) =
  num_value 10 (fun c => char_val c - 48) s.
Proof.
  induction k as [|k IH]; [done|]. cbn [replicate app]. rewrite num_value_cons, IH, char_val_ascii by lia. lia.
Qed.

Lemma fmt_d_spec n v : (n = 2 \/ n = 4)%nat -> fits_in_digits n v ->
  length (fmt_d n v) = n /\ Forall is_digit (fmt_d n v) /\ AnscGetStringUlong (fmt_d n v) = Done v.
Proof.
  intros Hn Hv. unfold fits_in_digits in Hv.
  assert (Hd : decimal v (fmt_u 5 v)) by (apply fmt_u_dec; destruct Hn as [-> | ->]; cbn in *; lia).
  assert (Hlen : (length (fmt_u 5 v) <= n)%nat).
  { destruct (decide (v = 0)) as [->|]; [cbn; lia|].
    destruct (decimal_length v _ Hd) as [Hlo _]; [lia|].
    apply Nat.nlt_ge. intros Hlt. assert (10 ^ Z.of_nat n <= 10 ^ (Zlen (fmt_u 5 v) - 1)) by (apply Z.pow_le_mono_r; lia).
    lia. }
  destruct Hd as (Hdig & Hval & _). unfold fmt_d.
  assert (Hl : length (replicate (n - length (fmt_u 5 v)) 48 ++ fmt_u 5 v) = n)
    by (rewrite length_app, length_replicate; lia).
  split_and!; [done| |].
  - apply Forall_app. split; [|done]. apply Forall_replicate. unfold is_digit. lia.
  - rewrite AnscGetStringUlong_spec. unfold strlen. rewrite Hl.
    destruct (Z.ltb_spec 10 (Z.of_nat n)); [lia|]. f_equal. rewrite num_value_pad.
    rewrite (num_value_ext 10 _ (fun c => c - 48)), Hval.
    + apply ULONG_small32. destruct Hn as [-> | ->]; cbn in *; lia.
    + eapply Forall_impl; [exact Hdig|]. unfold is_digit. intros c Hc. cbn. rewrite char_val_ascii; lia.
Qed.

Lemma chars_at_text t : forall pre post i, i = Zlen pre -> chars_at (pre ++ t ++ post) i (length t) = Done t.
Proof.
  induction t as [|c t IH]; intros pre post i Hi; [done|]. cbn [length chars_at app].
  rewrite char_at_app by done. cbn [mbind outcome_bind].
  specialize (IH (pre ++ [c]) post (i + 1)). rewrite <-app_assoc in IH. cbn [app] in IH.
  rewrite IH by (rewrite length_app; cbn; lia). done.
Qed.

Lemma time_field_in s pre n v post i : (n = 2 \/ n = 4)%nat -> fits_in_digits n v ->
  s = pre ++ fmt_d n v ++ post -> i = Zlen pre -> time_field s i n = Done v.
Proof.
  intros Hn Hv -> ->. destruct (fmt_d_spec n v Hn Hv) as (Hl & Hd & E).
  unfold time_field.
  rewrite <-Hl at 2. rewrite chars_at_text by done. cbn [mbind outcome_bind].
  assert (Hw : wf_cstr (fmt_d n v)).
  { eapply Forall_impl; [exact Hd|]. unfold is_digit. cbn. lia. }
  rewrite buf_cstr_app by done. rewrite E. cbn [mbind outcome_bind]. f_equal. apply USHORT_small.
  unfold fits_in_digits in Hv. destruct Hn as [-> | ->]; cbn in *; lia.
Qed.

Definition time_ok (t : ANSC_UNIVERSAL_TIME) : Prop :=
  fits_in_digits 4 (Year t) /\ fits_in_digits 2 (Month t) /\ fits_in_digits 2 (DayOfMonth t) /\
  fits_in_digits 2 (Hour t) /\ fits_in_digits 2 (Minute t) /\ fits_in_digits 2 (Second t).

(** Reads the next field of a printed time, behind the text [pre]. *)
Ltac next_field i pre n v :=
  erewrite (time_field_in _ pre n v _ i);
    [cbn [mbind outcome_bind] | lia | done
    | cbn [app]; repeat (rewrite <-app_assoc; cbn [app]); reflexivity
    | cbn [length]; repeat (rewrite !length_app; cbn [length]); lia].

Lemma calendar_round_trip t : time_ok t ->
  SlapVcoStringToCalendarTime (Some (SlapVcoCalendarTimeToString t)) = Done t.
Proof.
  intros (Hy & Hmo & Hd & Hh & Hmi & Hs). unfold SlapVcoStringToCalendarTime, SlapVcoCalendarTimeToString.
  pose proof (proj1 (fmt_d_spec 4 _ ltac:(lia) Hy)) as Ly.
  pose proof (proj1 (fmt_d_spec 2 _ ltac:(lia) Hmo)) as Lmo.
  pose proof (proj1 (fmt_d_spec 2 _ ltac:(lia) Hd)) as Ld.
  pose proof (proj1 (fmt_d_spec 2 _ ltac:(lia) Hh)) as Lh.
  pose proof (proj1 (fmt_d_spec 2 _ ltac:(lia) Hmi)) as Lmi.
  set (y := fmt_d 4 (Year t)) in *. set (mo := fmt_d 2 (Month t)) in *. set (d := fmt_d 2 (DayOfMonth t)) in *.
  set (h := fmt_d 2 (Hour t)) in *. set (mi := fmt_d 2 (Minute t)) in *.
  next_field 0 (@nil Z) 4%nat (Year t). next_field 5 (y ++ [45]) 2%nat (Month t).
  next_field 8 (y ++ 45 :: mo ++ [45]) 2%nat (DayOfMonth t).
  next_field 11 (y ++ 45 :: mo ++ 45 :: d ++ [84]) 2%nat (Hour t).
  next_field 14 (y ++ 45 :: mo ++ 45 :: d ++ 84 :: h ++ [58]) 2%nat (Minute t).
  next_field 17 (y ++ 45 :: mo ++ 45 :: d ++ 84 :: h ++ 58 :: mi ++ [58]) 2%nat (Second t).
  by destruct t.
Qed.

Lemma atoll_int i : - 2 ^ 31 <= i < 2 ^ 31 -> atoll (SlapVcoIntToString i) = i.
Proof.
  intros Hi. unfold SlapVcoIntToString. cbn in Hi. destruct (Z.ltb_spec i 0).
  - pose proof (fmt_u_dec 9 (- i) ltac:(cbn; lia)) as (Hs & Hv & _).
    unfold atoll. cbn [atoi]. cbn [Z.eqb Z.leb andb orb Z.compare Pos.compare Pos.compare_cont Pos.eqb].
    rewrite atoi_digits_spec by done. unfold num_value in Hv. rewrite Hv. cbn. lia.
  - apply atoll_decimal; [apply (fmt_u_dec 9); cbn; lia|cbn; lia].
Qed.

Lemma fmt_X_spec n v : 0 <= v < 16 ^ Z.of_nat (S n) ->
  Forall hex_digit (fmt_X (S n) v) /\ (length (fmt_X (S n) v) <= S n)%nat /\
  num_value 16 (fun c => hex_char_value c 0) (fmt_X (S n) v) = v.
Proof.
  revert v. induction n as [|n IH]; intros v Hv.
  - change (16 ^ Z.of_nat 1) with 16 in Hv. destruct (hex_char_digit false v Hv) as [Hd He].
    cbn [fmt_X]. rewrite (proj2 (Z.ltb_lt _ _)) by lia.
    split_and!; [by apply Forall_singleton|cbn; lia|]. unfold num_value. cbn [foldl]. rewrite He. lia.
  - rewrite Nat2Z.inj_succ, Z.pow_succ_r in Hv by lia.
    cbn [fmt_X]. destruct (Z.ltb_spec v 16).
    + destruct (hex_char_digit false v ltac:(lia)) as [Hd He].
      split_and!; [by apply Forall_singleton|cbn; lia|]. unfold num_value. cbn [foldl]. rewrite He. lia.
    + destruct (IH (v / 16)) as (Hf & Hl & Hn); [split; [apply Z.div_pos; lia|apply Z.div_lt_upper_bound; lia]|].
      change (if v / 16 <? 16 then _ else _) with (fmt_X (S n) (v / 16)).
      destruct (hex_char_digit false (v mod 16) ltac:(apply Z.mod_pos_bound; lia)) as [Hd He].
      split_and!; [by apply Forall_app; split; [|apply Forall_singleton]|rewrite length_app; cbn [length]; lia|].
      rewrite num_value_snoc, Hn, He. pose proof (Z.div_mod v 16). lia.
Qed.

Lemma hex_number_round_trip u : 0 <= u < 2 ^ 32 ->
  SlapVcoHexStringToDecimal (Some (SlapVcoUint32ToHexString u)) = Done u.
Proof.
  intros Hu. unfold SlapVcoHexStringToDecimal, SlapVcoUint32ToHexString, wrapU. rewrite Z.mod_small by done.
  destruct (fmt_X_spec 7 u) as (Hd & Hl & Hv); [by cbn in *|].
  rewrite AnscGetStringUlongHex_spec, Hv by done. unfold strlen.
  destruct (Z.ltb_spec 10 (Zlen (fmt_X 8 u))); [lia|]. f_equal. apply ULONG_small32. by cbn in *.
Qed.

Lemma hex_pair_at_eq s i c0 c1 v :
  (0 <=? i) = true -> (s ++ [0]) !! Z.to_nat i = Some c0 -> (s ++ [0]) !! Z.to_nat (i + 1) = Some c1 ->
  hex_pair c0 c1 = Done v -> hex_pair_at s i = Done v.
Proof.
  intros Hi H0 H1 Hv. apply Z.leb_le in Hi. unfold hex_pair_at, char_at.
  rewrite (buf_get_Z _ i c0), (buf_get_Z _ (i + 1) c1) by (done || lia). done.
Qed.

Lemma mac_round_trip a : is_buf 6 a -> SlapVcoStringToMacAddr (Some (SlapVcoMacAddrToString a)) = Done a.
Proof.
  intros [Hl Ha]. destruct a as [|b0 [|b1 [|b2 [|b3 [|b4 [|b5 [|? ?]]]]]]]; cbn [length] in Hl; try lia. clear Hl.
  rewrite !Forall_cons in Ha. destruct Ha as (H0 & H1 & H2 & H3 & H4 & H5 & _).
  unfold SlapVcoStringToMacAddr, SlapVcoMacAddrToString, mac_text. cbn [lookup list_lookup default].
  unfold default, from_option, id.
  destruct (fmt_02X_hex b0 H0) as (x0 & y0 & E0 & _). destruct (fmt_02X_hex b1 H1) as (x1 & y1 & E1 & _).
  destruct (fmt_02X_hex b2 H2) as (x2 & y2 & E2 & _). destruct (fmt_02X_hex b3 H3) as (x3 & y3 & E3 & _).
  destruct (fmt_02X_hex b4 H4) as (x4 & y4 & E4 & _). destruct (fmt_02X_hex b5 H5) as (x5 & y5 & E5 & _).
  pose proof (hex_pair_02X _ _ _ H0 E0) as P0. pose proof (hex_pair_02X _ _ _ H1 E1) as P1.
  pose proof (hex_pair_02X _ _ _ H2 E2) as P2. pose proof (hex_pair_02X _ _ _ H3 E3) as P3.
  pose proof (hex_pair_02X _ _ _ H4 E4) as P4. pose proof (hex_pair_02X _ _ _ H5 E5) as P5.
  rewrite E0, E1, E2, E3, E4, E5. cbn [app read_hex_bytes].
  rewrite (hex_pair_at_eq _ (0 * 3) x0 y0 b0) by done. cbn [mbind outcome_bind].
  rewrite (hex_pair_at_eq _ ((0 + 1) * 3) x1 y1 b1) by done. cbn [mbind outcome_bind].
  rewrite (hex_pair_at_eq _ ((0 + 1 + 1) * 3) x2 y2 b2) by done. cbn [mbind outcome_bind].
  rewrite (hex_pair_at_eq _ ((0 + 1 + 1 + 1) * 3) x3 y3 b3) by done. cbn [mbind outcome_bind].
  rewrite (hex_pair_at_eq _ ((0 + 1 + 1 + 1 + 1) * 3) x4 y4 b4) by done. cbn [mbind outcome_bind].
  rewrite (hex_pair_at_eq _ ((0 + 1 + 1 + 1 + 1 + 1) * 3) x5 y5 b5) by done. cbn [mbind outcome_bind].
  by rewrite !UCHAR_small by done.
Qed.

End lemmas.

(** ** Properties *)

(** C28. Round trips of the converter: what it prints it reads back, for
    booleans, integers, unsigned numbers in decimal and hexadecimal, octet
    strings, IPv4 and IPv6 addresses, MAC addresses, and times whose year has
    at most four digits and whose other fields have at most two; [inet_addr]
    is assumed to yield the four numbers of a dotted address. *)
Theorem slap_round_trips `{Platform} inet_addr
  (Hinet : forall b, is_buf 4 b -> inet_addr (dotted b) = b) :
  (forall b, SlapVcoStringToBool (SlapVcoBoolToString b) = 0 <-> b = 0) /\
  (forall i, - 2 ^ 31 <= i < 2 ^ 31 -> SlapVcoStringToInt (SlapVcoIntToString i) = i) /\
  (forall u, 0 <= u < 2 ^ 32 -> SlapVcoStringToUint32 (Some (SlapVcoUint32ToString u)) = u) /\
  (forall u, 0 <= u < 2 ^ 32 -> SlapVcoHexStringToDecimal (Some (SlapVcoUint32ToHexString u)) = Done u) /\
  (forall a, a ≠ [] -> Forall is_byte a -> exists s,
     SlapVcoUcharArrayToString (Some a) = Some s /\ SlapVcoStringToUcharArray s = Done a) /\
  (forall u, 0 <= u < 2 ^ 32 -> exists s,
     SlapVcoIp4AddrToString u = Done s /\ SlapVcoStringToIp4Addr inet_addr (Some s) = u) /\
  (forall a, is_buf 16 a -> exists s,
     SlapVcoIp6AddrToString (Some a) = Some s /\ SlapVcoStringToIp6Addr inet_addr s = Done (Some a)) /\
  (forall a, is_buf 6 a -> SlapVcoStringToMacAddr (Some (SlapVcoMacAddrToString a)) = Done a) /\
  (forall t, time_ok t -> SlapVcoStringToCalendarTime (Some (SlapVcoCalendarTimeToString t)) = Done t).
Proof.
  split_and!; [| | |apply hex_number_round_trip| | | |apply mac_round_trip|apply calendar_round_trip].
  - intros b. unfold SlapVcoBoolToString. destruct (Z.eqb_spec b 0); [done|]. split; [by vm_compute|done].
  - intros i Hi. unfold SlapVcoStringToInt. rewrite atoll_int by done. apply INT_small. by cbn in *.
  - intros u Hu. unfold SlapVcoStringToUint32, SlapVcoUint32ToString, wrapU. rewrite Z.mod_small by done.
    rewrite (atoll_decimal u); [apply ULONG_small32; by cbn in *|apply (fmt_u_dec 9); cbn in *; lia|cbn in *; lia].
  - intros a Hne Ha. exists (a ≫= fmt_02X). split; [by destruct a|]. unfold SlapVcoStringToUcharArray, strlen.
    rewrite length_02X. replace (Z.to_nat (Z.of_nat (2 * length a) / 2)) with (length a).
    + by apply (read_bytes_hex a Ha []).
    + rewrite Nat2Z.inj_mul, Z.mul_comm, Z.div_mul by done. by rewrite Nat2Z.id.
  - intros u Hu. eexists. split; [by apply SlapVcoIp4AddrToString_spec|]. cbn [SlapVcoStringToIp4Addr].
    rewrite Hinet by apply addr_bytes_buf. by apply addr_value_bytes.
  - intros a Ha. destruct (ip6_text_read inet_addr a [] Ha) as (s & E & _ & Ep). exists s.
    unfold SlapVcoIp6AddrToString. by rewrite E.
Qed.

(** [inet_addr] on dotted addresses. *)
Definition words_addr (s : cstr) : list Z := atoi <$> words [46] s.

Lemma dec_no_dot d : is_byte d -> Forall (.∉ [46]) (fmt_u 3 d) /\ fmt_u 3 d ≠ [] /\ atoi (fmt_u 3 d) = d.
Proof.
  intros Hd. destruct (fmt_u_dec 2 d) as (Hs & Hv & _); [unfold is_byte in Hd; cbn; lia|]. split_and!.
  - eapply Forall_impl; [exact Hs|]. unfold is_digit. intros c Hc ->%list_elem_of_singleton. lia.
  - destruct (fmt_u_byte d Hd) as [Hl _]. by destruct (fmt_u 3 d); [cbn in Hl; lia|].
  - by rewrite atoi_digit_string.
Qed.

Lemma words_dotted b : is_buf 4 b -> words [46] (dotted b) = fmt_u 3 <$> b.
Proof.
  intros [Hl Hb]. rewrite dotted_text by done. clear Hl.
  induction Hb as [|d b Hd Hb IH]; [done|]. destruct (dec_no_dot d Hd) as (Hw & Hne & Hv).
  destruct b as [|e b].
  - cbn [ip_text]. rewrite <-(app_nil_r (fmt_u 3 d)). by rewrite words_word.
  - rewrite ip_text_cons, words_word; [|done..|].
    + cbn [fmap list_fmap]. f_equal. change (46 :: ip_text (e :: b)) with ([46] ++ ip_text (e :: b)).
      rewrite words_skip by (apply Forall_singleton, list_elem_of_here). apply IH.
    + intros c [= <-]. apply list_elem_of_here.
Qed.

Lemma words_addr_dotted b : is_buf 4 b -> words_addr (dotted b) = b.
Proof.
  intros Hb. unfold words_addr. rewrite words_dotted by done. destruct Hb as [_ Hb].
  induction Hb as [|d b Hd Hb IH]; [done|]. cbn [fmap list_fmap]. by rewrite (proj2 (proj2 (dec_no_dot d Hd))), IH.
Qed.

Theorem slap_round_trips_witness :
  let _ := lp64 in
  (forall b, is_buf 4 b -> words_addr (dotted b) = b) /\
  SlapVcoMacAddrToString [0; 31; 171; 205; 9; 255] = lit "00:1F:AB:CD:09:FF" /\
  SlapVcoStringToMacAddr (Some (SlapVcoMacAddrToString [0; 31; 171; 205; 9; 255])) = Done [0; 31; 171; 205; 9; 255].
Proof.
  cbn zeta. split; [apply words_addr_dotted|]. split; [by vm_compute|].
  apply (@slap_round_trips lp64 words_addr words_addr_dotted). split; [done|].
  repeat constructor; unfold is_byte; lia.
Defined.

(** What the converter reads past the end of: converting a string to a MAC
    address completes exactly when the string has at least sixteen characters,
    so that the empty string, which the data model accepts as a MAC address
    ([DslhVarroIsValidMacAddress]), is read past its end; and printing a list
    of one IPv6 address reads past the end of its array, since the loop takes
    every byte of the array for the start of an address. *)
Theorem slap_converter_faults `{Platform} strcat_s_rest :
  (forall s, match SlapVcoStringToMacAddr (Some s) with
             | Done b => 16 <= strlen s /\ length b = 6%nat
             | Stuck f => strlen s < 16 /\ f = OutOfBounds
             end) /\
  (forall a, is_buf 16 a -> SlapVcoIp6AddrListToString strcat_s_rest (Some a) = Stuck OutOfBounds).
Proof.
  split.
  - intros s. cbn [SlapVcoStringToMacAddr]. destruct (Z.ltb_spec (strlen s) 16).
    + by rewrite read_mac_short by lia.
    + destruct (read_mac_long s 6 ltac:(lia) ltac:(lia) 0) as (r & -> & Hl); [lia..|]. done.
  - intros a Ha. destruct (ip6_text_read (fun _ => []) a [] Ha) as (t & E & Ht & _).
    destruct Ha as [Hl Ha]. unfold SlapVcoIp6AddrListToString. rewrite Hl.
    replace (length a) with (S (S 14)) by lia. set (body := fun (i : Z) (s : cstr) => _).
    assert (E0 : body 0 [] = Done t).
    { unfold body, sixteen_at. rewrite Hl. cbn [mbind outcome_bind]. change (0 + 16 <=? 16) with true.
      change (0 mod 16 =? 0) with true. change (0 =? 0) with true. cbn [negb andb mbind outcome_bind].
      change (drop (Z.to_nat 0) a) with a. rewrite take_ge by lia. rewrite E. cbn [fst].
      unfold strlen in *. cbn [length app]. by rewrite (proj2 (Z.ltb_lt _ _)) by lia. }
    assert (E1 : body (0 + 1) t = Stuck OutOfBounds).
    { unfold body, sixteen_at. by rewrite Hl. }
    clearbody body. cbn [for_from]. rewrite E0. cbn [mbind outcome_bind]. rewrite E1. done.
Qed.
