(* ===== verification/SlapCast.v ===== *)
(** * Conversions between variables ([SlapVarConverter/slap_vco_conversion.c])

    A variable is converted in place to the syntax of a template, by the content
    type of the template; with the conversions between numbers and arrays,
    slap_vco_touchararray.c, slap_vco_uchararrayto.c, slap_vco_uint32arrayto.c,
    and the number of a hexadecimal text, slap_vco_stringto.c.  Allocations
    succeed. *)

From S2P Require Import Prelude CStrings Tokens IpAddr Asn1 Checksum SlapVar SlapConv.
Open Scope Z_scope.

Section cast.
Context `{Platform}.
Variable inet_addr : cstr -> list Z.

(** ** Numbers and arrays *)

(** An unsigned number of [n] bytes in memory, and back. *)
Definition bytes_of (n : nat) (v : Z) : list Z :=
  let b := (fun k => (v / 2 ^ (8 * Z.of_nat k)) mod 256) <$> seq 0 n in
  if little_endian then b else reverse b.
Definition number_of (b : list Z) : Z := num_value 256 (fun x => x) (if little_endian then reverse b else b).

(** [sizeof(ULONG)] *)
Definition ulong_size : nat := Z.to_nat (ulong_bits / 8).

Definition SlapVcoUint32ToUcharArray (var_uint32 : Z) : list Z := bytes_of ulong_size var_uint32.
Definition SlapVcoUint32ToUchar (var_uint32 : Z) : list Z := [UCHAR var_uint32].
Definition SlapVcoUcharArrayToUint32 (var_uchar_array : option (list Z)) : Z :=
  match var_uchar_array with
  | None => 0
  | Some a =>
      if (length a =? 1)%nat then default 0 (head a)
      else if (length a =? 2)%nat || (length a =? ulong_size)%nat then number_of a
      else 0
  end.
(** The six bytes are allocated cleared. *)
Definition SlapVcoUint32ArrayToMacAddr (uint32_array : list Z) : list Z :=
  let b := UCHAR <$> take 6 uint32_array in b ++ replicate (6 - length b) 0.

(** The digits fill the first bytes of a cleared [ULONG]; four of them are read
    as a number in network byte order. *)
Definition SlapVcoHexStringToUint32 (hex_string : option cstr) : outcome Z :=
  match hex_string with
  | None => Done 0
  | Some s =>
      let ulUcharCount := Nat.min (Z.to_nat (strlen s / 2)) ulong_size in
      b ← read_hex_bytes s 2 0 ulUcharCount;
      let v := number_of (take 4 (b ++ replicate (ulong_size - ulUcharCount) 0)) in
      Done (if little_endian then AnscSwapUlong v else v)
  end.

(** ** The dispatch *)

(** The new value, or None for [ANSC_STATUS_UNAPPLICABLE]. *)
Definition converted : Type := outcome (option SLAP_VARIANT).
Definition gives (x : SLAP_VARIANT) : converted := Done (Some x).

Definition convert_int (Syntax : SLAP_VAR_SYNTAX) (ContentType : SLAP_CONTENT_TYPE) (i : Z) (v : SLAP_VARIABLE) : converted :=
  match Syntax with
  | SLAP_VAR_SYNTAX_uint32 => u ← varUint32 v; gives (VarUint32 u)
  | _ =>
      match ContentType, Syntax with
      | SLAP_CONTENT_TYPE_UNSPECIFIED, SLAP_VAR_SYNTAX_bool => gives (VarBool (ULONG i))
      | SLAP_CONTENT_TYPE_UNSPECIFIED, SLAP_VAR_SYNTAX_string => gives (VarString (Some (SlapVcoIntToString i)))
      | _, _ => Done None
      end
  end.

Definition convert_uint32 (Syntax : SLAP_VAR_SYNTAX) (ContentType : SLAP_CONTENT_TYPE) (u : Z) (v : SLAP_VARIABLE) : converted :=
  match Syntax with
  | SLAP_VAR_SYNTAX_int => i ← varInt v; gives (VarInt i)
  | _ =>
      match ContentType, Syntax with
      | SLAP_CONTENT_TYPE_UNSPECIFIED, SLAP_VAR_SYNTAX_bool => gives (VarBool u)
      | SLAP_CONTENT_TYPE_UNSPECIFIED, SLAP_VAR_SYNTAX_string =>
          b ← AnscGetUlongString u (replicate 32 0);
          match buf_cstr b with Some s => gives (VarString (Some s)) | None => Stuck OutOfBounds end
      | _, _ => Done None
      end
  end.

Definition convert_string (Syntax : SLAP_VAR_SYNTAX) (ContentType : SLAP_CONTENT_TYPE) (s : cstr) : converted :=
  match ContentType, Syntax with
  | SLAP_CONTENT_TYPE_UNSPECIFIED, SLAP_VAR_SYNTAX_bool => gives (VarBool (SlapVcoStringToBool s))
  | SLAP_CONTENT_TYPE_UNSPECIFIED, SLAP_VAR_SYNTAX_int => gives (VarInt (SlapVcoStringToInt s))
  | SLAP_CONTENT_TYPE_UNSPECIFIED, SLAP_VAR_SYNTAX_uint32 => gives (VarUint32 (SlapVcoStringToUint32 (Some s)))
  | SLAP_CONTENT_TYPE_UNSPECIFIED, SLAP_VAR_SYNTAX_ucharArray | SLAP_CONTENT_TYPE_HEX_STRING, SLAP_VAR_SYNTAX_ucharArray =>
      a ← SlapVcoStringToUcharArray s; gives (VarUcharArray (Some a))
  | SLAP_CONTENT_TYPE_IP4_ADDR, SLAP_VAR_SYNTAX_uint32 | SLAP_CONTENT_TYPE_SUBNET_MASK, SLAP_VAR_SYNTAX_uint32 =>
      gives (VarUint32 (SlapVcoStringToIp4Addr inet_addr (Some s)))
  | SLAP_CONTENT_TYPE_MAC_ADDR, SLAP_VAR_SYNTAX_ucharArray =>
      a ← SlapVcoStringToMacAddr (Some s); gives (VarUcharArray (Some a))
  | SLAP_CONTENT_TYPE_OID_LIST, SLAP_VAR_SYNTAX_uint32Array =>
      a ← SlapVcoStringToOidList s; gives (VarUint32Array a)
  | SLAP_CONTENT_TYPE_ASCII_STRING, SLAP_VAR_SYNTAX_ucharArray =>
      gives (VarUcharArray (Some (SlapVcoStringToUcharArray2 s)))
  | _, _ => Done None
  end.

Definition convert_uint32Array (Syntax : SLAP_VAR_SYNTAX) (ContentType : SLAP_CONTENT_TYPE) (a : list Z) : converted :=
  match ContentType, Syntax with
  | SLAP_CONTENT_TYPE_MAC_ADDR, SLAP_VAR_SYNTAX_ucharArray => gives (VarUcharArray (Some (SlapVcoUint32ArrayToMacAddr a)))
  | _, _ => Done None
  end.

(** [tpl_Syntax], [tpl_ContentType]: what is read of the template.  TRUE is
    [ANSC_STATUS_SUCCESS]. *)
Definition SlapVcoConvertVariable (tpl_Syntax : SLAP_VAR_SYNTAX) (tpl_ContentType : SLAP_CONTENT_TYPE) (tbc_var : SLAP_VARIABLE)
  : outcome (bool * SLAP_VARIABLE) :=
  if bool_decide (tpl_Syntax = SLAP_VAR_SYNTAX_variable) || bool_decide (tpl_Syntax = Syntax tbc_var) then Done (true, tbc_var)
  else
    x ← match Variant tbc_var with
        | VarInt i => convert_int tpl_Syntax tpl_ContentType i tbc_var
        | VarUint32 u => convert_uint32 tpl_Syntax tpl_ContentType u tbc_var
        | VarString (Some s) => convert_string tpl_Syntax tpl_ContentType s
        | VarUint32Array (Some a) => convert_uint32Array tpl_Syntax tpl_ContentType a
        | _ => Done None
        end;
    match x with
    | Some x => Done (true, set_Variant tbc_var x)
    | None => Done (false, tbc_var)
    end.

End cast.

(** ** What a conversion yields *)

Section theorems.
Context `{Platform}.

Definition variant_syntax (x : SLAP_VARIANT) : SLAP_VAR_SYNTAX := Syntax (set_Variant SlapInitVariable x).

(** Each conversion has the syntax that is asked for. *)
Lemma converted_syntax inet_addr sy ct v x :
  match Variant v with
  | VarInt i => convert_int sy ct i v
  | VarUint32 u => convert_uint32 sy ct u v
  | VarString (Some s) => convert_string inet_addr sy ct s
  | VarUint32Array (Some a) => convert_uint32Array sy ct a
  | _ => Done None
  end = Done (Some x) -> variant_syntax x = sy.
Proof.
  destruct (Variant v) as [|b|i|[s|]|a|s|u|[a|]|t]; try done.
  - unfold convert_int, gives. destruct sy; destruct ct; try done; try (by intros [= <-]);
      (destruct (varUint32 v); cbn; [by intros [= <-]|done]).
  - unfold convert_string, gives. destruct ct, sy; try done; try (by intros [= <-]);
      match goal with |- context [@mbind _ _ _ _ _ ?m] => destruct m end; cbn; try done; by intros [= <-].
  - unfold convert_uint32, gives. destruct sy; destruct ct; try done; try (by intros [= <-]);
      match goal with |- context [@mbind _ _ _ _ _ ?m] => destruct m end; cbn; try done; try (by intros [= <-]);
      destruct (buf_cstr _); [by intros [= <-]|done].
  - unfold convert_uint32Array, gives. destruct ct, sy; try done; by intros [= <-].
Qed.

(** C29. A conversion is typed: when it succeeds, the variable has the syntax of
    the template, unless the template stands for any variable, and its name,
    content type, usage and sender are as before; when it is not applicable,
    the variable is as before. *)
Theorem SlapVcoConvertVariable_typed inet_addr sy ct v ok v'
    (Hcall : SlapVcoConvertVariable inet_addr sy ct v = Done (ok, v')) :
  if ok then (Syntax v' = sy \/ sy = SLAP_VAR_SYNTAX_variable /\ v' = v) /\
             v' = set_Variant v (Variant v')
  else v' = v.
Proof.
  unfold SlapVcoConvertVariable in Hcall. case_bool_decide as H1; cbn [orb] in Hcall.
  { simplify_eq. split; [by right|by destruct v']. }
  case_bool_decide as H2; [simplify_eq; split; [by left|by destruct v']|].
  match type of Hcall with (x ← ?m; _) = _ => destruct m as [[x|]|] eqn:E end; cbn [mbind outcome_bind] in Hcall; [|by simplify_eq|done].
  simplify_eq. split; [left|done]. by apply converted_syntax in E.
Qed.

Lemma bytes_number n v : 0 <= v < 256 ^ Z.of_nat n -> number_of (bytes_of n v) = v.
Proof.
  intros Hv. unfold number_of, bytes_of.
  set (b := _ <$> seq 0 n). assert (E : num_value 256 (fun x => x) (reverse b) = v).
  { subst b. clear -Hv. revert v Hv. induction n as [|n IH]; intros v Hv; [cbn in *; lia|].
    cbn [seq fmap list_fmap]. unfold num_value in *. rewrite reverse_cons, foldl_app. cbn [foldl].
    rewrite <-seq_shift, <-list_fmap_compose.
    rewrite (list_fmap_ext _ (fun k => (v / 256 / 2 ^ (8 * Z.of_nat k)) mod 256)).
    2:{ intros k x _. unfold compose. rewrite Z.div_div by lia. do 2 f_equal.
        rewrite Nat2Z.inj_succ. replace (8 * Z.succ (Z.of_nat x)) with (8 + 8 * Z.of_nat x) by lia.
        by rewrite Z.pow_add_r by lia. }
    rewrite IH.
    2:{ rewrite Nat2Z.inj_succ, Z.pow_succ_r in Hv by lia. split; [apply Z.div_pos; lia|].
        apply Z.div_lt_upper_bound; lia. }
    change (8 * Z.of_nat 0) with 0. rewrite Z.div_1_r. pose proof (Z.div_mod v 256). lia. }
  destruct little_endian; [done|]. done.
Qed.

(** An unsigned number through the bytes of an array. *)
Theorem uint32_bytes_round_trip u : 0 <= u < 2 ^ ulong_bits ->
  SlapVcoUcharArrayToUint32 (Some (SlapVcoUint32ToUcharArray u)) = u.
Proof.
  intros Hu. unfold SlapVcoUcharArrayToUint32, SlapVcoUint32ToUcharArray.
  assert (Hn : length (bytes_of ulong_size u) = ulong_size).
  { unfold bytes_of. destruct little_endian; rewrite ?length_reverse, length_fmap, length_seq; done. }
  assert (Hs : 256 ^ Z.of_nat ulong_size = 2 ^ ulong_bits /\ (4 <= ulong_size)%nat).
  { unfold ulong_size. destruct ulong_bits_ok as [-> | ->]; (split; [done|by apply Nat.leb_le]). }
  rewrite Hn. destruct Hs as [Hs Hs4].
  rewrite (proj2 (Nat.eqb_neq ulong_size 1)) by lia. rewrite Nat.eqb_refl, orb_true_r.
  apply bytes_number. by rewrite Hs.
Qed.

End theorems.

Theorem SlapVcoConvertVariable_typed_witness :
  let _ := lp64 in
  exists v', SlapVcoConvertVariable words_addr SLAP_VAR_SYNTAX_uint32 SLAP_CONTENT_TYPE_IP4_ADDR
    (set_Variant SlapInitVariable (VarString (Some (lit "192.168.0.1")))) = Done (true, v') /\
    Syntax v' = SLAP_VAR_SYNTAX_uint32.
Proof.
  cbn zeta. eexists. split; [by vm_compute|].
  destruct (@SlapVcoConvertVariable_typed lp64 words_addr SLAP_VAR_SYNTAX_uint32 SLAP_CONTENT_TYPE_IP4_ADDR
    (set_Variant SlapInitVariable (VarString (Some (lit "192.168.0.1")))) true
    (set_Variant SlapInitVariable (VarUint32 16820416)) ltac:(by vm_compute)) as [[E|[E _]] _]; [exact E|discriminate E].
Defined.
