(* ===== verification/VarValid.v ===== *)
(** * Checking the texts of parameters ([DslhVarRecord/dslh_varro_utility.c])

    Before a parameter of the data model takes a new value, the text is checked
    against the content type of the parameter.  Lists are checked after their
    spaces have been deleted in place, so that a check yields the text that is
    left in the buffer of the caller too.  Allocations succeed. *)

From S2P Require Import Prelude CStrings Tokens IpAddr Base64 Asn1 SlapVar SlapConv.
Open Scope Z_scope.

(** The macros of ansc_string.h. *)
Definition AnscIsAlpha (c : Z) : bool := (65 <=? c) && (c <=? 90) || (97 <=? c) && (c <=? 122).
Definition AnscIsAlphaOrDigit (c : Z) : bool := AnscIsAlpha c || AnscIsDigit c.
Definition AnscIsHexAlphaOrDigit (c : Z) : bool :=
  (65 <=? c) && (c <=? 70) || (97 <=? c) && (c <=? 102) || AnscIsDigit c.

Section valid.
Context `{Platform}.
Variable inet_addr : cstr -> list Z.
Variable b64_decode : list Z -> list Z.

(** ** MAC addresses *)

(** The character at index [i]. *)
Definition mac_char (i c : Z) : bool :=
  if i mod 3 =? 2 then (i =? 17) || (c =? 58) else AnscIsAlphaOrDigit c.
Fixpoint mac_chars (i : Z) (s : cstr) : bool :=
  match s with [] => true | c :: s => mac_char i c && mac_chars (i + 1) s end.
Definition DslhVarroIsValidMacAddress (pAddress : option cstr) : bool :=
  match pAddress with
  | None => true
  | Some s =>
      let length := strlen s in
      if length =? 0 then true
      else if negb (length =? 17) && negb (length =? 35) then false
      else if (17 <? length) && negb (default 0 (s !! 17%nat) =? 47) then false
      else mac_chars 0 s
  end.

(** ** Deleting spaces *)

Definition ANSC_SPACE : Z := 32.

Definition text_of (buf : list Z) : outcome cstr :=
  match buf_cstr buf with Some s => Done s | None => Stuck OutOfBounds end.

(** [for ( ulPosition = 0; ulPosition < ulListStringLen-i; ulPosition++ )] up to
    the first character that is no space. *)
Definition spaces_at (s : cstr) (i : Z) : Z :=
  Z.of_nat (until (fun c => negb (c =? ANSC_SPACE)) (drop (Z.to_nat i) s)).

(** [for ( i = 0; i < AnscSizeOfString(pListString); i++ )] *)
Fixpoint DelSpace_loop (fuel : nat) (i : Z) (pListString : list Z) : outcome (list Z) :=
  match fuel with
  | O => Stuck Diverge
  | S k =>
      s ← text_of pListString;
      if i <? strlen s then
        let ulPosition := spaces_at s i in
        pListString ←
          (if 0 <? ulPosition then
             for_from 0 (Z.to_nat (strlen s - i - ulPosition + 1)) (fun j b =>
               c ← buf_get b (i + j + ulPosition); buf_put b (i + j) c) pListString
           else Done pListString);
        DelSpace_loop k (i + 1) pListString
      else Done pListString
  end.
Definition DslhVarroDelSpaceInCommaSeparator (pListString : cstr) : outcome (bool * cstr) :=
  if (strlen pListString =? 0) || negb (AnscCharInString pListString ANSC_SPACE) then Done (true, pListString)
  else
    b ← DelSpace_loop (S (length pListString)) 0 (pListString ++ [0]);
    s ← text_of b;
    Done (negb (AnscCharInString s ANSC_SPACE), s).

(** ** Lists of addresses *)

(** [while ( pToken = AnscTcUnlinkToken(pTokenChain) )] with a check of each
    token, which ends the loop when it fails. *)
Fixpoint all_tokens (valid : cstr -> outcome bool) (chain : ANSC_TOKEN_CHAIN) : outcome bool :=
  match chain with
  | [] => Done true
  | t :: chain =>
      s ← token_name t; ok ← valid s;
      if (ok : bool) then all_tokens valid chain else Done false
  end.

(** The list check that the four kinds of lists share; [empty_ok] is what a
    list that is empty once its spaces are gone yields. *)
Definition valid_list (valid : cstr -> outcome bool) (pAddList : cstr) : outcome (bool * cstr) :=
  r ← DslhVarroDelSpaceInCommaSeparator pAddList;
  let '(deleted, s) := r in
  if negb deleted then Done (false, s)
  else
    r ← AnscTcAllocate (Some s) (lit ",") [];
    match fst r with
    | None => Done (false, s)
    | Some chain => ok ← all_tokens valid chain; Done (ok, s)
    end.

(** A NULL list stays NULL; an empty one is valid. *)
Definition on_list (check : cstr -> outcome (bool * cstr)) (pAddList : option cstr) : outcome (bool * option cstr) :=
  match pAddList with
  | None => Done (true, None)
  | Some s =>
      if strlen s =? 0 then Done (true, Some s)
      else r ← check s; Done (fst r, Some (snd r))
  end.

Definition DslhVarroIsValidIpAddList (pAddList : option cstr) : outcome (bool * option cstr) :=
  on_list (valid_list (fun s => AnscIsValidIpString (Some s) [])) pAddList.

Definition DslhVarroIsValidMacAddList (pAddList : option cstr) : outcome (bool * option cstr) :=
  on_list (valid_list (fun s => Done (DslhVarroIsValidMacAddress (Some s)))) pAddList.

Definition DslhVarroIsValidIp6AddList (pAddList : option cstr) : outcome (bool * option cstr) :=
  on_list (fun s =>
    if (deref s =? 44) || (default 0 (last s) =? 44) then Done (false, s)
    else match strstr s (lit ",,") with
         | Some _ => Done (false, s)
         | None => valid_list (fun s => AnscIsValidIp6String inet_addr s []) s
         end) pAddList.

(** A range: the first two tokens of what stands between two commas.  The
    ends are compared as [in_addr_t]s, that is in network byte order. *)
Definition valid_range (range : cstr) : outcome bool :=
  r ← AnscTcAllocate (Some range) (lit "-") [];
  match fst r with
  | None | Some [] => Done false
  | Some (t1 :: chain) =>
      s1 ← token_name t1; ok1 ← AnscIsValidIpString (Some s1) [];
      if negb ok1 then Done false
      else
        match chain with
        | [] => Done false
        | t2 :: _ =>
            s2 ← token_name t2; ok2 ← AnscIsValidIpString (Some s2) [];
            if negb ok2 then Done false
            else Done (negb (addr_value (inet_addr s2) <? addr_value (inet_addr s1)))
        end
  end.
Definition DslhVarroIsValidIpAddRangeList (pAddRangeList : option cstr) : outcome (bool * option cstr) :=
  on_list (fun s =>
    r ← DslhVarroDelSpaceInCommaSeparator s;
    let '(deleted, s) := r in
    if negb deleted || (strlen s =? 0) then Done (false, s)
    else
      r ← AnscTcAllocate (Some s) (lit ",") [];
      match fst r with
      | None => Done (false, s)
      | Some chain => ok ← all_tokens valid_range chain; Done (ok, s)
      end) pAddRangeList.

(** ** Other texts *)

Definition DslhVarroIsValidHexString (pValue : option cstr) : bool :=
  match pValue with
  | None => true
  | Some s => if negb (strlen s mod 2 =? 0) then false else forallb AnscIsHexAlphaOrDigit s
  end.

(** The characters that have to be digits: not the separators. *)
Fixpoint calendar_digits (i : Z) (n : nat) (s : cstr) : bool :=
  match n, s with
  | S n, c :: s =>
      ((i =? 4) || (i =? 7) || (i =? 10) || (i =? 13) || (i =? 16) || AnscIsDigit c) && calendar_digits (i + 1) n s
  | _, _ => true
  end.
Definition plausible (year_ok : bool) (t : ANSC_UNIVERSAL_TIME) : bool :=
  negb (negb year_ok || (Month t =? 0) || (12 <? Month t) || (DayOfMonth t =? 0) || (31 <? DayOfMonth t)
        || (60 <=? Hour t) || (60 <=? Minute t) || (60 <=? Second t)).
Definition unknown_time (t : ANSC_UNIVERSAL_TIME) : bool := bool_decide (t = UniversalTime 1 1 1 0 0 0).
Definition DslhVarroIsValidCalendarString (pValue : option cstr) : outcome bool :=
  match pValue with
  | None => Done false
  | Some s =>
      let length := strlen s in
      let at_ i := default 0 (s !! i) in
      if negb (length =? 19) && negb (length =? 20) then Done false
      else if negb (at_ 4%nat =? 45) || negb (at_ 7%nat =? 45) || negb (at_ 10%nat =? 84)
              || negb (at_ 13%nat =? 58) || negb (at_ 16%nat =? 58) then Done false
      else if (length =? 20) && negb (at_ 19%nat =? 90) then Done false
      else if negb (calendar_digits 0 19 s) then Done false
      else
        t ← SlapVcoStringToCalendarTime (Some s);
        if unknown_time t then Done true
        else if length =? 20 then Done (plausible (1000 <=? Year t) t)
        else Done (plausible ((Year t <? 1000) && negb (Year t =? 0)) t)
  end.

Definition DslhVarroIsValidBase64String (pString : option cstr) : outcome bool :=
  match pString with
  | None => Done true
  | Some s =>
      if strlen s =? 0 then Done true
      else r ← AnscBase64Decode b64_decode s []; Done (match fst r with Some _ => true | None => false end)
  end.

(** The number behind the first colon is copied into [char port[6]]. *)
Definition DslhVarroIsValidUrlString (pStringValue : cstr) : outcome bool :=
  if negb (is_prefix (lit "http") pStringValue) then Done false
  else
    let pTmpSubString := drop 4 pStringValue in
    let pTmpSubString := if deref pTmpSubString =? 115 then drop 1 pTmpSubString else pTmpSubString in
    if negb (is_prefix (lit "://") pTmpSubString) then Done false
    else
      match strstr (drop 3 pTmpSubString) (lit ":") with
      | None => Done true
      | Some p =>
          let pPortString := drop 1 p in
          let i := until (fun c => negb (AnscIsDigit c)) pPortString in
          if bool_decide (length pPortString = i) || (default 0 (pPortString !! i) =? 47) then
            port ← for_from 0 i (fun j port => c ← buf_get pPortString j; buf_put port j c) (replicate 6 0);
            port ← text_of port;
            ulPortNum ← AnscGetStringUlong port;
            Done ((0 <? ulPortNum) && (ulPortNum <=? 65535))
          else Done false
      end.

(** ** Masks *)

(** [while ( pToken = AnscTcUnlinkToken(...) )]: the value of the mask. *)
Fixpoint mask_value (chain : ANSC_TOKEN_CHAIN) (ulMaskValue : Z) : outcome Z :=
  match chain with
  | [] => Done ulMaskValue
  | t :: chain =>
      s ← token_name t; v ← AnscGetStringUlong s;
      mask_value chain (ULONG (ULONG (Z.shiftl ulMaskValue 8) + v))
  end.

(** [for ( i = 0; !(ulMaskValue & 0x1); i++ ) ulMaskValue >>= 0x1;] *)
Fixpoint mask_shift (fuel : nat) (i ulMaskValue : Z) : outcome (Z * Z) :=
  match fuel with
  | O => Stuck Diverge
  | S k => if Z.land ulMaskValue 1 =? 0 then mask_shift k (i + 1) (Z.shiftr ulMaskValue 1) else Done (i, ulMaskValue)
  end.
Definition ULONG_not (z : Z) : Z := ULONG (Z.lnot z).
Definition mask_test (ulMaskValue : Z) : outcome bool :=
  if ulMaskValue =? 0 then Done true
  else
    r ← mask_shift (S (Z.to_nat ulong_bits)) 0 ulMaskValue;
    let '(i, ulMaskValue) := r in
    if 24 <? i then Done false
    else Done ((i =? 0) && (ULONG_not (Z.lxor 0 ulMaskValue) =? 0)
               || (ULONG_not (Z.lxor (ULONG (Z.shiftl (ULONG_not 0) (31 - i))) ulMaskValue) =? 0)).
Definition DslhVarroIsValidMaskString (pStringValue : option cstr) : outcome bool :=
  match pStringValue with
  | None => Done true
  | Some s =>
      if strlen s =? 0 then Done true
      else
        r ← AnscTcAllocate (Some s) (lit ".") [];
        match fst r with
        | None => Done false
        | Some chain =>
            if negb (USHORT (Zlen chain) =? 4) then Done false
            else v ← mask_value chain 0; mask_test v
        end
  end.

(** ** Printing a list of MAC addresses *)

Definition DslhVarroMacAddrListToString (mac_addr_list : option (list Z)) : outcome (option cstr) :=
  match mac_addr_list with None => Done None | Some a => Some <$> print_macs (lit ",") (lit ":") a end.

End valid.

(** ** Deleting spaces is filtering *)

Section lemmas.
Context `{Platform}.

Lemma wf_buf_cstr s r : wf_cstr s -> text_of (s ++ 0 :: r) = Done s.
Proof. intros. unfold text_of. by rewrite buf_cstr_app. Qed.

(** The copy of the bytes [w] over the bytes [y] before them. *)
Lemma shift_down i w : forall p y r k, Zlen p = i + k -> y ≠ [] ->
  exists y', length y' = length y /\
    for_from k (length w) (fun j b => c ← buf_get b (i + j + Zlen y); buf_put b (i + j) c) (p ++ y ++ w ++ r) =
    Done (p ++ w ++ y' ++ r).
Proof.
  induction w as [|c w IH]; intros p y r k Hp Hy; [by exists y|]. cbn [for_from length].
  rewrite (buf_get_Z _ _ c); [|lia|].
  2:{ rewrite (app_assoc p y), lookup_app_r by (rewrite length_app; lia).
      rewrite length_app. by replace (_ - _)%nat with 0%nat by lia. }
  destruct y as [|y0 y]; [done|]. cbn [mbind outcome_bind app].
  rewrite buf_put_at by lia. cbn [mbind outcome_bind].
  destruct (IH (p ++ [c]) (y ++ [c]) r (k + 1)) as (y' & Hl & E);
    [rewrite length_app; cbn; lia|by destruct y|].
  exists y'. rewrite length_app in Hl. cbn in Hl |- *. split; [lia|].
  rewrite length_app in E. cbn [length] in E. rewrite Nat.add_1_r in E.
  rewrite <-!app_assoc in E. cbn [app] in E. done.
Qed.

Definition no_space (c : Z) : Prop := c ≠ ANSC_SPACE.

Lemma spaces_run t : exists n t', t = replicate n 32 ++ t' /\ until (fun c => negb (c =? ANSC_SPACE)) t = n /\
  (forall c, head t' = Some c -> no_space c).
Proof.
  induction t as [|c t (n & t' & -> & E & Hh)]; [by exists 0%nat, []|]. cbn [until].
  destruct (Z.eqb_spec c ANSC_SPACE) as [->|]; cbn [negb].
  - exists (S n), t'. by rewrite E.
  - exists 0%nat, (c :: replicate n 32 ++ t'). split_and!; [done..|]. by intros ? [= <-].
Qed.

Lemma filter_spaces n t : filter no_space (replicate n 32 ++ t) = filter no_space t.
Proof.
  induction n as [|n IH]; [done|]. cbn [replicate app]. rewrite filter_cons_False; [done|]. unfold no_space. by intros [].
Qed.

Lemma DelSpace_loop_spec fuel : forall p t junk,
  wf_cstr p -> wf_cstr t -> Forall no_space p -> (length t < fuel)%nat ->
  exists junk', DelSpace_loop fuel (Zlen p) (p ++ t ++ 0 :: junk) = Done (p ++ filter no_space t ++ 0 :: junk').
Proof.
  induction fuel as [|fuel IH]; intros p t junk Hp Ht Hn Hf; [lia|]. cbn [DelSpace_loop].
  rewrite (app_assoc p t), wf_buf_cstr by (by apply wf_cstr_app). cbn [mbind outcome_bind].
  unfold strlen. rewrite length_app.
  destruct (Z.ltb_spec (Zlen p) (Z.of_nat (length p + length t))) as [Hlt|Hge].
  2:{ destruct t; [|cbn in Hge; lia]. rewrite app_nil_r. by exists junk. }
  unfold spaces_at. rewrite Nat2Z.id, drop_app_length.
  destruct (spaces_run t) as (n & t' & -> & -> & Hh).
  rewrite filter_spaces. rewrite <-app_assoc, length_app, length_replicate in *.
  apply wf_cstr_app in Ht as [_ Ht].
  assert (exists junk1, (if 0 <? Z.of_nat n then
      for_from 0 (Z.to_nat (Z.of_nat (length p + (n + length t')) - Zlen p - Z.of_nat n + 1)) (fun j b =>
        c ← buf_get b (Zlen p + j + Z.of_nat n); buf_put b (Zlen p + j) c) (p ++ (replicate n 32 ++ t') ++ 0 :: junk)
      else Done (p ++ (replicate n 32 ++ t') ++ 0 :: junk)) = Done (p ++ t' ++ 0 :: junk1)) as [junk1 ->].
  { destruct n as [|n]; [by exists junk|]. replace (0 <? Z.of_nat (S n)) with true by (symmetry; apply Z.ltb_lt; lia).
    destruct (shift_down (Zlen p) (t' ++ [0]) p (replicate (S n) 32) junk 0) as (y' & _ & E); [lia|done|].
    exists (y' ++ junk). rewrite length_app, length_replicate in E. cbn [length] in E.
    rewrite <-!app_assoc in E. cbn [app] in E. rewrite <-app_assoc, <-E. f_equal. lia. }
  cbn [mbind outcome_bind]. destruct t' as [|c t'].
  - exists junk1. destruct fuel as [|fuel]; cbn [DelSpace_loop].
    { cbn in Hf, Hlt. lia. }
    cbn [app]. rewrite wf_buf_cstr by done. cbn [mbind outcome_bind]. unfold strlen.
    by replace (Zlen p + 1 <? Z.of_nat (length p)) with false by (symmetry; apply Z.ltb_ge; lia).
  - apply Forall_cons in Ht as [Hc Ht]. assert (Hcn : no_space c) by (by apply Hh).
    rewrite filter_cons_True by done.
    destruct (IH (p ++ [c]) t' junk1) as [junk2 E2].
    + apply wf_cstr_app. split; [done|]. by constructor.
    + done.
    + apply Forall_app. split; [done|]. by constructor.
    + cbn in Hf. lia.
    + rewrite length_app in E2. cbn [length] in E2. rewrite <-!app_assoc in E2. cbn [app] in E2 |- *.
      rewrite Nat2Z.inj_add in E2. exists junk2. exact E2.
Qed.

Lemma wf_filter (s : cstr) : wf_cstr s -> wf_cstr (filter no_space s).
Proof. intros Hs. apply Forall_forall. intros c [_ Hc]%list_elem_of_filter. by eapply Forall_forall in Hs. Qed.

Lemma filter_no_space (s : cstr) : 32 ∉ filter no_space s.
Proof. intros [Hn _]%list_elem_of_filter. by destruct Hn. Qed.

Lemma DelSpace_spec s : wf_cstr s ->
  DslhVarroDelSpaceInCommaSeparator s = Done (true, filter no_space s).
Proof.
  intros Hs. unfold DslhVarroDelSpaceInCommaSeparator.
  destruct (_ || _) eqn:E.
  - rewrite filter_all; [done|]. intros c Hc ->. apply orb_true_iff in E as [E|E].
    + apply Z.eqb_eq in E. destruct s; [by inversion Hc|done].
    + apply negb_true_iff in E. rewrite AnscCharInString_nonzero in E by done.
      apply bool_decide_eq_false in E. done.
  - destruct (DelSpace_loop_spec (S (length s)) [] s []) as [junk Ej]; [by constructor|done|by constructor|lia|].
    cbn [app] in Ej. change (Zlen (@nil Z)) with 0 in Ej. rewrite Ej. cbn [mbind outcome_bind].
    rewrite wf_buf_cstr by (by apply wf_filter). cbn [mbind outcome_bind].
    rewrite AnscCharInString_nonzero by done. rewrite bool_decide_false by apply filter_no_space. done.
Qed.

(** ** Lists *)

Lemma all_tokens_spec (valid : cstr -> outcome bool) (P : cstr -> Prop) `{forall w, Decision (P w)} ws :
  Forall wf_cstr ws -> Forall fits ws ->
  (forall w, w ∈ ws -> valid w = Done (bool_decide (P w))) ->
  all_tokens valid (token_of <$> ws) = Done (bool_decide (Forall P ws)).
Proof.
  intros Hw Hf. induction Hw as [|w ws Hw Hws IH]; intros Hv; [done|].
  apply Forall_cons in Hf as [Hfw Hf]. cbn [all_tokens fmap list_fmap].
  rewrite token_name_of by done. cbn [mbind outcome_bind]. rewrite Hv by left. cbn [mbind outcome_bind].
  destruct (decide (P w)) as [HP|HP].
  - rewrite (bool_decide_true (P w)) by done. rewrite IH; [|done|by intros; apply Hv; right]. f_equal. apply bool_decide_ext. rewrite Forall_cons. tauto.
  - rewrite (bool_decide_false (P w)) by done. f_equal. symmetry. apply bool_decide_eq_false. by intros [? _]%Forall_cons.
Qed.

Lemma words_all_wf sep s : wf_cstr s -> Forall wf_cstr (words sep s).
Proof. intros Hs. apply Forall_forall. intros w. by apply words_wf. Qed.

Lemma valid_list_spec (valid : cstr -> outcome bool) (P : cstr -> Prop) `{forall w, Decision (P w)} s :
  wf_cstr s -> (forall w, wf_cstr w -> valid w = Done (bool_decide (P w))) ->
  let t := filter no_space s in
  valid_list valid s = Done (bool_decide (Forall fits (words [44] t) /\ Forall P (words [44] t)), t).
Proof.
  intros Hs Hv t. unfold valid_list. rewrite DelSpace_spec by done. cbn [mbind outcome_bind negb].
  fold t. assert (Ht : wf_cstr t) by (by apply wf_filter).
  rewrite AnscTcAllocate_emit by done. cbn [next_alloc negb].
  destruct (emit_checked (words (lit ",") t) [] []) as [a' ->]. rewrite take_nil. cbn [forallb]. rewrite andb_true_r.
  change (lit ",") with [44]. cbn [mbind outcome_bind fst].
  destruct (decide (Forall fits (words [44] t))) as [Hf|Hf].
  - rewrite (bool_decide_true (Forall fits _)) by done. cbn [app]. rewrite (all_tokens_spec valid P); [|by apply words_all_wf|done|].
    2:{ intros w Hw. apply Hv. eapply words_wf; [exact Ht|exact Hw]. }
    cbn [mbind outcome_bind]. do 2 f_equal. apply bool_decide_ext. tauto.
  - rewrite !bool_decide_false by tauto. done.
Qed.

End lemmas.

(** ** Masks *)

Section masks.
Context `{Platform}.

Lemma shift_odd fuel : forall i m, 0 < m < 2 ^ Z.of_nat fuel ->
  exists k, 0 <= k /\ mask_shift fuel i m = Done (i + k, m / 2 ^ k) /\ m = m / 2 ^ k * 2 ^ k /\ (m / 2 ^ k) mod 2 = 1.
Proof.
  induction fuel as [|fuel IH]; intros i m Hm; [cbn in Hm; lia|]. cbn [mask_shift].
  change 1 with (Z.ones 1) at 1. rewrite Z.land_ones by lia. change (2 ^ 1) with 2.
  destruct (Z.eqb_spec (m mod 2) 0) as [E|E].
  - rewrite Z.shiftr_div_pow2 by lia. change (2 ^ 1) with 2.
    rewrite Nat2Z.inj_succ, Z.pow_succ_r in Hm by lia.
    destruct (IH (i + 1) (m / 2)) as (k & Hk & Es & Em & Eo); [Z.div_mod_to_equations; lia|].
    exists (k + 1). rewrite Z.pow_add_r, (Z.mul_comm (2 ^ k)) by lia. change (2 ^ 1) with 2.
    rewrite <-Z.div_div by (try lia; apply Z.pow_pos_nonneg; lia).
    split_and!; [lia|rewrite Es; do 2 f_equal; lia|Z.div_mod_to_equations; lia|done].
  - exists 0. rewrite Z.pow_0_r, Z.div_1_r, Z.add_0_r. split_and!; [lia|done|lia|Z.div_mod_to_equations; lia].
Qed.

(** What [DslhVarroIsValidMaskString] accepts: nothing set, everything set on a
    platform of 32 bits, or all the bits between the lowest one and the top bit. *)
Definition mask_ok (m : Z) : bool :=
  (m =? 0) || (ulong_bits =? 32) && (m =? 2 ^ 32 - 1)
  || existsb (fun i => m =? (2 ^ (31 - i) - 1) * 2 ^ i) (seqZ 0 25).

Lemma ULONG_not_zero m : 0 <= m < 2 ^ ulong_bits -> (ULONG_not m =? 0) = (m =? 2 ^ ulong_bits - 1).
Proof.
  intros Hm. unfold ULONG_not, Z.lnot. pose proof ulong_modulus_pos.
  replace (ULONG (Z.pred (- m))) with (2 ^ ulong_bits - 1 - m).
  - destruct (Z.eqb_spec (2 ^ ulong_bits - 1 - m) 0), (Z.eqb_spec m (2 ^ ulong_bits - 1)); lia.
  - unfold ULONG, wrapU. apply (Zmod_unique _ _ (-1)); lia.
Qed.

(** The bits above the shifted mask, on each platform and for each shift. *)
Lemma high_bits i : 0 <= i <= 24 ->
  let hi := ULONG (Z.shiftl (ULONG_not 0) (31 - i)) in
  Z.lxor hi (2 ^ ulong_bits - 1) = 2 ^ (31 - i) - 1 /\ Z.lxor hi (2 ^ (31 - i) - 1) = 2 ^ ulong_bits - 1 /\
  Z.land hi (2 ^ ulong_bits - 1) = hi.
Proof.
  intros Hi. unfold ULONG_not, ULONG.
  assert (Hf : forall w, w = 32 \/ w = 64 -> Forall (fun i =>
    Z.lxor (wrapU w (Z.shiftl (wrapU w (Z.lnot 0)) (31 - i))) (2 ^ w - 1) = 2 ^ (31 - i) - 1 /\
    Z.lxor (wrapU w (Z.shiftl (wrapU w (Z.lnot 0)) (31 - i))) (2 ^ (31 - i) - 1) = 2 ^ w - 1 /\
    Z.land (wrapU w (Z.shiftl (wrapU w (Z.lnot 0)) (31 - i))) (2 ^ w - 1) = wrapU w (Z.shiftl (wrapU w (Z.lnot 0)) (31 - i)))
    (seqZ 0 25)).
  { intros w [-> | ->]; repeat constructor; by vm_compute. }
  specialize (Hf _ ulong_bits_ok). eapply Forall_forall in Hf; [exact Hf|]. apply elem_of_seqZ. lia.
Qed.

Lemma shifted_mask i m : 0 <= i <= 24 -> 0 <= m < 2 ^ ulong_bits ->
  (ULONG_not (Z.lxor (ULONG (Z.shiftl (ULONG_not 0) (31 - i))) m) =? 0) = (m =? 2 ^ (31 - i) - 1).
Proof.
  intros Hi Hm. destruct (high_bits i Hi) as (E1 & E2 & _). set (hi := ULONG _) in *.
  assert (Hw : 0 <= ulong_bits) by (destruct ulong_bits_ok as [-> | ->]; lia).
  assert (Hhi : 0 <= hi < 2 ^ ulong_bits) by apply ULONG_bound.
  assert (Hb : 0 <= Z.lxor hi m < 2 ^ ulong_bits).
  { assert (Hz : Z.lxor hi m mod 2 ^ ulong_bits = Z.lxor hi m).
    { rewrite <-Z.land_ones by done. apply Z.bits_inj'. intros n Hn.
      rewrite Z.land_spec, Z.lxor_spec, Z.testbit_ones_nonneg by done.
      destruct (Z.ltb_spec n ulong_bits); [by rewrite andb_true_r|]. rewrite andb_false_r.
      rewrite <-(Z.mod_small hi (2 ^ ulong_bits)), <-(Z.mod_small m (2 ^ ulong_bits)) by done.
      by rewrite !Z.mod_pow2_bits_high by lia. }
    rewrite <-Hz. by apply Z.mod_pos_bound, ulong_modulus_pos. }
  rewrite ULONG_not_zero by done. apply eq_true_iff_eq. rewrite !Z.eqb_eq. split; [|by intros ->].
  intros E. rewrite <-E1, <-E. by rewrite <-Z.lxor_assoc, Z.lxor_nilpotent, Z.lxor_0_l.
Qed.

Lemma mask_split m i q : 0 <= i -> m = q * 2 ^ i -> q mod 2 = 1 ->
  forall j p, 0 <= j -> m = p * 2 ^ j -> p mod 2 = 1 -> i = j /\ q = p.
Proof.
  assert (Hw : forall i q j p, 0 <= i < j -> q mod 2 = 1 -> q * 2 ^ i = p * 2 ^ j -> False).
  { clear. intros i q j p Hij Hq E. replace j with (i + (1 + (j - i - 1))) in E by lia.
    rewrite Z.pow_add_r, Z.pow_add_r in E by lia.
    assert (q = 2 * (p * 2 ^ (j - i - 1))) as ->.
    { apply (Z.mul_reg_r _ _ (2 ^ i)); [apply Z.pow_nonzero; lia|]. rewrite E. ring. }
    rewrite Z.mul_comm, Z.mod_mul in Hq; lia. }
  intros Hi Em Hq j p Hj Ep Hp. subst m.
  assert (i = j) as ->.
  { destruct (Z.lt_trichotomy i j) as [?|[?|?]]; [exfalso; by eapply (Hw i q j p)|done|].
    exfalso. by eapply (Hw j p i q). }
  split; [done|]. apply (Z.mul_reg_r _ _ (2 ^ j)); [apply Z.pow_nonzero; lia|done].
Qed.

Lemma ones_odd k : 0 < k -> (2 ^ k - 1) mod 2 = 1.
Proof.
  intros Hk. replace k with (1 + (k - 1)) by lia. rewrite Z.pow_add_r by lia. change (2 ^ 1) with 2.
  Z.div_mod_to_equations. lia.
Qed.

Lemma mask_test_spec m : 0 <= m < 2 ^ 32 -> mask_test m = Done (mask_ok m).
Proof.
  intros Hm. unfold mask_test, mask_ok. destruct (Z.eqb_spec m 0) as [->|Hnz]; [done|]. cbn [orb].
  assert (Hbits : 32 <= ulong_bits) by (destruct ulong_bits_ok as [-> | ->]; lia).
  destruct (shift_odd (S (Z.to_nat ulong_bits)) 0 m) as (i & Hi & -> & Em & Ho).
  { split; [lia|]. eapply Z.lt_le_trans; [apply Hm|]. apply Z.pow_le_mono_r; lia. }
  cbn [mbind outcome_bind]. rewrite Z.add_0_l. set (q := m / 2 ^ i) in *.
  assert (Hp : 0 < 2 ^ i) by (apply Z.pow_pos_nonneg; lia).
  assert (Hq : 0 <= q < 2 ^ ulong_bits).
  { split; [apply Z.div_pos; lia|]. apply Z.le_lt_trans with m; [apply Z.div_le_upper_bound; nia|].
    eapply Z.lt_le_trans; [apply Hm|]. by apply Z.pow_le_mono_r. }
  assert (Hwin : existsb (fun i => m =? (2 ^ (31 - i) - 1) * 2 ^ i) (seqZ 0 25) =
                 (i <=? 24) && (q =? 2 ^ (31 - i) - 1)).
  { apply eq_true_iff_eq. rewrite existsb_exists, andb_true_iff, Z.leb_le, Z.eqb_eq. split.
    - intros (j & Hj%list_elem_of_In%elem_of_seqZ & Ej%Z.eqb_eq).
      destruct (mask_split m i q Hi Em Ho j (2 ^ (31 - j) - 1)) as [-> ->]; [lia|done|apply ones_odd; lia|].
      split; [lia|done].
    - intros [Hi24 Eq]. exists i. rewrite <-list_elem_of_In, elem_of_seqZ, Z.eqb_eq, <-Eq. split; [lia|done]. }
  rewrite Hwin. destruct (Z.ltb_spec 24 i) as [H24|H24].
  - rewrite (proj2 (Z.leb_gt i 24)) by lia. cbn [andb]. rewrite orb_false_r.
    f_equal. symmetry. apply andb_false_iff. right. apply Z.eqb_neq. intros E.
    destruct (mask_split m i q Hi Em Ho 0 (2 ^ 32 - 1)); [lia|by rewrite E|done|lia].
  - rewrite (proj2 (Z.leb_le i 24)) by lia. cbn [andb]. rewrite shifted_mask by (done || lia).
    rewrite Z.lxor_0_l, ULONG_not_zero by done. f_equal. f_equal.
    apply eq_true_iff_eq. rewrite !andb_true_iff, !Z.eqb_eq. split.
    + intros [-> Eq]. assert (m = 2 ^ ulong_bits - 1) as E by (rewrite Em, Z.pow_0_r; lia).
      destruct ulong_bits_ok as [Eb|Eb]; rewrite Eb in E; [done|lia].
    + intros [Eb E]. destruct (mask_split m i q Hi Em Ho 0 (2 ^ 32 - 1)) as [-> ->]; [lia|by rewrite E|done|]. by rewrite Eb.
Qed.

Lemma mask_value_dotted b : Forall is_byte b -> forall v, 0 <= v -> (v + 1) * 256 ^ Zlen b <= 2 ^ 32 ->
  mask_value (token_of <$> (fmt_u 3 <$> b)) v = Done (foldl (fun a x => a * 256 + x) v b).
Proof.
  induction 1 as [|d b Hd Hb IH]; intros v Hv Hl; [done|]. cbn [fmap list_fmap mask_value foldl].
  cbn [length] in Hl. rewrite Nat2Z.inj_succ, Z.pow_succ_r in Hl by lia.
  assert (0 < 256 ^ Zlen b) by (apply Z.pow_pos_nonneg; lia).
  destruct (fmt_u_byte d Hd) as [Hlen Hw]. pose proof ulong_modulus_ge.
  rewrite token_name_of; [|done|unfold fits, strlen, ANSC_URI_PATH_SIZE; lia]. cbn [mbind outcome_bind].
  unfold is_byte in Hd.
  rewrite (AnscGetStringUlong_decimal d); [|lia|apply (fmt_u_dec 2); cbn; lia].
  rewrite (proj2 (Z.ltb_lt d (10 ^ 10))) by (cbn; lia). cbn [mbind outcome_bind].
  rewrite Z.shiftl_mul_pow2 by lia. change (2 ^ 8) with 256. change (2 ^ 32) with 4294967296 in *.
  rewrite (ULONG_small32 (v * 256)) by nia. rewrite ULONG_small32 by nia. apply IH; nia.
Qed.

Definition is_netmask (p v : Z) : Prop := 1 <= p <= 31 /\ v = 2 ^ 32 - 2 ^ (32 - p).

Lemma mask_ok_netmask p v : is_netmask p v -> mask_ok v = false.
Proof.
  intros [Hp ->].
  assert (Hf : Forall (fun p => forall w, (2 ^ 32 - 2 ^ (32 - p) =? 0) || (w =? 32) && (2 ^ 32 - 2 ^ (32 - p) =? 2 ^ 32 - 1)
    || existsb (fun i => 2 ^ 32 - 2 ^ (32 - p) =? (2 ^ (31 - i) - 1) * 2 ^ i) (seqZ 0 25) = false) (seqZ 1 31)).
  { repeat constructor; intros w; rewrite andb_false_r; by vm_compute. }
  eapply Forall_forall in Hf; [apply Hf|]. apply elem_of_seqZ. lia.
Qed.

End masks.

(** C30. A subnet mask in dotted notation is accepted exactly when it is
    0.0.0.0, on a 32-bit platform 255.255.255.255, or consists of all the bits
    from its lowest one up to bit 30; so no network mask of 1 to 31 bits is
    ever accepted. *)
Theorem DslhVarroIsValidMaskString_spec `{Platform} b (Hb : is_buf 4 b) :
  let v := num_value 256 (fun x => x) b in
  DslhVarroIsValidMaskString (Some (dotted b)) = Done (mask_ok v) /\
  (forall p, is_netmask p v -> DslhVarroIsValidMaskString (Some (dotted b)) = Done false).
Proof.
  set (v := num_value _ _ _). cbn zeta.
  assert (E : DslhVarroIsValidMaskString (Some (dotted b)) = Done (mask_ok v)).
  2:{ split; [done|]. intros p Hp. by rewrite E, (mask_ok_netmask p). }
  pose proof (num_value_octets b (proj2 Hb)) as Hv.
  destruct Hb as [Hl Hb]. cbn [DslhVarroIsValidMaskString].
  assert (Hw : wf_cstr (dotted b)) by (rewrite dotted_text by done; by apply ip_text_wf).
  assert (Hne : strlen (dotted b) <> 0).
  { destruct b as [|? [|? [|? [|? [|? ?]]]]]; try (cbn [length] in Hl; lia). cbn [dotted].
    unfold strlen. rewrite length_app. cbn [length]. lia. }
  rewrite (proj2 (Z.eqb_neq _ _) Hne).
  rewrite AnscTcAllocate_emit by done. cbn [next_alloc negb].
  change (lit ".") with [46]. rewrite words_dotted by done.
  assert (Hfit : Forall fits (fmt_u 3 <$> b)).
  { apply Forall_fmap. eapply Forall_impl; [exact Hb|]. intros d Hd. change (fits (fmt_u 3 d)).
    destruct (fmt_u_byte d Hd) as [? _]. unfold fits, strlen, ANSC_URI_PATH_SIZE. lia. }
  rewrite emit_fits by done. cbn [app mbind outcome_bind fst].
  rewrite !length_fmap, Hl. change (USHORT 4 =? 4) with true. cbn [negb].
  rewrite mask_value_dotted; [|done|lia|by rewrite Hl]. cbn [mbind outcome_bind].
  apply mask_test_spec. by rewrite Hl in Hv.
Qed.

Theorem DslhVarroIsValidMaskString_spec_witness :
  let _ := lp64 in
  is_buf 4 [255; 255; 255; 0] /\ is_netmask 24 (num_value 256 (fun x => x) [255; 255; 255; 0]) /\
  DslhVarroIsValidMaskString (Some (lit "255.255.255.0")) = Done false /\
  DslhVarroIsValidMaskString (Some (lit "127.255.255.0")) = Done true.
Proof.
  cbn zeta.
  assert (Hb : forall x, is_byte x -> is_buf 4 [x; 255; 255; 0]).
  { intros x Hx. split; [done|]. repeat constructor; try apply Hx; unfold is_byte; lia. }
  assert (Hn : is_netmask 24 (num_value 256 (fun x => x) [255; 255; 255; 0])) by (split; [lia|by vm_compute]).
  split_and!; [apply Hb; unfold is_byte; lia|exact Hn| |].
  - apply (proj2 (@DslhVarroIsValidMaskString_spec lp64 [255; 255; 255; 0] (Hb 255 ltac:(unfold is_byte; lia))) 24 Hn).
  - apply (proj1 (@DslhVarroIsValidMaskString_spec lp64 [127; 255; 255; 0] (Hb 127 ltac:(unfold is_byte; lia)))).
Defined.

(** ** URLs *)

Section urls.
Context `{Platform}.

Definition scheme (secure : bool) : cstr := lit "http" ++ (if secure then lit "s" else []) ++ lit "://".

Lemma strstr_colon host rest : 58 ∉ host -> strstr (host ++ 58 :: rest) (lit ":") = Some (58 :: rest).
Proof.
  induction host as [|c host IH]; intros Hh; [done|]. apply not_elem_of_cons in Hh as [Hc Hh].
  cbn [app strstr]. unfold is_prefix. rewrite bool_decide_false; [by apply IH|]. by intros [= E].
Qed.

Lemma strstr_no_colon host : 58 ∉ host -> strstr host (lit ":") = None.
Proof.
  induction host as [|c host IH]; intros Hh; [done|]. apply not_elem_of_cons in Hh as [Hc Hh].
  cbn [strstr]. unfold is_prefix. rewrite bool_decide_false; [by apply IH|]. by intros [= E].
Qed.

(** The copy of the digits of a port into [char port[6]]. *)
Lemma copy_port port tail : (length port <= 5)%nat -> Forall is_digit port ->
  exists b, for_from 0 (length port) (fun j b => c ← buf_get (port ++ tail) j; buf_put b j c) (replicate 6 0) = Done b /\
    text_of b = Done port.
Proof.
  intros Hl Hd. eexists. split.
  { rewrite (for_map (fun c => c)) by (rewrite ?length_app, ?length_replicate; lia).
    by rewrite list_fmap_id, take_app_length, drop_replicate. }
  replace (6 - length port)%nat with (S (5 - length port)) by lia. cbn [replicate].
  apply wf_buf_cstr. eapply Forall_impl; [exact Hd|]. unfold is_digit. lia.
Qed.

Lemma buf_cstr_digits b : Forall is_digit b -> buf_cstr b = None.
Proof.
  induction 1 as [|c b Hc Hb IH]; [done|]. cbn [buf_cstr]. unfold is_digit in Hc.
  destruct (Z.eqb_spec c 0); [lia|]. by rewrite IH.
Qed.

Lemma copy_long_port port tail : (6 <= length port)%nat -> Forall is_digit port ->
  match for_from 0 (length port) (fun j b => c ← buf_get (port ++ tail) j; buf_put b j c) (replicate 6 0) with
  | Done b => text_of b = Stuck OutOfBounds
  | Stuck f => f = OutOfBounds
  end.
Proof.
  intros Hl Hd. destruct (Nat.le_exists_sub 6 (length port) Hl) as (k & Ek & _).
  rewrite Ek, (Nat.add_comm k 6), for_from_add, (for_map (fun c => c)) by (rewrite ?length_app, ?length_replicate; lia).
  rewrite list_fmap_id, drop_replicate, take_app_le by lia. cbn [replicate mbind outcome_bind Nat.sub].
  rewrite app_nil_r. assert (Ht : length (take 6 port) = 6%nat) by (rewrite length_take; lia).
  destruct k as [|k]; cbn [for_from mbind outcome_bind].
  - unfold text_of. by rewrite buf_cstr_digits by by apply Forall_take.
  - destruct (lookup_lt_is_Some_2 port 6) as [c Hc]; [lia|].
    rewrite (buf_get_Z _ _ c); [|lia|by rewrite lookup_app_l by (cbn; lia)]. cbn [mbind outcome_bind].
    unfold buf_put, buf_copy. rewrite Ht. done.
Qed.

Lemma port_number port : (length port <= 5)%nat -> Forall is_digit port ->
  AnscGetStringUlong port = Done (dec_value port).
Proof.
  intros Hl Hd. rewrite AnscGetStringUlong_spec. rewrite (proj2 (Z.ltb_ge 10 (strlen port))) by (unfold strlen; lia).
  f_equal. rewrite (num_value_ext 10 _ (fun c => c - 48)).
  - apply ULONG_small32. apply is_digit_dig, (num_value_bound 10) in Hd; [|lia].
    assert (10 ^ Zlen port <= 10 ^ 5) by (apply Z.pow_le_mono_r; lia). lia.
  - eapply Forall_impl; [exact Hd|]. unfold is_digit. intros c Hc. cbn. rewrite char_val_ascii; lia.
Qed.

End urls.

(** C31. The check of a URL, with or without a port: a URL without a colon
    behind its scheme is accepted; one whose host is followed by a colon and
    the digits of a port, and then by the end or a slash, is accepted exactly
    when the number is between 1 and 65535 if it has at most five digits, and
    overruns the six characters on the stack that the digits are copied to if
    it has more; when anything else follows the digits it is rejected. *)
Theorem DslhVarroIsValidUrlString_spec `{Platform} secure host port tail
    (Hh : 58 ∉ host) (Hp : Forall is_digit port) (Ht : forall c, head tail = Some c -> ~ is_digit c) :
  DslhVarroIsValidUrlString (scheme secure ++ host) = Done true /\
  DslhVarroIsValidUrlString (scheme secure ++ host ++ 58 :: port ++ tail) =
    if bool_decide (tail = []) || bool_decide (head tail = Some 47) then
      if (length port <=? 5)%nat then Done ((0 <? dec_value port) && (dec_value port <=? 65535))
      else Stuck OutOfBounds
    else Done false.
Proof.
  unfold DslhVarroIsValidUrlString.
  assert (Hs : forall r, is_prefix (lit "http") (scheme secure ++ r) = true /\
    (let p := drop 4 (scheme secure ++ r) in if deref p =? 115 then drop 1 p else p) = lit "://" ++ r)
    by (by destruct secure).
  split.
  - destruct (Hs host) as [-> E]. cbn zeta in E. cbn [negb]. rewrite E. change (is_prefix (lit "://") (lit "://" ++ host)) with true.
    cbn [negb]. change (drop 3 (lit "://" ++ host)) with host. by rewrite strstr_no_colon.
  - set (rest := host ++ _). destruct (Hs rest) as [-> E]. cbn zeta in E. cbn [negb]. rewrite E.
    change (is_prefix (lit "://") (lit "://" ++ rest)) with true.
    cbn [negb]. change (drop 3 (lit "://" ++ rest)) with rest. unfold rest. rewrite strstr_colon by done.
    change (drop 1 (58 :: port ++ tail)) with (port ++ tail).
    assert (Hu : until (fun c => negb (AnscIsDigit c)) (port ++ tail) = length port).
    { assert (Hd : Forall (fun c => negb (AnscIsDigit c) = false) port).
      { eapply Forall_impl; [exact Hp|]. intros c Hc. by rewrite (proj2 (AnscIsDigit_spec c)). }
      destruct tail as [|c tail].
      - rewrite app_nil_r. clear -Hd. induction Hd as [|c port Hc Hd IH]; [done|]. cbn [until length]. by rewrite Hc, IH.
      - apply until_app; [done|]. destruct (AnscIsDigit c) eqn:Ec; [|done]. apply AnscIsDigit_spec in Ec. by destruct (Ht c). }
    rewrite Hu. rewrite lookup_app_r, Nat.sub_diag by lia.
    assert (Hc : bool_decide (length (port ++ tail) = length port) || (default 0 (tail !! 0%nat) =? 47) =
                 bool_decide (tail = []) || bool_decide (head tail = Some 47)).
    { rewrite length_app. destruct tail as [|c tail]; cbn [length lookup list_lookup default head].
      - by rewrite !bool_decide_true by (done || lia).
      - rewrite (bool_decide_false (_ = length port)), (bool_decide_false (_ = [])) by (done || lia). cbn [orb].
        change (id c) with c. destruct (Z.eqb_spec c 47) as [->|]; [by rewrite bool_decide_true|].
        rewrite bool_decide_false; [done|]. by intros [= ->]. }
    rewrite Hc. destruct (bool_decide (tail = []) || bool_decide (head tail = Some 47)); [|done].
    destruct (Nat.leb_spec (length port) 5).
    + destruct (copy_port port tail) as (b & -> & E'); [done..|]. cbn [mbind outcome_bind].
      rewrite E'. cbn [mbind outcome_bind]. rewrite port_number by done. done.
    + pose proof (copy_long_port port tail ltac:(lia) Hp) as Hlong.
      destruct (for_from _ _ _ _) as [b|f]; cbn [mbind outcome_bind]; [by rewrite Hlong|by subst].
Qed.

Theorem DslhVarroIsValidUrlString_spec_witness :
  let _ := lp64 in
  DslhVarroIsValidUrlString (lit "https://router:8443/login") = Done true /\
  DslhVarroIsValidUrlString (lit "https://router:70000/login") = Done false /\
  DslhVarroIsValidUrlString (lit "https://router:123456/login") = Stuck OutOfBounds.
Proof.
  cbn zeta. split_and!.
  - refine (eq_trans (proj2 (@DslhVarroIsValidUrlString_spec lp64 true (lit "router") (lit "8443") (lit "/login") _ _ _)) _);
      [by apply (bool_decide_eq_true_1 _); vm_compute|by apply (bool_decide_eq_true_1 _); vm_compute| |by vm_compute].
    intros c [= <-]. by intros [? ?].
  - refine (eq_trans (proj2 (@DslhVarroIsValidUrlString_spec lp64 true (lit "router") (lit "70000") (lit "/login") _ _ _)) _);
      [by apply (bool_decide_eq_true_1 _); vm_compute|by apply (bool_decide_eq_true_1 _); vm_compute| |by vm_compute].
    intros c [= <-]. by intros [? ?].
  - refine (eq_trans (proj2 (@DslhVarroIsValidUrlString_spec lp64 true (lit "router") (lit "123456") (lit "/login") _ _ _)) _);
      [by apply (bool_decide_eq_true_1 _); vm_compute|by apply (bool_decide_eq_true_1 _); vm_compute| |by vm_compute].
    intros c [= <-]. by intros [? ?].
Defined.

(** ** Lists of addresses *)

#[export] Instance octet_dec w : Decision (octet w).
Proof. unfold octet. solve_decision. Defined.

(** An IPv4 address in dotted notation. *)
Definition dotted_address (w : cstr) : Prop :=
  0 < strlen w < 16 /\ length (words [46] w) = 4%nat /\ Forall octet (words [46] w).
#[export] Instance dotted_address_dec w : Decision (dotted_address w).
Proof. unfold dotted_address. solve_decision. Defined.

Definition mac_address (w : cstr) : Prop := DslhVarroIsValidMacAddress (Some w) = true.
#[export] Instance mac_address_dec w : Decision (mac_address w).
Proof. unfold mac_address. solve_decision. Defined.

Section lists.
Context `{Platform}.

Lemma valid_dotted w : wf_cstr w -> AnscIsValidIpString (Some w) [] = Done (bool_decide (dotted_address w)).
Proof.
  intros Hw. destruct (AnscIsValidIpString_char w [] Hw) as (b & -> & Hb). f_equal.
  apply eq_true_iff_eq. rewrite Hb, bool_decide_eq_true. unfold dotted_address. rewrite take_nil. cbn. tauto.
Qed.

Lemma mac_length w : mac_address w -> strlen w <= 35.
Proof.
  unfold mac_address. cbn [DslhVarroIsValidMacAddress].
  destruct (Z.eqb_spec (strlen w) 0), (Z.eqb_spec (strlen w) 17), (Z.eqb_spec (strlen w) 35); cbn; done || lia.
Qed.

Lemma fits_if (P : cstr -> Prop) ws : (forall w, P w -> strlen w <= 35) ->
  Forall fits ws /\ Forall P ws <-> Forall P ws.
Proof.
  intros HP. split; [tauto|]. intros Hf. split; [|done]. eapply Forall_impl; [exact Hf|].
  intros w Hw. apply HP in Hw. unfold fits, ANSC_URI_PATH_SIZE. lia.
Qed.

Lemma on_list_spec check s b t : s ≠ [] -> check s = Done (b, t) -> on_list check (Some s) = Done (b, Some t).
Proof.
  intros Hne E. unfold on_list. destruct (Z.eqb_spec (strlen s) 0); [by destruct s|]. by rewrite E.
Qed.

End lists.

(** The checks of address lists: a nonempty list completes, the text that
    stays in the buffer of the caller is the list without its spaces, and the
    list is accepted exactly when every word between its commas is an IPv4
    address in dotted notation, respectively a MAC address; empty elements are
    skipped. *)
Theorem address_list_checks `{Platform} s (Hs : wf_cstr s) (Hne : s ≠ []) :
  let t := filter no_space s in
  DslhVarroIsValidIpAddList (Some s) = Done (bool_decide (Forall dotted_address (words [44] t)), Some t) /\
  DslhVarroIsValidMacAddList (Some s) = Done (bool_decide (Forall mac_address (words [44] t)), Some t).
Proof.
  cbn zeta. split; [unfold DslhVarroIsValidIpAddList|unfold DslhVarroIsValidMacAddList];
    (apply on_list_spec; [done|]; etransitivity).
  - apply (valid_list_spec _ dotted_address); [done|apply valid_dotted].
  - do 2 f_equal. apply bool_decide_ext, fits_if. unfold dotted_address. lia.
  - apply (valid_list_spec _ mac_address); [done|]. intros w _. f_equal. symmetry.
    unfold mac_address. apply eq_true_iff_eq. apply bool_decide_eq_true.
  - do 2 f_equal. apply bool_decide_ext, fits_if, mac_length.
Qed.

Theorem address_list_checks_witness :
  let _ := lp64 in
  wf_cstr (lit "10.0.0.1, 10.0.0.2") /\
  DslhVarroIsValidIpAddList (Some (lit "10.0.0.1, 10.0.0.2")) = Done (true, Some (lit "10.0.0.1,10.0.0.2")).
Proof.
  cbn zeta. assert (H : wf_cstr (lit "10.0.0.1, 10.0.0.2")) by (repeat constructor; lia).
  split; [exact H|]. etransitivity; [apply (@address_list_checks lp64 (lit "10.0.0.1, 10.0.0.2") H); done|].
  by vm_compute.
Defined.

(** ** What the checks let pass *)

Section weak.
Context `{Platform}.

(** The ends of a range are compared as the numbers that their bytes in memory
    make, which is the order of the addresses on a big-endian machine only. *)
Lemma valid_range_spec inet_addr b1 b2 :
  (forall b, is_buf 4 b -> inet_addr (dotted b) = b) -> is_buf 4 b1 -> is_buf 4 b2 ->
  AnscIsValidIpString (Some (dotted b1)) [] = Done true ->
  AnscIsValidIpString (Some (dotted b2)) [] = Done true ->
  valid_range inet_addr (dotted b1 ++ [45] ++ dotted b2) = Done (addr_value b1 <=? addr_value b2).
Proof.
  intros Hi H1 H2 V1 V2. unfold valid_range.
  assert (Hd : forall b, is_buf 4 b -> wf_cstr (dotted b) /\ Forall (.∉ [45]) (dotted b) /\ dotted b ≠ [] /\ fits (dotted b)).
  { intros b Hb. pose proof (words_dotted b Hb) as Hw. destruct Hb as [Hl Hb].
    destruct b as [|a [|b [|c [|d [|? ?]]]]]; try (cbn [length] in Hl; lia).
    pose proof Hb as Hb0. rewrite !Forall_cons in Hb0. destruct Hb0 as (Hx & Hx0 & Hx1 & Hx2 & _).
    split_and!.
    - rewrite dotted_text by done. by apply ip_text_wf.
    - assert (Hf : forall x, is_byte x -> Forall (.∉ [45]) (fmt_u 3 x)).
      { intros x Hx3. destruct (fmt_u_dec 2 x) as [Hdig _]; [unfold is_byte in Hx3; cbn; lia|].
        eapply Forall_impl; [exact Hdig|]. unfold is_digit. intros y Hy ->%list_elem_of_singleton. lia. }
      cbn [dotted]. repeat first [apply Forall_app; split | apply Forall_cons; split]; auto;
        intros E%list_elem_of_singleton; lia.
    - cbn [dotted]. by destruct (fmt_u 3 a).
    - unfold fits, strlen, ANSC_URI_PATH_SIZE. cbn [dotted]. rewrite !length_app. cbn [length].
      rewrite !length_app. cbn [length]. rewrite !length_app. cbn [length].
      destruct (fmt_u_byte a Hx), (fmt_u_byte b Hx0), (fmt_u_byte c Hx1), (fmt_u_byte d Hx2). lia. }
  destruct (Hd b1 H1) as (W1 & N1 & E1 & F1), (Hd b2 H2) as (W2 & N2 & E2 & F2).
  rewrite AnscTcAllocate_emit.
  2:{ apply wf_cstr_app. split; [done|]. apply wf_cstr_app. split; [repeat constructor; lia|done]. }
  cbn [next_alloc negb]. change (lit "-") with [45].
  assert (Hw : words [45] (dotted b1 ++ [45] ++ dotted b2) = [dotted b1; dotted b2]).
  { rewrite words_word; [|done|done|by intros c [= <-]; apply list_elem_of_here]. f_equal.
    rewrite words_skip by (apply Forall_singleton, list_elem_of_here).
    rewrite <-(app_nil_r (dotted b2)) at 1. by rewrite words_word. }
  rewrite Hw, emit_fits by (repeat constructor; done). cbn [fmap list_fmap app mbind outcome_bind fst].
  rewrite (token_name_of (dotted b1)) by done. cbn [mbind outcome_bind]. rewrite V1. cbn [mbind outcome_bind negb].
  rewrite (token_name_of (dotted b2)) by done. cbn [mbind outcome_bind]. rewrite V2. cbn [mbind outcome_bind negb].
  rewrite !Hi by done. f_equal. rewrite Z.leb_antisym. done.
Qed.

Lemma base64_never_rejected b64_decode s :
  match DslhVarroIsValidBase64String b64_decode (Some s) with Done b => b = true | Stuck f => f = OutOfBounds end.
Proof.
  unfold DslhVarroIsValidBase64String. destruct (strlen s =? 0); [done|].
  unfold AnscBase64Decode. cbn [next_alloc mbind outcome_bind AnscBase64DecodeLine].
  unfold buf_copy. by destruct (_ && _).
Qed.

End weak.

(** What the checks of values let pass or refuse against their purpose: any
    letters make a MAC address, and so does the empty string, whose conversion
    then reads past its end; a range is refused on a little-endian machine when
    the first end precedes the second as addresses but not as words of memory;
    a base64 text is never refused; a mask with a hole at the top passes. *)
Theorem var_check_faults :
  let _ := lp64 in
  DslhVarroIsValidMacAddress (Some (lit "ZZ:ZZ:ZZ:ZZ:ZZ:ZZ")) = true /\
  DslhVarroIsValidMacAddress (Some []) = true /\ SlapVcoStringToMacAddr (Some []) = Stuck OutOfBounds /\
  DslhVarroIsValidIpAddRangeList words_addr (Some (lit "10.0.0.1-10.0.1.0")) = Done (false, Some (lit "10.0.0.1-10.0.1.0")) /\
  DslhVarroIsValidIpAddRangeList words_addr (Some (lit "10.0.1.0-10.0.0.1")) = Done (true, Some (lit "10.0.1.0-10.0.0.1")) /\
  (forall b64_decode s, match DslhVarroIsValidBase64String b64_decode (Some s) with Done b => b = true | Stuck f => f = OutOfBounds end) /\
  DslhVarroIsValidUrlString (lit "http://host:1234567") = Stuck OutOfBounds /\
  DslhVarroIsValidMaskString (Some (lit "127.255.255.0")) = Done true.
Proof.
  cbn zeta. do 5 (split; [by vm_compute|]). split; [apply @base64_never_rejected|]. split; by vm_compute.
Qed.
