(* ===== verification/VarEntity.v ===== *)
(** * What a parameter of the data model is declared as

    [DslhWmpDatabase/dslh_wmpdo_utilities.c], [DslhVarEntity/dslh_vareo_tokens.c].
    A parameter is declared with a data type, which may have limits
    ("unsignedInt[0:4095]", "string(64)", "string:Up(1),Down(2)"), and a syntax
    ("uint32/ip4_addr").  The registration of the parameter parses both into the
    entity of the parameter.  Allocations succeed. *)

From S2P Require Import Prelude CStrings Tokens IpAddr SlapVar SlapConv.
Open Scope Z_scope.

Inductive DSLH_CWMP_DATA_TYPE :=
  | DSLH_CWMP_DATA_TYPE_string | DSLH_CWMP_DATA_TYPE_int | DSLH_CWMP_DATA_TYPE_unsignedInt
  | DSLH_CWMP_DATA_TYPE_boolean | DSLH_CWMP_DATA_TYPE_dateTime | DSLH_CWMP_DATA_TYPE_base64.

#[export] Instance data_type_eq_dec : EqDecision DSLH_CWMP_DATA_TYPE.
Proof. solve_decision. Defined.

Record DSLH_VAREO_TOKEN_VALUE := TokenValue { String : cstr; EnumCode : Z }.

#[export] Instance token_value_eq_dec : EqDecision DSLH_VAREO_TOKEN_VALUE.
Proof. solve_decision. Defined.

(** The descriptor of a parameter, with the fields that the modelled code
    reads; the data type and the syntax are parsed below. *)
Record DSLH_CWMP_PARAM_DESCR := ParamDescr {
  pd_Name : cstr;
  bPersistent : bool;
  bWritable : bool;
  bInvisible : bool;
  bNeedReboot : bool;
  bMonitor : bool;
  PreventCharecters : option cstr }.

#[export] Instance param_descr_eq_dec : EqDecision DSLH_CWMP_PARAM_DESCR.
Proof. solve_decision. Defined.

(** The entity of a parameter; the table of tokens is made when the data type
    lists the values. *)
Record DSLH_VAR_ENTITY := VarEntity {
  ve_ParamDescr : DSLH_CWMP_PARAM_DESCR;
  DataType : DSLH_CWMP_DATA_TYPE;
  ve_Syntax : SLAP_VAR_SYNTAX;
  ve_ContentType : SLAP_CONTENT_TYPE;
  FormatValue1 : Z;
  FormatValue2 : Z;
  TokenTable : option (list DSLH_VAREO_TOKEN_VALUE) }.

#[export] Instance var_entity_eq_dec : EqDecision DSLH_VAR_ENTITY.
Proof. solve_decision. Defined.

(** ** The table of tokens *)

(** [AnscQueuePushEntry]: at the end of the queue. *)
Definition DslhVareoAddTokenValue (TokenTable : list DSLH_VAREO_TOKEN_VALUE) (pString : cstr) (ulEnumCode : Z)
  : list DSLH_VAREO_TOKEN_VALUE := TokenTable ++ [TokenValue pString ulEnumCode].

Fixpoint find_token (f : DSLH_VAREO_TOKEN_VALUE -> bool) (l : list DSLH_VAREO_TOKEN_VALUE) : option DSLH_VAREO_TOKEN_VALUE :=
  match l with [] => None | t :: l => if f t then Some t else find_token f l end.
Definition DslhVareoGetTokenValueByString (e : DSLH_VAR_ENTITY) (pString : cstr) : outcome (option DSLH_VAREO_TOKEN_VALUE) :=
  match TokenTable e with
  | None => Stuck NullDeref
  | Some l => Done (find_token (fun t => bool_decide (String t = pString)) l)
  end.
Definition DslhVareoGetTokenValueByCode (e : DSLH_VAR_ENTITY) (ulCode : Z) : outcome (option DSLH_VAREO_TOKEN_VALUE) :=
  match TokenTable e with
  | None => Stuck NullDeref
  | Some l => Done (find_token (fun t => EnumCode t =? ulCode) l)
  end.

Section parse.
Context `{Platform}.

(** [(ULONG)_ansc_atoi(s)] *)
Definition ulong_atoi (s : cstr) : Z := ULONG (INT (atol s)).

(** ** Data types *)

Definition DSLH_DATA_TYPE_TOKEN_SEPARATORS : cstr := lit "()[]:".
Definition DSLH_DATA_TYPE_TOKEN_ALPHABETS : cstr := lit "abcdefghijklmnopqrstuvwxyzABCDEFGHIJKLMNOPQRSTUVWXYZ".
Definition DSLH_DATA_TYPE_LIMIT_SEPARATORS : cstr := lit "()[]:".
Definition DSLH_DATA_TYPE_LIMIT_ALPHABETS : cstr := lit "+-0123456789Kk".

(** What the parser yields through its pointers. *)
Record DATA_TYPE_INFO := DataTypeInfo {
  dt_DataType : DSLH_CWMP_DATA_TYPE; dt_FormatValue1 : Z; dt_FormatValue2 : Z; dt_EnumTokens : option cstr }.

(** The limits of a data type: the numeric words, and the first two names. *)
Definition limit_tokens (pDataTypeName : cstr) : outcome (option cstr * option cstr) :=
  r ← AnscTcAllocate2 (Some pDataTypeName) DSLH_DATA_TYPE_LIMIT_SEPARATORS DSLH_DATA_TYPE_LIMIT_ALPHABETS [];
  match fst r with
  | None | Some [] => Done (None, None)
  | Some (t1 :: chain) =>
      s1 ← token_name t1;
      match chain with
      | [] => Done (Some s1, None)
      | t2 :: _ => s2 ← token_name t2; Done (Some s1, Some s2)
      end
  end.

(** The limits of an integer type: lower and upper; [open_low] is the prefix
    that says that the only limit is the upper one. *)
Definition int_limits (pDataTypeName open_low : cstr) (lo hi : Z) : outcome (Z * Z) :=
  r ← limit_tokens pDataTypeName;
  match r with
  | (Some s1, Some s2) => Done (ulong_atoi s1, ulong_atoi s2)
  | (Some s1, None) =>
      Done (if is_prefix open_low pDataTypeName then (lo, ulong_atoi s1) else (ulong_atoi s1, hi))
  | _ => Done (lo, hi)
  end.

(** The limit of a string: its first number, which may count kilobytes. *)
Definition string_limit (pDataTypeName : cstr) : outcome Z :=
  r ← limit_tokens pDataTypeName;
  match fst r with
  | None => Done 0
  | Some s1 =>
      let c := default 0 (last s1) in
      if (c =? 75) || (c =? 107) then Done (ULONG (ulong_atoi (removelast s1) * 1024))
      else Done (ulong_atoi s1)
  end.

Definition INT_MIN : Z := - 2 ^ 31.
Definition INT_MAX : Z := 2 ^ 31 - 1.

(** [None] is a failure status. *)
Definition DslhWmpdoParseParamDataType (pDataTypeName : cstr) : outcome (option DATA_TYPE_INFO) :=
  if is_prefix (lit "base64") pDataTypeName then
    let uSize1 := 6%nat in
    let uSize2 := length pDataTypeName in
    if negb (uSize1 =? uSize2)%nat
       && (negb (default 0 (pDataTypeName !! uSize1) =? 40) || negb (default 0 (pDataTypeName !! pred uSize2) =? 41))
    then Done None
    else
      (* one character behind the name and a parenthesis *)
      pFormat ← match drop (uSize1 + 1) (pDataTypeName ++ [0]) with
                | [] => Stuck OutOfBounds
                | b => match buf_cstr b with Some s => Done s | None => Stuck OutOfBounds end
                end;
      Done (Some (DataTypeInfo DSLH_CWMP_DATA_TYPE_base64 (ulong_atoi pFormat) 0 None))
  else
    let '(pDataTypeName, ppEnumTokens) :=
      match strstr pDataTypeName (lit "string:") with
      | Some pEnumTokensString => (lit "string", Some (drop 7 pEnumTokensString))
      | None => (pDataTypeName, None)
      end in
    r ← AnscTcAllocate2 (Some pDataTypeName) DSLH_DATA_TYPE_TOKEN_SEPARATORS DSLH_DATA_TYPE_TOKEN_ALPHABETS [];
    match fst r with
    | Some [pDataTypeToken] =>
        name ← token_name pDataTypeToken;
        let info ty limits := Done (Some (DataTypeInfo ty (fst limits) (snd limits) ppEnumTokens)) in
        if bool_decide (name = lit "string") then
          v ← string_limit pDataTypeName; info DSLH_CWMP_DATA_TYPE_string (v, 0)
        else if bool_decide (name = lit "int") then
          v ← int_limits pDataTypeName (lit "int[:") (ULONG INT_MIN) (ULONG INT_MAX); info DSLH_CWMP_DATA_TYPE_int v
        else if bool_decide (name = lit "unsignedInt") then
          v ← int_limits pDataTypeName (lit "unsignedInt[:") 0 4294967295; info DSLH_CWMP_DATA_TYPE_unsignedInt v
        else if bool_decide (name = lit "boolean") then info DSLH_CWMP_DATA_TYPE_boolean (0, 0)
        else if bool_decide (name = lit "dateTime") then info DSLH_CWMP_DATA_TYPE_dateTime (19, 25)
        else info DSLH_CWMP_DATA_TYPE_string (0, 0)
    | _ => Done None
    end.

(** ** Syntaxes *)

Definition DSLH_SYNTAX_TOKEN_SEPARATORS : cstr := lit "/".

Fixpoint by_name {A} (table : list (string * A)) (name : cstr) (dflt : A) : A :=
  match table with
  | [] => dflt
  | (n, v) :: table => if bool_decide (lit n = name) then v else by_name table name dflt
  end.

Definition syntax_names : list (string * SLAP_VAR_SYNTAX) := [
  ("bool", SLAP_VAR_SYNTAX_bool); ("int", SLAP_VAR_SYNTAX_int); ("string", SLAP_VAR_SYNTAX_string);
  ("uint32", SLAP_VAR_SYNTAX_uint32); ("int", SLAP_VAR_SYNTAX_int); ("handle", SLAP_VAR_SYNTAX_handle);
  ("other", SLAP_VAR_SYNTAX_other); ("boolArray", SLAP_VAR_SYNTAX_boolArray);
  ("charArray", SLAP_VAR_SYNTAX_charArray); ("intArray", SLAP_VAR_SYNTAX_intArray);
  ("stringArray", SLAP_VAR_SYNTAX_stringArray); ("ucharArray", SLAP_VAR_SYNTAX_ucharArray);
  ("uint32Array", SLAP_VAR_SYNTAX_uint32Array); ("ptrArray", SLAP_VAR_SYNTAX_ptrArray);
  ("handleArray", SLAP_VAR_SYNTAX_handleArray); ("objectArray", SLAP_VAR_SYNTAX_objectArray);
  ("variable", SLAP_VAR_SYNTAX_variable)]%string.

Definition content_names : list (string * SLAP_CONTENT_TYPE) := [
  ("mapped", SLAP_CONTENT_TYPE_MAPPED); ("ip4_addr", SLAP_CONTENT_TYPE_IP4_ADDR);
  ("calendar_time", SLAP_CONTENT_TYPE_CALENDAR_TIME); ("ip6_addr", SLAP_CONTENT_TYPE_IP6_ADDR);
  ("ip6_addr_list", SLAP_CONTENT_TYPE_IP6_ADDR_LIST); ("ascii_string", SLAP_CONTENT_TYPE_ASCII_STRING);
  ("hex_string", SLAP_CONTENT_TYPE_HEX_STRING); ("url", SLAP_CONTENT_TYPE_URL_STRING);
  ("subnet_mask", SLAP_CONTENT_TYPE_SUBNET_MASK); ("mac_addr", SLAP_CONTENT_TYPE_MAC_ADDR);
  ("ip4_addr_list", SLAP_CONTENT_TYPE_IP4_ADDR_LIST);
  ("ip4_addr_range_list", SLAP_CONTENT_TYPE_IP4_ADDR_RANGE_LIST);
  ("mac_addr_list", SLAP_CONTENT_TYPE_MAC_ADDR_LIST); ("tcpudp_port", SLAP_CONTENT_TYPE_TCPUDP_PORT);
  ("password", SLAP_CONTENT_TYPE_PASSWORD); ("masked", SLAP_CONTENT_TYPE_MASKED);
  ("oid_list", SLAP_CONTENT_TYPE_OID_LIST); ("unspecified", SLAP_CONTENT_TYPE_UNSPECIFIED)]%string.

Definition DslhWmpdoParseParamSyntax (pSyntaxString : option cstr)
  : outcome (option (SLAP_VAR_SYNTAX * SLAP_CONTENT_TYPE)) :=
  r ← AnscTcAllocate pSyntaxString DSLH_SYNTAX_TOKEN_SEPARATORS [];
  match fst r with
  | None => Done None
  | Some chain =>
      let '(pTokenSyntax, chain) := AnscTcPopToken chain in
      let '(pTokenContentType, chain) := AnscTcPopToken chain in
      syn ← match pTokenSyntax with
            | None => Done SLAP_VAR_SYNTAX_string
            | Some t => s ← token_name t; Done (by_name syntax_names s SLAP_VAR_SYNTAX_string)
            end;
      ct ← match pTokenContentType with
           | None => Done SLAP_CONTENT_TYPE_UNSPECIFIED
           | Some t => s ← token_name t; Done (by_name content_names s SLAP_CONTENT_TYPE_UNSPECIFIED)
           end;
      Done (Some (syn, ct))
  end.

(** ** Listed values *)

(** [for ( i = 0; i < ulTokenCount / 2; i++ )]: pairs of a name, whose leading
    spaces are skipped, and a code. *)
Fixpoint enum_tokens (chain : ANSC_TOKEN_CHAIN) (TokenTable : list DSLH_VAREO_TOKEN_VALUE)
  : outcome (list DSLH_VAREO_TOKEN_VALUE) :=
  match chain with
  | pTokenEnumString :: pTokenEnumCode :: chain =>
      s ← token_name pTokenEnumString; c ← token_name pTokenEnumCode;
      let ulCharOffset := until (fun c => negb (c =? 32)) s in
      enum_tokens chain (DslhVareoAddTokenValue TokenTable (drop ulCharOffset s) (ulong_atoi c))
  | _ => Done TokenTable
  end.
Definition DslhWmpdoParseParamEnumTokens (TokenTable : option (list DSLH_VAREO_TOKEN_VALUE)) (pEnumTokens : cstr)
  : outcome (option (list DSLH_VAREO_TOKEN_VALUE)) :=
  r ← AnscTcAllocate (Some pEnumTokens) (lit ",;()[]{}") [];
  match fst r with
  | None => Done TokenTable
  | Some chain => Some <$> enum_tokens chain []
  end.

(** ** Registering a parameter

    The part of [DslhWmpdoMprRegParameter] that makes the entity from the
    descriptor of the parameter. *)
Definition RegParameter_entity (pParamDescr : DSLH_CWMP_PARAM_DESCR)
    (pDataType pSyntax : option cstr) : outcome (option DSLH_VAR_ENTITY) :=
  match pDataType with
  | None => Done None
  | Some pDataType =>
      dt ← DslhWmpdoParseParamDataType pDataType;
      match dt, pSyntax with
      | None, _ | _, None => Done None
      | Some dt, Some pSyntax =>
          sy ← DslhWmpdoParseParamSyntax (Some pSyntax);
          match sy with
          | None => Done None
          | Some (syn, ct) =>
              tokens ← match dt_EnumTokens dt with
                       | None => Done None
                       | Some e => DslhWmpdoParseParamEnumTokens None e
                       end;
              Done (Some (VarEntity pParamDescr (dt_DataType dt) syn
                (if bool_decide (dt_DataType dt = DSLH_CWMP_DATA_TYPE_dateTime) then SLAP_CONTENT_TYPE_CALENDAR_TIME else ct)
                (dt_FormatValue1 dt) (dt_FormatValue2 dt) tokens))
          end
      end
  end.

End parse.

(** ** Declared limits are read back *)

Section limits.
Context `{Platform}.

Lemma int_text_chars i : - 2 ^ 31 <= i < 2 ^ 31 ->
  Forall (fun c => c = 45 \/ is_digit c) (SlapVcoIntToString i) /\ SlapVcoIntToString i ≠ [] /\
  fits (SlapVcoIntToString i).
Proof.
  intros Hi. cbn in Hi. unfold SlapVcoIntToString.
  assert (Hd : forall v, 0 <= v < 10 ^ 10 -> Forall (fun c => c = 45 \/ is_digit c) (fmt_u 10 v) /\ fmt_u 10 v ≠ [] /\
    (length (fmt_u 10 v) <= 10)%nat).
  { intros v Hv. destruct (fmt_u_dec 9 v Hv) as (Hs & Hval & c & r & E & Hc). split_and!.
    - eapply Forall_impl; [exact Hs|]. by right.
    - by rewrite E.
    - destruct (decide (v = 0)) as [->|Hnz]; [by cbn; lia|].
      pose proof (decimal_length v (fmt_u 10 v) (fmt_u_dec 9 v Hv) ltac:(lia)) as [Hlow _].
      destruct (decide (length (fmt_u 10 v) <= 10)%nat) as [|Hgt]; [done|].
      assert (10 ^ 10 <= 10 ^ (Zlen (fmt_u 10 v) - 1)) by (apply Z.pow_le_mono_r; lia). lia. }
  destruct (Z.ltb_spec i 0).
  - destruct (Hd (- i)) as (Hs & Hne & Hl); [cbn; lia|].
    split_and!; [constructor; [by left|done]|done|unfold fits, strlen, ANSC_URI_PATH_SIZE; cbn [length]; lia].
  - destruct (Hd i) as (Hs & Hne & Hl); [cbn; lia|].
    split_and!; [done|done|unfold fits, strlen, ANSC_URI_PATH_SIZE; lia].
Qed.

Lemma ulong_atoi_text i : - 2 ^ 31 <= i < 2 ^ 31 -> ulong_atoi (SlapVcoIntToString i) = ULONG i.
Proof.
  intros Hi. unfold ulong_atoi. f_equal. pose proof (atoll_int i Hi) as E. unfold atoll in E. unfold atol.
  cbn in Hi. rewrite INT_small; destruct ulong_bits_ok as [-> | ->]; cbn in *; lia.
Qed.

(** The declaration of an integer type with both limits. *)
Definition declared (name : cstr) (lo hi : Z) : cstr :=
  name ++ [91] ++ SlapVcoIntToString lo ++ [58] ++ SlapVcoIntToString hi ++ [93].

Lemma declared_words name lo hi :
  - 2 ^ 31 <= lo < 2 ^ 31 -> - 2 ^ 31 <= hi < 2 ^ 31 -> name ≠ [] -> Forall (.∉ DSLH_DATA_TYPE_LIMIT_SEPARATORS) name ->
  words DSLH_DATA_TYPE_LIMIT_SEPARATORS (declared name lo hi) = [name; SlapVcoIntToString lo; SlapVcoIntToString hi].
Proof.
  intros Hlo Hhi Hne Hn. unfold declared.
  assert (Hi : forall i, - 2 ^ 31 <= i < 2 ^ 31 -> Forall (.∉ DSLH_DATA_TYPE_LIMIT_SEPARATORS) (SlapVcoIntToString i)).
  { intros i Hi. destruct (int_text_chars i Hi) as (Hs & _). eapply Forall_impl; [exact Hs|].
    cbn beta. intros c Hc Hin. assert (Hf : Forall (fun x => ~ (x = 45 \/ is_digit x)) DSLH_DATA_TYPE_LIMIT_SEPARATORS)
      by (refine (bool_decide_eq_true_1 _ _); by vm_compute).
    eapply Forall_forall in Hf; [|exact Hin]. done. }
  assert (H91 : 91 ∈ DSLH_DATA_TYPE_LIMIT_SEPARATORS) by (by do 2 right; left).
  assert (H93 : 93 ∈ DSLH_DATA_TYPE_LIMIT_SEPARATORS) by (by do 3 right; left).
  assert (H58 : 58 ∈ DSLH_DATA_TYPE_LIMIT_SEPARATORS) by (by do 4 right; left).
  rewrite words_word; [|done|done|by intros ? [= <-]]. f_equal.
  rewrite words_skip by by apply Forall_singleton.
  rewrite words_word; [|by apply Hi|by apply int_text_chars|by intros ? [= <-]]. f_equal.
  rewrite words_skip by by apply Forall_singleton.
  rewrite words_word; [|by apply Hi|by apply int_text_chars|by intros ? [= <-]]. done.
Qed.

Lemma in_alphabet (alphabet s : cstr) : bool_decide (Forall (.∈ alphabet) s) = forallb (fun c => bool_decide (c ∈ alphabet)) s.
Proof.
  induction s as [|c s IH]; [done|]. cbn [forallb].
  rewrite (bool_decide_ext (Forall _ (c :: s)) _ (Forall_cons _ _ _)), bool_decide_and. by rewrite IH.
Qed.

Lemma int_text_limit i : - 2 ^ 31 <= i < 2 ^ 31 ->
  Forall (.∈ DSLH_DATA_TYPE_LIMIT_ALPHABETS) (SlapVcoIntToString i) /\
  ~ Forall (.∈ DSLH_DATA_TYPE_TOKEN_ALPHABETS) (SlapVcoIntToString i).
Proof.
  intros Hi. destruct (int_text_chars i Hi) as (Hs & Hne & _). split.
  - eapply Forall_impl; [exact Hs|]. cbn beta. unfold is_digit. intros c Hc.
    assert (Hc' : c ∈ [45; 48; 49; 50; 51; 52; 53; 54; 55; 56; 57]) by (rewrite !elem_of_cons; lia).
    clear Hc. revert c Hc'. apply Forall_forall. refine (bool_decide_eq_true_1 _ _). by vm_compute.
  - destruct (SlapVcoIntToString i) as [|c s]; [done|]. intros [Hc _]%Forall_cons. apply Forall_cons in Hs as [Hd _].
    assert (Hf : Forall (fun x => ~ (x = 45 \/ is_digit x)) DSLH_DATA_TYPE_TOKEN_ALPHABETS).
    { refine (bool_decide_eq_true_1 _ _). by vm_compute. }
    eapply Forall_forall in Hf; [|exact Hc]. done.
Qed.

Lemma strstr_absent c needle s : c ∈ needle -> c ∉ s -> strstr s needle = None.
Proof.
  intros Hc. induction s as [|x s IH]; intros Hs; cbn [strstr]; unfold is_prefix.
  - rewrite bool_decide_false; [done|]. rewrite take_nil. intros <-. by apply not_elem_of_nil in Hc.
  - rewrite bool_decide_false; [apply IH; by intros Hin; apply Hs; right|].
    intros E. apply Hs. rewrite <-E in Hc. eapply list_elem_of_lookup in Hc as [i Hi]. apply lookup_take_Some in Hi as [Hi _]. by eapply list_elem_of_lookup_2.
Qed.

Lemma declared_chars name lo hi : - 2 ^ 31 <= lo < 2 ^ 31 -> - 2 ^ 31 <= hi < 2 ^ 31 ->
  Forall (fun c => c ∈ name \/ 45 <= c <= 58 \/ c = 91 \/ c = 93) (declared name lo hi).
Proof.
  intros Hlo Hhi. unfold declared.
  assert (Hi : forall i, - 2 ^ 31 <= i < 2 ^ 31 -> Forall (fun c => c ∈ name \/ 45 <= c <= 58 \/ c = 91 \/ c = 93) (SlapVcoIntToString i)).
  { intros i Hi. destruct (int_text_chars i Hi) as (Hs & _). eapply Forall_impl; [exact Hs|]. unfold is_digit. intros c Hc. lia. }
  repeat (apply Forall_app; split); try (by apply Hi); try (apply Forall_singleton; lia).
  apply Forall_forall. by left.
Qed.

Lemma limit_tokens_declared name lo hi :
  - 2 ^ 31 <= lo < 2 ^ 31 -> - 2 ^ 31 <= hi < 2 ^ 31 -> name ≠ [] -> wf_cstr name ->
  Forall (.∉ DSLH_DATA_TYPE_LIMIT_SEPARATORS) name -> ~ Forall (.∈ DSLH_DATA_TYPE_LIMIT_ALPHABETS) name ->
  wf_cstr (declared name lo hi) /\
  limit_tokens (declared name lo hi) = Done (Some (SlapVcoIntToString lo), Some (SlapVcoIntToString hi)).
Proof.
  intros Hlo Hhi Hne Hwn Hs Ha.
  assert (Hw : wf_cstr (declared name lo hi)).
  { eapply Forall_impl; [by apply declared_chars|]. cbn beta. intros c [Hc|Hc]; [|lia]. eapply Forall_forall in Hwn; [exact Hwn|exact Hc]. }
  split; [done|]. unfold limit_tokens. rewrite AnscTcAllocate2_emit by done. cbn [next_alloc negb].
  unfold words2. rewrite declared_words by done.
  rewrite filter_cons_False by done. rewrite !filter_cons_True by by apply int_text_limit.
  change (filter _ []) with (@nil cstr).
  destruct (int_text_chars lo Hlo) as (Hcl & _ & Fl), (int_text_chars hi Hhi) as (Hch & _ & Fh).
  rewrite emit_fits by (repeat constructor; done). cbn [fmap list_fmap app mbind outcome_bind fst].
  assert (Hwf : forall i, Forall (fun c => c = 45 \/ is_digit c) (SlapVcoIntToString i) -> wf_cstr (SlapVcoIntToString i)).
  { intros i Hi. eapply Forall_impl; [exact Hi|]. unfold is_digit. intros c Hc. lia. }
  rewrite (token_name_of (SlapVcoIntToString lo)) by auto. cbn [mbind outcome_bind].
  rewrite (token_name_of (SlapVcoIntToString hi)) by auto. done.
Qed.

(** "int[lo:hi]" and "unsignedInt[lo:hi]" *)
Lemma parse_declared (signed : bool) lo hi :
  - 2 ^ 31 <= lo < 2 ^ 31 -> - 2 ^ 31 <= hi < 2 ^ 31 ->
  DslhWmpdoParseParamDataType (declared (if signed then lit "int" else lit "unsignedInt") lo hi) =
  Done (Some (DataTypeInfo (if signed then DSLH_CWMP_DATA_TYPE_int else DSLH_CWMP_DATA_TYPE_unsignedInt)
                (ULONG lo) (ULONG hi) None)).
Proof.
  intros Hlo Hhi. set (name := if signed then _ else _).
  assert (Hn : name ≠ [] /\ wf_cstr name /\ Forall (.∉ DSLH_DATA_TYPE_LIMIT_SEPARATORS) name /\
    ~ Forall (.∈ DSLH_DATA_TYPE_LIMIT_ALPHABETS) name /\ Forall (.∈ DSLH_DATA_TYPE_TOKEN_ALPHABETS) name /\ 114 ∉ name /\ fits name).
  { unfold name, wf_cstr, fits. destruct signed; (refine (bool_decide_eq_true_1 _ _); by vm_compute). }
  destruct Hn as (Hne & Hwn & Hs & Ha & Ht & Hr & Hf).
  destruct (limit_tokens_declared name lo hi) as [Hw El]; [done..|].
  unfold DslhWmpdoParseParamDataType.
  assert (E0 : is_prefix (lit "base64") (declared name lo hi) = false) by by destruct signed.
  rewrite E0, (strstr_absent 114); [|by do 2 right; left|].
  2:{ intros Hin. eapply Forall_forall in Hin; [|by apply (declared_chars name lo hi)]. cbn beta in Hin.
      destruct Hin as [?|Hin]; [done|lia]. }
  rewrite AnscTcAllocate2_emit by done. cbn [next_alloc negb]. unfold words2.
  change DSLH_DATA_TYPE_TOKEN_SEPARATORS with DSLH_DATA_TYPE_LIMIT_SEPARATORS. rewrite declared_words by done.
  rewrite filter_cons_True by done. rewrite !filter_cons_False by by apply int_text_limit.
  change (filter _ []) with (@nil cstr).
  rewrite emit_fits by (by repeat constructor). cbn [fmap list_fmap app mbind outcome_bind fst].
  rewrite token_name_of by done. cbn [mbind outcome_bind].
  assert (Hl : forall p a b, int_limits (declared name lo hi) p a b = Done (ULONG lo, ULONG hi)).
  { intros p a b. unfold int_limits. rewrite El. cbn [mbind outcome_bind]. by rewrite !ulong_atoi_text. }
  destruct signed; unfold name in *; repeat (rewrite bool_decide_false by done);
    rewrite bool_decide_true by done; by rewrite Hl.
Qed.

End limits.
