(* ===== verification/VarRecord.v ===== *)
(** * Records of parameters ([DslhVarRecord/dslh_varro_access.c, dslh_varro_states.c])

    A record stands for one parameter of one object.  A new value is first
    tested against the declaration of the parameter; a value that passes is kept
    in the record, as the caller gave it and converted, until the change is
    committed or cancelled.  The value itself lives in the backend of the
    object.  Allocations succeed. *)

From S2P Require Import Prelude CStrings Tokens IpAddr SlapVar SlapConv VarEntity VarValid.
Open Scope Z_scope.

Record DSLH_VAR_RECORD := VarRecord {
  hDslhVarEntity : DSLH_VAR_ENTITY;
  AccessList : option cstr;
  TempParamValue : option SLAP_VARIABLE;
  TempParamValueTrans : option SLAP_VARIABLE;
  OldParamValue : option SLAP_VARIABLE;
  bAlreadySet : bool;
  vr_ReqSenderID : Z;
  bUserChanged : bool;
  bUserChangeFlagLoaded : bool }.

#[export] Instance var_record_eq_dec : EqDecision DSLH_VAR_RECORD.
Proof. solve_decision. Defined.

(** Assignments to the fields. *)
Definition set_pending (temp trans old : option SLAP_VARIABLE) (set : bool) (r : DSLH_VAR_RECORD) : DSLH_VAR_RECORD :=
  VarRecord (hDslhVarEntity r) (AccessList r) temp trans old set
    (vr_ReqSenderID r) (bUserChanged r) (bUserChangeFlagLoaded r).
Definition set_ReqSenderID (writeID : Z) (r : DSLH_VAR_RECORD) : DSLH_VAR_RECORD :=
  VarRecord (hDslhVarEntity r) (AccessList r) (TempParamValue r) (TempParamValueTrans r) (OldParamValue r)
    (bAlreadySet r) writeID (bUserChanged r) (bUserChangeFlagLoaded r).
Definition set_user_flag (changed loaded : bool) (r : DSLH_VAR_RECORD) : DSLH_VAR_RECORD :=
  VarRecord (hDslhVarEntity r) (AccessList r) (TempParamValue r) (TempParamValueTrans r) (OldParamValue r)
    (bAlreadySet r) (vr_ReqSenderID r) changed loaded.

Definition ParamDescr_of (r : DSLH_VAR_RECORD) : DSLH_CWMP_PARAM_DESCR := ve_ParamDescr (hDslhVarEntity r).

(** ** States ([dslh_varro_states.c]) *)

Definition DslhVarroGetLastName (r : DSLH_VAR_RECORD) : cstr := pd_Name (ParamDescr_of r).

Definition DSLH_OBJCONTROLLER_PARAM_WRITE_NOTCHANGE : Z := 0.
Definition DSLH_OBJCONTROLLER_PARAM_WRITE_NO : Z := 1.
(** [uValue]: what the controller of the object says of the parameter. *)
Definition DslhVarroIsRecordWritable (uValue : Z) (r : DSLH_VAR_RECORD) : bool :=
  if uValue =? DSLH_OBJCONTROLLER_PARAM_WRITE_NOTCHANGE then bWritable (ParamDescr_of r)
  else negb (uValue =? DSLH_OBJCONTROLLER_PARAM_WRITE_NO).

(** The values of a pending change are gone. *)
Definition drop_pending (r : DSLH_VAR_RECORD) : DSLH_VAR_RECORD := set_pending None None None false r.
Definition DslhVarroCommitChange (r : DSLH_VAR_RECORD) : DSLH_VAR_RECORD := drop_pending r.
Definition DslhVarroCancelChange (r : DSLH_VAR_RECORD) : DSLH_VAR_RECORD := drop_pending r.

(** [if ( TRUE ) return ANSC_STATUS_SUCCESS;]: nothing is set here. *)
Definition DslhVarroSetValue (r : DSLH_VAR_RECORD) (pNewValue : SLAP_VARIABLE) : DSLH_VAR_RECORD := r.
Definition DslhVarroSynValue (r : DSLH_VAR_RECORD) : DSLH_VAR_RECORD := r.

Section record.
Context `{Platform}.
Variable inet_addr : cstr -> list Z.
Variable b64_decode : list Z -> list Z.

(** ** Testing a value *)

Definition AnscIsThisValidInputString (pString invalid_chars : cstr) : bool :=
  negb (existsb (fun c => existsb (fun x => c =? x) invalid_chars) pString).

(** A string variable after its text was changed in place. *)
Definition set_varString (v : SLAP_VARIABLE) (s : option cstr) : SLAP_VARIABLE :=
  SlapVariable (VarName v) (ContentType v) (UsageType v) (VarString s) (ReqSenderID v).

(** [FormatValue1] as the longest length of a text. *)
Definition too_long (FormatValue1 : Z) (s : option cstr) : bool :=
  negb (FormatValue1 =? 0) && negb (FormatValue1 =? 4294967295) &&
  match s with Some s => FormatValue1 <? strlen s | None => false end.

(** The check of a text that is not NULL by its content type: whether it
    passes, and the text as the check leaves it. *)
Definition content_check (ct : SLAP_CONTENT_TYPE) (s : cstr) : outcome (bool * cstr) :=
  let on_text (r : outcome (bool * option cstr)) := x ← r; Done (fst x, default s (snd x)) in
  match ct with
  | SLAP_CONTENT_TYPE_IP4_ADDR => b ← AnscIsValidIpString (Some s) []; Done (b, s)
  | SLAP_CONTENT_TYPE_MAC_ADDR => Done (DslhVarroIsValidMacAddress (Some s), s)
  | SLAP_CONTENT_TYPE_IP4_ADDR_LIST => on_text (DslhVarroIsValidIpAddList (Some s))
  | SLAP_CONTENT_TYPE_IP4_ADDR_RANGE_LIST => on_text (DslhVarroIsValidIpAddRangeList inet_addr (Some s))
  | SLAP_CONTENT_TYPE_IP6_ADDR => b ← AnscIsValidIp6String inet_addr s []; Done (b, s)
  | SLAP_CONTENT_TYPE_IP6_ADDR_LIST => on_text (DslhVarroIsValidIp6AddList inet_addr (Some s))
  | SLAP_CONTENT_TYPE_MAC_ADDR_LIST => on_text (DslhVarroIsValidMacAddList (Some s))
  | SLAP_CONTENT_TYPE_HEX_STRING => Done (DslhVarroIsValidHexString (Some s), s)
  | SLAP_CONTENT_TYPE_CALENDAR_TIME => b ← DslhVarroIsValidCalendarString (Some s); Done (b, s)
  | SLAP_CONTENT_TYPE_URL_STRING => b ← DslhVarroIsValidUrlString s; Done (b, s)
  | SLAP_CONTENT_TYPE_SUBNET_MASK => b ← DslhVarroIsValidMaskString (Some s); Done (b, s)
  | _ => Done (true, s)
  end.

(** What a check of a value against the data type yields: the value as the
    check leaves it and, unless it is refused, the token that the text names. *)
Abbreviation type_check := (option (option DSLH_VAREO_TOKEN_VALUE) * SLAP_VARIABLE)%type.
Definition refuse (v : SLAP_VARIABLE) : outcome type_check := Done (None, v).
Definition pass (v : SLAP_VARIABLE) : outcome type_check := Done (Some None, v).

(** The text of a parameter of type string or dateTime, by its tokens or its
    content type. *)
Definition check_text (e : DSLH_VAR_ENTITY) (pNewValue : SLAP_VARIABLE) (s : option cstr) : outcome type_check :=
  if bool_decide (is_Some (TokenTable e)) && bool_decide (ve_ContentType e = SLAP_CONTENT_TYPE_MAPPED) then
    match s with
    | None => refuse pNewValue
    | Some s =>
        t ← DslhVareoGetTokenValueByString e s;
        match t with None => refuse pNewValue | Some t => Done (Some (Some t), pNewValue) end
    end
  else
    match s with
    | None => pass pNewValue
    | Some s =>
        r ← content_check (ve_ContentType e) s;
        let '(ok, s) := (r : bool * cstr) in
        let v := set_varString pNewValue (Some s) in
        if ok then pass v else refuse v
    end.

(** The first half of the test, up to the check of the controller: the value
    against the data type. *)
Definition check_data_type (e : DSLH_VAR_ENTITY) (pNewValue : SLAP_VARIABLE) : outcome type_check :=
  match DataType e, Variant pNewValue with
  | DSLH_CWMP_DATA_TYPE_base64, VarString s =>
      if too_long (FormatValue1 e) s then refuse pNewValue
      else
        ok ← DslhVarroIsValidBase64String b64_decode s;
        if (ok : bool) then pass pNewValue else refuse pNewValue
  | DSLH_CWMP_DATA_TYPE_dateTime, VarString s =>
      let bad_length :=
        match s with
        | None => true
        | Some s => negb (strlen s =? FormatValue1 e) && negb (strlen s =? ULONG (FormatValue1 e + 1))
        end in
      if bad_length then refuse pNewValue else check_text e pNewValue s
  | DSLH_CWMP_DATA_TYPE_string, VarString s =>
      let prevented :=
        match PreventCharecters (ve_ParamDescr e), s with
        | Some p, Some s => (0 <? strlen p) && negb (AnscIsThisValidInputString s p)
        | _, _ => false
        end in
      if too_long (FormatValue1 e) s || prevented then refuse pNewValue else check_text e pNewValue s
  | DSLH_CWMP_DATA_TYPE_int, VarInt i =>
      if (i <? INT (FormatValue1 e)) || (INT (FormatValue2 e) <? i) then refuse pNewValue else pass pNewValue
  | DSLH_CWMP_DATA_TYPE_unsignedInt, VarUint32 u =>
      if (u <? FormatValue1 e) || (FormatValue2 e <? u) then refuse pNewValue else pass pNewValue
  | DSLH_CWMP_DATA_TYPE_boolean, VarBool _ | DSLH_CWMP_DATA_TYPE_boolean, VarInt _
  | DSLH_CWMP_DATA_TYPE_boolean, VarUint32 _ => pass pNewValue
  | _, _ => refuse pNewValue
  end.

(** [SlapAllocVariable] of a converted value: a number, or a copy of the text. *)
Definition trans_uint32 (u : Z) : SLAP_VARIABLE :=
  SlapVariable None SLAP_CONTENT_TYPE_UNSPECIFIED 0 (VarUint32 u) 0.
Definition trans_string (s : cstr) : SLAP_VARIABLE :=
  SlapVariable None SLAP_CONTENT_TYPE_UNSPECIFIED 0 (VarString (Some s)) 0.

(** The content types that accept a NULL text. *)
Definition null_accepted (ct : SLAP_CONTENT_TYPE) : bool :=
  match ct with
  | SLAP_CONTENT_TYPE_IP4_ADDR_LIST | SLAP_CONTENT_TYPE_IP4_ADDR | SLAP_CONTENT_TYPE_IP4_ADDR_WILDCARD
  | SLAP_CONTENT_TYPE_HEX_STRING | SLAP_CONTENT_TYPE_CALENDAR_TIME | SLAP_CONTENT_TYPE_URL_STRING
  | SLAP_CONTENT_TYPE_SUBNET_MASK | SLAP_CONTENT_TYPE_MAC_ADDR | SLAP_CONTENT_TYPE_IP6_ADDR
  | SLAP_CONTENT_TYPE_IP6_ADDR_LIST | SLAP_CONTENT_TYPE_MAC_ADDR_LIST
  | SLAP_CONTENT_TYPE_IP4_ADDR_RANGE_LIST => true
  | _ => false
  end.

(** The second half of the test: the result, and the converted value when the
    content type makes one.  The backend is not asked ([bTestBypass]). *)
Definition convert_value (e : DSLH_VAR_ENTITY) (token : option DSLH_VAREO_TOKEN_VALUE) (pNewValue : SLAP_VARIABLE)
  : outcome (bool * option SLAP_VARIABLE) :=
  match ve_ContentType e with
  | SLAP_CONTENT_TYPE_UNSPECIFIED =>
      Done (match ve_Syntax e with
            | SLAP_VAR_SYNTAX_bool | SLAP_VAR_SYNTAX_int | SLAP_VAR_SYNTAX_string | SLAP_VAR_SYNTAX_ucharArray
            | SLAP_VAR_SYNTAX_uint32 | SLAP_VAR_SYNTAX_handle => true
            | _ => false
            end, None)
  | ct =>
      match varString pNewValue with
      | None => Done (null_accepted ct, None)
      | Some read =>
          match ct with
          | SLAP_CONTENT_TYPE_MAPPED =>
              t ← match token with
                  | Some t => Done (Some t)
                  | None => match TokenTable e with
                            | None => Stuck NullDeref
                            | Some [] => Done None
                            | Some _ => s ← read; DslhVareoGetTokenValueByString e s
                            end
                  end;
              Done (match t with Some t => (true, Some (trans_uint32 (EnumCode t))) | None => (false, None) end)
          | SLAP_CONTENT_TYPE_IP4_ADDR | SLAP_CONTENT_TYPE_SUBNET_MASK | SLAP_CONTENT_TYPE_IP4_ADDR_WILDCARD =>
              s ← read;
              let ulIp4Addr := if strlen s =? 0 then 0 else SlapVcoStringToIp4Addr inet_addr (Some s) in
              Done (true, Some (trans_uint32 ulIp4Addr))
          | SLAP_CONTENT_TYPE_MAC_ADDR =>
              s ← read; a ← SlapVcoStringToMacAddr (Some s);
              Done (true, Some (trans_string s))
          | SLAP_CONTENT_TYPE_IP6_ADDR =>
              s ← read; a ← SlapVcoStringToIp6Addr inet_addr s;
              Done (match a with Some _ => (true, Some (trans_string s)) | None => (false, None) end)
          | SLAP_CONTENT_TYPE_IP6_ADDR_LIST =>
              s ← read; a ← SlapVcoStringToIp6AddrList inet_addr (Some s);
              Done (match a with Some _ => (true, Some (trans_string s)) | None => (false, None) end)
          | SLAP_CONTENT_TYPE_IP4_ADDR_LIST =>
              s ← read; a ← SlapVcoStringToIp4AddrList inet_addr (Some s);
              Done (match a with Some _ => (true, Some (trans_string s)) | None => (false, None) end)
          | SLAP_CONTENT_TYPE_IP4_ADDR_RANGE_LIST => s ← read; Done (true, Some (trans_string s))
          | SLAP_CONTENT_TYPE_MAC_ADDR_LIST =>
              s ← read; a ← SlapVcoStringToMacAddrList (Some s);
              Done (match a with Some _ => (true, Some (trans_string s)) | None => (false, None) end)
          | SLAP_CONTENT_TYPE_CALENDAR_TIME =>
              s ← read; t ← SlapVcoStringToCalendarTime (Some s);
              Done (true, Some (trans_string s))
          | SLAP_CONTENT_TYPE_HEX_STRING | SLAP_CONTENT_TYPE_URL_STRING => Done (true, None)
          | _ => Done (false, None)
          end
      end
  end.

(** [bGroupCommit] is the flag of the object; the object has a controller. *)
Definition DslhVarroTstValue (bGroupCommit : bool) (r : DSLH_VAR_RECORD) (pNewValue : SLAP_VARIABLE)
  : outcome (bool * DSLH_VAR_RECORD * SLAP_VARIABLE) :=
  let e := hDslhVarEntity r in
  c ← check_data_type e pNewValue;
  match c with
  | (None, v) => Done (false, r, v)
  | (Some token, v) =>
      t ← convert_value e token v;
      let '(bTestResult, trans) := t in
      let r := match trans with
               | Some x => set_pending (TempParamValue r) (Some x) (OldParamValue r) (bAlreadySet r) r
               | None => r
               end in
      let r := if bTestResult && (bPersistent (ve_ParamDescr e) || bGroupCommit)
               then set_pending (Some (SlapVhoCloneVariable v SlapInitVariable)) (TempParamValueTrans r)
                      (OldParamValue r) (bAlreadySet r) r
               else r in
      Done (bTestResult, r, v)
  end.

(** ** Reading the value *)

(** A variable of a syntax with nothing in it. *)
Definition empty_variant (s : SLAP_VAR_SYNTAX) : SLAP_VARIANT :=
  match s with
  | SLAP_VAR_SYNTAX_bool => VarBool 0
  | SLAP_VAR_SYNTAX_int => VarInt 0
  | SLAP_VAR_SYNTAX_string => VarString None
  | SLAP_VAR_SYNTAX_ucharArray => VarUcharArray None
  | SLAP_VAR_SYNTAX_uint32 => VarUint32 0
  | SLAP_VAR_SYNTAX_uint32Array => VarUint32Array None
  | SLAP_VAR_SYNTAX_handle => VarHandle None
  | _ => VarOther
  end.

(** What a parameter kept in the repository reads as. *)
Definition persistent_value (e : DSLH_VAR_ENTITY) : SLAP_VARIABLE :=
  SlapVariable None SLAP_CONTENT_TYPE_UNSPECIFIED 0
    (match ve_Syntax e with SLAP_VAR_SYNTAX_bool => VarBool 1 | s => empty_variant s end) 0.

(** [get name v]: what the controller of the object makes of the variable [v]
    that is to take the value of the parameter [name]. *)
Definition DslhVarroGetValue (bGroupCommit : bool) (get : cstr -> SLAP_VARIABLE -> outcome (option SLAP_VARIABLE))
    (r : DSLH_VAR_RECORD) : outcome (option SLAP_VARIABLE) :=
  let e := hDslhVarEntity r in
  if bPersistent (ve_ParamDescr e) then
    match TempParamValue r with
    | Some v => if bGroupCommit then Done (Some (SlapVhoCloneVariable v SlapInitVariable))
                else Done (Some (persistent_value e))
    | None => Done (Some (persistent_value e))
    end
  else
    get (DslhVarroGetLastName r)
      (SlapVariable (Some (pd_Name (ve_ParamDescr e))) (ve_ContentType e) 0 (empty_variant (ve_Syntax e)) 0).

Definition DslhVarroSaveOldValue (bGroupCommit : bool) (get : cstr -> SLAP_VARIABLE -> outcome (option SLAP_VARIABLE))
    (r : DSLH_VAR_RECORD) : outcome DSLH_VAR_RECORD :=
  v ← DslhVarroGetValue bGroupCommit get r;
  Done (set_pending (TempParamValue r) (TempParamValueTrans r) v (bAlreadySet r) r).

End record.

(** ** What a test keeps *)

Section lemmas.
Context `{Platform}.

(** A refusal leaves the record alone; an acceptance keeps the value, as the
    checks leave it, as the pending one, when the object commits as a group. *)
Lemma DslhVarroTstValue_result inet_addr b64_decode r v b r' v' :
  DslhVarroTstValue inet_addr b64_decode true r v = Done (b, r', v') ->
  if b then TempParamValue r' = Some (SlapVhoCloneVariable v' SlapInitVariable) /\
            (exists t, r' = set_pending (TempParamValue r') t (OldParamValue r) (bAlreadySet r) r)
  else r' = r \/ exists t, r' = set_pending (TempParamValue r) t (OldParamValue r) (bAlreadySet r) r.
Proof.
  unfold DslhVarroTstValue. destruct (check_data_type _ _ _ v) as [[[tok|] w]|]; cbn [mbind outcome_bind]; [|by intros [= <- <- <-]; left|done].
  destruct (convert_value _ _ _ w) as [[ok t]|]; cbn [mbind outcome_bind]; [|done].
  rewrite orb_true_r, andb_true_r. intros [= <- <- <-]. destruct ok.
  - destruct t as [t|]; cbn; split; eauto.
  - destruct t as [t|]; eauto.
Qed.

(** A conversion comes only with an acceptance. *)
Lemma convert_refused inet_addr e tok v t : convert_value inet_addr e tok v = Done (false, t) -> t = None.
Proof.
  unfold convert_value. intros E.
  repeat (try discriminate; try (by injection E; auto);
    match type of E with
    | context [@mbind _ _ _ _ _ ?m] => is_var m; destruct m; cbn [mbind outcome_bind] in E
    | context [match ?x with _ => _ end] => destruct x; cbn [mbind outcome_bind] in E
    | context [@mbind _ _ _ _ _ (DslhVareoGetTokenValueByString ?e ?s)] =>
        destruct (DslhVareoGetTokenValueByString e s); cbn [mbind outcome_bind] in E
    | context [@mbind _ _ _ _ _ (?f ?s)] => destruct (f s); cbn [mbind outcome_bind] in E
    end).
Qed.

Lemma DslhVarroTstValue_refused inet_addr b64_decode g r v r' v' :
  DslhVarroTstValue inet_addr b64_decode g r v = Done (false, r', v') -> r' = r.
Proof.
  unfold DslhVarroTstValue. destruct (check_data_type _ _ _ v) as [[[tok|] w]|]; cbn [mbind outcome_bind]; [|by intros [= <- <-]|done].
  destruct (convert_value _ _ _ w) as [[ok t]|] eqn:E; cbn [mbind outcome_bind]; [|done].
  intros [= -> <- <-]. apply convert_refused in E as ->. done.
Qed.

End lemmas.

(** C14. From the declaration to the check: a parameter declared as
    "int[lo:hi]" with limits of 32 bits, or as "unsignedInt[lo:hi]" with limits
    below 2^31, is registered, and from then on the test of a new value of that
    syntax accepts exactly the values between the limits; it keeps an accepted
    value, as given, as the pending one. *)
Theorem declared_range_enforced `{Platform} inet_addr b64_decode (signed : bool) pd lo hi
    (Hlo : (if signed then - 2 ^ 31 else 0) <= lo < 2 ^ 31) (Hhi : (if signed then - 2 ^ 31 else 0) <= hi < 2 ^ 31) :
  exists e,
    RegParameter_entity pd (Some (declared (if signed then lit "int" else lit "unsignedInt") lo hi))
      (Some (if signed then lit "int" else lit "uint32")) = Done (Some e) /\
    forall r v i, hDslhVarEntity r = e -> (if signed then - 2 ^ 31 <= i < 2 ^ 31 else 0 <= i) ->
      Variant v = (if signed then VarInt i else VarUint32 i) ->
      DslhVarroTstValue inet_addr b64_decode true r v =
        Done (if bool_decide (lo <= i <= hi)
              then (true, set_pending (Some (SlapVhoCloneVariable v SlapInitVariable)) (TempParamValueTrans r)
                            (OldParamValue r) (bAlreadySet r) r, v)
              else (false, r, v)).
Proof.
  set (syn := if signed then SLAP_VAR_SYNTAX_int else SLAP_VAR_SYNTAX_uint32).
  assert (Es : DslhWmpdoParseParamSyntax (Some (if signed then lit "int" else lit "uint32")) =
    Done (Some (syn, SLAP_CONTENT_TYPE_UNSPECIFIED))) by by destruct signed; vm_compute.
  assert (Hlo' : - 2 ^ 31 <= lo < 2 ^ 31) by (destruct signed; cbn in *; lia).
  assert (Hhi' : - 2 ^ 31 <= hi < 2 ^ 31) by (destruct signed; cbn in *; lia).
  eexists. split.
  { unfold RegParameter_entity. rewrite parse_declared by done. cbn [mbind outcome_bind].
    rewrite Es. cbn [mbind outcome_bind dt_EnumTokens dt_DataType dt_FormatValue1 dt_FormatValue2]. done. }
  intros r v i He Hi Hv. unfold DslhVarroTstValue. rewrite He. unfold check_data_type. cbn [DataType FormatValue1 FormatValue2].
  assert (Ei : forall x, - 2 ^ 31 <= x < 2 ^ 31 -> INT (ULONG x) = x).
  { intros x Hx. cbn in Hx. unfold INT, ULONG, wrapS, wrapU. destruct ulong_bits_ok as [-> | ->].
    - rewrite Zplus_mod_idemp_l. change (32 - 1) with 31. rewrite Z.mod_small; cbn; lia.
    - rewrite <-Zplus_mod_idemp_l, <-Znumtheory.Zmod_div_mod; [|done|done|by exists (2 ^ 32)].
      rewrite Zplus_mod_idemp_l. change (32 - 1) with 31. rewrite Z.mod_small; cbn; lia. }
  destruct signed; rewrite Hv.
  - rewrite bool_decide_false by done. rewrite !Ei by done.
    destruct (decide (lo <= i <= hi)) as [Hin|Hout].
    + rewrite (bool_decide_true (lo <= i <= hi)), (proj2 (Z.ltb_ge i lo)), (proj2 (Z.ltb_ge hi i)) by lia. cbn. by rewrite orb_true_r.
    + rewrite (bool_decide_false (lo <= i <= hi)) by done. destruct (Z.ltb_spec i lo), (Z.ltb_spec hi i); done || lia.
  - rewrite !ULONG_small32 by (cbn in *; lia).
    destruct (decide (lo <= i <= hi)) as [Hin|Hout].
    + rewrite (bool_decide_true (lo <= i <= hi)), (proj2 (Z.ltb_ge i lo)), (proj2 (Z.ltb_ge hi i)) by lia. cbn. by rewrite orb_true_r.
    + rewrite (bool_decide_false (lo <= i <= hi)) by done. destruct (Z.ltb_spec i lo), (Z.ltb_spec hi i); done || lia.
Qed.

(** A record fresh from its creation. *)
Definition fresh_record (e : DSLH_VAR_ENTITY) : DSLH_VAR_RECORD := VarRecord e None None None None false 0 false false.
Definition plain_descr (name : string) : DSLH_CWMP_PARAM_DESCR := ParamDescr (lit name) false true false false false None.
Definition int_variable (i : Z) : SLAP_VARIABLE := SlapVariable None SLAP_CONTENT_TYPE_UNSPECIFIED 0 (VarInt i) 0.
Definition uint_variable (u : Z) : SLAP_VARIABLE := SlapVariable None SLAP_CONTENT_TYPE_UNSPECIFIED 0 (VarUint32 u) 0.
Definition string_variable (s : cstr) : SLAP_VARIABLE :=
  SlapVariable None SLAP_CONTENT_TYPE_UNSPECIFIED 0 (VarString (Some s)) 0.
Definition registered (name ty syn : string) : outcome (option DSLH_VAR_ENTITY) :=
  let _ := lp64 in RegParameter_entity (plain_descr name) (Some (lit ty)) (Some (lit syn)).

Theorem declared_range_enforced_witness :
  let _ := lp64 in
  declared (lit "int") (-5) 100 = lit "int[-5:100]" /\
  exists e,
    RegParameter_entity (plain_descr "Channel") (Some (lit "int[-5:100]")) (Some (lit "int")) = Done (Some e) /\
    DslhVarroTstValue words_addr (fun _ => []) true (fresh_record e) (int_variable (-6)) =
      Done (false, fresh_record e, int_variable (-6)).
Proof.
  cbn zeta. split; [by vm_compute|].
  destruct (@declared_range_enforced lp64 words_addr (fun _ => []) true (plain_descr "Channel") (-5) 100) as (e & Ee & Hall);
    [lia..|].
  exists e. split; [exact Ee|]. exact (Hall (fresh_record e) (int_variable (-6)) (-6) eq_refl ltac:(lia) eq_refl).
Defined.

(** What declarations do against their purpose: the data type "base64" without
    a length is read past its end when it is registered; a limit of 2^31 or
    more goes through [atoi], so that on a platform of 64 bits the parameter
    then takes every value and on one of 32 bits it refuses allowed ones; and
    the text of a mapped parameter whose type lists no values is looked up in a
    table that is NULL. *)
Theorem declaration_faults :
  (let _ := lp64 in DslhWmpdoParseParamDataType (lit "base64") = Stuck OutOfBounds) /\
  (let _ := lp64 in exists e,
    RegParameter_entity (plain_descr "Rate") (Some (lit "unsignedInt[1:4000000000]")) (Some (lit "uint32")) = Done (Some e) /\
    exists r, DslhVarroTstValue words_addr (fun _ => []) true (fresh_record e) (uint_variable (2 ^ 40)) =
      Done (true, r, uint_variable (2 ^ 40))) /\
  (let _ := ilp32 in exists e,
    RegParameter_entity (plain_descr "Rate") (Some (lit "unsignedInt[1:4000000000]")) (Some (lit "uint32")) = Done (Some e) /\
    DslhVarroTstValue words_addr (fun _ => []) true (fresh_record e) (uint_variable 3000000000) =
      Done (false, fresh_record e, uint_variable 3000000000)) /\
  (let _ := lp64 in exists e,
    RegParameter_entity (plain_descr "Status") (Some (lit "string(16)")) (Some (lit "uint32/mapped")) = Done (Some e) /\
    DslhVarroTstValue words_addr (fun _ => []) true (fresh_record e) (string_variable (lit "Up")) = Stuck NullDeref).
Proof.
  split_and!; cbn zeta; [by vm_compute|..]; eexists; (split; [by vm_compute|]);
    [eexists; by vm_compute|by vm_compute|by vm_compute].
Qed.
