(* ===== verification/ObjRecord.v ===== *)
(** * Records of objects ([DslhObjRecord/dslh_objro_management.c, dslh_objro_rvqif.c])

    The objects of the data model form a tree.  A record has the name of its
    object, the records of its children and of its parameters, and the
    controller through which the object reaches its backend.  The backend is a
    plug-in: a table of functions on a state of its own, which is a parameter of
    the model.  The records are cells of a store, so that two arrays that hold
    the same record hold the same index. *)

From S2P Require Import Prelude CStrings Tokens IpAddr SlapVar VarEntity VarRecord.
Open Scope Z_scope.

(** [_DSLH_TR69_INTERFACE] of [dslh_ifo_tr69.h], applied to the instance it is
    for: a missing function is None.  A getter yields the value, or None when it
    returns FALSE, and does not change the backend.  [GetEntryParamString] is
    given the size of the buffer and yields a status, the size that it reports
    and the text that it writes.  [SetEntryBulk] yields None, or the index of the
    parameter that failed; [Validate] None, or the name of the parameter. *)
Record DSLH_TR69_INTERFACE (B : Type) := Tr69If {
  bUseFullName : bool;
  GetEntryParamBool : option (cstr -> B -> option Z);
  GetEntryParamInt : option (cstr -> B -> option Z);
  GetEntryParamUlong : option (cstr -> B -> option Z);
  GetEntryParamString : option (cstr -> Z -> B -> Z * Z * cstr);
  GetEntryBulk : option (list (cstr * SLAP_VARIABLE) -> B -> list SLAP_VARIABLE);
  GetEntryCount : option (B -> Z);
  SetEntryParamBool : option (cstr -> bool -> B -> bool * B);
  SetEntryParamInt : option (cstr -> Z -> B -> bool * B);
  SetEntryParamUlong : option (cstr -> Z -> B -> bool * B);
  SetEntryParamString : option (cstr -> option cstr -> B -> bool * B);
  SetEntryBulk : option (list (cstr * option SLAP_VARIABLE) -> B -> option Z * B);
  Validate : option (B -> option cstr * B);
  Commit : option (B -> Z * B);
  Rollback : option (B -> Z * B) }.
Arguments Tr69If {B}.
Arguments bUseFullName {B}. Arguments GetEntryParamBool {B}. Arguments GetEntryParamInt {B}.
Arguments GetEntryParamUlong {B}. Arguments GetEntryParamString {B}. Arguments GetEntryBulk {B}.
Arguments GetEntryCount {B}. Arguments SetEntryParamBool {B}. Arguments SetEntryParamInt {B}.
Arguments SetEntryParamUlong {B}. Arguments SetEntryParamString {B}. Arguments SetEntryBulk {B}.
Arguments Validate {B}. Arguments Commit {B}. Arguments Rollback {B}.

(** The record of an object, with the fields of its entity and its controller. *)
Record DSLH_OBJ_RECORD (B : Type) := ObjRecord {
  LastName : option cstr;
  FullName : cstr;
  ObjDescr_table : bool;               (* ObjDescr->Type is a table *)
  bGroupCommit : bool;
  VareoTable : list DSLH_VAR_ENTITY;
  ObjroQueue : list nat;
  VarroTable : list DSLH_VAR_RECORD;
  hDslhTr69If : option (DSLH_TR69_INTERFACE B);
  bCommitting : bool;
  bCommitted : bool }.
Arguments ObjRecord {B}.
Arguments LastName {B}. Arguments FullName {B}. Arguments ObjDescr_table {B}. Arguments bGroupCommit {B}.
Arguments VareoTable {B}. Arguments ObjroQueue {B}. Arguments VarroTable {B}. Arguments hDslhTr69If {B}.
Arguments bCommitting {B}. Arguments bCommitted {B}.

Section objects.
Context `{Platform} {B : Type}.
Implicit Types (o : DSLH_OBJ_RECORD B).

Definition set_VarroTable (l : list DSLH_VAR_RECORD) o : DSLH_OBJ_RECORD B :=
  ObjRecord (LastName o) (FullName o) (ObjDescr_table o) (bGroupCommit o) (VareoTable o) (ObjroQueue o) l
    (hDslhTr69If o) (bCommitting o) (bCommitted o).
Definition set_commit_flags (committing committed : bool) o : DSLH_OBJ_RECORD B :=
  ObjRecord (LastName o) (FullName o) (ObjDescr_table o) (bGroupCommit o) (VareoTable o) (ObjroQueue o) (VarroTable o)
    (hDslhTr69If o) committing committed.

(** ** The store and the tree *)

Definition obj_at (store : list (DSLH_OBJ_RECORD B)) (i : nat) : outcome (DSLH_OBJ_RECORD B) :=
  match store !! i with Some o => Done o | None => Stuck BadAccess end.

Fixpoint find_obj (store : list (DSLH_OBJ_RECORD B)) (children : list nat) (name : cstr) : outcome (option nat) :=
  match children with
  | [] => Done None
  | i :: children =>
      child ← obj_at store i;
      if bool_decide (LastName child = Some name) then Done (Some i) else find_obj store children name
  end.
Definition DslhObjroGetObjRecord (store : list (DSLH_OBJ_RECORD B)) o (name : cstr) : outcome (option nat) :=
  find_obj store (ObjroQueue o) name.

(** The record behind a chain of names, for tables that need not be populated
    again. *)
Fixpoint DslhObjroGetObjRecord2 (store : list (DSLH_OBJ_RECORD B)) (i : nat) (pObjNameTokens : ANSC_TOKEN_CHAIN)
  : outcome (option nat) :=
  match pObjNameTokens with
  | [] => Done None
  | pObjNameToken :: pObjNameTokens =>
      name ← token_name pObjNameToken;
      o ← obj_at store i;
      child ← (if deref name =? 0 then Done None else find_obj store (ObjroQueue o) name);
      match child with
      | None => Done None
      | Some c => match pObjNameTokens with [] => Done (Some c) | _ => DslhObjroGetObjRecord2 store c pObjNameTokens end
      end
  end.

(** The index of the first parameter with the name. *)
Fixpoint find_var (l : list DSLH_VAR_RECORD) (name : cstr) : option nat :=
  match l with
  | [] => None
  | r :: l => if bool_decide (DslhVarroGetLastName r = name) then Some O else S <$> find_var l name
  end.
Definition DslhObjroGetVarRecord o (name : cstr) : option nat := find_var (VarroTable o) name.

(** [DslhWmpdoMprGetVarRecord]: the record of a parameter by its full name, as
    the indexes of its object and of itself. *)
Definition DSLH_PARAM_NAME_SEPARATORS : cstr := lit ".".
Definition DslhWmpdoMprGetVarRecord (store : list (DSLH_OBJ_RECORD B)) (hRootObjRecord : option nat) (pParamName : cstr)
  : outcome (option (nat * nat)) :=
  if (deref pParamName =? 46) || match strstr pParamName (lit "..") with Some _ => true | None => false end
  then Done None
  else
    r ← AnscTcAllocate (Some pParamName) DSLH_PARAM_NAME_SEPARATORS [];
    match fst r with
    | None => Done None
    | Some pParamPathTokens =>
        match last pParamPathTokens with
        | None => Done None
        | Some pParamNameToken =>
            i ← match hRootObjRecord with
                | None => Done None
                | Some root => DslhObjroGetObjRecord2 store root (removelast pParamPathTokens)
                end;
            match i with
            | None => Done None
            | Some i =>
                o ← obj_at store i; name ← token_name pParamNameToken;
                Done ((fun j => (i, j)) <$> DslhObjroGetVarRecord o name)
            end
        end
    end.

(** ** The interface through which a controller asks for pending values *)

Definition rvq_record o (pParamName : cstr) : option DSLH_VAR_RECORD :=
  DslhObjroGetVarRecord o pParamName ≫= fun j => VarroTable o !! j.

Definition DslhObjroRvqIsParamUpdated o (pParamName : cstr) : bool :=
  match rvq_record o pParamName with
  | None => false
  | Some r => match TempParamValue r with None => false | Some _ => negb (bAlreadySet r) end
  end.

Definition set_already (r : DSLH_VAR_RECORD) : DSLH_VAR_RECORD :=
  set_pending (TempParamValue r) (TempParamValueTrans r) (OldParamValue r) true r.
Definition DslhObjroRvqClearParamUpdated o (pParamName : cstr) : DSLH_OBJ_RECORD B :=
  match DslhObjroGetVarRecord o pParamName with
  | None => o
  | Some j => set_VarroTable (alter set_already j (VarroTable o)) o
  end.

(** The converted value if there is one. *)
Definition pending_value (r : DSLH_VAR_RECORD) : option SLAP_VARIABLE :=
  match TempParamValueTrans r with Some v => Some v | None => TempParamValue r end.
Definition DslhObjroRvqGetParamValue o (pParamName : cstr) : option SLAP_VARIABLE :=
  rvq_record o pParamName ≫= pending_value.

Definition DslhObjroRvqGetParamValueString o (pParamName : cstr) : outcome (option cstr) :=
  match DslhObjroRvqGetParamValue o pParamName with
  | None => Done None
  | Some v => match varString v with None => Done None | Some read => Some <$> read end
  end.
Definition DslhObjroRvqGetParamValueInt o (pParamName : cstr) : outcome Z :=
  match DslhObjroRvqGetParamValue o pParamName with None => Done 0 | Some v => varInt v end.
Definition DslhObjroRvqGetParamValueUint32 o (pParamName : cstr) : outcome Z :=
  match DslhObjroRvqGetParamValue o pParamName with None => Done 0 | Some v => varUint32 v end.
Definition DslhObjroRvqGetParamValueBool o (pParamName : cstr) : outcome bool :=
  match DslhObjroRvqGetParamValue o pParamName with
  | None => Done false
  | Some v => u ← varUint32 v; Done (negb (u =? 0))
  end.

End objects.
