(* ===== verification/ObjCtl.v ===== *)
(** * The controller of an object ([DslhObjController/dslh_objco_access.c])

    The controller hands the pending values of an object to its backend and
    asks the backend to validate, commit or roll back; and it reads values from
    the backend and turns them into the texts of the data model. *)

From S2P Require Import Prelude CStrings Tokens IpAddr Base64 SlapVar SlapConv VarEntity VarValid VarRecord ObjRecord.
Open Scope Z_scope.

Section controller.
Context `{Platform} {B : Type}.
Variable strcat_s_rest : cstr -> cstr -> outcome cstr.
Implicit Types (o : DSLH_OBJ_RECORD B) (b : B).

(** ** Handing over pending values *)

(** Whether the loop of [Validate] hands the parameter over. *)
Definition to_hand_over o (e : DSLH_VAR_ENTITY) : bool :=
  let pParamDescr := ve_ParamDescr e in
  negb (bPersistent pParamDescr) && bWritable pParamDescr && DslhObjroRvqIsParamUpdated o (pd_Name pParamDescr).

(** The call of the setter of a syntax; a backend without it takes the value
    silently. *)
Definition set_entry (pInterface : DSLH_TR69_INTERFACE B) o (e : DSLH_VAR_ENTITY) (pCallingName : cstr) b
  : outcome (bool * B) :=
  let name := pd_Name (ve_ParamDescr e) in
  match ve_Syntax e with
  | SLAP_VAR_SYNTAX_bool =>
      match SetEntryParamBool pInterface with
      | None => Done (true, b)
      | Some f => v ← DslhObjroRvqGetParamValueBool o name; Done (f pCallingName v b)
      end
  | SLAP_VAR_SYNTAX_int =>
      match SetEntryParamInt pInterface with
      | None => Done (true, b)
      | Some f => v ← DslhObjroRvqGetParamValueInt o name; Done (f pCallingName v b)
      end
  | SLAP_VAR_SYNTAX_uint32 =>
      match SetEntryParamUlong pInterface with
      | None => Done (true, b)
      | Some f => v ← DslhObjroRvqGetParamValueUint32 o name; Done (f pCallingName v b)
      end
  | SLAP_VAR_SYNTAX_ucharArray | SLAP_VAR_SYNTAX_string =>
      match SetEntryParamString pInterface with
      | None => Done (true, b)
      | Some f => v ← DslhObjroRvqGetParamValueString o name; Done (f pCallingName v b)
      end
  | _ => Done (true, b)
  end.

(** The loop over the parameters: None, or a failure with the name of the
    parameter when there is one.  [pFullName] has 512 bytes. *)
Fixpoint validate_each (pInterface : DSLH_TR69_INTERFACE B) (l : list DSLH_VAR_ENTITY) o b
  : outcome (option (option cstr) * DSLH_OBJ_RECORD B * B) :=
  match l with
  | [] => Done (None, o, b)
  | e :: l =>
      let name := pd_Name (ve_ParamDescr e) in
      if to_hand_over o e then
        if bUseFullName pInterface && (512 <=? strlen (FullName o ++ name)) then Done (Some None, o, b)
        else
          let pCallingName := if bUseFullName pInterface then FullName o ++ name else name in
          r ← set_entry pInterface o e pCallingName b;
          let '(ok, b) := r in
          if (ok : bool) then validate_each pInterface l (DslhObjroRvqClearParamUpdated o name) b
          else Done (Some (Some name), o, b)
      else validate_each pInterface l o b
  end.

(** The bulk setter: all the parameters at once.  There is no mark that they
    have been handed over, and no parameter to hand over is a failure. *)
Definition validate_bulk (SetEntryBulk : list (cstr * option SLAP_VARIABLE) -> B -> option Z * B) o b
  : outcome (option (option cstr) * DSLH_OBJ_RECORD B * B) :=
  let names := (fun e => pd_Name (ve_ParamDescr e)) <$> filter (fun e => to_hand_over o e = true) (VareoTable o) in
  match names with
  | [] => Done (Some None, o, b)
  | _ =>
      let '(uErrorIndex, b) := SetEntryBulk ((fun n => (n, DslhObjroRvqGetParamValue o n)) <$> names) b in
      match uErrorIndex with
      | None => Done (None, o, b)
      | Some i => match names !! Z.to_nat i with
                  | Some n => Done (Some (Some n), o, b)
                  | None => Stuck OutOfBounds
                  end
      end
  end.

(** TRUE or FALSE, and the name of the parameter that failed. *)
Definition DslhObjcoValidate o b : outcome (bool * option cstr * DSLH_OBJ_RECORD B * B) :=
  match hDslhTr69If o with
  | None => Done (true, None, o, b)
  | Some pInterface =>
      r ← match SetEntryBulk pInterface with
          | Some f => validate_bulk f o b
          | None => validate_each pInterface (VareoTable o) o b
          end;
      let '(failed, o, b) := r in
      match failed with
      | Some name => Done (false, name, o, b)
      | None =>
          match Validate pInterface with
          | None => Done (true, None, o, b)
          | Some f =>
              let '(pFaultName, b) := f b in
              match pFaultName with
              | Some n => Done (false, Some n, o, b)
              | None => Done (true, None, o, b)
              end
          end
      end
  end.

(** The status is [ANSC_STATUS_SUCCESS], 0, or what the backend returns. *)
Definition DslhObjcoCommit o b : Z * DSLH_OBJ_RECORD B * B :=
  match hDslhTr69If o with
  | None => (0, o, b)
  | Some pInterface =>
      if bCommitting o then (0, o, b)
      else
        match Commit pInterface with
        | None => (0, set_commit_flags false (bCommitted o) o, b)
        | Some f => let '(status, b) := f b in (status, set_commit_flags false (bCommitted o) o, b)
        end
  end.

Definition DslhObjcoRollback o b : Z * B :=
  match hDslhTr69If o with
  | None => (0, b)
  | Some pInterface => match Rollback pInterface with None => (0, b) | Some f => f b end
  end.

(** ** Reading values *)

Definition empty_to_NULL (v : SLAP_VARIABLE) : SLAP_VARIABLE :=
  match Variant v with VarString (Some []) => set_varString v None | _ => v end.

(** The text of a time: a year before 1000 stands for an unknown or a relative
    time, which has no 'Z'. *)
Definition time_text (t : ANSC_UNIVERSAL_TIME) : cstr :=
  let t := if (Year t <? 1000) && (DayOfMonth t =? 0) && (Year t =? 0) && (Month t =? 0)
           then UniversalTime 1 1 1 (Hour t) (Minute t) (Second t) else t in
  let s := SlapVcoCalendarTimeToString t in
  if (Year t <? 1000) && negb (unknown_time t) && (default 0 (last s) =? 90) then removelast s else s.

Definition set_ContentType (ct : SLAP_CONTENT_TYPE) (v : SLAP_VARIABLE) : SLAP_VARIABLE :=
  SlapVariable (VarName v) ct (UsageType v) (Variant v) (SlapVar.ReqSenderID v).

Definition afterGetValue (e : DSLH_VAR_ENTITY) (v : SLAP_VARIABLE) : outcome SLAP_VARIABLE :=
  let text s := set_varString v s in
  let array (a : option (list Z)) (f : list Z -> outcome (option cstr)) :=
    match a with None => Done (text None) | Some a => s ← f a; Done (text s) end in
  v ← match DataType e with
      | DSLH_CWMP_DATA_TYPE_string =>
          match ve_ContentType e, Variant v with
          | SLAP_CONTENT_TYPE_MAPPED, VarUint32 u =>
              t ← DslhVareoGetTokenValueByCode e u;
              Done (text (Some (match t with Some t => String t | None => [] end)))
          | SLAP_CONTENT_TYPE_IP4_ADDR, VarUint32 u | SLAP_CONTENT_TYPE_SUBNET_MASK, VarUint32 u =>
              s ← SlapVcoIp4AddrToString u; Done (text (Some s))
          | SLAP_CONTENT_TYPE_IP4_ADDR_WILDCARD, VarUint32 u =>
              s ← SlapVcoIp4AddrToString2 u; Done (text (Some s))
          | SLAP_CONTENT_TYPE_IP6_ADDR, VarUcharArray a => array a (fun a => Done (SlapVcoIp6AddrToString (Some a)))
          | SLAP_CONTENT_TYPE_MAC_ADDR, VarUcharArray a => array a (fun a => Some <$> SlapVcoMacAddrToString2 a)
          | SLAP_CONTENT_TYPE_IP4_ADDR_LIST, VarUint32Array a => array a (fun a => SlapVcoIp4AddrListToString (Some a))
          | SLAP_CONTENT_TYPE_MAC_ADDR_LIST, VarUcharArray a => array a (fun a => DslhVarroMacAddrListToString (Some a))
          | SLAP_CONTENT_TYPE_IP6_ADDR_LIST, VarUcharArray a =>
              array a (fun a => SlapVcoIp6AddrListToString strcat_s_rest (Some a))
          | _, _ => Done v
          end
      | DSLH_CWMP_DATA_TYPE_dateTime =>
          match ve_ContentType e with
          | SLAP_CONTENT_TYPE_CALENDAR_TIME =>
              let s := match Variant v with
                       | VarHandle (Some t) => time_text t
                       | _ => lit "0001-01-01T00:00:00Z"
                       end in
              Done (set_ContentType SLAP_CONTENT_TYPE_CALENDAR_TIME (text (Some s)))
          | _ => Done v
          end
      | DSLH_CWMP_DATA_TYPE_base64 =>
          match Variant v with
          | VarUcharArray a => array a (fun a => r ← AnscBase64Encode a (Zlen a) []; Done (fst r))
          | _ => Done v
          end
      | _ => Done v
      end;
  Done (empty_to_NULL v).

(** [TR69_NUMBER_OF_ENTRIES_STRING] at the end of a name. *)
Definition TR69_NUMBER_OF_ENTRIES_STRING : cstr := lit "NumberOfEntries".
Definition counts_entries (pName : cstr) : bool :=
  match strstr pName TR69_NUMBER_OF_ENTRIES_STRING with Some p => strlen p =? 15 | None => false end.

(** The number of entries of a child table; the name of the table is copied
    into [char pTableName[64]]. *)
Definition getChildTableCount (store : list (DSLH_OBJ_RECORD B)) o b (pName : cstr) : outcome (option Z) :=
  let pTableName := take (length pName - 15) pName in
  let overrun := existsb (fun i => match store !! i with
                                   | Some c => match LastName c with Some s => is_prefix pTableName s | None => false end
                                   | None => false
                                   end) (ObjroQueue o) in
  if (64 <? strlen pTableName) || (strlen pTableName =? 64) && overrun then Stuck OutOfBounds
  else
    i ← DslhObjroGetObjRecord store o pTableName;
    match i with
    | None => Done None
    | Some i =>
        child ← obj_at store i;
        if negb (ObjDescr_table child) then Done None
        else Done (Some (match hDslhTr69If child with
                         | None => 0
                         | Some f => match GetEntryCount f with None => 0 | Some g => g b end
                         end))
    end.

(** The entity of a parameter that is read; the record must exist. *)
Definition entity_read o (name : cstr) : outcome DSLH_VAR_ENTITY :=
  match rvq_record o name with Some r => Done (hDslhVarEntity r) | None => Stuck NullDeref end.

Definition is_uint32 (v : SLAP_VARIABLE) : bool := bool_decide (Syntax v = SLAP_VAR_SYNTAX_uint32).

(** The loop that splits off the counts of tables, and the bulk getter; a
    counter gets its number at once. *)
Fixpoint bulk_counts (store : list (DSLH_OBJ_RECORD B)) o b (l : list (cstr * SLAP_VARIABLE))
  : outcome (list (cstr * SLAP_VARIABLE * bool)) :=
  match l with
  | [] => Done []
  | (n, v) :: l =>
      if is_uint32 v && counts_entries n then
        c ← getChildTableCount store o b n;
        r ← bulk_counts store o b l;
        Done ((n, set_Variant v (VarUint32 (default 0 c)), true) :: r)
      else r ← bulk_counts store o b l; Done ((n, v, false) :: r)
  end.
(** Puts the values of the bulk getter where the variables were. *)
Fixpoint bulk_merge o (l : list (cstr * SLAP_VARIABLE * bool)) (vs : list SLAP_VARIABLE) : outcome (list SLAP_VARIABLE) :=
  match l with
  | [] => Done []
  | (n, v, true) :: l => r ← bulk_merge o l vs; Done (v :: r)
  | (n, v, false) :: l =>
      e ← entity_read o n;
      v ← afterGetValue e (default v (head vs));
      r ← bulk_merge o l (tail vs); Done (v :: r)
  end.
Definition bulk_get (store : list (DSLH_OBJ_RECORD B)) o b
    (f : list (cstr * SLAP_VARIABLE) -> B -> list SLAP_VARIABLE) (l : list (cstr * SLAP_VARIABLE))
  : outcome (list SLAP_VARIABLE) :=
  l ← bulk_counts store o b l;
  let asked := fst <$> filter (fun x => snd x = false) l in
  bulk_merge o l (match asked with [] => [] | _ => f asked b end).

(** [char pTempBuf[1024]], and a second call when the text did not fit. *)
Definition get_string (f : cstr -> Z -> B -> Z * Z * cstr) (pName : cstr) b : outcome (option cstr) :=
  let '(returnStatus, uLength, text) := f pName 1023 b in
  if negb (returnStatus =? 0) && negb (returnStatus =? 4294967295) then
    let '(returnStatus, _, text) := f pName uLength b in
    if uLength <? strlen text then Stuck OutOfBounds
    else Done (if returnStatus =? 0 then Some text else None)
  else if 1023 <? strlen text then Stuck OutOfBounds
  else Done (Some text).

(** A getter of a number or a truth value. *)
Definition get_number o b (pName : cstr) (v : SLAP_VARIABLE) (g : option (cstr -> B -> option Z)) (make : Z -> SLAP_VARIANT)
  : outcome (option SLAP_VARIABLE) :=
  match g ≫= (fun f => f pName b) with
  | None => Done None
  | Some x => e ← entity_read o pName; v ← afterGetValue e (set_Variant v (make x)); Done (Some v)
  end.

(** The getter of the syntax of the variable. *)
Definition get_one (pInterface : DSLH_TR69_INTERFACE B) o b (pName : cstr) (v : SLAP_VARIABLE)
  : outcome (option SLAP_VARIABLE) :=
  let string (make : cstr -> SLAP_VARIANT) : outcome (option SLAP_VARIABLE) :=
    match GetEntryParamString pInterface with
    | None => Done None
    | Some f => s ← get_string f pName b; Done (match s with Some s => Some (set_Variant v (make s)) | None => None end)
    end in
  match Syntax v with
  | SLAP_VAR_SYNTAX_bool => get_number o b pName v (GetEntryParamBool pInterface) VarBool
  | SLAP_VAR_SYNTAX_int => get_number o b pName v (GetEntryParamInt pInterface) VarInt
  | SLAP_VAR_SYNTAX_uint32 => get_number o b pName v (GetEntryParamUlong pInterface) VarUint32
  | SLAP_VAR_SYNTAX_string => string (fun s => VarString (Some s))
  | SLAP_VAR_SYNTAX_ucharArray => string VarUcharText
  | _ => Done None
  end.

(** The variable with the value, or None for [ANSC_STATUS_FAILURE]. *)
Definition DslhObjcoGetParamValueByName (store : list (DSLH_OBJ_RECORD B)) o b (pName : cstr) (v : SLAP_VARIABLE)
  : outcome (option SLAP_VARIABLE) :=
  count ← (if is_uint32 v && counts_entries pName then getChildTableCount store o b pName else Done None);
  match count with
  | Some n => Done (Some (set_Variant v (VarUint32 n)))
  | None =>
      match hDslhTr69If o with
      | None => Done None
      | Some pInterface =>
          if strlen pName =? 0 then Done None
          else
            match GetEntryBulk pInterface with
            | Some f => r ← bulk_get store o b f [(pName, v)]; Done (head r)
            | None => get_one pInterface o b pName v
            end
      end
  end.

(** All the variables; one that cannot be read stays as it is. *)
Fixpoint get_each (store : list (DSLH_OBJ_RECORD B)) o b (l : list (cstr * SLAP_VARIABLE)) : outcome (list SLAP_VARIABLE) :=
  match l with
  | [] => Done []
  | (n, v) :: l =>
      r ← DslhObjcoGetParamValueByName store o b n v;
      rs ← get_each store o b l;
      Done (default v r :: rs)
  end.
Definition DslhObjcoGetBulkParamValue (store : list (DSLH_OBJ_RECORD B)) o b (l : list (cstr * SLAP_VARIABLE))
  : outcome (list SLAP_VARIABLE) :=
  match hDslhTr69If o ≫= GetEntryBulk with
  | Some f => bulk_get store o b f l
  | None => get_each store o b l
  end.

End controller.
