(* ===== verification/ParamSet.v ===== *)
(** * Setting parameters ([DslhWmpDatabase/dslh_wmpdo_mpaif.c, dslh_wmpdo_utilities.c])

    A request sets several parameters.  Each value is tested and kept in the
    record of its parameter; then every object that got a value validates its
    pending values with its backend; then either all of them commit, now or when
    a later call says so, or everything is cancelled.  The database remembers
    the records of the current session in two arrays of a fixed size.

    The lock of the database makes one request run at a time, so a request is a
    function on the database.  The backends do not call back into the database,
    allocations succeed, and notifications are not sent (the code for them is
    compiled only with [USE_NOTIFY_COMPONENT]). *)

From S2P Require Import Prelude CStrings Tokens IpAddr SlapVar SlapConv VarEntity VarValid VarRecord ObjRecord ObjCtl.
Open Scope Z_scope.

Definition CCSP_SUCCESS : Z := 100.
Definition CCSP_ERR_INVALID_ARGUMENTS : Z := 9003.
Definition CCSP_ERR_INVALID_PARAMETER_NAME : Z := 9005.
Definition CCSP_ERR_INVALID_PARAMETER_TYPE : Z := 9006.
Definition CCSP_ERR_INVALID_PARAMETER_VALUE : Z := 9007.
Definition CCSP_ERR_NOT_WRITABLE : Z := 9008.
Definition STATUS_SUCCESS : Z := 0.
Definition STATUS_FAILURE : Z := 4294967295.

Definition DSLH_WMPDO_MAX_OBJ_INARRAY : nat := 32.
Definition DSLH_WMPDO_MAX_VAR_INARRAY : nat := 256.
Definition DSLH_MPA_ENTITY_ACS : cstr := lit "ACS".
Definition DSLH_MPA_ACCESS_CONTROL_SNMP : Z := 2.
Definition DSLH_MPA_ACCESS_CONTROL_ACS : Z := 4.

(** [DSLH_CWMP_PARAM_VALUE] *)
Record DSLH_CWMP_PARAM_VALUE := ParamValue { pv_Name : option cstr; pv_Value : option SLAP_VARIABLE }.

(** The pointer of a parameter: its object and its place there. *)
Abbreviation varptr := (nat * nat)%type.

Record DSLH_WMP_DATABASE (B : Type) := Database {
  store : list (DSLH_OBJ_RECORD B);
  backend : B;
  hRootObjRecord : option nat;
  hVarRecordArray : option (list varptr);
  hObjRecordArray : option (list nat);
  SessionID : Z;
  bMpaWriteLocked : bool;
  LockedEntity : option cstr;
  bMonitorParamLoaded : bool;
  bGlobalMonitor : bool;
  uMonitorComponents : Z;
  g_lastWriteEntity : Z }.
Arguments Database {B}.
Arguments store {B}. Arguments backend {B}. Arguments hRootObjRecord {B}. Arguments hVarRecordArray {B}.
Arguments hObjRecordArray {B}. Arguments SessionID {B}. Arguments bMpaWriteLocked {B}. Arguments LockedEntity {B}.
Arguments bMonitorParamLoaded {B}. Arguments bGlobalMonitor {B}. Arguments uMonitorComponents {B}.
Arguments g_lastWriteEntity {B}.

Section database.
Context `{Platform} {B : Type}.
Implicit Types (db : DSLH_WMP_DATABASE B).

(** ** Assignments to the fields *)

Definition with_objects (st : list (DSLH_OBJ_RECORD B)) (b : B) db : DSLH_WMP_DATABASE B :=
  Database st b (hRootObjRecord db) (hVarRecordArray db) (hObjRecordArray db) (SessionID db) (bMpaWriteLocked db)
    (LockedEntity db) (bMonitorParamLoaded db) (bGlobalMonitor db) (uMonitorComponents db) (g_lastWriteEntity db).
Definition with_arrays (vars : option (list varptr)) (objs : option (list nat)) db : DSLH_WMP_DATABASE B :=
  Database (store db) (backend db) (hRootObjRecord db) vars objs (SessionID db) (bMpaWriteLocked db)
    (LockedEntity db) (bMonitorParamLoaded db) (bGlobalMonitor db) (uMonitorComponents db) (g_lastWriteEntity db).
Definition with_SessionID (s : Z) db : DSLH_WMP_DATABASE B :=
  Database (store db) (backend db) (hRootObjRecord db) (hVarRecordArray db) (hObjRecordArray db) s (bMpaWriteLocked db)
    (LockedEntity db) (bMonitorParamLoaded db) (bGlobalMonitor db) (uMonitorComponents db) (g_lastWriteEntity db).
Definition with_lock (locked : bool) (e : option cstr) db : DSLH_WMP_DATABASE B :=
  Database (store db) (backend db) (hRootObjRecord db) (hVarRecordArray db) (hObjRecordArray db) (SessionID db) locked
    e (bMonitorParamLoaded db) (bGlobalMonitor db) (uMonitorComponents db) (g_lastWriteEntity db).
Definition with_monitor (global : bool) (components : Z) db : DSLH_WMP_DATABASE B :=
  Database (store db) (backend db) (hRootObjRecord db) (hVarRecordArray db) (hObjRecordArray db) (SessionID db)
    (bMpaWriteLocked db) (LockedEntity db) true global components (g_lastWriteEntity db).
Definition with_lastWriteEntity (w : Z) db : DSLH_WMP_DATABASE B :=
  Database (store db) (backend db) (hRootObjRecord db) (hVarRecordArray db) (hObjRecordArray db) (SessionID db)
    (bMpaWriteLocked db) (LockedEntity db) (bMonitorParamLoaded db) (bGlobalMonitor db) (uMonitorComponents db) w.

Definition put_obj (i : nat) (o : DSLH_OBJ_RECORD B) (b : B) db : DSLH_WMP_DATABASE B :=
  with_objects (<[i := o]> (store db)) b db.
Definition var_at db (p : varptr) : outcome (DSLH_OBJ_RECORD B * DSLH_VAR_RECORD) :=
  o ← obj_at (store db) p.1;
  match VarroTable o !! p.2 with Some r => Done (o, r) | None => Stuck BadAccess end.
(** Assigns through the pointer of a parameter. *)
Definition upd_var (f : DSLH_VAR_RECORD -> DSLH_VAR_RECORD) (p : varptr) db : DSLH_WMP_DATABASE B :=
  with_objects (alter (fun o => set_VarroTable (alter f p.2 (VarroTable o)) o) p.1 (store db)) (backend db) db.

(** ** The arrays of the session *)

Definition DslhWmpdoResetObjVarArray db : DSLH_WMP_DATABASE B := with_arrays None None db.
Definition DslhWmpdoInitObjVarArray db : DSLH_WMP_DATABASE B :=
  with_arrays (Some []) (Some []) (DslhWmpdoResetObjVarArray db).

Definition ulVarRecordCount db : nat := length (default [] (hVarRecordArray db)).
Definition ulObjRecordCount db : nat := length (default [] (hObjRecordArray db)).

(** One that does not fit is left out. *)
Definition DslhWmpdoAddVarRecordIntoArray (p : varptr) db : DSLH_WMP_DATABASE B :=
  if (ulVarRecordCount db <? DSLH_WMPDO_MAX_VAR_INARRAY)%nat
  then with_arrays ((fun l => l ++ [p]) <$> hVarRecordArray db) (hObjRecordArray db) db
  else db.
Definition DslhWmpdoAddObjRecordIntoArray (i : nat) db : DSLH_WMP_DATABASE B :=
  if (DSLH_WMPDO_MAX_OBJ_INARRAY <=? ulObjRecordCount db)%nat then db
  else if bool_decide (i ∈ default [] (hObjRecordArray db)) then db
  else with_arrays (hVarRecordArray db) ((fun l => l ++ [i]) <$> hObjRecordArray db) db.

(** ** The write lock *)

Definition DslhWmpdoMpaLockWriteAccess (pAccessEntity : cstr) db : outcome (bool * DSLH_WMP_DATABASE B) :=
  if bMpaWriteLocked db then
    match LockedEntity db with
    | None => Stuck NullDeref
    | Some e => Done (bool_decide (pAccessEntity = e), db)
    end
  else Done (true, with_lock true (Some pAccessEntity) db).
(** FALSE is [ANSC_STATUS_UNAPPLICABLE]. *)
Definition DslhWmpdoMpaUnlockWriteAccess db : bool * DSLH_WMP_DATABASE B :=
  if negb (bMpaWriteLocked db) then (false, db) else (true, with_lock false None db).

(** ** Verifying, committing and cancelling one object ([dslh_objro_access.c]) *)

Definition DslhObjroVerifyChanges (i : nat) db : outcome (bool * option cstr * DSLH_WMP_DATABASE B) :=
  o ← obj_at (store db) i;
  r ← DslhObjcoValidate o (backend db);
  let '(bTestResult, fault, o', b') := r in
  Done (bTestResult, match fault with Some n => Some (FullName o ++ n) | None => None end, put_obj i o' b' db).

Definition DslhObjroCommitChanges (i : nat) db : outcome (Z * DSLH_WMP_DATABASE B) :=
  o ← obj_at (store db) i;
  let '(status, o', b') := DslhObjcoCommit o (backend db) in
  Done (status, put_obj i o' b' db).

Definition DslhObjroCancelChanges (i : nat) db : outcome (Z * DSLH_WMP_DATABASE B) :=
  o ← obj_at (store db) i;
  let '(status, b') := DslhObjcoRollback o (backend db) in
  Done (status, with_objects (store db) b' db).

(** ** Access control *)

(** [AccessListToAccessControlBitMask] *)
Definition AccessListToAccessControlBitMask (pAccessList : option cstr) : Z :=
  match pAccessList with
  | None => 4294967295
  | Some s =>
      let has w := match strstr s (lit w) with Some _ => true | None => false end in
      if has "ACS" then 0 else if has "XMPP" then 1 else if has "CLI" then 2 else if has "WebUI" then 4
      else 4294967295
  end%string.

Definition access_denied (writeID : Z) (l : option cstr) : bool :=
  negb (writeID =? 4294967295) &&
  match l with Some s => match strstr s (lit "ANYBODY") with Some _ => false | None => true end | None => false end &&
  negb (writeID =? AccessListToAccessControlBitMask l).

(** [DslhObjcoCheckParamWritability]: the controller leaves it to the entity. *)
Definition DslhObjcoCheckParamWritability : Z := DSLH_OBJCONTROLLER_PARAM_WRITE_NOTCHANGE.

Section request.
Variable inet_addr : cstr -> list Z.
Variable b64_decode : list Z -> list Z.
Variable strcat_s_rest : cstr -> cstr -> outcome cstr.
(** The persistent storage: reading a record, and writing TRUE into one. *)
Variable PSM_Get_Record_Value : cstr -> B -> option SLAP_VARIABLE.
Variable PSM_Set_Record_Value : cstr -> B -> B.

(** ** Parameters that a user changed *)

Definition LoadUserMonitorParameters db : outcome (DSLH_WMP_DATABASE B) :=
  g ← match PSM_Get_Record_Value (lit "EnableMonitorUserChangedParams") (backend db) with
      | Some v => u ← varUint32 v; Done (negb (u =? 0))
      | None => Done (bGlobalMonitor db)
      end;
  c ← match PSM_Get_Record_Value (lit "UserOpComponents") (backend db) with
      | Some v => varUint32 v
      | None => Done (uMonitorComponents db)
      end;
  Done (with_monitor g c db).

(** The name of the flag of a parameter, in 256 bytes; a name that does not fit
    becomes the empty one. *)
Definition user_flag_name (paramName : cstr) : cstr :=
  let n := lit "UserChanged." ++ paramName in if strlen n <? 256 then n else [].
Definition LoadUserChangeFlag (paramName : cstr) db : outcome bool :=
  match PSM_Get_Record_Value (user_flag_name paramName) (backend db) with
  | Some v => u ← varUint32 v; Done (negb (u =? 0))
  | None => Done false
  end.
Definition SaveUserChangeFlag (paramName : cstr) db : DSLH_WMP_DATABASE B :=
  with_objects (store db) (PSM_Set_Record_Value (user_flag_name paramName) (backend db)) db.

(** The value of a parameter through its record. *)
Definition current_value (p : varptr) db : outcome (option SLAP_VARIABLE) :=
  x ← var_at db p;
  let '(o, r) := x in
  DslhVarroGetValue (bGroupCommit o) (DslhObjcoGetParamValueByName strcat_s_rest (store db) o (backend db)) r.

Definition CheckUserChangedFlag (writeID : Z) (p : varptr) (Name : cstr) (Value : SLAP_VARIABLE) db
  : outcome (Z * DSLH_WMP_DATABASE B) :=
  db ← (if bMonitorParamLoaded db then Done db else LoadUserMonitorParameters db);
  if negb (bGlobalMonitor db) then Done (CCSP_SUCCESS, db)
  else
    x ← var_at db p;
    db ← (if bUserChangeFlagLoaded x.2 then Done db
          else f ← LoadUserChangeFlag Name db; Done (upd_var (set_user_flag f true) p db));
    x ← var_at db p;
    let from_ui := negb (Z.land writeID (uMonitorComponents db) =? 0) in
    if bUserChanged x.2 then Done (if from_ui then CCSP_SUCCESS else CCSP_ERR_NOT_WRITABLE, db)
    else if from_ui then
      v ← current_value p db;
      same ← match v with Some v => SlapVhoEqualVariables false Value v | None => Done false end;
      Done (CCSP_SUCCESS,
            if (same : bool) then db
            else SaveUserChangeFlag Name (upd_var (set_user_flag true (bUserChangeFlagLoaded x.2)) p db))
    else Done (CCSP_SUCCESS, db).

(** ** One parameter of a request *)

(** The syntax that a value of the data type has in a request. *)
Definition request_syntax (ty : DSLH_CWMP_DATA_TYPE) : SLAP_VAR_SYNTAX :=
  match ty with
  | DSLH_CWMP_DATA_TYPE_boolean => SLAP_VAR_SYNTAX_bool
  | DSLH_CWMP_DATA_TYPE_int => SLAP_VAR_SYNTAX_int
  | DSLH_CWMP_DATA_TYPE_unsignedInt => SLAP_VAR_SYNTAX_uint32
  | _ => SLAP_VAR_SYNTAX_string
  end.

(** A fault that ends the loop: the status and the name it reports. *)
Abbreviation fault_report := (Z * option cstr)%type.

(** The end of the round: the record enters the arrays, which are made when the
    session has none. *)
Definition enlist (p : varptr) db : DSLH_WMP_DATABASE B :=
  let db := match hVarRecordArray db, hObjRecordArray db with
            | Some _, Some _ => db
            | _, _ => DslhWmpdoInitObjVarArray db
            end in
  DslhWmpdoAddObjRecordIntoArray p.1 (DslhWmpdoAddVarRecordIntoArray p db).

(** The part of a round behind the test of the value: the record of the
    parameter holds the value already. *)
Definition accept_param (writeID : Z) (p : varptr) (Name : cstr) (Value : SLAP_VARIABLE) db
  : outcome (option fault_report * DSLH_WMP_DATABASE B) :=
  x ← var_at db p;
  if access_denied writeID (AccessList x.2) then Done (Some (CCSP_ERR_NOT_WRITABLE, Some Name), db)
  else
    let db := upd_var (set_ReqSenderID writeID) p db in
    u ← (if bMonitor (ParamDescr_of x.2) then CheckUserChangedFlag writeID p Name Value db else Done (CCSP_SUCCESS, db));
    let '(status, db) := u in
    if negb (status =? CCSP_SUCCESS) then Done (Some (status, Some Name), db)
    else
      old ← current_value p db;
      let db := upd_var (fun r => set_pending (TempParamValue r) (TempParamValueTrans r) old (bAlreadySet r) r) p db in
      Done (None, enlist p db).

Definition set_one_param (bFromAcs : bool) (writeID : Z) (v : DSLH_CWMP_PARAM_VALUE) db
  : outcome (option fault_report * DSLH_WMP_DATABASE B) :=
  match pv_Name v, pv_Value v with
  | None, _ => Done (Some (CCSP_ERR_INVALID_ARGUMENTS, None), db)
  | Some Name, None => Done (Some (CCSP_ERR_INVALID_PARAMETER_VALUE, Some Name), db)
  | Some Name, Some Value =>
      p ← DslhWmpdoMprGetVarRecord (store db) (hRootObjRecord db) Name;
      match p with
      | None => Done (Some (CCSP_ERR_INVALID_PARAMETER_NAME, Some Name), db)
      | Some p =>
          x ← var_at db p;
          let '(o, r) := x in
          if bInvisible (ParamDescr_of r) && bFromAcs then Done (Some (CCSP_ERR_INVALID_PARAMETER_NAME, Some Name), db)
          else if negb (bool_decide (Syntax Value = request_syntax (DataType (hDslhVarEntity r)))) then
            Done (Some (CCSP_ERR_INVALID_PARAMETER_TYPE, Some Name), db)
          else if negb (DslhVarroIsRecordWritable DslhObjcoCheckParamWritability r) then
            Done (Some (CCSP_ERR_NOT_WRITABLE, Some Name), db)
          else
            t ← DslhVarroTstValue inet_addr b64_decode (bGroupCommit o) r Value;
            let '(ok, r', Value') := t in
            if negb ok then Done (Some (CCSP_ERR_INVALID_PARAMETER_VALUE, Some Name), upd_var (fun _ => r') p db)
            else accept_param writeID p Name Value' (upd_var (fun _ => r') p db)
      end
  end.

(** The loop over the request.  [vars] and [objs] are the counts that the last
    finished round has left in the variables of the function: how many entries
    of the arrays it looks at afterwards. *)
Fixpoint set_params (bFromAcs : bool) (writeID : Z) (l : list DSLH_CWMP_PARAM_VALUE) (vars objs : nat) db
  : outcome (option fault_report * nat * nat * DSLH_WMP_DATABASE B) :=
  match l with
  | [] => Done (None, vars, objs, db)
  | v :: l =>
      r ← set_one_param bFromAcs writeID v db;
      let '(fault, db) := r in
      match fault with
      | Some f => Done (Some f, vars, objs, db)
      | None => set_params bFromAcs writeID l (ulVarRecordCount db) (ulObjRecordCount db) db
      end
  end.

(** ** Verifying, committing and cancelling the arrays *)

Fixpoint verify_all (l : list nat) db : outcome (option (option cstr) * DSLH_WMP_DATABASE B) :=
  match l with
  | [] => Done (None, db)
  | i :: l =>
      r ← DslhObjroVerifyChanges i db;
      let '(ok, fault, db) := r in
      if (ok : bool) then verify_all l db else Done (Some fault, db)
  end.

Definition cancel_vars (l : list varptr) db : DSLH_WMP_DATABASE B :=
  foldl (fun db p => upd_var DslhVarroCancelChange p db) db l.
Fixpoint cancel_objs (l : list nat) db : outcome (DSLH_WMP_DATABASE B) :=
  match l with
  | [] => Done db
  | i :: l => r ← DslhObjroCancelChanges i db; cancel_objs l r.2
  end.

(** The status of the commit of an object only decides who wrote last. *)
Fixpoint commit_objs (writeID : Z) (l : list nat) db : outcome (DSLH_WMP_DATABASE B) :=
  match l with
  | [] => Done db
  | i :: l =>
      r ← DslhObjroCommitChanges i db;
      let '(status, db) := r in
      let db := if status =? STATUS_SUCCESS then with_lastWriteEntity writeID db else db in
      o ← obj_at (store db) i;
      commit_objs writeID l (put_obj i (set_commit_flags (bCommitting o) true o) (backend db) db)
  end.
(** Whether one of the parameters needs a reboot. *)
Fixpoint commit_vars (l : list varptr) (bRebootNeeded : bool) db : outcome (bool * DSLH_WMP_DATABASE B) :=
  match l with
  | [] => Done (bRebootNeeded, db)
  | p :: l =>
      x ← var_at db p;
      commit_vars l (bRebootNeeded || bNeedReboot (ParamDescr_of x.2)) (upd_var DslhVarroCommitChange p db)
  end.

(** The status, and [*piStatus]. *)
Definition DslhWmpdoMpaSetCommit (sessionId writeID : Z) (bCommit : bool) db : outcome (Z * Z * DSLH_WMP_DATABASE B) :=
  if negb (SessionID db =? ULONG sessionId) then Done (STATUS_FAILURE, 0, db)
  else
    match hVarRecordArray db, hObjRecordArray db with
    | Some vars, Some objs =>
        if bCommit then
          db ← commit_objs writeID objs db;
          r ← commit_vars vars false db;
          let '(bRebootNeeded, db) := r in
          Done (STATUS_SUCCESS, if (bRebootNeeded : bool) then 1 else 0, DslhWmpdoResetObjVarArray db)
        else
          db ← cancel_objs objs (cancel_vars vars db);
          Done (STATUS_SUCCESS, 0, with_arrays None None db)
    | _, _ => Done (if bCommit then STATUS_FAILURE else STATUS_SUCCESS, 0, DslhWmpdoResetObjVarArray db)
    end.

(** The end of a request that failed ([EXIT2]): the records that the request
    has counted are cancelled; the objects are not for a request from SNMP. *)
Definition abandon (bFromSnmp : bool) (vars objs : nat) db : outcome (DSLH_WMP_DATABASE B) :=
  let db := cancel_vars (take vars (default [] (hVarRecordArray db))) db in
  db ← (if bFromSnmp then Done db else cancel_objs (take objs (default [] (hObjRecordArray db))) db);
  Done (DslhWmpdoResetObjVarArray db).

(** What a request yields: the status, [*piStatus] and
    [*ppInvalidParameterName], which starts as NULL. *)
Record REPLY := Reply { returnStatus : Z; iStatus : Z; InvalidParameterName : option cstr }.

Definition DslhWmpdoMpaSetParameterValues (pAccessEntity : cstr) (pParamValueArray : list DSLH_CWMP_PARAM_VALUE)
    (sessionId writeID : Z) (bCommit : bool) db : outcome (REPLY * DSLH_WMP_DATABASE B) :=
  let bFromAcs := (writeID =? DSLH_MPA_ACCESS_CONTROL_ACS) && bool_decide (pAccessEntity = DSLH_MPA_ENTITY_ACS) in
  let bFromSnmp := writeID =? DSLH_MPA_ACCESS_CONTROL_SNMP in
  match pParamValueArray with
  | [] => Done (Reply STATUS_SUCCESS 0 None, db)
  | _ =>
      let db := with_SessionID (ULONG sessionId) db in
      r ← set_params bFromAcs writeID pParamValueArray 0 0 db;
      let '(fault, vars, objs, db) := r in
      match fault with
      | Some (status, name) => db ← abandon bFromSnmp vars objs db; Done (Reply status 0 name, db)
      | None =>
          r ← verify_all (take objs (default [] (hObjRecordArray db))) db;
          let '(invalid, db) := r in
          match invalid with
          | Some name =>
              db ← abandon bFromSnmp vars objs db;
              Done (Reply CCSP_ERR_INVALID_PARAMETER_VALUE 0 name, db)
          | None =>
              if bCommit then
                r ← DslhWmpdoMpaSetCommit sessionId writeID true db;
                let '(_, piStatus, db) := r in
                Done (Reply STATUS_SUCCESS piStatus None, DslhWmpdoResetObjVarArray db)
              else Done (Reply STATUS_SUCCESS 0 None, db)
          end
      end
  end.

End request.
End database.
