(* ===== verification/ParamShape.v ===== *)
(** * What a request needs of the database, and what it keeps

    The interface of a backend that keeps staged values beside committed ones;
    the shape of a database, which no request changes; and what it means that
    the record of a parameter holds a value. *)

From S2P Require Import Prelude CStrings Tokens IpAddr SlapVar SlapConv VarEntity VarValid VarRecord ObjRecord ObjCtl ParamSet.
Open Scope Z_scope.

(** ** What the library expects of a backend *)

Inductive setting := SBool (x : bool) | SInt (x : Z) | SUlong (x : Z) | SString (s : option cstr).

(** What a backend holds of the parameters of each object. *)
Class TwoPhase (B : Type) := {
  committed : B -> nat -> cstr -> option setting;
  staged : B -> nat -> cstr -> option setting }.

Section laws.
Context {B : Type} `{TwoPhase B}.

(** Nothing but the staged values of object [i] differs. *)
Definition staging_only (i : nat) (b b' : B) : Prop :=
  (forall j n, committed b' j n = committed b j n) /\ (forall j n, j ≠ i -> staged b' j n = staged b j n).

(** A setter stages the value when it returns TRUE. *)
Definition stages {A} (i : nat) (g : cstr -> A -> B -> bool * B) (make : A -> setting) : Prop :=
  forall n x b, staging_only i b (g n x b).2 /\
    ((g n x b).1 = true ->
     forall m, staged (g n x b).2 i m = if bool_decide (m = n) then Some (make x) else staged b i m).

(** The interface of object [i], with names as they are in the object. *)
Record two_phase (i : nat) (f : DSLH_TR69_INTERFACE B) : Prop := {
  tp_bulk : SetEntryBulk f = None;
  tp_name : bUseFullName f = false;
  tp_bool : exists g, SetEntryParamBool f = Some g /\ stages i g SBool;
  tp_int : exists g, SetEntryParamInt f = Some g /\ stages i g SInt;
  tp_ulong : exists g, SetEntryParamUlong f = Some g /\ stages i g SUlong;
  tp_string : exists g, SetEntryParamString f = Some g /\ stages i g SString;
  tp_validate : forall g b, Validate f = Some g ->
    (forall j n, committed (g b).2 j n = committed b j n) /\ (forall j n, staged (g b).2 j n = staged b j n);
  tp_commit : exists g, Commit f = Some g /\ forall b,
    (forall j n, committed (g b).2 j n =
       if bool_decide (j = i) then match staged b i n with Some v => Some v | None => committed b i n end
       else committed b j n) /\
    (forall j n, staged (g b).2 j n = if bool_decide (j = i) then None else staged b j n);
  tp_rollback : exists g, Rollback f = Some g /\ forall b,
    (forall j n, committed (g b).2 j n = committed b j n) /\
    (forall j n, staged (g b).2 j n = if bool_decide (j = i) then None else staged b j n) }.

Lemma staging_only_refl i b : staging_only i b b.
Proof. done. Qed.

Lemma staging_only_trans i b1 b2 b3 : staging_only i b1 b2 -> staging_only i b2 b3 -> staging_only i b1 b3.
Proof. intros [C1 S1] [C2 S2]. split; intros; [by rewrite C2|by rewrite S2, S1]. Qed.
End laws.

(** ** Shapes: what no request changes *)

Section shapes.
Context {B : Type}.
Implicit Types (db : DSLH_WMP_DATABASE B) (o : DSLH_OBJ_RECORD B).

Definition shape_rec (r : DSLH_VAR_RECORD) : DSLH_VAR_RECORD := set_ReqSenderID 0 (drop_pending r).
Definition shape_obj o : DSLH_OBJ_RECORD B :=
  set_VarroTable (shape_rec <$> VarroTable o) (set_commit_flags (bCommitting o) false o).
Definition shape db : list (DSLH_OBJ_RECORD B) := shape_obj <$> store db.

Definition rec_at db (p : varptr) : option DSLH_VAR_RECORD := store db !! p.1 ≫= fun o => VarroTable o !! p.2.

Lemma var_at_rec db p o r : var_at db p = Done (o, r) <-> store db !! p.1 = Some o /\ VarroTable o !! p.2 = Some r.
Proof.
  unfold var_at, obj_at. destruct (store db !! p.1) as [o'|]; cbn [mbind outcome_bind]; [|naive_solver].
  destruct (VarroTable o' !! p.2) eqn:E; naive_solver.
Qed.

Lemma var_at_rec_at db p o r : var_at db p = Done (o, r) -> rec_at db p = Some r.
Proof. intros [Ho Hr]%var_at_rec. unfold rec_at. rewrite Ho. cbn. exact Hr. Qed.

Lemma set_VarroTable_twice l l' o : set_VarroTable l (set_VarroTable l' o) = set_VarroTable l o.
Proof. done. Qed.

Lemma shape_obj_set l o : shape_rec <$> l = shape_rec <$> VarroTable o -> shape_obj (set_VarroTable l o) = shape_obj o.
Proof. intros E. unfold shape_obj. cbn [VarroTable set_VarroTable]. by rewrite E. Qed.

Lemma fmap_alter_id {A C} (g : A -> C) (f : A -> A) j (l : list A) :
  (forall x, l !! j = Some x -> g (f x) = g x) -> g <$> alter f j l = g <$> l.
Proof.
  intros Hf. apply list_eq. intros k. rewrite !list_lookup_fmap. destruct (decide (j = k)) as [->|Hne].
  - rewrite list_lookup_alter_eq. destruct (l !! k) eqn:E; cbn; [|done]. by rewrite Hf.
  - by rewrite list_lookup_alter_ne.
Qed.

Lemma shape_upd_var f p db : (forall r, rec_at db p = Some r -> shape_rec (f r) = shape_rec r) ->
  shape (upd_var f p db) = shape db.
Proof.
  intros Hf. unfold shape, upd_var. cbn [store with_objects]. apply fmap_alter_id. intros o Ho.
  apply shape_obj_set. apply fmap_alter_id. intros r Hr. apply Hf. unfold rec_at. by rewrite Ho.
Qed.

Lemma rec_at_upd f p q db :
  rec_at (upd_var f p db) q = if bool_decide (p = q) then f <$> rec_at db q else rec_at db q.
Proof.
  unfold rec_at, upd_var. cbn [store with_objects]. destruct p as [i j], q as [i' j']; cbn [fst snd].
  destruct (decide (i = i')) as [->|Hi].
  - rewrite list_lookup_alter_eq. destruct (store db !! i') as [o|]; cbn; [|by destruct (bool_decide _)].
    destruct (decide (j = j')) as [->|Hj].
    + by rewrite list_lookup_alter_eq, bool_decide_true.
    + rewrite list_lookup_alter_ne by done. rewrite bool_decide_false; [done|]. by intros [= E].
  - rewrite list_lookup_alter_ne by done. rewrite bool_decide_false; [done|]. by intros [= E].
Qed.

Lemma obj_at_upd f p db i o : store (upd_var f p db) !! i = Some o ->
  exists o0, store db !! i = Some o0 /\ hDslhTr69If o = hDslhTr69If o0 /\ bGroupCommit o = bGroupCommit o0.
Proof.
  unfold upd_var. cbn [store with_objects]. destruct (decide (p.1 = i)) as [<-|Hne].
  - rewrite list_lookup_alter_eq. destruct (store db !! p.1) as [o0|]; cbn; [|done]. intros [= <-]. by exists o0.
  - rewrite list_lookup_alter_ne by done. intros Ho. by exists o.
Qed.

(** The shape of a store determines the records' names and the tree. *)
Lemma shape_lookup db i o : store db !! i = Some o -> shape db !! i = Some (shape_obj o).
Proof. intros Ho. unfold shape. by rewrite list_lookup_fmap, Ho. Qed.

Lemma shape_eq_lookup db db' i o : shape db' = shape db -> store db !! i = Some o ->
  exists o', store db' !! i = Some o' /\ shape_obj o' = shape_obj o.
Proof.
  intros E Ho%shape_lookup. rewrite <-E in Ho. unfold shape in Ho. rewrite list_lookup_fmap in Ho.
  destruct (store db' !! i) as [o'|]; cbn in Ho; [|done]. apply (inj Some) in Ho. by exists o'.
Qed.

Lemma shape_obj_rec o o' j r : shape_obj o' = shape_obj o -> VarroTable o !! j = Some r ->
  exists r', VarroTable o' !! j = Some r' /\ shape_rec r' = shape_rec r.
Proof.
  intros E Hr. apply (f_equal VarroTable) in E. cbn in E. apply (f_equal (.!! j)) in E.
  rewrite !list_lookup_fmap, Hr in E. cbn in E. destruct (VarroTable o' !! j) as [r'|]; cbn in E; [|done].
  apply (inj Some) in E. by exists r'.
Qed.

Lemma shape_rec_entity r r' : shape_rec r' = shape_rec r ->
  hDslhVarEntity r' = hDslhVarEntity r /\ AccessList r' = AccessList r.
Proof. intros E. split; [apply (f_equal hDslhVarEntity) in E|apply (f_equal AccessList) in E]; exact E. Qed.

Lemma rec_at_shape db db' p r : shape db' = shape db -> rec_at db p = Some r ->
  exists r', rec_at db' p = Some r' /\ shape_rec r' = shape_rec r.
Proof.
  intros E Hr. unfold rec_at in Hr. destruct (store db !! p.1) as [o|] eqn:Ho; cbn in Hr; [|done].
  destruct (shape_eq_lookup _ _ _ _ E Ho) as (o' & Ho' & Es). destruct (shape_obj_rec _ _ _ _ Es Hr) as (r' & Hr' & Er).
  exists r'. unfold rec_at. by rewrite Ho'.
Qed.

(** Two records of one parameter are of one entity. *)
Lemma rec_at_same_entity db db' p r r' : shape db' = shape db -> rec_at db p = Some r -> rec_at db' p = Some r' ->
  hDslhVarEntity r' = hDslhVarEntity r.
Proof.
  intros E Hr Hr'. destruct (rec_at_shape _ _ _ _ E Hr) as (r2 & Hr2 & Es). rewrite Hr' in Hr2. apply (inj Some) in Hr2 as <-.
  by apply shape_rec_entity in Es as [].
Qed.

(** Putting back an object whose records have changed. *)
Lemma rec_at_put db i o l' b p : store db !! i = Some o ->
  rec_at (put_obj i (set_VarroTable l' o) b db) p = if bool_decide (p.1 = i) then l' !! p.2 else rec_at db p.
Proof.
  intros Ho. unfold rec_at, put_obj. cbn [store with_objects]. case_bool_decide as Hi.
  - rewrite Hi, list_lookup_insert_eq by (by eapply lookup_lt_Some). done.
  - by rewrite list_lookup_insert_ne by done.
Qed.

Lemma shape_put db i o o' b : store db !! i = Some o -> shape_obj o' = shape_obj o -> shape (put_obj i o' b db) = shape db.
Proof.
  intros Ho E. unfold shape, put_obj. cbn [store with_objects]. rewrite list_fmap_insert, E.
  apply list_insert_id. by rewrite list_lookup_fmap, Ho.
Qed.

Lemma find_var_shape l name : find_var (shape_rec <$> l) name = find_var l name.
Proof.
  induction l as [|r l IH]; [done|]. rewrite fmap_cons. cbn [find_var]. rewrite IH. done.
Qed.
End shapes.

(** The tree of names is in the shape. *)
Section resolution.
Context `{Platform} {B : Type}.

Lemma obj_at_shape (st : list (DSLH_OBJ_RECORD B)) i :
  obj_at (shape_obj <$> st) i = (o ← obj_at st i; Done (shape_obj o)).
Proof. unfold obj_at. rewrite list_lookup_fmap. by destruct (st !! i). Qed.

Lemma find_child_shape (st : list (DSLH_OBJ_RECORD B)) children name :
  find_obj (shape_obj <$> st) children name = find_obj st children name.
Proof.
  induction children as [|i children IH]; [done|]. cbn [find_obj]. rewrite obj_at_shape.
  destruct (obj_at st i) as [o|]; cbn [mbind outcome_bind]; [|done]. by rewrite IH.
Qed.

Lemma GetObjRecord2_shape (st : list (DSLH_OBJ_RECORD B)) chain : forall i,
  DslhObjroGetObjRecord2 (shape_obj <$> st) i chain = DslhObjroGetObjRecord2 st i chain.
Proof.
  induction chain as [|t chain IH]; intros i; [done|]. cbn [DslhObjroGetObjRecord2].
  destruct (token_name t) as [name|]; cbn [mbind outcome_bind]; [|done].
  rewrite obj_at_shape. destruct (obj_at st i) as [o|]; cbn [mbind outcome_bind]; [|done].
  rewrite find_child_shape. change (ObjroQueue (shape_obj o)) with (ObjroQueue o).
  destruct (if deref name =? 0 then _ else _) as [[c|]|]; cbn [mbind outcome_bind]; [|done..].
  destruct chain; [done|]. apply IH.
Qed.

Lemma GetVarRecord_shape (st : list (DSLH_OBJ_RECORD B)) root name :
  DslhWmpdoMprGetVarRecord (shape_obj <$> st) root name = DslhWmpdoMprGetVarRecord st root name.
Proof.
  unfold DslhWmpdoMprGetVarRecord. destruct (_ || _); [done|].
  destruct (AnscTcAllocate _ _ _) as [[[chain|] a]|]; cbn [mbind outcome_bind fst]; [|done..].
  destruct (last chain) as [t|]; [|done]. destruct root as [root|]; [|done].
  rewrite GetObjRecord2_shape. destruct (DslhObjroGetObjRecord2 st root _) as [[i|]|]; cbn [mbind outcome_bind]; [|done..].
  rewrite obj_at_shape. destruct (obj_at st i) as [o|]; cbn [mbind outcome_bind]; [|done].
  destruct (token_name t) as [n|]; cbn [mbind outcome_bind]; [|done].
  unfold DslhObjroGetVarRecord. change (VarroTable (shape_obj o)) with (shape_rec <$> VarroTable o).
  by rewrite find_var_shape.
Qed.

(** The parameter that an entry of a request names. *)
Definition resolve (db : DSLH_WMP_DATABASE B) (v : DSLH_CWMP_PARAM_VALUE) : option varptr :=
  match pv_Name v with
  | Some n => match DslhWmpdoMprGetVarRecord (store db) (hRootObjRecord db) n with Done p => p | Stuck _ => None end
  | None => None
  end.

Lemma resolve_shape db db' v : shape db' = shape db -> hRootObjRecord db' = hRootObjRecord db -> resolve db' v = resolve db v.
Proof.
  intros Es Er. unfold resolve. destruct (pv_Name v); [|done].
  rewrite <-(GetVarRecord_shape (store db')), <-(GetVarRecord_shape (store db)).
  fold (shape db'). fold (shape db). by rewrite Es, Er.
Qed.
End resolution.

(** ** Accepting values *)

Section accepting.
Context `{Platform} {B : Type} (inet_addr : cstr -> list Z) (b64_decode : list Z -> list Z).

(** The test of a value without its record: the result, the converted value and
    the value as the checks leave it. *)
Definition tested (e : DSLH_VAR_ENTITY) (v : SLAP_VARIABLE) : outcome (bool * option SLAP_VARIABLE * SLAP_VARIABLE) :=
  c ← check_data_type inet_addr b64_decode e v;
  match c with
  | (None, v) => Done (false, None, v)
  | (Some tok, v) => t ← convert_value inet_addr e tok v; Done (t, v)
  end.

Lemma TstValue_tested r v :
  DslhVarroTstValue inet_addr b64_decode true r v =
    (x ← tested (hDslhVarEntity r) v;
     let '(ok, trans, v') := x in
     Done (ok : bool,
           if ok then set_pending (Some (SlapVhoCloneVariable v' SlapInitVariable))
                        (match trans with Some t => Some t | None => TempParamValueTrans r end)
                        (OldParamValue r) (bAlreadySet r) r
           else r, v')).
Proof.
  unfold DslhVarroTstValue, tested. destruct (check_data_type _ _ _ v) as [[[tok|] w]|]; cbn [mbind outcome_bind]; [|done..].
  destruct (convert_value _ _ _ w) as [[ok t]|] eqn:E; cbn [mbind outcome_bind]; [|done].
  rewrite orb_true_r, andb_true_r. destruct ok; [by destruct t|]. by apply convert_refused in E as ->.
Qed.

Definition is_clean (r : DSLH_VAR_RECORD) : Prop :=
  TempParamValue r = None /\ TempParamValueTrans r = None /\ OldParamValue r = None /\ bAlreadySet r = false.

(** The record holds the value [v] as its pending one. *)
Definition holds_value (v : SLAP_VARIABLE) (r : DSLH_VAR_RECORD) : Prop :=
  bWritable (ParamDescr_of r) = true /\
  exists trans v', tested (hDslhVarEntity r) v = Done (true, trans, v') /\
    TempParamValue r = Some (SlapVhoCloneVariable v' SlapInitVariable) /\ TempParamValueTrans r = trans /\
    bAlreadySet r = false.

(** What the controllers and the parameters of a database must be for a request
    of [writeID] to be a transaction: every object has a backend of its own that
    stages values, commits as a group and has a record for each of its entities,
    whose names differ; and no parameter is kept_out in the repository, is watched
    for changes of a user or is denied to the writer. *)
Definition sendable (s : SLAP_VAR_SYNTAX) : Prop :=
  s ∈ [SLAP_VAR_SYNTAX_bool; SLAP_VAR_SYNTAX_int; SLAP_VAR_SYNTAX_uint32; SLAP_VAR_SYNTAX_string; SLAP_VAR_SYNTAX_ucharArray].
Record ok_rec (writeID : Z) (r : DSLH_VAR_RECORD) : Prop := {
  ok_persistent : bPersistent (ParamDescr_of r) = false;
  ok_monitor : bMonitor (ParamDescr_of r) = false;
  ok_syntax : sendable (ve_Syntax (hDslhVarEntity r));
  ok_access : access_denied writeID (AccessList r) = false }.
Record ok_obj `{TwoPhase B} (writeID : Z) (i : nat) (o : DSLH_OBJ_RECORD B) : Prop := {
  ok_if : exists f, hDslhTr69If o = Some f /\ two_phase i f;
  ok_group : bGroupCommit o = true;
  ok_committing : bCommitting o = false;
  ok_table : VareoTable o = hDslhVarEntity <$> VarroTable o;
  ok_names : NoDup (DslhVarroGetLastName <$> VarroTable o);
  ok_recs : forall r, r ∈ VarroTable o -> ok_rec writeID r }.

Definition db_ok `{TwoPhase B} (writeID : Z) (db : DSLH_WMP_DATABASE B) : Prop :=
  forall i o, shape db !! i = Some o -> ok_obj writeID i o.

Lemma db_ok_obj `{TwoPhase B} writeID db i o : db_ok writeID db -> store db !! i = Some o -> ok_obj writeID i o.
Proof.
  intros Hok Ho%shape_lookup. destruct (Hok _ _ Ho) as [If Gr Co Ta Na Re].
  cbn in Ta, Na, Re. split; try done.
  - rewrite Ta, <-list_fmap_compose. done.
  - rewrite <-list_fmap_compose in Na. done.
  - intros r Hr. assert (Hs : ok_rec writeID (shape_rec r)) by (apply Re, list_elem_of_fmap_2, Hr).
    by destruct Hs.
Qed.

Lemma db_ok_rec `{TwoPhase B} writeID db p r : db_ok writeID db -> rec_at db p = Some r ->
  exists o, store db !! p.1 = Some o /\ VarroTable o !! p.2 = Some r /\ ok_obj writeID p.1 o /\ ok_rec writeID r.
Proof.
  intros Hok Hr. unfold rec_at in Hr. destruct (store db !! p.1) as [o|] eqn:Ho; cbn in Hr; [|done].
  exists o. pose proof (db_ok_obj _ _ _ _ Hok Ho) as Hobj. split_and!; [done..|].
  apply (ok_recs _ _ _ Hobj). by eapply list_elem_of_lookup_2.
Qed.

End accepting.
