(* ===== verification/ParamStage.v ===== *)
(** * Validation hands over exactly the pending values

    The loop of [DslhObjcoValidate] over the parameters of one object, with a
    backend that stages values: what is staged after it, and that the records
    keep their values. *)

From S2P Require Import Prelude CStrings Tokens IpAddr SlapVar SlapConv VarEntity VarValid VarRecord ObjRecord ObjCtl ParamSet ParamShape.
Open Scope Z_scope.

Section staging.
Context `{Platform} {B : Type} `{TwoPhase B}.
Implicit Types (o : DSLH_OBJ_RECORD B) (b : B) (r : DSLH_VAR_RECORD).

(** ** The records of an object by name *)

Lemma find_var_alter (f : DSLH_VAR_RECORD -> DSLH_VAR_RECORD) j l name :
  (forall r, DslhVarroGetLastName (f r) = DslhVarroGetLastName r) -> find_var (alter f j l) name = find_var l name.
Proof.
  intros Hf. revert j. induction l as [|r l IH]; intros [|j]; try done; cbn; [by rewrite Hf|by rewrite IH].
Qed.

Lemma find_var_Some l name j : find_var l name = Some j ->
  exists r, l !! j = Some r /\ DslhVarroGetLastName r = name.
Proof.
  revert j. induction l as [|r l IH]; intros j; [done|]. cbn. case_bool_decide as Hb.
  - intros [= <-]. by exists r.
  - destruct (find_var l name) as [k|]; cbn; [|done]. intros [= <-]. by apply IH.
Qed.

Lemma rvq_record_lookup o name j r : NoDup (DslhVarroGetLastName <$> VarroTable o) ->
  VarroTable o !! j = Some r -> DslhVarroGetLastName r = name ->
  DslhObjroGetVarRecord o name = Some j /\ rvq_record o name = Some r.
Proof.
  intros Hnd Hj Hname. assert (Hf : find_var (VarroTable o) name = Some j).
  { revert j Hnd Hj. induction (VarroTable o) as [|r' l IH]; intros j Hnd Hj; [done|]. cbn in Hnd |- *.
    apply NoDup_cons in Hnd as [Hnin Hnd]. destruct j as [|j]; cbn in Hj.
    - injection Hj as ->. by rewrite bool_decide_true.
    - rewrite bool_decide_false; [by rewrite (IH j)|]. intros E. destruct Hnin. rewrite E, <-Hname.
      apply list_elem_of_fmap_2. by eapply list_elem_of_lookup_2. }
  split; [exact Hf|]. unfold rvq_record, DslhObjroGetVarRecord. by rewrite Hf.
Qed.

Lemma rvq_record_clear o n m : rvq_record (DslhObjroRvqClearParamUpdated o n) m =
  if bool_decide (m = n) then set_already <$> rvq_record o m else rvq_record o m.
Proof.
  unfold DslhObjroRvqClearParamUpdated. destruct (DslhObjroGetVarRecord o n) as [j|] eqn:Ej.
  2:{ case_bool_decide; subst; [|done]. unfold rvq_record. by rewrite Ej. }
  unfold rvq_record, DslhObjroGetVarRecord in *. cbn [VarroTable set_VarroTable]. rewrite find_var_alter by done.
  case_bool_decide as Hb.
  - subst. rewrite Ej. cbn. by rewrite list_lookup_alter_eq.
  - destruct (find_var (VarroTable o) m) as [k|] eqn:Ek; cbn; [|done].
    rewrite list_lookup_alter_ne; [done|]. intros <-. apply find_var_Some in Ej, Ek. naive_solver.
Qed.

(** A name that resolves is the name of a record. *)
Lemma resolve_rec (db : DSLH_WMP_DATABASE B) v p : resolve db v = Some p -> is_Some (rec_at db p).
Proof.
  unfold resolve. destruct (pv_Name v) as [n|]; [|done].
  destruct (DslhWmpdoMprGetVarRecord _ _ n) as [q|] eqn:E; [|done]. intros ->. revert E.
  unfold DslhWmpdoMprGetVarRecord. destruct (_ || _); [done|].
  destruct (AnscTcAllocate _ _ _) as [[[chain|] a]|]; cbn [mbind outcome_bind fst]; [|done..].
  destruct (last chain) as [t|]; [|done]. destruct (match hRootObjRecord db with None => _ | Some _ => _ end) as [[i|]|];
    cbn [mbind outcome_bind]; [|done..].
  unfold obj_at. destruct (store db !! i) as [o|] eqn:Ho; cbn [mbind outcome_bind]; [|done].
  destruct (token_name t) as [nm|]; cbn [mbind outcome_bind]; [|done].
  unfold DslhObjroGetVarRecord. destruct (find_var _ nm) as [j|] eqn:Ej; cbn; [|done].
  intros [= <-]. apply find_var_Some in Ej as (r & Hr & _). exists r. unfold rec_at. cbn. by rewrite Ho.
Qed.

(** ** What is sent *)

(** The setting that a value becomes for an entity. *)
Definition sent (e : DSLH_VAR_ENTITY) (v : SLAP_VARIABLE) : outcome setting :=
  match ve_Syntax e with
  | SLAP_VAR_SYNTAX_bool => u ← varUint32 v; Done (SBool (negb (u =? 0)))
  | SLAP_VAR_SYNTAX_int => x ← varInt v; Done (SInt x)
  | SLAP_VAR_SYNTAX_uint32 => x ← varUint32 v; Done (SUlong x)
  | _ => match varString v with None => Done (SString None) | Some read => s ← read; Done (SString (Some s)) end
  end.

Lemma stages_call {A} i (g : cstr -> A -> B -> bool * B) make n (x : outcome A) b ok b' : stages i g make ->
  (y ← x; Done (g n y b)) = Done (ok, b') ->
  staging_only i b b' /\
  (ok = true -> exists y, x = Done y /\ forall m, staged b' i m = if bool_decide (m = n) then Some (make y) else staged b i m).
Proof.
  intros Hg E. destruct x as [y|]; cbn [mbind outcome_bind] in E; [|done].
  assert (E' : g n y b = (ok, b')) by congruence. destruct (Hg n y b) as [H1 H2]. rewrite E' in *. eauto.
Qed.

Lemma set_entry_stages i f o e r v b ok b' : two_phase i f -> sendable (ve_Syntax e) ->
  rvq_record o (pd_Name (ve_ParamDescr e)) = Some r -> pending_value r = Some v ->
  set_entry f o e (pd_Name (ve_ParamDescr e)) b = Done (ok, b') ->
  staging_only i b b' /\
  (ok = true -> exists s, sent e v = Done s /\
    forall m, staged b' i m = if bool_decide (m = pd_Name (ve_ParamDescr e)) then Some s else staged b i m).
Proof.
  intros Hf Hs Hr Hv E. unfold set_entry in E.
  destruct (tp_bool _ _ Hf) as (gb & Eb & Hb), (tp_int _ _ Hf) as (gi & Ei & Hi),
    (tp_ulong _ _ Hf) as (gu & Eu & Hu), (tp_string _ _ Hf) as (gs & Es & Hst).
  rewrite Eb, Ei, Eu, Es in E. unfold sent.
  unfold DslhObjroRvqGetParamValueBool, DslhObjroRvqGetParamValueInt, DslhObjroRvqGetParamValueUint32,
    DslhObjroRvqGetParamValueString, DslhObjroRvqGetParamValue in E. rewrite Hr in E. cbn [mbind option_bind] in E.
  rewrite Hv in E.
  unfold sendable in Hs. rewrite !elem_of_cons in Hs.
  destruct Hs as [Hs|[Hs|[Hs|[Hs|[Hs|Hs]]]]]; rewrite ?Hs in *; [..|by apply elem_of_nil in Hs];
    (eapply stages_call in E; [|eassumption]); destruct E as [H1 H2]; (split; [exact H1|]); intros Hok';
    destruct (H2 Hok') as (y & Ey & Hy).
  - destruct (varUint32 v); cbn in *; [|done]. injection Ey as <-. eauto.
  - rewrite Ey. cbn. eauto.
  - rewrite Ey. cbn. eauto.
  - destruct (varString v) as [[s|]|]; cbn in *; [|done|]; injection Ey as <-; eauto.
  - destruct (varString v) as [[s|]|]; cbn in *; [|done|]; injection Ey as <-; eauto.
Qed.
(** ** The loop *)

(** A record may be marked as handed over when it has a pending value. *)
Definition marked r r' : Prop := r' = r \/ r' = set_already r /\ is_Some (TempParamValue r).
Abbreviation ename e := (pd_Name (ve_ParamDescr e)).

#[export] Instance marked_refl : Reflexive marked.
Proof. intros r. by left. Qed.
#[export] Instance marked_trans : Transitive marked.
Proof. intros r1 r2 r3 [->|[-> H1]] [->|[-> H2]]; unfold marked; auto. Qed.

Lemma to_hand_over_pending o e : to_hand_over o e = true ->
  exists r v, rvq_record o (ename e) = Some r /\ pending_value r = Some v /\ is_Some (TempParamValue r).
Proof.
  unfold to_hand_over, DslhObjroRvqIsParamUpdated. intros [_ E]%andb_true_iff.
  destruct (rvq_record o _) as [r|]; [|done]. destruct (TempParamValue r) as [w|] eqn:Ew; [|done].
  exists r. unfold pending_value. rewrite Ew. destruct (TempParamValueTrans r); eauto.
Qed.

Lemma to_hand_over_clear o e e' : ename e' ≠ ename e ->
  to_hand_over (DslhObjroRvqClearParamUpdated o (ename e)) e' = to_hand_over o e'.
Proof.
  intros Hne. unfold to_hand_over, DslhObjroRvqIsParamUpdated. by rewrite rvq_record_clear, bool_decide_false.
Qed.

Lemma clear_marked o e : to_hand_over o e = true ->
  exists l', DslhObjroRvqClearParamUpdated o (ename e) = set_VarroTable l' o /\ Forall2 marked (VarroTable o) l'.
Proof.
  intros (r & _ & Hr & _ & Hp)%to_hand_over_pending. unfold rvq_record in Hr.
  unfold DslhObjroRvqClearParamUpdated.
  destruct (DslhObjroGetVarRecord o _) as [j|]; cbn in Hr; [|done].
  eexists. split; [done|]. apply Forall2_same_length_lookup_2; [by rewrite length_alter|].
  intros k x y Hx. destruct (decide (j = k)) as [->|Hne].
  - rewrite list_lookup_alter_eq, Hx. intros [= <-]. right. split; [done|]. congruence.
  - rewrite list_lookup_alter_ne by done. rewrite Hx. intros [= <-]. by left.
Qed.

Lemma validate_each_stages i f l : two_phase i f -> NoDup ((fun e => ename e) <$> l) ->
  (forall e, e ∈ l -> sendable (ve_Syntax e)) ->
  forall o b res o' b', validate_each f l o b = Done (res, o', b') ->
  staging_only i b b' /\ (exists l', o' = set_VarroTable l' o /\ Forall2 marked (VarroTable o) l') /\
  (res = None ->
    (forall e, e ∈ l -> to_hand_over o e = true -> exists r v s, rvq_record o (ename e) = Some r /\
       pending_value r = Some v /\ sent e v = Done s /\ staged b' i (ename e) = Some s) /\
    (forall m, (forall e, e ∈ l -> ename e = m -> to_hand_over o e = false) -> staged b' i m = staged b i m)).
Proof.
  intros Hf. induction l as [|e l IH]; intros Hnd Hs o b res o' b' E; cbn [validate_each] in E.
  { simplify_eq. split; [done|]. split; [|set_solver]. exists (VarroTable o'). split; [by destruct o'|done]. }
  cbn in Hnd. apply NoDup_cons in Hnd as [Hnin Hnd].
  assert (Hother : forall e', e' ∈ l -> ename e' ≠ ename e).
  { intros e' He' Heq. destruct Hnin. rewrite <-Heq. apply list_elem_of_fmap. eauto. }
  destruct (to_hand_over o e) eqn:Eh.
  - rewrite (tp_name _ _ Hf) in E. cbn [andb] in E.
    destruct (set_entry f o e (ename e) b) as [[ok b1]|] eqn:E1; cbn [mbind outcome_bind] in E; [|done].
    destruct (to_hand_over_pending _ _ Eh) as (r & v & Hr & Hv & Hp).
    eapply set_entry_stages in E1 as [Hso Hst]; [|done|apply Hs; set_solver|done..].
    destruct ok.
    + destruct (Hst eq_refl) as (s & Hsent & Hstaged). clear Hst.
      destruct (clear_marked _ _ Eh) as (l1 & El1 & Hm1).
      apply IH in E as (Hso' & (l' & -> & Hm') & Hres); [|done|set_solver].
      split; [by eapply staging_only_trans|]. split.
      { exists l'. split; [by rewrite El1, set_VarroTable_twice|]. rewrite El1 in Hm'. by etrans. }
      intros Hn. destruct (Hres Hn) as [R1 R2]. split.
      * intros e' [->|He']%elem_of_cons Hh'.
        { exists r, v, s. split_and!; [done..|]. rewrite R2, Hstaged, bool_decide_true by
            (try done; intros e2 H2 Heq; by destruct (Hother e2)). done. }
        destruct (R1 e' He') as (r2 & v2 & s2 & Hr2 & Hrest); [by rewrite to_hand_over_clear by auto|].
        rewrite rvq_record_clear, bool_decide_false in Hr2 by auto. eauto 10.
      * intros m Hm. rewrite R2, Hstaged.
        -- rewrite bool_decide_false; [done|]. intros ->. specialize (Hm e). rewrite Eh in Hm. by discriminate Hm; set_solver.
        -- intros e' He' <-. rewrite to_hand_over_clear by auto. apply Hm; [set_solver|done].
    + simplify_eq. split; [done|]. split; [|done]. exists (VarroTable o'). split; [by destruct o'|done].
  - apply IH in E as (Hso' & Hm' & Hres); [|done|set_solver].
    split; [done|]. split; [done|]. intros Hn. destruct (Hres Hn) as [R1 R2]. split.
    + intros e' [->|He']%elem_of_cons Hh'; [congruence|]. by apply R1.
    + intros m Hm. apply R2. set_solver.
Qed.
(** ** The whole validation, by records *)

Lemma to_hand_over_record writeID i o j r : ok_obj writeID i o -> VarroTable o !! j = Some r ->
  rvq_record o (DslhVarroGetLastName r) = Some r /\
  to_hand_over o (hDslhVarEntity r) =
    bWritable (ParamDescr_of r) && match TempParamValue r with None => false | Some _ => negb (bAlreadySet r) end.
Proof.
  intros Ho Hj. destruct (rvq_record_lookup o (DslhVarroGetLastName r) j r (ok_names _ _ _ Ho) Hj eq_refl) as [_ Hr].
  split; [exact Hr|]. assert (Hrec : ok_rec writeID r) by (apply (ok_recs _ _ _ Ho); by eapply list_elem_of_lookup_2).
  unfold to_hand_over, DslhObjroRvqIsParamUpdated. unfold DslhVarroGetLastName, ParamDescr_of in Hr. rewrite Hr.
  pose proof (ok_persistent _ _ Hrec) as Hp. unfold ParamDescr_of in *. by rewrite Hp.
Qed.

Lemma validate_stages writeID i o b ok nm o' b' : ok_obj writeID i o ->
  DslhObjcoValidate o b = Done (ok, nm, o', b') ->
  staging_only i b b' /\ (exists l', o' = set_VarroTable l' o /\ Forall2 marked (VarroTable o) l') /\
  (ok = true ->
    (forall j r, VarroTable o !! j = Some r -> bWritable (ParamDescr_of r) = true -> is_Some (TempParamValue r) ->
       bAlreadySet r = false ->
       exists v s, pending_value r = Some v /\ sent (hDslhVarEntity r) v = Done s /\
         staged b' i (DslhVarroGetLastName r) = Some s) /\
    (forall m, (forall j r, VarroTable o !! j = Some r -> DslhVarroGetLastName r = m -> TempParamValue r = None) ->
       staged b' i m = staged b i m)).
Proof.
  intros Ho E. unfold DslhObjcoValidate in E. destruct (ok_if _ _ _ Ho) as (f & Ef & Hf).
  rewrite Ef, (tp_bulk _ _ Hf) in E.
  destruct (validate_each f (VareoTable o) o b) as [[[res o1] b1]|] eqn:E1; cbn [mbind outcome_bind] in E; [|done].
  eapply validate_each_stages in E1 as (Hso & Hm & Hres); [|done|..].
  2:{ rewrite (ok_table _ _ _ Ho), <-list_fmap_compose. exact (ok_names _ _ _ Ho). }
  2:{ rewrite (ok_table _ _ _ Ho). intros e (r & -> & Hr)%list_elem_of_fmap.
      by apply (ok_syntax _ _ (ok_recs _ _ _ Ho _ Hr)). }
  assert (Hfin : o' = o1 /\ staging_only i b1 b' /\ (forall m, staged b' i m = staged b1 i m) /\ (ok = true -> res = None)).
  { destruct res as [name|]; [by simplify_eq|]. destruct (Validate f) as [g|] eqn:Eg; [|by simplify_eq].
    destruct (tp_validate _ _ Hf g b1 Eg) as [V1 V2]. destruct (g b1) as [x b2] eqn:Egb. cbn in V1, V2.
    assert (o' = o1 /\ b' = b2) as [-> ->] by (by destruct x; simplify_eq).
    split_and!; [done| |intros; by rewrite V2|done]. split; [done|]. intros; by rewrite V2. }
  destruct Hfin as (-> & Hso' & Hst & Hn). split; [by eapply staging_only_trans|]. split; [done|].
  intros Hok. destruct (Hres (Hn Hok)) as [R1 R2]. clear Hres Hn. split.
  - intros j r Hj Hw Ht Ha. destruct (to_hand_over_record _ _ _ _ _ Ho Hj) as [Hr Hh].
    destruct (R1 (hDslhVarEntity r)) as (r' & v & s & Hr' & Hv & Hs & Hstg).
    { rewrite (ok_table _ _ _ Ho). apply list_elem_of_fmap_2. by eapply list_elem_of_lookup_2. }
    { rewrite Hh, Hw, Ha. by destruct Ht as [? ->]. }
    assert (r' = r) as ->. { unfold DslhVarroGetLastName, ParamDescr_of in Hr. congruence. }
    exists v, s. rewrite Hst. done.
  - intros m Hm'. rewrite Hst. apply R2. intros e He <-. rewrite (ok_table _ _ _ Ho) in He.
    apply list_elem_of_fmap in He as (r & -> & Hin). apply list_elem_of_lookup in Hin as [j Hj].
    destruct (to_hand_over_record _ _ _ _ _ Ho Hj) as [_ ->]. rewrite (Hm' j r Hj) by done. apply andb_false_r.
Qed.
Lemma marked_shape l l' : Forall2 marked l l' -> shape_rec <$> l' = shape_rec <$> l.
Proof. induction 1 as [|r r' l l' [->|[-> _]] _ IH]; [done|..]; cbn; by rewrite IH. Qed.
End staging.
