(* ===== verification/ParamThms.v ===== *)
(** * The phases of a request

    What the loop over the values, the verification of the objects, the commit
    and the cancellation of [DslhWmpdoMpaSetParameterValues] each do to the
    records and to a backend that keeps staged values beside committed ones. *)

From S2P Require Import Prelude CStrings Tokens IpAddr SlapVar SlapConv VarEntity VarValid VarRecord ObjRecord ObjCtl ParamSet ParamShape ParamStage.
Open Scope Z_scope.

(** The objects of a list of parameters, each once, as they first appear. *)
Definition objects_of (ps : list varptr) : list nat :=
  foldl (fun l p => if bool_decide (p.1 ∈ l) then l else l ++ [p.1]) [] ps.

Lemma touched_snoc ps p :
  objects_of (ps ++ [p]) = if bool_decide (p.1 ∈ objects_of ps) then objects_of ps else objects_of ps ++ [p.1].
Proof. unfold objects_of. by rewrite foldl_app. Qed.

Lemma touched_prefix ps ps' : (length (objects_of ps) <= length (objects_of (ps ++ ps')))%nat.
Proof.
  induction ps' as [|p ps' IH] using rev_ind; [by rewrite app_nil_r|]. rewrite app_assoc, touched_snoc.
  case_bool_decide; [done|]. rewrite length_app. cbn. lia.
Qed.

Lemma elem_of_touched ps i : i ∈ objects_of ps <-> exists p, p ∈ ps /\ p.1 = i.
Proof.
  induction ps as [|p ps IH] using rev_ind; [set_solver|]. rewrite touched_snoc.
  case_bool_decide as Hp; set_solver.
Qed.

Lemma NoDup_touched ps : NoDup (objects_of ps).
Proof.
  induction ps as [|p ps IH] using rev_ind; [constructor|]. rewrite touched_snoc.
  case_bool_decide; [done|]. apply NoDup_app. split_and!; [done|set_solver|apply NoDup_singleton].
Qed.

(** No request is under way: nothing is pending and nothing is staged. *)
Record quiet `{Platform} {B} `{TwoPhase B} (writeID : Z) (db : DSLH_WMP_DATABASE B) : Prop := {
  q_ok : db_ok writeID db;
  q_clean : forall p r, rec_at db p = Some r -> is_clean r;
  q_vars : hVarRecordArray db = None;
  q_objs : hObjRecordArray db = None;
  q_staged : forall i n, staged (backend db) i n = None }.

Section transaction.
Context `{Platform} {B : Type} `{TwoPhase B}.
Context (writeID : Z) (db0 : DSLH_WMP_DATABASE B) (Hok : db_ok writeID db0).
Implicit Types (db : DSLH_WMP_DATABASE B) (ps : list (varptr * SLAP_VARIABLE)).


Lemma db_ok_shape db : shape db = shape db0 -> db_ok writeID db.
Proof. intros E. unfold db_ok. by rewrite E. Qed.

(** ** Accepting *)

Section checks.
Context (inet_addr : cstr -> list Z) (b64_decode : list Z -> list Z).
Notation holds_value := (holds_value inet_addr b64_decode).

(** The records while the values [ps] have been accepted. *)
Definition pending_recs ps db : Prop := forall p r, rec_at db p = Some r ->
  (forall v, (p, v) ∈ ps -> holds_value v r) /\ (p ∉ ps.*1 -> is_clean r).

Record accepted ps db : Prop := {
  in_shape : shape db = shape db0;
  in_root : hRootObjRecord db = hRootObjRecord db0;
  in_backend : backend db = backend db0;
  in_session : SessionID db = SessionID db0;
  in_vars : hVarRecordArray db = if ps is [] then None else Some ps.*1;
  in_objs : hObjRecordArray db = if ps is [] then None else Some (objects_of ps.*1);
  in_recs : pending_recs ps db }.

Lemma accepted_upd_id ps db p r : accepted ps db -> rec_at db p = Some r -> accepted ps (upd_var (fun _ => r) p db).
Proof.
  intros [] Hr. split; try done.
  - rewrite shape_upd_var; [done|]. congruence.
  - intros q r' Hr'. rewrite rec_at_upd in Hr'. case_bool_decide; subst; [|by apply in_recs0].
    rewrite Hr in Hr'. cbn in Hr'. apply in_recs0. congruence.
Qed.

Lemma enlist_arrays ps p v db :
  hVarRecordArray db = (if ps is [] then None else Some ps.*1) ->
  hObjRecordArray db = (if ps is [] then None else Some (objects_of ps.*1)) ->
  (length ps < 256)%nat -> (length (objects_of (ps ++ [(p, v)]).*1) <= 32)%nat ->
  hVarRecordArray (enlist p db) = Some (ps ++ [(p, v)]).*1 /\
  hObjRecordArray (enlist p db) = Some (objects_of (ps ++ [(p, v)]).*1) /\
  exists a b, enlist p db = with_arrays a b db.
Proof.
  intros Ev Eo Hl Ht. rewrite fmap_app in *. cbn [fmap list_fmap fst] in *.
  set (db1 := match hVarRecordArray db, hObjRecordArray db with
              | Some _, Some _ => db | _, _ => DslhWmpdoInitObjVarArray db end).
  assert (E1 : hVarRecordArray db1 = Some ps.*1 /\ hObjRecordArray db1 = Some (objects_of ps.*1) /\
               exists a b, db1 = with_arrays a b db).
  { unfold db1. rewrite Ev, Eo. destruct ps; cbn; [eauto|]. split_and!; [done..|].
    exists (hVarRecordArray db), (hObjRecordArray db). by destruct db. }
  unfold enlist. fold db1. destruct E1 as (E1 & E2 & a & b & E3).
  set (db2 := DslhWmpdoAddVarRecordIntoArray p db1).
  assert (E4 : db2 = with_arrays (Some (ps.*1 ++ [p])) (Some (objects_of ps.*1)) db1).
  { unfold db2, DslhWmpdoAddVarRecordIntoArray, ulVarRecordCount. rewrite E1, E2. cbn [default from_option id].
    rewrite length_fmap. rewrite (proj2 (Nat.ltb_lt _ _)); [done|]. exact Hl. }
  rewrite E4, E3. unfold DslhWmpdoAddObjRecordIntoArray, ulObjRecordCount. cbn [hObjRecordArray with_arrays default from_option id].
  rewrite touched_snoc in *. case_bool_decide as Hp.
  - destruct (Nat.leb_spec DSLH_WMPDO_MAX_OBJ_INARRAY (length (objects_of ps.*1))); [by eauto 10|].
    by eauto 10.
  - rewrite length_app in Ht. cbn in Ht.
    destruct (Nat.leb_spec DSLH_WMPDO_MAX_OBJ_INARRAY (length (objects_of ps.*1))) as [Hle|_];
      [unfold DSLH_WMPDO_MAX_OBJ_INARRAY in Hle; lia|].
    cbn. by eauto 10.
Qed.

Section round.
Context (strcat_s_rest : cstr -> cstr -> outcome cstr).
Context (PSM_Get : cstr -> B -> option SLAP_VARIABLE) (PSM_Set : cstr -> B -> B).

(** The second half of a round, once the record holds the value. *)
Lemma accept_param_step ps db p Name v w r1 fault db' :
  accepted ps db -> p ∉ ps.*1 -> (length ps < 256)%nat -> (length (objects_of (ps.*1 ++ [p])) <= 32)%nat ->
  rec_at (upd_var (fun _ => r1) p db) p = Some r1 -> shape (upd_var (fun _ => r1) p db) = shape db -> holds_value v r1 ->
  accept_param strcat_s_rest PSM_Get PSM_Set writeID p Name w (upd_var (fun _ => r1) p db) = Done (fault, db') ->
  fault = None /\ accepted (ps ++ [(p, v)]) db'.
Proof.
  intros Hacc Hnew Hl Ht Hr1 Hs1 Hh E. set (db1 := upd_var _ p db) in *.
  unfold accept_param in E. destruct (var_at db1 p) as [[o1 r1']|] eqn:Eo1; cbn [mbind outcome_bind] in E; [|done].
  pose proof (var_at_rec_at _ _ _ _ Eo1) as Hr1'. rewrite Hr1 in Hr1'. apply (inj Some) in Hr1' as <-.
  destruct (db_ok_rec _ _ _ _ (db_ok_shape _ (eq_trans Hs1 (in_shape _ _ Hacc))) Hr1) as (_ & _ & _ & _ & Hrec).
  cbn [snd] in E. rewrite (ok_access _ _ Hrec), (ok_monitor _ _ Hrec) in E. cbn [mbind outcome_bind] in E.
  change (CCSP_SUCCESS =? CCSP_SUCCESS) with true in E. cbn [negb] in E.
  destruct (current_value _ _ _) as [old|]; cbn [mbind outcome_bind] in E; [|done].
  set (db2 := upd_var (set_ReqSenderID writeID) p db1) in E.
  set (db3 := upd_var _ p db2) in E. injection E as <- <-. split; [done|].
  assert (Hs3 : shape db3 = shape db).
  { unfold db3. rewrite shape_upd_var by done. unfold db2. by rewrite shape_upd_var. }
  destruct Hacc as [A1 A2 A3 A4 A5 A6 A7].
  destruct (enlist_arrays ps p v db3) as (E1 & E2 & a & b & E3); [done|done|done|by rewrite fmap_app|].
  split; rewrite ?E1, ?E2, ?E3; [by rewrite <-A1, <-Hs3|done|done|done|by destruct ps|by destruct ps|].
  intros q r'. change (rec_at (with_arrays a b db3) q) with (rec_at db3 q).
  unfold db3, db2. rewrite !rec_at_upd. case_bool_decide as Hq.
  - subst q. rewrite Hr1. cbn. intros [= <-]. split; [|intros []; rewrite fmap_app; set_solver].
    intros v0 [Hin|Hin]%elem_of_app; [destruct Hnew; apply list_elem_of_fmap; by exists (p, v0)|].
    apply list_elem_of_singleton in Hin as [= ->]. exact Hh.
  - unfold db1. rewrite rec_at_upd, bool_decide_false by done. intros Hr'. apply A7 in Hr' as [Hh' Hc].
    split; [|intros Hn; apply Hc; rewrite fmap_app in Hn; set_solver]. intros v0 [Hin|Hin]%elem_of_app; [by apply Hh'|].
    apply list_elem_of_singleton in Hin as [= <- <-]. done.
Qed.

Lemma set_one_param_step ps db v fault db' :
  accepted ps db ->
  (forall p, resolve db0 v = Some p -> p ∉ ps.*1 /\ (length ps < 256)%nat /\ (length (objects_of (ps.*1 ++ [p])) <= 32)%nat) ->
  forall bFromAcs,
  set_one_param inet_addr b64_decode strcat_s_rest PSM_Get PSM_Set bFromAcs writeID v db = Done (fault, db') ->
  match fault with
  | Some (st, _) => st ≠ 0 /\ accepted ps db'
  | None => exists p val, resolve db0 v = Some p /\ pv_Value v = Some val /\ accepted (ps ++ [(p, val)]) db'
  end.
Proof.
  intros Hacc Hroom bFromAcs E. unfold set_one_param in E.
  destruct (pv_Name v) as [Name|] eqn:En; [|by simplify_eq].
  destruct (pv_Value v) as [Value|] eqn:Ev; [|by simplify_eq].
  destruct (DslhWmpdoMprGetVarRecord _ _ Name) as [[p|]|] eqn:Ep; cbn [mbind outcome_bind] in E; [|by simplify_eq|done].
  assert (Hres : resolve db0 v = Some p).
  { rewrite <-(resolve_shape _ db); [|by rewrite (in_shape _ _ Hacc)|by rewrite (in_root _ _ Hacc)].
    unfold resolve. by rewrite En, Ep. }
  destruct (Hroom _ Hres) as (Hnew & Hl & Ht). clear Hroom.
  destruct (var_at db p) as [[o r]|] eqn:Eo; cbn [mbind outcome_bind] in E; [|done].
  pose proof (var_at_rec_at _ _ _ _ Eo) as Hr.
  destruct (bInvisible _ && _); [by simplify_eq|].
  destruct (negb (bool_decide _)); [by simplify_eq|].
  destruct (negb _) eqn:Ew in E; [by simplify_eq|].
  apply negb_false_iff in Ew. unfold DslhVarroIsRecordWritable in Ew. cbn in Ew.
  assert (Hgr : bGroupCommit o = true).
  { apply var_at_rec in Eo as [Eo _]. exact (ok_group _ _ _ (db_ok_obj _ _ _ _ (db_ok_shape _ (in_shape _ _ Hacc)) Eo)). }
  rewrite Hgr, TstValue_tested in E.
  destruct (tested _ _ _ Value) as [[[ok trans] v']|] eqn:Et; cbn [mbind outcome_bind] in E; [|done].
  destruct ok; cbn [negb] in E; [|simplify_eq; by auto using accepted_upd_id].
  destruct (in_recs _ _ Hacc _ _ Hr) as [_ (C1 & C2 & C3 & C4)]; [done|].
  eapply (accept_param_step ps db p Name Value) in E as [-> Hacc']; [by exists p, Value|done..| | |].
  - by rewrite rec_at_upd, bool_decide_true, Hr by done.
  - apply shape_upd_var. intros r2. rewrite Hr. by intros [= <-].
  - split; [exact Ew|]. exists trans, v'. split_and!; [exact Et|done| |done]. cbn. by destruct trans.
Qed.

Lemma room_next ps v l p : resolve db0 v = Some p ->
  NoDup (ps.*1 ++ omap (resolve db0) (v :: l)) -> (length ps + length (v :: l) <= 256)%nat ->
  (length (objects_of (ps.*1 ++ omap (resolve db0) (v :: l))) <= 32)%nat ->
  p ∉ ps.*1 /\ (length ps < 256)%nat /\ (length (objects_of (ps.*1 ++ [p])) <= 32)%nat.
Proof.
  intros Hp Hnd Hl Ht. cbn in Hnd, Ht, Hl. rewrite Hp in Hnd, Ht. split_and!; [|lia|].
  - apply NoDup_app in Hnd as (_ & Hd & _). intros Hin%Hd. set_solver.
  - pose proof (touched_prefix (ps.*1 ++ [p]) (omap (resolve db0) l)) as Hpre.
    rewrite <-app_assoc in Hpre. cbn in Hpre. lia.
Qed.

Lemma set_params_spec bFromAcs l : forall ps db n m fault n' m' db',
  set_params inet_addr b64_decode strcat_s_rest PSM_Get PSM_Set bFromAcs writeID l n m db = Done (fault, n', m', db') ->
  accepted ps db -> NoDup (ps.*1 ++ omap (resolve db0) l) ->
  (length ps + length l <= 256)%nat -> (length (objects_of (ps.*1 ++ omap (resolve db0) l)) <= 32)%nat ->
  n = length ps -> m = length (objects_of ps.*1) ->
  exists ps', accepted (ps ++ ps') db' /\ n' = length (ps ++ ps') /\ m' = length (objects_of (ps ++ ps').*1) /\
    match fault with
    | Some (st, _) => st ≠ 0
    | None => Forall2 (fun v pv => resolve db0 v = Some pv.1 /\ pv_Value v = Some pv.2) l ps'
    end.
Proof.
  induction l as [|v l IH]; intros ps db n m fault n' m' db' E Hacc Hnd Hl Ht Hn Hm; cbn [set_params] in E.
  { simplify_eq. exists []. rewrite app_nil_r. split_and!; [done..|constructor]. }
  destruct (set_one_param _ _ _ _ _ _ _ v db) as [[[[st nm]|] db1]|] eqn:E1; cbn [mbind outcome_bind] in E; [..|done].
  - simplify_eq. eapply set_one_param_step in E1; [|done|].
    + destruct E1 as [Hst Hacc']. exists []. rewrite app_nil_r. by split_and!.
    + intros p Hp. by eapply room_next.
  - eapply set_one_param_step in E1; [|done|].
    + destruct E1 as (p & val & Hp & Hv & Hacc').
      cbn in Hnd, Ht, Hl. rewrite Hp in Hnd, Ht.
      eapply (IH (ps ++ [(p, val)])) in E; [|done|rewrite fmap_app, <-app_assoc; done|rewrite length_app; cbn; lia
        |rewrite fmap_app, <-app_assoc; done|..].
      * destruct E as (ps' & Ha & En & Em & Hf). exists ((p, val) :: ps').
        rewrite <-!app_assoc in *. split_and!; [done..|]. destruct fault as [[]|]; [done|]. constructor; [done|exact Hf].
      * unfold ulVarRecordCount. rewrite (in_vars _ _ Hacc'). destruct ps; cbn; [done|]. by rewrite length_fmap.
      * unfold ulObjRecordCount. rewrite (in_objs _ _ Hacc'). by destruct ps.
    + intros p Hp. by eapply room_next.
Qed.
End round.

(** ** Verifying *)

(** The setting that a value of a request becomes. *)
Definition requested (e : DSLH_VAR_ENTITY) (v : SLAP_VARIABLE) : option setting :=
  match tested inet_addr b64_decode e v with
  | Done (true, trans, v') =>
      match sent e (default (SlapVhoCloneVariable v' SlapInitVariable) trans) with Done s => Some s | Stuck _ => None end
  | _ => None
  end.

Lemma holds_requested v r : holds_value v r ->
  exists w, pending_value r = Some w /\ forall s, sent (hDslhVarEntity r) w = Done s -> requested (hDslhVarEntity r) v = Some s.
Proof.
  intros (_ & trans & v' & Et & E1 & E2 & _). unfold pending_value, requested. rewrite E1, E2, Et.
  destruct trans; eexists; (split; [done|]); cbn; by intros ? ->.
Qed.

(** All of a database but the objects and their backend. *)
Definition frame_of db : DSLH_WMP_DATABASE B := with_objects [] (backend db0) db.

(** Outside the objects [D] nothing is staged. *)
Record kept_out ps (R : DSLH_WMP_DATABASE B) (D : list nat) db : Prop := {
  kp_shape : shape db = shape db0;
  kp_rest : frame_of db = R;
  kp_committed : forall i n, committed (backend db) i n = committed (backend db0) i n;
  kp_clean : forall p r, rec_at db p = Some r -> p ∉ ps.*1 -> is_clean r;
  kp_unstaged : forall i n, i ∉ D -> staged (backend db) i n = None }.

(** What is staged for object [i] is what the request asks of it. *)
Definition staged_exactly ps i (b : B) : Prop :=
  (forall p v r, (p, v) ∈ ps -> p.1 = i -> rec_at db0 p = Some r ->
     exists s, requested (hDslhVarEntity r) v = Some s /\ staged b i (DslhVarroGetLastName r) = Some s) /\
  (forall m, (forall p r, p ∈ ps.*1 -> p.1 = i -> rec_at db0 p = Some r -> DslhVarroGetLastName r ≠ m) ->
     staged b i m = None).

Record verified ps R (D : list nat) db : Prop := {
  vf_kept : kept_out ps R D db;
  vf_holds : forall p v r, rec_at db p = Some r -> (p, v) ∈ ps -> p.1 ∉ D -> holds_value v r;
  vf_staged : forall i, i ∈ D -> staged_exactly ps i (backend db) }.

Lemma verify_step ps R D i db ok nm db' : verified ps R D db -> i ∉ D ->
  DslhObjroVerifyChanges i db = Done (ok, nm, db') ->
  if ok then verified ps R (D ++ [i]) db' else kept_out ps R (D ++ [i]) db'.
Proof.
  intros Hv Hi E. unfold DslhObjroVerifyChanges, obj_at in E. destruct (vf_kept _ _ _ _ Hv) as [K1 K2 K3 K4 K5].
  destruct (store db !! i) as [o|] eqn:Ho; cbn [mbind outcome_bind] in E; [|done].
  destruct (DslhObjcoValidate o (backend db)) as [[[[ok' nm'] o'] b']|] eqn:Ev; cbn [mbind outcome_bind] in E; [|done].
  pose proof (db_ok_obj _ _ _ _ (db_ok_shape _ K1) Ho) as Hobj.
  eapply validate_stages in Ev as ([Sc Ss] & (l' & -> & Hm) & Hst); [|exact Hobj].
  assert (ok' = ok /\ db' = put_obj i (set_VarroTable l' o) b' db) as [-> ->] by (by simplify_eq). clear E.
  assert (Hrecs : forall p r, rec_at (put_obj i (set_VarroTable l' o) b' db) p = Some r ->
    exists r0, rec_at db p = Some r0 /\ (r = r0 \/ p.1 = i /\ r = set_already r0 /\ is_Some (TempParamValue r0))).
  { intros p r. rewrite rec_at_put by done. case_bool_decide as Hp; [|by eauto].
    intros Hl. destruct (Forall2_lookup_r _ _ _ _ _ Hm Hl) as (r0 & Hr0 & Hmk).
    exists r0. split; [unfold rec_at; by rewrite Hp, Ho|]. destruct Hmk as [->|[-> ?]]; auto. }
  assert (Hkept : kept_out ps R (D ++ [i]) (put_obj i (set_VarroTable l' o) b' db)).
  { split.
    - rewrite (shape_put _ _ o); [done|done|]. by apply shape_obj_set, marked_shape.
    - done.
    - intros. cbn. by rewrite Sc.
    - intros p r Hr Hp. destruct (Hrecs _ _ Hr) as (r0 & Hr0 & [->|(_ & -> & Ht)]); [by eapply K4|].
      destruct (K4 _ _ Hr0 Hp) as [Hn _]. rewrite Hn in Ht. by destruct Ht.
    - intros j n Hj. cbn. rewrite Ss by set_solver. apply K5. set_solver. }
  destruct ok; [|exact Hkept]. destruct (Hst eq_refl) as [S1 S2]. split; [exact Hkept|..].
  - intros p v r Hr Hp Hd. destruct (Hrecs _ _ Hr) as (r0 & Hr0 & [->|(Hi' & _)]); [|set_solver].
    eapply vf_holds; [done..|]. set_solver.
  - intros k [Hk|Hk%list_elem_of_singleton]%elem_of_app; [|subst k].
    + cbn. assert (k ≠ i) by set_solver. destruct (vf_staged _ _ _ _ Hv _ Hk) as [T1 T2].
      split; [intros p v r X1 X2 X3|intros m Hm']; rewrite Ss by done; eauto.
    + cbn. split.
      * intros p v r0 Hp Hpi Hr0. destruct (rec_at_shape _ _ _ _ K1 Hr0) as (r & Hr & Es).
        pose proof (rec_at_same_entity _ _ _ _ _ K1 Hr0 Hr) as Ee.
        assert (Hh : holds_value v r) by (eapply vf_holds; [done..|]; by rewrite Hpi).
        destruct (holds_requested _ _ Hh) as (w & Hw & Hreq). destruct Hh as (Hwr & trans & v' & _ & Et & _ & Ea).
        assert (Hj : VarroTable o !! p.2 = Some r). { unfold rec_at in Hr. by rewrite Hpi, Ho in Hr. }
        destruct (S1 _ _ Hj Hwr) as (w' & s & Hw' & Hsent & Hstg); [by rewrite Et|done|].
        rewrite Hw in Hw'. apply (inj Some) in Hw' as <-. exists s. rewrite <-Ee. split; [by apply Hreq|].
        unfold DslhVarroGetLastName, ParamDescr_of in *. by rewrite <-Ee.
      * intros m Hm'. rewrite S2; [apply K5; done|]. intros j r Hj Hname.
        assert (Hr : rec_at db (i, j) = Some r) by (unfold rec_at; cbn; by rewrite Ho).
        destruct (decide ((i, j) ∈ ps.*1)) as [Hin|Hnin]; [|by destruct (K4 _ _ Hr Hnin)].
        destruct (rec_at_shape _ _ _ _ (eq_sym K1) Hr) as (r0 & Hr0 & Es).
        destruct (Hm' _ _ Hin eq_refl Hr0). rewrite <-Hname.
        unfold DslhVarroGetLastName, ParamDescr_of. by rewrite (rec_at_same_entity _ _ _ _ _ (eq_sym K1) Hr Hr0).
Qed.

Lemma verify_all_spec ps R l : forall D db res db', verified ps R D db -> NoDup (D ++ l) ->
  verify_all l db = Done (res, db') ->
  match res with None => verified ps R (D ++ l) db' | Some _ => kept_out ps R (D ++ l) db' end.
Proof.
  induction l as [|i l IH]; intros D db res db' Hv Hnd E; cbn [verify_all] in E.
  { simplify_eq. by rewrite app_nil_r. }
  destruct (DslhObjroVerifyChanges i db) as [[[ok nm] db1]|] eqn:E1; cbn [mbind outcome_bind] in E; [|done].
  eapply verify_step in E1; [|done|].
  2:{ apply NoDup_app in Hnd as (_ & Hd & _). intros Hin%Hd. set_solver. }
  destruct ok.
  - apply (IH (D ++ [i])) in E; [|done|by rewrite <-app_assoc]. by rewrite <-app_assoc in E.
  - simplify_eq. destruct E1 as [? ? ? ? K5]. split; try done. intros; apply K5. set_solver.
Qed.
End checks.

(** ** Cancelling and committing *)

Lemma cancel_vars_spec l : forall db,
  shape (cancel_vars l db) = shape db /\ frame_of (cancel_vars l db) = frame_of db /\
  backend (cancel_vars l db) = backend db /\
  forall p, rec_at (cancel_vars l db) p = if bool_decide (p ∈ l) then drop_pending <$> rec_at db p else rec_at db p.
Proof.
  induction l as [|q l IH]; intros db; [by split_and!|].
  change (cancel_vars (q :: l) db) with (cancel_vars l (upd_var DslhVarroCancelChange q db)).
  destruct (IH (upd_var DslhVarroCancelChange q db)) as (-> & -> & -> & Hr). split_and!; [by apply shape_upd_var|done..|].
  intros p. rewrite Hr, rec_at_upd. unfold DslhVarroCancelChange.
  destruct (decide (q = p)) as [->|Hne].
  - rewrite (bool_decide_true (p = p)), (bool_decide_true (p ∈ p :: l)) by set_solver.
    case_bool_decide; [|done]. by destruct (rec_at db p).
  - rewrite (bool_decide_false (q = p)) by done. by rewrite (bool_decide_ext (p ∈ q :: l) (p ∈ l)) by set_solver.
Qed.

(** Committing the records is what cancelling them is. *)
Lemma commit_vars_spec l : forall b db b' db',
  commit_vars l b db = Done (b', db') -> db' = cancel_vars l db.
Proof.
  induction l as [|q l IH]; intros b db b' db' E; cbn [commit_vars] in E; [by simplify_eq|].
  destruct (var_at db q) as [x|]; cbn [mbind outcome_bind] in E; [|done]. by apply IH in E.
Qed.

Lemma cancel_objs_spec l : forall db db', shape db = shape db0 -> cancel_objs l db = Done db' ->
  store db' = store db /\ frame_of db' = frame_of db /\
  (forall i n, committed (backend db') i n = committed (backend db) i n) /\
  (forall i n, staged (backend db') i n = if bool_decide (i ∈ l) then None else staged (backend db) i n).
Proof.
  induction l as [|k l IH]; intros db db' Es E; cbn [cancel_objs] in E; [by simplify_eq|].
  unfold DslhObjroCancelChanges, obj_at in E. destruct (store db !! k) as [o|] eqn:Ho; cbn [mbind outcome_bind] in E; [|done].
  destruct (ok_if _ _ _ (db_ok_obj _ _ _ _ (db_ok_shape _ Es) Ho)) as (f & Ef & Hf).
  destruct (tp_rollback _ _ Hf) as (g & Eg & Hg). unfold DslhObjcoRollback in E. rewrite Ef, Eg in E.
  destruct (Hg (backend db)) as [G1 G2]. destruct (g (backend db)) as [st b1]. cbn [mbind outcome_bind snd] in *.
  apply IH in E as (E1 & E2 & E3 & E4); [|exact Es]. split_and!; [done..| |].
  - intros. rewrite E3. apply G1.
  - intros i n. rewrite E4. cbn. rewrite G2. destruct (decide (i = k)) as [->|Hne].
    + rewrite (bool_decide_true (k = k)), (bool_decide_true (k ∈ k :: l)) by set_solver. by case_bool_decide.
    + rewrite (bool_decide_false (i = k)) by done. by rewrite (bool_decide_ext (i ∈ k :: l) (i ∈ l)) by set_solver.
Qed.

Lemma commit_objs_spec l : forall db db', shape db = shape db0 -> NoDup l -> commit_objs writeID l db = Done db' ->
  shape db' = shape db /\ hRootObjRecord db' = hRootObjRecord db /\ (forall p, rec_at db' p = rec_at db p) /\
  (forall i n, committed (backend db') i n =
     if bool_decide (i ∈ l) then match staged (backend db) i n with Some v => Some v | None => committed (backend db) i n end
     else committed (backend db) i n) /\
  (forall i n, staged (backend db') i n = if bool_decide (i ∈ l) then None else staged (backend db) i n).
Proof.
  induction l as [|k l IH]; intros db db' Es Hnd E; cbn [commit_objs] in E; [by simplify_eq|].
  apply NoDup_cons in Hnd as [Hk Hnd].
  unfold DslhObjroCommitChanges in E. destruct (obj_at (store db) k) as [o|] eqn:Ho; cbn [mbind outcome_bind] in E; [|done].
  assert (Ho' : store db !! k = Some o) by (unfold obj_at in Ho; destruct (store db !! k); congruence).
  pose proof (db_ok_obj _ _ _ _ (db_ok_shape _ Es) Ho') as Hobj.
  destruct (ok_if _ _ _ Hobj) as (f & Ef & Hf).
  destruct (tp_commit _ _ Hf) as (g & Eg & Hg). unfold DslhObjcoCommit in E.
  rewrite Ef, (ok_committing _ _ _ Hobj), Eg in E.
  destruct (Hg (backend db)) as [G1 G2]. destruct (g (backend db)) as [st b1]. cbn [mbind outcome_bind snd] in *.
  set (o1 := set_commit_flags false (bCommitted o) o) in E. set (db1 := put_obj k o1 b1 db) in E.
  set (db2 := if st =? STATUS_SUCCESS then with_lastWriteEntity writeID db1 else db1) in E.
  assert (E2 : store db2 = store db1 /\ backend db2 = b1 /\ hRootObjRecord db2 = hRootObjRecord db).
  { unfold db2. by destruct (st =? _). }
  destruct E2 as (E2 & E2b & E2r). unfold obj_at in E. rewrite E2 in E. unfold db1, put_obj in E. cbn [store with_objects] in E.
  assert (Hlt : (k < length (store db))%nat) by (by eapply lookup_lt_Some).
  rewrite list_lookup_insert_eq in E by done. cbn [mbind outcome_bind] in E.
  set (o2 := set_commit_flags (bCommitting o1) true o1) in E. set (db3 := with_objects _ _ db2) in E.
  assert (Hs3 : store db3 = <[k := o2]> (store db)).
  { unfold db3. cbn [store with_objects]. rewrite E2. unfold db1, put_obj. cbn [store with_objects]. by rewrite list_insert_insert_eq. }
  assert (Eo : shape_obj o2 = shape_obj o).
  { unfold o2, o1, shape_obj. destruct o; cbn. pose proof (ok_committing _ _ _ Hobj) as Ec. cbn in Ec. by rewrite Ec. }
  assert (Hsh : shape db3 = shape db).
  { rewrite <-(shape_put _ _ _ o2 b1 Ho' Eo). unfold shape. by rewrite Hs3. }
  assert (Hrec : forall p, rec_at db3 p = rec_at db p).
  { intros p. unfold rec_at. rewrite Hs3. destruct (decide (p.1 = k)) as [->|Hne].
    - rewrite list_lookup_insert_eq by done. by rewrite Ho'.
    - by rewrite list_lookup_insert_ne by done. }
  apply IH in E as (F1 & F2 & F3 & F4 & F5); [|by rewrite Hsh|done].
  assert (Eb : backend db3 = b1) by exact E2b. rewrite Eb in *.
  split_and!; [congruence|by rewrite F2|intros; by rewrite F3|..].
  - intros i n. rewrite F4. destruct (decide (i = k)) as [->|Hne].
    + rewrite (bool_decide_true (k ∈ k :: l)), (bool_decide_false (k ∈ l)) by set_solver. by rewrite G1, bool_decide_true.
    + rewrite (bool_decide_ext (i ∈ k :: l) (i ∈ l)) by set_solver. rewrite G1, G2. by rewrite (bool_decide_false (i = k)) by done.
  - intros i n. rewrite F5, G2. destruct (decide (i = k)) as [->|Hne].
    + rewrite (bool_decide_true (k = k)), (bool_decide_true (k ∈ k :: l)) by set_solver. by case_bool_decide.
    + rewrite (bool_decide_false (i = k)) by done. by rewrite (bool_decide_ext (i ∈ k :: l) (i ∈ l)) by set_solver.
Qed.
(** The end of a request that failed: nothing is left of it. *)
Lemma abandon_spec ps R D db db' : kept_out ps R D db -> (forall i, i ∈ D -> i ∈ objects_of ps.*1) ->
  default [] (hVarRecordArray R) = ps.*1 -> default [] (hObjRecordArray R) = objects_of ps.*1 ->
  abandon false (length ps) (length (objects_of ps.*1)) db = Done db' ->
  quiet writeID db' /\ shape db' = shape db0 /\ hRootObjRecord db' = hRootObjRecord R /\
  forall i n, committed (backend db') i n = committed (backend db0) i n.
Proof.
  intros [K1 K2 K3 K4 K5] Hd Ev Eo E. unfold abandon in E.
  assert (Ev' : hVarRecordArray db = hVarRecordArray R) by by rewrite <-K2.
  assert (Eo' : hObjRecordArray db = hObjRecordArray R) by by rewrite <-K2.
  rewrite Ev', Ev, <-(length_fmap fst ps), firstn_all in E.
  destruct (cancel_vars_spec ps.*1 db) as (C1 & C2 & C3 & C4). set (db1 := cancel_vars ps.*1 db) in *.
  assert (Eo1 : hObjRecordArray db1 = hObjRecordArray R).
  { change (hObjRecordArray (frame_of db1) = hObjRecordArray R). by rewrite C2, K2. }
  rewrite Eo1, Eo, firstn_all in E.
  destruct (cancel_objs (objects_of ps.*1) db1) as [db2|] eqn:E2; cbn [mbind outcome_bind] in E; [|done].
  apply cancel_objs_spec in E2 as (D1 & D2 & D3 & D4); [|by rewrite C1].
  assert (Hs : shape db2 = shape db0). { unfold shape. rewrite D1. fold (shape db1). by rewrite C1. }
  assert (db' = with_arrays None None db2) as -> by by injection E. split_and!; [split; try done|done| |].
  - by apply db_ok_shape.
  - intros p r. change (rec_at (with_arrays None None db2) p) with (rec_at db2 p).
    assert (rec_at db2 p = rec_at db1 p) as -> by (unfold rec_at; by rewrite D1). rewrite C4.
    case_bool_decide as Hp; [|by eauto]. destruct (rec_at db p); cbn; [|done]. by intros [= <-].
  - intros i n. cbn. rewrite D4. case_bool_decide; [done|]. rewrite C3. apply K5. auto.
  - change (hRootObjRecord (frame_of db2) = hRootObjRecord R). by rewrite D2, C2, K2.
  - intros i n. cbn. by rewrite D3, C3.
Qed.

(** The end of one that succeeded. *)
Lemma SetCommit_spec inet_addr b64_decode ps R sessionId db st pi db' : verified inet_addr b64_decode ps R (objects_of ps.*1) db -> SessionID R = ULONG sessionId ->
  hVarRecordArray R = Some ps.*1 -> hObjRecordArray R = Some (objects_of ps.*1) ->
  (forall i n, staged (backend db0) i n = None) ->
  DslhWmpdoMpaSetCommit sessionId writeID true db = Done (st, pi, db') ->
  quiet writeID db' /\ shape db' = shape db0 /\ hRootObjRecord db' = hRootObjRecord R /\
  (forall p v r, (p, v) ∈ ps -> rec_at db0 p = Some r ->
     exists s, requested inet_addr b64_decode (hDslhVarEntity r) v = Some s /\ committed (backend db') p.1 (DslhVarroGetLastName r) = Some s) /\
  (forall i m, (forall p r, p ∈ ps.*1 -> p.1 = i -> rec_at db0 p = Some r -> DslhVarroGetLastName r ≠ m) ->
     committed (backend db') i m = committed (backend db0) i m).
Proof.
  intros Hv Hsid Hva Hoa Hst0 E. destruct (vf_kept _ _ _ _ _ _ Hv) as [K1 K2 K3 K4 K5]. unfold DslhWmpdoMpaSetCommit in E.
  change (SessionID db) with (SessionID (frame_of db)) in E. change (hVarRecordArray db) with (hVarRecordArray (frame_of db)) in E.
  change (hObjRecordArray db) with (hObjRecordArray (frame_of db)) in E. rewrite K2, Hsid, Hva, Hoa, Z.eqb_refl in E. cbn [negb] in E.
  destruct (commit_objs writeID (objects_of ps.*1) db) as [db1|] eqn:E1; cbn [mbind outcome_bind] in E; [|done].
  apply commit_objs_spec in E1 as (F1 & F2 & F3 & F4 & F5); [|done|apply NoDup_touched].
  destruct (commit_vars ps.*1 false db1) as [[reboot db2]|] eqn:E2; cbn [mbind outcome_bind] in E; [|done].
  apply commit_vars_spec in E2 as ->. destruct (cancel_vars_spec ps.*1 db1) as (C1 & C2 & C3 & C4).
  set (db2 := cancel_vars ps.*1 db1) in *.
  assert (db' = with_arrays None None db2) as -> by by injection E. clear E.
  assert (Hin : forall p v, (p, v) ∈ ps -> p.1 ∈ objects_of ps.*1).
  { intros p v Hp. apply elem_of_touched. exists p. split; [|done]. apply list_elem_of_fmap. by exists (p, v). }
  assert (Hs : shape db2 = shape db0) by by rewrite C1, F1.
  split_and!; [split; try done|done|..].
  - by apply db_ok_shape.
  - intros p r. change (rec_at (with_arrays None None db2) p) with (rec_at db2 p). rewrite C4, F3.
    case_bool_decide as Hp; [|by eauto]. destruct (rec_at db p); cbn; [|done]. by intros [= <-].
  - intros i n. cbn. rewrite C3, F5. case_bool_decide; [done|]. by apply K5.
  - change (hRootObjRecord (frame_of db2) = hRootObjRecord R). rewrite C2, <-K2. exact F2.
  - intros p v r Hp Hr. destruct (vf_staged _ _ _ _ _ _ Hv _ (Hin _ _ Hp)) as [S1 _].
    destruct (S1 _ _ _ Hp eq_refl Hr) as (s & Hs1 & Hs2). exists s. split; [done|]. cbn. rewrite C3, F4.
    rewrite bool_decide_true by (by eapply Hin). by rewrite Hs2.
  - intros i m Hm. cbn. rewrite C3, F4. case_bool_decide as Hi; [|by rewrite K3].
    destruct (vf_staged _ _ _ _ _ _ Hv _ Hi) as [_ S2]. rewrite (S2 _ Hm). by rewrite K3.
Qed.
End transaction.
