(* ===== verification/ParamAtomic.v ===== *)
(** * A request is a transaction

    The theorem that a request either commits all its values or changes nothing
    that lasts, and what the two ways of committing and of giving up have to do
    with each other; with a small backend on which they are shown. *)

From S2P Require Import Prelude CStrings Tokens IpAddr SlapVar SlapConv VarEntity VarValid VarRecord ObjRecord ObjCtl ParamSet ParamShape ParamStage ParamThms.
Open Scope Z_scope.

Section atomic.
Context `{Platform} {B : Type} `{TwoPhase B}.
Context (inet_addr : cstr -> list Z) (b64_decode : list Z -> list Z) (strcat_s_rest : cstr -> cstr -> outcome cstr).
Context (PSM_Get : cstr -> B -> option SLAP_VARIABLE) (PSM_Set : cstr -> B -> B).
Implicit Types (db : DSLH_WMP_DATABASE B) (l : list DSLH_CWMP_PARAM_VALUE).

Notation MpaSetParameterValues := (DslhWmpdoMpaSetParameterValues inet_addr b64_decode strcat_s_rest PSM_Get PSM_Set).
Notation requested := (requested inet_addr b64_decode).

Lemma Forall2_pairs_fst {A} (f : A -> option varptr) (g : A -> option SLAP_VARIABLE) (l : list A) (ps : list (varptr * SLAP_VARIABLE)) :
  Forall2 (fun v pv => f v = Some pv.1 /\ g v = Some pv.2) l ps -> ps.*1 = omap f l.
Proof. induction 1 as [|v pv l ps [Hf _] _ IH]; [done|]. cbn. by rewrite Hf, IH. Qed.

Lemma accepted_kept writeID db ps db' : quiet writeID db -> accepted db inet_addr b64_decode ps db' ->
  verified db inet_addr b64_decode ps (frame_of db db') [] db' /\
  default [] (hVarRecordArray (frame_of db db')) = ps.*1 /\ default [] (hObjRecordArray (frame_of db db')) = objects_of ps.*1.
Proof.
  intros Hq Ha. destruct Ha as [A1 A2 A3 A4 A5 A6 A7]. split_and!.
  - split; [split|..]; [done|done|by rewrite A3| | | |set_solver].
    + intros p r Hr Hp. by apply (A7 _ _ Hr).
    + intros i n _. rewrite A3. apply Hq.
    + intros p v r Hr Hp _. by apply (A7 _ _ Hr).
  - change (default [] (hVarRecordArray db') = ps.*1). rewrite A5. by destruct ps.
  - change (default [] (hObjRecordArray db') = objects_of ps.*1). rewrite A6. by destruct ps.
Qed.

(** The two ways a call can end: everything given up, or all the objects
    verified and, if asked, committed. *)
Lemma request_phases writeID db pAccessEntity l sessionId bCommit reply db'
    (Hquiet : quiet writeID db) (Hwriter : writeID ≠ DSLH_MPA_ACCESS_CONTROL_SNMP) (Hne : l ≠ [])
    (Hdistinct : NoDup (omap (resolve db) l)) (Hvars : (length l <= 256)%nat)
    (Hobjs : (length (objects_of (omap (resolve db) l)) <= 32)%nat)
    (Hcall : MpaSetParameterValues pAccessEntity l sessionId writeID bCommit db = Done (reply, db')) :
  (returnStatus reply ≠ 0 /\ quiet writeID db' /\ shape db' = shape db /\ hRootObjRecord db' = hRootObjRecord db /\
   forall i n, committed (backend db') i n = committed (backend db) i n) \/
  exists ps R db2, verified (with_SessionID (ULONG sessionId) db) inet_addr b64_decode ps R (objects_of ps.*1) db2 /\
    Forall2 (fun v pv => resolve db v = Some pv.1 /\ pv_Value v = Some pv.2) l ps /\
    SessionID R = ULONG sessionId /\ hRootObjRecord R = hRootObjRecord db /\
    hVarRecordArray R = Some ps.*1 /\ hObjRecordArray R = Some (objects_of ps.*1) /\
    if bCommit then exists st db3, DslhWmpdoMpaSetCommit sessionId writeID true db2 = Done (st, iStatus reply, db3) /\
      returnStatus reply = 0 /\ db' = DslhWmpdoResetObjVarArray db3
    else returnStatus reply = 0 /\ db' = db2.
Proof.
  unfold DslhWmpdoMpaSetParameterValues in Hcall. destruct l as [|v0 l0]; [done|].
  set (l := v0 :: l0) in *. set (db0 := with_SessionID (ULONG sessionId) db) in *.
  assert (Hq0 : quiet writeID db0) by by destruct Hquiet.
  apply Z.eqb_neq in Hwriter. rewrite Hwriter in Hcall.
  destruct (set_params _ _ _ _ _ _ _ l 0 0 db0) as [[[[fault n] m] db1]|] eqn:E1; cbn [mbind outcome_bind] in Hcall; [|done].
  eapply (set_params_spec writeID db0 (q_ok _ _ Hq0) inet_addr b64_decode strcat_s_rest PSM_Get PSM_Set) with (ps := []) in E1;
    [|split; try done|done|done|done|done|done].
  2,3: apply Hq0. 2:{ intros p r Hr. split; [set_solver|]. intros _. by eapply q_clean. }
  destruct E1 as (ps & Hacc & -> & -> & Hf). cbn [app] in *.
  destruct (accepted_kept writeID _ _ _ Hq0 Hacc) as (Hver & Ev & Eo).
  destruct fault as [[st nm]|].
  { left. destruct (abandon _ _ _ _) as [db2|] eqn:E2; cbn [mbind outcome_bind] in Hcall; [|done].
    eapply abandon_spec in E2 as (Q1 & Q2 & Q3 & Q4); [|exact (q_ok _ _ Hq0)|by apply Hver|set_solver|done..].
    simplify_eq. split_and!; [done..|by rewrite Q3; apply Hacc|done]. }
  change (hObjRecordArray db1) with (hObjRecordArray (frame_of db0 db1)) in Hcall. rewrite Eo, firstn_all in Hcall.
  destruct (verify_all _ db1) as [[invalid db2]|] eqn:E2; cbn [mbind outcome_bind] in Hcall; [|done].
  eapply (verify_all_spec writeID) in E2; [|exact (q_ok _ _ Hq0)|exact Hver|apply NoDup_touched].
  cbn [app] in E2. destruct invalid as [nm|].
  { left. destruct (abandon _ _ _ _) as [db3|] eqn:E3; cbn [mbind outcome_bind] in Hcall; [|done].
    eapply abandon_spec in E3 as (Q1 & Q2 & Q3 & Q4); [|exact (q_ok _ _ Hq0)|exact E2|done|done..].
    simplify_eq. split_and!; [done..|by rewrite Q3; apply Hacc|done]. }
  right. assert (Hps : ps ≠ []). { intros ->. inversion Hf. }
  exists ps, (frame_of db0 db1), db2. split_and!; [exact E2|exact Hf|by apply Hacc|by apply Hacc| | |].
  - change (hVarRecordArray db1 = Some ps.*1). rewrite (in_vars _ _ _ _ _ Hacc). by destruct ps.
  - change (hObjRecordArray db1 = Some (objects_of ps.*1)). rewrite (in_objs _ _ _ _ _ Hacc). by destruct ps.
  - destruct bCommit; [|by simplify_eq].
    destruct (DslhWmpdoMpaSetCommit _ _ _ db2) as [[[st pi] db3]|] eqn:E3; cbn [mbind outcome_bind] in Hcall; [|done].
    exists st, db3. by simplify_eq.
Qed.


(** ** Committing now or later *)

Lemma CheckUserChangedFlag_status writeID p Name v db st db' :
  CheckUserChangedFlag strcat_s_rest PSM_Get PSM_Set writeID p Name v db = Done (st, db') ->
  st = CCSP_SUCCESS \/ st = CCSP_ERR_NOT_WRITABLE.
Proof.
  unfold CheckUserChangedFlag. intros E.
  repeat match type of E with
  | @mbind _ _ _ _ _ ?m = _ => destruct m; cbn [mbind outcome_bind] in E; [|done]
  | (if ?c then _ else _) = _ => destruct c
  | Done (if ?c then _ else _, _) = _ => destruct c
  | Done _ = Done _ => injection E as <- _; auto
  end.
Qed.

Lemma set_params_fault bFromAcs writeID l : forall n m db st nm n' m' db',
  set_params inet_addr b64_decode strcat_s_rest PSM_Get PSM_Set bFromAcs writeID l n m db = Done (Some (st, nm), n', m', db') ->
  st ≠ STATUS_SUCCESS.
Proof.
  induction l as [|v l IH]; intros n m db st nm n' m' db' E; cbn [set_params] in E; [done|].
  destruct (set_one_param _ _ _ _ _ _ _ v db) as [[[[st1 nm1]|] db1]|] eqn:E1; cbn [mbind outcome_bind] in E; [|by eapply IH|done].
  injection E as <- <- <- <- <-. clear IH. unfold set_one_param, accept_param in E1.
  repeat match type of E1 with
  | match pv_Name ?v with _ => _ end = _ => destruct (pv_Name v)
  | match pv_Value ?v with _ => _ end = _ => destruct (pv_Value v)
  | (let '(_, _) := ?x in _) = _ => let Ex := fresh "Ex" in destruct x eqn:Ex; simplify_eq
  | @mbind _ _ _ _ _ ?m = _ => let Em := fresh "Em" in destruct m eqn:Em; cbn [mbind outcome_bind] in E1; [|done]
  | (if ?c then _ else _) = _ => let Ec := fresh "Ec" in destruct c eqn:Ec
  | match ?o with Some _ => _ | None => _ end = _ => destruct o
  | Done _ = Done _ => injection E1 as <- _ _; try done
  end.
  - clear - Em3. intros ->. destruct (bMonitor _) in Em3; [|by injection Em3].
    by apply CheckUserChangedFlag_status in Em3 as [].
  - discriminate E1.
Qed.

(** C13. To commit at once is to commit later: a call that commits at once does
    what the same call without commit does, followed, when that succeeds, by
    the call of the same session that commits. *)
Theorem commit_now_is_commit_later pAccessEntity l sessionId writeID db :
  MpaSetParameterValues pAccessEntity l sessionId writeID true db =
    (x ← MpaSetParameterValues pAccessEntity l sessionId writeID false db;
     let '(reply, db') := x in
     if negb (returnStatus reply =? STATUS_SUCCESS) || bool_decide (l = []) then Done (reply, db')
     else
       y ← DslhWmpdoMpaSetCommit sessionId writeID true db';
       let '(_, piStatus, db'') := y in
       Done (Reply STATUS_SUCCESS piStatus None, DslhWmpdoResetObjVarArray db'')).
Proof.
  unfold DslhWmpdoMpaSetParameterValues. destruct l as [|v l]; [done|].
  set (l' := v :: l). rewrite (bool_decide_false (l' = [])) by done.
  destruct (set_params _ _ _ _ _ _ _ _ _ _ _) as [[[[[[st nm]|] n] m] db1]|] eqn:E; cbn [mbind outcome_bind]; [..|done].
  - destruct (abandon _ _ _ _); cbn [mbind outcome_bind returnStatus]; [|done].
    apply set_params_fault, Z.eqb_neq in E. by rewrite E.
  - destruct (verify_all _ db1) as [[[nm|] db2]|]; cbn [mbind outcome_bind]; [|done..].
    by destruct (abandon _ _ _ _).
Qed.
End atomic.

(** ** A small backend *)

(** The values of the parameters, with the latest first. *)
Abbreviation cells := (list (nat * cstr * setting)).
Fixpoint cell (c : cells) (i : nat) (n : cstr) : option setting :=
  match c with
  | [] => None
  | (j, m, s) :: c => if bool_decide (j = i) && bool_decide (m = n) then Some s else cell c i n
  end.
Record TOY := Toy { t_committed : cells; t_staged : cells; t_psm : list cstr }.
#[export] Instance toy_two_phase : TwoPhase TOY := {
  committed b := cell (t_committed b); staged b := cell (t_staged b) }.

Definition t_set {A} (make : A -> setting) (i : nat) (n : cstr) (x : A) (b : TOY) : bool * TOY :=
  (true, Toy (t_committed b) ((i, n, make x) :: t_staged b) (t_psm b)).
Definition of_object (i : nat) (c : cells) : cells := filter (fun x => x.1.1 = i) c.
Definition t_commit (i : nat) (b : TOY) : Z * TOY :=
  (0, Toy (of_object i (t_staged b) ++ t_committed b) (filter (fun x => x.1.1 ≠ i) (t_staged b)) (t_psm b)).
Definition t_rollback (i : nat) (b : TOY) : Z * TOY :=
  (0, Toy (t_committed b) (filter (fun x => x.1.1 ≠ i) (t_staged b)) (t_psm b)).
(** It refuses one channel. *)
Definition t_validate (i : nat) (b : TOY) : option cstr * TOY :=
  (match cell (t_staged b) i (lit "Channel") with Some (SInt 13) => Some (lit "Channel") | _ => None end, b).
Definition toy (i : nat) : DSLH_TR69_INTERFACE TOY :=
  Tr69If false None
    (Some (fun n b => match cell (t_committed b) i n with Some (SInt x) => Some x | _ => None end)) None None None None
    (Some (t_set SBool i)) (Some (t_set SInt i)) (Some (t_set SUlong i)) (Some (t_set SString i)) None
    (Some (t_validate i)) (Some (t_commit i)) (Some (t_rollback i)).

Lemma cell_filter_ne i c j n : cell (filter (fun x => x.1.1 ≠ i) c) j n = if bool_decide (j = i) then None else cell c j n.
Proof.
  induction c as [|[[k m] s] c IH]; [by case_bool_decide|]. rewrite filter_cons. cbn [fst]. destruct (decide (k ≠ i)) as [Hk|Hk].
  - cbn [cell]. rewrite IH. destruct (decide (k = j)) as [->|]; [by rewrite (bool_decide_false (j = i)) by done|].
    by rewrite (bool_decide_false (k = j)) by done.
  - rewrite IH. cbn [cell]. apply dec_stable in Hk as ->. case_bool_decide as Hj; [done|].
    by rewrite (bool_decide_false (i = j)) by done.
Qed.

Lemma cell_of_object i c d j n : cell (of_object i c ++ d) j n =
  if bool_decide (j = i) then match cell c j n with Some s => Some s | None => cell d j n end else cell d j n.
Proof.
  unfold of_object. induction c as [|[[k m] s] c IH]; [by case_bool_decide|]. rewrite filter_cons. cbn [fst].
  destruct (decide (k = i)) as [->|Hk].
  - cbn [app cell]. rewrite IH. destruct (decide (i = j)) as [->|]; [|by rewrite (bool_decide_false (i = j)), (bool_decide_false (j = i)) by done].
    rewrite (bool_decide_true (j = j)) by done. by destruct (bool_decide (m = n)).
  - rewrite IH. cbn [cell]. case_bool_decide as Hj; [|done]. subst. by rewrite (bool_decide_false (k = i)) by done.
Qed.

Lemma t_set_stages {A} (make : A -> setting) i : stages i (t_set make i) make.
Proof.
  intros n x b. split; [split; [done|]|].
  - intros j m Hj. cbn. by rewrite (bool_decide_false (i = j)) by done.
  - intros _ m. cbn. rewrite (bool_decide_true (i = i)) by done. cbn. by rewrite (bool_decide_ext (n = m) (m = n)) by done.
Qed.

Lemma toy_is_two_phase i : two_phase i (toy i).
Proof.
  split; [done|done|..]; cbn.
  1-4: eexists; split; [done|apply t_set_stages].
  - by intros g b [= <-].
  - exists (t_commit i). split; [done|]. intros b. split; intros j n; cbn.
    + rewrite cell_of_object. by case_bool_decide; subst.
    + apply cell_filter_ne.
  - exists (t_rollback i). split; [done|]. intros b. split; intros j n; cbn; [done|apply cell_filter_ne].
Qed.

(** ** A small data model *)

Definition int_entity (name : string) (lo hi : Z) : DSLH_VAR_ENTITY :=
  VarEntity (plain_descr name) DSLH_CWMP_DATA_TYPE_int SLAP_VAR_SYNTAX_int SLAP_CONTENT_TYPE_UNSPECIFIED lo hi None.
Definition string_entity (name : string) (len : Z) : DSLH_VAR_ENTITY :=
  VarEntity (plain_descr name) DSLH_CWMP_DATA_TYPE_string SLAP_VAR_SYNTAX_string SLAP_CONTENT_TYPE_UNSPECIFIED len 0 None.
Definition toy_object (i : nat) (name : string) (children : list nat) (l : list DSLH_VAR_RECORD) : DSLH_OBJ_RECORD TOY :=
  ObjRecord (Some (lit name)) [] false true (hDslhVarEntity <$> l) children l (Some (toy i)) false false.
Definition toy_database (st : list (DSLH_OBJ_RECORD TOY)) (b : TOY) : DSLH_WMP_DATABASE TOY :=
  Database st b (Some 0%nat) None None 0 false None true false 0 0.
(** Device.WiFi with Channel and SSID, and Device.Time with Zone. *)
Definition router : DSLH_WMP_DATABASE TOY :=
  toy_database [ toy_object 0 "" [1%nat] [];
                 toy_object 1 "Device" [2%nat; 3%nat] [];
                 toy_object 2 "WiFi" [] [fresh_record (int_entity "Channel" 1 165); fresh_record (string_entity "SSID" 32)];
                 toy_object 3 "Time" [] [fresh_record (string_entity "Zone" 64)] ]
    (Toy [(2%nat, lit "Channel", SInt 6); (2%nat, lit "SSID", SString (Some (lit "home"))); (3%nat, lit "Zone", SString None)] [] []).
Definition ask_int (name : string) (i : Z) : DSLH_CWMP_PARAM_VALUE := ParamValue (Some (lit name)) (Some (int_variable i)).
Definition ask_text (name s : string) : DSLH_CWMP_PARAM_VALUE :=
  ParamValue (Some (lit name)) (Some (string_variable (lit s))).
Definition call (writeID : Z) (bCommit : bool) (l : list DSLH_CWMP_PARAM_VALUE) (db : DSLH_WMP_DATABASE TOY)
  : outcome (REPLY * DSLH_WMP_DATABASE TOY) :=
  @DslhWmpdoMpaSetParameterValues lp64 TOY words_addr (fun _ => []) (fun _ _ => Stuck OutOfBounds)
    (fun _ _ => None) (fun _ b => b) (lit "WebUI") l 7 writeID bCommit db.

Definition any_writer : Z := 4294967295.

Lemma router_quiet : @quiet lp64 _ _ any_writer router.
Proof.
  split; [|..|done|done|done].
  - intros i o Ho. repeat (destruct i as [|i]; [injection Ho as <-|]; try discriminate Ho).
    all: (split; [eexists; split; [done|apply toy_is_two_phase]|done|done|done| |]).
    all: try (apply (bool_decide_eq_true_1 _); by vm_compute).
    all: cbn; intros r Hr; try (by apply elem_of_nil in Hr).
    + apply elem_of_cons in Hr as [->|Hr]; [|apply list_elem_of_singleton in Hr as ->]; (split; [done|done|cbn; set_solver|done]).
    + apply list_elem_of_singleton in Hr as ->; (split; [done|done|cbn; set_solver|done]).
  - intros [i j] r Hr. unfold rec_at in Hr. cbn in Hr.
    do 4 (destruct i as [|i]; [cbn in Hr; repeat (destruct j as [|j]; [by injection Hr as <-|]; try discriminate Hr); try discriminate Hr|]).
    discriminate Hr.
Qed.

(** The status of a call, which must return. *)
Definition status_of (r : outcome (REPLY * DSLH_WMP_DATABASE TOY)) : option Z :=
  match r with Done (reply, _) => Some (returnStatus reply) | Stuck _ => None end.
Lemma status_of_call r st : status_of r = Some st -> exists reply db', r = Done (reply, db') /\ returnStatus reply = st.
Proof. destruct r as [[reply db']|]; cbn; [|done]. intros [= <-]. eauto. Defined.

Lemma call_eq writeID bCommit l db r : call writeID bCommit l db = r ->
  @DslhWmpdoMpaSetParameterValues lp64 TOY words_addr (fun _ => []) (fun _ _ => Stuck OutOfBounds)
    (fun _ _ => None) (fun _ b => b) (lit "WebUI") l 7 writeID bCommit db = r.
Proof. exact (fun E => E). Qed.


