(* ===== verification/ParamFaults.v ===== *)
(** * Where a request is no transaction

    Requests on the small data model of [ParamAtomic] that leave the conditions
    of its theorem: values that were refused and take effect later, values that
    are lost although the request succeeds, and writers that are let through or
    held back against the access list. *)

From S2P Require Import Prelude CStrings Tokens IpAddr SlapVar SlapConv VarEntity VarValid VarRecord ObjRecord ObjCtl ParamSet ParamShape ParamStage ParamThms ParamAtomic.
Open Scope Z_scope.

(** A run of calls: the statuses, and what is committed in the end. *)
Fixpoint calls (l : list (Z * bool * list DSLH_CWMP_PARAM_VALUE)) (db : DSLH_WMP_DATABASE TOY)
  : option (list Z * DSLH_WMP_DATABASE TOY) :=
  match l with
  | [] => Some ([], db)
  | (writeID, bCommit, ps) :: l =>
      match call writeID bCommit ps db with
      | Done (reply, db) =>
          match calls l db with Some (st, db) => Some (returnStatus reply :: st, db) | None => None end
      | Stuck _ => None
      end
  end.
Definition run_ends (l : list (Z * bool * list DSLH_CWMP_PARAM_VALUE)) (db : DSLH_WMP_DATABASE TOY)
    (sts : list Z) (i : nat) (name : string) (v : option setting) : Prop :=
  match calls l db with
  | Some (st, db) => st = sts /\ committed (backend db) i (lit name) = v
  | None => False
  end.

Definition with_access (s : string) (r : DSLH_VAR_RECORD) : DSLH_VAR_RECORD :=
  VarRecord (hDslhVarEntity r) (Some (lit s)) None None None false 0 false false.
Definition one_object (f : DSLH_TR69_INTERFACE TOY) (l : list DSLH_VAR_RECORD) : DSLH_WMP_DATABASE TOY :=
  toy_database [ toy_object 0 "" [1%nat] [];
                 ObjRecord (Some (lit "WiFi")) [] false true (hDslhVarEntity <$> l) [] l (Some f) false false ]
    (Toy [(1%nat, lit "Channel", SInt 6)] [] []).

(** A channel that only the CLI may set, and an open power level. *)
Definition guarded : DSLH_WMP_DATABASE TOY :=
  one_object (toy 1) [with_access "CLI" (fresh_record (int_entity "Channel" 1 165)); fresh_record (int_entity "Power" 0 100)].
Definition open_channel : list DSLH_VAR_RECORD :=
  [fresh_record (int_entity "Channel" 1 165); fresh_record (int_entity "Power" 0 100)].

(** Refused or dropped values take effect later.  A value that access control
    denies stays pending, and the next request on the object commits it.  A
    request whose first parameter is wrong forgets the uncommitted request
    before it without cancelling it, and a later commit on the object makes
    its value effective. *)
Theorem refused_values_take_effect :
  run_ends [(DSLH_MPA_ACCESS_CONTROL_ACS, true, [ask_int "WiFi.Channel" 36])] guarded
    [CCSP_ERR_NOT_WRITABLE] 1 "Channel" (Some (SInt 6)) /\
  run_ends [(DSLH_MPA_ACCESS_CONTROL_ACS, true, [ask_int "WiFi.Channel" 36]); (DSLH_MPA_ACCESS_CONTROL_ACS, true, [ask_int "WiFi.Power" 50])] guarded
    [CCSP_ERR_NOT_WRITABLE; STATUS_SUCCESS] 1 "Channel" (Some (SInt 36)) /\
  run_ends [(any_writer, false, [ask_int "WiFi.Channel" 36]); (any_writer, true, [ask_int "WiFi.Nope" 1]);
        (any_writer, true, [ask_int "WiFi.Power" 50])] (one_object (toy 1) open_channel)
    [STATUS_SUCCESS; CCSP_ERR_INVALID_PARAMETER_NAME; STATUS_SUCCESS] 1 "Channel" (Some (SInt 36)).
Proof. split_and!; vm_compute; split; exact eq_refl. Qed.

(** A backend whose commit fails, and a parameter kept in the repository. *)
Definition failing : DSLH_TR69_INTERFACE TOY :=
  Tr69If false None None None None None None
    None (Some (t_set SInt 1)) None None None None (Some (fun b => (STATUS_FAILURE, b))) None.
Definition persistent_channel : DSLH_VAR_RECORD :=
  fresh_record (VarEntity (ParamDescr (lit "Channel") true true false false false None)
    DSLH_CWMP_DATA_TYPE_int SLAP_VAR_SYNTAX_int SLAP_CONTENT_TYPE_UNSPECIFIED 1 165 None).

(** Thirty-three objects of one parameter each. *)
Fixpoint number (n : nat) : string := match n with O => "x" | S n => String.append "x" (number n) end.
Definition many : DSLH_WMP_DATABASE TOY :=
  toy_database (toy_object 0 "" (seq 1 33) [] ::
      ((fun i => toy_object i (number i) [] [fresh_record (int_entity "V" 0 9)]) <$> seq 1 33))
    (Toy [] [] []).
Definition all_of_many : list DSLH_CWMP_PARAM_VALUE := (fun i => ask_int (String.append (number i) ".V") 5) <$> seq 1 33.

(** Values are lost by requests that succeed: the second of two values that a
    parameter is given before the commit; the value of the 33rd object of a
    request; a value whose backend fails to commit; and the value of a
    parameter that is kept in the repository. *)
Theorem accepted_values_are_lost :
  run_ends [(any_writer, false, [ask_int "WiFi.Channel" 36]); (any_writer, true, [ask_int "WiFi.Channel" 40])]
    (one_object (toy 1) open_channel) [STATUS_SUCCESS; STATUS_SUCCESS] 1 "Channel" (Some (SInt 36)) /\
  (run_ends [(any_writer, true, all_of_many)] many [STATUS_SUCCESS] 32 "V" (Some (SInt 5)) /\
   run_ends [(any_writer, true, all_of_many)] many [STATUS_SUCCESS] 33 "V" None) /\
  run_ends [(any_writer, true, [ask_int "WiFi.Channel" 36])] (one_object failing open_channel)
    [STATUS_SUCCESS] 1 "Channel" (Some (SInt 6)) /\
  run_ends [(any_writer, true, [ask_int "WiFi.Channel" 36])] (one_object (toy 1) [persistent_channel])
    [STATUS_SUCCESS] 1 "Channel" (Some (SInt 6)).
Proof. split_and!; vm_compute; split; exact eq_refl. Qed.

(** The masks that an access list stands for are not those of the writers: a
    parameter that only the ACS may write is refused to the ACS, and one that
    only the web interface may write is refused to it and open to the ACS. *)
Theorem access_list_masks :
  access_denied DSLH_MPA_ACCESS_CONTROL_ACS (Some (lit "ACS")) = true /\
  access_denied 1 (Some (lit "WebUI")) = true /\
  access_denied DSLH_MPA_ACCESS_CONTROL_ACS (Some (lit "WebUI")) = false /\
  access_denied DSLH_MPA_ACCESS_CONTROL_SNMP (Some (lit "CLI")) = false.
Proof. split_and!; vm_compute; exact eq_refl. Qed.
